(* ===== verification/_CoqProject ===== *)
-Q . S2P
Prelude.v
GoStd.v
HostPort.v
NetIP.v
IPNet.v
Subnet.v
SubnetAlloc.v
SubnetSpec.v
IPAlloc.v
IPSpec.v
SubnetRange.v
CombinedAlloc.v
CombinedSpec.v
CombinedLive.v
CombinedIPs.v
NetText.v
PathMatch.v
DNSCache.v
DNSReverse.v
Bytecode.v
Machine.v
AddrCache.v
SockOwner.v
FirewallConfig.v
FirewallOptimize.v
FirewallPolicy.v
FirewallMerge.v
ResponseTable.v
Firewall.v
FirewallConn.v
TunFirewall.v
TunFirewallSpec.v
Scans.v
RouterCfg.v
Packet.v
SplitCompile.v
SplitCache.v
SplitRouter.v
SplitSpec.v
SnifferRules.v
Remapper.v
RemapRules.v
DNSRouter.v
DNSRules.v
RuleParser.v
ParserSpec.v
RulesText.v
Reject.v
Callbacks.v
NetRouter.v
RouterUDP.v
RouterSys.v
RouterInv.v
RouterThreads.v
RouterSafe.v
RouterChannels.v
RouterLeak.v
RouterSpec.v
RouterRaces.v
RouterOps.v
Classifier.v
Combinators.v
CombinatorsSpec.v
Protocols.v
WellKnown.v
HTTPSniff.v
TLSHello.v
PrefixSpec.v
ProtocolsSpec.v
LinesSpec.v
HTTPSpec.v
TLSSpec.v
Putback.v
Sniff.v
TLSRoundtrip.v
TLSSniff.v
Sniffers.v
Joiner.v
JoinerTable.v
JoinerSpec.v
