(* ===== verification/Prelude.v ===== *)
(** * Gonnect: a verification library

    Gonnect is a Go library that composes networks: a network is an object
    with dial, listen and lookup operations, and wrappers route, filter, remap
    or observe the calls and packets that pass through it.  The decisions of
    these wrappers are written as rules, one operation per line, which a parser
    compiles into bytecode for small stack machines.  This development models
    the rule language, the machines, the parsers of packets and endpoints they
    read, the DNS components that feed them with host names, the firewalls of
    networks and tunnel devices, the router that combines several networks into
    one, the joiner that combines several tunnel devices, the sniffer of
    protocols, and the allocators of subnets and addresses.

    ** The parts and how they interact

    - Rule text is parsed by src/routing/parser.go and sniff_specs.go into
      bytecode programs and tables of arguments.  One text can give several
      programs, one per method of a router.
    - Every consumer of bytecode validates it with src/routing/bytecode.go,
      which also holds the decoding of instructions and the lazily computed
      view of an endpoint (host, address, port, cached reverse DNS names).
    - router_bytecode.go picks a slot (a numbered network) for a socket call;
      split_bytecode.go picks one for a raw IP packet; sniffer_bytecode.go
      decides how a sniffed call goes on; remapper_bytecode.go filters the rules
      that src/remapper.go applies to endpoints; dns_bytecode.go names the
      backend to which src/dns/router.go sends a DNS request.
    - The split router asks matchers that find the socket owning a flow; the
      flow is read from the packet by src/sockowner/ip.go, while the split
      router has its own packet parser whose fields key its caches.
    - src/dns/middleware.go stores answers and synthetic reverse entries, which
      the routers read back as host names of addresses.
    - A firewall configuration (src/firewall_config.go) is optimized
      (firewall_config_optimize.go) and installed in a firewall that wraps a
      network (src/firewall.go) or a tunnel device (src/tun/firewall.go); both
      remember outgoing traffic to admit its responses, and look up host names
      of addresses in the DNS cache.
    - src/router.go is a network in front of sixteen slots for other networks.  It
      asks a RouterCfg (such as the one of router_bytecode.go) for the slot of a
      call, tracks what it returns in order to close it when the slot is detached
      or the router goes down, and keeps one socket per backend for every UDP
      listener.  It closes objects through the callbacks of src/callbacks.go and
      rejects calls with the errors of src/reject.go.
    - src/subnet hands out address space: normalizers and range conversions
      (subnet.go), an allocator of subnets (alloc.go) and one of single addresses
      (ip_alloc.go), and a combined allocator over several pools in which addresses
      and subnets must not overlap.
    - src/sniffer reads the first bytes of a connection to recognise its protocol
      and puts them back (src/putback); its calls are what sniffer_bytecode.go
      decides on.
    - src/tun/joiner.go makes one tunnel device out of several: it learns from
      the packets of each device which addresses and flows belong to it, and
      writes incoming packets to the device that they are for.

    ** Files

    - Prelude: outcomes of Go code ([run]: returned, panicked, out of fuel;
      [result]: value or error) with their notations, lists indexed by Go
      integers, fixed-width integers, automation and the hint database.
    - GoStd, HostPort, NetIP: what the code uses of strings, strconv, net and
      net/netip, with the lemmas on texts of endpoints and numbers.  NetText:
      the round trips of addresses and prefixes through their texts.  PathMatch:
      path.Match.
    - DNSCache: src/dns/types.go and the storage part of src/dns/middleware.go
      ([CacheStorage] is a class; [MemoryStorage] is its instance).
      DNSReverse: the Cache middleware of the same file ([Cache], [CacheAttach],
      [CacheDetach], the phases [handle_begin] and [handle_end] of a request)
      and its reverse entries ([storeReverseLookups], [ptrCacheNames]).
    - Bytecode, AddrCache: src/routing/bytecode.go ([validateBytecode],
      [readBytecodeParam], [addrCache], [bytecodeEval]).
      Machine: the reference stack machine and the soundness of validation,
      the specification that all evaluators refine.  Scans: what the scans over
      a program report.
    - RouterCfg: src/routing/router_bytecode.go ([NewBytecodeRouterCfg],
      [router_call]).
    - SockOwner: src/sockowner/ip.go.  Packet: the packet parser of
      src/routing/split_bytecode.go, and that the two agree.
    - SplitCompile: compiler and evaluators of split_bytecode.go.  SplitCache:
      its two result caches, one generic model.  SplitRouter: constructor,
      Route, Close and the state of one evaluation.  SplitSpec: the reference
      of a packet and the refinement.
    - SnifferRules: src/routing/sniffer_bytecode.go and the calls and actions
      of src/sniffer/network.go.
    - Remapper: src/remapper.go.  RemapRules: src/routing/remapper_bytecode.go.
    - DNSRouter: src/dns/router.go as a step relation.  DNSRules:
      src/routing/dns_bytecode.go.
    - FirewallConfig: src/firewall_config.go, and the reference meaning of a
      rule ([policy_matches]) that its six queries compute.  FirewallOptimize:
      src/firewall_config_optimize.go.  FirewallPolicy: what canonical hosts,
      ports, networks and rules select.  FirewallMerge: the loops over rules and
      the theorems about [Optimize] and [MergeFirewallConfigs].
    - ResponseTable: the tables of expected responses of both firewalls, one
      generic model with the history of records as its specification.
      Firewall: src/firewall.go.  FirewallConn: the reference of its
      connections and the refinement.  TunFirewall: src/tun/firewall.go.
      TunFirewallSpec: what it reads and writes.
    - Reject: src/reject.go, the errors of src/errors.go and the network names of
      src/helpers.go.  Callbacks: src/callbacks.go.  NetRouter: the fields of
      Router ([lifecycle], [slotTable], [trackedTable], [subscribers]) and every
      critical section of src/router.go.  RouterUDP: the same for routerUDPConn.
      RouterSys: the threads that run the sections ([action], [exec]), what users
      and backends may do ([call]), and the step relation.  RouterInv,
      RouterThreads, RouterSafe, RouterChannels, RouterLeak: the invariants of the
      fields, of what threads refer to, of channels and of ownership, each kept by
      every statement.  RouterSpec: the theorems on reachable states.
      RouterRaces: schedules, which give witnesses and counterexamples.
      RouterOps: the outcome of one operation.
    - IPNet: what the code uses of net.IP, net.IPMask and net.IPNet.  Subnet:
      src/subnet/subnet.go, with its normalizers and ranges.  SubnetRange: the
      theorems on FromRange and ExtendIPNet.  SubnetAlloc, IPAlloc, CombinedAlloc:
      alloc.go, ip_alloc.go and combined_alloc.go with default_alloc.go.
      SubnetSpec: what its search loop finds, the contract of an allocator as a
      class ([SubnetAllocatorContract]), its histories and the instance for
      subnets.  IPSpec, CombinedSpec, CombinedLive, CombinedIPs: searches,
      invariants and histories of the other two.
    - RuleParser: src/routing/parser.go, sniff_specs.go and the segment parser
      of remapper_bytecode.go.  ParserSpec: what a parsed program decodes to.
      RulesText: a semantics of rules on their text, and that the routers built
      from the text have it.
    - Classifier: the interface of src/sniffer/classifier.go as a class, its
      contract (verdicts that do not depend on the cuts of a stream) and
      metadata.  Combinators: combinators.go and the limit of basic.go.
      Protocols, WellKnown, HTTPSniff, TLSHello: protocols.go, wellknown.go,
      http.go and tls.go.  CombinatorsSpec, PrefixSpec, ProtocolsSpec, LinesSpec,
      HTTPSpec, TLSSpec: that each keeps the contract.
      TLSRoundtrip: the wire format of a ClientHello.  Putback:
      src/putback/conn.go.  Sniff: sniff.go.  TLSSniff: SniffTLSClientHello.
      Sniffers: the classifiers of the package together.
    - Joiner: src/tun/joiner_flow.go and joiner.go; records of routes live in a
      store and pointers are numbers.  JoinerTable: segments of the linked list,
      what each operation does to it, and the list of entries it refines.
      JoinerSpec: the invariant of the joiner, the steps that callers and
      goroutines take, and where packets are routed.

    ** What the theorems show

    - The split router: with any history of packets, whatever its caches hold,
      Route returns what the reference machine computes from the packet, the
      answers of the matchers and the DNS names ([split_route_reference]); it
      never panics ([split_route_safe]); its constructor closes what it built
      when it fails ([split_constructor_closes]).
    - The result caches: safety in every interleaving of critical sections,
      refinement of the map of latest entries, the round trip of a stored
      result with int64 expiry, and its failure when the TTL overflows.
    - The packet parsers: totality on every buffer, agreement of the two
      parsers, symmetry of incoming and outgoing flows.
    - Router, sniffer, DNS and remap rules: the constructor accepts only
      programs that never panic, and the evaluator computes the reference; the
      remapper changes exactly the selected endpoint.
    - The parser: every line becomes its instruction with its argument in the
      table; the routers built from a text answer as the text read line by line,
      although each program leaves out the segments that cannot trigger; the
      search for inline names ends.
    - The DNS components: in every interleaving live requests of the router
      belong to the installed configuration and mutations cancel the others; the
      caching middleware serves what it stored, drops answers of replaced
      upstreams, and its reverse entries are found by the routing rules.
    - The firewalls: optimizing a configuration changes no answer
      ([optimize_same_policy], with the entries for which it does in
      [optimize_changes_policy]); merging gives the union; a connection delivers
      exactly the datagrams that the rules include or that answer an allowed
      write ([firewall_conn_refines]); dial operations fail exactly when the
      configuration blocks the destination; listeners return the first included
      connection; the packet firewall forwards exactly the admitted packets, and
      its counts let the caller resume.  Two theorems show where responses are
      lost: nil addresses on connected sockets, and ICMP errors that quote a
      packet in part.
    - The network router: in every interleaving nothing that a backend opened is
      lost ([router_leaks_nothing]), the effective state and the tables of tracked
      objects are consistent ([router_state_consistent]), going down cancels the
      operations in progress ([router_cancels_pending]), nothing panics
      ([router_interleavings_safe]); an operation by itself calls the backend of
      the selected slot or fails as the rejecting network does
      ([routed_operation_outcome]).  Four schedules show what overlapping calls can
      break: a connection survives the detaching of its slot, a subscriber misses
      the last state, a slot watches another backend, a UDP listener keeps a socket
      of a detached backend.
    - The allocators: after any history of operations, what is allocated and
      not yet freed is disjoint and inside its pool ([live_subnets_disjoint],
      [combined_live_disjoint]); the subnet allocator returns the first free
      aligned block after its cursor and fails only when there is none
      ([alloc_first_fit]), the address allocator the next free address
      ([alloc_ip_next_fit]); a prefix and its range determine each other
      ([range_roundtrip]), and the two ways to take a numbered subnet of a network
      agree ([extend_is_narrow]).
    - The sniffer: every combination of the classifiers of the package keeps the
      contract of the interface ([package_contract]); sniffing selects the same
      classifier however the bytes arrive and loses none of them
      ([sniff_selects]); what is sniffed of a TLS ClientHello is what was encoded
      ([sniff_tls_roundtrip]); the glob matcher computes the language of its
      pattern ([glob_match_correct]); a ClientHello of 34 bytes panics the TLS
      parser ([tls_short_hello_panics]).
    - The joiner: its linked table refines a list in the order of last use,
      bounded by the limit ([joiner_table_refines]); in every reachable state no
      operation panics and packets are routed to attached devices only
      ([joiner_routes_to_attached]); answers and ICMP errors go back to the device
      whose flow they answer ([joiner_reply_returns]).  A joiner whose goroutine
      could not be started panics when it is closed ([joiner_close_panics]), its
      MTU can depend on the order of a map, and a later fragment can be taken for
      an ICMP error.

    ** Conventions, bounds and fuel

    A w-bit integer is a [Z] with its wrap-around written out where it can
    occur; bytes are [byte]; a Go [int] that indexes is a [Z], and a read out of
    range gives [Panicked].  Counters that only count events (generations and ids
    of the routers) are natural numbers.  Concurrency is modelled where the code
    has locks, by one step per critical section.  A loop that is not structural has fuel:
    one unit per byte of a program or packet (each iteration consumes at least
    one), one per condition of the arena of the compiler (children have smaller
    indexes), nine for the groups of an IPv6 address, one per used name for
    inline names, 20 for the decimal digits of an integer (below 10^20, so every
    64-bit number), four for the hexadecimal digits of a 16-bit group, one per
    rule for the merging loop of the firewall optimizer (each round removes a
    rule), one per blocker or reserved address plus the code's own limit of 1000
    attempts for the searches of the allocators (every round passes a blocker,
    and the search lemmas prove that this fuel suffices), one per byte of the
    buffer for the reading loop of the sniffer, and the product of the lengths of
    pattern and value for the glob matcher, the code's own 16 for the extension
    headers of the joiner, and one more than the number of records for the loops
    over its linked list (the list holds each record once, which [linked_bound]
    uses).  A loop that waits for the wrapped network or device consumes the
    list of the results that it returns, and the end of the list is where it
    blocks.  The safety theorems prove that the fuel of the byte and arena loops is enough:
    the result is [Done].

    Parameters, because their code is not in the repository: compiled regular
    expressions (functions on strings) and their compiler, the services
    database of the host, matchers of the host's socket tables, clocks, the
    iteration order of Go maps, constructors of classifiers, the random numbers
    of the combined allocator, strings.ToLower and url.Parse of the HTTP and TLS
    classifiers ([TextLib]), the connection that is sniffed ([NetConn]).
    Elsewhere text is treated byte-wise with ASCII case mapping.

    ** Not modelled

    Sockets, TUN devices, TLS, process tables and the goroutine loops of the DNS
    transports are input and output.  Of the network router, the errors that
    closed objects and notified subscribers return are not collected.  The
    detachable, loopback and filtering networks, the sniffing network of
    src/sniffer/network.go and the splitter and detachable devices of
    src/tun are wrappers made of goroutines and channels that move data between
    objects, and are left out, except for the helpers that the modelled parts
    call.  Of the joiner, the channels between its goroutines and the buffer
    pools are left out: a critical section receives what the channel would give
    it.  The meaning of rule text is proved for the socket routers; the split,
    DNS and sniffer constructors use the same parser, and their theorems start
    from the program. *)

From Stdlib Require Export ZArith Lia Strings.Byte.
From stdpp Require Export base list strings gmap.

#[global] Open Scope Z_scope.

#[global] Arguments Z.shiftr : simpl never.
#[global] Arguments Z.shiftl : simpl never.
#[global] Arguments Z.land : simpl never.
#[global] Arguments Z.lor : simpl never.
#[global] Arguments Z.lxor : simpl never.
#[global] Arguments Z.pow : simpl never.
#[global] Arguments Z.modulo : simpl never.
#[global] Arguments Z.div : simpl never.
#[global] Arguments Byte.to_N : simpl never.

(** ** Outcomes of Go code

    A Go function returns, panics (an index out of range, a nil dereference),
    or, when a loop is run with bounded fuel, may not have finished. *)

Inductive run (A : Type) : Type :=
| Done (a : A)
| Panicked
| OutOfFuel.

Arguments Done {A} a.
Arguments Panicked {A}.
Arguments OutOfFuel {A}.

Definition run_bind {A B} (c : run A) (k : A -> run B) : run B :=
  match c with
  | Done a => k a
  | Panicked => Panicked
  | OutOfFuel => OutOfFuel
  end.

(** A read that panics when the position is not there. *)
Definition must {A} (o : option A) : run A :=
  match o with
  | Some a => Done a
  | None => Panicked
  end.

Declare Scope go_scope.
Delimit Scope go_scope with go.
Notation "'let!' x ':=' c 'in' k" := (run_bind c (fun x => k))
  (at level 10, x binder, c at level 100, k at level 200) : go_scope.
#[global] Open Scope go_scope.

(** Go's pair of a value and an error: the error or the value. *)
Inductive result (E A : Type) : Type :=
| Success (a : A)
| Failure (e : E).

Arguments Success {E A} a.
Arguments Failure {E A} e.

Definition result_bind {E A B} (c : result E A) (k : A -> result E B) : result E B :=
  match c with
  | Success a => k a
  | Failure e => Failure e
  end.

Notation "'try!' x ':=' c 'in' k" := (result_bind c (fun x => k))
  (at level 10, x binder, c at level 100, k at level 200) : go_scope.

(** [if cond { return err }] *)
Definition check {E} (cond : bool) (e : E) : result E unit :=
  if cond then Failure e else Success tt.

Definition is_success {E A} (r : result E A) : bool :=
  match r with Success _ => true | Failure _ => false end.

(** What one iteration of a loop does next. *)
Inductive ctl (S R : Type) : Type :=
| Continue (s : S)
| Return (r : R).

Arguments Continue {S R} s.
Arguments Return {S R} r.

(** ** Bytes, slices and machine words *)

Definition bZ (b : byte) : Z := Z.of_N (Byte.to_N b).

Definition byte_of_Z (z : Z) : byte :=
  match Byte.of_N (Z.to_N (z mod 256)) with Some b => b | None => x00 end.

#[global] Instance byte_eq_dec : EqDecision byte.
Proof. intros a b. exact (Byte.byte_eq_dec a b). Defined.

(** Bytes and their values, as keys of maps. *)
#[global] Instance byte_countable : Countable byte.
Proof. apply (inj_countable Byte.to_N Byte.of_N). apply Byte.of_to_N. Defined.

(** [l[i]] for a Go [int] index: absent when the access would panic. *)
Definition index {A} (l : list A) (i : Z) : option A :=
  if i <? 0 then None else l !! Z.to_nat i.

(** [len(l)] *)
Definition zlen {A} (l : list A) : Z := Z.of_nat (length l).

(** [l[i:j]] with Go's bounds check. *)
Definition slice {A} (l : list A) (i j : Z) : option (list A) :=
  if (0 <=? i) && (i <=? j) && (j <=? zlen l)
  then Some (take (Z.to_nat (j - i)) (drop (Z.to_nat i) l))
  else None.

(** [binary.BigEndian.Uint16(l[i:])], [Uint32] and [binary.LittleEndian.Uint16]. *)
Definition be16 (l : list byte) (i : Z) : option Z :=
  match index l i, index l (i + 1) with
  | Some a, Some b => Some (bZ a * 256 + bZ b)
  | _, _ => None
  end.

Definition be32 (l : list byte) (i : Z) : option Z :=
  match be16 l i, be16 l (i + 2) with
  | Some a, Some b => Some (a * 65536 + b)
  | _, _ => None
  end.

Definition le16 (l : list byte) (i : Z) : option Z :=
  match index l i, index l (i + 1) with
  | Some a, Some b => Some (bZ a + bZ b * 256)
  | _, _ => None
  end.

(** The big-endian value of a byte string. *)
Definition be_value (l : list byte) : Z :=
  fold_left (fun acc b => acc * 256 + bZ b) l 0.

Definition u16 (z : Z) : Z := z mod 2 ^ 16.
Definition u32 (z : Z) : Z := z mod 2 ^ 32.
Definition u64 (z : Z) : Z := z mod 2 ^ 64.
Definition i64 (z : Z) : Z := (z + 2 ^ 63) mod 2 ^ 64 - 2 ^ 63.

(** ** Shared lemmas *)

Lemma i64_id z : - 2 ^ 63 <= z < 2 ^ 63 -> i64 z = z.
Proof. intros Hz. unfold i64. rewrite Z.mod_small by lia. lia. Qed.

Lemma bZ_range b : 0 <= bZ b < 256.
Proof.
  unfold bZ. pose proof (Byte.to_N_bounded b) as H. lia.
Qed.

Lemma bZ_inj a b : bZ a = bZ b -> a = b.
Proof.
  unfold bZ. intros H%N2Z.inj.
  pose proof (Byte.of_to_N a) as Ha. pose proof (Byte.of_to_N b) as Hb.
  rewrite H in Ha. congruence.
Qed.

Lemma byte_of_Z_bZ b : byte_of_Z (bZ b) = b.
Proof.
  unfold byte_of_Z. pose proof (bZ_range b).
  rewrite Z.mod_small by lia. unfold bZ.
  rewrite N2Z.id, Byte.of_to_N. reflexivity.
Qed.

Lemma bZ_byte_of_Z z : 0 <= z < 256 -> bZ (byte_of_Z z) = z.
Proof.
  intros H. unfold byte_of_Z. rewrite Z.mod_small by lia.
  destruct (Byte.of_N (Z.to_N z)) as [b|] eqn:E.
  - apply Byte.to_of_N in E. unfold bZ. lia.
  - apply Byte.of_N_None_iff in E. lia.
Qed.

Lemma zlen_nonneg {A} (l : list A) : 0 <= zlen l.
Proof. unfold zlen. lia. Qed.

Lemma zlen_app {A} (l k : list A) : zlen (l ++ k) = zlen l + zlen k.
Proof. unfold zlen. rewrite length_app. lia. Qed.

Lemma zlen_cons {A} (x : A) l : zlen (x :: l) = zlen l + 1.
Proof. unfold zlen. simpl. lia. Qed.

Lemma index_Some_range {A} (l : list A) i x : index l i = Some x -> 0 <= i < zlen l.
Proof.
  unfold index, zlen. destruct (Z.ltb_spec i 0) as [|]; [done|].
  intros Hl%lookup_lt_Some. lia.
Qed.

Lemma index_in_range {A} (l : list A) i : 0 <= i < zlen l -> is_Some (index l i).
Proof.
  unfold index, zlen. intros H. destruct (Z.ltb_spec i 0); [lia|].
  apply lookup_lt_is_Some. lia.
Qed.

Lemma index_None {A} (l : list A) i : index l i = None <-> ~ (0 <= i < zlen l).
Proof.
  split.
  - intros H Hr. apply index_in_range in Hr as [x Hx]. congruence.
  - intros H. destruct (index l i) eqn:E; [|done].
    apply index_Some_range in E. contradiction.
Qed.

Lemma index_app_l {A} (l k : list A) i : i < zlen l -> index (l ++ k) i = index l i.
Proof.
  unfold index, zlen. intros H. destruct (Z.ltb_spec i 0); [done|].
  apply lookup_app_l. lia.
Qed.

Lemma index_app_r {A} (l k : list A) i : zlen l <= i -> index (l ++ k) i = index k (i - zlen l).
Proof.
  unfold index, zlen. intros H.
  destruct (Z.ltb_spec i 0), (Z.ltb_spec (i - Z.of_nat (length l)) 0); try lia.
  rewrite lookup_app_r by lia. f_equal. lia.
Qed.

Lemma index_snoc {A} (l : list A) x : index (l ++ [x]) (zlen l) = Some x.
Proof. rewrite index_app_r by lia. rewrite Z.sub_diag. reflexivity. Qed.

Lemma index_map {A B} (f : A -> B) (l : list A) i : index (map f l) i = f <$> index l i.
Proof.
  unfold index. destruct (i <? 0); [done|]. apply list_lookup_fmap.
Qed.

Lemma index_elem {A} (l : list A) i x : index l i = Some x -> x ∈ l.
Proof.
  unfold index. destruct (i <? 0); [done|]. intros H.
  apply list_elem_of_lookup. eauto.
Qed.

Lemma index_take {A} (l : list A) n i :
  0 <= i < n -> index (take (Z.to_nat n) l) i = index l i.
Proof.
  intros H. unfold index. destruct (Z.ltb_spec i 0); [lia|].
  rewrite lookup_take_lt by lia. reflexivity.
Qed.

Lemma index_drop {A} (l : list A) n i :
  0 <= n -> 0 <= i -> index (drop (Z.to_nat n) l) i = index l (n + i).
Proof.
  intros Hn Hi. unfold index.
  destruct (Z.ltb_spec i 0), (Z.ltb_spec (n + i) 0); try lia.
  rewrite lookup_drop. f_equal. lia.
Qed.

Lemma index_slice {A} (l k : list A) i j n :
  slice l i j = Some k -> 0 <= n < j - i -> index k n = index l (i + n).
Proof.
  unfold slice. destruct ((0 <=? i) && (i <=? j) && (j <=? zlen l)) eqn:E; [|done].
  intros [= <-] Hn. rewrite index_take by lia. apply index_drop; lia.
Qed.

Lemma zlen_slice {A} (l k : list A) i j : slice l i j = Some k -> zlen k = j - i.
Proof.
  unfold slice. destruct ((0 <=? i) && (i <=? j) && (j <=? zlen l)) eqn:E; [|done].
  intros [= <-]. unfold zlen in *. rewrite length_take, length_drop. lia.
Qed.

Lemma slice_in_range {A} (l : list A) i j :
  0 <= i <= j -> j <= zlen l -> is_Some (slice l i j).
Proof.
  intros H1 H2. unfold slice.
  replace ((0 <=? i) && (i <=? j) && (j <=? zlen l)) with true by lia. eauto.
Qed.

Lemma be16_range l i v : be16 l i = Some v -> 0 <= v < 65536.
Proof.
  unfold be16. destruct (index l i) as [a|], (index l (i + 1)) as [b|]; try done.
  intros [= <-]. pose proof (bZ_range a). pose proof (bZ_range b). lia.
Qed.

Lemma le16_range l i v : le16 l i = Some v -> 0 <= v < 65536.
Proof.
  unfold le16. destruct (index l i) as [a|], (index l (i + 1)) as [b|]; try done.
  intros [= <-]. pose proof (bZ_range a). pose proof (bZ_range b). lia.
Qed.

Lemma be16_in_range l i : 0 <= i -> i + 2 <= zlen l -> is_Some (be16 l i).
Proof.
  intros H1 H2. unfold be16.
  destruct (index_in_range l i ltac:(lia)) as [a ->].
  destruct (index_in_range l (i + 1) ltac:(lia)) as [b ->]. eauto.
Qed.

Lemma le16_in_range l i : 0 <= i -> i + 2 <= zlen l -> is_Some (le16 l i).
Proof.
  intros H1 H2. unfold le16.
  destruct (index_in_range l i ltac:(lia)) as [a ->].
  destruct (index_in_range l (i + 1) ltac:(lia)) as [b ->]. eauto.
Qed.

Lemma be16_slice l k i j n :
  slice l i j = Some k -> 0 <= n -> n + 2 <= j - i -> be16 k n = be16 l (i + n).
Proof.
  intros H H1 H2. unfold be16.
  rewrite !(index_slice _ _ _ _ _ H) by lia.
  replace (i + (n + 1)) with (i + n + 1) by lia. reflexivity.
Qed.

Lemma slice_0_index {A} (l k : list A) n i :
  slice l 0 n = Some k -> 0 <= i < n -> index k i = index l i.
Proof. intros H Hi. rewrite (index_slice _ _ _ _ _ H) by lia. reflexivity. Qed.

Lemma run_bind_Done {A B} (c : run A) (k : A -> run B) b :
  run_bind c k = Done b <-> exists a, c = Done a /\ k a = Done b.
Proof.
  destruct c; simpl; split; [eauto|intros (? & [= ->] & ?); done|done|intros (? & ? & ?); done
    |done|intros (? & ? & ?); done].
Qed.

Lemma result_bind_Success {E A B} (c : result E A) (k : A -> result E B) b :
  result_bind c k = Success b <-> exists a, c = Success a /\ k a = Success b.
Proof.
  destruct c; simpl; split; [eauto|intros (? & [= ->] & ?); done|done|intros (? & ? & ?); done].
Qed.

Lemma check_Success {E} (cond : bool) (e : E) u : check cond e = Success u <-> cond = false.
Proof. destruct cond, u; simpl; naive_solver. Qed.

(** ** Boolean quantifiers over lists *)

Lemma existsb_map {A B} (f : A -> B) (p : B -> bool) l : existsb p (map f l) = existsb (fun a => p (f a)) l.
Proof. induction l as [|a l IH]; [done|]. cbn [map existsb]. by rewrite IH. Qed.

Lemma existsb_flat_map {A B} (f : A -> list B) (p : B -> bool) l :
  existsb p (flat_map f l) = existsb (fun a => existsb p (f a)) l.
Proof. induction l as [|a l IH]; [done|]. cbn [flat_map existsb]. by rewrite existsb_app, IH. Qed.

Lemma existsb_or {A} (p q : A -> bool) l : existsb p l || existsb q l = existsb (fun a => p a || q a) l.
Proof.
  induction l as [|a l IH]; [done|]. cbn [existsb]. rewrite <- IH.
  destruct (p a), (q a), (existsb p l), (existsb q l); done.
Qed.

Lemma existsb_ext {A} (p q : A -> bool) l : (forall a, p a = q a) -> existsb p l = existsb q l.
Proof. intros E. induction l as [|a l IH]; [done|]. cbn [existsb]. by rewrite E, IH. Qed.

Lemma existsb_false {A} (l : list A) : existsb (fun _ => false) l = false.
Proof. by induction l. Qed.

Lemma existsb_mem {A} (p : A -> bool) l k : (forall x, x ∈ l <-> x ∈ k) -> existsb p l = existsb p k.
Proof.
  intros Hm. apply eq_bool_prop_intro. rewrite !Is_true_true, !existsb_exists.
  by split; intros (x & Hx & Hp); exists x; (split; [apply list_elem_of_In, Hm, list_elem_of_In|]).
Qed.

Lemma existsb_swap {A B} (r : A -> B -> bool) l k :
  existsb (fun a => existsb (r a) k) l = existsb (fun b => existsb (fun a => r a b) l) k.
Proof.
  induction l as [|a l IH]; cbn [existsb].
  - induction k as [|b k IHk]; [done|exact IHk].
  - rewrite IH. by rewrite existsb_or.
Qed.

Lemma forallb_map {A B} (f : A -> B) (g : B -> bool) l : forallb g (map f l) = forallb (fun x => g (f x)) l.
Proof. induction l; simpl; congruence. Qed.

(** ** Automation *)

(** Splits the hypotheses [c >>= k = Success _] and [check c e = Success _]. *)
Ltac inv_result :=
  repeat match goal with
  | H : result_bind _ _ = Success _ |- _ => apply result_bind_Success in H as (? & ? & ?)
  | H : check _ _ = Success _ |- _ => apply check_Success in H
  | H : Success _ = Success _ |- _ => injection H as ?; subst
  | H : Failure _ = Success _ |- _ => discriminate H
  end.

Ltac inv_run :=
  repeat match goal with
  | H : run_bind _ _ = Done _ |- _ => apply run_bind_Done in H as (? & ? & ?)
  | H : Done _ = Done _ |- _ => injection H as ?; subst
  | H : Panicked = Done _ |- _ => discriminate H
  | H : OutOfFuel = Done _ |- _ => discriminate H
  | H : must ?o = Done _ |- _ => destruct o eqn:?; simpl in H; [|discriminate H]
  end.

Create HintDb gonnect.
Create Rewrite HintDb gonnect.
#[export] Hint Resolve bZ_range zlen_nonneg index_Some_range index_elem
  be16_range le16_range : gonnect.
#[export] Hint Rewrite @zlen_app @zlen_cons : gonnect.
