(* ===== verification/GoStd.v ===== *)
(** * The parts of Go's standard library the routing packages use

    Go strings are byte strings and are modelled as [string] (a list of
    8-bit characters).  Case mapping is the one of ASCII, the alphabet of the
    operation names, network names and DNS names handled here: bytes from
    0x80 on are left as they are.

    [strings]: ToLower, ToUpper, EqualFold, HasPrefix, HasSuffix, Trim,
    TrimLeft, TrimRight, TrimSpace, TrimPrefix, TrimSuffix, Fields, Split, Cut, IndexByte.
    [strconv]: ParseUint in base 10.  [net]: SplitHostPort, JoinHostPort. *)

From Stdlib Require Import Ascii.
From S2P Require Import Prelude.

Definition chr (n : N) : ascii := ascii_of_N n.
Definition ord (c : ascii) : Z := Z.of_N (N_of_ascii c).

Notation "c1 =a c2" := (Ascii.eqb c1 c2) (at level 70).

(** ** strings *)

Definition lower_ascii (c : ascii) : ascii :=
  if (65 <=? ord c) && (ord c <=? 90) then chr (Z.to_N (ord c + 32)) else c.

Definition upper_ascii (c : ascii) : ascii :=
  if (97 <=? ord c) && (ord c <=? 122) then chr (Z.to_N (ord c - 32)) else c.

Fixpoint string_map (f : ascii -> ascii) (s : string) : string :=
  match s with
  | EmptyString => EmptyString
  | String c s' => String (f c) (string_map f s')
  end.

Definition ToLower (s : string) : string := string_map lower_ascii s.
Definition ToUpper (s : string) : string := string_map upper_ascii s.
Definition EqualFold (s t : string) : bool := String.eqb (ToLower s) (ToLower t).

Fixpoint string_rev_append (s acc : string) : string :=
  match s with
  | EmptyString => acc
  | String c s' => string_rev_append s' (String c acc)
  end.

Definition string_rev (s : string) : string := string_rev_append s EmptyString.

Fixpoint HasPrefix (s prefix : string) : bool :=
  match prefix, s with
  | EmptyString, _ => true
  | String p prefix', String c s' => (c =a p) && HasPrefix s' prefix'
  | String _ _, EmptyString => false
  end.

Definition HasSuffix (s suffix : string) : bool :=
  HasPrefix (string_rev s) (string_rev suffix).

Fixpoint contains_char (cutset : string) (c : ascii) : bool :=
  match cutset with
  | EmptyString => false
  | String d cutset' => (c =a d) || contains_char cutset' c
  end.

Fixpoint trim_left_by (p : ascii -> bool) (s : string) : string :=
  match s with
  | EmptyString => EmptyString
  | String c s' => if p c then trim_left_by p s' else s
  end.

Definition trim_right_by (p : ascii -> bool) (s : string) : string :=
  string_rev (trim_left_by p (string_rev s)).

Definition TrimLeft (s cutset : string) : string := trim_left_by (contains_char cutset) s.
Definition TrimRight (s cutset : string) : string := trim_right_by (contains_char cutset) s.
Definition Trim (s cutset : string) : string := TrimRight (TrimLeft s cutset) cutset.

(** ASCII white space: tab, newline, vertical tab, form feed, carriage
    return and space. *)
Definition is_space (c : ascii) : bool :=
  ((9 <=? ord c) && (ord c <=? 13)) || (ord c =? 32).

Definition TrimSpace (s : string) : string := trim_right_by is_space (trim_left_by is_space s).

Definition is_blank_tab (c : ascii) : bool := (ord c =? 32) || (ord c =? 9).

Definition string_snoc (s : string) (c : ascii) : string := String.append s (String c EmptyString).

(** The maximal runs of characters that are not white space. *)
Fixpoint fields_go (s cur : string) : list string :=
  match s with
  | EmptyString => if String.eqb cur EmptyString then [] else [cur]
  | String c s' =>
      if is_space c
      then if String.eqb cur EmptyString then fields_go s' EmptyString
           else cur :: fields_go s' EmptyString
      else fields_go s' (string_snoc cur c)
  end.

Definition Fields (s : string) : list string := fields_go s EmptyString.

(** [strings.Split(s, sep)] for a one-character separator. *)
Fixpoint split_go (sep : ascii) (s cur : string) : list string :=
  match s with
  | EmptyString => [cur]
  | String c s' =>
      if c =a sep then cur :: split_go sep s' EmptyString
      else split_go sep s' (string_snoc cur c)
  end.

Definition Split (s : string) (sep : ascii) : list string := split_go sep s EmptyString.

(** [strings.Cut(s, sep)] for a one-character separator. *)
Fixpoint Cut (s : string) (sep : ascii) : string * string * bool :=
  match s with
  | EmptyString => (EmptyString, EmptyString, false)
  | String c s' =>
      if c =a sep then (EmptyString, s', true)
      else let '(before, after, found) := Cut s' sep in
           (String c before, after, found)
  end.

(** Position of the first [c], -1 when there is none. *)
Fixpoint IndexByte (s : string) (c : ascii) : Z :=
  match s with
  | EmptyString => -1
  | String d s' =>
      if d =a c then 0
      else let i := IndexByte s' c in if i <? 0 then -1 else i + 1
  end.

(** Position of the last [c], -1 when there is none. *)
Fixpoint LastIndexByte (s : string) (c : ascii) : Z :=
  match s with
  | EmptyString => -1
  | String d s' =>
      let i := LastIndexByte s' c in
      if 0 <=? i then i + 1 else if d =a c then 0 else -1
  end.

Definition slen (s : string) : Z := Z.of_nat (String.length s).

(** [s[i:]] and [s[:i]] for an index in range. *)
Definition sdrop (i : Z) (s : string) : string :=
  String.substring (Z.to_nat i) (String.length s - Z.to_nat i) s.
Definition stake (i : Z) (s : string) : string := String.substring 0 (Z.to_nat i) s.
Definition sget (s : string) (i : Z) : option ascii :=
  if i <? 0 then None else String.get (Z.to_nat i) s.

(** [strings.TrimPrefix] and [strings.TrimSuffix]. *)
Definition TrimPrefix (s prefix : string) : string :=
  if HasPrefix s prefix then sdrop (slen prefix) s else s.
Definition TrimSuffix (s suffix : string) : string :=
  if HasSuffix s suffix then stake (slen s - slen suffix) s else s.

(** ** strconv *)

Definition digit (c : ascii) : option Z :=
  if (48 <=? ord c) && (ord c <=? 57) then Some (ord c - 48) else None.

Fixpoint parse_digits (s : string) (acc : Z) : option Z :=
  match s with
  | EmptyString => Some acc
  | String c s' =>
      match digit c with
      | Some d => parse_digits s' (acc * 10 + d)
      | None => None
      end
  end.

(** [strconv.ParseUint(s, 10, bits)]: no sign, no separators; a value that
    does not fit is an error. *)
Definition ParseUint (s : string) (bits : Z) : option Z :=
  match s with
  | EmptyString => None
  | _ => match parse_digits s 0 with
         | Some v => if v <? 2 ^ bits then Some v else None
         | None => None
         end
  end.

(** [strconv.Atoi]: an optional sign and digits, in the range of int64. *)
Definition Atoi (s : string) : option Z :=
  let '(sign, digits) :=
    match s with
    | String c s' => if c =a "-"%char then (-1, s') else if c =a "+"%char then (1, s') else (1, s)
    | EmptyString => (1, s)
    end in
  match digits with
  | EmptyString => None
  | _ => match parse_digits digits 0 with
         | Some v => if (- 2 ^ 63 <=? sign * v) && (sign * v <? 2 ^ 63) then Some (sign * v) else None
         | None => None
         end
  end.

Definition digit_char (d : Z) : ascii := chr (Z.to_N (48 + d)).

Fixpoint itoa_go (fuel : nat) (v : Z) (acc : string) : string :=
  match fuel with
  | O => acc
  | S fuel' =>
      let acc' := String (digit_char (v mod 10)) acc in
      if v <? 10 then acc' else itoa_go fuel' (v / 10) acc'
  end.

(** The decimal text of a number with at most 20 digits. *)
Definition itoa (v : Z) : string :=
  if v <? 0 then String.append "-" (itoa_go 20 (- v) EmptyString) else itoa_go 20 v EmptyString.

(** ** net *)

Definition colon : ascii := ":"%char.
Definition lbracket : ascii := "["%char.
Definition rbracket : ascii := "]"%char.

(** [net.SplitHostPort]: the host and the port, absent on an error. *)
Definition SplitHostPort (hostport : string) : option (string * string) :=
  let i := LastIndexByte hostport colon in
  if i <? 0 then None
  else
    let bracketed := match sget hostport 0 with Some c => c =a lbracket | None => false end in
    let rest (host : string) (j k : Z) :=
      if 0 <=? IndexByte (sdrop j hostport) lbracket then None
      else if 0 <=? IndexByte (sdrop k hostport) rbracket then None
      else Some (host, sdrop (i + 1) hostport) in
    if bracketed then
      let e := IndexByte hostport rbracket in
      if e <? 0 then None
      else if e + 1 =? slen hostport then None
      else if e + 1 =? i then rest (stake (e - 1) (sdrop 1 hostport)) 1 (e + 1)
      else None
    else
      let host := stake i hostport in
      if 0 <=? IndexByte host colon then None else rest host 0 0.

Definition JoinHostPort (host port : string) : string :=
  if 0 <=? IndexByte host colon
  then String.append "[" (String.append host (String.append "]:" port))
  else String.append host (String.append ":" port).

(** ** Decimal text *)

(** Reading the text of a number gives the number. *)
Lemma digit_char_value d : 0 <= d < 10 -> digit (digit_char d) = Some d.
Proof.
  intros Hd. assert (Hc : d = 0 \/ d = 1 \/ d = 2 \/ d = 3 \/ d = 4 \/ d = 5 \/ d = 6 \/ d = 7 \/ d = 8 \/ d = 9) by lia.
  destruct_or! Hc; subst d; reflexivity.
Qed.

Lemma parse_digits_itoa_go fuel v acc : 0 <= v < 10 ^ Z.of_nat fuel ->
  (0 < fuel)%nat -> parse_digits (itoa_go fuel v acc) 0 = parse_digits acc v.
Proof.
  revert v acc. induction fuel as [|fuel IH]; intros v acc Hv Hf; [lia|]. cbn [itoa_go].
  assert (Hd := digit_char_value (v mod 10) ltac:(apply Z.mod_pos_bound; lia)).
  assert (Hm := Z_div_mod_eq_full v 10). destruct (Z.ltb_spec v 10) as [Hs|Hs].
  - cbn [parse_digits]. rewrite Hd. f_equal. rewrite Z.mod_small by lia. lia.
  - rewrite Nat2Z.inj_succ, Z.pow_succ_r in Hv by lia. rewrite IH.
    + cbn [parse_digits]. rewrite Hd. f_equal. lia.
    + split; [apply Z.div_pos; lia|]. apply Z.div_lt_upper_bound; lia.
    + destruct fuel; [change (10 ^ Z.of_nat 0) with 1 in Hv|]; lia.
Qed.

Lemma parse_digits_itoa v : 0 <= v < 10 ^ 20 -> parse_digits (itoa v) 0 = Some v.
Proof.
  intros Hv. unfold itoa. replace (v <? 0) with false by lia. by rewrite parse_digits_itoa_go by (simpl; lia).
Qed.

Lemma itoa_inj v w : 0 <= v < 10 ^ 20 -> 0 <= w < 10 ^ 20 -> itoa v = itoa w -> v = w.
Proof. intros Hv Hw E. apply (f_equal (fun s => parse_digits s 0)) in E. rewrite !parse_digits_itoa in E by done. congruence. Qed.
