(* ===== verification/HostPort.v ===== *)
(** * Endpoints as text

    net.SplitHostPort and net.JoinHostPort are inverse to each other on hosts
    and ports without brackets, and what SplitHostPort returns has none. *)

From Stdlib Require Import Ascii.
From S2P Require Import Prelude GoStd.

(** [s] does not contain [c]. *)
Fixpoint lacks (c : ascii) (s : string) : bool :=
  match s with
  | EmptyString => true
  | String d s' => negb (Ascii.eqb d c) && lacks c s'
  end.

(** A host: no brackets.  A port: no brackets and no colon. *)
Definition host_text (s : string) : bool := lacks lbracket s && lacks rbracket s.
Definition port_text (s : string) : bool := lacks colon s && lacks lbracket s && lacks rbracket s.

(** ** Searching *)

Lemma IndexByte_range s c : -1 <= IndexByte s c < slen s.
Proof.
  unfold slen. induction s as [|d s IH]; cbn [IndexByte String.length]; [lia|].
  destruct (Ascii.eqb d c); [lia|]. destruct (Z.ltb_spec (IndexByte s c) 0); lia.
Qed.

Lemma lacks_IndexByte c s : lacks c s = (IndexByte s c <? 0).
Proof.
  induction s as [|d s IH]; cbn [lacks IndexByte]; [done|].
  destruct (Ascii.eqb d c); [done|]. cbn [negb andb]. rewrite IH. pose proof (IndexByte_range s c).
  destruct (Z.ltb_spec (IndexByte s c) 0), (Z.ltb_spec (IndexByte s c + 1) 0); (done || lia).
Qed.

Lemma lacks_app c s t : lacks c (String.append s t) = lacks c s && lacks c t.
Proof.
  induction s as [|d s IH]; simpl; [done|]. by rewrite IH, andb_assoc.
Qed.

Lemma IndexByte_app c s t : lacks c s = true -> IndexByte (String.append s (String c t)) c = slen s.
Proof.
  unfold slen. induction s as [|d s IH]; simpl.
  - by rewrite Ascii.eqb_refl.
  - destruct (Ascii.eqb d c); [done|]. cbn [negb andb]. intros Hs. rewrite (IH Hs).
    destruct (Z.ltb_spec (Z.of_nat (String.length s)) 0); lia.
Qed.

Lemma LastIndexByte_none c s : lacks c s = true -> LastIndexByte s c = -1.
Proof.
  induction s as [|d s IH]; cbn [lacks LastIndexByte]; [done|].
  destruct (Ascii.eqb d c); [done|]. intros Hs. by rewrite (IH Hs).
Qed.

Lemma LastIndexByte_app c s t : lacks c t = true -> LastIndexByte (String.append s (String c t)) c = slen s.
Proof.
  unfold slen. intros Ht. induction s as [|d s IH]; simpl.
  - rewrite (LastIndexByte_none _ _ Ht). by rewrite Ascii.eqb_refl.
  - rewrite IH. destruct (Z.leb_spec 0 (Z.of_nat (String.length s))); lia.
Qed.

(** A string with its last [c]. *)
Lemma LastIndexByte_split c s :
  0 <= LastIndexByte s c ->
  exists a b, s = String.append a (String c b) /\ lacks c b = true /\ LastIndexByte s c = slen a.
Proof.
  unfold slen. induction s as [|d s IH]; cbn [LastIndexByte]; [lia|].
  destruct (Z.leb_spec 0 (LastIndexByte s c)) as [Hi|Hi].
  - intros _. destruct (IH Hi) as (a & b & -> & Hb & Hl). exists (String d a), b.
    split_and!; [done|done|]. cbn [String.length]. lia.
  - destruct (Ascii.eqb_spec d c) as [->|]; [|lia]. intros _. exists EmptyString, s.
    split_and!; [done| |done]. clear IH. induction s as [|e s IH]; [done|]. cbn [LastIndexByte lacks] in *.
    destruct (Z.leb_spec 0 (LastIndexByte s c)) as [Hj|Hj]; [lia|].
    destruct (Ascii.eqb e c); [lia|]. by apply IH.
Qed.

Lemma IndexByte_split c s :
  0 <= IndexByte s c ->
  exists a b, s = String.append a (String c b) /\ lacks c a = true /\ IndexByte s c = slen a.
Proof.
  unfold slen. induction s as [|d s IH]; cbn [IndexByte]; [lia|].
  destruct (Ascii.eqb_spec d c) as [->|Hne].
  - intros _. by exists EmptyString, s.
  - destruct (Z.ltb_spec (IndexByte s c) 0) as [|Hi]; [lia|]. intros _.
    destruct (IH Hi) as (a & b & -> & Ha & Hl). exists (String d a), b. split_and!; [done| |].
    + cbn [lacks]. rewrite (proj2 (Ascii.eqb_neq d c)) by done. done.
    + cbn [String.length]. lia.
Qed.

(** ** Cutting *)

Lemma slen_app s t : slen (String.append s t) = slen s + slen t.
Proof.
  unfold slen. induction s as [|d s IH]; [done|].
  change (String.append (String d s) t) with (String d (String.append s t)). cbn [String.length]. lia.
Qed.

Lemma slen_nonneg s : 0 <= slen s.
Proof. unfold slen. lia. Qed.

Lemma substring_all s : String.substring 0 (String.length s) s = s.
Proof. induction s as [|d s IH]; cbn; [done|]. by rewrite IH. Qed.

Lemma sdrop_app s t : sdrop (slen s) (String.append s t) = t.
Proof.
  unfold sdrop, slen. rewrite Nat2Z.id. induction s as [|d s IH]; simpl.
  - rewrite Nat.sub_0_r. apply substring_all.
  - exact IH.
Qed.

Lemma stake_app s t : stake (slen s) (String.append s t) = s.
Proof.
  unfold stake, slen. rewrite Nat2Z.id. induction s as [|d s IH]; simpl.
  - by destruct t.
  - by rewrite IH.
Qed.

Lemma append_assoc s t u : String.append (String.append s t) u = String.append s (String.append t u).
Proof. induction s as [|d s IH]; [done|]. exact (f_equal (String d) IH). Qed.

Lemma sdrop_app_at n s t : n = slen s -> sdrop n (String.append s t) = t.
Proof. intros ->. apply sdrop_app. Qed.

Lemma stake_app_at n s t : n = slen s -> stake n (String.append s t) = s.
Proof. intros ->. apply stake_app. Qed.

Lemma sdrop_0 s : sdrop 0 s = s.
Proof. apply (sdrop_app EmptyString s). Qed.

(** ** Joining and splitting *)

Lemma SplitHostPort_Join host port :
  host_text host = true -> port_text port = true ->
  SplitHostPort (JoinHostPort host port) = Some (host, port).
Proof.
  unfold host_text, port_text. rewrite !andb_true_iff. intros [Hl Hr] [[Pc Pl] Pr].
  unfold JoinHostPort. destruct (Z.leb_spec 0 (IndexByte host colon)) as [Hc|Hc].
  - set (s := String.append "[" (String.append host (String.append "]:" port))).
    assert (Hs1 : s = String.append (String.append "[" (String.append host "]")) (String colon port)).
    { unfold s. by rewrite append_assoc, append_assoc. }
    assert (Hs2 : s = String.append (String.append "[" host) (String rbracket (String colon port))).
    { unfold s. by rewrite append_assoc. }
    assert (Hi : LastIndexByte s colon = slen host + 2).
    { rewrite Hs1, LastIndexByte_app by done. rewrite !slen_app.
      change (slen "[") with 1. change (slen "]") with 1. lia. }
    assert (He : IndexByte s rbracket = slen host + 1).
    { rewrite Hs2, IndexByte_app; [rewrite slen_app; change (slen "[") with 1; lia|].
      rewrite lacks_app. by rewrite Hr. }
    assert (Hlen : slen s = slen host + 3 + slen port).
    { rewrite Hs1, !slen_app. unfold slen. cbn [String.length]. lia. }
    pose proof (slen_nonneg host). pose proof (slen_nonneg port).
    unfold SplitHostPort. rewrite Hi, He, Hlen.
    replace (slen host + 2 <? 0) with false by lia. change (sget s 0) with (Some lbracket).
    cbv beta iota zeta. change (Ascii.eqb lbracket lbracket) with true. cbv iota.
    replace (slen host + 1 <? 0) with false by lia.
    replace (slen host + 1 + 1 =? slen host + 3 + slen port) with false by lia.
    replace (slen host + 1 + 1 =? slen host + 2) with true by lia.
    assert (H1 : sdrop 1 s = String.append host (String rbracket (String colon port))).
    { unfold s. by rewrite (sdrop_app_at 1 "["). }
    assert (H2 : sdrop (slen host + 1 + 1) s = String colon port).
    { rewrite Hs1. apply sdrop_app_at. rewrite !slen_app. change (slen "[") with 1. change (slen "]") with 1. lia. }
    assert (H3 : sdrop (slen host + 2 + 1) s = port).
    { unfold s. replace (String.append "[" (String.append host (String.append "]:" port)))
        with (String.append (String.append "[" (String.append host "]:")) port) by (by rewrite !append_assoc).
      apply sdrop_app_at. rewrite !slen_app. change (slen "[") with 1. change (slen "]:") with 2. lia. }
    rewrite H1, H2, H3. rewrite (stake_app_at (slen host + 1 - 1)) by lia.
    assert (lacks lbracket (String.append host (String rbracket (String colon port))) = true) as Hn1
      by (rewrite lacks_app, Hl; exact Pl).
    assert (lacks rbracket (String colon port) = true) as Hn2 by exact Pr.
    rewrite lacks_IndexByte in Hn1, Hn2.
    destruct (Z.leb_spec 0 (IndexByte (String.append host (String rbracket (String colon port))) lbracket)); [lia|].
    destruct (Z.leb_spec 0 (IndexByte (String colon port) rbracket)); [lia|done].
  - set (s := String.append host (String.append ":" port)).
    assert (Hs : s = String.append host (String colon port)) by done.
    unfold SplitHostPort. rewrite Hs, LastIndexByte_app by done.
    pose proof (slen_nonneg host). replace (slen host <? 0) with false by lia.
    assert (Hb : match sget (String.append host (String colon port)) 0 with
                 | Some c => Ascii.eqb c lbracket | None => false end = false).
    { destruct host as [|d host]; [done|]. cbn [lacks] in Hl. apply andb_true_iff in Hl as [Hd _].
      by apply negb_true_iff in Hd. }
    rewrite Hb, stake_app. destruct (Z.leb_spec 0 (IndexByte host colon)); [lia|].
    rewrite sdrop_0.
    assert (lacks lbracket (String.append host (String colon port)) = true) as Hn1 by (rewrite lacks_app, Hl; exact Pl).
    assert (lacks rbracket (String.append host (String colon port)) = true) as Hn2 by (rewrite lacks_app, Hr; exact Pr).
    rewrite lacks_IndexByte in Hn1, Hn2.
    destruct (Z.leb_spec 0 (IndexByte (String.append host (String colon port)) lbracket)); [lia|].
    destruct (Z.leb_spec 0 (IndexByte (String.append host (String colon port)) rbracket)); [lia|].
    f_equal. f_equal. replace (String.append host (String colon port))
      with (String.append (String.append host ":") port) by (by rewrite append_assoc).
    apply sdrop_app_at. rewrite slen_app. change (slen ":") with 1. lia.
Qed.

(** A part of a string lacks what the string lacks. *)
Lemma lacks_substring c n m s : lacks c s = true -> lacks c (String.substring n m s) = true.
Proof.
  revert n m. induction s as [|d s IH]; intros n m Hs; [by destruct n, m|].
  cbn [lacks] in Hs. apply andb_true_iff in Hs as [Hd Hs].
  destruct n, m; cbn [String.substring lacks]; rewrite ?Hd; try done; by apply IH.
Qed.

Lemma lacks_sdrop c n s : lacks c s = true -> lacks c (sdrop n s) = true.
Proof. apply lacks_substring. Qed.

Lemma lacks_stake c n s : lacks c s = true -> lacks c (stake n s) = true.
Proof. apply lacks_substring. Qed.

Lemma lacks_absent c s : (0 <=? IndexByte s c) = false -> lacks c s = true.
Proof. rewrite lacks_IndexByte. lia. Qed.

Lemma sdrop_1 d s : sdrop 1 (String d s) = s.
Proof. exact (sdrop_app (String d EmptyString) s). Qed.

(** What SplitHostPort returns has no brackets, and the port no colon. *)
Lemma SplitHostPort_clean hostport host port :
  SplitHostPort hostport = Some (host, port) -> host_text host = true /\ port_text port = true.
Proof.
  unfold SplitHostPort. destruct (Z.ltb_spec (LastIndexByte hostport colon) 0) as [|Hi]; [done|].
  destruct (LastIndexByte_split colon hostport Hi) as (a & b & Hab & Hb & Hlast).
  assert (Hport : sdrop (LastIndexByte hostport colon + 1) hostport = b).
  { rewrite Hlast, Hab. replace (String.append a (String colon b)) with (String.append (String.append a ":") b)
      by (by rewrite append_assoc). apply sdrop_app_at. rewrite slen_app. by change (slen ":") with 1. }
  assert (Hcolon : forall c, lacks c (String.append a (String colon b)) = true ->
    lacks c a = true /\ lacks c b = true).
  { intros c. rewrite lacks_app. cbn [lacks]. rewrite !andb_true_iff. tauto. }
  unfold host_text, port_text.
  destruct (match sget hostport 0 with Some c => Ascii.eqb c lbracket | None => false end) eqn:Ebr.
  - destruct (Z.ltb_spec (IndexByte hostport rbracket) 0) as [|He]; [done|].
    destruct (IndexByte hostport rbracket + 1 =? slen hostport); [done|].
    destruct (Z.eqb_spec (IndexByte hostport rbracket + 1) (LastIndexByte hostport colon)) as [Heq|]; [|done].
    destruct (0 <=? IndexByte (sdrop 1 hostport) lbracket) eqn:E1; [done|].
    destruct (0 <=? IndexByte (sdrop (IndexByte hostport rbracket + 1) hostport) rbracket) eqn:E2; [done|].
    intros [= <- <-]. apply lacks_absent in E1, E2.
    destruct (IndexByte_split rbracket hostport He) as (u & v & Huv & Hu & Hfirst).
    rewrite Hport, Hb. rewrite Heq, Hlast in E2. rewrite Hab, sdrop_app in E2.
    cbn [lacks] in E2. apply andb_true_iff in E2 as [_ Hbr]. rewrite Hbr.
    destruct u as [|d u]; [by rewrite Huv in Ebr|].
    destruct a as [|d' a]; [by rewrite Hab in Ebr|].
    rewrite Hab in E1. change (String.append (String d' a) (String colon b)) with
      (String d' (String.append a (String colon b))) in E1. rewrite sdrop_1, lacks_app in E1.
    cbn [lacks] in E1. rewrite !andb_true_iff in E1. destruct E1 as (Ea & _ & Eb). rewrite Eb.
    assert (Htail : sdrop 1 hostport = String.append u (String rbracket v)).
    { rewrite Huv. change (String.append (String d u) (String rbracket v)) with
        (String d (String.append u (String rbracket v))). apply sdrop_1. }
    assert (Htail2 : sdrop 1 hostport = String.append a (String colon b)).
    { rewrite Hab. change (String.append (String d' a) (String colon b)) with
        (String d' (String.append a (String colon b))). apply sdrop_1. }
    rewrite Htail, stake_app_at by (rewrite Hfirst; unfold slen; cbn [String.length]; lia).
    assert (Hl : lacks lbracket (String.append u (String rbracket v)) = true).
    { rewrite <- Htail, Htail2, lacks_app. cbn [lacks]. by rewrite Ea, Eb. }
    rewrite lacks_app in Hl. apply andb_true_iff in Hl as [Hl _]. cbn [lacks] in Hu.
    apply andb_true_iff in Hu as [_ Hu]. by rewrite Hl, Hu.
  - destruct (0 <=? IndexByte (stake (LastIndexByte hostport colon) hostport) colon); [done|].
    rewrite sdrop_0. destruct (0 <=? IndexByte hostport lbracket) eqn:E1; [done|].
    destruct (0 <=? IndexByte hostport rbracket) eqn:E2; [done|]. intros [= <- <-].
    apply lacks_absent in E1, E2. rewrite !lacks_stake by done. rewrite Hport, Hb.
    rewrite Hab in E1, E2. apply Hcolon in E1 as [_ E1], E2 as [_ E2]. by rewrite E1, E2.
Qed.

(** ** Trimming *)

Lemma rev_append_app s acc : string_rev_append s acc = String.append (string_rev s) acc.
Proof.
  unfold string_rev. revert acc. induction s as [|c s IH]; intros acc; [done|].
  cbn [string_rev_append]. rewrite (IH (String c acc)), (IH (String c EmptyString)), append_assoc. done.
Qed.

Lemma string_rev_cons c s : string_rev (String c s) = String.append (string_rev s) (String c EmptyString).
Proof. unfold string_rev at 1. cbn [string_rev_append]. apply rev_append_app. Qed.

Lemma string_rev_snoc s c : string_rev (String.append s (String c EmptyString)) = String c (string_rev s).
Proof.
  induction s as [|d s IH]; [done|].
  change (String.append (String d s) (String c EmptyString)) with (String d (String.append s (String c EmptyString))).
  rewrite !string_rev_cons, IH. done.
Qed.

Lemma string_rev_involutive s : string_rev (string_rev s) = s.
Proof. induction s as [|c s IH]; [done|]. by rewrite string_rev_cons, string_rev_snoc, IH. Qed.

Lemma lacks_rev c s : lacks c (string_rev s) = lacks c s.
Proof.
  induction s as [|d s IH]; [done|]. rewrite string_rev_cons, lacks_app, IH. cbn [lacks].
  by rewrite andb_true_r, andb_comm.
Qed.

(** A string without the characters of the cutset is not trimmed. *)
Lemma TrimLeft_lacks s cutset :
  (forall c, contains_char cutset c = true -> lacks c s = true) -> TrimLeft s cutset = s.
Proof.
  intros Hs. unfold TrimLeft. destruct s as [|d s]; [done|]. cbn [trim_left_by].
  destruct (contains_char cutset d) eqn:E; [|done]. specialize (Hs d E). cbn [lacks] in Hs.
  by rewrite Ascii.eqb_refl in Hs.
Qed.

Lemma Trim_lacks s cutset :
  (forall c, contains_char cutset c = true -> lacks c s = true) -> Trim s cutset = s.
Proof.
  intros Hs. unfold Trim. rewrite TrimLeft_lacks by done. unfold TrimRight, trim_right_by.
  change (trim_left_by (contains_char cutset) (string_rev s)) with (TrimLeft (string_rev s) cutset).
  rewrite TrimLeft_lacks; [apply string_rev_involutive|]. intros c Hc. rewrite lacks_rev. by apply Hs.
Qed.

Lemma Trim_host host : host_text host = true -> Trim host "[]" = host.
Proof.
  unfold host_text. rewrite andb_true_iff. intros [Hl Hr]. apply Trim_lacks. intros c. simpl.
  rewrite orb_false_r, orb_true_iff. intros [E|E]; apply Ascii.eqb_eq in E as ->; done.
Qed.

(** ** Beginnings and ends *)

Lemma append_cons c s t : String.append (String c s) t = String c (String.append s t).
Proof. done. Qed.

Lemma append_nil t : String.append EmptyString t = t.
Proof. done. Qed.

Lemma append_empty s : String.append s EmptyString = s.
Proof. induction s as [|c s IH]; [done|]. exact (f_equal (String c) IH). Qed.

Lemma append_inj_r s s' t : String.append s t = String.append s' t -> s = s'.
Proof.
  intros E. rewrite <- (stake_app s t), <- (stake_app s' t), E.
  assert (Hl : slen s = slen s') by (pose proof (f_equal slen E) as El; rewrite !slen_app in El; lia).
  by rewrite Hl.
Qed.

Lemma string_rev_app s t : string_rev (String.append s t) = String.append (string_rev t) (string_rev s).
Proof.
  induction s as [|c s IH]; [by rewrite append_empty|].
  change (String.append (String c s) t) with (String c (String.append s t)).
  by rewrite !string_rev_cons, IH, append_assoc.
Qed.

Lemma HasPrefix_app s t : HasPrefix (String.append s t) s = true.
Proof.
  induction s as [|c s IH]; [by destruct t|]. change (String.append (String c s) t) with (String c (String.append s t)).
  cbn [HasPrefix]. by rewrite Ascii.eqb_refl.
Qed.

Lemma HasSuffix_app s t : HasSuffix (String.append s t) t = true.
Proof. unfold HasSuffix. rewrite string_rev_app. apply HasPrefix_app. Qed.
