(* ===== verification/NetIP.v ===== *)
(** * Go's [net/netip] and [net.IP], as far as the routing packages use them

    An address is the zero [netip.Addr], an IPv4 address (a 32-bit number) or
    an IPv6 address (a 128-bit number with a zone).  Prefixes carry their
    length, negative for an invalid one.  The text forms follow
    [netip.ParseAddr] and [netip.Addr.String]. *)

From Stdlib Require Import Ascii.
From S2P Require Import Prelude GoStd.

Inductive Addr : Type :=
| AddrZero
| Addr4 (v : Z)
| Addr6 (v : Z) (zone : string).

#[global] Instance Addr_eq_dec : EqDecision Addr.
Proof. solve_decision. Defined.

#[global] Instance Addr_countable : Countable Addr.
Proof.
  refine (inj_countable'
    (fun a => match a with AddrZero => inl tt | Addr4 v => inr (inl v) | Addr6 v z => inr (inr (v, z)) end)
    (fun s => match s with inl _ => AddrZero | inr (inl v) => Addr4 v | inr (inr (v, z)) => Addr6 v z end) _).
  intros []; reflexivity.
Defined.

Definition IsValid (a : Addr) : bool := match a with AddrZero => false | _ => true end.
Definition Is4 (a : Addr) : bool := match a with Addr4 _ => true | _ => false end.
Definition Is6 (a : Addr) : bool := match a with Addr6 _ _ => true | _ => false end.

Definition Is4In6 (a : Addr) : bool :=
  match a with Addr6 v _ => Z.shiftr v 32 =? 65535 | _ => false end.

Definition Unmap (a : Addr) : Addr :=
  match a with
  | Addr6 v _ => if Z.shiftr v 32 =? 65535 then Addr4 (Z.land v (2 ^ 32 - 1)) else a
  | _ => a
  end.

(** [binary.BigEndian.Uint32] of [As4] of an IPv4 address. *)
Definition As4Uint32 (a : Addr) : Z := match a with Addr4 v => v | _ => 0 end.

Definition BitLen (a : Addr) : Z :=
  match a with AddrZero => 0 | Addr4 _ => 32 | Addr6 _ _ => 128 end.

Definition addr_value (a : Addr) : Z :=
  match a with AddrZero => 0 | Addr4 v => v | Addr6 v _ => v end.

Definition hasZone (a : Addr) : bool :=
  match a with Addr6 _ z => negb (String.eqb z EmptyString) | _ => false end.

Definition WithoutZone (a : Addr) : Addr :=
  match a with Addr6 v _ => Addr6 v EmptyString | _ => a end.

(** [netip.AddrFrom4] and [AddrFrom16] of the bytes of a packet. *)
Definition AddrFrom4 (b : list byte) : Addr := Addr4 (be_value b).
Definition AddrFrom16 (b : list byte) : Addr := Addr6 (be_value b) EmptyString.

(** [netip.AddrFromSlice]: 4 or 16 bytes. *)
Definition AddrFromSlice (b : list byte) : option Addr :=
  if zlen b =? 4 then Some (AddrFrom4 b)
  else if zlen b =? 16 then Some (AddrFrom16 b)
  else None.

(** The big-endian bytes of a number and, with [Addr.AsSlice], of an address. *)
Fixpoint be_bytes (n : nat) (v : Z) : list byte :=
  match n with
  | O => []
  | S n' => be_bytes n' (v / 256) ++ [byte_of_Z (v mod 256)]
  end.

Definition addr_bytes (a : Addr) : list byte :=
  match a with
  | AddrZero => []
  | Addr4 v => be_bytes 4 v
  | Addr6 v _ => be_bytes 16 v
  end.

(** ** Prefixes *)

Record Prefix : Type := MkPrefix { pfx_addr : Addr; pfx_bits : Z }.

#[global] Instance Prefix_eq_dec : EqDecision Prefix.
Proof. solve_decision. Defined.

#[global] Instance Prefix_countable : Countable Prefix.
Proof.
  refine (inj_countable' (fun p => (pfx_addr p, pfx_bits p)) (fun q => MkPrefix q.1 q.2) _).
  intros []; reflexivity.
Defined.

Definition Prefix_IsValid (p : Prefix) : bool := 0 <=? pfx_bits p.

(** [(ip ^ p.ip) >> (width - bits) == 0] within the address family. *)
Definition Prefix_Contains (p : Prefix) (ip : Addr) : bool :=
  if negb (Prefix_IsValid p) || hasZone ip then false
  else
    let f1 := BitLen (pfx_addr p) in
    let f2 := BitLen ip in
    if (f1 =? 0) || (f2 =? 0) || negb (f1 =? f2) then false
    else Z.shiftr (Z.lxor (addr_value ip) (addr_value (pfx_addr p))) (f1 - pfx_bits p) =? 0.

Definition Prefix_Masked (p : Prefix) : Prefix :=
  if (0 <=? pfx_bits p) && (pfx_bits p <=? BitLen (pfx_addr p)) then
    let sh := BitLen (pfx_addr p) - pfx_bits p in
    let v := Z.shiftl (Z.shiftr (addr_value (pfx_addr p)) sh) sh in
    match pfx_addr p with
    | Addr4 _ => MkPrefix (Addr4 v) (pfx_bits p)
    | Addr6 _ _ => MkPrefix (Addr6 v EmptyString) (pfx_bits p)
    | AddrZero => MkPrefix AddrZero (-1)
    end
  else MkPrefix AddrZero (-1).

(** ** Text to address *)

Definition dot : ascii := "."%char.
Definition percent : ascii := "%"%char.

(** The four octets of a dotted decimal text: no leading zeros, no empty
    octet, each at most 255.  [val], [dig], [pos] and [acc] are the value and
    the digits of the current octet, the number of octets before it and their
    value. *)
Fixpoint ipv4_go (s : string) (val dig pos acc : Z) : option Z :=
  match s with
  | EmptyString => if (pos =? 3) && (0 <? dig) then Some (acc * 256 + val) else None
  | String c s' =>
      match digit c with
      | Some d =>
          if (dig =? 1) && (val =? 0) then None
          else let val' := val * 10 + d in
               if 255 <? val' then None else ipv4_go s' val' (dig + 1) pos acc
      | None =>
          if c =a dot then
            if (dig =? 0) || (pos =? 3) then None
            else ipv4_go s' 0 0 (pos + 1) (acc * 256 + val)
          else None
      end
  end.

Definition parseIPv4 (s : string) : option Z := ipv4_go s 0 0 0 0.

Definition hexdigit (c : ascii) : option Z :=
  match digit c with
  | Some d => Some d
  | None =>
      if (97 <=? ord c) && (ord c <=? 102) then Some (ord c - 87)
      else if (65 <=? ord c) && (ord c <=? 70) then Some (ord c - 55)
      else None
  end.

(** The leading hexadecimal digits: their number, their value, the rest.
    Absent when there are more than four. *)
Fixpoint hex_group (s : string) (off acc : Z) : option (Z * Z * string) :=
  match s with
  | EmptyString => Some (off, acc, EmptyString)
  | String c s' =>
      match hexdigit c with
      | Some d => if 3 <? off then None else hex_group s' (off + 1) (acc * 16 + d)
      | None => Some (off, acc, s)
      end
  end.

(** The 16-bit groups read so far (the last first), where the ellipsis was. *)
Fixpoint ipv6_go (fuel : nat) (s : string) (groups : list Z) (ellipsis : option nat)
  : option (list Z * option nat * string) :=
  match fuel with
  | O => None
  | S fuel' =>
      if (8 <=? length groups)%nat then Some (groups, ellipsis, s)
      else
      match hex_group s 0 0 with
      | None => None
      | Some (off, acc, rest) =>
          if off =? 0 then None
          else
          match rest with
          | EmptyString => Some (acc :: groups, ellipsis, EmptyString)
          | String c rest' =>
              if c =a dot then
                if (match ellipsis with None => true | _ => false end)
                   && negb (length groups =? 6)%nat then None
                else if (7 <=? length groups)%nat then None
                else match parseIPv4 s with
                     | Some v => Some (v mod 65536 :: v / 65536 :: groups, ellipsis, EmptyString)
                     | None => None
                     end
              else if c =a colon then
                match rest' with
                | EmptyString => None
                | String c2 rest2 =>
                    if c2 =a colon then
                      match ellipsis with
                      | Some _ => None
                      | None =>
                          let e := Some (length (acc :: groups)) in
                          match rest2 with
                          | EmptyString => Some (acc :: groups, e, EmptyString)
                          | _ => ipv6_go fuel' rest2 (acc :: groups) e
                          end
                      end
                    else ipv6_go fuel' rest' (acc :: groups) ellipsis
                end
              else None
          end
      end
  end.

Definition groups_value (g : list Z) : Z := fold_left (fun acc x => acc * 65536 + x) g 0.

Definition parseIPv6 (s0 : string) : option Addr :=
  let '(s, zone, zoned) := Cut s0 percent in
  if zoned && String.eqb zone EmptyString then None
  else
    let finish (o : option (list Z * option nat * string)) :=
      match o with
      | None => None
      | Some (groups, ellipsis, rest) =>
          if negb (String.eqb rest EmptyString) then None
          else
            let g := rev groups in
            let n := length g in
            match ellipsis with
            | None => if (n =? 8)%nat then Some (Addr6 (groups_value g) zone) else None
            | Some e =>
                if (n <? 8)%nat
                then Some (Addr6 (groups_value (take e g ++ replicate (8 - n) 0 ++ drop e g)) zone)
                else None
            end
      end in
    if HasPrefix s "::" then
      let s' := sdrop 2 s in
      if String.eqb s' EmptyString then Some (Addr6 0 zone)
      else finish (ipv6_go 9 s' [] (Some 0%nat))
    else finish (ipv6_go 9 s [] None).

Fixpoint ParseAddr_go (scan s : string) : option Addr :=
  match scan with
  | EmptyString => None
  | String c scan' =>
      if c =a dot then Addr4 <$> parseIPv4 s
      else if c =a colon then parseIPv6 s
      else if c =a percent then None
      else ParseAddr_go scan' s
  end.

(** [netip.ParseAddr], absent on an error. *)
Definition ParseAddr (s : string) : option Addr := ParseAddr_go s s.

(** [netip.ParsePrefix], absent on an error: no zone, the length in decimal
    without sign or leading zeros and within the address family. *)
Definition ParsePrefix (s : string) : option Prefix :=
  let i := LastIndexByte s "/"%char in
  if i <? 0 then None
  else
    match ParseAddr (stake i s) with
    | None => None
    | Some ip =>
        if hasZone ip then None
        else
          let bits := sdrop (i + 1) s in
          let lead := match sget bits 0 with
                      | Some c => negb ((49 <=? ord c) && (ord c <=? 57))
                      | None => false end in
          if (1 <? slen bits) && lead then None
          else match ParseUint bits 31 with
               | Some b => if b <=? BitLen ip then Some (MkPrefix ip b) else None
               | None => None
               end
    end.

(** ** Address to text *)

Definition ipv4_string (v : Z) : string :=
  String.append (itoa (v / 2 ^ 24)) (String.append "." (
  String.append (itoa (v / 2 ^ 16 mod 256)) (String.append "." (
  String.append (itoa (v / 2 ^ 8 mod 256)) (String.append "." (itoa (v mod 256))))))).

Definition hex_char (d : Z) : ascii :=
  if d <? 10 then chr (Z.to_N (48 + d)) else chr (Z.to_N (87 + d)).

Fixpoint hex_go (fuel : nat) (v : Z) (acc : string) : string :=
  match fuel with
  | O => acc
  | S fuel' =>
      let acc' := String (hex_char (v mod 16)) acc in
      if v <? 16 then acc' else hex_go fuel' (v / 16) acc'
  end.

(** Lower-case hexadecimal without leading zeros, for a 16-bit group. *)
Definition hex16 (v : Z) : string := hex_go 4 v EmptyString.

Definition v6_groups (v : Z) : list Z :=
  map (fun i => v / 2 ^ (16 * (7 - i)) mod 65536) [0; 1; 2; 3; 4; 5; 6; 7].

Fixpoint zero_run (g : list Z) : nat :=
  match g with
  | x :: g' => if x =? 0 then S (zero_run g') else 0%nat
  | [] => 0%nat
  end.

(** The first longest run of at least two zero groups: start and length. *)
Fixpoint best_run (g : list Z) (i : nat) (best : nat * nat) : nat * nat :=
  match g with
  | [] => best
  | _ :: g' =>
      let l := zero_run g in
      best_run g' (S i) (if (2 <=? l)%nat && (best.2 <? l)%nat then (i, l) else best)
  end.

Fixpoint join_groups (g : list Z) : string :=
  match g with
  | [] => EmptyString
  | [x] => hex16 x
  | x :: g' => String.append (hex16 x) (String.append ":" (join_groups g'))
  end.

Definition ipv6_string (v : Z) : string :=
  let g := v6_groups v in
  let '(st, l) := best_run g 0 (0%nat, 0%nat) in
  if (l =? 0)%nat then join_groups g
  else String.append (join_groups (take st g)) (String.append "::" (join_groups (drop (st + l) g))).

Definition zone_suffix (zone : string) : string :=
  if String.eqb zone EmptyString then EmptyString else String.append "%" zone.

(** [netip.Addr.String] *)
Definition Addr_String (a : Addr) : string :=
  match a with
  | AddrZero => "invalid IP"
  | Addr4 v => ipv4_string v
  | Addr6 v zone =>
      if Z.shiftr v 32 =? 65535
      then String.append "::ffff:" (String.append (ipv4_string (Z.land v (2 ^ 32 - 1))) (zone_suffix zone))
      else String.append (ipv6_string v) (zone_suffix zone)
  end.

(** ** net.IP and net.Addr *)

Fixpoint bytes_hex (b : list byte) : string :=
  match b with
  | [] => EmptyString
  | x :: b' => String (hex_char (bZ x / 16)) (String (hex_char (bZ x mod 16)) (bytes_hex b'))
  end.

(** [net.IP.String]: IPv4-mapped addresses print as IPv4. *)
Definition IP_String (ip : list byte) : string :=
  if zlen ip =? 0 then "<nil>"
  else match AddrFromSlice ip with
       | Some a => Addr_String (Unmap a)
       | None => String.append "?" (bytes_hex ip)
       end.

(** The concrete types of a [net.Addr] the code distinguishes; any other
    implementation is known by its [String] method. *)
Inductive netAddr : Type :=
| TCPAddr (ip : list byte) (port : Z) (zone : string)
| UDPAddr (ip : list byte) (port : Z) (zone : string)
| IPAddr (ip : list byte) (zone : string)
| OtherAddr (text : string).

Definition ipEmptyString (ip : list byte) : string :=
  if zlen ip =? 0 then EmptyString else IP_String ip.

Definition netAddr_String (a : netAddr) : string :=
  match a with
  | TCPAddr ip port zone | UDPAddr ip port zone =>
      JoinHostPort (String.append (ipEmptyString ip) (zone_suffix zone)) (itoa port)
  | IPAddr ip zone => String.append (ipEmptyString ip) (zone_suffix zone)
  | OtherAddr s => s
  end.

(** ** Lemmas *)

Lemma Is4_Unmap_valid a : IsValid (Unmap a) = IsValid a.
Proof. destruct a as [|v|v z]; unfold Unmap; [done..|]. by destruct (Z.shiftr v 32 =? 65535). Qed.

Lemma be_value_app l b : be_value (l ++ [b]) = be_value l * 256 + bZ b.
Proof. unfold be_value. rewrite fold_left_app. reflexivity. Qed.

Lemma be_value_range l : 0 <= be_value l < 256 ^ zlen l.
Proof.
  induction l as [|b l IH] using rev_ind; [done|].
  rewrite be_value_app, zlen_app. pose proof (bZ_range b).
  change (zlen [b]) with 1. rewrite Z.pow_add_r by (pose proof (zlen_nonneg l); lia). lia.
Qed.

Lemma be_value_inj l k : length l = length k -> be_value l = be_value k -> l = k.
Proof.
  revert k. induction l as [|b l IH] using rev_ind; intros k Hlen Hv.
  - by destruct k.
  - destruct k as [|c k _] using rev_ind; [rewrite length_app in Hlen; simpl in Hlen; lia|].
    rewrite !be_value_app in Hv. rewrite !length_app in Hlen. simpl in Hlen.
    pose proof (bZ_range b). pose proof (bZ_range c).
    assert (Hv' : be_value l = be_value k) by lia.
    f_equal; [apply IH; [lia|done]|]. f_equal. apply bZ_inj. lia.
Qed.

Lemma be_bytes_value l : be_bytes (length l) (be_value l) = l.
Proof.
  induction l as [|b l IH] using rev_ind; [done|].
  rewrite length_app. simpl. replace (length l + 1)%nat with (S (length l)) by lia.
  cbn [be_bytes]. rewrite be_value_app. pose proof (bZ_range b).
  rewrite Z.div_add_l, (Z.div_small (bZ b)), Z.add_0_r, IH by lia.
  rewrite Z.add_comm, Z.mod_add, Z.mod_small by lia. by rewrite byte_of_Z_bZ.
Qed.

Lemma addr_bytes_4 l : zlen l = 4 -> addr_bytes (AddrFrom4 l) = l.
Proof.
  intros H. unfold AddrFrom4, addr_bytes.
  replace 4%nat with (length l) by (unfold zlen in H; lia). apply be_bytes_value.
Qed.

Lemma addr_bytes_16 l : zlen l = 16 -> addr_bytes (AddrFrom16 l) = l.
Proof.
  intros H. unfold AddrFrom16, addr_bytes.
  replace 16%nat with (length l) by (unfold zlen in H; lia). apply be_bytes_value.
Qed.
