(* ===== verification/IPNet.v ===== *)
(** * Go's [net.IP], [net.IPMask] and [net.IPNet]

    Addresses and masks are byte strings, as in package net; the lemmas give
    their big-endian values: a mask of [ones] bits is [2^bits - 2^(bits - ones)],
    and masking an address clears its low bits. *)

From S2P Require Import Prelude NetIP.

(** ** Definitions *)

Definition v4InV6Prefix : list byte := replicate 10 (byte_of_Z 0) ++ replicate 2 (byte_of_Z 255).

(** [IP.To4] and [IP.To16]; absent is a nil address. *)
Definition To4 (ip : list byte) : option (list byte) :=
  if (length ip =? 4)%nat then Some ip
  else if (length ip =? 16)%nat && bool_decide (take 12 ip = v4InV6Prefix) then Some (drop 12 ip)
  else None.

Definition To16 (ip : list byte) : option (list byte) :=
  if (length ip =? 4)%nat then Some (v4InV6Prefix ++ ip)
  else if (length ip =? 16)%nat then Some ip
  else None.

Record IPNet : Type := MkIPNet { in_IP : list byte; in_Mask : list byte }.

#[global] Instance IPNet_eq_dec : EqDecision IPNet.
Proof. solve_decision. Defined.

Definition byte_and (a b : byte) : byte := byte_of_Z (Z.land (bZ a) (bZ b)).

(** [IP.Mask] of an address of the length of the mask. *)
Definition mask_bytes (ip mask : list byte) : list byte := zip_with byte_and ip mask.

(** The number of leading ones of a byte whose other bits are zero. *)
Definition byte_ones (v : Z) : option Z :=
  List.find (fun k => v =? 256 - 2 ^ (8 - k)) [0; 1; 2; 3; 4; 5; 6; 7].

(** [simpleMaskLength]: absent for a mask that is not ones followed by zeros. *)
Fixpoint simpleMaskLength (mask : list byte) : option Z :=
  match mask with
  | [] => Some 0
  | b :: mask' =>
      if bZ b =? 255 then (fun n => 8 + n) <$> simpleMaskLength mask'
      else match byte_ones (bZ b) with
           | Some k => if forallb (fun x => bZ x =? 0) mask' then Some k else None
           | None => None
           end
  end.

(** [IPMask.Size] *)
Definition Mask_Size (mask : list byte) : Z * Z :=
  match simpleMaskLength mask with Some ones => (ones, 8 * zlen mask) | None => (0, 0) end.

(** [net.CIDRMask] of a valid length. *)
Fixpoint cidr_bytes (ones : Z) (n : nat) : list byte :=
  match n with
  | O => []
  | S n => byte_of_Z (256 - 2 ^ (8 - Z.min 8 ones)) :: cidr_bytes (Z.max 0 (ones - 8)) n
  end.

Definition CIDRMask (ones bits : Z) : list byte := cidr_bytes ones (Z.to_nat (bits / 8)).

(** [IPNet.Contains] *)
Definition networkNumberAndMask (n : IPNet) : list byte * list byte :=
  let '(ip, ok) := match To4 (in_IP n) with
                   | Some ip => (ip, true)
                   | None => (in_IP n, (length (in_IP n) =? 16)%nat)
                   end in
  if negb ok then ([], [])
  else if (length (in_Mask n) =? 4)%nat then
    if negb (length ip =? 4)%nat then ([], []) else (ip, in_Mask n)
  else if (length (in_Mask n) =? 16)%nat then
    (ip, if (length ip =? 4)%nat then drop 12 (in_Mask n) else in_Mask n)
  else ([], []).

Definition IPNet_Contains (n : IPNet) (ip : list byte) : bool :=
  let '(nn, m) := networkNumberAndMask n in
  let ip := match To4 ip with Some x => x | None => ip end in
  (length ip =? length nn)%nat && bool_decide (mask_bytes nn m = mask_bytes ip m).

(** ** Values *)

Lemma be_value_cons b l : be_value (b :: l) = bZ b * 256 ^ zlen l + be_value l.
Proof.
  induction l as [|c l IH] using rev_ind.
  - change (zlen (@nil byte)) with 0. rewrite Z.pow_0_r. unfold be_value. cbn [fold_left]. lia.
  - rewrite app_comm_cons, !be_value_app, IH, zlen_app. change (zlen [c]) with 1.
    rewrite Z.pow_add_r by (pose proof (zlen_nonneg l); lia). lia.
Qed.

Lemma be_value_concat l k : be_value (l ++ k) = be_value l * 256 ^ zlen k + be_value k.
Proof.
  induction l as [|b l IH]; [unfold be_value at 2; cbn [app fold_left]; lia|].
  cbn [app]. rewrite !be_value_cons, IH, zlen_app, Z.pow_add_r by apply zlen_nonneg. lia.
Qed.

Lemma be_value_nil : be_value [] = 0.
Proof. done. Qed.

Lemma be_bytes_spec n v : 0 <= v < 256 ^ Z.of_nat n -> be_value (be_bytes n v) = v /\ length (be_bytes n v) = n.
Proof.
  revert v. induction n as [|n IH]; intros v Hv; [split; [cbn [be_bytes]; rewrite be_value_nil; cbn in Hv; lia|done]|].
  rewrite Nat2Z.inj_succ, Z.pow_succ_r in Hv by lia. cbn [be_bytes]. destruct (IH (v / 256)) as [H1 H2].
  { split; [apply Z.div_pos; lia|]. apply Z.div_lt_upper_bound; lia. }
  rewrite be_value_app, length_app, H1, H2, bZ_byte_of_Z by (apply Z.mod_pos_bound; lia). cbn [length].
  split; [|lia]. pose proof (Z.div_mod v 256). lia.
Qed.

Lemma byte_and_ones b k : 0 <= k <= 8 ->
  bZ (byte_and b (byte_of_Z (256 - 2 ^ (8 - k)))) = bZ b - bZ b mod 2 ^ (8 - k).
Proof.
  intros Hk. assert (Hall : forallb (fun k => forallb (fun v =>
    bZ (byte_of_Z (Z.land v (bZ (byte_of_Z (256 - 2 ^ (8 - Z.of_nat k)))))) =? v - v mod 2 ^ (8 - Z.of_nat k))
      (map Z.of_nat (seq 0 256))) (seq 0 9) = true) by (vm_compute; reflexivity).
  rewrite forallb_forall in Hall. specialize (Hall (Z.to_nat k)). rewrite Z2Nat.id in Hall by lia.
  assert (Hin : In (Z.to_nat k) (seq 0 9)) by (apply in_seq; lia). specialize (Hall Hin). rewrite forallb_forall in Hall.
  apply Z.eqb_eq. apply (Hall (bZ b)). apply in_map_iff. pose proof (bZ_range b). exists (Z.to_nat (bZ b)).
  split; [lia|]. apply in_seq. lia.
Qed.

Lemma pow_256 n : 0 <= n -> 256 ^ n = 2 ^ (8 * n).
Proof. intros Hn. change 256 with (2 ^ 8). by rewrite <- Z.pow_mul_r. Qed.

Lemma length_cidr ones n : length (cidr_bytes ones n) = n.
Proof. revert ones. induction n as [|n IH]; intros ones; cbn; [done|by rewrite IH]. Qed.

(** Masking with a CIDR mask clears the host bits. *)
Lemma mask_value ip ones : 0 <= ones <= 8 * zlen ip ->
  be_value (mask_bytes ip (cidr_bytes ones (length ip))) = be_value ip - be_value ip mod 2 ^ (8 * zlen ip - ones).
Proof.
  revert ones. induction ip as [|b ip IH]; intros ones Hones.
  { change (zlen (@nil byte)) with 0 in *. rewrite be_value_nil. unfold mask_bytes. cbn [zip_with]. rewrite be_value_nil. done. }
  rewrite zlen_cons in *. pose proof (zlen_nonneg ip) as Hl. pose proof (be_value_range ip) as Hr.
  cbn [length cidr_bytes]. unfold mask_bytes in *. cbn [zip_with]. rewrite !be_value_cons.
  assert (Hz : zlen (zip_with byte_and ip (cidr_bytes (Z.max 0 (ones - 8)) (length ip))) = zlen ip).
  { unfold zlen. rewrite length_zip_with, length_cidr. lia. }
  rewrite Hz, byte_and_ones, IH by lia. clear IH Hz. rewrite pow_256 in * by lia. pose proof (bZ_range b) as Hb.
  destruct (Z.le_gt_cases 8 ones) as [H8|H8].
  - rewrite Z.min_l, Z.max_r by lia. change (2 ^ (8 - 8)) with 1. rewrite Z.mod_1_r.
    replace (8 * (zlen ip + 1) - ones) with (8 * zlen ip - (ones - 8)) by lia. set (h := 8 * zlen ip - (ones - 8)).
    assert (Hm : (bZ b * 2 ^ (8 * zlen ip) + be_value ip) mod 2 ^ h = be_value ip mod 2 ^ h); [|lia].
    replace (8 * zlen ip) with ((ones - 8) + h) by lia. rewrite Z.pow_add_r, Z.mul_assoc by lia.
    rewrite Z.add_comm, Z.mod_add by (apply Z.pow_nonzero; lia). done.
  - rewrite Z.min_r, Z.max_l by lia. rewrite Z.sub_0_r, (Z.mod_small (be_value ip)) by lia.
    replace (8 * (zlen ip + 1) - ones) with (8 * zlen ip + (8 - ones)) by lia. rewrite Z.pow_add_r by lia.
    rewrite Z.rem_mul_r by (try apply Z.pow_nonzero; try apply Z.pow_pos_nonneg; lia).
    assert (H1 : (bZ b * 2 ^ (8 * zlen ip) + be_value ip) mod 2 ^ (8 * zlen ip) = be_value ip).
    { rewrite Z.add_comm, Z.mod_add by (apply Z.pow_nonzero; lia). by apply Z.mod_small. }
    assert (H2 : (bZ b * 2 ^ (8 * zlen ip) + be_value ip) / 2 ^ (8 * zlen ip) = bZ b).
    { rewrite Z.add_comm, Z.div_add by (apply Z.pow_nonzero; lia). rewrite Z.div_small by done. lia. }
    rewrite H1, H2. lia.
Qed.

(** ** Masks *)

Lemma byte_ones_spec v k : byte_ones v = Some k -> v = 256 - 2 ^ (8 - k) /\ 0 <= k <= 7.
Proof.
  unfold byte_ones. intros H. apply find_some in H as [Hin Hv%Z.eqb_eq]. split; [done|].
  cbn [In] in Hin. lia.
Qed.

Lemma cidr_zeros n : cidr_bytes 0 n = replicate n (byte_of_Z 0).
Proof. induction n as [|n IH]; [done|]. cbn [cidr_bytes replicate]. change (Z.max 0 (0 - 8)) with 0. by rewrite IH. Qed.

Lemma bZ_eq b v : 0 <= v < 256 -> bZ b = v -> b = byte_of_Z v.
Proof. intros Hv Hb. rewrite <- Hb. symmetry. apply byte_of_Z_bZ. Qed.

(** A mask with a size is a CIDR mask. *)
Lemma mask_canonical mask ones : simpleMaskLength mask = Some ones ->
  mask = cidr_bytes ones (length mask) /\ 0 <= ones <= 8 * zlen mask.
Proof.
  revert ones. induction mask as [|b mask IH]; intros ones; cbn [simpleMaskLength]; [intros [= <-]; split; done|].
  rewrite zlen_cons. pose proof (zlen_nonneg mask) as Hl. destruct (Z.eqb_spec (bZ b) 255) as [Hb|Hb].
  - destruct (simpleMaskLength mask) as [n|] eqn:En; [|done]. intros [= <-]. destruct (IH n eq_refl) as [Hm Hn].
    split; [|lia]. cbn [length cidr_bytes]. rewrite Z.min_l, Z.max_r by lia. replace (8 + n - 8) with n by lia.
    f_equal; [by apply bZ_eq|done].
  - destruct (byte_ones (bZ b)) as [k|] eqn:Ek; [|done]. apply byte_ones_spec in Ek as [Hk Hrange].
    destruct (forallb _ mask) eqn:Ef; [|done]. intros [= <-]. split; [|lia]. cbn [length cidr_bytes].
    rewrite Z.min_r, Z.max_l by lia. f_equal.
    + rewrite <- Hk. symmetry. apply byte_of_Z_bZ.
    + rewrite cidr_zeros. clear -Ef. induction mask as [|c mask IH]; [done|]. cbn [forallb] in Ef.
      apply andb_true_iff in Ef as [Hc Hm]. cbn [length replicate]. rewrite <- IH by done. f_equal. apply bZ_eq; lia.
Qed.

Lemma byte_ones_of k : 0 <= k <= 7 -> byte_ones (256 - 2 ^ (8 - k)) = Some k /\ 0 <= 256 - 2 ^ (8 - k) < 255.
Proof.
  intros Hk. assert (Hc : k = 0 \/ k = 1 \/ k = 2 \/ k = 3 \/ k = 4 \/ k = 5 \/ k = 6 \/ k = 7) by lia.
  destruct_or! Hc; subst k; vm_compute; split; try done; split; done.
Qed.

Lemma mask_length_cidr ones n : 0 <= ones <= 8 * Z.of_nat n -> simpleMaskLength (cidr_bytes ones n) = Some ones.
Proof.
  revert ones. induction n as [|n IH]; intros ones Hones; [cbn; f_equal; lia|]. cbn [cidr_bytes simpleMaskLength].
  destruct (Z.le_gt_cases 8 ones) as [H8|H8].
  - rewrite Z.min_l, Z.max_r by lia. rewrite IH by lia. cbn. f_equal. lia.
  - rewrite Z.min_r, Z.max_l by lia. destruct (byte_ones_of ones ltac:(lia)) as [Ho Hr]. rewrite bZ_byte_of_Z by lia.
    rewrite (proj2 (Z.eqb_neq _ 255)), Ho by lia.
    assert (Hz : forallb (fun x => bZ x =? 0) (cidr_bytes 0 n) = true); [|by rewrite Hz].
    rewrite cidr_zeros. clear. by induction n.
Qed.

Lemma Mask_Size_spec mask ones bits : Mask_Size mask = (ones, bits) -> bits <> 0 ->
  mask = cidr_bytes ones (length mask) /\ bits = 8 * zlen mask /\ 0 <= ones <= bits.
Proof.
  unfold Mask_Size. destruct (simpleMaskLength mask) as [n|] eqn:En; [|intros [= <- <-]; done].
  intros [= <- <-] _. destruct (mask_canonical mask n En) as [Hm Hn]. done.
Qed.

Lemma Mask_Size_CIDR ones bits : bits = 32 \/ bits = 128 -> 0 <= ones <= bits -> Mask_Size (CIDRMask ones bits) = (ones, bits).
Proof.
  intros Hbits Hones. unfold Mask_Size, CIDRMask, zlen. rewrite length_cidr.
  destruct Hbits as [-> | ->]; [change (Z.to_nat (32 / 8)) with 4%nat|change (Z.to_nat (128 / 8)) with 16%nat];
    by rewrite mask_length_cidr by lia.
Qed.

(** ** Families *)

(** The number of bytes of the addresses of a family. *)
Definition family_bytes (bits : Z) : nat := Z.to_nat (bits / 8).

Definition is_family (bits : Z) : Prop := bits = 32 \/ bits = 128.

Lemma To4_length ip x : To4 ip = Some x -> length x = 4%nat.
Proof.
  unfold To4. destruct (Nat.eqb_spec (length ip) 4) as [H4|]; [by intros [= <-]|].
  destruct (Nat.eqb_spec (length ip) 16) as [H16|]; [|done]. cbn [andb]. case_bool_decide; [|done].
  intros [= <-]. rewrite length_drop. lia.
Qed.

Lemma To16_length ip x : To16 ip = Some x -> length x = 16%nat.
Proof.
  unfold To16. destruct (Nat.eqb_spec (length ip) 4) as [H4|]; [intros [= <-]; cbn; lia|].
  destruct (Nat.eqb_spec (length ip) 16); [|done]. by intros [= <-].
Qed.

Lemma To4_4 ip : length ip = 4%nat -> To4 ip = Some ip.
Proof. intros H. unfold To4. by rewrite H. Qed.

Lemma To16_4 ip : length ip = 4%nat -> To16 ip = Some (v4InV6Prefix ++ ip).
Proof. intros H. unfold To16. by rewrite H. Qed.

Lemma To16_16 ip : length ip = 16%nat -> To16 ip = Some ip.
Proof. intros H. unfold To16. by rewrite H. Qed.

Lemma To4_mapped ip : length ip = 4%nat -> To4 (v4InV6Prefix ++ ip) = Some ip.
Proof.
  intros H. unfold To4. rewrite length_app, H. cbn [length v4InV6Prefix app replicate Nat.add Nat.eqb andb].
  case_bool_decide as Hb; [done|]. by destruct Hb.
Qed.

(** A 16-byte address that has an IPv4 form is a mapped one. *)
Lemma To4_16 ip x : length ip = 16%nat -> To4 ip = Some x -> ip = v4InV6Prefix ++ x.
Proof.
  intros H. unfold To4. rewrite H. cbn [Nat.eqb andb]. case_bool_decide as Hb; [|done]. intros [= <-].
  rewrite <- Hb. by rewrite take_drop.
Qed.

Definition mapped_base : Z := be_value v4InV6Prefix * 2 ^ 32.

Lemma mapped_be_value ip : length ip = 4%nat -> be_value (v4InV6Prefix ++ ip) = mapped_base + be_value ip.
Proof. intros H. rewrite be_value_concat. unfold zlen. rewrite H. done. Qed.
