(* ===== verification/Subnet.v ===== *)
(** * Subnets

    Models src/subnet/subnet.go (address arithmetic, [Range], [FromRange],
    [Split], [IPIndex], [Extend], [Narrow]) and the shared helpers of
    src/subnet/alloc.go and ip_alloc.go ([normalizeIPNet], [normalizeSubnet],
    [intToIP], [alignUp]).  A [big.Int] is a [Z]; the table of
    well-known networks at the top of subnet.go is data.

    The lemmas give the value of a normalized network: its first address is a
    multiple of its size, and its last one is the first plus the size less one. *)

From S2P Require Import Prelude NetIP IPNet.

(** ** Bytes of numbers *)

(** [big.Int.Bytes]: without leading zeros. *)
Definition big_bytes (v : Z) : list byte :=
  if v <=? 0 then [] else be_bytes (Z.to_nat (Z.log2 v / 8 + 1)) v.

(** Padded on the left to a length, as the code does. *)
Definition pad_bytes (n : nat) (b : list byte) : list byte :=
  if (length b <? n)%nat then replicate (n - length b) (byte_of_Z 0) ++ b else b.

Definition ipToInt (ip : list byte) : Z := be_value ip.

Definition intToIP (value bits : Z) : list byte :=
  let size := Z.to_nat (bits / 8) in
  let bytes := big_bytes value in
  pad_bytes size (if (size <? length bytes)%nat then drop (length bytes - size) bytes else bytes).

(** ** Addresses *)

Fixpoint inc_rev (l : list byte) : list byte :=
  match l with
  | [] => []
  | b :: l' => let b' := byte_of_Z ((bZ b + 1) mod 256) in if bZ b' =? 0 then b' :: inc_rev l' else b' :: l'
  end.

Definition Next (ip : list byte) : list byte :=
  let ip := match To4 ip with Some ip4 => ip4 | None => ip end in rev (inc_rev (rev ip)).

Fixpoint dec_rev (l : list byte) : list byte :=
  match l with
  | [] => []
  | b :: l' => let b' := byte_of_Z ((bZ b - 1) mod 256) in if bZ b' =? 255 then b' :: dec_rev l' else b' :: l'
  end.

Definition Prev (ip : list byte) : list byte :=
  let ip := match To4 ip with Some ip4 => ip4 | None => ip end in rev (dec_rev (rev ip)).

(** [IP.Mask] *)
Definition IP_Mask (ip mask : list byte) : list byte :=
  let mask := if (length mask =? 16)%nat && (length ip =? 4)%nat && forallb (fun b => bZ b =? 255) (take 12 mask)
              then drop 12 mask else mask in
  let ip := if (length mask =? 4)%nat && (length ip =? 16)%nat && bool_decide (take 12 ip = v4InV6Prefix)
            then drop 12 ip else ip in
  if (length ip =? length mask)%nat then mask_bytes ip mask else [].

(** ** Networks *)

Definition Contains (parent child : IPNet) : bool :=
  if (Mask_Size (in_Mask child)).1 <? (Mask_Size (in_Mask parent)).1 then false
  else IPNet_Contains parent (in_IP child).

Fixpoint Overlap (nets : list IPNet) : bool :=
  match nets with
  | [] => false
  | n :: nets' =>
      existsb (fun m => IPNet_Contains n (in_IP m) || IPNet_Contains m (in_IP n)) nets' || Overlap nets'
  end.

Definition Capacity (network : IPNet) : Z := let '(ones, bits) := Mask_Size (in_Mask network) in 2 ^ (bits - ones).

Definition Range (network : IPNet) : list byte * list byte :=
  let first := default [] (match To4 (in_IP network) with Some f => To16 f | None => To16 (in_IP network) end) in
  let '(ones, bits) := Mask_Size (in_Mask network) in
  let lastBytes := pad_bytes (length first) (big_bytes (be_value first + (2 ^ (bits - ones) - 1))) in
  let last := take (length first) lastBytes in
  match To4 (in_IP network) with
  | Some _ => (default [] (To4 first), default [] (To4 last))
  | None => (first, last)
  end.

Inductive rangeError : Type :=
| ErrInvalidIP | ErrFamilyMismatch | ErrFirstAfterLast | ErrRangeSize | ErrNotPowerOfTwo | ErrNotAligned.

Definition either_form (ip : list byte) : option (list byte) := match To4 ip with Some f => Some f | None => To16 ip end.

Definition FromRange (first last : list byte) : result rangeError IPNet :=
  match either_form first, either_form last with
  | Some f, Some l =>
      if negb (length f =? length l)%nat then Failure ErrFamilyMismatch
      else
        let fInt := be_value f in
        let lInt := be_value l in
        if lInt <? fInt then Failure ErrFirstAfterLast
        else
          let size := lInt - fInt + 1 in
          if (size =? 0) || (128 <? Z.log2 size + 1) then Failure ErrRangeSize
          else if negb (Z.land size (size - 1) =? 0) then Failure ErrNotPowerOfTwo
          else
            let bits := 8 * zlen f in
            let mask := CIDRMask (bits - Z.log2 size) bits in
            if negb (bool_decide (IP_Mask f mask = f)) then Failure ErrNotAligned
            else Success (MkIPNet f mask)
  | _, _ => Failure ErrInvalidIP
  end.

(** The bytes of a sum, padded and cut to the length of the address. *)
Definition Split (network : IPNet) : option (IPNet * IPNet) :=
  let '(ones, bits) := Mask_Size (in_Mask network) in
  if ones =? bits then None
  else
    let newMask := CIDRMask (ones + 1) bits in
    let n := length (in_IP network) in
    let first := IP_Mask (in_IP network) newMask in
    let second := take n (pad_bytes n (big_bytes (be_value (in_IP network) + 2 ^ (bits - (ones + 1))))) in
    match To4 (in_IP network) with
    | Some _ => Some (MkIPNet (default [] (To4 first)) newMask, MkIPNet (default [] (To4 second)) newMask)
    | None => Some (MkIPNet first newMask, MkIPNet second newMask)
    end.

Inductive indexError : Type := ErrNegative | ErrOutOfRange | ErrPrefixLength | ErrBadNetwork.

Definition IPIndex (network : IPNet) (i : Z) : result indexError (list byte) :=
  if i <? 0 then Failure ErrNegative
  else
    let '(ones, bits) := Mask_Size (in_Mask network) in
    if 2 ^ (bits - ones) <=? i then Failure ErrOutOfRange
    else match either_form (in_IP network) with
         | None => Failure ErrBadNetwork
         | Some base =>
             let n := length base in
             let resultIP := take n (pad_bytes n (big_bytes (be_value base + i))) in
             Success (match To4 (in_IP network) with Some _ => default [] (To4 resultIP) | None => resultIP end)
         end.

(** Keeps the last bytes of a sum that is too long. *)
Definition fit_bytes (n : nat) (v : Z) : list byte :=
  let b := pad_bytes n (big_bytes v) in if (n <? length b)%nat then drop (length b - n) b else b.

Definition Extend (network : IPNet) (bits num : Z) : result indexError IPNet :=
  let '(ones, totalBits) := Mask_Size (in_Mask network) in
  if bits <? 0 then Failure ErrNegative
  else if num <? 0 then Failure ErrNegative
  else
    let newPrefix := ones - bits in
    if newPrefix <? 0 then Failure ErrPrefixLength
    else
      let newMask := CIDRMask newPrefix totalBits in
      let newIP := be_value (in_IP network) + num * 2 ^ (totalBits - newPrefix) in
      let resultIP := IP_Mask (fit_bytes (length (in_IP network)) newIP) newMask in
      Success (MkIPNet (match To4 (in_IP network) with Some _ => default [] (To4 resultIP) | None => resultIP end) newMask).

Definition Narrow (network : IPNet) (bits num : Z) : result indexError IPNet :=
  let '(ones, totalBits) := Mask_Size (in_Mask network) in
  if bits <? 0 then Failure ErrNegative
  else if num <? 0 then Failure ErrNegative
  else
    let newPrefix := i64 (ones + bits) in
    if totalBits <? newPrefix then Failure ErrPrefixLength
    else if 2 ^ bits <=? num then Failure ErrOutOfRange
    else
      let newMask := CIDRMask newPrefix totalBits in
      let newIP := be_value (in_IP network) + num * 2 ^ (totalBits - newPrefix) in
      let resultIP := fit_bytes (length (in_IP network)) newIP in
      Success (MkIPNet (match To4 (in_IP network) with Some _ => default [] (To4 resultIP) | None => resultIP end) newMask).

(** ** Normalization *)

Definition normalizeIPForBits (ip : list byte) (bits : Z) : option (list byte) :=
  if bits =? 32 then To4 ip else if bits =? 128 then To16 ip else None.

Definition normalizeIPNet (network : IPNet) : option (list byte * list byte * Z) :=
  let '(_, bits) := Mask_Size (in_Mask network) in
  if negb (bits =? 32) && negb (bits =? 128) then None
  else match normalizeIPForBits (in_IP network) bits with
       | None => None
       | Some ip => Some (IP_Mask ip (in_Mask network), in_Mask network, bits)
       end.

(** The key of a subnet in a map: its family, prefix length and address, which
    the key's text determines. *)
Definition subnetKey : Type := Z * Z * list byte.

Definition subnetMapKey (ip : list byte) (bits prefix : Z) : subnetKey := (bits, prefix, ip).

Record reservedSubnet : Type := MkReserved {
  rs_network : IPNet; rs_bits : Z; rs_prefix : Z; rs_start : Z; rs_end : Z; rs_count : Z }.

Definition normalizeSubnet (subnet : option IPNet) : option reservedSubnet :=
  match subnet with
  | None => None
  | Some subnet =>
      match normalizeIPNet subnet with
      | None => None
      | Some (ip, mask, bits) =>
          let network := MkIPNet ip mask in
          let '(first, last) := Range network in
          Some (MkReserved network bits (Mask_Size mask).1
                  (ipToInt (default [] (normalizeIPForBits first bits))) (ipToInt (default [] (normalizeIPForBits last bits))) 1)
      end
  end.

Definition reserved_key (r : reservedSubnet) : subnetKey :=
  subnetMapKey (in_IP (rs_network r)) (rs_bits r) (rs_prefix r).

Definition subnetSize (bits prefix : Z) : Z := 2 ^ (bits - prefix).
Definition subnetEnd (start size : Z) : Z := start + size - 1.

Definition alignUp (value size : Z) : Z :=
  let remainder := value mod size in if remainder =? 0 then value else value + (size - remainder).

(** ** Values of networks *)

Lemma big_bytes_spec v : 0 <= v -> be_value (big_bytes v) = v /\ (forall n : nat, v < 256 ^ Z.of_nat n -> (length (big_bytes v) <= n)%nat).
Proof.
  intros Hv. unfold big_bytes. destruct (Z.leb_spec v 0) as [H0|H0]; [split; [rewrite be_value_nil; lia|intros; cbn; lia]|].
  pose proof (Z.log2_nonneg v) as Hl. pose proof (Z.div_pos (Z.log2 v) 8 Hl ltac:(lia)) as Hd.
  assert (Hlt : v < 256 ^ Z.of_nat (Z.to_nat (Z.log2 v / 8 + 1))).
  { rewrite Z2Nat.id, pow_256 by lia. pose proof (Z.log2_spec v H0) as [_ Hs]. eapply Z.lt_le_trans; [exact Hs|].
    apply Z.pow_le_mono_r; [lia|]. pose proof (Z.div_mod (Z.log2 v) 8). pose proof (Z.mod_pos_bound (Z.log2 v) 8). lia. }
  destruct (be_bytes_spec (Z.to_nat (Z.log2 v / 8 + 1)) v) as [H1 H2]; [lia|]. split; [done|]. intros n Hn. rewrite H2.
  rewrite pow_256 in Hn by lia. apply Z.log2_lt_pow2 in Hn; [|lia].
  assert (Z.log2 v / 8 < Z.of_nat n) by (apply Z.div_lt_upper_bound; lia). lia.
Qed.

Lemma be_value_zeros n b : be_value (replicate n (byte_of_Z 0) ++ b) = be_value b.
Proof.
  induction n as [|n IH]; [done|]. cbn [replicate app]. rewrite be_value_cons, IH. rewrite bZ_byte_of_Z by lia. lia.
Qed.

(** Padding the bytes of a number that fits gives its fixed-width bytes. *)
Lemma pad_big_bytes n v : 0 <= v < 256 ^ Z.of_nat n -> pad_bytes n (big_bytes v) = be_bytes n v.
Proof.
  intros Hv. destruct (big_bytes_spec v ltac:(lia)) as [Hval Hlen]. specialize (Hlen n ltac:(lia)).
  destruct (be_bytes_spec n v Hv) as [Hb Hbl]. apply be_value_inj.
  - unfold pad_bytes. destruct (Nat.ltb_spec (length (big_bytes v)) n); [rewrite length_app, length_replicate; lia|lia].
  - rewrite Hb. unfold pad_bytes. destruct (_ <? _)%nat; [by rewrite be_value_zeros|done].
Qed.

Lemma intToIP_spec v bits : is_family bits -> 0 <= v < 2 ^ bits -> intToIP v bits = be_bytes (family_bytes bits) v.
Proof.
  intros Hf Hv. assert (Hp : 2 ^ bits = 256 ^ Z.of_nat (family_bytes bits)) by (destruct Hf as [-> | ->]; reflexivity).
  rewrite Hp in Hv. unfold intToIP. fold (family_bytes bits). destruct (big_bytes_spec v ltac:(lia)) as [_ Hlen].
  rewrite (proj2 (Nat.ltb_ge _ _)) by (apply Hlen; lia). by apply pad_big_bytes.
Qed.

(** ** Normalized networks *)

(** A network of a family with a prefix length, whose host bits are zero. *)
Record wf_net (bits ones : Z) (n : IPNet) : Prop := {
  wn_family : is_family bits;
  wn_ones : 0 <= ones <= bits;
  wn_mask : in_Mask n = CIDRMask ones bits;
  wn_length : length (in_IP n) = family_bytes bits;
  wn_aligned : be_value (in_IP n) mod 2 ^ (bits - ones) = 0 }.

Lemma family_pow bits : is_family bits -> 2 ^ bits = 256 ^ Z.of_nat (family_bytes bits).
Proof. intros [-> | ->]; reflexivity. Qed.

Lemma wf_value bits ones n : wf_net bits ones n -> 0 <= be_value (in_IP n) < 2 ^ bits.
Proof.
  intros H. rewrite (family_pow bits) by apply H. rewrite <- (wn_length _ _ _ H). apply be_value_range.
Qed.

Lemma aligned_fits v h b : 0 <= h <= b -> 0 <= v < 2 ^ b -> v mod 2 ^ h = 0 -> v + 2 ^ h <= 2 ^ b.
Proof.
  intros Hh Hv Hm. apply Z.mod_divide in Hm as [q ->]; [|apply Z.pow_nonzero; lia].
  replace b with ((b - h) + h) in * by lia. rewrite Z.pow_add_r in * by lia.
  pose proof (Z.pow_pos_nonneg 2 h ltac:(lia) ltac:(lia)) as Hp. assert (q < 2 ^ (b - h)) by (apply (Z.mul_lt_mono_pos_r (2 ^ h)); lia).
  transitivity ((q + 1) * 2 ^ h); [lia|]. apply Z.mul_le_mono_nonneg_r; lia.
Qed.

Lemma wf_bits bits ones n : wf_net bits ones n -> Mask_Size (in_Mask n) = (ones, bits).
Proof. intros []. rewrite wn_mask0. by apply Mask_Size_CIDR. Qed.

(** The 16 bytes of a mapped IPv4 address. *)
Lemma mapped_bytes w : 0 <= w < 2 ^ 32 -> be_bytes 16 (mapped_base + w) = v4InV6Prefix ++ be_bytes 4 w.
Proof.
  intros Hw. destruct (be_bytes_spec 4 w Hw) as [Hv Hl].
  destruct (be_bytes_spec 16 (mapped_base + w)) as [Hv' Hl'].
  { change (256 ^ Z.of_nat 16) with (2 ^ 128). change mapped_base with 281470681743360. lia. }
  apply be_value_inj; [rewrite length_app, Hl; done|]. by rewrite mapped_be_value, Hv, Hv'.
Qed.

Lemma take_be n v : 0 <= v < 256 ^ Z.of_nat n -> take n (pad_bytes n (big_bytes v)) = be_bytes n v.
Proof. intros Hv. rewrite pad_big_bytes by done. apply take_ge. destruct (be_bytes_spec n v Hv). lia. Qed.

(** A mapped IPv6 network is inside the mapped range. *)
Lemma mapped_prefix ones n x : wf_net 128 ones n -> To4 (in_IP n) = Some x ->
  in_IP n = v4InV6Prefix ++ x /\ length x = 4%nat /\ 96 <= ones /\ be_value x mod 2 ^ (128 - ones) = 0.
Proof.
  intros H Hx. pose proof (To4_length _ _ Hx) as Hl. pose proof (wn_length _ _ _ H) as Hlen.
  apply To4_16 in Hx; [|done]. pose proof (wn_aligned _ _ _ H) as Ha. pose proof (wn_ones _ _ _ H) as Hones.
  rewrite Hx, mapped_be_value in Ha by done. pose proof (be_value_range x) as Hr. unfold zlen in Hr. rewrite Hl in Hr.
  change (256 ^ Z.of_nat 4) with 4294967296 in Hr. unfold mapped_base in Ha.
  change (be_value v4InV6Prefix) with 65535 in Ha. apply Z.mod_divide in Ha as [q Hq]; [|apply Z.pow_nonzero; lia].
  split_and!; [done|done| |].
  - destruct (Z.le_gt_cases 96 ones) as [|Hlt]; [done|]. exfalso.
    replace (128 - ones) with ((95 - ones) + 33) in Hq by lia. rewrite Z.pow_add_r in Hq by lia.
    change (2 ^ 32) with 4294967296 in Hq. change (2 ^ 33) with 8589934592 in Hq. nia.
  - destruct (Z.le_gt_cases 96 ones) as [|Hlt].
    + apply Z.mod_divide; [apply Z.pow_nonzero; lia|]. exists (q - 65535 * 2 ^ (32 - (128 - ones))).
      rewrite Z.mul_sub_distr_r, <- Hq, <- Z.mul_assoc, <- Z.pow_add_r by lia.
      replace (32 - (128 - ones) + (128 - ones)) with 32 by lia. lia.
    + exfalso. replace (128 - ones) with ((95 - ones) + 33) in Hq by lia. rewrite Z.pow_add_r in Hq by lia.
      change (2 ^ 32) with 4294967296 in Hq. change (2 ^ 33) with 8589934592 in Hq. nia.
Qed.

Lemma normalize_4_32 x : length x = 4%nat -> normalizeIPForBits x 32 = Some x.
Proof. apply To4_4. Qed.

Lemma normalize_4_128 x : length x = 4%nat -> normalizeIPForBits x 128 = Some (v4InV6Prefix ++ x).
Proof. apply To16_4. Qed.

Lemma normalize_16_128 x : length x = 16%nat -> normalizeIPForBits x 128 = Some x.
Proof. apply To16_16. Qed.

Lemma normalize_first bits ones n : wf_net bits ones n ->
  normalizeIPForBits (Range n).1 bits = Some (in_IP n).
Proof.
  intros H. unfold Range. rewrite (wf_bits _ _ _ H). pose proof (wn_length _ _ _ H) as Hl.
  destruct (wn_family _ _ _ H) as [-> | ->]; change (family_bytes 32) with 4%nat in *; change (family_bytes 128) with 16%nat in *.
  - rewrite To4_4, To16_4 by done. cbn [default fst from_option]. change (id ?x) with x. rewrite To4_mapped by done.
    cbn. by rewrite To4_4.
  - destruct (To4 (in_IP n)) as [x|] eqn:Ex.
    + destruct (mapped_prefix _ _ _ H Ex) as (Hip & Hx & _). rewrite To16_4 by done. cbn [default fst from_option].
      change (id ?x) with x. rewrite To4_mapped by done. cbn. rewrite To16_4 by done. by rewrite <- Hip.
    + rewrite To16_16 by done. cbn. by rewrite To16_16.
Qed.

Lemma normalize_last bits ones n : wf_net bits ones n ->
  normalizeIPForBits (Range n).2 bits = Some (be_bytes (family_bytes bits) (be_value (in_IP n) + (2 ^ (bits - ones) - 1))).
Proof.
  intros H. unfold Range. rewrite (wf_bits _ _ _ H). pose proof (wn_length _ _ _ H) as Hl.
  pose proof (wf_value _ _ _ H) as Hv. pose proof (wn_ones _ _ _ H) as Ho.
  pose proof (aligned_fits _ (bits - ones) bits ltac:(lia) Hv (wn_aligned _ _ _ H)) as Hfit.
  pose proof (Z.pow_pos_nonneg 2 (bits - ones) ltac:(lia) ltac:(lia)) as Hp. set (h := 2 ^ (bits - ones)) in *.
  destruct (wn_family _ _ _ H) as [-> | ->]; change (family_bytes 32) with 4%nat in *; change (family_bytes 128) with 16%nat in *.
  - rewrite To4_4, To16_4 by done. cbn [default from_option]. change (id ?x) with x.
    assert (H16 : length (v4InV6Prefix ++ in_IP n) = 16%nat) by (rewrite length_app, Hl; done). rewrite H16.
    rewrite mapped_be_value, <- Z.add_assoc by done. set (w := be_value (in_IP n) + (h - 1)) in *.
    change (2 ^ 32) with 4294967296 in *.
    rewrite take_be by (change mapped_base with 281470681743360; change (256 ^ Z.of_nat 16) with (2 ^ 128); lia).
    rewrite mapped_bytes by lia. assert (Hb : length (be_bytes 4 w) = 4%nat) by (apply be_bytes_spec; change (256 ^ Z.of_nat 4) with 4294967296; lia).
    cbn [snd]. rewrite To4_mapped by done. by apply normalize_4_32.
  - assert (Hgen : forall v, be_value (in_IP n) <= v < 2 ^ 128 -> length (be_bytes 16 v) = 16%nat)
      by (intros v Hvv; apply be_bytes_spec; change (256 ^ Z.of_nat 16) with (2 ^ 128); lia).
    destruct (To4 (in_IP n)) as [x|] eqn:Ex.
    + destruct (mapped_prefix _ _ _ H Ex) as (Hip & Hx & H96 & Hal). rewrite To16_4 by done. cbn [default from_option].
      change (id ?x) with x. rewrite <- Hip, Hl. rewrite Hip in *. rewrite mapped_be_value, <- Z.add_assoc in * by done.
      pose proof (be_value_range x) as Hr. unfold zlen in Hr. rewrite Hx in Hr. change (256 ^ Z.of_nat 4) with (2 ^ 32) in Hr.
      pose proof (aligned_fits _ (128 - ones) 32 ltac:(lia) Hr Hal) as Hf. fold h in Hf. set (w := be_value x + (h - 1)) in *.
      change (2 ^ 32) with 4294967296 in *.
      rewrite take_be by (change mapped_base with 281470681743360; change (256 ^ Z.of_nat 16) with (2 ^ 128); lia).
      rewrite mapped_bytes by lia. assert (Hb : length (be_bytes 4 w) = 4%nat) by (apply be_bytes_spec; change (256 ^ Z.of_nat 4) with 4294967296; lia).
      cbn [snd]. rewrite To4_mapped by done. by apply normalize_4_128.
    + rewrite To16_16 by done. cbn [default from_option]. change (id ?x) with x. rewrite Hl.
      rewrite take_be by (change (256 ^ Z.of_nat 16) with (2 ^ 128); lia). cbn [snd]. apply normalize_16_128, Hgen. lia.
Qed.

Lemma value_be_bytes bits v : is_family bits -> 0 <= v < 2 ^ bits -> be_value (be_bytes (family_bytes bits) v) = v.
Proof. intros Hf Hv. rewrite family_pow in Hv by done. by apply be_bytes_spec. Qed.

(** The first and the last number of a normalized network. *)
Lemma Range_values bits ones n : wf_net bits ones n ->
  ipToInt (default [] (normalizeIPForBits (Range n).1 bits)) = be_value (in_IP n) /\
  ipToInt (default [] (normalizeIPForBits (Range n).2 bits)) = subnetEnd (be_value (in_IP n)) (subnetSize bits ones).
Proof.
  intros H. rewrite (normalize_first _ _ _ H), (normalize_last _ _ _ H). cbn [default from_option]. unfold id, ipToInt, subnetEnd, subnetSize. split; [done|].
  pose proof (wf_value _ _ _ H) as Hv. pose proof (wn_ones _ _ _ H) as Ho.
  pose proof (aligned_fits _ (bits - ones) bits ltac:(lia) Hv (wn_aligned _ _ _ H)) as Hfit.
  pose proof (Z.pow_pos_nonneg 2 (bits - ones) ltac:(lia) ltac:(lia)) as Hp.
  rewrite value_be_bytes by (try apply H; lia). lia.
Qed.

Lemma normalizeIPForBits_length ip bits x : normalizeIPForBits ip bits = Some x -> is_family bits /\ length x = family_bytes bits.
Proof.
  unfold normalizeIPForBits, is_family. destruct (Z.eqb_spec bits 32) as [->|]; [intros H; split; [by left|by apply To4_length in H]|].
  destruct (Z.eqb_spec bits 128) as [->|]; [intros H; split; [by right|by apply To16_length in H]|done].
Qed.

Lemma IP_Mask_same ip mask : length ip = length mask -> IP_Mask ip mask = mask_bytes ip mask.
Proof.
  intros H. unfold IP_Mask. replace ((length mask =? 16)%nat && (length ip =? 4)%nat) with false.
  - cbn [andb]. replace ((length mask =? 4)%nat && (length ip =? 16)%nat) with false.
    + cbn [andb]. by rewrite H, Nat.eqb_refl.
    + destruct (Nat.eqb_spec (length mask) 4), (Nat.eqb_spec (length ip) 16); [lia|done..].
  - destruct (Nat.eqb_spec (length mask) 16), (Nat.eqb_spec (length ip) 4); [lia|done..].
Qed.

(** What [normalizeIPNet] returns is a normalized network. *)
Lemma normalizeIPNet_spec n ip mask bits : normalizeIPNet n = Some (ip, mask, bits) ->
  mask = in_Mask n /\ exists ones, wf_net bits ones (MkIPNet ip mask).
Proof.
  unfold normalizeIPNet. destruct (Mask_Size (in_Mask n)) as [ones b] eqn:Es.
  destruct (negb (b =? 32) && negb (b =? 128)) eqn:Eb; [done|].
  destruct (normalizeIPForBits (in_IP n) b) as [x|] eqn:Ex; [|done]. intros [= <- <- <-]. split; [done|]. exists ones.
  destruct (normalizeIPForBits_length _ _ _ Ex) as [Hf Hl].
  destruct (Mask_Size_spec _ _ _ Es) as (Hm & Hbits & Ho); [destruct Hf as [-> | ->]; done|].
  assert (Hlen : length (in_Mask n) = family_bytes b).
  { unfold zlen in Hbits. unfold family_bytes. rewrite Hbits, Z.mul_comm, Z.div_mul by lia. lia. }
  split; cbn [in_IP in_Mask]; [done|done|by rewrite Hm, Hlen|rewrite IP_Mask_same by lia; unfold mask_bytes; rewrite length_zip_with; lia|].
  rewrite IP_Mask_same by lia. rewrite Hm, Hlen, <- Hl. assert (Hz : 8 * zlen x = b) by (unfold zlen in *; lia).
  rewrite mask_value, Hz by lia. rewrite Zminus_mod_idemp_r, Z.sub_diag. done.
Qed.

Lemma mask_aligned x ones : 0 <= ones <= 8 * zlen x -> be_value x mod 2 ^ (8 * zlen x - ones) = 0 ->
  mask_bytes x (cidr_bytes ones (length x)) = x.
Proof.
  intros Ho Ha. apply be_value_inj; [unfold mask_bytes; rewrite length_zip_with, length_cidr; lia|].
  rewrite mask_value, Ha by done. lia.
Qed.

Lemma normalizeIPNet_wf bits ones n : wf_net bits ones n -> normalizeIPNet n = Some (in_IP n, in_Mask n, bits).
Proof.
  intros H. unfold normalizeIPNet. rewrite (wf_bits _ _ _ H). pose proof (wn_length _ _ _ H) as Hl.
  assert (Hn : normalizeIPForBits (in_IP n) bits = Some (in_IP n)).
  { unfold normalizeIPForBits. destruct (wn_family _ _ _ H) as [-> | ->]; [by apply To4_4|by apply To16_16]. }
  rewrite Hn. replace (negb (bits =? 32) && negb (bits =? 128)) with false by (destruct (wn_family _ _ _ H) as [-> | ->]; done).
  assert (Hml : length (in_Mask n) = family_bytes bits) by (rewrite (wn_mask _ _ _ H); apply length_cidr).
  rewrite IP_Mask_same by lia. rewrite (wn_mask _ _ _ H). unfold CIDRMask. fold (family_bytes bits). rewrite <- Hl.
  assert (Hz : 8 * zlen (in_IP n) = bits) by (unfold zlen; rewrite Hl; destruct (wn_family _ _ _ H) as [-> | ->]; done).
  rewrite mask_aligned; [done| |]; rewrite Hz; apply H.
Qed.

(** ** Reservations *)

(** A reservation describes a normalized network by its numbers. *)
Record reserved_ok (r : reservedSubnet) : Prop := {
  ro_wf : wf_net (rs_bits r) (rs_prefix r) (rs_network r);
  ro_start : rs_start r = be_value (in_IP (rs_network r));
  ro_end : rs_end r = subnetEnd (rs_start r) (subnetSize (rs_bits r) (rs_prefix r));
  ro_count : 1 <= rs_count r }.

Definition reservation (bits prefix : Z) (n : IPNet) : reservedSubnet :=
  let s := be_value (in_IP n) in MkReserved n bits prefix s (subnetEnd s (subnetSize bits prefix)) 1.

Lemma normalizeSubnet_wf bits prefix n : wf_net bits prefix n -> normalizeSubnet (Some n) = Some (reservation bits prefix n).
Proof.
  intros H. unfold normalizeSubnet. rewrite (normalizeIPNet_wf _ _ _ H). destruct n as [ip mask]. cbn [in_IP in_Mask].
  destruct (Range_values _ _ _ H) as [H1 H2]. destruct (Range _) as [f l]. cbn [fst snd] in *. rewrite H1, H2.
  pose proof (wf_bits _ _ _ H) as Hb. cbn [in_Mask] in Hb. by rewrite Hb.
Qed.

Lemma normalizeSubnet_ok n r : normalizeSubnet n = Some r -> reserved_ok r /\ rs_count r = 1.
Proof.
  destruct n as [n|]; [|done]. cbn [normalizeSubnet]. destruct (normalizeIPNet n) as [[[ip mask] bits]|] eqn:En; [|done].
  destruct (normalizeIPNet_spec _ _ _ _ En) as (_ & ones & H). destruct (Range_values _ _ _ H) as [H1 H2].
  pose proof (wf_bits _ _ _ H) as Hb. cbn [in_Mask] in Hb. rewrite Hb.
  destruct (Range _) as [f l]. cbn [fst snd] in *. intros [= <-]. rewrite H1, H2. done.
Qed.
