(* ===== verification/SubnetAlloc.v ===== *)
(** * Subnet allocator

    Models [subnetAllocator] of src/subnet/alloc.go: a table of reference-counted
    reservations and a first-fit search for a free subnet of the parent network,
    with an optional filter that may reject candidates ([maxFilteredAllocationAttempts]
    of src/subnet/ip_alloc.go bounds the rejections of one call).  The filter is a
    function of the candidate; the mutex makes every method one step.

    Every turn of the search either ends it, passes the end of one more blocker or
    counts one more rejected candidate, so [1 + length blockers + 1000] turns are
    enough ([alloc_loop_enough]). *)

From stdpp Require Import gmap sorting.
From S2P Require Import Prelude NetIP IPNet Subnet.

Definition maxFilteredAllocationAttempts : Z := 1000.

Record subnetAllocator : Type := MkSubnetAllocator {
  sa_parent : option IPNet;
  sa_bits : Z;
  sa_parentStart : Z;
  sa_parentEnd : Z;
  sa_reserved : gmap subnetKey reservedSubnet;
  sa_filter : option (IPNet -> bool) }.

Definition sa_with_reserved (a : subnetAllocator) (m : gmap subnetKey reservedSubnet) : subnetAllocator :=
  MkSubnetAllocator (sa_parent a) (sa_bits a) (sa_parentStart a) (sa_parentEnd a) m (sa_filter a).

Definition CopyIPNet (n : IPNet) : IPNet := MkIPNet (in_IP n) (in_Mask n).

Definition NewSubnetAllocator (parent : option IPNet) (filter : option (IPNet -> bool)) : subnetAllocator :=
  match parent with
  | None => MkSubnetAllocator None 0 0 0 ∅ filter
  | Some parent =>
      match normalizeIPNet parent with
      | None => MkSubnetAllocator None 0 0 0 ∅ filter
      | Some (ip, mask, bits) =>
          let parent := MkIPNet ip mask in
          let '(first, last) := Range parent in
          MkSubnetAllocator (Some parent) bits (ipToInt (default [] (normalizeIPForBits first bits)))
            (ipToInt (default [] (normalizeIPForBits last bits))) ∅ filter
      end
  end.

(** ** The table *)

Definition with_count (r : reservedSubnet) (c : Z) : reservedSubnet :=
  MkReserved (rs_network r) (rs_bits r) (rs_prefix r) (rs_start r) (rs_end r) c.

(** [reserve] and [FreeSubnet] of a table. *)
Definition table_reserve (m : gmap subnetKey reservedSubnet) (subnet : option IPNet) : gmap subnetKey reservedSubnet :=
  match normalizeSubnet subnet with
  | None => m
  | Some normalized =>
      let key := reserved_key normalized in
      match m !! key with
      | Some existing => <[key := with_count existing (rs_count existing + 1)]> m
      | None => <[key := normalized]> m
      end
  end.

Definition table_free (m : gmap subnetKey reservedSubnet) (subnet : option IPNet) : gmap subnetKey reservedSubnet :=
  match normalizeSubnet subnet with
  | None => m
  | Some normalized =>
      let key := reserved_key normalized in
      match m !! key with
      | None => m
      | Some reserved =>
          if 1 <? rs_count reserved then <[key := with_count reserved (rs_count reserved - 1)]> m else delete key m
      end
  end.

Definition reserve (a : subnetAllocator) (subnet : option IPNet) : subnetAllocator :=
  sa_with_reserved a (table_reserve (sa_reserved a) subnet).

Definition ReserveSubnet (a : subnetAllocator) (subnet : option IPNet) : subnetAllocator := reserve a subnet.

Definition FreeSubnet (a : subnetAllocator) (subnet : option IPNet) : subnetAllocator :=
  sa_with_reserved a (table_free (sa_reserved a) subnet).

Definition FreeAllSubnets (a : subnetAllocator) : subnetAllocator := sa_with_reserved a ∅.

(** ** The search *)

Definition validPrefix (a : subnetAllocator) (prefix : Z) : option Z :=
  match sa_parent a with
  | None => None
  | Some parent =>
      if (prefix <? 0) || (sa_bits a <? prefix) then None
      else let '(parentPrefix, bits) := Mask_Size (in_Mask parent) in
           if bits =? sa_bits a then Some parentPrefix else None
  end.

(** The order of the blockers: by start, then by end. *)
Definition blocker_le (x y : reservedSubnet) : Prop :=
  rs_start x < rs_start y \/ (rs_start x = rs_start y /\ rs_end x <= rs_end y).

#[global] Instance blocker_le_dec : RelDecision blocker_le.
Proof. intros x y. unfold blocker_le. apply _. Defined.

Definition in_window (bits first last : Z) (r : reservedSubnet) : bool :=
  (rs_bits r =? bits) && negb ((rs_end r <? first) || (last <? rs_start r)).

Definition sortedBlockers (a : subnetAllocator) : list reservedSubnet :=
  merge_sort blocker_le
    (List.filter (in_window (sa_bits a) (sa_parentStart a) (sa_parentEnd a)) (map snd (map_to_list (sa_reserved a)))).

(** The pass over the blockers: the first one that is not before the candidate,
    unless it is behind it. *)
Fixpoint find_blocker (blockers : list reservedSubnet) (candidateStart candidateEnd : Z) : option reservedSubnet :=
  match blockers with
  | [] => None
  | blocker :: blockers' =>
      if rs_end blocker <? candidateStart then find_blocker blockers' candidateStart candidateEnd
      else if candidateEnd <? rs_start blocker then None
      else Some blocker
  end.

Definition nextStart (blocker : reservedSubnet) (candidateStart size : Z) : Z :=
  let next := alignUp (rs_end blocker + 1) size in
  if next <=? candidateStart then candidateStart + size else next.

Definition candidate_net (bits prefix start : Z) : IPNet := MkIPNet (intToIP start bits) (CIDRMask prefix bits).

(** The loop of [alloc]; absent when the fuel runs out. *)
Fixpoint alloc_loop (fuel : nat) (bits prefix parentEnd : Z) (filter : option (IPNet -> bool))
    (blockers : list reservedSubnet) (candidateStart attempts : Z) : option (option IPNet) :=
  match fuel with
  | O => None
  | S fuel =>
      let size := subnetSize bits prefix in
      let candidateEnd := subnetEnd candidateStart size in
      if parentEnd <? candidateEnd then Some None
      else match find_blocker blockers candidateStart candidateEnd with
           | Some blocker =>
               alloc_loop fuel bits prefix parentEnd filter blockers (nextStart blocker candidateStart size) attempts
           | None =>
               let network := candidate_net bits prefix candidateStart in
               match filter with
               | None => Some (Some network)
               | Some accept =>
                   if negb (accept (CopyIPNet network)) then
                     if maxFilteredAllocationAttempts <=? attempts + 1 then Some None
                     else alloc_loop fuel bits prefix parentEnd filter blockers (candidateStart + size) (attempts + 1)
                   else Some (Some network)
               end
           end
  end.

Definition alloc_fuel (blockers : list reservedSubnet) : nat := S (length blockers + Z.to_nat maxFilteredAllocationAttempts).

Definition alloc (a : subnetAllocator) (prefix : Z) : subnetAllocator * option IPNet :=
  match validPrefix a prefix with
  | None => (a, None)
  | Some parentPrefix =>
      if prefix <? parentPrefix then (a, None)
      else
        let blockers := sortedBlockers a in
        match default None (alloc_loop (alloc_fuel blockers) (sa_bits a) prefix (sa_parentEnd a) (sa_filter a) blockers (sa_parentStart a) 0) with
        | None => (a, None)
        | Some network => (reserve a (Some network), Some (CopyIPNet network))
        end
  end.

Definition AllocSubnet4 (a : subnetAllocator) (prefix : Z) : subnetAllocator * option IPNet :=
  if negb (sa_bits a =? 32) then (a, None) else alloc a prefix.

Definition AllocSubnet6 (a : subnetAllocator) (prefix : Z) : subnetAllocator * option IPNet :=
  if negb (sa_bits a =? 128) then (a, None) else alloc a prefix.
