(* ===== verification/SubnetSpec.v ===== *)
(** * What a subnet allocator promises

    The contract of [SubnetAllocator] of src/subnet/alloc.go as an abstract
    machine over reference counts: [ReserveSubnet] adds one to the count of a
    subnet, [FreeSubnet] takes one away, [FreeAllSubnets] forgets all, and an
    allocation returns a subnet of the parent that overlaps no counted subnet,
    with count one.  Clients are proved against the class
    [SubnetAllocatorContract]; [subnetAllocator] is an instance. *)

From stdpp Require Import gmap sorting.
From S2P Require Import Prelude NetIP IPNet Subnet SubnetAlloc.

(** ** The search

    The pass over the sorted blockers, and the first-fit loop of
    [subnetAllocator.alloc] of src/subnet/alloc.go: it ends within its fuel, and
    it returns the first candidate that no blocker overlaps and the filter
    accepts. *)

Lemma subnetSize_pos bits prefix : prefix <= bits -> 0 < subnetSize bits prefix.
Proof. intros H. unfold subnetSize. apply Z.pow_pos_nonneg; lia. Qed.

(** ** Rounding up *)

Section Aligned.
Context (size : Z) (Hsize : 0 < size).

Lemma alignUp_spec v : v <= alignUp v size < v + size /\ alignUp v size mod size = 0.
Proof.
  unfold alignUp. pose proof (Z.mod_pos_bound v size Hsize) as Hb. destruct (Z.eqb_spec (v mod size) 0) as [He|Hn]; [lia|].
  split; [lia|]. pose proof (Z.div_mod v size ltac:(lia)) as Hd.
  replace (v + (size - v mod size)) with ((v / size + 1) * size) by lia. apply Z.mod_mul. lia.
Qed.

Lemma aligned_gap x y : x mod size = 0 -> y mod size = 0 -> x < y -> x + size <= y.
Proof.
  intros Hx Hy Hlt. apply Z.mod_divide in Hx as [p ->]; [|lia]. apply Z.mod_divide in Hy as [q ->]; [|lia].
  assert (p < q) by (apply (Z.mul_lt_mono_pos_r size); lia). nia.
Qed.

Lemma alignUp_least v x : x mod size = 0 -> v <= x -> alignUp v size <= x.
Proof.
  intros Hx Hv. destruct (alignUp_spec v) as [Hr Ha]. destruct (Z.le_gt_cases (alignUp v size) x) as [|Hgt]; [done|].
  pose proof (aligned_gap x _ Hx Ha ltac:(lia)). lia.
Qed.

Lemma aligned_next x : x mod size = 0 -> (x + size) mod size = 0.
Proof. intros Hx. rewrite Z.add_mod, Hx, Z.mod_same by lia. done. Qed.
End Aligned.

(** ** Blockers *)

Definition overlaps (b : reservedSubnet) (first last : Z) : Prop := rs_start b <= last /\ first <= rs_end b.

Definition covered (bs : list reservedSubnet) (size s : Z) : Prop := exists b, b ∈ bs /\ overlaps b s (subnetEnd s size).

#[global] Instance blocker_le_total : Total blocker_le.
Proof. intros x y. unfold blocker_le. lia. Qed.

#[global] Instance blocker_le_trans : Transitive blocker_le.
Proof. intros x y z. unfold blocker_le. lia. Qed.

Lemma find_blocker_some bs first last b : find_blocker bs first last = Some b -> b ∈ bs /\ overlaps b first last.
Proof.
  induction bs as [|c bs IH]; [done|]. cbn [find_blocker]. destruct (Z.ltb_spec (rs_end c) first).
  { intros [Hin Ho]%IH. split; [by right|done]. }
  destruct (Z.ltb_spec last (rs_start c)); [done|]. intros [= <-]. split; [left|unfold overlaps; lia].
Qed.

Lemma find_blocker_none bs first last : StronglySorted blocker_le bs -> find_blocker bs first last = None ->
  forall b, b ∈ bs -> ~ overlaps b first last.
Proof.
  induction 1 as [|c bs Hs IH Hall]; [intros _ b Hb; by apply not_elem_of_nil in Hb|]. cbn [find_blocker].
  destruct (Z.ltb_spec (rs_end c) first) as [Hlt|Hge].
  { intros Hn b [-> | Hb]%elem_of_cons; [unfold overlaps; lia|by apply IH]. }
  destruct (Z.ltb_spec last (rs_start c)) as [Hlt|]; [|done]. intros _ b [-> | Hb]%elem_of_cons; [unfold overlaps; lia|].
  rewrite Forall_forall in Hall. specialize (Hall b Hb). unfold overlaps, blocker_le in *. lia.
Qed.

Lemma nextStart_spec b cs size : 0 < size -> cs <= rs_end b -> cs mod size = 0 ->
  rs_end b < nextStart b cs size /\ nextStart b cs size mod size = 0 /\
  (forall s, s mod size = 0 -> s < nextStart b cs size -> s <= rs_end b).
Proof.
  intros Hsize Hcs Ha. destruct (alignUp_spec size Hsize (rs_end b + 1)) as [Hr Hal]. unfold nextStart.
  rewrite (proj2 (Z.leb_gt _ _)) by lia. split_and!; [lia|done|]. intros s Hs Hlt.
  destruct (Z.le_gt_cases s (rs_end b)) as [|Hgt]; [done|]. pose proof (alignUp_least size Hsize (rs_end b + 1) s Hs). lia.
Qed.

(** Skipping past a blocker skips only candidates that it overlaps. *)
Lemma skip_covered bs cs size b : 0 < size -> cs mod size = 0 -> find_blocker bs cs (subnetEnd cs size) = Some b ->
  forall s, s mod size = 0 -> cs <= s < nextStart b cs size -> covered bs size s.
Proof.
  intros Hsize Ha Hf s Hs Hr. apply find_blocker_some in Hf as [Hin [H1 H2]]. exists b. split; [done|].
  destruct (nextStart_spec b cs size Hsize H2 Ha) as (_ & _ & Hle). unfold overlaps, subnetEnd in *.
  specialize (Hle s Hs ltac:(lia)). lia.
Qed.

(** The number of elements that a candidate has not passed. *)
Definition ahead {A : Type} (upto : A -> Z) (l : list A) (v : Z) : nat := length (List.filter (fun x => v <=? upto x) l).

Section Ahead.
Context {A : Type} (upto : A -> Z).

Lemma ahead_le l v v' : v <= v' -> (ahead upto l v' <= ahead upto l v)%nat.
Proof.
  intros Hle. unfold ahead. induction l as [|x l IH]; [done|]. cbn [List.filter].
  destruct (Z.leb_spec v' (upto x)), (Z.leb_spec v (upto x)); cbn [length]; lia.
Qed.

Lemma ahead_lt l v v' x : x ∈ l -> v <= upto x < v' -> (ahead upto l v' < ahead upto l v)%nat.
Proof.
  intros Hx Hr. unfold ahead. induction Hx as [x l|x y l Hin IH]; cbn [List.filter].
  - rewrite (proj2 (Z.leb_gt v' _)), (proj2 (Z.leb_le v _)) by lia. cbn [length].
    pose proof (ahead_le l v v' ltac:(lia)). unfold ahead in *. lia.
  - specialize (IH Hr). destruct (Z.leb_spec v' (upto y)), (Z.leb_spec v (upto y)); cbn [length]; lia.
Qed.

Lemma ahead_length l v : (ahead upto l v <= length l)%nat.
Proof. unfold ahead. induction l as [|x l IH]; [done|]. cbn [List.filter]. destruct (v <=? upto x); cbn [length]; lia. Qed.
End Ahead.

(** ** The first-fit loop *)

Definition rejected (filter : option (IPNet -> bool)) (n : IPNet) : Prop :=
  exists accept, filter = Some accept /\ accept n = false.

Section Loop.
Context (bits prefix parentEnd : Z) (filter : option (IPNet -> bool)) (bs : list reservedSubnet).
Context (Hprefix : prefix <= bits) (Hsorted : StronglySorted blocker_le bs).

Let size : Z := subnetSize bits prefix.

(** A candidate from [lo] on. *)
Definition candidate_from (lo s : Z) : Prop := lo <= s /\ s mod size = 0 /\ subnetEnd s size <= parentEnd.

Definition unavailable (s : Z) : Prop := covered bs size s \/ rejected filter (candidate_net bits prefix s).

Definition free_rejected (s : Z) : Prop := ~ covered bs size s /\ rejected filter (candidate_net bits prefix s).

(** What the search from [lo] returns after [attempts] rejections. *)
Definition fit_result (lo attempts : Z) (r : option IPNet) : Prop :=
  match r with
  | Some n => exists s, n = candidate_net bits prefix s /\ candidate_from lo s /\ ~ unavailable s /\
                (forall s', candidate_from lo s' -> s' < s -> unavailable s')
  | None => (forall s, candidate_from lo s -> unavailable s) \/
            exists l, NoDup l /\ zlen l = maxFilteredAllocationAttempts - attempts /\
                      Forall (fun s => candidate_from lo s /\ free_rejected s) l
  end.

Let Hsize : 0 < size := subnetSize_pos bits prefix Hprefix.

(** The search may start behind unavailable candidates. *)
Lemma fit_skip lo lo' attempts r : lo <= lo' ->
  (forall s, candidate_from lo s -> s < lo' -> unavailable s) -> fit_result lo' attempts r -> fit_result lo attempts r.
Proof.
  intros Hle Hun. assert (Hup : forall s, candidate_from lo' s -> candidate_from lo s) by (intros s (? & ? & ?); repeat split; try done; lia).
  assert (Hcase : forall s, candidate_from lo s -> unavailable s \/ candidate_from lo' s).
  { intros s Hs. destruct (Z.le_gt_cases lo' s); [right|left; apply Hun; [done|lia]]. split_and!; [done|apply Hs..]. }
  destruct r as [n|]; cbn [fit_result].
  - intros (s & Hn & Hc & Hf & Hl). exists s. split_and!; auto. intros s' Hs' Hlt.
    destruct (Hcase s' Hs') as [|Hc']; [done|]. by apply Hl.
  - intros [Hall|(l & Hnd & Hlen & Hl)]; [left|right].
    + intros s Hs. destruct (Hcase s Hs) as [|Hc']; [done|]. by apply Hall.
    + exists l. split_and!; [done|done|]. eapply Forall_impl; [exact Hl|]. intros s [? ?]. auto.
Qed.

(** One rejected candidate. *)
Lemma fit_reject lo attempts r : lo mod size = 0 -> subnetEnd lo size <= parentEnd -> free_rejected lo ->
  fit_result (lo + size) (attempts + 1) r -> fit_result lo attempts r.
Proof.
  intros Ha He Hfr Hr. destruct r as [n|].
  - eapply (fit_skip lo (lo + size) attempts); [lia| |exact Hr]. intros s (H1 & H2 & H3) Hlt. right.
    assert (s = lo) as ->; [|apply Hfr]. destruct (Z.eq_dec s lo) as [|Hne]; [done|].
    pose proof (aligned_gap size Hsize lo s Ha H2). lia.
  - assert (Hlo : forall s, candidate_from lo s -> s = lo \/ candidate_from (lo + size) s).
    { intros s (H1 & H2 & H3). destruct (Z.eq_dec s lo) as [|Hne]; [by left|right].
      pose proof (aligned_gap size Hsize lo s Ha H2). split_and!; [lia|done|done]. }
    destruct Hr as [Hall|(l & Hnd & Hlen & Hl)]; [left|right].
    + intros s Hs. destruct (Hlo s Hs) as [-> |Hs']; [right; apply Hfr|by apply Hall].
    + exists (lo :: l). rewrite Forall_forall in Hl. split_and!.
      * apply NoDup_cons. split; [|done]. intros Hin. destruct (Hl lo Hin) as [(H1 & _) _]. lia.
      * rewrite zlen_cons. lia.
      * apply Forall_cons. split; [split; [split_and!; [lia|done|done]|done]|]. apply Forall_forall. intros s Hs.
        destruct (Hl s Hs) as [(? & ? & ?) ?]. split; [split_and!; [lia|done|done]|done].
Qed.

(** The loop ends within its fuel with the first fit. *)
Lemma alloc_loop_spec fuel cs attempts : cs mod size = 0 -> 0 <= attempts < maxFilteredAllocationAttempts ->
  (ahead rs_end bs cs + Z.to_nat (maxFilteredAllocationAttempts - attempts) < fuel)%nat ->
  exists r, alloc_loop fuel bits prefix parentEnd filter bs cs attempts = Some r /\ fit_result cs attempts r.
Proof.
  revert cs attempts. induction fuel as [|fuel IH]; intros cs attempts Ha Hat Hfuel; [lia|]. cbn [alloc_loop]. fold size.
  destruct (Z.ltb_spec parentEnd (subnetEnd cs size)) as [Hend|Hend].
  { exists None. split; [done|]. left. unfold candidate_from, subnetEnd in *. intros s (? & ? & ?). lia. }
  destruct (find_blocker bs cs (subnetEnd cs size)) as [b|] eqn:Eb.
  - destruct (find_blocker_some _ _ _ _ Eb) as [Hin [_ Hov]]. destruct (nextStart_spec b cs size Hsize Hov Ha) as (Hgt & Hal & _).
    destruct (IH (nextStart b cs size) attempts Hal Hat) as (r & Hr & Hfit).
    { pose proof (ahead_lt rs_end bs cs (nextStart b cs size) b Hin ltac:(lia)). lia. }
    exists r. split; [done|]. eapply fit_skip; [|  |exact Hfit]; [lia|]. intros s (H1 & H2 & _) Hlt. left.
    by apply (skip_covered bs cs size b).
  - pose proof (find_blocker_none _ _ _ Hsorted Eb) as Hfree.
    assert (Hnc : ~ covered bs size cs) by (intros (b & Hb & Ho); by apply (Hfree b)).
    change (CopyIPNet ?n) with n. destruct filter as [accept|] eqn:Ef; [destruct (accept (candidate_net bits prefix cs)) eqn:Eacc|].
    2: { cbn [negb]. assert (Hfr : free_rejected cs) by (split; [done|]; by exists accept).
      destruct (Z.leb_spec maxFilteredAllocationAttempts (attempts + 1)) as [Hmax|Hmax].
      - exists None. split; [done|]. right. exists [cs]. split_and!.
        + apply NoDup_cons. split; [apply not_elem_of_nil|apply NoDup_nil_2].
        + change (zlen [cs]) with 1. lia.
        + apply Forall_cons. split; [|by apply Forall_nil]. split; [split_and!; [lia|done|done]|done].
      - destruct (IH (cs + size) (attempts + 1)) as (r & Hr & Hfit); [by apply aligned_next|lia| |].
        { pose proof (ahead_le rs_end bs cs (cs + size) ltac:(lia)). lia. }
        exists r. split; [done|]. by apply fit_reject. }
    all: cbn [negb]; eexists; split; [reflexivity|]; exists cs; split_and!; [done|split_and!; [lia|done|done]| |].
    + intros [|(f & Hf1 & Hf)]; [done|congruence].
    + intros s' (H1 & _) Hlt. lia.
    + intros [|(f & Hf1 & _)]; [done|congruence].
    + intros s' (H1 & _) Hlt. lia.
Qed.

(** [alloc_fuel] turns are enough. *)
Lemma alloc_loop_enough cs : cs mod size = 0 ->
  exists r, alloc_loop (alloc_fuel bs) bits prefix parentEnd filter bs cs 0 = Some r /\ fit_result cs 0 r.
Proof.
  intros Ha. apply alloc_loop_spec; [done|unfold maxFilteredAllocationAttempts; lia|]. unfold alloc_fuel.
  pose proof (ahead_length rs_end bs cs). unfold maxFilteredAllocationAttempts. lia.
Qed.
End Loop.

(** ** The contract *)

(** ** The abstract machine *)

Definition key_bits (k : subnetKey) : Z := k.1.1.
Definition key_first (k : subnetKey) : Z := be_value k.2.
Definition key_last (k : subnetKey) : Z := subnetEnd (key_first k) (subnetSize k.1.1 k.1.2).

(** No address is in both. *)
Definition keys_disjoint (k k' : subnetKey) : Prop :=
  key_bits k <> key_bits k' \/ key_last k < key_first k' \/ key_last k' < key_first k.

Definition key_of (n : option IPNet) : option subnetKey := reserved_key <$> normalizeSubnet n.

Definition net_key (bits prefix : Z) (n : IPNet) : subnetKey := subnetMapKey (in_IP n) bits prefix.

Definition count_add (k : option subnetKey) (c : gmap subnetKey Z) : gmap subnetKey Z :=
  match k with Some k => partial_alter (fun o => Some (default 0 o + 1)) k c | None => c end.

Definition count_sub (k : option subnetKey) (c : gmap subnetKey Z) : gmap subnetKey Z :=
  match k with
  | Some k => partial_alter (fun o => match o with Some n => if 1 <? n then Some (n - 1) else None | None => None end) k c
  | None => c
  end.

Inductive subnet_op : Type :=
| OpReserve (subnet : option IPNet)
| OpFree (subnet : option IPNet)
| OpFreeAll
| OpAlloc (bits prefix : Z).

(** The parents of an allocator: the number windows it allocates from. *)
Inductive spec_step (parents : Z -> option (Z * Z)) (accepts : IPNet -> Prop) :
    gmap subnetKey Z -> subnet_op -> option IPNet -> gmap subnetKey Z -> Prop :=
| SpecReserve c n : spec_step parents accepts c (OpReserve n) None (count_add (key_of n) c)
| SpecFree c n : spec_step parents accepts c (OpFree n) None (count_sub (key_of n) c)
| SpecFreeAll c : spec_step parents accepts c OpFreeAll None ∅
| SpecAlloc c bits prefix n first last :
    parents bits = Some (first, last) ->
    wf_net bits prefix n ->
    first <= key_first (net_key bits prefix n) -> key_last (net_key bits prefix n) <= last ->
    (forall k, k ∈ dom c -> keys_disjoint k (net_key bits prefix n)) ->
    accepts n ->
    spec_step parents accepts c (OpAlloc bits prefix) (Some n) (<[net_key bits prefix n := 1]> c)
| SpecAllocNone c bits prefix : spec_step parents accepts c (OpAlloc bits prefix) None c.

(** The contract: every operation is a step of the abstract machine. *)
Class SubnetAllocatorContract (St : Type) : Type := {
  ct_inv : St -> Prop;
  ct_counts : St -> gmap subnetKey Z;
  ct_parents : St -> Z -> option (Z * Z);
  ct_accepts : St -> IPNet -> Prop;
  ct_run : St -> subnet_op -> St * option IPNet;
  ct_step s op : ct_inv s ->
    let '(s', r) := ct_run s op in
    ct_inv s' /\ ct_parents s' = ct_parents s /\
    spec_step (ct_parents s) (ct_accepts s) (ct_counts s) op r (ct_counts s') }.

(** ** Clients *)

Section Clients.
Context {St : Type} `{SubnetAllocatorContract St}.

(** The subnets a client was given and nobody freed since. *)
Definition live_after (op : subnet_op) (r : option IPNet) (live : list subnetKey) : list subnetKey :=
  match op, r with
  | OpAlloc bits prefix, Some n => net_key bits prefix n :: live
  | OpFree n, _ => base.filter (fun k => Some k <> key_of n) live
  | OpFreeAll, _ => []
  | _, _ => live
  end.

(** The states of an allocator and its live subnets after any operations. *)
Inductive history (s : St) : St -> list subnetKey -> Prop :=
| HistStart : history s s []
| HistOp s1 live op : history s s1 live ->
    history s (ct_run s1 op).1 (live_after op (ct_run s1 op).2 live).

Definition live_ok (c : gmap subnetKey Z) (live : list subnetKey) : Prop :=
  ForallOrdPairs keys_disjoint live /\ Forall (fun k => k ∈ dom c) live.

Lemma keys_disjoint_sym k k' : keys_disjoint k k' -> keys_disjoint k' k.
Proof. unfold keys_disjoint. intuition congruence. Qed.

Lemma dom_count_add k c x : x ∈ dom c -> x ∈ dom (count_add k c).
Proof.
  destruct k as [k|]; [|done]. cbn [count_add]. rewrite !elem_of_dom. intros Hx. destruct (decide (x = k)) as [-> |Hne].
  - rewrite lookup_partial_alter_eq. by eexists.
  - by rewrite lookup_partial_alter_ne.
Qed.

Lemma dom_count_sub k c x : x ∈ dom c -> Some x <> k -> x ∈ dom (count_sub k c).
Proof.
  destruct k as [k|]; [|done]. cbn [count_sub]. rewrite !elem_of_dom. intros Hx Hne.
  rewrite lookup_partial_alter_ne; [done|congruence].
Qed.

Lemma pairs_filter {A} (R : A -> A -> Prop) (P : A -> Prop) `{!forall x, Decision (P x)} l :
  ForallOrdPairs R l -> ForallOrdPairs R (base.filter P l).
Proof.
  induction 1 as [|x l Hx Hl IH]; [constructor|]. rewrite filter_cons. case_decide; [|done]. constructor; [|done].
  apply Forall_forall. intros y Hy%list_elem_of_filter. rewrite Forall_forall in Hx. apply Hx, Hy.
Qed.

Lemma spec_step_live parents accepts c op r c' live :
  spec_step parents accepts c op r c' -> live_ok c live -> live_ok c' (live_after op r live).
Proof.
  intros Hstep [Hp Hin]. rewrite Forall_forall in Hin. destruct Hstep; cbn [live_after]; split; rewrite ?Forall_forall; try done.
  - intros k Hk. apply dom_count_add, Hin, Hk.
  - by apply pairs_filter.
  - intros k [Hne Hk]%list_elem_of_filter. by apply dom_count_sub; [apply Hin|].
  - constructor.
  - intros k Hk. by apply not_elem_of_nil in Hk.
  - constructor; [|done]. apply Forall_forall. intros k Hk. apply keys_disjoint_sym. auto.
  - intros k [-> |Hk]%elem_of_cons; rewrite dom_insert; set_solver.
Qed.

(** Live subnets are disjoint and counted, for every allocator with the contract. *)
Lemma live_disjoint s s' live : ct_inv s -> history s s' live ->
  ct_inv s' /\ ForallOrdPairs keys_disjoint live /\ Forall (fun k => k ∈ dom (ct_counts s')) live.
Proof.
  intros Hs. induction 1 as [|s1 live op Hh IH]; [split_and!; [done|constructor|by apply Forall_nil]|].
  destruct IH as (Hi & Hlive). pose proof (ct_step s1 op Hi) as Hstep.
  destruct (ct_run s1 op) as [s2 r]. cbn [fst snd]. destruct Hstep as (Hi' & _ & Hstep). split; [done|].
  by apply (spec_step_live _ _ _ _ _ _ _ Hstep).
Qed.
End Clients.

(** ** The allocator of alloc.go *)

Definition table_ok (m : gmap subnetKey reservedSubnet) : Prop :=
  map_Forall (fun k r => reserved_ok r /\ k = reserved_key r) m.

Definition counts (m : gmap subnetKey reservedSubnet) : gmap subnetKey Z := rs_count <$> m.

Lemma table_reserve_ok m n : table_ok m -> table_ok (table_reserve m n).
Proof.
  intros Hm. unfold table_reserve. destruct (normalizeSubnet n) as [r|] eqn:En; [|done].
  destruct (normalizeSubnet_ok _ _ En) as [Hr _]. destruct (m !! reserved_key r) as [e|] eqn:Ee; apply map_Forall_insert_2; try done.
  destruct (Hm _ _ Ee) as [He Hk]. split; [|done]. destruct He. split; cbn; [done..|lia].
Qed.

Lemma table_free_ok m n : table_ok m -> table_ok (table_free m n).
Proof.
  intros Hm. unfold table_free. destruct (normalizeSubnet n) as [r|] eqn:En; [|done].
  destruct (m !! reserved_key r) as [e|] eqn:Ee; [|done]. destruct (Z.ltb_spec 1 (rs_count e)); [|by apply map_Forall_delete].
  apply map_Forall_insert_2; [|done]. destruct (Hm _ _ Ee) as [He Hk]. split; [|done]. destruct He. split; cbn; [done..|lia].
Qed.

Lemma counts_reserve m n : counts (table_reserve m n) = count_add (key_of n) (counts m).
Proof.
  unfold table_reserve, key_of, counts. destruct (normalizeSubnet n) as [r|] eqn:En; [|done]. cbn [fmap option_fmap option_map count_add].
  destruct (normalizeSubnet_ok _ _ En) as [_ Hc]. apply map_eq. intros k. rewrite lookup_fmap.
  destruct (decide (k = reserved_key r)) as [-> |Hne].
  - rewrite lookup_partial_alter_eq, lookup_fmap. destruct (m !! reserved_key r) as [e|]; rewrite lookup_insert_eq; cbn; [done|by rewrite Hc].
  - rewrite lookup_partial_alter_ne, lookup_fmap by done. destruct (m !! reserved_key r) as [e|]; by rewrite lookup_insert_ne.
Qed.

Lemma counts_free m n : counts (table_free m n) = count_sub (key_of n) (counts m).
Proof.
  unfold table_free, key_of, counts. destruct (normalizeSubnet n) as [r|] eqn:En; [|done]. cbn [fmap option_fmap option_map count_sub].
  apply map_eq. intros k. destruct (decide (k = reserved_key r)) as [-> |Hne].
  - rewrite lookup_partial_alter_eq, !lookup_fmap. destruct (m !! reserved_key r) as [e|] eqn:Ee; [|by rewrite Ee].
    cbn. destruct (Z.ltb_spec 1 (rs_count e)); [by rewrite lookup_insert_eq|by rewrite lookup_delete_eq].
  - rewrite lookup_partial_alter_ne, !lookup_fmap by done. destruct (m !! reserved_key r) as [e|]; [|done].
    destruct (1 <? rs_count e); [by rewrite lookup_insert_ne|by rewrite lookup_delete_ne].
Qed.

(** The window of the parent. *)
Definition sa_window (a : subnetAllocator) (bits : Z) : option (Z * Z) :=
  match sa_parent a with
  | Some _ => if bits =? sa_bits a then Some (sa_parentStart a, sa_parentEnd a) else None
  | None => None
  end.

Record alloc_ok (a : subnetAllocator) : Prop := {
  ao_parent : match sa_parent a with
              | None => sa_bits a = 0
              | Some p => exists ones, wf_net (sa_bits a) ones p /\ sa_parentStart a = be_value (in_IP p) /\
                            sa_parentEnd a = subnetEnd (sa_parentStart a) (subnetSize (sa_bits a) ones)
              end;
  ao_table : table_ok (sa_reserved a) }.

Lemma New_ok parent filter : alloc_ok (NewSubnetAllocator parent filter).
Proof.
  assert (Hnone : alloc_ok (MkSubnetAllocator None 0 0 0 ∅ filter)) by (split; [done|apply map_Forall_empty]).
  destruct parent as [p|]; [|done]. cbn [NewSubnetAllocator]. destruct (normalizeIPNet p) as [[[ip mask] bits]|] eqn:En; [|done].
  destruct (normalizeIPNet_spec _ _ _ _ En) as (_ & ones & H). destruct (Range_values _ _ _ H) as [H1 H2].
  destruct (Range _) as [f l]. cbn [fst snd] in *. split; cbn; [|apply map_Forall_empty]. exists ones. by rewrite H1, H2.
Qed.

Lemma blockers_sorted a : StronglySorted blocker_le (sortedBlockers a).
Proof. apply StronglySorted_merge_sort; apply _. Qed.

Lemma elem_of_blockers a b : b ∈ sortedBlockers a <->
  (exists k, sa_reserved a !! k = Some b) /\ rs_bits b = sa_bits a /\ overlaps b (sa_parentStart a) (sa_parentEnd a).
Proof.
  unfold sortedBlockers. rewrite merge_sort_Permutation. rewrite list_elem_of_In, filter_In, in_map_iff. unfold in_window, overlaps.
  rewrite andb_true_iff, negb_true_iff, orb_false_iff, Z.eqb_eq, !Z.ltb_ge.
  assert (Hex : (exists x : subnetKey * reservedSubnet, x.2 = b /\ In x (map_to_list (sa_reserved a))) <-> exists k, sa_reserved a !! k = Some b); [|rewrite Hex; intuition lia].
  split.
  - intros ([k r] & <- & Hin). exists k. apply elem_of_map_to_list. by apply list_elem_of_In.
  - intros (k & Hk). exists (k, b). split; [done|]. apply list_elem_of_In. by apply elem_of_map_to_list.
Qed.

Lemma wf_candidate bits prefix s : is_family bits -> 0 <= prefix <= bits -> 0 <= s -> s mod subnetSize bits prefix = 0 ->
  subnetEnd s (subnetSize bits prefix) < 2 ^ bits ->
  wf_net bits prefix (candidate_net bits prefix s) /\ be_value (in_IP (candidate_net bits prefix s)) = s.
Proof.
  intros Hf Hp Hs Ha He. pose proof (subnetSize_pos bits prefix ltac:(lia)) as Hz. unfold subnetEnd in He.
  assert (Hv : be_value (in_IP (candidate_net bits prefix s)) = s).
  { cbn [candidate_net in_IP]. rewrite intToIP_spec by (done || lia). apply value_be_bytes; [done|lia]. }
  split; [|done]. split; [done|done|done| |by rewrite Hv].
  cbn [candidate_net in_IP]. rewrite intToIP_spec by (done || lia). apply be_bytes_spec. rewrite <- family_pow by done. lia.
Qed.

Section Parent.
Context (a : subnetAllocator) (Hok : alloc_ok a) (p : IPNet) (ones prefix : Z).
Context (Hparent : sa_parent a = Some p) (Hones : Mask_Size (in_Mask p) = (ones, sa_bits a)) (Hprefix : ones <= prefix <= sa_bits a).

Lemma parent_window : is_family (sa_bits a) /\ 0 <= ones /\ 0 <= sa_parentStart a /\ sa_parentEnd a < 2 ^ sa_bits a /\
  sa_parentStart a mod subnetSize (sa_bits a) prefix = 0.
Proof.
  pose proof (ao_parent a Hok) as Hp. rewrite Hparent in Hp. destruct Hp as (o & Hwf & Hs & He).
  rewrite (wf_bits _ _ _ Hwf) in Hones. injection Hones as ->. pose proof (wf_value _ _ _ Hwf) as Hv.
  pose proof (wn_ones _ _ _ Hwf) as Ho. pose proof (wn_aligned _ _ _ Hwf) as Ha. rewrite <- Hs in *.
  pose proof (aligned_fits _ (sa_bits a - ones) (sa_bits a) ltac:(lia) Hv Ha) as Hfit.
  unfold subnetEnd, subnetSize in *. split_and!; [apply Hwf|lia|lia|lia|].
  replace (sa_bits a - ones) with ((prefix - ones) + (sa_bits a - prefix)) in Ha by lia. rewrite Z.pow_add_r in Ha by lia.
  pose proof (Z.pow_pos_nonneg 2 (sa_bits a - prefix) ltac:(lia) ltac:(lia)).
  pose proof (Z.pow_pos_nonneg 2 (prefix - ones) ltac:(lia) ltac:(lia)).
  apply Z.mod_divide in Ha as [q Hq]; [|lia]. apply Z.mod_divide; [lia|]. exists (q * 2 ^ (prefix - ones)). lia.
Qed.

(** The subnets of the parent with a prefix length, by their first number. *)
Definition sa_candidate (s : Z) : Prop :=
  sa_parentStart a <= s /\ s mod subnetSize (sa_bits a) prefix = 0 /\
  subnetEnd s (subnetSize (sa_bits a) prefix) <= sa_parentEnd a.

(** A reservation of the family overlaps the candidate. *)
Definition sa_taken (s : Z) : Prop :=
  exists k r, sa_reserved a !! k = Some r /\ rs_bits r = sa_bits a /\ overlaps r s (subnetEnd s (subnetSize (sa_bits a) prefix)).

Definition sa_rejected (s : Z) : Prop := rejected (sa_filter a) (candidate_net (sa_bits a) prefix s).

Lemma covered_taken s : sa_candidate s -> covered (sortedBlockers a) (subnetSize (sa_bits a) prefix) s <-> sa_taken s.
Proof.
  intros (H1 & H2 & H3). unfold covered, sa_taken. pose proof (subnetSize_pos (sa_bits a) prefix ltac:(lia)) as Hz. split.
  - intros (b & Hb & Ho). apply elem_of_blockers in Hb as ((k & Hk) & Hbits & _). eauto.
  - intros (k & r & Hk & Hbits & Ho). exists r. split; [|done]. apply elem_of_blockers. split_and!; [eauto|done|].
    unfold overlaps, subnetEnd in *. lia.
Qed.

(** The outcome of the search in terms of the table. *)
Definition first_fit (r : option IPNet) : Prop :=
  match r with
  | Some n => exists s, n = candidate_net (sa_bits a) prefix s /\ sa_candidate s /\ ~ sa_taken s /\ ~ sa_rejected s /\
                (forall s', sa_candidate s' -> s' < s -> sa_taken s' \/ sa_rejected s')
  | None => (forall s, sa_candidate s -> sa_taken s \/ sa_rejected s) \/
            exists l, NoDup l /\ zlen l = maxFilteredAllocationAttempts /\
                      Forall (fun s => sa_candidate s /\ ~ sa_taken s /\ sa_rejected s) l
  end.

Lemma fit_first_fit r :
  fit_result (sa_bits a) prefix (sa_parentEnd a) (sa_filter a) (sortedBlockers a) (sa_parentStart a) 0 r -> first_fit r.
Proof.
  assert (Hun : forall s, sa_candidate s -> unavailable (sa_bits a) prefix (sa_filter a) (sortedBlockers a) s <-> sa_taken s \/ sa_rejected s).
  { intros s Hs. unfold unavailable. by rewrite covered_taken. }
  destruct r as [n|]; cbn [fit_result first_fit].
  - intros (s & Hn & Hc & Hf & Hl). exists s. split; [done|]. split; [done|]. rewrite Hun in Hf by done. split_and!; [tauto|tauto|].
    intros s' Hs' Hlt. apply Hun; [done|]. by apply Hl.
  - intros [Hall|(l & Hnd & Hlen & Hl)]; [left|right].
    + intros s Hs. apply Hun; [done|]. by apply Hall.
    + exists l. split_and!; [done|rewrite Hlen; lia|]. eapply Forall_impl; [exact Hl|]. intros s [Hc [Hf Hr]]. split_and!; [done| |done].
      rewrite <- covered_taken by done. done.
Qed.

Lemma alloc_unfold : exists r, alloc a prefix = (match r with Some n => reserve a (Some n) | None => a end, r) /\ first_fit r.
Proof.
  destruct parent_window as (_ & H0 & _ & _ & Ha).
  destruct (alloc_loop_enough (sa_bits a) prefix (sa_parentEnd a) (sa_filter a) (sortedBlockers a) ltac:(lia) (blockers_sorted a) _ Ha)
    as (r & Hr & Hfit). exists r. split; [|by apply fit_first_fit]. unfold alloc, validPrefix. rewrite Hparent, Hones.
  rewrite (proj2 (Z.ltb_ge prefix 0)), (proj2 (Z.ltb_ge (sa_bits a) prefix)) by lia. cbn [orb]. rewrite Z.eqb_refl.
  rewrite (proj2 (Z.ltb_ge prefix ones)) by lia. rewrite Hr. cbn. destruct r as [[ip mask]|]; done.
Qed.

Lemma candidate_wf s : sa_candidate s -> wf_net (sa_bits a) prefix (candidate_net (sa_bits a) prefix s) /\
  be_value (in_IP (candidate_net (sa_bits a) prefix s)) = s.
Proof.
  destruct parent_window as (Hf & H0 & Hs0 & He & _). intros (H1 & H2 & H3). apply wf_candidate; [done|lia|lia|done|lia].
Qed.
End Parent.

Lemma key_of_wf bits prefix n : wf_net bits prefix n -> key_of (Some n) = Some (net_key bits prefix n).
Proof. intros H. unfold key_of. by rewrite (normalizeSubnet_wf _ _ _ H). Qed.

Lemma reserved_key_range r : reserved_ok r -> key_bits (reserved_key r) = rs_bits r /\
  key_first (reserved_key r) = rs_start r /\ key_last (reserved_key r) = rs_end r.
Proof. intros Hr. rewrite (ro_end r Hr), (ro_start r Hr). done. Qed.

Lemma count_add_new k c : k ∉ dom c -> count_add (Some k) c = <[k := 1]> c.
Proof.
  intros Hk. apply not_elem_of_dom in Hk. cbn [count_add]. apply map_eq. intros x. destruct (decide (x = k)) as [-> |Hne].
  - by rewrite lookup_partial_alter_eq, lookup_insert_eq, Hk.
  - by rewrite lookup_partial_alter_ne, lookup_insert_ne.
Qed.

Lemma keys_disjoint_irrefl bits prefix n : wf_net bits prefix n -> ~ keys_disjoint (net_key bits prefix n) (net_key bits prefix n).
Proof.
  intros H. pose proof (wn_ones _ _ _ H). pose proof (subnetSize_pos bits prefix ltac:(lia)). unfold keys_disjoint, key_last, subnetEnd.
  cbn. intuition lia.
Qed.

Definition sa_accepts (a : subnetAllocator) (n : IPNet) : Prop := ~ rejected (sa_filter a) n.

Definition run_alloc (a : subnetAllocator) (bits prefix : Z) : subnetAllocator * option IPNet :=
  if bits =? 32 then AllocSubnet4 a prefix else if bits =? 128 then AllocSubnet6 a prefix else (a, None).

Definition sa_run (a : subnetAllocator) (op : subnet_op) : subnetAllocator * option IPNet :=
  match op with
  | OpReserve n => (ReserveSubnet a n, None)
  | OpFree n => (FreeSubnet a n, None)
  | OpFreeAll => (FreeAllSubnets a, None)
  | OpAlloc bits prefix => run_alloc a bits prefix
  end.

Lemma alloc_cases a prefix : alloc_ok a -> alloc a prefix = (a, None) \/
  exists p ones, sa_parent a = Some p /\ Mask_Size (in_Mask p) = (ones, sa_bits a) /\ ones <= prefix <= sa_bits a.
Proof.
  intros Hok. unfold alloc, validPrefix. destruct (sa_parent a) as [p|] eqn:Ep; [|by left].
  destruct (Z.ltb_spec prefix 0), (Z.ltb_spec (sa_bits a) prefix); cbn [orb]; try by left.
  destruct (Mask_Size (in_Mask p)) as [ones bits] eqn:Es. destruct (Z.eqb_spec bits (sa_bits a)) as [-> |]; [|by left].
  destruct (Z.ltb_spec prefix ones); [by left|]. right. exists p, ones. split_and!; done || lia.
Qed.

Lemma alloc_step a prefix : alloc_ok a ->
  let '(a', r) := alloc a prefix in
  alloc_ok a' /\ sa_window a' = sa_window a /\
  spec_step (sa_window a) (sa_accepts a) (counts (sa_reserved a)) (OpAlloc (sa_bits a) prefix) r (counts (sa_reserved a')).
Proof.
  intros Hok. destruct (alloc_cases a prefix Hok) as [-> |(p & ones & Hp & Hones & Hpre)]; [split_and!; [done|done|constructor]|].
  destruct (alloc_unfold a Hok p ones prefix Hp Hones Hpre) as (r & -> & Hfit).
  destruct r as [n|]; [|split_and!; [done|done|constructor]]. destruct Hfit as (s & -> & Hc & Hfree & Hacc & _).
  destruct (candidate_wf a Hok p ones prefix Hp Hones Hpre s Hc) as [Hwf Hv]. set (n := candidate_net (sa_bits a) prefix s) in *.
  assert (Hdis : forall k, k ∈ dom (counts (sa_reserved a)) -> keys_disjoint k (net_key (sa_bits a) prefix n)).
  { intros k Hk. unfold counts in Hk. rewrite dom_fmap in Hk. apply elem_of_dom in Hk as [r Hr].
    destruct (ao_table a Hok _ _ Hr) as [Hro ->]. destruct (reserved_key_range r Hro) as (Hb & Hf & Hl).
    unfold keys_disjoint. rewrite Hb, Hf, Hl. destruct (decide (rs_bits r = sa_bits a)) as [Heq|]; [right|by left].
    assert (Hno : ~ overlaps r s (subnetEnd s (subnetSize (sa_bits a) prefix))) by (intros Ho; apply Hfree; unfold sa_taken; eauto).
    unfold key_last, key_first, net_key, subnetMapKey. cbn [fst snd]. rewrite Hv. unfold overlaps in Hno. lia. }
  split_and!.
  - split; [apply Hok|]. cbn. apply table_reserve_ok, Hok.
  - done.
  - cbn [reserve sa_with_reserved sa_reserved]. rewrite counts_reserve, (key_of_wf _ _ _ Hwf), count_add_new.
    + eapply SpecAlloc; [unfold sa_window; rewrite Hp, Z.eqb_refl; reflexivity|done| | |done|done].
      * unfold key_first, net_key, subnetMapKey. cbn [snd]. rewrite Hv. apply Hc.
      * unfold key_last, key_first, net_key, subnetMapKey. cbn [fst snd]. rewrite Hv. apply Hc.
    + intros Hin. by apply (keys_disjoint_irrefl _ _ _ Hwf), Hdis.
Qed.

Lemma sa_run_step a op : alloc_ok a ->
  let '(a', r) := sa_run a op in
  alloc_ok a' /\ sa_window a' = sa_window a /\
  spec_step (sa_window a) (sa_accepts a) (counts (sa_reserved a)) op r (counts (sa_reserved a')).
Proof.
  intros Hok. destruct op as [n|n| |bits prefix]; cbn [sa_run].
  - split_and!; [split; [apply Hok|apply table_reserve_ok, Hok]|done|]. cbn. rewrite counts_reserve. constructor.
  - split_and!; [split; [apply Hok|apply table_free_ok, Hok]|done|]. cbn. rewrite counts_free. constructor.
  - split_and!; [split; [apply Hok|apply map_Forall_empty]|done|]. cbn. unfold counts. rewrite fmap_empty. constructor.
  - unfold run_alloc, AllocSubnet4, AllocSubnet6. destruct (Z.eqb_spec bits 32) as [-> |].
    + destruct (Z.eqb_spec (sa_bits a) 32) as [Hb|]; cbn [negb]; [rewrite <- Hb; by apply alloc_step|split_and!; [done|done|constructor]].
    + destruct (Z.eqb_spec bits 128) as [-> |]; [|split_and!; [done|done|constructor]].
      destruct (Z.eqb_spec (sa_bits a) 128) as [Hb|]; cbn [negb]; [rewrite <- Hb; by apply alloc_step|split_and!; [done|done|constructor]].
Qed.

#[global] Instance subnetAllocator_contract : SubnetAllocatorContract subnetAllocator := {|
  ct_inv := alloc_ok;
  ct_counts := fun a => counts (sa_reserved a);
  ct_parents := sa_window;
  ct_accepts := sa_accepts;
  ct_run := sa_run;
  ct_step := sa_run_step |}.

(** ** Theorems *)

(** The subnets that a [subnetAllocator] has given out and nobody has freed since
    never share an address, whatever sequence of ReserveSubnet, AllocSubnet4,
    AllocSubnet6, FreeSubnet and FreeAllSubnets calls led there and whatever the
    filter rejects; and each of them is still in the table of reservations, so
    no later allocation can overlap it. *)
Theorem live_subnets_disjoint parent filter a live : history (NewSubnetAllocator parent filter) a live ->
  ForallOrdPairs keys_disjoint live /\ Forall (fun k => is_Some (sa_reserved a !! k)) live.
Proof.
  intros Hh. assert (Hi : ct_inv (NewSubnetAllocator parent filter)) by apply New_ok. destruct (live_disjoint _ _ _ Hi Hh) as (_ & Hd & Hin). split; [done|].
  eapply Forall_impl; [exact Hin|]. cbn. unfold counts. intros k Hk. rewrite dom_fmap in Hk. by apply elem_of_dom.
Qed.

Definition net_10_0_0_0 (prefix : Z) : IPNet := MkIPNet (map byte_of_Z [10; 0; 0; 0]) (CIDRMask prefix 32).

Lemma live_subnets_disjoint_witness :
  let a0 := NewSubnetAllocator (Some (net_10_0_0_0 29)) None in
  let a1 := ReserveSubnet a0 (Some (net_10_0_0_0 31)) in
  let '(a2, n2) := AllocSubnet4 a1 30 in
  let '(a3, n3) := AllocSubnet4 a2 31 in
  n2 = Some (candidate_net 32 30 167772164) /\ n3 = Some (candidate_net 32 31 167772162) /\
  ForallOrdPairs keys_disjoint [net_key 32 31 (candidate_net 32 31 167772162); net_key 32 30 (candidate_net 32 30 167772164)].
Proof.
  assert (Hh : history (NewSubnetAllocator (Some (net_10_0_0_0 29)) None)
                 (AllocSubnet4 (AllocSubnet4 (ReserveSubnet (NewSubnetAllocator (Some (net_10_0_0_0 29)) None) (Some (net_10_0_0_0 31))) 30).1 31).1
                 [net_key 32 31 (candidate_net 32 31 167772162); net_key 32 30 (candidate_net 32 30 167772164)]).
  { exact (HistOp _ _ _ (OpAlloc 32 31) (HistOp _ _ _ (OpAlloc 32 30) (HistOp _ _ _ (OpReserve (Some (net_10_0_0_0 31))) (HistStart _)))). }
  pose proof (live_subnets_disjoint _ _ _ _ Hh) as [Hd _]. vm_compute. split; [reflexivity|]. split; [reflexivity|]. exact Hd.
Defined.

(** C24. [alloc] is first fit: a request for a prefix length between the parent's and the
    width of the family returns the lowest aligned subnet of the parent that no
    reservation of the family overlaps and the filter accepts, and reserves it;
    it returns nil, and changes nothing, only when every subnet of the parent is
    reserved or rejected, or after the filter has rejected 1000 free ones.  The
    search always ends. *)
Theorem alloc_first_fit a p ones prefix : alloc_ok a -> sa_parent a = Some p -> Mask_Size (in_Mask p) = (ones, sa_bits a) ->
  ones <= prefix <= sa_bits a ->
  match alloc a prefix with
  | (a', Some n) => a' = reserve a (Some n) /\ first_fit a prefix (Some n)
  | (a', None) => a' = a /\ first_fit a prefix None
  end.
Proof.
  intros Hok Hp Hones Hpre. destruct (alloc_unfold a Hok p ones prefix Hp Hones Hpre) as (r & -> & Hfit). by destruct r.
Qed.

Lemma alloc_first_fit_witness :
  let a := ReserveSubnet (NewSubnetAllocator (Some (net_10_0_0_0 8)) None) (Some (net_10_0_0_0 25)) in
  (alloc a 24).2 = Some (candidate_net 32 24 167772416) /\ first_fit a 24 (alloc a 24).2.
Proof.
  set (a := ReserveSubnet (NewSubnetAllocator (Some (net_10_0_0_0 8)) None) (Some (net_10_0_0_0 25))). cbv zeta. split; [vm_compute; reflexivity|].
  assert (Hok : alloc_ok a) by exact (proj1 (sa_run_step _ (OpReserve (Some (net_10_0_0_0 25))) (New_ok (Some (net_10_0_0_0 8)) None))).
  pose proof (alloc_first_fit a (net_10_0_0_0 8) 8 24 Hok eq_refl eq_refl ltac:(vm_compute; split; discriminate)) as H.
  destruct (alloc a 24) as [a' [n|]]; apply H.
Defined.
