(* ===== verification/IPAlloc.v ===== *)
(** * Address allocator

    Models [ipAllocator] of src/subnet/ip_alloc.go: reference-counted addresses of
    one network, handed out by walking from the last allocation to the end and
    then around, without the first and the last address.  [scan] is the walk that
    the two loops of [alloc] (and those of the pools of
    src/subnet/combined_alloc.go) share.

    A turn of the walk ends it, passes one more reserved address or counts one
    more rejected candidate, so [1 + size reserved + 1000] turns are enough. *)

From stdpp Require Import gmap.
From S2P Require Import Prelude NetIP IPNet Subnet SubnetAlloc.

(** [isBeforeIP]: [bytes.Compare] is negative. *)
Fixpoint isBeforeIP (left right : list byte) : bool :=
  match left, right with
  | [], [] => false
  | [], _ :: _ => true
  | _ :: _, [] => false
  | a :: l, b :: r => (bZ a <? bZ b) || ((bZ a =? bZ b) && isBeforeIP l r)
  end.

(** ** The walk *)

Inductive scan_outcome (X : Type) : Type :=
| ScanFound (x : X)
| ScanStop
| ScanEnd (attempts : Z).

Arguments ScanFound {X} x.
Arguments ScanStop {X}.
Arguments ScanEnd {X} attempts.

(** A loop over the candidates while [go] holds: [try] returns an allocation or
    nothing, and the new number of attempts. *)
Fixpoint scan {X : Type} (go : list byte -> bool) (try : list byte -> Z -> option X * Z) (fuel : nat)
    (candidate : list byte) (attempts : Z) : option (scan_outcome X) :=
  match fuel with
  | O => None
  | S fuel =>
      if go candidate then
        let '(r, attempts) := try candidate attempts in
        match r with
        | Some x => Some (ScanFound x)
        | None => if maxFilteredAllocationAttempts <=? attempts then Some ScanStop
                  else scan go try fuel (Next candidate) attempts
        end
      else Some (ScanEnd attempts)
  end.

(** The two loops of an allocation: from [start] on, then from the first usable
    address up to [start]. *)
Definition scan_around {X : Type} (usable : list byte -> bool) (try : list byte -> Z -> option X * Z) (fuel : nat)
    (start first : list byte) (attempts : Z) : option (scan_outcome X) :=
  match scan usable try fuel start attempts with
  | Some (ScanEnd attempts) => scan (fun c => isBeforeIP c start && usable c) try fuel (Next first) attempts
  | o => o
  end.

(** ** The allocator *)

Record ipAllocator : Type := MkIPAllocator {
  ia_network : option IPNet;
  ia_bits : Z;
  ia_first : list byte;
  ia_last : list byte;
  ia_next : list byte;
  ia_reserved : gmap (list byte) Z;
  ia_filter : option (list byte -> bool) }.

Definition ia_with (a : ipAllocator) (next : list byte) (m : gmap (list byte) Z) : ipAllocator :=
  MkIPAllocator (ia_network a) (ia_bits a) (ia_first a) (ia_last a) next m (ia_filter a).

Definition NewIPAllocator (network : option IPNet) (filter : option (list byte -> bool)) : ipAllocator :=
  match network with
  | None => MkIPAllocator None 0 [] [] [] ∅ filter
  | Some network =>
      match normalizeIPNet network with
      | None => MkIPAllocator None 0 [] [] [] ∅ filter
      | Some (ip, mask, bits) =>
          let '(first, last) := Range (MkIPNet ip mask) in
          let first := default [] (normalizeIPForBits first bits) in
          MkIPAllocator (Some (MkIPNet ip mask)) bits first (default [] (normalizeIPForBits last bits)) (Next first) ∅ filter
      end
  end.

Definition isUsable (a : ipAllocator) (ip : list byte) : bool :=
  match ia_network a with
  | None => false
  | Some network => IPNet_Contains network ip && isBeforeIP (ia_first a) ip && isBeforeIP ip (ia_last a)
  end.

Definition normalizeUsableIP (a : ipAllocator) (ip : list byte) : option (list byte) :=
  match normalizeIPForBits ip (ia_bits a) with
  | None => None
  | Some normalized => if negb (isUsable a normalized) then None else Some normalized
  end.

(** [reserve], called by [ReserveIP]. *)
Definition ReserveIP (a : ipAllocator) (ip : list byte) : ipAllocator :=
  match normalizeUsableIP a ip with
  | None => a
  | Some n => ia_with a (ia_next a) (<[n := default 0 (ia_reserved a !! n) + 1]> (ia_reserved a))
  end.

Definition FreeIP (a : ipAllocator) (ip : list byte) : ipAllocator :=
  match normalizeUsableIP a ip with
  | None => a
  | Some n =>
      let count := default 0 (ia_reserved a !! n) in
      if 1 <? count then ia_with a (ia_next a) (<[n := count - 1]> (ia_reserved a))
      else if count =? 1 then ia_with a (ia_next a) (delete n (ia_reserved a))
      else a
  end.

Definition FreeAllIP (a : ipAllocator) : ipAllocator :=
  ia_with a (match ia_network a with Some _ => Next (ia_first a) | None => ia_next a end) ∅.

Definition tryAlloc (a : ipAllocator) (candidate : list byte) (attempts : Z) : option (ipAllocator * list byte) * Z :=
  if negb (default 0 (ia_reserved a !! candidate) =? 0) then (None, attempts)
  else
    let '(attempts, ok) := match ia_filter a with Some accept => (attempts + 1, accept candidate) | None => (attempts, true) end in
    if ok then (Some (ia_with a (Next candidate) (<[candidate := 1]> (ia_reserved a)), candidate), attempts)
    else (None, attempts).

Definition ip_fuel (a : ipAllocator) : nat := S (size (ia_reserved a) + Z.to_nat maxFilteredAllocationAttempts).

(** [alloc]: the address and a copy of the network. *)
Definition alloc_ip (a : ipAllocator) : ipAllocator * option (list byte * IPNet) :=
  match ia_network a with
  | None => (a, None)
  | Some network =>
      if negb (isBeforeIP (ia_first a) (ia_last a)) then (a, None)
      else
        let start := if isUsable a (ia_next a) then ia_next a else Next (ia_first a) in
        match scan_around (isUsable a) (tryAlloc a) (ip_fuel a) start (ia_first a) 0 with
        | Some (ScanFound (a', ip)) => (a', Some (ip, CopyIPNet network))
        | _ => (a, None)
        end
  end.

Definition AllocIP4 (a : ipAllocator) : ipAllocator * option (list byte * IPNet) :=
  if negb (ia_bits a =? 32) then (a, None) else alloc_ip a.

Definition AllocIP6 (a : ipAllocator) : ipAllocator * option (list byte * IPNet) :=
  if negb (ia_bits a =? 128) then (a, None) else alloc_ip a.
