(* ===== verification/IPSpec.v ===== *)
(** * What the address allocator promises

    [alloc_ip] of src/subnet/ip_alloc.go returns a usable address that was not
    reserved and that the filter accepts, and gives up only when there is none or
    after 1000 rejections; the addresses that are given out and not freed differ.
    An allocator over a mapped IPv4 network never allocates. *)

From stdpp Require Import gmap.
From S2P Require Import Prelude NetIP IPNet Subnet SubnetAlloc SubnetSpec IPAlloc.

(** ** The walk

    The numbers behind [bytes.Compare], [Next] and [IPNet.Contains], and what the
    walk [scan] over candidate addresses returns. *)

(** ** Values *)

Lemma isBeforeIP_value l r : length l = length r -> isBeforeIP l r = (be_value l <? be_value r).
Proof.
  revert r. induction l as [|a l IH]; intros [|b r] Hlen; try done. cbn [isBeforeIP]. cbn [length] in Hlen.
  rewrite IH by lia. rewrite !be_value_cons. pose proof (be_value_range l) as Hl. pose proof (be_value_range r) as Hr.
  unfold zlen in *. replace (length r) with (length l) in * by lia. set (p := 256 ^ Z.of_nat (length l)) in *.
  apply eq_true_iff_eq. rewrite orb_true_iff, andb_true_iff, !Z.ltb_lt, Z.eqb_eq.
  destruct (Z.lt_trichotomy (bZ a) (bZ b)) as [Hlt|[Heq|Hgt]]; [nia|rewrite Heq; lia|].
  split; [lia|]. intros Hv. exfalso. assert ((bZ b + 1) * p <= bZ a * p) by (apply Z.mul_le_mono_nonneg_r; lia). lia.
Qed.

Lemma isBeforeIP_irrefl l : isBeforeIP l l = false.
Proof. rewrite isBeforeIP_value by done. apply Z.ltb_irrefl. Qed.

Lemma inc_rev_value l : be_value (rev (inc_rev l)) = (be_value (rev l) + 1) mod 256 ^ zlen l /\ length (inc_rev l) = length l.
Proof.
  induction l as [|b l [IH IHl]]; [done|]. cbn [inc_rev]. pose proof (bZ_range b) as Hb. pose proof (be_value_range (rev l)) as Hr.
  unfold zlen in *. rewrite length_rev in Hr. cbn [length]. rewrite Nat2Z.inj_succ, Z.pow_succ_r by lia.
  set (p := 256 ^ Z.of_nat (length l)) in *. rewrite bZ_byte_of_Z by (apply Z.mod_pos_bound; lia).
  destruct (Z.eqb_spec ((bZ b + 1) mod 256) 0) as [He|Hne].
  - cbn [rev length]. rewrite !be_value_app, IH, IHl, bZ_byte_of_Z by (rewrite ?He; lia). split; [|done].
    assert (Hb5 : bZ b = 255). { destruct (Z.eq_dec (bZ b) 255) as [|Hx]; [done|]. rewrite Z.mod_small in He by lia. lia. }
    replace (be_value (rev l) * 256 + bZ b + 1) with (256 * (be_value (rev l) + 1)) by lia.
    rewrite He, Z.mul_mod_distr_l by lia. lia.
  - cbn [rev length]. rewrite !be_value_app, bZ_byte_of_Z by (apply Z.mod_pos_bound; lia). split; [|done].
    assert (Hlt : bZ b + 1 < 256). { destruct (Z.eq_dec (bZ b) 255) as [Hx|]; [rewrite Hx in Hne; done|lia]. }
    rewrite !Z.mod_small by lia. lia.
Qed.

(** An address in the form of its family: four bytes, or sixteen that are not a mapped IPv4 address. *)
Definition plain (bits : Z) (ip : list byte) : Prop := length ip = family_bytes bits /\ (bits = 128 -> To4 ip = None).

Lemma Next_value bits ip : is_family bits -> plain bits ip ->
  length (Next ip) = family_bytes bits /\ be_value (Next ip) = (be_value ip + 1) mod 2 ^ bits.
Proof.
  intros Hf [Hl Hp]. assert (Hn : Next ip = rev (inc_rev (rev ip))).
  { unfold Next. destruct Hf as [-> | ->]; [by rewrite To4_4|by rewrite Hp]. }
  rewrite Hn. destruct (inc_rev_value (rev ip)) as [Hv Hlen]. rewrite length_rev, Hlen, length_rev. split; [done|].
  rewrite Hv, rev_involutive, family_pow by done. unfold zlen. by rewrite length_rev, Hl.
Qed.

Lemma interval_div v s h : 0 < h -> s mod h = 0 -> (v - v mod h = s <-> s <= v <= s + h - 1).
Proof.
  intros Hh Hs. pose proof (Z.mod_pos_bound v h Hh) as Hb. split; [lia|]. intros Hr.
  apply Z.mod_divide in Hs as [q ->]; [|lia]. pose proof (Z.div_mod v h ltac:(lia)) as Hd.
  assert (v / h = q); [|lia]. symmetry. apply (Z.div_unique v h q (v - q * h)); lia.
Qed.

(** Masking selects the numbers of the network. *)
Lemma masked_equal bits ones n ip : wf_net bits ones n -> length ip = family_bytes bits ->
  mask_bytes (in_IP n) (in_Mask n) = mask_bytes ip (in_Mask n) <->
  be_value (in_IP n) <= be_value ip <= subnetEnd (be_value (in_IP n)) (subnetSize bits ones).
Proof.
  intros H Hl. pose proof (wn_length _ _ _ H) as Hln. pose proof (wn_ones _ _ _ H) as Ho.
  assert (Hz : 8 * zlen (in_IP n) = bits) by (unfold zlen; rewrite Hln; destruct (wn_family _ _ _ H) as [-> | ->]; done).
  assert (Hz' : 8 * zlen ip = bits) by (unfold zlen in *; lia).
  rewrite (wn_mask _ _ _ H). unfold CIDRMask. fold (family_bytes bits). rewrite <- Hln at 1.
  rewrite mask_aligned by (rewrite Hz; apply H). rewrite <- Hl. unfold subnetEnd, subnetSize.
  rewrite <- interval_div by (apply H || (apply Z.pow_pos_nonneg; lia)). rewrite <- Hz', <- mask_value by lia. split; [by intros ->|].
  intros Hv. symmetry. apply be_value_inj; [|done]. unfold mask_bytes. rewrite length_zip_with, length_cidr. lia.
Qed.

(** [IPNet.Contains] of a network that is not mapped. *)
Lemma Contains_value bits ones n ip : wf_net bits ones n -> plain bits (in_IP n) ->
  plain bits ip -> IPNet_Contains n ip = true <->
  be_value (in_IP n) <= be_value ip <= subnetEnd (be_value (in_IP n)) (subnetSize bits ones).
Proof.
  intros H [Hln Hpn] [Hl Hp]. rewrite <- (masked_equal _ _ _ _ H Hl). unfold IPNet_Contains, networkNumberAndMask.
  assert (Hml : length (in_Mask n) = family_bytes bits) by (rewrite (wn_mask _ _ _ H); apply length_cidr).
  destruct (wn_family _ _ _ H) as [-> | ->]; change (family_bytes 32) with 4%nat in *; change (family_bytes 128) with 16%nat in *.
  - rewrite !To4_4 by done. cbn [negb]. rewrite Hml, Hln. cbn [Nat.eqb negb]. rewrite Hl, Hln. cbn [Nat.eqb andb]. apply bool_decide_eq_true.
  - rewrite Hpn, Hp by done. rewrite Hml, Hln. cbn [Nat.eqb negb]. rewrite Hl, Hln. cbn [Nat.eqb andb]. apply bool_decide_eq_true.
Qed.

(** It contains only addresses that are not mapped. *)
Lemma Contains_plain bits ones n ip : wf_net bits ones n -> plain bits (in_IP n) -> length ip = family_bytes bits ->
  IPNet_Contains n ip = true -> plain bits ip.
Proof.
  intros H [Hln Hpn] Hl Hc. split; [done|]. intros ->. destruct (To4 ip) as [x|] eqn:Ex; [|done]. exfalso.
  unfold IPNet_Contains, networkNumberAndMask in Hc. rewrite Hpn, Ex in Hc by done. change (family_bytes 128) with 16%nat in *.
  assert (Hml : length (in_Mask n) = 16%nat) by (rewrite (wn_mask _ _ _ H); apply length_cidr).
  rewrite Hml, Hln in Hc. cbn [Nat.eqb negb] in Hc. rewrite (To4_length _ _ Ex), Hln in Hc. done.
Qed.

(** ** The walk *)

Section Walk.
Context {X : Type} (go : list byte -> bool) (try : list byte -> Z -> option X * Z).
Context (Shape Unavailable Counted : list byte -> Prop) (keys : list (list byte)).

(** What a try does: it succeeds exactly on an available candidate; otherwise it
    counts an attempt, or the candidate is one of the keys. *)
Definition try_ok : Prop := forall c n, Shape c -> go c = true -> 0 <= n < maxFilteredAllocationAttempts ->
  match try c n with
  | (Some _, _) => ~ Unavailable c
  | (None, n') => Unavailable c /\ ((n' = n + 1 /\ Counted c) \/ (n' = n /\ c ∈ keys))
  end.

Context (Htry : try_ok).
Context (Hnext : forall c, Shape c -> go c = true -> Shape (Next c) /\ be_value (Next c) = be_value c + 1).

Definition nth_next (k : nat) (c : list byte) : list byte := Nat.iter k Next c.

Lemma nth_next_S k c : nth_next (S k) c = nth_next k (Next c).
Proof. apply Nat.iter_succ_r. Qed.

(** The first [k] candidates were walked over. *)
Definition walked (k : nat) (c : list byte) : Prop :=
  forall j, (j < k)%nat -> go (nth_next j c) = true /\ Unavailable (nth_next j c).

Definition scan_result (c : list byte) (n : Z) (o : scan_outcome X) : Prop :=
  match o with
  | ScanFound x => exists k m, walked k c /\ Shape (nth_next k c) /\ go (nth_next k c) = true /\
                     0 <= m < maxFilteredAllocationAttempts /\ (try (nth_next k c) m).1 = Some x
  | ScanStop => exists l, NoDup l /\ zlen l = maxFilteredAllocationAttempts - n /\
                  Forall (fun x => Shape x /\ go x = true /\ Counted x /\ be_value c <= be_value x) l
  | ScanEnd n' => n <= n' < maxFilteredAllocationAttempts /\
      (exists k, walked k c /\ Shape (nth_next k c) /\ go (nth_next k c) = false /\ be_value (nth_next k c) = be_value c + Z.of_nat k) /\
      (exists l, NoDup l /\ zlen l = n' - n /\ Forall (fun x => Shape x /\ go x = true /\ Counted x /\ be_value c <= be_value x) l)
  end.

(** The walk ends within its fuel. *)
Lemma scan_spec fuel c n : Shape c -> 0 <= n < maxFilteredAllocationAttempts ->
  (ahead be_value keys (be_value c) + Z.to_nat (maxFilteredAllocationAttempts - n) < fuel)%nat ->
  exists o, scan go try fuel c n = Some o /\ scan_result c n o.
Proof.
  revert c n. induction fuel as [|fuel IH]; intros c n Hs Hn Hfuel; [lia|]. cbn [scan]. destruct (go c) eqn:Eg.
  2: { eexists. split; [reflexivity|]. cbn [scan_result]. split; [lia|]. split; [exists 0%nat|exists []].
    - split_and!; [intros j Hj; lia|done|done|change (nth_next 0 c) with c; lia].
    - split_and!; [constructor|unfold zlen; cbn; lia|by apply Forall_nil]. }
  pose proof (Htry c n Hs Eg Hn) as Ht. destruct (try c n) as [[x|] n'] eqn:Et.
  { eexists. split; [reflexivity|]. exists 0%nat, n. split_and!; [intros j Hj; lia|done..|lia|lia|]. cbn. by rewrite Et. }
  destruct Ht as [Hun Hcase]. destruct (Hnext c Hs Eg) as [Hs' Hv'].
  assert (Hwalk : forall k, walked k (Next c) -> walked (S k) c).
  { intros k Hw [|j] Hj; [done|]. rewrite nth_next_S. apply Hw. lia. }
  destruct (Z.leb_spec maxFilteredAllocationAttempts n') as [Hmax|Hmax].
  { eexists. split; [reflexivity|]. destruct Hcase as [[-> Hc]|[-> _]]; [|lia]. exists [c]. split_and!.
    - apply NoDup_singleton.
    - change (zlen [c]) with 1. lia.
    - apply Forall_singleton. split_and!; [done|done|done|lia]. }
  destruct (IH (Next c) n') as (o & Ho & Hr); [done|lia| |].
  { rewrite Hv'. destruct Hcase as [[-> _]|[-> Hk]].
    - pose proof (ahead_le be_value keys (be_value c) (be_value c + 1) ltac:(lia)). lia.
    - pose proof (ahead_lt be_value keys (be_value c) (be_value c + 1) c Hk ltac:(lia)). lia. }
  exists o. split; [done|].
  assert (Hlist : forall n2, (exists l, NoDup l /\ zlen l = n2 - n' /\ Forall (fun x => Shape x /\ go x = true /\ Counted x /\ be_value (Next c) <= be_value x) l) ->
    exists l, NoDup l /\ zlen l = n2 - n /\ Forall (fun x => Shape x /\ go x = true /\ Counted x /\ be_value c <= be_value x) l).
  { intros n2 (l & Hnd & Hlen & Hl). assert (Hl' : Forall (fun x => Shape x /\ go x = true /\ Counted x /\ be_value c <= be_value x) l).
    { eapply Forall_impl; [exact Hl|]. intros x (? & ? & ? & ?). split_and!; [done|done|done|lia]. }
    destruct Hcase as [[-> Hc]|[-> _]]; [exists (c :: l)|exists l; split_and!; done]. rewrite Forall_forall in Hl. split_and!.
    - apply NoDup_cons. split; [|done]. intros Hin. destruct (Hl c Hin) as (_ & _ & _ & Hle). lia.
    - rewrite zlen_cons. lia.
    - apply Forall_cons. split; [|done]. split_and!; [done|done|done|lia]. }
  destruct o as [x| |m]; cbn [scan_result] in *.
  - destruct Hr as (k & m & Hw & H1 & H2 & H3 & H4). exists (S k), m. rewrite nth_next_S. split_and!; [by apply Hwalk|done|done|lia|lia|done].
  - by apply Hlist.
  - destruct Hr as (Hm & (k & Hw & H1 & H2 & H3) & Hl). split; [|split; [exists (S k)|by apply Hlist]].
    + destruct Hcase as [[-> _]|[-> _]]; lia.
    + rewrite nth_next_S. split_and!; [by apply Hwalk|done|done|lia].
Qed.

Lemma walked_value k c : Shape c -> walked k c ->
  forall j, (j <= k)%nat -> Shape (nth_next j c) /\ be_value (nth_next j c) = be_value c + Z.of_nat j.
Proof.
  intros Hs Hw j. induction j as [|j IH]; intros Hj; [change (nth_next 0 c) with c; split; [done|lia]|].
  destruct IH as [Hs' Hv']; [lia|]. destruct (Hw j ltac:(lia)) as [Hg _]. destruct (Hnext _ Hs' Hg) as [Hsn Hvn].
  change (nth_next (S j) c) with (Next (nth_next j c)). split; [done|lia].
Qed.
End Walk.

(** ** The contract *)

(** ** The invariant *)

Record ip_ok (a : ipAllocator) : Prop := {
  io_network : match ia_network a with
               | None => ia_first a = [] /\ ia_bits a = 0
               | Some n => exists ones, wf_net (ia_bits a) ones n /\ ia_first a = in_IP n /\
                   ia_last a = be_bytes (family_bytes (ia_bits a)) (subnetEnd (be_value (in_IP n)) (subnetSize (ia_bits a) ones))
               end;
  io_next : match ia_network a with
            | Some n => plain (ia_bits a) (in_IP n) -> length (ia_next a) = family_bytes (ia_bits a)
            | None => True
            end;
  io_reserved : map_Forall (fun k c => 1 <= c) (ia_reserved a) }.

Definition ip_reserved (a : ipAllocator) (ip : list byte) : Prop := is_Some (ia_reserved a !! ip).

Definition ip_rejected (a : ipAllocator) (ip : list byte) : Prop := exists accept, ia_filter a = Some accept /\ accept ip = false.

Lemma NewIP_ok network filter : ip_ok (NewIPAllocator network filter).
Proof.
  assert (Hnone : ip_ok (MkIPAllocator None 0 [] [] [] ∅ filter)) by (split; [done|done|apply map_Forall_empty]).
  destruct network as [n|]; [|done]. cbn [NewIPAllocator]. destruct (normalizeIPNet n) as [[[ip mask] bits]|] eqn:En; [|done].
  destruct (normalizeIPNet_spec _ _ _ _ En) as (_ & ones & H). pose proof (normalize_first _ _ _ H) as H1.
  pose proof (normalize_last _ _ _ H) as H2. destruct (Range _) as [f l]. cbn [fst snd] in *. rewrite H1, H2.
  split; cbn [ia_network ia_bits ia_first ia_last ia_next ia_reserved default from_option].
  - exists ones. split_and!; [done|done|]. unfold subnetEnd, subnetSize. unfold id. f_equal. lia.
  - intros Hp. apply Next_value; [apply H|done].
  - apply map_Forall_empty.
Qed.

Lemma default_reserved a k : ip_ok a -> default 0 (ia_reserved a !! k) = 0 <-> ~ ip_reserved a k.
Proof.
  intros Hok. unfold ip_reserved. destruct (ia_reserved a !! k) as [c|] eqn:Ec; cbn.
  - pose proof (io_reserved a Hok k c Ec : 1 <= c). split; [unfold id; intros; exfalso; lia|]. intros Hn. exfalso. apply Hn. by eexists.
  - split; [|done]. by intros _ [? [=]].
Qed.

(** ** Allocation *)

Section Alloc.
Context (a : ipAllocator) (Hok : ip_ok a) (n : IPNet) (Hnet : ia_network a = Some n) (Hplain : plain (ia_bits a) (in_IP n)).

Let bits : Z := ia_bits a.
Let Shape (c : list byte) : Prop := length c = family_bytes bits.

Definition ip_unavailable (c : list byte) : Prop := ip_reserved a c \/ ip_rejected a c.
Definition ip_counted (c : list byte) : Prop := ~ ip_reserved a c /\ ip_rejected a c.

Lemma last_value : is_family bits /\ length (ia_first a) = family_bytes bits /\ length (ia_last a) = family_bytes bits /\
  ia_first a = in_IP n /\ exists ones, wf_net bits ones n /\ be_value (ia_last a) = subnetEnd (be_value (in_IP n)) (subnetSize bits ones) /\
  be_value (ia_last a) < 2 ^ bits.
Proof.
  pose proof (io_network a Hok) as H. rewrite Hnet in H. destruct H as (ones & Hwf & Hf & Hl). fold bits in Hwf, Hl.
  pose proof (wf_value _ _ _ Hwf) as Hv. pose proof (wn_ones _ _ _ Hwf) as Ho.
  pose proof (aligned_fits _ (bits - ones) bits ltac:(lia) Hv (wn_aligned _ _ _ Hwf)) as Hfit.
  pose proof (subnetSize_pos bits ones ltac:(lia)) as Hz. unfold subnetEnd, subnetSize in *.
  assert (Hb : 0 <= be_value (in_IP n) + 2 ^ (bits - ones) - 1 < 2 ^ bits) by lia.
  split_and!; [apply Hwf|rewrite Hf; apply Hwf| |done|].
  - rewrite Hl. apply be_bytes_spec. rewrite <- family_pow by apply Hwf. done.
  - exists ones. split; [done|]. rewrite Hl, value_be_bytes by (apply Hwf || done). lia.
Qed.

(** Usable addresses are numbers strictly between the first and the last. *)
Lemma usable_plain c : Shape c -> isUsable a c = true -> plain bits c /\ be_value (in_IP n) < be_value c < be_value (ia_last a).
Proof.
  destruct last_value as (Hf & Hfl & Hll & Hfn & ones & Hwf & Hlv & _). intros Hs. unfold isUsable. rewrite Hnet.
  rewrite !andb_true_iff. intros [[Hc H1] H2]. rewrite isBeforeIP_value in H1, H2 by (unfold Shape in Hs; congruence). rewrite Hfn in H1.
  split; [by apply (Contains_plain bits ones n)|lia].
Qed.

Lemma usable_between c : plain bits c -> be_value (in_IP n) < be_value c < be_value (ia_last a) -> isUsable a c = true.
Proof.
  destruct last_value as (Hf & Hfl & Hll & Hfn & ones & Hwf & Hlv & _). intros Hp Hr. unfold isUsable. rewrite Hnet.
  rewrite !isBeforeIP_value by (destruct Hp; congruence). rewrite Hfn, !andb_true_iff, !Z.ltb_lt. split; [|lia]. split; [|lia].
  apply (Contains_value bits ones n c Hwf Hplain Hp). lia.
Qed.

Lemma next_usable c : Shape c -> isUsable a c = true -> Shape (Next c) /\ be_value (Next c) = be_value c + 1.
Proof.
  intros Hs Hu. destruct (usable_plain c Hs Hu) as [Hp Hr]. destruct last_value as (Hf & _ & _ & _ & ones & Hwf & _ & Hlt).
  destruct (Next_value bits c Hf Hp) as [Hl Hv]. split; [done|]. rewrite Hv. apply Z.mod_small.
  pose proof (be_value_range c). lia.
Qed.

Definition ip_keys : list (list byte) := map fst (map_to_list (ia_reserved a)).

Lemma tryAlloc_ok go : try_ok go (tryAlloc a) Shape ip_unavailable ip_counted ip_keys.
Proof.
  intros c m _ _ Hm. unfold tryAlloc. destruct (Z.eqb_spec (default 0 (ia_reserved a !! c)) 0) as [He|He]; cbn [negb].
  - apply default_reserved in He; [|done]. unfold ip_unavailable, ip_counted, ip_rejected.
    destruct (ia_filter a) as [accept|]; [destruct (accept c) eqn:Ea|].
    + intros [|(f & [= <-] & Hf)]; [done|congruence].
    + assert (Hr : exists f, Some accept = Some f /\ f c = false) by eauto. split; [by right|]. left. done.
    + intros [|(f & [=] & _)]. done.
  - rewrite default_reserved in He by done. apply dec_stable in He. split; [by left|]. right. split; [done|].
    destruct He as [x Hx]. unfold ip_keys. apply list_elem_of_fmap. exists (c, x). split; [done|]. by apply elem_of_map_to_list.
Qed.

Lemma tryAlloc_found c m a' ip : (tryAlloc a c m).1 = Some (a', ip) ->
  ip = c /\ ~ ip_unavailable c /\ a' = ia_with a (Next c) (<[c := 1]> (ia_reserved a)).
Proof.
  unfold tryAlloc. destruct (Z.eqb_spec (default 0 (ia_reserved a !! c)) 0) as [He|He]; cbn [negb]; [|done].
  apply default_reserved in He; [|done]. unfold ip_unavailable, ip_rejected.
  destruct (ia_filter a) as [accept|]; [destruct (accept c) eqn:Ea; [|done]|]; cbn [fst]; intros [= <- <-]; split_and!; try done.
  - intros [|(f & [= <-] & Hf)]; [done|congruence].
  - intros [|(f & [=] & _)]. done.
Qed.

Lemma first_usable : Shape (Next (ia_first a)) /\ (be_value (ia_first a) < be_value (ia_last a) -> be_value (Next (ia_first a)) = be_value (ia_first a) + 1).
Proof.
  destruct last_value as (Hf & Hfl & Hll & Hfn & ones & Hwf & Hlv & Hlt). rewrite Hfn.
  destruct (Next_value bits (in_IP n) Hf Hplain) as [Hl Hv]. split; [done|]. intros Hb. rewrite Hv. apply Z.mod_small.
  pose proof (be_value_range (in_IP n)). lia.
Qed.

Lemma ip_fuel_enough v m : 0 <= m -> (ahead be_value ip_keys v + Z.to_nat (maxFilteredAllocationAttempts - m) < ip_fuel a)%nat.
Proof.
  intros Hm. pose proof (ahead_length be_value ip_keys v) as Hl. unfold ip_keys in Hl at 2. rewrite length_map, length_map_to_list in Hl.
  unfold ip_fuel, maxFilteredAllocationAttempts. lia.
Qed.

(** Where an allocation starts. *)
Definition ip_start : list byte := if isUsable a (ia_next a) then ia_next a else Next (ia_first a).

(** No address of the network is a mapped IPv4 address. *)
Definition contiguous : Prop := forall c, length c = family_bytes (ia_bits a) ->
  be_value (ia_first a) <= be_value c <= be_value (ia_last a) -> plain (ia_bits a) c.

(** [c] comes before [ip] on the way from [start] around. *)
Definition cyclic_before (start c ip : list byte) : Prop :=
  be_value start <= be_value c < be_value ip \/
  (be_value ip < be_value start /\ (be_value start <= be_value c \/ be_value c < be_value ip)).

Definition ip_result (a' : ipAllocator) (r : option (list byte * IPNet)) : Prop :=
  match r with
  | Some (ip, m) =>
      m = n /\ length ip = family_bytes (ia_bits a) /\ isUsable a ip = true /\ ~ ip_unavailable ip /\
      a' = ia_with a (Next ip) (<[ip := 1]> (ia_reserved a)) /\
      (contiguous -> forall c, length c = family_bytes (ia_bits a) -> isUsable a c = true ->
         cyclic_before ip_start c ip -> ip_unavailable c)
  | None =>
      a' = a /\
      ((contiguous -> forall c, length c = family_bytes (ia_bits a) -> isUsable a c = true -> ip_unavailable c) \/
       exists l, NoDup l /\ zlen l = maxFilteredAllocationAttempts /\ Forall (fun c => isUsable a c = true /\ ip_counted c) l)
  end.

Let go2 (c : list byte) : bool := isBeforeIP c ip_start && isUsable a c.

Lemma next_go2 c : Shape c -> go2 c = true -> Shape (Next c) /\ be_value (Next c) = be_value c + 1.
Proof. unfold go2. intros Hs [_ Hu]%andb_true_iff. by apply next_usable. Qed.

Lemma start_shape : Shape ip_start /\ (be_value (ia_first a) < be_value (ia_last a) -> be_value (ia_first a) < be_value ip_start).
Proof.
  unfold ip_start. destruct (isUsable a (ia_next a)) eqn:Eu.
  - assert (Hs : Shape (ia_next a)) by (pose proof (io_next a Hok) as Hn; rewrite Hnet in Hn; by apply Hn).
    split; [done|]. destruct (usable_plain _ Hs Eu) as [_ Hr]. destruct last_value as (_ & _ & _ & -> & _). lia.
  - destruct first_usable as [Hs Hv]. split; [done|]. intros Hb. rewrite Hv by done. lia.
Qed.

(** The addresses that a finished walk covers. *)
Lemma walk_covers go k c x : (forall c, Shape c -> go c = true -> Shape (Next c) /\ be_value (Next c) = be_value c + 1) ->
  Shape c -> walked go ip_unavailable k c -> Shape x -> be_value c <= be_value x < be_value c + Z.of_nat k -> ip_unavailable x.
Proof.
  intros Hn Hs Hw Hx Hr. set (j := Z.to_nat (be_value x - be_value c)).
  destruct (walked_value go Shape ip_unavailable Hn k c Hs Hw j ltac:(lia)) as [Hsj Hvj].
  destruct (Hw j ltac:(lia)) as [_ Hu]. assert (Hxe : x = nth_next j c); [|by rewrite Hxe].
  apply be_value_inj; [unfold Shape in *; congruence|]. rewrite Hvj. lia.
Qed.

(** In a contiguous network the first walk ends only at the last address. *)
Lemma walk_end c : contiguous -> Shape c -> be_value (ia_first a) < be_value c -> isUsable a c = false -> be_value (ia_last a) <= be_value c.
Proof.
  intros Hcont Hs Hlo Hu. destruct (Z.le_gt_cases (be_value (ia_last a)) (be_value c)) as [|Hlt]; [done|].
  destruct last_value as (_ & _ & _ & Hfn & _). rewrite usable_between in Hu; [done| |rewrite Hfn in Hlo; lia].
  apply Hcont; [done|lia].
Qed.

Definition walk_result (o : scan_outcome (ipAllocator * list byte)) : Prop :=
  match o with
  | ScanFound (a', ip) => ip_result a' (Some (ip, n))
  | _ => ip_result a None
  end.

(** The second walk, after a first one that covered the rest of the network. *)
Lemma second_walk m l : be_value (ia_first a) < be_value (ia_last a) -> 0 <= m < maxFilteredAllocationAttempts ->
  NoDup l -> zlen l = m -> (forall x, x ∈ l -> Shape x /\ isUsable a x = true /\ ip_counted x /\ be_value ip_start <= be_value x) ->
  (contiguous -> forall c, Shape c -> isUsable a c = true -> be_value ip_start <= be_value c -> ip_unavailable c) ->
  exists o, scan go2 (tryAlloc a) (ip_fuel a) (Next (ia_first a)) m = Some o /\ walk_result o.
Proof.
  intros Hlt Hm Hnd Hlen Hl Hfirst. destruct start_shape as [Hss _]. destruct first_usable as [Hfs Hfv]. specialize (Hfv Hlt).
  destruct last_value as (_ & _ & _ & Hfn & _).
  destruct (scan_spec go2 (tryAlloc a) Shape ip_unavailable ip_counted ip_keys (tryAlloc_ok _) next_go2
              (ip_fuel a) (Next (ia_first a)) m Hfs ltac:(lia) (ip_fuel_enough _ m ltac:(lia))) as (o & Ho & Hr).
  exists o. split; [done|]. destruct o as [[a' ip]| |m'].
  - destruct Hr as (k & m2 & Hw & Hs & Hg & _ & Hf). destruct (tryAlloc_found _ _ _ _ Hf) as (-> & Hun & ->).
    pose proof Hg as [Hb Hu]%andb_true_iff. rewrite isBeforeIP_value in Hb by (unfold Shape in *; congruence).
    cbn. split_and!; try done. intros Hcont c Hc Huc Hcb.
    destruct (walked_value _ _ _ next_go2 k _ Hfs Hw k ltac:(lia)) as [_ Hv]. unfold cyclic_before in Hcb.
    destruct (Z.le_gt_cases (be_value ip_start) (be_value c)) as [|Hlt2]; [by apply Hfirst|].
    destruct (usable_plain c Hc Huc) as [_ Hcr]. rewrite <- Hfn in Hcr. apply (walk_covers _ k _ c next_go2 Hfs Hw Hc). lia.
  - split; [done|]. right. destruct Hr as (l2 & Hnd2 & Hlen2 & Hl2). exists (l ++ l2). rewrite Forall_forall in Hl2. split_and!.
    + apply NoDup_app. split_and!; [done| |done]. intros x Hx Hx2. destruct (Hl x Hx) as (Hxs & _ & _ & Hge).
      destruct (Hl2 x Hx2) as (_ & Hgx & _). apply andb_true_iff in Hgx as [Hbx _].
      rewrite isBeforeIP_value in Hbx by (unfold Shape in *; congruence). lia.
    + rewrite zlen_app. lia.
    + apply Forall_forall. intros x [Hx|Hx]%elem_of_app; [by destruct (Hl x Hx) as (? & ? & ? & ?)|].
      destruct (Hl2 x Hx) as (? & Hgx & ? & ?). by apply andb_true_iff in Hgx as [_ ?].
  - split; [done|]. left. intros Hcont c Hc Hu. destruct (Z.le_gt_cases (be_value ip_start) (be_value c)) as [|Hlt2]; [by apply Hfirst|].
    destruct Hr as (_ & (k & Hw & Hs & Hg & Hv) & _). destruct (usable_plain c Hc Hu) as [_ Hcr]. rewrite <- Hfn in Hcr.
    assert (Hend : be_value ip_start <= be_value (nth_next k (Next (ia_first a))) \/ be_value (ia_last a) <= be_value (nth_next k (Next (ia_first a)))).
    { apply andb_false_iff in Hg as [Hg|Hg].
      - left. rewrite isBeforeIP_value in Hg by (unfold Shape in *; congruence). lia.
      - right. apply walk_end; try done. lia. }
    apply (walk_covers _ k _ c next_go2 Hfs Hw Hc). lia.
Qed.

Lemma alloc_ip_result : be_value (ia_first a) < be_value (ia_last a) ->
  exists o, scan_around (isUsable a) (tryAlloc a) (ip_fuel a) ip_start (ia_first a) 0 = Some o /\ walk_result o.
Proof.
  intros Hlt. destruct start_shape as [Hss Hsv]. specialize (Hsv Hlt).
  destruct (scan_spec (isUsable a) (tryAlloc a) Shape ip_unavailable ip_counted ip_keys (tryAlloc_ok _) next_usable
              (ip_fuel a) ip_start 0 Hss ltac:(unfold maxFilteredAllocationAttempts; lia) (ip_fuel_enough _ 0 ltac:(lia))) as (o & Ho & Hr).
  unfold scan_around. rewrite Ho. destruct o as [[a' ip]| |m].
  - eexists. split; [reflexivity|]. destruct Hr as (k & m & Hw & Hs & Hg & _ & Hf). destruct (tryAlloc_found _ _ _ _ Hf) as (-> & Hun & ->).
    cbn. split_and!; try done. intros _ c Hc _ Hcb.
    destruct (walked_value _ _ _ next_usable k _ Hss Hw k ltac:(lia)) as [_ Hv]. unfold cyclic_before in Hcb.
    apply (walk_covers _ k _ c next_usable Hss Hw Hc). lia.
  - eexists. split; [reflexivity|]. split; [done|]. right. destruct Hr as (l & Hnd & Hlen & Hl). exists l. split_and!; [done|lia|].
    eapply Forall_impl; [exact Hl|]. by intros x (? & ? & ? & ?).
  - destruct Hr as (Hm & (k & Hw & Hs & Hg & Hv) & (l & Hnd & Hlen & Hl)). rewrite Forall_forall in Hl. fold go2.
    apply (second_walk m l); [done|lia|done|lia|done|]. intros Hcont c Hc Hu Hge. destruct (usable_plain c Hc Hu) as [_ Hcr].
    pose proof (walk_end _ Hcont Hs ltac:(lia) Hg) as He. apply (walk_covers _ k _ c next_usable Hss Hw Hc). lia.
Qed.
End Alloc.

Lemma alloc_ip_spec a n : ip_ok a -> ia_network a = Some n -> plain (ia_bits a) (in_IP n) ->
  ip_result a n (alloc_ip a).1 (alloc_ip a).2.
Proof.
  intros Hok Hnet Hplain. destruct (last_value a Hok n Hnet) as (_ & Hfl & Hll & Hfn & _). unfold alloc_ip. rewrite Hnet.
  rewrite isBeforeIP_value by congruence. destruct (Z.ltb_spec (be_value (ia_first a)) (be_value (ia_last a))) as [Hlt|Hge]; cbn [negb].
  - destruct (alloc_ip_result a Hok n Hnet Hplain Hlt) as (o & Ho & Hr). fold (ip_start a). rewrite Ho.
    destruct o as [[a' ip]| |]; [|exact Hr..]. cbn [walk_result] in Hr. destruct n as [ip' mask]. exact Hr.
  - cbn [fst snd]. split; [done|]. left. intros _ c Hc Hu. destruct (usable_plain a Hok n Hnet Hplain c Hc Hu) as [_ Hr]. rewrite Hfn in Hge. lia.
Qed.

(** ** Histories *)

Inductive ip_op : Type :=
| IPReserve (ip : list byte)
| IPFree (ip : list byte)
| IPFreeAll
| IPAlloc4
| IPAlloc6.

Definition ia_run (a : ipAllocator) (op : ip_op) : ipAllocator * option (list byte * IPNet) :=
  match op with
  | IPReserve ip => (ReserveIP a ip, None)
  | IPFree ip => (FreeIP a ip, None)
  | IPFreeAll => (FreeAllIP a, None)
  | IPAlloc4 => AllocIP4 a
  | IPAlloc6 => AllocIP6 a
  end.

(** The addresses that were given out and nobody freed since. *)
Definition live_ips (a : ipAllocator) (op : ip_op) (r : option (list byte * IPNet)) (live : list (list byte)) : list (list byte) :=
  match op, r with
  | IPFree ip, _ => base.filter (fun x => Some x <> normalizeUsableIP a ip) live
  | IPFreeAll, _ => []
  | _, Some (ip, _) => ip :: live
  | _, None => live
  end.

Inductive ip_history (a : ipAllocator) : ipAllocator -> list (list byte) -> Prop :=
| IPStart : ip_history a a []
| IPStep a1 live op : ip_history a a1 live ->
    ip_history a (ia_run a1 op).1 (live_ips a1 op (ia_run a1 op).2 live).

Lemma scan_found {X} go (try : list byte -> Z -> option X * Z) fuel c m x :
  scan go try fuel c m = Some (ScanFound x) -> exists c' m', go c' = true /\ (try c' m').1 = Some x.
Proof.
  revert c m. induction fuel as [|fuel IH]; intros c m; [done|]. cbn [scan]. destruct (go c) eqn:Eg; [|done].
  destruct (try c m) as [[y|] m'] eqn:Et; [intros [= ->]; exists c, m; by rewrite Et|].
  destruct (_ <=? _); [done|]. apply IH.
Qed.

(** An allocation returns a usable address that was not reserved. *)
Lemma alloc_ip_found a a' ip m : ip_ok a -> alloc_ip a = (a', Some (ip, m)) ->
  ia_network a = Some m /\ isUsable a ip = true /\ ~ ip_unavailable a ip /\ a' = ia_with a (Next ip) (<[ip := 1]> (ia_reserved a)).
Proof.
  intros Hok. unfold alloc_ip. destruct (ia_network a) as [[nip nmask]|] eqn:Hnet; [|done]. destruct (negb _); [done|].
  fold (ip_start a). unfold scan_around.
  assert (Hgo : forall go fuel c k x, (forall c, go c = true -> isUsable a c = true) ->
    scan go (tryAlloc a) fuel c k = Some (ScanFound x) -> isUsable a x.2 = true /\ ~ ip_unavailable a x.2 /\ x.1 = ia_with a (Next x.2) (<[x.2 := 1]> (ia_reserved a))).
  { intros go fuel c k [b y] Hg (c' & m' & Hg' & Ht)%scan_found. destruct (tryAlloc_found a Hok _ _ _ _ Ht) as (-> & Hun & ->).
    split_and!; [by apply Hg|done|done]. }
  destruct (scan (isUsable a) _ _ _ _) as [[[b y]| |k]|] eqn:E1; try done.
  - intros [= <- <- <-]. split; [done|]. by apply (Hgo (isUsable a) _ _ _ _ (fun c H => H) E1).
  - destruct (scan _ _ _ (Next (ia_first a)) _) as [[[b y]| |k']|] eqn:E2; try done. intros [= <- <- <-]. split; [done|].
    refine (Hgo _ _ _ _ _ _ E2). intros c. rewrite andb_true_iff. tauto.
Qed.

Lemma ia_run_ok a op : ip_ok a -> ip_ok (ia_run a op).1.
Proof.
  intros Hok. assert (Hwith : forall next m, map_Forall (fun _ c => 1 <= c) m ->
    (forall n, ia_network a = Some n -> plain (ia_bits a) (in_IP n) -> length next = family_bytes (ia_bits a)) -> ip_ok (ia_with a next m)).
  { intros next m Hm Hn. split; cbn; [apply Hok| |done]. destruct (ia_network a); [by apply Hn|done]. }
  assert (Hold : forall n, ia_network a = Some n -> plain (ia_bits a) (in_IP n) -> length (ia_next a) = family_bytes (ia_bits a)).
  { intros n Hn. pose proof (io_next a Hok) as H. by rewrite Hn in H. }
  assert (Halloc : ip_ok (alloc_ip a).1).
  { destruct (alloc_ip a) as [a' [[ip m]|]] eqn:Ea; cbn [fst].
    - destruct (alloc_ip_found a a' ip m Hok Ea) as (Hnet & _ & _ & ->). apply Hwith.
      + apply map_Forall_insert_2; [lia|apply Hok].
      + intros n Hn Hp. pose proof (alloc_ip_spec a n Hok Hn Hp) as Hr. rewrite Ea in Hr. destruct Hr as (_ & Hl & Hu & _).
        destruct (last_value a Hok n Hn) as (Hf & _). destruct (usable_plain a Hok n Hn Hp ip Hl Hu) as [Hpi _]. by apply Next_value.
    - unfold alloc_ip in Ea. destruct (ia_network a); [|by injection Ea as <-]. destruct (negb _); [by injection Ea as <-|].
      destruct (scan_around _ _ _ _ _ _) as [[[b y]| |]|]; by injection Ea as <-. }
  destruct op as [ip|ip| | |]; cbn [ia_run fst].
  - unfold ReserveIP. destruct (normalizeUsableIP a ip) as [x|]; [|done]. apply Hwith; [|done]. apply map_Forall_insert_2; [|apply Hok].
    destruct (ia_reserved a !! x) as [c|] eqn:Ec; cbn; [|lia]. pose proof (io_reserved a Hok x c Ec : 1 <= c). unfold id. lia.
  - unfold FreeIP. destruct (normalizeUsableIP a ip) as [x|]; [|done]. destruct (Z.ltb_spec 1 (default 0 (ia_reserved a !! x))).
    + apply Hwith; [|done]. apply map_Forall_insert_2; [lia|apply Hok].
    + destruct (_ =? _); [|done]. apply Hwith; [|done]. apply map_Forall_delete, Hok.
  - unfold FreeAllIP. apply Hwith; [apply map_Forall_empty|]. intros n Hn Hp. rewrite Hn.
    destruct (last_value a Hok n Hn) as (Hf & _ & _ & Hfn & _). rewrite Hfn. by apply Next_value.
  - unfold AllocIP4. by destruct (negb _).
  - unfold AllocIP6. by destruct (negb _).
Qed.

Lemma usable_with a next m ip : isUsable (ia_with a next m) ip = isUsable a ip.
Proof. done. Qed.

Definition live_ok_ips (a : ipAllocator) (live : list (list byte)) : Prop :=
  NoDup live /\ forall ip, ip ∈ live -> ip_reserved a ip /\ isUsable a ip = true.

Lemma live_alloc a live : ip_ok a -> live_ok_ips a live ->
  live_ok_ips (alloc_ip a).1 (match (alloc_ip a).2 with Some (ip, _) => ip :: live | None => live end).
Proof.
  intros Hok [Hnd Hl]. destruct (alloc_ip a) as [a' [[ip m]|]] eqn:Ea; cbn [fst snd].
  - destruct (alloc_ip_found a a' ip m Hok Ea) as (_ & Hu & Hun & ->). split.
    + apply NoDup_cons. split; [|done]. intros Hin. destruct (Hl ip Hin) as [Hr _]. apply Hun. by left.
    + unfold ip_reserved. cbn [ia_with ia_reserved]. intros x [-> |Hx]%elem_of_cons; [rewrite lookup_insert_eq; eauto|].
      destruct (Hl x Hx) as [Hr Hux]. split; [|done]. destruct (decide (x = ip)) as [-> |]; [rewrite lookup_insert_eq; eauto|by rewrite lookup_insert_ne].
  - assert (a' = a) as ->; [|done]. unfold alloc_ip in Ea. destruct (ia_network a); [|by injection Ea as <-]. destruct (negb _); [by injection Ea as <-|].
    destruct (scan_around _ _ _ _ _ _) as [[[b y]| |]|]; by injection Ea as <-.
Qed.

Lemma live_step a live op : ip_ok a -> live_ok_ips a live ->
  live_ok_ips (ia_run a op).1 (live_ips a op (ia_run a op).2 live).
Proof.
  intros Hok [Hnd Hl]. destruct op as [ip|ip| | |]; cbn [ia_run fst snd live_ips].
  - unfold ReserveIP. destruct (normalizeUsableIP a ip) as [x|]; [|done]. split; [done|]. intros y Hy. destruct (Hl y Hy) as [Hr Hu].
    split; [|done]. unfold ip_reserved in *. cbn [ia_with ia_reserved].
    destruct (decide (y = x)) as [-> |]; [rewrite lookup_insert_eq; eauto|by rewrite lookup_insert_ne].
  - split; [by apply NoDup_filter|]. intros y [Hne Hy]%list_elem_of_filter. destruct (Hl y Hy) as [Hr Hu].
    unfold FreeIP. destruct (normalizeUsableIP a ip) as [x|]; [|done]. assert (y <> x) by congruence. unfold ip_reserved in *.
    destruct (1 <? _); [|destruct (_ =? 1); [|done]]; (split; [|done]); cbn [ia_with ia_reserved];
      [by rewrite lookup_insert_ne|by rewrite lookup_delete_ne].
  - split; [constructor|]. intros y Hy. by apply not_elem_of_nil in Hy.
  - unfold AllocIP4. destruct (negb _); [done|]. apply live_alloc; done.
  - unfold AllocIP6. destruct (negb _); [done|]. apply live_alloc; done.
Qed.

(** ** Theorems *)

(** The addresses that an [ipAllocator] has given out and nobody has freed since are
    pairwise different, whatever sequence of ReserveIP, AllocIP4, AllocIP6, FreeIP
    and FreeAllIP calls led there; each of them is still reserved and is an address
    of the network other than its first and its last. *)
Theorem live_ips_distinct network filter a live : ip_history (NewIPAllocator network filter) a live ->
  NoDup live /\ Forall (fun ip => ip_reserved a ip /\ isUsable a ip = true) live.
Proof.
  intros Hh. assert (H : ip_ok a /\ live_ok_ips a live).
  { induction Hh as [|a1 live op Hh [Hok Hl]].
    - split; [apply NewIP_ok|]. split; [constructor|]. intros y Hy. by apply not_elem_of_nil in Hy.
    - split; [by apply ia_run_ok|by apply live_step]. }
  destruct H as [_ [Hnd Hl]]. split; [done|]. by apply Forall_forall.
Qed.

Definition ip_10_0_0 (host : Z) : list byte := map byte_of_Z [10; 0; 0; host].

Lemma live_ips_distinct_witness :
  let a0 := NewIPAllocator (Some (net_10_0_0_0 29)) None in
  let '(a1, r1) := AllocIP4 a0 in
  let '(a2, r2) := AllocIP4 (ReserveIP a1 (ip_10_0_0 2)) in
  r1 = Some (ip_10_0_0 1, net_10_0_0_0 29) /\ r2 = Some (ip_10_0_0 3, net_10_0_0_0 29) /\ NoDup [ip_10_0_0 3; ip_10_0_0 1].
Proof.
  assert (Hh : ip_history (NewIPAllocator (Some (net_10_0_0_0 29)) None)
                 (AllocIP4 (ReserveIP (AllocIP4 (NewIPAllocator (Some (net_10_0_0_0 29)) None)).1 (ip_10_0_0 2))).1 [ip_10_0_0 3; ip_10_0_0 1]).
  { exact (IPStep _ _ _ IPAlloc4 (IPStep _ _ _ (IPReserve (ip_10_0_0 2)) (IPStep _ _ _ IPAlloc4 (IPStart _)))). }
  pose proof (live_ips_distinct _ _ _ _ Hh) as [Hd _]. vm_compute. split; [reflexivity|]. split; [reflexivity|]. exact Hd.
Defined.



(** ** Mapped networks *)

(** A four-byte address is not usable in a network kept with sixteen bytes. *)
Lemma mapped_unusable a c x y : ia_first a = v4InV6Prefix ++ x -> ia_last a = v4InV6Prefix ++ y -> length c = 4%nat -> isUsable a c = false.
Proof.
  intros Hf Hl Hc. unfold isUsable. destruct (ia_network a) as [n|]; [|done]. rewrite Hf, Hl.
  destruct c as [|c0 [|c1 [|c2 [|c3 [|]]]]]; try done. apply andb_false_iff.
  pose proof (bZ_range c0). pose proof (bZ_range c1). pose proof (bZ_range c2). pose proof (bZ_range c3).
  cbn [isBeforeIP v4InV6Prefix app replicate]. rewrite bZ_byte_of_Z by lia.
  destruct (Z.eqb_spec (bZ c0) 0) as [-> |]; [|right; rewrite (proj2 (Z.ltb_ge _ _)) by lia; done].
  destruct (Z.eqb_spec (bZ c1) 0) as [-> |]; [|right; rewrite !(proj2 (Z.ltb_ge _ _)) by lia; done].
  destruct (Z.eqb_spec (bZ c2) 0) as [-> |]; [|right; rewrite !(proj2 (Z.ltb_ge _ _)) by lia; done].
  destruct (Z.eqb_spec (bZ c3) 0) as [-> |]; [|right; rewrite !(proj2 (Z.ltb_ge _ _)) by lia; done].
  left. by rewrite andb_false_r.
Qed.

(** The last address of a mapped network is a mapped address. *)
Lemma mapped_last ones n x : wf_net 128 ones n -> To4 (in_IP n) = Some x ->
  exists y, be_bytes (family_bytes 128) (subnetEnd (be_value (in_IP n)) (subnetSize 128 ones)) = v4InV6Prefix ++ y.
Proof.
  intros Hwf Hx. destruct (mapped_prefix _ _ _ Hwf Hx) as (Hip & Hxl & H96 & Hal).
  pose proof (wn_ones _ _ _ Hwf) as Ho. pose proof (be_value_range x) as Hr. unfold zlen in Hr. rewrite Hxl in Hr.
  pose proof (aligned_fits _ (128 - ones) 32 ltac:(lia) Hr Hal) as Hfit. pose proof (Z.pow_pos_nonneg 2 (128 - ones) ltac:(lia) ltac:(lia)).
  exists (be_bytes 4 (be_value x + 2 ^ (128 - ones) - 1)). rewrite Hip, mapped_be_value by done. unfold subnetEnd, subnetSize.
  rewrite <- mapped_bytes by lia. change (family_bytes 128) with 16%nat. f_equal. lia.
Qed.

Lemma Next_mapped x : length x = 4%nat -> length (Next (v4InV6Prefix ++ x)) = 4%nat.
Proof.
  intros Hx. unfold Next. rewrite To4_mapped by done. rewrite length_rev. destruct (inc_rev_value (rev x)) as [_ ->]. by rewrite length_rev.
Qed.

(** [AllocIP6] of an allocator over a mapped IPv4 network, such as
    ::ffff:10.0.0.0/120, returns nil although its addresses are free: [Next] turns
    a mapped address into four bytes, which [isUsable] compares with the sixteen
    of the bounds. *)
Theorem mapped_network_never_allocates network filter n x :
  ia_network (NewIPAllocator network filter) = Some n -> length (in_IP n) = 16%nat -> To4 (in_IP n) = Some x ->
  alloc_ip (NewIPAllocator network filter) = (NewIPAllocator network filter, None).
Proof.
  intros Hnet Hl Hx. set (a := NewIPAllocator network filter) in *. pose proof (NewIP_ok network filter) as Hok. fold a in Hok.
  pose proof (io_network a Hok) as H. rewrite Hnet in H. destruct H as (ones & Hwf & Hf & Hlast).
  assert (Hb : ia_bits a = 128).
  { destruct (wn_family _ _ _ Hwf) as [Hb|]; [|done]. pose proof (wn_length _ _ _ Hwf) as Hlen. rewrite Hb, Hl in Hlen. done. }
  rewrite Hb in *. destruct (mapped_prefix _ _ _ Hwf Hx) as (Hip & Hxl & _). destruct (mapped_last _ _ _ Hwf Hx) as [y Hy]. rewrite Hy in Hlast.
  rewrite Hip in Hf. assert (Hn4 : length (Next (ia_first a)) = 4%nat) by (rewrite Hf; by apply Next_mapped).
  assert (Hnext : ia_next a = Next (ia_first a)).
  { unfold a in *. destruct network as [w|]; [|done]. cbn [NewIPAllocator] in *. destruct (normalizeIPNet w) as [[[i m] b]|]; [|done].
    by destruct (Range _). }
  assert (Hu : isUsable a (Next (ia_first a)) = false) by (eapply mapped_unusable; done).
  unfold alloc_ip. rewrite Hnet. destruct (negb _); [done|]. rewrite Hnext, Hu. unfold scan_around, ip_fuel. cbn [scan].
  rewrite Hu, isBeforeIP_irrefl. done.
Qed.
