(* ===== verification/SubnetRange.v ===== *)
(** * Ranges and subnets of a network

    [FromRange] undoes [Range] (src/subnet/subnet.go), except for the whole IPv6
    space; and [ExtendIPNet] (src/subnet/alloc.go), which sets the bits of the
    subnet's index one by one, computes the same network as [Narrow], which adds
    the index as a number. *)

From S2P Require Import Prelude NetIP IPNet Subnet SubnetAlloc SubnetSpec IPAlloc IPSpec.

(** ** [ExtendIPNet] *)

Inductive extendError : Type :=
| ErrNilBase | ErrInvalidBase | ErrNegativeBits | ErrTooManyBits | ErrNegativeIndex | ErrIndexRange.

(** [ip[byteIdx] |= 1 << bitIdx]; the position is inside the address. *)
Definition set_ip_bit (ip : list byte) (bitPosition : Z) : list byte :=
  let byteIdx := Z.to_nat (bitPosition / 8) in
  match ip !! byteIdx with
  | Some b => <[byteIdx := byte_of_Z (Z.lor (bZ b) (2 ^ (7 - bitPosition mod 8)))]> ip
  | None => ip
  end.

Definition extend_step (numBits index basePrefix : Z) (ip : list byte) (i : nat) : list byte :=
  if Z.testbit index (numBits - 1 - Z.of_nat i) then set_ip_bit ip (basePrefix + Z.of_nat i) else ip.

Definition extend_bits (ip : list byte) (basePrefix numBits index : Z) : list byte :=
  fold_left (extend_step numBits index basePrefix) (seq 0 (Z.to_nat numBits)) ip.

Definition ExtendIPNet (base : option IPNet) (numBits index : Z) : result extendError IPNet :=
  match base with
  | None => Failure ErrNilBase
  | Some base =>
      match normalizeIPNet base with
      | None => Failure ErrInvalidBase
      | Some (ip, _, bits) =>
          let basePrefix := (Mask_Size (in_Mask base)).1 in
          if numBits <? 0 then Failure ErrNegativeBits
          else
            let targetPrefix := i64 (basePrefix + numBits) in
            if bits <? targetPrefix then Failure ErrTooManyBits
            else if index <? 0 then Failure ErrNegativeIndex
            else if 2 ^ numBits <=? index then Failure ErrIndexRange
            else Success (MkIPNet (extend_bits ip basePrefix numBits index) (CIDRMask targetPrefix bits))
      end
  end.

(** ** Setting bits *)

Lemma set_ip_bit_length ip pos : length (set_ip_bit ip pos) = length ip.
Proof. unfold set_ip_bit. destruct (ip !! _); [apply length_insert|done]. Qed.

(** Setting a clear bit adds its weight. *)
Lemma lor_pow v k : 0 <= k -> Z.testbit v k = false -> Z.lor v (2 ^ k) = v + 2 ^ k.
Proof.
  intros Hk Hb. assert (Hl : Z.land v (2 ^ k) = 0).
  { apply Z.bits_inj'. intros n Hn. rewrite Z.land_spec, Z.pow2_bits_eqb, Z.bits_0 by lia.
    destruct (Z.eqb_spec k n) as [<-|]; [by rewrite Hb|by rewrite andb_false_r]. }
  rewrite <- Z.lxor_lor by done. symmetry. by apply Z.add_nocarry_lxor.
Qed.

Lemma byte_set_bit b q : 0 <= q <= 7 -> bZ b mod 2 ^ (q + 1) = 0 -> bZ (byte_of_Z (Z.lor (bZ b) (2 ^ q))) = bZ b + 2 ^ q.
Proof.
  intros Hq Hm. pose proof (bZ_range b) as Hb. pose proof (Z.pow_pos_nonneg 2 q ltac:(lia) ltac:(lia)) as Hp.
  assert (Ht : Z.testbit (bZ b) q = false).
  { apply Z.mod_divide in Hm as [d Hd]; [|apply Z.pow_nonzero; lia]. rewrite Hd, Z.mul_pow2_bits by lia. apply Z.testbit_neg_r. lia. }
  rewrite lor_pow by (lia || done). apply bZ_byte_of_Z. split; [lia|].
  pose proof (aligned_fits (bZ b) (q + 1) 8 ltac:(lia) ltac:(change (2 ^ 8) with 256; lia) Hm) as Hf. rewrite Z.pow_add_r in Hf by lia.
  change (2 ^ 8) with 256 in Hf. lia.
Qed.

(** Setting a bit of an address whose bits from there on are clear. *)
Lemma set_ip_bit_value ip pos : 0 <= pos < 8 * zlen ip -> be_value ip mod 2 ^ (8 * zlen ip - pos) = 0 ->
  be_value (set_ip_bit ip pos) = be_value ip + 2 ^ (8 * zlen ip - pos - 1).
Proof.
  intros Hpos Hm. pose proof (Z.div_mod pos 8 ltac:(lia)) as Hd. pose proof (Z.mod_pos_bound pos 8 ltac:(lia)) as Hr.
  unfold set_ip_bit. set (i := Z.to_nat (pos / 8)). unfold zlen in *.
  destruct (ip !! i) as [b|] eqn:Eb; [|apply lookup_ge_None in Eb; unfold i in Eb; lia].
  pose proof (lookup_lt_Some _ _ _ Eb) as Hi. set (l1 := take i ip). set (l2 := drop (S i) ip).
  assert (Hip : ip = l1 ++ b :: l2) by (symmetry; by apply take_drop_middle).
  assert (Hl1 : length l1 = i) by (apply length_take_le; lia). assert (Hl2 : length l2 = (length ip - S i)%nat) by apply length_drop.
  rewrite (insert_take_drop _ _ _ Hi). fold l1 l2. set (q := 7 - pos mod 8). set (n := 8 * Z.of_nat (length l2)).
  assert (Hexp : 8 * Z.of_nat (length ip) - pos - 1 = n + q) by (unfold n, q, i in *; lia).
  replace (8 * Z.of_nat (length ip) - pos) with ((q + 1) + n) in Hm by lia. rewrite Hexp.
  rewrite Hip in Hm |- *. rewrite !be_value_concat, !be_value_cons, !zlen_cons in *. unfold zlen in *. fold n in Hm |- *.
  rewrite !pow_256 in * by lia. replace (8 * (Z.of_nat (length l2) + 1)) with (8 + n) in * by lia. fold n in Hm |- *.
  pose proof (be_value_range l2) as Hr2. unfold zlen in Hr2. rewrite pow_256 in Hr2 by lia. fold n in Hr2.
  rewrite (Z.pow_add_r 2 8 n), Z.pow_add_r in * by lia. pose proof (Z.pow_pos_nonneg 2 n ltac:(lia) ltac:(lia)) as Hpn.
  pose proof (Z.pow_pos_nonneg 2 (q + 1) ltac:(lia) ltac:(unfold q; lia)) as Hpq.
  assert (Hv : be_value l1 * (2 ^ 8 * 2 ^ n) + (bZ b * 2 ^ n + be_value l2) = be_value l2 + (be_value l1 * 2 ^ 8 + bZ b) * 2 ^ n) by lia.
  rewrite Hv, (Z.mul_comm (2 ^ (q + 1))), Z.rem_mul_r in Hm by lia.
  rewrite Z.mod_add, Z.div_add, (Z.mod_small (be_value l2)), (Z.div_small (be_value l2)) in Hm by lia. rewrite Z.add_0_l in Hm.
  pose proof (Z.mod_pos_bound (be_value l1 * 2 ^ 8 + bZ b) (2 ^ (q + 1)) Hpq) as Hmb.
  set (m := (be_value l1 * 2 ^ 8 + bZ b) mod 2 ^ (q + 1)) in *.
  assert (Hbm : m = 0). { destruct (Z.eq_dec m 0) as [|Hne]; [done|]. assert (2 ^ n * 1 <= 2 ^ n * m) by (apply Z.mul_le_mono_nonneg_l; lia). lia. }
  assert (Hb0 : bZ b mod 2 ^ (q + 1) = 0).
  { assert (H8 : 2 ^ 8 = 2 ^ (7 - q) * 2 ^ (q + 1)) by (rewrite <- Z.pow_add_r by (unfold q; lia); f_equal; lia).
    rewrite <- Hbm. unfold m. rewrite H8, Z.mul_assoc, (Z.add_comm _ (bZ b)), Z.mod_add by lia. done. }
  rewrite byte_set_bit by (done || unfold q; lia). lia.
Qed.

(** The loop adds the index at its place in the address. *)
Lemma extend_bits_value ip basePrefix numBits index : 0 <= basePrefix -> 0 <= numBits -> basePrefix + numBits <= 8 * zlen ip ->
  0 <= index < 2 ^ numBits -> be_value ip mod 2 ^ (8 * zlen ip - basePrefix) = 0 ->
  length (extend_bits ip basePrefix numBits index) = length ip /\
  be_value (extend_bits ip basePrefix numBits index) = be_value ip + index * 2 ^ (8 * zlen ip - basePrefix - numBits).
Proof.
  intros Hb Hn Hle Hi Hm. set (w := 8 * zlen ip - basePrefix) in *. unfold extend_bits.
  assert (Hloop : forall k : nat, Z.of_nat k <= numBits ->
    let ip' := fold_left (extend_step numBits index basePrefix) (seq 0 k) ip in
    length ip' = length ip /\ be_value ip' = be_value ip + index / 2 ^ (numBits - Z.of_nat k) * 2 ^ (w - Z.of_nat k)).
  { induction k as [|k IH]; intros Hk; cbv zeta.
    { cbn [seq fold_left]. change (Z.of_nat 0) with 0. rewrite Z.sub_0_r, Z.div_small by lia. split; [done|lia]. }
    rewrite seq_S, fold_left_app. cbn [fold_left]. specialize (IH ltac:(lia)). cbv zeta in IH.
    set (ip' := fold_left _ (seq 0 k) ip) in *. destruct IH as [Hlen Hval]. change (0 + k)%nat with k. unfold extend_step.
    assert (Hz : 8 * zlen ip' = 8 * zlen ip) by (unfold zlen; by rewrite Hlen).
    set (j := numBits - 1 - Z.of_nat k). replace (numBits - Z.of_nat k) with (1 + j) in Hval by lia.
    replace (numBits - Z.of_nat (S k)) with j by lia. replace (w - Z.of_nat (S k)) with (w - Z.of_nat k - 1) by lia.
    assert (Hdiv : index / 2 ^ j = 2 * (index / 2 ^ (1 + j)) + Z.b2z (Z.testbit index j)).
    { replace (2 ^ (1 + j)) with (2 ^ j * 2) by (rewrite (Z.add_comm 1), Z.pow_add_r by lia; done).
      rewrite <- Z.div_div, <- Z.shiftr_div_pow2, Z.testbit_odd, <- Z.div2_div by (lia || apply Z.pow_nonzero; lia). apply Z.div2_odd. }
    assert (Hpow : 2 ^ (w - Z.of_nat k) = 2 * 2 ^ (w - Z.of_nat k - 1)) by (rewrite <- Z.pow_succ_r by lia; f_equal; lia).
    assert (Hmod : be_value ip' mod 2 ^ (8 * zlen ip' - (basePrefix + Z.of_nat k)) = 0).
    { rewrite Hz, Hval. replace (8 * zlen ip - (basePrefix + Z.of_nat k)) with (w - Z.of_nat k) by lia.
      rewrite Z.mod_add by (apply Z.pow_nonzero; lia). apply Z.mod_divide in Hm as [d Hd]; [|apply Z.pow_nonzero; lia].
      rewrite Hd. replace w with (Z.of_nat k + (w - Z.of_nat k)) at 1 by lia. rewrite Z.pow_add_r, Z.mul_assoc by lia.
      apply Z.mod_mul, Z.pow_nonzero; lia. }
    destruct (Z.testbit index j); rewrite Hdiv; cbn [Z.b2z].
    - rewrite set_ip_bit_length, set_ip_bit_value by (done || lia). split; [done|].
      rewrite Hz, Hval. replace (8 * zlen ip - (basePrefix + Z.of_nat k) - 1) with (w - Z.of_nat k - 1) by lia. lia.
    - split; [done|]. rewrite Hval. lia. }
  specialize (Hloop (Z.to_nat numBits) ltac:(lia)). cbv zeta in Hloop. rewrite Z2Nat.id, Z.sub_diag in Hloop by lia.
  change (2 ^ 0) with 1 in Hloop. rewrite Z.div_1_r in Hloop. done.
Qed.

(** ** Narrower networks *)

Lemma family_zlen bits (ip : list byte) : is_family bits -> length ip = family_bytes bits -> 8 * zlen ip = bits.
Proof. intros Hf Hl. unfold zlen. rewrite Hl. by destruct Hf as [-> | ->]. Qed.

Lemma fit_bytes_small bits v : is_family bits -> 0 <= v < 2 ^ bits -> fit_bytes (family_bytes bits) v = be_bytes (family_bytes bits) v.
Proof.
  intros Hf Hv. rewrite family_pow in Hv by done. unfold fit_bytes. rewrite pad_big_bytes by done.
  destruct (be_bytes_spec (family_bytes bits) v Hv) as [_ ->]. by rewrite Nat.ltb_irrefl.
Qed.

(** What [Narrow] returns for a network that is not mapped. *)
Lemma Narrow_value bits ones n numBits index : wf_net bits ones n -> plain bits (in_IP n) -> 0 <= numBits -> ones + numBits <= bits ->
  0 <= index < 2 ^ numBits ->
  let v := be_value (in_IP n) + index * subnetSize bits (ones + numBits) in
  Narrow n numBits index = Success (MkIPNet (be_bytes (family_bytes bits) v) (CIDRMask (ones + numBits) bits)) /\ 0 <= v < 2 ^ bits.
Proof.
  intros H Hp Hn Hle Hi. cbv zeta. pose proof (wf_value _ _ _ H) as Hv. pose proof (wn_ones _ _ _ H) as Ho.
  pose proof (aligned_fits _ (bits - ones) bits ltac:(lia) Hv (wn_aligned _ _ _ H)) as Hfit. pose proof (wn_family _ _ _ H) as Hf.
  unfold subnetSize. set (s := 2 ^ (bits - (ones + numBits))). pose proof (Z.pow_pos_nonneg 2 (bits - (ones + numBits)) ltac:(lia) ltac:(lia)) as Hs. fold s in Hs.
  assert (Hpow : 2 ^ (bits - ones) = 2 ^ numBits * s) by (unfold s; rewrite <- Z.pow_add_r by lia; f_equal; lia). rewrite Hpow in Hfit.
  assert (Hb : 0 <= be_value (in_IP n) + index * s < 2 ^ bits) by nia. split; [|done].
  unfold Narrow. rewrite (wf_bits _ _ _ H), (proj2 (Z.ltb_ge numBits 0)), (proj2 (Z.ltb_ge index 0)) by lia.
  assert (H64 : bits <= 128) by (destruct Hf as [-> | ->]; lia). rewrite i64_id by lia.
  rewrite (proj2 (Z.ltb_ge bits _)), (proj2 (Z.leb_gt _ index)) by lia. fold s. rewrite (wn_length _ _ _ H), fit_bytes_small by done.
  f_equal. f_equal. destruct Hf as [-> | ->]; [|by rewrite (proj2 Hp)]. rewrite (To4_4 (in_IP n)) by apply Hp.
  rewrite To4_4; [done|]. apply be_bytes_spec. exact Hb.
Qed.

(** [ExtendIPNet] and [Narrow] agree on every network that is not a mapped IPv4 network,
    every number of bits and every index: the loop that sets the bits of the
    index in the bytes of the address gives the network that adding the index as
    a number gives, with a prefix longer by the number of bits; and one of them
    fails exactly when the other does. *)
Theorem extend_is_narrow bits ones n numBits index : wf_net bits ones n -> plain bits (in_IP n) -> numBits < 2 ^ 63 - 128 ->
  match Narrow n numBits index with
  | Success m => ExtendIPNet (Some n) numBits index = Success m /\ wf_net bits (ones + numBits) m /\
      be_value (in_IP m) = be_value (in_IP n) + index * subnetSize bits (ones + numBits)
  | Failure _ => exists e, ExtendIPNet (Some n) numBits index = Failure e
  end.
Proof.
  intros H Hp H63. pose proof (wn_ones _ _ _ H) as Ho. pose proof (wn_family _ _ _ H) as Hf.
  assert (H128 : bits <= 128) by (destruct Hf as [-> | ->]; lia).
  assert (Hext : ExtendIPNet (Some n) numBits index =
    if numBits <? 0 then Failure ErrNegativeBits
    else if bits <? i64 (ones + numBits) then Failure ErrTooManyBits
    else if index <? 0 then Failure ErrNegativeIndex
    else if 2 ^ numBits <=? index then Failure ErrIndexRange
    else Success (MkIPNet (extend_bits (in_IP n) ones numBits index) (CIDRMask (i64 (ones + numBits)) bits))).
  { unfold ExtendIPNet. by rewrite (normalizeIPNet_wf _ _ _ H), (wf_bits _ _ _ H). }
  destruct (Z.lt_ge_cases numBits 0) as [Hneg|Hnn].
  { unfold Narrow. rewrite (wf_bits _ _ _ H), Hext, (proj2 (Z.ltb_lt numBits 0)) by done. by eexists. }
  rewrite i64_id in Hext by lia. rewrite (proj2 (Z.ltb_ge numBits 0)) in Hext by lia.
  destruct (Z.lt_ge_cases index 0) as [Hineg|Hin].
  { unfold Narrow. rewrite (wf_bits _ _ _ H), (proj2 (Z.ltb_ge numBits 0)), (proj2 (Z.ltb_lt index 0)) by lia. rewrite Hext.
    destruct (bits <? _); [by eexists|]. rewrite (proj2 (Z.ltb_lt index 0)) by lia. by eexists. }
  rewrite (proj2 (Z.ltb_ge index 0)) in Hext by lia.
  destruct (Z.lt_ge_cases bits (ones + numBits)) as [Hlong|Hshort].
  { unfold Narrow. rewrite (wf_bits _ _ _ H), (proj2 (Z.ltb_ge numBits 0)), (proj2 (Z.ltb_ge index 0)), i64_id, (proj2 (Z.ltb_lt bits _)) by lia.
    rewrite Hext, (proj2 (Z.ltb_lt bits _)) by lia. by eexists. }
  rewrite (proj2 (Z.ltb_ge bits _)) in Hext by lia.
  destruct (Z.le_gt_cases (2 ^ numBits) index) as [Hbig|Hsmall].
  { unfold Narrow. rewrite (wf_bits _ _ _ H), (proj2 (Z.ltb_ge numBits 0)), (proj2 (Z.ltb_ge index 0)), i64_id, (proj2 (Z.ltb_ge bits _)), (proj2 (Z.leb_le _ index)) by lia.
    rewrite Hext, (proj2 (Z.leb_le _ index)) by lia. by eexists. }
  rewrite (proj2 (Z.leb_gt _ index)) in Hext by lia.
  destruct (Narrow_value bits ones n numBits index H Hp Hnn Hshort ltac:(lia)) as [-> Hv]. set (v := be_value (in_IP n) + _) in *.
  pose proof (family_zlen bits (in_IP n) Hf (proj1 Hp)) as Hz.
  destruct (extend_bits_value (in_IP n) ones numBits index ltac:(lia) ltac:(lia) ltac:(lia) ltac:(lia)) as [Hlen Hval]; [rewrite Hz; apply H|].
  rewrite Hz in Hval. replace (bits - ones - numBits) with (bits - (ones + numBits)) in Hval by lia. fold (subnetSize bits (ones + numBits)) in Hval. fold v in Hval.
  assert (Hbytes : extend_bits (in_IP n) ones numBits index = be_bytes (family_bytes bits) v).
  { apply be_value_inj; [rewrite Hlen, (proj1 Hp); symmetry; apply be_bytes_spec; by rewrite <- family_pow|]. by rewrite Hval, value_be_bytes. }
  rewrite Hext, Hbytes. split_and!; [done| |by apply value_be_bytes]. split; cbn [in_IP in_Mask]; [done|lia|done| |].
  - apply be_bytes_spec. by rewrite <- family_pow.
  - rewrite value_be_bytes by done. unfold v, subnetSize. rewrite Z.mod_add by (apply Z.pow_nonzero; lia).
    pose proof (wn_aligned _ _ _ H) as Ha. apply Z.mod_divide in Ha as [d Hd]; [|apply Z.pow_nonzero; lia]. rewrite Hd.
    replace (bits - ones) with (numBits + (bits - (ones + numBits))) by lia. rewrite Z.pow_add_r, Z.mul_assoc by lia. apply Z.mod_mul, Z.pow_nonzero; lia.
Qed.

Lemma extend_is_narrow_witness :
  ExtendIPNet (Some (net_10_0_0_0 8)) 16 513 = Success (MkIPNet (map byte_of_Z [10; 2; 1; 0]) (CIDRMask 24 32)).
Proof.
  assert (Hw : wf_net 32 8 (net_10_0_0_0 8)) by (split; [by left|lia|done|done|done]).
  pose proof (extend_is_narrow 32 8 (net_10_0_0_0 8) 16 513 Hw ltac:(split; [reflexivity|discriminate]) ltac:(vm_compute; reflexivity)) as H.
  destruct (Narrow (net_10_0_0_0 8) 16 513) as [m|e] eqn:En; [|vm_compute in En; discriminate].
  destruct H as [H _]. rewrite H. vm_compute in En. injection En as <-. vm_compute. reflexivity.
Defined.

(** ** Ranges *)

Lemma To4_again x y : To4 (default [] (To4 x)) = Some y -> default [] (To4 x) = y.
Proof.
  destruct (To4 x) as [z|] eqn:Ez; cbn [default from_option]; unfold id; [|done]. rewrite To4_4 by (by apply To4_length in Ez). by intros [= ->].
Qed.

Lemma Range_plain bits ones n : wf_net bits ones n -> plain bits (in_IP n) ->
  Range n = (in_IP n, be_bytes (family_bytes bits) (subnetEnd (be_value (in_IP n)) (subnetSize bits ones))).
Proof.
  intros H [Hl Hp]. pose proof (normalize_first _ _ _ H) as H1. pose proof (normalize_last _ _ _ H) as H2. unfold subnetEnd, subnetSize.
  rewrite <- Z.add_sub_assoc. unfold Range in *. rewrite (wf_bits _ _ _ H) in *. unfold normalizeIPForBits in *.
  destruct (wn_family _ _ _ H) as [-> | ->]; change (family_bytes 32) with 4%nat in *; change (family_bytes 128) with 16%nat in *.
  - rewrite (To4_4 (in_IP n)) in H1, H2 |- * by done. cbn [fst snd] in H1, H2. apply To4_again in H1, H2. by rewrite H1, H2.
  - change (128 =? 32) with false in *. change (128 =? 128) with true in *. rewrite Hp in H1, H2 |- * by done. rewrite (To16_16 (in_IP n)) in H1, H2 |- * by done. cbn [fst snd default from_option] in *.
    unfold id in *. f_equal. rewrite To16_16 in H2; [congruence|]. rewrite Hl, length_take. unfold pad_bytes.
    destruct (Nat.ltb_spec (length (big_bytes (be_value (in_IP n) + (2 ^ (128 - ones) - 1)))) 16); [rewrite length_app, length_replicate; lia|lia].
Qed.

Lemma either_plain bits ip : is_family bits -> plain bits ip -> either_form ip = Some ip.
Proof. intros Hf [Hl Hp]. unfold either_form. destruct Hf as [-> | ->]; [by rewrite To4_4|rewrite Hp by done; by apply To16_16]. Qed.

Lemma land_pow2_pred h : 0 <= h -> Z.land (2 ^ h) (2 ^ h - 1) = 0.
Proof.
  intros Hh. replace (2 ^ h - 1) with (Z.ones h) by (rewrite Z.ones_equiv; lia). rewrite Z.land_ones by done.
  apply Z.mod_same, Z.pow_nonzero; lia.
Qed.

(** C26. [FromRange] undoes [Range]: the first and the last address of a network give the
    network back, for every network whose first and last address are not mapped
    IPv4 addresses, except the whole IPv6 space. *)
Theorem range_roundtrip bits ones n : wf_net bits ones n -> plain bits (in_IP n) -> plain bits (Range n).2 ->
  (bits = 128 -> 1 <= ones) -> FromRange (Range n).1 (Range n).2 = Success n.
Proof.
  intros H Hp Hpl H1. pose proof (wn_family _ _ _ H) as Hf. pose proof (wn_ones _ _ _ H) as Ho. pose proof (wf_value _ _ _ H) as Hv.
  rewrite (Range_plain _ _ _ H Hp) in Hpl |- *. cbn [fst snd] in *. unfold FromRange. rewrite !(either_plain bits) by done.
  rewrite (proj1 Hp), (proj1 Hpl), Nat.eqb_refl. cbn [negb].
  pose proof (aligned_fits _ (bits - ones) bits ltac:(lia) Hv (wn_aligned _ _ _ H)) as Hfit.
  pose proof (Z.pow_pos_nonneg 2 (bits - ones) ltac:(lia) ltac:(lia)) as Hp2. unfold subnetEnd, subnetSize.
  rewrite value_be_bytes by (done || lia). rewrite (proj2 (Z.ltb_ge _ _)) by lia.
  replace (be_value (in_IP n) + 2 ^ (bits - ones) - 1 - be_value (in_IP n) + 1) with (2 ^ (bits - ones)) by lia.
  rewrite Z.log2_pow2, land_pow2_pred by lia. rewrite (proj2 (Z.eqb_neq _ 0)) by lia.
  rewrite (proj2 (Z.ltb_ge 128 _)) by (destruct Hf as [-> | ->]; lia). cbn [orb]. rewrite (Z.eqb_refl 0). cbn [negb].
  rewrite (family_zlen bits) by (done || apply Hp). replace (bits - (bits - ones)) with ones by lia.
  assert (Hmask : mask_bytes (in_IP n) (CIDRMask ones bits) = in_IP n).
  { unfold CIDRMask. fold (family_bytes bits). replace (family_bytes bits) with (length (in_IP n)) by apply Hp.
    apply mask_aligned; rewrite (family_zlen bits) by (done || apply Hp); apply H. }
  rewrite IP_Mask_same by (rewrite (proj1 Hp); symmetry; apply length_cidr). rewrite Hmask, bool_decide_true by done. cbn [negb].
  rewrite <- (wn_mask _ _ _ H). by destruct n.
Qed.

Lemma range_roundtrip_witness : FromRange (map byte_of_Z [10; 0; 0; 0]) (map byte_of_Z [10; 255; 255; 255]) = Success (net_10_0_0_0 8).
Proof.
  change (FromRange (Range (net_10_0_0_0 8)).1 (Range (net_10_0_0_0 8)).2 = Success (net_10_0_0_0 8)). apply (range_roundtrip 32 8).
  - split; [by left|lia|done|done|done].
  - split; [reflexivity|discriminate].
  - split; [reflexivity|discriminate].
  - discriminate.
Defined.

(** The exceptions are real: the whole IPv6 space has 2^128 addresses, which
    [FromRange] takes for an invalid size, and the last address of ::/80 is a mapped
    one, which it takes for an IPv4 address. *)
Definition ipv6_zero (prefix : Z) : IPNet := MkIPNet (replicate 16 (byte_of_Z 0)) (CIDRMask prefix 128).

Example range_whole_ipv6 : FromRange (Range (ipv6_zero 0)).1 (Range (ipv6_zero 0)).2 = Failure ErrRangeSize.
Proof. vm_compute. reflexivity. Qed.

Example range_ends_mapped : FromRange (Range (ipv6_zero 80)).1 (Range (ipv6_zero 80)).2 = Failure ErrFamilyMismatch.
Proof. vm_compute. reflexivity. Qed.
