(* ===== verification/CombinedAlloc.v ===== *)
(** * Combined allocator

    Models src/subnet/combined_alloc.go: subnets and addresses of an IPv4 and an
    IPv6 parent allocated from one state.  A subnet search starts at a random
    candidate and wraps around; reserved and banned addresses block it like
    one-address subnets; addresses come from pool subnets that the allocator takes
    from its own subnet state.

    The random generator is a parameter: [Int63n] and [Intn] of [math/rand].
    [randomBigInt] draws again while the number is too large, so it takes fuel
    and may give none; the other loops have enough fuel: a turn of the subnet
    search ends it, wraps it around (once), passes one more blocker or counts one
    more rejection, and a turn of a pool walk counts an attempt. *)

From stdpp Require Import gmap sorting.
From S2P Require Import Prelude NetIP IPNet Subnet SubnetAlloc IPAlloc.

(** ** State *)

Record combinedParent : Type := MkParent { cp_network : IPNet; cp_bits : Z; cp_start : Z; cp_end : Z }.

Record reservedIP : Type := MkReservedIP { ri_ip : list byte; ri_bits : Z; ri_value : Z; ri_count : Z }.

Record combinedPoolSubnet : Type := MkPool {
  po_network : IPNet; po_bits : Z; po_prefix : Z; po_first : list byte; po_last : list byte; po_next : list byte }.

Record CombinedAllocator (R : Type) : Type := MkCombined {
  ca_parents : gmap Z combinedParent;
  ca_reservedIPs : gmap subnetKey reservedIP;
  ca_reservedSubnets : gmap subnetKey reservedSubnet;
  ca_bannedIPs : gmap subnetKey reservedIP;
  ca_bannedSubnets : gmap subnetKey reservedSubnet;
  ca_poolSubnets : gmap Z (list combinedPoolSubnet);
  ca_poolPrefix4 : Z;
  ca_poolPrefix6 : Z;
  ca_rng : R;
  ca_ipFilter : option (list byte -> bool);
  ca_subnetFilter : option (IPNet -> bool) }.

Arguments MkCombined {R}.
Arguments ca_parents {R}.
Arguments ca_reservedIPs {R}.
Arguments ca_reservedSubnets {R}.
Arguments ca_bannedIPs {R}.
Arguments ca_bannedSubnets {R}.
Arguments ca_poolSubnets {R}.
Arguments ca_poolPrefix4 {R}.
Arguments ca_poolPrefix6 {R}.
Arguments ca_rng {R}.
Arguments ca_ipFilter {R}.
Arguments ca_subnetFilter {R}.

Section Combined.
Context {R : Type} (Int63n Intn : R -> Z -> Z * R).

Definition ca_with_ips (a : CombinedAllocator R) (m : gmap subnetKey reservedIP) : CombinedAllocator R :=
  MkCombined (ca_parents a) m (ca_reservedSubnets a) (ca_bannedIPs a) (ca_bannedSubnets a) (ca_poolSubnets a)
    (ca_poolPrefix4 a) (ca_poolPrefix6 a) (ca_rng a) (ca_ipFilter a) (ca_subnetFilter a).

Definition ca_with_subnets (a : CombinedAllocator R) (m : gmap subnetKey reservedSubnet) : CombinedAllocator R :=
  MkCombined (ca_parents a) (ca_reservedIPs a) m (ca_bannedIPs a) (ca_bannedSubnets a) (ca_poolSubnets a)
    (ca_poolPrefix4 a) (ca_poolPrefix6 a) (ca_rng a) (ca_ipFilter a) (ca_subnetFilter a).

Definition ca_with_pools (a : CombinedAllocator R) (m : gmap Z (list combinedPoolSubnet)) : CombinedAllocator R :=
  MkCombined (ca_parents a) (ca_reservedIPs a) (ca_reservedSubnets a) (ca_bannedIPs a) (ca_bannedSubnets a) m
    (ca_poolPrefix4 a) (ca_poolPrefix6 a) (ca_rng a) (ca_ipFilter a) (ca_subnetFilter a).

Definition ca_with_rng (a : CombinedAllocator R) (rng : R) : CombinedAllocator R :=
  MkCombined (ca_parents a) (ca_reservedIPs a) (ca_reservedSubnets a) (ca_bannedIPs a) (ca_bannedSubnets a) (ca_poolSubnets a)
    (ca_poolPrefix4 a) (ca_poolPrefix6 a) rng (ca_ipFilter a) (ca_subnetFilter a).

(** The pools of a family; a family without an entry has none. *)
Definition pools_of (a : CombinedAllocator R) (bits : Z) : list combinedPoolSubnet := default [] (ca_poolSubnets a !! bits).

(** ** Construction *)

Definition normalizeAnyIP (ip : list byte) : option reservedIP :=
  match normalizeIPForBits ip 32 with
  | Some normalized => Some (MkReservedIP normalized 32 (ipToInt normalized) 1)
  | None => match normalizeIPForBits ip 128 with
            | Some normalized => Some (MkReservedIP normalized 128 (ipToInt normalized) 1)
            | None => None
            end
  end.

Definition ipReservationKey (r : reservedIP) : subnetKey := subnetMapKey (ri_ip r) (ri_bits r) (ri_bits r).

Definition addParent (parents : gmap Z combinedParent) (network : option IPNet) (wantBits : Z) : gmap Z combinedParent :=
  match network with
  | None => parents
  | Some network =>
      match normalizeIPNet network with
      | None => parents
      | Some (ip, mask, bits) =>
          if negb (bits =? wantBits) then parents
          else
            let normalized := MkIPNet ip mask in
            let '(first, last) := Range normalized in
            <[bits := MkParent normalized bits (ipToInt (default [] (normalizeIPForBits first bits)))
                        (ipToInt (default [] (normalizeIPForBits last bits)))]> parents
      end
  end.

Definition ban_ip (m : gmap subnetKey reservedIP) (ip : list byte) : gmap subnetKey reservedIP :=
  match normalizeAnyIP ip with Some r => <[ipReservationKey r := r]> m | None => m end.

Definition ban_subnet (m : gmap subnetKey reservedSubnet) (subnet : option IPNet) : gmap subnetKey reservedSubnet :=
  match normalizeSubnet subnet with Some r => <[reserved_key r := r]> m | None => m end.

Definition NewCombinedAllocator (ipv4 ipv6 : option IPNet) (poolPrefix4 poolPrefix6 : Z) (ipFilter : option (list byte -> bool))
    (subnetFilter : option (IPNet -> bool)) (bannedIPs : list (list byte)) (bannedSubnets : list (option IPNet)) (rng : R) : CombinedAllocator R :=
  MkCombined (addParent (addParent ∅ ipv4 32) ipv6 128) ∅ ∅ (fold_left ban_ip bannedIPs ∅) (fold_left ban_subnet bannedSubnets ∅) ∅
    poolPrefix4 poolPrefix6 rng ipFilter subnetFilter.

(** ** Subnets *)

Definition reserveSubnetLocked (a : CombinedAllocator R) (subnet : option IPNet) : CombinedAllocator R :=
  ca_with_subnets a (table_reserve (ca_reservedSubnets a) subnet).

(** Whether the reservation is gone. *)
Definition freeReservedSubnetLocked (a : CombinedAllocator R) (normalized : reservedSubnet) : CombinedAllocator R * bool :=
  let key := reserved_key normalized in
  match ca_reservedSubnets a !! key with
  | None => (a, false)
  | Some reserved =>
      if 1 <? rs_count reserved
      then (ca_with_subnets a (<[key := with_count reserved (rs_count reserved - 1)]> (ca_reservedSubnets a)), false)
      else (ca_with_subnets a (delete key (ca_reservedSubnets a)), true)
  end.

(** The blocker of one address. *)
Definition ip_blocker (r : reservedIP) : reservedSubnet :=
  MkReserved (MkIPNet [] []) (ri_bits r) 0 (ri_value r) (ri_value r) 0.

Definition sortedSubnetBlockersLocked (a : CombinedAllocator R) (bits : Z) (parent : combinedParent) : list reservedSubnet :=
  merge_sort blocker_le
    (List.filter (in_window bits (cp_start parent) (cp_end parent))
       (map snd (map_to_list (ca_reservedSubnets a)) ++ map snd (map_to_list (ca_bannedSubnets a)) ++
        map ip_blocker (map snd (map_to_list (ca_reservedIPs a))) ++ map ip_blocker (map snd (map_to_list (ca_bannedIPs a))))).

(** Uniform bytes, drawn in order. *)
Fixpoint random_bytes (n : nat) (rng : R) : list byte * R :=
  match n with
  | O => ([], rng)
  | S n => let '(b, rng) := Intn rng 256 in let '(bs, rng) := random_bytes n rng in (byte_of_Z (b mod 256) :: bs, rng)
  end.

Fixpoint random_below (fuel : nat) (rng : R) (n : nat) (limit : Z) : option (Z * R) :=
  match fuel with
  | O => None
  | S fuel =>
      let '(bytes, rng) := random_bytes n rng in
      if be_value bytes <? limit then Some (be_value bytes, rng) else random_below fuel rng n limit
  end.

Definition randomBigInt (fuel : nat) (rng : R) (limit : Z) : option (Z * R) :=
  if limit <=? 0 then Some (0, rng)
  else if limit <? 2 ^ 63 then Some (Int63n rng limit)
  else random_below fuel rng (length (big_bytes limit)) limit.

(** The loop of [allocSubnetLocked]; absent when the fuel runs out. *)
Fixpoint around_loop (fuel : nat) (bits prefix : Z) (parent : combinedParent) (filter : option (IPNet -> bool))
    (blockers : list reservedSubnet) (firstCandidateStart candidateStart attempts : Z) (wrapped : bool) : option (option IPNet) :=
  match fuel with
  | O => None
  | S fuel =>
      let size := subnetSize bits prefix in
      let candidateEnd := subnetEnd candidateStart size in
      if cp_end parent <? candidateEnd then
        if wrapped then Some None
        else around_loop fuel bits prefix parent filter blockers firstCandidateStart (cp_start parent) attempts true
      else if wrapped && (firstCandidateStart <=? candidateStart) then Some None
      else match find_blocker blockers candidateStart candidateEnd with
           | Some blocker =>
               around_loop fuel bits prefix parent filter blockers firstCandidateStart (nextStart blocker candidateStart size) attempts wrapped
           | None =>
               let network := candidate_net bits prefix candidateStart in
               match filter with
               | None => Some (Some network)
               | Some accept =>
                   if negb (accept (CopyIPNet network)) then
                     if maxFilteredAllocationAttempts <=? attempts + 1 then Some None
                     else around_loop fuel bits prefix parent filter blockers firstCandidateStart (candidateStart + size) (attempts + 1) wrapped
                   else Some (Some network)
               end
           end
  end.

Definition around_fuel (blockers : list reservedSubnet) : nat :=
  S (S (length blockers + length blockers + Z.to_nat maxFilteredAllocationAttempts)).

(** Absent when the random generator gives no number in its fuel. *)
Definition allocSubnetLocked (fuel : nat) (a : CombinedAllocator R) (bits prefix : Z) : option (CombinedAllocator R * option IPNet) :=
  match ca_parents a !! bits with
  | None => Some (a, None)
  | Some parent =>
      if (prefix <? 0) || (bits <? prefix) then Some (a, None)
      else
        let '(parentPrefix, parentBits) := Mask_Size (in_Mask (cp_network parent)) in
        if negb (parentBits =? bits) || (prefix <? parentPrefix) then Some (a, None)
        else
          let size := subnetSize bits prefix in
          let subnetCount := (cp_end parent - cp_start parent + 1) / size in
          if subnetCount <=? 0 then Some (a, None)
          else match randomBigInt fuel (ca_rng a) subnetCount with
               | None => None
               | Some (k, rng) =>
                   let a := ca_with_rng a rng in
                   let first := cp_start parent + k * size in
                   let blockers := sortedSubnetBlockersLocked a bits parent in
                   match default None (around_loop (around_fuel blockers) bits prefix parent (ca_subnetFilter a) blockers first first 0 false) with
                   | None => Some (a, None)
                   | Some network => Some (reserveSubnetLocked a (Some network), Some (CopyIPNet network))
                   end
               end
  end.

(** [IP.Equal] *)
Definition IP_Equal (x y : list byte) : bool :=
  if (length x =? length y)%nat then bool_decide (x = y)
  else if (length x =? 4)%nat && (length y =? 16)%nat then bool_decide (take 12 y = v4InV6Prefix) && bool_decide (x = drop 12 y)
  else if (length x =? 16)%nat && (length y =? 4)%nat then bool_decide (take 12 x = v4InV6Prefix) && bool_decide (drop 12 x = y)
  else false.

Definition is_pool (normalized : reservedSubnet) (pool : combinedPoolSubnet) : bool :=
  (po_prefix pool =? rs_prefix normalized) && IP_Equal (in_IP (po_network pool)) (in_IP (rs_network normalized)).

(** Removes the first pool of the subnet. *)
Fixpoint remove_pool (normalized : reservedSubnet) (pools : list combinedPoolSubnet) : option (list combinedPoolSubnet) :=
  match pools with
  | [] => None
  | pool :: pools' => if is_pool normalized pool then Some pools' else cons pool <$> remove_pool normalized pools'
  end.

Definition removePoolSubnetLocked (a : CombinedAllocator R) (normalized : reservedSubnet) : CombinedAllocator R :=
  match remove_pool normalized (pools_of a (rs_bits normalized)) with
  | None => a
  | Some pools => ca_with_pools a (<[rs_bits normalized := pools]> (ca_poolSubnets a))
  end.

Definition combined_ReserveSubnet (a : CombinedAllocator R) (subnet : option IPNet) : CombinedAllocator R := reserveSubnetLocked a subnet.

Definition combined_FreeSubnet (a : CombinedAllocator R) (subnet : option IPNet) : CombinedAllocator R :=
  match normalizeSubnet subnet with
  | None => a
  | Some normalized =>
      let '(a, gone) := freeReservedSubnetLocked a normalized in
      if gone then removePoolSubnetLocked a normalized else a
  end.

Definition combined_FreeAllSubnets (a : CombinedAllocator R) : CombinedAllocator R := ca_with_pools (ca_with_subnets a ∅) ∅.

Definition combined_AllocSubnet4 (fuel : nat) (a : CombinedAllocator R) (prefix : Z) : option (CombinedAllocator R * option IPNet) :=
  allocSubnetLocked fuel a 32 prefix.

Definition combined_AllocSubnet6 (fuel : nat) (a : CombinedAllocator R) (prefix : Z) : option (CombinedAllocator R * option IPNet) :=
  allocSubnetLocked fuel a 128 prefix.

(** ** Addresses *)

Definition newCombinedPoolSubnet (network : IPNet) : option combinedPoolSubnet :=
  match normalizeIPNet network with
  | None => None
  | Some (ip, mask, bits) =>
      let normalized := MkIPNet ip mask in
      let '(first, last) := Range normalized in
      let first := default [] (normalizeIPForBits first bits) in
      Some (MkPool normalized bits (Mask_Size mask).1 first (default [] (normalizeIPForBits last bits)) (Next first))
  end.

Definition pool_usable (p : combinedPoolSubnet) (ip : list byte) : bool :=
  IPNet_Contains (po_network p) ip && isBeforeIP (po_first p) ip && isBeforeIP ip (po_last p).

Definition pool_with_next (p : combinedPoolSubnet) (next : list byte) : combinedPoolSubnet :=
  MkPool (po_network p) (po_bits p) (po_prefix p) (po_first p) (po_last p) next.

Definition tryAllocIPLocked (a : CombinedAllocator R) (candidate : list byte) (attempts : Z) :
    option (CombinedAllocator R * list byte * list byte) * Z :=
  match normalizeAnyIP candidate with
  | None => (None, attempts)
  | Some normalized =>
      if maxFilteredAllocationAttempts <=? attempts then (None, attempts)
      else
        let attempts := attempts + 1 in
        let key := ipReservationKey normalized in
        if bool_decide (is_Some (ca_reservedIPs a !! key)) || bool_decide (is_Some (ca_bannedIPs a !! key)) then (None, attempts)
        else
          let ok := match ca_ipFilter a with Some accept => accept (ri_ip normalized) | None => true end in
          if ok then (Some (ca_with_ips a (<[key := normalized]> (ca_reservedIPs a)), candidate, ri_ip normalized), attempts)
          else (None, attempts)
  end.

(** The new state, the pool with its next candidate and the address; or the
    attempts made so far. *)
Definition tryAllocFromPoolSubnetLocked (a : CombinedAllocator R) (pool : combinedPoolSubnet) (attempts : Z) :
    (CombinedAllocator R * combinedPoolSubnet * list byte) + Z :=
  if negb (isBeforeIP (po_first pool) (po_last pool)) then inr attempts
  else
    let start := if pool_usable pool (po_next pool) then po_next pool else Next (po_first pool) in
    match scan_around (pool_usable pool) (tryAllocIPLocked a) (S (Z.to_nat maxFilteredAllocationAttempts)) start (po_first pool) attempts with
    | Some (ScanFound (a, candidate, ip)) => inl (a, pool_with_next pool (Next candidate), ip)
    | Some (ScanEnd attempts) => inr attempts
    | Some ScanStop | None => inr maxFilteredAllocationAttempts
    end.

(** The loop over the pools from [i] on. *)
Fixpoint pool_loop (a : CombinedAllocator R) (bits : Z) (i : nat) (pools : list combinedPoolSubnet) (attempts : Z) :
    (CombinedAllocator R * list byte * IPNet) + Z :=
  match pools with
  | [] => inr attempts
  | pool :: pools' =>
      match tryAllocFromPoolSubnetLocked a pool attempts with
      | inl (a', pool', ip) =>
          inl (ca_with_pools a' (<[bits := <[i := pool']> (pools_of a' bits)]> (ca_poolSubnets a')), ip, CopyIPNet (po_network pool'))
      | inr attempts => if maxFilteredAllocationAttempts <=? attempts then inr attempts else pool_loop a bits (S i) pools' attempts
      end
  end.

Definition allocIPFromPoolLocked (a : CombinedAllocator R) (bits attempts : Z) : (CombinedAllocator R * list byte * IPNet) + Z :=
  pool_loop a bits 0 (pools_of a bits) attempts.

Definition allocIPLocked (fuel : nat) (a : CombinedAllocator R) (bits : Z) : option (CombinedAllocator R * option (list byte * IPNet)) :=
  match ca_parents a !! bits with
  | None => Some (a, None)
  | Some _ =>
      match allocIPFromPoolLocked a bits 0 with
      | inl (a, ip, subnet) => Some (a, Some (ip, subnet))
      | inr attempts =>
          if maxFilteredAllocationAttempts <=? attempts then Some (a, None)
          else
            let prefix := if bits =? 128 then ca_poolPrefix6 a else ca_poolPrefix4 a in
            match allocSubnetLocked fuel a bits prefix with
            | None => None
            | Some (a, None) => Some (a, None)
            | Some (a, Some network) =>
                match newCombinedPoolSubnet network with
                | None =>
                    match normalizeSubnet (Some network) with
                    | Some normalized => Some ((freeReservedSubnetLocked a normalized).1, None)
                    | None => Some (a, None)
                    end
                | Some pool =>
                    let a := ca_with_pools a (<[bits := pools_of a bits ++ [pool]]> (ca_poolSubnets a)) in
                    match tryAllocFromPoolSubnetLocked a pool attempts with
                    | inl (a, pool, ip) =>
                        Some (ca_with_pools a (<[bits := <[length (pools_of a bits) - 1 := pool]> (pools_of a bits)]> (ca_poolSubnets a))%nat,
                              Some (ip, CopyIPNet (po_network pool)))
                    | inr _ => Some (a, None)
                    end
                end
            end
      end
  end.

Definition reserveIPLocked (a : CombinedAllocator R) (ip : list byte) : CombinedAllocator R :=
  match normalizeAnyIP ip with
  | None => a
  | Some normalized =>
      let key := ipReservationKey normalized in
      match ca_reservedIPs a !! key with
      | Some e => ca_with_ips a (<[key := MkReservedIP (ri_ip e) (ri_bits e) (ri_value e) (ri_count e + 1)]> (ca_reservedIPs a))
      | None => ca_with_ips a (<[key := normalized]> (ca_reservedIPs a))
      end
  end.

Definition poolSubnetHasReservedIPLocked (a : CombinedAllocator R) (pool : combinedPoolSubnet) : bool :=
  existsb (fun r => (ri_bits r =? po_bits pool) && IPNet_Contains (po_network pool) (ri_ip r)) (map snd (map_to_list (ca_reservedIPs a))).

(** The positions of the pools without a reserved address. *)
Definition empty_pools (a : CombinedAllocator R) (pools : list combinedPoolSubnet) : list nat :=
  List.filter (fun i => match pools !! i with Some pool => negb (poolSubnetHasReservedIPLocked a pool) | None => false end) (seq 0 (length pools)).

Definition drop_pool (st : CombinedAllocator R * list combinedPoolSubnet) (index : nat) : CombinedAllocator R * list combinedPoolSubnet :=
  let '(a, pools) := st in
  let a := match pools !! index with
           | Some pool => match normalizeSubnet (Some (po_network pool)) with
                          | Some normalized => (freeReservedSubnetLocked a normalized).1
                          | None => a
                          end
           | None => a
           end in
  (a, take index pools ++ drop (S index) pools).

Definition pruneEmptyPoolSubnetsLocked (a : CombinedAllocator R) (bits : Z) : CombinedAllocator R :=
  let pools := pools_of a bits in
  let empty := empty_pools a pools in
  if (length empty <=? 1)%nat then a
  else
    let '(a, pools) := fold_left drop_pool (rev (tail empty)) (a, pools) in
    ca_with_pools a (<[bits := pools]> (ca_poolSubnets a)).

Definition combined_ReserveIP (a : CombinedAllocator R) (ip : list byte) : CombinedAllocator R := reserveIPLocked a ip.

Definition combined_FreeIP (a : CombinedAllocator R) (ip : list byte) : CombinedAllocator R :=
  match normalizeAnyIP ip with
  | None => a
  | Some normalized =>
      let key := ipReservationKey normalized in
      let a := match ca_reservedIPs a !! key with
               | Some e => if 1 <? ri_count e
                           then ca_with_ips a (<[key := MkReservedIP (ri_ip e) (ri_bits e) (ri_value e) (ri_count e - 1)]> (ca_reservedIPs a))
                           else ca_with_ips a (delete key (ca_reservedIPs a))
               | None => a
               end in
      pruneEmptyPoolSubnetsLocked a (ri_bits normalized)
  end.

Definition combined_FreeAllIP (a : CombinedAllocator R) : CombinedAllocator R :=
  pruneEmptyPoolSubnetsLocked (pruneEmptyPoolSubnetsLocked (ca_with_ips a ∅) 32) 128.

Definition combined_AllocIP4 (fuel : nat) (a : CombinedAllocator R) : option (CombinedAllocator R * option (list byte * IPNet)) := allocIPLocked fuel a 32.

Definition combined_AllocIP6 (fuel : nat) (a : CombinedAllocator R) : option (CombinedAllocator R * option (list byte * IPNet)) := allocIPLocked fuel a 128.

(** ** The default allocator, src/subnet/default_alloc.go *)

(** [MustCIDR] of a dotted address. *)
Definition cidr4 (a b c d prefix : Z) : IPNet := MkIPNet (map byte_of_Z [a; b; c; d]) (CIDRMask prefix 32).

Definition defaultAllocatorIPv4Parent : IPNet := cidr4 10 0 0 0 8.

(** CIDRCommon10LANs, CIDRPodmanDefault, CIDROpenVPNBroad, CIDRK3s,
    CIDRKubeAdmServices, CIDRKindFlannelPods and CIDRKindIPv6Services. *)
Definition defaultAllocatorBannedSubnets : list (option IPNet) :=
  map Some [cidr4 10 0 0 0 15; cidr4 10 88 0 0 16; cidr4 10 8 0 0 16; cidr4 10 42 0 0 15; cidr4 10 96 0 0 12; cidr4 10 244 0 0 16;
            MkIPNet (map byte_of_Z [253; 0; 0; 16; 0; 150; 0; 0; 0; 0; 0; 0; 0; 0; 0; 0]) (CIDRMask 112 128)].

Definition randomULA48 (rng : R) : IPNet * R :=
  let '(bytes, rng) := random_bytes 5 rng in
  (MkIPNet (byte_of_Z 253 :: bytes ++ replicate 10 (byte_of_Z 0)) (CIDRMask 48 128), rng).

Definition NewDefaultAllocator (ipFilter : option (list byte -> bool)) (subnetFilter : option (IPNet -> bool)) (bannedIPs : list (list byte))
    (bannedSubnets : list (option IPNet)) (rng : R) : CombinedAllocator R :=
  let '(ula, rng) := randomULA48 rng in
  NewCombinedAllocator (Some defaultAllocatorIPv4Parent) (Some ula) 24 64 ipFilter subnetFilter bannedIPs
    (defaultAllocatorBannedSubnets ++ bannedSubnets) rng.
End Combined.
