(* ===== verification/CombinedSpec.v ===== *)
(** * What the combined allocator promises

    [CombinedAllocator] of src/subnet/combined_alloc.go never gives out an address
    twice: the live subnets, the live addresses and the subnets of its pools do not
    overlap, stay inside the parents and avoid everything banned, for every
    sequence of operations and every random generator. *)

From stdpp Require Import gmap sorting.
From S2P Require Import Prelude NetIP IPNet Subnet SubnetAlloc SubnetSpec IPAlloc IPSpec CombinedAlloc.

(** ** The search

    The loop of [allocSubnetLocked] of src/subnet/combined_alloc.go ends within its
    fuel with the first available candidate on the way from the random start to the
    end of the parent and around again. *)

(** Decides arithmetic that depends on whether the search has wrapped around. *)
Ltac case_wrapped := match goal with b : bool |- _ => destruct b; cbv beta iota in *; lia end.

Section Around.
Context (bits prefix : Z) (parent : combinedParent) (filter : option (IPNet -> bool)) (bs : list reservedSubnet) (first : Z).
Context (Hprefix : prefix <= bits) (Hsorted : StronglySorted blocker_le bs).

Let size : Z := subnetSize bits prefix.

Context (Hstart : cp_start parent mod size = 0) (Hfirst : first mod size = 0) (Hle : cp_start parent <= first).

Let Hsize : 0 < size := subnetSize_pos bits prefix Hprefix.

(** The candidates that the search has still to look at. *)
Definition remaining (wrapped : bool) (cs s : Z) : Prop :=
  s mod size = 0 /\ subnetEnd s size <= cp_end parent /\
  (if wrapped then cs <= s < first else cs <= s \/ cp_start parent <= s < first).

(** [s'] comes before [s] on the way from [first] around. *)
Definition around_before (s' s : Z) : Prop := first <= s' < s \/ (s < first /\ (first <= s' \/ s' < s)).

Definition around_result (rem : Z -> Prop) (attempts : Z) (r : option IPNet) : Prop :=
  match r with
  | Some n => exists s, n = candidate_net bits prefix s /\ rem s /\ ~ unavailable bits prefix filter bs s /\
                (forall s', rem s' -> around_before s' s -> unavailable bits prefix filter bs s')
  | None => (forall s, rem s -> unavailable bits prefix filter bs s) \/
            exists l, NoDup l /\ zlen l = maxFilteredAllocationAttempts - attempts /\
                      Forall (fun s => rem s /\ free_rejected bits prefix filter bs s) l
  end.

Lemma around_narrow (rem rem' : Z -> Prop) attempts r : (forall s, rem' s -> rem s) ->
  (forall s, rem s -> unavailable bits prefix filter bs s \/ rem' s) ->
  around_result rem' attempts r -> around_result rem attempts r.
Proof.
  intros Hsub Hcase. destruct r as [n|]; cbn [around_result].
  - intros (s & Hn & Hr & Hf & Hl). exists s. split_and!; auto. intros s' Hs' Hb. destruct (Hcase s' Hs'); auto.
  - intros [Hall|(l & Hnd & Hlen & Hl)]; [left|right].
    + intros s Hs. destruct (Hcase s Hs); auto.
    + exists l. split_and!; [done|done|]. eapply Forall_impl; [exact Hl|]. intros s [? ?]. auto.
Qed.

Lemma around_reject (rem rem' : Z -> Prop) attempts cs r : rem cs -> ~ rem' cs -> free_rejected bits prefix filter bs cs ->
  (forall s, rem' s -> rem s) -> (forall s, rem s -> s = cs \/ rem' s) ->
  around_result rem' (attempts + 1) r -> around_result rem attempts r.
Proof.
  intros Hcs Hncs Hfr Hsub Hcase. assert (Hun : unavailable bits prefix filter bs cs) by (right; apply Hfr).
  destruct r as [n|].
  - intros Hr. apply (around_narrow rem rem' attempts); [done| |exact Hr]. intros s Hs. destruct (Hcase s Hs) as [-> |]; auto.
  - intros [Hall|(l & Hnd & Hlen & Hl)]; [left|right].
    + intros s Hs. destruct (Hcase s Hs) as [-> |]; auto.
    + exists (cs :: l). rewrite Forall_forall in Hl. split_and!.
      * apply NoDup_cons. split; [|done]. intros Hin. by destruct (Hl cs Hin).
      * rewrite zlen_cons. lia.
      * apply Forall_cons. split; [done|]. apply Forall_forall. intros s Hs. destruct (Hl s Hs). auto.
Qed.

Definition turns (wrapped : bool) : nat := if wrapped then 0%nat else S (length bs).

Lemma around_loop_spec fuel cs attempts (wrapped : bool) : cs mod size = 0 -> 0 <= attempts < maxFilteredAllocationAttempts ->
  (if wrapped then cp_start parent <= cs else first <= cs) ->
  (turns wrapped + ahead rs_end bs cs + Z.to_nat (maxFilteredAllocationAttempts - attempts) < fuel)%nat ->
  exists r, around_loop fuel bits prefix parent filter bs first cs attempts wrapped = Some r /\ around_result (remaining wrapped cs) attempts r.
Proof.
  revert cs attempts wrapped. induction fuel as [|fuel IH]; intros cs attempts wrapped Ha Hat Hlo Hfuel; [lia|]. cbn [around_loop]. fold size.
  destruct (Z.ltb_spec (cp_end parent) (subnetEnd cs size)) as [Hend|Hend].
  { destruct wrapped.
    - exists None. split; [done|]. left. unfold remaining, subnetEnd in *. intros s (? & ? & ?). exfalso. lia.
    - destruct (IH (cp_start parent) attempts true Hstart Hat ltac:(cbv iota; lia)) as (r & Hr & Hres).
      { pose proof (ahead_length rs_end bs (cp_start parent)). unfold turns in *. cbv iota in *. lia. }
      exists r. split; [done|]. revert Hres. apply around_narrow; intros s; unfold remaining, subnetEnd in *; cbv iota in *; [intuition lia|].
      intros (? & ? & Hs). right. split_and!; [done|done|lia|lia]. }
  destruct (wrapped && (first <=? cs)) eqn:Ew.
  { apply andb_true_iff in Ew as [-> Hfc%Z.leb_le]. exists None. split; [done|]. left. unfold remaining. intros s (_ & _ & ?). exfalso. lia. }
  assert (Hrem : remaining wrapped cs cs).
  { unfold remaining. split_and!; [done|done|]. destruct wrapped; [|by left; lia]. apply Z.leb_gt in Ew. lia. }
  destruct (find_blocker bs cs (subnetEnd cs size)) as [b|] eqn:Eb.
  - destruct (find_blocker_some _ _ _ _ Eb) as [Hin [_ Hov]]. destruct (nextStart_spec b cs size Hsize Hov Ha) as (Hgt & Hal & _).
    destruct (IH (nextStart b cs size) attempts wrapped Hal Hat) as (r & Hr & Hres).
    { case_wrapped. }
    { pose proof (ahead_lt rs_end bs cs (nextStart b cs size) b Hin ltac:(lia)). lia. }
    exists r. split; [done|]. revert Hres. apply around_narrow; intros s (H1 & H2 & H3).
    + split_and!; [done|done|]. case_wrapped.
    + destruct (Z.le_gt_cases (nextStart b cs size) s) as [Hge|Hlt]; [right; split_and!; [done|done|]; case_wrapped|].
      destruct (Z.le_gt_cases cs s) as [Hcs|Hcs]; [left; left; by apply (skip_covered bs cs size b)|].
      right. split_and!; [done|done|]. case_wrapped.
  - pose proof (find_blocker_none _ _ _ Hsorted Eb) as Hfree.
    assert (Hnc : ~ covered bs size cs) by (intros (b & Hb & Ho); by apply (Hfree b)).
    assert (Hfound : ~ rejected filter (candidate_net bits prefix cs) -> around_result (remaining wrapped cs) attempts (Some (candidate_net bits prefix cs))).
    { intros Hrej. exists cs. split_and!; [done|done|by intros [|]|]. intros s' (_ & _ & H3) Hb.
      exfalso. unfold around_before in Hb. destruct wrapped; [apply Z.leb_gt in Ew; lia|lia]. }
    change (CopyIPNet ?n) with n. destruct filter as [accept|] eqn:Ef; [destruct (accept (candidate_net bits prefix cs)) eqn:Eacc|].
    + eexists. split; [reflexivity|]. apply Hfound. intros (f & Hf1 & Hf2). congruence.
    + cbn [negb]. assert (Hfr : free_rejected bits prefix filter bs cs) by (split; [done|]; exists accept; by rewrite Ef).
      destruct (Z.leb_spec maxFilteredAllocationAttempts (attempts + 1)) as [Hmax|Hmax].
      * exists None. split; [done|]. right. exists [cs]. split_and!; [apply NoDup_singleton|change (zlen [cs]) with 1; lia|by apply Forall_singleton].
      * destruct (IH (cs + size) (attempts + 1) wrapped) as (r & Hr & Hres); [by apply aligned_next|lia|case_wrapped| |].
        { pose proof (ahead_le rs_end bs cs (cs + size) ltac:(lia)). lia. }
        exists r. split; [done|]. apply (around_reject _ (remaining wrapped (cs + size)) attempts cs); try done.
        -- unfold remaining. intros (_ & _ & H3). case_wrapped.
        -- intros s (H1 & H2 & H3). split_and!; [done|done|]. case_wrapped.
        -- intros s (H1 & H2 & H3). destruct (Z.eq_dec s cs) as [|Hne]; [by left|right]. split_and!; [done|done|].
           pose proof (aligned_gap size Hsize cs s Ha H1). case_wrapped.
    + eexists. split; [reflexivity|]. apply Hfound. intros (f & Hf1 & Hf2). congruence.
Qed.

Lemma around_loop_enough : exists r, around_loop (around_fuel bs) bits prefix parent filter bs first first 0 false = Some r /\
  around_result (remaining false first) 0 r.
Proof.
  apply around_loop_spec; [done|unfold maxFilteredAllocationAttempts; lia|lia|]. pose proof (ahead_length rs_end bs first).
  unfold turns, around_fuel, maxFilteredAllocationAttempts. lia.
Qed.
End Around.

(** ** The contract *)

(** ** Pairwise disjoint keys *)

Notation disjoint_list := (ForallOrdPairs keys_disjoint).

Lemma pairs_app {A} (R : A -> A -> Prop) l k :
  ForallOrdPairs R (l ++ k) <-> ForallOrdPairs R l /\ ForallOrdPairs R k /\ (forall x y, x ∈ l -> y ∈ k -> R x y).
Proof.
  induction l as [|z l IH]; cbn [app].
  - split; [intros H; split_and!; [constructor|done|]|tauto]. intros x y Hx. by apply not_elem_of_nil in Hx.
  - split.
    + intros H. inversion H as [|? ? Hz Hl]; subst. apply IH in Hl as (H1 & H2 & H3). rewrite Forall_forall in Hz. split_and!.
      * constructor; [|done]. apply Forall_forall. intros x Hx. apply Hz, elem_of_app. by left.
      * done.
      * intros x y [-> |Hx]%elem_of_cons Hy; [apply Hz, elem_of_app; by right|by apply H3].
    + intros (H1 & H2 & H3). inversion H1 as [|? ? Hz Hl]; subst. constructor.
      * apply Forall_forall. rewrite Forall_forall in Hz. intros x [Hx|Hx]%elem_of_app; [by apply Hz|]. apply H3; [left|done].
      * apply IH. split_and!; [done|done|]. intros x y Hx Hy. apply H3; [by right|done].
Qed.

Lemma pairs_sublist {A} (R : A -> A -> Prop) l k : sublist l k -> ForallOrdPairs R k -> ForallOrdPairs R l.
Proof.
  induction 1 as [|x l k Hs IH|x l k Hs IH]; intros Hk; [constructor| |]; inversion Hk as [|? ? Hx Hl]; subst; [|by apply IH].
  constructor; [|by apply IH]. apply Forall_forall. rewrite Forall_forall in Hx. intros y Hy. apply Hx. by eapply elem_of_sublist.
Qed.

(** A part of a key is disjoint from what the key is disjoint from. *)
Lemma keys_disjoint_part k k' x : keys_disjoint k x -> key_bits k' = key_bits k ->
  key_first k <= key_first k' -> key_last k' <= key_last k -> keys_disjoint k' x.
Proof. unfold keys_disjoint. intros [|[|]] Hb H1 H2; [left; congruence|lia..]. Qed.

(** ** The invariant *)

Record ip_res_ok (r : reservedIP) : Prop := {
  ir_family : is_family (ri_bits r);
  ir_length : length (ri_ip r) = family_bytes (ri_bits r);
  ir_value : ri_value r = be_value (ri_ip r) }.

Definition ips_ok (m : gmap subnetKey reservedIP) : Prop := map_Forall (fun k r => ip_res_ok r /\ k = ipReservationKey r) m.

Lemma normalizeAnyIP_ok ip r : normalizeAnyIP ip = Some r -> ip_res_ok r.
Proof.
  unfold normalizeAnyIP. destruct (normalizeIPForBits ip 32) as [x|] eqn:E4.
  - intros [= <-]. apply normalizeIPForBits_length in E4 as [Hf Hl]. done.
  - destruct (normalizeIPForBits ip 128) as [x|] eqn:E6; [|done]. intros [= <-]. apply normalizeIPForBits_length in E6 as [Hf Hl]. done.
Qed.

Lemma ip_key_range r : key_bits (ipReservationKey r) = ri_bits r /\ key_first (ipReservationKey r) = be_value (ri_ip r) /\
  key_last (ipReservationKey r) = be_value (ri_ip r).
Proof.
  unfold key_last, subnetEnd, subnetSize, key_bits, key_first, ipReservationKey, subnetMapKey. cbn [fst snd]. rewrite Z.sub_diag. change (2 ^ 0) with 1. split_and!; [done|done|lia].
Qed.

Lemma ip_keys_disjoint r r' : ip_res_ok r -> ip_res_ok r' -> ipReservationKey r <> ipReservationKey r' ->
  keys_disjoint (ipReservationKey r) (ipReservationKey r').
Proof.
  intros Hr Hr' Hne. destruct (ip_key_range r) as (Hb & Hf & Hl). destruct (ip_key_range r') as (Hb' & Hf' & Hl').
  unfold keys_disjoint. rewrite Hb, Hf, Hl, Hb', Hf', Hl'. destruct (decide (ri_bits r = ri_bits r')) as [Heq|]; [right|by left].
  destruct (Z.lt_trichotomy (be_value (ri_ip r)) (be_value (ri_ip r'))) as [|[He|]]; [by left| |by right]. exfalso. apply Hne.
  assert (Hip : ri_ip r = ri_ip r') by (apply be_value_inj; [rewrite (ir_length r Hr), (ir_length r' Hr'); by rewrite Heq|done]).
  unfold ipReservationKey. by rewrite Hip, Heq.
Qed.

Definition pool_key (p : combinedPoolSubnet) : subnetKey := net_key (po_bits p) (po_prefix p) (po_network p).

(** The form of the candidates of a pool: four bytes when the pool is IPv4 or mapped. *)
Definition pool_shape (p : combinedPoolSubnet) (c : list byte) : Prop :=
  (plain (po_bits p) (in_IP (po_network p)) -> length c = family_bytes (po_bits p)) /\
  (~ plain (po_bits p) (in_IP (po_network p)) -> length c = 4%nat).

Record pool_ok (p : combinedPoolSubnet) : Prop := {
  pk_wf : wf_net (po_bits p) (po_prefix p) (po_network p);
  pk_first : po_first p = in_IP (po_network p);
  pk_last : po_last p = be_bytes (family_bytes (po_bits p)) (key_last (pool_key p));
  pk_next : pool_shape p (po_next p) }.

Section Spec.
Context {R : Type} (Int63n Intn : R -> Z -> Z * R).
Context (Hrand : forall r n, 0 < n -> 0 <= (Int63n r n).1 < n).

Definition all_pools (a : CombinedAllocator R) : list combinedPoolSubnet := pools_of a 32 ++ pools_of a 128.

Definition parent_ok (bits : Z) (p : combinedParent) : Prop :=
  exists ones, wf_net bits ones (cp_network p) /\ cp_start p = be_value (in_IP (cp_network p)) /\
    cp_end p = subnetEnd (cp_start p) (subnetSize bits ones).

Record combined_ok (a : CombinedAllocator R) : Prop := {
  co_parents : map_Forall parent_ok (ca_parents a);
  co_subnets : table_ok (ca_reservedSubnets a);
  co_banned : table_ok (ca_bannedSubnets a);
  co_ips : ips_ok (ca_reservedIPs a);
  co_bannedIPs : ips_ok (ca_bannedIPs a);
  co_pools : forall bits p, p ∈ pools_of a bits -> pool_ok p /\ po_bits p = bits }.

(** Inside the parent and clear of the bans. *)
Definition allowed (a : CombinedAllocator R) (k : subnetKey) : Prop :=
  (exists p, ca_parents a !! key_bits k = Some p /\ cp_start p <= key_first k /\ key_last k <= cp_end p) /\
  (forall b, b ∈ dom (ca_bannedSubnets a) \/ b ∈ dom (ca_bannedIPs a) -> keys_disjoint b k).

(** What the live subnets [S] and addresses [I] have in common with the state. *)
Record live_state (a : CombinedAllocator R) (S I : list subnetKey) : Prop := {
  ls_disjoint : disjoint_list (S ++ map pool_key (all_pools a));
  ls_reserved : forall k, k ∈ S ++ map pool_key (all_pools a) -> k ∈ dom (ca_reservedSubnets a) /\ allowed a k;
  ls_ips : disjoint_list I;
  ls_ips_reserved : forall k, k ∈ I -> k ∈ dom (ca_reservedIPs a) /\ allowed a k;
  ls_cross : forall s i, s ∈ S -> i ∈ I -> keys_disjoint s i }.

(** ** Subnet allocation *)

Lemma random_bytes_length n r : length (random_bytes Intn n r).1 = n.
Proof. revert r. induction n as [|n IH]; intros r; [done|]. cbn [random_bytes]. destruct (Intn r 256) as [b r1]. specialize (IH r1). destruct (random_bytes Intn n r1). cbn in *. lia. Qed.

Lemma randomBigInt_nonneg fuel r limit k r' : randomBigInt Int63n Intn fuel r limit = Some (k, r') -> 0 <= k.
Proof.
  unfold randomBigInt. destruct (Z.leb_spec limit 0); [intros [= <- <-]; lia|]. destruct (Z.ltb_spec limit (2 ^ 63)).
  - intros [= He]. pose proof (Hrand r limit ltac:(lia)) as Hr. rewrite He in Hr. cbn in Hr. lia.
  - generalize (length (big_bytes limit)). intros n. revert r. induction fuel as [|fuel IH]; intros r; [done|]. cbn [random_below].
    destruct (random_bytes Intn n r) as [bytes r1]. destruct (be_value bytes <? limit); [|apply IH]. intros [= <- <-].
    pose proof (be_value_range bytes). lia.
Qed.

Lemma parent_numbers bits prefix p ones : parent_ok bits p -> Mask_Size (in_Mask (cp_network p)) = (ones, bits) -> ones <= prefix <= bits ->
  is_family bits /\ 0 <= prefix /\ 0 <= cp_start p /\ cp_end p < 2 ^ bits /\ cp_start p mod subnetSize bits prefix = 0.
Proof.
  intros (o & Hwf & Hs & He) Ho Hp. rewrite (wf_bits _ _ _ Hwf) in Ho. injection Ho as ->.
  pose (a := MkSubnetAllocator (Some (cp_network p)) bits (cp_start p) (cp_end p) ∅ None).
  assert (Hok : alloc_ok a) by (split; [by exists ones|apply map_Forall_empty]).
  destruct (parent_window a Hok (cp_network p) ones prefix eq_refl (wf_bits _ _ _ Hwf) Hp) as (H1 & H2 & H3 & H4 & H5).
  split_and!; try done. lia.
Qed.

Lemma elem_of_values {A} (m : gmap subnetKey A) x : x ∈ map snd (map_to_list m) <-> exists k, m !! k = Some x.
Proof.
  rewrite list_elem_of_fmap. split.
  - intros ([k y] & -> & Hin). exists k. by apply elem_of_map_to_list.
  - intros [k Hk]. exists (k, x). split; [done|]. by apply elem_of_map_to_list.
Qed.

(** The blockers are the reservations and bans that touch the parent. *)
Lemma elem_of_combined_blockers (a : CombinedAllocator R) bits p b : b ∈ sortedSubnetBlockersLocked a bits p <->
  ((exists k, ca_reservedSubnets a !! k = Some b) \/ (exists k, ca_bannedSubnets a !! k = Some b) \/
   (exists k r, ca_reservedIPs a !! k = Some r /\ b = ip_blocker r) \/ (exists k r, ca_bannedIPs a !! k = Some r /\ b = ip_blocker r)) /\
  rs_bits b = bits /\ overlaps b (cp_start p) (cp_end p).
Proof.
  unfold sortedSubnetBlockersLocked. rewrite merge_sort_Permutation, list_elem_of_In, filter_In, <- list_elem_of_In. unfold in_window, overlaps.
  rewrite andb_true_iff, negb_true_iff, orb_false_iff, Z.eqb_eq, !Z.ltb_ge, !elem_of_app, !elem_of_values.
  assert (Hip : forall m : gmap subnetKey reservedIP, b ∈ map ip_blocker (map snd (map_to_list m)) <-> exists k r, m !! k = Some r /\ b = ip_blocker r).
  { intros m. rewrite list_elem_of_fmap. setoid_rewrite elem_of_values. naive_solver. }
  rewrite !Hip. intuition lia.
Qed.

(** The keys that a subnet search avoids. *)
Definition taken_keys (a : CombinedAllocator R) (k : subnetKey) : Prop :=
  k ∈ dom (ca_reservedSubnets a) \/ k ∈ dom (ca_bannedSubnets a) \/ k ∈ dom (ca_reservedIPs a) \/ k ∈ dom (ca_bannedIPs a).

(** Each of them has a blocker with its numbers. *)
Lemma key_blocker a bits p k : combined_ok a -> taken_keys a k -> key_bits k = bits -> key_first k <= cp_end p -> cp_start p <= key_last k ->
  exists b, b ∈ sortedSubnetBlockersLocked a bits p /\ rs_start b = key_first k /\ rs_end b = key_last k.
Proof.
  intros Hok Hk Hb H1 H2.
  assert (Hsub : forall m r, table_ok m -> m !! k = Some r -> rs_bits r = bits /\ rs_start r = key_first k /\ rs_end r = key_last k).
  { intros m r Hm Hr. destruct (Hm _ _ Hr) as [Hro Hkr]. destruct (reserved_key_range r Hro) as (Hb' & Hf & Hl). rewrite <- Hkr in Hb', Hf, Hl.
    rewrite <- Hb', <- Hf, <- Hl. done. }
  assert (Hip : forall m r, ips_ok m -> m !! k = Some r -> ri_bits r = bits /\ ri_value r = key_first k /\ ri_value r = key_last k).
  { intros m r Hm Hr. destruct (Hm _ _ Hr) as [Hro Hkr]. destruct (ip_key_range r) as (Hb' & Hf & Hl). rewrite <- Hkr in Hb', Hf, Hl.
    rewrite <- Hb', Hf, Hl, (ir_value r Hro). done. }
  destruct Hk as [Hk|[Hk|[Hk|Hk]]]; apply elem_of_dom in Hk as [r Hr].
  - destruct (Hsub _ _ (co_subnets a Hok) Hr) as (? & ? & ?). exists r. rewrite elem_of_combined_blockers. unfold overlaps.
    split_and!; [left; eauto|done|lia|lia|done|done].
  - destruct (Hsub _ _ (co_banned a Hok) Hr) as (? & ? & ?). exists r. rewrite elem_of_combined_blockers. unfold overlaps.
    split_and!; [right; left; eauto|done|lia|lia|done|done].
  - destruct (Hip _ _ (co_ips a Hok) Hr) as (? & ? & ?). exists (ip_blocker r). rewrite elem_of_combined_blockers. unfold overlaps.
    split_and!; [right; right; left; eauto|done|cbn; lia|cbn; lia|done|done].
  - destruct (Hip _ _ (co_bannedIPs a Hok) Hr) as (? & ? & ?). exists (ip_blocker r). rewrite elem_of_combined_blockers. unfold overlaps.
    split_and!; [right; right; right; eauto|done|cbn; lia|cbn; lia|done|done].
Qed.

(** The outcome of a subnet allocation. *)
Definition subnet_outcome (a a' : CombinedAllocator R) (bits prefix : Z) (r : option IPNet) : Prop :=
  match r with
  | None => exists rng, a' = ca_with_rng a rng
  | Some n => (exists rng, a' = reserveSubnetLocked (ca_with_rng a rng) (Some n)) /\ wf_net bits prefix n /\
      (exists p, ca_parents a !! bits = Some p /\ cp_start p <= key_first (net_key bits prefix n) /\ key_last (net_key bits prefix n) <= cp_end p) /\
      (forall k, taken_keys a k -> keys_disjoint k (net_key bits prefix n))
  end.

Lemma ca_with_rng_same (a : CombinedAllocator R) : ca_with_rng a (ca_rng a) = a.
Proof. by destruct a. Qed.

Lemma allocSubnet_outcome fuel a bits prefix a' r : combined_ok a ->
  allocSubnetLocked Int63n Intn fuel a bits prefix = Some (a', r) -> subnet_outcome a a' bits prefix r.
Proof.
  intros Hok. unfold allocSubnetLocked. assert (Hsame : subnet_outcome a a bits prefix None) by (exists (ca_rng a); by rewrite ca_with_rng_same).
  destruct (ca_parents a !! bits) as [p|] eqn:Ep; [|by intros [= <- <-]].
  destruct (Z.ltb_spec prefix 0), (Z.ltb_spec bits prefix); cbn [orb]; try by intros [= <- <-].
  destruct (Mask_Size (in_Mask (cp_network p))) as [ones pb] eqn:Em. destruct (Z.eqb_spec pb bits) as [-> |]; cbn [negb orb]; [|by intros [= <- <-]].
  destruct (Z.ltb_spec prefix ones); [by intros [= <- <-]|]. destruct (_ <=? 0); [by intros [= <- <-]|].
  destruct (randomBigInt _ _ _ _ _) as [[k rng]|] eqn:Er; [|done]. apply randomBigInt_nonneg in Er.
  destruct (parent_numbers bits prefix p ones (co_parents a Hok _ _ Ep) Em ltac:(lia)) as (Hf & Hp0 & Hs0 & He & Ha).
  set (size := subnetSize bits prefix) in *. pose proof (subnetSize_pos bits prefix ltac:(lia)) as Hz. fold size in Hz.
  set (a1 := ca_with_rng a rng) in *. set (bs := sortedSubnetBlockersLocked a1 bits p) in *. set (first := cp_start p + k * size) in *.
  assert (Hfa : first mod size = 0) by (unfold first; rewrite Z.add_mod, Ha, Z.mod_mul by lia; done).
  destruct (around_loop_enough bits prefix p (ca_subnetFilter a1) bs first ltac:(lia)
              (StronglySorted_merge_sort blocker_le _) Ha Hfa ltac:(unfold first; nia)) as (o & Ho & Hr). rewrite Ho. cbn [default from_option].
  change (id o) with o. destruct o as [n|]; [|intros [= <- <-]; by exists rng]. intros [= <- <-]. destruct n as [ip mask].
  change (CopyIPNet (MkIPNet ip mask)) with (MkIPNet ip mask). set (n := MkIPNet ip mask) in *.
  destruct Hr as (s & Hn & (Hal & Hend & Hlo) & Hfree & _). fold size in Hal, Hend. cbv iota in Hlo.
  destruct (wf_candidate bits prefix s Hf ltac:(lia) ltac:(unfold first in *; nia) Hal ltac:(fold size; lia)) as [Hwf Hv].
  rewrite <- Hn in Hwf, Hv.
  assert (Hkf : key_first (net_key bits prefix n) = s) by done.
  assert (Hkl : key_last (net_key bits prefix n) = subnetEnd s size) by (unfold key_last; rewrite Hkf; done).
  split_and!; [by exists rng|done|exists p; split_and!; [done|rewrite Hkf; unfold first in *; nia|by rewrite Hkl]|].
  intros x Hx. unfold keys_disjoint. rewrite Hkf, Hkl. destruct (decide (key_bits x = bits)) as [Hb|]; [right|by left].
  destruct (Z.le_gt_cases (key_first x) (subnetEnd s size)) as [G1|G1]; [|lia]. destruct (Z.le_gt_cases s (key_last x)) as [G2|G2]; [|lia].
  exfalso. apply Hfree. left. destruct (key_blocker a bits p x Hok Hx Hb ltac:(lia) ltac:(unfold first in *; nia)) as (b & Hb' & Hbs & Hbe).
  exists b. split; [exact Hb'|]. unfold overlaps. rewrite Hbs, Hbe. fold size. lia.
Qed.
End Spec.
