(* ===== verification/CombinedLive.v ===== *)
(** * The operations of the combined allocator on its live subnets and addresses

    Every operation of src/subnet/combined_alloc.go keeps the invariant
    [combined_ok] and the relation [live_state] between the state and what has been
    given out. *)

From stdpp Require Import gmap sorting.
From S2P Require Import Prelude NetIP IPNet Subnet SubnetAlloc SubnetSpec IPAlloc IPSpec CombinedAlloc CombinedSpec.

Section Live.
Context {R : Type}.

Implicit Types a : CombinedAllocator R.

(** ** Keys *)

Lemma table_key_self (m : gmap subnetKey reservedSubnet) k : table_ok m -> k ∈ dom m -> ~ keys_disjoint k k.
Proof.
  intros Hm [r Hr]%elem_of_dom. destruct (Hm _ _ Hr) as [Hro ->]. apply keys_disjoint_irrefl, Hro.
Qed.

Lemma disjoint_NoDup l : disjoint_list l -> (forall k, k ∈ l -> ~ keys_disjoint k k) -> NoDup l.
Proof.
  induction 1 as [|k l Hk Hl IH]; intros Hself; [constructor|]. apply NoDup_cons. rewrite Forall_forall in Hk. split.
  - intros Hin. apply (Hself k); [left|]. by apply Hk.
  - apply IH. intros x Hx. apply Hself. by right.
Qed.

Lemma live_NoDup a S I : combined_ok a -> live_state a S I -> NoDup (S ++ map pool_key (all_pools a)).
Proof.
  intros Hok Hls. apply disjoint_NoDup; [apply Hls|]. intros k Hk. apply (table_key_self (ca_reservedSubnets a)); [apply Hok|].
  by apply (ls_reserved _ _ _ Hls).
Qed.

Lemma dom_counts m : dom (counts m) = dom m.
Proof. apply leibniz_equiv, dom_fmap. Qed.

Lemma dom_table_reserve m n k : k ∈ dom m -> k ∈ dom (table_reserve m n).
Proof. rewrite <- (dom_counts m), <- (dom_counts (table_reserve m n)), counts_reserve. apply dom_count_add. Qed.

Lemma dom_table_reserved m bits prefix n : wf_net bits prefix n -> net_key bits prefix n ∈ dom (table_reserve m (Some n)).
Proof.
  intros Hwf. rewrite <- dom_counts, counts_reserve, (key_of_wf _ _ _ Hwf). cbn [count_add]. apply elem_of_dom.
  rewrite lookup_partial_alter_eq. by eexists.
Qed.

(** ** Smaller states *)

(** The parents and the bans do not change. *)
Definition same_policy a a' : Prop :=
  ca_parents a' = ca_parents a /\ ca_bannedSubnets a' = ca_bannedSubnets a /\ ca_bannedIPs a' = ca_bannedIPs a.

Lemma allowed_same a a' k : same_policy a a' -> allowed a k -> allowed a' k.
Proof. intros (H1 & H2 & H3). unfold allowed. by rewrite H1, H2, H3. Qed.

(** What is live may shrink, as long as the rest stays reserved. *)
Lemma live_shrink a a' S S' I I' : live_state a S I -> same_policy a a' ->
  sublist (S' ++ map pool_key (all_pools a')) (S ++ map pool_key (all_pools a)) -> sublist S' S ->
  (forall k, k ∈ S' ++ map pool_key (all_pools a') -> k ∈ dom (ca_reservedSubnets a')) ->
  sublist I' I -> (forall k, k ∈ I' -> k ∈ dom (ca_reservedIPs a')) -> live_state a' S' I'.
Proof.
  intros Hls Hp Hsub HS Hdom HI Hips. split.
  - eapply pairs_sublist; [exact Hsub|apply Hls].
  - intros k Hk. split; [by apply Hdom|]. eapply allowed_same; [exact Hp|]. apply (ls_reserved _ _ _ Hls). by eapply elem_of_sublist.
  - eapply pairs_sublist; [exact HI|apply Hls].
  - intros k Hk. split; [by apply Hips|]. eapply allowed_same; [exact Hp|]. apply (ls_ips_reserved _ _ _ Hls). by eapply elem_of_sublist.
  - intros s i Hs Hi. apply (ls_cross _ _ _ Hls); by eapply elem_of_sublist.
Qed.

(** Reservations may grow. *)
Lemma live_grow a a' S I : live_state a S I -> same_policy a a' -> ca_poolSubnets a' = ca_poolSubnets a ->
  (forall k, k ∈ dom (ca_reservedSubnets a) -> k ∈ dom (ca_reservedSubnets a')) ->
  (forall k, k ∈ dom (ca_reservedIPs a) -> k ∈ dom (ca_reservedIPs a')) -> live_state a' S I.
Proof.
  intros Hls Hp Hpools Hd Hi. assert (Hall : all_pools a' = all_pools a) by (unfold all_pools, pools_of; by rewrite Hpools).
  apply (live_shrink a a' S S I I Hls Hp); rewrite ?Hall; try done.
  - intros k Hk. apply Hd. by apply (ls_reserved _ _ _ Hls).
  - intros k Hk. apply Hi. by apply (ls_ips_reserved _ _ _ Hls).
Qed.

Lemma reserve_ok a n : combined_ok a -> combined_ok (reserveSubnetLocked a n).
Proof. intros Hok. split; try apply Hok. cbn. apply table_reserve_ok, Hok. Qed.

Lemma reserveSubnet_live a n S I : live_state a S I -> live_state (reserveSubnetLocked a n) S I.
Proof. intros Hls. eapply live_grow; [exact Hls|done|done| |done]. apply dom_table_reserve. Qed.

Lemma reserveIP_ok a ip : combined_ok a -> combined_ok (reserveIPLocked a ip).
Proof.
  intros Hok. unfold reserveIPLocked. destruct (normalizeAnyIP ip) as [r|] eqn:Er; [|done]. apply normalizeAnyIP_ok in Er.
  destruct (ca_reservedIPs a !! ipReservationKey r) as [e|] eqn:Ee; split; try apply Hok; (apply map_Forall_insert_2; [|apply Hok]); [|done].
  destruct (co_ips a Hok _ _ Ee) as [He Hk]. split; [|done]. destruct He. by split.
Qed.

Lemma reserveIP_live a ip S I : live_state a S I -> live_state (reserveIPLocked a ip) S I.
Proof.
  intros Hls. unfold reserveIPLocked. destruct (normalizeAnyIP ip) as [r|]; [|done].
  destruct (ca_reservedIPs a !! ipReservationKey r); (eapply live_grow; [exact Hls|done|done|done|]); cbn; intros k Hk; rewrite dom_insert; set_solver.
Qed.

(** ** Freeing *)

Definition with_subnets_of a a' : Prop := exists m, a' = ca_with_subnets a m.

Lemma freeReserved_spec a r a' gone : combined_ok a -> freeReservedSubnetLocked a r = (a', gone) ->
  combined_ok a' /\ with_subnets_of a a' /\
  (forall k, k ∈ dom (ca_reservedSubnets a) -> gone = false \/ k <> reserved_key r -> k ∈ dom (ca_reservedSubnets a')).
Proof.
  intros Hok. unfold freeReservedSubnetLocked. destruct (ca_reservedSubnets a !! reserved_key r) as [e|] eqn:Ee.
  2: { intros [= <- <-]. split_and!; [done|exists (ca_reservedSubnets a); by destruct a|done]. }
  destruct (co_subnets a Hok _ _ Ee) as [He Hk]. destruct (Z.ltb_spec 1 (rs_count e)); intros [= <- <-].
  - split_and!; [|by eexists|intros k Hin _; cbn; rewrite dom_insert; set_solver]. split; try apply Hok. cbn.
    apply map_Forall_insert_2; [|apply Hok]. split; [|done]. destruct He. split; cbn; [done..|lia].
  - split_and!; [|by eexists|]. { split; try apply Hok. cbn. apply map_Forall_delete, Hok. }
    intros k Hin [|Hne]; [done|]. cbn. rewrite dom_delete. set_solver.
Qed.

Lemma is_pool_key r p : reserved_ok r -> pool_ok p -> po_bits p = rs_bits r -> is_pool r p = true <-> pool_key p = reserved_key r.
Proof.
  intros Hr Hp Hb. unfold is_pool, IP_Equal, pool_key, net_key, reserved_key, subnetMapKey.
  rewrite (wn_length _ _ _ (ro_wf r Hr)), (wn_length _ _ _ (pk_wf p Hp)), Hb, Nat.eqb_refl, andb_true_iff, Z.eqb_eq, bool_decide_eq_true.
  split; [intros [-> ->]; done|intros [= -> ->]; done].
Qed.

Lemma remove_pool_spec r pools : NoDup (map pool_key pools) -> reserved_ok r ->
  (forall p, p ∈ pools -> pool_ok p /\ po_bits p = rs_bits r) ->
  let pools' := default pools (remove_pool r pools) in
  sublist pools' pools /\ forall p, p ∈ pools' -> pool_key p <> reserved_key r.
Proof.
  intros Hnd Hr Hok. induction pools as [|p pools IH]; cbn [remove_pool map] in *.
  { split; [done|]. intros p Hp. by apply not_elem_of_nil in Hp. }
  apply NoDup_cons in Hnd as [Hnp Hnd]. destruct (Hok p ltac:(left)) as [Hp Hb].
  destruct (is_pool r p) eqn:Ei; cbn [default from_option].
  - apply is_pool_key in Ei; try done. split; [by apply sublist_cons|]. intros q Hq Hk. apply Hnp. rewrite Ei, <- Hk.
    apply list_elem_of_fmap. eauto.
  - assert (Hne : pool_key p <> reserved_key r) by (rewrite <- is_pool_key by done; congruence).
    destruct IH as [Hs Hn]; [done|intros q Hq; apply Hok; by right|].
    destruct (remove_pool r pools) as [ps|] eqn:Er; cbn in *; (split; [by apply sublist_skip|]);
      intros q [-> |Hq]%elem_of_cons; auto.
Qed.

Lemma pools_of_insert a bits ps b : pools_of (ca_with_pools a (<[bits := ps]> (ca_poolSubnets a))) b = if decide (b = bits) then ps else pools_of a b.
Proof.
  unfold pools_of. cbn. destruct (decide (b = bits)) as [-> |]; [by rewrite lookup_insert_eq|by rewrite lookup_insert_ne].
Qed.

(** Replacing the pools of a family by some of them. *)
Lemma sublist_pools a bits ps : sublist ps (pools_of a bits) ->
  sublist (all_pools (ca_with_pools a (<[bits := ps]> (ca_poolSubnets a)))) (all_pools a).
Proof.
  intros Hs. unfold all_pools. rewrite !pools_of_insert. apply sublist_app; by case_decide; subst.
Qed.

Lemma with_pools_ok a bits ps : combined_ok a -> sublist ps (pools_of a bits) ->
  combined_ok (ca_with_pools a (<[bits := ps]> (ca_poolSubnets a))).
Proof.
  intros Hok Hs. split; try apply Hok. intros b p. rewrite pools_of_insert. case_decide; subst; intros Hp; apply Hok; [|done].
  by eapply elem_of_sublist.
Qed.

Lemma with_subnets_same a a' : with_subnets_of a a' -> same_policy a a' /\ ca_poolSubnets a' = ca_poolSubnets a /\ ca_reservedIPs a' = ca_reservedIPs a.
Proof. by intros [m ->]. Qed.

Lemma pool_bits_key a bits p : combined_ok a -> p ∈ pools_of a bits -> key_bits (pool_key p) = bits.
Proof. intros Hok Hp. by destruct (co_pools a Hok _ _ Hp) as [_ <-]. Qed.

Lemma NoDup_pools a S I bits : combined_ok a -> live_state a S I -> is_family bits -> NoDup (map pool_key (pools_of a bits)).
Proof.
  intros Hok Hls Hf. pose proof (live_NoDup a S I Hok Hls) as Hnd. apply NoDup_app in Hnd as (_ & _ & Hnd).
  unfold all_pools in Hnd. rewrite map_app in Hnd. apply NoDup_app in Hnd as (H1 & _ & H2). by destruct Hf as [-> | ->].
Qed.

Definition live_free (n : option IPNet) (S : list subnetKey) : list subnetKey := base.filter (fun k => Some k <> key_of n) S.

Lemma freeSubnet_spec a n S I : combined_ok a -> live_state a S I ->
  combined_ok (combined_FreeSubnet a n) /\ live_state (combined_FreeSubnet a n) (live_free n S) I.
Proof.
  intros Hok Hls. unfold combined_FreeSubnet, live_free, key_of. pose proof (sublist_filter (fun k => Some k <> reserved_key <$> normalizeSubnet n) S) as Hfil.
  set (S' := base.filter _ S) in *. destruct (normalizeSubnet n) as [r|] eqn:En.
  2: { split; [done|]. apply (live_shrink a a S S' I I Hls); try done.
    - by apply sublist_app.
    - intros k Hk. apply (ls_reserved _ _ _ Hls). eapply elem_of_sublist; [exact Hk|]. by apply sublist_app.
    - intros k Hk. by apply (ls_ips_reserved _ _ _ Hls). }
  destruct (normalizeSubnet_ok _ _ En) as [Hr _]. destruct (freeReservedSubnetLocked a r) as [a1 gone] eqn:Ef.
  destruct (freeReserved_spec a r a1 gone Hok Ef) as (Hok1 & Hw & Hdom). destruct (with_subnets_same a a1 Hw) as (Hp & Hpools & Hips).
  assert (HpA : forall b, pools_of a1 b = pools_of a b) by (intros b; unfold pools_of; by rewrite Hpools).
  assert (HI : forall k, k ∈ I -> k ∈ dom (ca_reservedIPs a1)) by (intros k Hk; rewrite Hips; by apply (ls_ips_reserved _ _ _ Hls)).
  destruct gone.
  2: { split; [done|]. assert (Hall : all_pools a1 = all_pools a) by (unfold all_pools; by rewrite !HpA).
    apply (live_shrink a a1 S S' I I Hls); rewrite ?Hall; try done; [by apply sublist_app|]. intros k Hk. apply Hdom; [|by left].
    apply (ls_reserved _ _ _ Hls). eapply elem_of_sublist; [exact Hk|]. by apply sublist_app. }
  set (bits := rs_bits r). set (ps := default (pools_of a1 bits) (remove_pool r (pools_of a1 bits))).
  destruct (remove_pool_spec r (pools_of a1 bits)) as [Hsub Hne]; [rewrite HpA; apply (NoDup_pools a S I); try done; apply Hr|done|intros p Hin; apply Hok1; done|].
  fold ps in Hsub, Hne. set (a2 := removePoolSubnetLocked a1 r).
  assert (H2 : combined_ok a2 /\ same_policy a a2 /\ ca_reservedIPs a2 = ca_reservedIPs a1 /\ ca_reservedSubnets a2 = ca_reservedSubnets a1 /\
    forall b, pools_of a2 b = if decide (b = bits) then ps else pools_of a b).
  { assert (Hps : ps = default (pools_of a1 bits) (remove_pool r (pools_of a1 bits))) by done. unfold a2, removePoolSubnetLocked. fold bits.
    destruct (remove_pool r (pools_of a1 bits)) as [q|]; cbn [default from_option] in Hps; unfold id in Hps.
    - rewrite <- Hps. split_and!; try apply Hp; try done; [by apply with_pools_ok|]. intros b. rewrite pools_of_insert. by case_decide; rewrite ?HpA.
    - split_and!; try apply Hp; try done. intros b. rewrite Hps. case_decide as Hb; [by rewrite Hb|apply HpA]. }
  destruct H2 as (Hok2 & Hp2 & Hi2 & Hs2 & HpB). split; [done|].
  assert (Hall : sublist (all_pools a2) (all_pools a)).
  { unfold all_pools. rewrite !HpB. rewrite HpA in Hsub. apply sublist_app; (case_decide as Hb; [by rewrite Hb|done]). }
  assert (Hlist : sublist (S' ++ map pool_key (all_pools a2)) (S ++ map pool_key (all_pools a))) by (apply sublist_app; [done|by apply fmap_sublist]).
  apply (live_shrink a a2 S S' I I Hls); try done; [|intros k Hk; rewrite Hi2; by apply HI].
  intros k Hk. rewrite Hs2. apply Hdom; [apply (ls_reserved _ _ _ Hls); by eapply elem_of_sublist|right].
  apply elem_of_app in Hk as [Hk|Hk]; [apply list_elem_of_filter in Hk as [Hk _]; intros ->; by apply Hk|].
  apply list_elem_of_fmap in Hk as (p & -> & Hin). unfold all_pools in Hin. rewrite !HpB in Hin.
  destruct (decide (po_bits p = bits)) as [Hb|Hb].
  - apply Hne. apply elem_of_app in Hin as [Hin|Hin]; case_decide; try done; exfalso; apply Hok in Hin as [_ Hin]; congruence.
  - intros Hk. apply Hb. apply (f_equal (fun k : subnetKey => k.1.1)) in Hk. exact Hk.
Qed.

Lemma freeAllSubnets_spec a S I : combined_ok a -> live_state a S I ->
  combined_ok (combined_FreeAllSubnets a) /\ live_state (combined_FreeAllSubnets a) [] I.
Proof.
  intros Hok Hls. assert (Hnone : forall b, pools_of (combined_FreeAllSubnets a) b = []) by done. split.
  - split; try apply Hok; [apply map_Forall_empty|]. intros b p Hp. rewrite Hnone in Hp. by apply not_elem_of_nil in Hp.
  - apply (live_shrink a _ S [] I I Hls); try done; [apply sublist_nil_l|apply sublist_nil_l| |].
    + intros k Hk. by apply not_elem_of_nil in Hk.
    + intros k Hk. by apply (ls_ips_reserved _ _ _ Hls).
Qed.

(** ** Pruning *)

Lemma with_subnets_trans a b c : with_subnets_of a b -> with_subnets_of b c -> with_subnets_of a c.
Proof. intros [m ->] [m' ->]. by exists m'. Qed.

(** One pool is dropped and its reservation given back; the other keys stay. *)
Lemma drop_pool_spec a pools i a' pools' : combined_ok a -> NoDup (map pool_key pools) ->
  (forall p, p ∈ pools -> pool_ok p) -> drop_pool (a, pools) i = (a', pools') ->
  combined_ok a' /\ with_subnets_of a a' /\ sublist pools' pools /\
  (forall k, k ∈ dom (ca_reservedSubnets a) -> k ∉ map pool_key pools \/ k ∈ map pool_key pools' -> k ∈ dom (ca_reservedSubnets a')).
Proof.
  intros Hok Hnd Hp. unfold drop_pool. destruct (pools !! i) as [p|] eqn:Ei.
  2: { intros [= <- <-]. split_and!; [done|exists (ca_reservedSubnets a); by destruct a| |done].
    apply lookup_ge_None in Ei. rewrite take_ge, (drop_ge _ (S i)), app_nil_r by lia. done. }
  pose proof (Hp p ltac:(by eapply list_elem_of_lookup_2)) as Hpok. rewrite (normalizeSubnet_wf _ _ _ (pk_wf p Hpok)).
  destruct (freeReservedSubnetLocked a _) as [a1 gone] eqn:Ef. destruct (freeReserved_spec _ _ _ _ Hok Ef) as (Hok1 & Hw & Hdom).
  intros [= <- <-]. assert (Hsplit : pools = take i pools ++ p :: drop (S i) pools) by (symmetry; by apply take_drop_middle).
  split_and!; [done|done| |].
  - rewrite Hsplit at 3. apply sublist_app; [done|by apply sublist_cons].
  - intros k Hk Hcase. apply Hdom; [done|right]. change (reserved_key (reservation _ _ _)) with (pool_key p). intros ->.
    destruct Hcase as [Hn|Hin]; [apply Hn, list_elem_of_fmap; exists p; split; [done|by eapply list_elem_of_lookup_2]|].
    rewrite Hsplit, map_app in Hnd. apply NoDup_app in Hnd as (_ & Hx & Hy). cbn [map] in Hx, Hy. apply NoDup_cons in Hy as [Hy _].
    rewrite map_app in Hin. apply elem_of_app in Hin as [Hin|Hin]; [|done]. apply (Hx _ Hin). left.
Qed.

Lemma drop_fold_spec idxs a pools a' pools' : combined_ok a -> NoDup (map pool_key pools) ->
  (forall p, p ∈ pools -> pool_ok p) -> fold_left drop_pool idxs (a, pools) = (a', pools') ->
  combined_ok a' /\ with_subnets_of a a' /\ sublist pools' pools /\
  (forall k, k ∈ dom (ca_reservedSubnets a) -> k ∉ map pool_key pools \/ k ∈ map pool_key pools' -> k ∈ dom (ca_reservedSubnets a')).
Proof.
  revert a pools. induction idxs as [|i idxs IH]; intros a pools Hok Hnd Hp.
  { intros [= <- <-]. split_and!; [done|exists (ca_reservedSubnets a); by destruct a|done|done]. }
  cbn [fold_left]. destruct (drop_pool (a, pools) i) as [a1 pools1] eqn:Ed.
  destruct (drop_pool_spec _ _ _ _ _ Hok Hnd Hp Ed) as (Hok1 & Hw1 & Hs1 & Hd1). intros Hf.
  assert (Hkeys : sublist (map pool_key pools1) (map pool_key pools)) by by apply fmap_sublist.
  destruct (IH a1 pools1) as (Hok2 & Hw2 & Hs2 & Hd2); [done|by eapply sublist_NoDup|intros p Hin; apply Hp; by eapply elem_of_sublist|done|].
  assert (Hkeys2 : sublist (map pool_key pools') (map pool_key pools1)) by by apply fmap_sublist.
  split_and!; [done|by eapply with_subnets_trans|by etrans|]. intros k Hk Hcase. apply Hd2; [apply Hd1; [done|]|].
  - destruct Hcase as [|Hin]; [by left|right]. by eapply elem_of_sublist.
  - destruct Hcase as [Hn|]; [left|by right]. intros Hin. apply Hn. by eapply elem_of_sublist.
Qed.

Lemma prune_spec a bits S I : is_family bits -> combined_ok a -> live_state a S I ->
  combined_ok (pruneEmptyPoolSubnetsLocked a bits) /\ live_state (pruneEmptyPoolSubnetsLocked a bits) S I /\
  ca_reservedIPs (pruneEmptyPoolSubnetsLocked a bits) = ca_reservedIPs a.
Proof.
  intros Hf Hok Hls. unfold pruneEmptyPoolSubnetsLocked. destruct (_ <=? 1)%nat; [done|].
  destruct (fold_left drop_pool _ _) as [a1 ps] eqn:Ef.
  destruct (drop_fold_spec _ a (pools_of a bits) a1 ps Hok (NoDup_pools a S I bits Hok Hls Hf) ltac:(intros p Hp; by apply Hok in Hp as [? _]) Ef)
    as (Hok1 & Hw & Hs & Hdom). destruct (with_subnets_same a a1 Hw) as (Hp & Hpools & Hips).
  assert (HpA : forall b, pools_of a1 b = pools_of a b) by (intros b; unfold pools_of; by rewrite Hpools).
  split_and!; [by apply with_pools_ok; rewrite ?HpA| |done]. set (a2 := ca_with_pools a1 _).
  assert (HpB : forall b, pools_of a2 b = if decide (b = bits) then ps else pools_of a b).
  { intros b. unfold a2. rewrite pools_of_insert. by case_decide; rewrite ?HpA. }
  assert (Hall : sublist (all_pools a2) (all_pools a)).
  { unfold all_pools. rewrite !HpB. apply sublist_app; (case_decide as Hb; [by rewrite Hb|done]). }
  assert (Hlist : sublist (S ++ map pool_key (all_pools a2)) (S ++ map pool_key (all_pools a))) by (apply sublist_app; [done|by apply fmap_sublist]).
  apply (live_shrink a a2 S S I I Hls); try done; [|intros k Hk; change (k ∈ dom (ca_reservedIPs a1)); rewrite Hips; by apply (ls_ips_reserved _ _ _ Hls)].
  intros k Hk. change (k ∈ dom (ca_reservedSubnets a1)). pose proof (live_NoDup a S I Hok Hls) as Hnd. apply NoDup_app in Hnd as (_ & Hx & _).
  apply Hdom; [apply (ls_reserved _ _ _ Hls); by eapply elem_of_sublist|]. apply elem_of_app in Hk as [Hk|Hk].
  - left. intros Hin. apply (Hx _ Hk). unfold all_pools. rewrite map_app. apply elem_of_app. destruct Hf as [-> | ->]; auto.
  - apply list_elem_of_fmap in Hk as (p & -> & Hin). destruct (decide (po_bits p = bits)) as [Hb|Hb].
    + right. apply list_elem_of_fmap. exists p. split; [done|]. unfold all_pools in Hin. rewrite !HpB in Hin.
      apply elem_of_app in Hin as [Hin|Hin]; case_decide; try done; exfalso; apply Hok in Hin as [_ Hin]; congruence.
    + left. intros (q & Hq & Hin2)%list_elem_of_fmap. apply Hb. apply Hok in Hin2 as [_ <-].
      apply (f_equal (fun k : subnetKey => k.1.1)) in Hq. exact Hq.
Qed.

(** The key of an address. *)
Definition ip_key_of (ip : list byte) : option subnetKey := ipReservationKey <$> normalizeAnyIP ip.

Definition live_free_ip (ip : list byte) (I : list subnetKey) : list subnetKey := base.filter (fun k => Some k <> ip_key_of ip) I.

Lemma with_ips_ok a m : combined_ok a -> ips_ok m -> combined_ok (ca_with_ips a m).
Proof. intros Hok Hm. split; try apply Hok. done. Qed.

Lemma live_ips_shrink a m S I I' : live_state a S I -> sublist I' I -> (forall k, k ∈ I' -> k ∈ dom m) -> live_state (ca_with_ips a m) S I'.
Proof. intros Hls HI Hm. apply (live_shrink a _ S S I I' Hls); try done. intros k Hk. by apply (ls_reserved _ _ _ Hls). Qed.

Lemma freeIP_spec a ip S I : combined_ok a -> live_state a S I ->
  combined_ok (combined_FreeIP a ip) /\ live_state (combined_FreeIP a ip) S (live_free_ip ip I).
Proof.
  intros Hok Hls. unfold combined_FreeIP, live_free_ip, ip_key_of. pose proof (sublist_filter (fun k => Some k <> ipReservationKey <$> normalizeAnyIP ip) I) as Hfil.
  set (I' := base.filter _ I) in *. destruct (normalizeAnyIP ip) as [r|] eqn:Er.
  2: { split; [done|]. apply (live_shrink a a S S I I' Hls); try done; [intros k Hk; by apply (ls_reserved _ _ _ Hls)|].
    intros k Hk. apply (ls_ips_reserved _ _ _ Hls). by eapply elem_of_sublist. }
  pose proof (normalizeAnyIP_ok _ _ Er) as Hr. assert (HI : forall k, k ∈ I' -> k ∈ dom (ca_reservedIPs a) /\ k <> ipReservationKey r).
  { intros k Hk. split; [apply (ls_ips_reserved _ _ _ Hls); by eapply elem_of_sublist|]. apply list_elem_of_filter in Hk as [Hk _]. intros ->. by apply Hk. }
  set (a1 := match ca_reservedIPs a !! _ with Some _ => _ | None => _ end).
  assert (H1 : combined_ok a1 /\ live_state a1 S I').
  { unfold a1. destruct (ca_reservedIPs a !! ipReservationKey r) as [e|] eqn:Ee; [destruct (1 <? ri_count e)|].
    - split; [apply with_ips_ok; [done|]; apply map_Forall_insert_2; [|apply Hok]; destruct (co_ips a Hok _ _ Ee) as [He Hk]; split; [by destruct He|done]|].
      apply (live_ips_shrink a _ S I I'); try done. intros k Hk. rewrite dom_insert. destruct (HI k Hk). set_solver.
    - split; [apply with_ips_ok; [done|]; apply map_Forall_delete, Hok|].
      apply (live_ips_shrink a _ S I I'); try done. intros k Hk. rewrite dom_delete. destruct (HI k Hk). set_solver.
    - split; [done|]. apply (live_shrink a a S S I I' Hls); try done; [intros k Hk; by apply (ls_reserved _ _ _ Hls)|]. intros k Hk. by apply HI. }
  destruct H1 as [Hok1 Hls1]. destruct (prune_spec a1 (ri_bits r) S I' (ir_family r Hr) Hok1 Hls1) as (? & ? & _). done.
Qed.

Lemma freeAllIP_spec a S I : combined_ok a -> live_state a S I ->
  combined_ok (combined_FreeAllIP a) /\ live_state (combined_FreeAllIP a) S [].
Proof.
  intros Hok Hls. unfold combined_FreeAllIP.
  assert (Hok1 : combined_ok (ca_with_ips a ∅)) by (apply with_ips_ok; [done|apply map_Forall_empty]).
  assert (Hls1 : live_state (ca_with_ips a ∅) S []) by (eapply live_ips_shrink; [exact Hls|apply sublist_nil_l|intros k Hk; by apply not_elem_of_nil in Hk]).
  destruct (prune_spec _ 32 S [] ltac:(by left) Hok1 Hls1) as (Hok2 & Hls2 & _).
  by destruct (prune_spec _ 128 S [] ltac:(by right) Hok2 Hls2) as (? & ? & _).
Qed.

(** ** Subnet allocation *)

Lemma with_rng_ok a rng : combined_ok a -> combined_ok (ca_with_rng a rng).
Proof. intros Hok. split; apply Hok. Qed.

Lemma with_rng_live a rng S I : live_state a S I -> live_state (ca_with_rng a rng) S I.
Proof. intros Hls. eapply live_grow; [exact Hls|done..]. Qed.

(** An allocated subnet is allowed, reserved and apart from all that is live. *)
Lemma outcome_fresh a a' bits prefix n S I : combined_ok a -> live_state a S I -> subnet_outcome a a' bits prefix (Some n) ->
  let k := net_key bits prefix n in
  combined_ok a' /\ live_state a' S I /\ k ∈ dom (ca_reservedSubnets a') /\ allowed a' k /\ ca_poolSubnets a' = ca_poolSubnets a /\
  (forall x, x ∈ S ++ map pool_key (all_pools a') \/ x ∈ I -> keys_disjoint k x).
Proof.
  intros Hok Hls ((rng & ->) & Hwf & Hin & Hd). cbv zeta. split_and!.
  - apply reserve_ok. by apply with_rng_ok.
  - apply reserveSubnet_live. by apply with_rng_live.
  - cbn. by apply dom_table_reserved.
  - destruct Hin as (p & Hp & H1 & H2). split; [by exists p|]. intros b [Hb|Hb]; apply Hd; unfold taken_keys; auto.
  - done.
  - intros x [Hx|Hx]; apply keys_disjoint_sym, Hd; unfold taken_keys.
    + left. by apply (ls_reserved _ _ _ Hls).
    + right. right. left. by apply (ls_ips_reserved _ _ _ Hls).
Qed.

End Live.

Section Allocate.
Context {R : Type} (Int63n Intn : R -> Z -> Z * R).
Context (Hrand : forall r n, 0 < n -> 0 <= (Int63n r n).1 < n).

Implicit Types a : CombinedAllocator R.

Lemma allocSubnet_live fuel a bits prefix a' r S I : combined_ok a -> live_state a S I ->
  allocSubnetLocked Int63n Intn fuel a bits prefix = Some (a', r) ->
  combined_ok a' /\ live_state a' (match r with Some n => net_key bits prefix n :: S | None => S end) I.
Proof.
  intros Hok Hls Ha. pose proof (allocSubnet_outcome Int63n Intn Hrand _ _ _ _ _ _ Hok Ha) as Ho. destruct r as [n|].
  2: { destruct Ho as [rng ->]. split; [by apply with_rng_ok|by apply with_rng_live]. }
  destruct (outcome_fresh _ _ _ _ _ S I Hok Hls Ho) as (Hok' & Hls' & Hk & Hal & _ & Hd). split; [done|]. split.
  - constructor; [|apply Hls']. apply Forall_forall. intros x Hx. apply Hd. by left.
  - intros x [-> |Hx]%elem_of_cons; [done|by apply (ls_reserved _ _ _ Hls')].
  - apply Hls'.
  - apply Hls'.
  - intros s i [-> |Hs]%elem_of_cons Hi; [apply Hd; by right|by apply (ls_cross _ _ _ Hls')].
Qed.
End Allocate.
