(* ===== verification/CombinedIPs.v ===== *)
(** * Addresses and histories of the combined allocator

    Address allocation from the pools of src/subnet/combined_alloc.go, and the
    theorem over all histories of the allocator. *)

From stdpp Require Import gmap sorting.
From S2P Require Import Prelude NetIP IPNet Subnet SubnetAlloc SubnetSpec IPAlloc IPSpec CombinedAlloc CombinedSpec CombinedLive.

(** ** Walking a pool *)

(** A pool seen as an address allocator. *)
Definition pool_allocator (p : combinedPoolSubnet) : ipAllocator :=
  MkIPAllocator (Some (po_network p)) (po_bits p) (po_first p) (po_last p) (po_next p) ∅ None.

Lemma pool_allocator_ok p : pool_ok p -> ip_ok (pool_allocator p).
Proof.
  intros Hp. split; cbn; [|intros Hpl; by apply (pk_next p Hp)|apply map_Forall_empty].
  exists (po_prefix p). split_and!; [apply Hp|apply Hp|]. rewrite (pk_last p Hp). done.
Qed.

Lemma not_plain_mapped bits ones n : wf_net bits ones n -> ~ plain bits (in_IP n) -> bits = 128 /\ exists x, To4 (in_IP n) = Some x.
Proof.
  intros Hwf Hn. pose proof (wn_length _ _ _ Hwf) as Hl. destruct (wn_family _ _ _ Hwf) as [-> | ->].
  - exfalso. apply Hn. split; [done|congruence].
  - split; [done|]. destruct (To4 _) as [x|] eqn:Ex; [by exists x|]. exfalso. apply Hn. split; done.
Qed.

(** The form of the candidate after the first address. *)
Lemma first_shape bits ones n : wf_net bits ones n ->
  (plain bits (in_IP n) -> length (Next (in_IP n)) = family_bytes bits) /\ (~ plain bits (in_IP n) -> length (Next (in_IP n)) = 4%nat).
Proof.
  intros Hwf. split; intros Hpl; [apply Next_value; [apply Hwf|done]|].
  destruct (not_plain_mapped _ _ _ Hwf Hpl) as (-> & x & Hx). destruct (mapped_prefix _ _ _ Hwf Hx) as (Hip & Hxl & _). rewrite Hip. by apply Next_mapped.
Qed.

#[local] Instance plain_dec bits ip : Decision (plain bits ip).
Proof. unfold plain. apply _. Defined.

(** A usable candidate is an address of the pool, and the next one keeps the form. *)
Lemma pool_usable_spec p c : pool_ok p -> pool_shape p c -> pool_usable p c = true ->
  plain (po_bits p) c /\ key_first (pool_key p) <= be_value c <= key_last (pool_key p) /\ pool_shape p (Next c).
Proof.
  intros Hp [Hs1 Hs2] Hu. change (isUsable (pool_allocator p) c = true) in Hu. pose proof (pool_allocator_ok p Hp) as Hok.
  destruct (decide (plain (po_bits p) (in_IP (po_network p)))) as [Hpl|Hn].
  - specialize (Hs1 Hpl). destruct (usable_plain (pool_allocator p) Hok _ eq_refl Hpl c Hs1 Hu) as [Hc Hr].
    destruct (last_value (pool_allocator p) Hok _ eq_refl) as (Hf & _ & _ & _ & ones & Hwf & Hlv & _).
    assert (Hones : ones = po_prefix p).
    { pose proof (wf_bits _ _ _ Hwf) as H1. pose proof (wf_bits _ _ _ (pk_wf p Hp)) as H2. cbn in H1. congruence. }
    subst ones. rewrite Hlv in Hr. change (be_value (in_IP (po_network p))) with (key_first (pool_key p)) in Hr.
    change (subnetEnd _ _) with (key_last (pool_key p)) in Hr. split_and!; [done|lia|lia|].
    split; [|done]. intros _. by apply Next_value.
  - exfalso. specialize (Hs2 Hn). destruct (not_plain_mapped _ _ _ (pk_wf p Hp) Hn) as (Hb & x & Hx). pose proof (pk_wf p Hp) as Hwf. rewrite Hb in Hwf.
    destruct (mapped_prefix _ _ _ Hwf Hx) as (Hip & _). destruct (mapped_last _ _ _ Hwf Hx) as [y Hy].
    rewrite (mapped_unusable (pool_allocator p) c x y) in Hu; [done| | |done]; cbn [pool_allocator ia_first ia_last].
    + rewrite (pk_first p Hp). exact Hip.
    + rewrite (pk_last p Hp), <- Hy. unfold key_last, key_first, pool_key, net_key, subnetMapKey. cbn [fst snd]. by rewrite Hb.
Qed.

Lemma newPool_ok n pool bits prefix : wf_net bits prefix n -> newCombinedPoolSubnet n = Some pool ->
  pool_ok pool /\ pool_key pool = net_key bits prefix n /\ po_bits pool = bits.
Proof.
  intros Hwf. unfold newCombinedPoolSubnet. rewrite (normalizeIPNet_wf _ _ _ Hwf). destruct n as [ip mask]. cbn [in_IP in_Mask].
  pose proof (normalize_first _ _ _ Hwf) as H1. pose proof (normalize_last _ _ _ Hwf) as H2. pose proof (wf_bits _ _ _ Hwf) as H3.
  cbn [in_Mask] in H3. destruct (Range _) as [f l]. cbn [fst snd] in *. rewrite H1, H2, H3. intros [= <-].
  split_and!; [|done|done]. split; try done; cbn [po_bits po_prefix po_network po_last po_next].
  - unfold pool_key, key_last, key_first, net_key, subnetMapKey, subnetEnd, subnetSize.
    cbn [po_bits po_prefix po_network fst snd in_IP default from_option]. unfold id. f_equal. lia.
  - exact (first_shape _ _ _ Hwf).
Qed.

(** A walk keeps the form of its candidates. *)
Lemma scan_found_shape {X} (Shape : list byte -> Prop) go (try : list byte -> Z -> option X * Z) fuel c m x :
  (forall c, Shape c -> go c = true -> Shape (Next c)) -> Shape c -> scan go try fuel c m = Some (ScanFound x) ->
  exists c' m', Shape c' /\ go c' = true /\ (try c' m').1 = Some x.
Proof.
  intros Hnext. revert c m. induction fuel as [|fuel IH]; intros c m Hc; [done|]. cbn [scan]. destruct (go c) eqn:Eg; [|done].
  destruct (try c m) as [[y|] m'] eqn:Et; [intros [= ->]; exists c, m; by rewrite Et|]. destruct (_ <=? _); [done|]. apply IH. auto.
Qed.

Section IPs.
Context {R : Type}.

Implicit Types a : CombinedAllocator R.

(** An address from a pool: new, not banned, and inside the pool. *)
Definition pool_found a (p : combinedPoolSubnet) a' p' (ip : list byte) : Prop :=
  exists r next, a' = ca_with_ips a (<[ipReservationKey r := r]> (ca_reservedIPs a)) /\ p' = pool_with_next p next /\ pool_shape p next /\
    ip = ri_ip r /\ ip_key_of ip = Some (ipReservationKey r) /\ ip_res_ok r /\ ri_bits r = po_bits p /\
    ipReservationKey r ∉ dom (ca_reservedIPs a) /\ ipReservationKey r ∉ dom (ca_bannedIPs a) /\
    key_first (pool_key p) <= key_first (ipReservationKey r) /\ key_last (ipReservationKey r) <= key_last (pool_key p).

Lemma normalizeAny_plain bits c r : plain bits c -> is_family bits -> normalizeAnyIP c = Some r -> ri_ip r = c /\ ri_bits r = bits.
Proof.
  intros [Hl Hp] Hf. unfold normalizeAnyIP, normalizeIPForBits. destruct Hf as [-> | ->]; cbn [Z.eqb].
  - change (32 =? 32) with true. rewrite To4_4 by done. by intros [= <-].
  - change (32 =? 32) with true. change (128 =? 32) with false. change (128 =? 128) with true. rewrite Hp, To16_16 by done. by intros [= <-].
Qed.

Lemma tryAllocIP_found a p c m a' c' ip : pool_ok p -> pool_shape p c -> pool_usable p c = true ->
  (tryAllocIPLocked a c m).1 = Some (a', c', ip) -> c' = c /\ pool_found a p a' (pool_with_next p (Next c)) ip.
Proof.
  intros Hp Hs Hu. destruct (pool_usable_spec p c Hp Hs Hu) as (Hpl & Hr & Hn). unfold tryAllocIPLocked.
  destruct (normalizeAnyIP c) as [r|] eqn:En; [|done]. pose proof (normalizeAnyIP_ok _ _ En) as Hrok.
  destruct (normalizeAny_plain _ _ _ Hpl (wn_family _ _ _ (pk_wf p Hp)) En) as [Hri Hrb]. destruct (ip_key_range r) as (_ & Hkf & Hkl).
  destruct (_ <=? m); [done|]. destruct (bool_decide (is_Some (ca_reservedIPs a !! _))) eqn:E1; [done|].
  destruct (bool_decide (is_Some (ca_bannedIPs a !! _))) eqn:E2; [done|]. cbn [orb].
  apply bool_decide_eq_false in E1, E2. destruct (match ca_ipFilter a with Some _ => _ | None => _ end); [|done].
  intros [= <- <- <-]. split; [done|]. exists r, (Next c). rewrite Hkf, Hkl, Hri, !not_elem_of_dom, !eq_None_not_Some.
  split_and!; try done; [|lia|lia]. unfold ip_key_of. by rewrite En.
Qed.

Lemma tryPool_found a p m a' p' ip : pool_ok p -> tryAllocFromPoolSubnetLocked a p m = inl (a', p', ip) -> pool_found a p a' p' ip.
Proof.
  intros Hp. unfold tryAllocFromPoolSubnetLocked. destruct (negb _); [done|]. unfold scan_around.
  set (start := if pool_usable p (po_next p) then _ else _).
  assert (Hf : pool_shape p (Next (po_first p))) by (rewrite (pk_first p Hp); apply (first_shape _ _ _ (pk_wf p Hp))).
  assert (Hs : pool_shape p start) by (unfold start; destruct (pool_usable p (po_next p)); [apply Hp|done]).
  assert (Hnext : forall c, pool_shape p c -> pool_usable p c = true -> pool_shape p (Next c)) by (intros c Hc Hu; by apply pool_usable_spec).
  destruct (scan (pool_usable p) _ _ _ _) as [[[[b c] y]| |k]|] eqn:E1; try done.
  - intros [= <- <- <-]. destruct (scan_found_shape _ _ _ _ _ _ _ Hnext Hs E1) as (c' & m' & Hc' & Hu & Ht).
    by destruct (tryAllocIP_found _ _ _ _ _ _ _ Hp Hc' Hu Ht) as [-> ?].
  - destruct (scan _ _ _ (Next (po_first p)) _) as [[[[b c] y]| |k']|] eqn:E2; try done. intros [= <- <- <-].
    destruct (scan_found_shape (pool_shape p) _ _ _ _ _ _ ltac:(intros c0 Hc0 [_ Hu0]%andb_true_iff; by apply Hnext) Hf E2) as (c' & m' & Hc' & Hu & Ht).
    apply andb_true_iff in Hu as [_ Hu]. by destruct (tryAllocIP_found _ _ _ _ _ _ _ Hp Hc' Hu Ht) as [-> ?].
Qed.

(** ** The live addresses *)

Lemma pool_with_next_key p next : pool_key (pool_with_next p next) = pool_key p.
Proof. done. Qed.

(** Storing the pool with its next candidate does not change the keys. *)
Lemma update_pool_keys a bits i p next : pools_of a bits !! i = Some p ->
  map pool_key (all_pools (ca_with_pools a (<[bits := <[i := pool_with_next p next]> (pools_of a bits)]> (ca_poolSubnets a)))) = map pool_key (all_pools a).
Proof.
  intros Hi. assert (Hkeys : map pool_key (<[i := pool_with_next p next]> (pools_of a bits)) = map pool_key (pools_of a bits)).
  { change (@map combinedPoolSubnet subnetKey) with (@fmap list _ combinedPoolSubnet subnetKey). rewrite list_fmap_insert. apply list_insert_id.
    rewrite list_lookup_fmap, Hi. done. }
  unfold all_pools. rewrite !map_app, !pools_of_insert. f_equal; (case_decide as Hb; [by rewrite Hb|done]).
Qed.

Lemma pool_found_live a bits i p a' p' ip S I : combined_ok a -> live_state a S I -> is_family bits -> pools_of a bits !! i = Some p -> pool_found a p a' p' ip ->
  let a2 := ca_with_pools a' (<[bits := <[i := p']> (pools_of a' bits)]> (ca_poolSubnets a')) in
  combined_ok a2 /\ live_state a2 S (default [] ((fun k => k :: I) <$> ip_key_of ip)).
Proof.
  intros Hok Hls Hf Hi (r & next & -> & -> & Hshape & -> & Hk & Hr & Hb & Hres & Hban & H1 & H2). rewrite Hk. cbn [fmap option_fmap option_map default from_option].
  set (a1 := ca_with_ips a _). assert (Hp : p ∈ pools_of a bits) by by eapply list_elem_of_lookup_2. destruct (co_pools a Hok _ _ Hp) as [Hpok Hpb].
  assert (Hok1 : combined_ok a1) by (apply with_ips_ok; [done|]; apply map_Forall_insert_2; [done|apply Hok]).
  assert (HpA : forall b, pools_of a1 b = pools_of a b) by done. cbv zeta. split.
  - split; try apply Hok1. intros b q. rewrite pools_of_insert. case_decide as Hbb; [|apply Hok]. subst b. intros Hq.
    apply list_elem_of_lookup in Hq as [j Hj]. apply list_lookup_insert_Some in Hj as [(-> & <- & _)|(_ & Hj)].
    + split; [|done]. by destruct Hpok.
    + apply Hok. by eapply list_elem_of_lookup_2.
  - assert (Hkeys := update_pool_keys a1 bits i p next Hi). destruct (ip_key_range r) as (Hkb & Hkf & Hkl).
    assert (Hpk : pool_key p ∈ map pool_key (all_pools a)).
    { unfold all_pools. rewrite map_app. apply elem_of_app. assert (pool_key p ∈ map pool_key (pools_of a bits)) by (apply list_elem_of_fmap; eauto).
      destruct Hf as [-> | ->]; auto. }
    destruct (ls_reserved _ _ _ Hls (pool_key p) ltac:(apply elem_of_app; by right)) as [_ [(pp & Hpp & Hs & He) Hbans]].
    assert (Hkb2 : key_bits (ipReservationKey r) = key_bits (pool_key p)) by (rewrite Hkb; exact Hb).
    pose proof (ls_disjoint _ _ _ Hls) as Hdis. apply pairs_app in Hdis as (_ & _ & Hcross). split.
    + rewrite Hkeys. apply Hls.
    + rewrite Hkeys. intros k Hin. by apply (ls_reserved _ _ _ Hls).
    + constructor; [|apply Hls]. apply Forall_forall. intros k Hin. destruct (ls_ips_reserved _ _ _ Hls k Hin) as [Hd _].
      apply elem_of_dom in Hd as Hd2. destruct Hd2 as [r2 Hr2]. destruct (co_ips a Hok _ _ Hr2) as [Hr2ok ->].
      apply ip_keys_disjoint; [done|done|]. intros Heq. apply Hres. by rewrite Heq.
    + intros k [-> |Hin]%elem_of_cons; [|destruct (ls_ips_reserved _ _ _ Hls k Hin) as [Hd Ha]; split; [cbn; rewrite dom_insert; set_solver|done]].
      split; [cbn; rewrite dom_insert; set_solver|]. split; [exists pp; rewrite Hkb2; split_and!; [done|lia|lia]|].
      intros b Hbn. apply keys_disjoint_sym. eapply (keys_disjoint_part (pool_key p)); [|done|lia|lia]. apply keys_disjoint_sym. by apply Hbans.
    + intros s k Hs' [-> |Hin]%elem_of_cons; [|by apply (ls_cross _ _ _ Hls)]. apply keys_disjoint_sym.
      eapply (keys_disjoint_part (pool_key p)); [|done|lia|lia]. apply keys_disjoint_sym. by apply Hcross.
Qed.

Lemma pool_loop_found a bits i pools m a' ip net : (forall j p, pools !! j = Some p -> pools_of a bits !! (i + j)%nat = Some p) ->
  (forall p, p ∈ pools -> pool_ok p) -> pool_loop a bits i pools m = inl (a', ip, net) ->
  exists j p a1 p', pools_of a bits !! j = Some p /\ pool_found a p a1 p' ip /\
    a' = ca_with_pools a1 (<[bits := <[j := p']> (pools_of a1 bits)]> (ca_poolSubnets a1)).
Proof.
  revert i m. induction pools as [|p pools IH]; intros i m Hidx Hok; [done|]. cbn [pool_loop].
  destruct (tryAllocFromPoolSubnetLocked a p m) as [[[a1 p'] y]|m'] eqn:Et.
  - intros [= <- <- _]. apply tryPool_found in Et; [|apply Hok; left]. exists i, p, a1, p'. split_and!; [|done|done].
    specialize (Hidx 0%nat p eq_refl). by rewrite Nat.add_0_r in Hidx.
  - destruct (_ <=? m'); [done|]. apply IH; [|intros q Hq; apply Hok; by right]. intros j q Hj. specialize (Hidx (S j) q Hj).
    by rewrite Nat.add_succ_comm.
Qed.

Lemma pairs_Permutation {A} (P : A -> A -> Prop) l k : (forall x y, P x y -> P y x) -> l ≡ₚ k -> ForallOrdPairs P l -> ForallOrdPairs P k.
Proof.
  intros Hsym. induction 1 as [|x l k Hlk IH|x y l|l1 l2 l3 H1 IH1 H2 IH2]; intros Hp; [done| |auto|auto].
  - inversion Hp as [|? ? Hx Hl]; subst. constructor; [by rewrite <- Hlk|by apply IH].
  - inversion Hp as [|? ? Hx Hl]; subst. inversion Hl as [|? ? Hy Hl']; subst. apply Forall_cons in Hx as [Hxy Hx].
    constructor; [apply Forall_cons; auto|by constructor].
Qed.

(** A new pool over a freshly allocated subnet. *)
Lemma add_pool_live a bits k pool S I : combined_ok a -> live_state a S I -> is_family bits -> pool_ok pool -> po_bits pool = bits ->
  pool_key pool = k -> k ∈ dom (ca_reservedSubnets a) -> allowed a k -> (forall x, x ∈ S ++ map pool_key (all_pools a) -> keys_disjoint k x) ->
  let a2 := ca_with_pools a (<[bits := pools_of a bits ++ [pool]]> (ca_poolSubnets a)) in combined_ok a2 /\ live_state a2 S I.
Proof.
  intros Hok Hls Hf Hp Hb <- Hk Hal Hd. set (a2 := ca_with_pools a _). cbv zeta.
  assert (Hperm : S ++ map pool_key (all_pools a2) ≡ₚ pool_key pool :: S ++ map pool_key (all_pools a)).
  { assert (Hall : all_pools a2 ≡ₚ pool :: all_pools a).
    { unfold all_pools, a2. rewrite !pools_of_insert. destruct Hf as [-> | ->]; cbn [decide decide_rel].
      - destruct (decide (32 = 32)); [|done]. destruct (decide (128 = 32)); [done|]. rewrite <- app_assoc. symmetry. apply Permutation_middle.
      - destruct (decide (32 = 128)); [done|]. destruct (decide (128 = 128)); [|done]. rewrite app_assoc. symmetry. apply Permutation_cons_append. }
    rewrite Hall. cbn [map]. symmetry. apply Permutation_middle. }
  split.
  - split; try apply Hok. intros b q. unfold a2. rewrite pools_of_insert. case_decide as Hbb; [|apply Hok]. rewrite elem_of_app, list_elem_of_singleton.
    intros [Hq| ->]; [by subst; apply Hok|by subst].
  - split; try apply Hls.
    + eapply pairs_Permutation; [apply keys_disjoint_sym|symmetry; exact Hperm|]. constructor; [by apply Forall_forall|apply Hls].
    + intros x. rewrite Hperm. intros [-> |Hx]%elem_of_cons; [done|]. by apply (ls_reserved _ _ _ Hls).
Qed.

End IPs.

Section AllocIPs.
Context {R : Type} (Int63n Intn : R -> Z -> Z * R).
Context (Hrand : forall r n, 0 < n -> 0 <= (Int63n r n).1 < n).

Implicit Types a : CombinedAllocator R.

Lemma allocIP_live fuel a bits a' r S I : is_family bits -> combined_ok a -> live_state a S I ->
  allocIPLocked Int63n Intn fuel a bits = Some (a', r) ->
  combined_ok a' /\ live_state a' S (match r with Some (ip, _) => default [] ((fun k => k :: I) <$> ip_key_of ip) | None => I end).
Proof.
  intros Hf Hok Hls. unfold allocIPLocked. destruct (ca_parents a !! bits); [|by intros [= <- <-]].
  destruct (allocIPFromPoolLocked a bits 0) as [[[a1 ip] net]|m] eqn:Ep.
  { intros [= <- <-]. destruct (pool_loop_found a bits 0 (pools_of a bits) 0 a1 ip net) as (j & p & a0 & p' & Hj & Hpf & ->);
      [done|intros p Hp; by apply Hok in Hp as [? _]|done|]. by apply (pool_found_live a bits j p a0 p' ip). }
  destruct (_ <=? m); [by intros [= <- <-]|]. set (prefix := if bits =? 128 then _ else _).
  destruct (allocSubnetLocked Int63n Intn fuel a bits prefix) as [[a1 [n|]]|] eqn:Ea; [| |done].
  2: { intros [= <- <-]. destruct (allocSubnet_live Int63n Intn Hrand _ _ _ _ _ _ S I Hok Hls Ea). done. }
  pose proof (allocSubnet_outcome Int63n Intn Hrand _ _ _ _ _ _ Hok Ea) as Ho. pose proof Ho as (_ & Hwf & _).
  destruct (outcome_fresh _ _ _ _ _ S I Hok Hls Ho) as (Hok1 & Hls1 & Hk & Hal & _ & Hd).
  destruct (newCombinedPoolSubnet n) as [pool|] eqn:En.
  2: { unfold newCombinedPoolSubnet in En. rewrite (normalizeIPNet_wf _ _ _ Hwf) in En. by destruct (Range _). }
  destruct (newPool_ok _ _ _ _ Hwf En) as (Hpok & Hpk & Hpb).
  destruct (add_pool_live a1 bits _ pool S I Hok1 Hls1 Hf Hpok Hpb Hpk Hk Hal ltac:(intros x Hx; apply Hd; by left)) as [Hok2 Hls2].
  set (a2 := ca_with_pools a1 _) in *. destruct (tryAllocFromPoolSubnetLocked a2 pool m) as [[[a3 p'] ip]|] eqn:Et; [|by intros [= <- <-]].
  apply tryPool_found in Et; [|done]. intros [= <- <-].
  assert (Hlast : pools_of a2 bits !! (length (pools_of a2 bits) - 1)%nat = Some pool).
  { unfold a2. rewrite pools_of_insert. destruct (decide (bits = bits)); [|done]. rewrite length_app, lookup_app_r by (cbn; lia).
    replace (length (pools_of a1 bits) + length [pool] - 1 - length (pools_of a1 bits))%nat with 0%nat by (cbn; lia). done. }
  assert (H3 : pools_of a3 bits = pools_of a2 bits) by (by destruct Et as (r & next & -> & _)).
  replace (length (pools_of a2 bits)) with (length (pools_of a3 bits)) in Hlast by by rewrite H3.
  exact (pool_found_live a2 bits _ pool a3 p' ip S I Hok2 Hls2 Hf Hlast Et).
Qed.
End AllocIPs.

(** ** Histories *)

Section History.
Context {R : Type} (Int63n Intn : R -> Z -> Z * R).

Inductive combined_op : Type :=
| CReserveSubnet (subnet : option IPNet)
| CFreeSubnet (subnet : option IPNet)
| CFreeAllSubnets
| CAllocSubnet4 (prefix : Z)
| CAllocSubnet6 (prefix : Z)
| CReserveIP (ip : list byte)
| CFreeIP (ip : list byte)
| CFreeAllIP
| CAllocIP4
| CAllocIP6.

Inductive combined_result : Type :=
| CNothing
| CSubnet (bits prefix : Z) (n : IPNet)
| CAddress (ip : list byte).

Definition subnet_result (bits prefix : Z) (o : option (CombinedAllocator R * option IPNet)) : option (CombinedAllocator R * combined_result) :=
  match o with
  | Some (a, Some n) => Some (a, CSubnet bits prefix n)
  | Some (a, None) => Some (a, CNothing)
  | None => None
  end.

Definition address_result (o : option (CombinedAllocator R * option (list byte * IPNet))) : option (CombinedAllocator R * combined_result) :=
  match o with
  | Some (a, Some (ip, _)) => Some (a, CAddress ip)
  | Some (a, None) => Some (a, CNothing)
  | None => None
  end.

(** One call; absent when the random generator has run out of fuel. *)
Definition combined_run (fuel : nat) (a : CombinedAllocator R) (op : combined_op) : option (CombinedAllocator R * combined_result) :=
  match op with
  | CReserveSubnet n => Some (combined_ReserveSubnet a n, CNothing)
  | CFreeSubnet n => Some (combined_FreeSubnet a n, CNothing)
  | CFreeAllSubnets => Some (combined_FreeAllSubnets a, CNothing)
  | CAllocSubnet4 prefix => subnet_result 32 prefix (combined_AllocSubnet4 Int63n Intn fuel a prefix)
  | CAllocSubnet6 prefix => subnet_result 128 prefix (combined_AllocSubnet6 Int63n Intn fuel a prefix)
  | CReserveIP ip => Some (combined_ReserveIP a ip, CNothing)
  | CFreeIP ip => Some (combined_FreeIP a ip, CNothing)
  | CFreeAllIP => Some (combined_FreeAllIP a, CNothing)
  | CAllocIP4 => address_result (combined_AllocIP4 Int63n Intn fuel a)
  | CAllocIP6 => address_result (combined_AllocIP6 Int63n Intn fuel a)
  end.

(** The subnets given out and not freed since, and the addresses. *)
Definition live_subnets_after (op : combined_op) (r : combined_result) (live : list subnetKey) : list subnetKey :=
  match op, r with
  | _, CSubnet bits prefix n => net_key bits prefix n :: live
  | CFreeSubnet n, _ => live_free n live
  | CFreeAllSubnets, _ => []
  | _, _ => live
  end.

Definition live_addresses_after (op : combined_op) (r : combined_result) (live : list subnetKey) : list subnetKey :=
  match op, r with
  | _, CAddress ip => default [] ((fun k => k :: live) <$> ip_key_of ip)
  | CFreeIP ip, _ => live_free_ip ip live
  | CFreeAllIP, _ => []
  | _, _ => live
  end.

Inductive combined_history (a : CombinedAllocator R) : CombinedAllocator R -> list subnetKey -> list subnetKey -> Prop :=
| CStart : combined_history a a [] []
| CStep a1 S I fuel op a2 r : combined_history a a1 S I -> combined_run fuel a1 op = Some (a2, r) ->
    combined_history a a2 (live_subnets_after op r S) (live_addresses_after op r I).

Lemma addParent_ok parents network bits : map_Forall parent_ok parents -> map_Forall parent_ok (addParent parents network bits).
Proof.
  intros Hp. unfold addParent. destruct network as [n|]; [|done]. destruct (normalizeIPNet n) as [[[ip mask] b]|] eqn:En; [|done].
  destruct (negb _); [done|]. destruct (normalizeIPNet_spec _ _ _ _ En) as (_ & ones & H). destruct (Range_values _ _ _ H) as [H1 H2].
  destruct (Range _) as [f l]. cbn [fst snd] in *. apply map_Forall_insert_2; [|done]. exists ones. cbn. by rewrite H1, H2.
Qed.

Lemma fold_ok {A B} (P : A -> Prop) (f : A -> B -> A) l x : P x -> (forall x y, P x -> P (f x y)) -> P (fold_left f l x).
Proof. revert x. induction l as [|y l IH]; intros x Hx Hf; [done|]. cbn. auto. Qed.

Lemma NewCombined_ok v4 v6 p4 p6 ipf sf bips bsubs rng : combined_ok (R := R) (NewCombinedAllocator v4 v6 p4 p6 ipf sf bips bsubs rng) /\
  live_state (R := R) (NewCombinedAllocator v4 v6 p4 p6 ipf sf bips bsubs rng) [] [].
Proof.
  assert (Hnil : forall k : subnetKey, k ∈ @nil subnetKey -> False) by (intros k; apply not_elem_of_nil). split.
  - split; cbn; try apply map_Forall_empty.
    + apply addParent_ok, addParent_ok, map_Forall_empty.
    + apply (fold_ok table_ok); [apply map_Forall_empty|]. intros m n Hm. unfold ban_subnet. destruct (normalizeSubnet n) as [r|] eqn:Er; [|done].
      apply map_Forall_insert_2; [|done]. by destruct (normalizeSubnet_ok _ _ Er).
    + apply (fold_ok ips_ok); [apply map_Forall_empty|]. intros m ip Hm. unfold ban_ip. destruct (normalizeAnyIP ip) as [r|] eqn:Er; [|done].
      apply map_Forall_insert_2; [|done]. by apply normalizeAnyIP_ok in Er.
    + intros b p Hp. by apply not_elem_of_nil in Hp.
  - assert (Hall : all_pools (R := R) (NewCombinedAllocator v4 v6 p4 p6 ipf sf bips bsubs rng) = []) by done.
    split; rewrite ?Hall; cbn [map app]; [constructor|intros k Hk; by destruct (Hnil k)|constructor|intros k Hk; by destruct (Hnil k)|].
    intros s i Hs. by destruct (Hnil s).
Qed.

Context (Hrand : forall r n, 0 < n -> 0 <= (Int63n r n).1 < n).

Lemma combined_step fuel a op a' r S I : combined_ok a -> live_state a S I -> combined_run fuel a op = Some (a', r) ->
  combined_ok a' /\ live_state a' (live_subnets_after op r S) (live_addresses_after op r I).
Proof.
  intros Hok Hls. destruct op as [n|n| |prefix|prefix|ip|ip| | |]; cbn [combined_run].
  - intros [= <- <-]. split; [by apply reserve_ok|by apply reserveSubnet_live].
  - intros [= <- <-]. by apply freeSubnet_spec.
  - intros [= <- <-]. by apply (freeAllSubnets_spec a S I).
  - unfold combined_AllocSubnet4. destruct (allocSubnetLocked _ _ _ _ _ _) as [[a1 [n|]]|] eqn:Ea; [..|done]; intros [= <- <-];
      by apply (allocSubnet_live Int63n Intn Hrand _ _ _ _ _ _ S I Hok Hls) in Ea.
  - unfold combined_AllocSubnet6. destruct (allocSubnetLocked _ _ _ _ _ _) as [[a1 [n|]]|] eqn:Ea; [..|done]; intros [= <- <-];
      by apply (allocSubnet_live Int63n Intn Hrand _ _ _ _ _ _ S I Hok Hls) in Ea.
  - intros [= <- <-]. split; [by apply reserveIP_ok|by apply reserveIP_live].
  - intros [= <- <-]. by apply freeIP_spec.
  - intros [= <- <-]. by apply (freeAllIP_spec a S I).
  - unfold combined_AllocIP4. destruct (allocIPLocked _ _ _ _ _) as [[a1 [[ip net]|]]|] eqn:Ea; [..|done]; intros [= <- <-];
      by apply (allocIP_live Int63n Intn Hrand _ _ _ _ _ S I (or_introl eq_refl) Hok Hls) in Ea.
  - unfold combined_AllocIP6. destruct (allocIPLocked _ _ _ _ _) as [[a1 [[ip net]|]]|] eqn:Ea; [..|done]; intros [= <- <-];
      by apply (allocIP_live Int63n Intn Hrand _ _ _ _ _ S I (or_intror eq_refl) Hok Hls) in Ea.
Qed.

Lemma combined_history_ok v4 v6 p4 p6 ipf sf bips bsubs rng a S I :
  combined_history (NewCombinedAllocator v4 v6 p4 p6 ipf sf bips bsubs rng) a S I -> combined_ok a /\ live_state a S I.
Proof.
  induction 1 as [|a1 S I fuel op a2 r Hh [Hok Hls] Hrun]; [apply NewCombined_ok|]. by eapply combined_step.
Qed.

(** C23. The combined allocator gives no address out twice.  Whatever sequence of calls led to a state and
    whatever the random generator drew, the subnets that AllocSubnet4 and
    AllocSubnet6 gave out and nobody freed since, and the addresses that AllocIP4
    and AllocIP6 gave out and nobody freed since, are all pairwise disjoint (an
    address is in no live subnet); each lies inside the parent of its family and
    touches no banned address or subnet. *)
Theorem combined_live_disjoint v4 v6 p4 p6 ipf sf bips bsubs rng a S I :
  combined_history (NewCombinedAllocator v4 v6 p4 p6 ipf sf bips bsubs rng) a S I ->
  disjoint_list (S ++ I) /\ Forall (allowed a) (S ++ I).
Proof.
  intros [_ Hls]%combined_history_ok. pose proof (ls_disjoint _ _ _ Hls) as Hd. apply pairs_app in Hd as (Hd & _ & _). split.
  - apply pairs_app. split_and!; [done|apply Hls|apply Hls].
  - apply Forall_forall. intros k [Hk|Hk]%elem_of_app; [|by apply (ls_ips_reserved _ _ _ Hls)].
    apply (ls_reserved _ _ _ Hls). apply elem_of_app. by left.
Qed.
End History.

(** A generator that counts, for examples. *)
Definition counting (r n : Z) : Z * Z := (r mod n, r + 1).

Definition example_allocator : CombinedAllocator Z :=
  NewCombinedAllocator (Some (net_10_0_0_0 24)) None 29 64 None None [ip_10_0_0 1] [] 0.

Lemma combined_live_disjoint_witness :
  exists a, combined_history counting counting example_allocator a
              [net_key 32 26 (candidate_net 32 26 167772224)] [ipReservationKey (MkReservedIP (ip_10_0_0 9) 32 167772169 1)] /\
  disjoint_list [net_key 32 26 (candidate_net 32 26 167772224); ipReservationKey (MkReservedIP (ip_10_0_0 9) 32 167772169 1)].
Proof.
  assert (Hrand : forall r n, 0 < n -> 0 <= (counting r n).1 < n) by (intros r n Hn; apply Z.mod_pos_bound; lia).
  destruct (combined_run counting counting 0 example_allocator (CAllocSubnet4 26)) as [[a1 r1]|] eqn:E1; [|vm_compute in E1; discriminate].
  destruct (combined_run counting counting 0 a1 CAllocIP4) as [[a2 r2]|] eqn:E2; [|vm_compute in E1; injection E1 as <- <-; vm_compute in E2; discriminate].
  assert (Hr1 : r1 = CSubnet 32 26 (candidate_net 32 26 167772224)) by (vm_compute in E1; injection E1 as _ <-; vm_compute; reflexivity).
  assert (Hr2 : r2 = CAddress (ip_10_0_0 9)) by (vm_compute in E1; injection E1 as <- _; vm_compute in E2; injection E2 as _ <-; vm_compute; reflexivity).
  subst r1 r2. pose proof (CStep counting counting example_allocator _ _ _ 0 CAllocIP4 _ _ (CStep counting counting example_allocator _ _ _ 0 _ _ _ (CStart counting counting _) E1) E2) as Hh.
  exists a2. split; [exact Hh|]. exact (proj1 (combined_live_disjoint counting counting Hrand _ _ _ _ _ _ _ _ _ _ _ _ Hh)).
Defined.
