(* ===== verification/NetText.v ===== *)
(** * Addresses and prefixes as text

    netip.ParseAddr reads back what netip.Addr.String writes, and
    netip.ParsePrefix what netip.Prefix.String writes: dotted decimal octets,
    hexadecimal groups with the longest run of zeros left out, IPv4-mapped
    addresses, zones and prefix lengths.  What ParseAddr accepts has no brackets
    before its zone. *)

From Stdlib Require Import Ascii.
From S2P Require Import Prelude GoStd HostPort NetIP.

(** The addresses that Go can hold. *)
Definition addr_wf (a : Addr) : Prop :=
  match a with
  | AddrZero => False
  | Addr4 v => 0 <= v < 2 ^ 32
  | Addr6 v _ => 0 <= v < 2 ^ 128
  end.

(** ** IPv4 *)

Lemma itoa_small x : 0 <= x < 1000 ->
  itoa x = if x <? 10 then String (digit_char x) ""
           else if x <? 100 then String (digit_char (x / 10)) (String (digit_char (x mod 10)) "")
           else String (digit_char (x / 100)) (String (digit_char (x / 10 mod 10)) (String (digit_char (x mod 10)) "")).
Proof.
  intros Hx. unfold itoa. replace (x <? 0) with false by lia. cbn [itoa_go].
  destruct (Z.ltb_spec x 10) as [H1|H1]; [by rewrite Z.mod_small by lia|].
  assert (H2 : (x / 10 <? 10) = (x <? 100)).
  { destruct (Z.ltb_spec x 100) as [H|H]; [apply Z.ltb_lt, Z.div_lt_upper_bound; lia|].
    apply Z.ltb_ge, Z.div_le_lower_bound; lia. }
  rewrite H2. destruct (Z.ltb_spec x 100) as [H3|H3].
  - rewrite (Z.mod_small (x / 10)); [done|]. split; [apply Z.div_pos; lia|apply Z.div_lt_upper_bound; lia].
  - rewrite Z.div_div by lia. change (10 * 10) with 100.
    assert (H4 : 0 <= x / 100 < 10) by (split; [apply Z.div_pos; lia|apply Z.div_lt_upper_bound; lia]).
    replace (x / 100 <? 10) with true by lia. by rewrite (Z.mod_small (x / 100)) by lia.
Qed.

(** One octet. *)
Lemma ipv4_octet x rest pos acc : 0 <= x < 256 ->
  exists k, 0 < k /\ ipv4_go (String.append (itoa x) rest) 0 0 pos acc = ipv4_go rest x k pos acc.
Proof.
  intros Hx. rewrite itoa_small by lia.
  assert (Hdiv : forall n, 0 < n -> 0 <= x / n) by (intros n Hn; apply Z.div_pos; lia).
  assert (Hm := Z.mod_pos_bound x 10 ltac:(lia)). assert (Hm2 := Z.mod_pos_bound (x / 10) 10 ltac:(lia)).
  assert (He := Z_div_mod_eq_full x 10). assert (He2 := Z_div_mod_eq_full (x / 10) 10).
  rewrite Z.div_div in He2 by lia. change (10 * 10) with 100 in He2.
  destruct (Z.ltb_spec x 10) as [H1|H1]; [|destruct (Z.ltb_spec x 100) as [H2|H2]].
  - exists 1. split; [lia|]. rewrite ?append_cons, append_nil. cbn [ipv4_go]. rewrite digit_char_value by lia.
    change ((0 =? 1) && (0 =? 0)) with false. cbv iota. by replace (255 <? 0 * 10 + x) with false by lia.
  - exists 2. split; [lia|]. rewrite ?append_cons, append_nil. cbn [ipv4_go]. rewrite !digit_char_value by lia.
    change ((0 =? 1) && (0 =? 0)) with false. cbv iota. replace (255 <? 0 * 10 + x / 10) with false by lia.
    replace ((0 + 1 =? 1) && (0 * 10 + x / 10 =? 0)) with false by lia.
    replace ((0 * 10 + x / 10) * 10 + x mod 10) with x by lia. by replace (255 <? x) with false by lia.
  - exists 3. split; [lia|]. assert (Hx3 := Hdiv 100 ltac:(lia)).
    rewrite ?append_cons, append_nil. cbn [ipv4_go]. rewrite !digit_char_value by lia.
    change ((0 =? 1) && (0 =? 0)) with false. cbv iota. replace (255 <? 0 * 10 + x / 100) with false by lia.
    replace ((0 + 1 =? 1) && (0 * 10 + x / 100 =? 0)) with false by lia.
    replace ((0 * 10 + x / 100) * 10 + x / 10 mod 10) with (x / 10) by lia.
    replace (255 <? x / 10) with false by lia. replace (0 + 1 + 1 =? 1) with false by lia. cbn [andb].
    replace (x / 10 * 10 + x mod 10) with x by lia. by replace (255 <? x) with false by lia.
Qed.

Lemma ipv4_octets v : 0 <= v < 2 ^ 32 ->
  0 <= v / 2 ^ 24 < 256 /\
  ((v / 2 ^ 24 * 256 + v / 2 ^ 16 mod 256) * 256 + v / 2 ^ 8 mod 256) * 256 + v mod 256 = v.
Proof.
  intros Hv. split.
  - split; [apply Z.div_pos; lia|]. apply Z.div_lt_upper_bound; lia.
  - replace (v / 2 ^ 24) with (v / 256 / 256 / 256) by (rewrite !Z.div_div by lia; done).
    replace (v / 2 ^ 16) with (v / 256 / 256) by (rewrite !Z.div_div by lia; done).
    change (2 ^ 8) with 256. assert (H1 := Z_div_mod_eq_full v 256).
    assert (H2 := Z_div_mod_eq_full (v / 256) 256). assert (H3 := Z_div_mod_eq_full (v / 256 / 256) 256). lia.
Qed.

Lemma ipv4_dot v k pos acc rest : 0 < k -> pos < 3 ->
  ipv4_go (String "." rest) v k pos acc = ipv4_go rest 0 0 (pos + 1) (acc * 256 + v).
Proof.
  intros Hk Hp. cbn [ipv4_go]. change (digit ".") with (@None Z). cbv iota. change ("." =a dot)%char with true. cbv iota.
  by replace ((k =? 0) || (pos =? 3)) with false by lia.
Qed.

Lemma parseIPv4_string v : 0 <= v < 2 ^ 32 -> parseIPv4 (ipv4_string v) = Some v.
Proof.
  intros Hv. destruct (ipv4_octets v Hv) as [Hb Hsum]. unfold parseIPv4, ipv4_string.
  assert (Hm : forall x, 0 <= x mod 256 < 256) by (intros x; apply Z.mod_pos_bound; lia).
  destruct (ipv4_octet (v / 2 ^ 24) (String.append "." (
    String.append (itoa (v / 2 ^ 16 mod 256)) (String.append "." (
    String.append (itoa (v / 2 ^ 8 mod 256)) (String.append "." (itoa (v mod 256))))))) 0 0 Hb) as (k1 & Hk1 & ->).
  rewrite ?append_cons, ?append_nil. rewrite ipv4_dot by lia.
  destruct (ipv4_octet (v / 2 ^ 16 mod 256) (String "." (String.append (itoa (v / 2 ^ 8 mod 256))
    (String "." (itoa (v mod 256))))) (0 + 1) (0 * 256 + v / 2 ^ 24) (Hm _)) as (k2 & Hk2 & ->).
  rewrite ipv4_dot by lia.
  destruct (ipv4_octet (v / 2 ^ 8 mod 256) (String "." (itoa (v mod 256))) (0 + 1 + 1)
    ((0 * 256 + v / 2 ^ 24) * 256 + v / 2 ^ 16 mod 256) (Hm _)) as (k3 & Hk3 & ->).
  rewrite ipv4_dot by lia.
  destruct (ipv4_octet (v mod 256) "" (0 + 1 + 1 + 1)
    (((0 * 256 + v / 2 ^ 24) * 256 + v / 2 ^ 16 mod 256) * 256 + v / 2 ^ 8 mod 256) (Hm _)) as (k4 & Hk4 & E).
  rewrite append_empty in E. rewrite E. cbn [ipv4_go]. replace (0 <? k4) with true by lia.
  change ((0 + 1 + 1 + 1 =? 3) && true) with true. cbv iota. f_equal. lia.
Qed.

(** ** IPv6 groups *)

Lemma hexdigit_char d : 0 <= d < 16 -> hexdigit (hex_char d) = Some d.
Proof.
  intros Hd. assert (Hc : d = 0 \/ d = 1 \/ d = 2 \/ d = 3 \/ d = 4 \/ d = 5 \/ d = 6 \/ d = 7 \/ d = 8 \/ d = 9 \/
    d = 10 \/ d = 11 \/ d = 12 \/ d = 13 \/ d = 14 \/ d = 15) by lia.
  destruct_or! Hc; subst d; reflexivity.
Qed.

Lemma hex_group_go fuel v acc : 0 <= v < 16 ^ Z.of_nat fuel -> (0 < fuel)%nat ->
  exists k, 1 <= k <= Z.of_nat fuel /\ forall off a, off + k <= 4 ->
    hex_group (hex_go fuel v acc) off a = hex_group acc (off + k) (a * 16 ^ k + v).
Proof.
  revert v acc. induction fuel as [|fuel IH]; intros v acc Hv Hf; [lia|]. cbn [hex_go].
  assert (Hm := Z.mod_pos_bound v 16 ltac:(lia)). assert (He := Z_div_mod_eq_full v 16).
  destruct (Z.ltb_spec v 16) as [Hs|Hs].
  - exists 1. split; [lia|]. intros off a Ho. cbn [hex_group]. rewrite hexdigit_char by lia.
    replace (3 <? off) with false by lia. f_equal. rewrite Z.mod_small by lia. lia.
  - rewrite Nat2Z.inj_succ, Z.pow_succ_r in Hv by lia.
    destruct (IH (v / 16) (String (hex_char (v mod 16)) acc)) as (k & Hk & Hgo).
    + split; [apply Z.div_pos; lia|apply Z.div_lt_upper_bound; lia].
    + destruct fuel; [change (16 ^ Z.of_nat 0) with 1 in Hv|]; lia.
    + exists (k + 1). split; [lia|]. intros off a Ho. rewrite Hgo by lia. cbn [hex_group].
      rewrite hexdigit_char by lia. replace (3 <? off + k) with false by lia.
      rewrite Z.pow_add_r by lia. f_equal; lia.
Qed.

Lemma hex_go_app fuel v acc rest :
  String.append (hex_go fuel v acc) rest = hex_go fuel v (String.append acc rest).
Proof.
  revert v acc. induction fuel as [|fuel IH]; intros v acc; [done|]. cbn [hex_go].
  destruct (v <? 16); [done|]. by rewrite IH.
Qed.

(** The text after a group does not continue it. *)
Definition group_end (rest : string) : bool :=
  match rest with
  | EmptyString => true
  | String c _ => match hexdigit c with Some _ => false | None => true end
  end.

Lemma hex_group_end rest off a : group_end rest = true -> hex_group rest off a = Some (off, a, rest).
Proof. destruct rest as [|c rest]; [done|]. cbn [group_end hex_group]. by destruct (hexdigit c). Qed.

Lemma hex_group_hex16 x rest : 0 <= x < 65536 -> group_end rest = true ->
  exists off, 1 <= off /\ hex_group (String.append (hex16 x) rest) 0 0 = Some (off, x, rest).
Proof.
  intros Hx Hr. unfold hex16. rewrite hex_go_app, append_nil.
  destruct (hex_group_go 4 x rest) as (k & Hk & Hgo); [exact Hx|lia|].
  exists k. split; [lia|]. rewrite Hgo by lia. rewrite hex_group_end by done. f_equal.
Qed.

Definition group_range (x : Z) : Prop := 0 <= x < 65536.

Lemma join_groups_cons x g : g <> [] ->
  join_groups (x :: g) = String.append (hex16 x) (String ":" (join_groups g)).
Proof. by destruct g. Qed.

(** The text of a group does not begin with a colon. *)
Lemma hex16_head x : 0 <= x < 65536 -> exists c s, hex16 x = String c s /\ (c =a colon) = false.
Proof.
  intros Hx. destruct (hex16 x) as [|c s] eqn:E.
  - destruct (hex_group_hex16 x "" Hx eq_refl) as (off & Ho & Hg). rewrite E in Hg.
    change (Some (0, 0, "") = Some (off, x, "")) in Hg. injection Hg as H1 _. lia.
  - exists c, s. split; [done|]. destruct (Ascii.eqb_spec c colon) as [->|]; [|done].
    destruct (hex_group_hex16 x "" Hx eq_refl) as (off & Ho & Hg). rewrite E in Hg.
    change (Some (0, 0, String.append (String colon s) "") = Some (off, x, "")) in Hg. injection Hg as H1 _ _. lia.
Qed.

Lemma join_groups_head g : Forall group_range g -> g <> [] ->
  exists c s, join_groups g = String c s /\ (c =a colon) = false.
Proof.
  intros Hg Hne. destruct g as [|x g]; [done|]. apply Forall_cons in Hg as [Hx _].
  destruct (hex16_head x Hx) as (c & s & E & Hc). destruct g as [|y g]; [by exists c, s|].
  exists c, (String.append s (String ":" (join_groups (y :: g)))). split; [|done].
  rewrite join_groups_cons by done. by rewrite E.
Qed.

(** Reading a list of groups to the end of the text. *)
Lemma ipv6_go_join g : Forall group_range g -> g <> [] ->
  forall fuel groups e, (length g <= fuel)%nat -> (length groups + length g <= 8)%nat ->
  ipv6_go fuel (join_groups g) groups e = Some (rev g ++ groups, e, "").
Proof.
  induction 1 as [|x g Hx Hg IH]; intros Hne fuel groups e Hf Hl; [done|].
  destruct fuel as [|fuel]; [simpl in Hf; lia|]. cbn [ipv6_go length] in *.
  replace (8 <=? length groups)%nat with false by (symmetry; apply Nat.leb_gt; lia).
  destruct g as [|y g].
  - change (join_groups [x]) with (hex16 x).
    destruct (hex_group_hex16 x "" Hx eq_refl) as (off & Ho & E). rewrite append_empty in E. rewrite E.
    by replace (off =? 0) with false by lia.
  - rewrite join_groups_cons by done.
    destruct (hex_group_hex16 x (String ":" (join_groups (y :: g))) Hx eq_refl) as (off & Ho & ->).
    replace (off =? 0) with false by lia. change (":" =a dot)%char with false. change (":" =a colon)%char with true.
    cbv iota. destruct (join_groups_head (y :: g) Hg ltac:(done)) as (c & s & Ej & Hc). rewrite Ej, Hc, <- Ej.
    rewrite IH; [|done|simpl in *; lia..]. cbn [rev]. by rewrite <- !app_assoc.
Qed.

(** Groups up to an ellipsis. *)
Lemma ipv6_go_ellipsis g h : Forall group_range g -> g <> [] -> Forall group_range h ->
  forall fuel groups, (length g + length h <= fuel)%nat -> (length groups + length g + length h <= 8)%nat ->
  ipv6_go fuel (String.append (join_groups g) (String.append "::" (join_groups h))) groups None =
  Some (rev h ++ rev g ++ groups, Some (length (rev g ++ groups)), "").
Proof.
  intros Hg Hne Hh. revert Hne. induction Hg as [|x g Hx Hg IH]; intros Hne fuel groups Hf Hl; [done|].
  destruct fuel as [|fuel]; [simpl in Hf; lia|]. cbn [ipv6_go length] in *.
  replace (8 <=? length groups)%nat with false by (symmetry; apply Nat.leb_gt; lia).
  destruct g as [|y g].
  - change (join_groups [x]) with (hex16 x).
    destruct (hex_group_hex16 x (String.append "::" (join_groups h)) Hx eq_refl) as (off & Ho & ->).
    replace (off =? 0) with false by lia. rewrite !append_cons, append_nil.
    change (":" =a dot)%char with false. change (":" =a colon)%char with true. cbv iota.
    destruct h as [|y h]; [done|].
    destruct (join_groups_head (y :: h) Hh ltac:(done)) as (c & s & Ej & _). rewrite Ej, <- Ej.
    rewrite ipv6_go_join; [|done|done|simpl in *; lia..]. done.
  - rewrite join_groups_cons, append_assoc, append_cons by done.
    destruct (hex_group_hex16 x (String ":" (String.append (join_groups (y :: g)) (String.append "::" (join_groups h))))
      Hx eq_refl) as (off & Ho & ->).
    replace (off =? 0) with false by lia. change (":" =a dot)%char with false. change (":" =a colon)%char with true.
    cbv iota. destruct (join_groups_head (y :: g) Hg ltac:(done)) as (c & s & Ej & Hc).
    rewrite Ej, append_cons, Hc, <- append_cons, <- Ej. rewrite IH; [|done|simpl in *; lia..].
    cbn [rev]. by rewrite <- !app_assoc.
Qed.

(** ** IPv6 addresses *)

Lemma zero_run_spec g : take (zero_run g) g = replicate (zero_run g) 0 /\ (zero_run g <= length g)%nat.
Proof.
  induction g as [|x g [IH1 IH2]]; [done|]. cbn [zero_run]. destruct (Z.eqb_spec x 0) as [->|]; [|split; [done|simpl; lia]].
  cbn [take replicate length]. by split; [f_equal|lia].
Qed.

(** A run of zeros in [g]. *)
Definition run_at (g : list Z) (r : nat * nat) : Prop :=
  take r.2 (drop r.1 g) = replicate r.2 0 /\ (r.2 <> 0%nat -> r.1 + r.2 <= length g)%nat.

Lemma best_run_at g pre best : run_at (pre ++ g) best -> run_at (pre ++ g) (best_run g (length pre) best).
Proof.
  revert pre best. induction g as [|x g IH]; intros pre best Hb; [done|]. cbn [best_run].
  replace (pre ++ x :: g) with ((pre ++ [x]) ++ g) by (by rewrite <- app_assoc).
  replace (S (length pre)) with (length (pre ++ [x])) by (rewrite length_app; simpl; lia). apply IH.
  rewrite <- app_assoc. cbn [app]. destruct (_ && _); [|done]. split; cbn [fst snd].
  - rewrite drop_app_length. apply zero_run_spec.
  - intros _. rewrite length_app. destruct (zero_run_spec (x :: g)). lia.
Qed.

Lemma v6_groups_range v : Forall group_range (v6_groups v) /\ length (v6_groups v) = 8%nat.
Proof.
  split; [|done]. unfold v6_groups. apply Forall_map, Forall_true. intros i. apply Z.mod_pos_bound. lia.
Qed.

Lemma groups_value_v6 v : 0 <= v < 2 ^ 128 -> groups_value (v6_groups v) = v.
Proof.
  intros Hv. unfold groups_value, v6_groups. cbn [map fold_left].
  assert (Hd : forall k, 0 <= k -> v / 2 ^ (16 * (k + 1)) = v / 2 ^ (16 * k) / 65536).
  { intros k Hk. rewrite Z.div_div by lia. change 65536 with (2 ^ 16). rewrite <- Z.pow_add_r by lia. do 2 f_equal. lia. }
  assert (H7 : 0 <= v / 2 ^ (16 * 7) < 65536) by (split; [apply Z.div_pos; lia|apply Z.div_lt_upper_bound; lia]).
  assert (He : forall k, 0 <= k -> v / 2 ^ (16 * k) = 65536 * (v / 2 ^ (16 * (k + 1))) + v / 2 ^ (16 * k) mod 65536).
  { intros k Hk. rewrite Hd by lia. apply Z_div_mod_eq_full. }
  change (7 - 0) with 7. change (7 - 1) with (5 + 1). change (7 - 2) with (4 + 1). change (7 - 3) with (3 + 1).
  change (7 - 4) with (2 + 1). change (7 - 5) with (1 + 1). change (7 - 6) with (0 + 1). change (7 - 7) with 0.
  rewrite (Z.mod_small (v / 2 ^ (16 * 7))) by done.
  assert (H0 := He 0 ltac:(lia)). assert (H1 := He 1 ltac:(lia)). assert (H2 := He 2 ltac:(lia)).
  assert (H3 := He 3 ltac:(lia)). assert (H4 := He 4 ltac:(lia)). assert (H5 := He 5 ltac:(lia)).
  assert (H6 := He 6 ltac:(lia)).
  change (v / 2 ^ (16 * 0)) with (v / 1) in *. rewrite Z.div_1_r in *.
  change (0 + 1) with 1 in *. change (1 + 1) with 2 in *. change (2 + 1) with 3 in *. change (3 + 1) with 4 in *.
  change (4 + 1) with 5 in *. change (5 + 1) with 6 in *. change (6 + 1) with 7 in *. lia.
Qed.

Lemma Cut_found s c t : lacks c s = true -> Cut (String.append s (String c t)) c = (s, t, true).
Proof.
  induction s as [|d s IH]; intros Hs.
  - rewrite append_nil. cbn [Cut]. by rewrite Ascii.eqb_refl.
  - rewrite append_cons. cbn [Cut lacks] in *. destruct (Ascii.eqb d c); [done|]. by rewrite (IH Hs).
Qed.

Lemma Cut_lacks s c : lacks c s = true -> Cut s c = (s, "", false).
Proof.
  induction s as [|d s IH]; intros Hs; [done|]. cbn [Cut lacks] in *. destruct (Ascii.eqb d c); [done|].
  by rewrite (IH Hs).
Qed.

(** The groups with the first longest run of zeros left out. *)
Lemma ipv6_string_groups v : 0 <= v < 2 ^ 128 -> exists g h n,
  v6_groups v = g ++ replicate n 0 ++ h /\ Forall group_range g /\ Forall group_range h /\
  (n = 0%nat /\ h = [] /\ ipv6_string v = join_groups g \/
   n <> 0%nat /\ ipv6_string v = String.append (join_groups g) (String.append "::" (join_groups h))).
Proof.
  intros Hv. destruct (v6_groups_range v) as [Hr Hl]. unfold ipv6_string.
  assert (Hb := best_run_at (v6_groups v) [] (0%nat, 0%nat) ltac:(done)). cbn [app length] in Hb.
  destruct (best_run (v6_groups v) 0 (0%nat, 0%nat)) as [st l]. destruct Hb as [Hz Hle]. cbn [fst snd] in *.
  destruct (Nat.eqb_spec l 0) as [->|Hne].
  - exists (v6_groups v), [], 0%nat. split_and!; [by rewrite app_nil_r|done|constructor|by left].
  - exists (take st (v6_groups v)), (drop (st + l) (v6_groups v)), l. split_and!.
    + rewrite <- Hz, <- drop_drop, take_drop. by rewrite take_drop.
    + by apply Forall_take.
    + by apply Forall_drop.
    + by right.
Qed.

(** ** Characters of the texts *)

Lemma lacks_hex_go c fuel v acc : hexdigit c = None -> 0 <= v -> lacks c acc = true -> lacks c (hex_go fuel v acc) = true.
Proof.
  intros Hc. revert v acc. induction fuel as [|fuel IH]; intros v acc Hv Ha; [done|]. cbn [hex_go].
  assert (Hd : lacks c (String (hex_char (v mod 16)) acc) = true).
  { cbn [lacks]. rewrite Ha, andb_true_r. destruct (Ascii.eqb_spec (hex_char (v mod 16)) c) as [<-|]; [|done].
    rewrite hexdigit_char in Hc; [done|apply Z.mod_pos_bound; lia]. }
  destruct (v <? 16); [done|]. apply IH; [apply Z.div_pos; lia|done].
Qed.

Lemma lacks_hex16 c x : hexdigit c = None -> group_range x -> lacks c (hex16 x) = true.
Proof. intros Hc [Hx _]. by apply lacks_hex_go. Qed.

Lemma lacks_join_groups c g : hexdigit c = None -> c <> colon -> Forall group_range g -> lacks c (join_groups g) = true.
Proof.
  intros Hc Hne. induction 1 as [|x g Hx Hg IH]; [done|]. destruct g as [|y g]; [by apply lacks_hex16|].
  rewrite join_groups_cons, lacks_app, lacks_hex16 by done. cbn [andb].
  change (negb (Ascii.eqb ":" c) && lacks c (join_groups (y :: g)) = true). rewrite IH.
  by destruct (Ascii.eqb_spec ":" c) as [<-|].
Qed.

Lemma lacks_ipv6_string c v : hexdigit c = None -> c <> colon -> 0 <= v < 2 ^ 128 -> lacks c (ipv6_string v) = true.
Proof.
  intros Hc Hne Hv. destruct (ipv6_string_groups v Hv) as (g & h & n & _ & Hg & Hh & [(_ & _ & ->)|(_ & ->)]);
    rewrite ?lacks_app, ?lacks_join_groups by done; [done|].
  rewrite andb_true_r. change (negb (Ascii.eqb ":" c) && (negb (Ascii.eqb ":" c) && true) = true).
  by destruct (Ascii.eqb_spec ":" c) as [<-|].
Qed.

Lemma lacks_itoa c x : digit c = None -> 0 <= x < 1000 -> lacks c (itoa x) = true.
Proof.
  intros Hc Hx. rewrite itoa_small by done.
  assert (Hd : forall d s, 0 <= d < 10 -> lacks c s = true -> lacks c (String (digit_char d) s) = true).
  { intros d s Hd Hs. cbn [lacks]. rewrite Hs, andb_true_r.
    destruct (Ascii.eqb_spec (digit_char d) c) as [<-|]; [|done]. by rewrite digit_char_value in Hc. }
  assert (Hm : forall y, 0 <= y mod 10 < 10) by (intros y; apply Z.mod_pos_bound; lia).
  destruct (Z.ltb_spec x 10); [by apply Hd; [lia|]|].
  destruct (Z.ltb_spec x 100); repeat (apply Hd; [first [apply Hm|split; [apply Z.div_pos; lia|apply Z.div_lt_upper_bound; lia]]|]);
    done.
Qed.

Lemma lacks_ipv4_string c v : digit c = None -> c <> dot -> 0 <= v < 2 ^ 32 -> lacks c (ipv4_string v) = true.
Proof.
  intros Hc Hne Hv. destruct (ipv4_octets v Hv) as [Hb _].
  assert (Hm : forall y, 0 <= y mod 256 < 256) by (intros y; apply Z.mod_pos_bound; lia).
  assert (Hd : lacks c "." = true).
  { cbn [lacks]. destruct (Ascii.eqb_spec "." c) as [<-|]; done. }
  unfold ipv4_string. rewrite !lacks_app, Hd.
  rewrite !lacks_itoa by (try done; try lia; pose proof (Hm (v / 2 ^ 16)); pose proof (Hm (v / 2 ^ 8)); pose proof (Hm v); lia).
  done.
Qed.

(** ** ParseAddr reads what String writes *)

Lemma ParseAddr_go_stop p c t s : lacks dot p = true -> lacks colon p = true -> lacks percent p = true ->
  ParseAddr_go (String.append p (String c t)) s = ParseAddr_go (String c t) s.
Proof.
  induction p as [|d p IH]; intros H1 H2 H3; [done|]. rewrite append_cons. cbn [ParseAddr_go lacks] in *.
  destruct (Ascii.eqb d dot); [done|]. destruct (Ascii.eqb d colon); [done|].
  destruct (Ascii.eqb d percent); [done|]. by apply IH.
Qed.

(** An IPv6 text begins with at most one group and a colon. *)
Lemma ipv6_string_colon v : 0 <= v < 2 ^ 128 -> exists p t,
  ipv6_string v = String.append p (String ":" t) /\ lacks dot p = true /\ lacks colon p = true /\ lacks percent p = true.
Proof.
  intros Hv. destruct (ipv6_string_groups v Hv) as (g & h & n & Heq & Hg & Hh & Hcase).
  assert (Hx : forall x, group_range x -> lacks dot (hex16 x) = true /\ lacks colon (hex16 x) = true /\
    lacks percent (hex16 x) = true) by (intros x Hx; by rewrite !lacks_hex16).
  destruct g as [|x g]; [destruct Hcase as [(-> & -> & _)|(_ & ->)]; [done|by eexists "", _]|].
  apply Forall_cons in Hg as [Hr Hg]. destruct (Hx x Hr) as (H1 & H2 & H3). destruct g as [|y g].
  - destruct Hcase as [(-> & -> & _)|(_ & ->)]; [done|]. by eexists (hex16 x), _.
  - rewrite join_groups_cons in Hcase by done.
    destruct Hcase as [(_ & _ & ->)|(_ & ->)]; [by eexists (hex16 x), _|].
    eexists (hex16 x), _. split; [by rewrite append_assoc, append_cons|done].
Qed.

(** The end of parseIPv6. *)
Definition finish6 (zone : string) (o : option (list Z * option nat * string)) : option Addr :=
  match o with
  | None => None
  | Some (groups, ellipsis, rest) =>
      if negb (String.eqb rest EmptyString) then None
      else
        let g := rev groups in
        let n := length g in
        match ellipsis with
        | None => if (n =? 8)%nat then Some (Addr6 (groups_value g) zone) else None
        | Some e =>
            if (n <? 8)%nat
            then Some (Addr6 (groups_value (take e g ++ replicate (8 - n) 0 ++ drop e g)) zone)
            else None
        end
  end.

Lemma parseIPv6_zone s zone : lacks percent s = true ->
  parseIPv6 (String.append s (zone_suffix zone)) =
  if HasPrefix s "::" then
    if String.eqb (sdrop 2 s) "" then Some (Addr6 0 zone) else finish6 zone (ipv6_go 9 (sdrop 2 s) [] (Some 0%nat))
  else finish6 zone (ipv6_go 9 s [] None).
Proof.
  intros Hs. unfold parseIPv6, zone_suffix. destruct (String.eqb_spec zone "") as [->|Hz].
  - rewrite append_empty, Cut_lacks by done. done.
  - change (String.append "%" zone) with (String percent zone). rewrite Cut_found by done.
    destruct (String.eqb_spec zone ""); [done|]. done.
Qed.

Lemma finish6_ellipsis zone g h n : (length g + n + length h = 8)%nat -> n <> 0%nat ->
  finish6 zone (Some (rev h ++ rev g ++ [], Some (length (rev g ++ [] : list Z)), "")) =
  Some (Addr6 (groups_value (g ++ replicate n 0 ++ h)) zone).
Proof.
  intros Hl Hn. unfold finish6. rewrite String.eqb_refl. cbn [negb]. cbv zeta.
  rewrite !app_nil_r, rev_app_distr, !rev_involutive, length_rev, length_app.
  replace (length g + length h <? 8)%nat with true by (symmetry; apply Nat.ltb_lt; lia).
  rewrite take_app_length, drop_app_length. by replace (8 - (length g + length h))%nat with n by lia.
Qed.

Lemma parseIPv6_string v zone : 0 <= v < 2 ^ 128 ->
  parseIPv6 (String.append (ipv6_string v) (zone_suffix zone)) = Some (Addr6 v zone).
Proof.
  intros Hv. rewrite parseIPv6_zone by (by apply lacks_ipv6_string). assert (Hval := groups_value_v6 v Hv).
  destruct (v6_groups_range v) as [_ Hlen].
  destruct (ipv6_string_groups v Hv) as (g & h & n & Heq & Hg & Hh & Hcase).
  rewrite Heq in Hval, Hlen. rewrite !length_app, length_replicate in Hlen.
  destruct g as [|x g].
  - destruct Hcase as [(-> & -> & _)|(Hn & ->)]; [done|]. cbn [app] in *.
    change (join_groups []) with "". rewrite append_nil, HasPrefix_app, (sdrop_app_at 2 "::") by done.
    destruct h as [|y h].
    + change (join_groups []) with "". cbv iota. simpl in Hlen. replace n with 8%nat in Hval by lia.
      by rewrite <- Hval.
    + destruct (join_groups_head (y :: h) Hh ltac:(done)) as (c & s & Ej & _).
      replace (String.eqb (join_groups (y :: h)) "") with false by by rewrite Ej.
      rewrite ipv6_go_join; [|done|done|simpl in *; lia..].
      assert (Hf := finish6_ellipsis zone [] (y :: h) n ltac:(simpl in *; lia) Hn). cbn [rev app length] in Hf.
      cbn [rev]. cbn [app] in Hval. rewrite Hf, Hval. done.
  - destruct (join_groups_head (x :: g) Hg ltac:(done)) as (c & s & Ej & Hc).
    assert (Hp : forall t, HasPrefix (String.append (join_groups (x :: g)) t) "::" = false).
    { intros t. rewrite Ej, append_cons. cbn [HasPrefix]. change ":"%char with colon. by rewrite Hc. }
    destruct Hcase as [(-> & -> & ->)|(Hn & ->)].
    + assert (Hp0 := Hp ""). rewrite append_empty in Hp0. rewrite Hp0.
      rewrite ipv6_go_join; [|done|done|simpl in *; lia..]. rewrite app_nil_r.
      unfold finish6. rewrite String.eqb_refl. cbn [negb]. rewrite rev_involutive.
      replace (length (x :: g)) with 8%nat by (simpl in *; lia). cbn [Nat.eqb].
      replace (x :: g) with ((x :: g) ++ replicate 0 0 ++ []) by by rewrite !app_nil_r. by rewrite Hval.
    + rewrite Hp. rewrite ipv6_go_ellipsis; [|done|done|done|simpl in *; lia..].
      rewrite (finish6_ellipsis zone (x :: g) h n); [by rewrite Hval|simpl in *; lia|done].
Qed.

(** The embedded IPv4 address of a mapped one. *)
Lemma hex_group_octet x rest : 0 <= x < 256 -> group_end rest = true ->
  exists off y, 1 <= off /\ hex_group (String.append (itoa x) rest) 0 0 = Some (off, y, rest).
Proof.
  intros Hx Hr. rewrite itoa_small by lia.
  assert (Hd : forall d, 0 <= d < 10 -> hexdigit (digit_char d) = Some d).
  { intros d Hd. unfold hexdigit. by rewrite digit_char_value. }
  assert (Hm : forall y, 0 <= y mod 10 < 10) by (intros y; apply Z.mod_pos_bound; lia).
  assert (Hq : forall n, 0 < n -> 0 <= x / n) by (intros n Hn; apply Z.div_pos; lia).
  destruct (Z.ltb_spec x 10) as [H1|H1]; [|destruct (Z.ltb_spec x 100) as [H2|H2]];
    rewrite ?append_cons, append_nil; cbn [hex_group].
  - rewrite Hd by lia. rewrite hex_group_end by done. eexists _, _. split; [|done]. lia.
  - rewrite !Hd by (first [apply Hm|split; [apply Hq; lia|apply Z.div_lt_upper_bound; lia]]).
    rewrite hex_group_end by done. eexists _, _. split; [|done]. lia.
  - rewrite !Hd by (first [apply Hm|split; [apply Hq; lia|apply Z.div_lt_upper_bound; lia]]).
    rewrite hex_group_end by done. eexists _, _. split; [|done]. lia.
Qed.

Lemma parseIPv6_mapped w zone : 0 <= w < 2 ^ 32 ->
  parseIPv6 (String.append "::ffff:" (String.append (ipv4_string w) (zone_suffix zone))) =
  Some (Addr6 (65535 * 2 ^ 32 + w) zone).
Proof.
  intros Hw. rewrite <- append_assoc, parseIPv6_zone by (rewrite lacks_app, lacks_ipv4_string by done; done).
  change (HasPrefix (String.append "::ffff:" (ipv4_string w)) "::") with true. cbv iota.
  replace (sdrop 2 (String.append "::ffff:" (ipv4_string w))) with (String.append "ffff:" (ipv4_string w))
    by (symmetry; apply (sdrop_app "::" (String.append "ffff:" (ipv4_string w)))).
  change (String.eqb (String.append "ffff:" (ipv4_string w)) "") with false. cbv iota.
  destruct (ipv4_octets w Hw) as [Hb _].
  assert (E : ipv6_go 8 (ipv4_string w) [65535] (Some 0%nat) =
    Some ([w mod 65536; w / 65536; 65535], Some 0%nat, "")).
  { cbn [ipv6_go length Nat.leb]. unfold ipv4_string at 1.
    destruct (hex_group_octet (w / 2 ^ 24) (String.append "." (
      String.append (itoa (w / 2 ^ 16 mod 256)) (String.append "." (
      String.append (itoa (w / 2 ^ 8 mod 256)) (String.append "." (itoa (w mod 256))))))) Hb eq_refl)
      as (off & y & Ho & ->).
    replace (off =? 0) with false by lia. rewrite append_cons. change ("." =a dot)%char with true. cbv iota.
    cbn [andb]. by rewrite parseIPv4_string. }
  assert (Ed : exists c s, ipv4_string w = String c s /\ (c =a colon) = false).
  { assert (Hc := lacks_ipv4_string colon w eq_refl ltac:(done) Hw). destruct (ipv4_string w) as [|c s] eqn:Es.
    - assert (Hp := parseIPv4_string w Hw). by rewrite Es in Hp.
    - exists c, s. split; [done|]. cbn [lacks] in Hc. by destruct (Ascii.eqb c colon). }
  destruct Ed as (c & s & Es & Hc).
  assert (Eg : ipv6_go 9 (String.append "ffff:" (ipv4_string w)) [] (Some 0%nat) =
    ipv6_go 8 (ipv4_string w) [65535] (Some 0%nat)).
  { rewrite Es at 1. rewrite !append_cons, append_nil. cbn [ipv6_go length Nat.leb hex_group].
    change (hexdigit "f") with (Some 15). change (hexdigit ":") with (@None Z). cbv iota.
    change (3 <? 0) with false. change (3 <? 0 + 1) with false. change (3 <? 0 + 1 + 1) with false.
    change (3 <? 0 + 1 + 1 + 1) with false. change (0 + 1 + 1 + 1 + 1 =? 0) with false.
    change (":" =a dot)%char with false. change (":" =a colon)%char with true. cbv iota. rewrite Hc, Es. done. }
  rewrite Eg, E. unfold finish6. rewrite String.eqb_refl. cbn [negb rev app length Nat.ltb Nat.leb Nat.sub take drop replicate].
  unfold groups_value. cbn [fold_left]. f_equal. f_equal. assert (Hm := Z_div_mod_eq_full w 65536). lia.
Qed.

Lemma mapped_value v : 0 <= v < 2 ^ 128 -> Z.shiftr v 32 = 65535 ->
  0 <= Z.land v (2 ^ 32 - 1) < 2 ^ 32 /\ v = 65535 * 2 ^ 32 + Z.land v (2 ^ 32 - 1).
Proof.
  intros Hv Hs. rewrite Z.shiftr_div_pow2 in Hs by lia. replace (2 ^ 32 - 1) with (Z.ones 32) by done.
  rewrite Z.land_ones by lia. assert (Hm := Z_div_mod_eq_full v (2 ^ 32)).
  split; [apply Z.mod_pos_bound; lia|]. rewrite Hs in Hm. lia.
Qed.

Lemma ParseAddr_String a : addr_wf a -> ParseAddr (Addr_String a) = Some a.
Proof.
  destruct a as [|v|v zone]; intros Hv; [done|..]; unfold ParseAddr; cbn [Addr_String addr_wf] in *.
  - destruct (ipv4_octets v Hv) as [Hb _]. unfold ipv4_string at 1. rewrite append_cons.
    rewrite ParseAddr_go_stop by (apply lacks_itoa; [done|lia]). cbn [ParseAddr_go].
    change ("." =a dot)%char with true. cbv iota. by rewrite parseIPv4_string.
  - destruct (Z.eqb_spec (Z.shiftr v 32) 65535) as [Hs|Hs].
    + destruct (mapped_value v Hv Hs) as [Hw E]. rewrite !append_cons. cbn [ParseAddr_go].
      change (":" =a dot)%char with false. change (":" =a colon)%char with true. cbv iota.
      rewrite <- !append_cons, parseIPv6_mapped by done. by rewrite <- E.
    + destruct (ipv6_string_colon v Hv) as (p & t & E & H1 & H2 & H3). rewrite E at 1.
      rewrite append_assoc, append_cons, ParseAddr_go_stop by done. cbn [ParseAddr_go].
      change (":" =a dot)%char with false. change (":" =a colon)%char with true. cbv iota.
      by apply parseIPv6_string.
Qed.

(** ** Ends of the texts *)

Definition letter_r : ascii := "r"%char.
Definition letter_n : ascii := "n"%char.

(** A text without the letters r and n. *)
Definition plain (s : string) : bool := lacks letter_r s && lacks letter_n s.

Definition plain_char (c : ascii) : bool := negb (Ascii.eqb c letter_r) && negb (Ascii.eqb c letter_n).

Lemma plain_app s t : plain (String.append s t) = plain s && plain t.
Proof. unfold plain. rewrite !lacks_app. by destruct (lacks letter_r s), (lacks letter_n s), (lacks letter_r t). Qed.

Lemma plain_cons c s : plain (String c s) = plain_char c && plain s.
Proof.
  unfold plain, plain_char. cbn [lacks].
  by destruct (Ascii.eqb c letter_r), (Ascii.eqb c letter_n), (lacks letter_r s).
Qed.

(** A plain text that does not end in a dot. *)
Definition literal_text (s : string) : Prop :=
  plain s = true /\ exists t c, s = String.append t (String c EmptyString) /\ Ascii.eqb c "."%char = false.

Lemma digit_char_plain d : 0 <= d < 10 ->
  plain_char (digit_char d) = true /\ Ascii.eqb (digit_char d) "."%char = false.
Proof.
  intros Hd. assert (Hc : d = 0 \/ d = 1 \/ d = 2 \/ d = 3 \/ d = 4 \/ d = 5 \/ d = 6 \/ d = 7 \/ d = 8 \/ d = 9) by lia.
  destruct_or! Hc; subst d; split; reflexivity.
Qed.

Lemma hex_char_plain d : 0 <= d < 16 ->
  plain_char (hex_char d) = true /\ Ascii.eqb (hex_char d) "."%char = false.
Proof.
  intros Hd. assert (Hc : d = 0 \/ d = 1 \/ d = 2 \/ d = 3 \/ d = 4 \/ d = 5 \/ d = 6 \/ d = 7 \/ d = 8 \/ d = 9 \/ d = 10 \/ d = 11 \/ d = 12 \/ d = 13 \/ d = 14 \/ d = 15) by lia.
  destruct_or! Hc; subst d; split; reflexivity.
Qed.

Lemma literal_app s t : plain s = true -> literal_text t -> literal_text (String.append s t).
Proof.
  intros Hs (Ht & u & c & -> & Hc). split; [by rewrite plain_app, Hs|].
  exists (String.append s u), c. by rewrite append_assoc.
Qed.

Lemma literal_char c : plain_char c = true -> Ascii.eqb c "."%char = false -> literal_text (String c EmptyString).
Proof. intros H1 H2. split; [by rewrite plain_cons, H1|]. by exists EmptyString, c. Qed.

(** Numbers written digit by digit in front of a text. *)
Lemma itoa_go_literal fuel v acc : 0 <= v -> literal_text acc -> literal_text (itoa_go fuel v acc).
Proof.
  revert v acc. induction fuel as [|fuel IH]; intros v acc Hv Ha; [done|]. cbn [itoa_go].
  assert (Hd : literal_text (String (digit_char (v mod 10)) acc)).
  { apply (literal_app (String (digit_char (v mod 10)) EmptyString)); [|done]. rewrite plain_cons.
    by rewrite (proj1 (digit_char_plain (v mod 10) ltac:(apply Z.mod_pos_bound; lia))). }
  destruct (v <? 10); [done|]. apply IH; [apply Z.div_pos; lia|done].
Qed.

Lemma itoa_literal v : 0 <= v -> literal_text (itoa v).
Proof.
  intros Hv. unfold itoa. replace (v <? 0) with false by lia. cbn [itoa_go].
  pose proof (digit_char_plain (v mod 10) ltac:(apply Z.mod_pos_bound; lia)) as [H1 H2].
  assert (Hd : literal_text (String (digit_char (v mod 10)) EmptyString)) by by apply literal_char.
  destruct (v <? 10); [done|]. apply (itoa_go_literal 19); [apply Z.div_pos; lia|done].
Qed.

Lemma hex_go_literal fuel v acc : 0 <= v -> literal_text acc -> literal_text (hex_go fuel v acc).
Proof.
  revert v acc. induction fuel as [|fuel IH]; intros v acc Hv Ha; [done|]. cbn [hex_go].
  assert (Hd : literal_text (String (hex_char (v mod 16)) acc)).
  { apply (literal_app (String (hex_char (v mod 16)) EmptyString)); [|done]. rewrite plain_cons.
    by rewrite (proj1 (hex_char_plain (v mod 16) ltac:(apply Z.mod_pos_bound; lia))). }
  destruct (v <? 16); [done|]. apply IH; [apply Z.div_pos; lia|done].
Qed.

Lemma hex16_literal v : 0 <= v -> literal_text (hex16 v).
Proof.
  intros Hv. unfold hex16. cbn [hex_go].
  pose proof (hex_char_plain (v mod 16) ltac:(apply Z.mod_pos_bound; lia)) as [H1 H2].
  assert (Hd : literal_text (String (hex_char (v mod 16)) EmptyString)) by by apply literal_char.
  destruct (v <? 16); [done|]. apply (hex_go_literal 3); [apply Z.div_pos; lia|done].
Qed.

Lemma ipv4_string_literal v : 0 <= v -> literal_text (ipv4_string v).
Proof.
  intros Hv. unfold ipv4_string.
  assert (Hn : forall x, 0 <= x -> plain (itoa x) = true) by (intros x Hx; by apply itoa_literal).
  apply literal_app; [apply Hn, Z.div_pos; lia|]. apply literal_app; [done|].
  apply literal_app; [apply Hn, Z.mod_pos_bound; lia|]. apply literal_app; [done|].
  apply literal_app; [apply Hn, Z.mod_pos_bound; lia|]. apply literal_app; [done|].
  apply itoa_literal, Z.mod_pos_bound. lia.
Qed.

Lemma join_groups_literal g : Forall (fun x => 0 <= x) g -> g <> [] -> literal_text (join_groups g).
Proof.
  induction 1 as [|x g Hx Hg IH]; intros Hne; [done|]. destruct g as [|y g].
  - simpl. by apply hex16_literal.
  - change (join_groups (x :: y :: g)) with (String.append (hex16 x) (String.append ":" (join_groups (y :: g)))).
    apply literal_app; [by apply hex16_literal|]. apply literal_app; [done|]. by apply IH.
Qed.

Lemma join_groups_lacks g : Forall (fun x => 0 <= x) g -> plain (join_groups g) = true.
Proof. intros Hg. destruct g as [|x g]; [done|]. by apply join_groups_literal. Qed.

Lemma ipv6_string_literal v : 0 <= v -> literal_text (ipv6_string v).
Proof.
  intros Hv. unfold ipv6_string.
  assert (Hg : Forall (fun x => 0 <= x) (v6_groups v)).
  { unfold v6_groups. apply Forall_map, Forall_true. intros i. apply Z.mod_pos_bound. lia. }
  destruct (best_run (v6_groups v) 0 (0%nat, 0%nat)) as [st l]. destruct (l =? 0)%nat.
  { by apply join_groups_literal. }
  apply literal_app; [by apply join_groups_lacks, Forall_take|].
  destruct (drop (st + l) (v6_groups v)) as [|x g] eqn:E.
  - split; [done|]. by exists ":", ":"%char.
  - apply literal_app; [done|]. rewrite <- E. apply join_groups_literal; [by apply Forall_drop|by rewrite E].
Qed.

Lemma HasSuffix_snoc t c : HasSuffix (String.append t (String c EmptyString)) "." = Ascii.eqb c "."%char.
Proof.
  unfold HasSuffix. rewrite string_rev_snoc. change (string_rev ".") with ".".
  cbn [HasPrefix]. replace (HasPrefix (string_rev t) "") with true by by destruct (string_rev t). apply andb_true_r.
Qed.

(** ** Alphabet of the texts *)

Fixpoint all_chars (p : ascii -> bool) (s : string) : bool :=
  match s with
  | EmptyString => true
  | String c s' => p c && all_chars p s'
  end.

Lemma all_chars_app p s t : all_chars p (String.append s t) = all_chars p s && all_chars p t.
Proof. induction s as [|c s IH]; [done|]. rewrite append_cons. cbn [all_chars]. by rewrite IH, andb_assoc. Qed.

Lemma all_chars_lacks p s c : all_chars p s = true -> p c = false -> lacks c s = true.
Proof.
  intros Hs Hc. induction s as [|d s IH]; [done|]. cbn [all_chars lacks] in *. apply andb_true_iff in Hs as [Hd Hs].
  destruct (Ascii.eqb_spec d c) as [->|]; [congruence|]. by apply IH.
Qed.

Lemma all_chars_ToLower p s : (forall c, p c = true -> lower_ascii c = c) -> all_chars p s = true -> ToLower s = s.
Proof.
  intros Hp. unfold ToLower. induction s as [|c s IH]; intros Hs; [done|]. cbn [all_chars string_map] in *.
  apply andb_true_iff in Hs as [Hc Hs]. by rewrite Hp, IH.
Qed.

(** Decimal and lower-case hexadecimal digits, colons, dots and slashes. *)
Definition address_char (c : ascii) : bool :=
  ((48 <=? ord c) && (ord c <=? 57)) || ((97 <=? ord c) && (ord c <=? 102)) ||
  (c =a colon) || (c =a dot) || (c =a "/"%char).

Lemma address_char_lower c : address_char c = true -> lower_ascii c = c.
Proof. destruct c as [[] [] [] [] [] [] [] []]; vm_compute; congruence. Qed.

Lemma itoa_chars x : 0 <= x < 1000 -> all_chars address_char (itoa x) = true.
Proof.
  intros Hx. rewrite itoa_small by done.
  assert (Hd : forall d, 0 <= d < 10 -> address_char (digit_char d) = true).
  { intros d Hd. assert (Hc : d = 0 \/ d = 1 \/ d = 2 \/ d = 3 \/ d = 4 \/ d = 5 \/ d = 6 \/ d = 7 \/ d = 8 \/ d = 9) by lia.
    destruct_or! Hc; subst d; reflexivity. }
  assert (Hm : forall y, 0 <= y mod 10 < 10) by (intros y; apply Z.mod_pos_bound; lia).
  destruct (Z.ltb_spec x 10); [cbn [all_chars]; rewrite Hd; [done|lia]|].
  destruct (Z.ltb_spec x 100); cbn [all_chars]; rewrite !Hd;
    first [done|apply Hm|split; [apply Z.div_pos; lia|apply Z.div_lt_upper_bound; lia]].
Qed.

Lemma hex_go_chars fuel v acc : 0 <= v -> all_chars address_char acc = true ->
  all_chars address_char (hex_go fuel v acc) = true.
Proof.
  revert v acc. induction fuel as [|fuel IH]; intros v acc Hv Ha; [done|]. cbn [hex_go].
  assert (Hd : all_chars address_char (String (hex_char (v mod 16)) acc) = true).
  { cbn [all_chars]. rewrite Ha, andb_true_r. assert (Hm := Z.mod_pos_bound v 16 ltac:(lia)).
    generalize dependent (v mod 16). intros d Hd.
    assert (Hc : d = 0 \/ d = 1 \/ d = 2 \/ d = 3 \/ d = 4 \/ d = 5 \/ d = 6 \/ d = 7 \/ d = 8 \/ d = 9 \/
      d = 10 \/ d = 11 \/ d = 12 \/ d = 13 \/ d = 14 \/ d = 15) by lia.
    destruct_or! Hc; subst d; reflexivity. }
  destruct (v <? 16); [done|]. apply IH; [apply Z.div_pos; lia|done].
Qed.

Lemma join_groups_chars g : Forall group_range g -> all_chars address_char (join_groups g) = true.
Proof.
  assert (Hh : forall x, group_range x -> all_chars address_char (hex16 x) = true)
    by (intros x [Hx _]; by apply hex_go_chars).
  induction 1 as [|x g Hx Hg IH]; [done|]. destruct g as [|y g]; [by apply Hh|].
  rewrite join_groups_cons, all_chars_app, Hh by done. exact IH.
Qed.

Lemma ipv4_string_chars v : 0 <= v < 2 ^ 32 -> all_chars address_char (ipv4_string v) = true.
Proof.
  intros Hv. destruct (ipv4_octets v Hv) as [Hb _].
  assert (Hm : forall y, 0 <= y mod 256 < 1000) by (intros y; pose proof (Z.mod_pos_bound y 256); lia).
  unfold ipv4_string. rewrite !all_chars_app, (itoa_chars (v / 2 ^ 24)), !itoa_chars by (apply Hm || lia). done.
Qed.

Lemma ipv6_string_chars v : 0 <= v < 2 ^ 128 -> all_chars address_char (ipv6_string v) = true.
Proof.
  intros Hv. destruct (ipv6_string_groups v Hv) as (g & h & n & _ & Hg & Hh & [(_ & _ & ->)|(_ & ->)]);
    rewrite ?all_chars_app, ?join_groups_chars by done; done.
Qed.

(** ** What ParseAddr accepts *)

(** Hexadecimal digits of both cases, colons and dots. *)
Definition parsed_char (c : ascii) : bool :=
  match hexdigit c with Some _ => true | None => (c =a colon) || (c =a dot) end.

Lemma digit_parsed c d : digit c = Some d -> parsed_char c = true.
Proof. intros E. unfold parsed_char, hexdigit. by rewrite E. Qed.

Lemma dot_parsed c : (c =a dot) = true -> parsed_char c = true.
Proof. intros E. unfold parsed_char. rewrite E, orb_true_r. by destruct (hexdigit c). Qed.

Lemma colon_parsed c : (c =a colon) = true -> parsed_char c = true.
Proof. intros E. unfold parsed_char. rewrite E. by destruct (hexdigit c). Qed.

Lemma ipv4_go_chars s val dig pos acc v : ipv4_go s val dig pos acc = Some v -> all_chars parsed_char s = true.
Proof.
  revert val dig pos acc. induction s as [|c s IH]; intros val dig pos acc; [done|]. cbn [ipv4_go all_chars].
  destruct (digit c) as [d|] eqn:Ed.
  - rewrite (digit_parsed c d Ed). destruct (_ && _); [done|]. destruct (255 <? _); [done|]. apply IH.
  - destruct (c =a dot) eqn:Edot; [|done]. rewrite (dot_parsed c Edot). destruct (_ || _); [done|]. apply IH.
Qed.

Lemma hex_group_chars s off acc off' acc' rest : hex_group s off acc = Some (off', acc', rest) ->
  exists pre, s = String.append pre rest /\ all_chars parsed_char pre = true.
Proof.
  revert off acc. induction s as [|c s IH]; intros off acc; cbn [hex_group].
  - intros [= <- <- <-]. by exists "".
  - destruct (hexdigit c) as [d|] eqn:Ed.
    + destruct (3 <? off); [done|]. intros E. destruct (IH _ _ E) as (pre & -> & Hp). exists (String c pre).
      split; [done|]. cbn [all_chars]. rewrite Hp. unfold parsed_char. by rewrite Ed.
    + intros [= <- <- <-]. by exists "".
Qed.

Lemma ipv6_go_chars fuel s groups e g e' rest : ipv6_go fuel s groups e = Some (g, e', rest) ->
  exists pre, s = String.append pre rest /\ all_chars parsed_char pre = true.
Proof.
  revert s groups e. induction fuel as [|fuel IH]; intros s groups e; [done|]. cbn [ipv6_go].
  destruct (8 <=? length groups)%nat; [intros [= <- <- <-]; by exists ""|].
  destruct (hex_group s 0 0) as [[[off acc] rest1]|] eqn:Eg; [|done].
  destruct (hex_group_chars _ _ _ _ _ _ Eg) as (pre & Hs & Hp). destruct (off =? 0); [done|].
  destruct rest1 as [|c rest1]; [intros [= <- <- <-]; by exists pre|].
  destruct (c =a dot) eqn:Edot.
  { destruct (_ && _); [done|]. destruct (7 <=? _)%nat; [done|]. destruct (parseIPv4 s) as [v|] eqn:Ev; [|done].
    intros [= <- <- <-]. exists s. split; [by rewrite append_empty|]. by eapply ipv4_go_chars. }
  destruct (c =a colon) eqn:Ec; [|done]. destruct rest1 as [|c2 rest2]; [done|].
  assert (Hstep : forall pre2 t, String c2 rest2 = String.append pre2 t -> all_chars parsed_char pre2 = true ->
    exists pre', s = String.append pre' t /\ all_chars parsed_char pre' = true).
  { intros pre2 t E Hp2. exists (String.append pre (String c pre2)). split.
    - by rewrite Hs, E, append_assoc, append_cons.
    - rewrite all_chars_app, Hp. cbn [all_chars]. by rewrite colon_parsed, Hp2. }
  destruct (c2 =a colon) eqn:Ec2.
  - destruct e as [?|]; [done|]. destruct rest2 as [|c3 rest3].
    + intros [= <- <- <-]. apply (Hstep (String c2 "")); [done|]. cbn [all_chars]. by rewrite colon_parsed.
    + intros E. destruct (IH _ _ _ E) as (p & Ep & Hp'). apply (Hstep (String c2 p)); [by rewrite append_cons, <- Ep|].
      cbn [all_chars]. by rewrite colon_parsed.
  - intros E. destruct (IH _ _ _ E) as (p & Ep & Hp'). by apply (Hstep p).
Qed.

Lemma finish6_chars zone fuel s groups e a : finish6 zone (ipv6_go fuel s groups e) = Some a ->
  all_chars parsed_char s = true.
Proof.
  unfold finish6. destruct (ipv6_go fuel s groups e) as [[[g e'] rest]|] eqn:E; [|done].
  destruct (String.eqb_spec rest "") as [->|]; [|done]. intros _.
  destruct (ipv6_go_chars _ _ _ _ _ _ _ E) as (pre & -> & Hp). by rewrite append_empty.
Qed.

Lemma parseIPv6_chars s a : lacks percent s = true -> parseIPv6 s = Some a -> all_chars parsed_char s = true.
Proof.
  intros Hs. assert (E := parseIPv6_zone s "" Hs). change (zone_suffix "") with "" in E. rewrite append_empty in E.
  rewrite E. destruct (HasPrefix s "::") eqn:Ep; [|apply finish6_chars].
  destruct s as [|c1 [|c2 s]]; cbn [HasPrefix] in Ep; [done|by rewrite andb_false_r in Ep|].
  apply andb_true_iff in Ep as [E1 E2].
  apply andb_true_iff in E2 as [E2 _]. cbn [all_chars]. rewrite (colon_parsed c1 E1), (colon_parsed c2 E2).
  change (sdrop 2 (String c1 (String c2 s))) with (sdrop (slen (String c1 (String c2 ""))) (String.append (String c1 (String c2 "")) s)).
  rewrite sdrop_app. destruct (String.eqb_spec s "") as [->|]; [done|]. apply finish6_chars.
Qed.

Lemma ParseAddr_chars s a : lacks percent s = true -> ParseAddr s = Some a -> all_chars parsed_char s = true.
Proof.
  intros Hs. unfold ParseAddr. assert (Hgo : forall scan, ParseAddr_go scan s = Some a -> all_chars parsed_char s = true).
  { induction scan as [|c scan IH]; [done|]. cbn [ParseAddr_go]. destruct (c =a dot).
    - destruct (parseIPv4 s) as [v|] eqn:E; [|done]. intros _. by eapply ipv4_go_chars.
    - destruct (c =a colon); [by apply parseIPv6_chars|]. destruct (c =a percent); [done|apply IH]. }
  apply Hgo.
Qed.

(** ** Prefixes *)

(** [netip.Prefix.String] *)
Definition Prefix_String (p : Prefix) : string :=
  if Prefix_IsValid p then String.append (Addr_String (pfx_addr p)) (String.append "/" (itoa (pfx_bits p)))
  else "invalid Prefix".

(** A valid prefix: its address has no zone and its length fits the family. *)
Definition prefix_wf (p : Prefix) : Prop :=
  addr_wf (pfx_addr p) /\ hasZone (pfx_addr p) = false /\ 0 <= pfx_bits p <= BitLen (pfx_addr p).

Lemma BitLen_range a : 0 <= BitLen a <= 128.
Proof. destruct a; simpl; lia. Qed.

(** The length of a prefix is at most 128. *)
Definition bits_text_ok (b : Z) : bool :=
  match ParseUint (itoa b) 31 with
  | Some b' => (b' =? b) && negb ((1 <? slen (itoa b)) &&
      match sget (itoa b) 0 with Some c => negb ((49 <=? ord c) && (ord c <=? 57)) | None => false end)
  | None => false
  end.

Lemma bits_text b : 0 <= b <= 128 -> bits_text_ok b = true.
Proof.
  intros Hb. assert (Hall : forallb bits_text_ok (map Z.of_nat (seq 0 129)) = true) by by vm_compute.
  rewrite forallb_forall in Hall. apply Hall, in_map_iff. exists (Z.to_nat b).
  split; [lia|]. apply in_seq. lia.
Qed.

Lemma ParsePrefix_String p : prefix_wf p -> ParsePrefix (Prefix_String p) = Some p.
Proof.
  intros (Ha & Hz & Hb). assert (Hl := BitLen_range (pfx_addr p)). assert (Ht := bits_text (pfx_bits p) ltac:(lia)).
  unfold Prefix_String, Prefix_IsValid. replace (0 <=? pfx_bits p) with true by lia.
  unfold ParsePrefix. change (String.append "/" (itoa (pfx_bits p))) with (String "/" (itoa (pfx_bits p))).
  rewrite LastIndexByte_app by (apply lacks_itoa; [done|lia]).
  pose proof (slen_nonneg (Addr_String (pfx_addr p))).
  replace (slen (Addr_String (pfx_addr p)) <? 0) with false by lia. rewrite stake_app, ParseAddr_String, Hz by done.
  replace (sdrop (slen (Addr_String (pfx_addr p)) + 1) (String.append (Addr_String (pfx_addr p))
    (String "/" (itoa (pfx_bits p))))) with (itoa (pfx_bits p)).
  2: { replace (String.append (Addr_String (pfx_addr p)) (String "/" (itoa (pfx_bits p))))
         with (String.append (String.append (Addr_String (pfx_addr p)) "/") (itoa (pfx_bits p)))
         by by rewrite append_assoc.
       symmetry. apply sdrop_app_at. rewrite slen_app. by change (slen "/") with 1. }
  unfold bits_text_ok in Ht. destruct (ParseUint (itoa (pfx_bits p)) 31) as [b|] eqn:Eb; [|done].
  apply andb_true_iff in Ht as [Hbb Hlead]. apply negb_true_iff in Hlead. rewrite Hlead.
  apply Z.eqb_eq in Hbb as ->. replace (pfx_bits p <=? BitLen (pfx_addr p)) with true by lia. by destruct p.
Qed.

(** A zoneless address is written with the characters of addresses, and its
    text is not a wildcard and has no trailing dot. *)
Lemma Addr_String_chars a : addr_wf a -> hasZone a = false -> all_chars address_char (Addr_String a) = true.
Proof.
  destruct a as [|v|v zone]; intros Ha Hz; [done|by apply ipv4_string_chars|]. cbn [hasZone Addr_String addr_wf] in *.
  apply negb_false_iff in Hz. unfold zone_suffix. rewrite Hz, append_empty.
  destruct (Z.eqb_spec (Z.shiftr v 32) 65535) as [Hs|Hs].
  - destruct (mapped_value v Ha Hs) as [Hw _]. rewrite !all_chars_app, ipv4_string_chars by done. done.
  - rewrite append_empty. by apply ipv6_string_chars.
Qed.

Lemma Addr_String_literal a : addr_wf a -> hasZone a = false -> literal_text (Addr_String a).
Proof.
  destruct a as [|v|v zone]; intros Ha Hz; [done|apply ipv4_string_literal; cbn in Ha; lia|].
  cbn [hasZone Addr_String addr_wf] in *. apply negb_false_iff in Hz. unfold zone_suffix. rewrite Hz.
  destruct (Z.eqb_spec (Z.shiftr v 32) 65535) as [Hs|Hs].
  - destruct (mapped_value v Ha Hs) as [Hw _]. apply literal_app; [done|]. rewrite append_empty.
    apply ipv4_string_literal. lia.
  - rewrite append_empty. apply ipv6_string_literal. lia.
Qed.

Lemma Prefix_String_chars p : prefix_wf p -> all_chars address_char (Prefix_String p) = true.
Proof.
  intros (Ha & Hz & Hb). assert (Hl := BitLen_range (pfx_addr p)). unfold Prefix_String, Prefix_IsValid.
  replace (0 <=? pfx_bits p) with true by lia.
  rewrite !all_chars_app, Addr_String_chars, itoa_chars by (done || lia). done.
Qed.

Lemma Prefix_String_literal p : prefix_wf p -> literal_text (Prefix_String p).
Proof.
  intros (Ha & Hz & Hb). assert (Hl := BitLen_range (pfx_addr p)). unfold Prefix_String, Prefix_IsValid.
  replace (0 <=? pfx_bits p) with true by lia.
  apply literal_app; [by apply Addr_String_literal|]. apply literal_app; [done|]. apply itoa_literal. lia.
Qed.

(** The text of a prefix is not the text of an address. *)
Lemma ParseAddr_slash s t : lacks percent (String.append s (String "/" t)) = true ->
  ParseAddr (String.append s (String "/" t)) = None.
Proof.
  intros Hs. destruct (ParseAddr _) as [a|] eqn:E; [|done]. apply ParseAddr_chars in E; [|done].
  rewrite all_chars_app in E. cbn [all_chars] in E. change (parsed_char "/") with false in E.
  by rewrite andb_false_r in E.
Qed.

(** ** What ParseAddr returns *)

Lemma digit_range_text c d : digit c = Some d -> 0 <= d < 10.
Proof. unfold digit. destruct (_ && _) eqn:E; [|done]. intros [= <-]. lia. Qed.

Lemma hexdigit_range c d : hexdigit c = Some d -> 0 <= d < 16.
Proof.
  unfold hexdigit. destruct (digit c) as [x|] eqn:E; [intros [= <-]; apply digit_range_text in E; lia|].
  destruct ((97 <=? ord c) && (ord c <=? 102)) eqn:E1; [intros ?; simplify_eq; lia|].
  destruct ((65 <=? ord c) && (ord c <=? 70)) eqn:E2; [intros ?; simplify_eq; lia|done].
Qed.

Lemma ipv4_go_range s val dig pos acc v : 0 <= val <= 255 -> 0 <= pos <= 3 -> 0 <= acc < 256 ^ pos ->
  ipv4_go s val dig pos acc = Some v -> 0 <= v < 2 ^ 32.
Proof.
  revert val dig pos acc. induction s as [|c s IH]; intros val dig pos acc Hval Hpos Hacc; cbn [ipv4_go].
  - destruct (Z.eqb_spec pos 3) as [->|]; [|done]. destruct (0 <? dig); [|done]. intros [= <-]. lia.
  - destruct (digit c) as [d|] eqn:Ed.
    + apply digit_range_text in Ed. destruct (_ && _); [done|]. destruct (Z.ltb_spec 255 (val * 10 + d)); [done|].
      apply IH; lia.
    + destruct (c =a dot); [|done]. destruct (Z.eqb_spec dig 0); [done|]. destruct (Z.eqb_spec pos 3); [done|].
      cbn [orb]. apply IH; [lia|lia|]. rewrite Z.pow_add_r by lia. lia.
Qed.

Lemma parseIPv4_range s v : parseIPv4 s = Some v -> 0 <= v < 2 ^ 32.
Proof. apply ipv4_go_range; [lia|lia|]. change (256 ^ 0) with 1. lia. Qed.

Lemma hex_group_range s off acc off' acc' rest : 0 <= off <= 4 -> 0 <= acc < 16 ^ off ->
  hex_group s off acc = Some (off', acc', rest) -> group_range acc'.
Proof.
  assert (Hpow : forall k, 0 <= k <= 4 -> 16 ^ k <= 65536) by (intros k Hk; apply (Z.pow_le_mono_r 16 k 4); lia).
  revert off acc. induction s as [|c s IH]; intros off acc Ho Ha; cbn [hex_group].
  - intros [= <- <- <-]. specialize (Hpow off Ho). unfold group_range. lia.
  - destruct (hexdigit c) as [d|] eqn:Ed.
    + apply hexdigit_range in Ed. destruct (Z.ltb_spec 3 off); [done|]. apply IH; [lia|].
      rewrite Z.pow_add_r by lia. change (16 ^ 1) with 16. lia.
    + intros [= <- <- <-]. specialize (Hpow off Ho). unfold group_range. lia.
Qed.

Lemma ipv6_go_range fuel s groups e g e' rest : Forall group_range groups ->
  ipv6_go fuel s groups e = Some (g, e', rest) -> Forall group_range g.
Proof.
  revert s groups e. induction fuel as [|fuel IH]; intros s groups e Hg; [done|]. cbn [ipv6_go].
  destruct (8 <=? length groups)%nat; [by intros [= <- <- <-]|].
  destruct (hex_group s 0 0) as [[[off acc] rest1]|] eqn:Eg; [|done].
  apply hex_group_range in Eg; [|lia|change (16 ^ 0) with 1; lia].
  assert (Hcons : Forall group_range (acc :: groups)) by by constructor.
  destruct (off =? 0); [done|]. destruct rest1 as [|c rest1]; [by intros [= <- <- <-]|].
  destruct (c =a dot).
  { destruct (_ && _); [done|]. destruct (7 <=? _)%nat; [done|]. destruct (parseIPv4 s) as [v|] eqn:Ev; [|done].
    apply parseIPv4_range in Ev. intros [= <- <- <-]. constructor; [apply Z.mod_pos_bound; lia|]. constructor; [|done].
    split; [apply Z.div_pos; lia|apply Z.div_lt_upper_bound; lia]. }
  destruct (c =a colon); [|done]. destruct rest1 as [|c2 rest2]; [done|]. destruct (c2 =a colon); [|by apply IH].
  destruct e as [?|]; [done|]. destruct rest2 as [|c3 rest3]; [by intros [= <- <- <-]|by apply IH].
Qed.

Lemma groups_value_range g : Forall group_range g -> 0 <= groups_value g < 65536 ^ Z.of_nat (length g).
Proof.
  unfold groups_value. induction g as [|x g IH] using rev_ind; [done|]. rewrite Forall_app. intros [Hg Hx].
  rewrite Forall_singleton in Hx. specialize (IH Hg). rewrite fold_left_app, length_app. cbn [fold_left length].
  rewrite Nat2Z.inj_add, Z.pow_add_r by lia. change (65536 ^ Z.of_nat 1) with 65536. unfold group_range in Hx. lia.
Qed.

Lemma finish6_range zone fuel s groups e a : Forall group_range groups ->
  finish6 zone (ipv6_go fuel s groups e) = Some a -> exists v, a = Addr6 v zone /\ 0 <= v < 2 ^ 128.
Proof.
  intros Hg. unfold finish6. destruct (ipv6_go fuel s groups e) as [[[g e'] rest]|] eqn:E; [|done].
  apply ipv6_go_range in E; [|done]. destruct (negb _); [done|]. cbv zeta.
  assert (Hr : Forall group_range (rev g)) by by apply List.Forall_rev.
  assert (Hv : forall l, Forall group_range l -> length l = 8%nat -> 0 <= groups_value l < 2 ^ 128).
  { intros l Hl Hlen. apply groups_value_range in Hl. by rewrite Hlen in Hl. }
  destruct e' as [k|].
  - destruct (Nat.ltb_spec (length (rev g)) 8) as [Hlt|]; [|done]. intros [= <-]. eexists. split; [done|]. apply Hv.
    + rewrite !Forall_app. split_and!; [by apply Forall_take|apply Forall_replicate; split; lia|by apply Forall_drop].
    + rewrite !length_app, length_replicate. rewrite <- (take_drop k (rev g)) at 2.
      rewrite <- (take_drop k (rev g)) in Hlt at 1. rewrite !length_app in *. lia.
  - destruct (Nat.eqb_spec (length (rev g)) 8) as [Hlen|]; [|done]. intros [= <-]. eexists. split; [done|]. by apply Hv.
Qed.

Lemma Cut_spec s c : let '(before, after, found) := Cut s c in
  lacks c before = true /\ if found then s = String.append before (String c after) else s = before /\ after = "".
Proof.
  induction s as [|d s IH]; [done|]. cbn [Cut]. destruct (Ascii.eqb_spec d c) as [->|Hne]; [done|].
  destruct (Cut s c) as [[before after] found]. destruct IH as [Hl Hs]. split.
  - cbn [lacks]. rewrite Hl. by rewrite (proj2 (Ascii.eqb_neq d c)).
  - destruct found; [by rewrite append_cons, Hs|]. destruct Hs as [-> ->]. done.
Qed.

Lemma parseIPv6_range s a : parseIPv6 s = Some a ->
  exists v zone, a = Addr6 v zone /\ 0 <= v < 2 ^ 128 /\ (lacks percent s = true -> zone = "").
Proof.
  unfold parseIPv6. pose proof (Cut_spec s percent) as Hc. destruct (Cut s percent) as [[t zone] zoned]. destruct Hc as [_ Hc].
  assert (Hz : lacks percent s = true -> zone = "").
  { destruct zoned; [|by destruct Hc]. rewrite Hc, lacks_app. cbn [lacks]. by rewrite Ascii.eqb_refl, andb_false_r. }
  destruct (zoned && String.eqb zone ""); [done|].
  assert (Hfin : forall s' e, finish6 zone (ipv6_go 9 s' [] e) = Some a ->
    exists v zone, a = Addr6 v zone /\ 0 <= v < 2 ^ 128 /\ (lacks percent s = true -> zone = "")).
  { intros s' e E. apply finish6_range in E as (v & -> & Hv); [|constructor]. by exists v, zone. }
  destruct (HasPrefix t "::"); [|apply (Hfin t None)].
  destruct (String.eqb (sdrop 2 t) ""); [intros [= <-]; by exists 0, zone|]. apply (Hfin (sdrop 2 t) (Some 0%nat)).
Qed.

Lemma ParseAddr_wf s a : ParseAddr s = Some a -> addr_wf a /\ (lacks percent s = true -> hasZone a = false).
Proof.
  unfold ParseAddr. assert (Hgo : forall scan, ParseAddr_go scan s = Some a ->
    addr_wf a /\ (lacks percent s = true -> hasZone a = false)).
  { induction scan as [|c scan IH]; [done|]. cbn [ParseAddr_go]. destruct (c =a dot).
    - destruct (parseIPv4 s) as [v|] eqn:E; [|done]. intros [= <-]. split; [by eapply parseIPv4_range|done].
    - destruct (c =a colon).
      + intros E. apply parseIPv6_range in E as (v & zone & -> & Hv & Hz). split; [done|].
        intros Hp. cbn [hasZone]. by rewrite (Hz Hp).
      + destruct (c =a percent); [done|exact IH]. }
  apply Hgo.
Qed.

Lemma ParsePrefix_wf s p : ParsePrefix s = Some p -> prefix_wf p.
Proof.
  unfold ParsePrefix. destruct (_ <? 0); [done|]. destruct (ParseAddr _) as [ip|] eqn:Ea; [|done].
  apply ParseAddr_wf in Ea as [Ha _]. destruct (hasZone ip) eqn:Ez; [done|]. destruct (_ && _); [done|].
  destruct (ParseUint _ _) as [b|] eqn:Eb; [|done]. destruct (Z.leb_spec b (BitLen ip)); [|done].
  intros [= <-]. split_and!; [done|done| |done]. cbn [pfx_bits]. unfold ParseUint in Eb.
  destruct (sdrop _ s) as [|c t]; [done|]. destruct (parse_digits (String c t) 0) as [w|] eqn:Ew; [|done].
  assert (Hnn : forall u acc x, 0 <= acc -> parse_digits u acc = Some x -> 0 <= x).
  { induction u as [|d u IH]; intros acc x Hacc; cbn [parse_digits]; [intros [= <-]; lia|].
    destruct (digit d) as [y|] eqn:Ey; [|done]. apply digit_range_text in Ey. apply IH. lia. }
  apply Hnn in Ew; [|lia]. destruct (w <? 2 ^ 31); [by injection Eb as <-|done].
Qed.
