(* ===== verification/PathMatch.v ===== *)
(** * Go's path.Match

    The glob matcher of the standard library, which the firewall uses for host
    names.  A pattern is a sequence of chunks separated by stars; a chunk is
    matched at a position, and after a star at the first position where it fits.
    An absent result is [ErrBadPattern].  Characters are bytes: text is ASCII.

    Every loop consumes at least one character of the pattern, so that its
    length is enough fuel.  The lemmas: whether a pattern is malformed does not
    depend on the name, a malformed pattern matches nothing, and a pattern
    without special characters matches itself only. *)

From Stdlib Require Import Ascii.
From S2P Require Import Prelude GoStd HostPort.

Definition star : ascii := "*"%char.
Definition qmark : ascii := "?"%char.
Definition backslash : ascii := "\"%char.
Definition slash : ascii := "/"%char.
Definition minus : ascii := "-"%char.

(** ** Definitions *)

(** [getEsc]: a possibly escaped character of a class, which must not end the
    pattern. *)
Definition getEsc (chunk : string) : option (ascii * string) :=
  match chunk with
  | EmptyString => None
  | String c chunk' =>
      if (c =a minus) || (c =a rbracket) then None
      else
        let '(r, nchunk) :=
          if c =a backslash then
            match chunk' with
            | EmptyString => (None, EmptyString)
            | String r nchunk => (Some r, nchunk)
            end
          else (Some c, chunk') in
        match r, nchunk with
        | Some r, String _ _ => Some (r, nchunk)
        | _, _ => None
        end
  end.

(** The ranges of a class: whether [r] is in one of them, and the chunk behind
    the closing bracket. *)
Fixpoint match_class (fuel : nat) (chunk : string) (r : ascii) (found first : bool) : option (bool * string) :=
  match fuel with
  | O => None
  | S fuel =>
      let more :=
        match getEsc chunk with
        | None => None
        | Some (lo, chunk1) =>
            let range :=
              match chunk1 with
              | String c chunk2 => if c =a minus then getEsc chunk2 else Some (lo, chunk1)
              | EmptyString => Some (lo, chunk1)
              end in
            match range with
            | None => None
            | Some (hi, chunk3) =>
                match_class fuel chunk3 r (found || ((ord lo <=? ord r) && (ord r <=? ord hi))) false
            end
        end in
      match chunk with
      | String c chunk' => if (c =a rbracket) && negb first then Some (found, chunk') else more
      | EmptyString => more
      end
  end.

(** [matchChunk]: an error, no match, or the rest of the name.  [failed] is the
    state in which only the form of the chunk is checked. *)
Fixpoint match_chunk (fuel : nat) (chunk s : string) (failed : bool) : option (option string) :=
  match chunk with
  | EmptyString => Some (if failed then None else Some s)
  | String c chunk1 =>
      match fuel with
      | O => None
      | S fuel =>
          let failed := failed || String.eqb s EmptyString in
          if c =a lbracket then
            let '(r, s1) := match s with
                            | String r s' => if failed then (chr 0, s) else (r, s')
                            | EmptyString => (chr 0, s)
                            end in
            let '(negated, chunk2) :=
              match chunk1 with
              | String d chunk2 => if d =a "^"%char then (true, chunk2) else (false, chunk1)
              | EmptyString => (false, chunk1)
              end in
            match match_class (String.length chunk2) chunk2 r false true with
            | None => None
            | Some (found, chunk3) => match_chunk fuel chunk3 s1 (failed || Bool.eqb found negated)
            end
          else if c =a qmark then
            match s with
            | String d s' => if failed then match_chunk fuel chunk1 s true else match_chunk fuel chunk1 s' (d =a slash)
            | EmptyString => match_chunk fuel chunk1 s failed
            end
          else
            let literal (d : ascii) (chunk2 : string) :=
              match s with
              | String e s' =>
                  if failed then match_chunk fuel chunk2 s true else match_chunk fuel chunk2 s' (negb (d =a e))
              | EmptyString => match_chunk fuel chunk2 s failed
              end in
            if c =a backslash then
              match chunk1 with
              | EmptyString => None
              | String d chunk2 => literal d chunk2
              end
            else literal c chunk1
      end
  end.

Definition matchChunk (chunk s : string) : option (option string) :=
  match_chunk (String.length chunk) chunk s false.

(** The chunk up to the next star outside of a class, and the rest. *)
Fixpoint scan_chunk (pattern : string) (inrange : bool) : string * string :=
  match pattern with
  | EmptyString => (EmptyString, EmptyString)
  | String c pattern1 =>
      if c =a backslash then
        match pattern1 with
        | EmptyString => (pattern, EmptyString)
        | String d pattern2 =>
            let '(chunk, rest) := scan_chunk pattern2 inrange in (String c (String d chunk), rest)
        end
      else if (c =a star) && negb inrange then (EmptyString, pattern)
      else
        let inrange := if c =a lbracket then true else if c =a rbracket then false else inrange in
        let '(chunk, rest) := scan_chunk pattern1 inrange in (String c chunk, rest)
  end.

Fixpoint skip_stars (pattern : string) : bool * string :=
  match pattern with
  | String c pattern' => if c =a star then (true, (skip_stars pattern').2) else (false, pattern)
  | EmptyString => (false, EmptyString)
  end.

Definition scanChunk (pattern : string) : bool * string * string :=
  let '(starred, pattern) := skip_stars pattern in
  let '(chunk, rest) := scan_chunk pattern false in (starred, chunk, rest).

(** After a star: the first later position at which the chunk matches, without
    skipping a slash; the last chunk must exhaust the name. *)
Fixpoint star_loop (chunk : string) (last : bool) (name : string) : option (option string) :=
  match name with
  | EmptyString => Some None
  | String c name' =>
      if c =a slash then Some None
      else match matchChunk chunk name' with
           | None => None
           | Some (Some t) =>
               if last && negb (String.eqb t EmptyString) then star_loop chunk last name' else Some (Some t)
           | Some None => star_loop chunk last name'
           end
  end.

(** The form of the remaining pattern, before no match is reported. *)
Fixpoint well_formed (fuel : nat) (pattern : string) : bool :=
  match pattern with
  | EmptyString => true
  | _ =>
      match fuel with
      | O => false
      | S fuel =>
          let '(_, chunk, rest) := scanChunk pattern in
          match matchChunk chunk EmptyString with
          | None => false
          | Some _ => well_formed fuel rest
          end
      end
  end.

Definition no_match (pattern : string) : option bool :=
  if well_formed (String.length pattern) pattern then Some false else None.

Fixpoint match_go (fuel : nat) (pattern name : string) : option bool :=
  match pattern with
  | EmptyString => Some (String.eqb name EmptyString)
  | _ =>
      match fuel with
      | O => None
      | S fuel =>
          let '(starred, chunk, rest) := scanChunk pattern in
          if starred && String.eqb chunk EmptyString then Some (IndexByte name slash <? 0)
          else
            match matchChunk chunk name with
            | None => None
            | Some m =>
                match m with
                | Some t =>
                    if String.eqb t EmptyString || negb (String.eqb rest EmptyString) then match_go fuel rest t
                    else if starred then
                      match star_loop chunk (String.eqb rest EmptyString) name with
                      | None => None
                      | Some (Some t) => match_go fuel rest t
                      | Some None => no_match rest
                      end
                    else no_match rest
                | None =>
                    if starred then
                      match star_loop chunk (String.eqb rest EmptyString) name with
                      | None => None
                      | Some (Some t) => match_go fuel rest t
                      | Some None => no_match rest
                      end
                    else no_match rest
                end
            end
      end
  end.

(** [path.Match] *)
Definition Match (pattern name : string) : option bool := match_go (String.length pattern) pattern name.

(** Samples, also of malformed patterns. *)
Example match_samples :
  map (fun '(p, n) => Match p n)
    [("*.example.com", "www.example.com"); ("*.example.com", "example.com"); ("a?c", "abc"); ("a[b-d]c", "acc");
     ("a[^b-d]c", "acc"); ("*", "a/b"); ("a*b*c", "aXXbYYc"); ("[", "a"); ("a[", "b"); ("[]a]", "]"); ("\*", "*");
     ("a*/b", "axyz/b"); ("", ""); ("ab", "abc"); ("[-]", "-"); ("a\", "a")] =
  [Some true; Some false; Some true; Some true; Some false; Some false; Some true; None; None; None; Some true;
   Some true; Some true; Some false; None; None].
Proof. vm_compute. reflexivity. Qed.

(** ** The form of a pattern does not depend on the name *)

Lemma match_class_form fuel chunk r f first r' f' :
  snd <$> match_class fuel chunk r f first = snd <$> match_class fuel chunk r' f' first.
Proof.
  revert chunk f f' first. induction fuel as [|fuel IH]; intros chunk f f' first; [done|]. cbn [match_class].
  assert (Hmore : forall c1 lo,
    snd <$> (match (match c1 with
              | String c chunk2 => if c =a minus then getEsc chunk2 else Some (lo, c1)
              | EmptyString => Some (lo, c1) end) with
       | None => None
       | Some (hi, chunk3) => match_class fuel chunk3 r (f || ((ord lo <=? ord r) && (ord r <=? ord hi))) false end) =
    snd <$> (match (match c1 with
              | String c chunk2 => if c =a minus then getEsc chunk2 else Some (lo, c1)
              | EmptyString => Some (lo, c1) end) with
       | None => None
       | Some (hi, chunk3) => match_class fuel chunk3 r' (f' || ((ord lo <=? ord r') && (ord r' <=? ord hi))) false end)).
  { intros c1 lo. destruct (match c1 with EmptyString => _ | String _ _ => _ end) as [[hi c3]|]; [apply IH|done]. }
  destruct chunk as [|c chunk]; [done|].
  destruct ((c =a rbracket) && negb first); [done|]. destruct (getEsc (String c chunk)) as [[lo c1]|]; [|done]. apply Hmore.
Qed.

Lemma match_class_same fuel chunk r f first r' f' :
  match match_class fuel chunk r f first, match_class fuel chunk r' f' first with
  | Some (_, rest), Some (_, rest') => rest = rest'
  | None, None => True
  | _, _ => False
  end.
Proof.
  pose proof (match_class_form fuel chunk r f first r' f') as E.
  destruct (match_class fuel chunk r f first) as [[? ?]|], (match_class fuel chunk r' f' first) as [[? ?]|]; simpl in E; naive_solver.
Qed.

Lemma match_chunk_form fuel chunk s f s' f' :
  match_chunk fuel chunk s f = None -> match_chunk fuel chunk s' f' = None.
Proof.
  revert chunk s f s' f'. induction fuel as [|fuel IH]; intros chunk s f s' f'; destruct chunk as [|c chunk]; try done.
  cbn [match_chunk].
  destruct (c =a lbracket).
  - set (p := match s with EmptyString => _ | String _ _ => _ end). set (p' := match s' with EmptyString => _ | String _ _ => _ end).
    destruct p as [r t], p' as [r' t'].
    destruct (match chunk with EmptyString => _ | String _ _ => _ end) as [negated chunk2].
    pose proof (match_class_same (String.length chunk2) chunk2 r false true r' false) as Hc.
    destruct (match_class _ chunk2 r false true) as [[? rest]|], (match_class _ chunk2 r' false true) as [[? rest']|];
      try done. subst rest'. apply IH.
  - destruct (c =a qmark).
    + destruct s as [|d s], s' as [|d' s']; repeat case_match; apply IH.
    + assert (Hlit : forall d chunk2,
        match s with
        | String e t => if f || String.eqb s "" then match_chunk fuel chunk2 s true else match_chunk fuel chunk2 t (negb (d =a e))
        | EmptyString => match_chunk fuel chunk2 s (f || String.eqb s "") end = None ->
        match s' with
        | String e t => if f' || String.eqb s' "" then match_chunk fuel chunk2 s' true else match_chunk fuel chunk2 t (negb (d =a e))
        | EmptyString => match_chunk fuel chunk2 s' (f' || String.eqb s' "") end = None).
      { intros d chunk2. destruct s as [|e t], s' as [|e' t']; repeat case_match; apply IH. }
      destruct (c =a backslash); [|apply Hlit]. destruct chunk as [|d chunk2]; [done|apply Hlit].
Qed.

Lemma matchChunk_form chunk s s' : matchChunk chunk s = None -> matchChunk chunk s' = None.
Proof. apply match_chunk_form. Qed.

(** ** Scanning makes progress *)

Lemma skip_stars_length p : (String.length (skip_stars p).2 <= String.length p)%nat.
Proof. induction p as [|c p IH]; [done|]. cbn [skip_stars]. destruct (c =a star); cbn [snd String.length]; lia. Qed.

Lemma scan_chunk_length p inrange :
  let '(chunk, rest) := scan_chunk p inrange in (String.length chunk + String.length rest = String.length p)%nat.
Proof.
  assert (H : forall n p inrange, (String.length p <= n)%nat ->
    let '(chunk, rest) := scan_chunk p inrange in (String.length chunk + String.length rest = String.length p)%nat).
  { induction n as [|n IH]; intros q ir Hn; destruct q as [|c q]; try done; [simpl in Hn; lia|].
    cbn [scan_chunk String.length] in *. destruct (c =a backslash).
    - destruct q as [|d q]; [done|]. cbn [String.length] in *. specialize (IH q ir ltac:(lia)).
      destruct (scan_chunk q ir). cbn [String.length]. lia.
    - destruct ((c =a star) && negb ir); [done|].
      specialize (IH q (if c =a lbracket then true else if c =a rbracket then false else ir) ltac:(lia)).
      destruct (scan_chunk q _). cbn [String.length]. lia. }
  by apply (H (String.length p)).
Qed.

(** Behind the stars a chunk is empty only at the end of the pattern. *)
Lemma skip_stars_head p : match (skip_stars p).2 with String c _ => (c =a star) = false | EmptyString => True end.
Proof. induction p as [|c p IH]; [done|]. cbn [skip_stars]. destruct (c =a star) eqn:E; [exact IH|exact E]. Qed.

Lemma scanChunk_empty p starred rest : scanChunk p = (starred, EmptyString, rest) -> rest = EmptyString.
Proof.
  unfold scanChunk. pose proof (skip_stars_head p) as Hh. destruct (skip_stars p) as [st q]. cbn [snd] in Hh.
  destruct q as [|c q]; [by intros [= <- <-]|]. cbn [scan_chunk]. rewrite Hh. cbn [andb].
  destruct (c =a backslash).
  - destruct q as [|d q]; [by intros [= <- ?]|]. destruct (scan_chunk q false). by intros [= ? ? ?].
  - destruct (scan_chunk q _). by intros [= ? ? ?].
Qed.

Lemma scanChunk_shorter p starred chunk rest : p <> EmptyString -> scanChunk p = (starred, chunk, rest) ->
  (String.length rest < String.length p)%nat.
Proof.
  intros Hp Hs. destruct chunk as [|c chunk].
  - apply scanChunk_empty in Hs as ->. destruct p; [done|]. simpl. lia.
  - unfold scanChunk in Hs. pose proof (skip_stars_length p). destruct (skip_stars p) as [st q]. cbn [snd] in *.
    pose proof (scan_chunk_length q false). destruct (scan_chunk q false) as [c' r']. injection Hs as ? ? ?. subst.
    cbn [String.length] in *. lia.
Qed.

Lemma well_formed_fuel n m p : (String.length p <= n)%nat -> (String.length p <= m)%nat ->
  well_formed n p = well_formed m p.
Proof.
  revert m p. induction n as [|n IH]; intros m p Hn Hm; destruct p as [|c p]; [by destruct m|simpl in Hn; lia|by destruct m|].
  destruct m as [|m]; [simpl in Hm; lia|]. cbn [well_formed].
  destruct (scanChunk (String c p)) as [[st chunk] rest] eqn:E.
  apply scanChunk_shorter in E as Hs; [|done]. destruct (matchChunk chunk ""); [|done].
  apply IH; cbn [String.length] in *; lia.
Qed.

(** ** Malformed patterns match nothing *)

Lemma star_loop_form chunk last name : star_loop chunk last name = None -> exists s, matchChunk chunk s = None.
Proof.
  induction name as [|c name IH]; [done|]. cbn [star_loop]. destruct (c =a slash); [done|].
  destruct (matchChunk chunk name) as [[t|]|] eqn:E; [destruct (_ && _); [exact IH|done]|exact IH|eauto].
Qed.

Lemma match_go_form fuel p name : (String.length p <= fuel)%nat ->
  (match_go fuel p name = None -> well_formed fuel p = false) /\
  (match_go fuel p name = Some true -> well_formed fuel p = true).
Proof.
  revert p name. induction fuel as [|fuel IH]; intros p name Hf; destruct p as [|c p]; [done|simpl in Hf; lia|done|].
  cbn [match_go well_formed]. destruct (scanChunk (String c p)) as [[st chunk] rest] eqn:Es.
  apply scanChunk_shorter in Es as Hsh; [|done]. assert (Hr : (String.length rest <= fuel)%nat) by (simpl in *; lia).
  assert (Hwf := well_formed_fuel fuel (String.length rest) rest Hr ltac:(done)).
  destruct (matchChunk chunk "") as [m0|] eqn:E0.
  - assert (Hok : forall s, matchChunk chunk s <> None) by (intros s Hs; by rewrite (matchChunk_form chunk s "" Hs) in E0).
    assert (Hno : (no_match rest = None -> well_formed fuel rest = false) /\ (no_match rest = Some true -> well_formed fuel rest = true)).
    { rewrite Hwf. unfold no_match. destruct (well_formed (String.length rest) rest); split; congruence. }
    assert (Hstar : forall last,
      let r := match star_loop chunk last name with
               | None => None | Some (Some t) => match_go fuel rest t | Some None => no_match rest end in
      (r = None -> well_formed fuel rest = false) /\ (r = Some true -> well_formed fuel rest = true)).
    { intros last. destruct (star_loop chunk last name) as [[t|]|] eqn:El; [by apply IH|exact Hno|].
      apply star_loop_form in El as [s Hs]. by apply Hok in Hs. }
    destruct (st && String.eqb chunk "") eqn:Etrail.
    { apply andb_true_iff in Etrail as [_ Ec]. apply String.eqb_eq in Ec as ->. apply scanChunk_empty in Es as ->.
      split; [done|]. intros _. by destruct fuel. }
    destruct (matchChunk chunk name) as [[t|]|] eqn:En; [|destruct st; [apply Hstar|exact Hno]|by apply Hok in En].
    destruct (_ || _); [by apply IH|]. destruct st; [apply Hstar|exact Hno].
  - assert (Hbad : forall s, matchChunk chunk s = None) by (intros s; by apply (matchChunk_form chunk "")).
    destruct (st && String.eqb chunk "") eqn:Etrail.
    { apply andb_true_iff in Etrail as [_ Ec]. apply String.eqb_eq in Ec as ->. discriminate E0. }
    by rewrite Hbad.
Qed.

(** A pattern that is malformed for one name matches no name. *)
Lemma Match_malformed p name name' : Match p name = None -> Match p name' <> Some true.
Proof.
  unfold Match. intros H1 H2. apply match_go_form in H1; [|done]. apply match_go_form in H2; [|done]. congruence.
Qed.

(** ** Patterns without special characters *)

Definition plain_char (c : ascii) : bool :=
  negb ((c =a star) || (c =a qmark) || (c =a lbracket) || (c =a backslash)).

Fixpoint literal (s : string) : bool :=
  match s with
  | EmptyString => true
  | String c s' => plain_char c && literal s'
  end.

Lemma plain_char_spec c : plain_char c = true ->
  (c =a star) = false /\ (c =a qmark) = false /\ (c =a lbracket) = false /\ (c =a backslash) = false.
Proof. unfold plain_char. rewrite negb_true_iff, !orb_false_iff. tauto. Qed.

Lemma scan_chunk_literal s : literal s = true -> scan_chunk s false = (s, EmptyString).
Proof.
  induction s as [|c s IH]; [done|]. cbn [literal scan_chunk]. rewrite andb_true_iff.
  intros [(H1 & H2 & H3 & H4)%plain_char_spec Hs]. rewrite H1, H3, H4. cbn [andb].
  destruct (c =a rbracket); by rewrite (IH Hs).
Qed.

Lemma match_chunk_failed fuel chunk s : literal chunk = true -> (String.length chunk <= fuel)%nat ->
  match_chunk fuel chunk s true = Some None.
Proof.
  revert chunk s. induction fuel as [|fuel IH]; intros chunk s Hl Hf; destruct chunk as [|c chunk]; try done; [simpl in Hf; lia|].
  cbn [literal match_chunk String.length] in *. apply andb_true_iff in Hl as [(H1 & H2 & H3 & H4)%plain_char_spec Hl].
  rewrite H2, H3, H4. destruct s as [|e s]; cbn [orb]; apply IH; (done || lia).
Qed.

Lemma match_chunk_literal fuel chunk s : literal chunk = true -> (String.length chunk <= fuel)%nat ->
  match match_chunk fuel chunk s false with
  | Some (Some t) => s = String.append chunk t
  | Some None => forall t, s <> String.append chunk t
  | None => False
  end.
Proof.
  revert chunk s. induction fuel as [|fuel IH]; intros chunk s Hl Hf; destruct chunk as [|c chunk]; try done; [simpl in Hf; lia|].
  cbn [literal match_chunk String.length] in *. apply andb_true_iff in Hl as [(H1 & H2 & H3 & H4)%plain_char_spec Hl].
  rewrite H2, H3, H4. destruct s as [|e s].
  - cbn [orb String.eqb]. rewrite match_chunk_failed by (done || lia). by intros t.
  - cbn [orb String.eqb]. destruct (Ascii.eqb_spec c e) as [->|Hne]; cbn [negb].
    + specialize (IH chunk s Hl ltac:(lia)). destruct (match_chunk fuel chunk s false) as [[t|]|]; [by rewrite IH| |done].
      intros t E. rewrite append_cons in E. injection E as E. by apply (IH t).
    + rewrite match_chunk_failed by (done || lia). intros t E. rewrite append_cons in E. by injection E.
Qed.

(** A literal pattern matches exactly its own text. *)
Lemma Match_literal p name : literal p = true -> Match p name = Some (String.eqb name p).
Proof.
  intros Hp. unfold Match. destruct p as [|c p]; [done|]. cbn [match_go String.length].
  assert (Hsc : scanChunk (String c p) = (false, String c p, EmptyString)).
  { assert (Hc := Hp). cbn [literal] in Hc. apply andb_true_iff in Hc as [(H1 & _)%plain_char_spec _].
    unfold scanChunk. cbn [skip_stars]. by rewrite H1, scan_chunk_literal. }
  rewrite Hsc. cbn [andb]. pose proof (match_chunk_literal (String.length (String c p)) (String c p) name Hp ltac:(done)) as Hm.
  unfold matchChunk. destruct (match_chunk _ (String c p) name false) as [[t|]|]; [| |done].
  - subst name. destruct t as [|d t]; cbn [String.eqb orb negb].
    + rewrite append_empty, String.eqb_refl. by destruct (String.length p).
    + unfold no_match. change (well_formed _ "") with true. cbv iota. f_equal. symmetry. apply String.eqb_neq. intros E.
      apply (f_equal slen) in E. rewrite slen_app in E. unfold slen in E. cbn [String.length] in E. lia.
  - unfold no_match. change (well_formed _ "") with true. cbv iota. f_equal. symmetry. apply String.eqb_neq.
    intros ->. apply (Hm ""). by rewrite append_empty.
Qed.
