(* ===== verification/DNSCache.v ===== *)
(** * DNS messages and the DNS answer cache

    Models src/dns/types.go (messages) and the storage part of
    src/dns/middleware.go: [MemoryStorage], the cache keys, the synthetic PTR
    entries and [CachedReverseDNSNames].

    An instant is a number of nanoseconds since Go's zero [time.Time], so that
    [IsZero] is a comparison with 0.  The storage interface [CacheStorage] is a
    class: the routers only see the answers of its [Get]. *)

From S2P Require Import Prelude GoStd NetIP.

Definition TypeA : Z := 1.
Definition TypeNS : Z := 2.
Definition TypeCNAME : Z := 5.
Definition TypeSOA : Z := 6.
Definition TypePTR : Z := 12.
Definition TypeMX : Z := 15.
Definition TypeTXT : Z := 16.
Definition TypeAAAA : Z := 28.
Definition TypeSRV : Z := 33.
Definition ClassIN : Z := 1.
Definition OpcodeQuery : Z := 0.
Definition RCodeSuccess : Z := 0.

Record Question : Type := MkQuestion { q_Name : string; q_Type : Z; q_Class : Z }.

Record Resource : Type := MkResource {
  rr_Name : string; rr_Type : Z; rr_Class : Z; rr_TTL : Z; rr_Data : list byte }.

Record Message : Type := MkMessage {
  m_ID : Z; m_Response : bool; m_Opcode : Z; m_RCode : Z;
  m_Authoritative : bool; m_Truncated : bool; m_RecursionDesired : bool;
  m_RecursionAvailable : bool; m_AuthenticatedData : bool; m_CheckingDisabled : bool;
  m_Questions : list Question; m_Answers : list Resource;
  m_Authorities : list Resource; m_Additionals : list Resource }.

(** ** The storage interface

    [Get] answers with the message stored under a key (absent: no entry) and
    may drop entries, [Set] stores a message, [Delete] removes one. *)
Class CacheStorage (St : Type) : Type := {
  cs_Get : St -> string -> Z -> option Message * St;
  cs_Set : St -> string -> option Message -> Z -> St;
  cs_Delete : St -> string -> St }.

(** The answers of a storage at one state. *)
Definition storage_view := string -> Z -> option Message.

Definition view_of {St} `{CacheStorage St} (s : St) : storage_view :=
  fun key now => fst (cs_Get s key now).

(** ** MemoryStorage *)

Record cacheEntry : Type := MkCacheEntry { ce_msg : Message; ce_expire : Z }.

Record MemoryStorage : Type := MkMemoryStorage { ms_m : gmap string cacheEntry }.

Definition NewMemoryStorage : MemoryStorage := MkMemoryStorage ∅.

Definition ms_Get (s : MemoryStorage) (key : string) (now : Z) : option Message * MemoryStorage :=
  match ms_m s !! key with
  | None => (None, s)
  | Some ent =>
      if negb (ce_expire ent =? 0) && negb (now <? ce_expire ent)
      then (None, MkMemoryStorage (delete key (ms_m s)))
      else (Some (ce_msg ent), s)
  end.

(** The text of [absName] in src/dns/wire.go. *)
Definition absName (name : string) : string :=
  if String.eqb name "" || String.eqb name "." then "."
  else if HasSuffix name "." then name
  else String.append name ".".

Definition cacheKey (msg : option Message) : string :=
  match msg with
  | None => ""
  | Some m =>
      match m_Questions m with
      | [] => ""
      | q :: _ =>
          String.append (absName (q_Name q)) (String.append "|" (
          String.append (itoa (q_Type q)) (String.append "|" (itoa (q_Class q)))))
      end
  end.

Definition minTTL (msg : Message) : Z :=
  fold_left (fun ttl rr => if (ttl =? 0) || (rr_TTL rr <? ttl) then rr_TTL rr else ttl)
    (m_Answers msg) 0.

Definition second : Z := 1000000000.

Definition ms_Set (s : MemoryStorage) (key : string) (msg : option Message) (now : Z) : MemoryStorage :=
  match msg with
  | None => s
  | Some m =>
      if negb (m_Response m) || negb (m_RCode m =? RCodeSuccess) then s
      else
        let key := if String.eqb key "" then cacheKey msg else key in
        let ttl := minTTL m in
        if ttl =? 0 then s
        else MkMemoryStorage (<[key := MkCacheEntry m (now + ttl * second)]> (ms_m s))
  end.

Definition ms_Delete (s : MemoryStorage) (key : string) : MemoryStorage :=
  MkMemoryStorage (delete key (ms_m s)).

#[global] Instance MemoryStorage_CacheStorage : CacheStorage MemoryStorage := {|
  cs_Get := ms_Get; cs_Set := ms_Set; cs_Delete := ms_Delete |}.

(** ** Cached reverse DNS names *)

Definition bytes_string (b : list byte) : string :=
  fold_right (fun x s => String (chr (Byte.to_N x)) s) EmptyString b.

Definition ptr_names (answers : list Resource) : list string :=
  map (fun rr => bytes_string (rr_Data rr))
    (List.filter (fun rr => (rr_Type rr =? TypePTR) && (rr_Class rr =? ClassIN)
                            && negb (zlen (rr_Data rr) =? 0)) answers).

Definition CachedReverseDNSNames (storage : option storage_view) (addr : Addr) (now : Z)
  : list string :=
  match storage with
  | None => []
  | Some get =>
      let addr := Unmap addr in
      if negb (IsValid addr) then []
      else match get (String.append (Addr_String addr) ".|12|1") now with
           | None => []
           | Some msg =>
               if negb (m_Response msg) || negb (m_RCode msg =? RCodeSuccess) then []
               else ptr_names (m_Answers msg)
           end
  end.

#[global] Arguments CachedReverseDNSNames : simpl never.
