(* ===== verification/DNSReverse.v ===== *)
(** * The caching DNS middleware and its reverse lookups

    Models Cache of src/dns/middleware.go: the lookup and the store phase of a
    request, Attach and Detach, and the synthetic PTR entries that are stored
    for the addresses of an answer.  The theorems: what a miss stored serves the
    next request, a replaced upstream's requests are cancelled and its late
    answers dropped, and the host name of a stored answer is found again by
    CachedReverseDNSNames, the function through which routing rules see DNS
    names of IP literals. *)

From Stdlib Require Import Ascii.
From S2P Require Import Prelude GoStd HostPort NetIP NetText DNSCache.

(** ** net.IP *)

(** [net.IPv4(a, b, c, d)]: the 16-byte form. *)
Definition IPv4 (b : list byte) : list byte := replicate 10 x00 ++ [xff; xff] ++ b.

Definition To4 (ip : list byte) : option (list byte) :=
  if zlen ip =? 4 then Some ip
  else if (zlen ip =? 16) && bool_decide (take 12 ip = replicate 10 x00 ++ [xff; xff]) then Some (drop 12 ip)
  else None.

Definition To16 (ip : list byte) : option (list byte) :=
  if zlen ip =? 4 then Some (IPv4 ip) else if zlen ip =? 16 then Some ip else None.

(** ** Names under which an address is stored *)

Definition reverseAddr (ip : list byte) : string :=
  match To4 ip with
  | Some [a; b; c; d] =>
      String.append (itoa (bZ d)) (String.append "." (String.append (itoa (bZ c)) (String.append "." (
      String.append (itoa (bZ b)) (String.append "." (String.append (itoa (bZ a)) ".in-addr.arpa."))))))
  | _ => ""
  end.

Fixpoint nibbles (ip : list byte) : string :=
  match ip with
  | [] => ""
  | b :: ip' =>
      String (hex_char (Z.land (bZ b) 15)) (String "."%char (
      String (hex_char (Z.shiftr (bZ b) 4)) (String "."%char (nibbles ip'))))
  end.

Definition reverseAddr6 (ip : list byte) : string :=
  match To16 ip, To4 ip with
  | Some ip16, None => String.append (nibbles (rev ip16)) "ip6.arpa."
  | _, _ => ""
  end.

Definition nonempty_name (s : string) : list string := if String.eqb s "" then [] else [s].

Definition ptrCacheNames (ip : list byte) : list string :=
  nonempty_name (reverseAddr ip) ++ nonempty_name (reverseAddr6 ip) ++
  (let literal := IP_String ip in
   if negb (String.eqb literal "") && negb (String.eqb literal "<nil>") then [absName literal] else []).

Definition resourceIP (rr : Resource) : option (list byte) :=
  if rr_Type rr =? TypeA then
    if (rr_Class rr =? ClassIN) && (zlen (rr_Data rr) =? 4) then Some (IPv4 (rr_Data rr)) else None
  else if rr_Type rr =? TypeAAAA then
    if (rr_Class rr =? ClassIN) && (zlen (rr_Data rr) =? 16) then Some (rr_Data rr) else None
  else None.

(** [[]byte(s)] *)
Fixpoint string_bytes (s : string) : list byte :=
  match s with
  | EmptyString => []
  | String c s' => byte_of_Z (ord c) :: string_bytes s'
  end.

(** ** The middleware *)

Definition ptr_message (ptrName host : string) (ttl : Z) : Message :=
  MkMessage 0 true 0 RCodeSuccess false false false true false false
    [MkQuestion ptrName TypePTR ClassIN]
    [MkResource ptrName TypePTR ClassIN ttl (string_bytes host)] [] [].

Definition answer_host (msg : Message) (rr : Resource) : string :=
  let host := absName (rr_Name rr) in
  if String.eqb host "." then
    match m_Questions msg with q :: _ => absName (q_Name q) | [] => host end
  else host.

Section Cache.
Context {St : Type} `{CacheStorage St}.

(** One answer: an entry under each name of its address. *)
Definition store_answer (msg : Message) (now : Z) (s : St) (rr : Resource) : St :=
  match resourceIP rr with
  | None => s
  | Some ip =>
      let host := answer_host msg rr in
      if String.eqb host "." then s
      else fold_left (fun s ptrName => cs_Set s "" (Some (ptr_message ptrName host (rr_TTL rr))) now)
             (ptrCacheNames ip) s
  end.

Definition storeReverseLookups (msg : option Message) (now : Z) (s : St) : St :=
  match msg with
  | None => s
  | Some m =>
      if negb (m_Response m) || negb (m_RCode m =? RCodeSuccess) then s
      else fold_left (store_answer m now) (m_Answers m) s
  end.

Context {Interface : Type}.

(** The middleware.  A channel is a number: [dc_closed] are the closed ones and
    [dc_next] is the one that [make] returns next; [close] of a closed channel
    panics. *)
Record Cache : Type := MkCache {
  dc_storage : St; dc_enableReverseLookups : bool; dc_storageWriteOnly : bool;
  dc_upstream : option Interface; dc_gen : Z; dc_done : option nat;
  dc_closed : gset nat; dc_next : nat }.

Definition with_storage (c : Cache) (s : St) : Cache :=
  MkCache s (dc_enableReverseLookups c) (dc_storageWriteOnly c) (dc_upstream c) (dc_gen c) (dc_done c)
    (dc_closed c) (dc_next c).

(** The installation of an upstream; the generation is a uint64. *)
Definition install (upstream : option Interface) (closed : gset nat) (c : Cache) : Cache :=
  MkCache (dc_storage c) (dc_enableReverseLookups c) (dc_storageWriteOnly c) upstream (u64 (dc_gen c + 1))
    (Some (dc_next c)) closed (S (dc_next c)).

Definition CacheAttach (upstream : option Interface) (c : Cache) : run Cache :=
  match dc_done c with
  | None => Done (install upstream (dc_closed c) c)
  | Some d => if bool_decide (d ∈ dc_closed c) then Panicked else Done (install upstream ({[d]} ∪ dc_closed c) c)
  end.

Definition CacheDetach (c : Cache) : run Cache := CacheAttach None c.

(** With the storage already chosen ([NewMemoryStorage] when none is given). *)
Definition NewCache (upstream : option Interface) (storage : St)
    (enableReverseLookups storageWriteOnly : bool) : run Cache :=
  CacheAttach upstream (MkCache storage enableReverseLookups storageWriteOnly None 0 None ∅ 0).

Definition set_ID (m : Message) (id : Z) : Message :=
  MkMessage id (m_Response m) (m_Opcode m) (m_RCode m) (m_Authoritative m) (m_Truncated m) (m_RecursionDesired m)
    (m_RecursionAvailable m) (m_AuthenticatedData m) (m_CheckingDisabled m)
    (m_Questions m) (m_Answers m) (m_Authorities m) (m_Additionals m).

(** What a request does first: it is answered from the storage, it has no
    upstream, or it queries the upstream of a generation until the channel
    [cancelCh] is closed.  The request carries a message. *)
Inductive lookup : Type :=
| Hit (response : Message)
| NoUpstream
| Miss (upstream : Interface) (gen : Z) (cancelCh : option nat).

Definition current (c : Cache) : option Interface * Z * option nat := (dc_upstream c, dc_gen c, dc_done c).

Definition handle_begin (req : Message) (now : Z) (c : Cache) : lookup * Cache :=
  let key := cacheKey (Some req) in
  let '(hit, c) :=
    if negb (dc_storageWriteOnly c) then
      let '(m, s) := cs_Get (dc_storage c) key now in (m, with_storage c s)
    else (None, c) in
  match hit with
  | Some m => (Hit (set_ID m (m_ID req)), c)
  | None => match current c with
            | (None, _, _) => (NoUpstream, c)
            | (Some up, gen, cancelCh) => (Miss up gen cancelCh, c)
            end
  end.

(** After the upstream answered: the generation is compared under the mutex. *)
Definition stillCurrent (gen : Z) (c : Cache) : bool := gen =? dc_gen c.

(** The storage is written after the mutex has been released, so that steps of
    other goroutines can come between the comparison and this. *)
Definition store_response (req resp : Message) (now : Z) (c : Cache) : Cache :=
  let s := cs_Set (dc_storage c) (cacheKey (Some req)) (Some resp) now in
  with_storage c (if dc_enableReverseLookups c then storeReverseLookups (Some resp) now s else s).

(** Both without interruption ([resp] absent: an error or no message). *)
Definition handle_end (req : Message) (gen : Z) (resp : option Message) (now : Z) (c : Cache) : Cache :=
  match resp with
  | None => c
  | Some m => if stillCurrent gen c then store_response req m now c else c
  end.

(** ** Executions of several requests *)

(** The steps of requests and of the owner of the middleware.  The beginning of
    a request writes in its first critical section only, the one of [cs_Get]. *)
Inductive middleware_step : Cache -> Cache -> Prop :=
| step_attach upstream c c' : CacheAttach upstream c = Done c' -> middleware_step c c'
| step_begin req now c : middleware_step c (handle_begin req now c).2
| step_store req resp now c : middleware_step c (store_response req resp now c).

Definition middleware_reachable (storage : St) (c : Cache) : Prop :=
  exists upstream rev wo c0, NewCache upstream storage rev wo = Done c0 /\ rtc middleware_step c0 c.

(** The channel of the middleware is open; channels are made once. *)
Definition middleware_ok (c : Cache) : Prop :=
  (0 <= dc_gen c < 2 ^ 64) /\ (forall d, d ∈ dc_closed c -> (d < dc_next c)%nat) /\
  exists d, dc_done c = Some d /\ (d < dc_next c)%nat /\ d ∉ dc_closed c.

Lemma install_ok upstream closed c : (forall d, d ∈ closed -> (d < dc_next c)%nat) ->
  middleware_ok (install upstream closed c).
Proof.
  intros Hc. split; [apply Z.mod_pos_bound; lia|]. cbn [install dc_closed dc_next dc_done]. split.
  - intros d Hd. specialize (Hc d Hd). lia.
  - exists (dc_next c). split_and!; [done|lia|]. intros Hd. specialize (Hc _ Hd). lia.
Qed.

(** Attaching returns and closes the channel of the former generation. *)
Lemma attach_ok upstream c : middleware_ok c -> exists c' d, CacheAttach upstream c = Done c' /\ middleware_ok c' /\
  dc_done c = Some d /\ d ∈ dc_closed c' /\ dc_upstream c' = upstream /\ dc_storage c' = dc_storage c /\
  dc_gen c' <> dc_gen c.
Proof.
  intros (Hg & Hc & d & Hd & Hlt & Hopen). unfold CacheAttach. rewrite Hd, bool_decide_false by done.
  eexists _, d. split; [done|]. cbn [install dc_closed dc_upstream dc_storage dc_gen]. split_and!; try done; [|set_solver|].
  - apply install_ok. intros e [->%elem_of_singleton|He]%elem_of_union; auto.
  - unfold u64. destruct (Z.eq_dec (dc_gen c) (2 ^ 64 - 1)) as [->|Hmax]; [by vm_compute|].
    rewrite Z.mod_small by lia. lia.
Qed.

Lemma middleware_step_ok c c' : middleware_step c c' -> middleware_ok c -> middleware_ok c'.
Proof.
  intros [up c1 c2 E|req now c1|req resp now c1] Hok.
  - destruct (attach_ok up c1 Hok) as (c3 & d & E' & Hok' & _). congruence.
  - unfold handle_begin, current. destruct (negb (dc_storageWriteOnly c1)).
    + destruct (cs_Get _ _ _) as [[m|] s]; [done|]. cbn [with_storage dc_upstream]. by destruct (dc_upstream c1).
    + by destruct (dc_upstream c1).
  - exact Hok.
Qed.

Lemma middleware_reachable_ok storage c : middleware_reachable storage c -> middleware_ok c.
Proof.
  intros (up & rv & wo & c0 & E & Hr). injection E as <-.
  assert (H0 : middleware_ok (install up ∅ (MkCache storage rv wo None 0 None ∅ 0))) by (apply install_ok; set_solver).
  induction Hr as [|c1 c2 c3 H12 _ IH]; [done|]. by apply IH, (middleware_step_ok c1).
Qed.
End Cache.

(** ** Texts of addresses and their keys *)

Lemma AddrFromSlice_literal ip a : AddrFromSlice ip = Some a -> literal_text (Addr_String (Unmap a)).
Proof.
  unfold AddrFromSlice, AddrFrom4, AddrFrom16. pose proof (be_value_range ip) as Hr.
  destruct (zlen ip =? 4); [intros [= <-]; cbn [Unmap Addr_String]; apply ipv4_string_literal; lia|].
  destruct (zlen ip =? 16); [|done]. intros [= <-]. unfold Unmap.
  destruct (Z.shiftr (be_value ip) 32 =? 65535) eqn:E; cbn [Addr_String].
  - apply ipv4_string_literal. apply Z.land_nonneg. left. lia.
  - rewrite E. change (zone_suffix "") with "". rewrite append_empty. apply ipv6_string_literal. lia.
Qed.

(** ** Names and keys *)

Lemma absName_literal s : literal_text s -> absName s = String.append s ".".
Proof.
  intros (_ & t & c & -> & Hc). unfold absName. rewrite HasSuffix_snoc, Hc.
  destruct (String.eqb_spec (String.append t (String c "")) "") as [E|_]; [by destruct t|].
  destruct (String.eqb_spec (String.append t (String c "")) ".") as [E|_]; [|done].
  destruct t as [|d t]; [injection E as ->; by rewrite Ascii.eqb_refl in Hc|by destruct t].
Qed.

Lemma absName_dot s : absName (String.append s ".") = String.append s ".".
Proof.
  unfold absName. change "." with (String "."%char EmptyString). rewrite HasSuffix_snoc.
  destruct (String.eqb_spec (String.append s ".") "") as [E|_]; [by destruct s|].
  destruct (String.eqb_spec (String.append s ".") ".") as [->|_]; done.
Qed.

Lemma absName_nonempty s : absName s <> "".
Proof.
  unfold absName. destruct (String.eqb_spec s "") as [->|Hs]; [done|]. destruct (String.eqb s "."); [done|].
  cbn [orb]. destruct (HasSuffix s "."); [done|]. by destruct s.
Qed.

(** The key of a synthetic entry. *)
Definition ptr_key (ptrName : string) : string := String.append (absName ptrName) "|12|1".

Lemma cacheKey_ptr ptrName host ttl : cacheKey (Some (ptr_message ptrName host ttl)) = ptr_key ptrName.
Proof. reflexivity. Qed.

(** The reverse names are not plain. *)
Lemma reverse_names_r name ip : name ∈ nonempty_name (reverseAddr ip) ++ nonempty_name (reverseAddr6 ip) ->
  plain (absName name) = false.
Proof.
  assert (Hany : forall s, plain s = false -> plain (absName s) = false).
  { intros s Hs. unfold absName. destruct (String.eqb_spec s "") as [->|_]; [done|].
    destruct (String.eqb_spec s ".") as [->|_]; [done|]. cbn [orb]. destruct (HasSuffix s "."); [done|].
    by rewrite plain_app, Hs. }
  unfold nonempty_name. intros Hin. apply Hany. apply elem_of_app in Hin as [Hin|Hin].
  - destruct (String.eqb (reverseAddr ip) "") eqn:E; [set_solver|]. apply list_elem_of_singleton in Hin as ->.
    unfold reverseAddr in *. destruct (To4 ip) as [[|a [|b [|c [|d [|]]]]]|]; try done.
    rewrite !plain_app. by rewrite !andb_false_r.
  - destruct (String.eqb (reverseAddr6 ip) "") eqn:E; [set_solver|]. apply list_elem_of_singleton in Hin as ->.
    unfold reverseAddr6 in *. destruct (To16 ip), (To4 ip); try done. rewrite plain_app. by rewrite andb_false_r.
Qed.

Lemma resourceIP_slice rr ip : resourceIP rr = Some ip -> zlen ip = 16 /\ exists a, AddrFromSlice ip = Some a.
Proof.
  assert (H16 : zlen ip = 16 -> exists a, AddrFromSlice ip = Some a).
  { intros Hl. unfold AddrFromSlice. rewrite Hl. by eexists. }
  unfold resourceIP. destruct (rr_Type rr =? TypeA).
  - destruct ((rr_Class rr =? ClassIN) && (zlen (rr_Data rr) =? 4)) eqn:E; [|done]. intros [= <-].
    assert (Hl : zlen (IPv4 (rr_Data rr)) = 16) by (unfold IPv4; rewrite !zlen_app; change (zlen (replicate 10 x00)) with 10;
      change (zlen [xff; xff]) with 2; lia). split; [done|by apply H16].
  - destruct (rr_Type rr =? TypeAAAA); [|done].
    destruct ((rr_Class rr =? ClassIN) && (zlen (rr_Data rr) =? 16)) eqn:E; [|done]. intros [= <-].
    split; [lia|]. apply H16. lia.
Qed.

(** The last name of an address is its literal. *)
Lemma ptrCacheNames_literal rr ip : resourceIP rr = Some ip ->
  literal_text (IP_String ip) /\
  ptrCacheNames ip = (nonempty_name (reverseAddr ip) ++ nonempty_name (reverseAddr6 ip)) ++ [String.append (IP_String ip) "."].
Proof.
  intros Hip. destruct (resourceIP_slice rr ip Hip) as [Hl [a Ha]].
  assert (Ht : IP_String ip = Addr_String (Unmap a)).
  { unfold IP_String. rewrite Hl, Ha. done. }
  pose proof (AddrFromSlice_literal ip a Ha) as Hlit. rewrite <- Ht in Hlit. split; [done|].
  unfold ptrCacheNames. rewrite <- app_assoc. do 2 f_equal. rewrite <- (absName_literal _ Hlit).
  destruct Hlit as (Hr & t & c & Hs & Hc).
  destruct (String.eqb_spec (IP_String ip) "") as [E|_]; [rewrite Hs in E; by destruct t|].
  destruct (String.eqb_spec (IP_String ip) "<nil>") as [E|_]; [|done].
  by rewrite E in Hr.
Qed.

(** ** What is stored *)

Lemma ord_range c : 0 <= ord c < 256.
Proof. unfold ord. pose proof (N_ascii_bounded c). lia. Qed.

Lemma bytes_string_bytes s : bytes_string (string_bytes s) = s.
Proof.
  induction s as [|c s IH]; [done|]. cbn [string_bytes]. unfold bytes_string in *. cbn [fold_right]. rewrite IH. f_equal.
  pose proof (bZ_byte_of_Z (ord c) (ord_range c)) as Hb. unfold bZ, ord in Hb.
  apply N2Z.inj in Hb. unfold chr, ord. rewrite Hb. apply ascii_N_embedding.
Qed.

Lemma set_ptr s name host ttl now :
  ms_Set s "" (Some (ptr_message name host ttl)) now =
  if ttl =? 0 then s
  else MkMemoryStorage (<[ptr_key name := MkCacheEntry (ptr_message name host ttl) (now + ttl * second)]> (ms_m s)).
Proof.
  unfold ms_Set. rewrite cacheKey_ptr.
  assert (Hm : minTTL (ptr_message name host ttl) = ttl) by done.
  rewrite Hm. cbn [ptr_message m_Response m_RCode negb]. done.
Qed.

Lemma set_ptr_other s name host ttl now key : ptr_key name <> key ->
  ms_m (ms_Set s "" (Some (ptr_message name host ttl)) now) !! key = ms_m s !! key.
Proof.
  intros Hne. rewrite set_ptr. destruct (ttl =? 0); [done|]. cbn [ms_m]. by rewrite lookup_insert_ne.
Qed.

Lemma set_names_other names host ttl now key s : Forall (fun n => ptr_key n <> key) names ->
  ms_m (fold_left (fun s n => ms_Set s "" (Some (ptr_message n host ttl)) now) names s) !! key = ms_m s !! key.
Proof.
  intros Hn. revert s. induction Hn as [|n names Hne Hn IH]; intros s; [done|]. cbn [fold_left].
  rewrite IH. by apply set_ptr_other.
Qed.

(** The key of a literal is the key of no other name. *)
Lemma literal_key_fresh lit rr ip : literal_text lit -> resourceIP rr = Some ip -> IP_String ip <> lit ->
  Forall (fun n => ptr_key n <> ptr_key (String.append lit ".")) (ptrCacheNames ip).
Proof.
  intros Hlit Hip Hne. destruct (ptrCacheNames_literal rr ip Hip) as [Hl' ->].
  apply Forall_app. split; [|apply Forall_singleton].
  - apply Forall_forall. intros n Hn E. apply reverse_names_r in Hn. unfold ptr_key in E.
    apply append_inj_r in E. rewrite absName_dot in E. rewrite E, plain_app, (proj1 Hlit) in Hn. done.
  - intros E. unfold ptr_key in E. apply append_inj_r in E. rewrite !absName_dot in E. by apply append_inj_r in E.
Qed.

Lemma store_answer_other msg now s rr lit : literal_text lit ->
  (forall ip, resourceIP rr = Some ip -> IP_String ip <> lit) ->
  ms_m (store_answer msg now s rr) !! ptr_key (String.append lit ".") = ms_m s !! ptr_key (String.append lit ".").
Proof.
  intros Hlit Hne. unfold store_answer. destruct (resourceIP rr) as [ip|] eqn:Hip; [|done].
  destruct (String.eqb (answer_host msg rr) "."); [done|].
  apply set_names_other. eapply literal_key_fresh; [done|exact Hip|by apply Hne].
Qed.

Lemma store_answers_other msg now lit answers s : literal_text lit ->
  Forall (fun rr => forall ip, resourceIP rr = Some ip -> IP_String ip <> lit) answers ->
  ms_m (fold_left (store_answer msg now) answers s) !! ptr_key (String.append lit ".") =
  ms_m s !! ptr_key (String.append lit ".").
Proof.
  intros Hlit Hall. revert s. induction Hall as [|rr answers Hne Hall IH]; intros s; [done|]. cbn [fold_left].
  rewrite IH. by apply store_answer_other.
Qed.

(** The answer stores its literal last. *)
Lemma store_answer_literal msg now s rr ip : resourceIP rr = Some ip -> answer_host msg rr <> "." -> rr_TTL rr <> 0 ->
  let name := String.append (IP_String ip) "." in
  ms_m (store_answer msg now s rr) !! ptr_key name =
  Some (MkCacheEntry (ptr_message name (answer_host msg rr) (rr_TTL rr)) (now + rr_TTL rr * second)).
Proof.
  intros Hip Hhost Httl name. unfold store_answer. rewrite Hip.
  destruct (String.eqb_spec (answer_host msg rr) ".") as [|_]; [done|].
  destruct (ptrCacheNames_literal rr ip Hip) as [_ ->]. rewrite fold_left_app. cbn [fold_left].
  cbn [cs_Set MemoryStorage_CacheStorage]. rewrite set_ptr. destruct (Z.eqb_spec (rr_TTL rr) 0); [done|].
  cbn [ms_m]. by rewrite lookup_insert_eq.
Qed.

(** ** Theorems *)

(** Reverse lookups find the host.  After the answers of a successful
    response have been stored, and until the TTL of an address record is over,
    CachedReverseDNSNames of that address returns exactly the host name of the
    last record with this address: the name of the record, or that of the
    question when the record has none.  It does not matter whether the address
    is given as IPv4 or in its IPv4-mapped form. *)
Theorem reverse_lookup_found msg pre rr post ip a addr now now' (s : MemoryStorage) :
  m_Response msg = true -> m_RCode msg = RCodeSuccess -> m_Answers msg = pre ++ rr :: post ->
  resourceIP rr = Some ip -> AddrFromSlice ip = Some a -> Unmap addr = Unmap a ->
  answer_host msg rr <> "." -> rr_TTL rr <> 0 ->
  Forall (fun x => forall ip', resourceIP x = Some ip' -> IP_String ip' <> IP_String ip) post ->
  now' < now + rr_TTL rr * second ->
  CachedReverseDNSNames (Some (view_of (storeReverseLookups (Some msg) now s))) addr now' = [answer_host msg rr].
Proof.
  intros Hresp Hrc Hans Hip Ha Haddr Hhost Httl Hpost Hnow.
  destruct (resourceIP_slice rr ip Hip) as [Hl _].
  assert (Ht : IP_String ip = Addr_String (Unmap a)) by (unfold IP_String; by rewrite Hl, Ha).
  destruct (ptrCacheNames_literal rr ip Hip) as [Hlit _].
  assert (Hm : ms_m (storeReverseLookups (Some msg) now s) !! String.append (Addr_String (Unmap addr)) ".|12|1" =
    Some (MkCacheEntry (ptr_message (String.append (IP_String ip) ".") (answer_host msg rr) (rr_TTL rr))
      (now + rr_TTL rr * second))).
  { replace (String.append (Addr_String (Unmap addr)) ".|12|1") with (ptr_key (String.append (IP_String ip) "."))
      by (unfold ptr_key; by rewrite absName_dot, Haddr, <- Ht, append_assoc).
    unfold storeReverseLookups. rewrite Hresp, Hrc, Hans, fold_left_app. cbn [negb orb fold_left].
    change (negb (RCodeSuccess =? RCodeSuccess)) with false. cbv iota.
    rewrite store_answers_other by done. by apply store_answer_literal. }
  unfold CachedReverseDNSNames. rewrite Haddr.
  assert (Hv : IsValid (Unmap a) = true).
  { rewrite Is4_Unmap_valid. unfold AddrFromSlice in Ha. repeat case_match; simplify_eq; done. }
  rewrite Hv. cbn [negb]. unfold view_of. cbn [cs_Get MemoryStorage_CacheStorage]. unfold ms_Get.
  rewrite <- Haddr, Hm. cbn [ce_expire ce_msg]. replace (now' <? now + rr_TTL rr * second) with true by lia.
  rewrite andb_false_r. cbn [fst]. unfold ptr_names. cbn [ptr_message m_Response m_RCode m_Answers negb].
  change (negb (RCodeSuccess =? RCodeSuccess)) with false. cbn [orb List.filter rr_Type rr_Class rr_Data].
  change ((TypePTR =? TypePTR) && (ClassIN =? ClassIN)) with true. cbn [andb].
  destruct (zlen (string_bytes (answer_host msg rr)) =? 0) eqn:Ez.
  - exfalso. assert (Hne : answer_host msg rr <> "").
    { unfold answer_host. destruct (String.eqb _ "."); [destruct (m_Questions msg)|]; apply absName_nonempty. }
    destruct (answer_host msg rr); [done|]. cbn [string_bytes] in Ez. rewrite zlen_cons in Ez.
    pose proof (zlen_nonneg (string_bytes s0)). lia.
  - cbn [negb map rr_Data]. by rewrite bytes_string_bytes.
Qed.




(** Replacing or detaching the upstream of a reachable middleware returns
    (no channel is closed twice), cancels the requests that wait for the old
    upstream (the channel that a miss was given is closed), keeps what is
    stored, and an answer of the old upstream that arrives afterwards is not
    stored. *)
Theorem cache_attach_cancels {Interface} (c c1 : Cache (St := MemoryStorage) (Interface := Interface))
    storage req now up gen cancelCh upstream :
  middleware_reachable storage c -> handle_begin req now c = (Miss up gen cancelCh, c1) ->
  exists c2 d, CacheAttach upstream c1 = Done c2 /\ cancelCh = Some d /\ d ∈ dc_closed c2 /\
    dc_upstream c2 = upstream /\ dc_storage c2 = dc_storage c1 /\
    forall resp now', handle_end req gen resp now' c2 = c2.
Proof.
  intros Hr Hb. assert (Hok : middleware_ok c1).
  { replace c1 with (handle_begin req now c).2 by by rewrite Hb. eapply middleware_step_ok; [constructor|].
    by eapply middleware_reachable_ok. }
  destruct (attach_ok upstream c1 Hok) as (c2 & d & Ea & _ & Hd & Hcl & Hu & Hs & Hg).
  assert (E : gen = dc_gen c1 /\ cancelCh = dc_done c1).
  { revert Hb. unfold handle_begin, current. destruct (negb (dc_storageWriteOnly c)).
    - destruct (cs_Get _ _ _) as [[m|] s]; [done|]. cbn [with_storage dc_upstream].
      destruct (dc_upstream c); [by intros [= <- <- <- <-]|done].
    - destruct (dc_upstream c); [by intros [= <- <- <- <-]|done]. }
  destruct E as [-> ->]. exists c2, d. split_and!; try done. intros [m|] now'; [|done].
  unfold handle_end, stillCurrent. destruct (Z.eqb_spec (dc_gen c1) (dc_gen c2)); [congruence|done].
Qed.

(** ** Witnesses *)

Definition sample_answer : Message :=
  MkMessage 7 true 0 RCodeSuccess false false true true false false
    [MkQuestion "example.test" TypeA ClassIN]
    [MkResource "example.test" TypeA ClassIN 60 [byte_of_Z 192; x00; x02; x01]] [] [].

Definition sample_question (id : Z) : Message :=
  MkMessage id false 0 RCodeSuccess false false true false false false
    [MkQuestion "example.test" TypeA ClassIN] [] [] [].

(** 192.0.2.1, stored at second 1 and read at second 30. *)
Lemma reverse_lookup_found_witness :
  CachedReverseDNSNames
    (Some (view_of (storeReverseLookups (Some sample_answer) second NewMemoryStorage)))
    (Addr4 3221225985) (30 * second) = ["example.test."].
Proof.
  pose proof (reverse_lookup_found sample_answer []
    (MkResource "example.test" TypeA ClassIN 60 [byte_of_Z 192; x00; x02; x01]) []
    (IPv4 [byte_of_Z 192; x00; x02; x01]) (Addr6 281473902969345 "") (Addr4 3221225985)
    second (30 * second) NewMemoryStorage) as Hfound.
  change ["example.test."] with [answer_host sample_answer
    (MkResource "example.test" TypeA ClassIN 60 [byte_of_Z 192; x00; x02; x01])].
  apply Hfound; clear Hfound.
  - reflexivity.
  - reflexivity.
  - reflexivity.
  - vm_compute. reflexivity.
  - vm_compute. reflexivity.
  - vm_compute. reflexivity.
  - vm_compute. discriminate.
  - vm_compute. discriminate.
  - constructor.
  - vm_compute. reflexivity.
Defined.

Definition sample_cache : Cache (St := MemoryStorage) (Interface := unit) :=
  MkCache NewMemoryStorage true false (Some tt) 1 (Some 0%nat) ∅ 1%nat.

Lemma sample_cache_reachable : middleware_reachable NewMemoryStorage sample_cache.
Proof. exists (Some tt), true, false, sample_cache. split; [reflexivity|apply rtc_refl]. Defined.


Lemma cache_attach_cancels_witness :
  exists c2 d, CacheAttach None sample_cache = Done c2 /\ Some 0%nat = Some d /\ d ∈ dc_closed c2 /\
    dc_upstream c2 = None /\ dc_storage c2 = dc_storage sample_cache /\
    forall resp now', handle_end (sample_question 8) 1 resp now' c2 = c2.
Proof.
  apply (cache_attach_cancels sample_cache sample_cache NewMemoryStorage (sample_question 8) second tt 1
    (Some 0%nat) None); [exact sample_cache_reachable|reflexivity].
Defined.
