(* ===== verification/Bytecode.v ===== *)
(** * Routing bytecode: opcodes, decoding, validation

    Models the machine-independent half of src/routing/bytecode.go: the opcode
    table, the two parameter readers, [validateBytecode], [validateTables],
    the scans over a program ([mentionedBytecodeSlots],
    [bytecodeAddrStringOps]) and the small predicates on opcodes, networks and
    parameters.  The address caches are in AddrCache.v.

    A program is a [list byte].  The source's loops
    [for pc := 0; pc < len(code); { op := code[pc]; pc++; ... }] are instances
    of [while_pc], with one unit of fuel per iteration: every iteration
    consumes at least one byte, so [length code] iterations are enough.  The
    reference semantics runs over the decoded instructions. *)

From S2P Require Import Prelude GoStd NetIP.

(** ** Opcodes, in the order of the source's [iota] *)

Inductive opcode : Type :=
| OP_DROP | OP_SLOT | OP_TRUE | OP_FALSE | OP_NOT | OP_AND | OP_OR
| OP_NET4 | OP_NET6 | OP_UDP | OP_TCP | OP_FQDN | OP_LFQDN
| OP_ADDR_S | OP_LADDR_S | OP_ADDR_RE | OP_LADDR_RE
| OP_ADDR4 | OP_LADDR4 | OP_ADDR6 | OP_LADDR6
| OP_SNET4 | OP_LSNET4 | OP_SNET6 | OP_LSNET6
| OP_PORT | OP_LPORT | OP_RULE | OP_DIAL | OP_LISTEN | OP_LOOKUP
| OP_INTERCEPT | OP_SNIFF | OP_SNIFF_NONE | OP_ROUTE
| OP_BACKEND | OP_QTYPE | OP_QCLASS | OP_OPCODE.

#[global] Instance opcode_eq_dec : EqDecision opcode.
Proof. solve_decision. Defined.

Definition all_opcodes : list opcode :=
  [ OP_DROP; OP_SLOT; OP_TRUE; OP_FALSE; OP_NOT; OP_AND; OP_OR;
    OP_NET4; OP_NET6; OP_UDP; OP_TCP; OP_FQDN; OP_LFQDN;
    OP_ADDR_S; OP_LADDR_S; OP_ADDR_RE; OP_LADDR_RE;
    OP_ADDR4; OP_LADDR4; OP_ADDR6; OP_LADDR6;
    OP_SNET4; OP_LSNET4; OP_SNET6; OP_LSNET6;
    OP_PORT; OP_LPORT; OP_RULE; OP_DIAL; OP_LISTEN; OP_LOOKUP;
    OP_INTERCEPT; OP_SNIFF; OP_SNIFF_NONE; OP_ROUTE;
    OP_BACKEND; OP_QTYPE; OP_QCLASS; OP_OPCODE ].

(** The opcode a byte stands for; bytes from 39 on stand for none. *)
Definition opcode_of (b : byte) : option opcode := index all_opcodes (bZ b).

Fixpoint position (op : opcode) (l : list opcode) : Z :=
  match l with
  | [] => 0
  | op' :: l' => if decide (op = op') then 0 else 1 + position op l'
  end.

Definition op_byte (op : opcode) : byte := byte_of_Z (position op all_opcodes).

(** ** Errors *)

Inductive bcTable : Type :=
| TblString | TblRegexp | TblIPv4 | TblIPv6 | TblSubnet4 | TblSubnet6
| TblRule | TblClassifier | TblRouteAction | TblBackend.

Inductive bcError : Type :=
| ErrMissingUint8 (name : string) (pc : Z)
| ErrMissingUint16 (name : string) (pc : Z)
| ErrUnknownOpcode (name : string) (pc : Z) (op : byte)
| ErrUnderflow (name : string) (pc : Z)
| ErrNotValid (name : string) (pc : Z) (op : byte)
| ErrLAddrNotValid (name : string) (pc : Z)
| ErrSlotRange (name : string) (pc param : Z)
| ErrIndexRange (name : string) (pc : Z) (table : bcTable) (param n : Z)
| ErrSubnetBits (i bits : Z)
| ErrIPv6Addr (i : Z)
| ErrIPv6Subnet (i : Z)
| ErrNilRegexp (i : Z)
| ErrEmptyBackend (i : Z)
| ErrClassifierName (i : Z)
| ErrClassifierFactory (name : string)
| ErrClassifierDuplicate (name : string)
| ErrRemapAction (i : Z)
| ErrPredicateDepth (name : string) (depth : Z).

(** ** Tables *)

Record IPv4Subnet : Type := MkIPv4Subnet { sn_Addr : Z; sn_Bits : Z }.

#[global] Instance IPv4Subnet_eq_dec : EqDecision IPv4Subnet.
Proof. solve_decision. Defined.

#[global] Instance IPv4Subnet_countable : Countable IPv4Subnet.
Proof.
  refine (inj_countable' (fun p => (sn_Addr p, sn_Bits p)) (fun q => MkIPv4Subnet q.1 q.2) _).
  intros []; reflexivity.
Defined.

(** The first element (with its position) that fails a test. *)
Fixpoint first_bad {A} (bad : A -> bool) (l : list A) (i : Z) : option (Z * A) :=
  match l with
  | [] => None
  | x :: l' => if bad x then Some (i, x) else first_bad bad l' (i + 1)
  end.

Definition validateTables (ipv4Subnets : list IPv4Subnet) (ipv6Addrs : list Addr)
    (ipv6Subnets : list Prefix) : result bcError unit :=
  match first_bad (fun s => 32 <? sn_Bits s) ipv4Subnets 0 with
  | Some (i, s) => Failure (ErrSubnetBits i (sn_Bits s))
  | None =>
      match first_bad (fun a => negb (Is6 a)) ipv6Addrs 0 with
      | Some (i, _) => Failure (ErrIPv6Addr i)
      | None =>
          match first_bad (fun p => negb (Prefix_IsValid p) || negb (Is6 (pfx_addr p))) ipv6Subnets 0 with
          | Some (i, _) => Failure (ErrIPv6Subnet i)
          | None => Success tt
          end
      end
  end.

(** ** Reading parameters *)

Inductive bytecodeParamKind : Type :=
| bytecodeParamNone | bytecodeParamUint8 | bytecodeParamUint16.

(** [readBytecodeParam(name, code, &pc, op)] with [pc] behind the opcode: the
    parameter, its kind and the new [pc]. *)
Definition readBytecodeParam (name : string) (code : list byte) (pc : Z) (op : byte)
  : result bcError (Z * bytecodeParamKind * Z) :=
  match opcode_of op with
  | Some (OP_DROP | OP_TRUE | OP_FALSE | OP_NOT | OP_AND | OP_OR
         | OP_NET4 | OP_NET6 | OP_UDP | OP_TCP | OP_FQDN | OP_LFQDN
         | OP_DIAL | OP_LISTEN | OP_LOOKUP | OP_INTERCEPT | OP_SNIFF_NONE) =>
      Success (0, bytecodeParamNone, pc)
  | Some OP_SLOT =>
      match index code pc with
      | None => Failure (ErrMissingUint8 name (pc - 1))
      | Some b => Success (bZ b, bytecodeParamUint8, pc + 1)
      end
  | Some (OP_ADDR_S | OP_LADDR_S | OP_ADDR_RE | OP_LADDR_RE
         | OP_ADDR4 | OP_LADDR4 | OP_ADDR6 | OP_LADDR6
         | OP_SNET4 | OP_LSNET4 | OP_SNET6 | OP_LSNET6
         | OP_PORT | OP_LPORT | OP_RULE | OP_SNIFF | OP_ROUTE | OP_BACKEND
         | OP_QTYPE | OP_QCLASS | OP_OPCODE) =>
      match le16 code pc with
      | None => Failure (ErrMissingUint16 name (pc - 1))
      | Some v => Success (v, bytecodeParamUint16, pc + 2)
      end
  | None => Failure (ErrUnknownOpcode name (pc - 1) op)
  end.

(** [readBytecodeParamUnchecked(code, pc, op)]: a missing parameter byte is an
    index out of range. *)
Definition readBytecodeParamUnchecked (code : list byte) (pc : Z) (op : byte) : run (Z * Z) :=
  match opcode_of op with
  | Some OP_SLOT => let! b := must (index code pc) in Done (bZ b, pc + 1)
  | Some (OP_ADDR_S | OP_LADDR_S | OP_ADDR_RE | OP_LADDR_RE
         | OP_ADDR4 | OP_LADDR4 | OP_ADDR6 | OP_LADDR6
         | OP_SNET4 | OP_LSNET4 | OP_SNET6 | OP_LSNET6
         | OP_PORT | OP_LPORT | OP_RULE | OP_SNIFF | OP_ROUTE | OP_BACKEND
         | OP_QTYPE | OP_QCLASS | OP_OPCODE) =>
      let! v := must (le16 code pc) in Done (v, pc + 2)
  | _ => Done (0, pc)
  end.

(** ** Loops over a program *)

(** [for pc < len(code) { body }]: the body gets the position and the byte of
    the opcode and says how to go on. *)
Fixpoint while_pc {S R : Type} (fuel : nat) (code : list byte)
    (body : Z -> byte -> S -> run (ctl (Z * S) R)) (pc : Z) (s : S) : run (ctl S R) :=
  if pc <? zlen code then
    match fuel with
    | O => OutOfFuel
    | Datatypes.S fuel' =>
        let! op := must (index code pc) in
        let! c := body pc op s in
        match c with
        | Continue (pc', s') => while_pc fuel' code body pc' s'
        | Return r => Done (Return r)
        end
    end
  else Done (Continue s).

(** The loops that read their parameters unchecked. *)
Definition scan {S R : Type} (code : list byte) (step : byte -> Z -> S -> run (ctl S R)) (s : S)
  : run (ctl S R) :=
  while_pc (length code) code
    (fun pc op s =>
       let! r := readBytecodeParamUnchecked code (pc + 1) op in
       let! c := step op r.1 s in
       match c with
       | Continue s' => Done (Continue (r.2, s'))
       | Return x => Done (Return x)
       end) 0 s.

(** ** validateBytecode *)

(** What an opcode does to the depth of the stack. *)
Inductive stackClass : Type := ClsTerminal | ClsNot | ClsBinary | ClsPush.

Definition stack_class (op : byte) : stackClass :=
  match opcode_of op with
  | Some (OP_DROP | OP_SLOT | OP_INTERCEPT | OP_ROUTE | OP_BACKEND) => ClsTerminal
  | Some OP_NOT => ClsNot
  | Some (OP_AND | OP_OR) => ClsBinary
  | _ => ClsPush
  end.

Definition validate_depth (name : string) (opPC : Z) (op : byte) (depth : Z) : result bcError Z :=
  match stack_class op with
  | ClsTerminal => if depth <? 1 then Failure (ErrUnderflow name opPC) else Success (depth - 1)
  | ClsNot => if depth <? 1 then Failure (ErrUnderflow name opPC) else Success depth
  | ClsBinary => if depth <? 2 then Failure (ErrUnderflow name opPC) else Success (depth - 1)
  | ClsPush => Success (depth + 1)
  end.

Definition opValidator := Z -> byte -> Z -> bytecodeParamKind -> result bcError unit.

Definition validate_step (name : string) (code : list byte) (validateOp : opValidator)
    (opPC : Z) (op : byte) (depth : Z) : result bcError (Z * Z) :=
  try! p := readBytecodeParam name code (opPC + 1) op in
  let '(param, kind, pc) := p in
  try! _ := validateOp opPC op param kind in
  try! depth' := validate_depth name opPC op depth in
  Success (pc, depth').

(** The error of the first bad instruction; otherwise the final depth. *)
Definition validate_loop (name : string) (code : list byte) (validateOp : opValidator)
  : run (result bcError Z) :=
  let! c := while_pc (length code) code
    (fun opPC op depth =>
       Done match validate_step name code validateOp opPC op depth with
            | Success (pc, depth') => Continue (pc, depth')
            | Failure e => Return e
            end) 0 0 in
  Done match c with Continue depth => Success depth | Return e => Failure e end.

Definition validateBytecode (name : string) (code : list byte) (validateOp : opValidator)
  : run (result bcError unit) :=
  let! r := validate_loop name code validateOp in
  Done (try! _ := r in Success tt).

(** [gonnect.RouterSlots] *)
Definition RouterSlots : Z := 16.

(** ** Parameters as indexes and numbers *)

Definition bytecodeParamIndex (param n : Z) : Z * bool :=
  if n <=? 0 then (0, false)
  else if n <=? param then (0, false)
  else (param, true).

Definition bytecodeParamInt (param limit : Z) : Z * bool :=
  if limit <? 0 then (0, false)
  else if limit <? param then (0, false)
  else (param, true).

(** ** Slots mentioned by a program *)

(** [mark]: out-of-range and zero slots are ignored. *)
Definition mark_slot (maxSlot param : Z) (seen : gset Z) : gset Z :=
  if param =? 0 then seen
  else let '(slot, ok) := bytecodeParamInt param maxSlot in
       if ok then {[slot]} ∪ seen else seen.

(** The route-action table enters only with the slots of its actions. *)
Definition mention_step (maxSlot : Z) (routeSlots : list Z) (op : byte) (param : Z)
    (seen : gset Z) : run (ctl (gset Z) unit) :=
  match opcode_of op with
  | Some OP_SLOT => Done (Continue (mark_slot maxSlot param seen))
  | Some OP_ROUTE =>
      let '(idx, ok) := bytecodeParamIndex param (zlen routeSlots) in
      if ok then let! slot := must (index routeSlots idx) in
                 Done (Continue (mark_slot maxSlot slot seen))
      else Done (Continue seen)
  | _ => Done (Continue seen)
  end.

Fixpoint mention_programs (maxSlot : Z) (routeSlots : list Z) (programs : list (list byte))
    (seen : gset Z) : run (gset Z) :=
  match programs with
  | [] => Done seen
  | code :: programs' =>
      let! c := scan code (mention_step maxSlot routeSlots) seen in
      match c with
      | Continue seen' => mention_programs maxSlot routeSlots programs' seen'
      | Return _ => Panicked
      end
  end.

Definition slots_upto (maxSlot : Z) : list Z := map Z.of_nat (seq 1 (Z.to_nat maxSlot)).

Definition mentionedBytecodeSlotsWithRoutes (maxSlot : Z) (routeSlots : list Z)
    (programs : list (list byte)) : run (list Z) :=
  let! seen := mention_programs maxSlot routeSlots programs ∅ in
  Done (List.filter (fun slot => bool_decide (slot ∈ seen)) (slots_upto maxSlot)).

Definition mentionedBytecodeSlots (maxSlot : Z) (programs : list (list byte)) : run (list Z) :=
  mentionedBytecodeSlotsWithRoutes maxSlot [] programs.

(** ** String operations of a program *)

Record addrStringOps : Type := MkStringOps { so_remote : bool; so_local : bool }.

Definition string_ops_step (op : byte) (param : Z) (ops : addrStringOps)
  : run (ctl addrStringOps unit) :=
  match opcode_of op with
  | Some (OP_ADDR_S | OP_ADDR_RE) => Done (Continue (MkStringOps true (so_local ops)))
  | Some (OP_LADDR_S | OP_LADDR_RE) => Done (Continue (MkStringOps (so_remote ops) true))
  | _ => Done (Continue ops)
  end.

Definition bytecodeAddrStringOps (code : list byte) : run addrStringOps :=
  let! c := scan code string_ops_step (MkStringOps false false) in
  match c with Continue ops => Done ops | Return _ => Panicked end.

(** ** Predicates on opcodes and networks *)

Definition isLAddrOp (op : byte) : bool :=
  match opcode_of op with
  | Some (OP_LFQDN | OP_LADDR_S | OP_LADDR_RE | OP_LADDR4 | OP_LADDR6
         | OP_LSNET4 | OP_LSNET6 | OP_LPORT) => true
  | _ => false
  end.

Definition isSplitOnlyOp (op : byte) : bool :=
  match opcode_of op with Some OP_RULE => true | _ => false end.

Definition isSnifferOnlyOp (op : byte) : bool :=
  match opcode_of op with
  | Some (OP_INTERCEPT | OP_SNIFF | OP_SNIFF_NONE | OP_ROUTE) => true
  | _ => false
  end.

Definition isDNSOnlyOp (op : byte) : bool :=
  match opcode_of op with
  | Some (OP_BACKEND | OP_QTYPE | OP_QCLASS | OP_OPCODE) => true
  | _ => false
  end.

Definition isRouterMethodOp (op : byte) : bool :=
  match opcode_of op with Some (OP_DIAL | OP_LISTEN | OP_LOOKUP) => true | _ => false end.

Definition isNet4 (network : string) : bool := HasSuffix network "4".
Definition isNet6 (network : string) : bool := HasSuffix network "6".

Definition isTCPNet (network : string) : bool :=
  String.eqb network "tcp" || String.eqb network "tcp4" || String.eqb network "tcp6".

Definition isUDPNet (network : string) : bool :=
  String.eqb network "udp" || String.eqb network "udp4" || String.eqb network "udp6".

(** [^uint32(0) << (32 - bits)], the shift count being a [uint8]. *)
Definition mask32 (bits : Z) : Z := u32 (Z.shiftl (2 ^ 32 - 1) ((32 - bits) mod 256)).

Definition subnet_contains (n : IPv4Subnet) (addr : Z) : bool :=
  if sn_Bits n =? 0 then true
  else let mask := mask32 (sn_Bits n) in
       Z.land addr mask =? Z.land (sn_Addr n) mask.
