(* ===== verification/Machine.v ===== *)
(** * The reference stack machine and the soundness of validation

    [decodes] relates a program to its instructions, [machine] is the abstract
    stack machine all routers implement: an instruction pushes a boolean,
    combines the top of the stack, or pops a condition and returns when it is
    true.  The lemmas here carry the proofs of every router: loops over bytes
    run over instructions ([scan_decodes]), a program accepted by
    [validateBytecode] decodes, satisfies the per-instruction check and never
    underflows the stack ([validateBytecode_sound], [machine_safe]), and a
    router whose steps follow the machine computes what it computes
    ([scan_refines]). *)

From S2P Require Import Prelude GoStd NetIP Bytecode.

(** ** Instructions *)

Record splitInstr : Type := MkInstr { in_op : byte; in_param : Z }.

Inductive decodes (code : list byte) : Z -> list splitInstr -> Prop :=
| decodes_end pc : zlen code <= pc -> decodes code pc []
| decodes_instr pc op param next ins :
    index code pc = Some op ->
    readBytecodeParamUnchecked code (pc + 1) op = Done (param, next) ->
    decodes code next ins ->
    decodes code pc (MkInstr op param :: ins).

(** Running a step function over instructions. *)
Fixpoint run_instrs {S R : Type} (step : byte -> Z -> S -> run (ctl S R))
    (ins : list splitInstr) (s : S) : run (ctl S R) :=
  match ins with
  | [] => Done (Continue s)
  | i :: ins' =>
      let! c := step (in_op i) (in_param i) s in
      match c with
      | Continue s' => run_instrs step ins' s'
      | Return r => Done (Return r)
      end
  end.

(** ** The reference machine *)

Inductive action (R : Type) : Type :=
| ActPush (b : bool)
| ActNot
| ActAnd
| ActOr
| ActReturn (r : R)
| ActNone.

Arguments ActPush {R} b.
Arguments ActNot {R}.
Arguments ActAnd {R}.
Arguments ActOr {R}.
Arguments ActReturn {R} r.
Arguments ActNone {R}.

(** The stack has its top first. *)
Definition machine_step {R} (a : action R) (stack : list bool) : run (ctl (list bool) R) :=
  match a with
  | ActPush b => Done (Continue (b :: stack))
  | ActNot => match stack with
              | b :: st => Done (Continue (negb b :: st))
              | _ => Panicked
              end
  | ActAnd => match stack with
              | b :: a :: st => Done (Continue (a && b :: st))
              | _ => Panicked
              end
  | ActOr => match stack with
             | b :: a :: st => Done (Continue (a || b :: st))
             | _ => Panicked
             end
  | ActReturn r => match stack with
                   | true :: _ => Done (Return r)
                   | false :: st => Done (Continue st)
                   | [] => Panicked
                   end
  | ActNone => Done (Continue stack)
  end.

Definition machine {R} (act : byte -> Z -> action R) (ins : list splitInstr) (stack : list bool)
  : run (ctl (list bool) R) :=
  run_instrs (fun op param st => machine_step (act op param) st) ins stack.

(** The slot of the first terminal whose condition holds; 0 at the end. *)
Definition loop_slot {S} (c : ctl S Z) : Z :=
  match c with Return slot => slot | Continue _ => 0 end.

(** The depth analysis of [validateBytecode] on instructions. *)
Fixpoint depth_safe (depth : Z) (ins : list splitInstr) : Prop :=
  match ins with
  | [] => True
  | i :: ins' =>
      match stack_class (in_op i) with
      | ClsTerminal => 1 <= depth /\ depth_safe (depth - 1) ins'
      | ClsNot => 1 <= depth /\ depth_safe depth ins'
      | ClsBinary => 2 <= depth /\ depth_safe (depth - 1) ins'
      | ClsPush => depth_safe (depth + 1) ins'
      end
  end.

(** The depth behind the program. *)
Definition depth_after (depth : Z) (op : byte) : Z :=
  match stack_class op with
  | ClsTerminal | ClsBinary => depth - 1
  | ClsNot => depth
  | ClsPush => depth + 1
  end.

Definition final_depth (depth : Z) (ins : list splitInstr) : Z :=
  fold_left (fun d i => depth_after d (in_op i)) ins depth.

(** What the machine does agrees with what validation assumed. *)
Definition fits {R} (c : stackClass) (a : action R) : bool :=
  match c, a with
  | ClsTerminal, ActReturn _ => true
  | ClsNot, ActNot => true
  | ClsBinary, (ActAnd | ActOr) => true
  | ClsPush, ActPush _ => true
  | _, _ => false
  end.

(** ** Opcodes and their bytes *)

Lemma opcode_of_op_byte op : opcode_of (op_byte op) = Some op.
Proof. destruct op; reflexivity. Qed.

Lemma op_byte_opcode_of b op : opcode_of b = Some op -> b = op_byte op.
Proof.
  intros H. apply bZ_inj. revert H. unfold opcode_of. generalize (bZ b). clear b.
  intros z H. pose proof (index_Some_range _ _ _ H) as Hr.
  change (zlen all_opcodes) with 39 in Hr.
  unfold index in H. destruct (Z.ltb_spec z 0) as [|_]; [lia|].
  assert (Hz : z = Z.of_nat (Z.to_nat z)) by lia.
  assert (Hn : (Z.to_nat z < 39)%nat) by lia. rewrite Hz. revert H Hn.
  generalize (Z.to_nat z). clear z Hr Hz. intros n H Hn.
  do 39 (destruct n as [|n]; [injection H as <-; reflexivity|]). lia.
Qed.

Lemma opcode_of_inj a b op : opcode_of a = Some op -> opcode_of b = Some op -> a = b.
Proof.
  intros Ha%op_byte_opcode_of Hb%op_byte_opcode_of. congruence.
Qed.

(** ** Reading parameters *)

(** Both readers agree when the checked one succeeds. *)
Lemma readBytecodeParam_unchecked name code pc op param kind next :
  readBytecodeParam name code pc op = Success (param, kind, next) ->
  readBytecodeParamUnchecked code pc op = Done (param, next).
Proof.
  unfold readBytecodeParam, readBytecodeParamUnchecked.
  destruct (opcode_of op) as [[]|]; try congruence;
    destruct (index code pc); destruct (le16 code pc); simpl; congruence.
Qed.

Lemma readBytecodeParam_known name code pc op r :
  readBytecodeParam name code pc op = Success r -> is_Some (opcode_of op).
Proof. unfold readBytecodeParam. destruct (opcode_of op); [eauto|done]. Qed.

Lemma readBytecodeParam_range name code pc op param kind next :
  readBytecodeParam name code pc op = Success (param, kind, next) -> 0 <= param < 65536.
Proof.
  unfold readBytecodeParam.
  destruct (opcode_of op) as [[]|]; try (intros [= <- <- <-]; lia); try done;
    try (destruct (le16 code pc) eqn:E; [|done]; intros [= <- <- <-]; eauto with gonnect).
  destruct (index code pc) as [b|]; [|done]. intros [= <- <- <-].
  pose proof (bZ_range b). lia.
Qed.

Lemma readBytecodeParam_advances name code pc op param kind next :
  readBytecodeParam name code pc op = Success (param, kind, next) -> pc <= next.
Proof.
  unfold readBytecodeParam.
  destruct (opcode_of op) as [[]|]; try (intros [= <- <- <-]; lia); try done;
    repeat case_match; intros [= <- <- <-]; lia.
Qed.

Lemma readUnchecked_advances code pc op param next :
  readBytecodeParamUnchecked code pc op = Done (param, next) -> pc <= next.
Proof.
  unfold readBytecodeParamUnchecked.
  destruct (opcode_of op) as [[]|]; try (intros [= <- <-]; lia);
    destruct (index code pc); destruct (le16 code pc); simpl; try done; intros [= <- <-]; lia.
Qed.

(** ** Decoding and loops *)

Lemma decodes_length code pc ins :
  decodes code pc ins -> pc <= zlen code -> Z.of_nat (length ins) <= zlen code - pc.
Proof.
  induction 1 as [pc Hpc|pc op param next ins Hop Hrd Hdec IH]; intros Hle; simpl; [lia|].
  pose proof (index_Some_range _ _ _ Hop). pose proof (readUnchecked_advances _ _ _ _ _ Hrd).
  destruct (decide (next <= zlen code)) as [Hn|Hn]; [specialize (IH Hn); lia|].
  inversion Hdec; subst; simpl; [lia|]. pose proof (index_Some_range _ _ _ H1). lia.
Qed.

Lemma while_pc_decodes {S R} (step : byte -> Z -> S -> run (ctl S R)) code fuel pc ins s :
  decodes code pc ins -> (length ins <= fuel)%nat ->
  while_pc fuel code
    (fun pc op s =>
       let! r := readBytecodeParamUnchecked code (pc + 1) op in
       let! c := step op r.1 s in
       match c with
       | Continue s' => Done (Continue (r.2, s'))
       | Return x => Done (Return x)
       end) pc s = run_instrs step ins s.
Proof.
  intros Hdec. revert fuel s.
  induction Hdec as [pc Hpc|pc op param next ins Hop Hrd Hdec IH]; intros fuel s Hf; simpl in Hf.
  - destruct fuel; simpl; destruct (Z.ltb_spec pc (zlen code)); (lia || reflexivity).
  - pose proof (index_Some_range _ _ _ Hop). destruct fuel as [|fuel]; [lia|]. simpl.
    destruct (Z.ltb_spec pc (zlen code)) as [_|]; [|lia].
    rewrite Hop. simpl. rewrite Hrd. simpl.
    destruct (step op param s) as [[s'|r]| |]; simpl; try reflexivity.
    apply IH. lia.
Qed.

Lemma scan_decodes {S R} (step : byte -> Z -> S -> run (ctl S R)) code ins s :
  decodes code 0 ins -> scan code step s = run_instrs step ins s.
Proof.
  intros Hdec. apply while_pc_decodes; [done|].
  pose proof (zlen_nonneg code). pose proof (decodes_length _ _ _ Hdec ltac:(lia)).
  unfold zlen in *. lia.
Qed.

(** ** Soundness of validation *)

Definition param_kind (op : byte) : bytecodeParamKind :=
  match opcode_of op with
  | Some OP_SLOT => bytecodeParamUint8
  | Some (OP_ADDR_S | OP_LADDR_S | OP_ADDR_RE | OP_LADDR_RE
         | OP_ADDR4 | OP_LADDR4 | OP_ADDR6 | OP_LADDR6
         | OP_SNET4 | OP_LSNET4 | OP_SNET6 | OP_LSNET6
         | OP_PORT | OP_LPORT | OP_RULE | OP_SNIFF | OP_ROUTE | OP_BACKEND
         | OP_QTYPE | OP_QCLASS | OP_OPCODE) => bytecodeParamUint16
  | _ => bytecodeParamNone
  end.

(** The instruction is known, its parameter is in range and it passed the
    per-instruction check. *)
Definition checked (validateOp : opValidator) (i : splitInstr) : Prop :=
  is_Some (opcode_of (in_op i)) /\ 0 <= in_param i < 65536 /\
  exists pc, validateOp pc (in_op i) (in_param i) (param_kind (in_op i)) = Success tt.

Lemma readBytecodeParam_kind name code pc op param kind next :
  readBytecodeParam name code pc op = Success (param, kind, next) -> kind = param_kind op.
Proof.
  unfold readBytecodeParam, param_kind.
  destruct (opcode_of op) as [[]|]; try (intros [= <- <- <-]; reflexivity); try done;
    repeat case_match; try done; intros [= <- <- <-]; reflexivity.
Qed.

Lemma validate_depth_sound name pc op depth depth' :
  validate_depth name pc op depth = Success depth' ->
  depth' = depth_after depth op /\
  forall ins param, depth_safe depth' ins -> depth_safe depth (MkInstr op param :: ins).
Proof.
  unfold validate_depth, depth_after. simpl.
  destruct (stack_class op); intros H.
  - destruct (Z.ltb_spec depth 1); [done|]. injection H as <-. split; [done|]. intros. lia || (split; [lia|done]).
  - destruct (Z.ltb_spec depth 1); [done|]. injection H as <-. split; [done|]. intros. split; [lia|done].
  - destruct (Z.ltb_spec depth 2); [done|]. injection H as <-. split; [done|]. intros. split; [lia|done].
  - injection H as <-. split; [done|]. auto.
Qed.

Lemma validate_while name code validateOp fuel pc depth :
  0 <= pc -> zlen code - pc <= Z.of_nat fuel ->
  exists c,
    while_pc fuel code
      (fun opPC op depth =>
         Done match validate_step name code validateOp opPC op depth with
              | Success (pc, depth') => Continue (pc, depth')
              | Failure e => Return e
              end) pc depth = Done c /\
    match c with
    | Continue depth' => exists ins,
        decodes code pc ins /\ Forall (checked validateOp) ins /\
        depth_safe depth ins /\ depth' = final_depth depth ins
    | Return _ => True
    end.
Proof.
  revert pc depth. induction fuel as [|fuel IH]; intros pc depth Hpc Hf; simpl.
  - destruct (Z.ltb_spec pc (zlen code)); [lia|]. eexists. split; [done|].
    exists []. repeat split; [by constructor|by constructor].
  - destruct (Z.ltb_spec pc (zlen code)) as [Hlt|Hge].
    + destruct (index_in_range code pc ltac:(lia)) as [op Hop]. rewrite Hop. simpl.
      destruct (validate_step name code validateOp pc op depth) as [[next depth']|e] eqn:E;
        simpl; [|eexists; split; [reflexivity|exact I]].
      unfold validate_step in E.
      apply result_bind_Success in E as ([[param kind] next'] & Hrd & E).
      apply result_bind_Success in E as ([] & Hv & E).
      apply result_bind_Success in E as (d & Hd & E). injection E as <- <-.
      pose proof (readBytecodeParam_advances _ _ _ _ _ _ _ Hrd) as Hadv.
      destruct (IH next' d ltac:(lia) ltac:(lia)) as (c & Hc & Hres).
      exists c. split; [done|]. destruct c as [dfin|e]; [|done].
      destruct Hres as (ins & Hdec & Hall & Hsafe & ->).
      destruct (validate_depth_sound _ _ _ _ _ Hd) as [-> Hcons].
      exists (MkInstr op param :: ins). split_and!.
      * eapply decodes_instr; [done|by eapply readBytecodeParam_unchecked|done].
      * constructor; [|done]. unfold checked. simpl.
        rewrite <- (readBytecodeParam_kind _ _ _ _ _ _ _ Hrd).
        split; [by eapply readBytecodeParam_known|].
        split; [by eapply readBytecodeParam_range|by exists pc].
      * by apply Hcons.
      * reflexivity.
    + eexists. split; [done|]. exists []. repeat split; by constructor.
Qed.

Lemma validate_loop_sound name code validateOp :
  exists r, validate_loop name code validateOp = Done r /\
  forall depth, r = Success depth -> exists ins,
    decodes code 0 ins /\ Forall (checked validateOp) ins /\
    depth_safe 0 ins /\ depth = final_depth 0 ins.
Proof.
  destruct (validate_while name code validateOp (length code) 0 0 ltac:(lia))
    as (c & Hc & Hres); [unfold zlen; lia|].
  unfold validate_loop. rewrite Hc. simpl. eexists. split; [done|].
  destruct c; intros d Hd; [|done]. by injection Hd as <-.
Qed.

(** Validation terminates, and what it accepts decodes into checked
    instructions that never underflow the stack. *)
Lemma validateBytecode_sound name code validateOp :
  exists r, validateBytecode name code validateOp = Done r /\
  (r = Success tt -> exists ins,
    decodes code 0 ins /\ Forall (checked validateOp) ins /\ depth_safe 0 ins).
Proof.
  destruct (validate_loop_sound name code validateOp) as (r & Hr & Hs).
  unfold validateBytecode. rewrite Hr. simpl. eexists. split; [done|].
  destruct r as [d|e]; [|done]. intros _.
  destruct (Hs d eq_refl) as (ins & ? & ? & ? & _). eauto.
Qed.

(** ** Safety and bounds of the reference machine *)

Lemma machine_step_fits {R} (a : action R) op stack :
  fits (stack_class op) a = true ->
  (forall depth ins param, depth_safe depth (MkInstr op param :: ins) ->
     depth = zlen stack ->
     exists c, machine_step a stack = Done c /\
       match c with
       | Continue st => depth_safe (zlen st) ins /\ zlen st = depth_after depth op
       | Return r => a = ActReturn r
       end).
Proof.
  intros Hf depth ins param Hs ->. simpl in Hs. unfold depth_after.
  assert (Hd : forall d d', d = d' -> depth_safe d ins -> depth_safe d' ins) by (intros ? ? ->; done).
  destruct (stack_class op), a; try discriminate Hf; simpl in *.
  - destruct stack as [|[] st]; [unfold zlen in Hs; simpl in Hs; lia|by eexists|].
    destruct Hs as [_ Hs]. eexists. split; [done|]. simpl; rewrite ?zlen_cons in *.
    split; [eapply Hd; [|done]; lia|lia].
  - destruct stack as [|b st]; [unfold zlen in Hs; simpl in Hs; lia|].
    destruct Hs as [_ Hs]. eexists. split; [done|]. by simpl; rewrite ?zlen_cons in *.
  - destruct stack as [|b [|a st]]; [unfold zlen in Hs; simpl in Hs; lia..|].
    destruct Hs as [_ Hs]. eexists. split; [done|]. simpl; rewrite ?zlen_cons in *.
    split; [eapply Hd; [|done]; lia|lia].
  - destruct stack as [|b [|a st]]; [unfold zlen in Hs; simpl in Hs; lia..|].
    destruct Hs as [_ Hs]. eexists. split; [done|]. simpl; rewrite ?zlen_cons in *.
    split; [eapply Hd; [|done]; lia|lia].
  - eexists. split; [done|]. simpl. by rewrite zlen_cons.
Qed.

(** A validated program runs to its end or to the result of one of its
    terminal instructions: it never panics, and it leaves the depth the
    analysis computed. *)
Lemma machine_safe {R} (act : byte -> Z -> action R) ins stack :
  depth_safe (zlen stack) ins ->
  Forall (fun i => fits (stack_class (in_op i)) (act (in_op i) (in_param i)) = true) ins ->
  exists c, machine act ins stack = Done c /\
    match c with
    | Continue st => zlen st = final_depth (zlen stack) ins
    | Return r => exists i, i ∈ ins /\ act (in_op i) (in_param i) = ActReturn r
    end.
Proof.
  intros Hs Hf. revert stack Hs. induction Hf as [|[op param] ins Hi Hf IH]; intros stack Hs.
  { by eexists. }
  destruct (machine_step_fits _ _ stack Hi _ _ _ Hs eq_refl) as (c & Hc & Hres).
  unfold machine in *. simpl in *. rewrite Hc. simpl. destruct c as [st|r].
  - destruct Hres as [Hs' Hlen]. destruct (IH st Hs') as (c & -> & Hfin).
    exists c. split; [done|]. destruct c as [st'|r].
    + by rewrite Hfin, Hlen.
    + destruct Hfin as (i & Hi' & Ha). exists i. split; [by right|done].
  - eexists. split; [done|]. exists (MkInstr op param). split; [by left|done].
Qed.

(** ** Refinement

    A step function with its own state refines the machine when, from a state
    that satisfies an invariant, it does what the machine does on the stack it
    holds and keeps the invariant. *)
Definition step_refines {S R} (inv : S -> Prop) (stk : S -> list bool)
    (step : S -> run (ctl S R)) (a : action R) : Prop :=
  forall s, inv s ->
    match machine_step a (stk s) with
    | Done (Continue st) => exists s', step s = Done (Continue s') /\ inv s' /\ stk s' = st
    | Done (Return r) => step s = Done (Return r)
    | Panicked => step s = Panicked
    | OutOfFuel => step s = OutOfFuel
    end.

Lemma run_refines {S R} (inv : S -> Prop) (stk : S -> list bool)
    (step : byte -> Z -> S -> run (ctl S R)) act ins s :
  Forall (fun i => step_refines inv stk (step (in_op i) (in_param i)) (act (in_op i) (in_param i))) ins ->
  inv s ->
  match machine act ins (stk s) with
  | Done (Continue st) => exists s', run_instrs step ins s = Done (Continue s') /\ inv s' /\ stk s' = st
  | Done (Return r) => run_instrs step ins s = Done (Return r)
  | Panicked => run_instrs step ins s = Panicked
  | OutOfFuel => run_instrs step ins s = OutOfFuel
  end.
Proof.
  intros Hall. revert s. induction Hall as [|[op param] ins Hi Hall IH]; intros s Hinv.
  { unfold machine. simpl. eauto. }
  specialize (Hi s Hinv). unfold machine in *. simpl in *.
  destruct (machine_step (act op param) (stk s)) as [[st|r]| |]; simpl;
    [|rewrite Hi; reflexivity..].
  destruct Hi as (s' & -> & Hinv' & <-). simpl. apply IH, Hinv'.
Qed.
