(* ===== verification/AddrCache.v ===== *)
(** * Address caches and the predicates of the socket routers

    Models the second half of src/routing/bytecode.go: [addrCache] with its
    lazily computed host, address, port and reverse DNS names, [bytecodeEval],
    the DNS name comparisons, and the predicate opcodes shared by the router,
    sniffer and remapper evaluators; and [LookupPortOffline] of
    src/resolver.go.

    The caches are explicit state: every method returns its value with the
    updated cache.  Compiled regular expressions are their [MatchString]
    functions, and a nil [*regexp.Regexp] is [None].  [time.Now()] is read by
    [reverseDNSNames] at most once per cache: that instant is the field
    [ac_now].  The lookups of the Go resolver in the host's services database
    are the parameter [resolver_LookupPort]. *)

From Stdlib Require Import Ascii.
From S2P Require Import Prelude GoStd NetIP DNSCache Bytecode Machine.

(** ** Ports by service name (src/resolver.go) *)

Class HostEnv : Type := {
  resolver_LookupPort : string -> string -> option Z }.

Definition wellKnownPorts (network service : string) : option Z :=
  let find (l : list (string * Z)) :=
    snd <$> List.find (fun e => String.eqb (fst e) service) l in
  if String.eqb network "tcp" then
    find [("http", 80); ("https", 443); ("tls", 443); ("ssl", 443); ("ssh", 22);
          ("ftp", 21); ("smtp", 25); ("dns", 53); ("pop3", 110); ("pop", 110);
          ("imap", 143); ("telnet", 23); ("socks", 1080); ("mysql", 3306);
          ("postgres", 5432); ("redis", 6379); ("mongodb", 27017)]
  else if String.eqb network "udp" then
    find [("dns", 53); ("dhcp", 67); ("ntp", 123)]
  else None.

Definition LookupPortOffline `{HostEnv} (network service : string) : option Z :=
  match resolver_LookupPort network service with
  | Some p => Some p
  | None => wellKnownPorts (ToLower network) (ToLower service)
  end.

(** ** Addresses given to a router *)

Record addrInput : Type := MkAddrInput { ai_str : string; ai_addr : option netAddr }.

Definition splitHostPort (s : string) : string * string * bool :=
  if String.eqb s "" then ("", "", false)
  else match SplitHostPort s with
       | Some (host, port) => (host, port, true)
       | None => ("", "", false)
       end.

Definition hostFromString (s : string) : string :=
  let '(host, _, ok) := splitHostPort s in
  if (ok : bool) then Trim host "[]" else Trim s "[]".

Definition parseHostIP (host : string) : Addr :=
  if String.eqb host "" then AddrZero
  else match ParseAddr host with
       | None => AddrZero
       | Some addr => Unmap addr
       end.

Definition addrFromIP (ip : list byte) : Addr :=
  match AddrFromSlice ip with
  | None => AddrZero
  | Some addr => Unmap addr
  end.

Record addrCache : Type := MkAddrCache {
  ac_input : addrInput;
  ac_hostDone : bool; ac_hostVal : string;
  ac_ipDone : bool; ac_ipVal : Addr;
  ac_portDone : bool; ac_portVal : Z;
  ac_reverseStorage : option storage_view; ac_reverseEnabled : bool;
  ac_reverseDone : bool; ac_reverseNames : list string;
  ac_now : Z }.

Definition newAddrCache (input : addrInput) (storage : option storage_view) (reverse : bool)
    (now : Z) : addrCache :=
  let storage := if reverse then storage else None in
  MkAddrCache input false "" false AddrZero false 0
    storage (match storage with Some _ => true | None => false end) false [] now.

Definition set_host (a : addrCache) (v : string) : addrCache :=
  MkAddrCache (ac_input a) true v (ac_ipDone a) (ac_ipVal a) (ac_portDone a) (ac_portVal a)
    (ac_reverseStorage a) (ac_reverseEnabled a) (ac_reverseDone a) (ac_reverseNames a) (ac_now a).

Definition set_ip (a : addrCache) (v : Addr) : addrCache :=
  MkAddrCache (ac_input a) (ac_hostDone a) (ac_hostVal a) true v (ac_portDone a) (ac_portVal a)
    (ac_reverseStorage a) (ac_reverseEnabled a) (ac_reverseDone a) (ac_reverseNames a) (ac_now a).

Definition set_port (a : addrCache) (v : Z) : addrCache :=
  MkAddrCache (ac_input a) (ac_hostDone a) (ac_hostVal a) (ac_ipDone a) (ac_ipVal a) true v
    (ac_reverseStorage a) (ac_reverseEnabled a) (ac_reverseDone a) (ac_reverseNames a) (ac_now a).

Definition set_reverse (a : addrCache) (v : list string) : addrCache :=
  MkAddrCache (ac_input a) (ac_hostDone a) (ac_hostVal a) (ac_ipDone a) (ac_ipVal a)
    (ac_portDone a) (ac_portVal a)
    (ac_reverseStorage a) (ac_reverseEnabled a) true v (ac_now a).

(** ** Methods of the cache *)

Definition ac_host (a : addrCache) : string * addrCache :=
  if ac_hostDone a then (ac_hostVal a, a)
  else
    let v := match ai_addr (ac_input a) with
             | Some (TCPAddr ip _ _) => IP_String ip
             | Some (UDPAddr ip _ _) => IP_String ip
             | Some (IPAddr ip _) => IP_String ip
             | None => hostFromString (ai_str (ac_input a))
             | Some addr => hostFromString (netAddr_String addr)
             end in
    (v, set_host a v).

Definition ac_ip (a : addrCache) : Addr * addrCache :=
  if ac_ipDone a then (ac_ipVal a, a)
  else
    match ai_addr (ac_input a) with
    | Some (TCPAddr ip _ _) => let v := addrFromIP ip in (v, set_ip a v)
    | Some (UDPAddr ip _ _) => let v := addrFromIP ip in (v, set_ip a v)
    | Some (IPAddr ip _) => let v := addrFromIP ip in (v, set_ip a v)
    | _ => let '(host, a') := ac_host a in
           let v := parseHostIP host in (v, set_ip a' v)
    end.

Definition ac_isFQDN (a : addrCache) : bool * addrCache :=
  let '(host, a) := ac_host a in
  if String.eqb host "" then (false, a)
  else let '(ip, a) := ac_ip a in (negb (IsValid ip), a).

Definition ac_isIPv4 (a : addrCache) : bool * addrCache :=
  let '(ip, a) := ac_ip a in (Is4 ip, a).

Definition ac_isIPv6 (a : addrCache) : bool * addrCache :=
  let '(ip, a) := ac_ip a in (Is6 ip, a).

Definition ac_matchIPv4 (want : Z) (a : addrCache) : bool * addrCache :=
  let '(ip, a) := ac_ip a in
  if negb (Is4 ip) then (false, a) else (As4Uint32 ip =? want, a).

Definition ac_inIPv4Subnet (subnet : IPv4Subnet) (a : addrCache) : bool * addrCache :=
  let '(ip, a) := ac_ip a in
  if negb (Is4 ip) then (false, a) else (subnet_contains subnet (As4Uint32 ip), a).

Definition ac_ipv6 (a : addrCache) : Addr * addrCache :=
  let '(ip, a) := ac_ip a in
  if negb (Is6 ip) then (AddrZero, a) else (ip, a).

Definition rawString (input : addrInput) : string :=
  match ai_addr input with
  | Some addr => netAddr_String addr
  | None => ai_str input
  end.

(** The value [port] computes for an input, -1 when there is no port. *)
Definition port_value `{HostEnv} (network : string) (input : addrInput) : Z :=
  match ai_addr input with
  | Some (TCPAddr _ port _) => port
  | Some (UDPAddr _ port _) => port
  | _ =>
      let '(_, p, ok) := splitHostPort (rawString input) in
      let port := if (ok : bool) then p else rawString input in
      if String.eqb port "" then -1
      else match ParseUint port 16 with
           | Some v => v
           | None =>
               match LookupPortOffline network port with
               | Some p => if (0 <=? p) && (p <=? 65535) then p else -1
               | None => -1
               end
           end
  end.

Definition ac_port `{HostEnv} (network : string) (a : addrCache) : Z * addrCache :=
  if ac_portDone a then (ac_portVal a, a)
  else let v := port_value network (ac_input a) in (v, set_port a v).

Definition ac_reverseDNSNames (a : addrCache) : list string * addrCache :=
  match ac_reverseStorage a with
  | None => ([], a)
  | Some storage =>
      if negb (ac_reverseEnabled a) then ([], a)
      else if ac_reverseDone a then (ac_reverseNames a, a)
      else
        let a := set_reverse a [] in
        let '(ip, a) := ac_ip a in
        if negb (IsValid ip) then ([], a)
        else let names := CachedReverseDNSNames (Some storage) ip (ac_now a) in
             (names, set_reverse a names)
  end.

(** ** DNS names *)

Definition last_char (s : string) : option ascii := sget s (slen s - 1).

Definition ends_with_dot (s : string) : bool :=
  match last_char s with Some c => Ascii.eqb c "."%char | None => false end.

(** Equal, or equal up to one trailing dot of a name that has no other. *)
Definition dnsNameEqual (name want : string) : bool :=
  if String.eqb name want then true
  else if slen name =? slen want + 1 then
    (0 <? slen want) && negb (ends_with_dot want)
    && (match sget name (slen want) with Some c => Ascii.eqb c "."%char | None => false end)
    && String.eqb (stake (slen want) name) want
  else if slen want =? slen name + 1 then
    (0 <? slen name) && negb (ends_with_dot name)
    && (match sget want (slen name) with Some c => Ascii.eqb c "."%char | None => false end)
    && String.eqb (stake (slen name) want) name
  else false.

Definition regexp := string -> bool.

Definition matchDNSNameRegexp (re : regexp) (name : string) : bool :=
  if re name then true
  else if (1 <? slen name) && ends_with_dot name
          && negb (match sget name (slen name - 2) with
                   | Some c => Ascii.eqb c "."%char | None => false end)
  then re (stake (slen name - 1) name)
  else if negb (String.eqb name "") && negb (HasSuffix name ".")
  then re (String.append name ".")
  else false.

Definition ac_matchString (want : string) (a : addrCache) : bool * addrCache :=
  let '(host, a) := ac_host a in
  if String.eqb host want then (true, a)
  else let '(names, a) := ac_reverseDNSNames a in
       (existsb (fun name => dnsNameEqual name want) names, a).

Definition ac_matchRegexp (re : regexp) (a : addrCache) : bool * addrCache :=
  let '(host, a) := ac_host a in
  if re host then (true, a)
  else let '(names, a) := ac_reverseDNSNames a in
       (existsb (matchDNSNameRegexp re) names, a).

(** ** bytecodeEval *)

Record bytecodeEval : Type := MkEval {
  ev_network : string;
  ev_laddr : addrCache; ev_raddr : addrCache;
  ev_isDial : bool; ev_isListen : bool; ev_isLookup : bool }.

Definition set_laddr (ev : bytecodeEval) (a : addrCache) : bytecodeEval :=
  MkEval (ev_network ev) a (ev_raddr ev) (ev_isDial ev) (ev_isListen ev) (ev_isLookup ev).

Definition set_raddr (ev : bytecodeEval) (a : addrCache) : bytecodeEval :=
  MkEval (ev_network ev) (ev_laddr ev) a (ev_isDial ev) (ev_isListen ev) (ev_isLookup ev).

(** Calling a method of one of the two caches. *)
Definition on_laddr {A} (m : addrCache -> A * addrCache) (ev : bytecodeEval) : A * bytecodeEval :=
  let '(v, a) := m (ev_laddr ev) in (v, set_laddr ev a).

Definition on_raddr {A} (m : addrCache -> A * addrCache) (ev : bytecodeEval) : A * bytecodeEval :=
  let '(v, a) := m (ev_raddr ev) in (v, set_raddr ev a).

Definition ev_isNet4 (ev : bytecodeEval) : bool * bytecodeEval :=
  if isNet4 (ev_network ev) then (true, ev)
  else if isNet6 (ev_network ev) then (false, ev)
  else let '(b, ev) := on_laddr ac_isIPv4 ev in
       if (b : bool) then (true, ev) else on_raddr ac_isIPv4 ev.

Definition ev_isNet6 (ev : bytecodeEval) : bool * bytecodeEval :=
  if isNet6 (ev_network ev) then (true, ev)
  else if isNet4 (ev_network ev) then (false, ev)
  else let '(b, ev) := on_laddr ac_isIPv6 ev in
       if (b : bool) then (true, ev) else on_raddr ac_isIPv6 ev.

Definition portNetwork (network : string) : string :=
  if isTCPNet network then "tcp" else if isUDPNet network then "udp" else network.

(** ** The predicate opcodes of the socket routers *)

Record tables : Type := MkTables {
  t_strings : list string;
  t_regexps : list (option regexp);
  t_ipv4Addrs : list Z;
  t_ipv4Subnets : list IPv4Subnet;
  t_ipv6Addrs : list Addr;
  t_ipv6Subnets : list Prefix }.

(** [idx, ok := bytecodeParamIndex(param, len(table)); ok && test(table[idx])]:
    nothing is evaluated when the index is out of range. *)
Definition with_entry {A S} (table : list A) (param : Z) (test : A -> S -> run (bool * S)) (s : S)
  : run (bool * S) :=
  let '(idx, ok) := bytecodeParamIndex param (zlen table) in
  if (ok : bool) then let! x := must (index table idx) in test x s else Done (false, s).

(** The arms of the evaluators' switch that push a predicate; [None] for an
    opcode without such an arm. *)
Definition evalPredicate `{HostEnv} (t : tables) (op : opcode) (param : Z) (ev : bytecodeEval)
  : option (run (bool * bytecodeEval)) :=
  match op with
  | OP_NET4 => Some (Done (ev_isNet4 ev))
  | OP_NET6 => Some (Done (ev_isNet6 ev))
  | OP_UDP => Some (Done (isUDPNet (ev_network ev), ev))
  | OP_TCP => Some (Done (isTCPNet (ev_network ev), ev))
  | OP_DIAL => Some (Done (ev_isDial ev, ev))
  | OP_LISTEN => Some (Done (ev_isListen ev, ev))
  | OP_LOOKUP => Some (Done (ev_isLookup ev, ev))
  | OP_FQDN => Some (Done (on_raddr ac_isFQDN ev))
  | OP_LFQDN => Some (Done (on_laddr ac_isFQDN ev))
  | OP_ADDR_S => Some (with_entry (t_strings t) param
      (fun s ev => Done (on_raddr (ac_matchString s) ev)) ev)
  | OP_LADDR_S => Some (with_entry (t_strings t) param
      (fun s ev => Done (on_laddr (ac_matchString s) ev)) ev)
  | OP_ADDR_RE => Some (with_entry (t_regexps t) param
      (fun re ev => let! re := must re in Done (on_raddr (ac_matchRegexp re) ev)) ev)
  | OP_LADDR_RE => Some (with_entry (t_regexps t) param
      (fun re ev => let! re := must re in Done (on_laddr (ac_matchRegexp re) ev)) ev)
  | OP_ADDR4 => Some (with_entry (t_ipv4Addrs t) param
      (fun want ev => Done (on_raddr (ac_matchIPv4 want) ev)) ev)
  | OP_LADDR4 => Some (with_entry (t_ipv4Addrs t) param
      (fun want ev => Done (on_laddr (ac_matchIPv4 want) ev)) ev)
  | OP_ADDR6 => Some (with_entry (t_ipv6Addrs t) param
      (fun want ev => let '(ip, ev) := on_raddr ac_ipv6 ev in Done (bool_decide (ip = want), ev)) ev)
  | OP_LADDR6 => Some (with_entry (t_ipv6Addrs t) param
      (fun want ev => let '(ip, ev) := on_laddr ac_ipv6 ev in Done (bool_decide (ip = want), ev)) ev)
  | OP_SNET4 => Some (with_entry (t_ipv4Subnets t) param
      (fun sn ev => Done (on_raddr (ac_inIPv4Subnet sn) ev)) ev)
  | OP_LSNET4 => Some (with_entry (t_ipv4Subnets t) param
      (fun sn ev => Done (on_laddr (ac_inIPv4Subnet sn) ev)) ev)
  | OP_SNET6 => Some (with_entry (t_ipv6Subnets t) param
      (fun p ev => let '(ip, ev) := on_raddr ac_ipv6 ev in Done (Prefix_Contains p ip, ev)) ev)
  | OP_LSNET6 => Some (with_entry (t_ipv6Subnets t) param
      (fun p ev => let '(ip, ev) := on_laddr ac_ipv6 ev in Done (Prefix_Contains p ip, ev)) ev)
  | OP_PORT => Some (
      let '(port, ok) := bytecodeParamInt param 65535 in
      if (ok : bool) then
        let '(p, ev) := on_raddr (ac_port (portNetwork (ev_network ev))) ev in Done (p =? port, ev)
      else Done (false, ev))
  | OP_LPORT => Some (
      let '(port, ok) := bytecodeParamInt param 65535 in
      if (ok : bool) then
        let '(p, ev) := on_laddr (ac_port (portNetwork (ev_network ev))) ev in Done (p =? port, ev)
      else Done (false, ev))
  | _ => None
  end.

Definition popBool (stack : list bool) : run (bool * list bool) :=
  match stack with
  | v :: st => Done (v, st)
  | [] => Panicked
  end.

(** ** What the predicates mean

    The caches never change an answer: every method returns the value computed
    from the immutable part of the cache. *)

Definition host_of (input : addrInput) : string :=
  match ai_addr input with
  | Some (TCPAddr ip _ _) | Some (UDPAddr ip _ _) | Some (IPAddr ip _) => IP_String ip
  | None => hostFromString (ai_str input)
  | Some addr => hostFromString (netAddr_String addr)
  end.

Definition ip_of (input : addrInput) : Addr :=
  match ai_addr input with
  | Some (TCPAddr ip _ _) | Some (UDPAddr ip _ _) | Some (IPAddr ip _) => addrFromIP ip
  | _ => parseHostIP (host_of input)
  end.

(** The cached reverse DNS names a predicate may match. *)
Definition names_of (a : addrCache) : list string :=
  if ac_reverseEnabled a && IsValid (ip_of (ac_input a))
  then CachedReverseDNSNames (ac_reverseStorage a) (ip_of (ac_input a)) (ac_now a)
  else [].

Definition v6_of (input : addrInput) : Addr :=
  if Is6 (ip_of input) then ip_of input else AddrZero.

Definition matches_string (a : addrCache) (want : string) : bool :=
  String.eqb (host_of (ac_input a)) want
  || existsb (fun name => dnsNameEqual name want) (names_of a).

Definition matches_regexp (a : addrCache) (re : regexp) : bool :=
  re (host_of (ac_input a)) || existsb (matchDNSNameRegexp re) (names_of a).

Definition entry {A} (table : list A) (param : Z) (f : A -> bool) : bool :=
  match index table param with Some x => f x | None => false end.

Definition predicateValue `{HostEnv} (t : tables) (e : bytecodeEval) (op : opcode) (param : Z) : bool :=
  let l := ac_input (ev_laddr e) in
  let r := ac_input (ev_raddr e) in
  let net := ev_network e in
  match op with
  | OP_NET4 => isNet4 net || (negb (isNet6 net) && (Is4 (ip_of l) || Is4 (ip_of r)))
  | OP_NET6 => isNet6 net || (negb (isNet4 net) && (Is6 (ip_of l) || Is6 (ip_of r)))
  | OP_UDP => isUDPNet net
  | OP_TCP => isTCPNet net
  | OP_DIAL => ev_isDial e
  | OP_LISTEN => ev_isListen e
  | OP_LOOKUP => ev_isLookup e
  | OP_FQDN => negb (String.eqb (host_of r) "") && negb (IsValid (ip_of r))
  | OP_LFQDN => negb (String.eqb (host_of l) "") && negb (IsValid (ip_of l))
  | OP_ADDR_S => entry (t_strings t) param (matches_string (ev_raddr e))
  | OP_LADDR_S => entry (t_strings t) param (matches_string (ev_laddr e))
  | OP_ADDR_RE => entry (t_regexps t) param
      (fun o => match o with Some re => matches_regexp (ev_raddr e) re | None => false end)
  | OP_LADDR_RE => entry (t_regexps t) param
      (fun o => match o with Some re => matches_regexp (ev_laddr e) re | None => false end)
  | OP_ADDR4 => entry (t_ipv4Addrs t) param (fun w => Is4 (ip_of r) && (As4Uint32 (ip_of r) =? w))
  | OP_LADDR4 => entry (t_ipv4Addrs t) param (fun w => Is4 (ip_of l) && (As4Uint32 (ip_of l) =? w))
  | OP_ADDR6 => entry (t_ipv6Addrs t) param (fun w => bool_decide (v6_of r = w))
  | OP_LADDR6 => entry (t_ipv6Addrs t) param (fun w => bool_decide (v6_of l = w))
  | OP_SNET4 => entry (t_ipv4Subnets t) param
      (fun s => Is4 (ip_of r) && subnet_contains s (As4Uint32 (ip_of r)))
  | OP_LSNET4 => entry (t_ipv4Subnets t) param
      (fun s => Is4 (ip_of l) && subnet_contains s (As4Uint32 (ip_of l)))
  | OP_SNET6 => entry (t_ipv6Subnets t) param (fun p => Prefix_Contains p (v6_of r))
  | OP_LSNET6 => entry (t_ipv6Subnets t) param (fun p => Prefix_Contains p (v6_of l))
  | OP_PORT => (param <=? 65535) && (port_value (portNetwork net) r =? param)
  | OP_LPORT => (param <=? 65535) && (port_value (portNetwork net) l =? param)
  | _ => false
  end.

(** ** The caches are transparent *)

Section Transparent.
Context `{HostEnv}.

(** [a] is [a0] with some of its values computed. *)
Definition cache_inv (net : string) (a0 a : addrCache) : Prop :=
  ac_input a = ac_input a0 /\
  ac_reverseStorage a = ac_reverseStorage a0 /\
  ac_reverseEnabled a = ac_reverseEnabled a0 /\
  ac_now a = ac_now a0 /\
  (ac_hostDone a = true -> ac_hostVal a = host_of (ac_input a0)) /\
  (ac_ipDone a = true -> ac_ipVal a = ip_of (ac_input a0)) /\
  (ac_portDone a = true -> ac_portVal a = port_value net (ac_input a0)) /\
  (ac_reverseDone a = true -> ac_reverseNames a = names_of a0).

(** A method that always answers [v] and keeps the invariant. *)
Definition answers {A} (net : string) (a0 : addrCache) (m : addrCache -> A * addrCache) (v : A) : Prop :=
  forall a, cache_inv net a0 a -> exists a', m a = (v, a') /\ cache_inv net a0 a'.

Lemma host_answers net a0 : answers net a0 ac_host (host_of (ac_input a0)).
Proof.
  intros a (Hi & Hs & He & Hn & Hh & Hip & Hp & Hr). unfold ac_host.
  destruct (ac_hostDone a) eqn:E.
  - exists a. rewrite Hh by done. split; [done|]. unfold cache_inv. auto 10.
  - exists (set_host a (host_of (ac_input a0))). split.
    + rewrite <- Hi. unfold host_of. by destruct (ai_addr (ac_input a)) as [[]|].
    + unfold cache_inv, set_host. simpl. auto 10.
Qed.

Lemma ip_answers net a0 : answers net a0 ac_ip (ip_of (ac_input a0)).
Proof.
  intros a Hinv. unfold ac_ip.
  destruct (ac_ipDone a) eqn:E.
  { destruct Hinv as (Hi & Hs & He & Hn & Hh & Hip & Hp & Hr).
    exists a. rewrite Hip by done. split; [done|]. unfold cache_inv. auto 10. }
  assert (Hset : forall a', cache_inv net a0 a' ->
    cache_inv net a0 (set_ip a' (ip_of (ac_input a0)))).
  { intros a' (Hi & Hs & He & Hn & Hh & Hip & Hp & Hr).
    unfold cache_inv, set_ip. simpl. auto 10. }
  pose proof Hinv as (Hi & _). rewrite Hi.
  destruct (ai_addr (ac_input a0)) as [[]|] eqn:Ea;
    try (eexists; split; [|by apply Hset]; unfold ip_of; rewrite Ea; reflexivity);
    destruct (host_answers net a0 a Hinv) as (a' & -> & Hinv');
    (eexists; split; [|by apply Hset]; unfold ip_of; rewrite Ea; reflexivity).
Qed.

Lemma port_answers net a0 : answers net a0 (ac_port net) (port_value net (ac_input a0)).
Proof.
  intros a (Hi & Hs & He & Hn & Hh & Hip & Hp & Hr). unfold ac_port.
  destruct (ac_portDone a) eqn:E.
  - exists a. rewrite Hp by done. split; [done|]. unfold cache_inv. auto 10.
  - rewrite Hi. eexists. split; [done|]. unfold cache_inv, set_port. simpl. auto 10.
Qed.

(** Building an answer from the answers of the methods it calls. *)
Lemma answers_bind {A B} net a0 (m : addrCache -> A * addrCache) v
    (k : A -> addrCache -> B * addrCache) w :
  answers net a0 m v -> answers net a0 (k v) w ->
  answers net a0 (fun a => let '(x, a') := m a in k x a') w.
Proof.
  intros Hm Hk a Ha. destruct (Hm a Ha) as (a' & -> & Ha'). by apply Hk.
Qed.

Lemma answers_ret {A} net a0 (v : A) : answers net a0 (fun a => (v, a)) v.
Proof. intros a Ha. eauto. Qed.

(** [ip] does not look at the reverse names. *)
Lemma ip_set_reverse a names :
  ac_ip (set_reverse a names) = ((ac_ip a).1, set_reverse (ac_ip a).2 names).
Proof.
  destruct a as [i hd hv ipd ipv pd pv st en rd rn nw]. unfold ac_ip, ac_host, set_reverse. simpl.
  destruct ipd, hd, (ai_addr i) as [[]|]; reflexivity.
Qed.

Lemma reverse_answers net a0 : answers net a0 ac_reverseDNSNames (names_of a0).
Proof.
  intros a Hinv. pose proof Hinv as (Hi & Hs & He & Hn & Hh & Hip & Hp & Hr).
  unfold ac_reverseDNSNames. rewrite Hs, He.
  destruct (ac_reverseStorage a0) as [st|] eqn:Es.
  2:{ exists a. split; [|done]. f_equal. unfold names_of. rewrite Es.
      by destruct (ac_reverseEnabled a0 && _). }
  destruct (ac_reverseEnabled a0) eqn:Ee; simpl.
  2:{ exists a. split; [|done]. unfold names_of. by rewrite Ee. }
  destruct (ac_reverseDone a) eqn:Ed.
  { exists a. by rewrite Hr. }
  assert (Hnames : names_of a0 = if IsValid (ip_of (ac_input a0))
    then CachedReverseDNSNames (Some st) (ip_of (ac_input a0)) (ac_now a0) else []).
  { unfold names_of. by rewrite Ee, Es. }
  rewrite ip_set_reverse. destruct (ip_answers net a0 a Hinv) as (a' & -> & Hinv'). simpl.
  destruct Hinv' as (Hi' & Hs' & He' & Hn' & Hh' & Hip'' & Hp' & Hr').
  assert (Hset : forall x, cache_inv net a0 (set_reverse (set_reverse a' x) (names_of a0))).
  { intros x. unfold cache_inv, set_reverse. simpl. auto 10. }
  destruct (IsValid (ip_of (ac_input a0))) eqn:Ev; simpl.
  - eexists. split; [|apply (Hset [])]. rewrite Hn', <- Hnames. reflexivity.
  - exists (set_reverse a' []). split; [by rewrite Hnames|].
    specialize (Hset []). by rewrite Hnames in Hset.
Qed.

Lemma isFQDN_answers net a0 :
  answers net a0 ac_isFQDN
    (negb (String.eqb (host_of (ac_input a0)) "") && negb (IsValid (ip_of (ac_input a0)))).
Proof.
  apply (answers_bind net a0 _ _ (fun host a => if String.eqb host "" then (false, a) else _)
    _ (host_answers net a0)).
  destruct (String.eqb _ ""); simpl; [apply answers_ret|].
  eapply answers_bind; [apply ip_answers|apply answers_ret].
Qed.

Lemma ip_test_answers {A} net a0 (f : Addr -> A) :
  answers net a0 (fun a => let '(ip, a) := ac_ip a in (f ip, a)) (f (ip_of (ac_input a0))).
Proof. eapply answers_bind; [apply ip_answers|apply answers_ret]. Qed.

Lemma if4_answers {A} net a0 (f : Addr -> bool) (x : A) (g : Addr -> A) :
  answers net a0 (fun a => let '(ip, a) := ac_ip a in if f ip then (x, a) else (g ip, a))
    (if f (ip_of (ac_input a0)) then x else g (ip_of (ac_input a0))).
Proof.
  eapply answers_bind; [apply ip_answers|].
  destruct (f _); apply answers_ret.
Qed.

Lemma matchString_answers net a0 want :
  answers net a0 (ac_matchString want) (matches_string a0 want).
Proof.
  eapply answers_bind; [apply host_answers|]. unfold matches_string.
  destruct (String.eqb _ want); simpl; [apply answers_ret|].
  eapply answers_bind; [apply reverse_answers|apply answers_ret].
Qed.

Lemma matchRegexp_answers net a0 re :
  answers net a0 (ac_matchRegexp re) (matches_regexp a0 re).
Proof.
  eapply answers_bind; [apply host_answers|]. unfold matches_regexp.
  destruct (re _); simpl; [apply answers_ret|].
  eapply answers_bind; [apply reverse_answers|apply answers_ret].
Qed.

(** ** ... and so is the evaluation state *)

Definition eval_inv (e0 e : bytecodeEval) : Prop :=
  ev_network e = ev_network e0 /\ ev_isDial e = ev_isDial e0 /\
  ev_isListen e = ev_isListen e0 /\ ev_isLookup e = ev_isLookup e0 /\
  cache_inv (portNetwork (ev_network e0)) (ev_laddr e0) (ev_laddr e) /\
  cache_inv (portNetwork (ev_network e0)) (ev_raddr e0) (ev_raddr e).

Lemma on_laddr_answers {A} e0 (m : addrCache -> A * addrCache) v e :
  answers (portNetwork (ev_network e0)) (ev_laddr e0) m v -> eval_inv e0 e ->
  exists e', on_laddr m e = (v, e') /\ eval_inv e0 e'.
Proof.
  intros Hm (Hn & Hd & Hl & Hk & Ha & Hb). unfold on_laddr.
  destruct (Hm _ Ha) as (a' & -> & Ha'). eexists. split; [done|].
  unfold eval_inv, set_laddr. simpl. auto 10.
Qed.

Lemma on_raddr_answers {A} e0 (m : addrCache -> A * addrCache) v e :
  answers (portNetwork (ev_network e0)) (ev_raddr e0) m v -> eval_inv e0 e ->
  exists e', on_raddr m e = (v, e') /\ eval_inv e0 e'.
Proof.
  intros Hm (Hn & Hd & Hl & Hk & Ha & Hb). unfold on_raddr.
  destruct (Hm _ Hb) as (a' & -> & Ha'). eexists. split; [done|].
  unfold eval_inv, set_raddr. simpl. auto 10.
Qed.

Lemma bytecodeParamIndex_index {A} (table : list A) param :
  0 <= param ->
  bytecodeParamIndex param (zlen table) =
    match index table param with Some _ => (param, true) | None => (0, false) end.
Proof.
  intros Hp. unfold bytecodeParamIndex. pose proof (zlen_nonneg table).
  destruct (index table param) eqn:E.
  - apply index_Some_range in E.
    destruct (Z.leb_spec (zlen table) 0), (Z.leb_spec (zlen table) param); (lia || done).
  - apply index_None in E.
    destruct (Z.leb_spec (zlen table) 0), (Z.leb_spec (zlen table) param); (lia || done).
Qed.

(** Looking an entry up and testing it. *)
Lemma with_entry_value {A S} (inv : S -> Prop) (table : list A) param
    (test : A -> S -> run (bool * S)) f s :
  0 <= param -> inv s ->
  (forall x s, x ∈ table -> inv s -> exists s', test x s = Done (f x, s') /\ inv s') ->
  exists s', with_entry table param test s = Done (entry table param f, s') /\ inv s'.
Proof.
  intros Hp Hs Ht. unfold with_entry, entry. rewrite bytecodeParamIndex_index by done.
  destruct (index table param) as [x|] eqn:E; [|by eexists].
  rewrite E. simpl. apply Ht; [by eapply index_elem|done].
Qed.

(** A computation on the evaluation state that always answers [v]. *)
Definition ev_answers {A} (e0 : bytecodeEval) (m : bytecodeEval -> A * bytecodeEval) (v : A) : Prop :=
  forall e, eval_inv e0 e -> exists e', m e = (v, e') /\ eval_inv e0 e'.

Lemma raddr_answers {A} e0 (m : addrCache -> A * addrCache) v :
  answers (portNetwork (ev_network e0)) (ev_raddr e0) m v -> ev_answers e0 (on_raddr m) v.
Proof. intros Hm e He. by apply on_raddr_answers. Qed.

Lemma laddr_answers {A} e0 (m : addrCache -> A * addrCache) v :
  answers (portNetwork (ev_network e0)) (ev_laddr e0) m v -> ev_answers e0 (on_laddr m) v.
Proof. intros Hm e He. by apply on_laddr_answers. Qed.

Lemma isNet4_answers e0 : ev_answers e0 ev_isNet4
  (let net := ev_network e0 in
   isNet4 net || (negb (isNet6 net) &&
     (Is4 (ip_of (ac_input (ev_laddr e0))) || Is4 (ip_of (ac_input (ev_raddr e0)))))).
Proof.
  intros e He. pose proof He as (Hn & _). unfold ev_isNet4. rewrite Hn. simpl.
  destruct (isNet4 _); [by eexists|]. destruct (isNet6 _); [by eexists|]. simpl.
  destruct (laddr_answers e0 _ _ (ip_test_answers _ _ Is4) e He) as (e' & Heq & He').
  unfold ac_isIPv4. rewrite Heq. destruct (Is4 _); simpl; [by eexists|].
  by apply (raddr_answers e0 _ _ (ip_test_answers _ _ Is4)).
Qed.

Lemma isNet6_answers e0 : ev_answers e0 ev_isNet6
  (let net := ev_network e0 in
   isNet6 net || (negb (isNet4 net) &&
     (Is6 (ip_of (ac_input (ev_laddr e0))) || Is6 (ip_of (ac_input (ev_raddr e0)))))).
Proof.
  intros e He. pose proof He as (Hn & _). unfold ev_isNet6. rewrite Hn. simpl.
  destruct (isNet6 _); [by eexists|]. destruct (isNet4 _); [by eexists|]. simpl.
  destruct (laddr_answers e0 _ _ (ip_test_answers _ _ Is6) e He) as (e' & Heq & He').
  unfold ac_isIPv6. rewrite Heq. destruct (Is6 _); simpl; [by eexists|].
  by apply (raddr_answers e0 _ _ (ip_test_answers _ _ Is6)).
Qed.

Lemma matchIPv4_answers net a0 want :
  answers net a0 (ac_matchIPv4 want)
    (Is4 (ip_of (ac_input a0)) && (As4Uint32 (ip_of (ac_input a0)) =? want)).
Proof.
  eapply answers_bind; [apply ip_answers|]. destruct (Is4 _); apply answers_ret.
Qed.

Lemma inIPv4Subnet_answers net a0 sn :
  answers net a0 (ac_inIPv4Subnet sn)
    (Is4 (ip_of (ac_input a0)) && subnet_contains sn (As4Uint32 (ip_of (ac_input a0)))).
Proof.
  eapply answers_bind; [apply ip_answers|]. destruct (Is4 _); apply answers_ret.
Qed.

Lemma ipv6_answers net a0 : answers net a0 ac_ipv6 (v6_of (ac_input a0)).
Proof.
  eapply answers_bind; [apply ip_answers|]. unfold v6_of. destruct (Is6 _); apply answers_ret.
Qed.

(** The four shapes of the arms that use a table or a port. *)
Lemma entry_arm {A} e0 (table : list A) param (m : A -> bytecodeEval -> bool * bytecodeEval) f e :
  0 <= param -> eval_inv e0 e -> (forall x, ev_answers e0 (m x) (f x)) ->
  exists e', with_entry table param (fun x ev => Done (m x ev)) e = Done (entry table param f, e')
    /\ eval_inv e0 e'.
Proof.
  intros Hp He Hm. apply (with_entry_value (eval_inv e0)); [done..|].
  intros x s _ Hs. destruct (Hm x s Hs) as (s' & -> & ?). eauto.
Qed.

Lemma regexp_arm e0 (table : list (option regexp)) param
    (m : regexp -> bytecodeEval -> bool * bytecodeEval) f e :
  Forall is_Some table -> 0 <= param -> eval_inv e0 e ->
  (forall re, ev_answers e0 (m re) (f re)) ->
  exists e', with_entry table param
      (fun re ev => let! re := must re in Done (m re ev)) e
    = Done (entry table param (fun o => match o with Some re => f re | None => false end), e')
    /\ eval_inv e0 e'.
Proof.
  intros Hre Hp He Hm. apply (with_entry_value (eval_inv e0)); [done..|].
  intros x s Hx Hs. rewrite Forall_forall in Hre. destruct (Hre x Hx) as [re ->]. simpl.
  destruct (Hm re s Hs) as (s' & -> & ?). eauto.
Qed.

Lemma v6_arm {A} e0 (table : list A) param (m : bytecodeEval -> Addr * bytecodeEval)
    (g : Addr -> A -> bool) ip e :
  0 <= param -> eval_inv e0 e -> ev_answers e0 m ip ->
  exists e', with_entry table param (fun x ev => let '(ip, ev) := m ev in Done (g ip x, ev)) e
    = Done (entry table param (g ip), e') /\ eval_inv e0 e'.
Proof.
  intros Hp He Hm. apply (with_entry_value (eval_inv e0)); [done..|].
  intros x s _ Hs. destruct (Hm s Hs) as (s' & -> & ?). eauto.
Qed.

Lemma port_arm e0 param (m : bytecodeEval -> Z * bytecodeEval) port e :
  eval_inv e0 e -> ev_answers e0 m port ->
  exists e', (let '(p, ok) := bytecodeParamInt param 65535 in
              if (ok : bool) then let '(q, ev) := m e in Done (q =? p, ev) else Done (false, e))
    = Done ((param <=? 65535) && (port =? param), e') /\ eval_inv e0 e'.
Proof.
  intros He Hm. unfold bytecodeParamInt. simpl.
  destruct (Z.ltb_spec 65535 param), (Z.leb_spec param 65535); try lia; [by eexists|].
  destruct (Hm e He) as (e' & -> & ?). eauto.
Qed.

(** The predicate arms compute their value and only fill caches. *)
Lemma evalPredicate_value t e0 e op param r :
  Forall is_Some (t_regexps t) -> 0 <= param ->
  eval_inv e0 e -> evalPredicate t op param e = Some r ->
  exists e', r = Done (predicateValue t e0 op param, e') /\ eval_inv e0 e'.
Proof.
  intros Hre Hp He. pose proof He as (Hnet & Hd & Hl & Hk & _ & _).
  assert (Hpure : forall m (v : bool), ev_answers e0 m v ->
    exists e', Done (m e) = Done (v, e') /\ eval_inv e0 e').
  { intros m v Hm. destruct (Hm e He) as (e' & -> & ?). eauto. }
  destruct op; simpl; intros [= <-]; rewrite ?Hnet, ?Hd, ?Hl, ?Hk; try (by exists e).
  - by apply Hpure, isNet4_answers.
  - by apply Hpure, isNet6_answers.
  - by apply Hpure, raddr_answers, isFQDN_answers.
  - by apply Hpure, laddr_answers, isFQDN_answers.
  - apply entry_arm; [done..|]. intros x. apply raddr_answers, matchString_answers.
  - apply entry_arm; [done..|]. intros x. apply laddr_answers, matchString_answers.
  - apply regexp_arm; [done..|]. intros x. apply raddr_answers, matchRegexp_answers.
  - apply regexp_arm; [done..|]. intros x. apply laddr_answers, matchRegexp_answers.
  - apply entry_arm; [done..|]. intros x. apply raddr_answers, matchIPv4_answers.
  - apply entry_arm; [done..|]. intros x. apply laddr_answers, matchIPv4_answers.
  - apply (v6_arm e0 _ _ _ (fun ip w => bool_decide (ip = w))); [done..|]. apply raddr_answers, ipv6_answers.
  - apply (v6_arm e0 _ _ _ (fun ip w => bool_decide (ip = w))); [done..|]. apply laddr_answers, ipv6_answers.
  - apply entry_arm; [done..|]. intros x. apply raddr_answers, inIPv4Subnet_answers.
  - apply entry_arm; [done..|]. intros x. apply laddr_answers, inIPv4Subnet_answers.
  - apply (v6_arm e0 _ _ _ (fun ip p => Prefix_Contains p ip)); [done..|]. apply raddr_answers, ipv6_answers.
  - apply (v6_arm e0 _ _ _ (fun ip p => Prefix_Contains p ip)); [done..|]. apply laddr_answers, ipv6_answers.
  - apply port_arm; [done..|]. apply raddr_answers, port_answers.
  - apply port_arm; [done..|]. apply laddr_answers, port_answers.
Qed.

(** Opcodes with a predicate arm. *)
Definition has_predicate (op : opcode) : bool :=
  match op with
  | OP_NET4 | OP_NET6 | OP_UDP | OP_TCP | OP_DIAL | OP_LISTEN | OP_LOOKUP
  | OP_FQDN | OP_LFQDN | OP_ADDR_S | OP_LADDR_S | OP_ADDR_RE | OP_LADDR_RE
  | OP_ADDR4 | OP_LADDR4 | OP_ADDR6 | OP_LADDR6 | OP_SNET4 | OP_LSNET4
  | OP_SNET6 | OP_LSNET6 | OP_PORT | OP_LPORT => true
  | _ => false
  end.

Lemma evalPredicate_has t op param e :
  is_Some (evalPredicate t op param e) <-> has_predicate op = true.
Proof. destruct op; simpl; split; intros Hx; (done || by eexists || by destruct Hx). Qed.

Lemma eval_inv_refl network laddr raddr storage lrev rrev lnow rnow d li lo :
  let e := MkEval network (newAddrCache laddr storage lrev lnow)
             (newAddrCache raddr storage rrev rnow) d li lo in
  eval_inv e e.
Proof.
  simpl. unfold eval_inv, cache_inv, newAddrCache. simpl. repeat split; done.
Qed.
End Transparent.
