(* ===== verification/SockOwner.v ===== *)
(** * Flow tuples of raw IP packets

    Models src/sockowner/ip.go: the extraction of the socket flow of an
    outgoing or incoming IPv4 or IPv6 packet.  Slices and reads carry Go's
    bounds checks; the walk over IPv6 extension headers has one unit of fuel
    per byte of the packet, and every header is at least eight bytes long. *)

From S2P Require Import Prelude GoStd NetIP.

Inductive flowError : Type :=
| ErrProtocol | ErrNotIPPacket | ErrShortPacket | ErrNonFirstFragment | ErrMalformedPacket.

Record FlowTuple : Type := MkFlowTuple {
  ft_Proto : string;
  ft_LocalIP : list byte; ft_LocalPort : Z;
  ft_RemoteIP : list byte; ft_RemotePort : Z }.

Inductive packetDirection : Type := packetDirectionOutgoing | packetDirectionIncoming.

Definition ipProtoTCP : Z := 6.
Definition ipProtoUDP : Z := 17.
Definition ipProtoESP : Z := 50.
Definition ipv6ExtHopByHop : Z := 0.
Definition ipv6ExtRouting : Z := 43.
Definition ipv6ExtFragment : Z := 44.
Definition ipv6ExtAH : Z := 51.
Definition ipv6NoNextHeader : Z := 59.
Definition ipv6ExtDestinationOptions : Z := 60.
Definition ipv6ExtMobility : Z := 135.
Definition ipv6ExtHIP : Z := 139.
Definition ipv6ExtShim6 : Z := 140.

(** Reads of a packet: [packet[i]], [binary.BigEndian.Uint16(packet[i:])] and
    [packet[i:j]]. *)
Definition rd8 (packet : list byte) (i : Z) : run Z := let! b := must (index packet i) in Done (bZ b).
Definition rd16 (packet : list byte) (i : Z) : run Z := must (be16 packet i).
Definition cut {A} (packet : list A) (i j : Z) : run (list A) := must (slice packet i j).

Definition fail {A} (e : flowError) : run (result flowError A) := Done (Failure e).

Definition makeFlowTuple (srcIP : list byte) (srcPort : Z) (dstIP : list byte) (dstPort : Z)
    (proto : string) (dir : packetDirection) : FlowTuple :=
  match dir with
  | packetDirectionOutgoing => MkFlowTuple proto srcIP srcPort dstIP dstPort
  | packetDirectionIncoming => MkFlowTuple proto dstIP dstPort srcIP srcPort
  end.

Definition parseTransportPorts (payload : list byte) (proto : Z)
  : run (result flowError (Z * Z * string)) :=
  if proto =? ipProtoTCP then
    if zlen payload <? 20 then fail ErrShortPacket
    else
      let! b := rd8 payload 12 in
      let headerLen := Z.shiftr b 4 * 4 in
      if headerLen <? 20 then fail ErrMalformedPacket
      else if zlen payload <? headerLen then fail ErrShortPacket
      else
        let! sp := rd16 payload 0 in
        let! dp := rd16 payload 2 in
        Done (Success (sp, dp, "tcp"))
  else if proto =? ipProtoUDP then
    if zlen payload <? 8 then fail ErrShortPacket
    else
      let! sp := rd16 payload 0 in
      let! dp := rd16 payload 2 in
      Done (Success (sp, dp, "udp"))
  else fail ErrProtocol.

Definition flowTupleFromIPv4Packet (packet : list byte) (dir : packetDirection)
  : run (result flowError FlowTuple) :=
  if zlen packet <? 20 then fail ErrShortPacket
  else
    let! b0 := rd8 packet 0 in
    let ihl := Z.land b0 15 * 4 in
    if ihl <? 20 then fail ErrMalformedPacket
    else if zlen packet <? ihl then fail ErrShortPacket
    else
      let! totalLen := rd16 packet 2 in
      if totalLen <? ihl then fail ErrMalformedPacket
      else if zlen packet <? totalLen then fail ErrShortPacket
      else
        let! packet := cut packet 0 totalLen in
        let! flagsFrag := rd16 packet 6 in
        let fragOffset := Z.land flagsFrag 8191 in
        if negb (fragOffset =? 0) then fail ErrNonFirstFragment
        else
          let! proto := rd8 packet 9 in
          let! srcIP := cut packet 12 16 in
          let! dstIP := cut packet 16 20 in
          let! payload := cut packet ihl (zlen packet) in
          let! r := parseTransportPorts payload proto in
          match r with
          | Failure e => fail e
          | Success (srcPort, dstPort, protoName) =>
              Done (Success (makeFlowTuple srcIP srcPort dstIP dstPort protoName dir))
          end.

Definition skipIPv6OptionsExtHeader (packet : list byte) (offset : Z)
  : run (result flowError (Z * Z)) :=
  if zlen packet <? offset + 2 then fail ErrShortPacket
  else
    let! nextHeader := rd8 packet offset in
    let! l := rd8 packet (offset + 1) in
    let headerLen := (l + 1) * 8 in
    if headerLen <? 8 then fail ErrMalformedPacket
    else
      let nextOffset := offset + headerLen in
      if zlen packet <? nextOffset then fail ErrShortPacket
      else Done (Success (nextHeader, nextOffset)).

Definition skipIPv6FragmentHeader (packet : list byte) (offset : Z)
  : run (result flowError (Z * Z)) :=
  if zlen packet <? offset + 8 then fail ErrShortPacket
  else
    let! nextHeader := rd8 packet offset in
    let! frag := rd16 packet (offset + 2) in
    let fragOffset := Z.shiftr frag 3 in
    if negb (fragOffset =? 0) then fail ErrNonFirstFragment
    else Done (Success (nextHeader, offset + 8)).

Definition skipIPv6AHHeader (packet : list byte) (offset : Z)
  : run (result flowError (Z * Z)) :=
  if zlen packet <? offset + 2 then fail ErrShortPacket
  else
    let! nextHeader := rd8 packet offset in
    let! l := rd8 packet (offset + 1) in
    let headerLen := (l + 2) * 4 in
    if headerLen <? 8 then fail ErrMalformedPacket
    else
      let nextOffset := offset + headerLen in
      if zlen packet <? nextOffset then fail ErrShortPacket
      else Done (Success (nextHeader, nextOffset)).

(** The [for] loop over the extension headers. *)
Fixpoint ipv6_headers (fuel : nat) (packet srcIP dstIP : list byte) (dir : packetDirection)
    (nextHeader offset : Z) : run (result flowError FlowTuple) :=
  let skip (r : run (result flowError (Z * Z))) (k : Z -> Z -> run (result flowError FlowTuple)) :=
    let! r := r in
    match r with
    | Failure e => fail e
    | Success (nextHeader, offset) => k nextHeader offset
    end in
  match fuel with
  | O => OutOfFuel
  | S fuel' =>
      if (nextHeader =? ipProtoTCP) || (nextHeader =? ipProtoUDP) then
        let! payload := cut packet offset (zlen packet) in
        let! r := parseTransportPorts payload nextHeader in
        match r with
        | Failure e => fail e
        | Success (srcPort, dstPort, protoName) =>
            Done (Success (makeFlowTuple srcIP srcPort dstIP dstPort protoName dir))
        end
      else if (nextHeader =? ipv6ExtHopByHop) || (nextHeader =? ipv6ExtRouting)
              || (nextHeader =? ipv6ExtDestinationOptions) || (nextHeader =? ipv6ExtMobility)
              || (nextHeader =? ipv6ExtHIP) || (nextHeader =? ipv6ExtShim6) then
        skip (skipIPv6OptionsExtHeader packet offset) (ipv6_headers fuel' packet srcIP dstIP dir)
      else if nextHeader =? ipv6ExtFragment then
        skip (skipIPv6FragmentHeader packet offset) (ipv6_headers fuel' packet srcIP dstIP dir)
      else if nextHeader =? ipv6ExtAH then
        skip (skipIPv6AHHeader packet offset) (ipv6_headers fuel' packet srcIP dstIP dir)
      else if nextHeader =? ipv6NoNextHeader then fail ErrProtocol
      else if nextHeader =? ipProtoESP then fail ErrProtocol
      else fail ErrProtocol
  end.

Definition flowTupleFromIPv6Packet (packet : list byte) (dir : packetDirection)
  : run (result flowError FlowTuple) :=
  if zlen packet <? 40 then fail ErrShortPacket
  else
    let! payloadLen := rd16 packet 4 in
    if payloadLen =? 0 then fail ErrMalformedPacket
    else
      let totalLen := 40 + payloadLen in
      if zlen packet <? totalLen then fail ErrShortPacket
      else
        let! packet := cut packet 0 totalLen in
        let! nextHeader := rd8 packet 6 in
        let! srcIP := cut packet 8 24 in
        let! dstIP := cut packet 24 40 in
        ipv6_headers (S (length packet)) packet srcIP dstIP dir nextHeader 40.

Definition flowTupleFromIPPacket (packet : list byte) (dir : packetDirection)
  : run (result flowError FlowTuple) :=
  if zlen packet <? 1 then fail ErrShortPacket
  else
    let! b0 := rd8 packet 0 in
    let version := Z.shiftr b0 4 in
    if version =? 4 then flowTupleFromIPv4Packet packet dir
    else if version =? 6 then flowTupleFromIPv6Packet packet dir
    else fail ErrNotIPPacket.

Definition FlowTupleFromOutgoingIPPacket (packet : list byte) : run (result flowError FlowTuple) :=
  flowTupleFromIPPacket packet packetDirectionOutgoing.

Definition FlowTupleFromIncomingIPPacket (packet : list byte) : run (result flowError FlowTuple) :=
  flowTupleFromIPPacket packet packetDirectionIncoming.

(** ** Specifications *)

(** The tuple seen from the other end. *)
Definition mirror (f : FlowTuple) : FlowTuple :=
  MkFlowTuple (ft_Proto f) (ft_RemoteIP f) (ft_RemotePort f) (ft_LocalIP f) (ft_LocalPort f).

Definition well_formed_flow (f : FlowTuple) : Prop :=
  (ft_Proto f = "tcp" \/ ft_Proto f = "udp") /\
  0 <= ft_LocalPort f < 65536 /\ 0 <= ft_RemotePort f < 65536 /\
  ((zlen (ft_LocalIP f) = 4 /\ zlen (ft_RemoteIP f) = 4) \/
   (zlen (ft_LocalIP f) = 16 /\ zlen (ft_RemoteIP f) = 16)).

(** ** Lemmas *)

Lemma rd8_in_range p i : 0 <= i < zlen p -> exists v, rd8 p i = Done v /\ 0 <= v < 256.
Proof.
  intros H. unfold rd8. destruct (index_in_range p i H) as [b ->]. simpl.
  eexists. split; [done|]. apply bZ_range.
Qed.

Lemma rd16_in_range p i : 0 <= i -> i + 2 <= zlen p -> exists v, rd16 p i = Done v /\ 0 <= v < 65536.
Proof.
  intros H1 H2. unfold rd16. destruct (be16_in_range p i H1 H2) as [v Hv]. rewrite Hv.
  eexists. split; [done|]. by eapply be16_range.
Qed.

Lemma cut_in_range {A} (p : list A) i j :
  0 <= i <= j -> j <= zlen p -> exists q, cut p i j = Done q /\ slice p i j = Some q /\ zlen q = j - i.
Proof.
  intros H1 H2. unfold cut. destruct (slice_in_range p i j H1 H2) as [q Hq]. rewrite Hq.
  eexists. split_and!; [done..|]. by eapply zlen_slice.
Qed.

(** Steps over the reads and slices of a goal that are in range. *)
Ltac step_reads :=
  repeat match goal with
  | |- context [rd8 ?p ?i] =>
      let v := fresh "v" in let Hv := fresh "Hv" in let E := fresh "E" in
      destruct (rd8_in_range p i ltac:(lia)) as (v & E & Hv); rewrite E; cbn [run_bind]
  | |- context [rd16 ?p ?i] =>
      let v := fresh "v" in let Hv := fresh "Hv" in let E := fresh "E" in
      destruct (rd16_in_range p i ltac:(lia) ltac:(lia)) as (v & E & Hv); rewrite E; cbn [run_bind]
  | |- context [cut ?p ?i ?j] =>
      let q := fresh "q" in let Hq := fresh "Hq" in let Hl := fresh "Hl" in let E := fresh "E" in
      destruct (cut_in_range p i j ltac:(lia) ltac:(lia)) as (q & E & Hq & Hl); rewrite E; cbn [run_bind]
  end.

Lemma parseTransportPorts_total payload proto :
  exists r, parseTransportPorts payload proto = Done r /\
    match r with
    | Success (sp, dp, name) => 0 <= sp < 65536 /\ 0 <= dp < 65536 /\ (name = "tcp" \/ name = "udp")
    | Failure _ => True
    end.
Proof.
  unfold parseTransportPorts, fail.
  destruct (proto =? ipProtoTCP).
  - destruct (Z.ltb_spec (zlen payload) 20); [by eexists|]. step_reads.
    destruct (_ <? 20); [by eexists|]. destruct (zlen payload <? _); [by eexists|].
    step_reads. eexists. split; [done|]. split_and!; (lia || auto).
  - destruct (proto =? ipProtoUDP); [|by eexists].
    destruct (Z.ltb_spec (zlen payload) 8); [by eexists|]. step_reads.
    eexists. split; [done|]. split_and!; (lia || auto).
Qed.

(** What the extension-header skips return moves the offset forward, inside
    the packet. *)
Definition skip_ok (packet : list byte) (offset : Z) (r : run (result flowError (Z * Z))) : Prop :=
  exists x, r = Done x /\
  match x with
  | Success (next, offset') => 0 <= next < 256 /\ offset + 8 <= offset' <= zlen packet
  | Failure _ => True
  end.

Lemma skip_options_ok packet offset :
  0 <= offset -> skip_ok packet offset (skipIPv6OptionsExtHeader packet offset).
Proof.
  intros Ho. unfold skip_ok, skipIPv6OptionsExtHeader, fail.
  destruct (Z.ltb_spec (zlen packet) (offset + 2)); [by eexists|]. step_reads.
  destruct (Z.ltb_spec ((v0 + 1) * 8) 8); [by eexists|].
  destruct (Z.ltb_spec (zlen packet) (offset + (v0 + 1) * 8)); [by eexists|].
  eexists. split; [done|]. simpl. lia.
Qed.

Lemma skip_fragment_ok packet offset :
  0 <= offset -> skip_ok packet offset (skipIPv6FragmentHeader packet offset).
Proof.
  intros Ho. unfold skip_ok, skipIPv6FragmentHeader, fail.
  destruct (Z.ltb_spec (zlen packet) (offset + 8)); [by eexists|]. step_reads.
  destruct (negb _); [by eexists|]. eexists. split; [done|]. simpl. lia.
Qed.

Lemma skip_ah_ok packet offset :
  0 <= offset -> skip_ok packet offset (skipIPv6AHHeader packet offset).
Proof.
  intros Ho. unfold skip_ok, skipIPv6AHHeader, fail.
  destruct (Z.ltb_spec (zlen packet) (offset + 2)); [by eexists|]. step_reads.
  destruct (Z.ltb_spec ((v0 + 2) * 4) 8); [by eexists|].
  destruct (Z.ltb_spec (zlen packet) (offset + (v0 + 2) * 4)); [by eexists|].
  eexists. split; [done|]. simpl. lia.
Qed.

#[export] Hint Resolve skip_options_ok skip_fragment_ok skip_ah_ok : gonnect.

(** A result that is a value, with a property of the flow on success. *)
Definition returns (P : FlowTuple -> Prop) (r : run (result flowError FlowTuple)) : Prop :=
  exists x, r = Done x /\ match x with Success f => P f | Failure _ => True end.

Lemma returns_fail P e : returns P (fail e).
Proof. by eexists. Qed.

#[export] Hint Resolve returns_fail : gonnect.

Lemma returns_ports P payload proto k :
  (forall sp dp name, 0 <= sp < 65536 -> 0 <= dp < 65536 -> name = "tcp" \/ name = "udp" ->
     P (k sp dp name)) ->
  returns P (let! r := parseTransportPorts payload proto in
             match r with
             | Failure e => fail e
             | Success (sp, dp, name) => Done (Success (k sp dp name))
             end).
Proof.
  intros Hk. destruct (parseTransportPorts_total payload proto) as (r & -> & Hr). simpl.
  destruct r as [[[sp dp] name]|e]; [|apply returns_fail].
  eexists. split; [done|]. destruct Hr as (? & ? & ?). by apply Hk.
Qed.

Lemma makeFlowTuple_wf srcIP sp dstIP dp name dir n :
  0 <= sp < 65536 -> 0 <= dp < 65536 -> name = "tcp" \/ name = "udp" ->
  (n = 4 \/ n = 16) -> zlen srcIP = n -> zlen dstIP = n ->
  well_formed_flow (makeFlowTuple srcIP sp dstIP dp name dir).
Proof. intros. unfold well_formed_flow. destruct dir; simpl; split_and!; (lia || auto). Qed.

Lemma ipv6_headers_returns fuel packet srcIP dstIP dir next offset :
  0 <= offset <= zlen packet -> zlen packet - offset < Z.of_nat fuel ->
  zlen srcIP = 16 -> zlen dstIP = 16 ->
  returns well_formed_flow (ipv6_headers fuel packet srcIP dstIP dir next offset).
Proof.
  intros Ho Hf Hs Hd. revert next offset Ho Hf. induction fuel as [|fuel IH]; intros next offset Ho Hf; [lia|].
  assert (Hskip : forall r, skip_ok packet offset r ->
    returns well_formed_flow
      (let! r := r in
       match r with
       | Failure e => fail e
       | Success (next, offset) => ipv6_headers fuel packet srcIP dstIP dir next offset
       end)).
  { intros r (x & -> & Hx). simpl. destruct x as [[n o]|e]; [|apply returns_fail].
    apply IH; lia. }
  assert (Ho0 : 0 <= offset) by lia. cbn [ipv6_headers].
  destruct ((next =? ipProtoTCP) || (next =? ipProtoUDP));
    [|repeat match goal with |- context [if ?c then _ else _] => destruct c end;
      first [apply returns_fail | apply Hskip; auto with gonnect]].
  step_reads. apply returns_ports. intros. apply makeFlowTuple_wf with (n := 16); auto.
Qed.

Lemma flow4_returns packet dir : returns well_formed_flow (flowTupleFromIPv4Packet packet dir).
Proof.
  unfold flowTupleFromIPv4Packet.
  destruct (Z.ltb_spec (zlen packet) 20); [auto with gonnect|]. step_reads.
  destruct (Z.ltb_spec (Z.land v 15 * 4) 20); [auto with gonnect|].
  destruct (Z.ltb_spec (zlen packet) (Z.land v 15 * 4)); [auto with gonnect|]. step_reads.
  destruct (Z.ltb_spec v0 (Z.land v 15 * 4)); [auto with gonnect|].
  destruct (Z.ltb_spec (zlen packet) v0); [auto with gonnect|]. step_reads.
  destruct (negb _); [auto with gonnect|]. step_reads.
  apply returns_ports. intros. apply makeFlowTuple_wf with (n := 4); auto; lia.
Qed.

Lemma flow6_returns packet dir : returns well_formed_flow (flowTupleFromIPv6Packet packet dir).
Proof.
  unfold flowTupleFromIPv6Packet.
  destruct (Z.ltb_spec (zlen packet) 40); [auto with gonnect|]. step_reads.
  destruct (Z.eqb_spec v 0); [auto with gonnect|].
  destruct (Z.ltb_spec (zlen packet) (40 + v)); [auto with gonnect|]. step_reads.
  apply ipv6_headers_returns; unfold zlen in *; lia.
Qed.

(** ** The two directions *)

Definition mirror_result (r : run (result flowError FlowTuple)) : run (result flowError FlowTuple) :=
  let! x := r in
  Done match x with Success f => Success (mirror f) | Failure e => Failure e end.

Lemma mirror_headers fuel packet srcIP dstIP next offset :
  ipv6_headers fuel packet srcIP dstIP packetDirectionIncoming next offset =
  mirror_result (ipv6_headers fuel packet srcIP dstIP packetDirectionOutgoing next offset).
Proof.
  revert next offset. induction fuel as [|fuel IH]; intros next offset; [done|].
  cbn [ipv6_headers]. unfold mirror_result.
  repeat (destruct (_ || _) || destruct (_ =? _)); try reflexivity.
  - destruct (cut _ _ _); [|done..]. simpl.
    destruct (parseTransportPorts _ _) as [[[[? ?] ?]|?]| |]; done.
  - destruct (skipIPv6OptionsExtHeader _ _) as [[[? ?]|?]| |]; simpl; [apply IH|done..].
  - destruct (skipIPv6FragmentHeader _ _) as [[[? ?]|?]| |]; simpl; [apply IH|done..].
  - destruct (skipIPv6AHHeader _ _) as [[[? ?]|?]| |]; simpl; [apply IH|done..].
Qed.

Lemma mirror_flow4 packet :
  flowTupleFromIPv4Packet packet packetDirectionIncoming =
  mirror_result (flowTupleFromIPv4Packet packet packetDirectionOutgoing).
Proof.
  unfold flowTupleFromIPv4Packet, mirror_result.
  repeat match goal with
  | |- context [if ?c then _ else _] => destruct c; cbn [run_bind fail]; try reflexivity
  | |- context [rd8 ?p ?i] => destruct (rd8 p i); cbn [run_bind fail]; try reflexivity
  | |- context [rd16 ?p ?i] => destruct (rd16 p i); cbn [run_bind fail]; try reflexivity
  | |- context [cut ?p ?i ?j] => destruct (cut p i j); cbn [run_bind fail]; try reflexivity
  | |- context [parseTransportPorts ?p ?i] =>
      destruct (parseTransportPorts p i) as [[[[? ?] ?]|?]| |]; cbn [run_bind fail]; try reflexivity
  end.
Qed.

Lemma mirror_flow6 packet :
  flowTupleFromIPv6Packet packet packetDirectionIncoming =
  mirror_result (flowTupleFromIPv6Packet packet packetDirectionOutgoing).
Proof.
  unfold flowTupleFromIPv6Packet, mirror_result.
  repeat match goal with
  | |- context [if ?c then _ else _] => destruct c; cbn [run_bind fail]; try reflexivity
  | |- context [rd8 ?p ?i] => destruct (rd8 p i); cbn [run_bind fail]; try reflexivity
  | |- context [rd16 ?p ?i] => destruct (rd16 p i); cbn [run_bind fail]; try reflexivity
  | |- context [cut ?p ?i ?j] => destruct (cut p i j); cbn [run_bind fail]; try reflexivity
  end.
  apply mirror_headers.
Qed.

(** ** Theorems *)

(** On any bytes, [flowTupleFromIPPacket] returns: no read or slice is out
    of range and the walk over the IPv6 extension headers ends.  A flow it
    returns is a tcp or udp flow with 16-bit ports and two addresses of the
    same family. *)
Theorem flow_tuple_total packet dir :
  exists r, flowTupleFromIPPacket packet dir = Done r /\
  match r with Success f => well_formed_flow f | Failure _ => True end.
Proof.
  unfold flowTupleFromIPPacket.
  destruct (Z.ltb_spec (zlen packet) 1); [by eexists|]. step_reads.
  destruct (_ =? 4); [apply flow4_returns|].
  destruct (_ =? 6); [apply flow6_returns|by eexists].
Qed.

(** The flow of an incoming packet is the flow of the same packet read as
    outgoing with its two ends exchanged, and the two readings fail on the
    same packets with the same errors. *)
Theorem flow_tuple_mirror packet :
  FlowTupleFromIncomingIPPacket packet = mirror_result (FlowTupleFromOutgoingIPPacket packet).
Proof.
  unfold FlowTupleFromIncomingIPPacket, FlowTupleFromOutgoingIPPacket, flowTupleFromIPPacket.
  destruct (_ <? 1); [done|]. destruct (rd8 packet 0) as [b| |]; simpl; [|done..].
  destruct (_ =? 4); [apply mirror_flow4|].
  destruct (_ =? 6); [apply mirror_flow6|done].
Qed.
