(* ===== verification/FirewallConfig.v ===== *)
(** * Firewall policies

    Models src/firewall_config.go: the rules and configurations, their
    compilation, the matching of endpoints given as text, as addresses or as IP
    packets, and the six queries of a configuration.  [trimDot] is from
    src/filter.go and [SplitHostPort] from src/helpers.go.

    An endpoint is state: its cached reverse DNS names are read at most once per
    query, at the instant [fh_now].  A [FirewallDNSCache] is its method
    [ReverseDNSNames].  A nil slice of compiled rules is [None].

    The lemmas reduce the loops to a reference: [policy_matches] says of a rule
    as written which endpoints it selects, and a query holds exactly when some
    rule selects the endpoint. *)

From Stdlib Require Import Ascii.
From S2P Require Import Prelude GoStd HostPort NetIP NetText PathMatch DNSCache Bytecode Machine AddrCache.

(** ** Helpers *)

Definition trimDot (s : string) : string :=
  let s := TrimSpace s in
  if HasSuffix s "." then TrimRight s "." else s.

(** [gonnect.SplitHostPort] *)
Definition SplitHostPortDefault `{HostEnv} (network hostport : string) (defport : Z) : string * Z :=
  match SplitHostPort hostport with
  | None => (hostport, defport)
  | Some (host, strPort) =>
      let intPort := match Atoi strPort with Some p => Some p | None => LookupPortOffline network strPort end in
      (host, match intPort with
             | Some p => if (p <=? 65535) && (0 <=? p) then p else defport
             | None => defport
             end)
  end.

(** ** Rules *)

Definition defaultFirewallResponseTTL : Z := 120 * second.

Record FirewallPortRange : Type := MkRange { pr_First : Z; pr_Last : Z }.

#[global] Instance FirewallPortRange_eq_dec : EqDecision FirewallPortRange.
Proof. solve_decision. Defined.

(** [ReverseDNSNames(addr, now)] *)
Definition FirewallDNSCache : Type := Addr -> Z -> list string.

Record FirewallRule : Type := MkRule {
  fr_Network : string; fr_Hosts : list string; fr_LocalHosts : list string;
  fr_Ports : list Z; fr_PortRanges : list FirewallPortRange }.

#[global] Instance FirewallRule_eq_dec : EqDecision FirewallRule.
Proof. solve_decision. Defined.

Record compiledFirewallHostSelector : Type := MkSelector {
  hs_any : bool; hs_hosts : list string; hs_addrs : list Addr; hs_prefixes : list Prefix }.

Record compiledFirewallRule : Type := MkCompiled {
  cr_network : string; cr_ipVersion : Z; cr_ipProtocol : Z; cr_matchesIP : bool;
  cr_peer : compiledFirewallHostSelector; cr_local : compiledFirewallHostSelector;
  cr_ports : list Z; cr_ranges : list FirewallPortRange }.

Record FirewallConfig : Type := MkConfig {
  fc_Exclude : list FirewallRule; fc_Include : list FirewallRule;
  fc_ResponseTTL : Z; fc_DNSCache : option FirewallDNSCache;
  fc_exclude : option (list compiledFirewallRule); fc_include : option (list compiledFirewallRule) }.

Definition anyFirewallIPProtocol : Z := 256.
Definition icmpFirewallIPProtocol : Z := 257.

(** ** Compilation *)

(** [addr.Unmap()] and, when there is a zone, [WithZone("")]. *)
Definition normalizeFirewallAddr (addr : Addr) : Addr := WithoutZone (Unmap addr).

(** [netip.PrefixFrom]: without the zone, and with an invalid length when it
    does not fit. *)
Definition PrefixFrom (ip : Addr) (bits : Z) : Prefix :=
  MkPrefix (WithoutZone ip) (if (0 <=? bits) && (bits <=? BitLen ip) then bits else -1).

Definition canonicalFirewallPrefix (prefix : Prefix) : Prefix :=
  let addr := pfx_addr prefix in
  let bits := pfx_bits prefix in
  let '(addr, bits) := if Is4In6 addr && (96 <=? bits) then (Unmap addr, bits - 96) else (addr, bits) in
  Prefix_Masked (PrefixFrom addr bits).

(** The text in which an address is looked for: without brackets and zone. *)
Definition selector_ip_text (host : string) : string :=
  let ipHost := Trim host "[]" in
  let '(withoutZone, _, ok) := Cut ipHost percent in
  if (ok : bool) then withoutZone else ipHost.

(** One entry of a host list. *)
Definition add_host (compiled : compiledFirewallHostSelector) (raw : string) : compiledFirewallHostSelector :=
  let host := trimDot (ToLower raw) in
  if String.eqb host "*" then MkSelector true (hs_hosts compiled) (hs_addrs compiled) (hs_prefixes compiled)
  else
    match ParseAddr (selector_ip_text host) with
    | Some addr =>
        MkSelector (hs_any compiled) (hs_hosts compiled) (hs_addrs compiled ++ [normalizeFirewallAddr addr]) (hs_prefixes compiled)
    | None =>
        match ParsePrefix host with
        | Some prefix =>
            MkSelector (hs_any compiled) (hs_hosts compiled) (hs_addrs compiled)
              (hs_prefixes compiled ++ [canonicalFirewallPrefix prefix])
        | None =>
            if String.eqb host "" then compiled
            else MkSelector (hs_any compiled) (hs_hosts compiled ++ [host]) (hs_addrs compiled) (hs_prefixes compiled)
        end
    end.

Definition compileFirewallHostSelector (hosts : list string) : compiledFirewallHostSelector :=
  fold_left add_host hosts (MkSelector (zlen hosts =? 0) [] [] []).

Definition compileFirewallIPSelector (network : string) : Z * Z * bool :=
  let eq := String.eqb network in
  if eq "" || eq "*" || eq "ip" then (0, anyFirewallIPProtocol, true)
  else if eq "ip4" then (4, anyFirewallIPProtocol, true)
  else if eq "ip6" then (6, anyFirewallIPProtocol, true)
  else if eq "tcp" then (0, 6, true)
  else if eq "tcp4" then (4, 6, true)
  else if eq "tcp6" then (6, 6, true)
  else if eq "udp" then (0, 17, true)
  else if eq "udp4" then (4, 17, true)
  else if eq "udp6" then (6, 17, true)
  else if eq "icmp" then (0, icmpFirewallIPProtocol, true)
  else if eq "icmp4" then (4, 1, true)
  else if eq "icmp6" then (6, 58, true)
  else
    let finish (version : Z) (protocolText : string) :=
      match ParseUint protocolText 8 with
      | None => (0, 0, false)
      | Some protocol => (version, protocol, true)
      end in
    if HasPrefix network "ip:" then finish 0 (TrimPrefix network "ip:")
    else if HasPrefix network "ip4:" then finish 4 (TrimPrefix network "ip4:")
    else if HasPrefix network "ip6:" then finish 6 (TrimPrefix network "ip6:")
    else (0, 0, false).

Definition compile_rule (rule : FirewallRule) : compiledFirewallRule :=
  let network := ToLower (TrimSpace (fr_Network rule)) in
  let '(ipVersion, ipProtocol, matchesIP) := compileFirewallIPSelector network in
  MkCompiled network ipVersion ipProtocol matchesIP
    (compileFirewallHostSelector (fr_Hosts rule)) (compileFirewallHostSelector (fr_LocalHosts rule))
    (fr_Ports rule) (fr_PortRanges rule).

Definition compileFirewallRules (rules : list FirewallRule) : list compiledFirewallRule := map compile_rule rules.

(** The copies that cloning makes are the immutable lists of the model. *)
Definition cloneFirewallConfig (cfg : option FirewallConfig) : FirewallConfig :=
  let cfg := match cfg with Some c => c | None => MkConfig [] [] 0 None None None end in
  MkConfig (fc_Exclude cfg) (fc_Include cfg) (fc_ResponseTTL cfg) (fc_DNSCache cfg)
    (Some (compileFirewallRules (fc_Exclude cfg))) (Some (compileFirewallRules (fc_Include cfg))).

Definition Clone (cfg : option FirewallConfig) : FirewallConfig := cloneFirewallConfig cfg.

Definition responseTTL (cfg : option FirewallConfig) : Z :=
  match cfg with
  | None => defaultFirewallResponseTTL
  | Some cfg => if fc_ResponseTTL cfg <=? 0 then defaultFirewallResponseTTL else fc_ResponseTTL cfg
  end.

(** ** Endpoints *)

Record firewallHost : Type := MkHost {
  fh_name : string; fh_addr : Addr; fh_reverseDone : bool; fh_reverseNames : list string; fh_now : Z }.

Definition host_of_name (now : Z) (name : string) : firewallHost := MkHost name AddrZero false [] now.
Definition host_of_addr (now : Z) (addr : Addr) : firewallHost := MkHost "" addr false [] now.

Definition firewallHostMayBeAddr (host : string) : bool :=
  if negb (lacks colon host) then true
  else if String.eqb host "" then false
  else all_chars (fun c => (c =a dot) || ((48 <=? ord c) && (ord c <=? 57))) host.

Definition parseFirewallHost (now : Z) (host : string) : firewallHost :=
  let normalized := trimDot (ToLower (Trim host "[]")) in
  let '(withoutZone, _, ok) := Cut normalized percent in
  let normalized := if (ok : bool) then withoutZone else normalized in
  if negb (firewallHostMayBeAddr normalized) then host_of_name now normalized
  else match ParseAddr normalized with
       | None => host_of_name now normalized
       | Some addr => host_of_addr now (normalizeFirewallAddr addr)
       end.

(** The names are read from the cache at most once. *)
Definition cachedNames (dnsCache : option FirewallDNSCache) (host : firewallHost) : list string * firewallHost :=
  match dnsCache with
  | None => ([], host)
  | Some names =>
      if negb (IsValid (fh_addr host)) then ([], host)
      else if fh_reverseDone host then (fh_reverseNames host, host)
      else
        let l := names (fh_addr host) (fh_now host) in
        (l, MkHost (fh_name host) (fh_addr host) true l (fh_now host))
  end.

(** ** Selectors *)

Definition nameMatches (selector : compiledFirewallHostSelector) (name : string) : bool :=
  let name := trimDot (ToLower name) in
  if String.eqb name "" then false
  else existsb (fun pattern => match Match pattern name with Some ok => ok | None => false end) (hs_hosts selector).

Definition addrMatches (selector : compiledFirewallHostSelector) (addr : Addr) : bool :=
  existsb (fun candidate => bool_decide (candidate = addr)) (hs_addrs selector) ||
  existsb (fun prefix => Prefix_Contains prefix addr) (hs_prefixes selector).

Definition selector_matches (selector : compiledFirewallHostSelector) (dnsCache : option FirewallDNSCache)
    (host : firewallHost) : bool * firewallHost :=
  if IsValid (fh_addr host) then
    if addrMatches selector (fh_addr host) then (true, host)
    else if zlen (hs_hosts selector) =? 0 then (false, host)
    else let '(names, host) := cachedNames dnsCache host in (existsb (nameMatches selector) names, host)
  else (nameMatches selector (fh_name host), host).

Definition portMatches (rule : compiledFirewallRule) (port : Z) : bool :=
  if (zlen (cr_ports rule) =? 0) && (zlen (cr_ranges rule) =? 0) then true
  else
    existsb (fun candidate => candidate =? port) (cr_ports rule) ||
    existsb (fun candidate =>
      let '(first, last) := if pr_Last candidate <? pr_First candidate
                            then (pr_Last candidate, pr_First candidate)
                            else (pr_First candidate, pr_Last candidate) in
      (first <=? port) && (port <=? last)) (cr_ranges rule).

Definition normalizeFirewallNetwork (network : string) : string := ToLower (TrimSpace network).

Definition firewallIPNetwork (network : string) : bool :=
  String.eqb network "ip4" || String.eqb network "ip6" || HasPrefix network "tcp" || HasPrefix network "udp" ||
  HasPrefix network "icmp" || HasPrefix network "ip:" || HasPrefix network "ip4:" || HasPrefix network "ip6:".

Definition firewallNetworkMatches (rule network : string) : bool :=
  let eq := String.eqb network in
  if String.eqb rule "" || String.eqb rule "*" || String.eqb rule network then true
  else if String.eqb rule "ip" then firewallIPNetwork network
  else if String.eqb rule "ip4" then eq "tcp4" || eq "udp4" || eq "icmp4" || HasPrefix network "ip4:"
  else if String.eqb rule "ip6" then eq "tcp6" || eq "udp6" || eq "icmp6" || HasPrefix network "ip6:"
  else if String.eqb rule "tcp" then eq "tcp4" || eq "tcp6"
  else if String.eqb rule "udp" then eq "udp4" || eq "udp6"
  else if String.eqb rule "icmp" then eq "icmp4" || eq "icmp6"
  else if HasPrefix rule "ip:" then
    let protocol := TrimPrefix rule "ip:" in
    eq (String.append "ip4:" protocol) || eq (String.append "ip6:" protocol)
  else false.

Definition ipProtocolMatches (rule : compiledFirewallRule) (version protocol : Z) : bool :=
  if cr_ipProtocol rule =? anyFirewallIPProtocol then true
  else if cr_ipProtocol rule =? icmpFirewallIPProtocol then
    (version =? 4) && (protocol =? 1) || (version =? 6) && (protocol =? 58)
  else cr_ipProtocol rule =? protocol.

(** ** Rule loops *)

(** [endpoint] is parsed when the first rule needs it. *)
Definition ready (host : string) (now : Z) (endpoint : option firewallHost) : firewallHost :=
  match endpoint with Some e => e | None => parseFirewallHost now host end.

Fixpoint matchFirewallRules_go (rules : list compiledFirewallRule) (network host : string) (port : Z)
    (dnsCache : option FirewallDNSCache) (now : Z) (endpoint : option firewallHost) : bool :=
  match rules with
  | [] => false
  | rule :: rules' =>
      if negb (firewallNetworkMatches (cr_network rule) network) || negb (portMatches rule port)
      then matchFirewallRules_go rules' network host port dnsCache now endpoint
      else if hs_any (cr_peer rule) then true
      else
        let '(ok, e) := selector_matches (cr_peer rule) dnsCache (ready host now endpoint) in
        if (ok : bool) then true else matchFirewallRules_go rules' network host port dnsCache now (Some e)
  end.

Definition matchFirewallRules (rules : list compiledFirewallRule) (network host : string) (port : Z)
    (dnsCache : option FirewallDNSCache) (now : Z) : bool :=
  matchFirewallRules_go rules (normalizeFirewallNetwork network) host port dnsCache now None.

(** [rule.peer.any || rule.peer.matches(&endpoint, dnsCache)] *)
Definition accepts (selector : compiledFirewallHostSelector) (dnsCache : option FirewallDNSCache)
    (endpoint : firewallHost) : bool * firewallHost :=
  if hs_any selector then (true, endpoint) else selector_matches selector dnsCache endpoint.

(** The loop over rules with a condition that does not use the endpoints. *)
Fixpoint match_peer_go (cond : compiledFirewallRule -> bool) (rules : list compiledFirewallRule)
    (dnsCache : option FirewallDNSCache) (endpoint : firewallHost) : bool :=
  match rules with
  | [] => false
  | rule :: rules' =>
      if cond rule then
        let '(ok, e) := accepts (cr_peer rule) dnsCache endpoint in
        if (ok : bool) then true else match_peer_go cond rules' dnsCache e
      else match_peer_go cond rules' dnsCache endpoint
  end.

Definition matchFirewallAddrRules (rules : list compiledFirewallRule) (network : string) (addr : Addr) (port : Z)
    (dnsCache : option FirewallDNSCache) (now : Z) : bool :=
  let network := normalizeFirewallNetwork network in
  match_peer_go (fun rule => firewallNetworkMatches (cr_network rule) network && portMatches rule port)
    rules dnsCache (host_of_addr now (normalizeFirewallAddr addr)).

(** The test of a packet by version and protocol. *)
Definition ip_cond (version protocol port : Z) (rule : compiledFirewallRule) : bool :=
  cr_matchesIP rule && ((cr_ipVersion rule =? 0) || (cr_ipVersion rule =? version)) &&
  ipProtocolMatches rule version protocol && portMatches rule port.

Definition matchFirewallIPRules (rules : list compiledFirewallRule) (protocol : Z) (addr : Addr) (port : Z)
    (dnsCache : option FirewallDNSCache) (now : Z) : bool :=
  let addr := normalizeFirewallAddr addr in
  if negb (IsValid addr) then false
  else match_peer_go (ip_cond (if Is4 addr then 4 else 6) protocol port) rules dnsCache (host_of_addr now addr).

Fixpoint matchIncomingFirewallRules_go (rules : list compiledFirewallRule) (network peerHost localHost : string)
    (port : Z) (localKnown : bool) (dnsCache : option FirewallDNSCache) (now lnow : Z)
    (peer local : option firewallHost) : bool :=
  match rules with
  | [] => false
  | rule :: rules' =>
      let next := matchIncomingFirewallRules_go rules' network peerHost localHost port localKnown dnsCache now lnow in
      if negb (firewallNetworkMatches (cr_network rule) network) || negb (portMatches rule port) then next peer local
      else
        let rest (local : option firewallHost) :=
          if hs_any (cr_peer rule) then true
          else
            let '(ok, p) := selector_matches (cr_peer rule) dnsCache (ready peerHost now peer) in
            if (ok : bool) then true else next (Some p) local in
        if negb (hs_any (cr_local rule)) then
          if negb localKnown then next peer local
          else
            let '(ok, l) := selector_matches (cr_local rule) dnsCache (ready localHost lnow local) in
            if negb ok then next peer (Some l) else rest (Some l)
        else rest local
  end.

Definition matchIncomingFirewallRules (rules : list compiledFirewallRule) (network peerHost localHost : string)
    (port : Z) (localKnown : bool) (dnsCache : option FirewallDNSCache) (now lnow : Z) : bool :=
  matchIncomingFirewallRules_go rules (normalizeFirewallNetwork network) peerHost localHost port localKnown
    dnsCache now lnow None None.

(** The loop over rules that also select the local endpoint. *)
Fixpoint match_both_go (cond : compiledFirewallRule -> bool) (rules : list compiledFirewallRule) (localKnown : bool)
    (dnsCache : option FirewallDNSCache) (peer local : firewallHost) : bool :=
  match rules with
  | [] => false
  | rule :: rules' =>
      if negb (cond rule) then match_both_go cond rules' localKnown dnsCache peer local
      else
        let '(skip, local) :=
          if negb (hs_any (cr_local rule)) then
            if negb localKnown then (true, local)
            else let '(ok, l) := selector_matches (cr_local rule) dnsCache local in (negb ok, l)
          else (false, local) in
        if (skip : bool) then match_both_go cond rules' localKnown dnsCache peer local
        else
          let '(ok, p) := accepts (cr_peer rule) dnsCache peer in
          if (ok : bool) then true else match_both_go cond rules' localKnown dnsCache p local
  end.

Definition matchIncomingFirewallAddrRules (rules : list compiledFirewallRule) (network : string) (peer local : Addr)
    (port : Z) (localKnown : bool) (dnsCache : option FirewallDNSCache) (now lnow : Z) : bool :=
  let network := normalizeFirewallNetwork network in
  let local := if localKnown then normalizeFirewallAddr local else AddrZero in
  match_both_go (fun rule => firewallNetworkMatches (cr_network rule) network && portMatches rule port)
    rules localKnown dnsCache (host_of_addr now (normalizeFirewallAddr peer)) (host_of_addr lnow local).

Definition matchIncomingFirewallIPRules (rules : list compiledFirewallRule) (protocol : Z) (peer : Addr) (peerPort : Z)
    (local : option (Addr * Z)) (dnsCache : option FirewallDNSCache) (now lnow : Z) : bool :=
  let peerAddr := normalizeFirewallAddr peer in
  if negb (IsValid peerAddr) then false
  else
    match local with
    | None =>
        match_both_go (ip_cond (if Is4 peerAddr then 4 else 6) protocol peerPort) rules false dnsCache
          (host_of_addr now peerAddr) (host_of_addr lnow AddrZero)
    | Some (l, port) =>
        let localAddr := normalizeFirewallAddr l in
        if negb (IsValid localAddr) then false
        else match_both_go (ip_cond (if Is4 localAddr then 4 else 6) protocol port) rules true dnsCache
               (host_of_addr now peerAddr) (host_of_addr lnow localAddr)
    end.

(** ** Queries *)

Definition splitFirewallEndpoint `{HostEnv} (network address : string) : string * Z :=
  let '(host, port) := SplitHostPortDefault network address 0 in (Trim host "[]", port).

(** A configuration that has not been compiled is compiled for the query. *)
Definition compiled_exclude (cfg : option FirewallConfig) : list compiledFirewallRule * option FirewallDNSCache :=
  match cfg with
  | Some c =>
      match fc_exclude c with
      | Some rules => (rules, fc_DNSCache c)
      | None => if zlen (fc_Exclude c) =? 0 then ([], fc_DNSCache c)
                else (compileFirewallRules (fc_Exclude c), fc_DNSCache c)
      end
  | None => ([], None)
  end.

Definition compiled_include (cfg : option FirewallConfig) : list compiledFirewallRule * option FirewallDNSCache :=
  match cfg with
  | Some c =>
      match fc_include c with
      | Some rules => (rules, fc_DNSCache c)
      | None => if zlen (fc_Include c) =? 0 then ([], fc_DNSCache c)
                else (compileFirewallRules (fc_Include c), fc_DNSCache c)
      end
  | None => ([], None)
  end.

Definition BlocksOutgoing `{HostEnv} (cfg : option FirewallConfig) (now : Z) (network address : string) : bool :=
  let '(rules, dns) := compiled_exclude cfg in
  let '(host, port) := splitFirewallEndpoint network address in
  matchFirewallRules rules network host port dns now.

Definition BlocksOutgoingAddrPort (cfg : option FirewallConfig) (now : Z) (network : string) (addr : Addr) (port : Z) : bool :=
  let '(rules, dns) := compiled_exclude cfg in matchFirewallAddrRules rules network addr port dns now.

Definition BlocksOutgoingIP (cfg : option FirewallConfig) (now : Z) (protocol : Z) (addr : Addr) (port : Z) : bool :=
  let '(rules, dns) := compiled_exclude cfg in matchFirewallIPRules rules protocol addr port dns now.

Definition AllowsIncoming `{HostEnv} (cfg : option FirewallConfig) (now lnow : Z) (network address : string)
    (localAddress : option string) : bool :=
  let '(rules, dns) := compiled_include cfg in
  let '(host, port) := splitFirewallEndpoint network address in
  match localAddress with
  | None => matchIncomingFirewallRules rules network host "" port false dns now lnow
  | Some l =>
      let '(localHost, localPort) := splitFirewallEndpoint network l in
      matchIncomingFirewallRules rules network host localHost localPort true dns now lnow
  end.

Definition AllowsIncomingAddrPort (cfg : option FirewallConfig) (now lnow : Z) (network : string) (addr : Addr) (port : Z)
    (localAddress : option (Addr * Z)) : bool :=
  let '(rules, dns) := compiled_include cfg in
  match localAddress with
  | None => matchIncomingFirewallAddrRules rules network addr AddrZero port false dns now lnow
  | Some (l, lport) => matchIncomingFirewallAddrRules rules network addr l lport true dns now lnow
  end.

Definition AllowsIncomingIP (cfg : option FirewallConfig) (now lnow : Z) (protocol : Z) (addr : Addr) (port : Z)
    (localAddress : option (Addr * Z)) : bool :=
  let '(rules, dns) := compiled_include cfg in
  matchIncomingFirewallIPRules rules protocol addr port localAddress dns now lnow.

(** ** The reference: what a rule selects *)

(** What an entry of a host list means. *)
Inductive hostKind : Type :=
| KAny
| KAddr (a : Addr)
| KPrefix (p : Prefix)
| KName (pattern : string)
| KNone.

Definition kind_of (host : string) : hostKind :=
  if String.eqb host "*" then KAny
  else match ParseAddr (selector_ip_text host) with
       | Some addr => KAddr (normalizeFirewallAddr addr)
       | None =>
           match ParsePrefix host with
           | Some prefix => KPrefix (canonicalFirewallPrefix prefix)
           | None => if String.eqb host "" then KNone else KName host
           end
       end.

Definition host_kind (raw : string) : hostKind := kind_of (trimDot (ToLower raw)).

Definition name_selected (pattern name : string) : bool :=
  let name := trimDot (ToLower name) in
  negb (String.eqb name "") && match Match pattern name with Some ok => ok | None => false end.

(** The names of an endpoint: its own, or those cached for its address. *)
Definition host_names (dns : option FirewallDNSCache) (h : firewallHost) : list string :=
  if IsValid (fh_addr h)
  then match dns with Some names => names (fh_addr h) (fh_now h) | None => [] end
  else [fh_name h].

Definition kind_selects (dns : option FirewallDNSCache) (h : firewallHost) (k : hostKind) : bool :=
  match k with
  | KAny => true
  | KAddr a => IsValid (fh_addr h) && bool_decide (a = fh_addr h)
  | KPrefix p => IsValid (fh_addr h) && Prefix_Contains p (fh_addr h)
  | KName pattern => existsb (name_selected pattern) (host_names dns h)
  | KNone => false
  end.

Definition is_any (k : hostKind) : bool := match k with KAny => true | _ => false end.

(** An empty list selects every endpoint. *)
Definition hosts_select (sel : hostKind -> bool) (hosts : list string) : bool :=
  (zlen hosts =? 0) || existsb (fun raw => sel (host_kind raw)) hosts.

(** How the protocol of a query is given: as a network name or as the version
    and protocol number of a packet. *)
Inductive netQuery : Type := ByName (network : string) | ByIP (version protocol : Z).

Definition network_selected (q : netQuery) (network : string) : bool :=
  match q with
  | ByName n => firewallNetworkMatches network n
  | ByIP version protocol =>
      let '(v, p, ok) := compileFirewallIPSelector network in
      ok && ((v =? 0) || (v =? version)) &&
      (if p =? anyFirewallIPProtocol then true
       else if p =? icmpFirewallIPProtocol then (version =? 4) && (protocol =? 1) || (version =? 6) && (protocol =? 58)
       else p =? protocol)
  end.

Definition in_range (port : Z) (r : FirewallPortRange) : bool :=
  (Z.min (pr_First r) (pr_Last r) <=? port) && (port <=? Z.max (pr_First r) (pr_Last r)).

Definition ports_selected (port : Z) (ports : list Z) (ranges : list FirewallPortRange) : bool :=
  (zlen ports =? 0) && (zlen ranges =? 0) || existsb (fun p => p =? port) ports || existsb (in_range port) ranges.

(** The local endpoint is not looked at for outgoing traffic, and may be unknown. *)
Inductive localEndpoint : Type := LIgnored | LUnknown | LKnown (h : firewallHost).

Definition local_selected (dns : option FirewallDNSCache) (l : localEndpoint) (hosts : list string) : bool :=
  match l with
  | LIgnored => true
  | LUnknown => hosts_select is_any hosts
  | LKnown h => hosts_select (kind_selects dns h) hosts
  end.

Record query : Type := MkQuery { q_net : netQuery; q_port : Z; q_peer : firewallHost; q_local : localEndpoint }.

Definition rule_network (r : FirewallRule) : string := ToLower (TrimSpace (fr_Network r)).

Definition rule_selects (dns : option FirewallDNSCache) (q : query) (r : FirewallRule) : bool :=
  network_selected (q_net q) (rule_network r) && ports_selected (q_port q) (fr_Ports r) (fr_PortRanges r) &&
  local_selected dns (q_local q) (fr_LocalHosts r) && hosts_select (kind_selects dns (q_peer q)) (fr_Hosts r).

(** Whether some rule selects the endpoint of the query. *)
Definition policy_matches (dns : option FirewallDNSCache) (rules : list FirewallRule) (q : query) : bool :=
  existsb (rule_selects dns q) rules.

(** ** Selectors compute the reference *)

(** An endpoint whose names, if read, are those of the cache. *)
Definition host_ok (dns : option FirewallDNSCache) (h : firewallHost) : Prop :=
  fh_reverseDone h = true -> forall names, dns = Some names -> fh_reverseNames h = names (fh_addr h) (fh_now h).

Definition same_host (h h' : firewallHost) : Prop :=
  fh_name h' = fh_name h /\ fh_addr h' = fh_addr h /\ fh_now h' = fh_now h.

Lemma same_host_refl h : same_host h h.
Proof. done. Qed.

Lemma same_host_trans h1 h2 h3 : same_host h1 h2 -> same_host h2 h3 -> same_host h1 h3.
Proof. unfold same_host. intuition congruence. Qed.

Lemma kind_selects_same dns h h' k : same_host h h' -> kind_selects dns h' k = kind_selects dns h k.
Proof. intros (H1 & H2 & H3). unfold kind_selects, host_names. by rewrite H1, H2, H3. Qed.

Lemma hosts_select_ext f g hosts : (forall k, f k = g k) -> hosts_select f hosts = hosts_select g hosts.
Proof.
  intros Hfg. unfold hosts_select. f_equal. induction hosts as [|x l IH]; [done|]. cbn [existsb]. by rewrite Hfg, IH.
Qed.

(** The parts of a compiled selector, by the kinds of its entries. *)
Record selector_of (kinds : list hostKind) (any0 : bool) (s : compiledFirewallHostSelector) : Prop := {
  so_any : hs_any s = any0 || existsb is_any kinds;
  so_hosts : hs_hosts s = flat_map (fun k => match k with KName p => [p] | _ => [] end) kinds;
  so_addrs : hs_addrs s = flat_map (fun k => match k with KAddr a => [a] | _ => [] end) kinds;
  so_prefixes : hs_prefixes s = flat_map (fun k => match k with KPrefix p => [p] | _ => [] end) kinds }.

Lemma compile_selector_of hosts :
  selector_of (map host_kind hosts) (zlen hosts =? 0) (compileFirewallHostSelector hosts).
Proof.
  unfold compileFirewallHostSelector. set (any0 := zlen hosts =? 0). clearbody any0.
  induction hosts as [|raw hosts IH] using rev_ind; [by split; simpl; rewrite ?orb_false_r|].
  rewrite fold_left_app, map_app. cbn [fold_left map]. destruct IH as [H1 H2 H3 H4].
  set (s := fold_left add_host hosts _) in *.
  unfold add_host, host_kind, kind_of. set (host := trimDot (ToLower raw)).
  repeat case_match; split; cbn [hs_any hs_hosts hs_addrs hs_prefixes];
    rewrite ?H1, ?H2, ?H3, ?H4, ?existsb_app, ?flat_map_app; cbn [existsb flat_map is_any];
    rewrite ?app_nil_r, ?orb_false_r, ?orb_true_r; done.
Qed.

(** The patterns among the entries, for one name and for the names of a host. *)
Lemma nameMatches_spec kinds any0 s name : selector_of kinds any0 s ->
  nameMatches s name = existsb (fun k => match k with KName p => name_selected p name | _ => false end) kinds.
Proof.
  intros [_ Hh _ _]. unfold nameMatches. rewrite Hh. clear Hh.
  transitivity (existsb (fun p => name_selected p name)
    (flat_map (fun k => match k with KName p => [p] | _ => [] end) kinds)).
  - unfold name_selected. destruct (String.eqb (trimDot (ToLower name)) ""); [|done].
    induction (flat_map _ kinds) as [|p l IH]; [done|exact IH].
  - rewrite existsb_flat_map. apply existsb_ext. intros []; cbn [existsb]; rewrite ?orb_false_r; done.
Qed.

Lemma addrMatches_spec kinds any0 s addr : selector_of kinds any0 s ->
  addrMatches s addr =
  existsb (fun k => match k with
                    | KAddr a => bool_decide (a = addr) | KPrefix p => Prefix_Contains p addr | _ => false end) kinds.
Proof.
  intros [_ _ Ha Hp]. unfold addrMatches. rewrite Ha, Hp, !existsb_flat_map, existsb_or. apply existsb_ext.
  intros []; cbn [existsb]; rewrite ?orb_false_r; done.
Qed.

Lemma no_patterns kinds any0 s : selector_of kinds any0 s -> (zlen (hs_hosts s) =? 0) = true ->
  existsb (fun k => match k with KName _ => true | _ => false end) kinds = false.
Proof.
  intros [_ Hh _ _]. rewrite Hh. clear Hh. induction kinds as [|k kinds IH]; [done|]. cbn [flat_map existsb].
  destruct k; try exact IH. cbn [app]. rewrite zlen_cons. pose proof (zlen_nonneg (flat_map
    (fun k => match k with KName p => [p] | _ => [] end) kinds)). lia.
Qed.

Lemma existsb_impl {A} (p q : A -> bool) l : (forall a, p a = true -> q a = true) -> existsb q l = false -> existsb p l = false.
Proof.
  intros Hpq. induction l as [|a l IH]; [done|]. cbn [existsb]. rewrite !orb_false_iff. intros [Hq Hl].
  split; [destruct (p a) eqn:E; [by rewrite Hpq in Hq|done]|by apply IH].
Qed.

Lemma cachedNames_spec dns h : host_ok dns h -> IsValid (fh_addr h) = true ->
  exists h', cachedNames dns h = (host_names dns h, h') /\ same_host h h' /\ host_ok dns h'.
Proof.
  intros Hok Hv. unfold cachedNames, host_names. rewrite Hv. destruct dns as [names|]; [|by exists h].
  cbn [negb]. destruct (fh_reverseDone h) eqn:Ed.
  - rewrite (Hok Ed names eq_refl). by exists h.
  - eexists. split; [done|]. split; [done|]. intros _ names' [= <-]. done.
Qed.

(** A selector without a wildcard. *)
Lemma selector_matches_spec kinds s dns h : selector_of kinds false s -> existsb is_any kinds = false -> host_ok dns h ->
  exists h', selector_matches s dns h = (existsb (kind_selects dns h) kinds, h') /\ same_host h h' /\ host_ok dns h'.
Proof.
  intros Hs Hany Hok. unfold selector_matches. destruct (IsValid (fh_addr h)) eqn:Ev.
  - rewrite (addrMatches_spec _ _ _ _ Hs).
    assert (Hsplit : existsb (kind_selects dns h) kinds =
      existsb (fun k => match k with
                        | KAddr a => bool_decide (a = fh_addr h) | KPrefix p => Prefix_Contains p (fh_addr h)
                        | _ => false end) kinds ||
      (existsb (fun k => match k with KName p => existsb (name_selected p) (host_names dns h) | _ => false end) kinds ||
       existsb is_any kinds)).
    { rewrite !existsb_or. apply existsb_ext. intros []; cbn [kind_selects is_any]; rewrite ?Ev, ?orb_false_r; done. }
    rewrite Hsplit, Hany, orb_false_r. destruct (existsb (fun k => match k with KAddr _ => _ | _ => _ end) kinds); [by exists h|].
    cbn [orb]. destruct (zlen (hs_hosts s) =? 0) eqn:Ez.
    + apply (no_patterns _ _ _ Hs) in Ez. exists h. split; [|done]. f_equal. symmetry.
      eapply existsb_impl; [|exact Ez]. by intros [].
    + destruct (cachedNames_spec dns h Hok Ev) as (h' & -> & Hh'). exists h'. split; [|done]. f_equal.
      rewrite (existsb_ext (nameMatches s) _ _ (fun n => nameMatches_spec _ _ _ n Hs)).
      rewrite existsb_swap. apply existsb_ext. intros []; try done; apply existsb_false.
  - exists h. split; [|done]. f_equal. rewrite (nameMatches_spec _ _ _ _ Hs).
    transitivity (existsb (fun k => match k with KName p => name_selected p (fh_name h) | _ => false end) kinds || existsb is_any kinds);
      [by rewrite Hany, orb_false_r|]. rewrite existsb_or. apply existsb_ext.
    intros []; cbn [kind_selects is_any]; unfold host_names; rewrite ?Ev; cbn [existsb]; rewrite ?orb_false_r; done.
Qed.

Lemma hosts_select_any hosts : hosts_select is_any hosts = hs_any (compileFirewallHostSelector hosts).
Proof.
  destruct (compile_selector_of hosts) as [-> _ _ _]. unfold hosts_select. by rewrite existsb_map.
Qed.

Lemma hosts_select_wild sel hosts : sel KAny = true -> hs_any (compileFirewallHostSelector hosts) = true ->
  hosts_select sel hosts = true.
Proof.
  intros Hsel. rewrite <- hosts_select_any. unfold hosts_select. rewrite !orb_true_iff, !existsb_exists.
  intros [?|(raw & Hin & Ha)]; [by left|]. right. exists raw. split; [done|]. destruct (host_kind raw); done.
Qed.

(** The two ways in which the loops use a selector. *)
Lemma accepts_spec hosts dns h : host_ok dns h -> exists h',
  accepts (compileFirewallHostSelector hosts) dns h = (hosts_select (kind_selects dns h) hosts, h') /\
  same_host h h' /\ host_ok dns h'.
Proof.
  intros Hok. unfold accepts. destruct (hs_any (compileFirewallHostSelector hosts)) eqn:Ea.
  - exists h. by rewrite hosts_select_wild.
  - pose proof (compile_selector_of hosts) as Hs. destruct (so_any _ _ _ Hs). rewrite <- hosts_select_any in Ea.
    unfold hosts_select in Ea. apply orb_false_iff in Ea as [E1 E2]. rewrite E1 in Hs.
    destruct (selector_matches_spec _ _ dns h Hs) as (h' & E & Hh'); [by rewrite existsb_map|done|].
    exists h'. split; [|done]. rewrite E. unfold hosts_select. by rewrite E1, existsb_map.
Qed.

Lemma not_any_matches hosts dns h : hs_any (compileFirewallHostSelector hosts) = false -> host_ok dns h -> exists h',
  selector_matches (compileFirewallHostSelector hosts) dns h = (hosts_select (kind_selects dns h) hosts, h') /\
  same_host h h' /\ host_ok dns h'.
Proof. intros Ha Hok. destruct (accepts_spec hosts dns h Hok) as (h' & E & Hh'). unfold accepts in E. rewrite Ha in E. by exists h'. Qed.

(** ** The loops compute the reference *)

Lemma portMatches_spec r port : portMatches (compile_rule r) port = ports_selected port (fr_Ports r) (fr_PortRanges r).
Proof.
  unfold portMatches, compile_rule, ports_selected. destruct (compileFirewallIPSelector _) as [[v p] ok]. cbn [cr_ports cr_ranges].
  destruct ((zlen (fr_Ports r) =? 0) && (zlen (fr_PortRanges r) =? 0)); [done|]. cbn [orb]. f_equal. apply existsb_ext.
  intros [first last]. unfold in_range. cbn [pr_First pr_Last].
  destruct (Z.ltb_spec last first); [by rewrite Z.min_r, Z.max_l by lia|by rewrite Z.min_l, Z.max_r by lia].
Qed.

(** The conditions of the loops that do not look at hosts. *)
Definition cond_for (q : netQuery) (port : Z) (cond : compiledFirewallRule -> bool) : Prop :=
  forall r, cond (compile_rule r) =
    network_selected q (rule_network r) && ports_selected port (fr_Ports r) (fr_PortRanges r).

Lemma cr_network_spec r : cr_network (compile_rule r) = rule_network r.
Proof. unfold compile_rule. fold (rule_network r). by destruct (compileFirewallIPSelector _) as [[v p] ok]. Qed.

Lemma name_cond_for network port :
  cond_for (ByName network) port (fun rule => firewallNetworkMatches (cr_network rule) network && portMatches rule port).
Proof. intros r. by rewrite cr_network_spec, portMatches_spec. Qed.

Lemma ip_cond_for version protocol port : cond_for (ByIP version protocol) port (ip_cond version protocol port).
Proof.
  intros r. unfold ip_cond. rewrite portMatches_spec. f_equal. unfold network_selected, ipProtocolMatches, compile_rule.
  fold (rule_network r). by destruct (compileFirewallIPSelector _) as [[v p] ok].
Qed.

Lemma cr_peer_spec r : cr_peer (compile_rule r) = compileFirewallHostSelector (fr_Hosts r).
Proof. unfold compile_rule. by destruct (compileFirewallIPSelector _) as [[v p] ok]. Qed.

Lemma cr_local_spec r : cr_local (compile_rule r) = compileFirewallHostSelector (fr_LocalHosts r).
Proof. unfold compile_rule. by destruct (compileFirewallIPSelector _) as [[v p] ok]. Qed.

Lemma rule_selects_same dns q port h h' l r : same_host h h' ->
  rule_selects dns (MkQuery q port h' l) r = rule_selects dns (MkQuery q port h l) r.
Proof.
  intros Hh. unfold rule_selects. cbn [q_net q_port q_local q_peer]. f_equal. apply hosts_select_ext.
  intros k. by apply kind_selects_same.
Qed.

Lemma match_peer_go_spec q port cond rules dns h : cond_for q port cond -> host_ok dns h ->
  match_peer_go cond (compileFirewallRules rules) dns h = policy_matches dns rules (MkQuery q port h LIgnored).
Proof.
  intros Hc. unfold policy_matches, compileFirewallRules. revert h.
  induction rules as [|r rules IH]; intros h Hok; [done|]. cbn [map match_peer_go existsb]. rewrite Hc.
  unfold rule_selects at 1. cbn [q_net q_port q_local q_peer local_selected]. rewrite andb_true_r.
  destruct (network_selected q (rule_network r) && ports_selected port (fr_Ports r) (fr_PortRanges r)); [|by apply IH].
  cbn [andb]. rewrite cr_peer_spec. destruct (accepts_spec (fr_Hosts r) dns h Hok) as (h' & -> & Hs & Hok').
  destruct (hosts_select (kind_selects dns h) (fr_Hosts r)); [done|]. cbn [orb]. rewrite IH by done.
  apply existsb_ext. intros r'. by apply rule_selects_same.
Qed.

(** The local endpoint of a loop. *)
Definition local_of (localKnown : bool) (l : firewallHost) : localEndpoint := if localKnown then LKnown l else LUnknown.

Lemma rule_selects_same_local dns q port h known l l' r : same_host l l' ->
  rule_selects dns (MkQuery q port h (local_of known l')) r = rule_selects dns (MkQuery q port h (local_of known l)) r.
Proof.
  intros Hl. unfold rule_selects. cbn [q_net q_port q_local q_peer]. f_equal. f_equal. destruct known; [|done].
  cbn [local_of local_selected]. apply hosts_select_ext. intros k. by apply kind_selects_same.
Qed.

(** The local test of a rule: whether it is passed, and the endpoint after it. *)
Lemma local_test_spec r known dns l : host_ok dns l -> exists l',
  (if negb (hs_any (cr_local (compile_rule r))) then
     if negb known then (true, l)
     else let '(ok, l1) := selector_matches (cr_local (compile_rule r)) dns l in (negb ok, l1)
   else (false, l)) = (negb (local_selected dns (local_of known l) (fr_LocalHosts r)), l') /\
  same_host l l' /\ host_ok dns l'.
Proof.
  intros Hok. rewrite cr_local_spec. destruct (hs_any (compileFirewallHostSelector (fr_LocalHosts r))) eqn:Ea.
  - exists l. split; [|done]. cbn [negb]. f_equal. destruct known; cbn [local_of local_selected].
    + by rewrite hosts_select_wild.
    + by rewrite hosts_select_any, Ea.
  - cbn [negb]. destruct known; cbn [local_of local_selected negb].
    + destruct (not_any_matches (fr_LocalHosts r) dns l Ea Hok) as (l' & -> & Hl'). by exists l'.
    + exists l. by rewrite hosts_select_any, Ea.
Qed.

Lemma match_both_go_spec q port cond rules known dns h l : cond_for q port cond -> host_ok dns h -> host_ok dns l ->
  match_both_go cond (compileFirewallRules rules) known dns h l =
  policy_matches dns rules (MkQuery q port h (local_of known l)).
Proof.
  intros Hc. unfold policy_matches, compileFirewallRules. revert h l.
  induction rules as [|r rules IH]; intros h l Hh Hl; [done|]. cbn [map match_both_go existsb]. rewrite Hc.
  unfold rule_selects at 1. cbn [q_net q_port q_local q_peer].
  destruct (network_selected q (rule_network r) && ports_selected port (fr_Ports r) (fr_PortRanges r));
    cbn [negb andb orb]; [|by apply IH].
  destruct (local_test_spec r known dns l Hl) as (l' & -> & Hsl & Hl').
  destruct (local_selected dns (local_of known l) (fr_LocalHosts r)); cbn [negb andb orb].
  - rewrite cr_peer_spec. destruct (accepts_spec (fr_Hosts r) dns h Hh) as (h' & -> & Hsh & Hh').
    destruct (hosts_select (kind_selects dns h) (fr_Hosts r)); [done|]. cbn [orb]. rewrite IH by done.
    apply existsb_ext. intros r'. rewrite (rule_selects_same _ _ _ _ _ _ _ Hsh). by apply rule_selects_same_local.
  - rewrite IH by done. apply existsb_ext. intros r'. by apply rule_selects_same_local.
Qed.

(** The loops over text parse the endpoints when they are needed. *)
Lemma matchFirewallRules_go_spec rules network host port dns now e :
  matchFirewallRules_go rules network host port dns now e =
  match_peer_go (fun rule => firewallNetworkMatches (cr_network rule) network && portMatches rule port)
    rules dns (ready host now e).
Proof.
  revert e. induction rules as [|rule rules IH]; intros e; [done|]. cbn [matchFirewallRules_go match_peer_go].
  rewrite <- negb_andb. destruct (firewallNetworkMatches _ _ && portMatches _ _); cbn [negb]; [|apply IH].
  unfold accepts. destruct (hs_any (cr_peer rule)); [done|].
  destruct (selector_matches (cr_peer rule) dns (ready host now e)) as [[] e']; [done|]. apply IH.
Qed.

Lemma matchIncomingFirewallRules_go_spec rules network peerHost localHost port known dns now lnow p l :
  matchIncomingFirewallRules_go rules network peerHost localHost port known dns now lnow p l =
  match_both_go (fun rule => firewallNetworkMatches (cr_network rule) network && portMatches rule port)
    rules known dns (ready peerHost now p) (ready localHost lnow l).
Proof.
  revert p l. induction rules as [|rule rules IH]; intros p l; [done|]. cbn [matchIncomingFirewallRules_go match_both_go].
  rewrite <- negb_andb. destruct (firewallNetworkMatches _ _ && portMatches _ _); cbn [negb]; [|apply IH].
  assert (Hrest : forall l',
    (if hs_any (cr_peer rule) then true
     else let '(ok, p') := selector_matches (cr_peer rule) dns (ready peerHost now p) in
          if ok then true
          else matchIncomingFirewallRules_go rules network peerHost localHost port known dns now lnow (Some p') l') =
    (let '(ok, p') := accepts (cr_peer rule) dns (ready peerHost now p) in
     if ok then true
     else match_both_go (fun rule => firewallNetworkMatches (cr_network rule) network && portMatches rule port)
       rules known dns p' (ready localHost lnow l'))).
  { intros l'. unfold accepts. destruct (hs_any (cr_peer rule)); [done|].
    destruct (selector_matches (cr_peer rule) dns (ready peerHost now p)) as [[] p']; [done|]. apply IH. }
  destruct (hs_any (cr_local rule)); cbn [negb]; [apply Hrest|]. destruct known; cbn [negb]; [|apply IH].
  destruct (selector_matches (cr_local rule) dns (ready localHost lnow l)) as [[] l']; cbn [negb].
  - apply (Hrest (Some l')).
  - apply IH.
Qed.

(** ** The six queries *)

(** A query of a configuration, as its callers ask it. *)
Inductive question : Type :=
| OutgoingText (network address : string)
| OutgoingAddr (network : string) (addr : Addr) (port : Z)
| OutgoingIP (protocol : Z) (addr : Addr) (port : Z)
| IncomingText (network address : string) (localAddress : option string)
| IncomingAddr (network : string) (addr : Addr) (port : Z) (localAddress : option (Addr * Z))
| IncomingIP (protocol : Z) (addr : Addr) (port : Z) (localAddress : option (Addr * Z)).

Section Queries.
Context {HE : HostEnv}.

Definition ask (cfg : option FirewallConfig) (now lnow : Z) (x : question) : bool :=
  match x with
  | OutgoingText network address => BlocksOutgoing cfg now network address
  | OutgoingAddr network addr port => BlocksOutgoingAddrPort cfg now network addr port
  | OutgoingIP protocol addr port => BlocksOutgoingIP cfg now protocol addr port
  | IncomingText network address l => AllowsIncoming cfg now lnow network address l
  | IncomingAddr network addr port l => AllowsIncomingAddrPort cfg now lnow network addr port l
  | IncomingIP protocol addr port l => AllowsIncomingIP cfg now lnow protocol addr port l
  end.

Definition outgoing (x : question) : bool :=
  match x with OutgoingText _ _ | OutgoingAddr _ _ _ | OutgoingIP _ _ _ => true | _ => false end.

Definition packet_version (addr : Addr) : Z := if Is4 addr then 4 else 6.

(** The endpoints a question is about; a packet with an invalid address is
    selected by no rule. *)
Definition question_query (now lnow : Z) (x : question) : option query :=
  match x with
  | OutgoingText network address =>
      let '(host, port) := splitFirewallEndpoint network address in
      Some (MkQuery (ByName (normalizeFirewallNetwork network)) port (parseFirewallHost now host) LIgnored)
  | OutgoingAddr network addr port =>
      Some (MkQuery (ByName (normalizeFirewallNetwork network)) port
        (host_of_addr now (normalizeFirewallAddr addr)) LIgnored)
  | OutgoingIP protocol addr port =>
      let addr := normalizeFirewallAddr addr in
      if IsValid addr
      then Some (MkQuery (ByIP (packet_version addr) protocol) port (host_of_addr now addr) LIgnored) else None
  | IncomingText network address l =>
      let '(host, port) := splitFirewallEndpoint network address in
      let q := MkQuery (ByName (normalizeFirewallNetwork network)) in
      Some (match l with
            | None => q port (parseFirewallHost now host) LUnknown
            | Some l => let '(lhost, lport) := splitFirewallEndpoint network l in
                        q lport (parseFirewallHost now host) (LKnown (parseFirewallHost lnow lhost))
            end)
  | IncomingAddr network addr port l =>
      let q := MkQuery (ByName (normalizeFirewallNetwork network)) in
      let peer := host_of_addr now (normalizeFirewallAddr addr) in
      Some (match l with
            | None => q port peer LUnknown
            | Some (l, lport) => q lport peer (LKnown (host_of_addr lnow (normalizeFirewallAddr l)))
            end)
  | IncomingIP protocol addr port l =>
      let addr := normalizeFirewallAddr addr in
      if IsValid addr then
        match l with
        | None => Some (MkQuery (ByIP (packet_version addr) protocol) port (host_of_addr now addr) LUnknown)
        | Some (l, lport) =>
            let l := normalizeFirewallAddr l in
            if IsValid l
            then Some (MkQuery (ByIP (packet_version l) protocol) lport (host_of_addr now addr)
                         (LKnown (host_of_addr lnow l)))
            else None
        end
      else None
  end.

(** The compiled rules, if any, belong to the rules. *)
Definition config_ok (cfg : FirewallConfig) : Prop :=
  (forall rules, fc_exclude cfg = Some rules -> rules = compileFirewallRules (fc_Exclude cfg)) /\
  (forall rules, fc_include cfg = Some rules -> rules = compileFirewallRules (fc_Include cfg)).

Lemma compiled_exclude_spec cfg : config_ok cfg ->
  compiled_exclude (Some cfg) = (compileFirewallRules (fc_Exclude cfg), fc_DNSCache cfg).
Proof.
  intros [Hx _]. unfold compiled_exclude. destruct (fc_exclude cfg) as [rules|]; [by rewrite (Hx rules)|].
  destruct (fc_Exclude cfg); [done|]. by rewrite zlen_cons, (proj2 (Z.eqb_neq _ 0)) by (pose proof (zlen_nonneg l); lia).
Qed.

Lemma compiled_include_spec cfg : config_ok cfg ->
  compiled_include (Some cfg) = (compileFirewallRules (fc_Include cfg), fc_DNSCache cfg).
Proof.
  intros [_ Hx]. unfold compiled_include. destruct (fc_include cfg) as [rules|]; [by rewrite (Hx rules)|].
  destruct (fc_Include cfg); [done|]. by rewrite zlen_cons, (proj2 (Z.eqb_neq _ 0)) by (pose proof (zlen_nonneg l); lia).
Qed.

Lemma fresh_host_ok dns now addr : host_ok dns (host_of_addr now addr).
Proof. intros H. discriminate H. Qed.

Lemma parsed_host_ok dns now host : host_ok dns (parseFirewallHost now host).
Proof.
  unfold parseFirewallHost. destruct (Cut _ _) as [[? ?] ok]. destruct (negb _); [intros H; discriminate H|].
  destruct (ParseAddr _); intros H; discriminate H.
Qed.

(** The rules a question is about. *)
Definition asked_rules (cfg : FirewallConfig) (x : question) : list FirewallRule :=
  if outgoing x then fc_Exclude cfg else fc_Include cfg.

(** Every query finds exactly the rules that select its endpoints. *)
Lemma ask_spec cfg now lnow x : config_ok cfg ->
  ask (Some cfg) now lnow x =
  match question_query now lnow x with
  | None => false
  | Some q => policy_matches (fc_DNSCache cfg) (asked_rules cfg x) q
  end.
Proof.
  intros Hok. pose proof (compiled_exclude_spec cfg Hok) as Hx. pose proof (compiled_include_spec cfg Hok) as Hi.
  destruct x as [network address|network addr port|protocol addr port|network address l|network addr port l|protocol addr port l];
    cbn [ask question_query asked_rules outgoing];
    unfold BlocksOutgoing, BlocksOutgoingAddrPort, BlocksOutgoingIP, AllowsIncoming, AllowsIncomingAddrPort, AllowsIncomingIP;
    rewrite ?Hx, ?Hi.
  - destruct (splitFirewallEndpoint network address) as [host port]. unfold matchFirewallRules.
    rewrite matchFirewallRules_go_spec. apply match_peer_go_spec; [apply name_cond_for|apply parsed_host_ok].
  - apply match_peer_go_spec; [apply name_cond_for|apply fresh_host_ok].
  - unfold matchFirewallIPRules. destruct (IsValid (normalizeFirewallAddr addr)); [|done].
    apply match_peer_go_spec; [apply ip_cond_for|apply fresh_host_ok].
  - destruct (splitFirewallEndpoint network address) as [host port].
    destruct l as [l|]; [destruct (splitFirewallEndpoint network l) as [lhost lport]|];
      unfold matchIncomingFirewallRules; rewrite matchIncomingFirewallRules_go_spec.
    + apply (match_both_go_spec _ _ _ _ true); [apply name_cond_for|apply parsed_host_ok..].
    + apply (match_both_go_spec _ _ _ _ false); [apply name_cond_for|apply parsed_host_ok..].
  - destruct l as [[l lport]|]; unfold matchIncomingFirewallAddrRules.
    + apply (match_both_go_spec _ _ _ _ true); [apply name_cond_for|apply fresh_host_ok..].
    + apply (match_both_go_spec _ _ _ _ false); [apply name_cond_for|apply fresh_host_ok..].
  - unfold matchIncomingFirewallIPRules. destruct (IsValid (normalizeFirewallAddr addr)); [|done]. cbn [negb].
    destruct l as [[l lport]|].
    + destruct (IsValid (normalizeFirewallAddr l)); [|done].
      apply (match_both_go_spec _ _ _ _ true); [apply ip_cond_for|apply fresh_host_ok..].
    + apply (match_both_go_spec _ _ _ _ false); [apply ip_cond_for|apply fresh_host_ok..].
Qed.

(** Cloning keeps the policy, and a nil configuration has no rules. *)
Lemma clone_ok cfg : config_ok (cloneFirewallConfig cfg).
Proof. split; by intros rules [= <-]. Qed.
End Queries.
