(* ===== verification/FirewallOptimize.v ===== *)
(** * The optimizer of firewall policies

    Models src/firewall_config_optimize.go: the canonical form of rules, hosts
    and ports, the removal of subsumed hosts and rules, the merging of rules,
    and the union of configurations.

    The order of a sorted list of rules is unspecified among rules with equal
    keys; the model's sort is stable.  The loop that merges rules shortens the
    list every time, so that its length is enough fuel.

    The definitions; their correctness is in FirewallPolicy.v. *)

From Stdlib Require Import Ascii.
From stdpp Require Import sorting.
From S2P Require Import Prelude GoStd HostPort NetIP NetText PathMatch DNSCache Bytecode Machine AddrCache FirewallConfig.

(** ** Hosts *)

(** The canonical text of an entry that is not empty and not a wildcard, absent
    for a malformed pattern. *)
Definition canonical_host (host : string) : option string :=
  let '(withoutZone, _, ok) := Cut (Trim host "[]") percent in
  let host := if (ok : bool) then withoutZone else host in
  match ParseAddr (Trim host "[]") with
  | Some addr => Some (Addr_String (Unmap addr))
  | None =>
      match ParsePrefix host with
      | Some prefix => Some (Prefix_String (canonicalFirewallPrefix prefix))
      | None => match Match host "" with
                | None => None
                | Some _ => Some host
                end
      end
  end.

(** The loop over the entries: absent when there is a wildcard. *)
Fixpoint canonical_entries (hosts : list string) : option (list string) :=
  match hosts with
  | [] => Some []
  | raw :: hosts' =>
      let host := trimDot (ToLower raw) in
      if String.eqb host "*" then None
      else match canonical_entries hosts' with
           | None => None
           | Some l =>
               if String.eqb host "" then Some l
               else match canonical_host host with Some h => Some (h :: l) | None => Some l end
           end
  end.

Definition firewallHostSubsumes (a b : string) : bool :=
  if String.eqb a b then true
  else
    match ParsePrefix a with
    | Some aPrefix =>
        match ParseAddr b with
        | Some bAddr => Prefix_Contains aPrefix bAddr
        | None =>
            match ParsePrefix b with
            | Some bPrefix => (pfx_bits aPrefix <=? pfx_bits bPrefix) && Prefix_Contains aPrefix (pfx_addr bPrefix)
            | None => false
            end
        end
    | None =>
        match ParseAddr a with
        | Some aAddr => match ParseAddr b with Some bAddr => bool_decide (aAddr = bAddr) | None => false end
        | None =>
            match ParseAddr b, ParsePrefix b with
            | None, None =>
                if negb (lacks star b && lacks qmark b && lacks lbracket b) then false
                else match Match a b with Some matched => matched | None => false end
            | _, _ => false
            end
        end
    end.

(** [before] are the hosts already looked at. *)
Fixpoint remove_subsumed_hosts (before hosts : list string) : list string :=
  match hosts with
  | [] => []
  | host :: hosts' =>
      let rest := remove_subsumed_hosts (before ++ [host]) hosts' in
      if existsb (fun candidate => firewallHostSubsumes candidate host) (before ++ hosts') then rest else host :: rest
  end.

Definition removeSubsumedFirewallHosts (hosts : list string) : list string := remove_subsumed_hosts [] hosts.

Definition string_le (a b : string) : Prop := String.leb a b = true.

#[global] Instance string_le_dec a b : Decision (string_le a b).
Proof. unfold string_le. apply _. Defined.

(** The canonical hosts, and whether every host is selected. *)
Definition canonicalFirewallHosts (hosts : list string) : list string * bool :=
  if zlen hosts =? 0 then ([], true)
  else match canonical_entries hosts with
       | None => ([], true)
       | Some unique => (removeSubsumedFirewallHosts (merge_sort string_le (remove_dups unique)), false)
       end.

Definition firewallHostsSubsumes (a b : list string) : bool :=
  if zlen a =? 0 then true
  else if zlen b =? 0 then false
  else forallb (fun host => existsb (fun candidate => firewallHostSubsumes candidate host) a) b.

Definition mergeFirewallHostSelectors (a b : list string) : list string :=
  if (zlen a =? 0) || (zlen b =? 0) then [] else (canonicalFirewallHosts (a ++ b)).1.

(** ** Ports *)

Definition range_le (a b : FirewallPortRange) : Prop :=
  pr_First a < pr_First b \/ pr_First a = pr_First b /\ pr_Last a <= pr_Last b.

#[global] Instance range_le_dec a b : Decision (range_le a b).
Proof. unfold range_le. apply _. Defined.

Definition ordered_range (r : FirewallPortRange) : FirewallPortRange :=
  if pr_Last r <? pr_First r then MkRange (pr_Last r) (pr_First r) else r.

(** The loop over the sorted intervals; [last] is the interval that still grows. *)
Fixpoint merge_intervals (last : FirewallPortRange) (intervals : list FirewallPortRange) : list FirewallPortRange :=
  match intervals with
  | [] => [last]
  | interval :: intervals' =>
      let adjacent := negb (pr_Last last =? 65535) && (pr_First interval =? pr_Last last + 1) in
      if (pr_First interval <=? pr_Last last) || adjacent
      then merge_intervals (MkRange (pr_First last)
             (if pr_Last last <? pr_Last interval then pr_Last interval else pr_Last last)) intervals'
      else last :: merge_intervals interval intervals'
  end.

Definition single_port (r : FirewallPortRange) : bool := pr_First r =? pr_Last r.

Definition canonicalFirewallPorts (ports : list Z) (ranges : list FirewallPortRange)
  : list Z * list FirewallPortRange :=
  if (zlen ports =? 0) && (zlen ranges =? 0) then ([], [])
  else
    let intervals := merge_sort range_le (map (fun port => MkRange port port) ports ++ map ordered_range ranges) in
    let merged := match intervals with [] => [] | interval :: rest => merge_intervals interval rest end in
    (map pr_First (List.filter single_port merged), List.filter (fun r => negb (single_port r)) merged).

(** Absent for a rule that selects every port. *)
Definition firewallRulePortIntervals (rule : FirewallRule) : option (list FirewallPortRange) :=
  if (zlen (fr_Ports rule) =? 0) && (zlen (fr_PortRanges rule) =? 0) then None
  else Some (map (fun port => MkRange port port) (fr_Ports rule) ++ fr_PortRanges rule).

Definition firewallPortsSubsume (a b : FirewallRule) : bool :=
  match firewallRulePortIntervals a, firewallRulePortIntervals b with
  | None, _ => true
  | Some _, None => false
  | Some aIntervals, Some bIntervals =>
      forallb (fun bInterval =>
        existsb (fun aInterval => (pr_First aInterval <=? pr_First bInterval) && (pr_Last bInterval <=? pr_Last aInterval))
          aIntervals) bIntervals
  end.

(** ** Networks *)

Definition firewallRuleNetworkIsIP (network : string) : bool :=
  let eq := String.eqb network in
  eq "ip" || eq "ip4" || eq "ip6" || eq "tcp" || eq "tcp4" || eq "tcp6" || eq "udp" || eq "udp4" || eq "udp6" ||
  eq "icmp" || eq "icmp4" || eq "icmp6" || HasPrefix network "ip:" || HasPrefix network "ip4:" || HasPrefix network "ip6:".

Definition firewallNetworkSubsumes (a b : string) : bool :=
  let eq := String.eqb b in
  if String.eqb a b || String.eqb a "" then true
  else if String.eqb b "" then false
  else if String.eqb a "ip" then firewallRuleNetworkIsIP b
  else if String.eqb a "ip4" then eq "tcp4" || eq "udp4" || eq "icmp4" || HasPrefix b "ip4:"
  else if String.eqb a "ip6" then eq "tcp6" || eq "udp6" || eq "icmp6" || HasPrefix b "ip6:"
  else if String.eqb a "tcp" then eq "tcp4" || eq "tcp6"
  else if String.eqb a "udp" then eq "udp4" || eq "udp6"
  else if String.eqb a "icmp" then eq "icmp4" || eq "icmp6"
  else if HasPrefix a "ip:" then
    let protocol := TrimPrefix a "ip:" in
    eq (String.append "ip4:" protocol) || eq (String.append "ip6:" protocol)
  else false.

(** ** Rules *)

(** Absent for a rule that selects nothing. *)
Definition canonicalFirewallRule (rule : FirewallRule) (matchLocalHosts : bool) : option FirewallRule :=
  let network := ToLower (TrimSpace (fr_Network rule)) in
  let network := if String.eqb network "*" then "" else network in
  let '(hosts, anyHost) := canonicalFirewallHosts (fr_Hosts rule) in
  if negb (zlen (fr_Hosts rule) =? 0) && negb anyHost && (zlen hosts =? 0) then None
  else
    let hosts := if (anyHost : bool) then [] else hosts in
    let '(ports, ranges) := canonicalFirewallPorts (fr_Ports rule) (fr_PortRanges rule) in
    if matchLocalHosts then
      let '(localHosts, anyLocalHost) := canonicalFirewallHosts (fr_LocalHosts rule) in
      if negb (zlen (fr_LocalHosts rule) =? 0) && negb anyLocalHost && (zlen localHosts =? 0) then None
      else Some (MkRule network hosts (if (anyLocalHost : bool) then [] else localHosts) ports ranges)
    else Some (MkRule network hosts [] ports ranges).

Definition firewallRuleSubsumes (a b : FirewallRule) : bool :=
  firewallNetworkSubsumes (fr_Network a) (fr_Network b) &&
  firewallHostsSubsumes (fr_Hosts a) (fr_Hosts b) &&
  firewallHostsSubsumes (fr_LocalHosts a) (fr_LocalHosts b) &&
  firewallPortsSubsume a b.

(** One round of the outer loop: the rules that rule [i] subsumes are dropped. *)
Definition drop_subsumed (rules : list FirewallRule) (keep : list bool) (i : nat) : list bool :=
  match rules !! i, keep !! i with
  | Some ri, Some true =>
      imap (fun j kept => match rules !! j with
                          | Some rj => kept && negb (negb (i =? j)%nat && firewallRuleSubsumes ri rj)
                          | None => kept
                          end) keep
  | _, _ => keep
  end.

Definition kept_rules (rules : list FirewallRule) (keep : list bool) : list FirewallRule :=
  map fst (List.filter snd (zip rules keep)).

Definition removeSubsumedFirewallRules (rules : list FirewallRule) : list FirewallRule :=
  kept_rules rules (fold_left (drop_subsumed rules) (seq 0 (length rules)) (replicate (length rules) true)).

Definition mergeFirewallRules (a b : FirewallRule) : option FirewallRule :=
  if negb (String.eqb (fr_Network a) (fr_Network b)) then None
  else
    let hostsEqual := bool_decide (fr_Hosts a = fr_Hosts b) in
    let localHostsEqual := bool_decide (fr_LocalHosts a = fr_LocalHosts b) in
    let portsEqual := bool_decide (fr_Ports a = fr_Ports b) && bool_decide (fr_PortRanges a = fr_PortRanges b) in
    if hostsEqual && localHostsEqual then
      let '(ports, ranges) :=
        if (zlen (fr_Ports a) =? 0) && (zlen (fr_PortRanges a) =? 0) ||
           (zlen (fr_Ports b) =? 0) && (zlen (fr_PortRanges b) =? 0)
        then ([], [])
        else canonicalFirewallPorts (fr_Ports a ++ fr_Ports b) (fr_PortRanges a ++ fr_PortRanges b) in
      Some (MkRule (fr_Network a) (fr_Hosts a) (fr_LocalHosts a) ports ranges)
    else if localHostsEqual && portsEqual then
      Some (MkRule (fr_Network a) (mergeFirewallHostSelectors (fr_Hosts a) (fr_Hosts b)) (fr_LocalHosts a)
              (fr_Ports a) (fr_PortRanges a))
    else if hostsEqual && portsEqual then
      Some (MkRule (fr_Network a) (fr_Hosts a) (mergeFirewallHostSelectors (fr_LocalHosts a) (fr_LocalHosts b))
              (fr_Ports a) (fr_PortRanges a))
    else None.

(** The first [j] that merges with the rule at [i], and the rules without it. *)
Fixpoint merge_with (a : FirewallRule) (rules : list FirewallRule) : option (FirewallRule * list FirewallRule) :=
  match rules with
  | [] => None
  | b :: rules' =>
      match mergeFirewallRules a b with
      | Some combined => Some (combined, rules')
      | None => match merge_with a rules' with Some (c, l) => Some (c, b :: l) | None => None end
      end
  end.

Fixpoint merge_first (rules : list FirewallRule) : option (list FirewallRule) :=
  match rules with
  | [] => None
  | a :: rules' =>
      match merge_with a rules' with
      | Some (combined, rest) => Some (combined :: rest)
      | None => match merge_first rules' with Some l => Some (a :: l) | None => None end
      end
  end.

Fixpoint merge_loop (fuel : nat) (rules : list FirewallRule) : run (list FirewallRule) :=
  match fuel with
  | O => OutOfFuel
  | S fuel =>
      match merge_first rules with
      | None => Done rules
      | Some merged => merge_loop fuel (removeSubsumedFirewallRules merged)
      end
  end.

Definition nul : string := String (chr 0) "".
Definition soh : string := String (chr 1) "".

Definition firewallRuleSortKey (rule : FirewallRule) : string :=
  let all (l : list string) := fold_right (fun h acc => String.append h (String.append nul acc)) "" l in
  let intervals := match firewallRulePortIntervals rule with Some l => l | None => [] end in
  String.append (fr_Network rule) (String.append nul (
  String.append (all (fr_Hosts rule)) (String.append soh (
  String.append (all (fr_LocalHosts rule)) (String.append soh (
  all (map (fun r => String.append (itoa (pr_First r)) (String.append "-" (itoa (pr_Last r)))) intervals))))))).

Definition rule_le (a b : FirewallRule) : Prop := string_le (firewallRuleSortKey a) (firewallRuleSortKey b).

#[global] Instance rule_le_dec a b : Decision (rule_le a b).
Proof. unfold rule_le. apply _. Defined.

Definition canonical_rules (rules : list FirewallRule) (matchLocalHosts : bool) : list FirewallRule :=
  flat_map (fun rule => match canonicalFirewallRule rule matchLocalHosts with Some r => [r] | None => [] end) rules.

Definition optimizeFirewallRules (rules : list FirewallRule) (matchLocalHosts : bool) : run (list FirewallRule) :=
  let optimized := removeSubsumedFirewallRules (canonical_rules rules matchLocalHosts) in
  let! optimized := merge_loop (S (length optimized)) optimized in
  Done (merge_sort rule_le optimized).

(** ** Configurations *)

Definition Optimize (cfg : option FirewallConfig) : run FirewallConfig :=
  let! '(exclude, incl, ttl, dns) :=
    match cfg with
    | None => Done ([], [], 0, None)
    | Some cfg =>
        let! exclude := optimizeFirewallRules (fc_Exclude cfg) false in
        let! incl := optimizeFirewallRules (fc_Include cfg) true in
        Done (exclude, incl, fc_ResponseTTL cfg, fc_DNSCache cfg)
    end in
  Done (MkConfig exclude incl ttl dns (Some (compileFirewallRules exclude)) (Some (compileFirewallRules incl))).

Record merge_state : Type := MkMerge { ms_merged : FirewallConfig; ms_selectedTTL : Z; ms_longestTTL : Z }.

Definition merge_config (s : merge_state) (cfg : option FirewallConfig) : merge_state :=
  match cfg with
  | None => s
  | Some c =>
      let m := ms_merged s in
      let m := MkConfig (fc_Exclude m ++ fc_Exclude c) (fc_Include m ++ fc_Include c) (fc_ResponseTTL m)
                 (match fc_DNSCache m with None => fc_DNSCache c | d => d end) None None in
      let effective := responseTTL (Some c) in
      if ms_longestTTL s <? effective then MkMerge m (fc_ResponseTTL c) effective
      else MkMerge m (ms_selectedTTL s) (ms_longestTTL s)
  end.

Definition MergeFirewallConfigs (configs : list (option FirewallConfig)) : run FirewallConfig :=
  let s := fold_left merge_config configs (MkMerge (MkConfig [] [] 0 None None None) 0 0) in
  let m := ms_merged s in
  Optimize (Some (MkConfig (fc_Exclude m) (fc_Include m) (ms_selectedTTL s) (fc_DNSCache m) None None)).

Definition Merge (cfg : option FirewallConfig) (others : list (option FirewallConfig)) : run FirewallConfig :=
  MergeFirewallConfigs (cfg :: others).
