(* ===== verification/FirewallPolicy.v ===== *)
(** * Optimizing a firewall policy does not change it

    The optimizer of FirewallOptimize.v against the reference of
    FirewallConfig.v.  Hosts: canonical entries have the kind of the entry they
    come from, an entry that subsumes another selects what the other selects,
    and the removal of subsumed entries ends with a list that selects the same.
    Ports: sorting and joining intervals keeps the selected ports.  Rules:
    removal and merging keep the union.

    The optimizer normalizes the text of an entry twice where the matcher does
    it once, and does not know escapes; [plain_host] says which entries are not
    affected, and the last theorem shows that others are. *)

From Stdlib Require Import Ascii.
From stdpp Require Import sorting.
From S2P Require Import Prelude GoStd HostPort NetIP NetText PathMatch DNSCache Bytecode Machine AddrCache FirewallConfig.
From S2P Require Import FirewallOptimize.

(** ** Entries that are read as they are written *)

Definition plain_host (raw : string) : bool :=
  let host := trimDot (ToLower raw) in
  String.eqb (trimDot (ToLower host)) host && lacks backslash host &&
  (lacks percent host || match ParseAddr (selector_ip_text host) with Some _ => true | None => false end).

Definition plain_rule (r : FirewallRule) : bool :=
  forallb plain_host (fr_Hosts r) && forallb plain_host (fr_LocalHosts r).

(** ** Texts of addresses in a host list *)

Lemma trim_left_id p s : all_chars (fun c => negb (p c)) s = true -> trim_left_by p s = s.
Proof. destruct s as [|c s]; [done|]. cbn [all_chars trim_left_by]. by destruct (p c). Qed.

Lemma all_chars_rev p s : all_chars p (string_rev s) = all_chars p s.
Proof.
  induction s as [|c s IH]; [done|]. rewrite string_rev_cons, all_chars_app, IH. cbn [all_chars].
  by rewrite andb_true_r, andb_comm.
Qed.

Lemma trim_right_id p s : all_chars (fun c => negb (p c)) s = true -> trim_right_by p s = s.
Proof. intros Hs. unfold trim_right_by. rewrite trim_left_id by by rewrite all_chars_rev. apply string_rev_involutive. Qed.

Lemma all_chars_impl (p q : ascii -> bool) s : (forall c, p c = true -> q c = true) ->
  all_chars p s = true -> all_chars q s = true.
Proof.
  intros Hpq. induction s as [|c s IH]; [done|]. cbn [all_chars]. rewrite !andb_true_iff. intros [Hc Hs].
  split; [by apply Hpq|by apply IH].
Qed.

Lemma address_char_not_space c : address_char c = true -> negb (is_space c) = true.
Proof. destruct c as [[] [] [] [] [] [] [] []]; vm_compute; congruence. Qed.

Lemma trimDot_address s : all_chars address_char s = true -> literal_text s -> trimDot s = s.
Proof.
  intros Hs (_ & t & c & -> & Hc). assert (Hsp : TrimSpace (String.append t (String c "")) = String.append t (String c "")).
  { unfold TrimSpace. rewrite trim_left_id by by eapply all_chars_impl; [|exact Hs]; apply address_char_not_space.
    apply trim_right_id. eapply all_chars_impl; [|exact Hs]. apply address_char_not_space. }
  unfold trimDot. rewrite Hsp, HasSuffix_snoc. by rewrite Hc.
Qed.

Lemma address_lacks s c : all_chars address_char s = true -> address_char c = false -> lacks c s = true.
Proof. apply all_chars_lacks. Qed.

Lemma address_Trim s : all_chars address_char s = true -> Trim s "[]" = s.
Proof.
  intros Hs. apply Trim_host. unfold host_text.
  by rewrite (address_lacks s lbracket Hs eq_refl), (address_lacks s rbracket Hs eq_refl).
Qed.

Lemma selector_ip_text_plain s : lacks percent (Trim s "[]") = true -> selector_ip_text s = Trim s "[]".
Proof. intros Hs. unfold selector_ip_text. by rewrite Cut_lacks. Qed.

Lemma address_ip_text s : all_chars address_char s = true -> selector_ip_text s = s.
Proof.
  intros Hs. rewrite selector_ip_text_plain; rewrite address_Trim by done; [done|]. by apply (address_lacks s percent).
Qed.

Lemma Trim_lacks_char c s cutset : lacks c s = true -> lacks c (Trim s cutset) = true.
Proof.
  assert (Htrim : forall p t, lacks c t = true -> lacks c (trim_left_by p t) = true).
  { intros p t. induction t as [|d t IH]; [done|]. cbn [lacks trim_left_by]. intros Ht.
    destruct (p d); [|done]. apply IH. by apply andb_true_iff in Ht as [_ Ht]. }
  intros Hs. unfold Trim, TrimRight, trim_right_by, TrimLeft. rewrite lacks_rev. apply Htrim. rewrite lacks_rev. by apply Htrim.
Qed.

(** ** Canonical entries *)

(** An address as the endpoints have it: not IPv4-mapped, without a zone. *)
Definition norm_addr (a : Addr) : Prop := addr_wf a /\ hasZone a = false /\ Unmap a = a.

Definition norm_prefix (p : Prefix) : Prop := prefix_wf p /\ canonicalFirewallPrefix p = p.

(** The entries that the optimizer writes. *)
Inductive canon : string -> hostKind -> Prop :=
| canon_addr a : norm_addr a -> canon (Addr_String a) (KAddr a)
| canon_prefix p : norm_prefix p -> canon (Prefix_String p) (KPrefix p)
| canon_name s : trimDot (ToLower s) = s -> s <> "" -> s <> "*" -> lacks percent s = true -> lacks backslash s = true ->
    ParseAddr (Trim s "[]") = None -> ParsePrefix s = None -> Match s "" <> None -> canon s (KName s).

Lemma WithoutZone_id a : hasZone a = false -> WithoutZone a = a.
Proof.
  destruct a as [|v|v z]; [done..|]. cbn [hasZone WithoutZone]. rewrite negb_false_iff. by intros ->%String.eqb_eq.
Qed.

Lemma canon_not_wild s k : canon s k -> s <> "*" /\ s <> "".
Proof.
  intros [a (Ha & Hz & _)|p [Hp _]|]; [| |done].
  - pose proof (ParseAddr_String a Ha). split; intros E; rewrite E in *; done.
  - pose proof (ParsePrefix_String p Hp). split; intros E; rewrite E in *; done.
Qed.

Lemma canon_settled s k : canon s k -> trimDot (ToLower s) = s.
Proof.
  intros [a (Ha & Hz & _)|p [Hp _]|]; [..|done].
  - rewrite (all_chars_ToLower address_char) by (apply address_char_lower || by apply Addr_String_chars).
    apply trimDot_address; [by apply Addr_String_chars|by apply Addr_String_literal].
  - rewrite (all_chars_ToLower address_char) by (apply address_char_lower || by apply Prefix_String_chars).
    apply trimDot_address; [by apply Prefix_String_chars|by apply Prefix_String_literal].
Qed.

Lemma Prefix_String_not_addr p : prefix_wf p -> ParseAddr (Prefix_String p) = None.
Proof.
  intros Hp. assert (Hc := Prefix_String_chars p Hp). destruct Hp as (_ & _ & Hb). revert Hc.
  unfold Prefix_String, Prefix_IsValid. replace (0 <=? pfx_bits p) with true by lia.
  intros Hc. apply ParseAddr_slash. by apply (address_lacks _ percent Hc).
Qed.

Lemma canon_kind s k : canon s k -> kind_of s = k.
Proof.
  intros Hs. destruct (canon_not_wild s k Hs) as [Hw He]. unfold kind_of. rewrite (proj2 (String.eqb_neq s "*") Hw).
  destruct Hs as [a (Ha & Hz & Hu)|p [Hp Hc]|s Hset _ _ Hpct Hbs Ha Hpf Hm].
  - rewrite address_ip_text by by apply Addr_String_chars. rewrite ParseAddr_String by done.
    unfold normalizeFirewallAddr. by rewrite Hu, WithoutZone_id.
  - rewrite address_ip_text by by apply Prefix_String_chars.
    by rewrite Prefix_String_not_addr, ParsePrefix_String, Hc.
  - rewrite selector_ip_text_plain, Ha, Hpf.
    + by rewrite (proj2 (String.eqb_neq s "") He).
    + by apply Trim_lacks_char.
Qed.

Lemma canon_host_kind s k : canon s k -> host_kind s = k.
Proof. intros Hs. unfold host_kind. rewrite (canon_settled s k Hs). by apply canon_kind. Qed.

(** ** Prefixes *)

(** The bits of [v] above position [n]. *)
Definition masked (v n : Z) : Z := Z.shiftl (Z.shiftr v n) n.

Lemma masked_range v n : 0 <= v -> 0 <= n -> 0 <= masked v n <= v.
Proof.
  intros Hv Hn. unfold masked. rewrite Z.shiftl_mul_pow2, Z.shiftr_div_pow2 by lia.
  pose proof (Z.pow_pos_nonneg 2 n ltac:(lia) Hn). pose proof (Z.div_pos v (2 ^ n) Hv ltac:(lia)).
  pose proof (Z.mul_div_le v (2 ^ n) ltac:(lia)). nia.
Qed.

Lemma masked_shiftr v n m : 0 <= n <= m -> Z.shiftr (masked v n) m = Z.shiftr v m.
Proof.
  intros Hn. unfold masked. replace m with (n + (m - n)) by lia. rewrite <- !Z.shiftr_shiftr by lia.
  by rewrite Z.shiftr_shiftl_l, Z.sub_diag, Z.shiftl_0_r by lia.
Qed.

Lemma masked_masked v n : 0 <= n -> masked (masked v n) n = masked v n.
Proof. intros Hn. unfold masked at 1. by rewrite masked_shiftr by lia. Qed.

(** A prefix with its host bits cleared. *)
Lemma Prefix_Masked_4 v b : 0 <= v < 2 ^ 32 -> 0 <= b <= 32 ->
  Prefix_Masked (MkPrefix (Addr4 v) b) = MkPrefix (Addr4 (masked v (32 - b))) b.
Proof. intros Hv Hb. unfold Prefix_Masked. cbn [pfx_bits pfx_addr BitLen]. by replace ((0 <=? b) && (b <=? 32)) with true by lia. Qed.

Lemma Prefix_Masked_6 v b : 0 <= v < 2 ^ 128 -> 0 <= b <= 128 ->
  Prefix_Masked (MkPrefix (Addr6 v "") b) = MkPrefix (Addr6 (masked v (128 - b)) "") b.
Proof. intros Hv Hb. unfold Prefix_Masked. cbn [pfx_bits pfx_addr BitLen]. by replace ((0 <=? b) && (b <=? 128)) with true by lia. Qed.

Lemma canonical_4 v b : 0 <= b <= 32 ->
  canonicalFirewallPrefix (MkPrefix (Addr4 v) b) = Prefix_Masked (MkPrefix (Addr4 v) b).
Proof. intros Hb. unfold canonicalFirewallPrefix, PrefixFrom. cbn. by replace ((0 <=? b) && (b <=? 32)) with true by lia. Qed.

Lemma norm_prefix_4 v b : 0 <= v < 2 ^ 32 -> 0 <= b <= 32 -> norm_prefix (MkPrefix (Addr4 (masked v (32 - b))) b).
Proof.
  intros Hv Hb. pose proof (masked_range v (32 - b) ltac:(lia) ltac:(lia)). split.
  - split_and!; cbn; (done || lia).
  - by rewrite canonical_4, Prefix_Masked_4, masked_masked by lia.
Qed.

Lemma canonical_6 v b : 0 <= b <= 128 -> (Z.shiftr v 32 =? 65535) && (96 <=? b) = false ->
  canonicalFirewallPrefix (MkPrefix (Addr6 v "") b) = Prefix_Masked (MkPrefix (Addr6 v "") b).
Proof.
  intros Hb Hm. unfold canonicalFirewallPrefix, PrefixFrom. cbn [pfx_addr pfx_bits Is4In6]. rewrite Hm.
  cbn [WithoutZone BitLen]. by replace ((0 <=? b) && (b <=? 128)) with true by lia.
Qed.

Lemma canonicalFirewallPrefix_norm p : prefix_wf p -> norm_prefix (canonicalFirewallPrefix p).
Proof.
  destruct p as [[|v|v z] b]; intros (Ha & Hz & Hb); cbn [pfx_addr pfx_bits addr_wf hasZone BitLen] in *; [done|..].
  - rewrite canonical_4, Prefix_Masked_4 by done. by apply norm_prefix_4.
  - apply negb_false_iff, String.eqb_eq in Hz as ->.
    destruct ((Z.shiftr v 32 =? 65535) && (96 <=? b)) eqn:Em.
    + apply andb_true_iff in Em as [E1 E2]. apply Z.eqb_eq in E1. apply Z.leb_le in E2.
      destruct (mapped_value v Ha E1) as [Hw _].
      assert (E : canonicalFirewallPrefix (MkPrefix (Addr6 v "") b) =
        Prefix_Masked (MkPrefix (Addr4 (Z.land v (2 ^ 32 - 1))) (b - 96))).
      { unfold canonicalFirewallPrefix, PrefixFrom. cbn [pfx_addr pfx_bits Is4In6]. rewrite E1, (proj2 (Z.leb_le 96 b) E2).
        cbn [Z.eqb Pos.eqb andb Unmap]. rewrite E1. cbn [Z.eqb Pos.eqb WithoutZone BitLen].
        by replace ((0 <=? b - 96) && (b - 96 <=? 32)) with true by lia. }
      rewrite E, Prefix_Masked_4 by lia. apply norm_prefix_4; lia.
    + rewrite canonical_6, Prefix_Masked_6 by done. pose proof (masked_range v (128 - b) ltac:(lia) ltac:(lia)).
      split; [split_and!; cbn; (done || lia)|]. rewrite canonical_6; [by rewrite Prefix_Masked_6, masked_masked by lia|done|].
      destruct (Z.leb_spec 96 b); [|by rewrite andb_false_r]. rewrite masked_shiftr by lia. exact Em.
Qed.

(** Canonical prefixes contain an address when the high bits agree. *)
Lemma Contains_spec p a : prefix_wf p -> hasZone a = false -> IsValid a = true ->
  Prefix_Contains p a =
  (BitLen (pfx_addr p) =? BitLen a) &&
  (Z.shiftr (addr_value a) (BitLen a - pfx_bits p) =? Z.shiftr (addr_value (pfx_addr p)) (BitLen a - pfx_bits p)).
Proof.
  intros (Ha & Hz & Hb) Hz' Hv. unfold Prefix_Contains, Prefix_IsValid.
  replace (0 <=? pfx_bits p) with true by lia. rewrite Hz'. cbn [negb orb].
  assert (H1 : (BitLen (pfx_addr p) =? 0) = false) by (destruct (pfx_addr p); done).
  assert (H2 : (BitLen a =? 0) = false) by (destruct a; done). rewrite H1, H2. cbn [orb].
  destruct (Z.eqb_spec (BitLen (pfx_addr p)) (BitLen a)) as [E|]; [|done]. cbn [negb andb]. rewrite E.
  rewrite Z.shiftr_lxor. apply eq_bool_prop_intro. rewrite !Is_true_true, !Z.eqb_eq. apply Z.lxor_eq_0_iff.
Qed.

(** Canonical prefixes of one length that agree in the high bits are equal. *)
Lemma norm_prefix_value p : norm_prefix p ->
  masked (addr_value (pfx_addr p)) (BitLen (pfx_addr p) - pfx_bits p) = addr_value (pfx_addr p).
Proof.
  destruct p as [[|v|v z] b]; intros [(Ha & Hz & Hb) Hc]; cbn [pfx_addr pfx_bits addr_wf hasZone BitLen addr_value] in *; [done|..].
  - rewrite canonical_4, Prefix_Masked_4 in Hc by done. by injection Hc.
  - apply negb_false_iff, String.eqb_eq in Hz as ->.
    destruct ((Z.shiftr v 32 =? 65535) && (96 <=? b)) eqn:Em; [|rewrite canonical_6, Prefix_Masked_6 in Hc by done; by injection Hc].
    exfalso. unfold canonicalFirewallPrefix, PrefixFrom in Hc. cbn [pfx_addr pfx_bits Is4In6] in Hc. rewrite Em in Hc.
    apply andb_true_iff in Em as [E1 E2]. cbn [Unmap] in Hc. rewrite E1 in Hc. cbn [WithoutZone BitLen] in Hc.
    unfold Prefix_Masked in Hc. cbn [pfx_bits pfx_addr BitLen] in Hc. by destruct (_ && _) in Hc.
Qed.

(** ** Canonical forms of entries *)

Lemma Unmap_norm a : addr_wf a -> hasZone a = false -> norm_addr (Unmap a) /\ normalizeFirewallAddr a = Unmap a.
Proof.
  destruct a as [|v|v z]; intros Ha Hz; [done|done|]. unfold normalizeFirewallAddr, norm_addr, Unmap.
  destruct (Z.shiftr v 32 =? 65535) eqn:E.
  - apply Z.eqb_eq in E. destruct (mapped_value v Ha E) as [Hw _]. done.
  - rewrite E. split; [done|]. by apply WithoutZone_id.
Qed.

Lemma parsed_Trim s a : lacks percent s = true -> ParseAddr s = Some a -> Trim s "[]" = s.
Proof.
  intros Hp E. apply ParseAddr_chars in E; [|done]. apply Trim_host. unfold host_text.
  by rewrite (all_chars_lacks _ _ lbracket E eq_refl), (all_chars_lacks _ _ rbracket E eq_refl).
Qed.

(** The canonical form has the kind of the entry; a malformed pattern has none. *)
Lemma canonical_host_spec raw (host := trimDot (ToLower raw)) : plain_host raw = true -> host <> "*" -> host <> "" ->
  match canonical_host host with
  | Some h => canon h (kind_of host)
  | None => kind_of host = KName host /\ Match host "" = None
  end.
Proof.
  intros Hp Hw He. unfold plain_host in Hp. fold host in Hp. apply andb_true_iff in Hp as [Hp Hzone].
  apply andb_true_iff in Hp as [Hset Hbs]. apply String.eqb_eq in Hset.
  unfold kind_of. rewrite (proj2 (String.eqb_neq host "*") Hw), (proj2 (String.eqb_neq host "") He).
  assert (Haddr : forall t a, lacks percent t = true -> ParseAddr t = Some a -> canon (Addr_String (Unmap a)) (KAddr (normalizeFirewallAddr a))).
  { intros t a Ht E. apply ParseAddr_wf in E as [Ha Hz]. destruct (Unmap_norm a Ha (Hz Ht)) as [Hn ->]. by constructor. }
  destruct (lacks percent host) eqn:Epct.
  - assert (Hcut : lacks percent (Trim host "[]") = true) by by apply Trim_lacks_char.
    unfold canonical_host. rewrite Cut_lacks, selector_ip_text_plain by done.
    destruct (ParseAddr (Trim host "[]")) as [a|] eqn:Ea; [by eapply Haddr|].
    destruct (ParsePrefix host) as [p|] eqn:Ep; [constructor; by apply canonicalFirewallPrefix_norm, (ParsePrefix_wf host)|].
    destruct (Match host "") eqn:Em; [|done]. constructor; try done. by rewrite Em.
  - cbn [orb] in Hzone. unfold canonical_host, selector_ip_text in *. pose proof (Cut_spec (Trim host "[]") percent) as Hc.
    destruct (Cut (Trim host "[]") percent) as [[before after] found]. destruct Hc as [Hl Hc].
    assert (found = true) as ->.
    { destruct found; [done|]. destruct Hc as [Hc _]. exfalso. rewrite <- Hc in Hl.
      assert (Hb : forall p t, p percent = false -> lacks percent (trim_left_by p t) = true -> lacks percent t = true).
      { intros p t Hpp. induction t as [|d t IH]; [done|]. cbn [lacks trim_left_by]. destruct (p d) eqn:Epd; [|done].
        intros Ht. rewrite (IH Ht), andb_true_r. destruct (Ascii.eqb_spec d percent) as [->|]; [congruence|done]. }
      unfold Trim, TrimRight, trim_right_by, TrimLeft in Hl. rewrite lacks_rev in Hl. apply Hb in Hl; [|done].
      rewrite lacks_rev in Hl. apply Hb in Hl; [|done]. congruence. }
    destruct (ParseAddr before) as [a|] eqn:Ea; [|done]. rewrite (parsed_Trim before a Hl Ea), Ea. by eapply Haddr.
Qed.

Lemma canon_unique s s' k : canon s k -> canon s' k -> s = s'.
Proof. destruct 1; inversion 1; subst; done. Qed.

Lemma canon_plain s k : canon s k -> plain_host s = true.
Proof.
  intros Hs. unfold plain_host. rewrite !(canon_settled s k Hs), String.eqb_refl. cbn [andb].
  destruct Hs as [a (Ha & Hz & _)|p [Hp _]|s _ _ _ Hpct Hbs]; [..|by rewrite Hpct, Hbs].
  - by rewrite (address_lacks _ backslash (Addr_String_chars a Ha Hz) eq_refl), (address_lacks _ percent (Addr_String_chars a Ha Hz) eq_refl).
  - by rewrite (address_lacks _ backslash (Prefix_String_chars p Hp) eq_refl), (address_lacks _ percent (Prefix_String_chars p Hp) eq_refl).
Qed.

(** ** Subsumed entries *)

(** The tests of an endpoint that respect the order of entries. *)
Record good_sel (sel : hostKind -> bool) : Prop := {
  gs_none : sel KNone = false;
  gs_malformed : forall s, Match s "" = None -> sel (KName s) = false;
  gs_prefix : forall p q, norm_prefix p -> norm_prefix q -> pfx_bits p <= pfx_bits q ->
    Prefix_Contains p (pfx_addr q) = true -> sel (KPrefix q) = true -> sel (KPrefix p) = true;
  gs_addr : forall p a, norm_prefix p -> Prefix_Contains p a = true -> sel (KAddr a) = true -> sel (KPrefix p) = true;
  gs_name : forall s t, literal t = true -> Match s t = Some true -> sel (KName t) = true -> sel (KName s) = true }.

Lemma good_kind_selects dns h : hasZone (fh_addr h) = false -> good_sel (kind_selects dns h).
Proof.
  intros Hz. split; cbn [kind_selects].
  - done.
  - intros s Hm. rewrite <- (existsb_false (host_names dns h)). apply existsb_ext. intros n. unfold name_selected.
    destruct (Match s (trimDot (ToLower n))) as [[]|] eqn:E; [|by rewrite andb_false_r..].
    by apply (Match_malformed s "") in E.
  - intros p q [Hp _] [Hq _] Hb Hc. rewrite !andb_true_iff. intros [Hv Hs]. split; [done|]. revert Hc Hs.
    destruct Hq as (Hqa & Hqz & Hqb). rewrite !Contains_spec by (done || by destruct (pfx_addr q)).
    rewrite !andb_true_iff, !Z.eqb_eq. intros [E1 E2] [E3 E4]. rewrite E1, E3 in *. split; [done|].
    replace (BitLen (fh_addr h) - pfx_bits p) with
      (BitLen (fh_addr h) - pfx_bits q + (pfx_bits q - pfx_bits p)) in * by lia.
    rewrite <- !Z.shiftr_shiftr in * by lia. by rewrite E4.
  - intros p a [Hp _] Hc. rewrite !andb_true_iff, bool_decide_eq_true. intros [Hv ->]. done.
  - intros s t Hl Hm. rewrite !existsb_exists. intros (n & Hin & Hn). exists n. split; [done|].
    unfold name_selected in *. apply andb_true_iff in Hn as [Hne Hn]. rewrite Hne. cbn [andb].
    rewrite (Match_literal t _ Hl) in Hn. apply String.eqb_eq in Hn as ->. by rewrite Hm.
Qed.

(** Entries are ordered: an entry that subsumes another is smaller. *)
Definition rank (k : hostKind) : Z :=
  match k with
  | KPrefix p => pfx_bits p
  | KAddr _ => 200
  | KName s => if literal s then 1 else 0
  | _ => 0
  end.

Lemma literal_lacks s : literal s = lacks star s && lacks qmark s && lacks lbracket s && lacks backslash s.
Proof.
  induction s as [|c s IH]; [done|]. cbn [literal lacks]. rewrite IH. unfold plain_char.
  destruct (c =a star), (c =a qmark), (c =a lbracket), (c =a backslash), (lacks star s), (lacks qmark s), (lacks lbracket s); done.
Qed.

Lemma canon_parse s k : canon s k ->
  (ParseAddr s = match k with KAddr a => Some a | _ => None end) /\
  (ParsePrefix s = match k with KPrefix p => Some p | _ => None end).
Proof.
  intros [a (Ha & Hz & _)|p [Hp _]|s' _ _ _ Hpct _ Hpa Hpp _].
  - split; [by apply ParseAddr_String|]. unfold ParsePrefix.
    assert (Hl : lacks "/" (Addr_String a) = true).
    { destruct a as [|v|v z]; [done|by apply lacks_ipv4_string|]. cbn [Addr_String addr_wf hasZone] in *.
      apply negb_false_iff in Hz. unfold zone_suffix. rewrite Hz.
      destruct (Z.eqb_spec (Z.shiftr v 32) 65535) as [E|].
      - destruct (mapped_value v Ha E) as [Hw _]. by rewrite !lacks_app, lacks_ipv4_string.
      - by rewrite lacks_app, lacks_ipv6_string. }
    by rewrite (LastIndexByte_none _ _ Hl).
  - split; [by apply Prefix_String_not_addr|by apply ParsePrefix_String].
  - split; [|done]. destruct (ParseAddr s') as [a|] eqn:E; [|done]. by rewrite (parsed_Trim s' a), E in Hpa.
Qed.

Lemma canon_wf s k : canon s k ->
  match k with KAddr a => norm_addr a | KPrefix p => norm_prefix p | KName t => lacks backslash t = true | _ => False end.
Proof. by intros []. Qed.

Lemma subsumes_spec a ka b kb sel : canon a ka -> canon b kb -> a <> b -> firewallHostSubsumes a b = true ->
  good_sel sel -> rank ka < rank kb /\ (sel kb = true -> sel ka = true).
Proof.
  intros Ha Hb Hne Hsub Hsel. destruct (canon_parse a ka Ha) as [Aa Ap], (canon_parse b kb Hb) as [Ba Bp].
  pose proof (canon_wf a ka Ha) as Wa. pose proof (canon_wf b kb Hb) as Wb.
  unfold firewallHostSubsumes in Hsub. rewrite (proj2 (String.eqb_neq a b) Hne), Aa, Ap, Ba, Bp in Hsub.
  destruct ka as [|x|p|s|]; try done; destruct kb as [|y|q|t|]; try done; cbn [rank].
  - apply bool_decide_eq_true in Hsub as ->. by destruct Hne; apply (canon_unique a b (KAddr y)).
  - split; [|by apply (gs_addr sel Hsel)]. destruct Wa as [(_ & _ & Hb1) _]. pose proof (BitLen_range (pfx_addr p)). lia.
  - apply andb_true_iff in Hsub as [Hle Hc]. apply Z.leb_le in Hle. split; [|by apply (gs_prefix sel Hsel)].
    destruct (Z.eq_dec (pfx_bits p) (pfx_bits q)) as [E|]; [|lia]. exfalso. apply Hne.
    destruct Wa as [Wp Cp], Wb as [Wq Cq]. pose proof Wq as (Hqa & Hqz & Hqb). pose proof Wp as (Hpa & Hpz & Hpb).
    rewrite Contains_spec in Hc by (done || by destruct (pfx_addr q)). apply andb_true_iff in Hc as [E1 E2].
    apply Z.eqb_eq in E1, E2. pose proof (norm_prefix_value p (conj Wp Cp)) as Vp. pose proof (norm_prefix_value q (conj Wq Cq)) as Vq.
    assert (Ev : addr_value (pfx_addr p) = addr_value (pfx_addr q)).
    { rewrite <- Vp, <- Vq. unfold masked. by rewrite E1, <- E, E2. }
    assert (Epq : p = q).
    { destruct p as [pa pb], q as [qa qb]. cbn [pfx_addr pfx_bits] in *. subst pb. f_equal.
      apply WithoutZone_id in Hpz, Hqz. rewrite <- Hpz, <- Hqz. destruct pa, qa; try done; cbn in *; congruence. }
    subst q. by apply (canon_unique a b (KPrefix p)).
  - destruct (lacks star b && lacks qmark b && lacks lbracket b) eqn:El; [|done]. cbn [negb] in Hsub.
    destruct (Match a b) as [[]|] eqn:Em; try done. inversion Ha; inversion Hb; subst.
    assert (Hlit : literal t = true) by by rewrite literal_lacks, El.
    rewrite Hlit. split; [|by apply (gs_name sel Hsel)]. destruct (literal s) eqn:Els; [|done].
    rewrite (Match_literal s t Els) in Em. injection Em as Em. by apply String.eqb_eq in Em as ->.
Qed.

(** The removal keeps an entry for everything that was selected. *)
Lemma remove_hosts_in before hosts h : h ∈ hosts -> NoDup (before ++ hosts) ->
  h ∈ remove_subsumed_hosts before hosts \/
  exists c, c ∈ before ++ hosts /\ c <> h /\ firewallHostSubsumes c h = true.
Proof.
  revert before. induction hosts as [|x hosts IH]; intros before Hin Hnd; [by apply elem_of_nil in Hin|].
  cbn [remove_subsumed_hosts]. assert (Hnd2 : NoDup ((before ++ [x]) ++ hosts)) by by rewrite <- app_assoc.
  apply elem_of_cons in Hin as [->|Hin].
  - destruct (existsb _ (before ++ hosts)) eqn:E; [|left; by left].
    right. apply existsb_exists in E as (c & Hc & Hs). apply list_elem_of_In in Hc. exists c. split_and!; [|intros ->|done].
    + apply elem_of_app in Hc as [?|?]; apply elem_of_app; [by left|right; by right].
    + rewrite <- app_assoc in Hnd2. cbn [app] in Hnd2. apply NoDup_app in Hnd2 as (_ & Hd & Hn).
      apply NoDup_cons in Hn as [Hn _]. apply elem_of_app in Hc as [Hc|Hc]; [|done]. apply (Hd x Hc). by left.
  - destruct (IH (before ++ [x]) Hin Hnd2) as [H|H].
    + left. destruct (existsb _ _); [done|by right].
    + right. by rewrite <- app_assoc in H.
Qed.

Lemma remove_hosts_sub before hosts h : h ∈ remove_subsumed_hosts before hosts -> h ∈ hosts.
Proof.
  revert before. induction hosts as [|x hosts IH]; intros before; [done|]. cbn [remove_subsumed_hosts].
  destruct (existsb _ _); [intros H; right; by eapply IH|]. intros [->|H]%elem_of_cons; [by left|right; by eapply IH].
Qed.

Definition all_canon (hosts : list string) : Prop := Forall (fun s => canon s (host_kind s)) hosts.

Lemma canon_self s k : canon s k -> canon s (host_kind s).
Proof. intros Hs. by rewrite (canon_host_kind s k Hs). Qed.

Lemma remove_hosts_select sel hosts : good_sel sel -> all_canon hosts -> NoDup hosts ->
  existsb (fun s => sel (host_kind s)) (removeSubsumedFirewallHosts hosts) = existsb (fun s => sel (host_kind s)) hosts.
Proof.
  intros Hsel Hcanon Hnd. apply eq_bool_prop_intro. rewrite !Is_true_true, !existsb_exists.
  assert (Hin : forall n h, (Z.to_nat (rank (host_kind h) + 1) <= n)%nat -> h ∈ hosts -> sel (host_kind h) = true ->
    exists x, x ∈ removeSubsumedFirewallHosts hosts /\ sel (host_kind x) = true).
  { induction n as [|n IH]; intros h Hn Hh Hs.
    - assert (0 <= rank (host_kind h)); [|lia]. unfold all_canon in Hcanon. rewrite Forall_forall in Hcanon.
      pose proof (canon_wf h _ (Hcanon h Hh)) as W. destruct (host_kind h) as [|a|p|s|]; cbn [rank]; try lia.
      + destruct W as [(_ & _ & ?) _]. lia.
      + destruct (literal s); lia.
    - destruct (remove_hosts_in [] hosts h Hh Hnd) as [Hk|(c & Hc & Hne & Hsub)]; [by exists h|]. cbn [app] in Hc.
      unfold all_canon in Hcanon. rewrite Forall_forall in Hcanon.
      destruct (subsumes_spec c (host_kind c) h (host_kind h) sel) as [Hr Hi]; try done; [by apply Hcanon..|].
      apply (IH c); [lia|done|by apply Hi]. }
  split.
  - intros (x & Hx & Hs). exists x. split; [|done]. apply list_elem_of_In in Hx. apply list_elem_of_In.
    by eapply remove_hosts_sub.
  - intros (x & Hx & Hs). apply list_elem_of_In in Hx. destruct (Hin _ x ltac:(done) Hx Hs) as (y & Hy & Hsy).
    exists y. split; [by apply list_elem_of_In|done].
Qed.

(** ** Canonical host lists *)

(** A test of endpoints that a wildcard passes. *)
Definition wild_sel (sel : hostKind -> bool) : Prop := good_sel sel /\ sel KAny = true.

Lemma wild_kind_selects dns h : hasZone (fh_addr h) = false -> wild_sel (kind_selects dns h).
Proof. intros Hz. split; [by apply good_kind_selects|done]. Qed.

Lemma wild_is_any : wild_sel is_any.
Proof. split; [by split|done]. Qed.

(** The test that every well-formed entry passes. *)
Definition some_kind (k : hostKind) : bool :=
  match k with KNone => false | KName s => match Match s "" with Some _ => true | None => false end | _ => true end.

Lemma wild_some_kind : wild_sel some_kind.
Proof.
  split; [|done]. split; try done.
  - intros s Hm. cbn [some_kind]. by rewrite Hm.
  - intros s t _ Hm _. cbn [some_kind]. destruct (Match s "") eqn:E; [done|]. by apply (Match_malformed s "" t) in E.
Qed.

Lemma host_kind_any raw : host_kind raw = KAny <-> trimDot (ToLower raw) = "*".
Proof.
  unfold host_kind, kind_of. destruct (String.eqb_spec (trimDot (ToLower raw)) "*") as [->|Hne]; [done|].
  split; [|done]. by repeat case_match.
Qed.

Lemma canonical_entries_spec hosts : Forall (fun raw => plain_host raw = true) hosts ->
  match canonical_entries hosts with
  | None => exists raw, raw ∈ hosts /\ host_kind raw = KAny
  | Some l => Forall (fun raw => host_kind raw <> KAny) hosts /\ all_canon l /\
      forall sel, good_sel sel -> existsb (fun s => sel (host_kind s)) l = existsb (fun s => sel (host_kind s)) hosts
  end.
Proof.
  induction 1 as [|raw hosts Hraw Hhosts IH]; [split_and!; [constructor|constructor|done]|]. cbn [canonical_entries].
  destruct (String.eqb_spec (trimDot (ToLower raw)) "*") as [Ew|Hw].
  { exists raw. split; [by left|by apply host_kind_any]. }
  assert (Hk : host_kind raw <> KAny) by by rewrite host_kind_any.
  destruct (canonical_entries hosts) as [l|]; [|destruct IH as (x & Hx & Hxk); exists x; split; [by right|done]].
  destruct IH as (Hn & Hc & Hs). destruct (String.eqb_spec (trimDot (ToLower raw)) "") as [Ee|He].
  - split_and!; [by constructor|done|]. intros sel Hsel. cbn [existsb].
    assert (E : host_kind raw = KNone) by (unfold host_kind; by rewrite Ee). rewrite E, (gs_none _ Hsel). by apply Hs.
  - pose proof (canonical_host_spec raw Hraw Hw He) as Hcan. destruct (canonical_host _) as [h|].
    + pose proof (canon_host_kind _ _ Hcan) as E. split_and!; [by constructor|by constructor; [rewrite E|]|].
      intros sel Hsel. cbn [existsb]. by rewrite E, Hs.
    + destruct Hcan as [E Hm]. split_and!; [by constructor|done|]. intros sel Hsel. cbn [existsb].
      unfold host_kind at 2. rewrite E, (gs_malformed _ Hsel) by done. by apply Hs.
Qed.

Lemma canonicalFirewallHosts_spec hosts : Forall (fun raw => plain_host raw = true) hosts ->
  let '(l, anyHost) := canonicalFirewallHosts hosts in
  if anyHost then l = [] /\ forall sel, wild_sel sel -> hosts_select sel hosts = true
  else all_canon l /\ zlen hosts <> 0 /\
    forall sel, good_sel sel -> existsb (fun s => sel (host_kind s)) l = hosts_select sel hosts.
Proof.
  intros Hp. unfold canonicalFirewallHosts, hosts_select. destruct (zlen hosts =? 0) eqn:E0; [done|].
  pose proof (canonical_entries_spec hosts Hp) as He. destruct (canonical_entries hosts) as [l|].
  - destruct He as (Hn & Hc & Hs). set (m := merge_sort string_le (remove_dups l)).
    assert (Hm : forall x, x ∈ m <-> x ∈ l).
    { intros x. unfold m. rewrite merge_sort_Permutation. apply elem_of_remove_dups. }
    assert (Hcm : all_canon m).
    { unfold all_canon in *. rewrite Forall_forall in *. intros x Hx. by apply Hc, Hm. }
    assert (Hnd : NoDup m) by (unfold m; rewrite merge_sort_Permutation; apply NoDup_remove_dups). split_and!.
    + unfold all_canon in *. rewrite Forall_forall in *. intros x Hx. apply Hcm. by eapply remove_hosts_sub.
    + by apply Z.eqb_neq.
    + intros sel Hsel. rewrite remove_hosts_select by done. rewrite (existsb_mem _ m l Hm). by apply Hs.
  - split; [done|]. intros sel [_ Hsel]. destruct He as (raw & Hin & Hk). cbn [orb]. apply existsb_exists. exists raw.
    split; [by apply list_elem_of_In|by rewrite Hk].
Qed.

(** Canonical lists are plain, and select a wildcard only when they are empty. *)
Lemma all_canon_plain hosts : all_canon hosts -> Forall (fun raw => plain_host raw = true) hosts.
Proof. intros Hc. eapply Forall_impl; [exact Hc|]. intros s Hs. exact (canon_plain _ _ Hs). Qed.

Lemma all_canon_some hosts : all_canon hosts -> hosts <> [] -> existsb (fun s => some_kind (host_kind s)) hosts = true.
Proof.
  intros Hc Hne. destruct hosts as [|s hosts]; [done|]. apply Forall_cons in Hc as [Hs _]. cbn [existsb]. apply orb_true_iff. left.
  destruct Hs as [| |s _ _ _ _ _ _ _ Hm]; cbn [some_kind]; try done. by destruct (Match s "").
Qed.

Lemma hosts_select_cons sel hosts : hosts <> [] -> hosts_select sel hosts = existsb (fun s => sel (host_kind s)) hosts.
Proof.
  intros Hne. unfold hosts_select. destruct hosts as [|s hosts]; [done|]. rewrite zlen_cons.
  by rewrite (proj2 (Z.eqb_neq _ 0)) by (pose proof (zlen_nonneg hosts); lia).
Qed.

(** The union of two canonical lists. *)
Lemma merge_hosts_spec a b : all_canon a -> all_canon b ->
  all_canon (mergeFirewallHostSelectors a b) /\
  forall sel, wild_sel sel -> hosts_select sel (mergeFirewallHostSelectors a b) = hosts_select sel a || hosts_select sel b.
Proof.
  intros Ha Hb. unfold mergeFirewallHostSelectors. destruct ((zlen a =? 0) || (zlen b =? 0)) eqn:E0.
  - split; [constructor|]. intros sel Hsel. unfold hosts_select at 1. change (zlen (@nil string) =? 0) with true.
    apply orb_true_iff in E0 as [E0|E0]; unfold hosts_select; rewrite E0; by rewrite ?orb_true_r.
  - apply orb_false_iff in E0 as [Ea Eb]. assert (Hna : a <> []) by by intros ->. assert (Hnb : b <> []) by by intros ->.
    assert (Hab : all_canon (a ++ b)) by by apply Forall_app.
    pose proof (canonicalFirewallHosts_spec (a ++ b) (all_canon_plain _ Hab)) as Hspec.
    destruct (canonicalFirewallHosts (a ++ b)) as [l anyHost]. cbn [fst]. destruct anyHost.
    + destruct Hspec as [_ Hany]. exfalso. specialize (Hany is_any wild_is_any). rewrite hosts_select_cons in Hany by (by destruct a).
      apply existsb_exists in Hany as (s & Hs & Hk). apply list_elem_of_In in Hs. unfold all_canon in Hab. rewrite Forall_forall in Hab.
      pose proof (canon_wf s _ (Hab s Hs)). by destruct (host_kind s).
    + destruct Hspec as (Hl & _ & Hsel). split; [done|]. intros sel Hw.
      assert (Hne : l <> []).
      { intros ->. specialize (Hsel some_kind (proj1 wild_some_kind)). cbn [existsb] in Hsel.
        rewrite hosts_select_cons, all_canon_some in Hsel by (done || by destruct a). done. }
      rewrite (hosts_select_cons sel l Hne), (Hsel sel (proj1 Hw)). rewrite !hosts_select_cons by (done || by destruct a).
      apply existsb_app.
Qed.

(** ** Ports *)

Definition in_interval (port : Z) (r : FirewallPortRange) : bool := (pr_First r <=? port) && (port <=? pr_Last r).

Definition ordered (r : FirewallPortRange) : Prop := pr_First r <= pr_Last r.

Lemma in_range_ordered port r : ordered r -> in_range port r = in_interval port r.
Proof. intros Hr. unfold in_range, in_interval, ordered in *. by rewrite Z.min_l, Z.max_r by lia. Qed.

Lemma ordered_range_spec r : ordered (ordered_range r) /\ forall port, in_interval port (ordered_range r) = in_range port r.
Proof.
  destruct r as [first last]. unfold ordered_range, ordered, in_interval, in_range. cbn [pr_First pr_Last].
  destruct (Z.ltb_spec last first); cbn [pr_First pr_Last]; (split; [lia|]); intros port.
  - by rewrite Z.min_r, Z.max_l by lia.
  - by rewrite Z.min_l, Z.max_r by lia.
Qed.

#[local] Instance range_le_trans : Transitive range_le.
Proof. intros [] [] []. unfold range_le. cbn. lia. Qed.

#[local] Instance range_le_total : Total range_le.
Proof. intros [] []. unfold range_le. cbn. lia. Qed.

Definition starts_before (a b : FirewallPortRange) : Prop := pr_First a <= pr_First b.

Lemma sorted_starts l : StronglySorted range_le l -> StronglySorted starts_before l.
Proof.
  induction 1 as [|x l Hl IH Hx]; constructor; [done|]. eapply Forall_impl; [exact Hx|].
  intros y Hy. unfold range_le, starts_before in *. lia.
Qed.

Lemma merge_intervals_spec l last : StronglySorted starts_before (last :: l) -> Forall ordered (last :: l) ->
  merge_intervals last l <> [] /\ Forall ordered (merge_intervals last l) /\
  forall port, existsb (in_interval port) (merge_intervals last l) = existsb (in_interval port) (last :: l).
Proof.
  revert last. induction l as [|x l IH]; intros last Hs Ho; [done|]. cbn [merge_intervals].
  apply StronglySorted_inv in Hs as [Hs Hle]. apply Forall_cons in Hle as [Hlx Hle].
  apply Forall_cons in Ho as [Hol Ho]. apply Forall_cons in Ho as [Hox Ho].
  apply StronglySorted_inv in Hs as [Hs Hxl].
  destruct ((pr_First x <=? pr_Last last) || negb (pr_Last last =? 65535) && (pr_First x =? pr_Last last + 1)) eqn:Ej.
  - set (last' := MkRange _ _).
    assert (Hl' : ordered last' /\ pr_First last' = pr_First last /\ pr_Last last' = Z.max (pr_Last last) (pr_Last x)).
    { unfold last', ordered in *. cbn [pr_First pr_Last]. destruct (Z.ltb_spec (pr_Last last) (pr_Last x)); lia. }
    destruct Hl' as (Ho1 & Hf1 & Hm1). destruct (IH last') as (Hne & Hord & Hsel).
    + constructor; [done|]. eapply Forall_impl; [exact Hle|]. intros y Hy. unfold starts_before in *. lia.
    + by constructor.
    + split_and!; [done|done|]. intros port. rewrite Hsel. cbn [existsb]. rewrite orb_assoc. f_equal.
      unfold in_interval. rewrite Hf1, Hm1. unfold ordered, starts_before in *. lia.
  - destruct (IH x) as (Hne & Hord & Hsel); [by constructor|by constructor|]. split_and!; [done|by constructor|].
    intros port. cbn [existsb]. by rewrite Hsel.
Qed.

Lemma split_intervals port merged : Forall ordered merged ->
  existsb (fun p => p =? port) (map pr_First (List.filter single_port merged)) ||
  existsb (in_range port) (List.filter (fun r => negb (single_port r)) merged) = existsb (in_interval port) merged.
Proof.
  induction 1 as [|r merged Hr Hm IH]; [done|]. cbn [List.filter existsb]. rewrite <- IH.
  destruct (single_port r) eqn:Es; cbn [negb map existsb].
  - rewrite <- orb_assoc. f_equal. unfold single_port, in_interval in *. lia.
  - rewrite in_range_ordered by done. by destruct (in_interval port r), (existsb _ (map _ _)).
Qed.

Lemma filter_ordered (f : FirewallPortRange -> bool) l : Forall ordered l -> Forall ordered (List.filter f l).
Proof.
  induction 1 as [|r l Hr Hl IH]; [constructor|]. cbn [List.filter]. destruct (f r); [by constructor|done].
Qed.

Lemma canonicalFirewallPorts_spec ports ranges : let '(ps, rs) := canonicalFirewallPorts ports ranges in
  Forall ordered rs /\ forall port, ports_selected port ps rs = ports_selected port ports ranges.
Proof.
  unfold canonicalFirewallPorts. destruct ((zlen ports =? 0) && (zlen ranges =? 0)) eqn:E0.
  { split; [constructor|]. intros port. unfold ports_selected. rewrite E0. done. }
  set (ivs := merge_sort range_le _).
  assert (Hperm : ivs ≡ₚ map (fun port => MkRange port port) ports ++ map ordered_range ranges) by apply merge_sort_Permutation.
  assert (Hord : Forall ordered ivs).
  { rewrite Hperm, Forall_app. split; apply Forall_map, Forall_true; [by intros p; unfold ordered; cbn|].
    intros r. apply ordered_range_spec. }
  assert (Hsort : StronglySorted starts_before ivs) by (apply sorted_starts, StronglySorted_merge_sort; apply _).
  assert (Hsel : forall port, existsb (in_interval port) ivs = existsb (fun p => p =? port) ports || existsb (in_range port) ranges).
  { intros port. rewrite (existsb_mem _ _ _ (fun x => elem_of_Permutation_proper x _ _ Hperm)), existsb_app, !existsb_map.
    f_equal; apply existsb_ext; [intros p; unfold in_interval; cbn; lia|]. intros r. apply ordered_range_spec. }
  destruct ivs as [|iv rest] eqn:Ei.
  { exfalso. apply Permutation_nil_l in Hperm. apply (f_equal length) in Hperm.
    rewrite length_app, !length_map in Hperm. unfold zlen in E0. cbn [length] in Hperm. lia. }
  destruct (merge_intervals_spec rest iv Hsort Hord) as (Hne & Ho & Hm). split; [by apply filter_ordered|].
  intros port. unfold ports_selected. rewrite E0. cbn [orb]. rewrite <- orb_assoc, split_intervals, Hm, Hsel by done.
  set (ps := map pr_First _). set (rs := List.filter _ _).
  assert (Hnn : (zlen ps =? 0) && (zlen rs =? 0) = false); [|by rewrite Hnn].
  unfold ps, rs. destruct (merge_intervals iv rest) as [|r m]; [done|]. cbn [List.filter].
  destruct (single_port r); cbn [negb map]; rewrite zlen_cons; apply andb_false_iff; [left|right]; apply Z.eqb_neq;
    match goal with |- zlen ?l + 1 <> 0 => pose proof (zlen_nonneg l) end; lia.
Qed.

(** ** Networks *)

Lemma HasPrefix_split s p : HasPrefix s p = true -> exists t, s = String.append p t.
Proof.
  revert s. induction p as [|c p IH]; intros s; [by exists s|]. destruct s as [|d s]; [done|]. cbn [HasPrefix].
  rewrite andb_true_iff. intros [->%Ascii.eqb_eq Hs]. destruct (IH s Hs) as [t ->]. by exists t.
Qed.

Lemma TrimPrefix_append p t : TrimPrefix (String.append p t) p = t.
Proof. unfold TrimPrefix. rewrite HasPrefix_app. apply sdrop_app. Qed.

(** Splits a disjunction of tests on a network name. *)
Ltac net_cases H :=
  rewrite ?orb_true_iff in H; destruct_or! H;
  first [discriminate H | apply String.eqb_eq in H as -> | apply HasPrefix_split in H as [? ->] | idtac].

(** A rule matches its own name; the other cases of a rule. *)
Lemma matches_self b : firewallNetworkMatches b b = true.
Proof. unfold firewallNetworkMatches. by rewrite String.eqb_refl, orb_true_r. Qed.

Lemma matches_other b n (eq := String.eqb n) : b <> n -> firewallNetworkMatches b n =
  if String.eqb b "" || String.eqb b "*" then true
  else if String.eqb b "ip" then firewallIPNetwork n
  else if String.eqb b "ip4" then eq "tcp4" || eq "udp4" || eq "icmp4" || HasPrefix n "ip4:"
  else if String.eqb b "ip6" then eq "tcp6" || eq "udp6" || eq "icmp6" || HasPrefix n "ip6:"
  else if String.eqb b "tcp" then eq "tcp4" || eq "tcp6"
  else if String.eqb b "udp" then eq "udp4" || eq "udp6"
  else if String.eqb b "icmp" then eq "icmp4" || eq "icmp6"
  else if HasPrefix b "ip:" then eq (String.append "ip4:" (TrimPrefix b "ip:")) || eq (String.append "ip6:" (TrimPrefix b "ip:"))
  else false.
Proof. intros Hne. unfold firewallNetworkMatches. by rewrite (proj2 (String.eqb_neq b n) Hne), orb_false_r. Qed.

(** The names that a rule for one family or protocol matches. *)
Lemma matches_exact b n : existsb (String.eqb b) ["tcp4"; "tcp6"; "udp4"; "udp6"; "icmp4"; "icmp6"] = true ->
  firewallNetworkMatches b n = true -> n = b.
Proof.
  cbn [existsb]. intros H Hn. destruct (String.eqb_spec b n) as [->|Hne]; [done|].
  rewrite matches_other in Hn by done. net_cases H; discriminate Hn.
Qed.

Lemma matches_prefixed p t n : p = "ip4:" \/ p = "ip6:" ->
  firewallNetworkMatches (String.append p t) n = true -> n = String.append p t.
Proof.
  intros Hp Hn. destruct (String.eqb_spec (String.append p t) n) as [->|Hne]; [done|].
  rewrite matches_other in Hn by done. destruct Hp as [-> | ->]; discriminate Hn.
Qed.

Lemma ip_network_matches b n : firewallRuleNetworkIsIP b = true -> firewallNetworkMatches b n = true ->
  firewallNetworkMatches "ip" n = true.
Proof.
  assert (Hip : forall m, firewallIPNetwork m = true -> firewallNetworkMatches "ip" m = true).
  { intros m Hm. destruct (String.eqb_spec "ip" m) as [<-|Hne]; [apply matches_self|]. by rewrite matches_other. }
  assert (Hpre : forall p t, p = "ip:" \/ p = "ip4:" \/ p = "ip6:" -> firewallIPNetwork (String.append p t) = true).
  { intros p t [-> |[-> | ->]]; unfold firewallIPNetwork; by rewrite HasPrefix_app, ?orb_true_r. }
  intros Hb Hn. destruct (String.eqb_spec b n) as [->|Hne].
  { unfold firewallRuleNetworkIsIP in Hb. net_cases Hb; first [apply matches_self|by apply Hip|apply Hip, Hpre; tauto]. }
  rewrite matches_other in Hn by done. unfold firewallRuleNetworkIsIP in Hb. apply Hip.
  net_cases Hb; try discriminate Hn; try exact Hn.
  6: { rewrite TrimPrefix_append, HasPrefix_app in Hn.
       change (String.eqb n (String.append "ip4:" x) || String.eqb n (String.append "ip6:" x) = true) in Hn.
       net_cases Hn; apply Hpre; tauto. }
  all: cbn [String.eqb Ascii.eqb Bool.eqb andb orb] in Hn; net_cases Hn; first [done|apply Hpre; tauto].
Qed.

(** A rule for all protocols of a family. *)
Lemma family_matches f b n : f = "4" \/ f = "6" ->
  String.eqb b (String.append "tcp" f) || String.eqb b (String.append "udp" f) || String.eqb b (String.append "icmp" f) ||
  HasPrefix b (String.append "ip" (String.append f ":")) = true ->
  firewallNetworkMatches b n = true -> firewallNetworkMatches (String.append "ip" f) n = true.
Proof.
  intros [-> | ->] Hb Hn; net_cases Hb; try (by apply matches_exact in Hn as ->).
  - apply (matches_prefixed "ip4:") in Hn as ->; [|by left]. rewrite matches_other by done.
    by rewrite (HasPrefix_app "ip4:" x), ?orb_true_r.
  - apply (matches_prefixed "ip6:") in Hn as ->; [|by right]. rewrite matches_other by done.
    by rewrite (HasPrefix_app "ip6:" x), ?orb_true_r.
Qed.

Lemma network_subsumes_name a b n : firewallNetworkSubsumes a b = true -> firewallNetworkMatches b n = true ->
  firewallNetworkMatches a n = true.
Proof.
  unfold firewallNetworkSubsumes. destruct (String.eqb_spec a b) as [->|Hab]; [done|].
  destruct (String.eqb_spec a "") as [->|_]; [done|]. cbn [orb]. destruct (String.eqb_spec b "") as [->|Hb0]; [done|].
  destruct (String.eqb_spec a "ip") as [->|_]; [by apply ip_network_matches|].
  destruct (String.eqb_spec a "ip4") as [->|_]; [by apply (family_matches "4"); left|].
  destruct (String.eqb_spec a "ip6") as [->|_]; [by apply (family_matches "6"); right|].
  destruct (String.eqb_spec a "tcp") as [->|_]; [intros H Hn; net_cases H; by apply matches_exact in Hn as ->|].
  destruct (String.eqb_spec a "udp") as [->|_]; [intros H Hn; net_cases H; by apply matches_exact in Hn as ->|].
  destruct (String.eqb_spec a "icmp") as [->|_]; [intros H Hn; net_cases H; by apply matches_exact in Hn as ->|].
  destruct (HasPrefix a "ip:") eqn:Ep; [|done]. apply HasPrefix_split in Ep as [t ->]. rewrite TrimPrefix_append.
  intros H Hn. net_cases H.
  - apply (matches_prefixed "ip4:") in Hn as ->; [|by left]. rewrite matches_other by done.
    rewrite TrimPrefix_append, (HasPrefix_app "ip:" t), !String.eqb_refl. done.
  - apply (matches_prefixed "ip6:") in Hn as ->; [|by right]. rewrite matches_other by done.
    rewrite TrimPrefix_append, (HasPrefix_app "ip:" t), !String.eqb_refl, orb_true_r. done.
Qed.

(** Replaces the compiled selector of a known network by its value. *)
Ltac known_selector :=
  repeat match goal with
  | |- context [compileFirewallIPSelector ?s] =>
      let v := eval vm_compute in (compileFirewallIPSelector s) in
      match v with (_, _, _) => change (compileFirewallIPSelector s) with v end
  end.

(** The selector of a protocol number. *)
Lemma selector_prefixed p version t : p = "ip:" /\ version = 0 \/ p = "ip4:" /\ version = 4 \/ p = "ip6:" /\ version = 6 ->
  compileFirewallIPSelector (String.append p t) =
  match ParseUint t 8 with None => (0, 0, false) | Some protocol => (version, protocol, true) end.
Proof.
  intros [[-> ->]|[[-> ->]|[-> ->]]]; unfold compileFirewallIPSelector;
    rewrite ?(HasPrefix_app "ip:" t), ?(HasPrefix_app "ip4:" t), ?(HasPrefix_app "ip6:" t), ?TrimPrefix_append; reflexivity.
Qed.

Lemma network_subsumes_ip a b version protocol : firewallNetworkSubsumes a b = true ->
  network_selected (ByIP version protocol) b = true -> network_selected (ByIP version protocol) a = true.
Proof.
  unfold firewallNetworkSubsumes. destruct (String.eqb_spec a b) as [->|Hab]; [done|].
  destruct (String.eqb_spec a "") as [->|_]; [done|]. cbn [orb]. destruct (String.eqb_spec b "") as [->|Hb0]; [done|].
  destruct (String.eqb_spec a "ip") as [->|_]; [done|].
  destruct (String.eqb_spec a "ip4") as [->|_].
  { intros H. net_cases H; cbn [network_selected]; rewrite ?(selector_prefixed "ip4:" 4) by tauto; known_selector;
      try (destruct (ParseUint x 8)); cbn; rewrite ?andb_true_iff; intuition congruence. }
  destruct (String.eqb_spec a "ip6") as [->|_].
  { intros H. net_cases H; cbn [network_selected]; rewrite ?(selector_prefixed "ip6:" 6) by tauto; known_selector;
      try (destruct (ParseUint x 8)); cbn; rewrite ?andb_true_iff; intuition congruence. }
  destruct (String.eqb_spec a "tcp") as [->|_];
    [intros H; net_cases H; cbn [network_selected]; known_selector; cbn; rewrite ?andb_true_iff; intuition congruence|].
  destruct (String.eqb_spec a "udp") as [->|_];
    [intros H; net_cases H; cbn [network_selected]; known_selector; cbn; rewrite ?andb_true_iff; intuition congruence|].
  destruct (String.eqb_spec a "icmp") as [->|_].
  { intros H Hs. net_cases H; cbn [network_selected] in *; revert Hs; known_selector; intros Hs;
      apply andb_true_iff in Hs as [H1 H2];
      [change ((1 =? protocol) = true) in H2|change ((58 =? protocol) = true) in H2]; clear Hab Hb0;
      assert (H3 : version = 4 /\ protocol = 1 \/ version = 6 /\ protocol = 58) by lia;
      by destruct H3 as [[-> ->]|[-> ->]]. }
  destruct (HasPrefix a "ip:") eqn:Ep; [|done]. apply HasPrefix_split in Ep as [t ->]. rewrite TrimPrefix_append.
  intros H. net_cases H; cbn [network_selected]; rewrite (selector_prefixed "ip:" 0) by tauto;
    [rewrite (selector_prefixed "ip4:" 4) by tauto|rewrite (selector_prefixed "ip6:" 6) by tauto];
    destruct (ParseUint t 8); cbn; rewrite ?andb_true_iff; intuition congruence.
Qed.

Lemma network_subsumes_spec q a b : firewallNetworkSubsumes a b = true ->
  network_selected q b = true -> network_selected q a = true.
Proof. destruct q as [n|v p]; [by apply network_subsumes_name|by apply network_subsumes_ip]. Qed.

(** ** Rules *)

(** What a query tests of a rule. *)
Record tests : Type := MkTests {
  t_net : netQuery; t_port : Z; t_local : option (hostKind -> bool); t_peer : hostKind -> bool }.

Definition good_tests (t : tests) : Prop :=
  wild_sel (t_peer t) /\ match t_local t with Some sel => wild_sel sel | None => True end.

Definition local_passes (t : tests) (hosts : list string) : bool :=
  match t_local t with Some sel => hosts_select sel hosts | None => true end.

Definition rule_passes (t : tests) (r : FirewallRule) : bool :=
  network_selected (t_net t) (rule_network r) && ports_selected (t_port t) (fr_Ports r) (fr_PortRanges r) &&
  local_passes t (fr_LocalHosts r) && hosts_select (t_peer t) (fr_Hosts r).

Definition tests_of (dns : option FirewallDNSCache) (q : query) : tests :=
  MkTests (q_net q) (q_port q)
    (match q_local q with
     | LIgnored => None
     | LUnknown => Some is_any
     | LKnown h => Some (kind_selects dns h)
     end) (kind_selects dns (q_peer q)).

Lemma rule_selects_passes dns q r : rule_selects dns q r = rule_passes (tests_of dns q) r.
Proof. unfold rule_selects, rule_passes, local_passes, tests_of. by destruct (q_local q). Qed.

(** The rules that the optimizer works on. *)
Record norm_rule (r : FirewallRule) : Prop := {
  nr_network : rule_network r = fr_Network r;
  nr_hosts : all_canon (fr_Hosts r);
  nr_local : all_canon (fr_LocalHosts r);
  nr_ranges : Forall ordered (fr_PortRanges r) }.

Lemma ToLower_lower s : ToLower (ToLower s) = ToLower s.
Proof.
  unfold ToLower. induction s as [|c s IH]; [done|]. cbn [string_map]. rewrite IH. f_equal.
  destruct c as [[] [] [] [] [] [] [] []]; reflexivity.
Qed.

Lemma lower_space c : is_space (lower_ascii c) = is_space c.
Proof. destruct c as [[] [] [] [] [] [] [] []]; reflexivity. Qed.

Lemma ToLower_app s t : ToLower (String.append s t) = String.append (ToLower s) (ToLower t).
Proof. unfold ToLower. induction s as [|c s IH]; [done|]. rewrite append_cons. cbn [string_map]. by rewrite IH. Qed.

Lemma ToLower_rev s : ToLower (string_rev s) = string_rev (ToLower s).
Proof.
  induction s as [|c s IH]; [done|]. change (ToLower (String c s)) with (String (lower_ascii c) (ToLower s)).
  rewrite !string_rev_cons, ToLower_app, IH. done.
Qed.

Lemma trim_left_lower s : trim_left_by is_space (ToLower s) = ToLower (trim_left_by is_space s).
Proof.
  induction s as [|c s IH]; [done|]. change (ToLower (String c s)) with (String (lower_ascii c) (ToLower s)).
  cbn [trim_left_by]. rewrite lower_space. by destruct (is_space c).
Qed.

Lemma TrimSpace_lower s : TrimSpace (ToLower s) = ToLower (TrimSpace s).
Proof. unfold TrimSpace, trim_right_by. by rewrite trim_left_lower, <- ToLower_rev, trim_left_lower, ToLower_rev. Qed.

Lemma trim_left_twice p s : trim_left_by p (trim_left_by p s) = trim_left_by p s.
Proof. induction s as [|c s IH]; [done|]. cbn [trim_left_by]. destruct (p c) eqn:E; [done|]. cbn [trim_left_by]. by rewrite E. Qed.

(** Trimming on the right keeps a beginning that is not trimmed. *)
Lemma trim_left_of_right p s : trim_left_by p s = s -> trim_left_by p (trim_right_by p s) = trim_right_by p s.
Proof.
  assert (Hpre : forall t, exists u, t = String.append u (trim_left_by p t)).
  { induction t as [|c t [u Hu]]; [by exists ""|]. cbn [trim_left_by]. destruct (p c); [|by exists ""].
    exists (String c u). by rewrite append_cons, <- Hu. }
  intros Hs. destruct (Hpre (string_rev s)) as [u Hu]. apply (f_equal string_rev) in Hu.
  rewrite string_rev_involutive, string_rev_app in Hu. fold (trim_right_by p s) in Hu.
  destruct (trim_right_by p s) as [|c t]; [done|]. rewrite Hu, append_cons in Hs. cbn [trim_left_by] in *.
  destruct (p c); [|done]. exfalso. assert (Hl : forall x, (String.length (trim_left_by p x) <= String.length x)%nat).
  { induction x as [|d x IHx]; [done|]. cbn [trim_left_by]. destruct (p d); cbn [String.length]; lia. }
  pose proof (Hl (String.append t (string_rev u))) as Hlen. rewrite Hs in Hlen. cbn [String.length] in Hlen. lia.
Qed.

Lemma TrimSpace_twice s : TrimSpace (TrimSpace s) = TrimSpace s.
Proof.
  unfold TrimSpace. set (t := trim_left_by is_space s). assert (Ht : trim_left_by is_space t = t) by apply trim_left_twice.
  rewrite (trim_left_of_right _ _ Ht). unfold trim_right_by. by rewrite string_rev_involutive, trim_left_twice.
Qed.

Lemma network_twice n : ToLower (TrimSpace (ToLower (TrimSpace n))) = ToLower (TrimSpace n).
Proof. by rewrite TrimSpace_lower, TrimSpace_twice, ToLower_lower. Qed.

Lemma network_star q : network_selected q "*" = network_selected q "".
Proof. by destruct q. Qed.

(** A canonical host list of a rule, or none when the rule selects nothing. *)
Lemma canonical_list_spec hosts : Forall (fun raw => plain_host raw = true) hosts ->
  let '(l, anyHost) := canonicalFirewallHosts hosts in
  if negb (zlen hosts =? 0) && negb anyHost && (zlen l =? 0)
  then forall sel, good_sel sel -> hosts_select sel hosts = false
  else all_canon (if anyHost then [] else l) /\
    forall sel, wild_sel sel -> hosts_select sel (if anyHost then [] else l) = hosts_select sel hosts.
Proof.
  intros Hp. pose proof (canonicalFirewallHosts_spec hosts Hp) as Hs.
  destruct (canonicalFirewallHosts hosts) as [l anyHost]. destruct anyHost.
  - destruct Hs as [-> Hs]. rewrite andb_false_r. cbn [andb]. split; [constructor|]. intros sel Hsel. by rewrite Hs.
  - destruct Hs as (Hc & Hne & Hs). rewrite (proj2 (Z.eqb_neq _ _) Hne). cbn [negb andb].
    destruct (Z.eqb_spec (zlen l) 0) as [E|E].
    + intros sel Hsel. rewrite <- (Hs sel Hsel). destruct l; [done|]. rewrite zlen_cons in E. pose proof (zlen_nonneg l). lia.
    + split; [done|]. intros sel [Hsel _]. rewrite hosts_select_cons by by intros ->. by apply Hs.
Qed.

Lemma plain_rule_spec r : plain_rule r = true ->
  Forall (fun raw => plain_host raw = true) (fr_Hosts r) /\ Forall (fun raw => plain_host raw = true) (fr_LocalHosts r).
Proof.
  unfold plain_rule. rewrite andb_true_iff, !forallb_forall. intros [H1 H2]. rewrite !Forall_forall.
  split; intros x Hx; [apply H1|apply H2]; by apply list_elem_of_In.
Qed.

(** The local hosts are tested when the list of rules matches them. *)
Definition tests_local (matchLocal : bool) (t : tests) : Prop :=
  if matchLocal then is_Some (t_local t) else t_local t = None.

Lemma canonicalFirewallRule_spec r matchLocal : plain_rule r = true ->
  match canonicalFirewallRule r matchLocal with
  | Some r' => norm_rule r' /\ forall t, good_tests t -> tests_local matchLocal t -> rule_passes t r' = rule_passes t r
  | None => forall t, good_tests t -> tests_local matchLocal t -> rule_passes t r = false
  end.
Proof.
  intros Hp. apply plain_rule_spec in Hp as [Hh Hl]. unfold canonicalFirewallRule.
  pose proof (canonical_list_spec _ Hh) as Sh. destruct (canonicalFirewallHosts (fr_Hosts r)) as [hosts anyHost].
  destruct (negb (zlen (fr_Hosts r) =? 0) && negb anyHost && (zlen hosts =? 0)).
  { intros t [[Ht _] _] _. unfold rule_passes. by rewrite (Sh _ Ht), andb_false_r. }
  destruct Sh as [Ch Sh]. pose proof (canonicalFirewallPorts_spec (fr_Ports r) (fr_PortRanges r)) as Sp.
  destruct (canonicalFirewallPorts (fr_Ports r) (fr_PortRanges r)) as [ports ranges]. destruct Sp as [Op Sp].
  set (network := if String.eqb (ToLower (TrimSpace (fr_Network r))) "*" then "" else ToLower (TrimSpace (fr_Network r))).
  assert (Hn : ToLower (TrimSpace network) = network).
  { unfold network. destruct (String.eqb _ "*"); [done|apply network_twice]. }
  assert (Hq : forall q, network_selected q network = network_selected q (rule_network r)).
  { intros q. unfold network, rule_network. destruct (String.eqb_spec (ToLower (TrimSpace (fr_Network r))) "*") as [->|]; [|done].
    symmetry. apply network_star. }
  destruct matchLocal.
  - pose proof (canonical_list_spec _ Hl) as Sl. destruct (canonicalFirewallHosts (fr_LocalHosts r)) as [lh anyLocal].
    destruct (negb (zlen (fr_LocalHosts r) =? 0) && negb anyLocal && (zlen lh =? 0)).
    + intros t [_ Ht] [sel El]. unfold rule_passes, local_passes. rewrite El in *.
      by rewrite (Sl sel (proj1 Ht)), andb_false_r.
    + destruct Sl as [Cl Sl]. split; [by constructor|]. intros t [Hpeer Hloc] _. unfold rule_passes, local_passes.
      cbn [fr_Network fr_Hosts fr_LocalHosts fr_Ports fr_PortRanges]. unfold rule_network at 1. cbn [fr_Network].
      rewrite Hn, Hq, Sp, (Sh _ Hpeer). destruct (t_local t); [by rewrite (Sl _ Hloc)|done].
  - split; [constructor; [done|done|constructor|done]|]. intros t [Hpeer _] Hloc. unfold rule_passes, local_passes.
    cbn [fr_Network fr_Hosts fr_LocalHosts fr_Ports fr_PortRanges]. unfold rule_network at 1. cbn [fr_Network].
    by rewrite Hn, Hq, Sp, (Sh _ Hpeer), Hloc.
Qed.

Lemma canonical_rules_spec rules matchLocal : forallb plain_rule rules = true ->
  Forall norm_rule (canonical_rules rules matchLocal) /\ forall t, good_tests t -> tests_local matchLocal t ->
  existsb (rule_passes t) (canonical_rules rules matchLocal) = existsb (rule_passes t) rules.
Proof.
  induction rules as [|r rules IH]; cbn [forallb]; [by split; [constructor|]|]. intros [Hr Hrs]%andb_true_iff.
  destruct (IH Hrs) as [Hn Hp]. pose proof (canonicalFirewallRule_spec r matchLocal Hr) as Hc.
  unfold canonical_rules in *. cbn [flat_map existsb]. destruct (canonicalFirewallRule r matchLocal) as [r'|]; cbn [app existsb].
  - destruct Hc as [Hn' Hc]. split; [by constructor|]. intros t Ht Hl. by rewrite Hc, Hp.
  - split; [done|]. intros t Ht Hl. by rewrite Hc, Hp.
Qed.
