(* ===== verification/FirewallMerge.v ===== *)
(** * The optimizer keeps the policy

    The loops of src/firewall_config_optimize.go over rules: the removal of the
    rules that another rule subsumes, the merging of rules, and the theorems
    about the exported functions [Optimize] and [MergeFirewallConfigs]. *)

From Stdlib Require Import Ascii Btauto.
From stdpp Require Import sorting.
From S2P Require Import Prelude GoStd HostPort NetIP NetText PathMatch DNSCache Bytecode Machine AddrCache FirewallConfig FirewallOptimize FirewallPolicy.

(** ** Subsumption of rules *)

Lemma host_list_subsumes sel a b : wild_sel sel -> all_canon a -> all_canon b ->
  firewallHostsSubsumes a b = true -> hosts_select sel b = true -> hosts_select sel a = true.
Proof.
  intros [Hsel _] Ha Hb. unfold firewallHostsSubsumes, hosts_select. destruct (zlen a =? 0); [done|].
  destruct (zlen b =? 0); [done|]. cbn [orb]. rewrite forallb_forall, !existsb_exists.
  intros Hsub (h & Hh & Hs). destruct (proj1 (existsb_exists _ _) (Hsub h Hh)) as (c & Hc & Hcs).
  exists c. split; [done|]. destruct (decide (c = h)) as [->|Hne]; [done|].
  apply list_elem_of_In in Hc, Hh. unfold all_canon in *. rewrite Forall_forall in Ha, Hb.
  by apply (subsumes_spec c _ h _ sel (Ha c Hc) (Hb h Hh) Hne Hcs Hsel).
Qed.

(** The ports of a rule whose ranges are ordered, as one list of intervals. *)
Lemma ports_intervals port r : Forall ordered (fr_PortRanges r) ->
  ports_selected port (fr_Ports r) (fr_PortRanges r) =
  match firewallRulePortIntervals r with None => true | Some l => existsb (in_interval port) l end.
Proof.
  intros Ho. unfold ports_selected, firewallRulePortIntervals.
  destruct ((zlen (fr_Ports r) =? 0) && (zlen (fr_PortRanges r) =? 0)); [done|]. cbn [orb].
  rewrite existsb_app, existsb_map. f_equal.
  - apply existsb_ext. intros p. unfold in_interval. cbn. lia.
  - induction Ho as [|x l Hx Hl IH]; [done|]. cbn [existsb]. by rewrite IH, in_range_ordered.
Qed.

Lemma ports_subsume port a b : Forall ordered (fr_PortRanges a) -> Forall ordered (fr_PortRanges b) ->
  firewallPortsSubsume a b = true -> ports_selected port (fr_Ports b) (fr_PortRanges b) = true ->
  ports_selected port (fr_Ports a) (fr_PortRanges a) = true.
Proof.
  intros Ha Hb. rewrite !ports_intervals by done. unfold firewallPortsSubsume.
  destruct (firewallRulePortIntervals a) as [la|]; [|done]. destruct (firewallRulePortIntervals b) as [lb|]; [|done].
  rewrite forallb_forall, !existsb_exists. intros Hsub (i & Hi & Hp).
  destruct (proj1 (existsb_exists _ _) (Hsub i Hi)) as (j & Hj & Hle). exists j. split; [done|].
  unfold in_interval in *. lia.
Qed.

(** Rule [a] passes every query that rule [b] passes. *)
Definition covers (a b : FirewallRule) : Prop := forall t, good_tests t -> rule_passes t b = true -> rule_passes t a = true.

Lemma covers_trans a b c : covers a b -> covers b c -> covers a c.
Proof. unfold covers. auto. Qed.

Lemma rule_subsumes_covers a b : norm_rule a -> norm_rule b -> firewallRuleSubsumes a b = true -> covers a b.
Proof.
  intros [Na Ha La Ra] [Nb Hb Lb Rb]. unfold firewallRuleSubsumes. rewrite !andb_true_iff. intros [[[Hn Hh] Hl] Hp].
  intros t [Hpeer Hloc]. unfold rule_passes. rewrite !andb_true_iff. intros [[[Tn Tp] Tl] Th]. split_and!.
  - rewrite Na. rewrite Nb in Tn. by apply (network_subsumes_spec _ _ _ Hn).
  - by apply (ports_subsume _ a b).
  - unfold local_passes in *. destruct (t_local t); [|done]. by apply (host_list_subsumes _ _ _ Hloc La Lb).
  - by apply (host_list_subsumes _ _ _ Hpeer Ha Hb).
Qed.

(** *** The removal of subsumed rules *)

(** Every rule is covered by a rule that is still kept. *)
Definition covered (rules : list FirewallRule) (keep : list bool) : Prop :=
  forall j rj, rules !! j = Some rj -> exists i ri, rules !! i = Some ri /\ keep !! i = Some true /\ covers ri rj.

Lemma drop_subsumed_covered rules keep i : Forall norm_rule rules -> covered rules keep ->
  covered rules (drop_subsumed rules keep i).
Proof.
  intros Hn Hc. unfold drop_subsumed. destruct (rules !! i) as [ri|] eqn:Ei; [|done].
  destruct (keep !! i) as [[|]|] eqn:Ek; [|done|done]. intros j rj Hj. destruct (Hc j rj Hj) as (k & rk & Hk & Hkk & Hcov).
  destruct (negb (i =? k)%nat && firewallRuleSubsumes ri rk) eqn:Es.
  - apply andb_true_iff in Es as [_ Es]. exists i, ri. split; [done|]. split.
    + rewrite list_lookup_imap, Ek. cbn [fmap option_fmap option_map]. by rewrite Ei, Nat.eqb_refl.
    + rewrite Forall_forall in Hn. eapply covers_trans; [|exact Hcov].
      apply rule_subsumes_covers; [apply Hn; by eapply list_elem_of_lookup_2..|done].
  - exists k, rk. split; [done|]. split; [|done]. rewrite list_lookup_imap, Hkk. cbn [fmap option_fmap option_map].
    by rewrite Hk, Es.
Qed.

Lemma kept_spec rules keep r : r ∈ kept_rules rules keep <-> exists i, rules !! i = Some r /\ keep !! i = Some true.
Proof.
  unfold kept_rules. revert keep. induction rules as [|x rules IH]; intros keep.
  { split; [by intros ?%elem_of_nil|]. by intros (i & Hi & _). }
  destruct keep as [|k keep].
  { split; [by intros ?%elem_of_nil|]. by intros (i & _ & Hi). }
  cbn [zip zip_with List.filter snd]. destruct k; cbn [map fst]; rewrite ?elem_of_cons, IH.
  - split; [intros [->|(i & Hi)]; [by exists 0%nat|by exists (S i)]|]. intros ([|i] & Hi & Hk); [left|right]; [by simplify_eq/=|].
    by exists i.
  - split; [intros (i & Hi); by exists (S i)|]. intros ([|i] & Hi & Hk); [done|]. by exists i.
Qed.

Lemma kept_length rules keep : (length (kept_rules rules keep) <= length rules)%nat.
Proof.
  unfold kept_rules. rewrite length_map. revert keep. induction rules as [|x rules IH]; intros [|k keep]; cbn; [lia..|].
  specialize (IH keep). destruct k; cbn; lia.
Qed.

Lemma remove_rules_spec rules : Forall norm_rule rules ->
  (length (removeSubsumedFirewallRules rules) <= length rules)%nat /\
  Forall norm_rule (removeSubsumedFirewallRules rules) /\
  forall t, good_tests t -> existsb (rule_passes t) (removeSubsumedFirewallRules rules) = existsb (rule_passes t) rules.
Proof.
  intros Hn. unfold removeSubsumedFirewallRules. split; [apply kept_length|]. set (keep := fold_left _ _ _).
  assert (Hc : covered rules keep).
  { unfold keep. assert (H0 : covered rules (replicate (length rules) true)).
    { intros j rj Hj. exists j, rj. split_and!; [done| |by intros t]. apply lookup_replicate. split; [done|].
      by apply lookup_lt_is_Some; exists rj. }
    revert H0. generalize (replicate (length rules) true). induction (seq 0 (length rules)) as [|i l IH]; intros k Hk; [done|].
    cbn [fold_left]. by apply IH, drop_subsumed_covered. }
  split.
  - rewrite Forall_forall in *. intros r (i & Hi & _)%kept_spec. apply Hn. by eapply list_elem_of_lookup_2.
  - intros t Ht. apply eq_bool_prop_intro. rewrite !Is_true_true, !existsb_exists. split; intros (r & Hr & Hp); apply list_elem_of_In in Hr.
    + apply kept_spec in Hr as (i & Hi & _). exists r. split; [|done]. apply list_elem_of_In. by eapply list_elem_of_lookup_2.
    + apply list_elem_of_lookup in Hr as [j Hj]. destruct (Hc j r Hj) as (i & ri & Hi & Hk & Hcov). exists ri.
      split; [apply list_elem_of_In, kept_spec; by exists i|by apply Hcov].
Qed.

(** ** Merging rules *)

(** The ports of a merged rule. *)
Lemma merge_ports pa ra pb rb :
  let '(ps, rs) := if (zlen pa =? 0) && (zlen ra =? 0) || (zlen pb =? 0) && (zlen rb =? 0) then ([], [])
                   else canonicalFirewallPorts (pa ++ pb) (ra ++ rb) in
  Forall ordered rs /\ forall port, ports_selected port ps rs = ports_selected port pa ra || ports_selected port pb rb.
Proof.
  destruct ((zlen pa =? 0) && (zlen ra =? 0) || (zlen pb =? 0) && (zlen rb =? 0)) eqn:E0.
  - split; [constructor|]. intros port. unfold ports_selected at 1. cbn [existsb]. symmetry.
    change (zlen (@nil Z) =? 0) with true. change (zlen (@nil FirewallPortRange) =? 0) with true. cbn [andb orb].
    unfold ports_selected. apply orb_true_iff in E0 as [-> | ->]; [done|by rewrite !orb_true_r].
  - pose proof (canonicalFirewallPorts_spec (pa ++ pb) (ra ++ rb)) as Hs.
    destruct (canonicalFirewallPorts (pa ++ pb) (ra ++ rb)) as [ps rs]. destruct Hs as [Ho Hs]. split; [done|].
    intros port. rewrite Hs. apply orb_false_iff in E0 as [Ea Eb]. unfold ports_selected.
    assert (Eab : (zlen (pa ++ pb) =? 0) && (zlen (ra ++ rb) =? 0) = false).
    { unfold zlen in *. rewrite !length_app. apply andb_false_iff. apply andb_false_iff in Ea as [Ea|Ea];
      apply Z.eqb_neq in Ea; [left|right]; apply Z.eqb_neq; lia. }
    rewrite Eab, Ea, Eb, !existsb_app. cbn [orb].
    by destruct (existsb _ pa), (existsb _ pb), (existsb _ ra), (existsb _ rb).
Qed.

Lemma mergeFirewallRules_spec a b c : norm_rule a -> norm_rule b -> mergeFirewallRules a b = Some c ->
  norm_rule c /\ forall t, good_tests t -> rule_passes t c = rule_passes t a || rule_passes t b.
Proof.
  intros [Na Ha La Ra] [Nb Hb Lb Rb]. unfold mergeFirewallRules.
  destruct a as [na ha la pa ra], b as [nb hb lb pb rb]. cbn [fr_Network fr_Hosts fr_LocalHosts fr_Ports fr_PortRanges] in *.
  destruct (String.eqb_spec na nb) as [<-|]; cbn [negb]; [|done]. intros Hc.
  pose proof (merge_ports pa ra pb rb) as Hm. pose proof (merge_hosts_spec _ _ Ha Hb) as [Mh Sh].
  pose proof (merge_hosts_spec _ _ La Lb) as [Ml Sl].
  repeat case_bool_decide; cbn [andb] in Hc; subst; try discriminate Hc.
  all: try match type of Hc with (let '(_, _) := ?x in _) = _ => destruct x as [ps rs]; destruct Hm as [Ho Hm] end.
  all: injection Hc as <-; split; [by constructor|]; intros t [Hpeer Hloc]; unfold rule_passes, local_passes, rule_network in *.
  all: cbn [fr_Network fr_Hosts fr_LocalHosts fr_Ports fr_PortRanges] in *; rewrite Na; destruct (t_local t).
  all: rewrite ?Hm, ?(Sh _ Hpeer), ?(Sl _ Hloc); btauto.
Qed.

Lemma merge_with_spec a rules c rest : norm_rule a -> Forall norm_rule rules -> merge_with a rules = Some (c, rest) ->
  norm_rule c /\ Forall norm_rule rest /\ length rules = S (length rest) /\
  forall t, good_tests t -> rule_passes t c || existsb (rule_passes t) rest = rule_passes t a || existsb (rule_passes t) rules.
Proof.
  intros Ha Hn. revert c rest. induction Hn as [|b rules Hb Hn IH]; intros c rest; cbn [merge_with]; [done|].
  destruct (mergeFirewallRules a b) as [m|] eqn:Em.
  - intros [= <- <-]. destruct (mergeFirewallRules_spec a b m Ha Hb Em) as [Hm Hs]. split_and!; [done..|].
    intros t Ht. cbn [existsb]. by rewrite Hs, orb_assoc.
  - destruct (merge_with a rules) as [[c' l]|]; [|done]. intros [= <- <-]. destruct (IH c' l eq_refl) as (Hc & Hl & Hlen & Hs).
    split_and!; [done|by constructor|cbn; lia|]. intros t Ht. cbn [existsb]. specialize (Hs t Ht).
    rewrite orb_assoc, (orb_comm (rule_passes t c')), <- orb_assoc, Hs. btauto.
Qed.

Lemma merge_first_spec rules merged : Forall norm_rule rules -> merge_first rules = Some merged ->
  Forall norm_rule merged /\ length rules = S (length merged) /\
  forall t, good_tests t -> existsb (rule_passes t) merged = existsb (rule_passes t) rules.
Proof.
  intros Hn. revert merged. induction Hn as [|a rules Ha Hn IH]; intros merged; cbn [merge_first]; [done|].
  destruct (merge_with a rules) as [[c rest]|] eqn:Ew.
  - intros [= <-]. destruct (merge_with_spec a rules c rest Ha Hn Ew) as (Hc & Hr & Hlen & Hs).
    split_and!; [by constructor|cbn; lia|]. intros t Ht. cbn [existsb]. by apply Hs.
  - destruct (merge_first rules) as [l|]; [|done]. intros [= <-]. destruct (IH l eq_refl) as (Hl & Hlen & Hs).
    split_and!; [by constructor|cbn; lia|]. intros t Ht. cbn [existsb]. by rewrite Hs.
Qed.

(** The loop ends within the length of the list. *)
Lemma merge_loop_spec fuel rules : Forall norm_rule rules -> (length rules < fuel)%nat ->
  exists l, merge_loop fuel rules = Done l /\ (length l <= length rules)%nat /\ merge_first l = None /\
  forall t, good_tests t -> existsb (rule_passes t) l = existsb (rule_passes t) rules.
Proof.
  revert rules. induction fuel as [|fuel IH]; intros rules Hn Hf; [lia|]. cbn [merge_loop].
  destruct (merge_first rules) as [merged|] eqn:Em; [|by exists rules].
  destruct (merge_first_spec _ _ Hn Em) as (Hm & Hlen & Hs). destruct (remove_rules_spec merged Hm) as (Hl & Hr & Hp).
  destruct (IH (removeSubsumedFirewallRules merged) Hr) as (l & -> & Hll & Hd & Hsl); [lia|].
  exists l. split_and!; [done|lia|done|]. intros t Ht. by rewrite Hsl, Hp, Hs.
Qed.

Lemma canonical_rules_length rules m : (length (canonical_rules rules m) <= length rules)%nat.
Proof.
  unfold canonical_rules. induction rules as [|r rules IH]; [done|]. cbn [flat_map length]. rewrite length_app.
  destruct (canonicalFirewallRule r m); cbn [length]; lia.
Qed.

Lemma optimizeFirewallRules_spec rules matchLocal : forallb plain_rule rules = true ->
  exists l, optimizeFirewallRules rules matchLocal = Done l /\ (length l <= length rules)%nat /\
  forall t, good_tests t -> tests_local matchLocal t -> existsb (rule_passes t) l = existsb (rule_passes t) rules.
Proof.
  intros Hp. destruct (canonical_rules_spec rules matchLocal Hp) as [Hn Hs]. unfold optimizeFirewallRules.
  destruct (remove_rules_spec _ Hn) as (Hl & Hr & Hrs). set (opt := removeSubsumedFirewallRules _) in *.
  destruct (merge_loop_spec (S (length opt)) opt Hr) as (l & -> & Hll & _ & Hsl); [lia|]. cbn [run_bind].
  exists (merge_sort rule_le l). split; [done|]. split.
  - rewrite merge_sort_Permutation. pose proof (canonical_rules_length rules matchLocal). lia.
  - intros t Ht Hloc. rewrite (existsb_mem _ _ l); [by rewrite Hsl, Hrs, Hs|]. intros x.
    apply elem_of_Permutation_proper, merge_sort_Permutation.
Qed.

(** ** The exported functions *)

Section Configs.
Context {HE : HostEnv}.

(** The addresses of a query have no zone. *)
Lemma unmap_without_zone a : hasZone (normalizeFirewallAddr a) = false.
Proof. unfold normalizeFirewallAddr. by destruct (Unmap a). Qed.

Lemma parsed_no_zone now host : hasZone (fh_addr (parseFirewallHost now host)) = false.
Proof.
  unfold parseFirewallHost. destruct (Cut _ _) as [[? ?] ok]. destruct (negb _); [done|].
  destruct (ParseAddr _); [apply unmap_without_zone|done].
Qed.

Definition query_ok (x : question) (q : query) : Prop :=
  hasZone (fh_addr (q_peer q)) = false /\
  match q_local q with
  | LIgnored => outgoing x = true
  | LUnknown => outgoing x = false
  | LKnown h => outgoing x = false /\ hasZone (fh_addr h) = false
  end.

Lemma question_query_ok now lnow x q : question_query now lnow x = Some q -> query_ok x q.
Proof.
  pose proof unmap_without_zone as Hu. pose proof parsed_no_zone as Hp. intros Hq.
  destruct x as [n a|n a p|pr a p|n a l|n a p l|pr a p l]; cbn [question_query] in Hq; repeat case_match;
    simplify_eq; unfold query_ok; cbn [q_peer q_local host_of_addr fh_addr outgoing]; auto.
Qed.

Lemma query_tests dns x q : query_ok x q ->
  good_tests (tests_of dns q) /\ tests_local (negb (outgoing x)) (tests_of dns q).
Proof.
  intros [Hz Hl]. unfold good_tests, tests_local, tests_of. cbn [t_peer t_local].
  pose proof (wild_kind_selects dns (q_peer q) Hz) as Hw. destruct (q_local q) as [| |h].
  - by rewrite Hl.
  - rewrite Hl. cbn [negb]. split; [split; [done|apply wild_is_any]|by eexists].
  - destruct Hl as [-> Hh]. cbn [negb]. split; [split; [done|by apply wild_kind_selects]|by eexists].
Qed.

Definition plain_config (cfg : FirewallConfig) : bool :=
  forallb plain_rule (fc_Exclude cfg) && forallb plain_rule (fc_Include cfg).

Lemma policy_passes dns rules q : policy_matches dns rules q = existsb (rule_passes (tests_of dns q)) rules.
Proof. apply existsb_ext. intros r. apply rule_selects_passes. Qed.

(** The optimized rules, and what they select. *)
Lemma Optimize_spec cfg : plain_config cfg = true -> exists c, Optimize (Some cfg) = Done c /\
  config_ok c /\ fc_ResponseTTL c = fc_ResponseTTL cfg /\ fc_DNSCache c = fc_DNSCache cfg /\
  (length (fc_Exclude c) <= length (fc_Exclude cfg))%nat /\ (length (fc_Include c) <= length (fc_Include cfg))%nat /\
  forall dns x q, query_ok x q -> policy_matches dns (asked_rules c x) q = policy_matches dns (asked_rules cfg x) q.
Proof.
  unfold plain_config. intros [Hx Hi]%andb_true_iff.
  destruct (optimizeFirewallRules_spec _ false Hx) as (ex & Ex & Lx & Sx).
  destruct (optimizeFirewallRules_spec _ true Hi) as (inc & Ei & Li & Si). unfold Optimize. rewrite Ex, Ei. cbn [run_bind].
  eexists. split; [done|]. cbn [fc_ResponseTTL fc_DNSCache fc_Exclude fc_Include].
  split; [by split; intros rules [= <-]|]. split_and!; [done..|]. intros dns x q Hq.
  rewrite !policy_passes. destruct (query_tests dns x q Hq) as [Ht Hl]. unfold asked_rules. cbn [fc_Exclude fc_Include].
  destruct (outgoing x); [by apply Sx|by apply Si].
Qed.

Lemma ask_none now lnow x : ask None now lnow x = false.
Proof.
  transitivity (ask (Some (cloneFirewallConfig None)) now lnow x); [by destruct x|]. rewrite ask_spec by apply clone_ok.
  destruct (question_query now lnow x); [|done]. unfold asked_rules. by destruct (outgoing x).
Qed.

(** *** Unions *)

(** The rules of a list of configurations, and its first DNS cache. *)
Definition all_exclude (configs : list (option FirewallConfig)) : list FirewallRule :=
  flat_map (fun o => match o with Some c => fc_Exclude c | None => [] end) configs.
Definition all_include (configs : list (option FirewallConfig)) : list FirewallRule :=
  flat_map (fun o => match o with Some c => fc_Include c | None => [] end) configs.

Fixpoint first_dns (configs : list (option FirewallConfig)) : option FirewallDNSCache :=
  match configs with
  | [] => None
  | Some c :: configs' => match fc_DNSCache c with Some d => Some d | None => first_dns configs' end
  | None :: configs' => first_dns configs'
  end.

(** The longest effective time to live, zero without a configuration. *)
Fixpoint longest_ttl (configs : list (option FirewallConfig)) : Z :=
  match configs with
  | [] => 0
  | Some c :: configs' => Z.max (responseTTL (Some c)) (longest_ttl configs')
  | None :: configs' => longest_ttl configs'
  end.

Lemma responseTTL_pos c : 0 < responseTTL c.
Proof. unfold responseTTL. destruct c as [c|]; [|done]. destruct (Z.leb_spec (fc_ResponseTTL c) 0); [done|lia]. Qed.

Lemma longest_ttl_nonneg configs : 0 <= longest_ttl configs.
Proof. induction configs as [|[c|] configs IH]; cbn [longest_ttl]; lia. Qed.

(** The effective value of a selected time to live. *)
Definition effective (ttl : Z) : Z := if ttl <=? 0 then defaultFirewallResponseTTL else ttl.

(** The selected time to live of a fold over configurations. *)
Definition ttl_ok (s : merge_state) : Prop :=
  0 <= ms_longestTTL s /\ effective (ms_selectedTTL s) = if ms_longestTTL s =? 0 then defaultFirewallResponseTTL else ms_longestTTL s.

Lemma merge_config_ttl s c : ttl_ok s -> ttl_ok (merge_config s (Some c)).
Proof.
  intros [H0 Ht]. unfold merge_config. pose proof (responseTTL_pos (Some c)).
  destruct (Z.ltb_spec (ms_longestTTL s) (responseTTL (Some c))) as [Hlt|]; [|done]. split; cbn [ms_longestTTL ms_selectedTTL]; [lia|].
  rewrite (proj2 (Z.eqb_neq _ 0)) by lia. reflexivity.
Qed.

Lemma merge_configs_fold configs s : ttl_ok s ->
  let s' := fold_left merge_config configs s in
  fc_Exclude (ms_merged s') = fc_Exclude (ms_merged s) ++ all_exclude configs /\
  fc_Include (ms_merged s') = fc_Include (ms_merged s) ++ all_include configs /\
  fc_DNSCache (ms_merged s') = match fc_DNSCache (ms_merged s) with Some d => Some d | None => first_dns configs end /\
  ms_longestTTL s' = Z.max (ms_longestTTL s) (longest_ttl configs) /\
  ttl_ok s'.
Proof.
  revert s. induction configs as [|[c|] configs IH]; intros s Ht.
  - cbn. rewrite !app_nil_r. destruct Ht as [H0 Ht]. split_and!; [done..| |lia|by split]. by destruct (fc_DNSCache _).
  - cbn [fold_left]. destruct (IH (merge_config s (Some c))) as (-> & -> & -> & -> & Hs).
    + by apply merge_config_ttl.
    + unfold all_exclude, all_include. cbn [flat_map first_dns longest_ttl]. rewrite !app_assoc.
      split_and!; [| | | |exact Hs]; unfold merge_config;
        destruct (Z.ltb_spec (ms_longestTTL s) (responseTTL (Some c))); cbn [ms_merged ms_longestTTL fc_Exclude fc_Include fc_DNSCache];
        try done; try lia; by destruct (fc_DNSCache (ms_merged s)).
  - by apply IH.
Qed.

Lemma policy_app dns l1 l2 q : policy_matches dns (l1 ++ l2) q = policy_matches dns l1 q || policy_matches dns l2 q.
Proof. apply existsb_app. Qed.

(** The configuration with another DNS cache. *)
Definition with_dns (dns : option FirewallDNSCache) (cfg : option FirewallConfig) : option FirewallConfig :=
  match cfg with
  | None => None
  | Some c => Some (MkConfig (fc_Exclude c) (fc_Include c) (fc_ResponseTTL c) dns (fc_exclude c) (fc_include c))
  end.

Definition given_ok (o : option FirewallConfig) : Prop :=
  match o with None => True | Some c => config_ok c /\ plain_config c = true end.

Lemma all_rules_plain configs : Forall given_ok configs ->
  forallb plain_rule (all_exclude configs) = true /\ forallb plain_rule (all_include configs) = true.
Proof.
  induction 1 as [|[c|] configs Hc Hcs [IHx IHi]]; [done| |done]. unfold all_exclude, all_include. cbn [flat_map].
  destruct Hc as [_ Hc]. unfold plain_config in Hc. apply andb_true_iff in Hc as [Hx Hi].
  rewrite !forallb_app, Hx, Hi. done.
Qed.

Lemma all_rules_asked dns configs now lnow x : Forall given_ok configs ->
  match question_query now lnow x with
  | None => false
  | Some q => policy_matches dns (if outgoing x then all_exclude configs else all_include configs) q
  end = existsb (fun o => ask (with_dns dns o) now lnow x) configs.
Proof.
  induction 1 as [|[c|] configs Hc Hcs IH].
  - destruct (question_query now lnow x); [|done]. by destruct (outgoing x).
  - cbn [existsb with_dns]. rewrite <- IH, ask_spec by apply Hc. unfold asked_rules, all_exclude, all_include.
    cbn [fc_DNSCache fc_Exclude fc_Include flat_map]. destruct (question_query now lnow x); [|done].
    destruct (outgoing x); apply policy_app.
  - cbn [existsb with_dns]. rewrite ask_none. exact IH.
Qed.
End Configs.

(** ** Examples *)

(** A host whose resolver knows no services, and rules that overlap. *)
Definition no_services : HostEnv := {| resolver_LookupPort := fun _ _ => None |}.

Definition rule_of (network : string) (hosts : list string) (ports : list Z) (ranges : list FirewallPortRange) : FirewallRule :=
  MkRule network hosts [] ports ranges.

Definition overlapping : FirewallConfig :=
  MkConfig
    [rule_of "TCP" ["10.0.0.0/8"; "10.1.2.3"; "*.Example.com."] [80] [MkRange 90 81];
     rule_of "tcp4" ["10.2.0.0/16"] [80; 85] [];
     rule_of "tcp" ["10.0.0.0/8"; "*.example.com"] [] [MkRange 91 100]]
    [MkRule "udp" [] ["10.0.0.1"] [53] []; MkRule "udp" [] ["10.0.0.2"] [53] []]
    0 None None None.

Definition excluding (hosts : list string) : FirewallConfig := MkConfig [rule_of "tcp" hosts [] []] [] 0 None None None.

(** Two configurations with different response times. *)
Definition patient : FirewallConfig := MkConfig [rule_of "udp" ["8.8.8.8"] [53] []] [] 300000000000 None None None.

(** ** Theorems *)



(** MergeFirewallConfigs returns the union of the given configurations: an
    outgoing endpoint is blocked by it exactly when one of them blocks it, and
    an incoming one is allowed exactly when one of them allows it, nil
    configurations aside and with host names looked up in the first DNS cache
    given.  Its response time is the longest of theirs, two minutes when there
    are none. *)
Theorem merge_is_union (HE : HostEnv) configs : Forall given_ok configs ->
  exists c, MergeFirewallConfigs configs = Done c /\
    fc_DNSCache c = first_dns configs /\
    (forall now lnow x, ask (Some c) now lnow x = existsb (fun o => ask (with_dns (first_dns configs) o) now lnow x) configs) /\
    responseTTL (Some c) = (if longest_ttl configs =? 0 then defaultFirewallResponseTTL else longest_ttl configs).
Proof.
  intros Hg. unfold MergeFirewallConfigs. set (s0 := MkMerge _ _ _).
  destruct (merge_configs_fold configs s0) as (Hx & Hi & Hd & Hl & _ & Ht); [done|].
  set (s := fold_left merge_config configs s0) in *. cbn in Hx, Hi, Hd. destruct (all_rules_plain configs Hg) as [Px Pi].
  destruct (Optimize_spec (MkConfig (fc_Exclude (ms_merged s)) (fc_Include (ms_merged s)) (ms_selectedTTL s)
    (fc_DNSCache (ms_merged s)) None None)) as (c & Hc & Hcok & Httl & Hdns & _ & _ & Hs).
  { unfold plain_config. cbn [fc_Exclude fc_Include]. by rewrite Hx, Hi, Px, Pi. }
  exists c. split; [done|]. cbn [fc_DNSCache] in Hdns. split; [by rewrite Hdns, Hd|]. split.
  - intros now lnow x. rewrite ask_spec, Hdns, Hd, <- all_rules_asked by done.
    destruct (question_query now lnow x) as [q|] eqn:Eq; [|done]. rewrite (Hs _ x q) by by apply (question_query_ok now lnow).
    unfold asked_rules. cbn [fc_Exclude fc_Include]. by rewrite Hx, Hi.
  - unfold responseTTL. rewrite Httl. cbn [fc_ResponseTTL]. fold (effective (ms_selectedTTL s)).
    rewrite Ht, Hl. cbn [s0 ms_longestTTL]. by rewrite Z.max_r by apply longest_ttl_nonneg.
Qed.

Lemma merge_is_union_witness : exists c,
  MergeFirewallConfigs [Some overlapping; None; Some patient] = Done c /\
  responseTTL (Some c) = 300000000000 /\
  @ask no_services (Some c) 0 0 (OutgoingText "udp" "8.8.8.8:53") = true /\
  @ask no_services (Some c) 0 0 (OutgoingText "tcp" "10.0.0.1:80") = true.
Proof.
  destruct (merge_is_union no_services [Some overlapping; None; Some patient]) as (c & Hc & _ & Ha & Ht).
  { repeat constructor; try by intros ? [=]. }
  exists c. rewrite Ht, !Ha. split; [exact Hc|]. clear. split_and!; vm_compute; reflexivity.
Defined.

(** Outside the entries of [plain_config] Optimize changes the policy, in
    both directions: a host name with a percent sign is cut at it and starts to
    block the shorter name, an entry that ends in a space and a dot becomes the
    wildcard and starts to block every host, and a pattern with an escape is
    taken for the literal text it is written as, dropped as subsumed, and no
    longer blocks. *)
Theorem optimize_changes_policy : exists percentHost spacedDot escaped,
  let blocks (c : FirewallConfig) (address : string) := @ask no_services (Some c) 0 0 (OutgoingText "tcp4" address) in
  Optimize (Some (excluding ["foo%bar"])) = Done percentHost /\
  blocks (excluding ["foo%bar"]) "foo:80" = false /\ blocks percentHost "foo:80" = true /\
  Optimize (Some (excluding ["* ."])) = Done spacedDot /\
  blocks (excluding ["* ."]) "10.0.0.1:80" = false /\ blocks spacedDot "10.0.0.1:80" = true /\
  Optimize (Some (excluding ["fo?o"; "fo\o"])) = Done escaped /\
  blocks (excluding ["fo?o"; "fo\o"]) "foo:80" = true /\ blocks escaped "foo:80" = false.
Proof.
  set (opt hosts := match Optimize (Some (excluding hosts)) with Done c => c | _ => overlapping end).
  exists (opt ["foo%bar"]), (opt ["* ."]), (opt ["fo?o"; "fo\o"]). unfold opt. split_and!; vm_compute; reflexivity.
Qed.
