(* ===== verification/ResponseTable.v ===== *)
(** * The response tables of the firewalls

    src/firewall.go keeps, per packet connection, the peers that datagrams were
    sent to, and src/tun/firewall.go the flows of outgoing packets, both as a
    map from a key to the time in nanoseconds when the entry expires, with a
    counter that triggers a cleaning every 256 records
    ([recordResponseKey], [hasResponse], [deleteExpiredResponsesLocked] and
    their counterparts of the tun firewall).

    The abstract table is the history of the records: a key is alive while its
    latest record has not expired.  The concrete table answers as the abstract
    one as long as the clock does not go back. *)

From stdpp Require Import gmap fin_maps.
From S2P Require Import Prelude.

Section Table.
Context {K : Type} `{Countable K}.

Record responses : Type := MkResponses { rs_entries : gmap K Z; rs_recorded : Z }.

Definition no_responses : responses := MkResponses ∅ 0.

Definition delete_expired (now : Z) (m : gmap K Z) : gmap K Z := filter (fun e => now <= e.2) m.

Definition record_response (key : K) (ttl now : Z) (t : responses) : responses :=
  let m := <[key := i64 (now + ttl)]> (rs_entries t) in
  let recorded := u64 (rs_recorded t + 1) in
  MkResponses (if recorded mod 256 =? 0 then delete_expired now m else m) recorded.

Definition has_response (key : K) (now : Z) (t : responses) : bool * responses :=
  match rs_entries t !! key with
  | None => (false, t)
  | Some expires =>
      if now <=? expires then (true, t)
      else (false, MkResponses (delete key (rs_entries t)) (rs_recorded t))
  end.

(** ** The history of the records *)

Definition history : Type := list (K * Z).

Fixpoint latest (h : history) (key : K) : option Z :=
  match h with
  | [] => None
  | (k, expires) :: h' => if decide (k = key) then Some expires else latest h' key
  end.

Definition alive (h : history) (key : K) (now : Z) : bool :=
  match latest h key with Some expires => now <=? expires | None => false end.

(** A missing entry has no record, or its latest record has expired. *)
Definition table_ok (h : history) (t : responses) (now : Z) : Prop :=
  forall key, match rs_entries t !! key with
              | Some expires => latest h key = Some expires
              | None => forall expires, latest h key = Some expires -> expires < now
              end.

Lemma table_ok_later h t now later : table_ok h t now -> now <= later -> table_ok h t later.
Proof. intros Ht Hle key. specialize (Ht key). destruct (rs_entries t !! key); [done|]. intros e He. specialize (Ht e He). lia. Qed.

Lemma no_responses_ok now : table_ok [] no_responses now.
Proof. intros key. cbn [no_responses rs_entries]. by rewrite lookup_empty. Qed.

Lemma has_response_spec h t now key : table_ok h t now ->
  (has_response key now t).1 = alive h key now /\ table_ok h (has_response key now t).2 now.
Proof.
  intros Ht. unfold has_response, alive. pose proof (Ht key) as Hk. destruct (rs_entries t !! key) as [e|] eqn:Ek.
  - rewrite Hk. destruct (Z.leb_spec now e) as [Hle|Hlt]; [done|]. split; [done|]. intros k. cbn [snd rs_entries].
    destruct (decide (k = key)) as [->|Hne]; [|rewrite lookup_delete_ne by done; apply Ht].
    rewrite lookup_delete_eq. intros e' He'. congruence.
  - split; [|done]. cbn [fst]. destruct (latest h key) as [e|]; [|done]. specialize (Hk e eq_refl). symmetry.
    apply Z.leb_gt. lia.
Qed.

Lemma delete_expired_ok h m n now : table_ok h (MkResponses m n) now -> table_ok h (MkResponses (delete_expired now m) n) now.
Proof.
  intros Ht key. specialize (Ht key). cbn [rs_entries] in *. unfold delete_expired.
  destruct (m !! key) as [e|] eqn:Em.
  - destruct (decide (now <= e)) as [Hle|Hgt].
    + by rewrite (map_lookup_filter_Some_2 _ _ _ _ Em).
    + rewrite (map_lookup_filter_None_2 _ _ key); [intros e' He'; simplify_eq; lia|]. right. intros x Hx. by simplify_eq.
  - rewrite (map_lookup_filter_None_2 _ _ key); [done|by left].
Qed.

Lemma record_response_spec h t key ttl now : table_ok h t now ->
  table_ok ((key, i64 (now + ttl)) :: h) (record_response key ttl now t) now.
Proof.
  intros Ht. assert (Hi : table_ok ((key, i64 (now + ttl)) :: h)
    (MkResponses (<[key := i64 (now + ttl)]> (rs_entries t)) (u64 (rs_recorded t + 1))) now).
  { intros k. cbn [rs_entries latest]. destruct (decide (key = k)) as [->|Hne].
    - by rewrite lookup_insert_eq.
    - rewrite lookup_insert_ne by done. apply Ht. }
  unfold record_response. destruct (_ =? 0); [by apply delete_expired_ok|done].
Qed.

(** The table never holds an entry that was not recorded. *)
Lemma alive_recorded h key now : alive h key now = true -> exists expires, (key, expires) ∈ h /\ now <= expires.
Proof.
  unfold alive. destruct (latest h key) as [e|] eqn:El; [|done]. intros Hle%Z.leb_le. exists e. split; [|done].
  revert El. induction h as [|[k x] h IH]; cbn [latest]; [done|]. destruct (decide (k = key)) as [->|].
  - intros [= ->]. by left.
  - intros Hl. right. by apply IH.
Qed.
End Table.

Arguments responses K {_ _}.
Arguments history K : clear implicits.
