(* ===== verification/Firewall.v ===== *)
(** * The network firewall

    Models src/firewall.go.  A [Firewall] wraps a network: dial operations are
    checked against the outgoing rules, accepted connections against the
    incoming rules, and packet connections check every datagram in both
    directions, with a table of the peers whose responses are expected
    (ResponseTable.v).

    The wrapped network and its connections are not code of the repository's
    core: a dialled or listening operation is a function from the call to its
    result, and a read loop consumes the list of the results that the wrapped
    connection returns, one per iteration, which ends where the loop would
    block.  What one iteration observes of its surroundings (the active
    configuration, the addresses of the connection, the readings of the clock)
    is its [view]; a configuration that is replaced while the loop runs is a
    different view in the next iteration. *)

From Stdlib Require Import Ascii.
From stdpp Require Import gmap sorting.
From S2P Require Import Prelude GoStd HostPort NetIP NetText PathMatch DNSCache Bytecode Machine AddrCache FirewallConfig FirewallOptimize FirewallPolicy FirewallMerge ResponseTable.

(** ** Addresses of connections *)

Definition AddrPort : Type := Addr * Z.

(** [netip.ParseAddrPort]. *)
Definition splitAddrPort (s : string) : option (string * string * bool) :=
  let i := LastIndexByte s colon in
  if i =? -1 then None
  else
    let ip := stake i s in
    let port := sdrop (i + 1) s in
    if String.eqb ip "" || String.eqb port "" then None
    else match ip with
         | String c _ =>
             if c =a lbracket then
               if (slen ip <? 2) || negb (match sget ip (slen ip - 1) with Some d => d =a rbracket | None => false end)
               then None else Some (stake (slen ip - 2) (sdrop 1 ip), port, true)
             else Some (ip, port, false)
         | EmptyString => None
         end.

Definition ParseAddrPort (s : string) : option AddrPort :=
  match splitAddrPort s with
  | None => None
  | Some (ip, port, v6) =>
      match ParseUint port 16, ParseAddr ip with
      | Some port, Some ip => if v6 && Is4 ip || negb v6 && Is6 ip then None else Some (ip, port)
      | _, _ => None
      end
  end.

Definition WithZone (a : Addr) (zone : string) : Addr := match a with Addr6 v _ => Addr6 v zone | _ => a end.

(** The [AddrPort] methods of the addresses of the [net] package. *)
Definition slice_AddrPort (ip : list byte) (port : Z) (zone : string) : AddrPort :=
  (match AddrFromSlice ip with Some a => WithZone a zone | None => AddrZero end, u16 port).

(** A nil [*net.UDPAddr] in a [net.Addr] is not a nil interface: it prints as
    [<nil>] and has no valid endpoint. *)
Definition nil_udp : netAddr := OtherAddr "<nil>".

Definition firewallAddrPort (addr : option netAddr) : option AddrPort :=
  match addr with
  | None => None
  | Some (TCPAddr ip port zone) | Some (UDPAddr ip port zone) =>
      let endpoint := slice_AddrPort ip port zone in if IsValid endpoint.1 then Some endpoint else None
  | Some addr => ParseAddrPort (netAddr_String addr)
  end.

Definition normalizePeerAddrPort (addr : AddrPort) : AddrPort := (Unmap addr.1, addr.2).

(** [net.UDPAddrFromAddrPort], through the methods that the firewall calls. *)
Definition UDPAddrFromAddrPort (addr : AddrPort) : netAddr :=
  UDPAddr (addr_bytes addr.1) addr.2 (match addr.1 with Addr6 _ zone => zone | _ => "" end).

Record firewallPeerKey : Type := MkKey { pk_addr : AddrPort; pk_name : string }.

#[global] Instance firewallPeerKey_eq_dec : EqDecision firewallPeerKey.
Proof. solve_decision. Defined.

#[global] Instance firewallPeerKey_countable : Countable firewallPeerKey.
Proof. refine (inj_countable' (fun k => (pk_addr k, pk_name k)) (fun p => MkKey p.1 p.2) _). by intros []. Defined.

Definition makeFirewallPeerKey (addr : option netAddr) : option firewallPeerKey :=
  match addr with
  | None => None
  | Some a =>
      match firewallAddrPort (Some a) with
      | Some endpoint => Some (MkKey (normalizePeerAddrPort endpoint) "")
      | None =>
          let name := ToLower (netAddr_String a) in
          if String.eqb name "" then None else Some (MkKey (AddrZero, 0) name)
      end
  end.

Definition splitAddrHostPort (addr : option netAddr) : string * string :=
  match addr with
  | None => ("", "")
  | Some a => match SplitHostPort (netAddr_String a) with Some hp => hp | None => (netAddr_String a, "") end
  end.

Definition firewallPolicyAddress (peer local : option netAddr) : string :=
  JoinHostPort (splitAddrHostPort peer).1 (splitAddrHostPort local).2.

Definition isFirewallUDPNetwork (network : string) : bool := HasPrefix (ToLower network) "udp".

(** ** The firewall *)

(** The error of a denied operation, whose [Err] is [ErrFirewallDenied]; any
    other error comes from the wrapped network. *)
Record opError : Type := MkOpError { oe_Op : string; oe_Net : string; oe_Addr : netAddr }.

Inductive netError : Type := Denied (e : opError) | Inner (text : string).

Record Firewall : Type := MkFirewall { fw_config : FirewallConfig }.

Definition NewFirewall (cfg : option FirewallConfig) : run Firewall :=
  let! c := Optimize cfg in Done (MkFirewall c).

Definition SetConfig (f : Firewall) (cfg : option FirewallConfig) : run Firewall :=
  let! c := Optimize cfg in Done (MkFirewall c).

Definition GetConfig (f : Firewall) : FirewallConfig := cloneFirewallConfig (Some (fw_config f)).

Definition IsNative (f : Firewall) : bool := false.

(** The optional interfaces of the wrapped network: a missing method does
    nothing and reports success, and a network that cannot be brought up or down
    is up. *)
Definition Firewall_Close (closer : option (option string)) : option string := default None closer.
Definition Firewall_Up (up : option (option string)) : option string := default None up.
Definition Firewall_Down (down : option (option string)) : option string := default None down.
Definition Firewall_IsUp (isUp : option (bool * option string)) : bool * option string := default (true, None) isUp.
Definition SubscribeCloser (subscribe : option (option string)) : option string := default None subscribe.
Definition SubscribeUpDown (subscribe : option (option string)) : option string := default None subscribe.

(** What one check observes: the active configuration, the addresses of the
    connection, the clock when the table is looked up (a second time for a
    datagram with a numeric address and a local address without one) and when
    the rules look up the names of the peer and of the local address. *)
Record view : Type := MkView {
  v_cfg : FirewallConfig; v_local : option netAddr; v_remote : option netAddr;
  v_has : Z; v_again : Z; v_now : Z; v_lnow : Z }.

(** A result of the wrapped [Accept]: a connection, possibly with an error. *)
Record accepted (C : Type) : Type := MkAccepted {
  ac_conn : option C; ac_err : option string; ac_view : view }.
Arguments MkAccepted {C}.
Arguments ac_conn {C}.
Arguments ac_err {C}.
Arguments ac_view {C}.

(** A result of a wrapped read: the numbers of bytes read, the flags, the
    control message, the address of the sender and the error. *)
Record reading (A : Type) : Type := MkReading {
  rd_n : Z; rd_oobn : Z; rd_flags : Z; rd_control : option string; rd_addr : A; rd_err : option string; rd_view : view }.
Arguments MkReading {A}.
Arguments rd_n {A}.
Arguments rd_oobn {A}.
Arguments rd_flags {A}.
Arguments rd_control {A}.
Arguments rd_addr {A}.
Arguments rd_err {A}.
Arguments rd_view {A}.

(** The peers that a packet connection expects responses from. *)
Notation table := (responses firewallPeerKey).

Section Firewall.
Context {HE : HostEnv}.

Definition checkOutgoing (v : view) (op network address : string) : option opError :=
  if BlocksOutgoing (Some (v_cfg v)) (v_now v) network address
  then Some (MkOpError op network (OtherAddr address)) else None.

Definition checkOutgoingAddr (v : view) (op network : string) (address : netAddr) : option opError :=
  match firewallAddrPort (Some address) with
  | None => checkOutgoing v op network (netAddr_String address)
  | Some (addr, port) =>
      if BlocksOutgoingAddrPort (Some (v_cfg v)) (v_now v) network addr port
      then Some (MkOpError op network address) else None
  end.

Definition acceptsIncoming (v : view) (network : string) (peer local : option netAddr) : bool :=
  let text :=
    match peer, local with
    | Some p, Some l =>
        AllowsIncoming (Some (v_cfg v)) (v_now v) (v_lnow v) network (netAddr_String p) (Some (netAddr_String l))
    | _, _ => AllowsIncoming (Some (v_cfg v)) (v_now v) (v_lnow v) network (firewallPolicyAddress peer local) None
    end in
  match firewallAddrPort peer, firewallAddrPort local with
  | Some (addr, port), Some localEndpoint =>
      AllowsIncomingAddrPort (Some (v_cfg v)) (v_now v) (v_lnow v) network addr port (Some localEndpoint)
  | _, _ => text
  end.

(** *** Operations of the wrapped network *)

Inductive call : Type :=
| CallDial (network address : string) | CallListen (network address : string)
| CallPacketDial (network address : string) | CallListenPacket (network address : string)
| CallDialTCP (network laddr raddr : string) | CallListenTCP (network laddr : string)
| CallDialUDP (network laddr raddr : string) | CallListenUDP (network laddr : string)
| CallListenPacketConfig (network address : string) | CallListenUDPConfig (network laddr : string)
| CallListenMulticastUDP (network address : string).

(** The interfaces that a connection of the wrapped network implements. *)
Inductive connKind : Type := ConnUDP | ConnPacket | ConnPlain.

(** What the firewall returns: the connection itself, or wrapped. *)
Inductive wrapped : Type :=
| Bare | WrapListener (network : string) | WrapTCPListener (network : string) | WrapConn (network : string)
| WrapPacketConn (network : string) | WrapUDPConn (network : string) | WrapMulticast (network : string).

Definition wrapPacketConn (kind : connKind) (network : string) : wrapped :=
  match kind with ConnUDP => WrapUDPConn network | _ => WrapPacketConn network end.

Definition wrapNetConn (kind : connKind) (network : string) : wrapped :=
  match kind with
  | ConnUDP => WrapUDPConn network
  | ConnPacket => wrapPacketConn ConnPacket network
  | ConnPlain => WrapConn network
  end.

(** The result, and the calls of the wrapped network. *)
Definition delegated : Type := result netError (connKind * wrapped) * list call.

Definition delegate (inner : call -> result string connKind) (c : call) (wrap : connKind -> wrapped) : delegated :=
  (match inner c with Failure e => Failure (Inner e) | Success kind => Success (kind, wrap kind) end, [c]).

Definition checked (v : view) (network address : string) (d : delegated) : delegated :=
  match checkOutgoing v "dial" network address with Some e => (Failure (Denied e), []) | None => d end.

Section Network.
Variable inner : call -> result string connKind.

Definition Dial (v : view) (network address : string) : delegated :=
  checked v network address
    (delegate inner (CallDial network address)
       (fun kind => if isFirewallUDPNetwork network then wrapNetConn kind network else Bare)).

Definition Listen (network address : string) : delegated :=
  delegate inner (CallListen network address) (fun _ => WrapListener network).

Definition PacketDial (v : view) (network address : string) : delegated :=
  checked v network address
    (delegate inner (CallPacketDial network address) (fun kind => wrapPacketConn kind network)).

Definition ListenPacket (network address : string) : delegated :=
  delegate inner (CallListenPacket network address) (fun kind => wrapPacketConn kind network).

Definition DialTCP (v : view) (network laddr raddr : string) : delegated :=
  checked v network raddr (delegate inner (CallDialTCP network laddr raddr) (fun _ => Bare)).

Definition ListenTCP (network laddr : string) : delegated :=
  delegate inner (CallListenTCP network laddr) (fun _ => WrapTCPListener network).

Definition DialUDP (v : view) (network laddr raddr : string) : delegated :=
  checked v network raddr (delegate inner (CallDialUDP network laddr raddr) (fun _ => WrapUDPConn network)).

Definition ListenUDP (network laddr : string) : delegated :=
  delegate inner (CallListenUDP network laddr) (fun _ => WrapUDPConn network).

Definition ListenPacketConfig (network address : string) : delegated :=
  delegate inner (CallListenPacketConfig network address) (fun kind => wrapPacketConn kind network).

Definition ListenUDPConfig (network laddr : string) : delegated :=
  delegate inner (CallListenUDPConfig network laddr) (fun _ => WrapUDPConn network).

Definition ListenMulticastUDP (network address : string) : delegated :=
  delegate inner (CallListenMulticastUDP network address) (fun _ => WrapMulticast network).
End Network.
(** *** Listeners *)

(** The loops of [firewallListener.Accept] and [firewallTCPListener.AcceptTCP]:
    the connection or the error, the closed connections, and the results that
    are left; absent when the loop would block.  The addresses in the view are
    those of the accepted connection. *)
Fixpoint accept_loop {C} (network : string) (script : list (accepted C)) (closed : list C)
  : option (result string C * list C * list (accepted C)) :=
  match script with
  | [] => None
  | a :: script' =>
      match ac_err a, ac_conn a with
      | Some e, c => Some (Failure e, closed ++ match c with Some c => [c] | None => [] end, script')
      | None, None => accept_loop network script' closed
      | None, Some c =>
          if acceptsIncoming (ac_view a) network (v_remote (ac_view a)) (v_local (ac_view a))
          then Some (Success c, closed, script')
          else accept_loop network script' (closed ++ [c])
      end
  end.

Definition firewallListener_Accept {C} (network : string) (script : list (accepted C)) := accept_loop network script [].
Definition firewallTCPListener_AcceptTCP {C} (network : string) (script : list (accepted C)) := accept_loop network script [].
Definition firewallTCPListener_Accept {C} (network : string) (script : list (accepted C)) :=
  firewallTCPListener_AcceptTCP network script.

(** *** Packet connections *)

(** The address of a datagram, or the remote address of the connection. *)
Definition destination (v : view) (addr : option netAddr) : option netAddr :=
  match addr with Some a => Some a | None => v_remote v end.

Definition state_checkOutgoing (v : view) (network : string) (addr : option netAddr) : option opError :=
  match destination v addr with Some a => checkOutgoingAddr v "write" network a | None => None end.

Definition AddrPort_String (addr : AddrPort) : string :=
  match addr.1 with
  | AddrZero => "invalid AddrPort"
  | a => JoinHostPort (Addr_String a) (itoa addr.2)
  end.

Definition checkOutgoingAddrPort (v : view) (network : string) (addr : AddrPort) : option opError :=
  if negb (IsValid addr.1) || negb (BlocksOutgoingAddrPort (Some (v_cfg v)) (v_now v) network addr.1 addr.2) then None
  else Some (MkOpError "write" network (OtherAddr (AddrPort_String addr))).

Definition recordResponseKey (v : view) (key : firewallPeerKey) (t : table) : table :=
  record_response key (responseTTL (Some (v_cfg v))) (v_has v) t.

Definition recordResponse (v : view) (addr : option netAddr) (t : table) : table :=
  match makeFirewallPeerKey (destination v addr) with Some key => recordResponseKey v key t | None => t end.

Definition recordResponseAddrPort (v : view) (addr : AddrPort) (t : table) : table :=
  if negb (IsValid addr.1) then t else recordResponseKey v (MkKey (normalizePeerAddrPort addr) "") t.

Definition allowsIncoming_at (now : Z) (v : view) (network : string) (addr : option netAddr) (t : table) : bool * table :=
  let '(ok, t) := match makeFirewallPeerKey addr with Some key => has_response key now t | None => (false, t) end in
  if (ok : bool) then (true, t) else (acceptsIncoming v network addr (v_local v), t).

Definition allowsIncoming (v : view) := allowsIncoming_at (v_has v) v.

Definition allowsIncomingAddrPort (v : view) (network : string) (addr : AddrPort) (t : table) : bool * table :=
  let '(ok, t) := if IsValid addr.1 then has_response (MkKey (normalizePeerAddrPort addr) "") (v_has v) t else (false, t) in
  if (ok : bool) then (true, t)
  else match firewallAddrPort (v_local v) with
       | None => allowsIncoming_at (v_again v) v network (Some (UDPAddrFromAddrPort addr)) t
       | Some localEndpoint =>
           (AllowsIncomingAddrPort (Some (v_cfg v)) (v_now v) (v_lnow v) network addr.1 addr.2 (Some localEndpoint), t)
       end.

(** A denied read that failed returns the error without data. *)
Definition blank {A} (r : reading A) : reading A :=
  MkReading 0 0 (rd_flags r) None (rd_addr r) (rd_err r) (rd_view r).

(** The loop of the read methods, which differ in the test of the sender: what
    is returned, the table, and the results that are left; absent when the loop
    would block. *)
Fixpoint read_loop {A} (allows : reading A -> table -> bool * table) (script : list (reading A)) (t : table)
  : option (reading A) * table * list (reading A) :=
  match script with
  | [] => (None, t, [])
  | r :: script' =>
      let '(ok, t) := allows r t in
      if (ok : bool) then (Some r, t, script')
      else match rd_err r with
           | Some _ => (Some (blank r), t, script')
           | None => read_loop allows script' t
           end
  end.

(** The sender as a [net.Addr], as an [AddrPort], and the remote address of a
    stream connection. *)
Definition from_addr (network : string) (r : reading (option netAddr)) : table -> bool * table :=
  allowsIncoming (rd_view r) network (rd_addr r).
Definition from_udp (network : string) (r : reading netAddr) : table -> bool * table :=
  allowsIncoming (rd_view r) network (Some (rd_addr r)).
Definition from_addr_port (network : string) (r : reading AddrPort) : table -> bool * table :=
  allowsIncomingAddrPort (rd_view r) network (rd_addr r).
Definition from_remote (network : string) (r : reading unit) : table -> bool * table :=
  allowsIncoming (rd_view r) network (v_remote (rd_view r)).

Definition firewallConn_Read (network : string) := read_loop (from_remote network).
Definition firewallPacketConn_ReadFrom (network : string) := read_loop (from_addr network).
Definition firewallPacketConn_Read (network : string) := firewallPacketConn_ReadFrom network.
Definition ReadFromUDP (network : string) := read_loop (from_udp network).
Definition firewallUDPConn_ReadFrom (network : string) := ReadFromUDP network.
Definition firewallUDPConn_Read (network : string) := firewallUDPConn_ReadFrom network.
Definition ReadFromUDPAddrPort (network : string) := read_loop (from_addr_port network).
Definition ReadMsgUDP (network : string) := read_loop (from_udp network).
Definition ReadMsgUDPAddrPort (network : string) := read_loop (from_addr_port network).
Definition firewallMulticast_ReadFrom (network : string) := read_loop (from_addr network).
Definition ReadFromControl (network : string) := read_loop (from_addr network).

(** A write: the numbers of bytes written and the error, and whether the
    wrapped connection was called.  [sent] is what it returns. *)
Record written : Type := MkWritten { wr_n : Z; wr_oobn : Z; wr_err : option netError; wr_called : bool }.

Record sent : Type := MkSent { se_n : Z; se_oobn : Z; se_err : option string }.

Definition write_through (denied : option opError) (s : sent) (record : table -> table) (t : table) : written * table :=
  match denied with
  | Some e => (MkWritten 0 0 (Some (Denied e)) false, t)
  | None =>
      match se_err s with
      | None => (MkWritten (se_n s) (se_oobn s) None true, record t)
      | Some e => (MkWritten (se_n s) (se_oobn s) (Some (Inner e)) true, t)
      end
  end.

(** [v] is observed by the check and [v'] after the wrapped write. *)
Definition write_addr (v v' : view) (network : string) (addr : option netAddr) (s : sent) : table -> written * table :=
  write_through (state_checkOutgoing v network addr) s (recordResponse v' addr).

Definition write_addr_port (v v' : view) (network : string) (addr : AddrPort) (s : sent) : table -> written * table :=
  write_through (checkOutgoingAddrPort v network addr) s (recordResponseAddrPort v' addr).

Definition firewallConn_Write (v v' : view) (network : string) := write_addr v v' network None.
Definition firewallPacketConn_Write (v v' : view) (network : string) := write_addr v v' network None.
Definition firewallPacketConn_WriteTo := write_addr.
Definition firewallUDPConn_Write (v v' : view) (network : string) := write_addr v v' network None.
Definition firewallUDPConn_WriteTo := write_addr.
Definition WriteToUDP (v v' : view) (network : string) (addr : option netAddr) :=
  write_addr v v' network (Some (default nil_udp addr)).
Definition WriteToUDPAddrPort := write_addr_port.
Definition WriteMsgUDP (v v' : view) (network : string) (addr : option netAddr) :=
  write_addr v v' network (Some (default nil_udp addr)).
Definition WriteMsgUDPAddrPort := write_addr_port.

(** A multicast connection has no remote address. *)
Definition no_remote (v : view) : view :=
  MkView (v_cfg v) (v_local v) None (v_has v) (v_again v) (v_now v) (v_lnow v).
Definition firewallMulticast_WriteTo (v v' : view) := write_addr (no_remote v) (no_remote v').
Definition WriteToControl (v v' : view) := write_addr (no_remote v) (no_remote v').
End Firewall.
