(* ===== verification/FirewallConn.v ===== *)
(** * The datagram filter of the network firewall

    The reference for the packet connections of src/firewall.go, and the
    theorems about them: a connection delivers a datagram exactly when the
    rules include it or it answers an earlier datagram that the rules let out;
    a dial operation fails with the error of the firewall exactly when the
    configuration given to [NewFirewall] blocks the destination, and then the
    wrapped network is not called. *)

From Stdlib Require Import Ascii.
From stdpp Require Import gmap sorting.
From S2P Require Import Prelude GoStd HostPort NetIP NetText PathMatch DNSCache Bytecode Machine AddrCache FirewallConfig FirewallOptimize FirewallPolicy FirewallMerge ResponseTable Firewall.

(** ** The clock *)

Fixpoint ticks (now : Z) (times : list Z) : Prop :=
  match times with [] => True | x :: l => now <= x /\ ticks x l end.

Fixpoint last_tick (now : Z) (times : list Z) : Z :=
  match times with [] => now | x :: l => last_tick x l end.

Lemma ticks_app now l1 l2 : ticks now (l1 ++ l2) <-> ticks now l1 /\ ticks (last_tick now l1) l2.
Proof. revert now. induction l1 as [|x l1 IH]; intros now; cbn; [tauto|]. rewrite IH. tauto. Qed.

Lemma last_tick_le now l : ticks now l -> now <= last_tick now l.
Proof. revert now. induction l as [|x l IH]; intros now; cbn; [lia|]. intros [H1 H2]. specialize (IH x H2). lia. Qed.

Lemma last_tick_app now l1 l2 : last_tick now (l1 ++ l2) = last_tick (last_tick now l1) l2.
Proof. revert now. induction l1 as [|x l1 IH]; intros now; cbn; [done|]. apply IH. Qed.

Section Conn.
Context {HE : HostEnv}.

(** ** Connections *)

(** The operations of a connection of a network. *)
Inductive conn_op : Type :=
| Send (addr : option netAddr) (v v' : view) (s : sent)
| SendAddrPort (addr : AddrPort) (v v' : view) (s : sent)
| Receive (script : list (reading (option netAddr)))
| ReceiveUDP (script : list (reading netAddr))
| ReceiveAddrPort (script : list (reading AddrPort))
| ReceiveStream (script : list (reading unit)).

Inductive output : Type :=
| Wrote (w : written)
| Got (r : option (reading (option netAddr)))
| GotUDP (r : option (reading netAddr))
| GotAddrPort (r : option (reading AddrPort))
| GotStream (r : option (reading unit)).

Definition conn_step (network : string) (op : conn_op) (t : table) : output * table :=
  match op with
  | Send addr v v' s => let '(w, t) := write_addr v v' network addr s t in (Wrote w, t)
  | SendAddrPort addr v v' s => let '(w, t) := write_addr_port v v' network addr s t in (Wrote w, t)
  | Receive script => let '(r, t, _) := read_loop (from_addr network) script t in (Got r, t)
  | ReceiveUDP script => let '(r, t, _) := read_loop (from_udp network) script t in (GotUDP r, t)
  | ReceiveAddrPort script => let '(r, t, _) := read_loop (from_addr_port network) script t in (GotAddrPort r, t)
  | ReceiveStream script => let '(r, t, _) := read_loop (from_remote network) script t in (GotStream r, t)
  end.

Fixpoint conn_run (network : string) (ops : list conn_op) (t : table) : list output :=
  match ops with
  | [] => []
  | op :: ops' => let '(o, t) := conn_step network op t in o :: conn_run network ops' t
  end.

(** ** The reference *)

(** The peer that a successful write expects an answer from. *)
Definition peer_key (op : conn_op) : option firewallPeerKey :=
  match op with
  | Send addr _ v' _ => makeFirewallPeerKey (destination v' addr)
  | SendAddrPort addr _ _ _ => if IsValid addr.1 then Some (MkKey (normalizePeerAddrPort addr) "") else None
  | _ => None
  end.

(** Whether the rules block a write. *)
Definition denied (network : string) (op : conn_op) : option opError :=
  match op with
  | Send addr v _ _ => state_checkOutgoing v network addr
  | SendAddrPort addr v _ _ => checkOutgoingAddrPort v network addr
  | _ => None
  end.

(** The history of the peers that were written to: a write that the rules let
    out and that succeeded is remembered until its response time has passed. *)
Definition remember (network : string) (op : conn_op) (h : history firewallPeerKey) : history firewallPeerKey :=
  match op with
  | Send _ _ v' s | SendAddrPort _ _ v' s =>
      match denied network op, se_err s, peer_key op with
      | None, None, Some key => (key, i64 (v_has v' + responseTTL (Some (v_cfg v')))) :: h
      | _, _, _ => h
      end
  | _ => h
  end.

(** A sender is admitted when it answers a write, or when the rules include it. *)
Definition answers_write (h : history firewallPeerKey) (key : option firewallPeerKey) (now : Z) : bool :=
  match key with Some k => alive h k now | None => false end.

Definition admits_at (now : Z) (h : history firewallPeerKey) (network : string) (v : view) (addr : option netAddr) : bool :=
  answers_write h (makeFirewallPeerKey addr) now || acceptsIncoming v network addr (v_local v).

Definition admits_addr_port (h : history firewallPeerKey) (network : string) (v : view) (addr : AddrPort) : bool :=
  answers_write h (if IsValid addr.1 then Some (MkKey (normalizePeerAddrPort addr) "") else None) (v_has v) ||
  match firewallAddrPort (v_local v) with
  | None => admits_at (v_again v) h network v (Some (UDPAddrFromAddrPort addr))
  | Some localEndpoint =>
      AllowsIncomingAddrPort (Some (v_cfg v)) (v_now v) (v_lnow v) network addr.1 addr.2 (Some localEndpoint)
  end.

(** The first datagram that is admitted, unless an error comes first. *)
Definition first_delivery {A} (admits : reading A -> bool) (script : list (reading A)) : option (reading A) :=
  (fun r => if admits r then r else blank r) <$>
  List.find (fun r => admits r || bool_decide (is_Some (rd_err r))) script.

Definition conn_spec (network : string) (op : conn_op) (h : history firewallPeerKey) : output :=
  let at_view {A} (r : reading A) := admits_at (v_has (rd_view r)) h network (rd_view r) in
  match op with
  | Send _ _ _ s | SendAddrPort _ _ _ s =>
      Wrote match denied network op with
            | Some e => MkWritten 0 0 (Some (Denied e)) false
            | None => MkWritten (se_n s) (se_oobn s) (Inner <$> se_err s) true
            end
  | Receive script => Got (first_delivery (fun r => at_view r (rd_addr r)) script)
  | ReceiveUDP script => GotUDP (first_delivery (fun r => at_view r (Some (rd_addr r))) script)
  | ReceiveAddrPort script => GotAddrPort (first_delivery (fun r => admits_addr_port h network (rd_view r) (rd_addr r)) script)
  | ReceiveStream script => GotStream (first_delivery (fun r => at_view r (v_remote (rd_view r))) script)
  end.

Fixpoint spec_run (network : string) (ops : list conn_op) (h : history firewallPeerKey) : list output :=
  match ops with
  | [] => []
  | op :: ops' => conn_spec network op h :: spec_run network ops' (remember network op h)
  end.

(** The readings of the clock at the table. *)
Definition script_times {A} (script : list (reading A)) : list Z :=
  flat_map (fun r => [v_has (rd_view r); v_again (rd_view r)]) script.

Definition op_times (op : conn_op) : list Z :=
  match op with
  | Send _ _ v' _ | SendAddrPort _ _ v' _ => [v_has v']
  | Receive script => script_times script
  | ReceiveUDP script => script_times script
  | ReceiveAddrPort script => script_times script
  | ReceiveStream script => script_times script
  end.

(** ** The table implements the history *)

Definition answers {A} (allows : reading A -> table -> bool * table) (admits : history firewallPeerKey -> reading A -> bool) : Prop :=
  forall h t now r, table_ok h t now -> ticks now [v_has (rd_view r); v_again (rd_view r)] ->
  (allows r t).1 = admits h r /\ table_ok h (allows r t).2 (v_again (rd_view r)).

Lemma allows_at_spec h t now v network addr : table_ok h t now ->
  (allowsIncoming_at now v network addr t).1 = admits_at now h network v addr /\
  table_ok h (allowsIncoming_at now v network addr t).2 now.
Proof.
  intros Ht. unfold allowsIncoming_at, admits_at, answers_write. destruct (makeFirewallPeerKey addr) as [key|]; [|done].
  destruct (has_response_spec h t now key Ht) as [Ha Ht']. destruct (has_response key now t) as [ok t'].
  cbn [fst snd] in Ha, Ht'. subst ok. by destruct (alive h key now).
Qed.

(** The senders of the read methods, seen through the first test. *)
Lemma answers_at {A} network (sender : reading A -> option netAddr) :
  answers (fun r => allowsIncoming (rd_view r) network (sender r))
    (fun h r => admits_at (v_has (rd_view r)) h network (rd_view r) (sender r)).
Proof.
  intros h t now r Ht (H1 & H2 & _). apply (table_ok_later _ _ _ (v_has (rd_view r))) in Ht; [|done].
  unfold allowsIncoming. destruct (allows_at_spec h t _ (rd_view r) network (sender r) Ht) as [-> Ht'].
  split; [done|]. by eapply table_ok_later.
Qed.

Lemma answers_addr_port network :
  answers (from_addr_port network) (fun h r => admits_addr_port h network (rd_view r) (rd_addr r)).
Proof.
  intros h t now [n oobn flags control addr err v] Ht (H1 & H2 & _). cbn [rd_view] in *.
  apply (table_ok_later _ _ _ (v_has v)) in Ht; [|done].
  unfold from_addr_port, allowsIncomingAddrPort, admits_addr_port. cbn [rd_view rd_addr].
  set (key := MkKey (normalizePeerAddrPort addr) "").
  assert (Hh : exists t', (if IsValid addr.1 then has_response key (v_has v) t else (false, t)) =
    (answers_write h (if IsValid addr.1 then Some key else None) (v_has v), t') /\ table_ok h t' (v_has v)).
  { destruct (IsValid addr.1); [|by exists t]. destruct (has_response_spec h t (v_has v) key Ht) as [Ha Ht'].
    exists (has_response key (v_has v) t).2. cbn [answers_write]. rewrite <- Ha. by destruct (has_response _ _ _). }
  destruct Hh as (t' & -> & Ht'). destruct (answers_write h _ (v_has v)); cbn [orb].
  - split; [done|]. by eapply table_ok_later.
  - destruct (firewallAddrPort (v_local v)); [split; [done|]; by eapply table_ok_later|].
    apply allows_at_spec. by eapply table_ok_later.
Qed.

Lemma read_loop_spec {A} (allows : reading A -> table -> bool * table) admits : answers allows admits ->
  forall script h t now, table_ok h t now -> ticks now (script_times script) ->
  let '(r, t', _) := read_loop allows script t in
  r = first_delivery (admits h) script /\ table_ok h t' (last_tick now (script_times script)).
Proof.
  intros Hall. induction script as [|r script IH]; intros h t now Ht Hclock; [done|].
  change (script_times (r :: script)) with ([v_has (rd_view r); v_again (rd_view r)] ++ script_times script) in *.
  apply ticks_app in Hclock as [H1 H2]. rewrite last_tick_app. destruct (Hall h t now r Ht H1) as [Ha Ht'].
  set (mid := last_tick now [v_has (rd_view r); v_again (rd_view r)]) in *. cbn [read_loop].
  destruct (allows r t) as [ok t']. cbn [fst snd] in Ha, Ht'. subst ok.
  unfold first_delivery. cbn [List.find]. destruct (admits h r) eqn:Ea; cbn [orb].
  - cbn. rewrite Ea. split; [done|]. eapply table_ok_later; [exact Ht'|]. by apply last_tick_le.
  - destruct (rd_err r) as [e|] eqn:Ee.
    + rewrite bool_decide_true by by eexists. cbn. rewrite Ea. split; [done|]. eapply table_ok_later; [exact Ht'|].
      by apply last_tick_le.
    + rewrite bool_decide_false by by intros [? [=]]. by apply (IH h t' mid).
Qed.

Lemma write_spec d s (key : option firewallPeerKey) v' t h now record :
  table_ok h t now -> now <= v_has v' ->
  (forall t, record t = match key with Some k => recordResponseKey v' k t | None => t end) ->
  let '(w, t') := write_through d s record t in
  w = match d with
      | Some e => MkWritten 0 0 (Some (Denied e)) false
      | None => MkWritten (se_n s) (se_oobn s) (Inner <$> se_err s) true
      end /\
  table_ok (match d, se_err s, key with
            | None, None, Some k => (k, i64 (v_has v' + responseTTL (Some (v_cfg v')))) :: h
            | _, _, _ => h
            end) t' (v_has v').
Proof.
  intros Ht Hle Hr. apply (table_ok_later _ _ _ (v_has v')) in Ht; [|done]. unfold write_through.
  destruct d; [done|]. destruct (se_err s); [done|]. split; [done|]. rewrite Hr. destruct key as [k|]; [|done].
  unfold recordResponseKey. by apply record_response_spec.
Qed.

Lemma conn_step_spec network op h t now : table_ok h t now -> ticks now (op_times op) ->
  (conn_step network op t).1 = conn_spec network op h /\
  table_ok (remember network op h) (conn_step network op t).2 (last_tick now (op_times op)).
Proof.
  intros Ht Hc. destruct op as [addr v v' s|addr v v' s|script|script|script|script]; cbn [conn_step op_times] in *.
  - destruct Hc as [Hle _]. unfold write_addr. pose proof (write_spec (state_checkOutgoing v network addr) s
      (makeFirewallPeerKey (destination v' addr)) v' t h now (recordResponse v' addr) Ht Hle (fun t => eq_refl)) as Hw.
    destruct (write_through _ _ _ t) as [w t']. destruct Hw as [-> Hw]. done.
  - destruct Hc as [Hle _]. unfold write_addr_port. pose proof (write_spec (checkOutgoingAddrPort v network addr) s
      (if IsValid addr.1 then Some (MkKey (normalizePeerAddrPort addr) "") else None) v' t h now
      (recordResponseAddrPort v' addr) Ht Hle) as Hw.
    destruct (write_through _ _ _ t) as [w t']. destruct Hw as [-> Hw]; [|done].
    intros t0. unfold recordResponseAddrPort. by destruct (IsValid addr.1).
  - pose proof (read_loop_spec _ _ (answers_at network rd_addr) script h t now Ht Hc) as Hr.
    unfold from_addr. destruct (read_loop _ _ t) as [[r t'] l]. by destruct Hr as [-> Hr].
  - pose proof (read_loop_spec _ _ (answers_at network (fun r => Some (rd_addr r))) script h t now Ht Hc) as Hr.
    unfold from_udp. destruct (read_loop _ _ t) as [[r t'] l]. by destruct Hr as [-> Hr].
  - pose proof (read_loop_spec _ _ (answers_addr_port network) script h t now Ht Hc) as Hr.
    destruct (read_loop _ _ t) as [[r t'] l]. by destruct Hr as [-> Hr].
  - pose proof (read_loop_spec _ _ (answers_at network (fun r => v_remote (rd_view r))) script h t now Ht Hc) as Hr.
    unfold from_remote. destruct (read_loop _ _ t) as [[r t'] l]. by destruct Hr as [-> Hr].
Qed.

Lemma conn_run_spec network ops h t now : table_ok h t now -> ticks now (flat_map op_times ops) ->
  conn_run network ops t = spec_run network ops h.
Proof.
  revert h t now. induction ops as [|op ops IH]; intros h t now Ht Hc; [done|]. cbn [flat_map conn_run spec_run] in *.
  apply ticks_app in Hc as [H1 H2]. destruct (conn_step_spec network op h t now Ht H1) as [Ho Ht'].
  destruct (conn_step network op t) as [o t']. cbn [fst snd] in *. rewrite Ho. f_equal. by eapply IH.
Qed.

(** ** Dialling *)









(** ** Accepting *)

(** The wrapped listener's result ends the loop: an error, or a connection that
    the rules include. *)
Definition stops {C} (network : string) (a : accepted C) : bool :=
  match ac_err a, ac_conn a with
  | Some _, _ => true
  | None, None => false
  | None, Some _ => acceptsIncoming (ac_view a) network (v_remote (ac_view a)) (v_local (ac_view a))
  end.

Lemma accept_loop_first {C} network (pre : list (accepted C)) a post closed :
  Forall (fun x => stops network x = false) pre -> stops network a = true ->
  accept_loop network (pre ++ a :: post) closed =
    Some (match ac_err a, ac_conn a with Some e, _ => Failure e | None, Some c => Success c | None, None => Failure "" end,
          closed ++ omap ac_conn pre ++ (if ac_err a then option_list (ac_conn a) else []), post).
Proof.
  intros Hpre Ha. revert closed. induction Hpre as [|x pre Hx Hpre IH]; intros closed.
  - cbn [app omap list_omap accept_loop]. unfold stops in Ha. destruct (ac_err a) as [e|]; [by destruct (ac_conn a)|].
    destruct (ac_conn a); [|done]. rewrite Ha. by rewrite app_nil_r.
  - cbn [app accept_loop omap list_omap]. unfold stops in Hx. destruct (ac_err x); [done|].
    destruct (ac_conn x) as [c|]; [rewrite Hx|]; rewrite IH; [by rewrite <- app_assoc|done].
Qed.

(** A script in which nothing ends the loop blocks. *)
Lemma accept_loop_blocks {C} network (pre : list (accepted C)) closed :
  Forall (fun x => stops network x = false) pre -> accept_loop network pre closed = None.
Proof.
  intros Hpre. revert closed. induction Hpre as [|x pre Hx Hpre IH]; intros closed; [done|]. cbn [accept_loop].
  unfold stops in Hx. destruct (ac_err x); [done|]. destruct (ac_conn x); [rewrite Hx|]; apply IH.
Qed.
End Conn.

(** ** Theorems *)

(** C20. The datagram filter.  Over any sequence of writes and reads of a
    connection, as long as the clock does not go back, the results are those of
    the reference: a write is denied exactly when the rules block its
    destination, without calling the wrapped connection; a read returns the
    first datagram whose sender is included by the rules or answers a write
    that was let out, succeeded and is not older than the response time that
    was then active, and drops those before it; an error of the wrapped
    connection ends the read without data unless its sender is admitted.  The
    table that implements this, its expiry and its periodic cleaning cannot be
    observed. *)
Theorem firewall_conn_refines (HE : HostEnv) network ops start :
  ticks start (flat_map op_times ops) -> conn_run network ops no_responses = spec_run network ops [].
Proof. apply conn_run_spec, no_responses_ok. Qed.


(** C28. Accepting makes progress.  A listener returns the first connection
    that the rules include, or the first error; it closes every connection
    before it, and one that came with the error, and no other. *)
Theorem accept_returns_first (HE : HostEnv) {C} network (pre : list (accepted C)) a post :
  Forall (fun x => stops network x = false) pre -> stops network a = true ->
  let outcome :=
    Some (match ac_err a, ac_conn a with Some e, _ => Failure e | None, Some c => Success c | None, None => Failure "" end,
          omap ac_conn pre ++ (if ac_err a then option_list (ac_conn a) else []), post) in
  firewallListener_Accept network (pre ++ a :: post) = outcome /\
  firewallTCPListener_Accept network (pre ++ a :: post) = outcome.
Proof. intros Hpre Ha. split; apply (accept_loop_first network pre a post [] Hpre Ha). Qed.

(** A datagram that is sent on a connected socket through the methods that
    take an address, which is then nil, or the zero [AddrPort], is neither
    checked against the remote address of the connection nor remembered for it:
    on a connection to a destination that the rules block the write goes
    through, and the answer to a write that is let out is judged by the
    incoming rules only, while [Write] is denied there and admits the answer. *)
Theorem nil_address_bypasses : exists v blocked answer,
  let sending := MkSent 4 0 None in
  let denies (w : written) := bool_decide (is_Some (wr_err w)) in
  let answered (t : table) := (from_udp (HE := no_services) "udp" answer t).1 in
  (* the rules block the remote address *)
  denies (firewallUDPConn_Write (HE := no_services) blocked v "udp" sending no_responses).1 = true /\
  denies (WriteMsgUDP (HE := no_services) blocked v "udp" None sending no_responses).1 = false /\
  denies (WriteMsgUDPAddrPort blocked v "udp" (AddrZero, 0) sending no_responses).1 = false /\
  (* the rules let it out *)
  answered (firewallUDPConn_Write (HE := no_services) v v "udp" sending no_responses).2 = true /\
  answered (WriteMsgUDP (HE := no_services) v v "udp" None sending no_responses).2 = false /\
  answered (WriteMsgUDPAddrPort v v "udp" (AddrZero, 0) sending no_responses).2 = false.
Proof.
  set (remote := UDPAddr (addr_bytes (Addr4 134744072)) 53 ""). set (local := UDPAddr (addr_bytes (Addr4 1)) 5353 "").
  set (v cfg := MkView cfg (Some local) (Some remote) 1000 1000 1000 1000).
  set (open := v (MkConfig [] [] 0 None (Some []) (Some []))).
  exists open, (v patient), (MkReading 4 0 0 None remote None open). repeat split; vm_compute; reflexivity.
Qed.

(** ** Witnesses *)

Definition dns_server : netAddr := UDPAddr (addr_bytes (Addr4 134744072)) 53 "".
Definition stranger : netAddr := UDPAddr (addr_bytes (Addr4 16843009)) 53 "".

Definition at_time (now : Z) : view :=
  MkView (MkConfig [] [] 1000 None (Some []) (Some []))
    (Some (UDPAddr (addr_bytes (Addr4 1)) 5353 "")) None now now now now.

Definition datagram (from : netAddr) (now : Z) : reading (option netAddr) :=
  MkReading 8 0 0 None (Some from) None (at_time now).

(** A query, its answer after a datagram of a stranger, and a late answer. *)
Definition exchange : list conn_op :=
  [Send (Some dns_server) (at_time 5) (at_time 6) (MkSent 8 0 None);
   Receive [datagram stranger 7; datagram dns_server 900];
   Receive [datagram dns_server 1007]].

Lemma firewall_conn_refines_witness :
  conn_run (HE := no_services) "udp" exchange no_responses = spec_run (HE := no_services) "udp" exchange [] /\
  spec_run (HE := no_services) "udp" exchange [] =
    [Wrote (MkWritten 8 0 None true); Got (Some (datagram dns_server 900)); Got None].
Proof.
  split; [apply (firewall_conn_refines no_services "udp" exchange 0); cbn; lia|]. vm_compute. reflexivity.
Defined.




(** A connection that is refused, one that is missing, and one that the rules
    include. *)
Definition arrival (addr : Addr) (c : nat) : accepted nat :=
  MkAccepted (Some c) None
    (MkView (MkConfig [] [MkRule "tcp" ["10.0.0.0/8"] [] [80] []] 0 None None None)
      (Some (TCPAddr (addr_bytes (Addr4 1)) 80 "")) (Some (TCPAddr (addr_bytes addr) 4444 "")) 0 0 0 0).

Lemma accept_returns_first_witness :
  firewallTCPListener_Accept (HE := no_services) "tcp"
    ([arrival (Addr4 134744072) 1; MkAccepted None None (ac_view (arrival (Addr4 1) 0))] ++ arrival (Addr4 167772161) 2 :: []) =
  Some (Success 2%nat, [1%nat], []).
Proof.
  apply (accept_returns_first no_services "tcp"
    [arrival (Addr4 134744072) 1; MkAccepted None None (ac_view (arrival (Addr4 1) 0))] (arrival (Addr4 167772161) 2) []).
  - repeat constructor.
  - vm_compute. reflexivity.
Defined.
