(* ===== verification/TunFirewall.v ===== *)
(** * The packet firewall of tunnel devices

    Models src/tun/firewall.go and [validatePacketOffset] of src/tun/validate.go:
    the parser of IP packets, the table of expected responses, the batch
    filters of [Read] and [Write].

    The wrapped device is a parameter: a read loop consumes the list of the
    results of the device's reads, each with the contents of the buffers after
    it; the device's write is a function of the batch.  Buffers are distinct
    byte lists.  The walk over IPv6 extension headers advances by at least eight
    bytes per header; it has one unit of fuel per byte of the packet. *)

From stdpp Require Import gmap.
From S2P Require Import Prelude GoStd HostPort NetIP NetText PathMatch DNSCache Bytecode Machine AddrCache SockOwner FirewallConfig FirewallOptimize FirewallPolicy FirewallMerge ResponseTable.

(** ** Flows *)

Record firewallFlow : Type := MkFlow {
  fl_version : Z; fl_proto : Z; fl_src : Addr; fl_dst : Addr; fl_srcPort : Z; fl_dstPort : Z }.

#[global] Instance firewallFlow_eq_dec : EqDecision firewallFlow.
Proof. solve_decision. Defined.

#[global] Instance firewallFlow_countable : Countable firewallFlow.
Proof.
  refine (inj_countable' (fun f => (fl_version f, fl_proto f, fl_src f, fl_dst f, fl_srcPort f, fl_dstPort f))
    (fun p => let '(v, q, s, d, sp, dp) := p in MkFlow v q s d sp dp) _). by intros [].
Defined.

Definition reverse (flow : firewallFlow) : firewallFlow :=
  MkFlow (fl_version flow) (fl_proto flow) (fl_dst flow) (fl_src flow) (fl_dstPort flow) (fl_srcPort flow).

Definition flow_network (flow : firewallFlow) : string :=
  let family := itoa (fl_version flow) in
  if fl_proto flow =? 6 then String.append "tcp" family
  else if fl_proto flow =? 17 then String.append "udp" family
  else if fl_proto flow =? 1 then "icmp4"
  else if fl_proto flow =? 58 then "icmp6"
  else String.append "ip" (String.append family (String.append ":" (itoa (fl_proto flow)))).

Definition outgoingAddress (flow : firewallFlow) : string :=
  JoinHostPort (Addr_String (fl_dst flow)) (itoa (fl_dstPort flow)).
Definition incomingAddress (flow : firewallFlow) : string :=
  JoinHostPort (Addr_String (fl_src flow)) (itoa (fl_dstPort flow)).

(** ** The parser *)

Definition isIPv4ICMPError (kind : Z) : bool :=
  (kind =? 3) || (kind =? 4) || (kind =? 5) || (kind =? 11) || (kind =? 12).

Definition firewallTunPacket (buf : list byte) (size offset : Z) : run (option (list byte)) :=
  if (size <? 0) || (offset <? 0) || (zlen buf <? offset) || (zlen buf - offset <? size) then Done None
  else let! packet := cut buf offset (offset + size) in Done (Some packet).

Definition firewallTransportPorts (proto : Z) (payload : list byte) : run (Z * Z) :=
  if negb (proto =? 6) && negb (proto =? 17) || (zlen payload <? 4) then Done (0, 0)
  else
    let! srcPort := rd16 payload 0 in
    let! dstPort := rd16 payload 2 in
    Done (srcPort, dstPort).

(** The walk over the extension headers. *)
Fixpoint transport_offset (fuel : nat) (packet : list byte) (next offset : Z) : run (option (Z * Z)) :=
  match fuel with
  | O => OutOfFuel
  | S fuel =>
      if (next =? 0) || (next =? 43) || (next =? 60) then
        if zlen packet <? offset + 2 then Done None
        else
          let! l := rd8 packet (offset + 1) in
          let length := (l + 1) * 8 in
          if (length <? 8) || (zlen packet <? offset + length) then Done None
          else
            let! next := rd8 packet offset in
            transport_offset fuel packet next (offset + length)
      else if next =? 44 then
        if zlen packet <? offset + 8 then Done None
        else
          let! frag := rd16 packet (offset + 2) in
          let! next := rd8 packet offset in
          if negb (Z.shiftr frag 3 =? 0) then Done (Some (zlen packet, next))
          else transport_offset fuel packet next (offset + 8)
      else if next =? 51 then
        if zlen packet <? offset + 2 then Done None
        else
          let! l := rd8 packet (offset + 1) in
          let length := (l + 2) * 4 in
          if (length <? 8) || (zlen packet <? offset + length) then Done None
          else
            let! next := rd8 packet offset in
            transport_offset fuel packet next (offset + length)
      else Done (if offset <=? zlen packet then Some (offset, next) else None)
  end.

Definition ipv6TransportOffset (packet : list byte) : run (option (Z * Z)) :=
  if zlen packet <? 40 then Done None
  else let! next := rd8 packet 6 in transport_offset (S (length packet)) packet next 40.

Definition parseFirewallIPv4 (packet : list byte) : run (option firewallFlow) :=
  if zlen packet <? 20 then Done None
  else
    let! b0 := rd8 packet 0 in
    let headerLen := Z.land b0 15 * 4 in
    let! totalLen := rd16 packet 2 in
    if (headerLen <? 20) || (zlen packet <? headerLen) || (totalLen <? headerLen) || (zlen packet <? totalLen) then Done None
    else
      let! srcBytes := cut packet 12 16 in
      match AddrFromSlice srcBytes with
      | None => Done None
      | Some src =>
          let! dstBytes := cut packet 16 20 in
          match AddrFromSlice dstBytes with
          | None => Done None
          | Some dst =>
              let! proto := rd8 packet 9 in
              let! fragment := rd16 packet 6 in
              if Z.land fragment 8191 =? 0 then
                let! payload := cut packet headerLen totalLen in
                let! '(srcPort, dstPort) := firewallTransportPorts proto payload in
                Done (Some (MkFlow 4 proto (Unmap src) (Unmap dst) srcPort dstPort))
              else Done (Some (MkFlow 4 proto (Unmap src) (Unmap dst) 0 0))
          end
      end.

Definition parseFirewallIPv6 (packet : list byte) : run (option firewallFlow) :=
  if zlen packet <? 40 then Done None
  else
    let! payloadLen := rd16 packet 4 in
    if negb (payloadLen =? 0) && (zlen packet <? 40 + payloadLen) then Done None
    else
      let! srcBytes := cut packet 8 24 in
      match AddrFromSlice srcBytes with
      | None => Done None
      | Some src =>
          let! dstBytes := cut packet 24 40 in
          match AddrFromSlice dstBytes with
          | None => Done None
          | Some dst =>
              let! t := ipv6TransportOffset packet in
              match t with
              | None => Done None
              | Some (offset, proto) =>
                  let! payload := cut packet offset (zlen packet) in
                  let! '(srcPort, dstPort) := firewallTransportPorts proto payload in
                  Done (Some (MkFlow 6 proto src dst srcPort dstPort))
              end
          end
      end.

Definition parseFirewallPacket (packet : list byte) : run (option firewallFlow) :=
  if zlen packet =? 0 then Done None
  else
    let! b0 := rd8 packet 0 in
    if Z.shiftr b0 4 =? 4 then parseFirewallIPv4 packet
    else if Z.shiftr b0 4 =? 6 then parseFirewallIPv6 packet
    else Done None.

(** ** The state and its checks *)

(** What the check of one packet observes: the active configuration, the
    configuration when the response is recorded, and the clock when the rules
    look up names and when the table is read, up to twice, or written. *)
Record tview : Type := MkTView {
  tv_cfg : FirewallConfig; tv_cfg' : FirewallConfig; tv_now : Z; tv_lnow : Z; tv_has : Z; tv_again : Z }.

Notation flows := (responses firewallFlow).

Definition blocksOutgoing (v : tview) (flow : firewallFlow) : bool :=
  BlocksOutgoingIP (Some (tv_cfg v)) (tv_now v) (fl_proto flow) (fl_dst flow) (fl_dstPort flow).

Definition tun_responseTTL (cfg : FirewallConfig) : Z :=
  if fc_ResponseTTL cfg <=? 0 then 2 * 60 * 1000000000 else fc_ResponseTTL cfg.

Definition tun_recordResponse (v : tview) (flow : firewallFlow) (t : flows) : flows :=
  record_response flow (tun_responseTTL (tv_cfg' v)) (tv_has v) t.

(** The packet that an ICMP error message quotes. *)
Definition quoted_packet (packet : list byte) (flow : firewallFlow) : run (option (list byte)) :=
  if (fl_version flow =? 4) && (fl_proto flow =? 1) then
    let! b0 := rd8 packet 0 in
    let headerLen := Z.land b0 15 * 4 in
    if zlen packet <? headerLen + 8 then Done None
    else
      let! kind := rd8 packet headerLen in
      if negb (isIPv4ICMPError kind) then Done None
      else let! embedded := cut packet (headerLen + 8) (zlen packet) in Done (Some embedded)
  else if (fl_version flow =? 6) && (fl_proto flow =? 58) then
    let! t := ipv6TransportOffset packet in
    match t with
    | None => Done None
    | Some (offset, _) =>
        if zlen packet <? offset + 8 then Done None
        else
          let! kind := rd8 packet offset in
          if 128 <=? kind then Done None
          else let! embedded := cut packet (offset + 8) (zlen packet) in Done (Some embedded)
    end
  else Done None.

Definition relatedICMPResponse (v : tview) (packet : list byte) (flow : firewallFlow) (t : flows) : run (bool * flows) :=
  let! q := quoted_packet packet flow in
  match q with
  | None => Done (false, t)
  | Some embedded =>
      let! original := parseFirewallPacket embedded in
      match original with
      | None => Done (false, t)
      | Some original => Done (has_response (reverse original) (tv_again v) t)
      end
  end.

Definition tun_allowsIncoming (v : tview) (packet : list byte) (flow : firewallFlow) (t : flows) : run (bool * flows) :=
  let '(known, t) := has_response flow (tv_has v) t in
  if (known : bool) then Done (true, t)
  else
    let! '(related, t) := relatedICMPResponse v packet flow t in
    if (related : bool) then Done (true, t)
    else Done (AllowsIncomingIP (Some (tv_cfg v)) (tv_now v) (tv_lnow v) (fl_proto flow) (fl_src flow) (fl_srcPort flow)
                 (Some (fl_dst flow, fl_dstPort flow)), t).

(** ** Reading *)

Inductive tunError : Type := ErrTunInvalidOffset | ErrShortBuffer | ErrDevice (text : string).

(** [copy(buf[offset:], packet)] where the packet fits. *)
Definition copy_at (buf : list byte) (offset : Z) (packet : list byte) : list byte :=
  take (Z.to_nat offset) buf ++ packet ++ drop (Z.to_nat offset + length packet) buf.

Record batch : Type := MkBatch { b_bufs : list (list byte); b_sizes : list Z }.

(** One packet of the loop of [filterOutgoingRead]; [kept] packets are kept so
    far. *)
Definition filter_packet (v : tview) (offset i kept : Z) (b : batch) (t : flows)
  : run (option tunError * Z * batch * flows) :=
  let! buf := must (index (b_bufs b) i) in
  let! size := must (index (b_sizes b) i) in
  let! p := firewallTunPacket buf size offset in
  match p with
  | None => Done (None, kept, b, t)
  | Some packet =>
      let! flow := parseFirewallPacket packet in
      match flow with
      | None => Done (None, kept, b, t)
      | Some flow =>
          if blocksOutgoing v flow then Done (None, kept, b, t)
          else
            let t := tun_recordResponse v (reverse flow) t in
            let! dst := must (index (b_bufs b) kept) in
            if negb (kept =? i) && ((zlen dst <? offset) || (zlen dst - offset <? zlen packet))
            then Done (Some ErrShortBuffer, kept, b, t)
            else
              let bufs := if kept =? i then b_bufs b else <[Z.to_nat kept := copy_at dst offset packet]> (b_bufs b) in
              let! _ := must (index (b_sizes b) kept) in
              Done (None, kept + 1, MkBatch bufs (<[Z.to_nat kept := zlen packet]> (b_sizes b)), t)
      end
  end.

(** The loop over the [n] packets that are left; [views i] is what the check of
    packet [i] observes. *)
Fixpoint filter_go (n : nat) (views : Z -> tview) (offset i kept : Z) (b : batch) (t : flows)
  : run (option tunError * Z * batch * flows) :=
  match n with
  | O => Done (None, kept, b, t)
  | S n =>
      let! '(err, kept, b, t) := filter_packet (views i) offset i kept b t in
      match err with
      | Some _ => Done (err, kept, b, t)
      | None => filter_go n views offset (i + 1) kept b t
      end
  end.

Definition filterOutgoingRead (views : Z -> tview) (offset n : Z) (b : batch) (t : flows)
  : run (option tunError * Z * batch * flows) :=
  filter_go (Z.to_nat n) views offset 0 0 b t.

(** A result of the device's read, and what the checks of its packets observe. *)
Record tunRead : Type := MkTunRead { tr_n : Z; tr_err : option string; tr_batch : batch; tr_views : Z -> tview }.

(** The loop ends with the script where it would block. *)
Fixpoint read_loop (script : list tunRead) (offset : Z) (t : flows)
  : run (option (Z * option tunError * batch) * flows) :=
  match script with
  | [] => Done (None, t)
  | r :: script' =>
      let n := Z.min (Z.min (Z.max 0 (tr_n r)) (zlen (b_bufs (tr_batch r)))) (zlen (b_sizes (tr_batch r))) in
      let! '(filterErr, kept, b, t) := filterOutgoingRead (tr_views r) offset n (tr_batch r) t in
      match filterErr with
      | Some _ => Done (Some (kept, filterErr, b), t)
      | None =>
          if negb (kept =? 0) || (match tr_err r with Some _ => true | None => false end)
          then Done (Some (kept, ErrDevice <$> tr_err r, b), t)
          else read_loop script' offset t
      end
  end.

Definition tun_Read (script : list tunRead) (b : batch) (offset : Z) (t : flows)
  : run (option (Z * option tunError * batch) * flows) :=
  if offset <? 0 then Done (Some (0, Some ErrTunInvalidOffset, b), t) else read_loop script offset t.

(** ** Writing *)

Definition validatePacketOffset (bufs : list (list byte)) (offset : Z) : option tunError :=
  if offset <? 0 then Some ErrTunInvalidOffset
  else if existsb (fun buf => zlen buf <? offset) bufs then Some ErrShortBuffer else None.

(** The verdict on a packet of a batch. *)
Definition write_verdict (v : tview) (offset : Z) (buf : list byte) (t : flows) : run (bool * flows) :=
  let! packet := cut buf offset (zlen buf) in
  let! flow := parseFirewallPacket packet in
  match flow with
  | None => Done (false, t)
  | Some flow => tun_allowsIncoming v packet flow t
  end.

(** The locals of the loop of [Write]: the first denied packet, and, once an
    allowed one follows it, the allowed packets and their indexes. *)
Record write_state : Type := MkWriteState { ws_firstDenied : Z; ws_allowed : option (list (list byte) * list Z) }.

Definition note_verdict (bufs : list (list byte)) (i : Z) (buf : list byte) (ok : bool) (s : write_state) : write_state :=
  if negb ok then (if ws_firstDenied s <? 0 then MkWriteState i (ws_allowed s) else s)
  else if ws_firstDenied s <? 0 then s
  else
    let '(allowed, indexes) :=
      match ws_allowed s with
      | Some a => a
      | None => (take (Z.to_nat (ws_firstDenied s)) bufs, Z.of_nat <$> seq 0 (Z.to_nat (ws_firstDenied s)))
      end in
    MkWriteState (ws_firstDenied s) (Some (allowed ++ [buf], indexes ++ [i])).

Fixpoint write_go (views : Z -> tview) (bufs : list (list byte)) (offset i : Z) (rest : list (list byte))
    (s : write_state) (t : flows) : run (write_state * flows) :=
  match rest with
  | [] => Done (s, t)
  | buf :: rest' =>
      let! '(ok, t) := write_verdict (views i) offset buf t in
      write_go views bufs offset (i + 1) rest' (note_verdict bufs i buf ok s) t
  end.

(** The device's write: how many packets of the batch it took, and its error. *)
Definition device : Type := list (list byte) -> Z * option string.

(** The result, and the batches that the device was given. *)
Definition finish_write (dev : device) (bufs : list (list byte)) (s : write_state)
  : run (Z * option tunError * list (list (list byte))) :=
  let firstDenied := ws_firstDenied s in
  if firstDenied <? 0 then
    let '(w, err) := dev bufs in Done (w, ErrDevice <$> err, [bufs])
  else match ws_allowed s with
  | None =>
      if firstDenied =? 0 then Done (zlen bufs, None, [])
      else
        let! head := cut bufs 0 firstDenied in
        let '(w, err) := dev head in
        let w := Z.max 0 w in
        Done (if firstDenied <=? w then zlen bufs else w, ErrDevice <$> err, [head])
  | Some (allowed, indexes) =>
      let '(w, err) := dev allowed in
      if (zlen allowed <=? w) && (match err with None => true | Some _ => false end) then Done (zlen bufs, None, [allowed])
      else
        let w := Z.max 0 w in
        if zlen indexes <=? w then Done (zlen bufs, ErrDevice <$> err, [allowed])
        else let! i := must (index indexes w) in Done (i, ErrDevice <$> err, [allowed])
  end.

Definition tun_Write (dev : device) (views : Z -> tview) (bufs : list (list byte)) (offset : Z) (t : flows)
  : run (Z * option tunError * list (list (list byte)) * flows) :=
  match validatePacketOffset bufs offset with
  | Some e => Done (0, Some e, [], t)
  | None =>
      let! '(s, t) := write_go views bufs offset 0 bufs (MkWriteState (-1) None) t in
      let! '(w, err, calls) := finish_write dev bufs s in
      Done (w, err, calls, t)
  end.
