(* ===== verification/TunFirewallSpec.v ===== *)
(** * What the packet firewall lets through

    The reference for src/tun/firewall.go: the parser returns on every packet;
    a batch that leaves the host keeps, in order, the packets that the rules do
    not block, and remembers their flows; a batch that enters it forwards the
    packets that answer a remembered flow, that report an error about one, or
    that the rules include, and the returned count lets the caller resume after
    a partial write. *)

From stdpp Require Import gmap.
From S2P Require Import Prelude GoStd HostPort NetIP NetText PathMatch DNSCache Bytecode Machine AddrCache SockOwner FirewallConfig FirewallOptimize FirewallPolicy FirewallMerge ResponseTable Firewall FirewallConn.
From S2P Require Import TunFirewall.

(** ** The parser returns *)

Lemma transport_offset_total fuel packet next offset :
  0 <= next < 256 -> 0 <= offset <= zlen packet -> (Z.to_nat (zlen packet - offset) < fuel)%nat ->
  exists r, transport_offset fuel packet next offset = Done r /\
    match r with Some (o, p) => offset <= o <= zlen packet /\ 0 <= p < 256 | None => True end.
Proof.
  revert next offset. induction fuel as [|fuel IH]; intros next offset Hn Ho Hf; [lia|]. cbn [transport_offset].
  assert (Hgo : forall next' l, 0 <= next' < 256 -> 8 <= l -> offset + l <= zlen packet ->
    exists r, transport_offset fuel packet next' (offset + l) = Done r /\
      match r with Some (o, p) => offset <= o <= zlen packet /\ 0 <= p < 256 | None => True end).
  { intros next' l Hn' Hl Hle. destruct (IH next' (offset + l) Hn' ltac:(lia) ltac:(lia)) as (r & -> & Hr).
    exists r. split; [done|]. destruct r as [[o p]|]; [|done]. lia. }
  destruct ((next =? 0) || (next =? 43) || (next =? 60)).
  { destruct (Z.ltb_spec (zlen packet) (offset + 2)); [by eexists|]. step_reads.
    destruct (_ || _) eqn:El; [by eexists|]. apply Hgo; lia. }
  destruct (next =? 44).
  { destruct (Z.ltb_spec (zlen packet) (offset + 8)); [by eexists|]. step_reads.
    destruct (negb _); [|apply Hgo; lia]. eexists. split; [done|]. cbn. lia. }
  destruct (next =? 51).
  { destruct (Z.ltb_spec (zlen packet) (offset + 2)); [by eexists|]. step_reads.
    destruct (_ || _) eqn:El; [by eexists|]. apply Hgo; lia. }
  eexists. split; [done|]. destruct (Z.leb_spec offset (zlen packet)); [lia|done].
Qed.

Lemma ipv6TransportOffset_total packet : exists r, ipv6TransportOffset packet = Done r /\
  match r with Some (o, p) => 40 <= o <= zlen packet /\ 0 <= p < 256 | None => True end.
Proof.
  unfold ipv6TransportOffset. destruct (Z.ltb_spec (zlen packet) 40); [by eexists|]. step_reads.
  apply transport_offset_total; [lia|lia|]. unfold zlen in *. lia.
Qed.

Lemma ports_total proto payload : exists sp dp, firewallTransportPorts proto payload = Done (sp, dp) /\
  0 <= sp < 65536 /\ 0 <= dp < 65536.
Proof.
  unfold firewallTransportPorts. destruct (_ && _); cbn [orb]; [by exists 0, 0|].
  destruct (Z.ltb_spec (zlen payload) 4); [by exists 0, 0|]. step_reads. by eexists _, _.
Qed.

(** The fields of a flow have the widths of their types, and its addresses are
    those of one family. *)
Definition flow_wf (f : firewallFlow) : Prop :=
  0 <= fl_proto f < 256 /\ 0 <= fl_srcPort f < 65536 /\ 0 <= fl_dstPort f < 65536 /\
  (fl_version f = 4 /\ Is4 (fl_src f) = true /\ Is4 (fl_dst f) = true \/
   fl_version f = 6 /\ Is6 (fl_src f) = true /\ Is6 (fl_dst f) = true).

Lemma AddrFromSlice_4 b : zlen b = 4 -> AddrFromSlice b = Some (AddrFrom4 b).
Proof. intros Hb. unfold AddrFromSlice. by rewrite Hb. Qed.

Lemma AddrFromSlice_16 b : zlen b = 16 -> AddrFromSlice b = Some (AddrFrom16 b).
Proof. intros Hb. unfold AddrFromSlice. by rewrite Hb. Qed.

Lemma parseFirewallIPv4_total packet : exists r, parseFirewallIPv4 packet = Done r /\
  match r with Some f => flow_wf f | None => True end.
Proof.
  unfold parseFirewallIPv4. destruct (Z.ltb_spec (zlen packet) 20); [by eexists|].
  destruct (rd8_in_range packet 0) as (b0 & -> & Hb0); [lia|]. cbn [run_bind].
  destruct (rd16_in_range packet 2) as (total & -> & Htotal); [lia..|]. cbn [run_bind].
  set (headerLen := Z.land b0 15 * 4). destruct (_ || _ || _ || _) eqn:Eg; [by eexists|].
  destruct (cut_in_range packet 12 16) as (src & -> & _ & Hsrc); [lia..|]. cbn [run_bind].
  rewrite AddrFromSlice_4 by lia. destruct (cut_in_range packet 16 20) as (dst & -> & _ & Hdst); [lia..|].
  cbn [run_bind]. rewrite AddrFromSlice_4 by lia.
  destruct (rd8_in_range packet 9) as (proto & -> & Hproto); [lia|]. cbn [run_bind].
  destruct (rd16_in_range packet 6) as (frag & -> & _); [lia..|]. cbn [run_bind].
  destruct (Z.land frag 8191 =? 0).
  - destruct (cut_in_range packet headerLen total) as (payload & -> & _); [lia..|]. cbn [run_bind].
    destruct (ports_total proto payload) as (sp & dp & -> & Hsp & Hdp). cbn [run_bind]. eexists. split; [done|].
    split_and!; cbn; try lia; by left.
  - eexists. split; [done|]. split_and!; cbn; try lia; by left.
Qed.

Lemma parseFirewallIPv6_total packet : exists r, parseFirewallIPv6 packet = Done r /\
  match r with Some f => flow_wf f | None => True end.
Proof.
  unfold parseFirewallIPv6. destruct (Z.ltb_spec (zlen packet) 40); [by eexists|].
  destruct (rd16_in_range packet 4) as (payloadLen & -> & _); [lia..|]. cbn [run_bind].
  destruct (_ && _); [by eexists|]. destruct (cut_in_range packet 8 24) as (src & -> & _ & Hsrc); [lia..|]. cbn [run_bind].
  rewrite AddrFromSlice_16 by lia. destruct (cut_in_range packet 24 40) as (dst & -> & _ & Hdst); [lia..|].
  cbn [run_bind]. rewrite AddrFromSlice_16 by lia. destruct (ipv6TransportOffset_total packet) as ([[o proto]|] & -> & Ho);
    cbn [run_bind]; [|by eexists]. destruct (cut_in_range packet o (zlen packet)) as (payload & -> & _); [lia..|]. cbn [run_bind].
  destruct (ports_total proto payload) as (sp & dp & -> & Hsp & Hdp). cbn [run_bind]. eexists. split; [done|].
  split_and!; cbn; try lia; by right.
Qed.

Lemma parseFirewallPacket_total packet : exists r, parseFirewallPacket packet = Done r /\
  match r with Some f => flow_wf f /\ 0 < zlen packet | None => True end.
Proof.
  unfold parseFirewallPacket. destruct (Z.eqb_spec (zlen packet) 0); [by eexists|]. pose proof (zlen_nonneg packet).
  destruct (rd8_in_range packet 0) as (b0 & -> & Hb0); [lia|]. cbn [run_bind].
  destruct (_ =? 4); [|destruct (_ =? 6); [|by eexists]].
  - destruct (parseFirewallIPv4_total packet) as (r & -> & Hr). exists r. split; [done|]. destruct r; [by split; [|lia]|done].
  - destruct (parseFirewallIPv6_total packet) as (r & -> & Hr). exists r. split; [done|]. destruct r; [by split; [|lia]|done].
Qed.

(** The flow of a packet, and the packet that it quotes. *)
Definition flow_of_packet (packet : list byte) : option firewallFlow :=
  match parseFirewallPacket packet with Done r => r | _ => None end.

Lemma parse_flow packet : parseFirewallPacket packet = Done (flow_of_packet packet).
Proof. unfold flow_of_packet. by destruct (parseFirewallPacket_total packet) as (r & -> & _). Qed.

Definition quote_of (packet : list byte) (flow : firewallFlow) : option (list byte) :=
  match quoted_packet packet flow with Done r => r | _ => None end.

Lemma quoted_total packet flow : 0 < zlen packet -> quoted_packet packet flow = Done (quote_of packet flow).
Proof.
  intros Hlen. unfold quote_of. assert (Hr : exists r, quoted_packet packet flow = Done r); [|by destruct Hr as [r ->]].
  unfold quoted_packet. destruct (_ && _).
  - destruct (rd8_in_range packet 0) as (b0 & -> & Hb0); [lia|]. cbn [run_bind].
    assert (Hland : 0 <= Z.land b0 15) by (apply Z.land_nonneg; lia).
    destruct (Z.ltb_spec (zlen packet) (Z.land b0 15 * 4 + 8)); [by eexists|]. step_reads. destruct (negb _); by eexists.
  - destruct (_ && _); [|by eexists]. destruct (ipv6TransportOffset_total packet) as ([[o proto]|] & -> & Ho); cbn [run_bind]; [|by eexists].
    destruct (Z.ltb_spec (zlen packet) (o + 8)); [by eexists|]. step_reads. destruct (128 <=? _); by eexists.
Qed.

(** ** The checks *)

(** A packet reports an error about a remembered flow. *)
Definition related (h : history firewallFlow) (v : tview) (packet : list byte) (flow : firewallFlow) : bool :=
  match quote_of packet flow ≫= flow_of_packet with
  | Some original => alive h (reverse original) (tv_again v)
  | None => false
  end.

(** A packet that enters the host is admitted. *)
Definition admits_packet (h : history firewallFlow) (v : tview) (packet : list byte) : bool :=
  match flow_of_packet packet with
  | None => false
  | Some flow =>
      alive h flow (tv_has v) || related h v packet flow ||
      AllowsIncomingIP (Some (tv_cfg v)) (tv_now v) (tv_lnow v) (fl_proto flow) (fl_src flow) (fl_srcPort flow)
        (Some (fl_dst flow, fl_dstPort flow))
  end.

(** The flow of a packet that leaves the host, unless the rules block it. *)
Definition leaves (v : tview) (packet : list byte) : option firewallFlow :=
  match flow_of_packet packet with
  | Some flow => if blocksOutgoing v flow then None else Some flow
  | None => None
  end.

Lemma related_spec h t v packet flow : 0 < zlen packet -> table_ok h t (tv_again v) ->
  exists t', relatedICMPResponse v packet flow t = Done (related h v packet flow, t') /\ table_ok h t' (tv_again v).
Proof.
  intros Hlen Ht. unfold relatedICMPResponse, related. rewrite quoted_total by done. cbn [run_bind].
  destruct (quote_of packet flow) as [embedded|]; cbn [mbind option_bind]; [|by exists t].
  rewrite parse_flow. cbn [run_bind]. destruct (flow_of_packet embedded) as [original|]; [|by exists t].
  destruct (has_response_spec h t (tv_again v) (reverse original) Ht) as [Ha Ht'].
  eexists. split; [|exact Ht']. by rewrite <- Ha, <- surjective_pairing.
Qed.

Lemma verdict_spec h t now v offset buf : 0 <= offset <= zlen buf ->
  table_ok h t now -> ticks now [tv_has v; tv_again v] ->
  exists t', write_verdict v offset buf t = Done (admits_packet h v (drop (Z.to_nat offset) buf), t') /\
    table_ok h t' (tv_again v).
Proof.
  intros Ho Ht (H1 & H2 & _). unfold write_verdict, admits_packet.
  destruct (cut_in_range buf offset (zlen buf)) as (packet & -> & Hs & Hlen); [lia..|]. cbn [run_bind].
  assert (Hp : drop (Z.to_nat offset) buf = packet).
  { revert Hs. unfold slice. destruct (_ && _); [|done]. intros [= <-]. symmetry. apply take_ge.
    rewrite length_drop. unfold zlen. lia. }
  rewrite Hp, parse_flow. cbn [run_bind].
  assert (Hnow : forall t', table_ok h t' (tv_has v) -> table_ok h t' (tv_again v)) by (intros t' Ht'; by eapply table_ok_later).
  apply (table_ok_later _ _ _ (tv_has v)) in Ht; [|done].
  destruct (parseFirewallPacket_total packet) as (r & Er & Hr). rewrite parse_flow in Er. injection Er as <-.
  destruct (flow_of_packet packet) as [flow|]; [|exists t; auto]. destruct Hr as [_ Hne]. unfold tun_allowsIncoming.
  destruct (has_response_spec h t (tv_has v) flow Ht) as [Ha Ht']. destruct (has_response flow (tv_has v) t) as [known t1].
  cbn [fst snd] in Ha, Ht'. subst known. destruct (alive h flow (tv_has v)); cbn [orb]; [exists t1; auto|].
  destruct (related_spec h t1 v packet flow Hne (Hnow _ Ht')) as (t2 & -> & Ht2). cbn [run_bind].
  destruct (related h v packet flow); cbn [orb]; by exists t2.
Qed.

(** ** Writing a batch *)

(** The elements that are marked. *)
Definition select {A} (l : list A) (marks : list bool) : list A := map fst (List.filter snd (zip l marks)).

Lemma select_app {A} (l1 l2 : list A) m1 m2 : length l1 = length m1 -> select (l1 ++ l2) (m1 ++ m2) = select l1 m1 ++ select l2 m2.
Proof.
  intros Hl. unfold select. rewrite zip_with_app by done. rewrite List.filter_app. apply map_app.
Qed.

Lemma select_all {A} (l : list A) m : length l = length m -> forallb id m = true -> select l m = l.
Proof.
  revert m. induction l as [|x l IH]; intros [|b m] Hl; cbn; [done..|]. intros [Hb Hm]%andb_true_iff.
  unfold id in Hb. subst b. cbn [List.filter snd map fst]. f_equal. apply IH; [cbn in Hl; lia|done].
Qed.

Lemma select_none {A} (l : list A) m : forallb negb m = true -> select l m = [].
Proof.
  revert m. induction l as [|x l IH]; intros [|b m]; cbn; [done..|]. intros [Hb Hm]%andb_true_iff. destruct b; [done|].
  by apply IH.
Qed.

Lemma select_length {A B} (l : list A) (k : list B) m : length l = length k -> length (select l m) = length (select k m).
Proof.
  unfold select. rewrite !length_map. revert k m. induction l as [|x l IH]; intros [|y k] m Hl; try done.
  destruct m as [|b m]; [done|]. cbn in *. injection Hl as Hl. specialize (IH k m Hl). destruct b; cbn; lia.
Qed.

(** The [w]-th marked element is preceded by [w] marked ones. *)
Lemma select_nth {A} (l : list A) m k w i : length l = length m ->
  select (seq k (length m)) m !! w = Some i ->
  exists j, i = (k + j)%nat /\ m !! j = Some true /\ select (take j l) (take j m) = take w (select l m).
Proof.
  revert l k w. induction m as [|b m IH]; intros [|x l] k w Hl Hs; try done. cbn in Hl. injection Hl as Hl.
  destruct b.
  - change (select (x :: l) (true :: m)) with (x :: select l m).
    change (select (seq k (length (true :: m))) (true :: m)) with (k :: select (seq (S k) (length m)) m) in Hs. destruct w as [|w]; [injection Hs as <-; exists 0%nat; by rewrite Nat.add_0_r|].
    destruct (IH l (S k) w Hl Hs) as (j & -> & Hj & Hsel). exists (S j). split; [lia|]. split; [done|].
    cbn [take]. change (select (x :: take j l) (true :: take j m)) with (x :: select (take j l) (take j m)). by rewrite Hsel.
  - destruct (IH l (S k) w Hl Hs) as (j & -> & Hj & Hsel). exists (S j). split; [lia|]. by split.
Qed.

Fixpoint verdicts (views : Z -> tview) (h : history firewallFlow) (offset i : Z) (rest : list (list byte)) : list bool :=
  match rest with
  | [] => []
  | buf :: rest' => admits_packet h (views i) (drop (Z.to_nat offset) buf) :: verdicts views h offset (i + 1) rest'
  end.

Fixpoint view_times (views : Z -> tview) (i : Z) (n : nat) : list Z :=
  match n with O => [] | S n => [tv_has (views i); tv_again (views i)] ++ view_times views (i + 1) n end.

Fixpoint note_all (bufs : list (list byte)) (i : Z) (rest : list (list byte)) (marks : list bool) (s : write_state) : write_state :=
  match rest, marks with
  | buf :: rest', ok :: marks' => note_all bufs (i + 1) rest' marks' (note_verdict bufs i buf ok s)
  | _, _ => s
  end.

Lemma write_go_spec views bufs offset h rest i s t now : 0 <= offset -> Forall (fun buf => offset <= zlen buf) rest ->
  table_ok h t now -> ticks now (view_times views i (length rest)) ->
  exists t', write_go views bufs offset i rest s t = Done (note_all bufs i rest (verdicts views h offset i rest) s, t') /\
    table_ok h t' (last_tick now (view_times views i (length rest))).
Proof.
  intros Ho Hr. revert i s t now. induction Hr as [|buf rest Hbuf Hr IH]; intros i s t now Ht Hc; [by exists t|].
  cbn [length view_times write_go verdicts note_all] in *. apply ticks_app in Hc as [H1 H2]. rewrite last_tick_app.
  destruct (verdict_spec h t now (views i) offset buf ltac:(lia) Ht H1) as (t1 & -> & Ht1). cbn [run_bind].
  by apply IH.
Qed.

Lemma verdicts_length views h offset i rest : length (verdicts views h offset i rest) = length rest.
Proof. revert i. induction rest as [|buf rest IH]; intros i; [done|]. cbn. by rewrite IH. Qed.

(** What the locals of the loop say of the packets seen so far. *)
Definition describes (s : write_state) (pre : list (list byte)) (m : list bool) : Prop :=
  length pre = length m /\
  if ws_firstDenied s <? 0 then ws_allowed s = None /\ forallb id m = true
  else exists m1 m2, m = m1 ++ false :: m2 /\ forallb id m1 = true /\ ws_firstDenied s = zlen m1 /\
    match ws_allowed s with
    | None => forallb negb m2 = true
    | Some (allowed, indexes) =>
        allowed = select pre m /\ indexes = Z.of_nat <$> select (seq 0 (length m)) m /\ allowed <> []
    end.

(** The allowed packets when none follows the first denied one. *)
Lemma select_head {A} (l : list A) m1 m2 : length l = length (m1 ++ false :: m2) -> forallb id m1 = true ->
  forallb negb m2 = true -> select l (m1 ++ false :: m2) = take (length m1) l.
Proof.
  intros Hl H1 H2. rewrite <- (take_drop (length m1) l) at 1.
  assert (Ht : length (take (length m1) l) = length m1) by (rewrite length_take, Hl, length_app; lia).
  rewrite select_app by done. rewrite select_all by done. rewrite select_none by done. apply app_nil_r.
Qed.

Lemma select_snoc {A} (l : list A) m x (b : bool) : length l = length m ->
  select (l ++ [x]) (m ++ [b]) = select l m ++ (if b then [x] else []).
Proof. intros Hl. rewrite select_app by done. by destruct b. Qed.

Lemma select_seq_snoc m (b : bool) :
  select (seq 0 (length (m ++ [b]))) (m ++ [b]) = select (seq 0 (length m)) m ++ (if b then [length m] else []).
Proof. rewrite length_app. cbn [length]. rewrite Nat.add_1_r, seq_S, select_snoc by (by rewrite length_seq). done. Qed.

Lemma note_describes bufs pre rest m buf ok s : bufs = pre ++ rest -> describes s pre m ->
  describes (note_verdict bufs (zlen pre) buf ok s) (pre ++ [buf]) (m ++ [ok]).
Proof.
  intros Hb [Hl Hs]. assert (Hlen : zlen pre = zlen m) by (unfold zlen; lia).
  assert (Hl' : length (pre ++ [buf]) = length (m ++ [ok])) by (rewrite !length_app; cbn; lia).
  unfold note_verdict. destruct ok; cbn [negb].
  - destruct (ws_firstDenied s <? 0) eqn:Ef.
    + split; [done|]. rewrite Ef. destruct Hs as [Ha Hm]. split; [done|]. by rewrite forallb_app, Hm.
    + destruct Hs as (m1 & m2 & -> & H1 & Hf & Ha).
      assert (Hsel : match ws_allowed s with
        | Some a => a
        | None => (take (Z.to_nat (ws_firstDenied s)) bufs, Z.of_nat <$> seq 0 (Z.to_nat (ws_firstDenied s))) end =
        (select pre (m1 ++ false :: m2), Z.of_nat <$> select (seq 0 (length (m1 ++ false :: m2))) (m1 ++ false :: m2))).
      { destruct (ws_allowed s) as [[a ix]|]; [by destruct Ha as (-> & -> & _)|].
        rewrite !select_head by (done || by rewrite length_seq). unfold zlen in Hf. rewrite Hf, Nat2Z.id.
        rewrite Hb, take_app_le by (rewrite Hl, length_app; lia). rewrite take_seq, Nat.min_l by (rewrite length_app; lia). done. }
      rewrite Hsel. split; [done|]. cbn [ws_firstDenied ws_allowed]. rewrite Ef. exists m1, (m2 ++ [true]).
      split_and!; [by rewrite <- app_assoc|done|done|by rewrite select_snoc| |by intros [_ [=]]%app_nil].
      rewrite select_seq_snoc, fmap_app. cbn. do 2 f_equal. rewrite Hlen. by unfold zlen.
  - destruct (ws_firstDenied s <? 0) eqn:Ef.
    + split; [done|]. cbn [ws_firstDenied ws_allowed]. pose proof (zlen_nonneg pre). rewrite (proj2 (Z.ltb_ge _ _)) by lia.
      destruct Hs as [Ha Hm]. exists m, []. rewrite Ha. split_and!; done.
    + split; [done|]. rewrite Ef. destruct Hs as (m1 & m2 & -> & H1 & Hf & Ha). exists m1, (m2 ++ [false]).
      split_and!; [by rewrite <- app_assoc|done..|]. destruct (ws_allowed s) as [[a ix]|].
      * destruct Ha as (-> & -> & Hne). rewrite select_snoc, app_nil_r by done. split_and!; [done| |done].
        by rewrite select_seq_snoc, app_nil_r.
      * by rewrite forallb_app, Ha.
Qed.

Lemma note_all_describes bufs pre rest m marks s : bufs = pre ++ rest -> length rest = length marks -> describes s pre m ->
  describes (note_all bufs (zlen pre) rest marks s) bufs (m ++ marks).
Proof.
  revert pre m marks s. induction rest as [|buf rest IH]; intros pre m marks s Hb Hl Hd.
  - destruct marks; [|done]. cbn [note_all]. by rewrite Hb, !app_nil_r.
  - destruct marks as [|ok marks]; [done|]. cbn [note_all].
    pose proof (note_describes bufs pre (buf :: rest) m buf ok s Hb Hd) as Hn.
    replace (zlen pre + 1) with (zlen (pre ++ [buf])) by (unfold zlen; rewrite length_app; cbn; lia).
    replace (m ++ ok :: marks) with ((m ++ [ok]) ++ marks) by by rewrite <- app_assoc.
    apply IH; [by rewrite <- app_assoc|cbn in Hl; lia|done].
Qed.

Lemma all_true_lookup m i : forallb id m = true -> (i < length m)%nat -> m !! i = Some true.
Proof.
  intros Hm Hi. destruct (lookup_lt_is_Some_2 m i Hi) as [b Hb]. rewrite Hb. f_equal.
  rewrite forallb_forall in Hm. apply (Hm b), list_elem_of_In. by eapply list_elem_of_lookup_2.
Qed.

Lemma all_true_take m i : forallb id m = true -> forallb id (take i m) = true.
Proof. rewrite <- (take_drop i m) at 1. rewrite forallb_app. by intros [H _]%andb_true_iff. Qed.

(** [n] packets are consumed when the device took [w] of the allowed ones: the
    rest starts with the first packet that it did not take. *)
Definition consumed (bufs : list (list byte)) (m : list bool) (w n : Z) : Prop :=
  let allowed := select bufs m in
  0 <= n <= zlen bufs /\
  select (take (Z.to_nat n) bufs) (take (Z.to_nat n) m) = take (Z.to_nat w) allowed /\
  (w < zlen allowed -> m !! Z.to_nat n = Some true) /\ (w = zlen allowed -> n = zlen bufs).

Lemma consumed_all bufs m w : length bufs = length m -> w = zlen (select bufs m) -> consumed bufs m w (zlen bufs).
Proof.
  intros Hl ->. pose proof (zlen_nonneg bufs). unfold consumed. split; [lia|]. split_and!; [|lia|done].
  unfold zlen. rewrite !Nat2Z.id, Hl, !take_ge by lia. done.
Qed.

(** A prefix whose packets are all allowed. *)
Lemma consumed_prefix bufs m w : length bufs = length m -> 0 <= w < zlen (select bufs m) ->
  forallb id (take (Z.to_nat w) m) = true -> m !! Z.to_nat w = Some true ->
  take (Z.to_nat w) (select bufs m) = take (Z.to_nat w) bufs -> consumed bufs m w w.
Proof.
  intros Hl Hw Ht Hm Hs. apply lookup_lt_Some in Hm as Hlt. unfold consumed. split_and!; [lia|unfold zlen; lia| |done|lia].
  rewrite Hs. apply select_all; [rewrite !length_take; lia|done].
Qed.

Lemma finish_write_spec dev bufs m s w e (allowed := select bufs m) : describes s bufs m ->
  dev allowed = (w, e) -> 0 <= w <= zlen allowed ->
  let calls := if (zlen allowed =? 0) && negb (zlen bufs =? 0) then [] else [allowed] in
  exists n, finish_write dev bufs s = Done (n, if zlen calls =? 0 then None else ErrDevice <$> e, calls) /\ consumed bufs m w n.
Proof.
  intros [Hl Hs] Hd Hw. unfold finish_write. destruct (ws_firstDenied s <? 0) eqn:Ef.
  - destruct Hs as [_ Hm]. assert (Ha : allowed = bufs) by by apply select_all. rewrite Ha in *. rewrite Hd.
    exists w. split; [by destruct (zlen bufs =? 0)|]. destruct (Z.eq_dec w (zlen bufs)) as [->|Hne].
    + apply consumed_all; [done|]. by fold allowed; rewrite Ha.
    + apply consumed_prefix; fold allowed; rewrite ?Ha; [done|lia|by apply all_true_take| |done].
      apply all_true_lookup; [done|]. unfold zlen in *. lia.
  - destruct Hs as (m1 & m2 & -> & H1 & Hf & Ha). assert (Hbl : zlen bufs =? 0 = false).
    { apply Z.eqb_neq. unfold zlen. rewrite Hl, length_app. cbn. lia. }
    rewrite Hbl. cbn [negb]. rewrite andb_true_r. destruct (ws_allowed s) as [[a ix]|].
    + destruct Ha as (-> & -> & Hne). fold allowed in Hne |- *. rewrite Hd.
      assert (Hz : zlen allowed =? 0 = false) by (apply Z.eqb_neq; unfold zlen; destruct allowed; [done|cbn; lia]).
      rewrite Hz. change (zlen [allowed] =? 0) with false. cbn iota.
      assert (Hix : zlen (Z.of_nat <$> select (seq 0 (length (m1 ++ false :: m2))) (m1 ++ false :: m2)) = zlen allowed).
      { unfold zlen. rewrite length_fmap. f_equal. apply select_length. by rewrite length_seq. }
      destruct (Z.eq_dec w (zlen allowed)) as [->|Hlt].
      * exists (zlen bufs). split; [|by apply consumed_all]. rewrite Z.leb_refl, Hix, Z.max_r, Z.leb_refl by lia. by destruct e.
      * rewrite (proj2 (Z.leb_gt _ _)), Hix, Z.max_r, (proj2 (Z.leb_gt _ _)) by lia. cbn [andb].
        destruct (index_in_range (Z.of_nat <$> select (seq 0 (length (m1 ++ false :: m2))) (m1 ++ false :: m2)) w) as [i Hi]; [lia|].
        rewrite Hi. cbn [must run_bind]. exists i. split; [done|]. unfold index in Hi. destruct (w <? 0); [done|].
        rewrite list_lookup_fmap in Hi. apply fmap_Some in Hi as (j & Hj & ->).
        destruct (select_nth bufs _ _ _ _ Hl Hj) as (j' & -> & Hm & Hsel). cbn [Nat.add]. unfold consumed.
        rewrite Nat2Z.id. apply lookup_lt_Some in Hm as Hlt'. split_and!; [unfold zlen; lia..|done|done|fold allowed; lia].
    + assert (Hall : allowed = take (length m1) bufs) by by apply select_head.
      assert (Hk : zlen allowed = zlen m1).
      { rewrite Hall. unfold zlen. rewrite length_take, Hl, length_app. lia. }
      rewrite Hf, <- Hk. destruct (zlen allowed =? 0) eqn:Ez.
      * exists (zlen bufs). split; [done|]. apply consumed_all; [done|]. fold allowed. lia.
      * assert (Hle : zlen m1 < zlen bufs) by (unfold zlen; rewrite Hl, length_app; cbn; lia).
        destruct (cut_in_range bufs 0 (zlen allowed)) as (head & Hcut & Hslice & _); [lia..|].
        assert (Hh : head = allowed).
        { revert Hslice. unfold slice. destruct (_ && _); [|done]. intros [= <-]. rewrite Z.sub_0_r, drop_0, Hk, Hall.
          unfold zlen. by rewrite Nat2Z.id. }
        rewrite Hcut, Hh. cbn [run_bind]. rewrite Hd, Z.max_r by lia. change (zlen [allowed] =? 0) with false. cbn iota.
        eexists. split; [done|]. destruct (Z.leb_spec (zlen allowed) w); [apply consumed_all; [done|fold allowed; lia]|].
        assert (Hw1 : (Z.to_nat w < length m1)%nat) by (unfold zlen in *; lia).
        apply consumed_prefix; fold allowed; [done|lia| | |].
        -- rewrite take_app_le by lia. by apply all_true_take.
        -- rewrite lookup_app_l by done. by apply all_true_lookup.
        -- rewrite Hall, take_take. by rewrite Nat.min_l by lia.
Qed.

(** ** Reading a batch *)

(** The packet in a slot of a batch. *)
Definition slot (b : batch) (offset i : Z) : option (list byte) :=
  match index (b_bufs b) i, index (b_sizes b) i with
  | Some buf, Some size =>
      if (size <? 0) || (zlen buf <? offset) || (zlen buf - offset <? size) then None
      else slice buf offset (offset + size)
  | _, _ => None
  end.

(** The packets that leave the host, among [n] slots from slot [i], with their
    flows and what their checks observed. *)
Fixpoint leaving (b : batch) (views : Z -> tview) (offset i : Z) (n : nat) : list (list byte * firewallFlow * tview) :=
  match n with
  | O => []
  | S n =>
      match slot b offset i ≫= fun packet => (fun flow => (packet, flow, views i)) <$> leaves (views i) packet with
      | Some p => p :: leaving b views offset (i + 1) n
      | None => leaving b views offset (i + 1) n
      end
  end.

(** Their flows are remembered, the latest first. *)
Definition recall (h : history firewallFlow) (out : list (list byte * firewallFlow * tview)) : history firewallFlow :=
  fold_left (fun h p => (reverse p.1.2, i64 (tv_has p.2 + tun_responseTTL (tv_cfg' p.2))) :: h) out h.

(** The readings of the clock by the first [n] packets of a batch. *)
Fixpoint record_times (views : Z -> tview) (i : Z) (n : nat) : list Z :=
  match n with O => [] | S n => tv_has (views i) :: record_times views (i + 1) n end.

(** The first packets of a batch are [out]; the slots from [i] on are those of
    [b0], and every buffer keeps its length. *)
Record compacted (b0 b : batch) (offset i : Z) (out : list (list byte * firewallFlow * tview)) : Prop := {
  cp_bufs : map length (b_bufs b) = map length (b_bufs b0);
  cp_sizes : length (b_sizes b) = length (b_sizes b0);
  cp_kept : zlen out <= i;
  cp_rest : forall j, i <= j -> index (b_bufs b) j = index (b_bufs b0) j /\ index (b_sizes b) j = index (b_sizes b0) j;
  cp_out : forall j p, out !! j = Some p -> slot b offset (Z.of_nat j) = Some p.1.1 }.

Lemma index_insert_eq {A} (l : list A) i x : 0 <= i < zlen l -> index (<[Z.to_nat i := x]> l) i = Some x.
Proof. intros Hi. unfold index, zlen in *. destruct (Z.ltb_spec i 0); [lia|]. apply list_lookup_insert_eq. lia. Qed.

Lemma index_insert_ne {A} (l : list A) i j x : 0 <= i -> i <> j -> index (<[Z.to_nat i := x]> l) j = index l j.
Proof. intros Hi Hne. unfold index. destruct (Z.ltb_spec j 0); [done|]. apply list_lookup_insert_ne. lia. Qed.

Lemma firewallTunPacket_slot b offset i buf size : 0 <= offset -> index (b_bufs b) i = Some buf ->
  index (b_sizes b) i = Some size -> firewallTunPacket buf size offset = Done (slot b offset i).
Proof.
  intros Ho Hb Hs. unfold firewallTunPacket, slot. rewrite Hb, Hs, (proj2 (Z.ltb_ge _ _) Ho), orb_false_r.
  destruct (_ || _ || _) eqn:E; [done|]. destruct (cut_in_range buf offset (offset + size)) as (p & -> & -> & _); [lia..|]. done.
Qed.

Lemma slot_same b b' offset i : index (b_bufs b') i = index (b_bufs b) i -> index (b_sizes b') i = index (b_sizes b) i ->
  slot b' offset i = slot b offset i.
Proof. intros H1 H2. unfold slot. by rewrite H1, H2. Qed.

Lemma slot_length b offset i packet : slot b offset i = Some packet -> exists buf, index (b_bufs b) i = Some buf /\
  index (b_sizes b) i = Some (zlen packet) /\ offset <= zlen buf /\ zlen packet <= zlen buf - offset.
Proof.
  unfold slot. destruct (index (b_bufs b) i) as [buf|]; [|done]. destruct (index (b_sizes b) i) as [size|]; [|done].
  destruct (_ || _ || _) eqn:E; [done|]. intros Hs. apply zlen_slice in Hs as Hl. exists buf.
  split_and!; [done|f_equal; lia|lia|lia].
Qed.

Lemma slice_copy_at buf offset packet : 0 <= offset -> offset + zlen packet <= zlen buf ->
  slice (copy_at buf offset packet) offset (offset + zlen packet) = Some packet /\
  length (copy_at buf offset packet) = length buf.
Proof.
  intros Ho Hl. assert (Hlen : length (copy_at buf offset packet) = length buf).
  { unfold copy_at, zlen in *. rewrite !length_app, length_take, length_drop. lia. }
  split; [|done]. unfold slice, zlen in *. rewrite Hlen. rewrite !(proj2 (Z.leb_le _ _)) by lia. cbn [andb]. f_equal.
  unfold copy_at. replace (Z.to_nat (offset + Z.of_nat (length packet) - offset)) with (length packet) by lia.
  rewrite drop_app_length' by (rewrite length_take; lia). by apply take_app_length.
Qed.

(** A slot of a batch in which a packet was stored. *)
Lemma slot_stored b offset i buf packet : index (b_bufs b) i = Some buf -> index (b_sizes b) i = Some (zlen packet) ->
  offset + zlen packet <= zlen buf -> 0 <= offset -> slice buf offset (offset + zlen packet) = Some packet ->
  slot b offset i = Some packet.
Proof.
  intros Hb Hs Hl Ho Hsl. unfold slot. rewrite Hb, Hs. pose proof (zlen_nonneg packet).
  rewrite !(proj2 (Z.ltb_ge _ _)) by lia. done.
Qed.

Lemma map_length_insert (l : list (list byte)) i x y : index l i = Some y -> length x = length y ->
  map length (<[Z.to_nat i := x]> l) = map length l.
Proof.
  intros Hi Hl. unfold index in Hi. destruct (Z.ltb_spec i 0); [done|]. change (map length) with (fmap (M := list) (@length byte)).
  rewrite list_fmap_insert, Hl. apply list_insert_id. by rewrite list_lookup_fmap, Hi.
Qed.

Section Read.
Context (b0 : batch) (views : Z -> tview) (offset : Z).
Hypothesis Ho : 0 <= offset.

Notation packets := (list (list byte * firewallFlow * tview)).

(** A packet that is dropped. *)
Lemma compacted_skip b i (out : packets) : compacted b0 b offset i out -> compacted b0 b offset (i + 1) out.
Proof. intros [H1 H2 H3 H4 H5]. split; [done|done|lia| |done]. intros j Hj. apply H4. lia. Qed.

(** A packet that is kept, in place or moved. *)
Lemma compacted_keep b i (out : packets) packet flow v bufs : compacted b0 b offset i out -> 0 <= i ->
  i < zlen (b_bufs b) -> i < zlen (b_sizes b) ->
  (forall j, j <> zlen out -> index bufs j = index (b_bufs b) j) -> map length bufs = map length (b_bufs b) ->
  (exists buf, index bufs (zlen out) = Some buf /\ offset + zlen packet <= zlen buf /\
    slice buf offset (offset + zlen packet) = Some packet) ->
  compacted b0 (MkBatch bufs (<[Z.to_nat (zlen out) := zlen packet]> (b_sizes b))) offset (i + 1) (out ++ [(packet, flow, v)]).
Proof.
  intros [H1 H2 H3 H4 H5] Hi Hb Hs Hsame Hlen (buf & Hbuf & Hfit & Hsl). pose proof (zlen_nonneg out) as Hk.
  split; cbn [b_bufs b_sizes].
  - by rewrite Hlen.
  - by rewrite length_insert.
  - unfold zlen in *. rewrite length_app. cbn. lia.
  - intros j Hj. rewrite index_insert_ne, Hsame by lia. apply H4. lia.
  - intros j p Hj. apply lookup_app_Some in Hj as [Hj|[Hj1 Hj2]].
    + apply lookup_lt_Some in Hj as Hjl. rewrite <- (H5 j p Hj). apply slot_same; cbn [b_bufs b_sizes].
      * apply Hsame. unfold zlen. lia.
      * apply index_insert_ne; unfold zlen; lia.
    + assert (j = length out) as -> by (apply lookup_lt_Some in Hj2; cbn in Hj2; lia).
      rewrite Nat.sub_diag in Hj2. injection Hj2 as <-. cbn [fst]. fold (zlen out). eapply slot_stored; cbn [b_bufs b_sizes].
      * exact Hbuf.
      * apply index_insert_eq. lia.
      * done.
      * done.
      * done.
Qed.

(** The slot of the packet that is looked at is the given one. *)
Definition candidate (i : Z) : option (list byte * firewallFlow * tview) :=
  slot b0 offset i ≫= fun packet => (fun flow => (packet, flow, views i)) <$> leaves (views i) packet.

Lemma filter_packet_spec b i (out : packets) t : compacted b0 b offset i out -> 0 <= i ->
  i < zlen (b_bufs b0) -> i < zlen (b_sizes b0) ->
  match candidate i with
  | None => filter_packet (views i) offset i (zlen out) b t = Done (None, zlen out, b, t)
  | Some p =>
      let t' := tun_recordResponse (views i) (reverse p.1.2) t in
      (exists b', filter_packet (views i) offset i (zlen out) b t = Done (None, zlen out + 1, b', t') /\
        compacted b0 b' offset (i + 1) (out ++ [p])) \/
      (filter_packet (views i) offset i (zlen out) b t = Done (Some ErrShortBuffer, zlen out, b, t') /\
        exists dst, index (b_bufs b) (zlen out) = Some dst /\ zlen dst < offset + zlen p.1.1)
  end.
Proof.
  intros Hc Hi Hb Hs. pose proof Hc as [H1 H2 H3 H4 H5]. destruct (H4 i ltac:(lia)) as [Hbi Hsi].
  assert (Hbl : zlen (b_bufs b) = zlen (b_bufs b0)) by (unfold zlen; by rewrite <- (length_map length), H1, length_map).
  assert (Hsl : zlen (b_sizes b) = zlen (b_sizes b0)) by (unfold zlen; by rewrite H2).
  unfold filter_packet. destruct (index_in_range (b_bufs b) i) as [buf Hbuf]; [lia|].
  destruct (index_in_range (b_sizes b) i) as [size Hsize]; [lia|]. rewrite Hbuf, Hsize. cbn [must run_bind].
  rewrite (firewallTunPacket_slot b offset i buf size) by done. cbn [run_bind].
  unfold candidate. rewrite <- (slot_same b0 b offset i Hbi Hsi). destruct (slot b offset i) as [packet|] eqn:Ep; [|done].
  cbn [mbind option_bind]. unfold leaves. rewrite parse_flow. cbn [run_bind].
  destruct (flow_of_packet packet) as [flow|]; [|done]. destruct (blocksOutgoing (views i) flow); [done|].
  cbn [fmap option_fmap option_map fst snd]. destruct (slot_length b offset i packet Ep) as (buf' & Hb' & Hs' & Hfit1 & Hfit2).
  rewrite Hbuf in Hb'. injection Hb' as <-. pose proof (zlen_nonneg out) as Hk.
  destruct (index_in_range (b_bufs b) (zlen out)) as [dst Hdst]; [lia|]. rewrite Hdst. cbn [must run_bind].
  destruct (index_in_range (b_sizes b) (zlen out)) as [old Hold]; [lia|].
  destruct (Z.eqb_spec (zlen out) i) as [Heq|Hne]; cbn [negb andb].
  - left. rewrite Hold. cbn [must run_bind]. eexists. split; [done|]. eapply compacted_keep; try done; [lia|lia|].
    exists buf. rewrite Heq. split; [done|]. split; [lia|]. revert Ep. unfold slot. rewrite Hbuf, Hs'.
    destruct (_ || _ || _); done.
  - destruct ((zlen dst <? offset) || (zlen dst - offset <? zlen packet)) eqn:Ef.
    + right. split; [done|]. exists dst. split; [done|]. pose proof (zlen_nonneg packet). lia.
    + left. rewrite Hold. cbn [must run_bind]. eexists. split; [done|].
      destruct (slice_copy_at dst offset packet Ho ltac:(lia)) as [Hcopy Hclen].
      eapply compacted_keep; try done; [lia|lia| | |].
      * intros j Hj. apply index_insert_ne; lia.
      * by eapply map_length_insert.
      * exists (copy_at dst offset packet). split; [apply index_insert_eq; lia|]. split; [|done]. unfold zlen in *. lia.
Qed.

(** The outcome of the loop: every packet that leaves is kept, or the first one
    that does not fit its new slot ends it. *)
Definition filtered (h : history firewallFlow) (rest out : packets) (now : Z)
    (r : option tunError * Z * batch * flows) : Prop :=
  let '(err, kept, b, t) := r in
  match err with
  | None => kept = zlen (out ++ rest) /\ (exists i, compacted b0 b offset i (out ++ rest)) /\ table_ok (recall h rest) t now
  | Some e =>
      e = ErrShortBuffer /\ exists k p dst, rest !! k = Some p /\ kept = zlen (out ++ take k rest) /\
      (exists i, compacted b0 b offset i (out ++ take k rest)) /\ table_ok (recall h (take (S k) rest)) t now /\
      index (b_bufs b) kept = Some dst /\ zlen dst < offset + zlen p.1.1
  end.

Lemma filtered_cons h p rest out now r : filtered ((reverse p.1.2, i64 (tv_has p.2 + tun_responseTTL (tv_cfg' p.2))) :: h)
  rest (out ++ [p]) now r -> filtered h (p :: rest) out now r.
Proof.
  destruct r as [[[err kept] b] t]. unfold filtered. destruct err as [e|].
  - intros (-> & k & p' & dst & Hk & Hkept & Hc & Ht & Hd). split; [done|]. exists (S k), p', dst.
    rewrite <- app_assoc in Hkept, Hc. done.
  - intros (Hkept & Hc & Ht). rewrite <- app_assoc in Hkept, Hc. done.
Qed.

Lemma recorded_ok h t now v flow : table_ok h t now -> now <= tv_has v ->
  table_ok ((reverse flow, i64 (tv_has v + tun_responseTTL (tv_cfg' v))) :: h) (tun_recordResponse v (reverse flow) t) (tv_has v).
Proof. intros Ht Hle. apply record_response_spec. by eapply table_ok_later. Qed.

Lemma candidate_fields i p : candidate i = Some p -> p.2 = views i.
Proof.
  unfold candidate. destruct (slot b0 offset i) as [packet|]; cbn [mbind option_bind]; [|done].
  destruct (leaves (views i) packet); [|done]. by intros [= <-].
Qed.

Lemma filter_go_spec n b i out h t now : compacted b0 b offset i out -> 0 <= i ->
  i + Z.of_nat n <= zlen (b_bufs b0) -> i + Z.of_nat n <= zlen (b_sizes b0) ->
  table_ok h t now -> ticks now (record_times views i n) ->
  exists r, filter_go n views offset i (zlen out) b t = Done r /\
    filtered h (leaving b0 views offset i n) out (last_tick now (record_times views i n)) r.
Proof.
  revert b i out h t now. induction n as [|n IH]; intros b i out h t now Hc Hi Hb Hs Ht Hclock.
  - eexists. split; [done|]. cbn. rewrite app_nil_r. split; [done|]. split; [by exists i|done].
  - cbn [record_times ticks last_tick] in *. destruct Hclock as [Hle Hclock]. cbn [filter_go leaving].
    pose proof (filter_packet_spec b i out t Hc Hi ltac:(lia) ltac:(lia)) as Hp. fold (candidate i) in Hp |- *.
    destruct (candidate i) as [p|] eqn:Ec.
    + apply candidate_fields in Ec. pose proof (recorded_ok h t now (views i) p.1.2 Ht Hle) as Hrec. rewrite <- Ec in Hrec at 1 2.
      destruct Hp as [(b' & -> & Hc')|[-> Hshort]]; cbn [run_bind].
      * replace (zlen out + 1) with (zlen (out ++ [p])) by (unfold zlen; rewrite length_app; cbn; lia).
        destruct (IH b' (i + 1) (out ++ [p]) _ _ (tv_has (views i)) Hc' ltac:(lia) ltac:(lia) ltac:(lia) Hrec Hclock) as (r & -> & Hr).
        exists r. split; [done|]. by apply filtered_cons.
      * eexists. split; [done|]. destruct Hshort as (dst & Hd & Hlt). split; [done|]. exists 0%nat, p, dst. cbn [take].
        rewrite app_nil_r. split_and!; [done|done|by exists i| |done|done].
        eapply table_ok_later; [exact Hrec|]. by apply last_tick_le.
    + rewrite Hp. cbn [run_bind]. destruct (IH b (i + 1) out h t (tv_has (views i))) as (r & -> & Hr); try done; try lia.
      * by apply compacted_skip.
      * by eapply table_ok_later.
      * by exists r.
Qed.

(** A packet that leaves fits the buffer it is in. *)
Lemma leaving_fits n i p : p ∈ leaving b0 views offset i n -> exists buf, buf ∈ b_bufs b0 /\ offset + zlen p.1.1 <= zlen buf.
Proof.
  revert i. induction n as [|n IH]; intros i; [by intros ?%elem_of_nil|]. cbn [leaving]. fold (candidate i).
  destruct (candidate i) as [q|] eqn:Ec; [|by apply IH]. rewrite elem_of_cons. intros [-> |Hp]; [|by eapply IH].
  unfold candidate in Ec. destruct (slot b0 offset i) as [packet|] eqn:Es; [|done]. cbn [mbind option_bind] in Ec.
  destruct (leaves (views i) packet); [|done]. injection Ec as <-. destruct (slot_length _ _ _ _ Es) as (buf & Hbuf & _ & Hl).
  exists buf. split; [by eapply index_elem|]. cbn. lia.
Qed.

(** Buffers of one length are never too short. *)
Lemma filtered_no_error h n now r len : filtered h (leaving b0 views offset 0 n) [] now r ->
  Forall (fun buf => zlen buf = len) (b_bufs b0) -> r.1.1.1 = None.
Proof.
  destruct r as [[[err kept] b] t]. cbn [fst]. intros Hf Hlen. destruct err as [e|]; [|done]. exfalso.
  destruct Hf as (_ & k & p & dst & Hk & _ & (i & [Hc _ _ _ _]) & _ & Hd & Hlt).
  apply list_elem_of_lookup_2 in Hk. destruct (leaving_fits _ _ _ Hk) as (buf & Hb & Hfit).
  rewrite Forall_forall in Hlen. rewrite (Hlen buf Hb) in Hfit.
  assert (Hdl : zlen dst = len); [|lia]. apply index_elem in Hd.
  assert (Hin : length dst ∈ map length (b_bufs b)) by by apply list_elem_of_fmap_2.
  rewrite Hc in Hin. apply list_elem_of_In, in_map_iff in Hin as (buf' & Heq & Hb'). apply list_elem_of_In in Hb'.
  unfold zlen. rewrite <- Heq. by apply Hlen.
Qed.
End Read.

(** The number of packets that a read of the device returned. *)
Definition read_count (r : tunRead) : Z :=
  Z.min (Z.min (Z.max 0 (tr_n r)) (zlen (b_bufs (tr_batch r)))) (zlen (b_sizes (tr_batch r))).

Definition read_packets (offset : Z) (r : tunRead) : list (list byte * firewallFlow * tview) :=
  leaving (tr_batch r) (tr_views r) offset 0 (Z.to_nat (read_count r)).

Definition read_times (r : tunRead) : list Z := record_times (tr_views r) 0 (Z.to_nat (read_count r)).

(** A read without a packet to return and without an error. *)
Definition idle (offset : Z) (r : tunRead) : Prop := read_packets offset r = [] /\ tr_err r = None.

Lemma compacted_start b offset : compacted b b offset 0 [].
Proof. split; [done|done|done|done|]. intros j p Hj. done. Qed.

Lemma filterOutgoingRead_spec r offset h t now : 0 <= offset -> table_ok h t now -> ticks now (read_times r) ->
  exists x, filterOutgoingRead (tr_views r) offset (read_count r) (tr_batch r) t = Done x /\
    filtered (tr_batch r) offset h (read_packets offset r) [] (last_tick now (read_times r)) x.
Proof.
  intros Ho Ht Hc. pose proof (zlen_nonneg (b_bufs (tr_batch r))). pose proof (zlen_nonneg (b_sizes (tr_batch r))).
  apply (filter_go_spec (tr_batch r) (tr_views r) offset Ho _ (tr_batch r) 0 [] h t now);
    [apply compacted_start|done|unfold read_count; lia..|done|done].
Qed.

Lemma read_loop_idle pre script offset h t now : 0 <= offset -> Forall (idle offset) pre -> table_ok h t now ->
  ticks now (flat_map read_times pre) ->
  exists t', read_loop (pre ++ script) offset t = read_loop script offset t' /\ table_ok h t' (last_tick now (flat_map read_times pre)).
Proof.
  intros Ho Hpre. revert t now. induction Hpre as [|r pre [Hr He] Hpre IH]; intros t now Ht Hc; [by exists t|].
  cbn [flat_map] in Hc |- *. apply ticks_app in Hc as [H1 H2]. rewrite last_tick_app.
  destruct (filterOutgoingRead_spec r offset h t now Ho Ht H1) as ([[[err kept] b] t1] & Hf & Hx).
  cbn [app TunFirewall.read_loop]. fold (read_count r). rewrite Hf. cbn [run_bind]. unfold filtered in Hx. rewrite Hr in Hx.
  destruct err as [e|]; [by destruct Hx as (_ & k & p & dst & Hk & _)|]. destruct Hx as (-> & _ & Ht1). rewrite He. cbn [zlen app length].
  by apply IH.
Qed.

(** ** Theorems *)

(** C22. Reading.  The firewall reads from the device until a batch has a packet
    that leaves the host or comes with an error.  It returns, in the first slots
    and in their order, the packets of that batch that parse and that the
    outgoing rules do not block, and remembers the flow of each for the response
    time.  A packet that does not fit the slot it moves to ends the batch there
    with a short-buffer error, which cannot happen when the buffers have one
    length.  No packet makes the parser read out of bounds or loop. *)
Theorem tun_read_filters pre r post b offset h t now :
  0 <= offset -> table_ok h t now -> ticks now (flat_map read_times (pre ++ [r])) ->
  Forall (idle offset) pre -> (read_packets offset r <> [] \/ is_Some (tr_err r)) ->
  let out := read_packets offset r in
  exists (k : nat) err b' t', tun_Read (pre ++ r :: post) b offset t = Done (Some (Z.of_nat k, err, b'), t') /\
    (forall j p, take k out !! j = Some p -> slot b' offset (Z.of_nat j) = Some p.1.1) /\
    ((k = length out /\ err = ErrDevice <$> tr_err r /\ table_ok (recall h out) t' (last_tick now (flat_map read_times (pre ++ [r])))) \/
     ((k < length out)%nat /\ err = Some ErrShortBuffer /\
      table_ok (recall h (take (S k) out)) t' (last_tick now (flat_map read_times (pre ++ [r]))) /\
      forall len, ~ Forall (fun buf => zlen buf = len) (b_bufs (tr_batch r)))).
Proof.
  intros Ho Ht Hc Hidle Hr out. rewrite flat_map_app in *. cbn [flat_map] in *. rewrite app_nil_r in *.
  apply ticks_app in Hc as [H1 H2]. rewrite last_tick_app. unfold tun_Read. rewrite (proj2 (Z.ltb_ge _ _) Ho).
  destruct (read_loop_idle pre (r :: post) offset h t now Ho Hidle Ht H1) as (t1 & -> & Ht1).
  destruct (filterOutgoingRead_spec r offset h t1 _ Ho Ht1 H2) as (x & Hf & Hx).
  pose proof (fun len => filtered_no_error (tr_batch r) (tr_views r) offset h (Z.to_nat (read_count r)) _ x len Hx) as Hshort.
  destruct x as [[[err kept] b'] t']. cbn [TunFirewall.read_loop]. fold (read_count r). rewrite Hf. cbn [run_bind].
  fold out in Hx. destruct err as [e|].
  - destruct Hx as (-> & k & p & dst & Hk & -> & (i & Hcomp) & Htab & _). apply lookup_lt_Some in Hk as Hkl.
    exists k, (Some ErrShortBuffer), b', t'. split.
    { rewrite app_nil_l. unfold zlen. by rewrite length_take, Nat.min_l by lia. }
    split; [apply (cp_out _ _ _ _ _ Hcomp)|]. right. split_and!; [done|done|done|]. intros len Hlen.
    discriminate (Hshort len Hlen).
  - destruct Hx as (-> & (i & Hcomp) & Htab). rewrite app_nil_l in *. exists (length out), (ErrDevice <$> tr_err r), b', t'.
    split; [|split; [rewrite take_ge by lia; apply (cp_out _ _ _ _ _ Hcomp)|by left]].
    assert (Hstop : negb (zlen out =? 0) || match tr_err r with Some _ => true | None => false end = true); [|by rewrite Hstop].
    destruct Hr as [Hr|[e ->]]; [|by rewrite orb_true_r]. rewrite (proj2 (Z.eqb_neq _ 0)); [done|].
    intros Hz. apply Hr, nil_length_inv. fold out. unfold zlen in Hz. lia.
Qed.

(** C21. Writing.  The device is given, in one batch and in order, exactly the
    packets that answer a remembered flow, that report an error about one, or
    that the incoming rules include; a batch without such packets is consumed
    without calling it.  When the device takes [w] of them, the returned count
    covers exactly these and denied packets: the caller that resumes there
    continues with the first allowed packet that was not taken, and a complete
    write consumes the whole batch. *)
Theorem tun_write_forwards dev views bufs offset h t now w e :
  validatePacketOffset bufs offset = None -> table_ok h t now -> ticks now (view_times views 0 (length bufs)) ->
  let marks := verdicts views h offset 0 bufs in
  let allowed := select bufs marks in
  dev allowed = (w, e) -> 0 <= w <= zlen allowed ->
  exists n t', tun_Write dev views bufs offset t =
    Done (if (zlen allowed =? 0) && negb (zlen bufs =? 0) then (n, None, [], t') else (n, ErrDevice <$> e, [allowed], t')) /\
    consumed bufs marks w n /\ table_ok h t' (last_tick now (view_times views 0 (length bufs))).
Proof.
  intros Hv Ht Hc marks allowed Hd Hw. unfold tun_Write. rewrite Hv.
  unfold validatePacketOffset in Hv. destruct (Z.ltb_spec offset 0) as [|Ho]; [done|].
  assert (Hb : Forall (fun buf => offset <= zlen buf) bufs).
  { apply Forall_forall. intros buf Hin. destruct (existsb _ bufs) eqn:Ex; [done|]. apply Z.nlt_ge. intros Hlt.
    apply not_true_iff_false in Ex. apply Ex, existsb_exists. exists buf. split; [by apply list_elem_of_In|lia]. }
  destruct (write_go_spec views bufs offset h bufs 0 (MkWriteState (-1) None) t now Ho Hb Ht Hc) as (t' & -> & Ht').
  cbn [run_bind]. fold marks.
  assert (Hdesc : describes (note_all bufs 0 bufs marks (MkWriteState (-1) None)) bufs marks).
  { apply (note_all_describes bufs [] bufs [] marks); [done|by unfold marks; rewrite verdicts_length|done]. }
  destruct (finish_write_spec dev bufs marks _ w e Hdesc Hd Hw) as (n & -> & Hn). cbn [run_bind]. exists n, t'.
  split; [|done]. fold allowed. by destruct (_ && _).
Qed.

(** The length that an IP packet declares. *)
Definition declared_length (packet : list byte) : option Z :=
  match index packet 0 with
  | None => None
  | Some b0 =>
      if Z.shiftr (bZ b0) 4 =? 4 then be16 packet 2
      else if Z.shiftr (bZ b0) 4 =? 6 then (fun l => 40 + l) <$> be16 packet 4
      else None
  end.

(** An ICMP error message that quotes only the beginning of the packet it
    is about, as routers do, is not recognised as related to the flow of that
    packet, whatever flows are remembered: the quoted header declares more
    bytes than are quoted, and the parser rejects it. *)
Theorem truncated_quote_unrelated v packet flow t embedded total :
  quoted_packet packet flow = Done (Some embedded) ->
  declared_length embedded = Some total -> zlen embedded < total ->
  relatedICMPResponse v packet flow t = Done (false, t).
Proof.
  intros Hq Hd Hlt. unfold relatedICMPResponse. rewrite Hq. cbn [run_bind].
  assert (Hn : flow_of_packet embedded = None); [|by rewrite parse_flow, Hn].
  unfold flow_of_packet, declared_length in *. unfold parseFirewallPacket, rd8.
  destruct (zlen embedded =? 0); [done|]. destruct (index embedded 0) as [b0|] eqn:E0; [|done]. cbn [must run_bind].
  destruct (Z.shiftr (bZ b0) 4 =? 4).
  - unfold parseFirewallIPv4, rd8, rd16. destruct (zlen embedded <? 20); [done|]. rewrite E0, Hd. cbn [must run_bind].
    rewrite (proj2 (Z.ltb_lt _ _) Hlt), !orb_true_r. done.
  - destruct (Z.shiftr (bZ b0) 4 =? 6); [|done]. unfold parseFirewallIPv6, rd16.
    destruct (Z.ltb_spec (zlen embedded) 40); [done|].
    destruct (be16 embedded 4) as [l|]; [|done]. injection Hd as <-. cbn [must run_bind].
    rewrite (proj2 (Z.ltb_lt _ _) Hlt), (proj2 (Z.eqb_neq l 0)) by lia. done.
Qed.

(** ** Witnesses *)

(** UDP datagrams: a query of 192.168.0.2 to 8.8.8.8, its answer, and a query to
    and a datagram of 1.1.1.1. *)
Definition ipv4_udp (total src dst sport dport : Z) : list byte :=
  be_bytes 4 (1157627904 + total) ++ be_bytes 4 0 ++ be_bytes 4 1074855936 ++ be_bytes 4 src ++ be_bytes 4 dst ++
  be_bytes 2 sport ++ be_bytes 2 dport ++ be_bytes 4 0.

Definition local_host : Z := 3232235522.
Definition query_packet : list byte := ipv4_udp 28 local_host 134744072 1234 53.
Definition answer_packet : list byte := ipv4_udp 28 134744072 local_host 53 1234.
Definition blocked_packet : list byte := ipv4_udp 28 local_host 16843009 1234 53.
Definition stray_packet : list byte := ipv4_udp 28 16843009 local_host 53 1234.

Definition tun_config : FirewallConfig := MkConfig [rule_of "udp" ["1.1.1.1"] [] []] [] 1000 None None None.
Definition tun_view (now : Z) : tview := MkTView tun_config tun_config now now now now.

Definition in_buffer (packet : list byte) : list byte := be_bytes 4 0 ++ packet.

Definition two_packets : tunRead :=
  MkTunRead 2 None (MkBatch [in_buffer blocked_packet; in_buffer query_packet] [28; 28]) (fun i => tun_view (10 + i)).

Lemma tun_read_filters_witness : exists b' t',
  tun_Read [two_packets] (MkBatch [] []) 4 no_responses = Done (Some (1, None, b'), t') /\
  slot b' 4 0 = Some query_packet /\ table_ok [(MkFlow 4 17 (Addr4 134744072) (Addr4 local_host) 53 1234, 1011)] t' 11.
Proof.
  assert (Hout : read_packets 4 two_packets =
    [(query_packet, MkFlow 4 17 (Addr4 local_host) (Addr4 134744072) 1234 53, tun_view 11)]) by (vm_compute; reflexivity).
  destruct (tun_read_filters [] two_packets [] (MkBatch [] []) 4 [] no_responses 0) as (k & err & b' & t' & Hr & Hs & Hcase).
  - lia.
  - apply no_responses_ok.
  - vm_compute. repeat split; discriminate.
  - constructor.
  - left. rewrite Hout. discriminate.
  - rewrite Hout in Hs, Hcase. destruct Hcase as [(-> & -> & Ht)|(_ & _ & _ & Hlen)].
    + exists b', t'. split; [exact Hr|]. split; [exact (Hs 0%nat _ eq_refl)|]. vm_compute in Ht |- *. exact Ht.
    + destruct (Hlen 32). repeat constructor.
Defined.

(** A device that takes all packets of a batch. *)
Definition takes_all : device := fun bufs => (zlen bufs, None).

Lemma tun_write_forwards_witness : exists t',
  tun_Write takes_all (fun i => tun_view (20 + i)) [in_buffer stray_packet; in_buffer answer_packet; in_buffer stray_packet] 4
    (record_response (MkFlow 4 17 (Addr4 134744072) (Addr4 local_host) 53 1234) 1000 11 no_responses) =
  Done (3, None, [[in_buffer answer_packet]], t').
Proof.
  set (bufs := [in_buffer stray_packet; in_buffer answer_packet; in_buffer stray_packet]).
  set (h := [(MkFlow 4 17 (Addr4 134744072) (Addr4 local_host) 53 1234, 1011)]).
  assert (Hsel : select bufs (verdicts (fun i => tun_view (20 + i)) h 4 0 bufs) = [in_buffer answer_packet]) by (vm_compute; reflexivity).
  destruct (tun_write_forwards takes_all (fun i => tun_view (20 + i)) bufs 4 h
    (record_response (MkFlow 4 17 (Addr4 134744072) (Addr4 local_host) 53 1234) 1000 11 no_responses) 11 1 None)
    as (n & t' & Hw & (_ & _ & _ & Hn) & _).
  - reflexivity.
  - apply (record_response_spec [] no_responses), no_responses_ok.
  - vm_compute. repeat split; discriminate.
  - rewrite Hsel. reflexivity.
  - rewrite Hsel. vm_compute. split; discriminate.
  - rewrite Hsel in Hw, Hn. exists t'. rewrite Hw, (Hn eq_refl). reflexivity.
Defined.

(** A router reports that a datagram of 1500 bytes does not fit, and quotes its
    header and eight bytes. *)
Definition quote : list byte := ipv4_udp 1500 local_host 134744072 1234 53.
Definition too_big : list byte :=
  be_bytes 4 (1157627904 + 56) ++ be_bytes 4 0 ++ be_bytes 4 1073807360 ++ be_bytes 4 167772161 ++ be_bytes 4 local_host ++
  be_bytes 4 50593792 ++ be_bytes 4 1400 ++ quote.

Lemma truncated_quote_unrelated_witness :
  relatedICMPResponse (tun_view 20) too_big (MkFlow 4 1 (Addr4 167772161) (Addr4 local_host) 0 0)
    (record_response (MkFlow 4 17 (Addr4 134744072) (Addr4 local_host) 53 1234) 1000 11 no_responses) =
  Done (false, record_response (MkFlow 4 17 (Addr4 134744072) (Addr4 local_host) 53 1234) 1000 11 no_responses).
Proof. apply (truncated_quote_unrelated _ _ _ _ quote 1500); vm_compute; reflexivity. Defined.
