(* ===== verification/Scans.v ===== *)
(** * What the scans over a program compute

    [mentionedBytecodeSlotsWithRoutes] reports exactly the non-zero slots, in
    range and in increasing order, that some SLOT or ROUTE instruction names;
    [bytecodeAddrStringOps] reports exactly whether a string operation on the
    remote or local address occurs. *)

From Stdlib Require Import Sorting.Sorted.
From S2P Require Import Prelude GoStd NetIP Bytecode Machine AddrCache.

(** The slot an instruction can route to, 0 when it names none. *)
Definition instr_slot (routeSlots : list Z) (i : splitInstr) : Z :=
  match opcode_of (in_op i) with
  | Some OP_SLOT => in_param i
  | Some OP_ROUTE => match index routeSlots (in_param i) with Some s => s | None => 0 end
  | _ => 0
  end.

Definition mentions (maxSlot : Z) (routeSlots : list Z) (ins : list splitInstr) (slot : Z) : Prop :=
  slot <> 0 /\ slot <= maxSlot /\ exists i, i ∈ ins /\ instr_slot routeSlots i = slot.

Lemma mark_slot_elem maxSlot param seen slot :
  0 <= maxSlot ->
  slot ∈ mark_slot maxSlot param seen <->
    slot ∈ seen \/ (slot = param /\ param <> 0 /\ param <= maxSlot).
Proof.
  intros Hm. unfold mark_slot, bytecodeParamInt.
  destruct (Z.eqb_spec param 0); [naive_solver lia|].
  destruct (Z.ltb_spec maxSlot 0); [lia|].
  destruct (Z.ltb_spec maxSlot param); [naive_solver lia|]. set_solver by lia.
Qed.

(** One instruction marks the slot it names. *)
Lemma mention_step_mark maxSlot routeSlots i seen :
  0 <= in_param i ->
  mention_step maxSlot routeSlots (in_op i) (in_param i) seen =
    Done (Continue (mark_slot maxSlot (instr_slot routeSlots i) seen)).
Proof.
  intros Hp. unfold mention_step, instr_slot.
  destruct (opcode_of (in_op i)) as [[]|]; try reflexivity.
  rewrite bytecodeParamIndex_index by done.
  destruct (index routeSlots (in_param i)) as [s|] eqn:E; [|reflexivity].
  by rewrite E.
Qed.

Lemma mention_instrs maxSlot routeSlots ins seen :
  0 <= maxSlot -> Forall (fun i => 0 <= in_param i) ins ->
  exists seen', run_instrs (mention_step maxSlot routeSlots) ins seen = Done (Continue seen') /\
    forall slot, slot ∈ seen' <-> slot ∈ seen \/ mentions maxSlot routeSlots ins slot.
Proof.
  intros Hm Hp. revert seen. induction Hp as [|i ins Hi Hp IH]; intros seen.
  { exists seen. split; [done|]. intros slot. unfold mentions. set_solver. }
  simpl. rewrite mention_step_mark by done. simpl.
  destruct (IH (mark_slot maxSlot (instr_slot routeSlots i) seen)) as (seen' & -> & Hseen).
  exists seen'. split; [done|]. intros slot. rewrite Hseen, mark_slot_elem by done.
  unfold mentions. setoid_rewrite elem_of_cons. naive_solver.
Qed.

Lemma mention_programs_spec maxSlot routeSlots (programs : list (list byte)) (inss : list (list splitInstr)) seen :
  0 <= maxSlot ->
  Forall2 (fun code ins => decodes code 0 ins /\ Forall (fun i => 0 <= in_param i) ins) programs inss ->
  exists seen', mention_programs maxSlot routeSlots programs seen = Done seen' /\
    forall slot, slot ∈ seen' <-> slot ∈ seen \/ exists ins, ins ∈ inss /\ mentions maxSlot routeSlots ins slot.
Proof.
  intros Hm H. revert seen.
  induction H as [|code ins programs inss [Hdec Hp] H IH]; intros seen; simpl.
  { exists seen. split; [done|]. set_solver. }
  rewrite (scan_decodes _ _ _ _ Hdec).
  destruct (mention_instrs maxSlot routeSlots ins seen Hm Hp) as (seen1 & -> & H1). simpl.
  destruct (IH seen1) as (seen2 & -> & H2). exists seen2. split; [done|].
  intros slot. rewrite H2, H1. setoid_rewrite elem_of_cons. naive_solver.
Qed.

Lemma slots_upto_elem maxSlot slot : slot ∈ slots_upto maxSlot <-> 1 <= slot <= maxSlot.
Proof.
  unfold slots_upto. rewrite list_elem_of_In, in_map_iff. split.
  - intros (n & <- & Hn%in_seq). lia.
  - intros Hs. exists (Z.to_nat slot). split; [lia|]. apply in_seq. lia.
Qed.

(** The slots reported for programs that decode. *)
Lemma mentionedBytecodeSlots_spec maxSlot routeSlots programs inss :
  0 <= maxSlot -> Forall (fun s => 0 <= s) routeSlots ->
  Forall2 (fun code ins => decodes code 0 ins /\ Forall (fun i => 0 <= in_param i) ins) programs inss ->
  exists slots, mentionedBytecodeSlotsWithRoutes maxSlot routeSlots programs = Done slots /\
    forall slot, slot ∈ slots <-> exists ins, ins ∈ inss /\ mentions maxSlot routeSlots ins slot.
Proof.
  intros Hm Hr H. destruct (mention_programs_spec maxSlot routeSlots programs inss ∅ Hm H)
    as (seen & Heq & Hseen).
  unfold mentionedBytecodeSlotsWithRoutes. rewrite Heq. simpl. eexists. split; [done|].
  intros slot. rewrite list_elem_of_In, filter_In, bool_decide_eq_true, Hseen.
  rewrite <- list_elem_of_In, slots_upto_elem. split.
  - intros [_ [Hs|Hs]]; [set_solver|done].
  - intros Hs. split; [|by right]. destruct Hs as (ins & Hins & Hne & Hle & i & Hi & Hslot).
    assert (Hnn : 0 <= slot); [|lia]. subst slot. unfold instr_slot.
    apply list_elem_of_lookup in Hins as [k Hk].
    destruct (Forall2_lookup_r _ _ _ _ _ H Hk) as (code & _ & _ & Hpos).
    rewrite Forall_forall in Hpos. specialize (Hpos i Hi).
    destruct (opcode_of (in_op i)) as [[]|]; try lia.
    destruct (index routeSlots (in_param i)) eqn:E; [|lia].
    rewrite Forall_forall in Hr. eapply Hr, index_elem, E.
Qed.

Lemma slots_increasing maxSlot (f : Z -> bool) :
  StronglySorted Z.lt (List.filter f (slots_upto maxSlot)).
Proof.
  unfold slots_upto. generalize 1%nat. induction (Z.to_nat maxSlot) as [|n IH]; intros k; simpl.
  { constructor. }
  assert (Hall : Forall (Z.lt (Z.of_nat k)) (List.filter f (map Z.of_nat (seq (S k) n)))).
  { apply Forall_forall. intros x Hx%list_elem_of_In%filter_In.
    destruct Hx as [(m & <- & Hm%in_seq)%in_map_iff _]. lia. }
  destruct (f _); [constructor; [apply IH|done]|apply IH].
Qed.

(** ** String operations *)

Definition is_remote_string (i : splitInstr) : bool :=
  match opcode_of (in_op i) with Some (OP_ADDR_S | OP_ADDR_RE) => true | _ => false end.

Definition is_local_string (i : splitInstr) : bool :=
  match opcode_of (in_op i) with Some (OP_LADDR_S | OP_LADDR_RE) => true | _ => false end.

Lemma string_ops_instrs ins ops :
  run_instrs string_ops_step ins ops =
    Done (Continue (MkStringOps (so_remote ops || existsb is_remote_string ins)
                                (so_local ops || existsb is_local_string ins))).
Proof.
  revert ops. induction ins as [|i ins IH]; intros [r l]; simpl.
  { by rewrite !orb_false_r. }
  unfold string_ops_step at 1, is_remote_string at 1, is_local_string at 1.
  destruct (opcode_of (in_op i)) as [[]|]; simpl; rewrite IH; simpl;
    destruct r, l; reflexivity.
Qed.

Lemma bytecodeAddrStringOps_spec code ins :
  decodes code 0 ins ->
  bytecodeAddrStringOps code =
    Done (MkStringOps (existsb is_remote_string ins) (existsb is_local_string ins)).
Proof.
  intros Hdec. unfold bytecodeAddrStringOps.
  rewrite (scan_decodes _ _ _ _ Hdec), string_ops_instrs. reflexivity.
Qed.
