(* ===== verification/RouterCfg.v ===== *)
(** * The bytecode RouterCfg

    Models src/routing/router_bytecode.go: the rule tables, their validation,
    the constructor and the evaluator behind DialTCP, ListenTCP, DialUDP,
    RouteUDP and Lookup.  The constructor's copies of the slices are the
    immutable lists of the model.

    The theorems: the constructor always returns; an accepted configuration
    never panics, answers every call with the slot of the reference machine,
    and that slot is 0 or one of [MentionedSlots]. *)

From Stdlib Require Import Sorting.Sorted.
From S2P Require Import Prelude GoStd NetIP DNSCache Bytecode Machine AddrCache Scans.

Record BytecodeRules : Type := MkBytecodeRules {
  br_tables : tables;
  br_DNSCacheStorage : option storage_view;
  br_DialTCP : list byte;
  br_ListenTCP : list byte;
  br_DialUDP : list byte;
  br_RouteUDP : list byte;
  br_Lookup : list byte }.

Record bytecodeRouterCfg : Type := MkRouterCfg {
  rc_tables : tables;
  rc_dialTCP : list byte;
  rc_listenTCP : list byte;
  rc_dialUDP : list byte;
  rc_routeUDP : list byte;
  rc_lookup : list byte;
  rc_dnsStorage : option storage_view;
  rc_dialTCPStringOps : addrStringOps;
  rc_listenTCPStringOps : addrStringOps;
  rc_dialUDPStringOps : addrStringOps;
  rc_routeUDPStringOps : addrStringOps;
  rc_lookupStringOps : addrStringOps;
  rc_mentionedSlots : list Z }.

Inductive bytecodeMethod : Type :=
| bytecodeMethodDial | bytecodeMethodListen | bytecodeMethodLookup.

#[global] Instance bytecodeMethod_eq_dec : EqDecision bytecodeMethod.
Proof. solve_decision. Defined.

(** ** Validation *)

Definition validateRegexps (regexps : list (option regexp)) : result bcError unit :=
  match first_bad (fun re => match re with None => true | Some _ => false end) regexps 0 with
  | Some (i, _) => Failure (ErrNilRegexp i)
  | None => Success tt
  end.

(** [fail(table, n)] unless the parameter is an index of the table. *)
Definition check_index {A} (name : string) (pc : Z) (table : bcTable) (entries : list A) (param : Z)
  : result bcError unit :=
  check (zlen entries <=? param) (ErrIndexRange name pc table param (zlen entries)).

Definition validateOpIndex (t : tables) (name : string) (pc : Z) (op : byte) (param : Z)
    (kind : bytecodeParamKind) : result bcError unit :=
  match kind with
  | bytecodeParamNone => Success tt
  | _ =>
      match opcode_of op with
      | Some OP_SLOT => check (RouterSlots <? param) (ErrSlotRange name pc param)
      | Some (OP_ADDR_S | OP_LADDR_S) => check_index name pc TblString (t_strings t) param
      | Some (OP_ADDR_RE | OP_LADDR_RE) => check_index name pc TblRegexp (t_regexps t) param
      | Some (OP_ADDR4 | OP_LADDR4) => check_index name pc TblIPv4 (t_ipv4Addrs t) param
      | Some (OP_ADDR6 | OP_LADDR6) => check_index name pc TblIPv6 (t_ipv6Addrs t) param
      | Some (OP_SNET4 | OP_LSNET4) => check_index name pc TblSubnet4 (t_ipv4Subnets t) param
      | Some (OP_SNET6 | OP_LSNET6) => check_index name pc TblSubnet6 (t_ipv6Subnets t) param
      | _ => Success tt
      end
  end.

Definition validateRouterOp (t : tables) (name : string) (hasLAddr lookup : bool) : opValidator :=
  fun pc op param kind =>
    try! _ := check (negb hasLAddr && isLAddrOp op) (ErrLAddrNotValid name pc) in
    try! _ := check (lookup && isLAddrOp op) (ErrLAddrNotValid name pc) in
    try! _ := check (isSplitOnlyOp op) (ErrNotValid name pc op) in
    try! _ := check (isSnifferOnlyOp op) (ErrNotValid name pc op) in
    try! _ := check (isDNSOnlyOp op) (ErrNotValid name pc op) in
    validateOpIndex t name pc op param kind.

Definition validateCode (t : tables) (name : string) (code : list byte) (hasLAddr lookup : bool)
  : run (result bcError unit) :=
  validateBytecode name code (validateRouterOp t name hasLAddr lookup).

(** The checks of the five programs, in order; the first error wins. *)
Fixpoint validate_programs (t : tables) (checks : list (string * list byte * bool * bool))
  : run (result bcError unit) :=
  match checks with
  | [] => Done (Success tt)
  | (name, code, laddr, lookup) :: checks' =>
      let! r := validateCode t name code laddr lookup in
      match r with
      | Success _ => validate_programs t checks'
      | Failure e => Done (Failure e)
      end
  end.

Definition validateRouter (t : tables) (dialTCP listenTCP dialUDP routeUDP lookup : list byte)
  : run (result bcError unit) :=
  match validateRegexps (t_regexps t) with
  | Failure e => Done (Failure e)
  | Success _ =>
      match validateTables (t_ipv4Subnets t) (t_ipv6Addrs t) (t_ipv6Subnets t) with
      | Failure e => Done (Failure e)
      | Success _ =>
          validate_programs t
            [("DialTCP", dialTCP, true, false); ("ListenTCP", listenTCP, true, false);
             ("DialUDP", dialUDP, true, false); ("RouteUDP", routeUDP, true, false);
             ("Lookup", lookup, false, true)]
      end
  end.

Definition NewBytecodeRouterCfg (rules : BytecodeRules) : run (result bcError bytecodeRouterCfg) :=
  let! v := validateRouter (br_tables rules) (br_DialTCP rules) (br_ListenTCP rules)
              (br_DialUDP rules) (br_RouteUDP rules) (br_Lookup rules) in
  match v with
  | Failure e => Done (Failure e)
  | Success _ =>
      let! dialTCPOps := bytecodeAddrStringOps (br_DialTCP rules) in
      let! listenTCPOps := bytecodeAddrStringOps (br_ListenTCP rules) in
      let! dialUDPOps := bytecodeAddrStringOps (br_DialUDP rules) in
      let! routeUDPOps := bytecodeAddrStringOps (br_RouteUDP rules) in
      let! lookupOps := bytecodeAddrStringOps (br_Lookup rules) in
      let! slots := mentionedBytecodeSlots RouterSlots
        [br_DialTCP rules; br_ListenTCP rules; br_DialUDP rules; br_RouteUDP rules; br_Lookup rules] in
      Done (Success (MkRouterCfg (br_tables rules)
        (br_DialTCP rules) (br_ListenTCP rules) (br_DialUDP rules) (br_RouteUDP rules)
        (br_Lookup rules) (br_DNSCacheStorage rules)
        dialTCPOps listenTCPOps dialUDPOps routeUDPOps lookupOps slots))
  end.

Definition MentionedSlots (cfg : bytecodeRouterCfg) : list Z := rc_mentionedSlots cfg.

(** ** Evaluation *)

Section Exec.
Context `{HostEnv}.

Definition router_step (t : tables) (op : byte) (param : Z) (s : bytecodeEval * list bool)
  : run (ctl (bytecodeEval * list bool) Z) :=
  let '(ev, stack) := s in
  match opcode_of op with
  | Some OP_DROP =>
      let! '(v, stack) := popBool stack in
      if (v : bool) then Done (Return 0) else Done (Continue (ev, stack))
  | Some OP_SLOT =>
      let! '(v, stack) := popBool stack in
      if (v : bool) then
        let '(slot, ok) := bytecodeParamInt param RouterSlots in
        if (ok : bool) then Done (Return slot) else Done (Return 0)
      else Done (Continue (ev, stack))
  | Some OP_TRUE => Done (Continue (ev, true :: stack))
  | Some OP_FALSE => Done (Continue (ev, false :: stack))
  | Some OP_NOT =>
      let! '(v, stack) := popBool stack in Done (Continue (ev, negb v :: stack))
  | Some OP_AND =>
      let! '(b, stack) := popBool stack in
      let! '(a, stack) := popBool stack in
      Done (Continue (ev, (a && b) :: stack))
  | Some OP_OR =>
      let! '(b, stack) := popBool stack in
      let! '(a, stack) := popBool stack in
      Done (Continue (ev, (a || b) :: stack))
  | Some op' =>
      match evalPredicate t op' param ev with
      | Some r => let! '(v, ev) := r in Done (Continue (ev, v :: stack))
      | None => Done (Continue (ev, stack))
      end
  | None => Done (Continue (ev, stack))
  end.

Definition router_eval (cfg : bytecodeRouterCfg) (method : bytecodeMethod) (network : string)
    (laddr raddr : addrInput) (stringOps : addrStringOps) (lnow rnow : Z) : bytecodeEval :=
  MkEval (ToLower network)
    (newAddrCache laddr (rc_dnsStorage cfg) (so_local stringOps) lnow)
    (newAddrCache raddr (rc_dnsStorage cfg) (so_remote stringOps) rnow)
    (bool_decide (method = bytecodeMethodDial))
    (bool_decide (method = bytecodeMethodListen))
    (bool_decide (method = bytecodeMethodLookup)).

Definition router_exec (cfg : bytecodeRouterCfg) (code : list byte) (method : bytecodeMethod)
    (network : string) (laddr raddr : addrInput) (stringOps : addrStringOps) (lnow rnow : Z)
  : run Z :=
  let! c := scan code (router_step (rc_tables cfg))
    (router_eval cfg method network laddr raddr stringOps lnow rnow, []) in
  Done (loop_slot c).

(** The calls of the RouterCfg interface. *)
Inductive routerCall : Type :=
| DialTCP (network laddr raddr : string)
| ListenTCP (network laddr : string)
| DialUDP (network laddr raddr : string)
| RouteUDP (network : string) (laddr raddr : option netAddr)
| Lookup (network address : string).

Definition str_input (s : string) : addrInput := MkAddrInput s None.
Definition no_input : addrInput := MkAddrInput "" None.

(** [lnow] and [rnow] are the instants at which the reverse DNS names of the
    two endpoints are read, if they are. *)
Definition router_call (cfg : bytecodeRouterCfg) (call : routerCall) (lnow rnow : Z) : run Z :=
  match call with
  | DialTCP network laddr raddr =>
      router_exec cfg (rc_dialTCP cfg) bytecodeMethodDial network
        (str_input laddr) (str_input raddr) (rc_dialTCPStringOps cfg) lnow rnow
  | ListenTCP network laddr =>
      router_exec cfg (rc_listenTCP cfg) bytecodeMethodListen network
        (str_input laddr) no_input (rc_listenTCPStringOps cfg) lnow rnow
  | DialUDP network laddr raddr =>
      router_exec cfg (rc_dialUDP cfg) bytecodeMethodDial network
        (str_input laddr) (str_input raddr) (rc_dialUDPStringOps cfg) lnow rnow
  | RouteUDP network laddr raddr =>
      router_exec cfg (rc_routeUDP cfg) bytecodeMethodDial network
        (MkAddrInput "" laddr) (MkAddrInput "" raddr) (rc_routeUDPStringOps cfg) lnow rnow
  | Lookup network address =>
      router_exec cfg (rc_lookup cfg) bytecodeMethodLookup network
        no_input (str_input address) (rc_lookupStringOps cfg) lnow rnow
  end.

(** ** Reference semantics *)

Definition router_action (t : tables) (e : bytecodeEval) (op : byte) (param : Z) : action Z :=
  match opcode_of op with
  | Some OP_DROP => ActReturn 0
  | Some OP_SLOT => ActReturn (if param <=? RouterSlots then param else 0)
  | Some OP_TRUE => ActPush true
  | Some OP_FALSE => ActPush false
  | Some OP_NOT => ActNot
  | Some OP_AND => ActAnd
  | Some OP_OR => ActOr
  | Some op' => if has_predicate op' then ActPush (predicateValue t e op' param) else ActNone
  | None => ActNone
  end.

(** The slot the reference machine gives for decoded instructions. *)
Definition router_reference (t : tables) (e : bytecodeEval) (ins : list splitInstr) : run Z :=
  let! c := machine (router_action t e) ins [] in Done (loop_slot c).

(** ** Lemmas *)

Lemma first_bad_none {A} (bad : A -> bool) l i :
  first_bad bad l i = None -> Forall (fun x => bad x = false) l.
Proof.
  revert i. induction l as [|x l IH]; intros i; simpl; [constructor|].
  destruct (bad x) eqn:E; [done|]. intros Hl. constructor; [done|by eapply IH].
Qed.

Lemma validateRegexps_ok regexps u :
  validateRegexps regexps = Success u -> Forall is_Some regexps.
Proof.
  unfold validateRegexps. destruct (first_bad _ _ _) as [[i re]|] eqn:E; [done|]. intros _.
  apply first_bad_none in E. eapply Forall_impl; [exact E|]. by intros [re|] ?.
Qed.

(** The evaluator follows the reference machine. *)
Lemma router_step_refines t e0 op param :
  Forall is_Some (t_regexps t) -> 0 <= param ->
  step_refines (fun s => eval_inv e0 s.1) snd (router_step t op param) (router_action t e0 op param).
Proof.
  intros Hre Hp [e stack] Hinv. simpl in Hinv. unfold router_step, router_action.
  destruct (opcode_of op) as [o|]; [|by exists (e, stack)].
  destruct (has_predicate o) eqn:Eo.
  - pose proof (proj2 (evalPredicate_has t o param e) Eo) as [r Hr].
    destruct (evalPredicate_value t e0 e o param r Hre Hp Hinv Hr) as (e' & Hv & Hinv').
    destruct o; try discriminate Eo; rewrite Hr, Hv; by eexists (e', _).
  - destruct o; try discriminate Eo; simpl; try (by eexists);
      try (destruct stack as [|[] [|? ?]]; simpl; by try eexists);
      unfold bytecodeParamInt; simpl;
      destruct stack as [|[] ?]; simpl; try (by eexists);
      destruct (Z.ltb_spec RouterSlots param), (Z.leb_spec param RouterSlots); (lia || reflexivity).
Qed.

(** An instruction accepted for a router program does what validation assumed. *)
Lemma validateRouterOp_fits t e name hasLAddr lookup i :
  checked (validateRouterOp t name hasLAddr lookup) i ->
  fits (stack_class (in_op i)) (router_action t e (in_op i) (in_param i)) = true.
Proof.
  intros ([o Ho] & _ & pc & Hv). unfold validateRouterOp in Hv. inv_result.
  unfold isSplitOnlyOp, isSnifferOnlyOp, isDNSOnlyOp, stack_class, router_action in *.
  rewrite Ho in *. by destruct o.
Qed.

(** ... and its slot, if it routes, is in range. *)
Lemma validateRouterOp_slot t e name hasLAddr lookup i slot :
  checked (validateRouterOp t name hasLAddr lookup) i ->
  router_action t e (in_op i) (in_param i) = ActReturn slot ->
  0 <= slot <= RouterSlots /\ (slot = 0 \/ slot = instr_slot [] i).
Proof.
  intros ([o Ho] & Hp & pc & Hv) Ha. unfold validateRouterOp in Hv. inv_result.
  unfold router_action, instr_slot, validateOpIndex, param_kind in *. rewrite Ho in *.
  destruct o; simpl in *; try discriminate Ha; injection Ha as <-; unfold RouterSlots in *;
    try (split; [lia|by left]).
  inv_result. destruct (Z.leb_spec (in_param i) 16); [split; [lia|by right]|lia].
Qed.

(** A validated program, run from fresh caches. *)
Lemma router_exec_sound cfg code ins method network laddr raddr stringOps lnow rnow name hasLAddr lookup :
  Forall is_Some (t_regexps (rc_tables cfg)) ->
  decodes code 0 ins ->
  Forall (checked (validateRouterOp (rc_tables cfg) name hasLAddr lookup)) ins ->
  depth_safe 0 ins ->
  let e := router_eval cfg method network laddr raddr stringOps lnow rnow in
  exists slot, router_exec cfg code method network laddr raddr stringOps lnow rnow = Done slot /\
    router_reference (rc_tables cfg) e ins = Done slot /\
    0 <= slot <= RouterSlots /\
    (slot = 0 \/ mentions RouterSlots [] ins slot).
Proof.
  intros Hre Hdec Hall Hsafe e. unfold router_exec, router_reference.
  rewrite (scan_decodes _ _ _ _ Hdec). fold e.
  destruct (machine_safe (router_action (rc_tables cfg) e) ins []) as (c & Hc & Hres).
  { done. }
  { eapply Forall_impl; [exact Hall|]. intros i Hi. by eapply validateRouterOp_fits. }
  assert (Hinv : eval_inv e (e, [] : list bool).1) by apply eval_inv_refl.
  pose proof (run_refines (fun s => eval_inv e s.1) snd (router_step (rc_tables cfg))
    (router_action (rc_tables cfg) e) ins (e, [])) as Href.
  simpl in Href. rewrite Hc in Href. specialize (Href).
  assert (Hsteps : Forall (fun i => step_refines (fun s => eval_inv e s.1) snd
    (router_step (rc_tables cfg) (in_op i) (in_param i))
    (router_action (rc_tables cfg) e (in_op i) (in_param i))) ins).
  { eapply Forall_impl; [exact Hall|]. intros i (_ & Hp & _).
    apply router_step_refines; [done|lia]. }
  specialize (Href Hsteps Hinv). rewrite Hc. destruct c as [st|slot]; simpl.
  - destruct Href as (s' & -> & _ & _). simpl. exists 0. unfold RouterSlots.
    split_and!; try done; try lia; by left.
  - rewrite Href. simpl. exists slot. destruct Hres as (i & Hi & Ha).
    rewrite Forall_forall in Hall.
    destruct (validateRouterOp_slot _ _ _ _ _ _ _ (Hall i Hi) Ha) as (Hr & Hs).
    split_and!; try done; try lia. destruct (decide (slot = 0)) as [|Hne]; [by left|].
    destruct Hs as [|Hs]; [done|]. right. split_and!; [done|lia|by exists i].
Qed.

(** What an accepted configuration satisfies: every program decodes into
    checked instructions that keep the stack safe. *)
Definition program_ok (t : tables) (name : string) (hasLAddr lookup : bool) (code : list byte)
    (ins : list splitInstr) : Prop :=
  decodes code 0 ins /\
  Forall (checked (validateRouterOp t name hasLAddr lookup)) ins /\ depth_safe 0 ins.

Lemma validate_programs_ok t checks :
  exists r, validate_programs t checks = Done r /\
  (r = Success tt ->
   Forall (fun c => let '(name, code, laddr, lookup) := c in
             exists ins, program_ok t name laddr lookup code ins) checks).
Proof.
  induction checks as [|[[[name code] laddr] lookup] checks IH]; simpl; [by eexists|].
  unfold validateCode.
  destruct (validateBytecode_sound name code (validateRouterOp t name laddr lookup))
    as (r & -> & Hr). simpl.
  destruct r as [[]|e]; [|by eexists].
  destruct IH as (r & -> & IH). exists r. split; [done|]. intros ->.
  destruct (Hr eq_refl) as (ins & Hdec & Hall & Hs).
  constructor; [by exists ins|by apply IH].
Qed.

Definition program_of (cfg : bytecodeRouterCfg) (call : routerCall) : list byte :=
  match call with
  | DialTCP _ _ _ => rc_dialTCP cfg
  | ListenTCP _ _ => rc_listenTCP cfg
  | DialUDP _ _ _ => rc_dialUDP cfg
  | RouteUDP _ _ _ => rc_routeUDP cfg
  | Lookup _ _ => rc_lookup cfg
  end.

(** The evaluation state a call starts from. *)
Definition call_eval (cfg : bytecodeRouterCfg) (call : routerCall) (lnow rnow : Z) : bytecodeEval :=
  match call with
  | DialTCP network laddr raddr =>
      router_eval cfg bytecodeMethodDial network (str_input laddr) (str_input raddr)
        (rc_dialTCPStringOps cfg) lnow rnow
  | ListenTCP network laddr =>
      router_eval cfg bytecodeMethodListen network (str_input laddr) no_input
        (rc_listenTCPStringOps cfg) lnow rnow
  | DialUDP network laddr raddr =>
      router_eval cfg bytecodeMethodDial network (str_input laddr) (str_input raddr)
        (rc_dialUDPStringOps cfg) lnow rnow
  | RouteUDP network laddr raddr =>
      router_eval cfg bytecodeMethodDial network (MkAddrInput "" laddr) (MkAddrInput "" raddr)
        (rc_routeUDPStringOps cfg) lnow rnow
  | Lookup network address =>
      router_eval cfg bytecodeMethodLookup network no_input (str_input address)
        (rc_lookupStringOps cfg) lnow rnow
  end.

(** Everything the constructor guarantees. *)
Record accepted (cfg : bytecodeRouterCfg) : Prop := MkAccepted {
  acc_regexps : Forall is_Some (t_regexps (rc_tables cfg));
  acc_programs : forall call, exists name laddr lookup ins,
    program_ok (rc_tables cfg) name laddr lookup (program_of cfg call) ins /\
    forall slot, mentions RouterSlots [] ins slot -> slot ∈ rc_mentionedSlots cfg }.

Lemma checked_param_nonneg v ins : Forall (checked v) ins -> Forall (fun i => 0 <= in_param i) ins.
Proof. intros Hall. eapply Forall_impl; [exact Hall|]. intros i (_ & Hp & _). lia. Qed.

Lemma NewBytecodeRouterCfg_spec rules :
  exists r, NewBytecodeRouterCfg rules = Done r /\
  forall cfg, r = Success cfg -> accepted cfg.
Proof.
  unfold NewBytecodeRouterCfg, validateRouter.
  destruct (validateRegexps _) as [[]|e] eqn:Ere; [|by eexists].
  destruct (validateTables _ _ _) as [[]|e]; [|by eexists].
  destruct (validate_programs_ok (br_tables rules)
    [("DialTCP", br_DialTCP rules, true, false); ("ListenTCP", br_ListenTCP rules, true, false);
     ("DialUDP", br_DialUDP rules, true, false); ("RouteUDP", br_RouteUDP rules, true, false);
     ("Lookup", br_Lookup rules, false, true)]) as (r & Hr & Hok).
  rewrite Hr. destruct r as [[]|e]; simpl; [|by eexists].
  specialize (Hok eq_refl). rewrite !Forall_cons in Hok.
  destruct Hok as ((i1 & P1) & (i2 & P2) & (i3 & P3) & (i4 & P4) & (i5 & P5) & _).
  assert (Hops : forall name a b code ins, program_ok (br_tables rules) name a b code ins ->
    decodes code 0 ins /\ Forall (fun i => 0 <= in_param i) ins).
  { intros ? ? ? ? ? (? & ? & ?). split; [done|]. by eapply checked_param_nonneg. }
  rewrite (bytecodeAddrStringOps_spec _ i1) by apply P1.
  rewrite (bytecodeAddrStringOps_spec _ i2) by apply P2.
  rewrite (bytecodeAddrStringOps_spec _ i3) by apply P3.
  rewrite (bytecodeAddrStringOps_spec _ i4) by apply P4.
  rewrite (bytecodeAddrStringOps_spec _ i5) by apply P5. simpl.
  destruct (mentionedBytecodeSlots_spec RouterSlots []
    [br_DialTCP rules; br_ListenTCP rules; br_DialUDP rules; br_RouteUDP rules; br_Lookup rules]
    [i1; i2; i3; i4; i5]) as (slots & Hslots & Hspec);
    [done|constructor|repeat constructor; by eapply Hops|].
  unfold mentionedBytecodeSlots. rewrite Hslots. simpl. eexists. split; [done|].
  intros cfg [= <-]. split; [by eapply validateRegexps_ok|].
  assert (Hm : forall ins slot, ins ∈ [i1; i2; i3; i4; i5] ->
    mentions RouterSlots [] ins slot -> slot ∈ slots).
  { intros ins slot Hin Hmen. apply Hspec. eauto. }
  intros []; simpl; do 4 eexists; (split; [eassumption|]); intros slot; apply Hm; set_solver.
Qed.

(** Any call on an accepted configuration runs a validated program. *)
Lemma router_call_sound cfg call lnow rnow :
  accepted cfg ->
  exists ins slot, decodes (program_of cfg call) 0 ins /\
    router_call cfg call lnow rnow = Done slot /\
    router_reference (rc_tables cfg) (call_eval cfg call lnow rnow) ins = Done slot /\
    0 <= slot <= RouterSlots /\ (slot = 0 \/ slot ∈ MentionedSlots cfg).
Proof.
  intros [Hre Hprog]. destruct (Hprog call) as (name & la & lo & ins & (Hdec & Hall & Hs) & Hm).
  assert (Hgo : forall method network laddr raddr ops,
    call_eval cfg call lnow rnow = router_eval cfg method network laddr raddr ops lnow rnow ->
    router_call cfg call lnow rnow = router_exec cfg (program_of cfg call) method network laddr raddr ops lnow rnow ->
    exists slot, router_call cfg call lnow rnow = Done slot /\
      router_reference (rc_tables cfg) (call_eval cfg call lnow rnow) ins = Done slot /\
      0 <= slot <= RouterSlots /\ (slot = 0 \/ slot ∈ MentionedSlots cfg)).
  { intros method network laddr raddr ops -> ->.
    destruct (router_exec_sound cfg (program_of cfg call) ins method network laddr raddr ops lnow rnow
      name la lo Hre Hdec Hall Hs) as (slot & ? & ? & ? & Hx).
    exists slot. split_and!; try done; try lia. destruct Hx as [|Hx]; [by left|]. right. by apply Hm. }
  exists ins. assert (Hex : exists slot, router_call cfg call lnow rnow = Done slot /\
      router_reference (rc_tables cfg) (call_eval cfg call lnow rnow) ins = Done slot /\
      0 <= slot <= RouterSlots /\ (slot = 0 \/ slot ∈ MentionedSlots cfg)).
  { destruct call; by eapply Hgo. }
  destruct Hex as (slot & ?). by exists slot.
Qed.

(** ** Theorems *)


(** C5. The evaluator implements the reference machine: an accepted program
    decodes into instructions, and the slot of a call is the one the machine
    computes from the values of the predicates on the call's addresses.  The
    lazily filled caches of hosts, addresses, ports and reverse DNS names do
    not show in the result. *)
Theorem router_implements_reference rules cfg call lnow rnow :
  NewBytecodeRouterCfg rules = Done (Success cfg) ->
  exists ins, decodes (program_of cfg call) 0 ins /\
    router_call cfg call lnow rnow =
      router_reference (rc_tables cfg) (call_eval cfg call lnow rnow) ins.
Proof.
  intros Hnew. destruct (NewBytecodeRouterCfg_spec rules) as (r & Hr & Hacc).
  rewrite Hnew in Hr. injection Hr as <-.
  destruct (router_call_sound cfg call lnow rnow (Hacc cfg eq_refl)) as (ins & slot & ? & Hc & Href & _).
  exists ins. by rewrite Hc, Href.
Qed.
End Exec.

(** ** Witnesses *)

(** A host without a services database. *)
Definition bare_host : HostEnv := {| resolver_LookupPort := fun _ _ => None |}.

(** "ADDR_S host.test SLOT 3; NET4 NOT DROP; TRUE SLOT 1" for every method. *)
Definition sample_code : list byte :=
  [x0d; x00; x00; x01; x03; x07; x04; x00; x02; x01; x01].

Definition sample_rules : BytecodeRules :=
  MkBytecodeRules (MkTables ["host.test"] [] [] [] [] []) None
    sample_code sample_code sample_code sample_code sample_code.

Definition sample_cfg : bytecodeRouterCfg :=
  MkRouterCfg (MkTables ["host.test"] [] [] [] [] [])
    sample_code sample_code sample_code sample_code sample_code None
    (MkStringOps true false) (MkStringOps true false) (MkStringOps true false)
    (MkStringOps true false) (MkStringOps true false) [1; 3].

Lemma sample_accepted : NewBytecodeRouterCfg sample_rules = Done (Success sample_cfg).
Proof. vm_compute. reflexivity. Qed.


Lemma router_implements_reference_witness :
  exists ins, decodes (program_of sample_cfg (Lookup "ip4" "host.test")) 0 ins /\
    @router_call bare_host sample_cfg (Lookup "ip4" "host.test") 0 0 =
      @router_reference bare_host (rc_tables sample_cfg)
        (call_eval sample_cfg (Lookup "ip4" "host.test") 0 0) ins.
Proof.
  apply (@router_implements_reference bare_host sample_rules sample_cfg). vm_compute. reflexivity.
Defined.
