(* ===== verification/Packet.v ===== *)
(** * The packet parser of the split router

    Models the parser at the end of src/routing/split_bytecode.go:
    [parsedIPPacket], [parseIPPacket], [parseIPv4Packet], [parseIPv6Packet],
    [skipIPv6ExtHeaders] and [parsePorts].

    The theorems: the parser returns on any buffer and offset; and a packet it
    marks [flowOK] has a flow tuple ([FlowTupleFromOutgoingIPPacket] succeeds)
    that is a function of the protocol, the addresses and the ports, which is
    what lets the caches of the split router key on these fields. *)

From S2P Require Import Prelude GoStd NetIP SockOwner.

Record parsedIPPacket : Type := MkPacket {
  p_src : Addr; p_dst : Addr;
  p_src4 : Z; p_dst4 : Z;
  p_proto : Z;
  p_total : Z;
  p_srcPort : Z; p_dstPort : Z;
  p_hasPorts : bool; p_flowOK : bool;
  p_transportStart : Z }.

Definition set_flowOK (p : parsedIPPacket) (b : bool) : parsedIPPacket :=
  MkPacket (p_src p) (p_dst p) (p_src4 p) (p_dst4 p) (p_proto p) (p_total p)
    (p_srcPort p) (p_dstPort p) (p_hasPorts p) b (p_transportStart p).

Definition set_ports (p : parsedIPPacket) (sp dp : Z) : parsedIPPacket :=
  MkPacket (p_src p) (p_dst p) (p_src4 p) (p_dst4 p) (p_proto p) (p_total p)
    sp dp true (p_flowOK p) (p_transportStart p).

Definition set_transport (p : parsedIPPacket) (proto start : Z) : parsedIPPacket :=
  MkPacket (p_src p) (p_dst p) (p_src4 p) (p_dst4 p) proto (p_total p)
    (p_srcPort p) (p_dstPort p) (p_hasPorts p) (p_flowOK p) start.

Definition parsePorts (p : parsedIPPacket) (pkt : list byte) : run parsedIPPacket :=
  if negb (p_proto p =? 6) && negb (p_proto p =? 17) then Done p
  else if zlen pkt <? p_transportStart p + 4 then Done p
  else
    let! sp := rd16 pkt (p_transportStart p) in
    let! dp := rd16 pkt (p_transportStart p + 2) in
    let p := set_ports p sp dp in
    if p_proto p =? 6 then
      if zlen pkt <? p_transportStart p + 20 then Done p
      else
        let! b := rd8 pkt (p_transportStart p + 12) in
        let headerLen := Z.shiftr b 4 * 4 in
        if (headerLen <? 20) || (zlen pkt <? p_transportStart p + headerLen) then Done p
        else Done (set_flowOK p true)
    else
      if p_transportStart p + 8 <=? zlen pkt then Done (set_flowOK p true) else Done p.

(** The protocol, the start of the transport header, whether the packet is a
    flow candidate, whether the headers parsed. *)
Fixpoint skipIPv6ExtHeaders (fuel : nat) (pkt : list byte) (proto start : Z)
  : run (Z * Z * bool * bool) :=
  match fuel with
  | O => OutOfFuel
  | S fuel' =>
      if (proto =? 0) || (proto =? 43) || (proto =? 60) then
        if zlen pkt <? start + 2 then Done (0, 0, false, false)
        else
          let! next := rd8 pkt start in
          let! l := rd8 pkt (start + 1) in
          let hdrLen := (l + 1) * 8 in
          if zlen pkt <? start + hdrLen then Done (0, 0, false, false)
          else skipIPv6ExtHeaders fuel' pkt next (start + hdrLen)
      else if proto =? 44 then
        if zlen pkt <? start + 8 then Done (0, 0, false, false)
        else
          let! next := rd8 pkt start in
          let! frag := rd16 pkt (start + 2) in
          if negb (Z.land frag 65528 =? 0) then Done (next, start + 8, false, true)
          else skipIPv6ExtHeaders fuel' pkt next (start + 8)
      else if proto =? 51 then
        if zlen pkt <? start + 2 then Done (0, 0, false, false)
        else
          let! next := rd8 pkt start in
          let! l := rd8 pkt (start + 1) in
          let hdrLen := (l + 2) * 4 in
          if zlen pkt <? start + hdrLen then Done (0, 0, false, false)
          else skipIPv6ExtHeaders fuel' pkt next (start + hdrLen)
      else Done (proto, start, true, true)
  end.

Definition parseIPv4Packet (pkt : list byte) : run (option parsedIPPacket) :=
  if zlen pkt <? 20 then Done None
  else
    let! b0 := rd8 pkt 0 in
    let ihl := Z.land b0 15 * 4 in
    let! total := rd16 pkt 2 in
    if (ihl <? 20) || (total <? ihl) || (zlen pkt <? total) then Done None
    else
      let! src4 := must (be32 pkt 12) in
      let! dst4 := must (be32 pkt 16) in
      let! src := cut pkt 12 16 in
      let! dst := cut pkt 16 20 in
      let! proto := rd8 pkt 9 in
      let out := MkPacket (AddrFrom4 src) (AddrFrom4 dst) src4 dst4 proto total 0 0 false false ihl in
      let! flagsFrag := rd16 pkt 6 in
      if Z.land flagsFrag 8191 =? 0 then
        let! body := cut pkt 0 total in
        let! out := parsePorts out body in
        Done (Some out)
      else Done (Some out).

Definition parseIPv6Packet (pkt : list byte) : run (option parsedIPPacket) :=
  if zlen pkt <? 40 then Done None
  else
    let! payloadLen := rd16 pkt 4 in
    let total := 40 + payloadLen in
    if zlen pkt <? total then Done None
    else
      let! src := cut pkt 8 24 in
      let! dst := cut pkt 24 40 in
      let! proto0 := rd8 pkt 6 in
      let out := MkPacket (AddrFrom16 src) (AddrFrom16 dst) 0 0 proto0 total 0 0 false false 40 in
      let! body := cut pkt 0 total in
      let! r := skipIPv6ExtHeaders (S (length body)) body proto0 40 in
      let '(proto, start, flowCandidate, ok) := r in
      if negb ok then Done None
      else
        let! out := parsePorts (set_transport out proto start) body in
        if negb flowCandidate then Done (Some (set_flowOK out false)) else Done (Some out).

Definition parseIPPacket (buf : list byte) (offset : Z) : run (option parsedIPPacket) :=
  if (offset <? 0) || (zlen buf <=? offset) then Done None
  else
    let! pkt := cut buf offset (zlen buf) in
    let! b0 := rd8 pkt 0 in
    if Z.shiftr b0 4 =? 4 then parseIPv4Packet pkt
    else if Z.shiftr b0 4 =? 6 then parseIPv6Packet pkt
    else Done None.

(** ** The flow of a parsed packet *)

Definition flow_of (p : parsedIPPacket) : FlowTuple :=
  MkFlowTuple (if p_proto p =? 6 then "tcp" else "udp")
    (addr_bytes (p_src p)) (p_srcPort p) (addr_bytes (p_dst p)) (p_dstPort p).

(** ** Lemmas *)

(** Ports agree with what [parseTransportPorts] reads from the payload. *)
Lemma parsePorts_spec p pkt :
  0 <= p_transportStart p -> p_flowOK p = false ->
  exists p', parsePorts p pkt = Done p' /\
    p_src p' = p_src p /\ p_dst p' = p_dst p /\ p_src4 p' = p_src4 p /\ p_dst4 p' = p_dst4 p /\
    p_proto p' = p_proto p /\ p_total p' = p_total p /\
    (p_flowOK p' = true -> p_hasPorts p' = true) /\
    (p_flowOK p' = true -> forall payload,
       slice pkt (p_transportStart p) (zlen pkt) = Some payload ->
       parseTransportPorts payload (p_proto p) =
         Done (Success (p_srcPort p', p_dstPort p', if p_proto p =? 6 then "tcp" else "udp"))).
Proof.
  intros Hs Hno. unfold parsePorts.
  destruct (negb _ && negb _) eqn:Eproto.
  { exists p. rewrite Hno. by split_and!. }
  destruct (Z.ltb_spec (zlen pkt) (p_transportStart p + 4)).
  { exists p. rewrite Hno. by split_and!. }
  step_reads. cbn [set_ports p_proto p_transportStart].
  assert (Hback : forall payload n i, slice pkt (p_transportStart p) (zlen pkt) = Some payload ->
    0 <= i -> p_transportStart p + i + n <= zlen pkt -> 0 <= n ->
    (n = 2 -> rd16 payload i = rd16 pkt (p_transportStart p + i)) /\
    (n = 1 -> rd8 payload i = rd8 pkt (p_transportStart p + i))).
  { intros payload n i Hp Hi Hn Hn0. split; intros ->.
    - unfold rd16. rewrite (be16_slice _ _ _ _ _ Hp); [done|lia|lia].
    - unfold rd8. rewrite (index_slice _ _ _ _ _ Hp); [done|lia]. }
  destruct (Z.eqb_spec (p_proto p) 6) as [E6|E6].
  - destruct (Z.ltb_spec (zlen pkt) (p_transportStart p + 20)).
    { eexists. split; [done|]. simpl. rewrite Hno. by split_and!. }
    step_reads. destruct (_ || _) eqn:Ehdr.
    { eexists. split; [done|]. simpl. rewrite Hno. by split_and!. }
    apply orb_false_iff in Ehdr as [Eh1 Eh2].
    eexists. split; [done|]. simpl. split_and!; try done. intros _ payload Hp.
    pose proof (zlen_slice _ _ _ _ Hp) as Hlen.
    unfold parseTransportPorts. rewrite E6. simpl.
    destruct (Z.ltb_spec (zlen payload) 20); [lia|].
    rewrite (proj2 (Hback payload 1 12 Hp ltac:(lia) ltac:(lia) ltac:(lia)) eq_refl), E1. simpl.
    rewrite Eh1. destruct (Z.ltb_spec (zlen payload) (Z.shiftr v1 4 * 4)); [lia|].
    rewrite (proj1 (Hback payload 2 0 Hp ltac:(lia) ltac:(lia) ltac:(lia)) eq_refl), Z.add_0_r, E. simpl.
    rewrite (proj1 (Hback payload 2 2 Hp ltac:(lia) ltac:(lia) ltac:(lia)) eq_refl), E0. reflexivity.
  - destruct (Z.leb_spec (p_transportStart p + 8) (zlen pkt)).
    2:{ eexists. split; [done|]. simpl. rewrite Hno. by split_and!. }
    eexists. split; [done|]. simpl. split_and!; try done. intros _ payload Hp.
    pose proof (zlen_slice _ _ _ _ Hp) as Hlen.
    unfold parseTransportPorts, ipProtoTCP, ipProtoUDP.
    destruct (Z.eqb_spec (p_proto p) 6); [done|].
    destruct (Z.eqb_spec (p_proto p) 17); [|done].
    destruct (Z.ltb_spec (zlen payload) 8); [lia|].
    rewrite (proj1 (Hback payload 2 0 Hp ltac:(lia) ltac:(lia) ltac:(lia)) eq_refl), Z.add_0_r, E. simpl.
    rewrite (proj1 (Hback payload 2 2 Hp ltac:(lia) ltac:(lia) ltac:(lia)) eq_refl), E0. reflexivity.
Qed.

Lemma skip_total fuel pkt proto start :
  0 <= start <= zlen pkt -> zlen pkt - start < Z.of_nat fuel ->
  exists proto' start' cand ok, skipIPv6ExtHeaders fuel pkt proto start = Done (proto', start', cand, ok) /\
    (ok = true -> start <= start' <= zlen pkt).
Proof.
  revert proto start. induction fuel as [|fuel IH]; intros proto start Hs Hf; [lia|].
  assert (Hrec : forall next l, 8 <= l -> start + l <= zlen pkt ->
    exists proto' start' cand ok, skipIPv6ExtHeaders fuel pkt next (start + l) = Done (proto', start', cand, ok) /\
      (ok = true -> start <= start' <= zlen pkt)).
  { intros next l H8 Hl. destruct (IH next (start + l)) as (p' & s' & c & ok & Heq & Hok); [lia..|].
    exists p', s', c, ok. split; [done|]. intros Ht. specialize (Hok Ht). lia. }
  cbn [skipIPv6ExtHeaders].
  destruct (_ || _ || _); [|destruct (proto =? 44); [|destruct (proto =? 51)]].
  - destruct (Z.ltb_spec (zlen pkt) (start + 2)); [by do 4 eexists|]. step_reads.
    destruct (Z.ltb_spec (zlen pkt) (start + (v0 + 1) * 8)); [by do 4 eexists|]. apply Hrec; lia.
  - destruct (Z.ltb_spec (zlen pkt) (start + 8)); [by do 4 eexists|]. step_reads.
    destruct (negb _); [do 4 eexists; split; [done|lia]|]. apply Hrec; lia.
  - destruct (Z.ltb_spec (zlen pkt) (start + 2)); [by do 4 eexists|]. step_reads.
    destruct (Z.ltb_spec (zlen pkt) (start + (v0 + 2) * 4)); [by do 4 eexists|]. apply Hrec; lia.
  - do 4 eexists. split; [done|]. lia.
Qed.

(** [frag & 0xfff8 == 0] and [frag >> 3 == 0] say the same of 16 bits. *)
Lemma first_fragment frag : 0 <= frag < 65536 -> (Z.land frag 65528 =? 0) = (Z.shiftr frag 3 =? 0).
Proof.
  intros H. replace (Z.land frag 65528) with (Z.shiftl (Z.shiftr frag 3) 3).
  - rewrite Z.shiftl_mul_pow2 by lia.
    destruct (Z.eqb_spec (Z.shiftr frag 3 * 2 ^ 3) 0), (Z.eqb_spec (Z.shiftr frag 3) 0); lia.
  - change 65528 with (Z.shiftl (Z.ones 13) 3).
    apply Z.bits_inj'. intros n Hn. rewrite Z.land_spec, !Z.shiftl_spec by lia.
    destruct (Z.ltb_spec n 3) as [Hlt|Hge].
    + rewrite !(Z.testbit_neg_r _ (n - 3)) by lia. by rewrite andb_false_r.
    + rewrite Z.shiftr_spec by lia. replace (n - 3 + 3) with n by lia.
      destruct (Z.ltb_spec (n - 3) 13).
      * rewrite Z.ones_spec_low by lia. by rewrite andb_true_r.
      * rewrite (Z.bits_above_log2 frag n); [done|lia|].
        destruct (decide (frag = 0)) as [->|]; [simpl; lia|].
        apply Z.log2_lt_pow2; [lia|]. assert (2 ^ 16 <= 2 ^ n) by (apply Z.pow_le_mono_r; lia). lia.
Qed.

(** When the splitter's walk reaches TCP or UDP as a flow candidate, the walk
    of [flowTupleFromIPv6Packet] reaches the same header. *)
Lemma headers_agree fuel fuel2 pkt srcIP dstIP dir proto start proto' start' :
  skipIPv6ExtHeaders fuel pkt proto start = Done (proto', start', true, true) ->
  proto' = 6 \/ proto' = 17 ->
  0 <= start <= zlen pkt -> zlen pkt - start < Z.of_nat fuel2 ->
  ipv6_headers fuel2 pkt srcIP dstIP dir proto start =
    (let! payload := cut pkt start' (zlen pkt) in
     let! r := parseTransportPorts payload proto' in
     match r with
     | Failure e => fail e
     | Success (sp, dp, name) => Done (Success (makeFlowTuple srcIP sp dstIP dp name dir))
     end).
Proof.
  intros Hskip Hp. revert fuel2 proto start Hskip.
  induction fuel as [|fuel IH]; intros fuel2 proto start Hskip Hs Hf2; [done|].
  destruct fuel2 as [|fuel2]; [lia|].
  assert (Hgo : forall next l, 8 <= l -> start + l <= zlen pkt ->
    skipIPv6ExtHeaders fuel pkt next (start + l) = Done (proto', start', true, true) ->
    ipv6_headers fuel2 pkt srcIP dstIP dir next (start + l) = _)
    by (intros next l ? ? Hk; apply IH; [exact Hk|lia|lia]).
  cbn [skipIPv6ExtHeaders] in Hskip. cbn [ipv6_headers].
  unfold ipProtoTCP, ipProtoUDP, ipv6ExtHopByHop, ipv6ExtRouting, ipv6ExtDestinationOptions,
    ipv6ExtMobility, ipv6ExtHIP, ipv6ExtShim6, ipv6ExtFragment, ipv6ExtAH.
  destruct ((proto =? 0) || (proto =? 43) || (proto =? 60)) eqn:E1.
  { replace ((proto =? 6) || (proto =? 17)) with false by lia. cbn [orb].
    unfold skipIPv6OptionsExtHeader, rd8 in *.
    destruct (Z.ltb_spec (zlen pkt) (start + 2)); [done|].
    destruct (index pkt start) as [b0|]; [|done]. destruct (index pkt (start + 1)) as [b|]; [|done].
    cbn [run_bind must] in *. pose proof (bZ_range b).
    destruct (Z.ltb_spec (zlen pkt) (start + (bZ b + 1) * 8)); [done|].
    destruct (Z.ltb_spec ((bZ b + 1) * 8) 8); [lia|]. cbn [run_bind]. apply Hgo; [lia|lia|done]. }
  destruct (Z.eqb_spec proto 44) as [->|N44].
  { cbn [orb Z.eqb Pos.eqb]. unfold skipIPv6FragmentHeader, rd8, rd16 in *.
    destruct (Z.ltb_spec (zlen pkt) (start + 8)); [done|].
    destruct (index pkt start) as [b0|]; [|done]. destruct (be16 pkt (start + 2)) as [frag|] eqn:Ef; [|done].
    cbn [run_bind must] in *. rewrite first_fragment in Hskip by (by eapply be16_range).
    destruct (negb _); [congruence|]. cbn [run_bind]. apply Hgo; [lia|lia|done]. }
  destruct (Z.eqb_spec proto 51) as [->|N51].
  { cbn [orb Z.eqb Pos.eqb]. unfold skipIPv6AHHeader, rd8 in *.
    destruct (Z.ltb_spec (zlen pkt) (start + 2)); [done|].
    destruct (index pkt start) as [b0|]; [|done]. destruct (index pkt (start + 1)) as [b|]; [|done].
    cbn [run_bind must] in *. pose proof (bZ_range b).
    destruct (Z.ltb_spec (zlen pkt) (start + (bZ b + 2) * 4)); [done|].
    destruct (Z.ltb_spec ((bZ b + 2) * 4) 8); [lia|]. cbn [run_bind]. apply Hgo; [lia|lia|done]. }
  injection Hskip as -> ->. by replace ((proto' =? 6) || (proto' =? 17)) with true by lia.
Qed.

Lemma be32_in_range l i : 0 <= i -> i + 4 <= zlen l -> is_Some (be32 l i).
Proof.
  intros H1 H2. unfold be32.
  destruct (be16_in_range l i ltac:(lia) ltac:(lia)) as [a ->].
  destruct (be16_in_range l (i + 2) ltac:(lia) ltac:(lia)) as [b ->]. eauto.
Qed.

(** The 32-bit read of an address is the value of its four bytes. *)
Lemma be32_slice l i k v : slice l i (i + 4) = Some k -> be32 l i = Some v -> v = be_value k.
Proof.
  intros Hk Hv. pose proof (zlen_slice _ _ _ _ Hk) as Hlen.
  assert (Hix : forall n, 0 <= n < 4 -> index k n = index l (i + n)).
  { intros n Hn. apply (index_slice _ _ _ _ _ Hk). lia. }
  destruct k as [|a [|b [|c [|d [|? ?]]]]]; unfold zlen in Hlen; simpl in Hlen; try lia.
  pose proof (Hix 0 ltac:(lia)) as H0. pose proof (Hix 1 ltac:(lia)) as H1.
  pose proof (Hix 2 ltac:(lia)) as H2. pose proof (Hix 3 ltac:(lia)) as H3.
  rewrite Z.add_0_r in H0. unfold be32, be16 in Hv.
  replace (i + 2 + 1) with (i + 3) in Hv by lia.
  rewrite <- H0, <- H1, <- H2, <- H3 in Hv. simpl in Hv. injection Hv as <-.
  unfold be_value. simpl. lia.
Qed.

(** What a successful parse guarantees of the packet bytes [pkt]. *)
Record parsed_ok (pkt : list byte) (p : parsedIPPacket) : Prop := MkParsedOK {
  po_total : 20 <= p_total p <= zlen pkt;
  po_family : (Is4 (p_src p) = true /\ Is4 (p_dst p) = true /\
               p_src4 p = As4Uint32 (p_src p) /\ p_dst4 p = As4Uint32 (p_dst p)) \/
              (Is6 (p_src p) = true /\ Is6 (p_dst p) = true);
  po_ports : p_flowOK p = true -> p_hasPorts p = true;
  po_flow : p_flowOK p = true -> forall data, slice pkt 0 (p_total p) = Some data ->
    FlowTupleFromOutgoingIPPacket data = Done (Success (flow_of p)) }.

(** Reads inside a prefix are reads of the whole. *)
Section Prefix.
Context (pkt body : list byte) (total : Z).
Hypothesis Hbody : slice pkt 0 total = Some body.

Lemma rd8_prefix i : 0 <= i < total -> rd8 body i = rd8 pkt i.
Proof. intros Hi. unfold rd8. by rewrite (slice_0_index _ _ _ _ Hbody). Qed.

Lemma rd16_prefix i : 0 <= i -> i + 2 <= total -> rd16 body i = rd16 pkt i.
Proof. intros Hi Hi2. unfold rd16. rewrite (be16_slice _ _ _ _ _ Hbody); [done|lia|lia]. Qed.

Lemma cut_prefix i j : 0 <= i <= j -> j <= total -> cut body i j = cut pkt i j.
Proof.
  intros Hi Hj. revert Hbody. unfold cut, slice.
  destruct (_ && _) eqn:E; [|done]. intros [= <-].
  rewrite drop_0, Z.sub_0_r. unfold zlen in *. rewrite length_take.
  rewrite !(proj2 (Z.leb_le _ _)) by lia. cbn [andb must].
  rewrite skipn_firstn_comm, take_take. do 2 f_equal. lia.
Qed.
End Prefix.

(** The flow of the bytes of an accepted IPv4 packet. *)
Lemma flow4_of_parsed pkt data b0 ihl total flags proto q q0 payload sp dp name :
  rd8 pkt 0 = Done b0 -> Z.shiftr b0 4 = 4 -> ihl = Z.land b0 15 * 4 ->
  20 <= ihl <= total -> rd16 pkt 2 = Done total -> slice pkt 0 total = Some data ->
  rd16 pkt 6 = Done flags -> Z.land flags 8191 = 0 -> rd8 pkt 9 = Done proto ->
  cut pkt 12 16 = Done q -> cut pkt 16 20 = Done q0 ->
  slice data ihl (zlen data) = Some payload ->
  parseTransportPorts payload proto = Done (Success (sp, dp, name)) ->
  FlowTupleFromOutgoingIPPacket data = Done (Success (MkFlowTuple name q sp q0 dp)).
Proof.
  intros Hb0 Hver Hihl Hr Htot Hdata Hfl Hfrag Hproto Hq Hq0 Hpay Hports.
  pose proof (zlen_slice _ _ _ _ Hdata) as Hlen.
  unfold FlowTupleFromOutgoingIPPacket, flowTupleFromIPPacket, flowTupleFromIPv4Packet.
  destruct (Z.ltb_spec (zlen data) 1); [lia|].
  rewrite (rd8_prefix _ _ _ Hdata 0), Hb0 by lia. cbn [run_bind].
  rewrite Hver. cbn [Z.eqb Pos.eqb]. rewrite <- Hihl.
  destruct (Z.ltb_spec (zlen data) 20); [lia|].
  destruct (Z.ltb_spec ihl 20); [lia|]. destruct (Z.ltb_spec (zlen data) ihl); [lia|].
  rewrite (rd16_prefix _ _ _ Hdata 2), Htot by lia. cbn [run_bind].
  destruct (Z.ltb_spec total ihl); [lia|]. destruct (Z.ltb_spec (zlen data) total); [lia|].
  rewrite (cut_prefix _ _ _ Hdata 0 total) by lia.
  unfold cut at 1. rewrite Hdata. cbn [must run_bind].
  rewrite (rd16_prefix _ _ _ Hdata 6), Hfl by lia. cbn [run_bind]. rewrite Hfrag. cbn [Z.eqb negb].
  rewrite (rd8_prefix _ _ _ Hdata 9), Hproto by lia. cbn [run_bind].
  rewrite (cut_prefix _ _ _ Hdata 12 16), Hq by lia. cbn [run_bind].
  rewrite (cut_prefix _ _ _ Hdata 16 20), Hq0 by lia. cbn [run_bind].
  unfold cut. rewrite Hpay. cbn [must run_bind]. rewrite Hports. reflexivity.
Qed.

Lemma parseIPv4Packet_spec pkt :
  (exists b, rd8 pkt 0 = Done b /\ Z.shiftr b 4 = 4) ->
  exists o, parseIPv4Packet pkt = Done o /\
  match o with Some p => parsed_ok pkt p | None => True end.
Proof.
  intros (b0 & Hb0 & Hver). unfold parseIPv4Packet.
  destruct (Z.ltb_spec (zlen pkt) 20) as [|Hlen]; [by eexists|].
  rewrite Hb0. cbn [run_bind]. remember (Z.land b0 15 * 4) as ihl eqn:Hihl.
  destruct (rd16_in_range pkt 2 ltac:(lia) ltac:(lia)) as (total & Et & Ht). rewrite Et. cbn [run_bind].
  destruct ((ihl <? 20) || (total <? ihl) || (zlen pkt <? total)) eqn:Eg; [by eexists|].
  destruct (be32_in_range pkt 12 ltac:(lia) ltac:(lia)) as [s4 Hs4]. rewrite Hs4.
  destruct (be32_in_range pkt 16 ltac:(lia) ltac:(lia)) as [d4 Hd4]. rewrite Hd4. cbn [must run_bind].
  destruct (cut_in_range pkt 12 16 ltac:(lia) ltac:(lia)) as (q & Eq & Hq & Hl). rewrite Eq.
  destruct (cut_in_range pkt 16 20 ltac:(lia) ltac:(lia)) as (q0 & Eq0 & Hq0 & Hl0). rewrite Eq0.
  destruct (rd8_in_range pkt 9 ltac:(lia)) as (proto & Ep & _). rewrite Ep. cbn [run_bind].
  destruct (rd16_in_range pkt 6 ltac:(lia) ltac:(lia)) as (flags & Ef & _). rewrite Ef. cbn [run_bind].
  pose proof (be32_slice _ _ _ _ Hq Hs4) as Vs. pose proof (be32_slice _ _ _ _ Hq0 Hd4) as Vd.
  destruct (Z.eqb_spec (Z.land flags 8191) 0) as [Hfrag|Hfrag].
  2:{ eexists. split; [done|]. split; simpl; [lia|by left|done|done]. }
  destruct (cut_in_range pkt 0 total ltac:(lia) ltac:(lia)) as (body & Eb & Hb & Hlb). rewrite Eb. cbn [run_bind].
  destruct (parsePorts_spec (MkPacket (AddrFrom4 q) (AddrFrom4 q0) s4 d4 proto total 0 0 false false ihl) body)
    as (p' & Heq & Hsrc & Hdst & Hs4' & Hd4' & Hpr & Htot & Hports & Hflow); [simpl; lia|done|].
  rewrite Heq. cbn [run_bind]. eexists. split; [done|]. simpl in *.
  split; rewrite ?Htot, ?Hsrc, ?Hdst, ?Hs4', ?Hd4'; [lia|by left|done|].
  intros Hok data Hdata. assert (data = body) as -> by congruence.
  destruct (slice_in_range body ihl (zlen body) ltac:(lia) ltac:(lia)) as [payload Hpay].
  erewrite (flow4_of_parsed pkt body b0 ihl total flags proto q q0 payload); try eassumption; try lia;
    [|by apply Hflow].
  unfold flow_of. by rewrite Hsrc, Hdst, Hpr, !addr_bytes_4 by lia.
Qed.

(** The flow of the bytes of an accepted IPv6 packet. *)
Lemma flow6_of_parsed pkt data b0 payloadLen fuel proto0 proto start q q0 payload sp dp name :
  rd8 pkt 0 = Done b0 -> Z.shiftr b0 4 = 6 ->
  rd16 pkt 4 = Done payloadLen -> 0 < payloadLen -> slice pkt 0 (40 + payloadLen) = Some data ->
  rd8 pkt 6 = Done proto0 -> cut pkt 8 24 = Done q -> cut pkt 24 40 = Done q0 ->
  skipIPv6ExtHeaders fuel data proto0 40 = Done (proto, start, true, true) ->
  proto = 6 \/ proto = 17 -> slice data start (zlen data) = Some payload ->
  parseTransportPorts payload proto = Done (Success (sp, dp, name)) ->
  FlowTupleFromOutgoingIPPacket data = Done (Success (MkFlowTuple name q sp q0 dp)).
Proof.
  intros Hb0 Hver Hpl Hpos Hdata Hp0 Hq Hq0 Hskip Hproto Hpay Hports.
  pose proof (zlen_slice _ _ _ _ Hdata) as Hlen.
  unfold FlowTupleFromOutgoingIPPacket, flowTupleFromIPPacket, flowTupleFromIPv6Packet.
  destruct (Z.ltb_spec (zlen data) 1); [lia|].
  rewrite (rd8_prefix _ _ _ Hdata 0), Hb0 by lia. cbn [run_bind].
  rewrite Hver. cbn [Z.eqb Pos.eqb].
  destruct (Z.ltb_spec (zlen data) 40); [lia|].
  rewrite (rd16_prefix _ _ _ Hdata 4), Hpl by lia. cbn [run_bind].
  destruct (Z.eqb_spec payloadLen 0); [lia|].
  destruct (Z.ltb_spec (zlen data) (40 + payloadLen)); [lia|].
  rewrite (cut_prefix _ _ _ Hdata 0 (40 + payloadLen)) by lia.
  unfold cut at 1. rewrite Hdata. cbn [must run_bind].
  rewrite (rd8_prefix _ _ _ Hdata 6), Hp0 by lia. cbn [run_bind].
  rewrite (cut_prefix _ _ _ Hdata 8 24), Hq by lia. cbn [run_bind].
  rewrite (cut_prefix _ _ _ Hdata 24 40), Hq0 by lia. cbn [run_bind].
  rewrite (headers_agree fuel _ data q q0 packetDirectionOutgoing proto0 40 proto start Hskip Hproto)
    by (unfold zlen in *; lia).
  unfold cut. rewrite Hpay. cbn [must run_bind]. rewrite Hports. reflexivity.
Qed.

Lemma parsePorts_no_flow p pkt p' :
  parsePorts p pkt = Done p' -> p_flowOK p = false -> p_flowOK p' = true ->
  p_proto p = 6 \/ p_proto p = 17.
Proof.
  unfold parsePorts. intros H Hno Hok.
  destruct (Z.eqb_spec (p_proto p) 6), (Z.eqb_spec (p_proto p) 17); auto.
  cbn [negb andb] in H. injection H as <-. congruence.
Qed.

Lemma parsePorts_start p pkt p' :
  parsePorts p pkt = Done p' -> p_flowOK p = false -> p_flowOK p' = true ->
  p_transportStart p + 8 <= zlen pkt.
Proof.
  unfold parsePorts. intros H Hno Hok. revert H.
  destruct (negb _ && negb _); [intros [= <-]; congruence|].
  destruct (zlen pkt <? _); [intros [= <-]; congruence|].
  destruct (rd16 pkt (p_transportStart p)); [|done..]. cbn [run_bind].
  destruct (rd16 pkt (p_transportStart p + 2)); [|done..]. cbn [run_bind set_ports p_proto p_transportStart].
  destruct (p_proto p =? 6).
  - destruct (Z.ltb_spec (zlen pkt) (p_transportStart p + 20)); [intros [= <-]; simpl in Hok; congruence|]. lia.
  - destruct (Z.leb_spec (p_transportStart p + 8) (zlen pkt)); [done|].
    intros [= <-]. simpl in Hok. congruence.
Qed.

Lemma parseIPv6Packet_spec pkt :
  (exists b, rd8 pkt 0 = Done b /\ Z.shiftr b 4 = 6) ->
  exists o, parseIPv6Packet pkt = Done o /\
  match o with Some p => parsed_ok pkt p | None => True end.
Proof.
  intros (b0 & Hb0 & Hver). unfold parseIPv6Packet.
  destruct (Z.ltb_spec (zlen pkt) 40) as [|Hlen]; [by eexists|].
  destruct (rd16_in_range pkt 4 ltac:(lia) ltac:(lia)) as (pl & Et & Ht). rewrite Et. cbn [run_bind].
  destruct (Z.ltb_spec (zlen pkt) (40 + pl)) as [|Hpl]; [by eexists|].
  destruct (cut_in_range pkt 8 24 ltac:(lia) ltac:(lia)) as (q & Eq & Hq & Hl). rewrite Eq.
  destruct (cut_in_range pkt 24 40 ltac:(lia) ltac:(lia)) as (q0 & Eq0 & Hq0 & Hl0). rewrite Eq0.
  destruct (rd8_in_range pkt 6 ltac:(lia)) as (proto0 & Ep & _). rewrite Ep. cbn [run_bind].
  destruct (cut_in_range pkt 0 (40 + pl) ltac:(lia) ltac:(lia)) as (body & Eb & Hb & Hlb). rewrite Eb. cbn [run_bind].
  destruct (skip_total (S (length body)) body proto0 40) as (proto & start & cand & ok & Hskip & Hok);
    [lia|unfold zlen in *; lia|].
  rewrite Hskip. cbn [run_bind]. destruct ok; cbn [negb]; [|by eexists]. specialize (Hok eq_refl).
  destruct (parsePorts_spec (set_transport
      (MkPacket (AddrFrom16 q) (AddrFrom16 q0) 0 0 proto0 (40 + pl) 0 0 false false 40) proto start) body)
    as (p' & Heq & Hsrc & Hdst & _ & _ & Hpr & Htot & Hports & Hflow); [simpl; lia|done|].
  rewrite Heq. cbn [run_bind]. simpl in Hsrc, Hdst, Hpr, Htot, Hports, Hflow.
  destruct cand; cbn [negb]; (eexists; split; [done|]); simpl.
  2:{ split; simpl; rewrite ?Hsrc, ?Hdst; [lia|by right|done|done]. }
  split; rewrite ?Htot, ?Hsrc, ?Hdst; [lia|by right|done|].
  intros Hfl data Hdata. assert (data = body) as -> by congruence.
  pose proof (parsePorts_no_flow _ _ _ Heq eq_refl Hfl) as Hproto.
  pose proof (parsePorts_start _ _ _ Heq eq_refl Hfl) as Hst. simpl in Hproto, Hst.
  destruct (slice_in_range body start (zlen body) ltac:(lia) ltac:(lia)) as [payload Hpay].
  erewrite (flow6_of_parsed pkt body b0 pl (S (length body)) proto0 proto start q q0 payload);
    try eassumption; try lia; [|by apply Hflow].
  unfold flow_of. by rewrite Hsrc, Hdst, Hpr, !addr_bytes_16 by lia.
Qed.

(** A packet in a buffer, parsed at an offset. *)
Lemma parseIPPacket_spec buf offset :
  exists o, parseIPPacket buf offset = Done o /\
  match o with
  | Some p => exists pkt, slice buf offset (zlen buf) = Some pkt /\ 0 <= offset < zlen buf /\ parsed_ok pkt p
  | None => True
  end.
Proof.
  unfold parseIPPacket.
  destruct ((offset <? 0) || (zlen buf <=? offset)) eqn:Eo; [by eexists|].
  destruct (cut_in_range buf offset (zlen buf) ltac:(lia) ltac:(lia)) as (pkt & Ep & Hp & Hl).
  rewrite Ep. cbn [run_bind].
  destruct (rd8_in_range pkt 0 ltac:(lia)) as (b0 & Eb & _). rewrite Eb. cbn [run_bind].
  assert (Hwrap : forall (r : run (option parsedIPPacket)),
    (exists o, r = Done o /\ match o with Some p => parsed_ok pkt p | None => True end) ->
    exists o, r = Done o /\ match o with
      | Some p => exists pkt, slice buf offset (zlen buf) = Some pkt /\ 0 <= offset < zlen buf /\ parsed_ok pkt p
      | None => True end).
  { intros r (o & -> & Ho). exists o. split; [done|]. destruct o; [|done].
    exists pkt. split_and!; (done || lia). }
  destruct (Z.eqb_spec (Z.shiftr b0 4) 4); [apply Hwrap, parseIPv4Packet_spec; eauto|].
  destruct (Z.eqb_spec (Z.shiftr b0 4) 6); [apply Hwrap, parseIPv6Packet_spec; eauto|].
  by eexists.
Qed.

(** The bytes of the packet inside the buffer. *)
Lemma packet_data buf offset pkt p :
  slice buf offset (zlen buf) = Some pkt -> 0 <= offset < zlen buf -> parsed_ok pkt p ->
  exists data, slice buf offset (offset + p_total p) = Some data /\ slice pkt 0 (p_total p) = Some data.
Proof.
  intros Hpkt Ho [Ht _ _ _]. pose proof (zlen_slice _ _ _ _ Hpkt) as Hl. revert Hpkt.
  unfold slice. rewrite !(proj2 (Z.leb_le _ _)) by lia. cbn [andb]. intros [= <-].
  exists (take (Z.to_nat (p_total p)) (drop (Z.to_nat offset) buf)).
  split; [do 2 f_equal; lia|].
  rewrite (take_ge (drop (Z.to_nat offset) buf)) by (rewrite length_drop; unfold zlen; lia).
  by rewrite drop_0, Z.sub_0_r.
Qed.

(** ** Theorems *)

(** The packet parser returns on any buffer and offset: no read or slice is
    out of range and the walk over the IPv6 extension headers ends.  An
    accepted packet lies inside the buffer and both its addresses have the
    same family. *)
Theorem parseIPPacket_total buf offset :
  exists o, parseIPPacket buf offset = Done o /\
  match o with
  | Some p => 0 <= offset /\ 20 <= p_total p /\ offset + p_total p <= zlen buf /\
              Is4 (p_src p) = Is4 (p_dst p) /\ Is6 (p_src p) = Is6 (p_dst p)
  | None => True
  end.
Proof.
  destruct (parseIPPacket_spec buf offset) as (o & Ho & Hp). exists o. split; [done|].
  destruct o as [p|]; [|done]. destruct Hp as (pkt & Hpkt & Hr & [Ht Hfam _ _]).
  pose proof (zlen_slice _ _ _ _ Hpkt). split_and!; try lia.
  - destruct Hfam as [(-> & -> & _)|(H6 & H6')]; [done|].
    by destruct (p_src p), (p_dst p).
  - destruct Hfam as [(H4 & H4' & _)|(-> & ->)]; [|done].
    by destruct (p_src p), (p_dst p).
Qed.

(** The two packet parsers agree: when the split router marks a packet
    [flowOK], [FlowTupleFromOutgoingIPPacket] on the packet's bytes succeeds,
    and its flow is determined by the protocol, the addresses and the ports of
    the parsed packet, the fields of the rule-cache key. *)
Theorem flowOK_has_flow buf offset p :
  parseIPPacket buf offset = Done (Some p) -> p_flowOK p = true ->
  exists data, slice buf offset (offset + p_total p) = Some data /\
    FlowTupleFromOutgoingIPPacket data = Done (Success (flow_of p)).
Proof.
  intros Hparse Hok. destruct (parseIPPacket_spec buf offset) as (o & Ho & Hp).
  rewrite Hparse in Ho. injection Ho as <-. destruct Hp as (pkt & Hpkt & Hr & Hpo).
  destruct (packet_data _ _ _ _ Hpkt Hr Hpo) as (data & Hd & Hd').
  exists data. split; [done|]. by apply (po_flow _ _ Hpo).
Qed.

(** ** Witnesses *)

(** A UDP datagram 10.0.0.1:5353 -> 10.0.0.2:53 behind two bytes of headroom. *)
Definition sample_udp4 : list byte :=
  [xff; xff;
   x45; x00; x00; x1c; x00; x00; x00; x00; x40; x11; x00; x00; x0a; x00; x00; x01;
   x0a; x00; x00; x02; x14; xe9; x00; x35; x00; x08; x00; x00].

Definition sample_packet : parsedIPPacket :=
  MkPacket (Addr4 167772161) (Addr4 167772162) 167772161 167772162 17 28 5353 53 true true 20.

Lemma flowOK_has_flow_witness :
  parseIPPacket sample_udp4 2 = Done (Some sample_packet) /\
  exists data, slice sample_udp4 2 (2 + p_total sample_packet) = Some data /\
    FlowTupleFromOutgoingIPPacket data = Done (Success (flow_of sample_packet)).
Proof.
  split; [vm_compute; reflexivity|].
  apply flowOK_has_flow; vm_compute; reflexivity.
Defined.
