(* ===== verification/SplitCompile.v ===== *)
(** * The compiler of the split router

    Models the compilation half of src/routing/split_bytecode.go: the IPv4
    subnet masks, the pre-decoded program with its maximal stack depth, the
    arena of conditions with its builder (constant folding, double negation,
    flattening of AND and OR chains), the segments with their flat predicate
    lists, and the evaluators of the compiled form.  Indexes into the arena are
    the code's integers, and an index out of range panics.

    The evaluators are written over any state with an [atom] operation; the
    split router instantiates it with its per-packet state.

    The theorems: the compiler returns on every validated program, and the
    compiled form selects what the reference stack machine selects, under every
    valuation of the predicates. *)

From S2P Require Import Prelude GoStd NetIP Bytecode Machine.

(** ** IPv4 subnets *)

Record splitIPv4Subnet : Type := MkSplitSubnet { ss_addr : Z; ss_mask : Z }.

Definition compileSplitIPv4Subnet (n : IPv4Subnet) : splitIPv4Subnet :=
  if sn_Bits n =? 0 then MkSplitSubnet 0 0
  else let mask := mask32 (sn_Bits n) in MkSplitSubnet (Z.land (sn_Addr n) mask) mask.

Definition compileSplitIPv4Subnets (subnets : list IPv4Subnet) : list splitIPv4Subnet :=
  map compileSplitIPv4Subnet subnets.

Definition splitSubnet_contains (n : splitIPv4Subnet) (addr : Z) : bool :=
  Z.land addr (ss_mask n) =? ss_addr n.

(** ** The pre-decoded program *)

Definition split_decode_step (op : byte) (param : Z) (s : list splitInstr * Z * Z)
  : run (ctl (list splitInstr * Z * Z) unit) :=
  let '(program, depth, maxDepth) := s in
  let program := program ++ [MkInstr op (u16 param)] in
  let shrink := if 0 <? depth then depth - 1 else depth in
  match opcode_of op with
  | Some (OP_DROP | OP_SLOT) => Done (Continue (program, shrink, maxDepth))
  | Some OP_NOT => Done (Continue (program, depth, maxDepth))
  | Some (OP_AND | OP_OR) => Done (Continue (program, shrink, maxDepth))
  | _ =>
      let depth := depth + 1 in
      let maxDepth := if maxDepth <? depth then depth else maxDepth in
      Done (Continue (program, depth, maxDepth))
  end.

Definition compileSplitBytecode (code : list byte) : run (list splitInstr * Z) :=
  let! c := scan code split_decode_step ([], 0, 0) in
  match c with
  | Continue (program, _, maxDepth) => Done (program, maxDepth)
  | Return _ => Panicked
  end.

(** ** The arena of conditions *)

Inductive splitCondKind : Type :=
| splitCondConst | splitCondAtom | splitCondNot | splitCondAnd | splitCondOr.

#[global] Instance splitCondKind_eq_dec : EqDecision splitCondKind.
Proof. solve_decision. Defined.

Record splitCond : Type := MkCond {
  sc_kind : splitCondKind;
  sc_op : byte;
  sc_param : Z;
  sc_value : bool;
  sc_child : Z;
  sc_children : list Z }.

Definition const_cond (value : bool) : splitCond := MkCond splitCondConst x00 0 value 0 [].
Definition atom_cond (op : byte) (param : Z) : splitCond := MkCond splitCondAtom op param false 0 [].
Definition not_cond (child : Z) : splitCond := MkCond splitCondNot x00 0 false child [].
Definition join_cond (kind : splitCondKind) (children : list Z) : splitCond :=
  MkCond kind x00 0 false 0 children.

Record splitCondBuilder : Type := MkBuilder {
  b_conds : list splitCond;
  b_falseCond : Z;
  b_trueCond : Z }.

Definition b_add (cond : splitCond) (b : splitCondBuilder) : Z * splitCondBuilder :=
  (zlen (b_conds b), MkBuilder (b_conds b ++ [cond]) (b_falseCond b) (b_trueCond b)).

Definition newSplitCondBuilder : splitCondBuilder :=
  let '(f, b) := b_add (const_cond false) (MkBuilder [] 0 0) in
  let b := MkBuilder (b_conds b) f (b_trueCond b) in
  let '(t, b) := b_add (const_cond true) b in
  MkBuilder (b_conds b) (b_falseCond b) t.

Definition b_atom (op : byte) (param : Z) (b : splitCondBuilder) : Z * splitCondBuilder :=
  b_add (atom_cond op param) b.

(** [(value, true)] for a constant. *)
Definition b_constValue (b : splitCondBuilder) (idx : Z) : run (bool * bool) :=
  let! cond := must (index (b_conds b) idx) in
  Done match sc_kind cond with
       | splitCondConst => (sc_value cond, true)
       | _ => (false, false)
       end.

Definition b_not (child : Z) (b : splitCondBuilder) : run (Z * splitCondBuilder) :=
  let! '(value, ok) := b_constValue b child in
  if (ok : bool) then Done (if (value : bool) then b_falseCond b else b_trueCond b, b)
  else
    let! cond := must (index (b_conds b) child) in
    match sc_kind cond with
    | splitCondNot => Done (sc_child cond, b)
    | _ => Done (b_add (not_cond child) b)
    end.

(** The operands an adjacent node contributes to a joined node. *)
Definition b_operands (kind : splitCondKind) (idx : Z) (b : splitCondBuilder) : run (list Z) :=
  let! cond := must (index (b_conds b) idx) in
  Done (if decide (sc_kind cond = kind) then sc_children cond else [idx]).

Definition b_join (kind : splitCondKind) (left right : Z) (b : splitCondBuilder)
  : run (Z * splitCondBuilder) :=
  let! ls := b_operands kind left b in
  let! rs := b_operands kind right b in
  Done (b_add (join_cond kind (ls ++ rs)) b).

Definition b_and (left right : Z) (b : splitCondBuilder) : run (Z * splitCondBuilder) :=
  let! '(value, ok) := b_constValue b left in
  if (ok : bool) then Done (if negb value then b_falseCond b else right, b)
  else
    let! '(value, ok) := b_constValue b right in
    if (ok && value : bool) then Done (left, b)
    else b_join splitCondAnd left right b.

Definition b_or (left right : Z) (b : splitCondBuilder) : run (Z * splitCondBuilder) :=
  let! '(value, ok) := b_constValue b left in
  if (ok : bool) then Done (if (value : bool) then b_trueCond b else right, b)
  else
    let! '(value, ok) := b_constValue b right in
    if (ok && negb value : bool) then Done (left, b)
    else b_join splitCondOr left right b.

(** ** Flat predicate lists *)

Inductive splitFastCondKind : Type :=
| splitFastCondNone | splitFastCondAll | splitFastCondAny.

Record splitPredicate : Type := MkPred { sp_op : byte; sp_param : Z; sp_not : bool }.

(** One child of an AND or OR node; [None] when the node has no flat form. *)
Definition fast_child (conds : list splitCond) (childIdx : Z) : run (option splitPredicate) :=
  let! child := must (index conds childIdx) in
  match sc_kind child with
  | splitCondAtom => Done (Some (MkPred (sc_op child) (sc_param child) false))
  | splitCondNot =>
      let! grandchild := must (index conds (sc_child child)) in
      match sc_kind grandchild with
      | splitCondAtom => Done (Some (MkPred (sc_op grandchild) (sc_param grandchild) true))
      | _ => Done None
      end
  | splitCondConst => Done (Some (MkPred (op_byte OP_TRUE) 0 (negb (sc_value child))))
  | splitCondAnd | splitCondOr => Done None
  end.

Fixpoint fast_children (conds : list splitCond) (children : list Z)
  : run (option (list splitPredicate)) :=
  match children with
  | [] => Done (Some [])
  | childIdx :: children' =>
      let! p := fast_child conds childIdx in
      match p with
      | None => Done None
      | Some p =>
          let! ps := fast_children conds children' in
          Done match ps with Some ps => Some (p :: ps) | None => None end
      end
  end.

Definition fastPredicates (conds : list splitCond) (idx : Z)
  : run (splitFastCondKind * list splitPredicate) :=
  let! cond := must (index conds idx) in
  match sc_kind cond with
  | splitCondConst => Done (if sc_value cond then splitFastCondAll else splitFastCondNone, [])
  | splitCondAtom => Done (splitFastCondAll, [MkPred (sc_op cond) (sc_param cond) false])
  | splitCondNot =>
      let! child := must (index conds (sc_child cond)) in
      match sc_kind child with
      | splitCondAtom => Done (splitFastCondAll, [MkPred (sc_op child) (sc_param child) true])
      | _ => Done (splitFastCondNone, [])
      end
  | splitCondAnd =>
      let! preds := fast_children conds (sc_children cond) in
      Done match preds with
           | Some preds => (splitFastCondAll, preds) | None => (splitFastCondNone, []) end
  | splitCondOr =>
      let! preds := fast_children conds (sc_children cond) in
      Done match preds with
           | Some preds => (splitFastCondAny, preds) | None => (splitFastCondNone, []) end
  end.

(** ** Segments *)

Record splitRouteSegment : Type := MkSegment {
  seg_cond : Z;
  seg_slot : Z;
  seg_drop : bool;
  seg_fastKind : splitFastCondKind;
  seg_fastPreds : list splitPredicate }.

(** The loop returns [Some] with the compiled form after an unconditional
    terminal and [None] on a shape that it does not compile. *)
Definition compiledRoute : Type := option (list splitCond * list splitRouteSegment).

Definition compileState : Type := splitCondBuilder * list Z * list splitRouteSegment.

Definition compile_terminal (slot : Z) (drop : bool) (s : compileState)
  : run (ctl compileState compiledRoute) :=
  let '(b, stack, segments) := s in
  match stack with
  | [] => Done (Return None)
  | cond :: stack =>
      if negb (zlen stack =? 0) then Done (Return None)
      else
        let! '(value, isConst) := b_constValue b cond in
        if (isConst && negb value : bool) then Done (Continue (b, stack, segments))
        else
          let! '(fastKind, fastPreds) := fastPredicates (b_conds b) cond in
          let segments := segments ++ [MkSegment cond slot drop fastKind fastPreds] in
          if (isConst : bool) then Done (Return (Some (b_conds b, segments)))
          else Done (Continue (b, stack, segments))
  end.

Definition compile_step (op : byte) (param : Z) (s : compileState)
  : run (ctl compileState compiledRoute) :=
  let '(b, stack, segments) := s in
  match opcode_of op with
  | Some OP_DROP => compile_terminal 0 true s
  | Some OP_SLOT => compile_terminal (bytecodeParamInt param RouterSlots).1 false s
  | Some OP_TRUE => Done (Continue (b, b_trueCond b :: stack, segments))
  | Some (OP_FALSE | OP_FQDN | OP_LFQDN) => Done (Continue (b, b_falseCond b :: stack, segments))
  | Some OP_NOT =>
      match stack with
      | [] => Done (Return None)
      | child :: stack =>
          let! '(idx, b) := b_not child b in Done (Continue (b, idx :: stack, segments))
      end
  | Some OP_AND =>
      match stack with
      | rhs :: lhs :: stack =>
          let! '(idx, b) := b_and lhs rhs b in Done (Continue (b, idx :: stack, segments))
      | _ => Done (Return None)
      end
  | Some OP_OR =>
      match stack with
      | rhs :: lhs :: stack =>
          let! '(idx, b) := b_or lhs rhs b in Done (Continue (b, idx :: stack, segments))
      | _ => Done (Return None)
      end
  | _ => let '(idx, b) := b_atom op (u16 param) b in Done (Continue (b, idx :: stack, segments))
  end.

Definition compileSplitRoute (code : list byte) : run compiledRoute :=
  let! c := scan code compile_step (newSplitCondBuilder, [], []) in
  Done match c with
       | Return r => r
       | Continue (b, [], segments) => Some (b_conds b, segments)
       | Continue _ => None
       end.

(** ** Evaluation of the compiled form *)

Section Evaluators.
Context {S : Type} (atom : byte -> Z -> S -> run (bool * S)) (rule : Z -> S -> run (bool * S)).

(** Left to right, until a child has the value [stop]. *)
Fixpoint until_value (stop : bool) (eval : Z -> S -> run (bool * S)) (children : list Z) (s : S)
  : run (bool * S) :=
  match children with
  | [] => Done (negb stop, s)
  | child :: children' =>
      let! '(v, s) := eval child s in
      if Bool.eqb v stop then Done (stop, s) else until_value stop eval children' s
  end.

Fixpoint evalCond (fuel : nat) (conds : list splitCond) (idx : Z) (s : S) : run (bool * S) :=
  match fuel with
  | O => OutOfFuel
  | Datatypes.S fuel =>
      let! cond := must (index conds idx) in
      match sc_kind cond with
      | splitCondConst => Done (sc_value cond, s)
      | splitCondAtom => atom (sc_op cond) (sc_param cond) s
      | splitCondNot =>
          let! '(v, s) := evalCond fuel conds (sc_child cond) s in Done (negb v, s)
      | splitCondAnd => until_value false (evalCond fuel conds) (sc_children cond) s
      | splitCondOr => until_value true (evalCond fuel conds) (sc_children cond) s
      end
  end.

(** The two loops of [predicates]; their switches repeat the one of [atom]. *)
Fixpoint predicates_until (stop : bool) (preds : list splitPredicate) (s : S) : run (bool * S) :=
  match preds with
  | [] => Done (negb stop, s)
  | pred :: preds' =>
      let! '(got, s) := atom (sp_op pred) (sp_param pred) s in
      let got := if sp_not pred then negb got else got in
      if Bool.eqb got stop then Done (stop, s) else predicates_until stop preds' s
  end.

Definition predicates (kind : splitFastCondKind) (preds : list splitPredicate) (s : S)
  : run (bool * S) :=
  match kind with
  | splitFastCondAll => predicates_until false preds s
  | _ => predicates_until true preds s
  end.

Definition segment_matched (fuel : nat) (conds : list splitCond) (segment : splitRouteSegment) (s : S)
  : run (bool * S) :=
  match seg_fastKind segment with
  | splitFastCondNone => evalCond fuel conds (seg_cond segment) s
  | kind =>
      match seg_fastPreds segment with
      | [p] =>
          if negb (sp_not p) && bool_decide (opcode_of (sp_op p) = Some OP_RULE)
          then rule (sp_param p) s
          else predicates kind (seg_fastPreds segment) s
      | preds => predicates kind preds s
      end
  end.

Fixpoint routeBySegments (fuel : nat) (conds : list splitCond) (segments : list splitRouteSegment) (s : S)
  : run (Z * S) :=
  match segments with
  | [] => Done (0, s)
  | segment :: segments' =>
      let! '(matched, s) := segment_matched fuel conds segment s in
      if negb matched then routeBySegments fuel conds segments' s
      else if seg_drop segment then Done (0, s)
      else Done (seg_slot segment, s)
  end.

(** ** The fallback: the pre-decoded program over an array stack *)

(** [stack[i] = b] *)
Definition store (stack : list bool) (i : Z) (b : bool) : run (list bool) :=
  if (0 <=? i) && (i <? zlen stack) then Done (<[Z.to_nat i := b]> stack) else Panicked.

(** Opcodes whose arm pushes the value of a predicate. *)
Definition split_predicate (op : byte) : bool :=
  match opcode_of op with
  | Some (OP_NET4 | OP_NET6 | OP_UDP | OP_TCP | OP_ADDR_S | OP_LADDR_S | OP_ADDR_RE | OP_LADDR_RE
         | OP_ADDR4 | OP_LADDR4 | OP_ADDR6 | OP_LADDR6 | OP_SNET4 | OP_LSNET4 | OP_SNET6 | OP_LSNET6
         | OP_PORT | OP_LPORT | OP_RULE) => true
  | _ => false
  end.

Definition stack_step (op : byte) (param : Z) (st : S * list bool * Z)
  : run (ctl (S * list bool * Z) (Z * S)) :=
  let '(s, stack, sp) := st in
  match opcode_of op with
  | Some OP_DROP =>
      let! b := must (index stack (sp - 1)) in
      if (b : bool) then Done (Return (0, s)) else Done (Continue (s, stack, sp - 1))
  | Some OP_SLOT =>
      let! b := must (index stack (sp - 1)) in
      if (b : bool) then Done (Return (param, s)) else Done (Continue (s, stack, sp - 1))
  | Some OP_TRUE => let! stack := store stack sp true in Done (Continue (s, stack, sp + 1))
  | Some (OP_FALSE | OP_FQDN | OP_LFQDN) =>
      let! stack := store stack sp false in Done (Continue (s, stack, sp + 1))
  | Some OP_NOT =>
      let! b := must (index stack (sp - 1)) in
      let! stack := store stack (sp - 1) (negb b) in
      Done (Continue (s, stack, sp))
  | Some OP_AND =>
      let sp := sp - 1 in
      let! a := must (index stack (sp - 1)) in
      let! r := (if (a : bool) then must (index stack sp) else Done false) in
      let! stack := store stack (sp - 1) r in
      Done (Continue (s, stack, sp))
  | Some OP_OR =>
      let sp := sp - 1 in
      let! a := must (index stack (sp - 1)) in
      let! r := (if (a : bool) then Done true else must (index stack sp)) in
      let! stack := store stack (sp - 1) r in
      Done (Continue (s, stack, sp))
  | _ =>
      if split_predicate op then
        let! '(b, s) := atom op param s in
        let! stack := store stack sp b in
        Done (Continue (s, stack, sp + 1))
      else Done (Continue (s, stack, sp))
  end.

(** 64 slots, or as many as the program needs. *)
Definition runStack (program : list splitInstr) (depth : Z) (s : S) : run (Z * S) :=
  let stack := replicate (Z.to_nat (if 64 <? depth then depth else 64)) false in
  let! c := run_instrs stack_step program (s, stack, 0) in
  Done match c with
       | Return r => r
       | Continue (s, _, _) => (0, s)
       end.
End Evaluators.

Arguments split_predicate : clear implicits.

(** ** What the arena means

    A node is added after its children, so the values of the nodes of an arena
    are computed front to back. *)

Section Meaning.
Variable v : byte -> Z -> bool.

Definition val (vals : list bool) (idx : Z) : bool :=
  match index vals idx with Some b => b | None => false end.

Definition node_value (vals : list bool) (c : splitCond) : bool :=
  match sc_kind c with
  | splitCondConst => sc_value c
  | splitCondAtom => v (sc_op c) (sc_param c)
  | splitCondNot => negb (val vals (sc_child c))
  | splitCondAnd => forallb (val vals) (sc_children c)
  | splitCondOr => existsb (val vals) (sc_children c)
  end.

Definition arena_values (conds : list splitCond) : list bool :=
  fold_left (fun vals c => vals ++ [node_value vals c]) conds [].

Definition pred_value (p : splitPredicate) : bool :=
  if sp_not p then negb (v (sp_op p) (sp_param p)) else v (sp_op p) (sp_param p).

(** The slot of the first segment whose condition holds, 0 without one. *)
Fixpoint segments_slot (vals : list bool) (segments : list splitRouteSegment) : Z :=
  match segments with
  | [] => 0
  | seg :: segments' =>
      if val vals (seg_cond seg) then (if seg_drop seg then 0 else seg_slot seg)
      else segments_slot vals segments'
  end.

(** What an instruction does for the reference machine. *)
Definition split_action (op : byte) (param : Z) : action Z :=
  match opcode_of op with
  | Some OP_DROP => ActReturn 0
  | Some OP_SLOT => ActReturn param
  | Some OP_TRUE => ActPush true
  | Some (OP_FALSE | OP_FQDN | OP_LFQDN) => ActPush false
  | Some OP_NOT => ActNot
  | Some OP_AND => ActAnd
  | Some OP_OR => ActOr
  | _ => ActPush (v op param)
  end.

Lemma arena_values_snoc conds c :
  arena_values (conds ++ [c]) = arena_values conds ++ [node_value (arena_values conds) c].
Proof. unfold arena_values. by rewrite fold_left_app. Qed.

Lemma arena_values_len conds : zlen (arena_values conds) = zlen conds.
Proof.
  induction conds as [|c conds IH] using rev_ind; [done|].
  rewrite arena_values_snoc, !zlen_app, IH. done.
Qed.
End Meaning.

(** ** Well-formed arenas *)

(** The references of a node to earlier nodes. *)
Definition cond_refs (c : splitCond) : list Z :=
  match sc_kind c with
  | splitCondNot => [sc_child c]
  | splitCondAnd | splitCondOr => sc_children c
  | _ => []
  end.

Section Arena.
(** What is known of the atoms of a program. *)
Variable okAtom : byte -> Z -> Prop.

Definition node_ok (n : Z) (c : splitCond) : Prop :=
  Forall (fun r => 0 <= r < n) (cond_refs c) /\
  (sc_kind c = splitCondAtom -> okAtom (sc_op c) (sc_param c)).

Definition arena_ok (conds : list splitCond) : Prop :=
  forall i c, index conds i = Some c -> node_ok i c.

Lemma arena_ok_snoc conds c : arena_ok conds -> node_ok (zlen conds) c -> arena_ok (conds ++ [c]).
Proof.
  intros Ha Hc i c' Hi. pose proof (index_Some_range _ _ _ Hi) as Hr.
  rewrite zlen_app in Hr. unfold zlen at 2 in Hr. simpl in Hr.
  destruct (decide (i < zlen conds)) as [Hlt|Hge].
  - rewrite index_app_l in Hi by done. by apply Ha.
  - assert (i = zlen conds) as -> by lia. rewrite index_snoc in Hi. by injection Hi as <-.
Qed.

Lemma val_app vals more i : i < zlen vals -> val (vals ++ more) i = val vals i.
Proof. intros Hi. unfold val. by rewrite index_app_l. Qed.

Lemma arena_values_prefix v conds more :
  exists new, arena_values v (conds ++ more) = arena_values v conds ++ new.
Proof.
  induction more as [|c more IH] using rev_ind.
  - exists []. by rewrite !app_nil_r.
  - destruct IH as [new Hn]. rewrite app_assoc, arena_values_snoc, Hn. eexists.
    by rewrite <- app_assoc.
Qed.

Lemma val_extend v conds more i :
  i < zlen conds -> val (arena_values v (conds ++ more)) i = val (arena_values v conds) i.
Proof.
  intros Hi. destruct (arena_values_prefix v conds more) as [new ->].
  apply val_app. by rewrite arena_values_len.
Qed.

Lemma node_value_ext v vals vals' c :
  Forall (fun r => val vals r = val vals' r) (cond_refs c) ->
  node_value v vals c = node_value v vals' c.
Proof.
  unfold node_value, cond_refs. destruct (sc_kind c); intros Hf; [done|done|..].
  - by rewrite Forall_cons in Hf; destruct Hf as [-> _].
  - induction Hf as [|x l Hx Hf IH]; simpl; [done|]. by rewrite Hx, IH.
  - induction Hf as [|x l Hx Hf IH]; simpl; [done|]. by rewrite Hx, IH.
Qed.

(** The value of a node follows from the values of its references. *)
Lemma val_node v conds i c :
  arena_ok conds -> index conds i = Some c ->
  val (arena_values v conds) i = node_value v (arena_values v conds) c.
Proof.
  revert i c. induction conds as [|d conds IH] using rev_ind; intros i c Ha Hi.
  { apply index_Some_range in Hi. unfold zlen in Hi. simpl in Hi. lia. }
  assert (Hpre : arena_ok conds).
  { intros j e Hj. apply Ha. rewrite index_app_l; [done|]. apply index_Some_range in Hj. lia. }
  pose proof (index_Some_range _ _ _ Hi) as Hr. rewrite zlen_app in Hr.
  unfold zlen at 2 in Hr; simpl in Hr. destruct (Ha i c Hi) as [Hrefs _].
  rewrite arena_values_snoc. erewrite (node_value_ext v (_ ++ _)).
  2:{ eapply Forall_impl; [exact Hrefs|]. intros r Hrr. apply val_app.
      rewrite arena_values_len. simpl in Hrr. lia. }
  destruct (decide (i < zlen conds)) as [Hlt|Hge].
  - rewrite index_app_l in Hi by done. rewrite val_app by (rewrite arena_values_len; lia).
    by apply IH.
  - assert (i = zlen conds) as -> by lia. rewrite index_snoc in Hi. injection Hi as <-.
    unfold val at 1. rewrite <- (arena_values_len v conds), index_snoc. done.
Qed.

(** ** The builder *)

Record builder_ok (b : splitCondBuilder) : Prop := MkBuilderOk {
  bo_arena : arena_ok (b_conds b);
  bo_false : index (b_conds b) (b_falseCond b) = Some (const_cond false);
  bo_true : index (b_conds b) (b_trueCond b) = Some (const_cond true) }.

(** [b'] has the nodes of [b] and possibly more. *)
Definition extends (b b' : splitCondBuilder) : Prop :=
  exists more, b_conds b' = b_conds b ++ more.

Definition node_in (b : splitCondBuilder) (i : Z) : Prop := 0 <= i < zlen (b_conds b).

Lemma extends_refl b : extends b b.
Proof. exists []. by rewrite app_nil_r. Qed.

Lemma extends_trans b1 b2 b3 : extends b1 b2 -> extends b2 b3 -> extends b1 b3.
Proof. intros [x Hx] [y Hy]. exists (x ++ y). by rewrite Hy, Hx, app_assoc. Qed.

Lemma extends_node b b' i : extends b b' -> node_in b i -> node_in b' i.
Proof.
  intros [more H] Hi. unfold node_in in *. rewrite H, zlen_app.
  pose proof (zlen_nonneg more). lia.
Qed.

Lemma extends_val v b b' i : extends b b' -> node_in b i ->
  val (arena_values v (b_conds b')) i = val (arena_values v (b_conds b)) i.
Proof. intros [more ->] Hi. apply val_extend, Hi. Qed.

(** A builder operation that returns a node of the given value. *)
Definition builds (b : splitCondBuilder) (r : Z * splitCondBuilder)
    (value : (byte -> Z -> bool) -> bool) : Prop :=
  builder_ok r.2 /\ extends b r.2 /\ node_in r.2 r.1 /\
  forall v, val (arena_values v (b_conds r.2)) r.1 = value v.

Lemma newSplitCondBuilder_ok : builder_ok newSplitCondBuilder.
Proof.
  split; [|done|done]. apply (arena_ok_snoc [const_cond false]); [apply (arena_ok_snoc [])|];
    try (split; [constructor|done]).
  intros i c Hi. apply index_Some_range in Hi. unfold zlen in Hi. simpl in Hi. lia.
Qed.

Lemma b_add_builds b c :
  builder_ok b -> node_ok (zlen (b_conds b)) c ->
  builds b (b_add c b) (fun v => node_value v (arena_values v (b_conds b)) c).
Proof.
  intros [Ha Hf Ht] Hc. unfold builds, b_add. simpl. split_and!.
  - split; simpl; [by apply arena_ok_snoc|..].
    + rewrite index_app_l; [done|]. apply index_Some_range in Hf. lia.
    + rewrite index_app_l; [done|]. apply index_Some_range in Ht. lia.
  - by exists [c].
  - unfold node_in. simpl. rewrite zlen_app. pose proof (zlen_nonneg (b_conds b)).
    change (zlen [c]) with 1. lia.
  - intros v. rewrite arena_values_snoc. unfold val at 1.
    by rewrite <- (arena_values_len v (b_conds b)), index_snoc.
Qed.

Lemma keeps_builds b i : builder_ok b -> node_in b i ->
  builds b (i, b) (fun v => val (arena_values v (b_conds b)) i).
Proof. intros Hb Hi. split_and!; [done|apply extends_refl|done|done]. Qed.

Lemma node_in_index b i : node_in b i -> exists c, index (b_conds b) i = Some c.
Proof. intros Hi. by destruct (index_in_range _ _ Hi) as [c Hc]; exists c. Qed.

Lemma builds_ext b r f g : (forall v, f v = g v) -> builds b r f -> builds b r g.
Proof. intros Hfg (? & ? & ? & Hv). split_and!; try done. intros v. by rewrite Hv. Qed.

Lemma const_builds b i value :
  builder_ok b -> index (b_conds b) i = Some (const_cond value) ->
  builds b (i, b) (fun _ => value).
Proof.
  intros Hb Hi. eapply builds_ext; [|apply keeps_builds]; [|done|by apply index_Some_range in Hi].
  intros v. simpl. by rewrite (val_node _ _ _ _ (bo_arena _ Hb) Hi).
Qed.

(** A constant has its value; anything else is reported as no constant. *)
Lemma b_constValue_spec b i :
  builder_ok b -> node_in b i ->
  exists value ok, b_constValue b i = Done (value, ok) /\
  (ok = true -> forall v, val (arena_values v (b_conds b)) i = value) /\
  (ok = false -> exists c, index (b_conds b) i = Some c /\ sc_kind c <> splitCondConst).
Proof.
  intros Hb Hi. destruct (node_in_index _ _ Hi) as [c Hc]. unfold b_constValue. rewrite Hc. simpl.
  destruct (sc_kind c) eqn:Ek.
  { exists (sc_value c), true. split_and!; [done| |done]. intros _ v.
    rewrite (val_node _ _ _ _ (bo_arena _ Hb) Hc). unfold node_value. by rewrite Ek. }
  all: exists false, false; split_and!; [done|done|]; intros _; exists c; split; [done|congruence].
Qed.

Lemma b_not_builds b i :
  builder_ok b -> node_in b i ->
  exists r, b_not i b = Done r /\
    builds b r (fun v => negb (val (arena_values v (b_conds b)) i)).
Proof.
  intros Hb Hi. unfold b_not.
  destruct (b_constValue_spec b i Hb Hi) as (value & ok & -> & Hconst & Hother). cbn [run_bind].
  destruct ok.
  { eexists. split; [done|]. destruct value.
    - eapply builds_ext; [|apply const_builds, (bo_false _ Hb); done].
      intros v. simpl. by rewrite (Hconst eq_refl).
    - eapply builds_ext; [|apply const_builds, (bo_true _ Hb); done].
      intros v. simpl. by rewrite (Hconst eq_refl). }
  destruct (Hother eq_refl) as (c & Hc & Hk). rewrite Hc. cbn [must run_bind].
  destruct (bo_arena _ Hb i c Hc) as [Hrefs _].
  destruct (sc_kind c) eqn:Ek; try done; (eexists; split; [done|]);
    try (eapply builds_ext; [|apply b_add_builds; [done|]];
         [done|split; [repeat constructor; apply Hi|done]]).
  unfold cond_refs in Hrefs. rewrite Ek, Forall_singleton in Hrefs.
  eapply builds_ext; [|apply keeps_builds; [done|]].
  - intros v. simpl. rewrite (val_node v _ _ _ (bo_arena _ Hb) Hc). unfold node_value.
    by rewrite Ek, negb_involutive.
  - unfold node_in in *. lia.
Qed.

(** The operands of a joined node, and what they contribute. *)
Lemma b_operands_spec b kind i :
  builder_ok b -> node_in b i -> kind = splitCondAnd \/ kind = splitCondOr ->
  exists l, b_operands kind i b = Done l /\ Forall (node_in b) l /\
  forall v, val (arena_values v (b_conds b)) i =
    node_value v (arena_values v (b_conds b)) (join_cond kind l).
Proof.
  intros Hb Hi Hkind. destruct (node_in_index _ _ Hi) as [c Hc].
  unfold b_operands. rewrite Hc. simpl. eexists. split; [done|].
  destruct (decide (sc_kind c = kind)) as [Hk|Hk].
  - destruct (bo_arena _ Hb i c Hc) as [Hrefs _]. split.
    + unfold cond_refs in Hrefs. assert (Forall (fun r => 0 <= r < i) (sc_children c)) as Hr.
      { rewrite Hk in Hrefs. by destruct Hkind as [-> | ->]. }
      eapply Forall_impl; [exact Hr|]. intros r Hrr. unfold node_in in *. simpl in Hrr. lia.
    + intros v. rewrite (val_node v _ _ _ (bo_arena _ Hb) Hc). unfold node_value. simpl.
      rewrite Hk. by destruct Hkind as [-> | ->].
  - split; [by constructor|]. intros v. unfold node_value. simpl.
    destruct Hkind as [-> | ->]; simpl; [by rewrite andb_true_r|by rewrite orb_false_r].
Qed.

Lemma b_join_builds b kind l r :
  builder_ok b -> node_in b l -> node_in b r -> kind = splitCondAnd \/ kind = splitCondOr ->
  exists res, b_join kind l r b = Done res /\
    builds b res (fun v => (if decide (kind = splitCondAnd) then andb else orb)
      (val (arena_values v (b_conds b)) l) (val (arena_values v (b_conds b)) r)).
Proof.
  intros Hb Hl Hr Hkind. unfold b_join.
  destruct (b_operands_spec b kind l Hb Hl Hkind) as (ls & -> & Hls & Hlv). cbn [run_bind].
  destruct (b_operands_spec b kind r Hb Hr Hkind) as (rs & -> & Hrs & Hrv). cbn [run_bind].
  eexists. split; [done|]. eapply builds_ext; [|apply b_add_builds; [done|]].
  - intros v. simpl. rewrite (Hlv v), (Hrv v). unfold node_value. simpl.
    destruct Hkind as [-> | ->]; simpl; [by rewrite forallb_app|by rewrite existsb_app].
  - assert (Forall (node_in b) (ls ++ rs)) by (by apply Forall_app).
    split; [|by destruct Hkind as [-> | ->]]. by destruct Hkind as [-> | ->].
Qed.

Lemma b_and_builds b l r :
  builder_ok b -> node_in b l -> node_in b r ->
  exists res, b_and l r b = Done res /\ builds b res (fun v =>
    val (arena_values v (b_conds b)) l && val (arena_values v (b_conds b)) r).
Proof.
  intros Hb Hl Hr. unfold b_and.
  destruct (b_constValue_spec b l Hb Hl) as (value & ok & -> & Hc & _). cbn [run_bind].
  destruct ok.
  { eexists. split; [done|]. destruct value; simpl.
    - eapply builds_ext; [|by apply keeps_builds]. intros v. simpl. by rewrite (Hc eq_refl).
    - eapply builds_ext; [|apply const_builds, (bo_false _ Hb); done].
      intros v. simpl. by rewrite (Hc eq_refl). }
  destruct (b_constValue_spec b r Hb Hr) as (value' & ok' & -> & Hc' & _). cbn [run_bind].
  destruct (ok' && value') eqn:E.
  - apply andb_true_iff in E as [-> ->]. eexists. split; [done|].
    eapply builds_ext; [|by apply keeps_builds]. intros v. simpl.
    by rewrite (Hc' eq_refl), andb_true_r.
  - apply (b_join_builds b splitCondAnd); auto.
Qed.

Lemma b_or_builds b l r :
  builder_ok b -> node_in b l -> node_in b r ->
  exists res, b_or l r b = Done res /\ builds b res (fun v =>
    val (arena_values v (b_conds b)) l || val (arena_values v (b_conds b)) r).
Proof.
  intros Hb Hl Hr. unfold b_or.
  destruct (b_constValue_spec b l Hb Hl) as (value & ok & -> & Hc & _). cbn [run_bind].
  destruct ok.
  { eexists. split; [done|]. destruct value; simpl.
    - eapply builds_ext; [|apply const_builds, (bo_true _ Hb); done].
      intros v. simpl. by rewrite (Hc eq_refl).
    - eapply builds_ext; [|by apply keeps_builds]. intros v. simpl. by rewrite (Hc eq_refl). }
  destruct (b_constValue_spec b r Hb Hr) as (value' & ok' & -> & Hc' & _). cbn [run_bind].
  destruct (ok' && negb value') eqn:E.
  - apply andb_true_iff in E as [-> Hv]. apply negb_true_iff in Hv as ->. eexists. split; [done|].
    eapply builds_ext; [|by apply keeps_builds]. intros v. simpl.
    by rewrite (Hc' eq_refl), orb_false_r.
  - apply (b_join_builds b splitCondOr); auto.
Qed.

(** ** Flat predicate lists *)

Hypothesis okTrue : okAtom (op_byte OP_TRUE) 0.

(** Valuations in which [OP_TRUE], which stands for folded constants, is true. *)
Definition true_holds (v : byte -> Z -> bool) : Prop := v (op_byte OP_TRUE) 0 = true.

Definition pred_ok (p : splitPredicate) : Prop := okAtom (sp_op p) (sp_param p).

Lemma fast_child_spec conds i :
  arena_ok conds -> 0 <= i < zlen conds ->
  exists o, fast_child conds i = Done o /\
  match o with
  | Some p => pred_ok p /\ forall v, true_holds v -> pred_value v p = val (arena_values v conds) i
  | None => True
  end.
Proof.
  intros Ha Hi. destruct (index_in_range _ _ Hi) as [c Hc]. destruct (Ha i c Hc) as [Hrefs Hatom].
  unfold fast_child. rewrite Hc. cbn [must run_bind].
  assert (Hval : forall v, val (arena_values v conds) i = node_value v (arena_values v conds) c)
    by (intros; by apply val_node).
  unfold node_value in Hval. unfold cond_refs in Hrefs.
  destruct (sc_kind c) eqn:Ek; try (by eexists).
  - eexists. split; [done|]. split; [done|]. intros v Hv. rewrite Hval. unfold pred_value. simpl.
    rewrite Hv. by destruct (sc_value c).
  - eexists. split; [done|]. split; [by apply Hatom|]. intros v _. by rewrite Hval.
  - rewrite Forall_singleton in Hrefs.
    destruct (index_in_range conds (sc_child c) ltac:(lia)) as [g Hg]. rewrite Hg. cbn [must run_bind].
    destruct (Ha _ g Hg) as [_ Hgatom].
    destruct (sc_kind g) eqn:Eg; try (by eexists). eexists. split; [done|].
    split; [by apply Hgatom|]. intros v _. rewrite Hval, (val_node v _ _ _ Ha Hg).
    unfold node_value. by rewrite Eg.
Qed.

Lemma fast_children_spec conds children :
  arena_ok conds -> Forall (fun i => 0 <= i < zlen conds) children ->
  exists o, fast_children conds children = Done o /\
  match o with
  | Some ps => Forall pred_ok ps /\ forall v, true_holds v ->
      map (pred_value v) ps = map (val (arena_values v conds)) children
  | None => True
  end.
Proof.
  intros Ha Hf. induction Hf as [|i children Hi Hf IH]; simpl; [by eexists|].
  destruct (fast_child_spec conds i Ha Hi) as (o & -> & Ho). cbn [run_bind].
  destruct o as [p|]; [|by eexists]. destruct IH as (ops & -> & Hps). cbn [run_bind].
  eexists. split; [done|]. destruct ops as [ps|]; [|done].
  destruct Ho as [Hp Hv], Hps as [Hps Hvs]. split; [by constructor|].
  intros v Ht. simpl. by rewrite Hv, Hvs.
Qed.

(** The flat form of a segment, when it has one, means its condition. *)
Definition fast_ok (conds : list splitCond) (cond : Z) (kind : splitFastCondKind)
    (preds : list splitPredicate) : Prop :=
  Forall pred_ok preds /\ forall v, true_holds v ->
  match kind with
  | splitFastCondNone => True
  | splitFastCondAll => forallb (pred_value v) preds = val (arena_values v conds) cond
  | splitFastCondAny => existsb (pred_value v) preds = val (arena_values v conds) cond
  end.

Lemma fastPredicates_spec conds i :
  arena_ok conds -> 0 <= i < zlen conds ->
  exists kind preds, fastPredicates conds i = Done (kind, preds) /\ fast_ok conds i kind preds.
Proof.
  intros Ha Hi. destruct (index_in_range _ _ Hi) as [c Hc]. destruct (Ha i c Hc) as [Hrefs Hatom].
  unfold fastPredicates. rewrite Hc. cbn [must run_bind].
  assert (Hval : forall v, val (arena_values v conds) i = node_value v (arena_values v conds) c)
    by (intros; by apply val_node).
  unfold fast_ok. unfold node_value in Hval. unfold cond_refs in Hrefs.
  assert (Hin : Forall (fun r => 0 <= r < i) (sc_children c) ->
    Forall (fun r => 0 <= r < zlen conds) (sc_children c)).
  { intros Hr. eapply Forall_impl; [exact Hr|]. simpl. lia. }
  destruct (sc_kind c) eqn:Ek.
  - do 2 eexists. split; [done|]. split; [constructor|]. intros v Hv. rewrite Hval. by destruct (sc_value c).
  - do 2 eexists. split; [done|]. split; [repeat constructor; by apply Hatom|]. intros v Hv.
    rewrite Hval. simpl. by rewrite andb_true_r.
  - rewrite Forall_singleton in Hrefs.
    destruct (index_in_range conds (sc_child c) ltac:(lia)) as [g Hg]. rewrite Hg. cbn [must run_bind].
    destruct (Ha _ g Hg) as [_ Hgatom].
    destruct (sc_kind g) eqn:Eg; try (by do 2 eexists).
    do 2 eexists. split; [done|]. split; [repeat constructor; by apply Hgatom|]. intros v Hv.
    rewrite Hval, (val_node v _ _ _ Ha Hg). unfold node_value. rewrite Eg. simpl. by rewrite andb_true_r.
  - destruct (fast_children_spec conds _ Ha (Hin Hrefs)) as (o & -> & Ho). cbn [run_bind].
    destruct o as [ps|]; (do 2 eexists; split; [done|]); [|done]. destruct Ho as [Hp Hv].
    split; [done|]. intros v Ht. rewrite Hval. specialize (Hv v Ht).
    apply (f_equal (forallb id)) in Hv. by rewrite !forallb_map in Hv.
  - destruct (fast_children_spec conds _ Ha (Hin Hrefs)) as (o & -> & Ho). cbn [run_bind].
    destruct o as [ps|]; (do 2 eexists; split; [done|]); [|done]. destruct Ho as [Hp Hv].
    split; [done|]. intros v Ht. rewrite Hval. specialize (Hv v Ht).
    apply (f_equal (existsb id)) in Hv. by rewrite !existsb_map in Hv.
Qed.

(** ** The compiler simulates the machine *)

Definition segment_ok (conds : list splitCond) (seg : splitRouteSegment) : Prop :=
  0 <= seg_cond seg < zlen conds /\ fast_ok conds (seg_cond seg) (seg_fastKind seg) (seg_fastPreds seg).

Lemma segment_ok_extend conds more seg : segment_ok conds seg -> segment_ok (conds ++ more) seg.
Proof.
  intros [Hr [Hp Hf]]. pose proof (zlen_nonneg more). split; [rewrite zlen_app; lia|].
  split; [done|]. intros v Hv. rewrite val_extend by lia. by apply Hf.
Qed.

(** Instructions that become atoms. *)
Definition is_atom (op : byte) : bool :=
  match opcode_of op with
  | Some (OP_DROP | OP_SLOT | OP_TRUE | OP_FALSE | OP_FQDN | OP_LFQDN | OP_NOT | OP_AND | OP_OR) => false
  | _ => true
  end.

Definition instr_ok (i : splitInstr) : Prop :=
  0 <= in_param i < 65536 /\
  (opcode_of (in_op i) = Some OP_SLOT -> in_param i <= RouterSlots) /\
  (is_atom (in_op i) = true -> okAtom (in_op i) (in_param i)).

Definition compile_inv (s : compileState) : Prop :=
  let '(b, stk, segs) := s in
  builder_ok b /\ Forall (node_in b) stk /\ Forall (segment_ok (b_conds b)) segs.

Definition stack_values (v : byte -> Z -> bool) (b : splitCondBuilder) (stk : list Z) : list bool :=
  map (val (arena_values v (b_conds b))) stk.

Definition segment_slot (seg : splitRouteSegment) : Z := if seg_drop seg then 0 else seg_slot seg.

(** One instruction: the compiler's new segments decide exactly when the
    machine returns, and its new stack has the values of the machine's. *)
Definition step_simulates (i : splitInstr) (s : compileState) (c : ctl compileState compiledRoute) : Prop :=
  let '(b, stk, segs) := s in
  match c with
  | Return None => True
  | Return (Some (conds, segs')) =>
      conds = b_conds b /\ exists seg, segs' = segs ++ [seg] /\ segment_ok conds seg /\
      forall v, true_holds v -> val (arena_values v conds) (seg_cond seg) = true /\
        machine_step (split_action v (in_op i) (in_param i)) (stack_values v b stk)
          = Done (Return (segment_slot seg))
  | Continue (b', stk', segs') =>
      compile_inv (b', stk', segs') /\ extends b b' /\ exists new, segs' = segs ++ new /\
      forall v, true_holds v ->
        match machine_step (split_action v (in_op i) (in_param i)) (stack_values v b stk) with
        | Done (Continue st) => st = stack_values v b' stk' /\
            Forall (fun seg => val (arena_values v (b_conds b')) (seg_cond seg) = false) new
        | Done (Return r) => exists seg, new = [seg] /\ r = segment_slot seg /\
            val (arena_values v (b_conds b')) (seg_cond seg) = true
        | _ => False
        end
  end.

(** Replacing the operands on the stack by a node of the builder. *)
Lemma push_simulates i b stk stk' segs r value :
  builder_ok b -> Forall (node_in b) stk' -> Forall (segment_ok (b_conds b)) segs ->
  builds b r value ->
  (forall v, true_holds v ->
     machine_step (split_action v (in_op i) (in_param i)) (stack_values v b stk)
     = Done (Continue (value v :: stack_values v b stk'))) ->
  step_simulates i (b, stk, segs) (Continue (r.2, r.1 :: stk', segs)).
Proof.
  intros Hb Hs Hg (Hb' & Hext & Hin & Hval) Hm. destruct r as [idx b']. simpl in *.
  split_and!; try done.
  - constructor; [done|]. eapply Forall_impl; [exact Hs|]. intros x Hx. by eapply extends_node.
  - destruct Hext as [more ->]. eapply Forall_impl; [exact Hg|].
    intros x Hx. by apply segment_ok_extend.
  - exists []. split; [by rewrite app_nil_r|]. intros v Hv. rewrite Hm by done.
    split; [|constructor]. simpl. rewrite Hval. f_equal. unfold stack_values.
    apply map_ext_Forall. eapply Forall_impl; [exact Hs|]. intros x Hx. by rewrite (extends_val v b b').
Qed.

Lemma terminal_simulates i b stk segs slot (drop : bool) :
  compile_inv (b, stk, segs) ->
  (forall v, split_action v (in_op i) (in_param i) = ActReturn (if drop then 0 else slot)) ->
  exists c, compile_terminal slot drop (b, stk, segs) = Done c /\ step_simulates i (b, stk, segs) c.
Proof.
  intros (Hb & Hs & Hg) Hact. unfold compile_terminal.
  destruct stk as [|cond stk]; [by eexists|]. inversion Hs as [|? ? Hin Hs']; subst.
  destruct stk as [|? ?]; cbn [negb Z.eqb]; [|by eexists]. change (zlen (@nil Z) =? 0) with true. cbn [negb].
  destruct (b_constValue_spec b cond Hb Hin) as (value & ok & -> & Hc & _). cbn [run_bind].
  destruct (ok && negb value) eqn:E.
  { apply andb_true_iff in E as [-> Hv]. apply negb_true_iff in Hv as ->.
    eexists. split; [done|]. simpl. split_and!; try done; [apply extends_refl|].
    exists []. split; [by rewrite app_nil_r|]. intros v _. rewrite Hact. simpl.
    by rewrite (Hc eq_refl). }
  destruct (fastPredicates_spec (b_conds b) cond (bo_arena _ Hb) Hin) as (kind & preds & -> & Hfast).
  cbn [run_bind]. destruct ok.
  - eexists. split; [done|]. simpl. split; [done|]. eexists. split; [done|]. split; [done|].
    intros v Hv. simpl. rewrite Hact. simpl in E. apply negb_false_iff in E as ->.
    rewrite (Hc eq_refl). done.
  - eexists. split; [done|]. simpl. split_and!; try done; [|apply extends_refl|].
    + apply Forall_app. split; [done|]. by constructor.
    + eexists. split; [done|]. intros v Hv. rewrite Hact. simpl.
      destruct (val _ cond) eqn:Ev; simpl; [by eexists|]. split; [done|]. by constructor.
Qed.

Lemma u16_small z : 0 <= z < 65536 -> u16 z = z.
Proof. intros. unfold u16. apply Z.mod_small. lia. Qed.

Lemma compile_step_simulates i s :
  instr_ok i -> compile_inv s ->
  exists c, compile_step (in_op i) (in_param i) s = Done c /\ step_simulates i s c.
Proof.
  intros (Hp & Hslot & Hatom). destruct s as [[b stk] segs]. intros Hinv.
  pose proof Hinv as (Hb & Hs & Hg). unfold compile_step.
  assert (Hpush : is_atom (in_op i) = true ->
    (forall v, split_action v (in_op i) (in_param i) = ActPush (v (in_op i) (in_param i))) ->
    exists c, (let '(idx, b) := b_atom (in_op i) (u16 (in_param i)) b in
       Done (Continue (b, idx :: stk, segs))) = Done c /\ step_simulates i (b, stk, segs) c).
  { intros Ha Hact. rewrite u16_small by done. eexists. split; [done|].
    eapply (push_simulates i b stk stk segs (b_atom _ _ b)); [done..| |].
    - apply b_add_builds; [done|]. split; [constructor|]. intros _. by apply Hatom.
    - intros v Hv. by rewrite Hact. }
  assert (Hconst : forall value idx, index (b_conds b) idx = Some (const_cond value) ->
    (forall v, split_action v (in_op i) (in_param i) = ActPush value) ->
    exists c, Done (Continue (b, idx :: stk, segs)) = Done c /\ step_simulates i (b, stk, segs) c).
  { intros value idx Hi Hact. eexists. split; [done|].
    eapply (push_simulates i b stk stk segs (idx, b)); [done..|by apply const_builds|].
    intros v Hv. by rewrite Hact. }
  unfold split_action, is_atom in *.
  destruct (opcode_of (in_op i)) as [[]|] eqn:Eo; try (by apply Hpush);
    try (by apply (Hconst false _ (bo_false _ Hb))); try (by apply (Hconst true _ (bo_true _ Hb))).
  - apply terminal_simulates; [done|]. intros v. unfold split_action. by rewrite Eo.
  - apply terminal_simulates; [done|]. intros v. unfold split_action. rewrite Eo.
    unfold bytecodeParamInt. specialize (Hslot eq_refl). unfold RouterSlots in *. simpl.
    destruct (Z.ltb_spec 16 (in_param i)); [lia|done].
  - destruct stk as [|x stk]; [by eexists|]. inversion Hs as [|? ? Hx Hs']; subst.
    destruct (b_not_builds b x Hb Hx) as (r & -> & Hr). cbn [run_bind].
    destruct r as [idx b'] eqn:Er. eexists. split; [done|].
    eapply (push_simulates i b (x :: stk) stk segs (idx, b')); [done..|].
    intros v Hv. unfold split_action. by rewrite Eo.
  - destruct stk as [|y [|x stk]]; [by eexists..|].
    inversion Hs as [|? ? Hy Hs']; subst. inversion Hs' as [|? ? Hx Hs'']; subst.
    destruct (b_and_builds b x y Hb Hx Hy) as (r & -> & Hr). cbn [run_bind].
    destruct r as [idx b'] eqn:Er. eexists. split; [done|].
    eapply (push_simulates i b (y :: x :: stk) stk segs (idx, b')); [done..|].
    intros v Hv. unfold split_action. by rewrite Eo.
  - destruct stk as [|y [|x stk]]; [by eexists..|].
    inversion Hs as [|? ? Hy Hs']; subst. inversion Hs' as [|? ? Hx Hs'']; subst.
    destruct (b_or_builds b x y Hb Hx Hy) as (r & -> & Hr). cbn [run_bind].
    destruct r as [idx b'] eqn:Er. eexists. split; [done|].
    eapply (push_simulates i b (y :: x :: stk) stk segs (idx, b')); [done..|].
    intros v Hv. unfold split_action. by rewrite Eo.
Qed.

Lemma segments_slot_skip vals new rest :
  Forall (fun seg => val vals (seg_cond seg) = false) new ->
  segments_slot vals (new ++ rest) = segments_slot vals rest.
Proof. induction 1 as [|seg new Hseg _ IH]; simpl; [done|]. by rewrite Hseg. Qed.

(** A whole program from a state of the compiler. *)
Definition compiles_to (s : compileState) (ins : list splitInstr) (conds : list splitCond)
    (segs' : list splitRouteSegment) : Prop :=
  let '(b, stk, segs) := s in
  arena_ok conds /\ (exists more, conds = b_conds b ++ more) /\ Forall (segment_ok conds) segs' /\
  exists new, segs' = segs ++ new /\
  forall v, true_holds v -> exists m,
    machine (split_action v) ins (stack_values v b stk) = Done m /\
    loop_slot m = segments_slot (arena_values v conds) new.

Lemma compile_simulates ins s :
  Forall instr_ok ins -> compile_inv s ->
  exists c, run_instrs compile_step ins s = Done c /\
  match c with
  | Return None => True
  | Return (Some (conds, segs')) => compiles_to s ins conds segs'
  | Continue (b', _, segs') => compiles_to s ins (b_conds b') segs'
  end.
Proof.
  intros Hall. revert s. induction Hall as [|i ins Hi Hall IH]; intros [[b stk] segs] Hinv.
  { eexists. split; [done|]. destruct Hinv as (Hb & Hs & Hg). split_and!; try done.
    - apply (bo_arena _ Hb).
    - exists []. by rewrite app_nil_r.
    - exists []. split; [by rewrite app_nil_r|]. intros v _. by eexists. }
  destruct (compile_step_simulates i (b, stk, segs) Hi Hinv) as (c & Hc & Hsim).
  cbn [run_instrs]. rewrite Hc. cbn [run_bind]. destruct c as [[[b1 stk1] segs1]|[[conds segs']|]].
  - destruct Hsim as (Hinv1 & Hext & new & -> & Hstep).
    destruct (IH _ Hinv1) as (c & Hrun & Hres). exists c. split; [done|].
    assert (Hgo : forall conds segs', compiles_to (b1, stk1, segs ++ new) ins conds segs' ->
      compiles_to (b, stk, segs) (i :: ins) conds segs').
    { intros conds segs' (Ha & [more ->] & Hg & new' & -> & Hm). split_and!; try done.
      { destruct Hext as [more' ->]. exists (more' ++ more). by rewrite app_assoc. }
      exists (new ++ new'). split; [by rewrite app_assoc|]. intros v Hv.
      specialize (Hstep v Hv). destruct (Hm v Hv) as (m & Hmach & Hslot).
      unfold machine in *. cbn [run_instrs].
      assert (Hnew : Forall (fun seg => node_in b1 (seg_cond seg)) new).
      { destruct Hinv1 as (_ & _ & Hg1). apply Forall_app in Hg1 as [_ Hg1].
        eapply Forall_impl; [exact Hg1|]. by intros seg [? _]. }
      destruct (machine_step _ _) as [[st|r]| |]; try done; simpl.
      + destruct Hstep as [-> Hfalse]. exists m. split; [done|]. rewrite Hslot. symmetry.
        apply segments_slot_skip, Forall_forall. intros seg Hseg. rewrite Forall_forall in Hnew, Hfalse.
        rewrite val_extend by (apply Hnew, Hseg). by apply Hfalse.
      + destruct Hstep as (seg & -> & -> & Htrue). eexists. split; [done|]. simpl.
        rewrite Forall_singleton in Hnew. by rewrite val_extend, Htrue by apply Hnew. }
    destruct c as [[[b2 ?] segs2]|[[conds segs2]|]]; try done; by apply Hgo.
  - destruct Hsim as (-> & seg & -> & Hseg & Hm). eexists. split; [done|]. split_and!.
    + apply (bo_arena _ (proj1 Hinv)).
    + exists []. by rewrite app_nil_r.
    + apply Forall_app. split; [apply Hinv|]. by constructor.
    + exists [seg]. split; [done|]. intros v Hv. destruct (Hm v Hv) as [Htrue Hmach].
      unfold machine. cbn [run_instrs]. rewrite Hmach. eexists. split; [done|]. simpl. by rewrite Htrue.
  - by eexists.
Qed.

(** The compiler on a validated program. *)
Lemma compileSplitRoute_sound code ins :
  decodes code 0 ins -> Forall instr_ok ins ->
  exists r, compileSplitRoute code = Done r /\
  forall conds segs, r = Some (conds, segs) ->
    arena_ok conds /\ Forall (segment_ok conds) segs /\
    forall v, true_holds v -> exists m,
      machine (split_action v) ins [] = Done m /\
      loop_slot m = segments_slot (arena_values v conds) segs.
Proof.
  intros Hdec Hall. unfold compileSplitRoute. rewrite (scan_decodes _ _ _ _ Hdec).
  destruct (compile_simulates ins (newSplitCondBuilder, [], []) Hall) as (c & -> & Hres).
  { split_and!; [apply newSplitCondBuilder_ok|constructor..]. }
  cbn [run_bind]. eexists. split; [done|]. intros conds segs Hr.
  assert (Hgo : compiles_to (newSplitCondBuilder, [], []) ins conds segs).
  { destruct c as [[[b stk] segs']|r]; [|by subst r].
    destruct stk as [|? ?]; [|done]. by injection Hr as <- <-. }
  destruct Hgo as (? & _ & ? & new & -> & ?). auto.
Qed.

(** ** The evaluators compute the meaning

    A state remembers the answers that were asked for, so the valuation is a
    function of the state, and an answer holds for every later state. *)

Section Evaluation.
Context {S : Type} (inv : S -> Prop) (later : S -> S -> Prop) (v : S -> byte -> Z -> bool)
  (atom : byte -> Z -> S -> run (bool * S)) (rule : Z -> S -> run (bool * S)).

Hypothesis later_refl : forall s, later s s.
Hypothesis later_trans : forall s1 s2 s3, later s1 s2 -> later s2 s3 -> later s1 s3.

(** From every good state the computation returns the value that all later
    states agree on. *)
Definition evaluates (f : S -> run (bool * S)) (value : S -> bool) : Prop :=
  forall s, inv s -> exists b s', f s = Done (b, s') /\ inv s' /\ later s s' /\
    forall sf, later s' sf -> value sf = b.

Hypothesis atom_value : forall op param, okAtom op param ->
  evaluates (atom op param) (fun sf => v sf op param).
Hypothesis rule_value : forall op param, opcode_of op = Some OP_RULE -> okAtom op param ->
  evaluates (rule param) (fun sf => v sf op param).
Hypothesis v_true : forall s, true_holds (v s).

Lemma evaluates_ext f value value' :
  (forall sf, value sf = value' sf) -> evaluates f value -> evaluates f value'.
Proof.
  intros Heq Hf s Hs. destruct (Hf s Hs) as (b & s' & ? & ? & ? & Hv). exists b, s'.
  split_and!; try done. intros sf Hsf. rewrite <- Heq. by apply Hv.
Qed.

Lemma evaluates_const b : evaluates (fun s => Done (b, s)) (fun _ => b).
Proof. intros s Hs. exists b, s. auto. Qed.

(** One step of a left-to-right loop that stops at the value [stop]. *)
Lemma evaluates_until (stop : bool) f g value rest :
  evaluates f value -> evaluates g rest ->
  evaluates (fun s => let! '(b, s) := f s in if Bool.eqb b stop then Done (stop, s) else g s)
    (fun sf => if Bool.eqb (value sf) stop then stop else rest sf).
Proof.
  intros Hf Hg s Hs. destruct (Hf s Hs) as (b & s' & -> & Hs' & Hl & Hv). cbn [run_bind].
  destruct (Bool.eqb b stop) eqn:E.
  - exists stop, s'. split_and!; try done. intros sf Hsf. by rewrite Hv, E.
  - destruct (Hg s' Hs') as (b' & s'' & -> & Hs'' & Hl' & Hv'). exists b', s''.
    split_and!; try done; [by eapply later_trans|]. intros sf Hsf.
    rewrite Hv, E by (by eapply later_trans). by apply Hv'.
Qed.

(** The value of such a loop. *)
Definition until_meaning (stop : bool) (l : list bool) : bool :=
  if stop then existsb id l else forallb id l.

Lemma until_meaning_cons stop b l :
  until_meaning stop (b :: l) = if Bool.eqb b stop then stop else until_meaning stop l.
Proof. by destruct stop, b. Qed.

Lemma until_value_value stop eval children (vals : S -> list bool) :
  Forall (fun i => evaluates (eval i) (fun sf => val (vals sf) i)) children ->
  evaluates (until_value stop eval children)
    (fun sf => until_meaning stop (map (val (vals sf)) children)).
Proof.
  induction 1 as [|i children Hi Hf IH]; simpl.
  - apply (evaluates_ext _ (fun _ => negb stop)); [by destruct stop|apply evaluates_const].
  - eapply evaluates_ext; [|apply (evaluates_until stop _ _ _ _ Hi IH)].
    intros sf. simpl. by rewrite until_meaning_cons.
Qed.

Lemma until_meaning_and vals l : until_meaning false (map (val vals) l) = forallb (val vals) l.
Proof. unfold until_meaning. by rewrite forallb_map. Qed.

Lemma until_meaning_or vals l : until_meaning true (map (val vals) l) = existsb (val vals) l.
Proof. unfold until_meaning. by rewrite existsb_map. Qed.

Lemma evaluates_not f value :
  evaluates f value ->
  evaluates (fun s => let! '(b, s) := f s in Done (negb b, s)) (fun sf => negb (value sf)).
Proof.
  intros Hf s Hs. destruct (Hf s Hs) as (b & s' & -> & Hs' & Hl & Hv). exists (negb b), s'.
  split_and!; try done. intros sf Hsf. by rewrite Hv.
Qed.

Lemma evalCond_value fuel conds i :
  arena_ok conds -> 0 <= i < zlen conds -> i < Z.of_nat fuel ->
  evaluates (evalCond atom fuel conds i) (fun sf => val (arena_values (v sf) conds) i).
Proof.
  intros Ha. revert i. induction fuel as [|fuel IH]; intros i Hi Hf; [lia|].
  destruct (index_in_range _ _ Hi) as [c Hc]. destruct (Ha i c Hc) as [Hrefs Hatom].
  eapply evaluates_ext; [intros sf; symmetry; exact (val_node (v sf) _ _ _ Ha Hc)|].
  unfold node_value. unfold cond_refs in Hrefs. cbn [evalCond]. rewrite Hc. cbn [must run_bind].
  destruct (sc_kind c) eqn:Ek.
  - apply evaluates_const.
  - by apply atom_value, Hatom.
  - rewrite Forall_singleton in Hrefs. apply (evaluates_not (evalCond atom fuel conds (sc_child c))).
    apply IH; lia.
  - eapply evaluates_ext; [intros sf; apply until_meaning_and|]. apply until_value_value.
    eapply Forall_impl; [exact Hrefs|]. simpl. intros r Hr. apply IH; lia.
  - eapply evaluates_ext; [intros sf; apply until_meaning_or|]. apply until_value_value.
    eapply Forall_impl; [exact Hrefs|]. simpl. intros r Hr. apply IH; lia.
Qed.

Lemma pred_evaluates p :
  pred_ok p ->
  evaluates (fun s => let! '(got, s) := atom (sp_op p) (sp_param p) s in
                      Done (if sp_not p then negb got else got, s)) (fun sf => pred_value (v sf) p).
Proof.
  intros Hp s Hs. destruct (atom_value _ _ Hp s Hs) as (b & s' & -> & Hs' & Hl & Hv). cbn [run_bind].
  exists (if sp_not p then negb b else b), s'. split_and!; try done.
  intros sf Hsf. unfold pred_value. by rewrite Hv.
Qed.

Lemma predicates_until_value stop preds :
  Forall pred_ok preds ->
  evaluates (predicates_until atom stop preds)
    (fun sf => until_meaning stop (map (pred_value (v sf)) preds)).
Proof.
  induction 1 as [|p preds Hp Hf IH]; simpl.
  - apply (evaluates_ext _ (fun _ => negb stop)); [by destruct stop|apply evaluates_const].
  - pose proof (evaluates_until stop _ _ _ _ (pred_evaluates p Hp) IH) as Hu.
    intros s Hs. destruct (Hu s Hs) as (b & s' & Heq & Hs' & Hl & Hv). exists b, s'.
    split_and!; try done.
    + destruct (atom (sp_op p) (sp_param p) s) as [[? ?]| |]; exact Heq.
    + intros sf Hsf. rewrite until_meaning_cons. by apply Hv.
Qed.

Lemma segment_matched_value fuel conds seg :
  arena_ok conds -> segment_ok conds seg -> zlen conds <= Z.of_nat fuel ->
  evaluates (segment_matched atom rule fuel conds seg)
    (fun sf => val (arena_values (v sf) conds) (seg_cond seg)).
Proof.
  intros Ha (Hr & Hps & Hfast) Hfuel.
  assert (Hflat : forall kind, kind <> splitFastCondNone -> seg_fastKind seg = kind ->
    evaluates (predicates atom kind (seg_fastPreds seg))
      (fun sf => val (arena_values (v sf) conds) (seg_cond seg))).
  { intros kind Hk Ek. rewrite Ek in Hfast.
    destruct kind; [done|..]; (eapply evaluates_ext; [|by apply predicates_until_value]);
      intros sf; rewrite <- (Hfast (v sf) (v_true sf)); unfold until_meaning;
      [by rewrite forallb_map|by rewrite existsb_map]. }
  assert (Hsolo : forall p sf, seg_fastPreds seg = [p] -> seg_fastKind seg <> splitFastCondNone ->
    pred_value (v sf) p = val (arena_values (v sf) conds) (seg_cond seg)).
  { intros p sf Ep Hk. rewrite Ep in Hfast. specialize (Hfast (v sf) (v_true sf)). simpl in Hfast.
    destruct (seg_fastKind seg); [done|..]; rewrite <- Hfast; [by rewrite andb_true_r|by rewrite orb_false_r]. }
  unfold segment_matched.
  destruct (seg_fastKind seg) eqn:Ek; [apply evalCond_value; (done || lia)|..];
  (destruct (seg_fastPreds seg) as [|p [|? ?]] eqn:Ep; try (by apply Hflat);
   destruct (negb (sp_not p) && _) eqn:Er; [|by apply Hflat];
   apply andb_true_iff in Er as [Hn Ho]; apply negb_true_iff in Hn; apply bool_decide_eq_true in Ho;
   rewrite Forall_singleton in Hps;
   eapply evaluates_ext; [intros sf; by apply (Hsolo p)|]; unfold pred_value; rewrite Hn;
   by apply rule_value).
Qed.

Lemma routeBySegments_value fuel conds segs s :
  arena_ok conds -> Forall (segment_ok conds) segs -> zlen conds <= Z.of_nat fuel -> inv s ->
  exists slot s', routeBySegments atom rule fuel conds segs s = Done (slot, s') /\ inv s' /\ later s s' /\
    forall sf, later s' sf -> segments_slot (arena_values (v sf) conds) segs = slot.
Proof.
  intros Ha Hall Hfuel. revert s. induction Hall as [|seg segs Hseg Hall IH]; intros s Hs.
  { exists 0, s. auto. }
  cbn [routeBySegments segments_slot].
  destruct (segment_matched_value fuel conds seg Ha Hseg Hfuel s Hs) as (b & s' & -> & Hs' & Hl & Hv).
  cbn [run_bind]. destruct b; cbn [negb].
  - exists (if seg_drop seg then 0 else seg_slot seg), s'.
    split_and!; [by destruct (seg_drop seg)|done..|]. intros sf Hsf. by rewrite Hv.
  - destruct (IH s' Hs') as (slot & s'' & -> & Hs'' & Hl' & Hv'). exists slot, s''.
    split_and!; try done; [by eapply later_trans|]. intros sf Hsf.
    rewrite Hv by (by eapply later_trans). by apply Hv'.
Qed.

(** ** The array stack holds the machine's stack *)

Definition holds (arr : list bool) (sp : Z) (st : list bool) : Prop :=
  sp = zlen st /\ exists rest, arr = rev st ++ rest.

Lemma zlen_rev {A} (l : list A) : zlen (rev l) = zlen l.
Proof. unfold zlen. by rewrite length_rev. Qed.

Lemma top_index (st : list bool) b rest : index (rev (b :: st) ++ rest) (zlen st) = Some b.
Proof. simpl. rewrite <- app_assoc, index_app_r; rewrite zlen_rev; [|lia]. by rewrite Z.sub_diag. Qed.

Lemma top_store (st : list bool) x rest b :
  store (rev st ++ x :: rest) (zlen st) b = Done (rev (b :: st) ++ rest).
Proof.
  unfold store. rewrite zlen_app, zlen_cons, zlen_rev.
  pose proof (zlen_nonneg st). pose proof (zlen_nonneg rest).
  destruct (Z.leb_spec 0 (zlen st)), (Z.ltb_spec (zlen st) (zlen st + (zlen rest + 1))); try lia.
  simpl. f_equal. rewrite insert_app_r_alt by (rewrite length_rev; unfold zlen; lia).
  rewrite length_rev. replace (Z.to_nat (zlen st) - length st)%nat with 0%nat by (unfold zlen; lia).
  simpl. by rewrite <- app_assoc.
Qed.

(** The largest depth a program reaches. *)
Fixpoint peak (depth : Z) (ins : list splitInstr) : Z :=
  match ins with
  | [] => depth
  | i :: ins' => Z.max depth (peak (depth_after depth (in_op i)) ins')
  end.

Lemma peak_ge depth ins : depth <= peak depth ins.
Proof. destruct ins; simpl; lia. Qed.

(** Instructions of the split router: terminals, stack operations, constants
    and predicates with an arm. *)
Definition split_instr (i : splitInstr) : Prop :=
  instr_ok i /\ (is_atom (in_op i) = true -> split_predicate (in_op i) = true).

Lemma push_holds arr sp st b :
  holds arr sp st -> sp + 1 <= zlen arr ->
  exists arr', store arr sp b = Done arr' /\ holds arr' (sp + 1) (b :: st) /\ zlen arr' = zlen arr.
Proof.
  intros [-> [rest ->]] Hlen. rewrite zlen_app, zlen_rev in Hlen.
  destruct rest as [|x rest]; [unfold zlen at 3 in Hlen; simpl in Hlen; lia|].
  rewrite top_store. eexists. split; [done|]. split; [split; [by rewrite zlen_cons|by exists rest]|].
  rewrite !zlen_app, !zlen_rev, !zlen_cons. lia.
Qed.

Lemma pop_holds arr sp b st :
  holds arr sp (b :: st) -> index arr (sp - 1) = Some b /\ holds arr (sp - 1) st.
Proof.
  intros [-> [rest ->]]. rewrite zlen_cons, Z.add_simpl_r. split; [apply top_index|].
  split; [done|]. exists (b :: rest). simpl. by rewrite <- app_assoc.
Qed.

Lemma set_top_holds arr sp b st x :
  holds arr sp (b :: st) ->
  exists arr', store arr (sp - 1) x = Done arr' /\ holds arr' sp (x :: st) /\ zlen arr' = zlen arr.
Proof.
  intros Hh. destruct (pop_holds _ _ _ _ Hh) as [Hi Hh']. apply index_Some_range in Hi.
  destruct (push_holds arr (sp - 1) st x Hh' ltac:(lia)) as (arr' & ? & ? & ?).
  exists arr'. by replace (sp - 1 + 1) with sp in * by lia.
Qed.

(** One instruction on the array and on the machine's stack. *)
Definition stack_related (ins : list splitInstr) (i : splitInstr) (s : S) (arr st : list bool) (sp : Z)
    (c : ctl (S * list bool * Z) (Z * S)) : Prop :=
  match c with
  | Continue (s', arr', sp') =>
      inv s' /\ later s s' /\ zlen arr' = zlen arr /\ sp' = depth_after sp (in_op i) /\
      exists st', holds arr' sp' st' /\ depth_safe (zlen st') ins /\
      forall sf, later s' sf ->
        machine_step (split_action (v sf) (in_op i) (in_param i)) st = Done (Continue st')
  | Return (r, s') => inv s' /\ later s s' /\ forall sf, later s' sf ->
        machine_step (split_action (v sf) (in_op i) (in_param i)) st = Done (Return r)
  end.

Lemma push_related ins i s s' arr st sp b :
  stack_class (in_op i) = ClsPush -> inv s' -> later s s' -> holds arr sp st ->
  depth_safe (zlen st) (i :: ins) -> sp + 1 <= zlen arr ->
  (forall sf, later s' sf -> split_action (v sf) (in_op i) (in_param i) = ActPush b) ->
  exists c, (let! stack := store arr sp b in Done (Continue (s', stack, sp + 1))) = Done c /\
    stack_related ins i s arr st sp c.
Proof.
  intros Hcls Hs' Hl Hh Hd Hlen Hact. cbn [depth_safe] in Hd. unfold stack_related, depth_after.
  rewrite Hcls in *. destruct (push_holds arr sp st b Hh Hlen) as (arr' & -> & Hh' & Hl').
  eexists. split; [done|]. split_and!; try done. exists (b :: st). rewrite zlen_cons.
  split_and!; try done. intros sf Hsf. by rewrite Hact.
Qed.

(** Replacing the two topmost values by their combination. *)
Lemma binary_related ins i s arr st sp a b r (f : bool -> bool -> bool) :
  stack_class (in_op i) = ClsBinary -> inv s -> holds arr sp (b :: a :: st) ->
  depth_safe (zlen (b :: a :: st)) (i :: ins) -> r = f a b ->
  (forall sf, machine_step (split_action (v sf) (in_op i) (in_param i)) (b :: a :: st)
     = Done (Continue (f a b :: st))) ->
  exists c, (let! stack := store arr (sp - 1 - 1) r in Done (Continue (s, stack, sp - 1))) = Done c /\
    stack_related ins i s arr (b :: a :: st) sp c.
Proof.
  intros Hcls Hs Hh Hd -> Hm. cbn [depth_safe] in Hd. unfold stack_related, depth_after.
  rewrite Hcls in *. destruct (pop_holds _ _ _ _ Hh) as [_ Hh'].
  destruct (set_top_holds arr (sp - 1) a st (f a b) Hh') as (arr' & -> & Hh'' & Hl).
  eexists. split; [done|]. split_and!; try done. exists (f a b :: st). split_and!; try done.
  rewrite !zlen_cons in *. destruct Hd as [_ Hd]. by rewrite Z.add_simpl_r in Hd.
Qed.

(** Popping a condition. *)
Lemma terminal_related ins i s arr st sp b r :
  stack_class (in_op i) = ClsTerminal -> inv s -> holds arr sp (b :: st) ->
  depth_safe (zlen (b :: st)) (i :: ins) ->
  (forall sf, split_action (v sf) (in_op i) (in_param i) = ActReturn r) ->
  exists c, (if (b : bool) then Done (Return (r, s)) else Done (Continue (s, arr, sp - 1))) = Done c /\
    stack_related ins i s arr (b :: st) sp c.
Proof.
  intros Hcls Hs Hh Hd Hact. cbn [depth_safe] in Hd. unfold stack_related, depth_after.
  rewrite Hcls in *. destruct (pop_holds _ _ _ _ Hh) as [_ Hh'].
  destruct b; (eexists; split; [done|]); split_and!; try done; [intros sf _; by rewrite Hact|].
  exists st. split_and!; [done| |intros sf _; by rewrite Hact].
  rewrite zlen_cons, Z.add_simpl_r in Hd. apply Hd.
Qed.

Lemma stack_step_simulates i ins s arr sp st :
  split_instr i -> inv s -> holds arr sp st ->
  depth_safe (zlen st) (i :: ins) -> peak sp (i :: ins) <= zlen arr ->
  exists c, stack_step atom (in_op i) (in_param i) (s, arr, sp) = Done c /\
    stack_related ins i s arr st sp c.
Proof.
  intros [(Hp & _ & Hatom) Harm] Hs Hh Hd Hpk.
  pose proof (peak_ge (depth_after sp (in_op i)) ins) as Hge. cbn [peak] in Hpk.
  assert (Hroom : stack_class (in_op i) = ClsPush -> sp + 1 <= zlen arr).
  { intros Hcls. unfold depth_after in *. rewrite Hcls in *. lia. }
  assert (Hpush : forall b, stack_class (in_op i) = ClsPush ->
    (forall sf, split_action (v sf) (in_op i) (in_param i) = ActPush b) ->
    exists c, (let! stack := store arr sp b in Done (Continue (s, stack, sp + 1))) = Done c /\
      stack_related ins i s arr st sp c).
  { intros b Hcls Hact. by apply push_related; auto. }
  assert (Hpredicate : is_atom (in_op i) = true -> stack_class (in_op i) = ClsPush ->
    (forall sf, split_action (v sf) (in_op i) (in_param i) = ActPush (v sf (in_op i) (in_param i))) ->
    exists c, (if split_predicate (in_op i) then
        let! '(b, s) := atom (in_op i) (in_param i) s in
        let! stack := store arr sp b in
        Done (Continue (s, stack, sp + 1))
      else Done (Continue (s, arr, sp))) = Done c /\ stack_related ins i s arr st sp c).
  { intros Ha Hcls Hact. rewrite (Harm Ha).
    destruct (atom_value _ _ (Hatom Ha) s Hs) as (b & s' & -> & Hs' & Hl & Hv). cbn [run_bind].
    apply push_related; auto. intros sf Hsf. by rewrite Hact, Hv. }
  assert (Hne : stack_class (in_op i) <> ClsPush -> exists b st', st = b :: st').
  { intros Hcls. cbn [depth_safe] in Hd. destruct st; [|eauto].
    unfold zlen in Hd. simpl in Hd. destruct (stack_class (in_op i)); try done; lia. }
  assert (Hne2 : stack_class (in_op i) = ClsBinary -> exists b a st', st = b :: a :: st').
  { intros Hcls. cbn [depth_safe] in Hd. rewrite Hcls in Hd.
    destruct st as [|? [|? ?]]; [unfold zlen in Hd; simpl in Hd; lia..|eauto]. }
  clear Hge Hroom Hpk. unfold stack_step, split_action, is_atom, split_predicate in *.
  assert (Hcls : stack_class (in_op i) = stack_class (in_op i)) by done.
  unfold stack_class at 2 in Hcls.
  destruct (opcode_of (in_op i)) as [[]|] eqn:Eo; try (by discriminate (Harm eq_refl));
    try (by apply Hpredicate); try (by apply Hpush).
  1,2: destruct Hne as (b & st' & ->); [congruence|];
    destruct (pop_holds _ _ _ _ Hh) as [Hi _]; rewrite Hi; cbn [must run_bind];
    apply terminal_related; try done; intros sf; unfold split_action; by rewrite Eo.
  - destruct Hne as (b & st' & ->); [congruence|].
    destruct (pop_holds _ _ _ _ Hh) as [Hi _]. rewrite Hi. cbn [must run_bind].
    destruct (set_top_holds arr sp b st' (negb b) Hh) as (arr' & -> & Hh' & Hl). cbn [run_bind].
    eexists. split; [done|]. cbn [depth_safe] in Hd. unfold stack_related, depth_after. rewrite Hcls in *.
    split_and!; try done. exists (negb b :: st'). split_and!; [done|by rewrite zlen_cons in *; apply Hd|].
    intros sf _. unfold split_action. by rewrite Eo.
  - destruct (Hne2 Hcls) as (b & a & st' & ->).
    destruct (pop_holds _ _ _ _ Hh) as [Hi Hh']. destruct (pop_holds _ _ _ _ Hh') as [Hi' _].
    rewrite Hi'. cbn [must run_bind].
    assert ((if a then must (index arr (sp - 1)) else Done false) = Done (a && b)) as ->
      by (rewrite Hi; by destruct a).
    cbn [run_bind]. apply (binary_related ins i s arr st' sp a b _ andb); try done.
    intros sf. unfold split_action. by rewrite Eo.
  - destruct (Hne2 Hcls) as (b & a & st' & ->).
    destruct (pop_holds _ _ _ _ Hh) as [Hi Hh']. destruct (pop_holds _ _ _ _ Hh') as [Hi' _].
    rewrite Hi'. cbn [must run_bind].
    assert ((if a then Done true else must (index arr (sp - 1))) = Done (a || b)) as ->
      by (rewrite Hi; by destruct a).
    cbn [run_bind]. apply (binary_related ins i s arr st' sp a b _ orb); try done.
    intros sf. unfold split_action. by rewrite Eo.
Qed.

Lemma stack_run_simulates ins s arr sp st :
  Forall split_instr ins -> inv s -> holds arr sp st ->
  depth_safe (zlen st) ins -> peak sp ins <= zlen arr ->
  exists c, run_instrs (stack_step atom) ins (s, arr, sp) = Done c /\
  let '(slot, s') := match c with Continue (s', _, _) => (0, s') | Return r => r end in
  inv s' /\ later s s' /\ forall sf, later s' sf ->
    exists m, machine (split_action (v sf)) ins st = Done m /\ loop_slot m = slot.
Proof.
  intros Hall. revert s arr sp st. induction Hall as [|i ins Hi Hall IH]; intros s arr sp st Hs Hh Hd Hpk.
  { eexists. split; [done|]. split_and!; try done. intros sf _. by eexists. }
  destruct (stack_step_simulates i ins s arr sp st Hi Hs Hh Hd Hpk) as (c & Hc & Hrel).
  unfold machine in *. cbn [run_instrs]. rewrite Hc. cbn [run_bind].
  destruct c as [[[s' arr'] sp']|[r s']].
  - destruct Hrel as (Hs' & Hl & Hlen & Hsp & st' & Hh' & Hd' & Hm).
    destruct (IH s' arr' sp' st') as (c & -> & Hres); try done.
    { rewrite Hsp, Hlen. cbn [peak] in Hpk. lia. }
    exists c. split; [done|]. destruct (match c with Continue (s', _, _) => (0, s') | Return r => r end) as [slot s''].
    destruct Hres as (Hs'' & Hl' & Hmach). split_and!; [done|by eapply later_trans|].
    intros sf Hsf. rewrite Hm by (by eapply later_trans). cbn [run_bind]. by apply Hmach.
  - destruct Hrel as (Hs' & Hl & Hm). eexists. split; [done|]. split_and!; try done.
    intros sf Hsf. rewrite Hm by done. by eexists.
Qed.

Lemma runStack_value ins depth s :
  Forall split_instr ins -> inv s -> depth_safe 0 ins -> peak 0 ins <= depth ->
  exists slot s', runStack atom ins depth s = Done (slot, s') /\ inv s' /\ later s s' /\
    forall sf, later s' sf ->
      exists m, machine (split_action (v sf)) ins [] = Done m /\ loop_slot m = slot.
Proof.
  intros Hall Hs Hd Hpk. unfold runStack.
  destruct (stack_run_simulates ins s (replicate (Z.to_nat (if 64 <? depth then depth else 64)) false) 0 [])
    as (c & -> & Hres); try done.
  - split; [done|]. by eexists.
  - unfold zlen. rewrite length_replicate. destruct (Z.ltb_spec 64 depth); lia.
  - cbn [run_bind]. destruct c as [[[s' ?] ?]|[slot s']]; do 2 eexists; (split; [done|exact Hres]).
Qed.
End Evaluation.

(** ** The pre-decoded program and its depth *)

Lemma split_decode_run ins program depth maxDepth :
  Forall split_instr ins -> depth_safe depth ins -> 0 <= depth <= maxDepth ->
  exists depth', run_instrs split_decode_step ins (program, depth, maxDepth)
    = Done (Continue (program ++ ins, depth', Z.max maxDepth (peak depth ins))).
Proof.
  intros Hall. revert program depth maxDepth.
  induction Hall as [|i ins [(Hp & _ & Hatom) Harm] Hall IH]; intros program depth maxDepth Hd Hr.
  { exists depth. simpl. rewrite app_nil_r. by replace (Z.max maxDepth depth) with maxDepth by lia. }
  cbn [run_instrs peak depth_safe] in *. unfold split_decode_step at 1. rewrite u16_small by done.
  replace (MkInstr (in_op i) (in_param i)) with i by (by destruct i).
  assert (Hcons : forall l, program ++ i :: l = (program ++ [i]) ++ l) by (intros; by rewrite <- app_assoc).
  rewrite (Hcons ins). unfold is_atom, split_predicate in Harm. unfold depth_after, stack_class in *.
  destruct (opcode_of (in_op i)) as [[]|] eqn:Eo; try (by discriminate (Harm eq_refl)); cbn [run_bind].
  all: try (destruct Hd as [Hpos Hd]; destruct (Z.ltb_spec 0 depth); [|lia]).
  all: match goal with
       | |- context [run_instrs _ _ (_, ?d, ?m)] =>
           destruct (IH (program ++ [i]) d m Hd) as [d' ->];
             [destruct (Z.ltb_spec maxDepth d); lia|exists d']
       end.
  all: match goal with
       | |- Done (Continue (_, ?a)) = Done (Continue (_, ?b)) => replace a with b; [done|]
       end.
  all: match goal with |- context [peak ?d ?l] => pose proof (peak_ge d l) end.
  all: try (destruct (Z.ltb_spec maxDepth (depth + 1)); lia); lia.
Qed.

Lemma compileSplitBytecode_sound code ins :
  decodes code 0 ins -> Forall split_instr ins -> depth_safe 0 ins ->
  exists depth, compileSplitBytecode code = Done (ins, depth) /\ peak 0 ins <= depth.
Proof.
  intros Hdec Hall Hd. unfold compileSplitBytecode. rewrite (scan_decodes _ _ _ _ Hdec).
  destruct (split_decode_run ins [] 0 0 Hall Hd ltac:(lia)) as [d ->]. simpl.
  eexists. split; [done|]. lia.
Qed.
End Arena.

(** The compiled subnet masks match the addresses of the subnet. *)
Lemma splitSubnet_contains_spec n addr :
  splitSubnet_contains (compileSplitIPv4Subnet n) addr = subnet_contains n addr.
Proof.
  unfold splitSubnet_contains, compileSplitIPv4Subnet, subnet_contains.
  destruct (sn_Bits n =? 0); simpl; [|done]. by rewrite Z.land_0_r.
Qed.
