(* ===== verification/SplitCache.v ===== *)
(** * The result caches of the split router

    Models splitRuleResultCache and splitRouteResultCache of
    src/routing/split_bytecode.go.  The two Go types repeat the same code for
    different keys and values; the model is one cache over any countable key.
    The entry of the last [set] is published outside the lock, so a cache has a
    map and a last entry.  Instants and the TTL are int64 nanoseconds and their
    sum wraps.  A Go map is ranged over in an arbitrary order: pruning takes
    the order as an argument.

    The theorems: a value read back was set for that key and has not expired,
    in every interleaving of the critical sections; the map never holds more
    than [maxEntries] entries; a result that was just set is found until its
    expiry, unless the TTL overflows. *)

From S2P Require Import Prelude NetIP.

(** ** Keys *)

Record splitRuleCacheKey : Type := MkRuleKey {
  rk_rule : Z; rk_proto : Z; rk_src : Addr; rk_dst : Addr; rk_srcPort : Z; rk_dstPort : Z }.

#[global] Instance splitRuleCacheKey_eq_dec : EqDecision splitRuleCacheKey.
Proof. solve_decision. Defined.

#[global] Instance splitRuleCacheKey_countable : Countable splitRuleCacheKey.
Proof.
  apply (inj_countable'
    (fun k => (rk_rule k, rk_proto k, rk_src k, rk_dst k, rk_srcPort k, rk_dstPort k))
    (fun '(a, b, c, d, e, f) => MkRuleKey a b c d e f)).
  by intros [].
Defined.

Record splitRouteCacheKey : Type := MkRouteKey {
  tk_proto : Z; tk_flags : Z; tk_src : Addr; tk_dst : Addr; tk_srcPort : Z; tk_dstPort : Z }.

#[global] Instance splitRouteCacheKey_eq_dec : EqDecision splitRouteCacheKey.
Proof. solve_decision. Defined.

#[global] Instance splitRouteCacheKey_countable : Countable splitRouteCacheKey.
Proof.
  apply (inj_countable'
    (fun k => (tk_proto k, tk_flags k, tk_src k, tk_dst k, tk_srcPort k, tk_dstPort k))
    (fun '(a, b, c, d, e, f) => MkRouteKey a b c d e f)).
  by intros [].
Defined.

(** ** The cache *)

Record splitCacheEntry (V : Type) : Type := MkEntry { ce_value : V; ce_expires : Z }.
Arguments MkEntry {V} _ _.
Arguments ce_value {V} _.
Arguments ce_expires {V} _.

Section Cache.
Context {K V : Type} `{Countable K}.

Record splitResultCache : Type := MkCache {
  ca_ttl : Z;
  ca_maxEntries : Z;
  ca_entries : gmap K (splitCacheEntry V);
  ca_last : option (K * splitCacheEntry V) }.

Definition set_entries (c : splitResultCache) (m : gmap K (splitCacheEntry V)) : splitResultCache :=
  MkCache (ca_ttl c) (ca_maxEntries c) m (ca_last c).

Definition set_last (c : splitResultCache) (l : option (K * splitCacheEntry V)) : splitResultCache :=
  MkCache (ca_ttl c) (ca_maxEntries c) (ca_entries c) l.

(** A nanosecond count; [time.Second]. *)
Definition defaultSplitRuleCacheTTL : Z := 10 ^ 9.
Definition defaultSplitRuleCacheMaxEntries : Z := 4096.

Definition newSplitRuleResultCache (ttl maxEntries : Z) : option splitResultCache :=
  if (ttl <? 0) || (maxEntries <? 0) then None
  else
    let ttl := if ttl =? 0 then defaultSplitRuleCacheTTL else ttl in
    let maxEntries := if maxEntries =? 0 then defaultSplitRuleCacheMaxEntries else maxEntries in
    Some (MkCache ttl maxEntries ∅ None).

Definition newSplitRouteResultCache (routeTTL routeMaxEntries ruleTTL ruleMaxEntries : Z)
  : option splitResultCache :=
  let '(routeTTL, routeMaxEntries) :=
    if (routeTTL =? 0) && (routeMaxEntries =? 0) then (ruleTTL, ruleMaxEntries)
    else (routeTTL, routeMaxEntries) in
  if (routeTTL <? 0) || (routeMaxEntries <? 0) then None
  else
    let routeTTL := if routeTTL =? 0 then defaultSplitRuleCacheTTL else routeTTL in
    let routeMaxEntries :=
      if routeMaxEntries =? 0 then defaultSplitRuleCacheMaxEntries else routeMaxEntries in
    Some (MkCache routeTTL routeMaxEntries ∅ None).

(** The lock-free read of [last]. *)
Definition get_last (key : K) (now : Z) (c : splitResultCache) : option V :=
  match ca_last c with
  | Some (k, entry) =>
      if bool_decide (k = key) && (now <? ce_expires entry) then Some (ce_value entry) else None
  | None => None
  end.

(** The critical section of [get]. *)
Definition get_locked (key : K) (now : Z) (c : splitResultCache) : option V * splitResultCache :=
  match ca_entries c !! key with
  | None => (None, c)
  | Some entry =>
      if ce_expires entry <=? now then
        let c := set_entries c (delete key (ca_entries c)) in
        match ca_last c with
        | Some (k, _) => if bool_decide (k = key) then (None, set_last c None) else (None, c)
        | None => (None, c)
        end
      else (Some (ce_value entry), c)
  end.

Definition cache_get (key : K) (now : Z) (c : splitResultCache) : option V * splitResultCache :=
  match get_last key now c with
  | Some v => (Some v, c)
  | None => get_locked key now c
  end.

(** The second loop of [pruneLocked], over the keys in the order of the range
    statement. *)
Fixpoint prune_loop (target : Z) (order : list K) (m : gmap K (splitCacheEntry V))
  : gmap K (splitCacheEntry V) :=
  match order with
  | [] => m
  | key :: order' =>
      let m := delete key m in
      if Z.of_nat (size m) <=? target then m else prune_loop target order' m
  end.

Definition live (now : Z) (kv : K * splitCacheEntry V) : Prop := now < ce_expires kv.2.

#[local] Instance live_dec now kv : Decision (live now kv).
Proof. unfold live. apply _. Defined.

Definition pruneLocked (order : gmap K (splitCacheEntry V) -> list K) (now : Z) (c : splitResultCache)
  : splitResultCache :=
  let m := filter (live now) (ca_entries c) in
  if Z.of_nat (size m) <=? ca_maxEntries c then set_entries c m
  else
    let target := ca_maxEntries c / 2 in
    let target := if target <? 1 then ca_maxEntries c else target in
    set_entries c (prune_loop target (order m) m).

(** The critical section of [set]. *)
Definition set_locked (order : gmap K (splitCacheEntry V) -> list K) (key : K)
    (entry : splitCacheEntry V) (now : Z) (c : splitResultCache) : splitResultCache :=
  let c := set_entries c (<[key := entry]> (ca_entries c)) in
  if ca_maxEntries c <? Z.of_nat (size (ca_entries c)) then pruneLocked order now c else c.

Definition cache_set (order : gmap K (splitCacheEntry V) -> list K) (key : K) (value : V) (now : Z)
    (c : splitResultCache) : splitResultCache :=
  let entry := MkEntry value (i64 (now + ca_ttl c)) in
  set_last (set_locked order key entry now c) (Some (key, entry)).

Definition cache_clear (c : splitResultCache) : splitResultCache :=
  set_last (set_entries c ∅) None.

(** An order in which a range statement may visit the keys of a map. *)
Definition range_order (order : gmap K (splitCacheEntry V) -> list K) : Prop :=
  forall m, order m ≡ₚ (map_to_list m).*1.

(** ** The critical sections as a step relation

    A state also holds the entries that were stored but not yet published as
    [last], and the history of all entries ever stored.  [step_unpublish]
    covers [last.Store(nil)] of a [get] whose load of [last] happened before
    another publication. *)
Record cacheState : Type := MkCacheState {
  st_cache : splitResultCache;
  st_pending : list (K * splitCacheEntry V);
  st_history : list (K * splitCacheEntry V) }.

Inductive cache_step : cacheState -> cacheState -> Prop :=
| step_get c p h key now :
    cache_step (MkCacheState c p h) (MkCacheState (get_locked key now c).2 p h)
| step_set c p h order key value now :
    range_order order ->
    let entry := MkEntry value (i64 (now + ca_ttl c)) in
    cache_step (MkCacheState c p h)
      (MkCacheState (set_locked order key entry now c) ((key, entry) :: p) ((key, entry) :: h))
| step_publish c p1 x p2 h :
    cache_step (MkCacheState c (p1 ++ x :: p2) h) (MkCacheState (set_last c (Some x)) (p1 ++ p2) h)
| step_unpublish c p h :
    cache_step (MkCacheState c p h) (MkCacheState (set_last c None) p h)
| step_clear c p h :
    cache_step (MkCacheState c p h) (MkCacheState (cache_clear c) p h).

(** Everything a cache can return was stored, and its map is small. *)
Record cache_ok (s : cacheState) : Prop := MkCacheOk {
  ok_entries : forall k e, ca_entries (st_cache s) !! k = Some e -> (k, e) ∈ st_history s;
  ok_last : forall k e, ca_last (st_cache s) = Some (k, e) -> (k, e) ∈ st_history s;
  ok_pending : forall x, x ∈ st_pending s -> x ∈ st_history s;
  ok_max : 1 <= ca_maxEntries (st_cache s);
  ok_size : Z.of_nat (size (ca_entries (st_cache s))) <= ca_maxEntries (st_cache s) }.

(** ** Lemmas *)

Lemma prune_loop_sub target order m : prune_loop target order m ⊆ m.
Proof.
  revert m. induction order as [|k order IH]; intros m; simpl; [done|].
  destruct (_ <=? _); [apply delete_subseteq|].
  etransitivity; [apply IH|apply delete_subseteq].
Qed.

(** Visiting every key brings the map down to the target. *)
Lemma prune_loop_size target order m :
  0 <= target -> (forall k, k ∈ dom m -> k ∈ order) ->
  Z.of_nat (size (prune_loop target order m)) <= target \/ size m = 0%nat.
Proof.
  intros Ht. revert m. induction order as [|k order IH]; intros m Hall; simpl.
  - right. apply map_size_empty_iff. apply dom_empty_iff_L. apply elem_of_equiv_empty_L.
    intros x Hx. apply Hall in Hx. by apply not_elem_of_nil in Hx.
  - destruct (Z.leb_spec (Z.of_nat (size (delete k m))) target); [by left|].
    left. destruct (IH (delete k m)) as [|Hz]; [|done|lia].
    intros x Hx. rewrite dom_delete in Hx. apply elem_of_difference in Hx as [Hx Hne].
    apply Hall in Hx. apply elem_of_cons in Hx as [->|]; [set_solver|done].
Qed.

Lemma pruneLocked_sub order now c : ca_entries (pruneLocked order now c) ⊆ ca_entries c.
Proof.
  unfold pruneLocked. destruct (_ <=? _); simpl; [apply map_filter_subseteq|].
  etransitivity; [apply prune_loop_sub|apply map_filter_subseteq].
Qed.

Lemma pruneLocked_size order now c :
  range_order order -> 1 <= ca_maxEntries c ->
  Z.of_nat (size (ca_entries (pruneLocked order now c))) <= ca_maxEntries c.
Proof.
  intros Hord Hmax. unfold pruneLocked.
  destruct (Z.leb_spec (Z.of_nat (size (filter (live now) (ca_entries c)))) (ca_maxEntries c)); simpl; [done|].
  set (target := if _ <? 1 then _ else _). set (m := filter _ _) in *.
  assert (Htgt : 0 <= target <= ca_maxEntries c).
  { unfold target. pose proof (Z.div_le_upper_bound (ca_maxEntries c) 2 (ca_maxEntries c)).
    destruct (Z.ltb_spec (ca_maxEntries c / 2) 1); lia. }
  destruct (prune_loop_size target (order m) m) as [|Hz]; [lia| |lia|rewrite Hz in *; lia].
  intros k Hk. apply elem_of_dom in Hk as [e Hk]. rewrite (Hord m).
  apply list_elem_of_fmap. exists (k, e). split; [done|]. by apply elem_of_map_to_list.
Qed.

Lemma set_locked_entries order key entry now c k e :
  ca_entries (set_locked order key entry now c) !! k = Some e ->
  (k, e) = (key, entry) \/ (k <> key /\ ca_entries c !! k = Some e).
Proof.
  unfold set_locked. set (c1 := set_entries c _). intros Hk.
  assert (Hk' : ca_entries c1 !! k = Some e).
  { destruct (_ <? _); [|done]. eapply lookup_weaken; [done|apply pruneLocked_sub]. }
  simpl in Hk'. apply lookup_insert_Some in Hk' as [[-> ->]|[? ?]]; auto.
Qed.

Lemma set_locked_fields order key entry now c :
  ca_ttl (set_locked order key entry now c) = ca_ttl c /\
  ca_maxEntries (set_locked order key entry now c) = ca_maxEntries c /\
  ca_last (set_locked order key entry now c) = ca_last c.
Proof. unfold set_locked, pruneLocked. repeat case_match; done. Qed.

Lemma set_locked_size order key entry now c :
  range_order order -> 1 <= ca_maxEntries c ->
  Z.of_nat (size (ca_entries (set_locked order key entry now c))) <= ca_maxEntries c.
Proof.
  intros Hord Hmax. unfold set_locked.
  destruct (Z.ltb_spec (ca_maxEntries (set_entries c (<[key:=entry]> (ca_entries c))))
    (Z.of_nat (size (ca_entries (set_entries c (<[key:=entry]> (ca_entries c))))))); [|done].
  by apply (pruneLocked_size order now (set_entries c (<[key:=entry]> (ca_entries c)))).
Qed.

Lemma get_locked_sub key now c :
  ca_entries (get_locked key now c).2 ⊆ ca_entries c /\
  (ca_last (get_locked key now c).2 = ca_last c \/ ca_last (get_locked key now c).2 = None) /\
  ca_maxEntries (get_locked key now c).2 = ca_maxEntries c /\
  ca_ttl (get_locked key now c).2 = ca_ttl c.
Proof.
  unfold get_locked. destruct (ca_entries c !! key) as [e|] eqn:E; simpl; [|auto].
  destruct (_ <=? _); simpl; [|auto].
  assert (delete key (ca_entries c) ⊆ ca_entries c) by apply delete_subseteq.
  destruct (ca_last c) as [[k ?]|] eqn:El; simpl; [|rewrite El; auto].
  destruct (bool_decide _); simpl; rewrite ?El; auto.
Qed.

Lemma cache_ok_get c p h key now :
  cache_ok (MkCacheState c p h) -> cache_ok (MkCacheState (get_locked key now c).2 p h).
Proof.
  intros [He Hl Hp Hm Hs]. destruct (get_locked_sub key now c) as (Hsub & Hlast & Hmax & _).
  split; simpl in *; try done.
  - intros k e Hk. eapply He, lookup_weaken; done.
  - intros k e Hk. destruct Hlast as [Hx|Hx]; rewrite Hx in Hk; [by apply Hl|done].
  - by rewrite Hmax.
  - rewrite Hmax. pose proof (map_subseteq_size _ _ Hsub). lia.
Qed.

Lemma cache_step_ok s s' : cache_step s s' -> cache_ok s -> cache_ok s'.
Proof.
  destruct 1 as [c p h key now|c p h order key value now Hord entry|c p1 x p2 h|c p h|c p h];
    [by apply cache_ok_get|intros [He Hl Hp Hm Hs]; simpl in *..].
  - destruct (set_locked_fields order key entry now c) as (_ & Hmax & Hlast).
    split; simpl; rewrite ?Hmax, ?Hlast; try done.
    + intros k e Hk. apply set_locked_entries in Hk as [[= -> ->]|[_ Hk]]; [by left|]. right. by apply He.
    + intros k e Hk. right. by apply Hl.
    + intros x Hx. apply elem_of_cons in Hx as [->|Hx]; [by left|]. right. by apply Hp.
    + by apply set_locked_size.
  - split; simpl; try done.
    + intros k e [= ->]. apply Hp. set_solver.
    + intros y Hy. apply Hp. set_solver.
  - by split.
  - split; simpl; try done. rewrite map_size_empty. lia.
Qed.

Lemma get_last_Some key now c v :
  get_last key now c = Some v ->
  exists e, ca_last c = Some (key, e) /\ v = ce_value e /\ now < ce_expires e.
Proof.
  unfold get_last. destruct (ca_last c) as [[k e]|]; [|done].
  destruct (bool_decide (k = key)) eqn:Ek; [|done]. apply bool_decide_eq_true in Ek as ->.
  destruct (Z.ltb_spec now (ce_expires e)); [|done]. intros [= <-]. eauto.
Qed.

Lemma get_locked_Some key now c v :
  (get_locked key now c).1 = Some v ->
  exists e, ca_entries c !! key = Some e /\ v = ce_value e /\ now < ce_expires e.
Proof.
  unfold get_locked. destruct (ca_entries c !! key) as [e|] eqn:E; [|done].
  destruct (Z.leb_spec (ce_expires e) now); [|intros [= <-]; by exists e].
  repeat case_match; done.
Qed.

(** ** Operations in sequence *)

Inductive cacheOp : Type :=
| OpGet (key : K) (now : Z)
| OpSet (order : gmap K (splitCacheEntry V) -> list K) (key : K) (value : V) (now : Z)
| OpClear.

Definition apply_op (c : splitResultCache) (op : cacheOp) : splitResultCache :=
  match op with
  | OpGet key now => (cache_get key now c).2
  | OpSet order key value now => cache_set order key value now c
  | OpClear => cache_clear c
  end.

(** The specification: the entry last stored for each key. *)
Definition spec_op (ttl : Z) (m : gmap K (splitCacheEntry V)) (op : cacheOp)
  : gmap K (splitCacheEntry V) :=
  match op with
  | OpGet _ _ => m
  | OpSet _ key value now => <[key := MkEntry value (i64 (now + ttl))]> m
  | OpClear => ∅
  end.

Definition coherent (m : gmap K (splitCacheEntry V)) (c : splitResultCache) : Prop :=
  (forall k e, ca_entries c !! k = Some e -> m !! k = Some e) /\
  (forall k e, ca_last c = Some (k, e) -> m !! k = Some e).

Lemma cache_get_state key now c :
  (cache_get key now c).2 = c \/ (cache_get key now c).2 = (get_locked key now c).2.
Proof. unfold cache_get. destruct (get_last key now c); auto. Qed.

Lemma apply_op_coherent m c op :
  coherent m c -> coherent (spec_op (ca_ttl c) m op) (apply_op c op) /\ ca_ttl (apply_op c op) = ca_ttl c.
Proof.
  intros [He Hl]. destruct op as [key now|order key value now|]; simpl.
  - destruct (get_locked_sub key now c) as (Hsub & Hlast & _ & Httl).
    destruct (cache_get_state key now c) as [-> | ->]; [done|]. split; [|done]. split.
    + intros k e Hk. eapply He, lookup_weaken; done.
    + intros k e Hk. destruct Hlast as [Hx|Hx]; rewrite Hx in Hk; [by apply Hl|done].
  - set (entry := MkEntry value _).
    destruct (set_locked_fields order key entry now c) as (Httl & _ & _).
    split; [|done]. split; simpl.
    + intros k e Hk. apply set_locked_entries in Hk as [[= -> ->]|[Hne Hk]].
      * by rewrite lookup_insert_eq.
      * rewrite lookup_insert_ne by done. by apply He.
    + intros k e [= <- <-]. by rewrite lookup_insert_eq.
  - done.
Qed.

Lemma run_coherent ops m c :
  coherent m c ->
  coherent (fold_left (spec_op (ca_ttl c)) ops m) (fold_left apply_op ops c).
Proof.
  revert m c. induction ops as [|op ops IH]; intros m c Hc; simpl; [done|].
  destruct (apply_op_coherent m c op Hc) as [Hc' Httl]. specialize (IH _ _ Hc'). by rewrite Httl in IH.
Qed.

Lemma cache_get_Some m key now c v :
  coherent m c -> (cache_get key now c).1 = Some v ->
  exists e, m !! key = Some e /\ v = ce_value e /\ now < ce_expires e.
Proof.
  intros [He Hl]. unfold cache_get. destruct (get_last key now c) as [w|] eqn:E.
  - intros [= <-]. apply get_last_Some in E as (e & Hx & -> & Hlt). apply Hl in Hx. eauto.
  - intros (e & Hx & -> & Hlt)%get_locked_Some. apply He in Hx. eauto.
Qed.

Lemma set_then_get order key value now now' c :
  (cache_get key now' (cache_set order key value now c)).1 =
    if now' <? i64 (now + ca_ttl c) then Some value else None.
Proof.
  unfold cache_get, get_last. cbn [ca_last cache_set set_last]. rewrite bool_decide_true by done. simpl.
  destruct (Z.ltb_spec now' (i64 (now + ca_ttl c))) as [|Hge]; [done|].
  destruct (get_locked key now' _).1 eqn:E; [|done].
  apply get_locked_Some in E as (e & Hx & _ & Hlt). simpl in Hx.
  apply set_locked_entries in Hx as [[= ->]|[? _]]; [simpl in Hlt; lia|done].
Qed.

(** ** Theorems *)

(** C29. Interleaved critical sections: starting from an empty cache, after any
    sequence of locked reads, locked writes, late publications of [last] and
    clears, in any order and with any map iteration order, a value read through
    the lock-free last entry or through the map was stored for that very key
    and has not expired, and the map holds at most [maxEntries] entries. *)
Theorem cache_interleavings_safe ttl maxEntries c p h key now v :
  1 <= maxEntries ->
  rtc cache_step (MkCacheState (MkCache ttl maxEntries ∅ None) [] []) (MkCacheState c p h) ->
  (get_last key now c = Some v \/ (get_locked key now c).1 = Some v) ->
  (exists e, (key, e) ∈ h /\ v = ce_value e /\ now < ce_expires e) /\
  Z.of_nat (size (ca_entries c)) <= ca_maxEntries c.
Proof.
  intros Hmax Hrtc Hread.
  assert (Hok : cache_ok (MkCacheState c p h)).
  { eapply (rtc_ind_l (fun s => cache_ok s -> cache_ok (MkCacheState c p h)));
      [done|intros; eauto using cache_step_ok|exact Hrtc|].
    split; simpl; [done|done|intros x Hx; by apply not_elem_of_nil in Hx|done|].
    rewrite map_size_empty. lia. }
  destruct Hok as [He Hl _ _ Hsize]. split; [|done].
  destruct Hread as [(e & Hx & -> & Hlt)%get_last_Some|(e & Hx & -> & Hlt)%get_locked_Some]; eauto.
Qed.

(** C30. Operations in sequence refine the map of last stored entries: a hit
    returns the value most recently set for the key since the last clear, and
    only before it expires, whatever was pruned in between. *)
Theorem cache_hits_latest ttl maxEntries ops key now v :
  (cache_get key now (fold_left apply_op ops (MkCache ttl maxEntries ∅ None))).1 = Some v ->
  exists e, fold_left (spec_op ttl) ops ∅ !! key = Some e /\
    v = ce_value e /\ now < ce_expires e.
Proof.
  intros Hget. eapply cache_get_Some; [|exact Hget].
  by apply (run_coherent ops ∅ (MkCache ttl maxEntries ∅ None)).
Qed.

(** Set then get, on any cache: the value is found exactly until the
    expiry computed in int64 arithmetic, even when the map was pruned. *)
Theorem cache_set_get order key value now now' c :
  (cache_get key now' (cache_set order key value now c)).1 =
    if now' <? i64 (now + ca_ttl c) then Some value else None.
Proof. apply set_then_get. Qed.
End Cache.

Arguments splitResultCache K V {_ _}.
Arguments cacheState K V {_ _}.
Arguments cacheOp K V {_ _}.

(** C40. A TTL near the int64 limit, the natural spelling of "forever",
    overflows the expiry: at any instant after the epoch the stored result has
    already expired and is never found. *)
Theorem cache_forever_never_hits {K V} `{Countable K} order (key : K) (value : V) now now' maxEntries m l :
  0 < now < 2 ^ 63 -> 0 <= now' ->
  (cache_get key now' (cache_set order key value now (MkCache (2 ^ 63 - 1) maxEntries m l))).1 = None.
Proof.
  intros Hnow Hnow'. rewrite set_then_get. simpl. unfold i64.
  replace (now + (2 ^ 63 - 1) + 2 ^ 63) with (now - 1 + 1 * 2 ^ 64) by lia.
  rewrite Z.mod_add by lia. rewrite Z.mod_small by lia.
  destruct (Z.ltb_spec now' (now - 1 - 2 ^ 63)); [lia|done].
Qed.

(** ** Witnesses *)

Definition any_order {K V} `{Countable K} (m : gmap K (splitCacheEntry V)) : list K := (map_to_list m).*1.

Lemma cache_interleavings_safe_witness :
  exists e : splitCacheEntry bool, (7, e) ∈ [(7, MkEntry true 15)] /\ true = ce_value e /\ 12 < ce_expires e.
Proof.
  apply (cache_interleavings_safe (K:=Z) 10 1
    (set_last (set_locked any_order 7 (MkEntry true 15) 5 (MkCache 10 1 ∅ None)) (Some (7, MkEntry true 15)))
    [] [(7, MkEntry true 15)] 7 12 true).
  - lia.
  - eapply rtc_l; [|eapply rtc_l; [|apply rtc_refl]].
    + apply (step_set (MkCache 10 1 ∅ None) [] [] any_order 7 true 5). by intros m.
    + apply (step_publish (set_locked any_order 7 (MkEntry true 15) 5 (MkCache 10 1 ∅ None))
        [] (7, MkEntry true 15) [] [(7, MkEntry true 15)]).
  - left. reflexivity.
Defined.

Lemma cache_hits_latest_witness :
  exists e, fold_left (spec_op 10) [OpSet any_order 7 true 5; OpSet any_order 7 false 6] (∅ : gmap Z _) !! 7 = Some e
    /\ false = ce_value e /\ 12 < ce_expires e.
Proof.
  apply (cache_hits_latest (K:=Z) (V:=bool) 10 2
    [OpSet any_order 7 true 5; OpSet any_order 7 false 6] 7 12 false).
  vm_compute. reflexivity.
Defined.

Lemma cache_forever_never_hits_witness :
  (cache_get 7 1 (cache_set any_order 7 true 1 (MkCache (2 ^ 63 - 1) 2 (∅ : gmap Z _) None))).1 = None.
Proof. apply cache_forever_never_hits; lia. Defined.
