(* ===== verification/SplitRouter.v ===== *)
(** * The split router

    Models the rest of src/routing/split_bytecode.go: the router with its
    tables, compiled program, matchers and caches, its constructor, Route and
    Close, and splitEval, the state of the evaluation of one packet.

    A [matcher] answers a flow at an instant ([None] is an error); it stands for
    the sysnet.Matcher built by the host's sysnet.System.  What a call of Route
    reads from outside is its [world]: the instants of the clock, the answers of
    the DNS cache and the order in which maps are ranged over.

    Route is proved to return for every packet and world, and, with matchers
    that answer consistently, to return what the reference machine computes,
    whether or not the two caches answer. *)

From S2P Require Import Prelude GoStd NetIP DNSCache Bytecode Machine AddrCache.
From S2P Require Import Scans RouterCfg SockOwner Packet SplitCompile SplitCache.

(** ** Data *)

Record matcher : Type := MkMatcher {
  m_Match : nat -> FlowTuple -> option bool;
  m_Close : list string }.

Notation ruleCache := (splitResultCache splitRuleCacheKey bool).
Notation routeCache := (splitResultCache splitRouteCacheKey Z).

(** One call of Route: [w_now n] is the n-th reading of the clock, [w_packetNow]
    the instant that [splitEval.now] reads once per packet, [w_dns] the DNS
    cache, and the orders of the range statements over the two maps. *)
Record world : Type := MkWorld {
  w_now : nat -> Z;
  w_packetNow : Z;
  w_dns : storage_view;
  w_ruleOrder : gmap splitRuleCacheKey (splitCacheEntry bool) -> list splitRuleCacheKey;
  w_routeOrder : gmap splitRouteCacheKey (splitCacheEntry Z) -> list splitRouteCacheKey }.

Record bytecodeSplitRouter : Type := MkSplitRouter {
  sr_tables : tables;
  sr_splitSubnets : list splitIPv4Subnet;
  sr_route : list byte;
  sr_routeProgram : list splitInstr;
  sr_routeStackDepth : Z;
  sr_compiled : compiledRoute;
  sr_routeStringOps : addrStringOps;
  sr_dnsStorage : bool;
  sr_mentionedSlots : list Z;
  sr_matchers : list (option matcher);
  sr_ruleCache : option ruleCache;
  sr_routeCache : option routeCache }.

Definition set_caches (r : bytecodeSplitRouter) (rules : option ruleCache) (routes : option routeCache)
  : bytecodeSplitRouter :=
  MkSplitRouter (sr_tables r) (sr_splitSubnets r) (sr_route r) (sr_routeProgram r)
    (sr_routeStackDepth r) (sr_compiled r) (sr_routeStringOps r) (sr_dnsStorage r)
    (sr_mentionedSlots r) (sr_matchers r) rules routes.

Definition set_matchers (r : bytecodeSplitRouter) (ms : list (option matcher)) : bytecodeSplitRouter :=
  MkSplitRouter (sr_tables r) (sr_splitSubnets r) (sr_route r) (sr_routeProgram r)
    (sr_routeStackDepth r) (sr_compiled r) (sr_routeStringOps r) (sr_dnsStorage r)
    (sr_mentionedSlots r) ms (sr_ruleCache r) (sr_routeCache r).

(** The lazily computed text and reverse DNS names of one address. *)
Record addrMemo : Type := MkMemo {
  am_stringSet : bool; am_stringVal : string;
  am_reverseDone : bool; am_reverseNames : list string }.

Record splitEval : Type := MkSplitEval {
  sv_native : bool;
  sv_packet : parsedIPPacket;
  sv_packetData : list byte;
  sv_ruleSeenMask : Z;
  sv_ruleValueMask : Z;
  sv_ruleCache : option (gmap Z bool);
  sv_flowDone : bool;
  sv_flow : option FlowTuple;
  sv_flowOK : bool;
  sv_src : addrMemo;
  sv_dst : addrMemo;
  sv_cacheNow : Z;
  sv_cacheable : bool }.

Definition newSplitEval (native : bool) (pkt : parsedIPPacket) (data : list byte) : splitEval :=
  MkSplitEval native pkt data 0 0 None false None false
    (MkMemo false "" false []) (MkMemo false "" false []) 0 true.

Definition set_masks (e : splitEval) (seen value : Z) : splitEval :=
  MkSplitEval (sv_native e) (sv_packet e) (sv_packetData e) seen value (sv_ruleCache e)
    (sv_flowDone e) (sv_flow e) (sv_flowOK e) (sv_src e) (sv_dst e) (sv_cacheNow e) (sv_cacheable e).

Definition set_ruleMap (e : splitEval) (m : option (gmap Z bool)) : splitEval :=
  MkSplitEval (sv_native e) (sv_packet e) (sv_packetData e) (sv_ruleSeenMask e) (sv_ruleValueMask e) m
    (sv_flowDone e) (sv_flow e) (sv_flowOK e) (sv_src e) (sv_dst e) (sv_cacheNow e) (sv_cacheable e).

Definition set_flow (e : splitEval) (flow : option FlowTuple) (ok : bool) : splitEval :=
  MkSplitEval (sv_native e) (sv_packet e) (sv_packetData e) (sv_ruleSeenMask e) (sv_ruleValueMask e)
    (sv_ruleCache e) true flow ok (sv_src e) (sv_dst e) (sv_cacheNow e) (sv_cacheable e).

Definition set_memos (e : splitEval) (src dst : addrMemo) : splitEval :=
  MkSplitEval (sv_native e) (sv_packet e) (sv_packetData e) (sv_ruleSeenMask e) (sv_ruleValueMask e)
    (sv_ruleCache e) (sv_flowDone e) (sv_flow e) (sv_flowOK e) src dst (sv_cacheNow e) (sv_cacheable e).

Definition set_cacheNow (e : splitEval) (now : Z) : splitEval :=
  MkSplitEval (sv_native e) (sv_packet e) (sv_packetData e) (sv_ruleSeenMask e) (sv_ruleValueMask e)
    (sv_ruleCache e) (sv_flowDone e) (sv_flow e) (sv_flowOK e) (sv_src e) (sv_dst e) now (sv_cacheable e).

Definition set_uncacheable (e : splitEval) : splitEval :=
  MkSplitEval (sv_native e) (sv_packet e) (sv_packetData e) (sv_ruleSeenMask e) (sv_ruleValueMask e)
    (sv_ruleCache e) (sv_flowDone e) (sv_flow e) (sv_flowOK e) (sv_src e) (sv_dst e) (sv_cacheNow e) false.

(** The evaluation of a packet also reads and writes the router's rule cache
    and reads the clock. *)
Record evalState : Type := MkState {
  es_ev : splitEval;
  es_rules : option ruleCache;
  es_tick : nat }.

Definition on_ev (f : splitEval -> splitEval) (s : evalState) : evalState :=
  MkState (f (es_ev s)) (es_rules s) (es_tick s).

(** ** Predicates on the packet *)

Section Route.
Variable cfg : bytecodeSplitRouter.
Variable w : world.

(** [time.Now().UnixNano()] *)
Definition time_now (s : evalState) : Z * evalState :=
  (w_now w (es_tick s), MkState (es_ev s) (es_rules s) (S (es_tick s))).

Definition ev_now (s : evalState) : Z * evalState :=
  if sv_cacheNow (es_ev s) =? 0 then
    (w_packetNow w, on_ev (fun e => set_cacheNow e (w_packetNow w)) s)
  else (sv_cacheNow (es_ev s), s).

Definition packetFlow (s : evalState) : run (option FlowTuple * bool * evalState) :=
  let e := es_ev s in
  if sv_flowDone e then Done (sv_flow e, sv_flowOK e, s)
  else
    let s := on_ev (fun e => set_flow e (sv_flow e) (sv_flowOK e)) s in
    if negb (p_flowOK (sv_packet e)) then Done (sv_flow e, false, s)
    else
      let! r := FlowTupleFromOutgoingIPPacket (sv_packetData e) in
      Done match r with
           | Success flow => (Some flow, true, on_ev (fun e => set_flow e (Some flow) true) s)
           | Failure _ => (sv_flow e, sv_flowOK e, on_ev set_uncacheable s)
           end.

Definition ruleCacheKey (e : splitEval) (rule : Z) : splitRuleCacheKey :=
  let p := sv_packet e in
  MkRuleKey rule (p_proto p) (p_src p) (p_dst p) (p_srcPort p) (p_dstPort p).

(** Calling a matcher on the packet's flow; an error is false and makes the
    result of the packet non-cacheable. *)
Definition call_matcher (m : matcher) (s : evalState) : run (bool * option bool * evalState) :=
  let! '(flow, ok, s) := packetFlow s in
  if negb ok then Done (false, None, s)
  else
    let! flow := must flow in
    let answer := m_Match m (es_tick s) flow in
    let s := MkState (es_ev s) (es_rules s) (S (es_tick s)) in
    Done match answer with
         | None => (false, None, on_ev set_uncacheable s)
         | Some got => (got, Some got, s)
         end.

Definition matchRule (idx rule : Z) (s : evalState) : run (bool * evalState) :=
  let e := es_ev s in
  if negb (p_hasPorts (sv_packet e)) then Done (false, s)
  else
    let! m := must (index (sr_matchers cfg) idx) in
    match m with
    | None => Done (false, s)
    | Some m =>
        if negb (p_flowOK (sv_packet e)) then Done (false, s)
        else
          match es_rules s with
          | Some c =>
              let key := ruleCacheKey e rule in
              let '(now, s) := ev_now s in
              let '(hit, c) := cache_get key now c in
              let s := MkState (es_ev s) (Some c) (es_tick s) in
              match hit with
              | Some got => Done (got, s)
              | None =>
                  let! '(got, answer, s) := call_matcher m s in
                  match answer with
                  | None => Done (false, s)
                  | Some got =>
                      let '(now, s) := time_now s in
                      Done (got, MkState (es_ev s)
                                   (cache_set (w_ruleOrder w) key got now <$> es_rules s) (es_tick s))
                  end
              end
          | None =>
              let! '(got, answer, s) := call_matcher m s in Done (got, s)
          end
    end.

(** [ev.rule]: each rule is evaluated at most once per packet. *)
Definition rule (rule : Z) (s : evalState) : run (bool * evalState) :=
  let e := es_ev s in
  if negb (sv_native e) then Done (false, s)
  else if zlen (sr_matchers cfg) <=? rule then Done (false, s)
  else if rule <? 64 then
    let bit := Z.shiftl 1 rule in
    if negb (Z.land (sv_ruleSeenMask e) bit =? 0)
    then Done (negb (Z.land (sv_ruleValueMask e) bit =? 0), s)
    else
      let! '(got, s) := matchRule rule rule s in
      Done (got, on_ev (fun e => set_masks e (Z.lor (sv_ruleSeenMask e) bit)
                         (if (got : bool) then Z.lor (sv_ruleValueMask e) bit else sv_ruleValueMask e)) s)
  else
    match match sv_ruleCache e with Some m => m !! rule | None => None end with
    | Some cached => Done (cached, s)
    | None =>
        let! '(got, s) := matchRule rule rule s in
        let m := match sv_ruleCache (es_ev s) with Some m => m | None => ∅ end in
        Done (got, on_ev (fun e => set_ruleMap e (Some (<[rule := got]> m))) s)
    end.

(** The text of an address, and the memo with it. *)
Definition addrString (addr : Addr) (m : addrMemo) : string * addrMemo :=
  if am_stringSet m then (am_stringVal m, m)
  else let v := Addr_String addr in (v, MkMemo true v (am_reverseDone m) (am_reverseNames m)).

Definition srcString (s : evalState) : string * evalState :=
  let e := es_ev s in
  let '(v, m) := addrString (p_src (sv_packet e)) (sv_src e) in
  (v, on_ev (fun e => set_memos e m (sv_dst e)) s).

Definition dstString (s : evalState) : string * evalState :=
  let e := es_ev s in
  let '(v, m) := addrString (p_dst (sv_packet e)) (sv_dst e) in
  (v, on_ev (fun e => set_memos e (sv_src e) m) s).

Definition srcReverseDNSNames (s : evalState) : list string * evalState :=
  let e := es_ev s in
  if am_reverseDone (sv_src e) then (am_reverseNames (sv_src e), s)
  else if negb (sr_dnsStorage cfg) || negb (so_local (sr_routeStringOps cfg)) then ([], s)
  else
    let s := on_ev set_uncacheable s in
    let '(now, s) := ev_now s in
    let names := CachedReverseDNSNames (Some (w_dns w)) (p_src (sv_packet e)) now in
    (names, on_ev (fun e => set_memos e
       (MkMemo (am_stringSet (sv_src e)) (am_stringVal (sv_src e)) true names) (sv_dst e)) s).

Definition dstReverseDNSNames (s : evalState) : list string * evalState :=
  let e := es_ev s in
  if am_reverseDone (sv_dst e) then (am_reverseNames (sv_dst e), s)
  else if negb (sr_dnsStorage cfg) || negb (so_remote (sr_routeStringOps cfg)) then ([], s)
  else
    let s := on_ev set_uncacheable s in
    let '(now, s) := ev_now s in
    let names := CachedReverseDNSNames (Some (w_dns w)) (p_dst (sv_packet e)) now in
    (names, on_ev (fun e => set_memos e (sv_src e)
       (MkMemo (am_stringSet (sv_dst e)) (am_stringVal (sv_dst e)) true names)) s).

Definition matchSrcString (want : string) (s : evalState) : bool * evalState :=
  let '(v, s) := srcString s in
  if String.eqb v want then (true, s)
  else let '(names, s) := srcReverseDNSNames s in
       (existsb (fun name => dnsNameEqual name want) names, s).

Definition matchDstString (want : string) (s : evalState) : bool * evalState :=
  let '(v, s) := dstString s in
  if String.eqb v want then (true, s)
  else let '(names, s) := dstReverseDNSNames s in
       (existsb (fun name => dnsNameEqual name want) names, s).

Definition matchSrcRegexp (re : regexp) (s : evalState) : bool * evalState :=
  let '(v, s) := srcString s in
  if re v then (true, s)
  else let '(names, s) := srcReverseDNSNames s in (existsb (matchDNSNameRegexp re) names, s).

Definition matchDstRegexp (re : regexp) (s : evalState) : bool * evalState :=
  let '(v, s) := dstString s in
  if re v then (true, s)
  else let '(names, s) := dstReverseDNSNames s in (existsb (matchDNSNameRegexp re) names, s).

(** [ev.atom]; the switches of [predicates] and of the fallback loop repeat it. *)
Definition atom (op : byte) (param : Z) (s : evalState) : run (bool * evalState) :=
  let t := sr_tables cfg in
  let pkt := sv_packet (es_ev s) in
  match opcode_of op with
  | Some OP_TRUE => Done (true, s)
  | Some (OP_FALSE | OP_FQDN | OP_LFQDN) => Done (false, s)
  | Some OP_NET4 => Done (Is4 (p_src pkt), s)
  | Some OP_NET6 => Done (Is6 (p_src pkt), s)
  | Some OP_UDP => Done (p_proto pkt =? 17, s)
  | Some OP_TCP => Done (p_proto pkt =? 6, s)
  | Some OP_ADDR_S => let! want := must (index (t_strings t) param) in Done (matchDstString want s)
  | Some OP_LADDR_S => let! want := must (index (t_strings t) param) in Done (matchSrcString want s)
  | Some OP_ADDR_RE =>
      let! re := must (index (t_regexps t) param) in
      let! re := must re in Done (matchDstRegexp re s)
  | Some OP_LADDR_RE =>
      let! re := must (index (t_regexps t) param) in
      let! re := must re in Done (matchSrcRegexp re s)
  | Some OP_ADDR4 =>
      let! want := must (index (t_ipv4Addrs t) param) in
      Done ((p_dst4 pkt =? want) && Is4 (p_dst pkt), s)
  | Some OP_LADDR4 =>
      let! want := must (index (t_ipv4Addrs t) param) in
      Done ((p_src4 pkt =? want) && Is4 (p_src pkt), s)
  | Some OP_ADDR6 =>
      let! want := must (index (t_ipv6Addrs t) param) in Done (bool_decide (p_dst pkt = want), s)
  | Some OP_LADDR6 =>
      let! want := must (index (t_ipv6Addrs t) param) in Done (bool_decide (p_src pkt = want), s)
  | Some OP_SNET4 =>
      if negb (Is4 (p_dst pkt)) then Done (false, s)
      else let! n := must (index (sr_splitSubnets cfg) param) in
           Done (splitSubnet_contains n (p_dst4 pkt), s)
  | Some OP_LSNET4 =>
      if negb (Is4 (p_src pkt)) then Done (false, s)
      else let! n := must (index (sr_splitSubnets cfg) param) in
           Done (splitSubnet_contains n (p_src4 pkt), s)
  | Some OP_SNET6 =>
      let! n := must (index (t_ipv6Subnets t) param) in Done (Prefix_Contains n (p_dst pkt), s)
  | Some OP_LSNET6 =>
      let! n := must (index (t_ipv6Subnets t) param) in Done (Prefix_Contains n (p_src pkt), s)
  | Some OP_PORT => Done (p_hasPorts pkt && (param =? p_dstPort pkt), s)
  | Some OP_LPORT => Done (p_hasPorts pkt && (param =? p_srcPort pkt), s)
  | Some OP_RULE => rule param s
  | _ => Done (false, s)
  end.

(** ** Route *)

Definition flagNative : Z := 1.
Definition flagHasPorts : Z := 2.
Definition flagFlowOK : Z := 4.

Definition splitRouteCacheKeyFromPacket (pkt : parsedIPPacket) (native : bool) : splitRouteCacheKey :=
  let flags := 0 in
  let flags := if native then Z.lor flags flagNative else flags in
  let flags := if p_hasPorts pkt then Z.lor flags flagHasPorts else flags in
  let flags := if p_flowOK pkt then Z.lor flags flagFlowOK else flags in
  MkRouteKey (p_proto pkt) flags (p_src pkt) (p_dst pkt) (p_srcPort pkt) (p_dstPort pkt).

(** The evaluation of the program on a packet: the compiled segments, or the
    stack program when the route has no compiled form. *)
Definition evalRoute (s : evalState) : run (Z * evalState) :=
  match sr_compiled cfg with
  | Some (conds, segments) => routeBySegments atom rule (length conds) conds segments s
  | None => runStack atom (sr_routeProgram cfg) (sr_routeStackDepth cfg) s
  end.

Definition Route (buf : list byte) (offset : Z) (isNative : bool) (tick : nat)
  : run (Z * bytecodeSplitRouter * nat) :=
  let! parsed := parseIPPacket buf offset in
  match parsed with
  | None => Done (0, cfg, tick)
  | Some pkt =>
      let routeKey := splitRouteCacheKeyFromPacket pkt isNative in
      let '(hit, routes, tick) :=
        match sr_routeCache cfg with
        | None => (None, None, tick)
        | Some c =>
            let now := w_now w tick in
            let '(hit, c) := cache_get routeKey now c in (hit, Some c, S tick)
        end in
      match hit with
      | Some got => Done (got, set_caches cfg (sr_ruleCache cfg) routes, tick)
      | None =>
          let! data := cut buf offset (offset + p_total pkt) in
          let! '(slot, s) := evalRoute (MkState (newSplitEval isNative pkt data) (sr_ruleCache cfg) tick) in
          match routes with
          | Some c =>
              if sv_cacheable (es_ev s) then
                let now := w_now w (es_tick s) in
                let c := cache_set (w_routeOrder w) routeKey slot now c in
                Done (slot, set_caches cfg (es_rules s) (Some c), S (es_tick s))
              else Done (slot, set_caches cfg (es_rules s) (Some c), es_tick s)
          | None => Done (slot, set_caches cfg (es_rules s) None, es_tick s)
          end
      end
  end.
End Route.

(** ** Validation *)

Definition validateSplitOp (t : tables) (rules : Z) : opValidator :=
  fun pc op param kind =>
    try! _ := check (isRouterMethodOp op) (ErrNotValid "SplitRoute" pc op) in
    try! _ := check (isSnifferOnlyOp op) (ErrNotValid "SplitRoute" pc op) in
    try! _ := check (isDNSOnlyOp op) (ErrNotValid "SplitRoute" pc op) in
    match kind with
    | bytecodeParamNone => Success tt
    | _ =>
        match opcode_of op with
        | Some OP_SLOT => check (16 <? param) (ErrSlotRange "SplitRoute" pc param)
        | Some (OP_ADDR_S | OP_LADDR_S) => check_index "SplitRoute" pc TblString (t_strings t) param
        | Some (OP_ADDR_RE | OP_LADDR_RE) => check_index "SplitRoute" pc TblRegexp (t_regexps t) param
        | Some (OP_ADDR4 | OP_LADDR4) => check_index "SplitRoute" pc TblIPv4 (t_ipv4Addrs t) param
        | Some (OP_ADDR6 | OP_LADDR6) => check_index "SplitRoute" pc TblIPv6 (t_ipv6Addrs t) param
        | Some (OP_SNET4 | OP_LSNET4) => check_index "SplitRoute" pc TblSubnet4 (t_ipv4Subnets t) param
        | Some (OP_SNET6 | OP_LSNET6) => check_index "SplitRoute" pc TblSubnet6 (t_ipv6Subnets t) param
        | Some OP_RULE => check (rules <=? param) (ErrIndexRange "SplitRoute" pc TblRule param rules)
        | _ => Success tt
        end
    end.

Inductive splitError : Type :=
| ErrSystemNil
| ErrSplitBytecode (e : bcError)
| ErrBuildMatcher (i : Z) (e : string).

(** ** Construction and Close *)

Section Construction.
(** The rules of the host and the matchers the host builds from them. *)
Context {Rule : Type}.
Definition System : Type := Rule -> result string (option matcher).

Record SplitBytecodeRules : Type := MkSplitRules {
  sb_System : option System;
  sb_Rules : list Rule;
  sb_RuleCacheTTL : Z; sb_RuleCacheMaxEntries : Z;
  sb_RouteCacheTTL : Z; sb_RouteCacheMaxEntries : Z;
  sb_tables : tables;
  sb_DNSCacheStorage : bool;
  sb_Route : list byte }.

Definition validateSplit (rules : SplitBytecodeRules) : run (result splitError unit) :=
  match sb_System rules with
  | None => Done (Failure ErrSystemNil)
  | Some _ =>
      let t := sb_tables rules in
      match validateRegexps (t_regexps t) with
      | Failure e => Done (Failure (ErrSplitBytecode e))
      | Success _ =>
          match validateTables (t_ipv4Subnets t) (t_ipv6Addrs t) (t_ipv6Subnets t) with
          | Failure e => Done (Failure (ErrSplitBytecode e))
          | Success _ =>
              let! r := validateBytecode "SplitRoute" (sb_Route rules)
                          (validateSplitOp t (zlen (sb_Rules rules))) in
              Done match r with
                   | Failure e => Failure (ErrSplitBytecode e)
                   | Success _ => Success tt
                   end
          end
      end
  end.

(** The matchers built so far, in order, and the error that stopped the loop. *)
Fixpoint build_loop (build : System) (i : Z) (rules : list Rule)
  : list (option matcher) * option splitError :=
  match rules with
  | [] => ([], None)
  | r :: rules' =>
      match build r with
      | Failure e => ([], Some (ErrBuildMatcher i e))
      | Success m => let '(ms, err) := build_loop build (i + 1) rules' in (m :: ms, err)
      end
  end.

Definition open_matchers (ms : list (option matcher)) : list matcher := omap id ms.

(** Close returns the joined errors of the matchers, which it closes. *)
Definition Close (r : bytecodeSplitRouter) : list string * bytecodeSplitRouter * list matcher :=
  let closed := open_matchers (sr_matchers r) in
  (flat_map m_Close closed,
   set_caches (set_matchers r []) (cache_clear <$> sr_ruleCache r) (cache_clear <$> sr_routeCache r),
   closed).

(** The router or the error, and the matchers closed on the way. *)
Definition NewBytecodeSplitRouter (rules : SplitBytecodeRules)
  : run (result splitError bytecodeSplitRouter * list matcher) :=
  let t := sb_tables rules in
  let ruleCache := newSplitRuleResultCache (sb_RuleCacheTTL rules) (sb_RuleCacheMaxEntries rules) in
  let routeCache := newSplitRouteResultCache (sb_RouteCacheTTL rules) (sb_RouteCacheMaxEntries rules)
                      (sb_RuleCacheTTL rules) (sb_RuleCacheMaxEntries rules) in
  let! v := validateSplit rules in
  match v, sb_System rules with
  | Failure e, _ => Done (Failure e, [])
  | Success _, None => Panicked
  | Success _, Some build =>
      let! ops := bytecodeAddrStringOps (sb_Route rules) in
      let dns := (so_remote ops || so_local ops) && sb_DNSCacheStorage rules in
      let! '(program, depth) := compileSplitBytecode (sb_Route rules) in
      let! compiled := compileSplitRoute (sb_Route rules) in
      let '(ms, err) := build_loop build 0 (sb_Rules rules) in
      let r slots := MkSplitRouter t (compileSplitIPv4Subnets (t_ipv4Subnets t)) (sb_Route rules)
                 program depth compiled ops dns slots ms ruleCache routeCache in
      match err with
      | Some e => let '(_, _, closed) := Close (r []) in Done (Failure e, closed)
      | None =>
          let! slots := mentionedBytecodeSlots RouterSlots [sb_Route rules] in
          Done (Success (r slots), [])
      end
  end.
End Construction.
