(* ===== verification/SplitSpec.v ===== *)
(** * Correctness of the split router

    [split_value] is what each predicate means for a packet, given the answers
    of the rules and the reverse DNS names; [split_reference] is the reference
    machine on it.  While a packet is evaluated, the answers it asked for are
    remembered in its [splitEval] and never change, so the evaluators, the
    compiled segments and the stack program alike, compute the reference for
    the answers learned. *)

From S2P Require Import Prelude GoStd NetIP DNSCache Bytecode Machine AddrCache.
From S2P Require Import Scans RouterCfg SockOwner Packet SplitCompile SplitCache SplitRouter.

(** ** What the predicates mean *)

Record splitAnswers : Type := MkAnswers {
  an_rules : Z -> bool;
  an_src : list string;
  an_dst : list string }.

Definition text_matches (addr : Addr) (names : list string) (want : string) : bool :=
  String.eqb (Addr_String addr) want || existsb (fun name => dnsNameEqual name want) names.

Definition text_matches_re (addr : Addr) (names : list string) (o : option regexp) : bool :=
  match o with
  | Some re => re (Addr_String addr) || existsb (matchDNSNameRegexp re) names
  | None => false
  end.

Definition split_value (cfg : bytecodeSplitRouter) (pkt : parsedIPPacket) (native : bool)
    (a : splitAnswers) (op : byte) (param : Z) : bool :=
  let t := sr_tables cfg in
  match opcode_of op with
  | Some OP_TRUE => true
  | Some OP_NET4 => Is4 (p_src pkt)
  | Some OP_NET6 => Is6 (p_src pkt)
  | Some OP_UDP => p_proto pkt =? 17
  | Some OP_TCP => p_proto pkt =? 6
  | Some OP_ADDR_S => entry (t_strings t) param (text_matches (p_dst pkt) (an_dst a))
  | Some OP_LADDR_S => entry (t_strings t) param (text_matches (p_src pkt) (an_src a))
  | Some OP_ADDR_RE => entry (t_regexps t) param (text_matches_re (p_dst pkt) (an_dst a))
  | Some OP_LADDR_RE => entry (t_regexps t) param (text_matches_re (p_src pkt) (an_src a))
  | Some OP_ADDR4 => Is4 (p_dst pkt) && entry (t_ipv4Addrs t) param (Z.eqb (As4Uint32 (p_dst pkt)))
  | Some OP_LADDR4 => Is4 (p_src pkt) && entry (t_ipv4Addrs t) param (Z.eqb (As4Uint32 (p_src pkt)))
  | Some OP_ADDR6 => entry (t_ipv6Addrs t) param (fun x => bool_decide (p_dst pkt = x))
  | Some OP_LADDR6 => entry (t_ipv6Addrs t) param (fun x => bool_decide (p_src pkt = x))
  | Some OP_SNET4 => Is4 (p_dst pkt) &&
      entry (t_ipv4Subnets t) param (fun n => subnet_contains n (As4Uint32 (p_dst pkt)))
  | Some OP_LSNET4 => Is4 (p_src pkt) &&
      entry (t_ipv4Subnets t) param (fun n => subnet_contains n (As4Uint32 (p_src pkt)))
  | Some OP_SNET6 => entry (t_ipv6Subnets t) param (fun n => Prefix_Contains n (p_dst pkt))
  | Some OP_LSNET6 => entry (t_ipv6Subnets t) param (fun n => Prefix_Contains n (p_src pkt))
  | Some OP_PORT => p_hasPorts pkt && (param =? p_dstPort pkt)
  | Some OP_LPORT => p_hasPorts pkt && (param =? p_srcPort pkt)
  | Some OP_RULE => native && (param <? zlen (sr_matchers cfg)) && an_rules a param
  | _ => false
  end.

(** The slot of the reference machine. *)
Definition split_reference (cfg : bytecodeSplitRouter) (pkt : parsedIPPacket) (native : bool)
    (a : splitAnswers) (ins : list splitInstr) : run Z :=
  let! m := machine (split_action (split_value cfg pkt native a)) ins [] in Done (loop_slot m).

(** ** What an evaluation has learned *)

Definition rule_memo (e : splitEval) (idx : Z) : option bool :=
  if idx <? 64 then
    if Z.testbit (sv_ruleSeenMask e) idx then Some (Z.testbit (sv_ruleValueMask e) idx) else None
  else match sv_ruleCache e with Some m => m !! idx | None => None end.

Definition memo_names (enabled : bool) (m : addrMemo) (others : list string) : list string :=
  if enabled then if am_reverseDone m then am_reverseNames m else others else [].

Definition src_enabled (cfg : bytecodeSplitRouter) : bool :=
  sr_dnsStorage cfg && so_local (sr_routeStringOps cfg).
Definition dst_enabled (cfg : bytecodeSplitRouter) : bool :=
  sr_dnsStorage cfg && so_remote (sr_routeStringOps cfg).

(** The answers of an evaluation, with [a] for what it did not ask. *)
Definition learned (cfg : bytecodeSplitRouter) (a : splitAnswers) (e : splitEval) : splitAnswers :=
  MkAnswers (fun idx => match rule_memo e idx with Some b => b | None => an_rules a idx end)
    (memo_names (src_enabled cfg) (sv_src e) (an_src a))
    (memo_names (dst_enabled cfg) (sv_dst e) (an_dst a)).

(** ** Caches whose results satisfy a property *)

Definition cache_all {K V} `{Countable K} (P : K -> V -> Prop) (c : splitResultCache K V) : Prop :=
  (forall k e, ca_entries c !! k = Some e -> P k (ce_value e)) /\
  (forall k e, ca_last c = Some (k, e) -> P k (ce_value e)).

Section CacheAll.
Context {K V : Type} `{Countable K} (P : K -> V -> Prop).

Lemma cache_all_get key now c :
  cache_all P c ->
  cache_all P (cache_get key now c).2 /\ forall v, (cache_get key now c).1 = Some v -> P key v.
Proof.
  intros [He Hl]. split.
  - destruct (get_locked_sub key now c) as (Hsub & Hlast & _ & _).
    destruct (cache_get_state key now c) as [-> | ->]; [done|]. split.
    + intros k e Hk. eapply He, lookup_weaken; done.
    + intros k e Hk. destruct Hlast as [Hx|Hx]; rewrite Hx in Hk; [by apply Hl|done].
  - intros v. unfold cache_get. destruct (get_last key now c) as [x|] eqn:E.
    + intros [= <-]. apply get_last_Some in E as (e & Hx & -> & _). by apply Hl.
    + intros (e & Hx & -> & _)%get_locked_Some. by apply He.
Qed.

Lemma cache_all_set order key value now c :
  cache_all P c -> P key value -> cache_all P (cache_set order key value now c).
Proof.
  intros [He Hl] Hp. split; simpl.
  - intros k e Hk. apply set_locked_entries in Hk as [[= -> ->]|[_ Hk]]; [done|by eapply He].
  - by intros k e [= <- <-].
Qed.

Lemma cache_all_clear c : cache_all P (cache_clear c).
Proof. by split. Qed.
End CacheAll.

(** ** Evaluating a packet *)

Section Evaluation.
Context (cfg : bytecodeSplitRouter) (w : world) (pkt : parsedIPPacket) (data : list byte) (native : bool).

(** What is known of the answers of the rules and of the rule cache. *)
Context (okAnswer : Z -> bool -> Prop) (okCache : splitRuleCacheKey -> bool -> Prop).

Definition packet_key (idx : Z) : splitRuleCacheKey :=
  MkRuleKey idx (p_proto pkt) (p_src pkt) (p_dst pkt) (p_srcPort pkt) (p_dstPort pkt).

Definition eligible (idx : Z) (m : matcher) : Prop :=
  index (sr_matchers cfg) idx = Some (Some m) /\ p_hasPorts pkt = true /\ p_flowOK pkt = true.

Hypothesis flow_data : p_flowOK pkt = true ->
  FlowTupleFromOutgoingIPPacket data = Done (Success (flow_of pkt)).
Hypothesis ok_skip : forall idx, ~ (exists m, eligible idx m) -> okAnswer idx false.
Hypothesis ok_match : forall idx m n, eligible idx m ->
  match m_Match m n (flow_of pkt) with
  | Some b => okAnswer idx b /\ okCache (packet_key idx) b
  | None => okAnswer idx false
  end.
Hypothesis ok_hit : forall idx m b, eligible idx m -> okCache (packet_key idx) b -> okAnswer idx b.

Definition memo_ok (enabled cacheable : bool) (addr : Addr) (m : addrMemo) : Prop :=
  (am_stringSet m = true -> am_stringVal m = Addr_String addr) /\
  (am_reverseDone m = true -> enabled = true /\ cacheable = false /\
     am_reverseNames m = CachedReverseDNSNames (Some (w_dns w)) addr (w_packetNow w)).

Record eval_ok (s : evalState) : Prop := MkEvalOk {
  eo_native : sv_native (es_ev s) = native;
  eo_packet : sv_packet (es_ev s) = pkt;
  eo_data : sv_packetData (es_ev s) = data;
  eo_seen : 0 <= sv_ruleSeenMask (es_ev s);
  eo_value : 0 <= sv_ruleValueMask (es_ev s);
  eo_fresh : forall idx, 0 <= idx -> Z.testbit (sv_ruleSeenMask (es_ev s)) idx = false ->
    Z.testbit (sv_ruleValueMask (es_ev s)) idx = false;
  eo_src : memo_ok (src_enabled cfg) (sv_cacheable (es_ev s)) (p_src pkt) (sv_src (es_ev s));
  eo_dst : memo_ok (dst_enabled cfg) (sv_cacheable (es_ev s)) (p_dst pkt) (sv_dst (es_ev s));
  eo_now : sv_cacheNow (es_ev s) = 0 \/ sv_cacheNow (es_ev s) = w_packetNow w;
  eo_flow : if sv_flowDone (es_ev s)
            then sv_flowOK (es_ev s) = p_flowOK pkt /\
                 (p_flowOK pkt = true -> sv_flow (es_ev s) = Some (flow_of pkt))
            else sv_flowOK (es_ev s) = false;
  eo_answers : forall idx b, 0 <= idx -> rule_memo (es_ev s) idx = Some b -> okAnswer idx b;
  eo_rules : forall c, es_rules s = Some c -> cache_all okCache c }.

(** What is remembered stays. *)
Record later (s s' : evalState) : Prop := MkLater {
  la_rules : forall idx b, 0 <= idx -> rule_memo (es_ev s) idx = Some b -> rule_memo (es_ev s') idx = Some b;
  la_src : am_reverseDone (sv_src (es_ev s)) = true ->
    am_reverseDone (sv_src (es_ev s')) = true /\
    am_reverseNames (sv_src (es_ev s')) = am_reverseNames (sv_src (es_ev s));
  la_dst : am_reverseDone (sv_dst (es_ev s)) = true ->
    am_reverseDone (sv_dst (es_ev s')) = true /\
    am_reverseNames (sv_dst (es_ev s')) = am_reverseNames (sv_dst (es_ev s)) }.

Lemma later_refl s : later s s.
Proof. split; auto. Qed.

Lemma later_trans s1 s2 s3 : later s1 s2 -> later s2 s3 -> later s1 s3.
Proof.
  intros [R1 S1 D1] [R2 S2 D2]. split; [auto|..].
  - intros H. destruct (S1 H) as [H1 E1]. destruct (S2 H1) as [H2 E2]. by rewrite E2, E1.
  - intros H. destruct (D1 H) as [H1 E1]. destruct (D2 H1) as [H2 E2]. by rewrite E2, E1.
Qed.

(** A step that touches neither the remembered rules nor the names. *)
Definition frame (s s' : evalState) : Prop :=
  (forall idx, rule_memo (es_ev s') idx = rule_memo (es_ev s) idx) /\
  sv_ruleSeenMask (es_ev s') = sv_ruleSeenMask (es_ev s) /\
  sv_ruleValueMask (es_ev s') = sv_ruleValueMask (es_ev s) /\
  sv_ruleCache (es_ev s') = sv_ruleCache (es_ev s) /\
  sv_src (es_ev s') = sv_src (es_ev s) /\ sv_dst (es_ev s') = sv_dst (es_ev s).

Lemma frame_later s s' : frame s s' -> later s s'.
Proof.
  intros (Hr & _ & _ & _ & Hs & Hd). split.
  - intros idx b _. by rewrite Hr.
  - by rewrite Hs.
  - by rewrite Hd.
Qed.

Lemma frame_refl s : frame s s.
Proof. repeat split. Qed.

Lemma frame_trans s1 s2 s3 : frame s1 s2 -> frame s2 s3 -> frame s1 s3.
Proof.
  intros (A1 & B1 & C1 & D1 & E1 & F1) (A2 & B2 & C2 & D2 & E2 & F2).
  split_and!; congruence.
Qed.

Lemma ev_now_ok s : eval_ok s ->
  exists s', ev_now w s = (w_packetNow w, s') /\ eval_ok s' /\ frame s s' /\
    sv_cacheable (es_ev s') = sv_cacheable (es_ev s) /\ es_rules s' = es_rules s.
Proof.
  intros Hs. unfold ev_now. destruct (Z.eqb_spec (sv_cacheNow (es_ev s)) 0) as [E|E].
  - eexists. split; [done|]. destruct Hs. split_and!; try done. split; simpl; try done. by right.
  - exists s. destruct (eo_now _ Hs) as [|En]; [lia|]. rewrite En. split_and!; try done; apply frame_refl.
Qed.

Lemma memo_ok_uncacheable enabled cacheable addr m :
  memo_ok enabled cacheable addr m -> memo_ok enabled false addr m.
Proof. intros [Ht Hn]. split; [done|]. intros Hd. destruct (Hn Hd) as (? & _ & ?). auto. Qed.

Lemma uncacheable_ok s : eval_ok s -> eval_ok (on_ev set_uncacheable s) /\ frame s (on_ev set_uncacheable s).
Proof.
  intros []. split; [|repeat split]. split; simpl; try done; by eapply memo_ok_uncacheable.
Qed.

Lemma packetFlow_ok s : eval_ok s -> p_flowOK pkt = true ->
  exists s', packetFlow s = Done (Some (flow_of pkt), true, s') /\ eval_ok s' /\ frame s s' /\
    es_rules s' = es_rules s.
Proof.
  intros Hs Hp. unfold packetFlow. pose proof (eo_flow _ Hs) as Hf.
  destruct (sv_flowDone (es_ev s)) eqn:Ed.
  - destruct Hf as [Hok Hfl]. rewrite Hok, (Hfl Hp), Hp. exists s. split_and!; try done; apply frame_refl.
  - rewrite (eo_packet _ Hs), Hp, (eo_data _ Hs). cbn [negb]. rewrite (flow_data Hp). cbn [run_bind].
    eexists. split; [done|]. destruct Hs. split_and!; done.
Qed.

Lemma call_matcher_ok s m idx : eval_ok s -> eligible idx m ->
  exists b answer s', call_matcher m s = Done (b, answer, s') /\ eval_ok s' /\ frame s s' /\
    es_rules s' = es_rules s /\ okAnswer idx b /\
    match answer with Some got => got = b /\ okCache (packet_key idx) b | None => b = false end.
Proof.
  intros Hs Hm. pose proof Hm as (_ & _ & Hp). unfold call_matcher.
  destruct (packetFlow_ok s Hs Hp) as (s1 & -> & Hs1 & Hf1 & Hr1). cbn [run_bind negb must].
  pose proof (ok_match idx m (es_tick s1) Hm) as Hans.
  assert (Hs2 : eval_ok (MkState (es_ev s1) (es_rules s1) (S (es_tick s1)))) by (by destruct Hs1; split).
  assert (Hf2 : frame s (MkState (es_ev s1) (es_rules s1) (S (es_tick s1)))).
  { eapply frame_trans; [exact Hf1|]. repeat split. }
  destruct (m_Match m (es_tick s1) (flow_of pkt)) as [b|].
  - destruct Hans as [Ha Hc]. do 3 eexists. split; [done|]. auto 10.
  - destruct (uncacheable_ok _ Hs2) as [Hs3 Hf3]. do 3 eexists. split; [done|].
    split_and!; try done.
Qed.

Lemma matchRule_ok s idx : eval_ok s -> 0 <= idx < zlen (sr_matchers cfg) ->
  exists b s', matchRule cfg w idx idx s = Done (b, s') /\ eval_ok s' /\ frame s s' /\ okAnswer idx b.
Proof.
  intros Hs Hi. unfold matchRule. rewrite (eo_packet _ Hs).
  destruct (index_in_range _ _ Hi) as [om Hm].
  assert (Hskip : ~ (exists m, eligible idx m) -> exists b s',
    Done (false, s) = Done (b, s') /\ eval_ok s' /\ frame s s' /\ okAnswer idx b).
  { intros Hno. exists false, s. split_and!; try done; by apply ok_skip. }
  case_eq (p_hasPorts pkt); intros Eports; cbn [negb]; [|apply Hskip; intros (m & _ & Hp & _); congruence].
  rewrite Hm. cbn [must run_bind].
  destruct om as [m|]; [|apply Hskip; intros (m & He & _ & _); congruence].
  case_eq (p_flowOK pkt); intros Eflow; cbn [negb]; [|apply Hskip; intros (m' & _ & _ & Hp); congruence].
  assert (Hel : eligible idx m) by done.
  destruct (es_rules s) as [c|] eqn:Ec.
  2:{ destruct (call_matcher_ok s m idx Hs Hel) as (b & ans & s1 & -> & Hs1 & Hf1 & _ & Hb & _).
      exists b, s1. auto. }
  replace (ruleCacheKey (es_ev s) idx) with (packet_key idx) by (unfold ruleCacheKey; by rewrite (eo_packet _ Hs)).
  destruct (ev_now_ok s Hs) as (s1 & -> & Hs1 & Hf1 & _ & Hr1).
  pose proof (eo_rules _ Hs c Ec) as Hall.
  destruct (cache_all_get okCache (packet_key idx) (w_packetNow w) c Hall) as [Hall' Hhit].
  destruct (cache_get (packet_key idx) (w_packetNow w) c) as [hit c'] eqn:Eg. simpl in Hall', Hhit.
  set (s2 := MkState (es_ev s1) (Some c') (es_tick s1)).
  assert (Hs2 : eval_ok s2) by (destruct Hs1; split; try done; by intros ? [= <-]).
  assert (Hf2 : frame s s2) by (eapply frame_trans; [exact Hf1|repeat split]).
  destruct hit as [got|].
  { exists got, s2. split_and!; try done; try apply Hf2. eapply ok_hit; [done|]. by apply Hhit. }
  destruct (call_matcher_ok s2 m idx Hs2 Hel) as (b & ans & s3 & -> & Hs3 & Hf3 & Hr3 & Hb & Hans).
  cbn [run_bind]. assert (Hf : frame s s3) by (by eapply frame_trans).
  destruct ans as [got|].
  - destruct Hans as [-> Hc]. cbn [time_now]. do 2 eexists. split; [done|]. split_and!.
    + destruct Hs3. split; try done. simpl. rewrite Hr3. simpl. intros ? [= <-].
      by apply cache_all_set.
    + eapply frame_trans; [exact Hf|]. repeat split.
    + done.
  - subst b. exists false, s3. auto.
Qed.

Context (a : splitAnswers).

Definition split_valuation (s : evalState) : byte -> Z -> bool :=
  split_value cfg pkt native (learned cfg a (es_ev s)).

Lemma land_bit m i : 0 <= i -> (Z.land m (Z.shiftl 1 i) =? 0) = negb (Z.testbit m i).
Proof.
  intros Hi. rewrite Z.shiftl_1_l. destruct (Z.testbit m i) eqn:E; simpl.
  - apply Z.eqb_neq. intros H0. assert (Ht : Z.testbit (Z.land m (2 ^ i)) i = false) by (by rewrite H0, Z.bits_0).
    rewrite Z.land_spec, Z.pow2_bits_true, E in Ht by done. done.
  - apply Z.eqb_eq. apply Z.bits_inj'. intros n Hn. rewrite Z.land_spec, Z.bits_0.
    destruct (decide (n = i)) as [->|Hne]; [by rewrite E|].
    rewrite Z.pow2_bits_false by lia. by rewrite andb_false_r.
Qed.

Lemma lor_bit m i n : 0 <= i -> 0 <= n -> Z.testbit (Z.lor m (Z.shiftl 1 i)) n = Z.testbit m n || (i =? n).
Proof.
  intros Hi Hn. rewrite Z.lor_spec, Z.shiftl_1_l. f_equal.
  destruct (Z.eqb_spec i n) as [->|Hne]; [by apply Z.pow2_bits_true|by apply Z.pow2_bits_false].
Qed.

(** Remembering the answer of a rule below 64 in the masks. *)
Lemma masks_ok s idx (b : bool) :
  eval_ok s -> 0 <= idx < 64 -> rule_memo (es_ev s) idx = None -> okAnswer idx b ->
  let bit := Z.shiftl 1 idx in
  let s' := on_ev (fun e => set_masks e (Z.lor (sv_ruleSeenMask e) bit)
                    (if b then Z.lor (sv_ruleValueMask e) bit else sv_ruleValueMask e)) s in
  eval_ok s' /\ later s s' /\ rule_memo (es_ev s') idx = Some b.
Proof.
  intros Hs Hi Hnone Hb bit s'.
  assert (Hunseen : Z.testbit (sv_ruleSeenMask (es_ev s)) idx = false).
  { unfold rule_memo in Hnone. destruct (Z.ltb_spec idx 64); [|lia]. by destruct (Z.testbit _ idx). }
  assert (Hbit : 0 <= bit) by (unfold bit; rewrite Z.shiftl_nonneg; lia).
  assert (Hval : forall n, 0 <= n -> Z.testbit (sv_ruleValueMask (es_ev s')) n =
    Z.testbit (sv_ruleValueMask (es_ev s)) n || (b && (idx =? n))).
  { intros n Hn. simpl. destruct b; simpl; [by apply lor_bit; lia|by rewrite orb_false_r]. }
  assert (Hseen : forall n, 0 <= n -> Z.testbit (sv_ruleSeenMask (es_ev s')) n =
    Z.testbit (sv_ruleSeenMask (es_ev s)) n || (idx =? n)).
  { intros n Hn. simpl. apply lor_bit; lia. }
  assert (Hmemo : forall n, 0 <= n -> rule_memo (es_ev s') n =
    if n =? idx then Some b else rule_memo (es_ev s) n).
  { intros n Hn. unfold rule_memo. rewrite Hval, Hseen by done.
    change (sv_ruleCache (es_ev s')) with (sv_ruleCache (es_ev s)).
    destruct (Z.eqb_spec n idx) as [->|Hne].
    - destruct (Z.ltb_spec idx 64); [|lia]. rewrite Z.eqb_refl, orb_true_r, andb_true_r.
      rewrite (eo_fresh _ Hs) by (done || lia). done.
    - destruct (Z.eqb_spec idx n); [lia|]. by rewrite andb_false_r, !orb_false_r. }
  split_and!.
  - pose proof Hs as []. split; try done; simpl.
    + apply Z.lor_nonneg. auto.
    + destruct b; [apply Z.lor_nonneg; auto|done].
    + intros n Hn Hf. pose proof (Hseen n Hn) as Hn'. simpl in Hn'. rewrite Hn' in Hf.
      apply orb_false_iff in Hf as [Hf1 Hf2]. pose proof (Hval n Hn) as Hv. simpl in Hv. rewrite Hv.
      rewrite (eo_fresh _ Hs n Hn Hf1), Hf2. by destruct b.
    + intros n b' Hn Hm. pose proof (Hmemo n Hn) as Hx. simpl in Hx. rewrite Hx in Hm.
      destruct (Z.eqb_spec n idx) as [->|]; [by injection Hm as <-|by apply (eo_answers _ Hs)].
  - split; try done. intros n b' Hn Hm. rewrite Hmemo by done.
    destruct (Z.eqb_spec n idx) as [->|]; [congruence|done].
  - rewrite Hmemo by lia. by rewrite Z.eqb_refl.
Qed.

(** ... and of a larger rule in the map. *)
Lemma ruleMap_ok s idx (b : bool) :
  eval_ok s -> 64 <= idx -> rule_memo (es_ev s) idx = None -> okAnswer idx b ->
  let m := match sv_ruleCache (es_ev s) with Some m => m | None => ∅ end in
  let s' := on_ev (fun e => set_ruleMap e (Some (<[idx := b]> m))) s in
  eval_ok s' /\ later s s' /\ rule_memo (es_ev s') idx = Some b.
Proof.
  intros Hs Hi Hnone Hb m s'.
  assert (Hmemo : forall n, rule_memo (es_ev s') n = if n =? idx then Some b else rule_memo (es_ev s) n).
  { intros n. unfold rule_memo. simpl. destruct (Z.eqb_spec n idx) as [->|Hne].
    - destruct (Z.ltb_spec idx 64); [lia|]. apply lookup_insert_eq.
    - destruct (n <? 64); [done|]. rewrite lookup_insert_ne by done. unfold m.
      by destruct (sv_ruleCache (es_ev s)). }
  split_and!.
  - pose proof Hs as []. split; try done. intros n b' Hn Hm. rewrite Hmemo in Hm.
    destruct (Z.eqb_spec n idx) as [->|]; [by injection Hm as <-|by apply (eo_answers _ Hs)].
  - split; try done. intros n b' Hn Hm. rewrite Hmemo.
    destruct (Z.eqb_spec n idx) as [->|]; [congruence|done].
  - rewrite Hmemo. by rewrite Z.eqb_refl.
Qed.

Lemma rule_ok idx : 0 <= idx ->
  evaluates eval_ok later (rule cfg w idx)
    (fun sf => native && (idx <? zlen (sr_matchers cfg)) && an_rules (learned cfg a (es_ev sf)) idx).
Proof.
  intros Hi s Hs. pose proof (eo_native _ Hs) as Hn. unfold rule.
  destruct (sv_native (es_ev s)); cbn [negb].
  2:{ exists false, s. split_and!; [done|done|apply later_refl|]. intros sf _. by rewrite <- Hn. }
  destruct (Z.leb_spec (zlen (sr_matchers cfg)) idx), (Z.ltb_spec idx (zlen (sr_matchers cfg))); try lia.
  { exists false, s. split_and!; [done|done|apply later_refl|]. intros sf _. by rewrite andb_false_r. }
  assert (Hknown : forall b s', rule_memo (es_ev s') idx = Some b -> forall sf, later s' sf ->
    native && true && an_rules (learned cfg a (es_ev sf)) idx = b).
  { intros b s' Hm sf Hsf. simpl. rewrite (la_rules _ _ Hsf idx b Hi Hm), <- Hn. done. }
  destruct (rule_memo (es_ev s) idx) as [b|] eqn:Em.
  - exists b, s. split_and!; [|done|apply later_refl|by apply Hknown]. revert Em. unfold rule_memo.
    rewrite !land_bit, !negb_involutive by done.
    destruct (idx <? 64).
    + destruct (Z.testbit (sv_ruleSeenMask (es_ev s)) idx); [by intros [= ->]|done].
    + by intros ->.
  - assert (Hrun : exists b s1, matchRule cfg w idx idx s = Done (b, s1) /\ eval_ok s1 /\ frame s s1 /\ okAnswer idx b)
      by (apply matchRule_ok; [done|lia]).
    destruct Hrun as (b & s1 & Hrun & Hs1 & Hf & Hb).
    assert (Hm1 : rule_memo (es_ev s1) idx = None) by (destruct Hf as [Hf _]; by rewrite Hf).
    pose proof Em as Em'. unfold rule_memo in Em'. rewrite land_bit, negb_involutive by done.
    destruct (Z.ltb_spec idx 64) as [Hlt|Hge].
    + destruct (Z.testbit (sv_ruleSeenMask (es_ev s)) idx); [done|]. rewrite Hrun. cbn [run_bind].
      destruct (masks_ok s1 idx b Hs1 ltac:(lia) Hm1 Hb) as (Hs2 & Hl & Hm2).
      do 2 eexists. split; [done|]. split_and!; [done|by eapply later_trans; [apply frame_later|]|by apply Hknown].
    + rewrite Em', Hrun. cbn [run_bind].
      destruct (ruleMap_ok s1 idx b Hs1 Hge Hm1 Hb) as (Hs2 & Hl & Hm2).
      do 2 eexists. split; [done|]. split_and!; [done|by eapply later_trans; [apply frame_later|]|by apply Hknown].
Qed.

(** ** Addresses as text *)

Lemma addrString_ok enabled cacheable addr m :
  memo_ok enabled cacheable addr m ->
  exists m', addrString addr m = (Addr_String addr, m') /\ memo_ok enabled cacheable addr m' /\
    am_reverseDone m' = am_reverseDone m /\ am_reverseNames m' = am_reverseNames m.
Proof.
  intros Hm. pose proof Hm as [Ht Hn]. unfold addrString. destruct (am_stringSet m) eqn:E.
  - exists m. by rewrite Ht.
  - eexists. split; [done|]. split; [by split|done].
Qed.

Lemma srcString_ok s : eval_ok s ->
  exists s', srcString s = (Addr_String (p_src pkt), s') /\ eval_ok s' /\ later s s'.
Proof.
  intros Hs. unfold srcString. rewrite (eo_packet _ Hs).
  destruct (addrString_ok _ _ _ _ (eo_src _ Hs)) as (m' & -> & Hm & Hd & Hnm).
  eexists. split; [done|]. destruct Hs. split; [by split|]. split; try done. simpl. by rewrite Hd, Hnm.
Qed.

Lemma dstString_ok s : eval_ok s ->
  exists s', dstString s = (Addr_String (p_dst pkt), s') /\ eval_ok s' /\ later s s'.
Proof.
  intros Hs. unfold dstString. rewrite (eo_packet _ Hs).
  destruct (addrString_ok _ _ _ _ (eo_dst _ Hs)) as (m' & -> & Hm & Hd & Hnm).
  eexists. split; [done|]. destruct Hs. split; [by split|]. split; try done. simpl. by rewrite Hd, Hnm.
Qed.

Lemma enabled_negb (x y : bool) : negb x || negb y = negb (x && y).
Proof. by destruct x, y. Qed.

Lemma srcNames_ok s : eval_ok s ->
  exists names s', srcReverseDNSNames cfg w s = (names, s') /\ eval_ok s' /\ later s s' /\
    forall sf, later s' sf -> an_src (learned cfg a (es_ev sf)) = names.
Proof.
  intros Hs. unfold srcReverseDNSNames. rewrite enabled_negb. fold (src_enabled cfg).
  rewrite (eo_packet _ Hs). destruct (eo_src _ Hs) as [Htext Hdone].
  destruct (am_reverseDone (sv_src (es_ev s))) eqn:Ed.
  - destruct (Hdone eq_refl) as (Hen & _ & Hnames). do 2 eexists. split; [done|].
    split_and!; [done|apply later_refl|]. intros sf Hsf. simpl. unfold memo_names.
    destruct (la_src _ _ Hsf Ed) as [-> ->]. by rewrite Hen.
  - destruct (src_enabled cfg) eqn:Hen; cbn [negb].
    + destruct (uncacheable_ok s Hs) as [Hs1 Hf1].
      destruct (ev_now_ok _ Hs1) as (s2 & -> & Hs2 & Hf2 & Hc2 & _).
      assert (Hl : later s s2) by (apply frame_later; by eapply frame_trans).
      do 2 eexists. split; [done|]. split_and!.
      * pose proof Hs2 as []. split; try done. simpl. rewrite Hc2. split; [|done].
        simpl. by apply (eo_src _ Hs2).
      * eapply later_trans; [exact Hl|]. split; try done. simpl. intros Hx.
        destruct (Hf1) as (_ & _ & _ & _ & Hsrc1 & _), Hf2 as (_ & _ & _ & _ & Hsrc2 & _). congruence.
      * intros sf Hsf. simpl. unfold memo_names. destruct (la_src _ _ Hsf eq_refl) as [-> ->].
        by rewrite Hen.
    + do 2 eexists. split; [done|]. split_and!; [done|apply later_refl|]. intros sf Hsf. simpl.
      unfold memo_names. by rewrite Hen.
Qed.

Lemma dstNames_ok s : eval_ok s ->
  exists names s', dstReverseDNSNames cfg w s = (names, s') /\ eval_ok s' /\ later s s' /\
    forall sf, later s' sf -> an_dst (learned cfg a (es_ev sf)) = names.
Proof.
  intros Hs. unfold dstReverseDNSNames. rewrite enabled_negb. fold (dst_enabled cfg).
  rewrite (eo_packet _ Hs). destruct (eo_dst _ Hs) as [Htext Hdone].
  destruct (am_reverseDone (sv_dst (es_ev s))) eqn:Ed.
  - destruct (Hdone eq_refl) as (Hen & _ & Hnames). do 2 eexists. split; [done|].
    split_and!; [done|apply later_refl|]. intros sf Hsf. simpl. unfold memo_names.
    destruct (la_dst _ _ Hsf Ed) as [-> ->]. by rewrite Hen.
  - destruct (dst_enabled cfg) eqn:Hen; cbn [negb].
    + destruct (uncacheable_ok s Hs) as [Hs1 Hf1].
      destruct (ev_now_ok _ Hs1) as (s2 & -> & Hs2 & Hf2 & Hc2 & _).
      assert (Hl : later s s2) by (apply frame_later; by eapply frame_trans).
      do 2 eexists. split; [done|]. split_and!.
      * pose proof Hs2 as []. split; try done. simpl. rewrite Hc2. split; [|done].
        simpl. by apply (eo_dst _ Hs2).
      * eapply later_trans; [exact Hl|]. split; try done. simpl. intros Hx.
        destruct (Hf1) as (_ & _ & _ & _ & _ & Hdst1), Hf2 as (_ & _ & _ & _ & _ & Hdst2). congruence.
      * intros sf Hsf. simpl. unfold memo_names. destruct (la_dst _ _ Hsf eq_refl) as [-> ->].
        by rewrite Hen.
    + do 2 eexists. split; [done|]. split_and!; [done|apply later_refl|]. intros sf Hsf. simpl.
      unfold memo_names. by rewrite Hen.
Qed.

(** Comparing the text, then the reverse names. *)
Lemma text_evaluates (text : evalState -> string * evalState)
    (names : evalState -> list string * evalState) str (get : splitAnswers -> list string)
    (test : string -> bool) (testName : string -> bool) :
  (forall s, eval_ok s -> exists s', text s = (str, s') /\ eval_ok s' /\ later s s') ->
  (forall s, eval_ok s -> exists l s', names s = (l, s') /\ eval_ok s' /\ later s s' /\
     forall sf, later s' sf -> get (learned cfg a (es_ev sf)) = l) ->
  evaluates eval_ok later
    (fun s => Done (let '(v, s) := text s in
                    if test v then (true, s)
                    else let '(l, s) := names s in (existsb testName l, s)))
    (fun sf => test str || existsb testName (get (learned cfg a (es_ev sf)))).
Proof.
  intros Ht Hn s Hs. destruct (Ht s Hs) as (s1 & -> & Hs1 & Hl1).
  destruct (test str); cbn [orb].
  - exists true, s1. auto.
  - destruct (Hn s1 Hs1) as (l & s2 & -> & Hs2 & Hl2 & Hget). exists (existsb testName l), s2.
    split_and!; [done|done|by eapply later_trans|]. intros sf Hsf. by rewrite Hget.
Qed.

(** ** The predicates *)

Hypothesis subnets_compiled : sr_splitSubnets cfg = compileSplitIPv4Subnets (t_ipv4Subnets (sr_tables cfg)).
Hypothesis regexps_set : Forall is_Some (t_regexps (sr_tables cfg)).
Hypothesis family : (Is4 (p_src pkt) = true /\ Is4 (p_dst pkt) = true /\
                     p_src4 pkt = As4Uint32 (p_src pkt) /\ p_dst4 pkt = As4Uint32 (p_dst pkt)) \/
                    (Is6 (p_src pkt) = true /\ Is6 (p_dst pkt) = true).

(** A parameter the table has, for the opcodes that use one. *)
Definition table_ok (op : byte) (param : Z) : Prop :=
  let t := sr_tables cfg in
  match opcode_of op with
  | Some (OP_ADDR_S | OP_LADDR_S) => is_Some (index (t_strings t) param)
  | Some (OP_ADDR_RE | OP_LADDR_RE) => is_Some (index (t_regexps t) param)
  | Some (OP_ADDR4 | OP_LADDR4) => is_Some (index (t_ipv4Addrs t) param)
  | Some (OP_ADDR6 | OP_LADDR6) => is_Some (index (t_ipv6Addrs t) param)
  | Some (OP_SNET4 | OP_LSNET4) => is_Some (index (t_ipv4Subnets t) param)
  | Some (OP_SNET6 | OP_LSNET6) => is_Some (index (t_ipv6Subnets t) param)
  | Some OP_RULE => 0 <= param
  | Some (OP_TRUE | OP_NET4 | OP_NET6 | OP_UDP | OP_TCP | OP_PORT | OP_LPORT) => True
  | _ => False
  end.

Lemma Is4_Is6 x : Is6 x = true -> Is4 x = false.
Proof. by destruct x. Qed.

(** A predicate of the packet alone. *)
Lemma pure_evaluates (f : evalState -> bool) (b : bool) (value : evalState -> bool) :
  (forall s, eval_ok s -> f s = b) -> (forall sf, value sf = b) ->
  evaluates eval_ok later (fun s => Done (f s, s)) value.
Proof.
  intros Hf Hv s Hs. exists b, s. rewrite (Hf s Hs). split_and!; [done|done|apply later_refl|auto].
Qed.

Lemma src4_value (f g : Z -> bool) : (forall x, f x = g x) ->
  (if negb (Is4 (p_src pkt)) then false else f (p_src4 pkt)) = Is4 (p_src pkt) && g (As4Uint32 (p_src pkt)).
Proof.
  intros Hfg. destruct family as [(-> & _ & -> & _)|[H6 _]]; [by rewrite Hfg|by rewrite (Is4_Is6 _ H6)].
Qed.

Lemma dst4_value (f g : Z -> bool) : (forall x, f x = g x) ->
  (if negb (Is4 (p_dst pkt)) then false else f (p_dst4 pkt)) = Is4 (p_dst pkt) && g (As4Uint32 (p_dst pkt)).
Proof.
  intros Hfg. destruct family as [(_ & -> & _ & ->)|[_ H6]]; [by rewrite Hfg|by rewrite (Is4_Is6 _ H6)].
Qed.

Lemma eqb_andb_if x y b : (x =? y) && b = if negb b then false else x =? y.
Proof. destruct b; simpl; [by rewrite andb_true_r|by rewrite andb_false_r]. Qed.

(** The arm of an IPv4 subnet. *)
Lemma subnet_arm param addr x (s : evalState) :
  is_Some (index (t_ipv4Subnets (sr_tables cfg)) param) ->
  (if negb (Is4 addr) then Done (false, s)
   else let! n := must (index (sr_splitSubnets cfg) param) in Done (splitSubnet_contains n x, s))
  = Done (if negb (Is4 addr) then false
          else entry (t_ipv4Subnets (sr_tables cfg)) param (fun n => subnet_contains n x), s).
Proof.
  intros [n Hn]. destruct (Is4 addr); simpl; [|done].
  rewrite subnets_compiled. unfold compileSplitIPv4Subnets, entry. rewrite index_map, Hn. simpl.
  by rewrite splitSubnet_contains_spec.
Qed.

Lemma atom_ok op param : table_ok op param ->
  evaluates eval_ok later (atom cfg w op param) (fun sf => split_valuation sf op param).
Proof.
  intros Ht. unfold table_ok in Ht. unfold split_valuation, split_value, atom.
  assert (Hpure : forall (f : parsedIPPacket -> bool),
    evaluates eval_ok later (fun s => Done (f (sv_packet (es_ev s)), s)) (fun _ => f pkt)).
  { intros f. eapply (pure_evaluates _ (f pkt)); [|done]. intros s Hs. by rewrite (eo_packet _ Hs). }
  destruct (opcode_of op) as [[]|] eqn:Eo; try done.
  - by apply (Hpure (fun _ => true)).
  - apply (Hpure (fun p => Is4 (p_src p))).
  - apply (Hpure (fun p => Is6 (p_src p))).
  - apply (Hpure (fun p => p_proto p =? 17)).
  - apply (Hpure (fun p => p_proto p =? 6)).
  - destruct Ht as [x Hx]. rewrite Hx. unfold entry. rewrite Hx. cbn [must run_bind].
    apply (text_evaluates dstString (dstReverseDNSNames cfg w) _ an_dst (fun v => String.eqb v x));
      [apply dstString_ok|apply dstNames_ok].
  - destruct Ht as [x Hx]. rewrite Hx. unfold entry. rewrite Hx. cbn [must run_bind].
    apply (text_evaluates srcString (srcReverseDNSNames cfg w) _ an_src (fun v => String.eqb v x));
      [apply srcString_ok|apply srcNames_ok].
  - destruct Ht as [x Hx]. rewrite Hx. unfold entry. rewrite Hx. cbn [must run_bind].
    destruct (proj1 (Forall_forall _ _) regexps_set x (index_elem _ _ _ Hx)) as [re ->]. cbn [must run_bind].
    apply (text_evaluates dstString (dstReverseDNSNames cfg w) _ an_dst re);
      [apply dstString_ok|apply dstNames_ok].
  - destruct Ht as [x Hx]. rewrite Hx. unfold entry. rewrite Hx. cbn [must run_bind].
    destruct (proj1 (Forall_forall _ _) regexps_set x (index_elem _ _ _ Hx)) as [re ->]. cbn [must run_bind].
    apply (text_evaluates srcString (srcReverseDNSNames cfg w) _ an_src re);
      [apply srcString_ok|apply srcNames_ok].
  - destruct Ht as [x Hx]. rewrite Hx. unfold entry. rewrite Hx. cbn [must run_bind].
    eapply evaluates_ext; [|apply (Hpure (fun p => (p_dst4 p =? x) && Is4 (p_dst p)))].
    intros sf. simpl. rewrite eqb_andb_if. by apply (dst4_value (fun y => y =? x) (fun y => y =? x)).
  - destruct Ht as [x Hx]. rewrite Hx. unfold entry. rewrite Hx. cbn [must run_bind].
    eapply evaluates_ext; [|apply (Hpure (fun p => (p_src4 p =? x) && Is4 (p_src p)))].
    intros sf. simpl. rewrite eqb_andb_if. by apply (src4_value (fun y => y =? x) (fun y => y =? x)).
  - destruct Ht as [x Hx]. rewrite Hx. unfold entry. rewrite Hx. cbn [must run_bind].
    pose (f := fun p => bool_decide (p_dst p = x)). apply (Hpure f).
  - destruct Ht as [x Hx]. rewrite Hx. unfold entry. rewrite Hx. cbn [must run_bind].
    pose (f := fun p => bool_decide (p_src p = x)). apply (Hpure f).
  - intros s Hs. rewrite (eo_packet _ Hs), subnet_arm by done. do 2 eexists. split; [done|].
    split_and!; [done|apply later_refl|]. intros sf _. symmetry.
    set (f := fun y => entry (t_ipv4Subnets (sr_tables cfg)) param (fun n => subnet_contains n y)).
    by apply (dst4_value f f).
  - intros s Hs. rewrite (eo_packet _ Hs), subnet_arm by done. do 2 eexists. split; [done|].
    split_and!; [done|apply later_refl|]. intros sf _. symmetry.
    set (f := fun y => entry (t_ipv4Subnets (sr_tables cfg)) param (fun n => subnet_contains n y)).
    by apply (src4_value f f).
  - destruct Ht as [x Hx]. rewrite Hx. unfold entry. rewrite Hx. cbn [must run_bind].
    apply (Hpure (fun p => Prefix_Contains x (p_dst p))).
  - destruct Ht as [x Hx]. rewrite Hx. unfold entry. rewrite Hx. cbn [must run_bind].
    apply (Hpure (fun p => Prefix_Contains x (p_src p))).
  - apply (Hpure (fun p => p_hasPorts p && (param =? p_dstPort p))).
  - apply (Hpure (fun p => p_hasPorts p && (param =? p_srcPort p))).
  - by apply rule_ok.
Qed.

(** ** The whole program *)

Context (ins : list splitInstr).
Hypothesis code_decodes : decodes (sr_route cfg) 0 ins.
Hypothesis code_checked : Forall (split_instr table_ok) ins.
Hypothesis code_safe : depth_safe 0 ins.
Hypothesis compiled_from : compileSplitRoute (sr_route cfg) = Done (sr_compiled cfg).
Hypothesis decoded_from : compileSplitBytecode (sr_route cfg) = Done (sr_routeProgram cfg, sr_routeStackDepth cfg).

Lemma evalRoute_ok s : eval_ok s ->
  exists slot s', evalRoute cfg w s = Done (slot, s') /\ eval_ok s' /\
    split_reference cfg pkt native (learned cfg a (es_ev s')) ins = Done slot.
Proof.
  intros Hs. unfold evalRoute.
  assert (Htrue : table_ok (op_byte OP_TRUE) 0) by done.
  assert (Hvtrue : forall s, true_holds (split_valuation s)) by done.
  assert (Hrule : forall op param, opcode_of op = Some OP_RULE -> table_ok op param ->
    evaluates eval_ok later (rule cfg w param) (fun sf => split_valuation sf op param)).
  { intros op param Ho Ht. unfold split_valuation, split_value. rewrite Ho. apply rule_ok.
    unfold table_ok in Ht. by rewrite Ho in Ht. }
  assert (Hok : Forall (instr_ok table_ok) ins) by (eapply Forall_impl; [exact code_checked|]; by intros i []).
  destruct (sr_compiled cfg) as [[conds segs]|] eqn:Ec.
  - destruct (compileSplitRoute_sound table_ok Htrue _ _ code_decodes Hok) as (r & Hr & Hcomp).
    rewrite compiled_from in Hr. injection Hr as <-.
    destruct (Hcomp conds segs eq_refl) as (Ha & Hsegs & Hm).
    destruct (routeBySegments_value table_ok eval_ok later split_valuation (atom cfg w) (rule cfg w)
      later_refl later_trans atom_ok Hrule Hvtrue (length conds) conds segs s Ha Hsegs)
      as (slot & s' & -> & Hs' & _ & Hslot); [unfold zlen; lia|done|].
    exists slot, s'. split_and!; [done..|].
    destruct (Hm (split_valuation s') (Hvtrue s')) as (m & Hmach & Hms).
    unfold split_reference. fold (split_valuation s'). rewrite Hmach. simpl.
    by rewrite Hms, (Hslot s' (later_refl s')).
  - destruct (compileSplitBytecode_sound table_ok _ _ code_decodes code_checked code_safe) as (depth & Hd & Hpk).
    rewrite decoded_from in Hd. injection Hd as -> ->.
    destruct (runStack_value table_ok eval_ok later split_valuation (atom cfg w)
      later_refl later_trans atom_ok ins depth s code_checked Hs code_safe Hpk)
      as (slot & s' & -> & Hs' & _ & Hm).
    exists slot, s'. split_and!; [done..|].
    destruct (Hm s' (later_refl s')) as (m & Hmach & Hms).
    unfold split_reference. fold (split_valuation s'). rewrite Hmach. simpl. by rewrite Hms.
Qed.
End Evaluation.

(** ** Accepted routers *)

(** What the constructor guarantees of everything but the matchers and caches. *)
Record split_accepted (r : bytecodeSplitRouter) (ins : list splitInstr) : Prop := MkSplitAccepted {
  sa_regexps : Forall is_Some (t_regexps (sr_tables r));
  sa_subnets : sr_splitSubnets r = compileSplitIPv4Subnets (t_ipv4Subnets (sr_tables r));
  sa_decodes : decodes (sr_route r) 0 ins;
  sa_checked : Forall (split_instr (table_ok r)) ins;
  sa_safe : depth_safe 0 ins;
  sa_compiled : compileSplitRoute (sr_route r) = Done (sr_compiled r);
  sa_program : compileSplitBytecode (sr_route r) = Done (sr_routeProgram r, sr_routeStackDepth r);
  sa_slots : forall slot, mentions RouterSlots [] ins slot -> slot ∈ sr_mentionedSlots r }.

Definition slot_ok (r : bytecodeSplitRouter) (slot : Z) : Prop :=
  0 <= slot <= RouterSlots /\ (slot = 0 \/ slot ∈ sr_mentionedSlots r).

Lemma validateSplitOp_instr r rules i :
  checked (validateSplitOp (sr_tables r) rules) i -> split_instr (table_ok r) i.
Proof.
  intros ([o Ho] & Hp & pc & Hv). unfold validateSplitOp, check_index in Hv. inv_result.
  unfold isRouterMethodOp, isSnifferOnlyOp, isDNSOnlyOp, param_kind in *.
  unfold split_instr, instr_ok, is_atom, split_predicate, table_ok. rewrite Ho in *.
  destruct o; try discriminate; (split; [split; [done|split]|]); intros Hx; try done; try discriminate Hx;
    inv_result; unfold RouterSlots; try lia; apply index_in_range; lia.
Qed.

Lemma split_instr_fits r v i :
  split_instr (table_ok r) i -> fits (stack_class (in_op i)) (split_action v (in_op i) (in_param i)) = true.
Proof.
  intros [_ Harm]. unfold is_atom, split_predicate, stack_class, split_action in *.
  by destruct (opcode_of (in_op i)) as [[]|]; try discriminate (Harm eq_refl).
Qed.

(** The reference always yields one of the slots of the program. *)
Lemma split_reference_slot r ins pkt native a :
  split_accepted r ins ->
  exists slot, split_reference r pkt native a ins = Done slot /\ slot_ok r slot.
Proof.
  intros []. unfold split_reference.
  destruct (machine_safe (split_action (split_value r pkt native a)) ins []) as (m & -> & Hres).
  { done. }
  { eapply Forall_impl; [exact sa_checked0|]. intros i Hi. by eapply split_instr_fits. }
  simpl. eexists. split; [done|]. unfold slot_ok, RouterSlots. destruct m as [st|slot]; simpl; [lia|].
  destruct Hres as (i & Hi & Ha). rewrite Forall_forall in sa_checked0.
  destruct (sa_checked0 i Hi) as [(Hp & Hs & _) Harm].
  unfold split_action, is_atom, split_predicate in *.
  destruct (opcode_of (in_op i)) as [[]|] eqn:Eo; try discriminate Ha; injection Ha as <-; [lia|].
  specialize (Hs eq_refl). unfold RouterSlots in Hs. split; [lia|].
  destruct (decide (in_param i = 0)); [by left|right]. apply sa_slots0.
  split_and!; [lia|unfold RouterSlots; lia|]. exists i. split; [done|]. unfold instr_slot. by rewrite Eo.
Qed.

(** Nothing of this depends on the matchers or the caches. *)
Lemma split_accepted_caches r rules routes ins :
  split_accepted r ins -> split_accepted (set_caches r rules routes) ins.
Proof. by intros []; split. Qed.

Lemma split_accepted_matchers r ms ins :
  split_accepted r ins -> split_accepted (set_matchers r ms) ins.
Proof. by intros []; split. Qed.

Lemma machine_ext {R} (act act' : byte -> Z -> action R) ins st :
  Forall (fun i => act (in_op i) (in_param i) = act' (in_op i) (in_param i)) ins ->
  machine act ins st = machine act' ins st.
Proof.
  intros Hall. revert st. unfold machine. induction Hall as [|i ins Hi Hall IH]; intros st; [done|].
  cbn [run_instrs]. rewrite Hi. destruct (machine_step _ _) as [[st'|r]| |]; cbn [run_bind]; auto.
Qed.

(** The reference looks only at the answers of the rules of the program. *)
Lemma split_reference_ext r ins pkt pkt' native native' a a' :
  split_accepted r ins ->
  (forall op param, 0 <= param -> split_value r pkt native a op param = split_value r pkt' native' a' op param) ->
  split_reference r pkt native a ins = split_reference r pkt' native' a' ins.
Proof.
  intros [] Hv. unfold split_reference.
  rewrite (machine_ext _ (split_action (split_value r pkt' native' a'))); [done|].
  eapply Forall_impl; [exact sa_checked0|]. intros i [(Hp & _) _]. unfold split_action. rewrite Hv; [done|lia].
Qed.

(** ** Route *)

(** One call, given what is known of the two caches. *)
Section RouteCall.
Context (r : bytecodeSplitRouter) (w : world) (ins : list splitInstr).
Context (okAnswer : parsedIPPacket -> Z -> bool -> Prop) (okCache : splitRuleCacheKey -> bool -> Prop)
  (okRoute : splitRouteCacheKey -> Z -> Prop).

Hypothesis accepted : split_accepted r ins.
Hypothesis ok_skip : forall pkt idx, ~ (exists m, eligible r pkt idx m) -> okAnswer pkt idx false.
Hypothesis ok_match : forall pkt idx m n, eligible r pkt idx m ->
  match m_Match m n (flow_of pkt) with
  | Some b => okAnswer pkt idx b /\ okCache (packet_key pkt idx) b
  | None => okAnswer pkt idx false
  end.
Hypothesis ok_hit : forall pkt idx m b, eligible r pkt idx m -> okCache (packet_key pkt idx) b -> okAnswer pkt idx b.
Hypothesis rules_ok : forall c, sr_ruleCache r = Some c -> cache_all okCache c.
Hypothesis routes_ok : forall c, sr_routeCache r = Some c -> cache_all okRoute c.

(** The state at the end of the evaluation of a packet. *)
Definition evaluated (pkt : parsedIPPacket) (native : bool) (slot : Z) (s : evalState) : Prop :=
  exists data, eval_ok r w pkt data native (okAnswer pkt) okCache s /\
  forall a, split_reference r pkt native (learned r a (es_ev s)) ins = Done slot.

Hypothesis ok_store : forall pkt native slot s, evaluated pkt native slot s ->
  sv_cacheable (es_ev s) = true -> okRoute (splitRouteCacheKeyFromPacket pkt native) slot.

Lemma evaluation_ok buf offset pkt data native tick :
  parseIPPacket buf offset = Done (Some pkt) -> cut buf offset (offset + p_total pkt) = Done data ->
  exists slot s, evalRoute r w (MkState (newSplitEval native pkt data) (sr_ruleCache r) tick) = Done (slot, s) /\
    evaluated pkt native slot s.
Proof.
  intros Hparse Hcut. destruct accepted.
  destruct (parseIPPacket_spec buf offset) as (o & Ho & Hp). rewrite Hparse in Ho. injection Ho as <-.
  destruct Hp as (bytes & Hbytes & Hr & Hpo).
  destruct (packet_data _ _ _ _ Hbytes Hr Hpo) as (data' & Hd & Hd').
  unfold cut in Hcut. rewrite Hd in Hcut. injection Hcut as ->.
  assert (Hflow : p_flowOK pkt = true -> FlowTupleFromOutgoingIPPacket data = Done (Success (flow_of pkt)))
    by (intros Hf; by apply (po_flow _ _ Hpo Hf)).
  assert (Hs : eval_ok r w pkt data native (okAnswer pkt) okCache
    (MkState (newSplitEval native pkt data) (sr_ruleCache r) tick)).
  { split; simpl; try done; [by left|]. intros idx b Hi. unfold rule_memo. simpl.
    rewrite Z.testbit_0_l. by destruct (idx <? 64). }
  assert (Hrun : forall a, exists slot s,
    evalRoute r w (MkState (newSplitEval native pkt data) (sr_ruleCache r) tick) = Done (slot, s) /\
    eval_ok r w pkt data native (okAnswer pkt) okCache s /\
    split_reference r pkt native (learned r a (es_ev s)) ins = Done slot).
  { intros a. eapply (evalRoute_ok r w pkt data native (okAnswer pkt) okCache); try done; eauto.
    - apply ok_match.
    - apply (po_family _ _ Hpo). }
  destruct (Hrun (MkAnswers (fun _ => false) [] [])) as (slot & s & Heq & Hok & _).
  exists slot, s. split; [done|]. exists data. split; [done|]. intros a.
  destruct (Hrun a) as (slot' & s' & Heq' & _ & Href). rewrite Heq in Heq'. by injection Heq' as <- <-.
Qed.

Lemma Route_ok buf offset native tick :
  exists slot rules routes tick', Route r w buf offset native tick
    = Done (slot, set_caches r rules routes, tick') /\
  (forall c, rules = Some c -> cache_all okCache c) /\
  (forall c, routes = Some c -> cache_all okRoute c) /\
  match parseIPPacket buf offset with
  | Done (Some pkt) =>
      okRoute (splitRouteCacheKeyFromPacket pkt native) slot \/ (exists s, evaluated pkt native slot s)
  | _ => slot = 0
  end.
Proof.
  unfold Route. destruct (parseIPPacket_spec buf offset) as (o & Ho & Hp). rewrite Ho. cbn [run_bind].
  destruct o as [pkt|].
  2:{ exists 0, (sr_ruleCache r), (sr_routeCache r), tick. split; [by destruct r|]. auto. }
  destruct Hp as (bytes & Hbytes & Hr & Hpo).
  destruct (packet_data _ _ _ _ Hbytes Hr Hpo) as (data & Hd & Hd').
  assert (Hcut : cut buf offset (offset + p_total pkt) = Done data) by (unfold cut; by rewrite Hd).
  set (key := splitRouteCacheKeyFromPacket pkt native).
  case_eq (sr_routeCache r); [intros c Ec|intros Ec].
  - destruct (cache_all_get okRoute key (w_now w tick) c (routes_ok c Ec)) as [Hall Hhit].
    destruct (cache_get key (w_now w tick) c) as [hit c'] eqn:Eg. simpl in Hall, Hhit.
    destruct hit as [got|].
    { exists got, (sr_ruleCache r), (Some c'), (S tick). split; [done|].
      split_and!; [done|by intros ? [= <-]|]. left. by apply Hhit. }
    rewrite Hcut. cbn [run_bind].
    destruct (evaluation_ok buf offset pkt data native (S tick) Ho Hcut) as (slot & s & -> & Hev).
    pose proof Hev as (? & Hs & _). cbn [run_bind].
    destruct (sv_cacheable (es_ev s)) eqn:Ecache; do 4 eexists; (split; [done|]); split_and!;
      try (apply (eo_rules _ _ _ _ _ _ _ _ Hs)); try (right; by exists s); intros ? [= <-]; [|done].
    apply cache_all_set; [done|]. by eapply ok_store.
  - rewrite Hcut. cbn [run_bind].
    destruct (evaluation_ok buf offset pkt data native tick Ho Hcut) as (slot & s & -> & Hev).
    pose proof Hev as (? & Hs & _). cbn [run_bind]. do 4 eexists. split; [done|]. split_and!;
      [apply (eo_rules _ _ _ _ _ _ _ _ Hs)|done|right; by exists s].
Qed.
End RouteCall.

(** ** The life of a router *)

Inductive split_step : bytecodeSplitRouter * nat -> bytecodeSplitRouter * nat -> Prop :=
| step_route r tick w buf offset native slot r' tick' :
    Route r w buf offset native tick = Done (slot, r', tick') ->
    split_step (r, tick) (r', tick')
| step_close r tick : split_step (r, tick) ((Close r).1.2, tick).

(** The invariant: the caches hold only results with the given properties. *)
Definition caches_ok (okCache : splitRuleCacheKey -> bool -> Prop) (okRoute : splitRouteCacheKey -> Z -> Prop)
    (r : bytecodeSplitRouter) : Prop :=
  (forall c, sr_ruleCache r = Some c -> cache_all okCache c) /\
  (forall c, sr_routeCache r = Some c -> cache_all okRoute c).

Lemma Close_caches okCache okRoute r : caches_ok okCache okRoute (Close r).1.2.
Proof.
  split; simpl; intros c Hc; apply fmap_Some in Hc as (c0 & _ & ->); apply cache_all_clear.
Qed.

Lemma Close_accepted r ins : split_accepted r ins -> split_accepted (Close r).1.2 ins.
Proof. intros Ha. by apply split_accepted_caches, split_accepted_matchers. Qed.

(** ** Answers that do not change *)

Definition stationary (ms : list (option matcher)) : Prop :=
  forall m, Some m ∈ ms -> forall n n' flow, m_Match m n flow = m_Match m n' flow.

(** The answer of a rule for a packet; an error is false. *)
Definition rule_answer (ms : list (option matcher)) (pkt : parsedIPPacket) (idx : Z) : bool :=
  match index ms idx with
  | Some (Some m) => p_hasPorts pkt && p_flowOK pkt &&
      match m_Match m 0 (flow_of pkt) with Some b => b | None => false end
  | _ => false
  end.

(** The answers of the rules and of the DNS cache for a packet. *)
Definition split_answers (r : bytecodeSplitRouter) (pkt : parsedIPPacket) (dns : storage_view) (now : Z)
  : splitAnswers :=
  MkAnswers (rule_answer (sr_matchers r) pkt)
    (if src_enabled r then CachedReverseDNSNames (Some dns) (p_src pkt) now else [])
    (if dst_enabled r then CachedReverseDNSNames (Some dns) (p_dst pkt) now else []).

(** The flow of a rule-cache key. *)
Definition key_flow (k : splitRuleCacheKey) : FlowTuple :=
  MkFlowTuple (if rk_proto k =? 6 then "tcp" else "udp")
    (addr_bytes (rk_src k)) (rk_srcPort k) (addr_bytes (rk_dst k)) (rk_dstPort k).

Definition rule_entry_ok (ms : list (option matcher)) (k : splitRuleCacheKey) (b : bool) : Prop :=
  forall m, index ms (rk_rule k) = Some (Some m) -> forall n, m_Match m n (key_flow k) = Some b.

(** A cached slot is the reference for every packet with that key, whatever the
    DNS cache holds. *)
Definition route_entry_ok (r : bytecodeSplitRouter) (ins : list splitInstr) (k : splitRouteCacheKey) (slot : Z) : Prop :=
  forall pkt native src dst, splitRouteCacheKeyFromPacket pkt native = k ->
  split_reference r pkt native
    (MkAnswers (rule_answer (sr_matchers r) pkt)
       (if src_enabled r then src else []) (if dst_enabled r then dst else [])) ins = Done slot.

Lemma route_key_inj p n p' n' :
  splitRouteCacheKeyFromPacket p n = splitRouteCacheKeyFromPacket p' n' ->
  n = n' /\ p_hasPorts p = p_hasPorts p' /\ p_flowOK p = p_flowOK p' /\ p_proto p = p_proto p' /\
  p_src p = p_src p' /\ p_dst p = p_dst p' /\ p_srcPort p = p_srcPort p' /\ p_dstPort p = p_dstPort p'.
Proof.
  unfold splitRouteCacheKeyFromPacket. intros [= Hpr Hfl Hs Hd Hsp Hdp].
  destruct n, n', (p_hasPorts p), (p_hasPorts p'), (p_flowOK p), (p_flowOK p');
    vm_compute in Hfl; try discriminate Hfl; auto 10.
Qed.

Lemma flow_of_key p p' :
  p_proto p = p_proto p' -> p_src p = p_src p' -> p_dst p = p_dst p' ->
  p_srcPort p = p_srcPort p' -> p_dstPort p = p_dstPort p' -> flow_of p = flow_of p'.
Proof. unfold flow_of. by intros -> -> -> -> ->. Qed.

(** Packets with one key have the same reference. *)
Lemma reference_key r ins p n p' n' src dst :
  split_accepted r ins -> splitRouteCacheKeyFromPacket p n = splitRouteCacheKeyFromPacket p' n' ->
  split_reference r p n (MkAnswers (rule_answer (sr_matchers r) p) src dst) ins =
  split_reference r p' n' (MkAnswers (rule_answer (sr_matchers r) p') src dst) ins.
Proof.
  intros Ha Hk. destruct (route_key_inj _ _ _ _ Hk) as (Hn & Hp & Hf & Hpr & Hs & Hd & Hsp & Hdp).
  apply (split_reference_ext r ins p p'); [done|]. intros op param _. unfold split_value, rule_answer. simpl.
  by rewrite Hn, Hp, Hf, Hpr, Hs, Hd, Hsp, Hdp, (flow_of_key p p').
Qed.

Section Stationary.
Context (r : bytecodeSplitRouter) (ins : list splitInstr).
Hypothesis accepted : split_accepted r ins.
Hypothesis matchers_stationary : stationary (sr_matchers r).

Definition answer_ok (pkt : parsedIPPacket) (idx : Z) (b : bool) : Prop :=
  b = rule_answer (sr_matchers r) pkt idx.

Lemma eligible_answer pkt idx m : eligible r pkt idx m ->
  rule_answer (sr_matchers r) pkt idx = match m_Match m 0 (flow_of pkt) with Some b => b | None => false end.
Proof. intros (Hm & Hp & Hf). unfold rule_answer. by rewrite Hm, Hp, Hf. Qed.

Lemma stationary_skip pkt idx : ~ (exists m, eligible r pkt idx m) -> answer_ok pkt idx false.
Proof.
  intros Hno. unfold answer_ok, rule_answer. destruct (index (sr_matchers r) idx) as [[m|]|] eqn:Em; try done.
  destruct (p_hasPorts pkt) eqn:Ep; [|done]. destruct (p_flowOK pkt) eqn:Ef; [|done].
  destruct Hno. by exists m.
Qed.

Lemma stationary_match pkt idx m n : eligible r pkt idx m ->
  match m_Match m n (flow_of pkt) with
  | Some b => answer_ok pkt idx b /\ rule_entry_ok (sr_matchers r) (packet_key pkt idx) b
  | None => answer_ok pkt idx false
  end.
Proof.
  intros He. pose proof He as (Hm & _). unfold answer_ok. rewrite (eligible_answer _ _ _ He).
  assert (Hst : forall n', m_Match m n' (flow_of pkt) = m_Match m n (flow_of pkt)).
  { intros n'. apply matchers_stationary. by eapply index_elem. }
  rewrite (Hst 0%nat). destruct (m_Match m n (flow_of pkt)) as [b|] eqn:Eb; [|done]. split; [done|].
  intros m' Hm' n'. simpl in Hm'. rewrite Hm in Hm'. injection Hm' as <-.
  change (key_flow (packet_key pkt idx)) with (flow_of pkt). by rewrite Hst.
Qed.

Lemma stationary_hit pkt idx m b :
  eligible r pkt idx m -> rule_entry_ok (sr_matchers r) (packet_key pkt idx) b -> answer_ok pkt idx b.
Proof.
  intros He Hk. pose proof He as (Hm & _). unfold answer_ok. rewrite (eligible_answer _ _ _ He).
  specialize (Hk m Hm 0%nat). change (key_flow (packet_key pkt idx)) with (flow_of pkt) in Hk. by rewrite Hk.
Qed.

(** The reference for the answers of an evaluation is the one for the answers
    of the rules, and for any DNS names when none were read. *)
Lemma learned_reference w pkt data native s src dst :
  eval_ok r w pkt data native (answer_ok pkt) (rule_entry_ok (sr_matchers r)) s ->
  (am_reverseDone (sv_src (es_ev s)) = true -> am_reverseNames (sv_src (es_ev s)) = src) ->
  (am_reverseDone (sv_dst (es_ev s)) = true -> am_reverseNames (sv_dst (es_ev s)) = dst) ->
  let a := MkAnswers (rule_answer (sr_matchers r) pkt) src dst in
  split_reference r pkt native (learned r a (es_ev s)) ins =
  split_reference r pkt native
    (MkAnswers (rule_answer (sr_matchers r) pkt)
       (if src_enabled r then src else []) (if dst_enabled r then dst else [])) ins.
Proof.
  intros Hs Hsrc Hdst a. apply split_reference_ext; [done|]. intros op param Hp.
  assert (Hr : an_rules (learned r a (es_ev s)) param = rule_answer (sr_matchers r) pkt param).
  { simpl. destruct (rule_memo (es_ev s) param) as [b|] eqn:Em; [|done].
    by apply (eo_answers _ _ _ _ _ _ _ _ Hs param b Hp). }
  assert (Hs' : an_src (learned r a (es_ev s)) = if src_enabled r then src else []).
  { simpl. unfold memo_names. destruct (src_enabled r), (am_reverseDone (sv_src (es_ev s))); auto. }
  assert (Hd' : an_dst (learned r a (es_ev s)) = if dst_enabled r then dst else []).
  { simpl. unfold memo_names. destruct (dst_enabled r), (am_reverseDone (sv_dst (es_ev s))); auto. }
  unfold split_value. by rewrite Hr, Hs', Hd'.
Qed.

(** What may be stored in the route cache. *)
Lemma stationary_store w pkt native slot s :
  evaluated r w ins answer_ok (rule_entry_ok (sr_matchers r)) pkt native slot s ->
  sv_cacheable (es_ev s) = true ->
  route_entry_ok r ins (splitRouteCacheKeyFromPacket pkt native) slot.
Proof.
  intros (data & Hs & Href) Hc pkt' native' src dst Hk.
  assert (Hsrc : am_reverseDone (sv_src (es_ev s)) = false).
  { destruct (am_reverseDone (sv_src (es_ev s))) eqn:E; [|done]. destruct (eo_src _ _ _ _ _ _ _ _ Hs) as [_ Hn].
    destruct (Hn E) as (_ & Hf & _). congruence. }
  assert (Hdst : am_reverseDone (sv_dst (es_ev s)) = false).
  { destruct (am_reverseDone (sv_dst (es_ev s))) eqn:E; [|done]. destruct (eo_dst _ _ _ _ _ _ _ _ Hs) as [_ Hn].
    destruct (Hn E) as (_ & Hf & _). congruence. }
  rewrite (reference_key r ins pkt' native' pkt native) by done.
  rewrite <- (learned_reference w pkt data native s src dst Hs) by congruence. apply Href.
Qed.

(** ... and the slot of an evaluated packet. *)
Lemma stationary_slot w pkt native slot s :
  evaluated r w ins answer_ok (rule_entry_ok (sr_matchers r)) pkt native slot s ->
  split_reference r pkt native (split_answers r pkt (w_dns w) (w_packetNow w)) ins = Done slot.
Proof.
  intros (data & Hs & Href). unfold split_answers.
  rewrite <- (learned_reference w pkt data native s _ _ Hs).
  - apply Href.
  - intros Hd. destruct (eo_src _ _ _ _ _ _ _ _ Hs) as [_ Hn]. by destruct (Hn Hd) as (_ & _ & ->).
  - intros Hd. destruct (eo_dst _ _ _ _ _ _ _ _ Hs) as [_ Hn]. by destruct (Hn Hd) as (_ & _ & ->).
Qed.

Lemma Route_stationary w buf offset native tick :
  caches_ok (rule_entry_ok (sr_matchers r)) (route_entry_ok r ins) r ->
  exists slot rules routes tick', Route r w buf offset native tick
    = Done (slot, set_caches r rules routes, tick') /\
  caches_ok (rule_entry_ok (sr_matchers r)) (route_entry_ok r ins) (set_caches r rules routes) /\
  match parseIPPacket buf offset with
  | Done (Some pkt) =>
      split_reference r pkt native (split_answers r pkt (w_dns w) (w_packetNow w)) ins = Done slot
  | _ => slot = 0
  end.
Proof.
  intros [Hrules Hroutes].
  destruct (Route_ok r w ins answer_ok (rule_entry_ok (sr_matchers r)) (route_entry_ok r ins) accepted
    stationary_skip stationary_match stationary_hit Hrules Hroutes (stationary_store w) buf offset native tick)
    as (slot & rules & routes & tick' & Heq & Hr & Ht & Hslot).
  exists slot, rules, routes, tick'. split; [done|]. split; [by split|].
  destruct (parseIPPacket buf offset) as [[pkt|]| |]; try done.
  destruct Hslot as [Hhit|[s Hs]]; [|by eapply stationary_slot].
  by apply Hhit.
Qed.
End Stationary.

(** ** The constructor *)

Lemma new_rule_cache_all (P : splitRuleCacheKey -> bool -> Prop) ttl n c :
  newSplitRuleResultCache ttl n = Some c -> cache_all P c.
Proof. unfold newSplitRuleResultCache. destruct (_ || _); [done|]. by intros [= <-]. Qed.

Lemma new_route_cache_all (P : splitRouteCacheKey -> Z -> Prop) ttl n ttl' n' c :
  newSplitRouteResultCache ttl n ttl' n' = Some c -> cache_all P c.
Proof.
  unfold newSplitRouteResultCache. destruct (if _ && _ then _ else _) as [a b].
  destruct (_ || _); [done|]. by intros [= <-].
Qed.

Section Construction.
Context {Rule : Type}.

(** The matchers of the rules, up to the first that cannot be built. *)
Lemma build_loop_spec (build : System) i (rules : list Rule) ms err :
  build_loop build i rules = (ms, err) ->
  Forall2 (fun rule m => build rule = Success m) (take (length ms) rules) ms /\
  match err with
  | None => length ms = length rules
  | Some e => exists rule msg, rules !! length ms = Some rule /\ build rule = Failure msg /\
      e = ErrBuildMatcher (i + zlen ms) msg
  end.
Proof.
  revert i ms. induction rules as [|rule rules IH]; intros i ms; simpl.
  { intros [= <- <-]. by split; [constructor|]. }
  destruct (build rule) as [m|msg] eqn:Eb.
  - destruct (build_loop build (i + 1) rules) as [ms' err'] eqn:El. intros [= <- <-].
    destruct (IH (i + 1) ms' El) as [Hall Herr]. simpl. split; [by constructor|].
    destruct err' as [e|]; [|lia]. destruct Herr as (r & msg & ? & ? & ->). exists r, msg.
    split_and!; try done. f_equal. rewrite zlen_cons. lia.
  - intros [= <- <-]. simpl. split; [constructor|]. exists rule, msg. split_and!; try done.
    unfold zlen. simpl. by rewrite Z.add_0_r.
Qed.

(** What a returned router satisfies. *)
Record constructed (rules : SplitBytecodeRules (Rule:=Rule)) (r : bytecodeSplitRouter) : Prop := MkConstructed {
  co_route : sr_route r = sb_Route rules;
  co_accepted : exists ins, split_accepted r ins;
  co_caches : forall okCache okRoute, caches_ok okCache okRoute r;
  co_matchers : exists build, sb_System rules = Some build /\
    Forall2 (fun rule m => build rule = Success m) (sb_Rules rules) (sr_matchers r) }.

Lemma NewBytecodeSplitRouter_spec (rules : SplitBytecodeRules (Rule:=Rule)) :
  exists res closed, NewBytecodeSplitRouter rules = Done (res, closed) /\
  match res with
  | Success r => closed = [] /\ constructed rules r
  | Failure (ErrBuildMatcher i msg) => exists build built rule,
      sb_System rules = Some build /\ i = zlen built /\
      Forall2 (fun rule m => build rule = Success m) (take (length built) (sb_Rules rules)) built /\
      sb_Rules rules !! length built = Some rule /\ build rule = Failure msg /\
      closed = open_matchers built
  | Failure _ => closed = []
  end.
Proof.
  unfold NewBytecodeSplitRouter, validateSplit.
  destruct (sb_System rules) as [build|] eqn:Esys; [|by do 2 eexists].
  destruct (validateRegexps _) as [[]|e] eqn:Ere; [|by do 2 eexists].
  destruct (validateTables _ _ _) as [[]|e]; [|by do 2 eexists].
  destruct (validateBytecode_sound "SplitRoute" (sb_Route rules)
    (validateSplitOp (sb_tables rules) (zlen (sb_Rules rules)))) as (v & -> & Hv).
  cbn [run_bind]. destruct v as [[]|e]; cbn [run_bind]; [|by do 2 eexists].
  destruct (Hv eq_refl) as (ins & Hdec & Hall & Hsafe). clear Hv.
  rewrite (bytecodeAddrStringOps_spec _ ins Hdec). cbn [run_bind].
  set (t := sb_tables rules) in *.
  assert (Hinstr : forall r, sr_tables r = t -> Forall (split_instr (table_ok r)) ins).
  { intros r Hr. eapply Forall_impl; [exact Hall|]. intros i Hi. rewrite <- Hr in Hi.
    by eapply validateSplitOp_instr. }
  pose (r0 := MkSplitRouter t [] [] [] 0 None (MkStringOps false false) false [] [] None None).
  destruct (compileSplitBytecode_sound (table_ok r0) _ _ Hdec (Hinstr r0 eq_refl) Hsafe) as (depth & Hprog & _).
  rewrite Hprog. cbn [run_bind].
  assert (Hok : Forall (instr_ok (table_ok r0)) ins)
    by (eapply Forall_impl; [exact (Hinstr r0 eq_refl)|]; by intros i []).
  destruct (compileSplitRoute_sound (table_ok r0) I _ _ Hdec Hok) as (compiled & Hcomp & _).
  rewrite Hcomp. cbn [run_bind].
  destruct (build_loop build 0 (sb_Rules rules)) as [ms err] eqn:Eb.
  destruct (build_loop_spec _ _ _ _ _ Eb) as [Hms Herr]. destruct err as [e|].
  { destruct Herr as (rule & msg & Hrule & Hfail & ->). do 2 eexists. split; [done|].
    exists build, ms, rule. by rewrite Z.add_0_l. }
  destruct (mentionedBytecodeSlots_spec RouterSlots [] [sb_Route rules] [ins]) as (slots & Hslots & Hspec);
    [done|constructor|repeat constructor; [done|by eapply checked_param_nonneg]|].
  unfold mentionedBytecodeSlots. rewrite Hslots. cbn [run_bind]. do 2 eexists. split; [done|].
  split; [done|]. split; simpl; [done|..].
  - exists ins. split; simpl; try done; [by eapply validateRegexps_ok|by apply Hinstr|].
    intros slot Hm. apply Hspec. exists ins. split; [by left|done].
  - intros okCache okRoute. split; simpl; intros c Hc;
      [by eapply new_rule_cache_all|by eapply new_route_cache_all].
  - exists build. split; [done|]. by rewrite Herr, firstn_all in Hms.
Qed.
End Construction.

(** ** Theorems *)

(** C2. A router that the constructor accepted never panics: after any number
    of Route calls and Close, in any order, Route returns for every buffer,
    offset and native flag, whatever the matchers answer, the clock shows, the
    DNS cache holds and the caches kept, and its slot is 0 or a slot in 1..16
    that the program mentions. *)
Theorem split_route_safe {Rule} (rules : SplitBytecodeRules (Rule:=Rule)) r0 closed t0 r t w buf offset native :
  NewBytecodeSplitRouter rules = Done (Success r0, closed) ->
  rtc split_step (r0, t0) (r, t) ->
  exists slot r' t', Route r w buf offset native t = Done (slot, r', t') /\
    0 <= slot <= RouterSlots /\ (slot = 0 \/ slot ∈ sr_mentionedSlots r0).
Proof.
  intros Hnew Hreach. destruct (NewBytecodeSplitRouter_spec rules) as (res & cl & Hres & Hok).
  rewrite Hnew in Hres. injection Hres as <- <-. destruct Hok as [_ [_ [ins Hacc] Hc0 _]].
  set (P := fun (x : bytecodeSplitRouter * nat) => split_accepted x.1 ins /\
    caches_ok (fun _ _ => True) (fun _ => slot_ok r0) x.1 /\ sr_mentionedSlots x.1 = sr_mentionedSlots r0).
  assert (Hcall : forall r t w buf offset native, P (r, t) ->
    exists slot rules routes t', Route r w buf offset native t = Done (slot, set_caches r rules routes, t') /\
      P (set_caches r rules routes, t') /\ slot_ok r0 slot).
  { clear. intros r t w buf offset native (Ha & [Hr Ht] & Hs). simpl in *.
    assert (Hslot : forall pkt n slot s, evaluated r w ins (fun _ _ _ => True) (fun _ _ => True) pkt n slot s ->
      slot_ok r0 slot).
    { intros pkt n slot s (d & _ & Href).
      destruct (split_reference_slot r ins pkt n (learned r (MkAnswers (fun _ => false) [] []) (es_ev s)) Ha)
        as (slot' & Hs' & Hok). rewrite Href in Hs'. injection Hs' as <-. unfold slot_ok in *. by rewrite Hs in Hok. }
    destruct (Route_ok r w ins (fun _ _ _ => True) (fun _ _ => True) (fun _ => slot_ok r0) Ha) with
      (buf := buf) (offset := offset) (native := native) (tick := t)
      as (slot & rules & routes & t' & Heq & Hr' & Ht' & Hres); try done.
    { intros pkt idx m n _. by destruct (m_Match m n _). }
    { intros. by eapply Hslot. }
    exists slot, rules, routes, t'. split; [done|]. split; [split_and!; [by apply split_accepted_caches|done|done]|].
    destruct (parseIPPacket buf offset) as [[pkt|]| |]; [destruct Hres as [|[s Hs']]; [done|by eapply Hslot]|..];
      subst slot; unfold slot_ok, RouterSlots; (split; [lia|by left]). }
  assert (HP : P (r, t)).
  { eapply (rtc_ind_l (fun x => P x -> P (r, t))); [done| |exact Hreach|].
    - intros x y Hstep _ IH HPx. apply IH. destruct Hstep as [r1 t1 w1 b1 o1 n1 slot r2 t2 Hroute|r1 t1].
      + destruct (Hcall r1 t1 w1 b1 o1 n1 HPx) as (slot' & rules' & routes' & t' & Heq & HP' & _).
        rewrite Hroute in Heq. by injection Heq as -> -> ->.
      + destruct HPx as (Ha & _ & Hs). split_and!; [by apply Close_accepted|apply Close_caches|done].
    - split_and!; [done|apply Hc0|done]. }
  destruct (Hcall r t w buf offset native HP) as (slot & rules' & routes' & t' & Heq & _ & Hslot & Hm).
  eauto 10.
Qed.

(** C1. The caches and the compiled form do not show: with matchers whose
    answers do not change with time, after any number of Route calls and Close,
    Route returns exactly what the reference stack machine computes on the
    decoded program from the parsed packet, the answers of the current matchers
    (an error counts as false) and the names in the DNS cache at the time of
    the call; a buffer that is no IP packet gets slot 0. *)
Theorem split_route_reference {Rule} (rules : SplitBytecodeRules (Rule:=Rule)) build r0 closed t0 r t w buf offset native :
  NewBytecodeSplitRouter rules = Done (Success r0, closed) ->
  sb_System rules = Some build ->
  (forall rule m, build rule = Success (Some m) -> forall n n' flow, m_Match m n flow = m_Match m n' flow) ->
  rtc split_step (r0, t0) (r, t) ->
  exists ins slot r' t', decodes (sb_Route rules) 0 ins /\
    Route r w buf offset native t = Done (slot, r', t') /\
    match parseIPPacket buf offset with
    | Done (Some pkt) =>
        split_reference r pkt native (split_answers r pkt (w_dns w) (w_packetNow w)) ins = Done slot
    | _ => slot = 0
    end.
Proof.
  intros Hnew Hsys Hstat Hreach. destruct (NewBytecodeSplitRouter_spec rules) as (res & cl & Hres & Hok).
  rewrite Hnew in Hres. injection Hres as <- <-. destruct Hok as [_ [Hroute [ins Hacc] Hc0 (build' & Hb & Hms)]].
  rewrite Hsys in Hb. injection Hb as <-.
  set (P := fun (x : bytecodeSplitRouter * nat) => split_accepted x.1 ins /\ stationary (sr_matchers x.1) /\
    caches_ok (rule_entry_ok (sr_matchers x.1)) (route_entry_ok x.1 ins) x.1).
  assert (HP : P (r, t)).
  { eapply (rtc_ind_l (fun x => P x -> P (r, t))); [done| |exact Hreach|].
    - intros x y Hstep _ IH HPx. apply IH. destruct Hstep as [r1 t1 w1 b1 o1 n1 slot r2 t2 Hcall|r1 t1].
      + destruct HPx as (Ha & Hst & Hc). simpl in *.
        destruct (Route_stationary r1 ins Ha Hst w1 b1 o1 n1 t1 Hc) as (slot' & rules' & routes' & t' & Heq & Hc' & _).
        rewrite Hcall in Heq. injection Heq as -> -> ->. split_and!; [by apply split_accepted_caches|done|done].
      + destruct HPx as (Ha & _ & _). split_and!; [by apply Close_accepted| |apply Close_caches].
        intros m Hm. simpl in Hm. by apply not_elem_of_nil in Hm.
    - split_and!; [done| |apply Hc0]. intros m Hm. apply list_elem_of_lookup in Hm as [i Hm].
      destruct (Forall2_lookup_r _ _ _ _ _ Hms Hm) as (rule & _ & Hb). by eapply Hstat. }
  destruct HP as (Ha & Hst & Hc). simpl in *.
  destruct (Route_stationary r ins Ha Hst w buf offset native t Hc)
    as (slot & rules' & routes' & t' & Heq & _ & Hslot).
  exists ins, slot, (set_caches r rules' routes'), t'. split_and!; try done.
  rewrite <- Hroute. apply (sa_decodes _ _ Hacc).
Qed.

(** The constructor always returns, and it never leaks a matcher: when
    the host cannot build the matcher of rule [i], exactly the matchers of the
    rules before [i] are closed; in every other case it closes none, and a
    returned router owns one matcher per rule, built by the host. *)
Theorem split_constructor_closes {Rule} (rules : SplitBytecodeRules (Rule:=Rule)) :
  exists res closed, NewBytecodeSplitRouter rules = Done (res, closed) /\
  match res with
  | Success r => closed = [] /\ exists build, sb_System rules = Some build /\
      Forall2 (fun rule m => build rule = Success m) (sb_Rules rules) (sr_matchers r)
  | Failure (ErrBuildMatcher i msg) => exists build built rule,
      sb_System rules = Some build /\ i = zlen built /\
      Forall2 (fun rule m => build rule = Success m) (take (length built) (sb_Rules rules)) built /\
      sb_Rules rules !! length built = Some rule /\ build rule = Failure msg /\
      closed = open_matchers built
  | Failure _ => closed = []
  end.
Proof.
  destruct (NewBytecodeSplitRouter_spec rules) as (res & closed & Hnew & Hres).
  exists res, closed. split; [done|]. destruct res as [r|e]; [|done].
  destruct Hres as [-> []]. auto.
Qed.

(** ** Witnesses *)

(** A matcher that claims every UDP flow to port 53. *)
Definition dns_matcher : matcher :=
  MkMatcher (fun _ flow => Some (String.eqb (ft_Proto flow) "udp" && (ft_RemotePort flow =? 53))) [].

(** "RULE 0 SLOT 2; UDP SLOT 3" *)
Definition sample_split_route : list byte :=
  [op_byte OP_RULE; x00; x00; op_byte OP_SLOT; x02; op_byte OP_UDP; op_byte OP_SLOT; x03].

Definition sample_split_rules : SplitBytecodeRules (Rule:=unit) :=
  MkSplitRules (Some (fun _ => Success (Some dns_matcher))) [tt] 0 0 0 0
    (MkTables [] [] [] [] [] []) false sample_split_route.

Definition sample_split_router : bytecodeSplitRouter :=
  match NewBytecodeSplitRouter sample_split_rules with
  | Done (Success r, _) => r
  | _ => MkSplitRouter (MkTables [] [] [] [] [] []) [] [] [] 0 None (MkStringOps false false) false [] [] None None
  end.

Definition sample_world : world :=
  MkWorld (fun n => 1000 + Z.of_nat n) 1000 (fun _ _ => None) any_order any_order.

Lemma sample_split_accepted : NewBytecodeSplitRouter sample_split_rules = Done (Success sample_split_router, []).
Proof. vm_compute. reflexivity. Qed.

Lemma split_route_safe_witness :
  exists slot r' t', Route sample_split_router sample_world sample_udp4 2 true 0 = Done (slot, r', t') /\
    0 <= slot <= RouterSlots /\ (slot = 0 \/ slot ∈ sr_mentionedSlots sample_split_router).
Proof.
  apply (split_route_safe sample_split_rules sample_split_router [] 0 sample_split_router 0).
  - vm_compute. reflexivity.
  - apply rtc_refl.
Defined.

Lemma split_route_reference_witness :
  exists ins slot r' t', decodes sample_split_route 0 ins /\
    Route sample_split_router sample_world sample_udp4 2 true 0 = Done (slot, r', t') /\
    match parseIPPacket sample_udp4 2 with
    | Done (Some pkt) =>
        split_reference sample_split_router pkt true
          (split_answers sample_split_router pkt (w_dns sample_world) (w_packetNow sample_world)) ins = Done slot
    | _ => slot = 0
    end.
Proof.
  apply (split_route_reference sample_split_rules (fun _ => Success (Some dns_matcher))
    sample_split_router [] 0 sample_split_router 0).
  - vm_compute. reflexivity.
  - reflexivity.
  - intros rule m [= <-]. reflexivity.
  - apply rtc_refl.
Defined.

(** The matcher routes the sample datagram, and the second packet of the flow
    is answered from the route cache. *)
Example sample_routed :
  match Route sample_split_router sample_world sample_udp4 2 true 0 with
  | Done (slot, r', t') =>
      slot = 2 /\
      match Route (set_matchers r' []) sample_world sample_udp4 2 true t' with
      | Done (slot', _, _) => slot' = 2
      | _ => False
      end
  | _ => False
  end.
Proof. vm_compute. split; reflexivity. Qed.
