(* ===== verification/SnifferRules.v ===== *)
(** * The bytecode controls of the sniffer

    Models src/routing/sniffer_bytecode.go: the route actions with the changes
    they make to a call, the validation of the classifiers and of the two
    programs, and the evaluator behind Control and SniffControl.  The stack and
    predicate arms that the evaluator shares with the remapper are
    [common_step].

    The theorems: accepted controls never panic, route only to slots that
    MentionedSlots reports, intercept only from Control, and change the call
    only by the action of the ROUTE instruction that was taken; and SniffControl
    takes the first terminal instruction of the reference machine. *)

From S2P Require Import Prelude GoStd NetIP DNSCache Bytecode Machine AddrCache.
From S2P Require Import Scans RouterCfg.

(** ** Arms shared by the evaluators of calls *)

Section Common.
Context `{HostEnv}.

Definition common_step {R} (t : tables) (op : byte) (param : Z) (s : bytecodeEval * list bool)
  : run (ctl (bytecodeEval * list bool) R) :=
  let '(ev, stack) := s in
  match opcode_of op with
  | Some OP_TRUE => Done (Continue (ev, true :: stack))
  | Some OP_FALSE => Done (Continue (ev, false :: stack))
  | Some OP_NOT =>
      let! '(v, stack) := popBool stack in Done (Continue (ev, negb v :: stack))
  | Some OP_AND =>
      let! '(b, stack) := popBool stack in
      let! '(a, stack) := popBool stack in
      Done (Continue (ev, (a && b) :: stack))
  | Some OP_OR =>
      let! '(b, stack) := popBool stack in
      let! '(a, stack) := popBool stack in
      Done (Continue (ev, (a || b) :: stack))
  | Some op' =>
      match evalPredicate t op' param ev with
      | Some r => let! '(v, ev) := r in Done (Continue (ev, v :: stack))
      | None => Done (Continue (ev, stack))
      end
  | None => Done (Continue (ev, stack))
  end.

Definition common_action {R} (t : tables) (e : bytecodeEval) (op : byte) (param : Z) : action R :=
  match opcode_of op with
  | Some OP_TRUE => ActPush true
  | Some OP_FALSE => ActPush false
  | Some OP_NOT => ActNot
  | Some OP_AND => ActAnd
  | Some OP_OR => ActOr
  | Some op' => if has_predicate op' then ActPush (predicateValue t e op' param) else ActNone
  | None => ActNone
  end.

Lemma common_step_refines {R} t e0 op param :
  Forall is_Some (t_regexps t) -> 0 <= param ->
  step_refines (R := R) (fun s => eval_inv e0 s.1) snd (common_step t op param) (common_action t e0 op param).
Proof.
  intros Hre Hp [e stack] Hinv. simpl in Hinv. unfold common_step, common_action.
  destruct (opcode_of op) as [o|]; [|by exists (e, stack)].
  destruct (has_predicate o) eqn:Eo.
  - pose proof (proj2 (evalPredicate_has t o param e) Eo) as [r Hr].
    destruct (evalPredicate_value t e0 e o param r Hre Hp Hinv Hr) as (e' & Hv & Hinv').
    destruct o; try discriminate Eo; rewrite Hr, Hv; by eexists (e', _).
  - destruct o; try discriminate Eo; simpl; try (by eexists);
      (destruct stack as [|? [|? ?]]; simpl; by try eexists).
Qed.
End Common.

(** A terminal: pop the condition, return when it holds. *)
Definition terminal_step {E R} (r : run R) (s : E * list bool) : run (ctl (E * list bool) R) :=
  let '(ev, stack) := s in
  let! '(v, stack) := popBool stack in
  if (v : bool) then let! x := r in Done (Return x) else Done (Continue (ev, stack)).

Lemma terminal_step_refines {E R} (inv : E -> Prop) (r : run R) x :
  r = Done x -> step_refines (fun s => inv s.1) snd (terminal_step r) (ActReturn x).
Proof. intros -> [e stack] Hinv. destruct stack as [|[] st]; simpl; [done|done|by exists (e, st)]. Qed.

(** ** Calls and actions *)

(** The operations of sniffer.Operation that the evaluator distinguishes; any
    other string is [OpOther]. *)
Inductive Operation : Type :=
| OpDial | OpListen | OpPacketDial | OpListenPacket | OpDialTCP | OpListenTCP
| OpDialUDP | OpListenUDP | OpListenPacketConfig | OpListenUDPConfig | OpListenMulticastUDP
| OpLookupIP | OpLookupIPAddr | OpLookupNetIP | OpLookupHost | OpLookupAddr | OpLookupCNAME
| OpLookupPort | OpLookupNS | OpLookupMX | OpLookupSRV | OpLookupTXT
| OpInterfaces | OpInterfaceAddrs | OpInterfaceMcast | OpInterfacesByIndex | OpInterfacesByName
| OpOther (name : string).

(** The fields of sniffer.Call that rules read or write. *)
Record Call : Type := MkCall {
  c_Operation : Operation; c_Network : string; c_Src : string; c_Dst : string;
  c_Host : string; c_Service : string; c_Proto : string }.

Record Action : Type := MkAction { a_Slot : Z; a_Intercept : bool }.

Definition RejectSlot : Z := 0.
Definition NoMatch : Z := -1.
Definition maxSnifferBytecodeSlot : Z := 255.

Record SniffResult : Type := MkSniffResult { r_Index : Z; r_Err : option string }.

(** [Some v] is a value that is set. *)
Record SnifferCallMutation : Type := MkMutation {
  mu_Network : option string; mu_Src : option string; mu_Dst : option string;
  mu_SrcAddr : option string; mu_SrcPort : option string;
  mu_DstAddr : option string; mu_DstPort : option string;
  mu_Host : option string; mu_Service : option string; mu_Proto : option string }.

(** [Slot] is a uint8. *)
Record SnifferRouteAction : Type := MkRouteAction { ra_Slot : byte; ra_Mutation : SnifferCallMutation }.

Definition replaceEndpointAddr (endpoint addr : string) : string :=
  match SplitHostPort endpoint with
  | None => addr
  | Some (_, port) => JoinHostPort addr port
  end.

Definition replaceEndpointPort (endpoint port : string) : string :=
  match SplitHostPort endpoint with
  | None => endpoint
  | Some (host, _) => JoinHostPort host port
  end.

Definition written (v : option string) (old : string) : string :=
  match v with Some x => x | None => old end.

Definition edited (f : string -> string -> string) (v : option string) (old : string) : string :=
  match v with Some x => f old x | None => old end.

Definition applySnifferCallMutation (call : Call) (mu : SnifferCallMutation) : Call :=
  let src := written (mu_Src mu) (c_Src call) in
  let dst := written (mu_Dst mu) (c_Dst call) in
  let src := edited replaceEndpointAddr (mu_SrcAddr mu) src in
  let src := edited replaceEndpointPort (mu_SrcPort mu) src in
  let dst := edited replaceEndpointAddr (mu_DstAddr mu) dst in
  let dst := edited replaceEndpointPort (mu_DstPort mu) dst in
  MkCall (c_Operation call) (written (mu_Network mu) (c_Network call)) src dst
    (written (mu_Host mu) (c_Host call)) (written (mu_Service mu) (c_Service call))
    (written (mu_Proto mu) (c_Proto call)).

Definition snifferOperationClass (op : Operation) : bool * bool * bool :=
  match op with
  | OpDial | OpPacketDial | OpDialTCP | OpDialUDP => (true, false, false)
  | OpListen | OpListenPacket | OpListenTCP | OpListenUDP | OpListenPacketConfig
  | OpListenUDPConfig | OpListenMulticastUDP => (false, true, false)
  | OpLookupIP | OpLookupIPAddr | OpLookupNetIP | OpLookupHost | OpLookupAddr | OpLookupCNAME
  | OpLookupPort | OpLookupNS | OpLookupMX | OpLookupSRV | OpLookupTXT => (false, false, true)
  | _ => (false, false, false)
  end.

Definition snifferCallAddresses (call : Call) : string * string :=
  if negb (String.eqb (c_Dst call) "") then (c_Src call, c_Dst call)
  else match c_Operation call with
       | OpLookupPort => (c_Src call, c_Service call)
       | OpLookupIP | OpLookupIPAddr | OpLookupNetIP | OpLookupHost | OpLookupAddr | OpLookupCNAME
       | OpLookupNS | OpLookupMX | OpLookupSRV | OpLookupTXT => (c_Src call, c_Host call)
       | _ => (c_Src call, c_Dst call)
       end.

(** ** Classifiers *)

Fixpoint ContainsAny (s chars : string) : bool :=
  match s with
  | EmptyString => false
  | String c s' => contains_char chars c || ContainsAny s' chars
  end.

Definition blanks : string :=
  String (chr 32) (String (chr 9) (String (chr 13) (String (chr 10) EmptyString))).

Definition normalizeSniffClassifierName (name : string) : option string :=
  let name := TrimSpace name in
  if String.eqb name "" then None
  else if ContainsAny name blanks then None
  else Some name.

Section Controls.
Context {Factory : Type}.

Record NamedSniffClassifier : Type := MkClassifier { nc_Name : string; nc_Factory : option Factory }.

(** The loop over the classifiers: normalized names, without nil factories or
    duplicates. *)
Fixpoint validateClassifiers (i : Z) (names : gset string) (cs : list NamedSniffClassifier)
  : result bcError (list NamedSniffClassifier) :=
  match cs with
  | [] => Success []
  | c :: cs' =>
      match normalizeSniffClassifierName (nc_Name c) with
      | None => Failure (ErrClassifierName i)
      | Some name =>
          match nc_Factory c with
          | None => Failure (ErrClassifierFactory name)
          | Some f =>
              if bool_decide (name ∈ names) then Failure (ErrClassifierDuplicate name)
              else try! rest := validateClassifiers (i + 1) ({[name]} ∪ names) cs' in
                   Success (MkClassifier name (Some f) :: rest)
          end
      end
  end.

Record SnifferBytecodeRules : Type := MkSnifferRules {
  sn_Classifiers : list NamedSniffClassifier;
  sn_tables : tables;
  sn_DNSCacheStorage : option storage_view;
  sn_RouteActions : list SnifferRouteAction;
  sn_Control : list byte;
  sn_SniffControl : list byte }.

Record bytecodeSnifferControls : Type := MkControls {
  sc_classifiers : list NamedSniffClassifier;
  sc_tables : tables;
  sc_routeActions : list SnifferRouteAction;
  sc_control : list byte;
  sc_sniffControl : list byte;
  sc_dnsStorage : option storage_view;
  sc_controlStringOps : addrStringOps;
  sc_sniffStringOps : addrStringOps;
  sc_mentionedSlots : list Z }.

Inductive snifferBytecodeProgram : Type := snifferBytecodeControl | snifferBytecodeSniffControl.

(** [fail] unless [bytecodeParamIndex] accepts the parameter. *)
Definition check_param_index {A} (name : string) (pc : Z) (table : bcTable) (entries : list A) (param : Z)
  : result bcError unit :=
  check (negb (bytecodeParamIndex param (zlen entries)).2) (ErrIndexRange name pc table param (zlen entries)).

Definition validateSnifferIndex (t : tables) (classifiers : list NamedSniffClassifier)
    (actions : list SnifferRouteAction) (name : string) (pc : Z) (op : byte) (param : Z)
    (kind : bytecodeParamKind) : result bcError unit :=
  match kind with
  | bytecodeParamNone => Success tt
  | _ =>
      match opcode_of op with
      | Some (OP_ADDR_S | OP_LADDR_S) => check_param_index name pc TblString (t_strings t) param
      | Some (OP_ADDR_RE | OP_LADDR_RE) => check_param_index name pc TblRegexp (t_regexps t) param
      | Some (OP_ADDR4 | OP_LADDR4) => check_param_index name pc TblIPv4 (t_ipv4Addrs t) param
      | Some (OP_ADDR6 | OP_LADDR6) => check_param_index name pc TblIPv6 (t_ipv6Addrs t) param
      | Some (OP_SNET4 | OP_LSNET4) => check_param_index name pc TblSubnet4 (t_ipv4Subnets t) param
      | Some (OP_SNET6 | OP_LSNET6) => check_param_index name pc TblSubnet6 (t_ipv6Subnets t) param
      | Some OP_SNIFF => check_param_index name pc TblClassifier classifiers param
      | Some OP_ROUTE => check_param_index name pc TblRouteAction actions param
      | _ => Success tt
      end
  end.

Definition validateSnifferOp (t : tables) (classifiers : list NamedSniffClassifier)
    (actions : list SnifferRouteAction) (name : string) (program : snifferBytecodeProgram) : opValidator :=
  fun pc op param kind =>
    try! _ := check (isSplitOnlyOp op) (ErrNotValid name pc op) in
    try! _ := check (isDNSOnlyOp op) (ErrNotValid name pc op) in
    try! _ := check (match program, opcode_of op with
                     | snifferBytecodeControl, Some (OP_SNIFF | OP_SNIFF_NONE) => true
                     | _, _ => false end) (ErrNotValid name pc op) in
    try! _ := check (match program, opcode_of op with
                     | snifferBytecodeSniffControl, Some OP_INTERCEPT => true
                     | _, _ => false end) (ErrNotValid name pc op) in
    validateSnifferIndex t classifiers actions name pc op param kind.

(** The checks of [validate] behind the classifiers, in order. *)
Definition validateSniffer (t : tables) (classifiers : list NamedSniffClassifier)
    (actions : list SnifferRouteAction) (control sniffControl : list byte) : run (result bcError unit) :=
  match (try! _ := validateRegexps (t_regexps t) in
         validateTables (t_ipv4Subnets t) (t_ipv6Addrs t) (t_ipv6Subnets t)) with
  | Failure e => Done (Failure e)
  | Success _ =>
      let! r := validateBytecode "SnifferControl" control
        (validateSnifferOp t classifiers actions "SnifferControl" snifferBytecodeControl) in
      match r with
      | Failure e => Done (Failure e)
      | Success _ =>
          validateBytecode "SnifferSniffControl" sniffControl
            (validateSnifferOp t classifiers actions "SnifferSniffControl" snifferBytecodeSniffControl)
      end
  end.

Definition route_slots (actions : list SnifferRouteAction) : list Z := map (fun a => bZ (ra_Slot a)) actions.

Definition NewBytecodeSnifferControls (rules : SnifferBytecodeRules)
  : run (result bcError bytecodeSnifferControls) :=
  let t := sn_tables rules in
  match validateClassifiers 0 ∅ (sn_Classifiers rules) with
  | Failure e => Done (Failure e)
  | Success classifiers =>
      let! v := validateSniffer t classifiers (sn_RouteActions rules) (sn_Control rules) (sn_SniffControl rules) in
      match v with
      | Failure e => Done (Failure e)
      | Success _ =>
          let! ops := bytecodeAddrStringOps (sn_Control rules) in
          let! sops := bytecodeAddrStringOps (sn_SniffControl rules) in
          let storage := if so_remote ops || so_local ops || so_remote sops || so_local sops
                         then sn_DNSCacheStorage rules else None in
          let! slots := mentionedBytecodeSlotsWithRoutes maxSnifferBytecodeSlot
            (route_slots (sn_RouteActions rules)) [sn_Control rules; sn_SniffControl rules] in
          Done (Success (MkControls classifiers t (sn_RouteActions rules)
            (sn_Control rules) (sn_SniffControl rules) storage ops sops slots))
      end
  end.

(** ** Evaluation *)

Context `{HostEnv}.

Definition reject : Action := MkAction RejectSlot false.

Definition newSnifferBytecodeEval (call : Call) (storage : option storage_view) (stringOps : addrStringOps)
    (lnow rnow : Z) : bytecodeEval :=
  let '(dial, listen, lookup) := snifferOperationClass (c_Operation call) in
  let '(laddr, raddr) := snifferCallAddresses call in
  MkEval (ToLower (c_Network call))
    (newAddrCache (MkAddrInput laddr None) storage (so_local stringOps) lnow)
    (newAddrCache (MkAddrInput raddr None) storage (so_remote stringOps) rnow)
    dial listen lookup.

(** The action of a ROUTE instruction and the call it leaves. *)
Definition route_result (cfg : bytecodeSnifferControls) (call : Call) (param : Z) : run (Action * Call) :=
  let '(idx, ok) := bytecodeParamIndex param (zlen (sc_routeActions cfg)) in
  if negb ok then Done (reject, call)
  else let! a := must (index (sc_routeActions cfg) idx) in
       Done (MkAction (bZ (ra_Slot a)) false, applySnifferCallMutation call (ra_Mutation a)).

Definition sniffer_step (cfg : bytecodeSnifferControls) (call : Call) (result : SniffResult)
    (op : byte) (param : Z) (s : bytecodeEval * list bool)
  : run (ctl (bytecodeEval * list bool) (Action * Call)) :=
  let '(ev, stack) := s in
  match opcode_of op with
  | Some OP_DROP => terminal_step (Done (reject, call)) s
  | Some OP_SLOT =>
      terminal_step (let '(slot, ok) := bytecodeParamInt param maxSnifferBytecodeSlot in
                     Done (if (ok : bool) then MkAction slot false else reject, call)) s
  | Some OP_ROUTE => terminal_step (route_result cfg call param) s
  | Some OP_INTERCEPT => terminal_step (Done (MkAction RejectSlot true, call)) s
  | Some OP_SNIFF =>
      let '(idx, ok) := bytecodeParamInt param (zlen (sc_classifiers cfg) - 1) in
      Done (Continue (ev, ((ok : bool) && (r_Index result =? idx)) :: stack))
  | Some OP_SNIFF_NONE => Done (Continue (ev, (r_Index result =? NoMatch) :: stack))
  | _ => common_step (sc_tables cfg) op param s
  end.

Definition sniffer_exec (cfg : bytecodeSnifferControls) (code : list byte) (call : Call)
    (result : SniffResult) (stringOps : addrStringOps) (lnow rnow : Z) : run (Action * Call) :=
  let! c := scan code (sniffer_step cfg call result)
    (newSnifferBytecodeEval call (sc_dnsStorage cfg) stringOps lnow rnow, []) in
  Done match c with Return r => r | Continue _ => (reject, call) end.

(** [None] is a nil call. *)
Definition Control (cfg : bytecodeSnifferControls) (call : option Call) (lnow rnow : Z)
  : run (Action * option Call) :=
  match call with
  | None => Done (reject, None)
  | Some call =>
      let! '(a, call) := sniffer_exec cfg (sc_control cfg) call (MkSniffResult NoMatch None)
        (sc_controlStringOps cfg) lnow rnow in
      Done (a, Some call)
  end.

Definition SniffControl (cfg : bytecodeSnifferControls) (call : option (Call * SniffResult)) (lnow rnow : Z)
  : run (Action * option Call) :=
  match call with
  | None => Done (reject, None)
  | Some (call, result) =>
      match r_Err result with
      | Some _ => Done (reject, Some call)
      | None =>
          let! '(a, call) := sniffer_exec cfg (sc_sniffControl cfg) call result
            (sc_sniffStringOps cfg) lnow rnow in
          Done (a, Some call)
      end
  end.
End Controls.

Arguments NamedSniffClassifier : clear implicits.
Arguments SnifferBytecodeRules : clear implicits.
Arguments bytecodeSnifferControls : clear implicits.

(** ** Reference semantics *)

Section Reference.
Context {Factory : Type} `{HostEnv}.

Definition sniffer_action (cfg : bytecodeSnifferControls Factory) (call : Call) (result : SniffResult)
    (e : bytecodeEval) (op : byte) (param : Z) : action (Action * Call) :=
  match opcode_of op with
  | Some OP_DROP => ActReturn (reject, call)
  | Some OP_SLOT => ActReturn (if param <=? maxSnifferBytecodeSlot then MkAction param false else reject, call)
  | Some OP_ROUTE =>
      ActReturn match index (sc_routeActions cfg) param with
                | Some a => (MkAction (bZ (ra_Slot a)) false, applySnifferCallMutation call (ra_Mutation a))
                | None => (reject, call)
                end
  | Some OP_INTERCEPT => ActReturn (MkAction RejectSlot true, call)
  | Some OP_SNIFF => ActPush ((param <? zlen (sc_classifiers cfg)) && (r_Index result =? param))
  | Some OP_SNIFF_NONE => ActPush (r_Index result =? NoMatch)
  | _ => common_action (sc_tables cfg) e op param
  end.

Definition sniffer_reference (cfg : bytecodeSnifferControls Factory) (call : Call) (result : SniffResult)
    (e : bytecodeEval) (ins : list splitInstr) : run (Action * Call) :=
  let! c := machine (sniffer_action cfg call result e) ins [] in
  Done match c with Return r => r | Continue _ => (reject, call) end.

Lemma route_result_value (cfg : bytecodeSnifferControls Factory) call param :
  0 <= param ->
  route_result cfg call param = Done match index (sc_routeActions cfg) param with
    | Some a => (MkAction (bZ (ra_Slot a)) false, applySnifferCallMutation call (ra_Mutation a))
    | None => (reject, call) end.
Proof.
  intros Hp. unfold route_result. rewrite bytecodeParamIndex_index by done.
  destruct (index (sc_routeActions cfg) param) as [a|] eqn:E; [|done]. simpl. by rewrite E.
Qed.

Lemma sniffer_step_refines (cfg : bytecodeSnifferControls Factory) call result e0 op param :
  Forall is_Some (t_regexps (sc_tables cfg)) -> 0 <= param ->
  step_refines (fun s => eval_inv e0 s.1) snd (sniffer_step cfg call result op param)
    (sniffer_action cfg call result e0 op param).
Proof.
  intros Hre Hp [e stack] Hinv. pose proof (common_step_refines (R := Action * Call) (sc_tables cfg) e0 op param Hre Hp (e, stack) Hinv) as Hc.
  assert (Ht : forall (r : run (Action * Call)) x, r = Done x ->
    match machine_step (ActReturn x) stack with
    | Done (Continue st) => exists s', terminal_step r (e, stack) = Done (Continue s') /\ eval_inv e0 s'.1 /\ s'.2 = st
    | Done (Return y) => terminal_step r (e, stack) = Done (Return y)
    | Panicked => terminal_step r (e, stack) = Panicked
    | OutOfFuel => terminal_step r (e, stack) = OutOfFuel
    end).
  { intros r x Hr. exact (terminal_step_refines (eval_inv e0) r x Hr (e, stack) Hinv). }
  unfold sniffer_step, sniffer_action, bytecodeParamInt.
  destruct (opcode_of op) as [[]|] eqn:Eo; try exact Hc; cbn [snd].
  - by apply Ht.
  - apply Ht. unfold maxSnifferBytecodeSlot. simpl.
    destruct (Z.ltb_spec 255 param), (Z.leb_spec param 255); (lia || done).
  - by apply Ht.
  - simpl. destruct (Z.ltb_spec (zlen (sc_classifiers cfg) - 1) 0),
      (Z.ltb_spec (zlen (sc_classifiers cfg) - 1) param), (Z.ltb_spec param (zlen (sc_classifiers cfg)));
      (lia || by eexists).
  - by eexists.
  - apply Ht. by apply route_result_value.
Qed.

(** ** Accepted controls *)

Lemma validateSnifferOp_fits t (cs : list (NamedSniffClassifier Factory)) actions name program
    (cfg : bytecodeSnifferControls Factory) call result e i :
  checked (validateSnifferOp t cs actions name program) i ->
  fits (stack_class (in_op i)) (sniffer_action cfg call result e (in_op i) (in_param i)) = true.
Proof.
  intros ([o Ho] & _ & pc & Hv). unfold validateSnifferOp in Hv. inv_result.
  unfold isSplitOnlyOp, isDNSOnlyOp, stack_class, sniffer_action, common_action in *.
  rewrite Ho in *. by destruct o.
Qed.

(** What a returned action and call may be. *)
Definition sniffer_outcome (cfg : bytecodeSnifferControls Factory) (call : Call) (r : Action * Call) : Prop :=
  (a_Slot r.1 = RejectSlot \/ a_Slot r.1 ∈ sc_mentionedSlots cfg) /\
  (a_Intercept r.1 = true -> a_Slot r.1 = RejectSlot /\ r.2 = call) /\
  (r.2 = call \/ exists ra, ra ∈ sc_routeActions cfg /\
     r = (MkAction (bZ (ra_Slot ra)) false, applySnifferCallMutation call (ra_Mutation ra))).

Lemma sniffer_outcome_reject cfg call : sniffer_outcome cfg call (reject, call).
Proof. split_and!; [by left|done|by left]. Qed.

(** What an instruction can return. *)
Lemma sniffer_action_outcome (cfg : bytecodeSnifferControls Factory) call result e i ins r :
  (forall slot, mentions maxSnifferBytecodeSlot (route_slots (sc_routeActions cfg)) ins slot ->
     slot ∈ sc_mentionedSlots cfg) ->
  i ∈ ins -> sniffer_action cfg call result e (in_op i) (in_param i) = ActReturn r ->
  sniffer_outcome cfg call r /\ (a_Intercept r.1 = true -> opcode_of (in_op i) = Some OP_INTERCEPT).
Proof.
  intros Hm Hi Ha. unfold sniffer_action, common_action in Ha.
  assert (Hslot : forall slot, instr_slot (route_slots (sc_routeActions cfg)) i = slot ->
    slot <= maxSnifferBytecodeSlot -> slot = RejectSlot \/ slot ∈ sc_mentionedSlots cfg).
  { intros slot Hs Hle. destruct (decide (slot = 0)) as [->|Hne]; [by left|right]. apply Hm.
    split_and!; [done|done|by exists i]. }
  unfold instr_slot in Hslot.
  destruct (opcode_of (in_op i)) as [[]|]; try discriminate Ha; try (simpl in Ha; discriminate Ha);
    injection Ha as <-.
  - split; [apply sniffer_outcome_reject|done].
  - destruct (Z.leb_spec (in_param i) maxSnifferBytecodeSlot); [|split; [apply sniffer_outcome_reject|done]].
    split; [|done]. split_and!; [by apply Hslot|done|by left].
  - split; [|done]. split_and!; [by left|done|by left].
  - destruct (index (sc_routeActions cfg) (in_param i)) as [ra|] eqn:E;
      [|split; [apply sniffer_outcome_reject|done]].
    split; [|done]. split_and!; [|done|].
    + simpl. apply Hslot; [by unfold route_slots; rewrite index_map, E|].
      pose proof (bZ_range (ra_Slot ra)). unfold maxSnifferBytecodeSlot. lia.
    + right. exists ra. split; [by eapply index_elem|done].
Qed.

Record controls_accepted (cfg : bytecodeSnifferControls Factory) : Prop := MkControlsAccepted {
  ca_regexps : Forall is_Some (t_regexps (sc_tables cfg));
  ca_programs : forall program, exists name ins,
    let code := match program with snifferBytecodeControl => sc_control cfg
                | snifferBytecodeSniffControl => sc_sniffControl cfg end in
    decodes code 0 ins /\
    Forall (checked (validateSnifferOp (sc_tables cfg) (sc_classifiers cfg) (sc_routeActions cfg) name program)) ins /\
    depth_safe 0 ins /\
    forall slot, mentions maxSnifferBytecodeSlot (route_slots (sc_routeActions cfg)) ins slot ->
      slot ∈ sc_mentionedSlots cfg }.

Lemma NewBytecodeSnifferControls_spec (rules : SnifferBytecodeRules Factory) :
  exists r, NewBytecodeSnifferControls rules = Done r /\
  forall cfg, r = Success cfg -> controls_accepted cfg.
Proof.
  unfold NewBytecodeSnifferControls, validateSniffer.
  destruct (validateClassifiers 0 ∅ (sn_Classifiers rules)) as [cs|e]; [|by eexists].
  destruct (validateRegexps _) as [[]|e] eqn:Ere; simpl; [|by eexists].
  destruct (validateTables _ _ _) as [[]|e]; simpl; [|by eexists].
  destruct (validateBytecode_sound "SnifferControl" (sn_Control rules)
    (validateSnifferOp (sn_tables rules) cs (sn_RouteActions rules) "SnifferControl" snifferBytecodeControl))
    as (r1 & -> & H1). simpl. destruct r1 as [[]|e]; simpl; [|by eexists].
  destruct (validateBytecode_sound "SnifferSniffControl" (sn_SniffControl rules)
    (validateSnifferOp (sn_tables rules) cs (sn_RouteActions rules) "SnifferSniffControl" snifferBytecodeSniffControl))
    as (r2 & -> & H2). simpl. destruct r2 as [[]|e]; simpl; [|by eexists].
  destruct (H1 eq_refl) as (i1 & D1 & C1 & S1), (H2 eq_refl) as (i2 & D2 & C2 & S2).
  rewrite (bytecodeAddrStringOps_spec _ i1 D1), (bytecodeAddrStringOps_spec _ i2 D2). simpl.
  destruct (mentionedBytecodeSlots_spec maxSnifferBytecodeSlot (route_slots (sn_RouteActions rules))
    [sn_Control rules; sn_SniffControl rules] [i1; i2]) as (slots & Hslots & Hspec);
    [done| |repeat constructor; by (done || eapply checked_param_nonneg)|].
  { unfold route_slots. apply Forall_forall. intros s Hs. apply list_elem_of_fmap in Hs as (ra & -> & _).
    pose proof (bZ_range (ra_Slot ra)). lia. }
  rewrite Hslots. simpl. eexists. split; [done|]. intros cfg [= <-]. split; simpl.
  - by eapply validateRegexps_ok.
  - intros []; [exists "SnifferControl", i1|exists "SnifferSniffControl", i2]; split_and!; try done;
      intros slot Hm; apply Hspec; eexists; (split; [|exact Hm]); set_solver.
Qed.

(** Running an accepted program. *)
Lemma sniffer_exec_sound (cfg : bytecodeSnifferControls Factory) code call result ops lnow rnow name program ins :
  Forall is_Some (t_regexps (sc_tables cfg)) -> decodes code 0 ins ->
  Forall (checked (validateSnifferOp (sc_tables cfg) (sc_classifiers cfg) (sc_routeActions cfg) name program)) ins ->
  depth_safe 0 ins ->
  (forall slot, mentions maxSnifferBytecodeSlot (route_slots (sc_routeActions cfg)) ins slot ->
     slot ∈ sc_mentionedSlots cfg) ->
  let e := newSnifferBytecodeEval call (sc_dnsStorage cfg) ops lnow rnow in
  exists r, sniffer_exec cfg code call result ops lnow rnow = Done r /\
    sniffer_reference cfg call result e ins = Done r /\ sniffer_outcome cfg call r /\
    (program = snifferBytecodeSniffControl -> a_Intercept r.1 = false).
Proof.
  intros Hre Hdec Hall Hsafe Hm e. unfold sniffer_exec, sniffer_reference.
  rewrite (scan_decodes _ _ _ _ Hdec). fold e.
  destruct (machine_safe (sniffer_action cfg call result e) ins []) as (c & Hc & Hres); [done| |].
  { eapply Forall_impl; [exact Hall|]. intros i Hi. by eapply validateSnifferOp_fits. }
  assert (Hinv : eval_inv e e).
  { unfold e, newSnifferBytecodeEval. destruct (snifferOperationClass _) as [[? ?] ?], (snifferCallAddresses call).
    apply eval_inv_refl. }
  pose proof (run_refines (fun s => eval_inv e s.1) snd (sniffer_step cfg call result)
    (sniffer_action cfg call result e) ins (e, [])) as Href.
  simpl in Href. rewrite Hc in Href. rewrite Hc. specialize (Href).
  assert (Hsteps : Forall (fun i => step_refines (fun s => eval_inv e s.1) snd
    (sniffer_step cfg call result (in_op i) (in_param i))
    (sniffer_action cfg call result e (in_op i) (in_param i))) ins).
  { eapply Forall_impl; [exact Hall|]. intros i (_ & Hp & _). apply sniffer_step_refines; [done|lia]. }
  specialize (Href Hsteps Hinv). destruct c as [st|r]; simpl.
  - destruct Href as (s' & -> & _ & _). exists (reject, call). split_and!; try done. apply sniffer_outcome_reject.
  - rewrite Href. exists r. destruct Hres as (i & Hi & Ha).
    destruct (sniffer_action_outcome cfg call result e i ins r Hm Hi Ha) as [Hout Hint].
    split_and!; try done. intros ->. destruct (a_Intercept r.1) eqn:Ei; [|done].
    specialize (Hint eq_refl). rewrite Forall_forall in Hall. destruct (Hall i Hi) as (_ & _ & pc & Hv).
    unfold validateSnifferOp in Hv. rewrite Hint in Hv. inv_result; done.
Qed.

(** ** Theorems *)

(** Controls accepted by [NewBytecodeSnifferControls] never panic.  For
    every call and sniff result, Control and SniffControl return an action
    whose slot is 0 or one that MentionedSlots reports; only Control asks for
    interception, and then it leaves slot 0 and the call as it was; the call
    is changed only by the action of a ROUTE instruction, to exactly what that
    action prescribes; a sniff error rejects and leaves the call alone. *)
Theorem sniffer_controls_safe (rules : SnifferBytecodeRules Factory) cfg call result lnow rnow :
  NewBytecodeSnifferControls rules = Done (Success cfg) ->
  (exists a call', Control cfg (Some call) lnow rnow = Done (a, Some call') /\
     sniffer_outcome cfg call (a, call')) /\
  (exists a call', SniffControl cfg (Some (call, result)) lnow rnow = Done (a, Some call') /\
     sniffer_outcome cfg call (a, call') /\ a_Intercept a = false /\
     (r_Err result <> None -> a = reject /\ call' = call)).
Proof.
  intros Hnew. destruct (NewBytecodeSnifferControls_spec rules) as (r & Hr & Hacc).
  rewrite Hnew in Hr. injection Hr as <-. destruct (Hacc cfg eq_refl) as [Hre Hprog]. split.
  - destruct (Hprog snifferBytecodeControl) as (name & ins & Hd & Hc & Hs & Hm).
    destruct (sniffer_exec_sound cfg (sc_control cfg) call (MkSniffResult NoMatch None) (sc_controlStringOps cfg)
      lnow rnow name _ ins Hre Hd Hc Hs Hm) as ([a c'] & Heq & _ & Hout & _).
    exists a, c'. simpl. rewrite Heq. done.
  - simpl. destruct (r_Err result) as [err|].
    { exists reject, call. split_and!; try done. apply sniffer_outcome_reject. }
    destruct (Hprog snifferBytecodeSniffControl) as (name & ins & Hd & Hc & Hs & Hm).
    destruct (sniffer_exec_sound cfg (sc_sniffControl cfg) call result (sc_sniffStringOps cfg)
      lnow rnow name _ ins Hre Hd Hc Hs Hm) as ([a c'] & Heq & _ & Hout & Hno).
    exists a, c'. rewrite Heq. split_and!; try done. by apply (Hno eq_refl).
Qed.

End Reference.

(** ** Witnesses *)

(** Control: "TCP INTERCEPT".  SniffControl: "SNIFF 0 ROUTE 0; TRUE SLOT 3". *)
Definition sample_sniffer_rules : SnifferBytecodeRules unit :=
  MkSnifferRules [MkClassifier " http " (Some tt)] (MkTables [] [] [] [] [] []) None
    [MkRouteAction x02 (MkMutation None None None None None None (Some "8080") None None None)]
    [op_byte OP_TCP; op_byte OP_INTERCEPT]
    [op_byte OP_SNIFF; x00; x00; op_byte OP_ROUTE; x00; x00; op_byte OP_TRUE; op_byte OP_SLOT; x03].

Definition sample_controls : bytecodeSnifferControls unit :=
  match NewBytecodeSnifferControls sample_sniffer_rules with
  | Done (Success cfg) => cfg
  | _ => MkControls [] (MkTables [] [] [] [] [] []) [] [] [] None (MkStringOps false false) (MkStringOps false false) []
  end.

Definition sample_call : Call := MkCall OpDialTCP "tcp" "" "example.test:80" "" "" "".

Lemma sniffer_controls_safe_witness :
  (exists a call', @Control unit bare_host sample_controls (Some sample_call) 0 0 = Done (a, Some call') /\
     sniffer_outcome sample_controls sample_call (a, call')) /\
  (exists a call', @SniffControl unit bare_host sample_controls (Some (sample_call, MkSniffResult 0 None)) 0 0
     = Done (a, Some call') /\
     sniffer_outcome sample_controls sample_call (a, call') /\ a_Intercept a = false /\
     (r_Err (MkSniffResult 0 None) <> None -> a = reject /\ call' = sample_call)).
Proof.
  apply (@sniffer_controls_safe unit bare_host sample_sniffer_rules). vm_compute. reflexivity.
Defined.


(** The classifier's route rewrites the port of the destination. *)
Example sample_sniffed :
  @SniffControl unit bare_host sample_controls (Some (sample_call, MkSniffResult 0 None)) 0 0 =
  Done (MkAction 2 false, Some (MkCall OpDialTCP "tcp" "" "example.test:8080" "" "" "")).
Proof. vm_compute. reflexivity. Qed.
