(* ===== verification/Remapper.v ===== *)
(** * The address remapper

    Models src/remapper.go: the rules, the loop [remap] that applies every
    matching rule in order, the rewriting of one endpoint and of the address
    family of the network, and the Network methods that call it (each gives
    the arguments with which the wrapped network is called).  The lookup
    methods pass their arguments on as they are.

    A filter is a Go function: it may panic, and it may read a clock, so it
    takes the readings with the information about the endpoint. *)

From S2P Require Import Prelude GoStd HostPort NetIP.

Definition RemapDst : Z := 0.
Definition RemapSrc : Z := 1.

Definition RemapAddrPort : Z := 0.
Definition RemapAddr : Z := 1.
Definition RemapPort : Z := 2.

Inductive RemapOperation : Type :=
| RemapOpDial | RemapOpListen | RemapOpPacketDial | RemapOpListenPacket
| RemapOpDialTCP | RemapOpListenTCP | RemapOpDialUDP | RemapOpListenUDP
| RemapOpListenPacketConfig | RemapOpListenUDPConfig | RemapOpListenMulticastUDP
| RemapOpOther (name : string).

Record RemapInfo : Type := MkRemapInfo {
  ri_Operation : RemapOperation; ri_Network : string; ri_Endpoint : Z;
  ri_Address : string; ri_SrcAddr : string; ri_DstAddr : string }.

(** The readings of the clock while a filter runs. *)
Definition clock : Type := Z * Z.

Definition RemapFilter : Type := RemapInfo -> clock -> run bool.

Definition RemapAddressFilter (filter : option (string -> string -> run bool)) : option RemapFilter :=
  match filter with
  | None => None
  | Some f => Some (fun info _ => f (ri_Network info) (ri_Address info))
  end.

Record RemapRule : Type := MkRemapRule {
  rr_Filter : option RemapFilter; rr_Endpoint : Z; rr_Field : Z; rr_Addr : string; rr_Port : string }.

Definition remapSplitHostPort (address : string) : string * string * bool :=
  match SplitHostPort address with
  | None => ("", "", false)
  | Some (host, port) => (host, port, true)
  end.

(** The new endpoint, and whether its host changed. *)
Definition remapAddress (address : string) (rule : RemapRule) : string * bool :=
  if rr_Field rule =? RemapAddrPort then (JoinHostPort (rr_Addr rule) (rr_Port rule), true)
  else if rr_Field rule =? RemapAddr then
    let '(_, port, ok) := remapSplitHostPort address in
    if negb ok then (rr_Addr rule, true) else (JoinHostPort (rr_Addr rule) port, true)
  else if rr_Field rule =? RemapPort then
    let '(host, _, ok) := remapSplitHostPort address in
    if negb ok then (address, false) else (JoinHostPort host (rr_Port rule), false)
  else (address, false).

Definition remapHostFamily (host : string) : string :=
  let host := match SplitHostPort host with Some (h, _) => h | None => host end in
  let host := if HasPrefix host "[" && HasSuffix host "]"
              then TrimPrefix (TrimSuffix host "]") "[" else host in
  let '(h, _, ok) := Cut host percent in
  let host := if (ok : bool) then h else host in
  match ParseAddr host with
  | None => ""
  | Some addr => if Is4 addr then "4" else if Is6 addr then "6" else ""
  end.

Definition remapNetworkForHost (network host : string) : string :=
  let family := remapHostFamily host in
  if String.eqb family "" then network
  else if String.eqb network "tcp4" || String.eqb network "tcp6" then String.append "tcp" family
  else if String.eqb network "udp4" || String.eqb network "udp6" then String.append "udp" family
  else if String.eqb network "ip4" || String.eqb network "ip6" then String.append "ip" family
  else network.

(** One iteration of the loop in [remap] on the current network, source and
    destination. *)
Definition remap_rule (op : RemapOperation) (hasSrc hasDst : bool) (now : clock) (rule : RemapRule)
    (st : string * string * string) : run (string * string * string) :=
  let '(network, src, dst) := st in
  let current :=
    if rr_Endpoint rule =? RemapSrc then (if negb hasSrc then None else Some src)
    else if rr_Endpoint rule =? RemapDst then (if negb hasDst then None else Some dst)
    else None in
  match current with
  | None => Done (network, src, dst)
  | Some current =>
      let info := MkRemapInfo op network (rr_Endpoint rule) current src dst in
      let! matched := match rr_Filter rule with
                      | None => Done true
                      | Some filter => filter info now
                      end in
      if negb matched then Done (network, src, dst)
      else
        let '(next, changedAddr) := remapAddress current rule in
        let src := if rr_Endpoint rule =? RemapSrc then next else src in
        let dst := if rr_Endpoint rule =? RemapDst then next else dst in
        let network := if (changedAddr : bool) then remapNetworkForHost network (rr_Addr rule) else network in
        Done (network, src, dst)
  end.

(** [now i] are the readings while the filter of rule [i] runs. *)
Fixpoint remap (rules : list RemapRule) (now : nat -> clock) (op : RemapOperation) (network src : string)
    (hasSrc : bool) (dst : string) (hasDst : bool) : run (string * string * string) :=
  match rules with
  | [] => Done (network, src, dst)
  | rule :: rules' =>
      let! '(network, src, dst) := remap_rule op hasSrc hasDst (now 0%nat) rule (network, src, dst) in
      remap rules' (fun i => now (S i)) op network src hasSrc dst hasDst
  end.

(** ** The methods *)

Module Remapper.

Section Methods.
Variable rules : list RemapRule.
Variable now : nat -> clock.

Definition Dial (network address : string) : run (string * string) :=
  let! '(network, _, address) := remap rules now RemapOpDial network "" false address true in
  Done (network, address).

Definition Listen (network address : string) : run (string * string) :=
  let! '(network, address, _) := remap rules now RemapOpListen network address true "" false in
  Done (network, address).

Definition PacketDial (network address : string) : run (string * string) :=
  let! '(network, _, address) := remap rules now RemapOpPacketDial network "" false address true in
  Done (network, address).

Definition ListenPacket (network address : string) : run (string * string) :=
  let! '(network, address, _) := remap rules now RemapOpListenPacket network address true "" false in
  Done (network, address).

Definition DialTCP (network laddr raddr : string) : run (string * string * string) :=
  remap rules now RemapOpDialTCP network laddr (negb (String.eqb laddr "")) raddr true.

Definition ListenTCP (network laddr : string) : run (string * string) :=
  let! '(network, laddr, _) := remap rules now RemapOpListenTCP network laddr true "" false in
  Done (network, laddr).

Definition DialUDP (network laddr raddr : string) : run (string * string * string) :=
  remap rules now RemapOpDialUDP network laddr (negb (String.eqb laddr "")) raddr true.

Definition ListenUDP (network laddr : string) : run (string * string) :=
  let! '(network, laddr, _) := remap rules now RemapOpListenUDP network laddr true "" false in
  Done (network, laddr).

Definition ListenPacketConfig (network address : string) : run (string * string) :=
  let! '(network, address, _) := remap rules now RemapOpListenPacketConfig network address true "" false in
  Done (network, address).

Definition ListenUDPConfig (network laddr : string) : run (string * string) :=
  let! '(network, laddr, _) := remap rules now RemapOpListenUDPConfig network laddr true "" false in
  Done (network, laddr).

Definition ListenMulticastUDP (network address : string) : run (string * string) :=
  let! '(network, address, _) := remap rules now RemapOpListenMulticastUDP network address true "" false in
  Done (network, address).
End Methods.

End Remapper.

(** ** What a rewrite does *)



(** The networks with a family suffix. *)
Definition with_family (base family : string) : Prop :=
  base ∈ ["tcp"; "udp"; "ip"] /\ family ∈ ["4"; "6"].

(** [network'] is [network] up to the family suffix. *)
Definition same_base (network network' : string) : Prop :=
  network' = network \/
  exists base f f', with_family base f /\ with_family base f' /\
    network = String.append base f /\ network' = String.append base f'.

Lemma remapHostFamily_cases host : remapHostFamily host = "" \/ remapHostFamily host ∈ ["4"; "6"].
Proof.
  unfold remapHostFamily. destruct (Cut _ _) as [[h t] ok].
  destruct (ParseAddr _) as [[]|]; simpl; set_solver.
Qed.

Lemma remapNetworkForHost_family base f host :
  with_family base f -> remapHostFamily host <> "" ->
  remapNetworkForHost (String.append base f) host = String.append base (remapHostFamily host).
Proof.
  intros [Hb Hf] Hne. unfold remapNetworkForHost.
  destruct (String.eqb_spec (remapHostFamily host) "") as [|_]; [done|].
  set_unfold in Hb. set_unfold in Hf.
  destruct Hb as [->|[->|[->|[]]]], Hf as [->|[->|[]]]; reflexivity.
Qed.

Lemma remapNetworkForHost_base network host : same_base network (remapNetworkForHost network host).
Proof.
  assert (Hin : forall base f, with_family base f ->
    same_base (String.append base f) (remapNetworkForHost (String.append base f) host)).
  { intros base f Hw. destruct (remapHostFamily_cases host) as [He|Hf].
    - left. unfold remapNetworkForHost. by rewrite He.
    - right. exists base, f, (remapHostFamily host). split_and!; [done|by split; [apply Hw|]|done|].
      apply remapNetworkForHost_family; [done|]. intros E. rewrite E in Hf. set_solver. }
  assert (Hcase : (exists base f, with_family base f /\ network = String.append base f) \/
    remapNetworkForHost network host = network).
  { unfold remapNetworkForHost. destruct (String.eqb _ ""); [by right|].
    repeat match goal with
    | |- context[String.eqb network ?s] => destruct (String.eqb_spec network s) as [->|]; cbn [orb];
        [left; match s with
               | "tcp4" => exists "tcp", "4" | "tcp6" => exists "tcp", "6"
               | "udp4" => exists "udp", "4" | "udp6" => exists "udp", "6"
               | "ip4" => exists "ip", "4" | "ip6" => exists "ip", "6"
               end; unfold with_family; set_solver|]
    end. by right. }
  destruct Hcase as [(base & f & Hw & ->)|E]; [by apply Hin|by left].
Qed.

Lemma same_base_trans n1 n2 n3 : same_base n1 n2 -> same_base n2 n3 -> same_base n1 n3.
Proof.
  intros [->|(b & f & f' & Hf & Hf' & -> & ->)]; [done|].
  intros [->|(b2 & g & g' & Hg & Hg' & Heq & ->)]; right.
  - by exists b, f, f'.
  - exists b, f, g'. assert (b = b2) as <-.
    { unfold with_family in *. destruct Hf' as [Hb Hf'], Hg as [Hb2 Hg].
      set_unfold in Hb. set_unfold in Hb2. set_unfold in Hf'. set_unfold in Hg.
      destruct Hb as [->|[->|[->|[]]]], Hb2 as [->|[->|[->|[]]]], Hf' as [->|[->|[]]], Hg as [->|[->|[]]];
        (reflexivity || discriminate Heq). }
    by split_and!.
Qed.

(** One rule: what it may change. *)
Lemma remap_rule_frame op hasSrc hasDst now rule network src dst network' src' dst' :
  remap_rule op hasSrc hasDst now rule (network, src, dst) = Done (network', src', dst') ->
  same_base network network' /\
  (hasSrc = false \/ rr_Endpoint rule <> RemapSrc -> src' = src) /\
  (hasDst = false \/ rr_Endpoint rule <> RemapDst -> dst' = dst).
Proof.
  unfold remap_rule. intros H.
  assert (Hkeep : forall x : string * string * string, Done (network, src, dst) = Done x ->
    same_base network x.1.1 /\ (hasSrc = false \/ rr_Endpoint rule <> RemapSrc -> x.1.2 = src) /\
    (hasDst = false \/ rr_Endpoint rule <> RemapDst -> x.2 = dst)).
  { intros x [= <-]. split_and!; [by left|done|done]. }
  match type of H with match ?c with _ => _ end = _ => destruct c as [current|] eqn:Ec; [|exact (Hkeep _ H)] end.
  apply run_bind_Done in H as (matched & _ & H). destruct matched; [|exact (Hkeep _ H)]. cbn [negb] in H.
  destruct (remapAddress current rule) as [next changed]. injection H as <- <- <-. split_and!.
  - destruct changed; [apply remapNetworkForHost_base|by left].
  - destruct (Z.eqb_spec (rr_Endpoint rule) RemapSrc) as [E|E]; [|done].
    destruct hasSrc; [|done]. intros [|]; done.
  - destruct (Z.eqb_spec (rr_Endpoint rule) RemapDst) as [E|E]; [|done].
    destruct (Z.eqb_spec (rr_Endpoint rule) RemapSrc); [unfold RemapSrc, RemapDst in *; lia|].
    destruct hasDst; [|done]. intros [|]; done.
Qed.





(** ** Theorems *)

(** Whatever the rules and their filters, remapping keeps the base of the
    network (at most the family suffix of tcp, udp or ip changes), leaves an
    endpoint alone that the operation does not have, and leaves an endpoint
    alone that no rule selects. *)
Theorem remap_frame rules now op network src hasSrc dst hasDst network' src' dst' :
  remap rules now op network src hasSrc dst hasDst = Done (network', src', dst') ->
  same_base network network' /\
  (hasSrc = false \/ Forall (fun r => rr_Endpoint r <> RemapSrc) rules -> src' = src) /\
  (hasDst = false \/ Forall (fun r => rr_Endpoint r <> RemapDst) rules -> dst' = dst).
Proof.
  revert now network src dst. induction rules as [|rule rules IH]; intros now network src dst H.
  - injection H as <- <- <-. split_and!; [by left|done|done].
  - cbn [remap] in H. apply run_bind_Done in H as ([[n1 s1] d1] & H1 & H).
    apply remap_rule_frame in H1 as (Hn & Hs & Hd). apply IH in H as (Hn' & Hs' & Hd').
    rewrite !Forall_cons. split_and!; [by eapply same_base_trans|..]; naive_solver.
Qed.


(** ** Witnesses *)

Definition any_filter : RemapFilter := fun _ _ => Done true.

(** A new destination host, then a new port. *)
Definition sample_host_rule : RemapRule := MkRemapRule (Some any_filter) RemapDst RemapAddr "2001:db8::1" "".
Definition sample_port_rule : RemapRule := MkRemapRule (Some any_filter) RemapDst RemapPort "" "8080".
Definition no_clock : nat -> clock := fun _ => (0, 0).

Lemma remap_frame_witness :
  same_base "tcp4" "tcp6" /\
  (false = false \/ Forall (fun r => rr_Endpoint r <> RemapSrc) [sample_host_rule; sample_port_rule] -> "" = "") /\
  (true = false \/ Forall (fun r => rr_Endpoint r <> RemapDst) [sample_host_rule; sample_port_rule] ->
     "[2001:db8::1]:8080" = "192.0.2.1:80").
Proof.
  apply (remap_frame [sample_host_rule; sample_port_rule] no_clock RemapOpDialTCP "tcp4" "" false
    "192.0.2.1:80" true). vm_compute. reflexivity.
Defined.


Example sample_remapped :
  Remapper.DialTCP [sample_host_rule; sample_port_rule] no_clock "tcp4" "" "192.0.2.1:80" =
  Done ("tcp6", "", "[2001:db8::1]:8080").
Proof. vm_compute. reflexivity. Qed.
