(* ===== verification/RemapRules.v ===== *)
(** * Remap rules in bytecode

    Models src/routing/remapper_bytecode.go: the actions and their validation,
    the validation of the predicates, the rules handed to the remapper of
    Remapper.v with their filters, and the parsing of the argument of REMAP.

    A predicate is accepted only when it leaves exactly one boolean.  The
    theorems show that such a program is the postfix form of a boolean formula
    and that the filter computes the formula. *)

From S2P Require Import Prelude GoStd HostPort NetIP DNSCache Bytecode Machine AddrCache.
From S2P Require Import Scans RouterCfg SnifferRules Remapper.

Record RemapAction : Type := MkRemapAction {
  ra_Endpoint : Z; ra_Field : Z; ra_Addr : string; ra_Port : string }.

Record RemapperBytecodeRule : Type := MkBytecodeRule { rb_Predicate : list byte; rb_Action : RemapAction }.

(** The tables of RemapperBytecodeRules with its storage and rules; the copy
    bytecodeRemapperRules has the same fields. *)
Record RemapperBytecodeRules : Type := MkRemapperRules {
  rm_tables : tables; rm_DNSCacheStorage : option storage_view; rm_Rules : list RemapperBytecodeRule }.

(** ** Validation *)

Definition validateRemapAction (i : Z) (action : RemapAction) : result bcError unit :=
  try! _ := check (negb ((ra_Endpoint action =? RemapSrc) || (ra_Endpoint action =? RemapDst)))
              (ErrRemapAction i) in
  let noAddr := String.eqb (ra_Addr action) "" in
  let noPort := String.eqb (ra_Port action) "" in
  if ra_Field action =? RemapAddrPort then check (noAddr || noPort) (ErrRemapAction i)
  else if ra_Field action =? RemapAddr then check noAddr (ErrRemapAction i)
  else if ra_Field action =? RemapPort then check noPort (ErrRemapAction i)
  else Failure (ErrRemapAction i).

Definition validateRemapIndex (t : tables) (name : string) (pc : Z) (op : byte) (param : Z)
    (kind : bytecodeParamKind) : result bcError unit :=
  match kind with
  | bytecodeParamNone => Success tt
  | _ =>
      match opcode_of op with
      | Some (OP_ADDR_S | OP_LADDR_S) => check_index name pc TblString (t_strings t) param
      | Some (OP_ADDR_RE | OP_LADDR_RE) => check_index name pc TblRegexp (t_regexps t) param
      | Some (OP_ADDR4 | OP_LADDR4) => check_index name pc TblIPv4 (t_ipv4Addrs t) param
      | Some (OP_ADDR6 | OP_LADDR6) => check_index name pc TblIPv6 (t_ipv6Addrs t) param
      | Some (OP_SNET4 | OP_LSNET4) => check_index name pc TblSubnet4 (t_ipv4Subnets t) param
      | Some (OP_SNET6 | OP_LSNET6) => check_index name pc TblSubnet6 (t_ipv6Subnets t) param
      | _ => Success tt
      end
  end.

Definition validatePredicateOp (t : tables) (name : string) : opValidator :=
  fun pc op param kind =>
    match opcode_of op with
    | Some (OP_DROP | OP_SLOT | OP_RULE | OP_INTERCEPT | OP_SNIFF | OP_SNIFF_NONE
           | OP_ROUTE | OP_BACKEND | OP_QTYPE | OP_QCLASS | OP_OPCODE) => Failure (ErrNotValid name pc op)
    | _ => validateRemapIndex t name pc op param kind
    end.

(** The loop is the one of [validateBytecode]; the opcodes in whose depth the
    two differ are rejected by [validatePredicateOp] before. *)
Definition validatePredicate (t : tables) (name : string) (code : list byte) : run (result bcError unit) :=
  let! r := validate_loop name code (validatePredicateOp t name) in
  Done (try! depth := r in check (negb (depth =? 1)) (ErrPredicateDepth name depth)).

Definition rule_name (i : Z) : string := String.append "Remapper rule " (itoa i).

Fixpoint validateRules (t : tables) (i : Z) (rules : list RemapperBytecodeRule) : run (result bcError unit) :=
  match rules with
  | [] => Done (Success tt)
  | rule :: rules' =>
      match validateRemapAction i (rb_Action rule) with
      | Failure e => Done (Failure e)
      | Success _ =>
          if zlen (rb_Predicate rule) =? 0 then validateRules t (i + 1) rules'
          else
            let! r := validatePredicate t (rule_name i) (rb_Predicate rule) in
            match r with
            | Failure e => Done (Failure e)
            | Success _ => validateRules t (i + 1) rules'
            end
      end
  end.

Definition validateRemapper (cfg : RemapperBytecodeRules) : run (result bcError unit) :=
  let t := rm_tables cfg in
  match (try! _ := validateRegexps (t_regexps t) in
         validateTables (t_ipv4Subnets t) (t_ipv6Addrs t) (t_ipv6Subnets t)) with
  | Failure e => Done (Failure e)
  | Success _ => validateRules t 0 (rm_Rules cfg)
  end.

(** ** Filters *)

Definition remapOperationClass (op : RemapOperation) : bool * bool :=
  match op with
  | RemapOpDial | RemapOpPacketDial | RemapOpDialTCP | RemapOpDialUDP => (true, false)
  | RemapOpListen | RemapOpListenPacket | RemapOpListenTCP | RemapOpListenUDP
  | RemapOpListenPacketConfig | RemapOpListenUDPConfig | RemapOpListenMulticastUDP => (false, true)
  | RemapOpOther _ => (false, false)
  end.

Section Filters.
Context `{HostEnv}.

Definition remap_eval (cfg : RemapperBytecodeRules) (info : RemapInfo) (stringOps : addrStringOps)
    (now : clock) : bytecodeEval :=
  let '(dial, listen) := remapOperationClass (ri_Operation info) in
  MkEval (ToLower (ri_Network info))
    (newAddrCache (MkAddrInput (ri_SrcAddr info) None) (rm_DNSCacheStorage cfg) (so_local stringOps) now.1)
    (newAddrCache (MkAddrInput (ri_DstAddr info) None) (rm_DNSCacheStorage cfg) (so_remote stringOps) now.2)
    dial listen false.

(** The arms are [common_step]; LOOKUP pushes false, [isLookup] not being set. *)
Definition remap_exec (cfg : RemapperBytecodeRules) (code : list byte) (info : RemapInfo)
    (stringOps : addrStringOps) (now : clock) : run bool :=
  let! c := scan code (common_step (R := bool) (rm_tables cfg)) (remap_eval cfg info stringOps now, []) in
  match c with
  | Return v => Done v
  | Continue (_, stack) =>
      if zlen stack =? 1 then match stack with v :: _ => Done v | [] => Panicked end else Done false
  end.

Fixpoint remapRules (cfg : RemapperBytecodeRules) (rules : list RemapperBytecodeRule) : run (list RemapRule) :=
  match rules with
  | [] => Done []
  | rule :: rules' =>
      let code := rb_Predicate rule in
      let action := rb_Action rule in
      let! filter :=
        if 0 <? zlen code then
          let! stringOps := bytecodeAddrStringOps code in
          Done (Some (fun info now => remap_exec cfg code info stringOps now))
        else Done None in
      let! rest := remapRules cfg rules' in
      Done (MkRemapRule filter (ra_Endpoint action) (ra_Field action) (ra_Addr action) (ra_Port action) :: rest)
  end.

Definition NewBytecodeRemapRules (rules : RemapperBytecodeRules) : run (result bcError (list RemapRule)) :=
  let! v := validateRemapper rules in
  match v with
  | Failure e => Done (Failure e)
  | Success _ => let! out := remapRules rules (rm_Rules rules) in Done (Success out)
  end.
End Filters.

(** ** The argument of REMAP *)

Definition parseRemapEndpoint (s : string) : option Z :=
  let u := ToUpper s in
  if String.eqb u "SRC" || String.eqb u "SOURCE" || String.eqb u "LADDR" || String.eqb u "LOCAL"
  then Some RemapSrc
  else if String.eqb u "DST" || String.eqb u "DEST" || String.eqb u "RADDR" || String.eqb u "REMOTE"
  then Some RemapDst
  else None.

Definition parseRemapField (s : string) : option Z :=
  let u := ToUpper s in
  if String.eqb u "ADDR_PORT" || String.eqb u "ADDRPORT" || String.eqb u "ADDRESS_PORT" then Some RemapAddrPort
  else if String.eqb u "ADDR" || String.eqb u "ADDRESS" then Some RemapAddr
  else if String.eqb u "PORT" then Some RemapPort
  else None.

Definition parseRemapAction (arg : string) (hasArg : bool) : option RemapAction :=
  if negb hasArg || String.eqb (TrimSpace arg) "" then None
  else match Fields arg with
       | [f0; f1; f2] =>
           match parseRemapEndpoint f0, parseRemapField f1 with
           | Some endpoint, Some field =>
               if field =? RemapAddrPort then
                 let '(host, port, ok) := splitHostPort f2 in
                 if negb ok then None else Some (MkRemapAction endpoint field (Trim host "[]") port)
               else if field =? RemapAddr then Some (MkRemapAction endpoint field (Trim f2 "[]") "")
               else if field =? RemapPort then Some (MkRemapAction endpoint field "" f2)
               else Some (MkRemapAction endpoint field "" "")
           | _, _ => None
           end
       | _ => None
       end.

(** ** Formulas *)

(** A boolean formula over the atoms of a program. *)
Inductive formula : Type :=
| FAtom (op : byte) (param : Z)
| FNot (f : formula)
| FAnd (f g : formula)
| FOr (f g : formula).

(** [postfix f ins]: the program is the formula in postfix form. *)
Inductive postfix : formula -> list splitInstr -> Prop :=
| postfix_atom i : stack_class (in_op i) = ClsPush -> postfix (FAtom (in_op i) (in_param i)) [i]
| postfix_not f l i : postfix f l -> opcode_of (in_op i) = Some OP_NOT -> postfix (FNot f) (l ++ [i])
| postfix_and f g l k i : postfix f l -> postfix g k -> opcode_of (in_op i) = Some OP_AND ->
    postfix (FAnd f g) (l ++ k ++ [i])
| postfix_or f g l k i : postfix f l -> postfix g k -> opcode_of (in_op i) = Some OP_OR ->
    postfix (FOr f g) (l ++ k ++ [i]).

Fixpoint holds (atom : byte -> Z -> bool) (f : formula) : bool :=
  match f with
  | FAtom op param => atom op param
  | FNot f => negb (holds atom f)
  | FAnd f g => holds atom f && holds atom g
  | FOr f g => holds atom f || holds atom g
  end.

(** The formulas on the stack, the top first, with their programs. *)
Definition stack_parses (stack : list formula) (prog : list splitInstr) : Prop :=
  exists parts, Forall2 postfix stack parts /\ prog = concat (rev parts).

Lemma stack_parses_push f l stack prog :
  postfix f l -> stack_parses stack prog -> stack_parses (f :: stack) (prog ++ l).
Proof.
  intros Hf (parts & Hp & ->). exists (l :: parts). split; [by constructor|].
  simpl. by rewrite concat_app, concat_cons, concat_nil, app_nil_r.
Qed.

Lemma stack_parses_pop f stack prog :
  stack_parses (f :: stack) prog -> exists l prog', prog = prog' ++ l /\ postfix f l /\ stack_parses stack prog'.
Proof.
  intros (parts & Hp & ->). apply Forall2_cons_inv_l in Hp as (l & parts' & Hf & Hp & ->).
  exists l, (concat (rev parts')). simpl. rewrite concat_app, concat_cons, concat_nil, app_nil_r.
  split_and!; [done|done|by exists parts'].
Qed.

(** One instruction on the stack of formulas. *)
Lemma stack_parses_step stack prog i :
  stack_parses stack prog -> depth_safe (zlen stack) [i] -> stack_class (in_op i) <> ClsTerminal ->
  exists stack', stack_parses stack' (prog ++ [i]) /\ zlen stack' = depth_after (zlen stack) (in_op i).
Proof.
  intros Hs Hd Ht. simpl in Hd. unfold depth_after. destruct (stack_class (in_op i)) eqn:E; [done| | |].
  - assert (Ho : opcode_of (in_op i) = Some OP_NOT).
    { unfold stack_class in E. by destruct (opcode_of (in_op i)) as [[]|]. }
    destruct stack as [|f stack]; [unfold zlen in Hd; simpl in Hd; lia|].
    apply stack_parses_pop in Hs as (l & prog' & -> & Hf & Hs). exists (FNot f :: stack).
    rewrite <- app_assoc. split; [|by rewrite !zlen_cons]. by apply stack_parses_push; [constructor|].
  - destruct stack as [|g [|f stack]]; [unfold zlen in Hd; simpl in Hd; lia..|].
    apply stack_parses_pop in Hs as (k & prog' & -> & Hg & Hs).
    apply stack_parses_pop in Hs as (l & prog'' & -> & Hf & Hs).
    assert (Ho : opcode_of (in_op i) = Some OP_AND \/ opcode_of (in_op i) = Some OP_OR).
    { unfold stack_class in E. destruct (opcode_of (in_op i)) as [[]|]; (discriminate E || by (left + right)). }
    rewrite <- !app_assoc, (app_assoc l k [i]).
    destruct Ho as [Ho|Ho]; [exists (FAnd f g :: stack)|exists (FOr f g :: stack)];
      (split; [rewrite <- app_assoc; apply stack_parses_push; [by constructor|done]|rewrite !zlen_cons; lia]).
  - exists (FAtom (in_op i) (in_param i) :: stack). split; [|by rewrite zlen_cons].
    by apply stack_parses_push; [constructor|].
Qed.

(** The depth analysis parses a program without terminals. *)
Lemma depth_safe_parses ins : forall stack prog,
  stack_parses stack prog -> depth_safe (zlen stack) ins ->
  Forall (fun i => stack_class (in_op i) <> ClsTerminal) ins ->
  exists stack', stack_parses stack' (prog ++ ins) /\ zlen stack' = final_depth (zlen stack) ins.
Proof.
  induction ins as [|i ins IH]; intros stack prog Hs Hd Ht.
  { exists stack. by rewrite app_nil_r. }
  apply Forall_cons in Ht as [Hi Ht].
  assert (Hd1 : depth_safe (zlen stack) [i] /\ depth_safe (depth_after (zlen stack) (in_op i)) ins).
  { simpl in Hd |- *. unfold depth_after. destruct (stack_class (in_op i)); intuition. }
  destruct Hd1 as [Hd1 Hd2]. destruct (stack_parses_step stack prog i Hs Hd1 Hi) as (stack1 & Hs1 & Hz).
  rewrite <- Hz in Hd2. destruct (IH stack1 (prog ++ [i]) Hs1 Hd2 Ht) as (stack' & Hs' & Hz').
  exists stack'. rewrite <- app_assoc in Hs'. split; [done|]. rewrite Hz', Hz. reflexivity.
Qed.

Lemma depth_one_postfix ins :
  depth_safe 0 ins -> final_depth 0 ins = 1 ->
  Forall (fun i => stack_class (in_op i) <> ClsTerminal) ins -> exists f, postfix f ins.
Proof.
  intros Hd Hf Ht. destruct (depth_safe_parses ins [] []) as (stack & Hs & Hz); [by exists []|done|done|].
  change (zlen (@nil formula)) with 0 in Hz. rewrite Hf in Hz.
  destruct stack as [|f [|g stack]]; [done| |rewrite !zlen_cons in Hz; pose proof (zlen_nonneg stack); lia].
  exists f. destruct Hs as (parts & Hp & Heq). simpl in Heq. subst ins.
  apply Forall2_cons_inv_l in Hp as (l & parts' & Hl & Hp & ->). apply Forall2_nil_inv_l in Hp as ->.
  simpl. by rewrite app_nil_r.
Qed.

Lemma postfix_nonempty f l : postfix f l -> l <> [].
Proof. intros [i|? l' i|? ? l' k i|? ? l' k i]; [done|..]; rewrite ?app_assoc; intros E%app_nil; by destruct E. Qed.

(** The machine computes a formula from its postfix form. *)
Lemma run_instrs_app {S R} (step : byte -> Z -> S -> run (ctl S R)) l k s :
  run_instrs step (l ++ k) s =
  (let! c := run_instrs step l s in
   match c with Continue s' => run_instrs step k s' | Return r => Done (Return r) end).
Proof.
  revert s. induction l as [|i l IH]; intros s; [done|]. cbn [app run_instrs].
  destruct (step (in_op i) (in_param i) s) as [[s'|r]| |]; cbn [run_bind]; [apply IH|done..].
Qed.

Section Formula.
Context {R : Type} (act : byte -> Z -> action R) (atom : byte -> Z -> bool) (known : splitInstr -> Prop).
Hypothesis act_push : forall i, known i -> stack_class (in_op i) = ClsPush ->
  act (in_op i) (in_param i) = ActPush (atom (in_op i) (in_param i)).
Hypothesis act_not : forall op param, opcode_of op = Some OP_NOT -> act op param = ActNot.
Hypothesis act_and : forall op param, opcode_of op = Some OP_AND -> act op param = ActAnd.
Hypothesis act_or : forall op param, opcode_of op = Some OP_OR -> act op param = ActOr.

Lemma machine_postfix f l stack :
  postfix f l -> Forall known l -> machine act l stack = Done (Continue (holds atom f :: stack)).
Proof.
  intros Hf. revert stack. unfold machine.
  induction Hf as [i Hi|f l i _ IH Hi|f g l k i _ IHf _ IHg Hi|f g l k i _ IHf _ IHg Hi]; intros stack Hk;
    rewrite ?Forall_app, ?Forall_singleton in Hk.
  - simpl. by rewrite act_push.
  - rewrite run_instrs_app, IH by apply Hk. simpl. by rewrite act_not.
  - rewrite !run_instrs_app, IHf by apply Hk. cbn [run_bind]. rewrite run_instrs_app, IHg by apply Hk.
    simpl. by rewrite act_and.
  - rewrite !run_instrs_app, IHf by apply Hk. cbn [run_bind]. rewrite run_instrs_app, IHg by apply Hk.
    simpl. by rewrite act_or.
Qed.
End Formula.

(** ** Accepted predicates *)

Section Accepted.
Context `{HostEnv}.

Definition atom_value (t : tables) (e : bytecodeEval) (op : byte) (param : Z) : bool :=
  match opcode_of op with
  | Some OP_TRUE => true
  | Some OP_FALSE => false
  | Some o => predicateValue t e o param
  | None => false
  end.

(** The instructions that validation lets through. *)
Definition predicate_instr (i : splitInstr) : Prop :=
  0 <= in_param i /\ stack_class (in_op i) <> ClsTerminal /\
  exists o, opcode_of (in_op i) = Some o /\
    (has_predicate o = true \/ o ∈ [OP_TRUE; OP_FALSE; OP_NOT; OP_AND; OP_OR]).

Lemma validatePredicateOp_known t name i : checked (validatePredicateOp t name) i -> predicate_instr i.
Proof.
  intros ([o Ho] & Hp & pc & Hv). unfold validatePredicateOp in Hv. rewrite Ho in Hv. split; [lia|].
  unfold stack_class. rewrite Ho.
  destruct o; try discriminate Hv; (split; [done|]); eexists; (split; [reflexivity|]); (by left) || (right; set_solver).
Qed.

Lemma common_action_push {R} t e i :
  predicate_instr i -> stack_class (in_op i) = ClsPush ->
  common_action (R := R) t e (in_op i) (in_param i) = ActPush (atom_value t e (in_op i) (in_param i)).
Proof.
  intros (_ & _ & o & Ho & Hk). unfold stack_class, common_action, atom_value. rewrite Ho.
  destruct o; simpl; try done; destruct Hk as [Hk|Hk]; (done || set_solver).
Qed.

(** [code] is the postfix form of [f]. *)
Definition predicate_of (code : list byte) (f : formula) : Prop :=
  exists ins, decodes code 0 ins /\ postfix f ins /\ Forall predicate_instr ins.

Lemma validatePredicate_sound t name code :
  exists r, validatePredicate t name code = Done r /\ (r = Success tt -> exists f, predicate_of code f).
Proof.
  unfold validatePredicate. destruct (validate_loop_sound name code (validatePredicateOp t name)) as (r & -> & Hr).
  cbn [run_bind]. eexists. split; [done|]. destruct r as [depth|e]; [|done]. cbn [result_bind].
  intros Hc. apply check_Success, negb_false_iff, Z.eqb_eq in Hc as ->.
  destruct (Hr 1 eq_refl) as (ins & Hdec & Hall & Hsafe & Hfin).
  assert (Hk : Forall predicate_instr ins)
    by (eapply Forall_impl; [exact Hall|intros i; apply validatePredicateOp_known]).
  destruct (depth_one_postfix ins) as [f Hf]; [done|done|eapply Forall_impl; [exact Hk|by intros i (_ & ? & _)]|].
  by exists f, ins.
Qed.

(** A filter computes its formula on the call. *)
Lemma remap_exec_formula (cfg : RemapperBytecodeRules) code f info ops now :
  Forall is_Some (t_regexps (rm_tables cfg)) -> predicate_of code f ->
  remap_exec cfg code info ops now = Done (holds (atom_value (rm_tables cfg) (remap_eval cfg info ops now)) f).
Proof.
  intros Hre (ins & Hdec & Hf & Hk). unfold remap_exec. rewrite (scan_decodes _ _ _ _ Hdec).
  set (e := remap_eval cfg info ops now).
  assert (Hinv : eval_inv e e).
  { unfold e, remap_eval. destruct (remapOperationClass _). apply eval_inv_refl. }
  pose proof (run_refines (fun s => eval_inv e s.1) snd (common_step (R := bool) (rm_tables cfg))
    (common_action (rm_tables cfg) e) ins (e, [])) as Href.
  cbn [snd] in Href. rewrite (machine_postfix _ (atom_value (rm_tables cfg) e) predicate_instr) with (f := f) in Href;
    [|intros i; apply common_action_push|by unfold common_action; intros ? ? ->..|done|done].
  destruct Href as ([e' st] & -> & _ & Hst); [|done|].
  - eapply Forall_impl; [exact Hk|]. intros i (Hp & _). by apply common_step_refines.
  - simpl in Hst. subst st. reflexivity.
Qed.
End Accepted.

(** ** Theorems *)

Section Theorems.
Context `{HostEnv}.

(** The meaning of an accepted rule: its action is taken over; without a
    predicate there is no filter, otherwise the filter is a formula. *)
Definition rule_meaning (cfg : RemapperBytecodeRules) (rule : RemapperBytecodeRule) (r : RemapRule) : Prop :=
  (rr_Endpoint r, rr_Field r, rr_Addr r, rr_Port r) =
    (ra_Endpoint (rb_Action rule), ra_Field (rb_Action rule), ra_Addr (rb_Action rule), ra_Port (rb_Action rule)) /\
  (ra_Endpoint (rb_Action rule) = RemapSrc \/ ra_Endpoint (rb_Action rule) = RemapDst) /\
  match rr_Filter r with
  | None => rb_Predicate rule = []
  | Some filter => exists f ops, predicate_of (rb_Predicate rule) f /\
      bytecodeAddrStringOps (rb_Predicate rule) = Done ops /\
      forall info now, filter info now =
        Done (holds (atom_value (rm_tables cfg) (remap_eval cfg info ops now)) f)
  end.

Lemma validateRules_sound t i rules :
  exists r, validateRules t i rules = Done r /\
  (r = Success tt -> Forall (fun rule =>
     (ra_Endpoint (rb_Action rule) = RemapSrc \/ ra_Endpoint (rb_Action rule) = RemapDst) /\
     (rb_Predicate rule = [] \/ exists f, predicate_of (rb_Predicate rule) f)) rules).
Proof.
  revert i. induction rules as [|rule rules IH]; intros i; cbn [validateRules]; [by eexists|].
  destruct (validateRemapAction i (rb_Action rule)) as [[]|e] eqn:Ea; [|by eexists].
  assert (He : ra_Endpoint (rb_Action rule) = RemapSrc \/ ra_Endpoint (rb_Action rule) = RemapDst).
  { unfold validateRemapAction in Ea. apply result_bind_Success in Ea as ([] & Ha & _).
    apply check_Success in Ha. lia. }
  destruct (IH (i + 1)) as (r & Hr & Hok). destruct (Z.eqb_spec (zlen (rb_Predicate rule)) 0) as [Hz|Hz].
  - exists r. split; [done|]. intros ->. constructor; [|by apply Hok]. split; [done|left].
    unfold zlen in Hz. destruct (rb_Predicate rule); [done|simpl in Hz; lia].
  - destruct (validatePredicate_sound t (rule_name i) (rb_Predicate rule)) as (v & -> & Hv). cbn [run_bind].
    destruct v as [[]|e]; [|by eexists]. exists r. split; [done|]. intros ->. constructor; [|by apply Hok].
    split; [done|right]. by apply Hv.
Qed.

Lemma remapRules_sound cfg rules :
  Forall is_Some (t_regexps (rm_tables cfg)) ->
  Forall (fun rule =>
     (ra_Endpoint (rb_Action rule) = RemapSrc \/ ra_Endpoint (rb_Action rule) = RemapDst) /\
     (rb_Predicate rule = [] \/ exists f, predicate_of (rb_Predicate rule) f)) rules ->
  exists rr, remapRules cfg rules = Done rr /\ Forall2 (rule_meaning cfg) rules rr.
Proof.
  intros Hre Hall. induction Hall as [|rule rules [He Hp] Hall IH]; [by eexists|].
  destruct IH as (rr & Hrr & Hm). cbn [remapRules]. destruct Hp as [Hp|[f Hf]].
  - rewrite Hp. cbn [run_bind]. change (0 <? zlen (@nil byte)) with false. cbn [run_bind]. rewrite Hrr.
    eexists. split; [done|]. constructor; [|done]. by split_and!.
  - pose proof Hf as (ins & Hdec & Hpost & _).
    assert (Hz : (0 <? zlen (rb_Predicate rule)) = true).
    { destruct (rb_Predicate rule) as [|b code]; [|rewrite zlen_cons; pose proof (zlen_nonneg code); lia].
      inversion Hdec; subst; [by apply postfix_nonempty in Hpost|done]. }
    rewrite Hz, (bytecodeAddrStringOps_spec _ _ Hdec). cbn [run_bind]. rewrite Hrr. eexists. split; [done|].
    constructor; [|done]. split_and!; [done|done|]. simpl. exists f. eexists.
    split_and!; [done|apply (bytecodeAddrStringOps_spec _ _ Hdec)|].
    intros info now. by apply remap_exec_formula.
Qed.

Lemma NewBytecodeRemapRules_sound rules :
  exists r, NewBytecodeRemapRules rules = Done r /\
  forall rr, r = Success rr -> Forall2 (rule_meaning rules) (rm_Rules rules) rr.
Proof.
  unfold NewBytecodeRemapRules, validateRemapper.
  destruct (validateRegexps (t_regexps (rm_tables rules))) as [[]|e] eqn:Ere; cbn [result_bind run_bind]; [|by eexists].
  destruct (validateTables _ _ _) as [[]|e]; cbn [run_bind]; [|by eexists].
  destruct (validateRules_sound (rm_tables rules) 0 (rm_Rules rules)) as (v & -> & Hv). cbn [run_bind].
  destruct v as [[]|e]; [|by eexists].
  destruct (remapRules_sound rules (rm_Rules rules)) as (rr & -> & Hm);
    [by eapply validateRegexps_ok|by apply Hv|]. cbn [run_bind]. eexists. split; [done|]. by intros rr' [= <-].
Qed.

(** Rules with that meaning never panic. *)
Lemma remap_meaning_total cfg rules rr : Forall2 (rule_meaning cfg) rules rr ->
  forall now op network src hasSrc dst hasDst, exists st,
    remap rr now op network src hasSrc dst hasDst = Done st.
Proof.
  induction 1 as [|rule r rules rr (_ & _ & Hf) Hall IH]; intros now op network src hasSrc dst hasDst; [by eexists|].
  cbn [remap].
  assert (Hstep : exists st, remap_rule op hasSrc hasDst (now 0%nat) r (network, src, dst) = Done st).
  { unfold remap_rule. destruct (if rr_Endpoint r =? RemapSrc then _ else _) as [current|]; [|by eexists].
    destruct (rr_Filter r) as [filter|].
    - destruct Hf as (f & ops & _ & _ & Hfilter). rewrite Hfilter. cbn [run_bind].
      destruct (negb _); [by eexists|]. destruct (remapAddress current r). by eexists.
    - cbn [run_bind negb]. destruct (remapAddress current r). by eexists. }
  destruct Hstep as ([[n s] d] & ->). cbn [run_bind]. apply IH.
Qed.

(** C32. [NewBytecodeRemapRules] always returns.  When it accepts, every rule
    it hands out keeps the action it was given, has no filter exactly when the
    predicate is empty, and otherwise its program is the postfix form of a
    boolean formula and its filter returns the value of that formula on the
    call it is asked about; the remapper that runs these rules returns for
    every operation, every address and every reading of the clock. *)
Theorem remap_rules_formulas rules :
  (exists r, NewBytecodeRemapRules rules = Done r) /\
  (forall rr, NewBytecodeRemapRules rules = Done (Success rr) ->
     Forall2 (rule_meaning rules) (rm_Rules rules) rr /\
     forall now op network src hasSrc dst hasDst, exists st,
       remap rr now op network src hasSrc dst hasDst = Done st).
Proof.
  destruct (NewBytecodeRemapRules_sound rules) as (r & Hr & Hm). split; [by exists r|].
  intros rr Hrr. rewrite Hr in Hrr. injection Hrr as ->. specialize (Hm rr eq_refl). split; [done|].
  by eapply remap_meaning_total.
Qed.
End Theorems.

(** The endpoint written in a REMAP ADDR_PORT rule is the endpoint that
    is used: whatever the old endpoint, the new one splits into the host and
    port into which the written value splits. *)
Theorem remap_argument_endpoint arg f0 f1 f2 a filter current :
  Fields arg = [f0; f1; f2] -> parseRemapAction arg true = Some a -> ra_Field a = RemapAddrPort ->
  exists host port, SplitHostPort f2 = Some (host, port) /\
  SplitHostPort (remapAddress current
    (MkRemapRule filter (ra_Endpoint a) (ra_Field a) (ra_Addr a) (ra_Port a))).1 = Some (host, port).
Proof.
  intros Hf Hp Ha. unfold parseRemapAction in Hp. rewrite Hf in Hp.
  destruct (negb true || String.eqb (TrimSpace arg) ""); [done|].
  destruct (parseRemapEndpoint f0) as [ep|]; [|done]. destruct (parseRemapField f1) as [fl|]; [|done].
  assert (fl = RemapAddrPort) as ->.
  { destruct (Z.eqb_spec fl RemapAddrPort) as [|]; [done|]. destruct (fl =? RemapAddr), (fl =? RemapPort);
      injection Hp as <-; done. }
  unfold splitHostPort in Hp. simpl in Hp. destruct (String.eqb f2 ""); [done|].
  destruct (SplitHostPort f2) as [[host port]|] eqn:E; [|done]. injection Hp as <-.
  exists host, port. split; [done|]. apply SplitHostPort_clean in E as [Hh Ht].
  unfold remapAddress. simpl. rewrite (Trim_host host Hh). by apply SplitHostPort_Join.
Qed.

(** ** Witnesses *)

(** "TCP PORT 80 AND" with "REMAP DST ADDR_PORT [::1]:8080". *)
Definition sample_remap_rules : RemapperBytecodeRules :=
  MkRemapperRules (MkTables [] [] [] [] [] []) None
    [MkBytecodeRule [op_byte OP_TCP; op_byte OP_PORT; byte_of_Z 80; x00; op_byte OP_AND]
       (MkRemapAction RemapDst RemapAddrPort "::1" "8080")].

Definition sample_remap_out : list RemapRule :=
  match @NewBytecodeRemapRules bare_host sample_remap_rules with Done (Success rr) => rr | _ => [] end.

Lemma sample_remap_accepted :
  @NewBytecodeRemapRules bare_host sample_remap_rules = Done (Success sample_remap_out).
Proof.
  assert (Hok : match @NewBytecodeRemapRules bare_host sample_remap_rules with
                | Done (Success _) => true | _ => false end = true) by (vm_compute; reflexivity).
  revert Hok. unfold sample_remap_out.
  by destruct (@NewBytecodeRemapRules bare_host sample_remap_rules) as [[rr|e]| |].
Qed.

Lemma remap_rules_formulas_witness :
  @NewBytecodeRemapRules bare_host sample_remap_rules = Done (Success sample_remap_out) /\
  Forall2 (@rule_meaning bare_host sample_remap_rules) (rm_Rules sample_remap_rules) sample_remap_out /\
  forall now op network src hasSrc dst hasDst, exists st,
    remap sample_remap_out now op network src hasSrc dst hasDst = Done st.
Proof.
  assert (Hn : @NewBytecodeRemapRules bare_host sample_remap_rules = Done (Success sample_remap_out))
    by exact sample_remap_accepted.
  split; [exact Hn|]. exact (proj2 (@remap_rules_formulas bare_host sample_remap_rules) sample_remap_out Hn).
Defined.

Example sample_bytecode_remapped :
  Remapper.Dial sample_remap_out no_clock "tcp" "example.test:80" = Done ("tcp", "[::1]:8080") /\
  Remapper.Dial sample_remap_out no_clock "tcp" "example.test:81" = Done ("tcp", "example.test:81").
Proof. vm_compute. done. Qed.

Lemma remap_argument_endpoint_witness :
  exists host port, SplitHostPort "[::1]:8080" = Some (host, port) /\
  SplitHostPort (remapAddress "example.test:80" (MkRemapRule None RemapDst RemapAddrPort "::1" "8080")).1
    = Some (host, port).
Proof.
  apply (remap_argument_endpoint "dst addr_port [::1]:8080" "dst" "addr_port" "[::1]:8080"
    (MkRemapAction RemapDst RemapAddrPort "::1" "8080") None "example.test:80"); vm_compute; reflexivity.
Defined.
