(* ===== verification/DNSRouter.v ===== *)
(** * The DNS router

    Models src/dns/router.go: the backends and the route function under the
    mutex, the generation channel [done] that mutations replace, and the
    requests that run concurrently with mutations.  A critical section is one
    step; [current] is two of them with the call of the route function in
    between.  A channel is a number; [close] of a closed channel panics.

    Backends, messages and route functions are opaque; [routed f m name] holds
    when the route function can return [name] for the message. *)

From S2P Require Import Prelude.

Section Router.
Context {Interface Message RouteFunc : Type}.
Context (routed : RouteFunc -> Message -> string -> Prop).

(** ** State *)

Record Router : Type := MkRouter {
  r_backends : gmap string Interface;
  r_route : option RouteFunc;
  r_done : nat;
  r_closed : bool;
  (** the closed channels, and the next channel [make] returns *)
  ch_closed : gset nat;
  ch_next : nat }.

Inductive routerError : Type := ErrInvalidBackendName | ErrClosed | ErrNoUpstream | ErrCanceled.

Definition NewRouter : Router := MkRouter ∅ None 0 false ∅ 1.

Definition close_channel (c : nat) (r : Router) : run Router :=
  if bool_decide (c ∈ ch_closed r) then Panicked
  else Done (MkRouter (r_backends r) (r_route r) (r_done r) (r_closed r) ({[c]} ∪ ch_closed r) (ch_next r)).

Definition cancelLocked (r : Router) : run Router :=
  let! r := close_channel (r_done r) r in
  Done (MkRouter (r_backends r) (r_route r) (ch_next r) (r_closed r) (ch_closed r) (S (ch_next r))).

(** ** Mutations *)

Definition Close (r : Router) : run Router :=
  if negb (r_closed r) then
    close_channel (r_done r)
      (MkRouter (r_backends r) (r_route r) (r_done r) true (ch_closed r) (ch_next r))
  else Done r.

Definition set_backends (r : Router) (b : gmap string Interface) : Router :=
  MkRouter b (r_route r) (r_done r) (r_closed r) (ch_closed r) (ch_next r).

Definition set_route (r : Router) (f : option RouteFunc) : Router :=
  MkRouter (r_backends r) f (r_done r) (r_closed r) (ch_closed r) (ch_next r).

Definition Detach (name : string) (r : Router) : run (Router * option routerError) :=
  if String.eqb name "" then Done (r, Some ErrInvalidBackendName)
  else if r_closed r then Done (r, Some ErrClosed)
  else let! r := cancelLocked r in Done (set_backends r (delete name (r_backends r)), None).

Definition Attach (name : string) (backend : option Interface) (r : Router) : run (Router * option routerError) :=
  if String.eqb name "" then Done (r, Some ErrInvalidBackendName)
  else match backend with
       | None => Detach name r
       | Some b =>
           if r_closed r then Done (r, Some ErrClosed)
           else let! r := cancelLocked r in Done (set_backends r (<[name := b]> (r_backends r)), None)
       end.

Definition AttachRouter (f : option RouteFunc) (r : Router) : run (Router * option routerError) :=
  if r_closed r then Done (r, Some ErrClosed)
  else let! r := cancelLocked r in Done (set_route r f, None).

Definition SetRouter (f : option RouteFunc) (r : Router) := AttachRouter f r.
Definition DetachRouter (r : Router) := AttachRouter None r.

(** ** Requests *)

(** The first critical section of [current]. *)
Definition current_begin (r : Router) : result routerError RouteFunc * nat :=
  match r_closed r, r_route r with
  | false, Some route => (Success route, r_done r)
  | _, _ => (Failure ErrNoUpstream, r_done r)
  end.

(** The second one, with what the first read and the name it was routed to. *)
Definition current_end (done : nat) (name : string) (r : Router) : result routerError Interface :=
  if negb (Nat.eqb done (r_done r)) then Failure ErrCanceled
  else if String.eqb name "" then Failure ErrNoUpstream
  else match r_backends r !! name with
       | None => Failure ErrNoUpstream
       | Some backend => Success backend
       end.

(** Where the goroutine of a request is in [handle].  A request that queries
    a backend is cancelled when its [done] channel is closed. *)
Inductive request : Type :=
| Arrived (msg : Message)
| Routing (msg : Message) (route : RouteFunc) (done : nat)
| Named (msg : Message) (route : RouteFunc) (done : nat) (name : string)
| Querying (msg : Message) (route : RouteFunc) (done : nat) (name : string) (backend : Interface)
| Answered (err : option routerError).

(** ** Steps *)

Inductive mutation : Type :=
| MClose
| MAttach (name : string) (backend : option Interface)
| MDetach (name : string)
| MAttachRouter (f : option RouteFunc).

Definition mutate (m : mutation) (r : Router) : run (Router * option routerError) :=
  match m with
  | MClose => let! r := Close r in Done (r, None)
  | MAttach name backend => Attach name backend r
  | MDetach name => Detach name r
  | MAttachRouter f => AttachRouter f r
  end.

(** The router and its requests. *)
Definition system : Type := Router * list request.

Definition begin_request (msg : Message) (r : Router) : request :=
  match current_begin r with
  | (Success route, done) => Routing msg route done
  | (Failure e, _) => Answered (Some e)
  end.

Definition end_request (msg : Message) (route : RouteFunc) (done : nat) (name : string) (r : Router) : request :=
  match current_end done name r with
  | Success backend => Querying msg route done name backend
  | Failure e => Answered (Some e)
  end.

Inductive step : system -> system -> Prop :=
| step_mutate m r r' e reqs : mutate m r = Done (r', e) -> step (r, reqs) (r', reqs)
| step_arrive r reqs msg : step (r, reqs) (r, reqs ++ [Arrived msg])
| step_begin r reqs i msg : reqs !! i = Some (Arrived msg) ->
    step (r, reqs) (r, <[i := begin_request msg r]> reqs)
| step_route r reqs i msg route done name : reqs !! i = Some (Routing msg route done) ->
    routed route msg name -> step (r, reqs) (r, <[i := Named msg route done name]> reqs)
| step_end r reqs i msg route done name : reqs !! i = Some (Named msg route done name) ->
    step (r, reqs) (r, <[i := end_request msg route done name r]> reqs)
| step_answer r reqs i msg route done name backend err :
    reqs !! i = Some (Querying msg route done name backend) ->
    step (r, reqs) (r, <[i := Answered err]> reqs).

Definition reachable (s : system) : Prop := rtc step (NewRouter, []) s.

(** ** Invariant *)

(** The channels of the router: the current one is open until Close. *)
Definition channels_ok (r : Router) : Prop :=
  (r_done r < ch_next r)%nat /\ (forall c, c ∈ ch_closed r -> (c < ch_next r)%nat) /\
  (forall c, (c < ch_next r)%nat -> c <> r_done r -> c ∈ ch_closed r) /\
  (r_done r ∈ ch_closed r <-> r_closed r = true).

(** What a request knows is current as long as its channel is. *)
Definition request_ok (r : Router) (q : request) : Prop :=
  match q with
  | Arrived _ | Answered _ => True
  | Routing _ route done => (done < ch_next r)%nat /\ (done = r_done r -> r_route r = Some route)
  | Named msg route done name => (done < ch_next r)%nat /\ routed route msg name /\
      (done = r_done r -> r_route r = Some route)
  | Querying msg route done name backend => (done < ch_next r)%nat /\ routed route msg name /\
      (done = r_done r -> r_route r = Some route /\ r_backends r !! name = Some backend)
  end.

Definition system_ok (s : system) : Prop := channels_ok s.1 /\ Forall (request_ok s.1) s.2.

(** A mutation that cancels: a new channel, the old one closed. *)
Lemma cancelLocked_ok r : channels_ok r -> r_closed r = false ->
  exists r', cancelLocked r = Done r' /\ channels_ok r' /\ r_done r' = ch_next r /\ ch_next r' = S (ch_next r) /\
    r_closed r' = false /\ r_backends r' = r_backends r /\ r_route r' = r_route r /\
    ch_closed r' = {[r_done r]} ∪ ch_closed r.
Proof.
  intros (Hd & Hc & Ho & Hcl) Hf. unfold cancelLocked, close_channel.
  destruct (bool_decide (r_done r ∈ ch_closed r)) eqn:E.
  { apply bool_decide_eq_true, Hcl in E. congruence. }
  cbn. eexists. split; [done|]. cbn. split_and!; try done. unfold channels_ok. cbn. split_and!.
  - lia.
  - intros c [->%elem_of_singleton|Hin]%elem_of_union; [lia|]. apply Hc in Hin. lia.
  - intros c H1 H2. destruct (decide (c = r_done r)) as [->|]; [set_solver|].
    apply elem_of_union_r, Ho; [lia|done].
  - rewrite Hf. split; [|done]. intros [Hin%elem_of_singleton|Hin]%elem_of_union; [lia|]. apply Hc in Hin. lia.
Qed.

(** [r'] is [r] with a new channel, the old one closed. *)
Definition next_generation (r r' : Router) : Prop :=
  channels_ok r' /\ ch_next r' = S (ch_next r) /\ r_done r' = ch_next r /\
  ch_closed r' = {[r_done r]} ∪ ch_closed r.

(** What a mutation that cancels first may write. *)
Definition writes_only (f : Router -> Router) : Prop :=
  forall x, r_done (f x) = r_done x /\ ch_next (f x) = ch_next x /\ ch_closed (f x) = ch_closed x /\
    r_closed (f x) = r_closed x.

(** A mutation fails and changes nothing, or starts a new generation. *)
Definition mutates (r : Router) (c : run (Router * option routerError)) : Prop :=
  exists r' e, c = Done (r', e) /\ match e with Some _ => r' = r | None => next_generation r r' end.

Lemma mutates_error r e : mutates r (Done (r, Some e)).
Proof. by exists r, (Some e). Qed.

Lemma cancel_then_mutates r f : channels_ok r -> writes_only f ->
  mutates r (if r_closed r then Done (r, Some ErrClosed) else let! x := cancelLocked r in Done (f x, None)).
Proof.
  intros Hok Hf. destruct (r_closed r) eqn:Ecl; [apply mutates_error|].
  destruct (cancelLocked_ok r Hok Ecl) as (x & -> & Hx & Hxd & Hxn & _ & _ & _ & Hxc).
  exists (f x), None. split; [done|]. destruct (Hf x) as (F1 & F2 & F3 & F4).
  unfold next_generation. rewrite F1, F2, F3. split; [|done].
  unfold channels_ok in *. by rewrite F1, F2, F3, F4.
Qed.

Lemma Detach_mutates name r : channels_ok r -> mutates r (Detach name r).
Proof.
  intros Hok. unfold Detach. destruct (String.eqb name ""); [apply mutates_error|].
  by apply (cancel_then_mutates r (fun x => set_backends x (delete name (r_backends x)))).
Qed.

Lemma Attach_mutates name backend r : channels_ok r -> mutates r (Attach name backend r).
Proof.
  intros Hok. unfold Attach. destruct (String.eqb name ""); [apply mutates_error|].
  destruct backend as [b|]; [|by apply Detach_mutates].
  by apply (cancel_then_mutates r (fun x => set_backends x (<[name := b]> (r_backends x)))).
Qed.

Lemma AttachRouter_mutates f r : channels_ok r -> mutates r (AttachRouter f r).
Proof. intros Hok. by apply (cancel_then_mutates r (fun x => set_route x f)). Qed.

(** Close closes the current channel once. *)
Lemma Close_ok r : channels_ok r ->
  exists r', Close r = Done r' /\ channels_ok r' /\ r_closed r' = true /\
    r_backends r' = r_backends r /\ r_route r' = r_route r /\ r_done r' = r_done r /\ ch_next r' = ch_next r /\
    ch_closed r' = {[r_done r]} ∪ ch_closed r.
Proof.
  intros (Hd & Hc & Ho & Hcl). unfold Close. destruct (r_closed r) eqn:Ecl; cbn [negb].
  - exists r. assert (r_done r ∈ ch_closed r) by (by apply Hcl). unfold channels_ok. rewrite Ecl.
    split_and!; (done || set_solver).
  - unfold close_channel. cbn. destruct (bool_decide (r_done r ∈ ch_closed r)) eqn:E.
    { apply bool_decide_eq_true, Hcl in E. congruence. }
    eexists. split; [done|]. unfold channels_ok. cbn. split_and!; try done.
    + intros c [->%elem_of_singleton|Hin]%elem_of_union; [lia|by apply Hc].
    + intros c H1 H2. by apply elem_of_union_r, Ho.
    + split; [done|]. set_solver.
Qed.

(** Every mutation returns; a successful one closes the channel. *)
Lemma mutate_ok m r : channels_ok r ->
  exists r' e, mutate m r = Done (r', e) /\ channels_ok r' /\ (e = None -> r_done r ∈ ch_closed r') /\
    ch_closed r ⊆ ch_closed r' /\ (forall q, request_ok r q -> request_ok r' q).
Proof.
  intros Hok.
  assert (Hgen : forall c, mutates r c -> exists r' e, c = Done (r', e) /\ channels_ok r' /\
    (e = None -> r_done r ∈ ch_closed r') /\ ch_closed r ⊆ ch_closed r' /\
    (forall q, request_ok r q -> request_ok r' q)).
  { intros c (r' & e & -> & He). exists r', e. split; [done|]. destruct e as [e|]; [by subst r'|].
    destruct He as (Hok' & Hn & Hd & ->). split_and!; [done|set_solver|set_solver|].
    intros [] Hq; simpl in *; rewrite ?Hn, ?Hd; intuition lia. }
  destruct m as [|name backend|name|f]; cbn [mutate];
    [|by apply Hgen, Attach_mutates|by apply Hgen, Detach_mutates|by apply Hgen, AttachRouter_mutates].
  destruct (Close_ok r Hok) as (r' & -> & Hok' & _ & Hb & Hr & Hd & Hn & Hc). exists r', None.
  split; [done|]. rewrite Hc. split_and!; [done|set_solver|set_solver|].
  intros [] Hq; simpl in *; by rewrite ?Hn, ?Hd, ?Hr, ?Hb.
Qed.

Lemma begin_request_ok msg r : channels_ok r -> request_ok r (begin_request msg r).
Proof.
  intros (Hd & _). unfold begin_request, current_begin.
  destruct (r_closed r), (r_route r) eqn:E; simpl; done.
Qed.

Lemma end_request_ok msg route done name r :
  request_ok r (Named msg route done name) -> request_ok r (end_request msg route done name r).
Proof.
  intros (Hd & Hn & Hr). unfold end_request, current_end.
  destruct (Nat.eqb_spec done (r_done r)); simpl; [|done]. destruct (String.eqb name ""); [done|].
  destruct (r_backends r !! name) eqn:E; simpl; [|done]. split_and!; [done|done|]. auto.
Qed.

Lemma step_ok s s' : system_ok s -> step s s' -> system_ok s'.
Proof.
  intros [Hok Hreq] Hs. destruct Hs as [m r r' e reqs Hm|r reqs msg|r reqs i msg Hi|r reqs i msg route done name Hi Hn
    |r reqs i msg route done name Hi|r reqs i msg route done name backend err Hi]; simpl in *.
  - destruct (mutate_ok m r Hok) as (r1 & e1 & Heq & Hok1 & _ & _ & Hq). rewrite Hm in Heq.
    injection Heq as <- <-. split; [done|]. eapply Forall_impl; [exact Hreq|exact Hq].
  - split; [done|]. apply Forall_app. split; [done|]. by constructor.
  - split; [done|]. apply Forall_insert; [done|]. by apply begin_request_ok.
  - split; [done|]. apply Forall_insert; [done|].
    pose proof (Forall_lookup_1 _ _ _ _ Hreq Hi) as (Hd & Hr). simpl. by split_and!.
  - split; [done|]. apply Forall_insert; [done|]. apply end_request_ok. exact (Forall_lookup_1 _ _ _ _ Hreq Hi).
  - split; [done|]. by apply Forall_insert.
Qed.

Lemma reachable_ok s : reachable s -> system_ok s.
Proof.
  intros Hr. assert (H0 : system_ok (NewRouter, [])).
  { split; [|constructor]. unfold channels_ok. simpl. split_and!; [lia|set_solver| |set_solver]. lia. }
  revert H0. induction Hr as [|x y z Hxy _ IH]; [done|]. intros H0. apply IH. by eapply step_ok.
Qed.

(** ** Theorems *)

(** The request is queried with a context that is not cancelled by the router. *)
Definition live (r : Router) (q : request) : Prop :=
  match q with Querying _ _ done _ _ => done ∉ ch_closed r | _ => False end.

(** C34. In every reachable state of the router, whatever mutations, arrivals
    and routing decisions were interleaved, a request that queries a backend
    and has not been cancelled was routed by the route function that is
    installed now, to the backend that is attached now under the name that the
    function gave for its message, and the router is open. *)
Theorem dns_live_requests_current s q :
  reachable s -> q ∈ s.2 -> live s.1 q ->
  r_closed s.1 = false /\
  exists msg route done name backend, q = Querying msg route done name backend /\
    r_route s.1 = Some route /\ routed route msg name /\ r_backends s.1 !! name = Some backend.
Proof.
  intros [(Hd & Hc & Ho & Hcl) Hreq]%reachable_ok Hq Hl.
  rewrite Forall_forall in Hreq. specialize (Hreq q Hq). destruct q as [| | |msg route done name backend|]; simpl in Hl; try contradiction.
  destruct Hreq as (Hlt & Hn & Hcur).
  assert (done = r_done s.1) as ->. { destruct (decide (done = r_done s.1)); [done|]. by destruct Hl; apply Ho. }
  split; [destruct (r_closed s.1); [by destruct Hl; apply Hcl|done]|].
  destruct (Hcur eq_refl) as [Hr Hb]. by exists msg, route, (r_done s.1), name, backend.
Qed.

(** In every reachable state every mutation returns: no channel is closed
    twice.  A mutation that reports no error leaves no request live: all that
    were queried through the old backends or the old route function are
    cancelled; Close in particular cancels them all, once. *)
Theorem dns_mutations_cancel s m :
  reachable s ->
  exists r' e, mutate m s.1 = Done (r', e) /\ (e = None -> forall q, q ∈ s.2 -> ~ live r' q).
Proof.
  intros [Hok Hreq]%reachable_ok. destruct (mutate_ok m s.1 Hok) as (r' & e & Hm & Hok' & Hdone & Hsub & _).
  exists r', e. split; [done|]. intros He q Hq Hl. rewrite Forall_forall in Hreq. specialize (Hreq q Hq).
  destruct q as [| | |msg route done name backend|]; simpl in Hl; try contradiction. destruct Hreq as (Hlt & _).
  destruct Hok as (_ & _ & Ho & _). destruct (decide (done = r_done s.1)) as [->|Hne]; [by apply Hl, Hdone|].
  by apply Hl, Hsub, Ho.
Qed.
End Router.

Arguments MkRouter {Interface RouteFunc}.

(** ** Witnesses *)

(** Backends are numbers, a route function is a constant name. *)
Definition sample_routed (f : string) (_ : unit) (name : string) : Prop := name = f.

Definition sample_router : Router (Interface := nat) (RouteFunc := string) :=
  MkRouter {["up" := 7%nat]} (Some "up") 2 false {[0%nat; 1%nat]} 3.

Definition sample_request : request (Interface := nat) (Message := unit) (RouteFunc := string) :=
  Querying tt "up" 2 "up" 7%nat.

Lemma sample_reachable : reachable sample_routed (sample_router, [sample_request]).
Proof.
  unfold reachable.
  eapply rtc_l; [eapply (step_mutate _ (MAttach "up" (Some 7%nat))); vm_compute; reflexivity|].
  eapply rtc_l; [eapply (step_mutate _ (MAttachRouter (Some "up"))); vm_compute; reflexivity|].
  eapply rtc_l; [apply (step_arrive _ _ _ tt)|].
  eapply rtc_l; [by apply (step_begin _ _ _ 0%nat tt)|].
  eapply rtc_l; [by apply (step_route _ _ _ 0%nat tt "up" 2 "up")|].
  eapply rtc_l; [by apply (step_end _ _ _ 0%nat tt "up" 2 "up")|].
  match goal with |- rtc _ ?a ?b => replace a with b by (vm_compute; reflexivity) end. apply rtc_refl.
Qed.

Lemma dns_live_requests_current_witness :
  r_closed sample_router = false /\
  exists msg route done name backend, sample_request = Querying msg route done name backend /\
    r_route sample_router = Some route /\ sample_routed route msg name /\
    r_backends sample_router !! name = Some backend.
Proof.
  apply (dns_live_requests_current sample_routed (sample_router, [sample_request]) sample_request);
    [apply sample_reachable|set_solver|vm_compute; intros Hin; inversion Hin].
Defined.

Lemma dns_mutations_cancel_witness :
  exists r' e, mutate MClose sample_router = Done (r', e) /\
    (e = None -> forall q, q ∈ [sample_request] -> ~ live r' q).
Proof. apply (dns_mutations_cancel sample_routed (sample_router, [sample_request]) MClose), sample_reachable. Defined.
