(* ===== verification/DNSRules.v ===== *)
(** * DNS route functions in bytecode

    Models src/routing/dns_bytecode.go: the rules, their validation, the
    memoizing view of a message and the evaluator.  The route function picks a
    backend name for the DNS router of DNSRouter.v; the empty name rejects the
    request. *)

From S2P Require Import Prelude GoStd NetIP DNSCache Bytecode Machine AddrCache.
From S2P Require Import RouterCfg SnifferRules.

(** Also the copy bytecodeDNSRouteFunc, which has the same fields. *)
Record DNSBytecodeRules : Type := MkDNSRules {
  dr_Backends : list string; dr_tables : tables; dr_Route : list byte }.

(** ** Validation *)

Definition dns_invalid_op (op : byte) : bool :=
  match opcode_of op with Some (OP_UDP | OP_TCP | OP_PORT | OP_SLOT) => true | _ => false end.

Definition validateDNSOp (cfg : DNSBytecodeRules) : opValidator :=
  fun pc op param kind =>
    let t := dr_tables cfg in
    let name := "DNSRoute" in
    try! _ := check (isLAddrOp op || bool_decide (opcode_of op = Some OP_LPORT)) (ErrNotValid name pc op) in
    try! _ := check (isRouterMethodOp op || isSplitOnlyOp op || isSnifferOnlyOp op) (ErrNotValid name pc op) in
    try! _ := check (dns_invalid_op op) (ErrNotValid name pc op) in
    match kind with
    | bytecodeParamNone => Success tt
    | _ =>
        match opcode_of op with
        | Some OP_BACKEND => check_param_index name pc TblBackend (dr_Backends cfg) param
        | Some OP_ADDR_S => check_param_index name pc TblString (t_strings t) param
        | Some OP_ADDR_RE => check_param_index name pc TblRegexp (t_regexps t) param
        | Some OP_ADDR4 => check_param_index name pc TblIPv4 (t_ipv4Addrs t) param
        | Some OP_ADDR6 => check_param_index name pc TblIPv6 (t_ipv6Addrs t) param
        | Some OP_SNET4 => check_param_index name pc TblSubnet4 (t_ipv4Subnets t) param
        | Some OP_SNET6 => check_param_index name pc TblSubnet6 (t_ipv6Subnets t) param
        | _ => Success tt
        end
    end.

Definition validateDNS (cfg : DNSBytecodeRules) : run (result bcError unit) :=
  let t := dr_tables cfg in
  match first_bad (fun name => String.eqb name "") (dr_Backends cfg) 0 with
  | Some (i, _) => Done (Failure (ErrEmptyBackend i))
  | None =>
      match (try! _ := validateRegexps (t_regexps t) in
             validateTables (t_ipv4Subnets t) (t_ipv6Addrs t) (t_ipv6Subnets t)) with
      | Failure e => Done (Failure e)
      | Success _ => validateBytecode "DNSRoute" (dr_Route cfg) (validateDNSOp cfg)
      end
  end.

(** ** The view of a message *)

Record dnsBytecodeEval : Type := MkDNSEval {
  de_msg : option Message;
  de_questionDone : bool; de_question : Question; de_hasQuestion : bool;
  de_ipDone : bool; de_ipVal : Addr }.

Definition zero_question : Question := MkQuestion "" 0 0.

Definition newDNSBytecodeEval (msg : option Message) : dnsBytecodeEval :=
  MkDNSEval msg false zero_question false false AddrZero.

Definition firstQuestion (ev : dnsBytecodeEval) : Question * bool * dnsBytecodeEval :=
  if de_questionDone ev then (de_question ev, de_hasQuestion ev, ev)
  else
    let fail := (zero_question, false,
      MkDNSEval (de_msg ev) true (de_question ev) (de_hasQuestion ev) (de_ipDone ev) (de_ipVal ev)) in
    match de_msg ev with
    | None => fail
    | Some m =>
        match m_Questions m with
        | [] => fail
        | q :: _ => (q, true, MkDNSEval (de_msg ev) true q true (de_ipDone ev) (de_ipVal ev))
        end
    end.

Definition qname (ev : dnsBytecodeEval) : string * dnsBytecodeEval :=
  let '(q, ok, ev) := firstQuestion ev in (if negb ok then "" else q_Name q, ev).

Definition qtype (ev : dnsBytecodeEval) : Z * bool * dnsBytecodeEval :=
  let '(q, ok, ev) := firstQuestion ev in if negb ok then (0, false, ev) else (q_Type q, true, ev).

Definition qclass (ev : dnsBytecodeEval) : Z * bool * dnsBytecodeEval :=
  let '(q, ok, ev) := firstQuestion ev in if negb ok then (0, false, ev) else (q_Class q, true, ev).

Definition dns_opcode (ev : dnsBytecodeEval) : Z * bool :=
  match de_msg ev with None => (0, false) | Some m => (m_Opcode m, true) end.

Definition dns_ip (ev : dnsBytecodeEval) : Addr * dnsBytecodeEval :=
  if de_ipDone ev then (de_ipVal ev, ev)
  else
    let ev := MkDNSEval (de_msg ev) (de_questionDone ev) (de_question ev) (de_hasQuestion ev) true (de_ipVal ev) in
    let '(name, ev) := qname ev in
    let ip := parseHostIP (Trim name "[]") in
    (ip, MkDNSEval (de_msg ev) (de_questionDone ev) (de_question ev) (de_hasQuestion ev) true ip).

Definition dns_isFQDN (ev : dnsBytecodeEval) : bool * dnsBytecodeEval :=
  let '(name, ev) := qname ev in
  if negb (String.eqb name "") then let '(ip, ev) := dns_ip ev in (negb (IsValid ip), ev) else (false, ev).

Definition dns_matchString (want : string) (ev : dnsBytecodeEval) : bool * dnsBytecodeEval :=
  let '(name, ev) := qname ev in (EqualFold name want, ev).

Definition dns_matchIPv4 (want : Z) (ev : dnsBytecodeEval) : bool * dnsBytecodeEval :=
  let '(ip, ev) := dns_ip ev in
  if negb (Is4 ip) then (false, ev) else (As4Uint32 ip =? want, ev).

Definition dns_inIPv4Subnet (subnet : IPv4Subnet) (ev : dnsBytecodeEval) : bool * dnsBytecodeEval :=
  let '(ip, ev) := dns_ip ev in
  if negb (Is4 ip) then (false, ev) else (subnet_contains subnet (As4Uint32 ip), ev).

Definition dns_ipv6 (ev : dnsBytecodeEval) : Addr * dnsBytecodeEval :=
  let '(ip, ev) := dns_ip ev in if negb (Is6 ip) then (AddrZero, ev) else (ip, ev).

(** ** Evaluation *)

(** [ok && has && uint64(v) == param] *)
Definition number_test (param : Z) (v : Z) (has : bool) : bool :=
  (bytecodeParamInt param 65535).2 && has && (v =? param).

Definition dnsPredicate (t : tables) (op : opcode) (param : Z) (ev : dnsBytecodeEval)
  : option (run (bool * dnsBytecodeEval)) :=
  match op with
  | OP_NET4 => Some (let '(q, ok, ev) := qtype ev in Done (ok && (q =? TypeA), ev))
  | OP_NET6 => Some (let '(q, ok, ev) := qtype ev in Done (ok && (q =? TypeAAAA), ev))
  | OP_FQDN => Some (Done (dns_isFQDN ev))
  | OP_ADDR_S => Some (with_entry (t_strings t) param (fun s ev => Done (dns_matchString s ev)) ev)
  | OP_ADDR_RE => Some (with_entry (t_regexps t) param
      (fun re ev => let! re := must re in let '(name, ev) := qname ev in Done (re name, ev)) ev)
  | OP_ADDR4 => Some (with_entry (t_ipv4Addrs t) param (fun w ev => Done (dns_matchIPv4 w ev)) ev)
  | OP_ADDR6 => Some (with_entry (t_ipv6Addrs t) param
      (fun w ev => let '(ip, ev) := dns_ipv6 ev in Done (bool_decide (ip = w), ev)) ev)
  | OP_SNET4 => Some (with_entry (t_ipv4Subnets t) param (fun s ev => Done (dns_inIPv4Subnet s ev)) ev)
  | OP_SNET6 => Some (with_entry (t_ipv6Subnets t) param
      (fun p ev => let '(ip, ev) := dns_ipv6 ev in Done (Prefix_Contains p ip, ev)) ev)
  | OP_QTYPE => Some (let '(q, has, ev) := qtype ev in Done (number_test param q has, ev))
  | OP_QCLASS => Some (let '(q, has, ev) := qclass ev in Done (number_test param q has, ev))
  | OP_OPCODE => Some (let '(o, has) := dns_opcode ev in Done (number_test param o has, ev))
  | _ => None
  end.

Definition backend_result (cfg : DNSBytecodeRules) (param : Z) : run string :=
  let '(idx, ok) := bytecodeParamIndex param (zlen (dr_Backends cfg)) in
  if negb ok then Done "" else must (index (dr_Backends cfg) idx).

Definition dns_step (cfg : DNSBytecodeRules) (op : byte) (param : Z) (s : dnsBytecodeEval * list bool)
  : run (ctl (dnsBytecodeEval * list bool) string) :=
  let '(ev, stack) := s in
  match opcode_of op with
  | Some OP_DROP => terminal_step (Done "") s
  | Some OP_BACKEND => terminal_step (backend_result cfg param) s
  | Some OP_TRUE => Done (Continue (ev, true :: stack))
  | Some OP_FALSE => Done (Continue (ev, false :: stack))
  | Some OP_NOT =>
      let! '(v, stack) := popBool stack in Done (Continue (ev, negb v :: stack))
  | Some OP_AND =>
      let! '(b, stack) := popBool stack in
      let! '(a, stack) := popBool stack in
      Done (Continue (ev, (a && b) :: stack))
  | Some OP_OR =>
      let! '(b, stack) := popBool stack in
      let! '(a, stack) := popBool stack in
      Done (Continue (ev, (a || b) :: stack))
  | Some op' =>
      match dnsPredicate (dr_tables cfg) op' param ev with
      | Some r => let! '(v, ev) := r in Done (Continue (ev, v :: stack))
      | None => Done (Continue (ev, stack))
      end
  | None => Done (Continue (ev, stack))
  end.

Definition dns_exec (cfg : DNSBytecodeRules) (msg : option Message) : run string :=
  let! c := scan (dr_Route cfg) (dns_step cfg) (newDNSBytecodeEval msg, []) in
  Done match c with Return name => name | Continue _ => "" end.

Definition NewBytecodeDNSRouteFunc (rules : DNSBytecodeRules)
  : run (result bcError (option Message -> run string)) :=
  let! v := validateDNS rules in
  Done (try! _ := v in Success (dns_exec rules)).

(** ** What the predicates mean *)

Definition question_of (msg : option Message) : option Question :=
  match msg with Some m => head (m_Questions m) | None => None end.

Definition name_of (msg : option Message) : string :=
  match question_of msg with Some q => q_Name q | None => "" end.

Definition name_ip (msg : option Message) : Addr := parseHostIP (Trim (name_of msg) "[]").

Definition name_ip6 (msg : option Message) : Addr := if Is6 (name_ip msg) then name_ip msg else AddrZero.

Definition question_is (f : Question -> Z) (msg : option Message) (v : Z) : bool :=
  match question_of msg with Some q => f q =? v | None => false end.

Definition dnsValue (t : tables) (msg : option Message) (op : opcode) (param : Z) : bool :=
  match op with
  | OP_NET4 => question_is q_Type msg TypeA
  | OP_NET6 => question_is q_Type msg TypeAAAA
  | OP_FQDN => negb (String.eqb (name_of msg) "") && negb (IsValid (name_ip msg))
  | OP_ADDR_S => entry (t_strings t) param (EqualFold (name_of msg))
  | OP_ADDR_RE => entry (t_regexps t) param (fun o => match o with Some re => re (name_of msg) | None => false end)
  | OP_ADDR4 => entry (t_ipv4Addrs t) param (fun w => Is4 (name_ip msg) && (As4Uint32 (name_ip msg) =? w))
  | OP_ADDR6 => entry (t_ipv6Addrs t) param (fun w => bool_decide (name_ip6 msg = w))
  | OP_SNET4 => entry (t_ipv4Subnets t) param
      (fun s => Is4 (name_ip msg) && subnet_contains s (As4Uint32 (name_ip msg)))
  | OP_SNET6 => entry (t_ipv6Subnets t) param (fun p => Prefix_Contains p (name_ip6 msg))
  | OP_QTYPE => question_is q_Type msg param
  | OP_QCLASS => question_is q_Class msg param
  | OP_OPCODE => match msg with Some m => m_Opcode m =? param | None => false end
  | _ => false
  end.

Definition has_dns_predicate (op : opcode) : bool :=
  match op with
  | OP_NET4 | OP_NET6 | OP_FQDN | OP_ADDR_S | OP_ADDR_RE | OP_ADDR4 | OP_ADDR6 | OP_SNET4 | OP_SNET6
  | OP_QTYPE | OP_QCLASS | OP_OPCODE => true
  | _ => false
  end.

Definition dns_action (cfg : DNSBytecodeRules) (msg : option Message) (op : byte) (param : Z) : action string :=
  match opcode_of op with
  | Some OP_DROP => ActReturn ""
  | Some OP_BACKEND => ActReturn (default "" (index (dr_Backends cfg) param))
  | Some OP_TRUE => ActPush true
  | Some OP_FALSE => ActPush false
  | Some OP_NOT => ActNot
  | Some OP_AND => ActAnd
  | Some OP_OR => ActOr
  | Some o => if has_dns_predicate o then ActPush (dnsValue (dr_tables cfg) msg o param) else ActNone
  | None => ActNone
  end.

(** The name the reference machine gives for decoded instructions. *)
Definition dns_reference (cfg : DNSBytecodeRules) (msg : option Message) (ins : list splitInstr) : run string :=
  let! c := machine (dns_action cfg msg) ins [] in
  Done match c with Return name => name | Continue _ => "" end.

(** ** The memo is transparent *)

Definition question_inv (msg : option Message) (e : dnsBytecodeEval) : Prop :=
  de_msg e = msg /\
  (de_question e, de_hasQuestion e) =
    (if de_questionDone e then
       match question_of msg with Some q => (q, true) | None => (zero_question, false) end
     else (zero_question, false)).

Definition view_inv (msg : option Message) (e : dnsBytecodeEval) : Prop :=
  question_inv msg e /\ (de_ipDone e = true -> de_ipVal e = name_ip msg).

(** A reading of the view that always answers [v]. *)
Definition reads {A} (inv : dnsBytecodeEval -> Prop) (m : dnsBytecodeEval -> A * dnsBytecodeEval) (v : A) : Prop :=
  forall e, inv e -> exists e', m e = (v, e') /\ inv e'.

Lemma firstQuestion_spec msg e : question_inv msg e ->
  exists e', firstQuestion e = (match question_of msg with Some q => (q, true) | None => (zero_question, false) end, e')
    /\ question_inv msg e' /\ de_ipDone e' = de_ipDone e /\ de_ipVal e' = de_ipVal e.
Proof.
  intros [Hm Hq]. unfold firstQuestion. destruct (de_questionDone e) eqn:Ed.
  - exists e. rewrite Hq. split_and!; try done. split; [done|]. by rewrite Ed.
  - rewrite Hm. unfold question_of in *. injection Hq as Hq1 Hq2. unfold question_inv, question_of.
    destruct msg as [m|]; [destruct (m_Questions m) as [|q qs] eqn:Eq|]; simpl; eexists;
      (split; [reflexivity|]); simpl; rewrite ?Eq, ?Hq1, ?Hq2, ?Hm; simpl; repeat split; by rewrite ?Hq1, ?Hq2.
Qed.

Lemma firstQuestion_reads msg : reads (view_inv msg) firstQuestion
  (match question_of msg with Some q => (q, true) | None => (zero_question, false) end).
Proof.
  intros e [Hq Hip]. destruct (firstQuestion_spec msg e Hq) as (e' & -> & Hq' & Hd & Hv).
  exists e'. split; [done|]. split; [done|]. by rewrite Hd, Hv.
Qed.

(** Readings compose. *)
Lemma reads_then {A B} inv (m : dnsBytecodeEval -> A * dnsBytecodeEval) v
    (k : A -> dnsBytecodeEval -> B * dnsBytecodeEval) w :
  reads inv m v -> reads inv (k v) w -> reads inv (fun e => let '(a, e) := m e in k a e) w.
Proof. intros Hm Hk e He. destruct (Hm e He) as (e' & -> & He'). by apply Hk. Qed.

Lemma reads_pure {A} inv (v : A) : reads inv (fun e => (v, e)) v.
Proof. intros e He. by exists e. Qed.

Lemma qname_reads msg : reads (view_inv msg) qname (name_of msg).
Proof.
  intros e He. unfold qname. destruct (firstQuestion_reads msg e He) as (e' & -> & He'). unfold name_of.
  destruct (question_of msg); by exists e'.
Qed.

Lemma qtype_reads msg : reads (view_inv msg) qtype
  (match question_of msg with Some q => (q_Type q, true) | None => (0, false) end).
Proof.
  intros e He. unfold qtype. destruct (firstQuestion_reads msg e He) as (e' & -> & He').
  destruct (question_of msg); by exists e'.
Qed.

Lemma qclass_reads msg : reads (view_inv msg) qclass
  (match question_of msg with Some q => (q_Class q, true) | None => (0, false) end).
Proof.
  intros e He. unfold qclass. destruct (firstQuestion_reads msg e He) as (e' & -> & He').
  destruct (question_of msg); by exists e'.
Qed.

Lemma dns_ip_reads msg : reads (view_inv msg) dns_ip (name_ip msg).
Proof.
  intros e [Hq Hip]. unfold dns_ip. destruct (de_ipDone e) eqn:Ed.
  - exists e. rewrite (Hip eq_refl). split; [done|]. split; [done|]. by intros _; apply Hip.
  - unfold qname. set (e1 := MkDNSEval _ _ _ _ true _).
    destruct (firstQuestion_spec msg e1 Hq) as (e' & -> & [Hm' Hq'] & _ & _).
    assert (Hn : forall q ok, match question_of msg with Some q => (q, true) | None => (zero_question, false) end = (q, ok) ->
      (if negb ok then "" else q_Name q) = name_of msg).
    { intros q ok. unfold name_of. by destruct (question_of msg); intros [= <- <-]. }
    destruct (match question_of msg with Some q => (q, true) | None => (zero_question, false) end) as [q ok] eqn:E.
    rewrite (Hn q ok eq_refl). eexists. split; [reflexivity|]. split; [|done]. split; [done|]. simpl.
    destruct (de_questionDone e'); by rewrite ?E.
Qed.

Lemma dns_isFQDN_reads msg : reads (view_inv msg) dns_isFQDN
  (negb (String.eqb (name_of msg) "") && negb (IsValid (name_ip msg))).
Proof.
  apply (reads_then _ qname (name_of msg)); [apply qname_reads|].
  destruct (String.eqb (name_of msg) ""); [apply reads_pure|]. simpl.
  apply (reads_then _ dns_ip (name_ip msg)); [apply dns_ip_reads|apply reads_pure].
Qed.

Lemma dns_ip4_reads msg (f : Z -> bool) :
  reads (view_inv msg) (fun ev => let '(ip, ev) := dns_ip ev in
    if negb (Is4 ip) then (false, ev) else (f (As4Uint32 ip), ev))
  (Is4 (name_ip msg) && f (As4Uint32 (name_ip msg))).
Proof.
  apply (reads_then _ dns_ip (name_ip msg)); [apply dns_ip_reads|].
  destruct (Is4 (name_ip msg)); apply reads_pure.
Qed.

Lemma dns_ipv6_reads msg : reads (view_inv msg) dns_ipv6 (name_ip6 msg).
Proof.
  apply (reads_then _ dns_ip (name_ip msg)); [apply dns_ip_reads|]. unfold name_ip6.
  destruct (Is6 (name_ip msg)); apply reads_pure.
Qed.

Lemma number_test_value param msg (f : Question -> Z) : 0 <= param < 65536 ->
  (let '(v, has) := match question_of msg with Some q => (f q, true) | None => (0, false) end in
   number_test param v has) = question_is f msg param.
Proof.
  intros Hp. unfold question_is, number_test, bytecodeParamInt. simpl.
  destruct (Z.ltb_spec 65535 param); [lia|]. by destruct (question_of msg).
Qed.

(** ** The evaluator follows the reference machine *)

(** A reading as the result of a predicate. *)
Lemma reads_done {A} msg (m : dnsBytecodeEval -> A * dnsBytecodeEval) v (f : A -> bool) e :
  reads (view_inv msg) m v -> view_inv msg e ->
  exists e', (let '(a, ev) := m e in Done (f a, ev)) = Done (f v, e') /\ view_inv msg e'.
Proof. intros Hm He. destruct (Hm e He) as (e' & -> & He'). by exists e'. Qed.

Lemma reads_bool msg (m : dnsBytecodeEval -> bool * dnsBytecodeEval) v e :
  reads (view_inv msg) m v -> view_inv msg e -> exists e', Done (m e) = Done (v, e') /\ view_inv msg e'.
Proof. intros Hm He. destruct (Hm e He) as (e' & -> & He'). by exists e'. Qed.

Lemma dnsPredicate_value t msg op param e r :
  Forall is_Some (t_regexps t) -> 0 <= param < 65536 -> view_inv msg e -> dnsPredicate t op param e = Some r ->
  exists e', r = Done (dnsValue t msg op param, e') /\ view_inv msg e'.
Proof.
  intros Hre Hp He Hr. destruct op; try discriminate Hr; injection Hr as <-; simpl.
  - destruct (qtype_reads msg e He) as (e' & -> & He'). exists e'. unfold question_is.
    by destruct (question_of msg).
  - destruct (qtype_reads msg e He) as (e' & -> & He'). exists e'. unfold question_is.
    by destruct (question_of msg).
  - apply reads_bool; [apply dns_isFQDN_reads|done].
  - apply (with_entry_value (view_inv msg)); [lia|done|]. intros s e1 _ H1. apply reads_bool; [|done].
    apply (reads_then _ qname (name_of msg)); [apply qname_reads|apply reads_pure].
  - apply (with_entry_value (view_inv msg)); [lia|done|]. intros [re|] e1 Hin H1;
      [|rewrite Forall_forall in Hre; by apply Hre in Hin as [? ?]]. simpl.
    apply (reads_done msg qname (name_of msg) re); [apply qname_reads|done].
  - apply (with_entry_value (view_inv msg)); [lia|done|]. intros w e1 _ H1. apply reads_bool; [|done].
    apply (dns_ip4_reads msg (fun a => a =? w)).
  - apply (with_entry_value (view_inv msg)); [lia|done|]. intros w e1 _ H1.
    apply (reads_done msg dns_ipv6 (name_ip6 msg) (fun ip => bool_decide (ip = w))); [apply dns_ipv6_reads|done].
  - apply (with_entry_value (view_inv msg)); [lia|done|]. intros w e1 _ H1. apply reads_bool; [|done].
    apply (dns_ip4_reads msg (subnet_contains w)).
  - apply (with_entry_value (view_inv msg)); [lia|done|]. intros p e1 _ H1.
    apply (reads_done msg dns_ipv6 (name_ip6 msg) (Prefix_Contains p)); [apply dns_ipv6_reads|done].
  - destruct (qtype_reads msg e He) as (e' & -> & He'). exists e'.
    rewrite <- (number_test_value param msg q_Type Hp). by destruct (question_of msg).
  - destruct (qclass_reads msg e He) as (e' & -> & He'). exists e'.
    rewrite <- (number_test_value param msg q_Class Hp). by destruct (question_of msg).
  - destruct He as [[Hm Hq] Hip]. unfold dns_opcode. rewrite Hm. exists e. split; [|by split].
    unfold number_test, bytecodeParamInt. simpl. destruct (Z.ltb_spec 65535 param); [lia|]. by destruct msg.
Qed.

Lemma dnsPredicate_has t op param e : is_Some (dnsPredicate t op param e) <-> has_dns_predicate op = true.
Proof. destruct op; simpl; split; intros Hx; (eauto || done || by destruct Hx). Qed.

Lemma backend_result_value cfg param : 0 <= param ->
  backend_result cfg param = Done (default "" (index (dr_Backends cfg) param)).
Proof.
  intros Hp. unfold backend_result. rewrite bytecodeParamIndex_index by done.
  destruct (index (dr_Backends cfg) param) eqn:E; simpl; [by rewrite E|done].
Qed.

Lemma dns_step_refines cfg msg op param :
  Forall is_Some (t_regexps (dr_tables cfg)) -> 0 <= param < 65536 ->
  step_refines (fun s => view_inv msg s.1) snd (dns_step cfg op param) (dns_action cfg msg op param).
Proof.
  intros Hre Hp [e stack] Hinv. simpl in Hinv. unfold dns_step, dns_action.
  destruct (opcode_of op) as [o|]; [|by exists (e, stack)].
  destruct (has_dns_predicate o) eqn:Eo.
  - pose proof (proj2 (dnsPredicate_has (dr_tables cfg) o param e) Eo) as [r Hr].
    destruct (dnsPredicate_value _ msg o param e r Hre Hp Hinv Hr) as (e' & Hv & Hinv').
    destruct o; try discriminate Eo; rewrite Hr, Hv; by eexists (e', _).
  - destruct o; try discriminate Eo; try (by eexists);
      try (destruct stack as [|? [|? ?]]; simpl; by try eexists).
    + exact (terminal_step_refines (view_inv msg) (Done "") "" eq_refl (e, stack) Hinv).
    + exact (terminal_step_refines (view_inv msg) _ _ (backend_result_value cfg param (proj1 Hp)) (e, stack) Hinv).
Qed.

Lemma validateDNSOp_fits cfg msg i :
  checked (validateDNSOp cfg) i -> fits (stack_class (in_op i)) (dns_action cfg msg (in_op i) (in_param i)) = true.
Proof.
  intros ([o Ho] & _ & pc & Hv). unfold validateDNSOp in Hv. inv_result.
  unfold isLAddrOp, isRouterMethodOp, isSplitOnlyOp, isSnifferOnlyOp, dns_invalid_op, stack_class, dns_action in *.
  rewrite Ho in *. by destruct o.
Qed.

Lemma dns_action_name cfg msg i name : dns_action cfg msg (in_op i) (in_param i) = ActReturn name ->
  name = "" \/ name ∈ dr_Backends cfg.
Proof.
  unfold dns_action. intros Ha. destruct (opcode_of (in_op i)) as [[]|]; simpl in Ha; try discriminate Ha;
    injection Ha as <-; [by left|].
  destruct (index (dr_Backends cfg) (in_param i)) eqn:E; [right; by eapply index_elem|by left].
Qed.

Lemma validateDNS_sound cfg :
  exists v, validateDNS cfg = Done v /\ (v = Success tt ->
    Forall (fun name => name <> "") (dr_Backends cfg) /\ Forall is_Some (t_regexps (dr_tables cfg)) /\
    exists ins, decodes (dr_Route cfg) 0 ins /\ Forall (checked (validateDNSOp cfg)) ins /\ depth_safe 0 ins).
Proof.
  unfold validateDNS. destruct (first_bad _ (dr_Backends cfg) 0) as [[i n]|] eqn:Eb; [by eexists|].
  destruct (validateRegexps _) as [[]|e] eqn:Ere; cbn [result_bind]; [|by eexists].
  destruct (validateTables _ _ _) as [[]|e]; [|by eexists].
  destruct (validateBytecode_sound "DNSRoute" (dr_Route cfg) (validateDNSOp cfg)) as (r & -> & Hr).
  exists r. split; [done|]. intros ->. split_and!; [|by eapply validateRegexps_ok|by apply Hr].
  apply first_bad_none in Eb. eapply Forall_impl; [exact Eb|]. intros n Hn ->. done.
Qed.

Lemma dns_exec_sound cfg msg ins :
  Forall is_Some (t_regexps (dr_tables cfg)) -> decodes (dr_Route cfg) 0 ins ->
  Forall (checked (validateDNSOp cfg)) ins -> depth_safe 0 ins ->
  exists name, dns_exec cfg msg = Done name /\ dns_reference cfg msg ins = Done name /\
    (name = "" \/ name ∈ dr_Backends cfg).
Proof.
  intros Hre Hdec Hall Hsafe. unfold dns_exec, dns_reference. rewrite (scan_decodes _ _ _ _ Hdec).
  destruct (machine_safe (dns_action cfg msg) ins []) as (c & Hc & Hres); [done| |].
  { eapply Forall_impl; [exact Hall|]. intros i Hi. by eapply validateDNSOp_fits. }
  pose proof (run_refines (fun s => view_inv msg s.1) snd (dns_step cfg) (dns_action cfg msg) ins
    (newDNSBytecodeEval msg, [])) as Href.
  cbn [snd] in Href. rewrite Hc in Href. rewrite Hc.
  assert (Hsteps : Forall (fun i => step_refines (fun s => view_inv msg s.1) snd
    (dns_step cfg (in_op i) (in_param i)) (dns_action cfg msg (in_op i) (in_param i))) ins).
  { eapply Forall_impl; [exact Hall|]. intros i (_ & Hp & _). by apply dns_step_refines. }
  assert (Hinv : view_inv msg (newDNSBytecodeEval msg)) by done.
  specialize (Href Hsteps Hinv). destruct c as [st|name]; cbn [run_bind].
  - destruct Href as (s' & -> & _). exists "". split_and!; [done|done|by left].
  - rewrite Href. exists name. destruct Hres as (i & _ & Ha). split_and!; [done|done|by eapply dns_action_name].
Qed.

(** ** Theorem *)

(** C33. [NewBytecodeDNSRouteFunc] always returns.  The route function of
    accepted rules never panics: for every message, also a nil one or one
    without questions, it returns what the reference machine computes from the
    first question and the opcode of the message, and that is the empty name or
    a non-empty name of the backend table. *)
Theorem dns_route_function rules :
  (exists v, NewBytecodeDNSRouteFunc rules = Done v) /\
  (forall f, NewBytecodeDNSRouteFunc rules = Done (Success f) ->
     exists ins, decodes (dr_Route rules) 0 ins /\
     forall msg, exists name, f msg = Done name /\ dns_reference rules msg ins = Done name /\
       (name = "" \/ (name ∈ dr_Backends rules /\ name <> ""))).
Proof.
  unfold NewBytecodeDNSRouteFunc. destruct (validateDNS_sound rules) as (v & -> & Hv). cbn [run_bind].
  split; [by eexists|]. intros f Hf. destruct v as [[]|e]; [|done]. injection Hf as <-.
  destruct (Hv eq_refl) as (Hb & Hre & ins & Hdec & Hall & Hsafe). exists ins. split; [done|]. intros msg.
  destruct (dns_exec_sound rules msg ins Hre Hdec Hall Hsafe) as (name & H1 & H2 & H3). exists name.
  split_and!; [done|done|]. destruct H3 as [H3|H3]; [by left|right]. split; [done|].
  rewrite Forall_forall in Hb. by apply Hb.
Qed.

(** ** Witness *)

(** "ADDR_S example.test QTYPE 28 AND BACKEND six; TRUE BACKEND default". *)
Definition sample_dns_rules : DNSBytecodeRules :=
  MkDNSRules ["six"; "default"] (MkTables ["example.test"] [] [] [] [] [])
    [op_byte OP_ADDR_S; x00; x00; op_byte OP_QTYPE; byte_of_Z 28; x00; op_byte OP_AND;
     op_byte OP_BACKEND; x00; x00; op_byte OP_TRUE; op_byte OP_BACKEND; x01; x00].

Definition sample_message (name : string) (qt : Z) : Message :=
  MkMessage 1 false 0 0 false false true false false false [MkQuestion name qt 1] [] [] [].

Lemma dns_route_function_witness :
  exists ins, decodes (dr_Route sample_dns_rules) 0 ins /\
    forall msg, exists name, dns_exec sample_dns_rules msg = Done name /\
      dns_reference sample_dns_rules msg ins = Done name /\
      (name = "" \/ (name ∈ dr_Backends sample_dns_rules /\ name <> "")).
Proof.
  apply (dns_route_function sample_dns_rules). unfold NewBytecodeDNSRouteFunc.
  replace (validateDNS sample_dns_rules) with ((Done (Success tt) : run (result bcError unit))) by (vm_compute; reflexivity).
  reflexivity.
Defined.

Example sample_dns_routed :
  dns_exec sample_dns_rules (Some (sample_message "Example.Test" 28)) = Done "six" /\
  dns_exec sample_dns_rules (Some (sample_message "example.test" 1)) = Done "default".
Proof. vm_compute. done. Qed.
