(* ===== verification/RuleParser.v ===== *)
(** * The parser of routing rules

    Models src/routing/parser.go, with the inline classifiers of
    src/routing/sniff_specs.go: rule text is cut into lines and segments, every
    line becomes one instruction, and the arguments are interned into the
    tables of the parser.  NewBytecodeRulesProgram derives the five programs of
    a RouterCfg from one text and leaves out the segments that cannot trigger.

    [regexp.Compile] is the parameter [Compile]; the constructors of classifiers
    are functions given by the caller.  Text is ASCII, as in GoStd.v. *)

From S2P Require Import Prelude GoStd NetIP DNSCache Bytecode Machine AddrCache.
From S2P Require Import Scans RouterCfg SnifferRules RemapRules DNSRules.

(** ** Keys of the tables *)

(** [sysnet.Rule] *)
Record sysRule : Type := MkSysRule { sr_Type : string; sr_Rule : string }.

#[global] Instance sysRule_eq_dec : EqDecision sysRule.
Proof. solve_decision. Defined.

#[global] Instance sysRule_countable : Countable sysRule.
Proof.
  refine (inj_countable' (fun r => (sr_Type r, sr_Rule r)) (fun q => MkSysRule q.1 q.2) _).
  intros []; reflexivity.
Defined.

#[global] Instance mutation_eq_dec : EqDecision SnifferCallMutation.
Proof. solve_decision. Defined.

#[global] Instance routeAction_eq_dec : EqDecision SnifferRouteAction.
Proof. solve_decision. Defined.

Definition mutation_list (m : SnifferCallMutation) : list (option string) :=
  [mu_Network m; mu_Src m; mu_Dst m; mu_SrcAddr m; mu_SrcPort m; mu_DstAddr m; mu_DstPort m;
   mu_Host m; mu_Service m; mu_Proto m].

Definition no_mutation : SnifferCallMutation :=
  MkMutation None None None None None None None None None None.

Definition list_mutation (l : list (option string)) : SnifferCallMutation :=
  match l with
  | [a; b; c; d; e; f; g; h; i; j] => MkMutation a b c d e f g h i j
  | _ => no_mutation
  end.

#[global] Instance routeAction_countable : Countable SnifferRouteAction.
Proof.
  refine (inj_countable' (fun a => (bZ (ra_Slot a), mutation_list (ra_Mutation a)))
    (fun q => MkRouteAction (byte_of_Z q.1) (list_mutation q.2)) _).
  intros [slot []]. simpl. by rewrite byte_of_Z_bZ.
Defined.

(** ** Errors *)

Inductive parseError : Type :=
| ErrUnknownOperation (opName : string)
| ErrNoArgument (op : opcode)
| ErrArgumentRequired (op : opcode)
| ErrInvalidArgument (op : opcode) (arg : string)
| ErrTooManyEntries (op : opcode)
| ErrRouteField (field : string)
| ErrClassifier (name : string)
| ErrCombined
| ErrLine (name : string) (line : Z) (e : parseError)
| ErrRules (e : bcError).

(** ** Tables with their index *)

Record itable (K V : Type) `{Countable K} : Type := MkITable { tb_list : list V; tb_index : gmap K Z }.

Arguments MkITable {K V _ _}.
Arguments tb_list {K V _ _}.
Arguments tb_index {K V _ _}.

Definition empty_itable {K V} `{Countable K} : itable K V := MkITable [] ∅.

Definition nextTableIndex (op : opcode) (n : Z) : result parseError Z :=
  if 65535 <? n then Failure (ErrTooManyEntries op) else Success n.

(** [if idx, ok := index[key]; ok { return idx }; idx := next; append; index[key] = idx],
    with the value built when the key is new. *)
Definition intern {K V} `{Countable K} (op : opcode) (key : K) (value : result parseError V) (t : itable K V)
  : result parseError (Z * itable K V) :=
  match tb_index t !! key with
  | Some idx => Success (idx, t)
  | None =>
      try! v := value in
      try! idx := nextTableIndex op (zlen (tb_list t)) in
      Success (idx, MkITable (tb_list t ++ [v]) (<[key := idx]> (tb_index t)))
  end.

(** ** Lines and segments *)

Record bytecodeRuleLine : Type := MkLine { ln_no : Z; ln_text : string }.

Definition newline : Ascii.ascii := chr 10.
Definition carriage : string := String (chr 13) EmptyString.
Definition blank_tab : string := String (chr 32) (String (chr 9) EmptyString).

Fixpoint number_lines (i : Z) (lines : list string) : list bytecodeRuleLine :=
  match lines with
  | [] => []
  | line :: lines' => MkLine (i + 1) (TrimRight line carriage) :: number_lines (i + 1) lines'
  end.

Definition splitBytecodeRuleLines (src : string) : list bytecodeRuleLine := number_lines 0 (Split src newline).

(** Cut at the first blank or tab. *)
Fixpoint cut_blank (s : string) : string * string * bool :=
  match s with
  | EmptyString => (EmptyString, EmptyString, false)
  | String c s' =>
      if is_blank_tab c then (EmptyString, s', true)
      else let '(a, b, ok) := cut_blank s' in (String c a, b, ok)
  end.

Definition splitRuleLine (line : string) : string * string * bool :=
  let line := TrimLeft line blank_tab in
  let '(op, arg, ok) := cut_blank line in
  if (ok : bool) then (op, arg, true) else (line, "", false).

(** [trimmed == "" || strings.HasPrefix(trimmed, "#")] *)
Definition skips_line (line : string) : bool :=
  let trimmed := TrimSpace line in String.eqb trimmed "" || HasPrefix trimmed "#".

Definition bytecodeOpByName (name : string) : option opcode :=
  snd <$> List.find (fun e => String.eqb (fst e) name)
    [("DROP", OP_DROP); ("SLOT", OP_SLOT); ("TRUE", OP_TRUE); ("FALSE", OP_FALSE); ("NOT", OP_NOT);
     ("AND", OP_AND); ("OR", OP_OR); ("NET4", OP_NET4); ("NET6", OP_NET6); ("UDP", OP_UDP); ("TCP", OP_TCP);
     ("FQDN", OP_FQDN); ("LFQDN", OP_LFQDN); ("ADDR_S", OP_ADDR_S); ("LADDR_S", OP_LADDR_S);
     ("ADDR_RE", OP_ADDR_RE); ("LADDR_RE", OP_LADDR_RE); ("ADDR4", OP_ADDR4); ("LADDR4", OP_LADDR4);
     ("ADDR6", OP_ADDR6); ("LADDR6", OP_LADDR6); ("SNET4", OP_SNET4); ("LSNET4", OP_LSNET4);
     ("SNET6", OP_SNET6); ("LSNET6", OP_LSNET6); ("PORT", OP_PORT); ("LPORT", OP_LPORT); ("RULE", OP_RULE);
     ("DIAL", OP_DIAL); ("LISTEN", OP_LISTEN); ("LOOKUP", OP_LOOKUP); ("INTERCEPT", OP_INTERCEPT);
     ("SNIFF", OP_SNIFF); ("SNIFF_NONE", OP_SNIFF_NONE); ("ROUTE", OP_ROUTE); ("BACKEND", OP_BACKEND);
     ("QTYPE", OP_QTYPE); ("QCLASS", OP_QCLASS); ("OPCODE", OP_OPCODE)].

(** The operation name of a line. *)
Definition line_name (line : string) : string := (splitRuleLine line).1.1.

Definition line_op (line : string) : option opcode := bytecodeOpByName (ToUpper (line_name line)).

Definition bytecodeRuleLineEndsSegment (line : string) : bool :=
  if skips_line line then false
  else let name := ToUpper (line_name line) in
       String.eqb name "DROP" || String.eqb name "SLOT" || String.eqb name "INTERCEPT" ||
       String.eqb name "ROUTE" || String.eqb name "REMAP" || String.eqb name "BACKEND".

Fixpoint segments_of (lines segment : list bytecodeRuleLine) : list (list bytecodeRuleLine) :=
  match lines with
  | [] => if 0 <? zlen segment then [segment] else []
  | line :: lines' =>
      let segment := segment ++ [line] in
      if bytecodeRuleLineEndsSegment (ln_text line) then segment :: segments_of lines' []
      else segments_of lines' segment
  end.

Definition splitBytecodeRuleSegments (src : string) : list (list bytecodeRuleLine) :=
  segments_of (splitBytecodeRuleLines src) [].

(** ** Segments that cannot trigger *)

Inductive bytecodeBoolState : Type := bytecodeBoolFalse | bytecodeBoolTrue | bytecodeBoolUnknown.

#[global] Instance boolState_eq_dec : EqDecision bytecodeBoolState.
Proof. solve_decision. Defined.

Definition bytecodeBoolFromBool (v : bool) : bytecodeBoolState := if v then bytecodeBoolTrue else bytecodeBoolFalse.

Definition bytecodeBoolNot (v : bytecodeBoolState) : bytecodeBoolState :=
  match v with
  | bytecodeBoolFalse => bytecodeBoolTrue
  | bytecodeBoolTrue => bytecodeBoolFalse
  | bytecodeBoolUnknown => bytecodeBoolUnknown
  end.

Definition bytecodeBoolAnd (a b : bytecodeBoolState) : bytecodeBoolState :=
  if bool_decide (a = bytecodeBoolFalse) || bool_decide (b = bytecodeBoolFalse) then bytecodeBoolFalse
  else if bool_decide (a = bytecodeBoolTrue) && bool_decide (b = bytecodeBoolTrue) then bytecodeBoolTrue
  else bytecodeBoolUnknown.

Definition bytecodeBoolOr (a b : bytecodeBoolState) : bytecodeBoolState :=
  if bool_decide (a = bytecodeBoolTrue) || bool_decide (b = bytecodeBoolTrue) then bytecodeBoolTrue
  else if bool_decide (a = bytecodeBoolFalse) && bool_decide (b = bytecodeBoolFalse) then bytecodeBoolFalse
  else bytecodeBoolUnknown.

(** The loop over the lines, with the stack (its top first) and whether a
    method operation was seen. *)
Fixpoint can_trigger (method : bytecodeMethod) (lines : list bytecodeRuleLine) (stack : list bytecodeBoolState)
    (hasMethodOp : bool) : bool :=
  match lines with
  | [] => true
  | line :: lines' =>
      if skips_line (ln_text line) then can_trigger method lines' stack hasMethodOp
      else
        match line_op (ln_text line) with
        | None => true
        | Some (OP_DROP | OP_SLOT) =>
            match stack with
            | [] => true
            | condition :: _ => negb hasMethodOp || negb (bool_decide (condition = bytecodeBoolFalse))
            end
        | Some OP_TRUE => can_trigger method lines' (bytecodeBoolTrue :: stack) hasMethodOp
        | Some OP_FALSE => can_trigger method lines' (bytecodeBoolFalse :: stack) hasMethodOp
        | Some OP_NOT =>
            match stack with
            | v :: stack => can_trigger method lines' (bytecodeBoolNot v :: stack) hasMethodOp
            | _ => true
            end
        | Some OP_AND =>
            match stack with
            | b :: a :: stack => can_trigger method lines' (bytecodeBoolAnd a b :: stack) hasMethodOp
            | _ => true
            end
        | Some OP_OR =>
            match stack with
            | b :: a :: stack => can_trigger method lines' (bytecodeBoolOr a b :: stack) hasMethodOp
            | _ => true
            end
        | Some OP_DIAL =>
            can_trigger method lines'
              (bytecodeBoolFromBool (bool_decide (method = bytecodeMethodDial)) :: stack) true
        | Some OP_LISTEN =>
            can_trigger method lines'
              (bytecodeBoolFromBool (bool_decide (method = bytecodeMethodListen)) :: stack) true
        | Some OP_LOOKUP =>
            can_trigger method lines'
              (bytecodeBoolFromBool (bool_decide (method = bytecodeMethodLookup)) :: stack) true
        | Some _ => can_trigger method lines' (bytecodeBoolUnknown :: stack) hasMethodOp
        end
  end.

Definition bytecodeSegmentCanTrigger (segment : list bytecodeRuleLine) (method : bytecodeMethod) : bool :=
  can_trigger method segment [] false.

(** ** Segments of the sniffer and of the remapper *)

Record bytecodeSnifferTargets : Type := MkTargets { tg_control : bool; tg_sniff : bool }.

Fixpoint sniffer_targets (segment : list bytecodeRuleLine) (hasSniffPredicate hasIntercept : bool)
  : result parseError bytecodeSnifferTargets :=
  match segment with
  | [] =>
      if hasSniffPredicate && hasIntercept then Failure ErrCombined
      else Success (MkTargets (negb hasSniffPredicate) (negb hasIntercept))
  | line :: segment' =>
      if skips_line (ln_text line) then sniffer_targets segment' hasSniffPredicate hasIntercept
      else match line_op (ln_text line) with
           | None => Success (MkTargets true true)
           | Some (OP_SNIFF | OP_SNIFF_NONE) => sniffer_targets segment' true hasIntercept
           | Some OP_INTERCEPT => sniffer_targets segment' hasSniffPredicate true
           | Some _ => sniffer_targets segment' hasSniffPredicate hasIntercept
           end
  end.

Definition bytecodeSnifferSegmentTargets (segment : list bytecodeRuleLine) := sniffer_targets segment false false.

Definition segmentHasOnlyComments (segment : list bytecodeRuleLine) : bool :=
  forallb (fun line => skips_line (ln_text line)) segment.

(** The loop from the last line down: [None] when every line is skipped. *)
Fixpoint remap_terminal (index : Z) (rev_segment : list bytecodeRuleLine)
  : result parseError (option (list bytecodeRuleLine * RemapAction)) :=
  match rev_segment with
  | [] => Success None
  | line :: before =>
      if skips_line (ln_text line) then remap_terminal index before
      else
        let '(opName, arg, hasArg) := splitRuleLine (ln_text line) in
        if negb (String.eqb (ToUpper opName) "REMAP")
        then Failure (ErrLine "Remapper" (ln_no line) (ErrUnknownOperation opName))
        else match parseRemapAction arg hasArg with
             | None => Failure (ErrLine "Remapper" (ln_no line) (ErrRouteField arg))
             | Some action => Success (Some (rev before, action))
             end
  end.

Definition parseRemapRuleSegment (index : Z) (segment : list bytecodeRuleLine)
  : result parseError (option (list bytecodeRuleLine * RemapAction)) :=
  if segmentHasOnlyComments segment then Success None else remap_terminal index (rev segment).

(** ** Arguments *)

Definition requiredTextArg (op : opcode) (arg : string) (hasArg : bool) : result parseError string :=
  if negb hasArg || String.eqb arg "" then Failure (ErrArgumentRequired op) else Success arg.

Definition of_option {A} (o : option A) (e : parseError) : result parseError A :=
  match o with Some x => Success x | None => Failure e end.

Definition parseUintArg (op : opcode) (arg : string) (hasArg : bool) (bits : Z) : result parseError Z :=
  if negb hasArg || String.eqb (TrimSpace arg) "" then Failure (ErrArgumentRequired op)
  else of_option (ParseUint (TrimSpace arg) bits) (ErrInvalidArgument op arg).

Definition dnsTypeNames : list (string * Z) :=
  [("A", TypeA); ("NS", TypeNS); ("CNAME", TypeCNAME); ("SOA", TypeSOA); ("PTR", TypePTR); ("MX", TypeMX);
   ("TXT", TypeTXT); ("AAAA", TypeAAAA); ("SRV", TypeSRV)].
Definition dnsClassNames : list (string * Z) := [("IN", ClassIN)].
Definition dnsOpcodeNames : list (string * Z) := [("QUERY", OpcodeQuery)].

Definition dnsUintArg (op : opcode) (arg : string) (hasArg : bool) (names : list (string * Z))
  : result parseError Z :=
  if negb hasArg || String.eqb (TrimSpace arg) "" then Failure (ErrArgumentRequired op)
  else
    let text := TrimSpace arg in
    match List.find (fun e => String.eqb (fst e) (ToUpper text)) names with
    | Some e => Success (snd e)
    | None => of_option (ParseUint text 16) (ErrInvalidArgument op arg)
    end.

Definition checkedUint16 (op : opcode) (v : Z) : result parseError Z :=
  if 65535 <? v then Failure (ErrInvalidArgument op "") else Success v.

Definition checkedUint8 (op : opcode) (v : Z) : result parseError Z :=
  if (v <? 0) || (255 <? v) then Failure (ErrInvalidArgument op "") else Success v.

(** [sysnet] rules: the type, and the text behind one blank or tab. *)
Definition splitRuleParam (arg : string) : string * string * bool :=
  let arg := TrimLeft arg blank_tab in
  if String.eqb arg "" then ("", "", false)
  else let '(ruleType, rule, ok) := cut_blank arg in
       if (ok : bool) then (ruleType, rule, negb (String.eqb ruleType "")) else ("", "", false).

Definition setSnifferRouteField (m : SnifferCallMutation) (key value : string) : option SnifferCallMutation :=
  let v := Some value in
  let 'MkMutation network src dst srcAddr srcPort dstAddr dstPort host service proto := m in
  if String.eqb key "NETWORK" then Some (MkMutation v src dst srcAddr srcPort dstAddr dstPort host service proto)
  else if String.eqb key "SRC" then Some (MkMutation network v dst srcAddr srcPort dstAddr dstPort host service proto)
  else if String.eqb key "DST" then Some (MkMutation network src v srcAddr srcPort dstAddr dstPort host service proto)
  else if String.eqb key "SRC_ADDR" then Some (MkMutation network src dst v srcPort dstAddr dstPort host service proto)
  else if String.eqb key "SRC_PORT" then Some (MkMutation network src dst srcAddr v dstAddr dstPort host service proto)
  else if String.eqb key "DST_ADDR" then Some (MkMutation network src dst srcAddr srcPort v dstPort host service proto)
  else if String.eqb key "DST_PORT" then Some (MkMutation network src dst srcAddr srcPort dstAddr v host service proto)
  else if String.eqb key "HOST" then Some (MkMutation network src dst srcAddr srcPort dstAddr dstPort v service proto)
  else if String.eqb key "SERVICE" then Some (MkMutation network src dst srcAddr srcPort dstAddr dstPort host v proto)
  else if String.eqb key "PROTO" then Some (MkMutation network src dst srcAddr srcPort dstAddr dstPort host service v)
  else None.

(** The KEY:VALUE fields of a ROUTE argument. *)
Fixpoint route_fields (fields : list string) (seen : gset string) (m : SnifferCallMutation)
  : result parseError SnifferCallMutation :=
  match fields with
  | [] => Success m
  | field :: fields' =>
      let '(key, value, ok) := Cut field colon in
      let key := ToUpper key in
      if negb ok || String.eqb key "" then Failure (ErrRouteField field)
      else if String.eqb value "" then Failure (ErrRouteField key)
      else if bool_decide (key ∈ seen) then Failure (ErrRouteField key)
      else
        try! m := of_option (setSnifferRouteField m key value) (ErrRouteField key) in
        route_fields fields' ({[key]} ∪ seen) m
  end.

Definition parse_route (op : opcode) (arg : string) : result parseError SnifferRouteAction :=
  match Fields arg with
  | [] => Failure (ErrArgumentRequired op)
  | slot :: fields =>
      try! v := of_option (ParseUint slot 8) (ErrInvalidArgument op slot) in
      try! m := route_fields fields ∅ no_mutation in
      Success (MkRouteAction (byte_of_Z v) m)
  end.

(** ** Classifier specifications *)

Record SniffClassifierOption : Type := MkOption { so_Key : string; so_Value : string }.

Definition invalid_name : string := String.append blanks ":".

Definition normalizeSniffClassifierConstructorName (name : string) : option string :=
  let name := TrimSpace name in
  if String.eqb name "" then None
  else if ContainsAny name invalid_name then None
  else Some name.

Fixpoint spec_options (fields : list string) : result parseError (list SniffClassifierOption) :=
  match fields with
  | [] => Success []
  | field :: fields' =>
      let '(key, value, ok) := Cut field colon in
      if negb ok || String.eqb key "" then Failure (ErrClassifier field)
      else
        let key := ToUpper key in
        if ContainsAny key invalid_name then Failure (ErrClassifier key)
        else if String.eqb value "" then Failure (ErrClassifier key)
        else try! rest := spec_options fields' in Success (MkOption key value :: rest)
  end.

Definition parseSniffClassifierSpec (arg : string) : result parseError (string * list SniffClassifierOption) :=
  match Fields arg with
  | [] => Failure (ErrClassifier "")
  | name :: fields =>
      try! name := of_option (normalizeSniffClassifierConstructorName name) (ErrClassifier name) in
      try! options := spec_options fields in
      Success (name, options)
  end.

(** ** The parser *)

Section Parser.
Context {Factory : Type}.
Context (Compile : string -> option regexp).

(** A constructor gives the canonical options and the factory, or fails; the
    factory may be nil. *)
Definition SniffClassifierConstructor : Type :=
  list SniffClassifierOption -> option (string * option Factory).

Record bytecodeParser : Type := MkParser {
  bp_strings : itable string string;
  bp_regexps : itable string regexp;
  bp_ipv4Addrs : itable Z Z;
  bp_ipv4Subnets : itable IPv4Subnet IPv4Subnet;
  bp_ipv6Addrs : itable Addr Addr;
  bp_ipv6Subnets : itable Prefix Prefix;
  bp_rules : itable sysRule sysRule;
  bp_sniffClassifiers : itable string (NamedSniffClassifier Factory);
  bp_sniffConstructors : gmap string SniffClassifierConstructor;
  bp_sniffSpecIndex : gmap string Z;
  bp_routeActions : itable SnifferRouteAction SnifferRouteAction;
  bp_backendNames : itable string string }.

Definition newBytecodeParser : bytecodeParser :=
  MkParser empty_itable empty_itable empty_itable empty_itable empty_itable empty_itable empty_itable
    empty_itable ∅ ∅ empty_itable empty_itable.

(** ** Interned parameters *)

Definition stringParam (op : opcode) (arg : string) (hasArg : bool) (p : bytecodeParser)
  : result parseError (Z * bytecodeParser) :=
  try! arg := requiredTextArg op arg hasArg in
  try! '(idx, t) := intern op arg (Success arg) (bp_strings p) in
  Success (idx, MkParser t (bp_regexps p) (bp_ipv4Addrs p) (bp_ipv4Subnets p) (bp_ipv6Addrs p) (bp_ipv6Subnets p)
    (bp_rules p) (bp_sniffClassifiers p) (bp_sniffConstructors p) (bp_sniffSpecIndex p) (bp_routeActions p)
    (bp_backendNames p)).

Definition regexpParam (op : opcode) (arg : string) (hasArg : bool) (p : bytecodeParser)
  : result parseError (Z * bytecodeParser) :=
  try! arg := requiredTextArg op arg hasArg in
  try! '(idx, t) := intern op arg (of_option (Compile arg) (ErrInvalidArgument op arg)) (bp_regexps p) in
  Success (idx, MkParser (bp_strings p) t (bp_ipv4Addrs p) (bp_ipv4Subnets p) (bp_ipv6Addrs p) (bp_ipv6Subnets p)
    (bp_rules p) (bp_sniffClassifiers p) (bp_sniffConstructors p) (bp_sniffSpecIndex p) (bp_routeActions p)
    (bp_backendNames p)).

Definition ipv4Param (op : opcode) (arg : string) (hasArg : bool) (p : bytecodeParser)
  : result parseError (Z * bytecodeParser) :=
  try! text := requiredTextArg op arg hasArg in
  match ParseAddr (TrimSpace text) with
  | Some (Addr4 v) =>
      try! '(idx, t) := intern op v (Success v) (bp_ipv4Addrs p) in
      Success (idx, MkParser (bp_strings p) (bp_regexps p) t (bp_ipv4Subnets p) (bp_ipv6Addrs p) (bp_ipv6Subnets p)
        (bp_rules p) (bp_sniffClassifiers p) (bp_sniffConstructors p) (bp_sniffSpecIndex p) (bp_routeActions p)
        (bp_backendNames p))
  | _ => Failure (ErrInvalidArgument op arg)
  end.

Definition ipv6Param (op : opcode) (arg : string) (hasArg : bool) (p : bytecodeParser)
  : result parseError (Z * bytecodeParser) :=
  try! text := requiredTextArg op arg hasArg in
  match ParseAddr (TrimSpace text) with
  | Some addr =>
      if negb (Is6 addr) then Failure (ErrInvalidArgument op arg)
      else
        try! '(idx, t) := intern op addr (Success addr) (bp_ipv6Addrs p) in
        Success (idx, MkParser (bp_strings p) (bp_regexps p) (bp_ipv4Addrs p) (bp_ipv4Subnets p) t (bp_ipv6Subnets p)
          (bp_rules p) (bp_sniffClassifiers p) (bp_sniffConstructors p) (bp_sniffSpecIndex p) (bp_routeActions p)
          (bp_backendNames p))
  | None => Failure (ErrInvalidArgument op arg)
  end.

Definition ipv4SubnetParam (op : opcode) (arg : string) (hasArg : bool) (p : bytecodeParser)
  : result parseError (Z * bytecodeParser) :=
  try! text := requiredTextArg op arg hasArg in
  match ParsePrefix (TrimSpace text) with
  | Some prefix =>
      if negb (Is4 (pfx_addr prefix)) then Failure (ErrInvalidArgument op arg)
      else
        let addr := pfx_addr (Prefix_Masked prefix) in
        try! bits := checkedUint8 op (pfx_bits prefix) in
        let subnet := MkIPv4Subnet (As4Uint32 addr) bits in
        try! '(idx, t) := intern op subnet (Success subnet) (bp_ipv4Subnets p) in
        Success (idx, MkParser (bp_strings p) (bp_regexps p) (bp_ipv4Addrs p) t (bp_ipv6Addrs p) (bp_ipv6Subnets p)
          (bp_rules p) (bp_sniffClassifiers p) (bp_sniffConstructors p) (bp_sniffSpecIndex p) (bp_routeActions p)
          (bp_backendNames p))
  | None => Failure (ErrInvalidArgument op arg)
  end.

Definition ipv6SubnetParam (op : opcode) (arg : string) (hasArg : bool) (p : bytecodeParser)
  : result parseError (Z * bytecodeParser) :=
  try! text := requiredTextArg op arg hasArg in
  match ParsePrefix (TrimSpace text) with
  | Some prefix =>
      if negb (Is6 (pfx_addr prefix)) then Failure (ErrInvalidArgument op arg)
      else
        let prefix := Prefix_Masked prefix in
        try! '(idx, t) := intern op prefix (Success prefix) (bp_ipv6Subnets p) in
        Success (idx, MkParser (bp_strings p) (bp_regexps p) (bp_ipv4Addrs p) (bp_ipv4Subnets p) (bp_ipv6Addrs p) t
          (bp_rules p) (bp_sniffClassifiers p) (bp_sniffConstructors p) (bp_sniffSpecIndex p) (bp_routeActions p)
          (bp_backendNames p))
  | None => Failure (ErrInvalidArgument op arg)
  end.

Definition ruleParam (op : opcode) (arg : string) (hasArg : bool) (p : bytecodeParser)
  : result parseError (Z * bytecodeParser) :=
  try! arg := requiredTextArg op arg hasArg in
  let '(ruleType, rule, ok) := splitRuleParam arg in
  if negb ok then Failure (ErrArgumentRequired op)
  else
    let entry := MkSysRule ruleType rule in
    try! '(idx, t) := intern op entry (Success entry) (bp_rules p) in
    Success (idx, MkParser (bp_strings p) (bp_regexps p) (bp_ipv4Addrs p) (bp_ipv4Subnets p) (bp_ipv6Addrs p)
      (bp_ipv6Subnets p) t (bp_sniffClassifiers p) (bp_sniffConstructors p) (bp_sniffSpecIndex p) (bp_routeActions p)
      (bp_backendNames p)).

Definition routeParam (op : opcode) (arg : string) (hasArg : bool) (p : bytecodeParser)
  : result parseError (Z * bytecodeParser) :=
  try! arg := requiredTextArg op arg hasArg in
  try! action := parse_route op arg in
  try! '(idx, t) := intern op action (Success action) (bp_routeActions p) in
  Success (idx, MkParser (bp_strings p) (bp_regexps p) (bp_ipv4Addrs p) (bp_ipv4Subnets p) (bp_ipv6Addrs p)
    (bp_ipv6Subnets p) (bp_rules p) (bp_sniffClassifiers p) (bp_sniffConstructors p) (bp_sniffSpecIndex p) t
    (bp_backendNames p)).

Definition backendParam (op : opcode) (arg : string) (hasArg : bool) (p : bytecodeParser)
  : result parseError (Z * bytecodeParser) :=
  try! arg := requiredTextArg op arg hasArg in
  let name := TrimSpace arg in
  if String.eqb name "" then Failure (ErrArgumentRequired op)
  else
    try! '(idx, t) := intern op name (Success name) (bp_backendNames p) in
    Success (idx, MkParser (bp_strings p) (bp_regexps p) (bp_ipv4Addrs p) (bp_ipv4Subnets p) (bp_ipv6Addrs p)
      (bp_ipv6Subnets p) (bp_rules p) (bp_sniffClassifiers p) (bp_sniffConstructors p) (bp_sniffSpecIndex p)
      (bp_routeActions p) t).

(** ** Classifiers *)

Definition with_sniff (p : bytecodeParser) (t : itable string (NamedSniffClassifier Factory))
    (specs : gmap string Z) : bytecodeParser :=
  MkParser (bp_strings p) (bp_regexps p) (bp_ipv4Addrs p) (bp_ipv4Subnets p) (bp_ipv6Addrs p) (bp_ipv6Subnets p)
    (bp_rules p) t (bp_sniffConstructors p) specs (bp_routeActions p) (bp_backendNames p).

Definition addSniffClassifier (c : NamedSniffClassifier Factory) (p : bytecodeParser)
  : result parseError (Z * bytecodeParser) :=
  try! name := of_option (normalizeSniffClassifierName (nc_Name c)) (ErrClassifier (nc_Name c)) in
  match nc_Factory c with
  | None => Failure (ErrClassifier name)
  | Some f =>
      match tb_index (bp_sniffClassifiers p) !! name with
      | Some _ => Failure (ErrClassifier name)
      | None =>
          try! idx := nextTableIndex OP_SNIFF (zlen (tb_list (bp_sniffClassifiers p))) in
          Success (idx, with_sniff p
            (MkITable (tb_list (bp_sniffClassifiers p) ++ [MkClassifier name (Some f)])
               (<[name := idx]> (tb_index (bp_sniffClassifiers p)))) (bp_sniffSpecIndex p))
      end
  end.

Fixpoint setSniffClassifiers (cs : list (NamedSniffClassifier Factory)) (p : bytecodeParser)
  : result parseError bytecodeParser :=
  match cs with
  | [] => Success p
  | c :: cs' => try! '(_, p) := addSniffClassifier c p in setSniffClassifiers cs' p
  end.

Fixpoint setSniffClassifierConstructors (cs : list (string * option SniffClassifierConstructor)) (p : bytecodeParser)
  : result parseError bytecodeParser :=
  match cs with
  | [] => Success p
  | (name, ctor) :: cs' =>
      try! name := of_option (normalizeSniffClassifierConstructorName name) (ErrClassifier name) in
      match ctor with
      | None => Failure (ErrClassifier name)
      | Some ctor =>
          match bp_sniffConstructors p !! name with
          | Some _ => Failure (ErrClassifier name)
          | None =>
              setSniffClassifierConstructors cs'
                (MkParser (bp_strings p) (bp_regexps p) (bp_ipv4Addrs p) (bp_ipv4Subnets p) (bp_ipv6Addrs p)
                   (bp_ipv6Subnets p) (bp_rules p) (bp_sniffClassifiers p) (<[name := ctor]> (bp_sniffConstructors p))
                   (bp_sniffSpecIndex p) (bp_routeActions p) (bp_backendNames p))
          end
      end
  end.

(** The first free name from [i] on; one of [size + 1] names is free. *)
Fixpoint free_name (fuel : nat) (i : Z) (used : gmap string Z) : string :=
  let name := String.append "@inline-" (itoa i) in
  match fuel with
  | O => name
  | S fuel' => match used !! name with None => name | Some _ => free_name fuel' (i + 1) used end
  end.

Definition nextInlineSniffClassifierName (p : bytecodeParser) : string :=
  free_name (size (tb_index (bp_sniffClassifiers p))) (zlen (tb_list (bp_sniffClassifiers p)))
    (tb_index (bp_sniffClassifiers p)).

Definition constructSniffClassifier (arg : string) (p : bytecodeParser) : result parseError (Z * bytecodeParser) :=
  try! '(name, options) := parseSniffClassifierSpec arg in
  match bp_sniffConstructors p !! name with
  | None => Failure (ErrClassifier name)
  | Some ctor =>
      match ctor options with
      | None => Failure (ErrClassifier name)
      | Some (_, None) => Failure (ErrClassifier name)
      | Some (canonical, Some factory) =>
          let canonical := TrimSpace canonical in
          let specKey := if negb (String.eqb canonical "")
                         then String.append name (String.append " " canonical) else name in
          match bp_sniffSpecIndex p !! specKey with
          | Some idx => Success (idx, p)
          | None =>
              try! '(idx, p) := addSniffClassifier (MkClassifier (nextInlineSniffClassifierName p) (Some factory)) p in
              Success (idx, with_sniff p (bp_sniffClassifiers p) (<[specKey := idx]> (bp_sniffSpecIndex p)))
          end
      end
  end.

Definition sniffParam (op : opcode) (arg : string) (hasArg : bool) (p : bytecodeParser)
  : result parseError (Z * bytecodeParser) :=
  try! arg := requiredTextArg op arg hasArg in
  let known := match normalizeSniffClassifierName arg with
               | Some name => tb_index (bp_sniffClassifiers p) !! name
               | None => None
               end in
  match known with
  | Some idx => Success (idx, p)
  | None => constructSniffClassifier arg p
  end.

(** ** Instructions *)

Definition appendParam16 (code : list byte) (op : opcode) (param : Z) : list byte :=
  code ++ [op_byte op; byte_of_Z (param mod 256); byte_of_Z (param / 256)].

Definition append_interned (code : list byte) (op : opcode) (r : result parseError (Z * bytecodeParser))
  : result parseError (list byte * bytecodeParser) :=
  try! '(idx, p) := r in Success (appendParam16 code op idx, p).

Definition appendOp (code : list byte) (op : opcode) (arg : string) (hasArg : bool) (p : bytecodeParser)
  : result parseError (list byte * bytecodeParser) :=
  match op with
  | OP_DROP | OP_TRUE | OP_FALSE | OP_NOT | OP_AND | OP_OR
  | OP_NET4 | OP_NET6 | OP_UDP | OP_TCP | OP_FQDN | OP_LFQDN
  | OP_DIAL | OP_LISTEN | OP_LOOKUP | OP_INTERCEPT | OP_SNIFF_NONE =>
      if hasArg && negb (String.eqb (TrimSpace arg) "") then Failure (ErrNoArgument op)
      else Success (code ++ [op_byte op], p)
  | OP_SLOT =>
      try! v := parseUintArg op arg hasArg 8 in
      Success (code ++ [op_byte op; byte_of_Z v], p)
  | OP_ADDR_S | OP_LADDR_S => append_interned code op (stringParam op arg hasArg p)
  | OP_ADDR_RE | OP_LADDR_RE => append_interned code op (regexpParam op arg hasArg p)
  | OP_ADDR4 | OP_LADDR4 => append_interned code op (ipv4Param op arg hasArg p)
  | OP_ADDR6 | OP_LADDR6 => append_interned code op (ipv6Param op arg hasArg p)
  | OP_SNET4 | OP_LSNET4 => append_interned code op (ipv4SubnetParam op arg hasArg p)
  | OP_SNET6 | OP_LSNET6 => append_interned code op (ipv6SubnetParam op arg hasArg p)
  | OP_PORT | OP_LPORT =>
      try! v := parseUintArg op arg hasArg 16 in
      try! param := checkedUint16 op v in
      Success (appendParam16 code op param, p)
  | OP_RULE => append_interned code op (ruleParam op arg hasArg p)
  | OP_SNIFF => append_interned code op (sniffParam op arg hasArg p)
  | OP_ROUTE => append_interned code op (routeParam op arg hasArg p)
  | OP_BACKEND => append_interned code op (backendParam op arg hasArg p)
  | OP_QTYPE => try! v := dnsUintArg op arg hasArg dnsTypeNames in Success (appendParam16 code op v, p)
  | OP_QCLASS => try! v := dnsUintArg op arg hasArg dnsClassNames in Success (appendParam16 code op v, p)
  | OP_OPCODE => try! v := dnsUintArg op arg hasArg dnsOpcodeNames in Success (appendParam16 code op v, p)
  end.

(** The error of a line carries the program and the line. *)
Definition at_line {A} (name : string) (line : bytecodeRuleLine) (r : result parseError A) : result parseError A :=
  match r with Failure e => Failure (ErrLine name (ln_no line) e) | _ => r end.

Fixpoint parse_lines (name : string) (lines : list bytecodeRuleLine) (code : list byte) (p : bytecodeParser)
  : result parseError (list byte * bytecodeParser) :=
  match lines with
  | [] => Success (code, p)
  | line :: lines' =>
      if skips_line (ln_text line) then parse_lines name lines' code p
      else
        let '(opName, arg, hasArg) := splitRuleLine (ln_text line) in
        match bytecodeOpByName (ToUpper opName) with
        | None => Failure (ErrLine name (ln_no line) (ErrUnknownOperation opName))
        | Some op =>
            try! '(code, p) := at_line name line (appendOp code op arg hasArg p) in
            parse_lines name lines' code p
        end
  end.

Definition parseProgramLines (name : string) (lines : list bytecodeRuleLine) (p : bytecodeParser)
  : result parseError (list byte * bytecodeParser) := parse_lines name lines [] p.

Definition parseProgram (name src : string) (p : bytecodeParser) : result parseError (list byte * bytecodeParser) :=
  parseProgramLines name (splitBytecodeRuleLines src) p.

(** The tables of the parser ([apply] and its variants). *)
Definition parser_tables (p : bytecodeParser) : tables :=
  MkTables (tb_list (bp_strings p)) (map Some (tb_list (bp_regexps p))) (tb_list (bp_ipv4Addrs p))
    (tb_list (bp_ipv4Subnets p)) (tb_list (bp_ipv6Addrs p)) (tb_list (bp_ipv6Subnets p)).

(** ** Rules from text *)

(** A final check by the constructor of the consumer. *)
Definition checked_rules {A B} (rules : A) (r : run (result bcError B)) : run (result parseError A) :=
  let! v := r in
  Done match v with Success _ => Success rules | Failure e => Failure (ErrRules e) end.

Definition NewBytecodeRules (dialTCP listenTCP dialUDP routeUDP lookup : string)
  : run (result parseError BytecodeRules) :=
  match (try! '(c1, p) := parseProgram "DialTCP" dialTCP newBytecodeParser in
         try! '(c2, p) := parseProgram "ListenTCP" listenTCP p in
         try! '(c3, p) := parseProgram "DialUDP" dialUDP p in
         try! '(c4, p) := parseProgram "RouteUDP" routeUDP p in
         try! '(c5, p) := parseProgram "Lookup" lookup p in
         Success (MkBytecodeRules (parser_tables p) None c1 c2 c3 c4 c5)) with
  | Failure e => Done (Failure e)
  | Success rules => checked_rules rules (NewBytecodeRouterCfg rules)
  end.

(** One target of NewBytecodeRulesProgram: its name, its method, its code. *)
Definition target : Type := string * bytecodeMethod * list byte.

Fixpoint parse_targets (segment : list bytecodeRuleLine) (targets : list target) (p : bytecodeParser)
  : result parseError (list target * bytecodeParser) :=
  match targets with
  | [] => Success ([], p)
  | (name, method, dst) :: targets' =>
      if negb (bytecodeSegmentCanTrigger segment method) then
        try! '(rest, p) := parse_targets segment targets' p in
        Success ((name, method, dst) :: rest, p)
      else
        try! '(code, p) := parseProgramLines name segment p in
        try! '(rest, p) := parse_targets segment targets' p in
        Success ((name, method, dst ++ code) :: rest, p)
  end.

Fixpoint parse_segments (segments : list (list bytecodeRuleLine)) (targets : list target) (p : bytecodeParser)
  : result parseError (list target * bytecodeParser) :=
  match segments with
  | [] => Success (targets, p)
  | segment :: segments' =>
      try! '(targets, p) := parse_targets segment targets p in
      parse_segments segments' targets p
  end.

Definition router_targets : list target :=
  [("DialTCP", bytecodeMethodDial, []); ("ListenTCP", bytecodeMethodListen, []);
   ("DialUDP", bytecodeMethodDial, []); ("RouteUDP", bytecodeMethodDial, []);
   ("Lookup", bytecodeMethodLookup, [])].

Definition target_code (targets : list target) (i : nat) : list byte :=
  match targets !! i with Some (_, _, code) => code | None => [] end.

Definition NewBytecodeRulesProgram (program : string) : run (result parseError BytecodeRules) :=
  match parse_segments (splitBytecodeRuleSegments program) router_targets newBytecodeParser with
  | Failure e => Done (Failure e)
  | Success (targets, p) =>
      let c := target_code targets in
      let rules := MkBytecodeRules (parser_tables p) None (c 0%nat) (c 1%nat) (c 2%nat) (c 3%nat) (c 4%nat) in
      checked_rules rules (NewBytecodeRouterCfg rules)
  end.

Definition NewDNSBytecodeRules (route : string) : run (result parseError DNSBytecodeRules) :=
  match parseProgram "DNSRoute" route newBytecodeParser with
  | Failure e => Done (Failure e)
  | Success (code, p) =>
      let rules := MkDNSRules (tb_list (bp_backendNames p)) (parser_tables p) code in
      checked_rules rules (NewBytecodeDNSRouteFunc rules)
  end.

(** The loop over the segments: the codes of Control and SniffControl. *)
Fixpoint parse_sniffer (segments : list (list bytecodeRuleLine)) (control sniff : list byte) (p : bytecodeParser)
  : result parseError (list byte * list byte * bytecodeParser) :=
  match segments with
  | [] => Success (control, sniff, p)
  | segment :: segments' =>
      try! targets := bytecodeSnifferSegmentTargets segment in
      try! '(code, p) := (if tg_control targets then parseProgramLines "SnifferControl" segment p
                          else Success ([], p)) in
      let control := control ++ code in
      try! '(code, p) := (if tg_sniff targets then parseProgramLines "SnifferSniffControl" segment p
                          else Success ([], p)) in
      parse_sniffer segments' control (sniff ++ code) p
  end.

Definition NewSnifferBytecodeRulesWithConstructors (classifiers : list (NamedSniffClassifier Factory))
    (constructors : list (string * option SniffClassifierConstructor)) (program : string)
  : run (result parseError (SnifferBytecodeRules Factory)) :=
  match (try! p := setSniffClassifiers classifiers newBytecodeParser in
         try! p := setSniffClassifierConstructors constructors p in
         parse_sniffer (splitBytecodeRuleSegments program) [] [] p) with
  | Failure e => Done (Failure e)
  | Success (control, sniff, p) =>
      let rules := MkSnifferRules (tb_list (bp_sniffClassifiers p)) (parser_tables p) None
        (tb_list (bp_routeActions p)) control sniff in
      checked_rules rules (NewBytecodeSnifferControls rules)
  end.

Fixpoint parse_remap (i : Z) (segments : list (list bytecodeRuleLine)) (p : bytecodeParser)
  : result parseError (list RemapperBytecodeRule * bytecodeParser) :=
  match segments with
  | [] => Success ([], p)
  | segment :: segments' =>
      try! r := parseRemapRuleSegment i segment in
      match r with
      | None => parse_remap (i + 1) segments' p
      | Some (lines, action) =>
          try! '(code, p) := parseProgramLines "Remapper" lines p in
          try! '(rest, p) := parse_remap (i + 1) segments' p in
          Success (MkBytecodeRule code action :: rest, p)
      end
  end.

Definition NewRemapperBytecodeRules `{HostEnv} (program : string) : run (result parseError RemapperBytecodeRules) :=
  match parse_remap 0 (splitBytecodeRuleSegments program) newBytecodeParser with
  | Failure e => Done (Failure e)
  | Success (rs, p) =>
      let rules := MkRemapperRules (parser_tables p) None rs in
      checked_rules rules (NewBytecodeRemapRules rules)
  end.
End Parser.
