(* ===== verification/ParserSpec.v ===== *)
(** * Correctness of the rule parser

    A program that parses decodes into one instruction per significant line,
    with the operation of the line and a parameter whose table entry is the
    argument of the line ([parseProgram_means]).  The tables only grow, so that
    this also holds in the final tables. *)

From S2P Require Import Prelude GoStd HostPort NetIP DNSCache Bytecode Machine AddrCache.
From S2P Require Import Scans RouterCfg SnifferRules RemapRules DNSRules RuleParser.

(** ** Decoding of concatenated programs *)

Lemma le16_app_l l k i v : le16 l i = Some v -> le16 (l ++ k) i = Some v.
Proof.
  unfold le16. destruct (index l i) as [a|] eqn:Ea; [|done]. destruct (index l (i + 1)) as [b|] eqn:Eb; [|done].
  apply index_Some_range in Ea as Ra, Eb as Rb. by rewrite !index_app_l, Ea, Eb by lia.
Qed.

Lemma le16_app_r l k i : 0 <= i -> le16 (l ++ k) (zlen l + i) = le16 k i.
Proof.
  intros Hi. unfold le16. rewrite !index_app_r by lia.
  by replace (zlen l + i - zlen l) with i by lia; replace (zlen l + i + 1 - zlen l) with (i + 1) by lia.
Qed.

Lemma le16_Some_range l i v : le16 l i = Some v -> i + 2 <= zlen l.
Proof.
  unfold le16. destruct (index l i); [|done]. destruct (index l (i + 1)) eqn:E; [|done].
  apply index_Some_range in E. lia.
Qed.

Lemma readUnchecked_app_l code k pc op param next :
  pc <= zlen code -> readBytecodeParamUnchecked code pc op = Done (param, next) ->
  readBytecodeParamUnchecked (code ++ k) pc op = Done (param, next) /\ next <= zlen code.
Proof.
  intros Hpc. unfold readBytecodeParamUnchecked.
  destruct (opcode_of op) as [[]|]; try (intros [= <- <-]; done);
    try (destruct (le16 code pc) as [v|] eqn:E; [|done]; intros [= <- <-];
         rewrite (le16_app_l _ _ _ _ E); apply le16_Some_range in E; done).
  destruct (index code pc) as [b|] eqn:E; [|done]. intros [= <- <-].
  apply index_Some_range in E as R. rewrite index_app_l, E by lia. split; [done|lia].
Qed.

Lemma readUnchecked_app_r code k pc op param next :
  0 <= pc -> readBytecodeParamUnchecked k pc op = Done (param, next) ->
  readBytecodeParamUnchecked (code ++ k) (zlen code + pc) op = Done (param, zlen code + next).
Proof.
  intros Hpc. unfold readBytecodeParamUnchecked.
  assert (Hi : index (code ++ k) (zlen code + pc) = index k pc)
    by (rewrite index_app_r by lia; f_equal; lia).
  rewrite (le16_app_r code k pc Hpc), Hi.
  destruct (opcode_of op) as [[]|]; try (intros [= <- <-]; done);
    destruct (index k pc), (le16 k pc); simpl; try done; intros [= <- <-]; do 2 f_equal; lia.
Qed.

Lemma decodes_app_r code k pc ins : 0 <= pc -> decodes k pc ins -> decodes (code ++ k) (zlen code + pc) ins.
Proof.
  intros Hpc Hd. induction Hd as [pc Hend|pc op param next ins Hop Hrd Hd IH].
  - apply decodes_end. rewrite zlen_app. lia.
  - pose proof (readUnchecked_advances _ _ _ _ _ Hrd).
    eapply decodes_instr; [by rewrite index_app_r by lia; replace (zlen code + pc - zlen code) with pc by lia| |].
    + replace (zlen code + pc + 1) with (zlen code + (pc + 1)) by lia. apply readUnchecked_app_r; [lia|done].
    + apply IH. lia.
Qed.

Lemma decodes_app_at code k pc ins ins' :
  pc <= zlen code -> decodes code pc ins -> decodes k 0 ins' -> decodes (code ++ k) pc (ins ++ ins').
Proof.
  intros Hpc Hd Hk. induction Hd as [pc Hend|pc op param next ins Hop Hrd Hd IH].
  - replace pc with (zlen code + 0) by lia. by apply decodes_app_r.
  - apply index_Some_range in Hop as R. destruct (readUnchecked_app_l code k (pc + 1) op param next) as [Hrd' Hn];
      [lia|done|]. simpl. eapply decodes_instr; [by rewrite index_app_l by lia|done|by apply IH].
Qed.

Lemma decodes_app code k ins ins' : decodes code 0 ins -> decodes k 0 ins' -> decodes (code ++ k) 0 (ins ++ ins').
Proof. apply decodes_app_at, zlen_nonneg. Qed.

Lemma decodes_nil : decodes [] 0 [].
Proof. by apply decodes_end. Qed.

(** ** One encoded instruction *)

Lemma decodes_op0 op : param_kind (op_byte op) = bytecodeParamNone -> decodes [op_byte op] 0 [MkInstr (op_byte op) 0].
Proof.
  intros Hk. eapply decodes_instr; [done| |by apply decodes_end].
  unfold readBytecodeParamUnchecked. unfold param_kind in Hk. rewrite opcode_of_op_byte in *.
  by destruct op.
Qed.

Lemma decodes_op8 v : 0 <= v < 256 -> decodes [op_byte OP_SLOT; byte_of_Z v] 0 [MkInstr (op_byte OP_SLOT) v].
Proof.
  intros Hv. eapply decodes_instr; [done| |by apply (decodes_end _ 2)].
  change (readBytecodeParamUnchecked [op_byte OP_SLOT; byte_of_Z v] (0 + 1) (op_byte OP_SLOT))
    with (Done (bZ (byte_of_Z v), 2)). by rewrite bZ_byte_of_Z.
Qed.

Lemma decodes_op16 op v :
  param_kind (op_byte op) = bytecodeParamUint16 -> 0 <= v < 65536 ->
  decodes (appendParam16 [] op v) 0 [MkInstr (op_byte op) v].
Proof.
  intros Hk Hv. unfold appendParam16. simpl. eapply decodes_instr; [done| |by apply (decodes_end _ 3)].
  assert (Hle : le16 [op_byte op; byte_of_Z (v mod 256); byte_of_Z (v / 256)] 1 = Some v).
  { change (Some (bZ (byte_of_Z (v mod 256)) + bZ (byte_of_Z (v / 256)) * 256) = Some v).
    pose proof (Z.div_mod v 256). pose proof (Z.mod_pos_bound v 256).
    rewrite !bZ_byte_of_Z by (try apply Z.mod_pos_bound; try (split; [apply Z.div_pos|apply Z.div_lt_upper_bound]); lia).
    f_equal. lia. }
  unfold readBytecodeParamUnchecked. unfold param_kind in Hk. rewrite opcode_of_op_byte in *.
  change (0 + 1) with 1. rewrite Hle. by destruct op.
Qed.

(** ** Tables *)

(** Every key in the index points at a value for it. *)
Definition table_ok {K V} `{Countable K} (R : K -> V -> Prop) (t : itable K V) : Prop :=
  forall k i, tb_index t !! k = Some i -> 0 <= i < 65536 /\ exists v, index (tb_list t) i = Some v /\ R k v.

Lemma empty_table_ok {K V} `{Countable K} (R : K -> V -> Prop) : table_ok R empty_itable.
Proof. intros k i Hk. cbn [empty_itable tb_index] in Hk. by rewrite lookup_empty in Hk. Qed.

Lemma index_prefix {A} (l l' : list A) i v : l `prefix_of` l' -> index l i = Some v -> index l' i = Some v.
Proof.
  intros [k ->] Hi. rewrite index_app_l; [done|]. apply index_Some_range in Hi. lia.
Qed.

Lemma intern_ok {K V} `{Countable K} (R : K -> V -> Prop) op key value (t : itable K V) idx t' :
  table_ok R t -> (forall v, value = Success v -> R key v) -> intern op key value t = Success (idx, t') ->
  table_ok R t' /\ tb_list t `prefix_of` tb_list t' /\ 0 <= idx < 65536 /\
  exists v, index (tb_list t') idx = Some v /\ R key v.
Proof.
  intros Ht Hv. unfold intern. destruct (tb_index t !! key) as [i|] eqn:E.
  { intros [= <- <-]. destruct (Ht key i E) as [Hr Hx]. split_and!; [done|done|lia|lia|done]. }
  intros Hi. apply result_bind_Success in Hi as (v & Hval & Hi).
  apply result_bind_Success in Hi as (j & Hj & Hi). injection Hi as <- <-.
  unfold nextTableIndex in Hj. destruct (Z.ltb_spec 65535 (zlen (tb_list t))) as [|Hlen]; [done|].
  injection Hj as <-. pose proof (zlen_nonneg (tb_list t)).
  assert (Hnew : exists x, index (tb_list t ++ [v]) (zlen (tb_list t)) = Some x /\ R key x)
    by (exists v; split; [apply index_snoc|by apply Hv]).
  split_and!; simpl; [|by eexists|lia|lia|done].
  intros k i Hk. cbn [tb_index] in Hk. destruct (decide (k = key)) as [->|Hne].
  - rewrite lookup_insert_eq in Hk. injection Hk as <-. split; [lia|done].
  - rewrite lookup_insert_ne in Hk by done. destruct (Ht k i Hk) as (Hr & x & Hx & HR). split; [done|].
    exists x. split; [|done]. eapply index_prefix; [by eexists|done].
Qed.

(** ** Numbers *)

Lemma digit_range c d : digit c = Some d -> 0 <= d < 10.
Proof. unfold digit. destruct ((48 <=? ord c) && (ord c <=? 57)) eqn:E; [|done]. intros [= <-]. lia. Qed.

Lemma parse_digits_nonneg s acc v : 0 <= acc -> parse_digits s acc = Some v -> 0 <= v.
Proof.
  revert acc. induction s as [|c s IH]; intros acc Ha; simpl; [by intros [= <-]|].
  destruct (digit c) as [d|] eqn:E; [|done]. apply digit_range in E. apply IH. lia.
Qed.

Lemma ParseUint_range s bits v : ParseUint s bits = Some v -> 0 <= v < 2 ^ bits.
Proof.
  unfold ParseUint. destruct s as [|c s]; [done|]. destruct (parse_digits (String c s) 0) as [w|] eqn:E; [|done].
  apply parse_digits_nonneg in E; [|lia]. destruct (Z.ltb_spec w (2 ^ bits)); [|done]. intros [= <-]. lia.
Qed.

Lemma of_option_Success {A} (o : option A) e v : of_option o e = Success v -> o = Some v.
Proof. destruct o; simpl; [by intros [= <-]|done]. Qed.

Lemma parseUintArg_value op arg hasArg bits v :
  parseUintArg op arg hasArg bits = Success v -> ParseUint (TrimSpace arg) bits = Some v.
Proof.
  unfold parseUintArg. destruct (negb hasArg || String.eqb (TrimSpace arg) ""); [done|]. apply of_option_Success.
Qed.

(** The numbers that may follow QTYPE, QCLASS and OPCODE. *)
Definition named_number (names : list (string * Z)) (arg : string) : option Z :=
  match List.find (fun e => String.eqb (fst e) (ToUpper (TrimSpace arg))) names with
  | Some e => Some (snd e)
  | None => ParseUint (TrimSpace arg) 16
  end.

Lemma dnsUintArg_value op arg hasArg names v :
  Forall (fun e => 0 <= snd e < 65536) names -> dnsUintArg op arg hasArg names = Success v ->
  named_number names arg = Some v /\ 0 <= v < 65536.
Proof.
  intros Hn. unfold dnsUintArg, named_number.
  destruct (negb hasArg || String.eqb (TrimSpace arg) ""); [done|].
  destruct (List.find _ names) as [e|] eqn:E.
  - intros [= <-]. split; [done|]. apply List.find_some in E as [Hin _]. rewrite Forall_forall in Hn.
    by apply Hn, list_elem_of_In.
  - intros Hv%of_option_Success. split; [done|]. by apply ParseUint_range in Hv.
Qed.

Lemma requiredTextArg_value op arg hasArg v : requiredTextArg op arg hasArg = Success v -> v = arg.
Proof. unfold requiredTextArg. destruct (negb hasArg || String.eqb arg ""); [done|]. by intros [= <-]. Qed.

(** ** The parser's tables *)

Section Spec.
Context {Factory : Type}.
Context (Compile : string -> option regexp).
Notation bytecodeParser := (bytecodeParser (Factory := Factory)).

Record parser_ok (p : bytecodeParser) : Prop := MkParserOk {
  ok_strings : table_ok eq (bp_strings p);
  ok_regexps : table_ok (fun s re => Compile s = Some re) (bp_regexps p);
  ok_ipv4Addrs : table_ok eq (bp_ipv4Addrs p);
  ok_ipv4Subnets : table_ok eq (bp_ipv4Subnets p);
  ok_ipv6Addrs : table_ok eq (bp_ipv6Addrs p);
  ok_ipv6Subnets : table_ok eq (bp_ipv6Subnets p);
  ok_rules : table_ok eq (bp_rules p);
  ok_classifiers : table_ok (fun name c => nc_Name c = name) (bp_sniffClassifiers p);
  ok_specs : forall k i, bp_sniffSpecIndex p !! k = Some i ->
    0 <= i < 65536 /\ is_Some (index (tb_list (bp_sniffClassifiers p)) i);
  ok_routeActions : table_ok eq (bp_routeActions p);
  ok_backends : table_ok eq (bp_backendNames p) }.

(** The tables of [p] are beginnings of those of [p']. *)
Record extends (p p' : bytecodeParser) : Prop := MkExtends {
  ext_strings : tb_list (bp_strings p) `prefix_of` tb_list (bp_strings p');
  ext_regexps : tb_list (bp_regexps p) `prefix_of` tb_list (bp_regexps p');
  ext_ipv4Addrs : tb_list (bp_ipv4Addrs p) `prefix_of` tb_list (bp_ipv4Addrs p');
  ext_ipv4Subnets : tb_list (bp_ipv4Subnets p) `prefix_of` tb_list (bp_ipv4Subnets p');
  ext_ipv6Addrs : tb_list (bp_ipv6Addrs p) `prefix_of` tb_list (bp_ipv6Addrs p');
  ext_ipv6Subnets : tb_list (bp_ipv6Subnets p) `prefix_of` tb_list (bp_ipv6Subnets p');
  ext_rules : tb_list (bp_rules p) `prefix_of` tb_list (bp_rules p');
  ext_classifiers : tb_list (bp_sniffClassifiers p) `prefix_of` tb_list (bp_sniffClassifiers p');
  ext_routeActions : tb_list (bp_routeActions p) `prefix_of` tb_list (bp_routeActions p');
  ext_backends : tb_list (bp_backendNames p) `prefix_of` tb_list (bp_backendNames p') }.

#[global] Instance extends_preorder : PreOrder extends.
Proof.
  split; [intros p; by split|]. intros p q r [] []. split; by etrans.
Qed.

Lemma newBytecodeParser_ok : parser_ok newBytecodeParser.
Proof.
  split; try apply empty_table_ok. intros k i Hk. cbn [newBytecodeParser bp_sniffSpecIndex] in Hk.
  by rewrite lookup_empty in Hk.
Qed.

(** What the argument of a line says about the parameter of its instruction. *)
Definition param_means (p : bytecodeParser) (op : opcode) (arg : string) (v : Z) : Prop :=
  match op with
  | OP_SLOT => ParseUint (TrimSpace arg) 8 = Some v
  | OP_ADDR_S | OP_LADDR_S => index (tb_list (bp_strings p)) v = Some arg
  | OP_ADDR_RE | OP_LADDR_RE => exists re, Compile arg = Some re /\ index (tb_list (bp_regexps p)) v = Some re
  | OP_ADDR4 | OP_LADDR4 => exists a, ParseAddr (TrimSpace arg) = Some (Addr4 a) /\
      index (tb_list (bp_ipv4Addrs p)) v = Some a
  | OP_ADDR6 | OP_LADDR6 => exists a, ParseAddr (TrimSpace arg) = Some a /\ Is6 a = true /\
      index (tb_list (bp_ipv6Addrs p)) v = Some a
  | OP_SNET4 | OP_LSNET4 => exists prefix, ParsePrefix (TrimSpace arg) = Some prefix /\
      Is4 (pfx_addr prefix) = true /\
      index (tb_list (bp_ipv4Subnets p)) v =
        Some (MkIPv4Subnet (As4Uint32 (pfx_addr (Prefix_Masked prefix))) (pfx_bits prefix))
  | OP_SNET6 | OP_LSNET6 => exists prefix, ParsePrefix (TrimSpace arg) = Some prefix /\
      Is6 (pfx_addr prefix) = true /\ index (tb_list (bp_ipv6Subnets p)) v = Some (Prefix_Masked prefix)
  | OP_PORT | OP_LPORT => ParseUint (TrimSpace arg) 16 = Some v
  | OP_RULE => exists ruleType rule, splitRuleParam arg = (ruleType, rule, true) /\
      index (tb_list (bp_rules p)) v = Some (MkSysRule ruleType rule)
  | OP_SNIFF => is_Some (index (tb_list (bp_sniffClassifiers p)) v)
  | OP_ROUTE => exists a, parse_route OP_ROUTE arg = Success a /\ index (tb_list (bp_routeActions p)) v = Some a
  | OP_BACKEND => index (tb_list (bp_backendNames p)) v = Some (TrimSpace arg)
  | OP_QTYPE => named_number dnsTypeNames arg = Some v
  | OP_QCLASS => named_number dnsClassNames arg = Some v
  | OP_OPCODE => named_number dnsOpcodeNames arg = Some v
  | _ => v = 0
  end.

Lemma param_means_extends p p' op arg v : extends p p' -> param_means p op arg v -> param_means p' op arg v.
Proof.
  intros [] Hm. destruct op; simpl in *; try done; unfold is_Some in *;
    repeat match goal with
    | H : exists _, _ |- _ => destruct H
    | H : _ /\ _ |- _ => destruct H
    end; eauto 7 using index_prefix.
Qed.

(** A parameter function: the tables stay good and grow, and the index means
    the argument. *)
Definition param_spec (op : opcode) (arg : string) (p : bytecodeParser) (r : result parseError (Z * bytecodeParser))
  : Prop :=
  forall idx p', r = Success (idx, p') ->
    parser_ok p' /\ extends p p' /\ 0 <= idx < 65536 /\ param_means p' op arg idx.

(** Opens [requiredTextArg] and [intern] in a parameter function. *)
Ltac open_param H :=
  apply result_bind_Success in H as (? & ?%requiredTextArg_value & H); subst.
Ltac open_intern H R Hok :=
  let t := fresh "t" in let idx := fresh "idx" in let Hi := fresh "Hi" in
  apply result_bind_Success in H as ([idx t] & Hi & H);
  apply (intern_ok R) in Hi as (? & ? & ? & (? & ? & ?)); [|exact Hok|];
  [injection H as <- <-; subst|].
Ltac close_param :=
  split_and!; [split; simpl; by (done || eauto)|split; simpl; done|lia|lia|simpl].

Lemma stringParam_spec op arg hasArg p :
  (op = OP_ADDR_S \/ op = OP_LADDR_S) -> parser_ok p -> param_spec op arg p (stringParam op arg hasArg p).
Proof.
  intros Hop Hok idx' p' H. pose proof Hok as []. unfold stringParam in H. open_param H.
  open_intern H (@eq string) (ok_strings _ Hok); [|by intros v [= <-]].
  close_param. by destruct Hop as [->| ->].
Qed.

Lemma regexpParam_spec op arg hasArg p :
  (op = OP_ADDR_RE \/ op = OP_LADDR_RE) -> parser_ok p -> param_spec op arg p (regexpParam Compile op arg hasArg p).
Proof.
  intros Hop Hok idx' p' H. pose proof Hok as []. unfold regexpParam in H. open_param H.
  open_intern H (fun s re => Compile s = Some re) (ok_regexps _ Hok); [|by intros v ?%of_option_Success].
  close_param. destruct Hop as [->| ->]; by eexists.
Qed.

Lemma ipv4Param_spec op arg hasArg p :
  (op = OP_ADDR4 \/ op = OP_LADDR4) -> parser_ok p -> param_spec op arg p (ipv4Param op arg hasArg p).
Proof.
  intros Hop Hok idx' p' H. pose proof Hok as []. unfold ipv4Param in H. open_param H.
  destruct (ParseAddr (TrimSpace arg)) as [[|v|]|] eqn:E; try done.
  open_intern H (@eq Z) (ok_ipv4Addrs _ Hok); [|by intros w [= <-]].
  close_param. destruct Hop as [->| ->]; by eexists.
Qed.

Lemma ipv6Param_spec op arg hasArg p :
  (op = OP_ADDR6 \/ op = OP_LADDR6) -> parser_ok p -> param_spec op arg p (ipv6Param op arg hasArg p).
Proof.
  intros Hop Hok idx' p' H. pose proof Hok as []. unfold ipv6Param in H. open_param H.
  destruct (ParseAddr (TrimSpace arg)) as [a|] eqn:E; [|done]. destruct (Is6 a) eqn:E6; [|done]. cbn [negb] in H.
  open_intern H (@eq Addr) (ok_ipv6Addrs _ Hok); [|by intros w [= <-]].
  close_param. destruct Hop as [->| ->]; by eexists.
Qed.

Lemma ipv4SubnetParam_spec op arg hasArg p :
  (op = OP_SNET4 \/ op = OP_LSNET4) -> parser_ok p -> param_spec op arg p (ipv4SubnetParam op arg hasArg p).
Proof.
  intros Hop Hok idx' p' H. pose proof Hok as []. unfold ipv4SubnetParam in H. open_param H.
  destruct (ParsePrefix (TrimSpace arg)) as [a|] eqn:E; [|done]. destruct (Is4 (pfx_addr a)) eqn:E4; [|done].
  cbn [negb] in H. apply result_bind_Success in H as (bits & Hb & H). unfold checkedUint8 in Hb.
  destruct ((pfx_bits a <? 0) || (255 <? pfx_bits a)); [done|]. injection Hb as <-.
  open_intern H (@eq IPv4Subnet) (ok_ipv4Subnets _ Hok); [|by intros w [= <-]].
  close_param. destruct Hop as [->| ->]; by eexists.
Qed.

Lemma ipv6SubnetParam_spec op arg hasArg p :
  (op = OP_SNET6 \/ op = OP_LSNET6) -> parser_ok p -> param_spec op arg p (ipv6SubnetParam op arg hasArg p).
Proof.
  intros Hop Hok idx' p' H. pose proof Hok as []. unfold ipv6SubnetParam in H. open_param H.
  destruct (ParsePrefix (TrimSpace arg)) as [a|] eqn:E; [|done]. destruct (Is6 (pfx_addr a)) eqn:E6; [|done].
  cbn [negb] in H. open_intern H (@eq Prefix) (ok_ipv6Subnets _ Hok); [|by intros w [= <-]].
  close_param. destruct Hop as [->| ->]; by eexists.
Qed.

Lemma ruleParam_spec arg hasArg p : parser_ok p -> param_spec OP_RULE arg p (ruleParam OP_RULE arg hasArg p).
Proof.
  intros Hok idx' p' H. pose proof Hok as []. unfold ruleParam in H. open_param H.
  destruct (splitRuleParam arg) as [[ty tx] []] eqn:E; [|done]. cbn [negb] in H.
  open_intern H (@eq sysRule) (ok_rules _ Hok); [|by intros w [= <-]].
  close_param. by exists ty, tx.
Qed.

Lemma routeParam_spec arg hasArg p : parser_ok p -> param_spec OP_ROUTE arg p (routeParam OP_ROUTE arg hasArg p).
Proof.
  intros Hok idx' p' H. pose proof Hok as []. unfold routeParam in H. open_param H.
  apply result_bind_Success in H as (a & Ha & H).
  open_intern H (@eq SnifferRouteAction) (ok_routeActions _ Hok); [|by intros w [= <-]].
  close_param. by eexists.
Qed.

Lemma backendParam_spec arg hasArg p :
  parser_ok p -> param_spec OP_BACKEND arg p (backendParam OP_BACKEND arg hasArg p).
Proof.
  intros Hok idx' p' H. pose proof Hok as []. unfold backendParam in H. open_param H.
  destruct (String.eqb (TrimSpace arg) ""); [done|].
  open_intern H (@eq string) (ok_backends _ Hok); [|by intros v [= <-]].
  by close_param.
Qed.

Lemma addSniffClassifier_spec c p idx p' :
  parser_ok p -> addSniffClassifier c p = Success (idx, p') ->
  parser_ok p' /\ extends p p' /\ 0 <= idx < 65536 /\ is_Some (index (tb_list (bp_sniffClassifiers p')) idx).
Proof.
  intros Hok H. pose proof Hok as []. unfold addSniffClassifier in H.
  apply result_bind_Success in H as (name & Hn & H). destruct (nc_Factory c) as [f|]; [|done].
  destruct (tb_index (bp_sniffClassifiers p) !! name) eqn:El; [done|].
  apply result_bind_Success in H as (i & Hi & H).
  destruct (intern_ok (fun name c => nc_Name c = name) OP_SNIFF name (Success (MkClassifier name (Some f)))
    (bp_sniffClassifiers p) i (MkITable (tb_list (bp_sniffClassifiers p) ++ [MkClassifier name (Some f)])
      (<[name := i]> (tb_index (bp_sniffClassifiers p))))) as (Ht & Hp & Hr & v & Hv & _).
  { done. }
  { by intros v [= <-]. }
  { unfold intern. rewrite El. cbn [result_bind]. rewrite Hi. done. }
  injection H as <- <-. split_and!; [|split; simpl; done|lia|lia|by exists v].
  split; simpl; try done. intros k j Hk. destruct (ok_specs0 k j Hk) as [Hj [x Hx]]. split; [done|].
  exists x. by eapply index_prefix.
Qed.

Lemma sniffParam_spec arg hasArg p : parser_ok p -> param_spec OP_SNIFF arg p (sniffParam OP_SNIFF arg hasArg p).
Proof.
  intros Hok idx p' H. pose proof Hok as []. unfold sniffParam in H. open_param H.
  destruct (match normalizeSniffClassifierName arg with Some name => _ | None => _ end) as [i|] eqn:Ek.
  { injection H as <- <-. destruct (normalizeSniffClassifierName arg) as [name|]; [|done].
    destruct (ok_classifiers0 name i Ek) as [Hi (c & Hc & _)]. split_and!; [done|reflexivity|lia|lia|by exists c]. }
  clear Ek. unfold constructSniffClassifier in H. apply result_bind_Success in H as ([name options] & _ & H).
  destruct (bp_sniffConstructors p !! name) as [ctor|]; [|done].
  destruct (ctor options) as [[canonical [f|]]|]; [|done|done].
  match type of H with match bp_sniffSpecIndex p !! ?k with _ => _ end = _ => set (key := k) in H end.
  destruct (bp_sniffSpecIndex p !! key) as [i|] eqn:Es.
  { injection H as <- <-. destruct (ok_specs0 key i Es) as [Hi Hx]. split_and!; [done|reflexivity|lia|lia|done]. }
  apply result_bind_Success in H as ([i q] & Ha & H). injection H as <- <-.
  apply addSniffClassifier_spec in Ha as (Hq & He & Hr & Hx); [|done]. pose proof Hq as [].
  split_and!; [|destruct He; split; done|lia|lia|done].
  split; simpl; try done. intros k j Hk. destruct (decide (k = key)) as [->|Hne].
  - rewrite lookup_insert_eq in Hk. injection Hk as <-. done.
  - rewrite lookup_insert_ne in Hk by done. by apply ok_specs1 in Hk.
Qed.

(** ** Instructions and lines *)

(** The instruction [i] has the operation [op] and the parameter the argument
    means. *)
Definition instr_means (p : bytecodeParser) (op : opcode) (arg : string) (i : splitInstr) : Prop :=
  in_op i = op_byte op /\ 0 <= in_param i < 65536 /\ param_means p op arg (in_param i).

Lemma append_interned_spec code op arg p r code' p' :
  param_kind (op_byte op) = bytecodeParamUint16 -> param_spec op arg p r ->
  append_interned code op r = Success (code', p') ->
  parser_ok p' /\ extends p p' /\ exists c i, code' = code ++ c /\ decodes c 0 [i] /\ instr_means p' op arg i.
Proof.
  intros Hk Hr H. unfold append_interned in H. apply result_bind_Success in H as ([idx q] & Hi & H).
  injection H as <- <-. destruct (Hr idx q Hi) as (Hok & He & Hx & Hm). split_and!; [done|done|].
  exists (appendParam16 [] op idx), (MkInstr (op_byte op) idx). split_and!; [done|by apply decodes_op16|done].
Qed.

Lemma append_number_spec code op arg p v :
  param_kind (op_byte op) = bytecodeParamUint16 -> 0 <= v < 65536 -> param_means p op arg v -> parser_ok p ->
  parser_ok p /\ extends p p /\
  exists c i, appendParam16 code op v = code ++ c /\ decodes c 0 [i] /\ instr_means p op arg i.
Proof.
  intros Hk Hv Hm Hok. split_and!; [done|reflexivity|].
  exists (appendParam16 [] op v), (MkInstr (op_byte op) v). split_and!; [done|by apply decodes_op16|done].
Qed.

Lemma dns_names_ok : Forall (fun e => 0 <= snd e < 65536) (dnsTypeNames ++ dnsClassNames ++ dnsOpcodeNames).
Proof. repeat constructor; done. Qed.

(** One line appends one instruction. *)
Lemma appendOp_spec code op arg hasArg p code' p' :
  parser_ok p -> appendOp Compile code op arg hasArg p = Success (code', p') ->
  parser_ok p' /\ extends p p' /\ exists c i, code' = code ++ c /\ decodes c 0 [i] /\ instr_means p' op arg i.
Proof.
  intros Hok H. pose proof dns_names_ok as Hn. rewrite !Forall_app in Hn. destruct Hn as (Hn1 & Hn2 & Hn3).
  assert (H0 : param_kind (op_byte op) = bytecodeParamNone -> param_means p op arg 0 ->
    (code', p') = (code ++ [op_byte op], p) ->
    parser_ok p' /\ extends p p' /\ exists c i, code' = code ++ c /\ decodes c 0 [i] /\ instr_means p' op arg i).
  { intros Hk Hm [= -> ->]. split_and!; [done|reflexivity|]. exists [op_byte op], (MkInstr (op_byte op) 0).
    split_and!; [done|by apply decodes_op0|done]. }
  unfold appendOp in H.
  destruct op; try (eapply append_interned_spec; [reflexivity| |exact H]);
    try (apply stringParam_spec; by auto); try (apply regexpParam_spec; by auto);
    try (apply ipv4Param_spec; by auto); try (apply ipv6Param_spec; by auto);
    try (apply ipv4SubnetParam_spec; by auto); try (apply ipv6SubnetParam_spec; by auto);
    try (apply ruleParam_spec; by auto); try (apply routeParam_spec; by auto);
    try (apply sniffParam_spec; by auto); try (apply backendParam_spec; by auto);
    try (destruct (hasArg && negb (String.eqb (TrimSpace arg) "")); [discriminate H|];
         injection H as <- <-; by apply H0).
  - apply result_bind_Success in H as (v & Hv%parseUintArg_value & H). injection H as <- <-.
    apply ParseUint_range in Hv as Hr. split_and!; [done|reflexivity|].
    exists [op_byte OP_SLOT; byte_of_Z v], (MkInstr (op_byte OP_SLOT) v).
    split; [done|]. split; [by apply decodes_op8|]. split; [done|]. split; [simpl; lia|done].
  - apply result_bind_Success in H as (v & Hv%parseUintArg_value & H). apply ParseUint_range in Hv as Hr.
    unfold checkedUint16 in H. destruct (65535 <? v); [discriminate H|]. injection H as <- <-.
    by apply append_number_spec.
  - apply result_bind_Success in H as (v & Hv%parseUintArg_value & H). apply ParseUint_range in Hv as Hr.
    unfold checkedUint16 in H. destruct (65535 <? v); [discriminate H|]. injection H as <- <-.
    by apply append_number_spec.
  - apply result_bind_Success in H as (v & Hv & H). apply dnsUintArg_value in Hv as [Hv Hr]; [|done].
    injection H as <- <-. by apply append_number_spec.
  - apply result_bind_Success in H as (v & Hv & H). apply dnsUintArg_value in Hv as [Hv Hr]; [|done].
    injection H as <- <-. by apply append_number_spec.
  - apply result_bind_Success in H as (v & Hv & H). apply dnsUintArg_value in Hv as [Hv Hr]; [|done].
    injection H as <- <-. by apply append_number_spec.
Qed.

(** The lines that hold an operation. *)
Definition significant (lines : list bytecodeRuleLine) : list string :=
  map ln_text (List.filter (fun line => negb (skips_line (ln_text line))) lines).

(** The instruction of a line of text. *)
Definition line_means (p : bytecodeParser) (line : string) (i : splitInstr) : Prop :=
  exists op, line_op line = Some op /\ instr_means p op (splitRuleLine line).1.2 i.

Lemma line_means_extends p p' line i : extends p p' -> line_means p line i -> line_means p' line i.
Proof.
  intros He (op & Hop & H1 & H2 & H3). exists op. split; [done|]. split; [done|]. split; [done|]. by eapply param_means_extends.
Qed.

Lemma parse_lines_spec name lines : forall code p code' p' ins,
  parser_ok p -> decodes code 0 ins -> parse_lines Compile name lines code p = Success (code', p') ->
  parser_ok p' /\ extends p p' /\
  exists ins', decodes code' 0 (ins ++ ins') /\ Forall2 (line_means p') (significant lines) ins'.
Proof.
  induction lines as [|line lines IH]; intros code p code' p' ins Hok Hdec H; cbn [parse_lines] in H.
  - injection H as <- <-. split_and!; [done|reflexivity|]. exists []. by rewrite app_nil_r.
  - unfold significant. cbn [List.filter]. destruct (skips_line (ln_text line)) eqn:Es; cbn [negb].
    { by eapply IH. }
    destruct (splitRuleLine (ln_text line)) as [[opName arg] hasArg] eqn:El.
    destruct (bytecodeOpByName (ToUpper opName)) as [op|] eqn:Eop; [|done].
    apply result_bind_Success in H as ([code1 p1] & Ha & H). unfold at_line in Ha.
    destruct (appendOp Compile code op arg hasArg p) as [r|] eqn:Eap; [|done]. injection Ha as ->.
    apply appendOp_spec in Eap as (Hok1 & He1 & c & i & -> & Hc & Hi); [|done].
    apply (IH _ _ _ _ (ins ++ [i])) in H as (Hok' & He' & ins' & Hdec' & Hall); [|done|by apply decodes_app].
    split_and!; [done|by etrans|]. exists (i :: ins'). rewrite <- app_assoc in Hdec'. split; [done|].
    cbn [map]. constructor; [|done]. eapply line_means_extends; [exact He'|].
    exists op. unfold line_op, line_name. rewrite El. by split.
Qed.

Lemma parseProgramLines_spec name lines p code p' :
  parser_ok p -> parseProgramLines Compile name lines p = Success (code, p') ->
  parser_ok p' /\ extends p p' /\
  exists ins, decodes code 0 ins /\ Forall2 (line_means p') (significant lines) ins.
Proof.
  intros Hok H. apply (parse_lines_spec name lines [] p code p' []) in H; [|done|apply decodes_nil].
  exact H.
Qed.

(** C4. A program that parses decodes into exactly one instruction per line
    that is neither blank nor a comment: the instruction has the operation the
    line names, and its parameter is the number of the argument or the position
    in the tables where the value of the argument is found. *)
Theorem parseProgram_means name src code p :
  parseProgram Compile name src newBytecodeParser = Success (code, p) ->
  exists ins, decodes code 0 ins /\ Forall2 (line_means p) (significant (splitBytecodeRuleLines src)) ins.
Proof.
  intros H. apply parseProgramLines_spec in H as (_ & _ & H); [done|apply newBytecodeParser_ok].
Qed.
End Spec.

(** ** Names of inline classifiers *)

Definition inline_name (i : Z) : string := String.append "@inline-" (itoa i).

Lemma inline_names_nodup i n : 0 <= i -> i + Z.of_nat n < 10 ^ 20 ->
  NoDup (map (fun k => inline_name (i + Z.of_nat k)) (seq 0 n)).
Proof.
  intros Hi Hn. apply NoDup_fmap_2_strong; [|apply NoDup_seq]. intros x y Hx Hy E.
  apply elem_of_seq in Hx, Hy. unfold inline_name in E. cbn [String.append] in E.
  injection E as E. apply itoa_inj in E; lia.
Qed.

(** The search stops at the first free name, or has seen [fuel + 1] used ones. *)
Lemma free_name_search fuel i used :
  (exists k, (k <= fuel)%nat /\ free_name fuel i used = inline_name (i + Z.of_nat k) /\
     used !! inline_name (i + Z.of_nat k) = None /\
     forall j, (j < k)%nat -> is_Some (used !! inline_name (i + Z.of_nat j))) \/
  (forall j, (j <= fuel)%nat -> is_Some (used !! inline_name (i + Z.of_nat j))).
Proof.
  revert i. induction fuel as [|fuel IH]; intros i; cbn [free_name]; fold (inline_name i);
    destruct (used !! inline_name i) as [x|] eqn:E.
  - right. intros j Hj. replace (i + Z.of_nat j) with i by lia. rewrite E. by eexists.
  - left. exists 0%nat. replace (i + Z.of_nat 0) with i by lia. split_and!; [lia|done|done|]. intros j Hj. lia.
  - destruct (IH (i + 1)) as [(k & Hk & Hf & Hn & Hu)|Hall].
    + left. exists (S k). replace (i + Z.of_nat (S k)) with (i + 1 + Z.of_nat k) by lia.
      split_and!; [lia|done|done|]. intros [|j] Hj; [rewrite Z.add_0_r, E; by eexists|].
      replace (i + Z.of_nat (S j)) with (i + 1 + Z.of_nat j) by lia. apply Hu. lia.
    + right. intros [|j] Hj; [rewrite Z.add_0_r, E; by eexists|].
      replace (i + Z.of_nat (S j)) with (i + 1 + Z.of_nat j) by lia. apply Hall. lia.
  - left. exists 0%nat. replace (i + Z.of_nat 0) with i by lia. split_and!; [lia|done|done|]. intros j Hj. lia.
Qed.

(** C37. The search for the name of an inline classifier ends: within as many
    attempts as there are named classifiers, and one more, it finds the first
    number from the length of the classifier list on whose name no classifier
    has, and gives that name. *)
Theorem inline_name_fresh {Factory} (p : bytecodeParser (Factory := Factory)) :
  let used := tb_index (bp_sniffClassifiers p) in
  let n := zlen (tb_list (bp_sniffClassifiers p)) in
  n + Z.of_nat (size used) < 10 ^ 19 ->
  exists k, (k <= size used)%nat /\ nextInlineSniffClassifierName p = inline_name (n + Z.of_nat k) /\
    used !! inline_name (n + Z.of_nat k) = None /\
    forall j, (j < k)%nat -> is_Some (used !! inline_name (n + Z.of_nat j)).
Proof.
  intros used n Hsize. destruct (free_name_search (size used) n used) as [Hfound|Hall]; [exact Hfound|]. exfalso.
  assert (Hn : 0 <= n) by apply zlen_nonneg.
  set (names := map (fun k => inline_name (n + Z.of_nat k)) (seq 0 (S (size used)))).
  assert (Hsub : list_to_set names ⊆@{gset string} dom used).
  { intros x' Hx. apply elem_of_list_to_set, list_elem_of_fmap in Hx as (k & -> & Hk%elem_of_seq).
    apply elem_of_dom, Hall. lia. }
  apply subseteq_size in Hsub. rewrite size_dom, size_list_to_set in Hsub by (apply inline_names_nodup; lia).
  unfold names in Hsub. rewrite length_map, length_seq in Hsub. lia.
Qed.

(** ** Witness *)

Definition sample_dns_text : string :=
"ADDR_S example.test
qtype AAAA
AND
BACKEND six
TRUE
BACKEND default
".

Definition sample_parsed : list byte * bytecodeParser (Factory := unit) :=
  match parseProgram (fun _ => None) "DNSRoute" sample_dns_text newBytecodeParser with
  | Success r => r
  | Failure _ => ([], newBytecodeParser)
  end.

Lemma parseProgram_means_witness :
  exists ins, decodes sample_parsed.1 0 ins /\
    Forall2 (line_means (fun _ => None) sample_parsed.2) (significant (splitBytecodeRuleLines sample_dns_text)) ins.
Proof. apply (parseProgram_means (fun _ => None) "DNSRoute"). vm_compute. reflexivity. Defined.

(** A parser that was given a classifier under the first inline name. *)
Definition sample_inline : bytecodeParser (Factory := unit) :=
  let p := newBytecodeParser in
  MkParser (bp_strings p) (bp_regexps p) (bp_ipv4Addrs p) (bp_ipv4Subnets p) (bp_ipv6Addrs p) (bp_ipv6Subnets p)
    (bp_rules p) (MkITable [MkClassifier "@inline-1" (Some tt)] {[ "@inline-1" := 0 ]}) (bp_sniffConstructors p)
    (bp_sniffSpecIndex p) (bp_routeActions p) (bp_backendNames p).

Lemma inline_name_fresh_witness :
  let used := tb_index (bp_sniffClassifiers sample_inline) in
  exists k, (k <= size used)%nat /\ nextInlineSniffClassifierName sample_inline = inline_name (1 + Z.of_nat k) /\
    used !! inline_name (1 + Z.of_nat k) = None /\
    forall j, (j < k)%nat -> is_Some (used !! inline_name (1 + Z.of_nat j)).
Proof. apply (inline_name_fresh sample_inline). vm_compute. reflexivity. Defined.
