(* ===== verification/RulesText.v ===== *)
(** * What rule text means

    A direct semantics of router rules on their text: every line is an action
    computed from the call and the written argument, without tables, bytecode
    or segments ([text_action], [text_route]).  The theorem: a router built by
    NewBytecodeRulesProgram from one text answers as the text says, although
    each of its five programs leaves out the segments that the parser proved
    unable to trigger for its method. *)

From S2P Require Import Prelude GoStd HostPort NetIP DNSCache Bytecode Machine AddrCache.
From S2P Require Import Scans RouterCfg SnifferRules RemapRules DNSRules RuleParser ParserSpec.

(** ** Running actions *)

Fixpoint run_actions {R} (acts : list (action R)) (stack : list bool) : run (ctl (list bool) R) :=
  match acts with
  | [] => Done (Continue stack)
  | a :: acts' =>
      let! c := machine_step a stack in
      match c with
      | Continue stack' => run_actions acts' stack'
      | Return r => Done (Return r)
      end
  end.

Lemma machine_actions {R} (act : byte -> Z -> action R) ins stack :
  machine act ins stack = run_actions (map (fun i => act (in_op i) (in_param i)) ins) stack.
Proof.
  unfold machine. revert stack. induction ins as [|i ins IH]; intros stack; [done|]. simpl.
  destruct (machine_step _ stack) as [[]| |]; simpl; [apply IH|done..].
Qed.

Lemma run_actions_app {R} (a b : list (action R)) stack :
  run_actions (a ++ b) stack =
  (let! c := run_actions a stack in
   match c with Continue st => run_actions b st | Return r => Done (Return r) end).
Proof.
  revert stack. induction a as [|x a IH]; intros stack; [done|]. simpl.
  destruct (machine_step x stack) as [[]| |]; simpl; [apply IH|done..].
Qed.

(** ** The depth of a segment on its own *)

Fixpoint classes_safe (depth : nat) (cs : list stackClass) : bool :=
  match cs with
  | [] => true
  | ClsPush :: cs' => classes_safe (S depth) cs'
  | ClsNot :: cs' => match depth with O => false | _ => classes_safe depth cs' end
  | ClsTerminal :: cs' => match depth with S d => classes_safe d cs' | O => false end
  | ClsBinary :: cs' => match depth with S (S d) => classes_safe (S d) cs' | _ => false end
  end.

(** Values below those a program uses do not matter, and it never panics. *)
Lemma run_actions_frame {R} (acts : list (action R)) cs :
  Forall2 (fun c a => fits c a = true) cs acts -> forall depth s t,
  classes_safe depth cs = true -> (depth <= length s)%nat ->
  exists c, run_actions acts s = Done c /\
    run_actions acts (s ++ t) = Done match c with Continue st => Continue (st ++ t) | Return r => Return r end.
Proof.
  induction 1 as [|c a cs acts Hf Hall IH]; intros depth s t Hs Hd; [by eexists|].
  destruct c, a; try discriminate Hf; simpl in Hs |- *.
  - destruct depth as [|d]; [done|]. destruct s as [|[] s]; simpl in *; [lia|by eexists|].
    apply (IH d); [done|lia].
  - destruct depth as [|d]; [done|]. destruct s as [|b s]; simpl in *; [lia|]. apply (IH (S d) (negb b :: s)); [done|simpl; lia].
  - destruct depth as [|[|d]]; [done..|]. destruct s as [|b [|a s]]; simpl in *; [lia..|].
    apply (IH (S d) (a && b :: s)); [done|simpl; lia].
  - destruct depth as [|[|d]]; [done..|]. destruct s as [|b [|a s]]; simpl in *; [lia..|].
    apply (IH (S d) (a || b :: s)); [done|simpl; lia].
  - apply (IH (S depth) (b :: s)); [done|simpl; lia].
Qed.

(** ** The text of a router program *)

Section Text.
Context {Factory : Type}.
Context (Compile : string -> option regexp) `{HE : HostEnv}.

Definition no_tables : tables := MkTables [] [] [] [] [] [].

(** The action of a line, absent when the line is not a valid router line. *)
Definition text_action (e : bytecodeEval) (line : string) : option (action Z) :=
  let arg := (splitRuleLine line).1.2 in
  let l := ac_input (ev_laddr e) in
  let r := ac_input (ev_raddr e) in
  let addr4 ip := match ParseAddr (TrimSpace arg) with
    | Some (Addr4 a) => Some (ActPush (Is4 ip && (As4Uint32 ip =? a))) | _ => None end in
  let addr6 ip := match ParseAddr (TrimSpace arg) with
    | Some a => if Is6 a then Some (ActPush (bool_decide (ip = a))) else None | None => None end in
  let snet4 ip := match ParsePrefix (TrimSpace arg) with
    | Some p => if Is4 (pfx_addr p) then Some (ActPush (Is4 ip && subnet_contains
        (MkIPv4Subnet (As4Uint32 (pfx_addr (Prefix_Masked p))) (pfx_bits p)) (As4Uint32 ip))) else None
    | None => None end in
  let snet6 ip := match ParsePrefix (TrimSpace arg) with
    | Some p => if Is6 (pfx_addr p) then Some (ActPush (Prefix_Contains (Prefix_Masked p) ip)) else None
    | None => None end in
  let port input := match ParseUint (TrimSpace arg) 16 with
    | Some v => Some (ActPush (port_value (portNetwork (ev_network e)) input =? v)) | None => None end in
  match line_op line with
  | Some OP_DROP => Some (ActReturn 0)
  | Some OP_SLOT => match ParseUint (TrimSpace arg) 8 with
      | Some v => Some (ActReturn (if v <=? RouterSlots then v else 0)) | None => None end
  | Some OP_TRUE => Some (ActPush true)
  | Some OP_FALSE => Some (ActPush false)
  | Some OP_NOT => Some ActNot
  | Some OP_AND => Some ActAnd
  | Some OP_OR => Some ActOr
  | Some ((OP_NET4 | OP_NET6 | OP_UDP | OP_TCP | OP_FQDN | OP_LFQDN | OP_DIAL | OP_LISTEN | OP_LOOKUP) as op) =>
      Some (ActPush (predicateValue no_tables e op 0))
  | Some OP_ADDR_S => Some (ActPush (matches_string (ev_raddr e) arg))
  | Some OP_LADDR_S => Some (ActPush (matches_string (ev_laddr e) arg))
  | Some OP_ADDR_RE => match Compile arg with Some re => Some (ActPush (matches_regexp (ev_raddr e) re)) | None => None end
  | Some OP_LADDR_RE => match Compile arg with Some re => Some (ActPush (matches_regexp (ev_laddr e) re)) | None => None end
  | Some OP_ADDR4 => addr4 (ip_of r)
  | Some OP_LADDR4 => addr4 (ip_of l)
  | Some OP_ADDR6 => addr6 (v6_of r)
  | Some OP_LADDR6 => addr6 (v6_of l)
  | Some OP_SNET4 => snet4 (ip_of r)
  | Some OP_LSNET4 => snet4 (ip_of l)
  | Some OP_SNET6 => snet6 (v6_of r)
  | Some OP_LSNET6 => snet6 (v6_of l)
  | Some OP_PORT => port r
  | Some OP_LPORT => port l
  | _ => None
  end.

Definition text_actions (e : bytecodeEval) (lines : list string) : list (action Z) :=
  map (fun line => default ActNone (text_action e line)) lines.

(** The slot of the first terminal line whose condition holds. *)
Definition text_route (e : bytecodeEval) (lines : list string) : run Z :=
  let! c := run_actions (text_actions e lines) [] in Done (loop_slot c).

Definition line_class (line : string) : stackClass :=
  match line_op line with Some op => stack_class (op_byte op) | None => ClsPush end.

(** A segment uses no value another segment left. *)
Definition self_contained (lines : list string) : bool := classes_safe 0 (map line_class lines).

Definition valid_line (e : bytecodeEval) (line : string) : Prop := is_Some (text_action e line).

Lemma text_action_fits e line a : text_action e line = Some a -> fits (line_class line) a = true.
Proof.
  unfold text_action, line_class. destruct (line_op line) as [op|]; [|done].
  unfold stack_class. rewrite opcode_of_op_byte.
  destruct op; intros Ha; repeat case_match; simplify_eq/=; try done; by injection Ha as <-.
Qed.

Lemma text_actions_fit e lines :
  Forall (valid_line e) lines -> Forall2 (fun c a => fits c a = true) (map line_class lines) (text_actions e lines).
Proof.
  induction 1 as [|line lines [a Ha] Hall IH]; [constructor|]. unfold text_actions. simpl. constructor; [|exact IH].
  rewrite Ha. by apply (text_action_fits e).
Qed.

(** An instruction that means a line does what the line says. *)
Lemma line_means_action (p : bytecodeParser (Factory := Factory)) e line i a :
  line_means Compile p line i -> text_action e line = Some a ->
  router_action (parser_tables p) e (in_op i) (in_param i) = a.
Proof.
  intros (op & Hop & Hi & Hr & Hm) Ha. unfold text_action in Ha. unfold router_action. rewrite Hop in Ha.
  rewrite Hi, opcode_of_op_byte. unfold parser_tables in *.
  destruct op; simpl in Hm, Ha |- *; try discriminate Ha;
    try (injection Ha as <-; reflexivity); try (injection Ha as <-; unfold entry; simpl; by rewrite Hm).
  - rewrite Hm in Ha. by injection Ha as <-.
  - destruct Hm as (re & Hc & Hx). rewrite Hc in Ha. injection Ha as <-. unfold entry.
    rewrite index_map, Hx. done.
  - destruct Hm as (re & Hc & Hx). rewrite Hc in Ha. injection Ha as <-. unfold entry.
    rewrite index_map, Hx. done.
  - destruct Hm as (v & Hc & Hx). rewrite Hc in Ha. injection Ha as <-. unfold entry. by rewrite Hx.
  - destruct Hm as (v & Hc & Hx). rewrite Hc in Ha. injection Ha as <-. unfold entry. by rewrite Hx.
  - destruct Hm as (v & Hc & H6 & Hx). rewrite Hc, H6 in Ha. injection Ha as <-. unfold entry. by rewrite Hx.
  - destruct Hm as (v & Hc & H6 & Hx). rewrite Hc, H6 in Ha. injection Ha as <-. unfold entry. by rewrite Hx.
  - destruct Hm as (v & Hc & H4 & Hx). rewrite Hc, H4 in Ha. injection Ha as <-. unfold entry. by rewrite Hx.
  - destruct Hm as (v & Hc & H4 & Hx). rewrite Hc, H4 in Ha. injection Ha as <-. unfold entry. by rewrite Hx.
  - destruct Hm as (v & Hc & H6 & Hx). rewrite Hc, H6 in Ha. injection Ha as <-. unfold entry. by rewrite Hx.
  - destruct Hm as (v & Hc & H6 & Hx). rewrite Hc, H6 in Ha. injection Ha as <-. unfold entry. by rewrite Hx.
  - rewrite Hm in Ha. injection Ha as <-. replace (in_param i <=? 65535) with true by lia. done.
  - rewrite Hm in Ha. injection Ha as <-. replace (in_param i <=? 65535) with true by lia. done.
Qed.

Lemma lines_mean_actions (p : bytecodeParser (Factory := Factory)) e lines ins :
  Forall2 (line_means Compile p) lines ins -> Forall (valid_line e) lines ->
  map (fun i => router_action (parser_tables p) e (in_op i) (in_param i)) ins = text_actions e lines.
Proof.
  induction 1 as [|line i lines ins Hm Hall IH]; intros Hv; [done|]. apply Forall_cons in Hv as [[a Ha] Hv].
  unfold text_actions. simpl. rewrite Ha, (line_means_action p e line i a Hm Ha). simpl. f_equal. by apply IH.
Qed.

(** ** Segments *)

(** Only the last line of a segment may end it. *)
Definition segment_shape (segment : list bytecodeRuleLine) : Prop :=
  forall l1 line l2, segment = l1 ++ line :: l2 -> l2 <> [] -> bytecodeRuleLineEndsSegment (ln_text line) = false.

Lemma segments_of_spec lines : forall segment,
  Forall (fun line => bytecodeRuleLineEndsSegment (ln_text line) = false) segment ->
  concat (segments_of lines segment) = segment ++ lines /\ Forall segment_shape (segments_of lines segment).
Proof.
  assert (Hshape : forall segment line,
    Forall (fun line => bytecodeRuleLineEndsSegment (ln_text line) = false) segment -> segment_shape (segment ++ [line])).
  { intros segment line Hs l1 x l2 Heq Hne. destruct (exists_last Hne) as (l2' & y & ->).
    assert (segment = l1 ++ x :: l2') as ->.
    { rewrite app_comm_cons, app_assoc in Heq. by apply app_inj_tail in Heq as [-> _]. }
    rewrite Forall_app, Forall_cons in Hs. by destruct Hs as (_ & Hx & _). }
  induction lines as [|line lines IH]; intros segment Hs; cbn [segments_of].
  - rewrite app_nil_r. destruct (Z.ltb_spec 0 (zlen segment)) as [Hz|Hz].
    + simpl. rewrite app_nil_r. split; [done|]. constructor; [|constructor].
      intros l1 x l2 -> _. rewrite Forall_app, Forall_cons in Hs. by destruct Hs as (_ & Hx & _).
    + destruct segment; [by split|rewrite zlen_cons in Hz; pose proof (zlen_nonneg segment); lia].
  - destruct (bytecodeRuleLineEndsSegment (ln_text line)) eqn:E.
    + destruct (IH [] (List.Forall_nil _)) as [Hc Hf]. simpl. rewrite Hc, <- app_assoc. split; [done|].
      constructor; [by apply Hshape|done].
    + destruct (IH (segment ++ [line])) as [Hc Hf]; [rewrite Forall_app, Forall_singleton; done|].
      rewrite Hc, <- app_assoc. done.
Qed.

Lemma splitSegments_spec src :
  concat (splitBytecodeRuleSegments src) = splitBytecodeRuleLines src /\
  Forall segment_shape (splitBytecodeRuleSegments src).
Proof. apply segments_of_spec. constructor. Qed.

(** ** Pruning is sound *)

(** What the three-valued analysis knows about a value. *)
Definition approximates (s : bytecodeBoolState) (b : bool) : Prop :=
  match s with
  | bytecodeBoolFalse => b = false
  | bytecodeBoolTrue => b = true
  | bytecodeBoolUnknown => True
  end.

Lemma approximates_not s b : approximates s b -> approximates (bytecodeBoolNot s) (negb b).
Proof. by destruct s; simpl; [intros ->|intros ->|]. Qed.

Lemma approximates_and s1 s2 b1 b2 :
  approximates s1 b1 -> approximates s2 b2 -> approximates (bytecodeBoolAnd s1 s2) (b1 && b2).
Proof. destruct s1, s2, b1, b2; simpl; done. Qed.

Lemma approximates_or s1 s2 b1 b2 :
  approximates s1 b1 -> approximates s2 b2 -> approximates (bytecodeBoolOr s1 s2) (b1 || b2).
Proof. destruct s1, s2, b1, b2; simpl; done. Qed.

Lemma approximates_bool b : approximates (bytecodeBoolFromBool b) b.
Proof. by destruct b. Qed.

(** The evaluation state of a method. *)
Definition evaluates_method (method : bytecodeMethod) (e : bytecodeEval) : Prop :=
  ev_isDial e = bool_decide (method = bytecodeMethodDial) /\
  ev_isListen e = bool_decide (method = bytecodeMethodListen) /\
  ev_isLookup e = bool_decide (method = bytecodeMethodLookup).

Lemma op_name name op : bytecodeOpByName name = Some op -> (op = OP_DROP -> name = "DROP") /\ (op = OP_SLOT -> name = "SLOT").
Proof.
  unfold bytecodeOpByName. destruct (List.find _ _) as [[n o]|] eqn:E; [|done]. intros [= <-].
  apply List.find_some in E as [Hin Hn]. simpl in Hn. apply String.eqb_eq in Hn as <-. simpl in Hin.
  repeat destruct Hin as [Hin|Hin]; try (injection Hin as <- <-; done). done.
Qed.

(** A terminal line ends its segment. *)
Lemma terminal_ends line : skips_line line = false ->
  line_op line = Some OP_DROP \/ line_op line = Some OP_SLOT -> bytecodeRuleLineEndsSegment line = true.
Proof.
  intros Hs Hop. unfold bytecodeRuleLineEndsSegment. rewrite Hs. unfold line_op in Hop.
  destruct Hop as [Hop|Hop]; apply op_name in Hop as [H1 H2];
    [rewrite (H1 eq_refl)|rewrite (H2 eq_refl)]; reflexivity.
Qed.

Lemma significant_cons line lines :
  significant (line :: lines) =
  if skips_line (ln_text line) then significant lines else ln_text line :: significant lines.
Proof. unfold significant. simpl. by destruct (skips_line (ln_text line)). Qed.

Lemma segment_shape_tail line lines : segment_shape (line :: lines) -> segment_shape lines.
Proof. intros Hs l1 x l2 -> Hne. by apply (Hs (line :: l1) x l2). Qed.

(** A segment that cannot trigger runs to its end. *)
Lemma cannot_trigger method e lines : evaluates_method method e -> forall astack cstack hm,
  segment_shape lines -> Forall (valid_line e) (significant lines) ->
  Forall2 approximates astack cstack -> can_trigger method lines astack hm = false ->
  exists st, run_actions (text_actions e (significant lines)) cstack = Done (Continue st).
Proof.
  intros (Hdial & Hlisten & Hlookup).
  induction lines as [|line lines IH]; intros astack cstack hm Hshape Hv Ha Hc; [done|].
  pose proof (segment_shape_tail _ _ Hshape) as Htail.
  cbn [can_trigger] in Hc. rewrite significant_cons in Hv |- *.
  destruct (skips_line (ln_text line)) eqn:Es; [by eapply IH|].
  apply Forall_cons in Hv as [[a Hta] Hv]. unfold text_actions. cbn [map run_actions]. rewrite Hta. cbn [default].
  fold (text_actions e (significant lines)).
  destruct (line_op (ln_text line)) as [op|] eqn:Eop; [|done].
  assert (Hterm : op = OP_DROP \/ op = OP_SLOT -> lines = []).
  { intros Hop. destruct lines as [|x lines]; [done|]. exfalso.
    specialize (Hshape [] line (x :: lines) eq_refl ltac:(done)).
    rewrite terminal_ends in Hshape; [done|done|]. by destruct Hop as [->| ->]; [left|right]. }
  assert (Hpush : forall b s, a = ActPush b -> approximates s b -> can_trigger method lines (s :: astack) true = false \/
    can_trigger method lines (s :: astack) hm = false ->
    exists st, (let! c := machine_step a cstack in
      match c with Continue st => run_actions (text_actions e (significant lines)) st | Return r => Done (Return r) end)
      = Done (Continue st)).
  { intros b s -> Hs [Hct|Hct]; simpl; eapply IH; try done; by constructor. }
  unfold text_action in Hta. rewrite Eop in Hta.
  destruct op; try discriminate Hta; try (by destruct (Hpush false bytecodeBoolUnknown));
    try (injection Hta as <-; eapply Hpush; [done| |by eauto]; simpl; rewrite ?Hdial, ?Hlisten, ?Hlookup;
         (done || apply approximates_bool));
    try (repeat case_match; try discriminate Hta; injection Hta as <-; eapply Hpush; [done| |by eauto]; done).
  - (* DROP *) rewrite (Hterm (or_introl eq_refl)). injection Hta as <-.
    inversion Ha as [|s b ? ? Hs]; subst; [done|]. destruct hm; [|done]. destruct s; try done. simpl in Hs. subst b.
    by eexists.
  - (* SLOT *) rewrite (Hterm (or_intror eq_refl)). destruct (ParseUint _ 8); [|done]. injection Hta as <-.
    inversion Ha as [|s b ? ? Hs]; subst; [done|]. destruct hm; [|done]. destruct s; try done. simpl in Hs. subst b.
    by eexists.
  - (* NOT *) injection Hta as <-. inversion Ha as [|s b ? ? Hs Hr]; subst; [done|]. simpl.
    eapply IH; [done|done| |exact Hc]. constructor; [by apply approximates_not|done].
  - (* AND *) injection Hta as <-. inversion Ha as [|s b ? ? Hs Hr]; subst; [done|].
    inversion Hr as [|s' b' ? ? Hs' Hr']; subst; [done|]. simpl.
    eapply IH; [done|done| |exact Hc]. constructor; [by apply approximates_and|done].
  - (* OR *) injection Hta as <-. inversion Ha as [|s b ? ? Hs Hr]; subst; [done|].
    inversion Hr as [|s' b' ? ? Hs' Hr']; subst; [done|]. simpl.
    eapply IH; [done|done| |exact Hc]. constructor; [by apply approximates_or|done].
Qed.

(** The lines of the segments that a method keeps. *)
Definition kept_lines (method : bytecodeMethod) (segments : list (list bytecodeRuleLine)) : list string :=
  concat (map significant (List.filter (fun s => bytecodeSegmentCanTrigger s method) segments)).

Lemma significant_app l k : significant (l ++ k) = significant l ++ significant k.
Proof. unfold significant. by rewrite List.filter_app, map_app. Qed.

Lemma significant_concat segments : significant (concat segments) = concat (map significant segments).
Proof. induction segments as [|s segments IH]; [done|]. simpl. by rewrite significant_app, IH. Qed.

Lemma text_actions_app e l k : text_actions e (l ++ k) = text_actions e l ++ text_actions e k.
Proof. apply map_app. Qed.

(** A self-contained segment does the same on every stack. *)
Lemma self_contained_run e lines : Forall (valid_line e) lines -> self_contained lines = true ->
  exists c, forall st, run_actions (text_actions e lines) st =
    Done match c with Continue s => Continue (s ++ st) | Return r => Return r end.
Proof.
  intros Hv Hs. destruct (run_actions_frame _ _ (text_actions_fit e lines Hv) 0 [] [] Hs) as (c & Hc & _); [done|].
  exists c. intros st. destruct (run_actions_frame _ _ (text_actions_fit e lines Hv) 0 [] st Hs) as (c' & Hc' & Hst);
    [done|]. rewrite Hc in Hc'. injection Hc' as <-. exact Hst.
Qed.

(** Leaving out the segments that cannot trigger does not change the slot. *)
Lemma pruning_sound method e segments : evaluates_method method e ->
  Forall segment_shape segments -> Forall (fun s => Forall (valid_line e) (significant s)) segments ->
  Forall (fun s => self_contained (significant s) = true) segments -> forall st st',
  exists c c', run_actions (text_actions e (concat (map significant segments))) st = Done c /\
    run_actions (text_actions e (kept_lines method segments)) st' = Done c' /\ loop_slot c = loop_slot c'.
Proof.
  intros He Hshape Hvalid Hself.
  induction segments as [|s segments IH]; intros st st'; [by exists (Continue st), (Continue st')|].
  apply Forall_cons in Hshape as [Hsh Hshape], Hvalid as [Hv Hvalid], Hself as [Hse Hself].
  specialize (IH Hshape Hvalid Hself). destruct (self_contained_run e _ Hv Hse) as (c & Hc).
  unfold kept_lines. simpl. rewrite text_actions_app, run_actions_app, Hc. cbn [run_bind].
  destruct (bytecodeSegmentCanTrigger s method) eqn:Et.
  - simpl. rewrite text_actions_app, run_actions_app, Hc. cbn [run_bind].
    destruct c as [s0|r]; [apply IH|by exists (Return r), (Return r)].
  - destruct (cannot_trigger method e s He [] [] false Hsh Hv) as [s1 H1]; [constructor|done|].
    rewrite (Hc []) in H1. destruct c as [s0|r]; [apply IH|done].
Qed.

(** ** The five programs *)

Definition target_ok (p : bytecodeParser (Factory := Factory)) (segments : list (list bytecodeRuleLine)) (t : target) : Prop :=
  exists ins, decodes t.2 0 ins /\ Forall2 (line_means Compile p) (kept_lines t.1.2 segments) ins.

Lemma target_ok_extends p p' segments t : extends p p' -> target_ok p segments t -> target_ok p' segments t.
Proof.
  intros He (ins & Hd & Hall). exists ins. split; [done|]. eapply Forall2_impl; [exact Hall|].
  intros line i. by apply line_means_extends.
Qed.

Lemma kept_lines_snoc method segments s :
  kept_lines method (segments ++ [s]) =
  kept_lines method segments ++ (if bytecodeSegmentCanTrigger s method then significant s else []).
Proof.
  unfold kept_lines. rewrite List.filter_app, map_app, concat_app. simpl.
  destruct (bytecodeSegmentCanTrigger s method); simpl; by rewrite ?app_nil_r.
Qed.

Lemma parse_targets_spec segments s targets : forall p targets' p',
  parser_ok Compile p -> Forall (target_ok p segments) targets ->
  parse_targets Compile s targets p = Success (targets', p') ->
  parser_ok Compile p' /\ extends p p' /\ Forall (target_ok p' (segments ++ [s])) targets' /\
  map fst targets' = map fst targets.
Proof.
  induction targets as [|[[name method] dst] targets IH]; intros p targets' p' Hok Ht H; cbn [parse_targets] in H.
  { injection H as <- <-. by split_and!. }
  apply Forall_cons in Ht as [(ins & Hd & Hall) Ht]. simpl in Hd, Hall.
  destruct (bytecodeSegmentCanTrigger s method) eqn:Et; cbn [negb] in H.
  - apply result_bind_Success in H as ([code p1] & Hp & H). apply result_bind_Success in H as ([rest p2] & Hr & H).
    injection H as <- <-. apply parseProgramLines_spec in Hp as (Hok1 & He1 & ins1 & Hd1 & Hall1); [|done].
    apply IH in Hr as (Hok2 & He2 & Hall2 & Hm); [|done|eapply Forall_impl; [exact Ht|intros t; by apply target_ok_extends]].
    split_and!; [done|by etrans| |simpl; by rewrite Hm]. constructor; [|done].
    exists (ins ++ ins1). simpl. split; [by apply decodes_app|]. rewrite kept_lines_snoc, Et.
    apply Forall2_app.
    + eapply Forall2_impl; [exact Hall|]. intros line i. apply line_means_extends. by etrans.
    + eapply Forall2_impl; [exact Hall1|]. intros line i. by apply line_means_extends.
  - apply result_bind_Success in H as ([rest p2] & Hr & H). injection H as <- <-.
    apply IH in Hr as (Hok2 & He2 & Hall2 & Hm); [|done|done].
    split_and!; [done|done| |simpl; by rewrite Hm]. constructor; [|done].
    exists ins. simpl. split; [done|]. rewrite kept_lines_snoc, Et, app_nil_r.
    eapply Forall2_impl; [exact Hall|]. intros line i. by apply line_means_extends.
Qed.

Lemma parse_segments_spec rest : forall segments targets p targets' p',
  parser_ok Compile p -> Forall (target_ok p segments) targets ->
  parse_segments Compile rest targets p = Success (targets', p') ->
  Forall (target_ok p' (segments ++ rest)) targets' /\ map fst targets' = map fst targets.
Proof.
  induction rest as [|s rest IH]; intros segments targets p targets' p' Hok Ht H; cbn [parse_segments] in H.
  { injection H as <- <-. by rewrite app_nil_r. }
  apply result_bind_Success in H as ([targets1 p1] & Hp & H).
  apply (parse_targets_spec segments) in Hp as (Hok1 & He1 & Ht1 & Hm1); [|done|done].
  apply (IH (segments ++ [s])) in H as [Hall Hm]; [|done|done].
  rewrite <- app_assoc in Hall. split; [done|]. by rewrite Hm, Hm1.
Qed.

(** Decoding is a function. *)
Lemma decodes_functional code pc ins ins' : decodes code pc ins -> decodes code pc ins' -> ins = ins'.
Proof.
  intros Hd. revert ins'. induction Hd as [pc Hend|pc op param next ins Hop Hrd Hd IH]; intros ins' Hd'.
  - inversion Hd' as [|? ? ? ? ? Hop]; subst; [done|]. apply index_Some_range in Hop. lia.
  - inversion Hd' as [? Hend|? op' param' next' ins0 Hop' Hrd' Hd0]; subst.
    + apply index_Some_range in Hop. lia.
    + rewrite Hop in Hop'. injection Hop' as <-. rewrite Hrd in Hrd'. injection Hrd' as <- <-. f_equal. by apply IH.
Qed.

Definition call_method (call : routerCall) : bytecodeMethod :=
  match call with
  | DialTCP _ _ _ | DialUDP _ _ _ | RouteUDP _ _ _ => bytecodeMethodDial
  | ListenTCP _ _ => bytecodeMethodListen
  | Lookup _ _ => bytecodeMethodLookup
  end.

Lemma call_eval_method cfg call lnow rnow : evaluates_method (call_method call) (call_eval cfg call lnow rnow).
Proof. by destruct call. Qed.

(** The configuration has the programs of the rules. *)
Lemma NewBytecodeRouterCfg_programs rules cfg :
  NewBytecodeRouterCfg rules = Done (Success cfg) ->
  rc_tables cfg = br_tables rules /\
  forall call, program_of cfg call =
    match call with
    | DialTCP _ _ _ => br_DialTCP rules | ListenTCP _ _ => br_ListenTCP rules | DialUDP _ _ _ => br_DialUDP rules
    | RouteUDP _ _ _ => br_RouteUDP rules | Lookup _ _ => br_Lookup rules end.
Proof.
  unfold NewBytecodeRouterCfg. intros H. apply run_bind_Done in H as ([[]|e] & _ & H); [|done].
  repeat (apply run_bind_Done in H as (? & _ & H)). injection H as <-. split; [done|]. by intros [].
Qed.

(** What the programs of accepted text are. *)
Lemma rules_program_targets program rules :
  NewBytecodeRulesProgram (Factory := Factory) Compile program = Done (Success rules) ->
  (exists cfg, NewBytecodeRouterCfg rules = Done (Success cfg)) /\
  exists p : bytecodeParser (Factory := Factory), br_tables rules = parser_tables p /\
  forall call, exists ins,
    decodes (match call with
      | DialTCP _ _ _ => br_DialTCP rules | ListenTCP _ _ => br_ListenTCP rules | DialUDP _ _ _ => br_DialUDP rules
      | RouteUDP _ _ _ => br_RouteUDP rules | Lookup _ _ => br_Lookup rules end) 0 ins /\
    Forall2 (line_means Compile p) (kept_lines (call_method call) (splitBytecodeRuleSegments program)) ins.
Proof.
  unfold NewBytecodeRulesProgram. intros H.
  destruct (parse_segments Compile (splitBytecodeRuleSegments program) router_targets newBytecodeParser)
    as [[targets p]|e] eqn:E; [|done].
  unfold checked_rules in H. apply run_bind_Done in H as ([cfg|e] & Hcfg & H); [|done]. injection H as <-.
  split; [by exists cfg|]. exists p. split; [done|].
  assert (Hinit : forall name m, target_ok newBytecodeParser [] (name, m, []))
    by (intros name m; exists []; split; [apply decodes_nil|constructor]).
  apply (parse_segments_spec _ []) in E as [Hall Hm];
    [|apply newBytecodeParser_ok|repeat (apply Forall_cons; split; [apply Hinit|]); apply Forall_nil_2].
  simpl in Hall. unfold router_targets in Hm. simpl in Hm.
  destruct targets as [|[t1 c1] [|[t2 c2] [|[t3 c3] [|[t4 c4] [|[t5 c5] [|]]]]]]; simplify_eq/=.
  rewrite !Forall_cons in Hall. destruct Hall as (T1 & T2 & T3 & T4 & T5 & _).
  intros []; [exact T1|exact T2|exact T3|exact T4|exact T5].
Qed.

(** ** Theorem *)

(** C3. A router built from one rule text answers as the text says.  When every
    line is a valid router line and every segment uses only values it pushed
    itself, each DialTCP, ListenTCP, DialUDP, RouteUDP and Lookup call returns
    the slot of the first terminal line of the whole text whose condition holds,
    evaluated line by line on the call; that the program of the method was
    pruned, encoded into bytecode and its arguments interned does not show. *)
Theorem rules_program_text program rules cfg call lnow rnow :
  NewBytecodeRulesProgram (Factory := Factory) Compile program = Done (Success rules) ->
  NewBytecodeRouterCfg rules = Done (Success cfg) ->
  Forall (valid_line (call_eval cfg call lnow rnow)) (significant (splitBytecodeRuleLines program)) ->
  Forall (fun s => self_contained (significant s) = true) (splitBytecodeRuleSegments program) ->
  router_call cfg call lnow rnow =
  text_route (call_eval cfg call lnow rnow) (significant (splitBytecodeRuleLines program)).
Proof.
  intros Hnew Hcfg Hvalid Hself. set (e := call_eval cfg call lnow rnow) in *.
  destruct (rules_program_targets program rules Hnew) as (_ & p & Htab & Htargets).
  destruct (NewBytecodeRouterCfg_spec rules) as (r & Hr & Hacc). rewrite Hcfg in Hr. injection Hr as <-.
  destruct (NewBytecodeRouterCfg_programs rules cfg Hcfg) as [Hct Hprog].
  destruct (router_call_sound cfg call lnow rnow (Hacc cfg eq_refl)) as (ins & slot & Hdec & Hcall & Href & _).
  destruct (Htargets call) as (ins' & Hdec' & Hmeans). rewrite <- Hprog in Hdec'.
  assert (ins = ins') as <- by (by eapply decodes_functional). rewrite Hcall, <- Href. fold e.
  destruct (splitSegments_spec program) as [Hconcat Hshape]. rewrite <- Hconcat, significant_concat in Hvalid |- *.
  assert (Hv : Forall (fun s => Forall (valid_line e) (significant s)) (splitBytecodeRuleSegments program)).
  { by rewrite Forall_concat, Forall_map in Hvalid. }
  assert (Hk : Forall (valid_line e) (kept_lines (call_method call) (splitBytecodeRuleSegments program))).
  { unfold kept_lines. rewrite Forall_concat, Forall_map. rewrite Forall_forall in Hv |- *. intros s Hs.
    apply list_elem_of_In, List.filter_In in Hs as [Hs _]. by apply Hv, list_elem_of_In. }
  unfold router_reference, text_route. rewrite Hct, Htab, machine_actions, (lines_mean_actions p e _ _ Hmeans Hk).
  destruct (pruning_sound (call_method call) e _ (call_eval_method cfg call lnow rnow) Hshape Hv Hself [] [])
    as (c & c' & -> & -> & Hslot). cbn [run_bind]. by rewrite Hslot.
Qed.
End Text.

(** ** Witnesses *)

Definition no_regexps : string -> option regexp := fun _ => None.

Definition sample_text : string :=
"# web
DIAL
TCP
AND
PORT 443
AND
SLOT 2

listen
ADDR4 192.0.2.1
NOT
AND
Slot 3
LOOKUP
DROP
TRUE
SLOT 1
".

Definition sample_text_rules : BytecodeRules :=
  match NewBytecodeRulesProgram (Factory := unit) no_regexps sample_text with
  | Done (Success r) => r
  | _ => MkBytecodeRules no_tables None [] [] [] [] []
  end.

Definition sample_text_cfg : bytecodeRouterCfg :=
  match NewBytecodeRouterCfg sample_text_rules with
  | Done (Success c) => c
  | _ => sample_cfg
  end.

Definition sample_text_call : routerCall := DialTCP "tcp" "" "example.test:443".

Lemma rules_program_text_witness :
  @router_call bare_host sample_text_cfg sample_text_call 0 0 =
    @text_route no_regexps bare_host (call_eval sample_text_cfg sample_text_call 0 0)
      (significant (splitBytecodeRuleLines sample_text)) /\
  @router_call bare_host sample_text_cfg sample_text_call 0 0 = Done 2.
Proof.
  split; [|vm_compute; reflexivity].
  apply (@rules_program_text unit no_regexps bare_host sample_text sample_text_rules sample_text_cfg).
  - vm_compute. reflexivity.
  - vm_compute. reflexivity.
  - match goal with |- Forall _ ?l => let v := eval vm_compute in l in replace l with v by (vm_compute; reflexivity) end.
    repeat (apply Forall_cons_2; [vm_compute; by eexists|]). apply Forall_nil_2.
  - match goal with |- Forall _ ?l => let v := eval vm_compute in l in replace l with v by (vm_compute; reflexivity) end.
    repeat (apply Forall_cons_2; [vm_compute; reflexivity|]). apply Forall_nil_2.
Defined.

(** The listen segment is left out of the dial program. *)
Example sample_text_pruned :
  map (fun s => bytecodeSegmentCanTrigger s bytecodeMethodDial) (splitBytecodeRuleSegments sample_text) =
    [true; false; false; true; true].
Proof. vm_compute. reflexivity. Qed.

(** A segment that consumes a value an earlier segment left is accepted, and
    leaving out the segment between them changes the answer. *)
Definition leftover_text : string :=
"TRUE
UDP
DROP
FALSE
LISTEN
SLOT 1
SLOT 2
".

Example leftover_changes_answer :
  match NewBytecodeRulesProgram (Factory := unit) no_regexps leftover_text with
  | Done (Success rules) =>
      match NewBytecodeRouterCfg rules with
      | Done (Success cfg) =>
          @router_call bare_host cfg sample_text_call 0 0 = Done 2 /\
          @text_route no_regexps bare_host (call_eval cfg sample_text_call 0 0)
            (significant (splitBytecodeRuleLines leftover_text)) = Done 0
      | _ => False
      end
  | _ => False
  end.
Proof. vm_compute. done. Qed.
