(* ===== verification/Reject.v ===== *)
(** * Canonical errors and the rejecting network

    Models src/reject.go, the errors of src/errors.go it returns and the helpers
    of src/helpers.go on network names.  The calls of the Network interface are
    data, so that what a wrapper answers can be compared with what the rejecting
    network answers. *)

From Stdlib Require Import Ascii.
From S2P Require Import Prelude GoStd HostPort NetIP.

(** ** Errors *)

(** [NetAddr]: a network and an address. *)
Record NetAddr : Type := MkNetAddr { na_Net : string; na_Addr : string }.

#[global] Instance NetAddr_eq_dec : EqDecision NetAddr.
Proof. solve_decision. Defined.

Definition NetAddr_Network (na : NetAddr) : string := na_Net na.
Definition NetAddr_String (na : NetAddr) : string := na_Addr na.

(** The errors the code builds, and the one of [net.SplitHostPort]; what comes
    from backends, resolvers, contexts and spawners is known by a number. *)
Inductive error : Type :=
| UnknownNetworkError (network : string)
| AddrError (err addr : string)
| DNSError (err name server : string) (isTimeout isTemporary isNotFound : bool)
| OpError (op net : string) (source addr : option NetAddr) (err : error)
| SyscallError (syscall errno : string)
| TextError (text : string)
| HostPortError (hostport : string)
| ErrClosed
| ErrUnsupported
| External (n : nat).

#[global] Instance error_eq_dec : EqDecision error.
Proof. solve_decision. Defined.

Definition NoSuchHost (host srv : string) : error := DNSError "no such host" host srv false true true.

Definition ConnClosed (op network : string) (src addr : option NetAddr) : error := OpError op network src addr ErrClosed.

Definition ConnRefused (n a : string) : error :=
  OpError "dial" n None (Some (MkNetAddr n a)) (SyscallError "connect" "ECONNREFUSED").

Definition ListenDeniedErr (n a : string) : error :=
  OpError "listen" n None (Some (MkNetAddr n a)) (SyscallError "bind" "EACCES").

(** ** Names of networks *)

Definition one_of (s : string) (names : list string) : bool := existsb (String.eqb s) names.

Definition IsUDPNetwork (network : string) : bool := one_of network ["udp"; "udp4"; "udp6"].

Definition ip4nets : list string := ["ip4"; "tcp4"; "udp4"].
Definition ip6nets : list string := ["ip6"; "tcp6"; "udp6"].

Definition FamilyFromNetwork (network : string) : string :=
  if existsb (HasPrefix network) ip4nets then "ip4"
  else if existsb (HasPrefix network) ip6nets then "ip6"
  else "ip".

Definition NormalNet (network : string) : string :=
  if String.eqb network "" then ""
  else if HasSuffix network "4" then TrimRight network "4"
  else if HasSuffix network "6" then TrimRight network "6"
  else network.

(** [parseIPLiteral]: absent when the boolean is false. *)
Definition parseIPLiteral (host : string) : option Addr := ParseAddr host.

Definition isKnownNetwork (network : string) : bool :=
  one_of network ["tcp"; "tcp4"; "tcp6"; "udp"; "udp4"; "udp6"; "ip"; "ip4"; "ip6"].

(** ** Errors of rejected calls *)

Definition dialError (network address : string) : error :=
  if negb (isKnownNetwork network) then UnknownNetworkError network
  else match SplitHostPort address with
       | None => AddrError "missing port in address" address
       | Some (host, _) =>
           match parseIPLiteral host with
           | Some _ => ConnRefused network address
           | None => NoSuchHost host "rejectdns"
           end
       end.

Definition listenError (network address : string) : error :=
  if negb (isKnownNetwork network) then UnknownNetworkError network
  else match SplitHostPort address with
       | None => AddrError "missing port in address" address
       | Some _ => ListenDeniedErr network address
       end.

(** ** The calls of a network *)

Inductive openCall : Type :=
| Dial (network address : string)
| Listen (network address : string)
| PacketDial (network address : string)
| ListenPacket (network address : string)
| DialTCP (network laddr raddr : string)
| ListenTCP (network laddr : string)
| DialUDP (network laddr raddr : string)
| ListenUDP (network laddr : string)
| ListenPacketConfig (network address : string)
| ListenUDPConfig (network laddr : string)
| ListenMulticastUDP (network address : string).

Inductive lookupCall : Type :=
| LookupIP (network address : string)
| LookupIPAddr (host : string)
| LookupNetIP (network host : string)
| LookupHost (host : string)
| LookupAddr (addr : string)
| LookupCNAME (host : string)
| LookupPort (network service : string)
| LookupTXT (name : string)
| LookupMX (name : string)
| LookupNS (name : string)
| LookupSRV (service proto name : string).

Inductive interfaceCall : Type :=
| Interfaces
| InterfaceAddrs
| InterfaceMulticastAddrs
| InterfacesByIndex (index : Z)
| InterfacesByName (name : string).

#[global] Instance openCall_eq_dec : EqDecision openCall.
Proof. solve_decision. Defined.

#[global] Instance lookupCall_eq_dec : EqDecision lookupCall.
Proof. solve_decision. Defined.

(** ** [RejectNetwork] *)

Definition reject_open (c : openCall) : error :=
  match c with
  | Dial network address => dialError network address
  | Listen network address => listenError network address
  | ListenPacket network address => listenError network address
  | DialTCP network laddr raddr => dialError network raddr
  | ListenTCP network laddr => listenError network laddr
  | PacketDial network address => dialError network address
  | DialUDP network laddr raddr => dialError network raddr
  | ListenUDP network laddr => listenError network laddr
  | ListenPacketConfig network address => listenError network address
  | ListenUDPConfig network laddr => listenError network laddr
  | ListenMulticastUDP network address => listenError network address
  end.

(** The name under which [LookupSRV] asks. *)
Definition srv_name (service proto name : string) : string :=
  String.append "_" (String.append service (String.append "._" (String.append proto (String.append "." name)))).

Definition reject_lookup (c : lookupCall) : error :=
  match c with
  | LookupIP network address => NoSuchHost address "rejectdns"
  | LookupIPAddr host => NoSuchHost host "rejectdns"
  | LookupNetIP network host => NoSuchHost host "rejectdns"
  | LookupHost host => NoSuchHost host "rejectdns"
  | LookupAddr addr => NoSuchHost addr "rejectdns"
  | LookupCNAME host => NoSuchHost host "rejectdns"
  | LookupPort network service => NoSuchHost service "rejectdns"
  | LookupTXT name => NoSuchHost name "rejectdns"
  | LookupMX name => NoSuchHost name "rejectdns"
  | LookupNS name => NoSuchHost name "rejectdns"
  | LookupSRV service proto name => NoSuchHost (srv_name service proto name) "rejectdns"
  end.

(** The interfaces it reports, none in every case, or the error. *)
Definition reject_interfaces {A} (c : interfaceCall) : result error (list A) :=
  match c with
  | Interfaces | InterfaceAddrs | InterfaceMulticastAddrs => Success []
  | InterfacesByIndex _ | InterfacesByName _ => Failure (AddrError "interface not found" "")
  end.
