(* ===== verification/Callbacks.v ===== *)
(** * Callback wrappers

    Models src/callbacks.go: the set of callbacks of a wrapped connection or
    listener, and how a wrapper is chosen.  A callback is data of type [B]
    (before close) or [A] (on accept); running callbacks is returning them in
    order, for the caller to execute. *)

From S2P Require Import Prelude.

(** ** Callback sets *)

Record Callbacks (B A : Type) : Type := MkCallbacks {
  cb_BeforeClose : option B;
  cb_OnAccept : option A;
  cb_OnAcceptTCP : option A }.

Record callbackSet (B A : Type) : Type := MkSet {
  cs_stopped : bool;
  cs_beforeClose : list B;
  cs_onAccept : list A;
  cs_onAcceptTCP : list A }.

Arguments MkCallbacks {B A}.
Arguments cb_BeforeClose {B A}.
Arguments cb_OnAccept {B A}.
Arguments cb_OnAcceptTCP {B A}.
Arguments MkSet {B A}.
Arguments cs_stopped {B A}.
Arguments cs_beforeClose {B A}.
Arguments cs_onAccept {B A}.
Arguments cs_onAcceptTCP {B A}.

Section Sets.
Context {B A : Type}.

Definition add (cs : callbackSet B A) (cb : Callbacks B A) : callbackSet B A :=
  if cs_stopped cs then cs
  else MkSet (cs_stopped cs)
    (cs_beforeClose cs ++ option_list (cb_BeforeClose cb))
    (cs_onAccept cs ++ option_list (cb_OnAccept cb))
    (cs_onAcceptTCP cs ++ option_list (cb_OnAcceptTCP cb)).

Definition newCallbackSet (cb : Callbacks B A) : callbackSet B A := add (MkSet false [] [] []) cb.

(** The callbacks to run, and the set that is left: they run once. *)
Definition runBeforeClose (cs : callbackSet B A) : list B * callbackSet B A :=
  (cs_beforeClose cs, MkSet true [] [] []).

(** Absent when the set is stopped: the connection is closed, the error is
    [net.ErrClosed]. *)
Definition runOnAccept (cs : callbackSet B A) : option (list A) :=
  if cs_stopped cs then None else Some (cs_onAccept cs).

Definition runOnAcceptTCP (cs : callbackSet B A) : option (list A) :=
  if cs_stopped cs then None else Some (cs_onAcceptTCP cs).

(** A set whose callbacks ran stays silent, whatever is added. *)
Lemma add_stopped cs cb : cs_stopped cs = true -> add cs cb = cs.
Proof. intros H. unfold add. by rewrite H. Qed.

Lemma beforeClose_add cs cb b : b ∈ cs_beforeClose (add cs cb) -> b ∈ cs_beforeClose cs \/ cb_BeforeClose cb = Some b.
Proof.
  unfold add. destruct (cs_stopped cs); [by left|]. cbn [cs_beforeClose].
  intros [H|H]%elem_of_app; [by left|right]. destruct (cb_BeforeClose cb); set_solver.
Qed.
End Sets.

(** ** Wrappers *)

(** What a connection implements besides its own interface. *)
Record implements : Type := MkImplements {
  im_callbackWrapper : bool;
  im_TCPConn : bool;
  im_fullUDPConn : bool;
  im_UDPConn : bool;
  im_PacketConn : bool;
  im_TCPListener : bool }.

Inductive wrapper : Type :=
| SameObject
| CallbackConn
| CallbackPacketConn
| CallbackNetPacketConn
| CallbackListener
| CallbackTCPConn
| CallbackTCPListener
| CallbackUDPConn
| callbackFullUDPConn.

Definition ConnWithCallbacks (c : implements) : wrapper :=
  if im_callbackWrapper c then SameObject
  else if im_TCPConn c then CallbackTCPConn
  else if im_fullUDPConn c then callbackFullUDPConn
  else if im_UDPConn c then CallbackUDPConn
  else if im_PacketConn c then CallbackPacketConn
  else CallbackConn.

Definition TCPConnWithCallbacks (c : implements) : wrapper :=
  if im_callbackWrapper c then SameObject else CallbackTCPConn.

Definition NetPacketConnWithCallbacks (c : implements) : wrapper :=
  if im_callbackWrapper c then SameObject
  else if im_fullUDPConn c then callbackFullUDPConn
  else if im_UDPConn c then CallbackUDPConn
  else if im_PacketConn c then CallbackPacketConn
  else CallbackNetPacketConn.

Definition PacketConnWithCallbacks (c : implements) : wrapper :=
  if im_callbackWrapper c then SameObject
  else if im_fullUDPConn c then callbackFullUDPConn
  else if im_UDPConn c then CallbackUDPConn
  else CallbackPacketConn.

Definition UDPConnWithCallbacks (c : implements) : wrapper :=
  if im_callbackWrapper c then SameObject
  else if im_fullUDPConn c then callbackFullUDPConn
  else CallbackUDPConn.

Definition ListenerWithCallbacks (l : implements) : wrapper :=
  if im_callbackWrapper l then SameObject
  else if im_TCPListener l then CallbackTCPListener
  else CallbackListener.

Definition TCPListenerWithCallbacks (l : implements) : wrapper :=
  if im_callbackWrapper l then SameObject else CallbackTCPListener.

(** The set of callbacks of what a [WithCallbacks] function returns: the
    object's own set when it is a wrapper already, a new one otherwise. *)
Definition with_callbacks {B A} (w : wrapper) (own : callbackSet B A) (cb : Callbacks B A) : callbackSet B A :=
  match w with
  | SameObject => add own cb
  | _ => newCallbackSet cb
  end.
