(* ===== verification/NetRouter.v ===== *)
(** * The network router: state and critical sections

    Models src/router.go.  Everything the Router does to its fields it does with
    its mutex held; each definition of this file is one such section, or a pure
    function of the file.  The threads that run the sections, and what they do
    between them, are in RouterSys.

    Backends, configurations, resolvers, subscribers and subscriptions are
    numbers; so are the objects that backends return and the UDP listeners of
    the Router.  A channel is a number too: [make(chan struct{})] takes the next
    one.  Go iterates over a map in any order: a section that does takes a seed,
    and [shuffle seed] lists the entries in the order of that seed. *)

From Stdlib Require Import Ascii.
From S2P Require Import Prelude GoStd HostPort NetIP Reject.

Definition RouterSlots : Z := 16.
Definition routerDefaultSlot : Z := 1.

(** ** Orders of iteration *)

Definition insert_at {A} (i : nat) (x : A) (l : list A) : list A := take i l ++ x :: drop i l.

(** The digits of the seed say where each element goes. *)
Fixpoint shuffle {A} (seed : nat) (l : list A) : list A :=
  match l with
  | [] => []
  | x :: l' => insert_at (seed mod S (length l')) x (shuffle (seed / S (length l')) l')
  end.

(** ** State *)

(** What [closers] holds: an object in its callback wrapper, an object as the
    backend returned it (accepted connections), or a UDP listener. *)
Inductive closer : Type :=
| Wrapped (o : nat)
| Plain (o : nat)
| UDPListener (u : nat).

(** The fields of [Router], grouped. *)
Record lifecycle : Type := MkLife {
  lf_wantUp : bool;
  lf_autoUp : bool;
  lf_up : bool;
  lf_closed : bool;
  lf_gen : nat;
  lf_done : nat;
  (** the next channel [make] returns *)
  lf_channels : nat }.

Record slotTable : Type := MkSlots {
  st_slots : list (option nat);
  st_slotUp : list bool;
  st_slotGen : list nat;
  st_slotSub : list (option nat) }.

Record trackedTable : Type := MkTracked {
  tk_nextID : nat;
  tk_closers : gmap nat closer;
  tk_bySlot : list (gmap nat closer);
  tk_udp : gmap nat nat }.

Record subscribers : Type := MkSubs {
  sb_nextUpDownID : nat;
  sb_updowns : gmap nat nat;
  sb_nextCloseSubID : nat;
  sb_closeSubs : gmap nat nat }.

Record Router : Type := MkRouter {
  rt_life : lifecycle;
  rt_cfg : option nat;
  rt_res : option nat;
  rt_table : slotTable;
  rt_tracked : trackedTable;
  rt_subs : subscribers }.

Definition set_life (r : Router) (x : lifecycle) : Router :=
  MkRouter x (rt_cfg r) (rt_res r) (rt_table r) (rt_tracked r) (rt_subs r).
Definition set_table (r : Router) (x : slotTable) : Router :=
  MkRouter (rt_life r) (rt_cfg r) (rt_res r) x (rt_tracked r) (rt_subs r).
Definition set_tracked (r : Router) (x : trackedTable) : Router :=
  MkRouter (rt_life r) (rt_cfg r) (rt_res r) (rt_table r) x (rt_subs r).
Definition set_subs (r : Router) (x : subscribers) : Router :=
  MkRouter (rt_life r) (rt_cfg r) (rt_res r) (rt_table r) (rt_tracked r) x.

Definition rt_up (r : Router) : bool := lf_up (rt_life r).
Definition rt_closed (r : Router) : bool := lf_closed (rt_life r).
Definition rt_gen (r : Router) : nat := lf_gen (rt_life r).
Definition rt_done (r : Router) : nat := lf_done (rt_life r).
Definition rt_slots (r : Router) : list (option nat) := st_slots (rt_table r).
Definition rt_closers (r : Router) : gmap nat closer := tk_closers (rt_tracked r).
Definition rt_bySlot (r : Router) : list (gmap nat closer) := tk_bySlot (rt_tracked r).
Definition rt_udp (r : Router) : gmap nat nat := tk_udp (rt_tracked r).

Definition slot_count : nat := Z.to_nat RouterSlots.

Definition NewRouter : Router :=
  MkRouter (MkLife true false false false 1 0 1) None None
    (MkSlots (replicate slot_count None) (replicate slot_count false) (replicate slot_count 0%nat) (replicate slot_count None))
    (MkTracked 0 ∅ (replicate slot_count ∅) ∅)
    (MkSubs 0 ∅ 0 ∅).

Definition IsNative (r : Router) : bool := false.

(** ** Configuration *)

Definition SetCfg (cfg : option nat) (r : Router) : Router :=
  MkRouter (rt_life r) cfg (rt_res r) (rt_table r) (rt_tracked r) (rt_subs r).
Definition GetCfg (r : Router) : option nat := rt_cfg r.
Definition SetResolver (res : option nat) (r : Router) : Router :=
  MkRouter (rt_life r) (rt_cfg r) res (rt_table r) (rt_tracked r) (rt_subs r).
Definition GetResolver (r : Router) : option nat := rt_res r.

Definition routerValidSlot (slot : Z) : bool := (1 <=? slot) && (slot <=? RouterSlots).

Definition routerSlotError (slot : Z) : error := AddrError "router slot out of range" (itoa slot).

(** ** The effective state *)

Record routerTransition : Type := MkTransition {
  tr_done : option nat;
  tr_closers : list closer;
  tr_updowns : list nat;
  tr_up : bool }.

Definition no_transition : routerTransition := MkTransition None [] [] false.

Definition updownsSnapshotLocked (seed : nat) (r : Router) : list nat :=
  shuffle seed (map snd (map_to_list (sb_updowns (rt_subs r)))).

Definition drainTrackedLocked (seed : nat) (r : Router) : Router * list closer :=
  (set_tracked r (MkTracked (tk_nextID (rt_tracked r)) ∅ (map (fun _ => ∅) (rt_bySlot r)) ∅),
   shuffle seed (map snd (map_to_list (rt_closers r)))).

Definition applyEffectiveStateLocked (seed : nat) (r : Router) : Router * routerTransition :=
  let l := rt_life r in
  let up := lf_wantUp l && lf_autoUp l && negb (lf_closed l) in
  if Bool.eqb (lf_up l) up then (r, no_transition)
  else if up then
    let r := set_life r (MkLife (lf_wantUp l) (lf_autoUp l) up (lf_closed l) (S (lf_gen l)) (lf_channels l) (S (lf_channels l))) in
    let r := set_tracked r (MkTracked (tk_nextID (rt_tracked r)) ∅ (rt_bySlot r) ∅) in
    (r, MkTransition None [] (updownsSnapshotLocked seed r) true)
  else
    let r := set_life r (MkLife (lf_wantUp l) (lf_autoUp l) up (lf_closed l) (S (lf_gen l)) (lf_done l) (lf_channels l)) in
    let '(r, closers) := drainTrackedLocked seed r in
    (r, MkTransition (Some (lf_done l)) closers (updownsSnapshotLocked seed r) false).

(** Some attached backend is up. *)
Fixpoint any_slot_up (slots : list (option nat)) (ups : list bool) : bool :=
  match slots, ups with
  | Some _ :: slots, true :: ups => true
  | _ :: slots, _ :: ups => any_slot_up slots ups
  | _, _ => false
  end.

Definition applyAutoStateLocked (seed : nat) (r : Router) : Router * routerTransition :=
  let l := rt_life r in
  let autoUp := any_slot_up (rt_slots r) (st_slotUp (rt_table r)) in
  applyEffectiveStateLocked seed
    (set_life r (MkLife (lf_wantUp l) autoUp (lf_up l) (lf_closed l) (lf_gen l) (lf_done l) (lf_channels l))).

Definition set_wantUp (r : Router) (w : bool) : Router :=
  let l := rt_life r in
  set_life r (MkLife w (lf_autoUp l) (lf_up l) (lf_closed l) (lf_gen l) (lf_done l) (lf_channels l)).

(** The section of [Up]; absent when it fails with [net.ErrClosed]. *)
Definition Up_locked (seed : nat) (r : Router) : option (Router * routerTransition) :=
  if rt_closed r then None else Some (applyEffectiveStateLocked seed (set_wantUp r true)).

(** The section of [Down]; absent when there is nothing to do. *)
Definition Down_locked (seed : nat) (r : Router) : option (Router * routerTransition) :=
  if rt_closed r then None else Some (applyEffectiveStateLocked seed (set_wantUp r false)).

Definition IsUp (r : Router) : bool := rt_up r && negb (rt_closed r).

(** ** Slots *)

(** The section of [replaceSlot]: what was opened through the slot, the UDP
    listeners, the transition, and the subscription to cancel.  The index
    panics out of range; absent when the Router is closed. *)
Record replaced : Type := MkReplaced {
  rp_router : Router;
  rp_old : list closer;
  rp_udp : list nat;
  rp_stopped : routerTransition;
  rp_unsub : option nat }.

(** [closers] without the ids of the slot. *)
Definition forget_ids (ids : gmap nat closer) (closers : gmap nat closer) : gmap nat closer :=
  filter (fun '(id, _) => ids !! id = None) closers.

Definition replaceSlot (seed : nat) (slot : Z) (backend : option nat) (up : bool) (r : Router) : run (option replaced) :=
  let idx := slot - 1 in
  if rt_closed r then Done None
  else
    let t := rt_table r in
    let tk := rt_tracked r in
    let! unsub := must (index (st_slotSub t) idx) in
    let! gen := must (index (st_slotGen t) idx) in
    let! mine := must (index (tk_bySlot tk) idx) in
    let i := Z.to_nat idx in
    let r := set_table r (MkSlots (<[i := backend]> (st_slots t)) (<[i := up]> (st_slotUp t))
                            (<[i := S gen]> (st_slotGen t)) (<[i := None]> (st_slotSub t))) in
    let r := set_tracked r (MkTracked (tk_nextID tk) (forget_ids mine (tk_closers tk)) (<[i := ∅]> (tk_bySlot tk)) (tk_udp tk)) in
    let udp := shuffle seed (map snd (map_to_list (tk_udp tk))) in
    let '(r, stopped) := applyAutoStateLocked seed r in
    Done (Some (MkReplaced r (shuffle seed (map snd (map_to_list mine))) udp stopped unsub)).

(** The section of [watchSlot] that reads the generation. *)
Definition watchSlot_gen (slot : Z) (r : Router) : run nat := must (index (st_slotGen (rt_table r)) (slot - 1)).

(** [routerSlotUpDown.IsUp] *)
Definition slotUpDown_IsUp (slot : Z) (gen : nat) (r : Router) : run bool :=
  let! g := must (index (st_slotGen (rt_table r)) (slot - 1)) in
  let! up := must (index (st_slotUp (rt_table r)) (slot - 1)) in
  Done (Nat.eqb g gen && up).

(** The section of [setSlotUp]: the new state, the transition and the
    subscription that was replaced; absent when the generation is stale. *)
Definition setSlotUp (seed : nat) (slot : Z) (gen : nat) (up : bool) (unsubscribe : option nat) (r : Router)
    : run (option (Router * routerTransition * option nat)) :=
  let idx := slot - 1 in
  let t := rt_table r in
  let! g := (if rt_closed r then Done gen else must (index (st_slotGen t) idx)) in
  if rt_closed r || negb (Nat.eqb g gen) then Done None
  else
    let i := Z.to_nat idx in
    let! current := must (index (st_slotSub t) idx) in
    let '(subs, old) :=
      match unsubscribe with
      | Some s => (<[i := Some s]> (st_slotSub t), current)
      | None => (st_slotSub t, None)
      end in
    let r := set_table r (MkSlots (st_slots t) (<[i := up]> (st_slotUp t)) (st_slotGen t) subs) in
    let '(r, transition) := applyAutoStateLocked seed r in
    Done (Some (r, transition, old)).

(** ** Closing *)

Record closing : Type := MkClosing {
  cl_closers : list closer;
  cl_updowns : list nat;
  cl_closeSubs : list nat;
  cl_slotSubs : list nat;
  cl_done : option nat }.

Definition closePrep (seed : nat) (r : Router) : Router * closing :=
  let l := rt_life r in
  if lf_closed l then (r, MkClosing [] [] [] [] None)
  else
    let wasUp := lf_up l in
    let t := rt_table r in
    let s := rt_subs r in
    (MkRouter (MkLife false false false true (S (lf_gen l)) (lf_done l) (lf_channels l)) (rt_cfg r) (rt_res r)
       (MkSlots (st_slots t) (st_slotUp t) (st_slotGen t) (map (fun _ => None) (st_slotSub t)))
       (MkTracked (tk_nextID (rt_tracked r)) ∅ (map (fun _ => ∅) (rt_bySlot r)) ∅)
       (MkSubs (sb_nextUpDownID s) (sb_updowns s) (sb_nextCloseSubID s) ∅),
     MkClosing (shuffle seed (map snd (map_to_list (rt_closers r))))
       (if wasUp then updownsSnapshotLocked seed r else [])
       (shuffle seed (map snd (map_to_list (sb_closeSubs s))))
       (omap id (st_slotSub t))
       (if wasUp then Some (lf_done l) else None)).

(** ** Subscribers *)

(** The section of [subscribeCloser] for a user's closer (slot 0): the id;
    absent when the Router is closed. *)
Definition subscribeCloser_user (c : nat) (r : Router) : option (Router * nat) :=
  let s := rt_subs r in
  if rt_closed r then None
  else Some (set_subs r (MkSubs (sb_nextUpDownID s) (sb_updowns s) (S (sb_nextCloseSubID s))
                           (<[sb_nextCloseSubID s := c]> (sb_closeSubs s))), sb_nextCloseSubID s).

(** The section of [SubscribeUpDown]: the id, and whether the Router is down. *)
Definition SubscribeUpDown_locked (u : nat) (r : Router) : Router * nat * bool :=
  let s := rt_subs r in
  (set_subs r (MkSubs (S (sb_nextUpDownID s)) (<[sb_nextUpDownID s := u]> (sb_updowns s)) (sb_nextCloseSubID s) (sb_closeSubs s)),
   sb_nextUpDownID s, negb (rt_up r) || rt_closed r).

Definition unregisterUpDown (i : nat) (r : Router) : Router :=
  let s := rt_subs r in
  set_subs r (MkSubs (sb_nextUpDownID s) (delete i (sb_updowns s)) (sb_nextCloseSubID s) (sb_closeSubs s)).

Definition unregisterCloseSub (i : nat) (r : Router) : Router :=
  let s := rt_subs r in
  set_subs r (MkSubs (sb_nextUpDownID s) (sb_updowns s) (sb_nextCloseSubID s) (delete i (sb_closeSubs s))).

(** ** Tracked objects *)

Definition is_stopped (r : Router) : bool := negb (rt_up r) || rt_closed r.

(** The Router was down since generation [gen] began. *)
Definition is_stale (gen : nat) (r : Router) : bool := is_stopped r || negb (Nat.eqb (rt_gen r) gen).

Definition next_id (r : Router) : Router :=
  let tk := rt_tracked r in
  set_tracked r (MkTracked (S (tk_nextID tk)) (tk_closers tk) (tk_bySlot tk) (tk_udp tk)).

Definition reserveTracked (gen : nat) (r : Router) : result error (nat * Router) :=
  if is_stale gen r then Failure ErrClosed else Success (tk_nextID (rt_tracked r), next_id r).

(** [closers[id] = c], and [bySlot[slot-1][id] = c] when the slot is positive. *)
Definition track (slot : Z) (i : nat) (c : closer) (r : Router) : run Router :=
  let tk := rt_tracked r in
  if 0 <? slot then
    let! mine := must (index (tk_bySlot tk) (slot - 1)) in
    Done (set_tracked r (MkTracked (tk_nextID tk) (<[i := c]> (tk_closers tk))
                           (<[Z.to_nat (slot - 1) := <[i := c]> mine]> (tk_bySlot tk)) (tk_udp tk)))
  else Done (set_tracked r (MkTracked (tk_nextID tk) (<[i := c]> (tk_closers tk)) (tk_bySlot tk) (tk_udp tk))).

Definition finishTracked (gen : nat) (slot : Z) (i : nat) (c : closer) (r : Router) : run (result error Router) :=
  if is_stale gen r then Done (Failure ErrClosed)
  else let! r := track slot i c r in Done (Success r).

(** The section of [subscribeCloser] for an accepted connection. *)
Definition subscribeCloser_conn (slot : Z) (c : closer) (r : Router) : run (option (Router * nat)) :=
  if rt_closed r then Done None
  else if (0 <? slot) && negb (rt_up r) then Done None
  else
    let i := tk_nextID (rt_tracked r) in
    let! r := track slot i c (next_id r) in
    Done (Some (r, i)).

(** The section of [trackRouterUDPConn]: the backends to listen on. *)
Definition trackRouterUDPConn (gen i u : nat) (r : Router) : result error (Router * list (option nat)) :=
  if is_stale gen r then Failure ErrClosed
  else
    let tk := rt_tracked r in
    Success (set_tracked r (MkTracked (tk_nextID tk) (<[i := UDPListener u]> (tk_closers tk)) (tk_bySlot tk) (<[i := u]> (tk_udp tk))),
             rt_slots r).

Definition unregister (i : nat) (slot : Z) (r : Router) : run Router :=
  let tk := rt_tracked r in
  if 0 <? slot then
    let! mine := must (index (tk_bySlot tk) (slot - 1)) in
    Done (set_tracked r (MkTracked (tk_nextID tk) (delete i (tk_closers tk))
                           (<[Z.to_nat (slot - 1) := delete i mine]> (tk_bySlot tk)) (delete i (tk_udp tk))))
  else Done (set_tracked r (MkTracked (tk_nextID tk) (delete i (tk_closers tk)) (tk_bySlot tk) (delete i (tk_udp tk)))).

(** ** Operations *)

(** [RouterCfg]: the slots a configuration selects at the moment of the call. *)
Record RouterCfg : Type := MkCfg {
  cfg_DialTCP : string -> string -> string -> Z;
  cfg_ListenTCP : string -> string -> Z;
  cfg_DialUDP : string -> string -> string -> Z;
  cfg_RouteUDP : string -> NetAddr -> NetAddr -> Z;
  cfg_Lookup : string -> string -> Z }.

(** What a resolver answers at the moment of the call. *)
Record Resolver : Type := MkResolver {
  res_LookupPort : string -> string -> result error Z;
  res_LookupHost : string -> result error (list string) }.

(** The calls that are routed to one backend. *)
Inductive routedOp : Type :=
| RDialTCP (network laddr raddr : string)
| RListenTCP (network laddr : string)
| RDialUDP (network laddr raddr : string).

Definition select_slot (cfg : option RouterCfg) (op : routedOp) : Z :=
  match cfg, op with
  | None, _ => routerDefaultSlot
  | Some c, RDialTCP network laddr raddr => cfg_DialTCP c network laddr raddr
  | Some c, RListenTCP network laddr => cfg_ListenTCP c network laddr
  | Some c, RDialUDP network laddr raddr => cfg_DialUDP c network laddr raddr
  end.

(** The error when there is no backend. *)
Definition reject_routed (op : routedOp) : error :=
  match op with
  | RDialTCP network _ raddr | RDialUDP network _ raddr => dialError network raddr
  | RListenTCP network laddr => listenError network laddr
  end.

Definition op_network (op : routedOp) : string :=
  match op with RDialTCP n _ _ | RDialUDP n _ _ | RListenTCP n _ => n end.

(** The call of the backend's network. *)
Definition backend_call (op : routedOp) : openCall :=
  match op with
  | RDialTCP n l r => DialTCP n l r
  | RListenTCP n l => ListenTCP n l
  | RDialUDP n l r => DialUDP n l r
  end.

(** The generation and its channel. *)
Definition begin (r : Router) : result error (nat * nat) :=
  if is_stopped r then Failure ErrClosed else Success (rt_gen r, rt_done r).

(** The first section of [routeStarted]: the configuration. *)
Definition routeStarted_cfg (gen : nat) (r : Router) : result error (option nat) :=
  if is_stale gen r then Failure ErrClosed else Success (rt_cfg r).

(** [r.slots[slot-1]] for a slot that may not be valid: absent when the slot
    is not valid or has no backend. *)
Definition slot_backend (slot : Z) (r : Router) : run (option nat) :=
  if routerValidSlot slot then must (index (rt_slots r) (slot - 1)) else Done None.

(** The second section of [routeStarted]: the backend. *)
Definition routeStarted_slot (gen : nat) (slot : Z) (reject : error) (r : Router) : run (result error nat) :=
  if is_stale gen r then Done (Failure ErrClosed)
  else let! b := slot_backend slot r in
       Done (match b with Some b => Success b | None => Failure reject end).

(** The two sections of [beginLookup]. *)
Definition beginLookup_cfg (r : Router) : result error (option nat) :=
  if is_stopped r then Failure ErrClosed else Success (rt_cfg r).

Definition lookup_slot (cfg : option RouterCfg) (network address : string) : Z :=
  match cfg with None => routerDefaultSlot | Some c => cfg_Lookup c network address end.

Definition beginLookup_slot (slot : Z) (reject : error) (r : Router) : run (result error (nat * nat)) :=
  if is_stopped r then Done (Failure ErrClosed)
  else let! b := slot_backend slot r in
       Done (match b with Some b => Success (b, rt_done r) | None => Failure reject end).

Definition resolverSnapshot (r : Router) : option nat := if is_stopped r then None else rt_res r.

(** The two sections of [routeUDP]; absent when there is no backend. *)
Definition routeUDP_cfg (r : Router) : option (option nat) := if is_stopped r then None else Some (rt_cfg r).

Definition udp_slot (cfg : option RouterCfg) (network : string) (laddr raddr : NetAddr) : Z :=
  match cfg with None => routerDefaultSlot | Some c => cfg_RouteUDP c network laddr raddr end.

Definition routeUDP_slot (slot : Z) (r : Router) : run (option nat) :=
  if negb (routerValidSlot slot) then Done None
  else if is_stopped r then Done None
  else must (index (rt_slots r) (slot - 1)).

Definition backendsSnapshot (r : Router) : result error (list nat) :=
  if is_stopped r then Failure ErrClosed else Success (omap id (rt_slots r)).

(** ** Pure functions *)

(** One host of [routerPickResolvedHost]: absent when the loop goes on. *)
Definition pick_host (family host : string) : option string :=
  match parseIPLiteral host with
  | None => None
  | Some ip =>
      let unmapped := Unmap ip in
      if String.eqb family "ip4" then if Is4 unmapped then Some (Addr_String unmapped) else None
      else if String.eqb family "ip6" then if Is6 ip && negb (Is4In6 ip) then Some (Addr_String ip) else None
      else Some (Addr_String unmapped)
  end.

Fixpoint pick_first (family : string) (hosts : list string) : string :=
  match hosts with
  | [] => ""
  | host :: hosts => match pick_host family host with Some h => h | None => pick_first family hosts end
  end.

Definition routerPickResolvedHost (network : string) (hosts : list string) : string :=
  pick_first (FamilyFromNetwork network) hosts.

(** [resolveNetAddr] with the resolver of the snapshot. *)
Definition resolve_service (res : Resolver) (network service : string) : result error string :=
  match Atoi service with
  | Some _ => Success service
  | None => try! port := res_LookupPort res (NormalNet network) service in Success (itoa port)
  end.

Definition resolve_host (res : Resolver) (network host : string) : result error string :=
  match parseIPLiteral host with
  | Some _ => Success host
  | None =>
      if String.eqb host "" then Success host
      else try! hosts := res_LookupHost res host in
           let picked := routerPickResolvedHost network hosts in
           if String.eqb picked "" then Failure (NoSuchHost host "routerdns") else Success picked
  end.

Definition resolveNetAddr (res : option Resolver) (network address : string) : result error string :=
  if String.eqb address "" then Success ""
  else match res with
       | None => Success address
       | Some res =>
           match SplitHostPort address with
           | None => Failure (HostPortError address)
           | Some (host, service) =>
               try! service := resolve_service res network service in
               try! host := resolve_host res network host in
               Success (JoinHostPort host service)
           end
       end.

Definition routerAddrUsesPortZero (addr : string) : bool :=
  match SplitHostPort addr with Some (_, port) => String.eqb port "0" | None => false end.

Definition routerTimeout (op network : string) : error := OpError op network None None (TextError "i/o timeout").

(** [routerCollect]: the answers of the backends in the order of the slots. *)
Fixpoint collect_loop {A} (call : nat -> result error (list A)) (backends : list nat) (out : list A) (firstErr : option error)
    (ok : bool) : list A * option error * bool :=
  match backends with
  | [] => (out, firstErr, ok)
  | b :: backends =>
      match call b with
      | Failure e => collect_loop call backends out (match firstErr with None => Some e | s => s end) ok
      | Success values => collect_loop call backends (out ++ values) firstErr true
      end
  end.

(** The error is absent only when the list is returned. *)
Definition routerCollect {A} (call : nat -> result error (list A)) (r : Router) : list A * option error :=
  match backendsSnapshot r with
  | Failure e => ([], Some e)
  | Success [] => ([], None)
  | Success backends =>
      let '(out, firstErr, ok) := collect_loop call backends [] None false in
      if ok then (out, None) else ([], firstErr)
  end.

(** [Interfaces] and the other questions about interfaces, asked of every
    backend; [answer]: what a backend answers. *)
Definition collect_interfaces {A} (answer : nat -> interfaceCall -> result error (list A)) (c : interfaceCall) (r : Router)
    : list A * option error :=
  routerCollect (fun b => answer b c) r.

(** The network and the name by which a lookup is routed, and the error when
    it is rejected. *)
Definition lookup_route (c : lookupCall) : string * string :=
  match c with
  | LookupIP network address => (network, address)
  | LookupIPAddr host => ("", host)
  | LookupNetIP network host => (network, host)
  | LookupHost host => ("", host)
  | LookupAddr addr => ("", addr)
  | LookupCNAME host => ("", host)
  | LookupPort network service => (network, service)
  | LookupTXT name => ("", name)
  | LookupMX name => ("", name)
  | LookupNS name => ("", name)
  | LookupSRV service proto name => (proto, name)
  end.

Definition lookup_reject (c : lookupCall) : error :=
  match c with
  | LookupIP _ address => NoSuchHost address "rejectdns"
  | LookupPort _ service => NoSuchHost service "rejectdns"
  | LookupSRV service proto name => NoSuchHost (srv_name service proto name) "rejectdns"
  | LookupNetIP _ name | LookupIPAddr name | LookupHost name | LookupAddr name | LookupCNAME name
  | LookupTXT name | LookupMX name | LookupNS name => NoSuchHost name "rejectdns"
  end.
