(* ===== verification/RouterUDP.v ===== *)
(** * The UDP listeners of the network router

    Models [routerUDPConn] of src/router.go: a frontend socket that keeps one
    backend socket per attached slot.  As in NetRouter, a definition is one
    section under the mutex of the connection; a backend socket is the number of
    its object.  [closeCh] is closed in the section that sets [closed], so it is
    closed when [uc_closed] holds. *)

From S2P Require Import Prelude GoStd NetIP Reject NetRouter.

Record routerUDPPacket : Type := MkPacket { up_data : list byte; up_addr : NetAddr }.

Record routerUDPConn : Type := MkUDPConn {
  uc_network : string;
  uc_laddr : NetAddr;
  uc_backends : list (option nat);
  uc_closed : bool;
  (** [closeOnce] was entered *)
  uc_once : bool;
  (** [beforeClose]: the id to unregister *)
  uc_beforeClose : option nat;
  (** absent for the zero time *)
  uc_readDeadline : option Z;
  uc_writeDeadline : option Z;
  uc_readCh : list routerUDPPacket }.

Definition newRouterUDPConn (network laddr : string) : routerUDPConn :=
  MkUDPConn network (MkNetAddr network laddr) (replicate slot_count None) false false None None None [].

Definition set_backends (c : routerUDPConn) (b : list (option nat)) : routerUDPConn :=
  MkUDPConn (uc_network c) (uc_laddr c) b (uc_closed c) (uc_once c) (uc_beforeClose c) (uc_readDeadline c) (uc_writeDeadline c) (uc_readCh c).

Definition set_laddr (c : routerUDPConn) (a : NetAddr) : routerUDPConn :=
  MkUDPConn (uc_network c) a (uc_backends c) (uc_closed c) (uc_once c) (uc_beforeClose c) (uc_readDeadline c) (uc_writeDeadline c) (uc_readCh c).

Definition set_readCh (c : routerUDPConn) (q : list routerUDPPacket) : routerUDPConn :=
  MkUDPConn (uc_network c) (uc_laddr c) (uc_backends c) (uc_closed c) (uc_once c) (uc_beforeClose c) (uc_readDeadline c) (uc_writeDeadline c) q.

(** [c.id = id], [c.beforeClose = ...] of [trackRouterUDPConn] *)
Definition set_beforeClose (c : routerUDPConn) (i : nat) : routerUDPConn :=
  MkUDPConn (uc_network c) (uc_laddr c) (uc_backends c) (uc_closed c) (uc_once c) (Some i) (uc_readDeadline c) (uc_writeDeadline c) (uc_readCh c).

(** ** Backend sockets *)

(** [c.backends[slot-1]] *)
Definition backend_at (slot : Z) (c : routerUDPConn) : run (option nat) := must (index (uc_backends c) (slot - 1)).

Definition put_backend (slot : Z) (o : option nat) (c : routerUDPConn) : routerUDPConn :=
  set_backends c (<[Z.to_nat (slot - 1) := o]> (uc_backends c)).

(** The section of [attachBackend] with the socket that the backend returned and
    its local address: the socket it replaces; absent when [c] is closed. *)
Definition attachBackend (slot : Z) (bc : nat) (addr : NetAddr) (c : routerUDPConn) : run (option (routerUDPConn * option nat)) :=
  if uc_closed c then Done None
  else
    let! old := backend_at slot c in
    let c := put_backend slot (Some bc) c in
    let c := if routerAddrUsesPortZero (NetAddr_String (uc_laddr c)) then set_laddr c addr else c in
    Done (Some (c, old)).

(** The section of [detachBackend]; the guard is before it. *)
Definition detachBackend (slot : Z) (c : routerUDPConn) : run (routerUDPConn * option nat) :=
  if negb (routerValidSlot slot) then Done (c, None)
  else let! bc := backend_at slot c in Done (put_backend slot None c, bc).

(** The section of [closeBackend], and the one of [attachBackend] after a
    failed spawn: forgets the socket when it is still the one of the slot. *)
Definition closeBackend (slot : Z) (bc : nat) (c : routerUDPConn) : run routerUDPConn :=
  if routerValidSlot slot then
    let! current := backend_at slot c in
    Done (if bool_decide (current = Some bc) then put_backend slot None c else c)
  else Done c.

(** ** Close *)

(** [closeOnce.Do]: absent when the function already ran or runs. *)
Definition close_enter (c : routerUDPConn) : option routerUDPConn :=
  if uc_once c then None
  else Some (MkUDPConn (uc_network c) (uc_laddr c) (uc_backends c) (uc_closed c) true (uc_beforeClose c) (uc_readDeadline c)
               (uc_writeDeadline c) (uc_readCh c)).

(** The section of [Close]: [close(c.closeCh)] panics the second time. *)
Definition close_locked (c : routerUDPConn) : run (routerUDPConn * list nat) :=
  if uc_closed c then Panicked
  else Done (MkUDPConn (uc_network c) (uc_laddr c) (map (fun _ => None) (uc_backends c)) true (uc_once c) (uc_beforeClose c)
               (uc_readDeadline c) (uc_writeDeadline c) (uc_readCh c),
             omap id (uc_backends c)).

(** ** Packets *)

Definition LocalAddr (c : routerUDPConn) : NetAddr := uc_laddr c.
Definition RemoteAddr (c : routerUDPConn) : option NetAddr := None.

(** The section of [ReadFrom]: the deadline. *)
Definition ReadFrom_begin (c : routerUDPConn) : result error (option Z) :=
  if uc_closed c then Failure (ConnClosed "read" (uc_network c) (Some (uc_laddr c)) None) else Success (uc_readDeadline c).

(** The branch of its [select]. *)
Inductive readBranch : Type := Received | TimedOut | Closed.

(** What [ReadFrom] returns for a buffer of [size] bytes; absent while the
    branch is not ready.  A timer fires only when there is a deadline. *)
Definition ReadFrom_select (branch : readBranch) (size : Z) (rd : option Z) (c : routerUDPConn)
    : option (result error (list byte * NetAddr) * routerUDPConn) :=
  match branch with
  | Received =>
      match uc_readCh c with
      | [] => None
      | p :: q => Some (Success (take (Z.to_nat size) (up_data p), up_addr p), set_readCh c q)
      end
  | TimedOut => match rd with None => None | Some _ => Some (Failure (routerTimeout "read" (uc_network c)), c) end
  | Closed => if uc_closed c then Some (Failure (ConnClosed "read" (uc_network c) (Some (uc_laddr c)) None), c) else None
  end.

(** [c.readCh <- packet] of [readBackend]; absent while the channel is full. *)
Definition receive (capacity : nat) (p : routerUDPPacket) (c : routerUDPConn) : option routerUDPConn :=
  if bool_decide (length (uc_readCh c) < capacity)%nat then Some (set_readCh c (uc_readCh c ++ [p])) else None.

(** [Write] on a socket that has no peer. *)
Definition Write (c : routerUDPConn) : error := OpError "write" (uc_network c) None None (TextError "not connected").

(** The first section of [WriteTo]: the deadline. *)
Definition WriteTo_begin (addr : NetAddr) (c : routerUDPConn) : result error (option Z) :=
  if uc_closed c then Failure (ConnClosed "write" (uc_network c) (Some (uc_laddr c)) (Some addr)) else Success (uc_writeDeadline c).

Definition SetReadDeadline (t : option Z) (c : routerUDPConn) : routerUDPConn :=
  MkUDPConn (uc_network c) (uc_laddr c) (uc_backends c) (uc_closed c) (uc_once c) (uc_beforeClose c) t (uc_writeDeadline c) (uc_readCh c).

Definition SetWriteDeadline (t : option Z) (c : routerUDPConn) : routerUDPConn :=
  MkUDPConn (uc_network c) (uc_laddr c) (uc_backends c) (uc_closed c) (uc_once c) (uc_beforeClose c) (uc_readDeadline c) t (uc_readCh c).

Definition SetDeadline (t : option Z) (c : routerUDPConn) : routerUDPConn :=
  MkUDPConn (uc_network c) (uc_laddr c) (uc_backends c) (uc_closed c) (uc_once c) (uc_beforeClose c) t t (uc_readCh c).
