(* ===== verification/RouterSys.v ===== *)
(** * The network router: threads

    What the goroutines of src/router.go do between the critical sections of
    NetRouter and RouterUDP.  A thread is the stack of the statements it has
    still to execute; a statement is one critical section or one call of code
    outside of the Router, and executing it changes the world and pushes the
    statements that follow it.  Threads interleave after every statement.

    What other code answers comes from an [oracle]: whether a backend's call
    succeeds, what the configuration selects, which ready branch a [select]
    takes, in which order a map is iterated.  The world holds the objects that
    backends returned, with their callback wrappers, the UDP listeners, and the
    closed channels; [w_ids] remembers for which object and slot an id was
    reserved. *)

From S2P Require Import Prelude GoStd NetIP Reject Callbacks NetRouter RouterUDP.

(** ** World *)

(** A connection, listener or socket of a backend.  [ob_own]: it is a callback
    wrapper itself; [ob_set]: its callbacks, pairs of id and slot to unregister,
    and slots for accepted connections. *)
Record object : Type := MkObject {
  ob_backend : nat;
  ob_listener : bool;
  ob_open : bool;
  ob_own : bool;
  ob_addr : NetAddr;
  ob_set : callbackSet (nat * Z) Z }.

(** What must be closed in the end. *)
Inductive ref : Type := RObj (o : nat) | RUdp (u : nat).

#[global] Instance ref_eq_dec : EqDecision ref.
Proof. solve_decision. Defined.

(** A subscription of the Router at a backend. *)
Record subscription : Type := MkSubscription { su_backend : nat; su_slot : Z; su_gen : nat; su_active : bool }.

(** What a call returned. *)
Inductive ret : Type :=
| RetOK
| RetErr (e : error)
| RetObj (o : nat)
| RetUdp (u : nat)
| RetId (i : nat)
| RetValue (v : nat)
| RetCount (n : Z)
| RetPacket (data : list byte) (addr : NetAddr).

Record world : Type := MkWorld {
  w_router : Router;
  w_objs : list object;
  w_udps : list routerUDPConn;
  w_chclosed : gset nat;
  w_ids : gmap nat (ref * Z);
  w_subs : list subscription;
  (** the readers of backend sockets: listener, slot, socket *)
  w_readers : list (nat * Z * nat);
  (** what a subscriber was told last *)
  w_told : gmap nat bool;
  w_closedSubs : list nat;
  w_returned : list ret }.

Definition with_router (w : world) (r : Router) : world :=
  MkWorld r (w_objs w) (w_udps w) (w_chclosed w) (w_ids w) (w_subs w) (w_readers w) (w_told w) (w_closedSubs w) (w_returned w).
Definition with_objs (w : world) (x : list object) : world :=
  MkWorld (w_router w) x (w_udps w) (w_chclosed w) (w_ids w) (w_subs w) (w_readers w) (w_told w) (w_closedSubs w) (w_returned w).
Definition with_udps (w : world) (x : list routerUDPConn) : world :=
  MkWorld (w_router w) (w_objs w) x (w_chclosed w) (w_ids w) (w_subs w) (w_readers w) (w_told w) (w_closedSubs w) (w_returned w).
Definition with_chclosed (w : world) (x : gset nat) : world :=
  MkWorld (w_router w) (w_objs w) (w_udps w) x (w_ids w) (w_subs w) (w_readers w) (w_told w) (w_closedSubs w) (w_returned w).
Definition with_ids (w : world) (x : gmap nat (ref * Z)) : world :=
  MkWorld (w_router w) (w_objs w) (w_udps w) (w_chclosed w) x (w_subs w) (w_readers w) (w_told w) (w_closedSubs w) (w_returned w).
Definition with_subs (w : world) (x : list subscription) : world :=
  MkWorld (w_router w) (w_objs w) (w_udps w) (w_chclosed w) (w_ids w) x (w_readers w) (w_told w) (w_closedSubs w) (w_returned w).
Definition with_readers (w : world) (x : list (nat * Z * nat)) : world :=
  MkWorld (w_router w) (w_objs w) (w_udps w) (w_chclosed w) (w_ids w) (w_subs w) x (w_told w) (w_closedSubs w) (w_returned w).
Definition with_told (w : world) (x : gmap nat bool) : world :=
  MkWorld (w_router w) (w_objs w) (w_udps w) (w_chclosed w) (w_ids w) (w_subs w) (w_readers w) x (w_closedSubs w) (w_returned w).
Definition with_closedSubs (w : world) (x : list nat) : world :=
  MkWorld (w_router w) (w_objs w) (w_udps w) (w_chclosed w) (w_ids w) (w_subs w) (w_readers w) (w_told w) x (w_returned w).
Definition with_returned (w : world) (x : list ret) : world :=
  MkWorld (w_router w) (w_objs w) (w_udps w) (w_chclosed w) (w_ids w) (w_subs w) (w_readers w) (w_told w) (w_closedSubs w) x.

Definition initial_world : world := MkWorld NewRouter [] [] ∅ ∅ [] [] ∅ [] [].

Definition set_open (b : bool) (x : object) : object := MkObject (ob_backend x) (ob_listener x) b (ob_own x) (ob_addr x) (ob_set x).
Definition set_set (s : callbackSet (nat * Z) Z) (x : object) : object := MkObject (ob_backend x) (ob_listener x) (ob_open x) (ob_own x) (ob_addr x) s.

(** ** Statements *)

Inductive action : Type :=
(* DialTCP, ListenTCP, DialUDP *)
| ABegin (op : routedOp)
| AResolve (op : routedOp) (local : bool) (gen done : nat)
| ASelect (op : routedOp) (gen done : nat)
| ARoute (op : routedOp) (gen done : nat) (slot : Z)
| ACall (op : routedOp) (gen done : nat) (slot : Z) (backend : nat)
| AWait (op : routedOp) (gen done : nat) (slot : Z) (backend : nat)
| AReady (op : routedOp) (gen done : nat) (slot : Z) (o : nat)
| ALate (op : routedOp) (backend : nat)
| AReserve (op : routedOp) (gen : nat) (slot : Z) (o : nat)
| AWrap (op : routedOp) (gen : nat) (slot : Z) (o i : nat)
| AFinish (gen : nat) (slot : Z) (o i : nat)
(* closing an object *)
| ACloseOwn (o : nat)
| ABeforeClose (o : nat)
| AUnregister (i : nat) (slot : Z)
| ACloseObj (o : nat)
(* accepting *)
| AAccept (l : nat) (tcp : bool)
| AAccepted (l : nat) (tcp : bool) (o : nat)
| ASubscribeConn (o : nat) (wrapped : bool) (slots : list Z)
| AWrapConn (o i : nat) (slot : Z) (slots : list Z)
(* ListenUDP and the backend sockets of a listener *)
| AListenUDP (network laddr : string)
| AUdpResolve (network laddr : string) (gen done : nat)
| AUdpCall (network laddr : string) (gen done : nat)
| AUdpWait (network laddr : string) (gen done : nat)
| AUdpReady (gen done u : nat)
| AUdpLate (network laddr : string)
| AUdpReserve (gen u : nat)
| AUdpTrack (gen u i : nat)
| AUdpAttach (u : nat) (slot : Z) (backend : nat)
| AUdpInstall (u : nat) (slot : Z) (o : nat)
| AUdpReader (u : nat) (slot : Z) (o : nat)
| AUdpRemove (u : nat) (slot : Z) (o : nat)
| AUdpDetach (u : nat) (slot : Z)
| AUdpClose (u : nat)
| AUdpCloseLocked (u : nat)
(* WriteTo and ReadFrom *)
| AWriteTo (u : nat) (addr : NetAddr)
| AWriteRoute (u : nat) (addr : NetAddr)
| AWriteSlot (u : nat) (addr : NetAddr) (slot : Z)
| AWritePick (u : nat) (addr : NetAddr) (slot : Z) (backend : nat)
| AWriteRetry (u : nat) (addr : NetAddr) (slot : Z)
| AWriteOn (u : nat) (slot : Z) (o : nat)
| AReadFrom (u : nat) (size : Z)
| AReadSelect (u : nat) (size : Z) (rd : option Z)
(* lifecycle and slots *)
| AUp
| ADown
| AClose
| AAttach (slot : Z) (backend : option nat)
| AReplace (slot : Z) (backend : option nat) (up : bool)
| AWatch (slot : Z) (backend : nat)
| ASubscribe (slot : Z) (backend : nat) (gen : nat)
| AProbe (slot : Z) (backend : nat) (gen : nat) (sub : option nat)
| ASetSlotUp (slot : Z) (gen : nat) (up : bool) (sub : option nat)
| AUnsub (s : nat)
| ACloseDone (ch : nat)
| ANotify (up : bool) (u : nat)
| ACloseSub (c : nat)
| ASubscribeUpDown (u : nat)
| ASubscribeCloser (c : nat)
| AUnregisterUpDown (i : nat)
| AUnregisterCloseSub (i : nat)
| ASetCfg (cfg : option nat)
| ASetResolver (res : option nat)
(* lookups *)
| ALookup (c : lookupCall)
| ALookupBegin (c : lookupCall) (res : nat)
| ALookupCfg (c : lookupCall)
| ALookupSlot (c : lookupCall) (slot : Z)
| ALookupWait (done : nat)
| AReturn (x : ret).

Definition thread : Type := list action.

(** The branch that the [select] of [runDetachedOp] takes: the result, the
    channel of the generation, or the context with its error. *)
Inductive branch : Type := TakeResult | TakeDone | TakeContext (e : error).

Record oracle : Type := MkOracle {
  or_seed : nat;
  (** the call succeeds *)
  or_ok : bool;
  or_err : error;
  (** the backend is up *)
  or_up : bool;
  (** the backend has subscriptions *)
  or_sub : bool;
  or_own : bool;
  or_addr : NetAddr;
  or_branch : branch;
  or_read : readBranch;
  or_cfg : nat -> RouterCfg;
  or_res : nat -> Resolver;
  or_value : nat;
  or_count : Z }.

(** What executing a statement does: the new world, the statements that
    follow and the threads it starts; absent while it blocks. *)
Definition effect : Type := run (option (world * list action * list thread)).

Definition next (w : world) (acts : list action) : effect := Done (Some (w, acts, [])).
Definition fork (w : world) (acts : list action) (t : thread) : effect := Done (Some (w, acts, [t])).
Definition blocked : effect := Done None.

(** ** Sequences of statements *)

Definition close_wrapped (o : nat) : list action := [ABeforeClose o; ACloseObj o].

Definition closer_acts (c : closer) : list action :=
  match c with
  | Wrapped o => close_wrapped o
  | Plain o => [ACloseOwn o]
  | UDPListener u => [AUdpClose u]
  end.

Definition closeAll (closers : list closer) : list action := flat_map closer_acts closers.
Definition upAll (updowns : list nat) : list action := map (ANotify true) updowns.
Definition downAll (updowns : list nat) : list action := map (ANotify false) updowns.
Definition unsubscribe (s : option nat) : list action := map AUnsub (option_list s).

Definition closeTransition (t : routerTransition) : list action :=
  map ACloseDone (option_list (tr_done t)) ++
  (if tr_up t then upAll (tr_updowns t) else closeAll (tr_closers t) ++ downAll (tr_updowns t)).

Definition fail (e : error) : list action := [AReturn (RetErr e)].

(** Which result [runDetachedOp] takes: absent while the branch is not ready;
    else the error with which the operation is abandoned. *)
Definition runDetachedOp (w : world) (done : nat) (b : branch) : option (option error) :=
  let closed := bool_decide (done ∈ w_chclosed w) in
  match b with
  | TakeResult => Some None
  | TakeDone => if closed then Some (Some ErrClosed) else None
  | TakeContext e => Some (Some (if closed then ErrClosed else e))
  end.

(** ** Objects *)

Definition new_object (backend : nat) (listener : bool) (x : oracle) : object :=
  MkObject backend listener true (or_own x) (or_addr x) (MkSet false [] [] []).

Definition is_listen (op : routedOp) : bool := match op with RListenTCP _ _ => true | _ => false end.

(** The callbacks that the [track] functions install. *)
Definition track_callbacks (op : routedOp) (i : nat) (slot : Z) : Callbacks (nat * Z) Z :=
  match op with
  | RListenTCP _ _ => MkCallbacks (Some (i, slot)) (Some slot) (Some slot)
  | _ => MkCallbacks (Some (i, slot)) None None
  end.

(** [TCPConnWithCallbacks] and the like: an object that is a wrapper keeps its
    set, any other gets a new wrapper. *)
Definition wrap_object (cb : Callbacks (nat * Z) Z) (x : object) : object :=
  set_set (with_callbacks (if ob_own x then SameObject else CallbackConn) (ob_set x) cb) x.

Definition get_obj (w : world) (o : nat) : run object := must (w_objs w !! o).
Definition get_udp (w : world) (u : nat) : run routerUDPConn := must (w_udps w !! u).
Definition put_obj (w : world) (o : nat) (x : object) : world := with_objs w (<[o := x]> (w_objs w)).
Definition put_udp (w : world) (u : nat) (c : routerUDPConn) : world := with_udps w (<[u := c]> (w_udps w)).

Definition op_laddr (op : routedOp) : string :=
  match op with RDialTCP _ l _ | RDialUDP _ l _ | RListenTCP _ l => l end.

Definition op_raddr (op : routedOp) : option string :=
  match op with RDialTCP _ _ r | RDialUDP _ _ r => Some r | RListenTCP _ _ => None end.

Definition set_addr (op : routedOp) (local : bool) (a : string) : routedOp :=
  match op, local with
  | RDialTCP n l r, true => RDialTCP n a r
  | RDialTCP n l r, false => RDialTCP n l a
  | RDialUDP n l r, true => RDialUDP n a r
  | RDialUDP n l r, false => RDialUDP n l a
  | RListenTCP n l, true => RListenTCP n a
  | RListenTCP n l, false => op
  end.

Definition resolver_now (x : oracle) (w : world) : option Resolver := or_res x <$> resolverSnapshot (w_router w).

(** ** Execution *)

(** The routed operations: [begin], [resolveNetAddr], [routeStarted], the call
    of the backend in [runDetachedOp], and the [track] functions. *)
Definition exec_op (x : oracle) (w : world) (a : action) : effect :=
  let r := w_router w in
  match a with
  | ABegin op =>
      match begin r with
      | Failure e => next w (fail e)
      | Success (gen, done) => next w [AResolve op true gen done]
      end
  | AResolve op local gen done =>
      match (if local then Some (op_laddr op) else op_raddr op) with
      | None => next w [ASelect op gen done]
      | Some address =>
          match resolveNetAddr (resolver_now x w) (op_network op) address with
          | Failure e => next w (fail e)
          | Success address =>
              next w [if local then AResolve (set_addr op true address) false gen done else ASelect (set_addr op false address) gen done]
          end
      end
  | ASelect op gen done =>
      match routeStarted_cfg gen r with
      | Failure e => next w (fail e)
      | Success cfg => next w [ARoute op gen done (select_slot (or_cfg x <$> cfg) op)]
      end
  | ARoute op gen done slot =>
      let! b := routeStarted_slot gen slot (reject_routed op) r in
      match b with
      | Failure e => next w (fail e)
      | Success backend => next w [ACall op gen done slot backend]
      end
  | ACall op gen done slot backend => next w (if or_ok x then [AWait op gen done slot backend] else fail (or_err x))
  | AWait op gen done slot backend =>
      match runDetachedOp w done (or_branch x) with
      | None => blocked
      | Some (Some e) => fork w (fail e) [ALate op backend]
      | Some None =>
          if or_ok x
          then next (with_objs w (w_objs w ++ [new_object backend (is_listen op) x])) [AReady op gen done slot (length (w_objs w))]
          else next w (fail (or_err x))
      end
  | AReady op gen done slot o =>
      match runDetachedOp w done (or_branch x) with
      | None => blocked
      | Some (Some e) => fork w (fail e) [ACloseOwn o]
      | Some None => next w [AReserve op gen slot o]
      end
  | ALate op backend =>
      if or_ok x then next (with_objs w (w_objs w ++ [new_object backend (is_listen op) x])) [ACloseOwn (length (w_objs w))] else next w []
  | AReserve op gen slot o =>
      match reserveTracked gen r with
      | Failure e => next w (ACloseOwn o :: fail e)
      | Success (i, r) => next (with_ids (with_router w r) (<[i := (RObj o, slot)]> (w_ids w))) [AWrap op gen slot o i]
      end
  | AWrap op gen slot o i =>
      let! ob := get_obj w o in
      next (put_obj w o (wrap_object (track_callbacks op i slot) ob)) [AFinish gen slot o i]
  | AFinish gen slot o i =>
      let! r := finishTracked gen slot i (Wrapped o) r in
      match r with
      | Failure e => next w (close_wrapped o ++ fail e)
      | Success r => next (with_router w r) [AReturn (RetObj o)]
      end
  | _ => blocked
  end.

(** Closing an object, and accepting on a listener. *)
Definition exec_object (x : oracle) (w : world) (a : action) : effect :=
  let r := w_router w in
  match a with
  | ACloseOwn o =>
      let! ob := get_obj w o in
      next w (if ob_own ob then close_wrapped o else [ACloseObj o])
  | ABeforeClose o =>
      let! ob := get_obj w o in
      let '(callbacks, set) := runBeforeClose (ob_set ob) in
      next (put_obj w o (set_set set ob)) (map (fun '(i, slot) => AUnregister i slot) callbacks)
  | AUnregister i slot => let! r := unregister i slot r in next (with_router w r) []
  | ACloseObj o => let! ob := get_obj w o in next (put_obj w o (set_open false ob)) []
  | AAccept l tcp =>
      let! ob := get_obj w l in
      if or_ok x
      then next (with_objs w (w_objs w ++ [new_object (ob_backend ob) false x])) [AAccepted l tcp (length (w_objs w))]
      else next w (fail (or_err x))
  | AAccepted l tcp o =>
      let! ob := get_obj w l in
      match (if tcp then runOnAcceptTCP (ob_set ob) else runOnAccept (ob_set ob)) with
      | None => next w (ACloseOwn o :: fail ErrClosed)
      | Some slots => next w [ASubscribeConn o false slots]
      end
  | ASubscribeConn o wrapped slots =>
      match slots with
      | [] => next w [AReturn (RetObj o)]
      | slot :: slots =>
          let c := if wrapped then Wrapped o else Plain o in
          let! s := subscribeCloser_conn slot c r in
          match s with
          | None => next w (closer_acts c ++ fail ErrClosed)
          | Some (r, i) => next (with_ids (with_router w r) (<[i := (RObj o, slot)]> (w_ids w))) [AWrapConn o i slot slots]
          end
      end
  | AWrapConn o i slot slots =>
      let! ob := get_obj w o in
      next (put_obj w o (wrap_object (MkCallbacks (Some (i, slot)) None None) ob)) [ASubscribeConn o true slots]
  | _ => blocked
  end.

(** One socket per attached backend. *)
Definition attach_all (u : nat) (backends : list (option nat)) : list action :=
  omap (fun '(slot, b) => AUdpAttach u slot <$> b) (zip (map Z.of_nat (seq 1 slot_count)) backends).

(** [ListenUDP] and [trackRouterUDPConn]. *)
Definition exec_listen (x : oracle) (w : world) (a : action) : effect :=
  let r := w_router w in
  match a with
  | AListenUDP network laddr =>
      if negb (IsUDPNetwork network) then next w (fail (UnknownNetworkError network))
      else match begin r with
           | Failure e => next w (fail e)
           | Success (gen, done) => next w [AUdpResolve network laddr gen done]
           end
  | AUdpResolve network laddr gen done =>
      match resolveNetAddr (resolver_now x w) network laddr with
      | Failure e => next w (fail e)
      | Success laddr =>
          match SplitHostPort laddr with
          | None => next w (fail (listenError network laddr))
          | Some _ => next w [AUdpCall network laddr gen done]
          end
      end
  | AUdpCall network laddr gen done => next w (if or_ok x then [AUdpWait network laddr gen done] else fail (or_err x))
  | AUdpWait network laddr gen done =>
      match runDetachedOp w done (or_branch x) with
      | None => blocked
      | Some (Some e) => fork w (fail e) [AUdpLate network laddr]
      | Some None => next (with_udps w (w_udps w ++ [newRouterUDPConn network laddr])) [AUdpReady gen done (length (w_udps w))]
      end
  | AUdpReady gen done u =>
      match runDetachedOp w done (or_branch x) with
      | None => blocked
      | Some (Some e) => fork w (fail e) [AUdpClose u]
      | Some None => next w [AUdpReserve gen u]
      end
  | AUdpLate network laddr =>
      next (with_udps w (w_udps w ++ [newRouterUDPConn network laddr])) [AUdpClose (length (w_udps w))]
  | AUdpReserve gen u =>
      match reserveTracked gen r with
      | Failure e => next w (AUdpClose u :: fail e)
      | Success (i, r) => next (with_ids (with_router w r) (<[i := (RUdp u, 0)]> (w_ids w))) [AUdpTrack gen u i]
      end
  | AUdpTrack gen u i =>
      let! c := get_udp w u in
      let w := put_udp w u (set_beforeClose c i) in
      match trackRouterUDPConn gen i u r with
      | Failure e => next w (AUdpClose u :: fail e)
      | Success (r, backends) =>
          next (with_router w r) (attach_all u backends ++ [AReturn (RetUdp u)])
      end
  | _ => blocked
  end.

(** The backend sockets of a [routerUDPConn]. *)
Definition exec_socket (x : oracle) (w : world) (a : action) : effect :=
  match a with
  | AUdpAttach u slot backend =>
      if negb (routerValidSlot slot) then next w []
      else if or_ok x
      then next (with_objs w (w_objs w ++ [new_object backend false x])) [AUdpInstall u slot (length (w_objs w))]
      else next w []
  | AUdpInstall u slot o =>
      let! c := get_udp w u in
      let! ob := get_obj w o in
      let! s := attachBackend slot o (ob_addr ob) c in
      match s with
      | None => next w [ACloseOwn o]
      | Some (c, old) => next (put_udp w u c) (map ACloseOwn (option_list old) ++ [AUdpReader u slot o])
      end
  | AUdpReader u slot o =>
      if or_ok x then next (with_readers w (w_readers w ++ [(u, slot, o)])) [] else next w [AUdpRemove u slot o]
  | AUdpRemove u slot o =>
      let! c := get_udp w u in
      let! c := closeBackend slot o c in
      next (put_udp w u c) [ACloseOwn o]
  | AUdpDetach u slot =>
      let! c := get_udp w u in
      let! s := detachBackend slot c in
      let '(c, bc) := s in
      next (put_udp w u c) (map ACloseOwn (option_list bc))
  | AUdpClose u =>
      let! c := get_udp w u in
      match close_enter c with
      | None => next w []
      | Some c => next (put_udp w u c) (map (fun i => AUnregister i 0) (option_list (uc_beforeClose c)) ++ [AUdpCloseLocked u])
      end
  | AUdpCloseLocked u =>
      let! c := get_udp w u in
      let! s := close_locked c in
      let '(c, closers) := s in
      next (put_udp w u c) (map ACloseOwn closers)
  | _ => blocked
  end.

(** [WriteTo] and [ReadFrom] of a UDP listener. *)
Definition exec_packet (x : oracle) (w : world) (a : action) : effect :=
  let r := w_router w in
  match a with
  | AWriteTo u addr =>
      let! c := get_udp w u in
      match WriteTo_begin addr c with
      | Failure e => next w (fail e)
      | Success _ => next w [AWriteRoute u addr]
      end
  | AWriteRoute u addr =>
      let! c := get_udp w u in
      match routeUDP_cfg r with
      | None => next w (fail (dialError (uc_network c) (NetAddr_String addr)))
      | Some cfg => next w [AWriteSlot u addr (udp_slot (or_cfg x <$> cfg) (uc_network c) (LocalAddr c) addr)]
      end
  | AWriteSlot u addr slot =>
      let! c := get_udp w u in
      let! b := routeUDP_slot slot r in
      match b with
      | None => next w (fail (dialError (uc_network c) (NetAddr_String addr)))
      | Some backend => next w [AWritePick u addr slot backend]
      end
  | AWritePick u addr slot backend =>
      let! c := get_udp w u in
      let! bc := backend_at slot c in
      match bc with
      | Some o => next w [AWriteOn u slot o]
      | None => next w [AUdpAttach u slot backend; AWriteRetry u addr slot]
      end
  | AWriteRetry u addr slot =>
      let! c := get_udp w u in
      let! bc := backend_at slot c in
      match bc with
      | Some o => next w [AWriteOn u slot o]
      | None => next w (fail (dialError (uc_network c) (NetAddr_String addr)))
      end
  | AWriteOn u slot o =>
      if or_ok x then next w [AReturn (RetCount (or_count x))] else next w (AUdpRemove u slot o :: fail (or_err x))
  | AReadFrom u size =>
      let! c := get_udp w u in
      match ReadFrom_begin c with
      | Failure e => next w (fail e)
      | Success rd => next w [AReadSelect u size rd]
      end
  | AReadSelect u size rd =>
      let! c := get_udp w u in
      match ReadFrom_select (or_read x) size rd c with
      | None => blocked
      | Some (Success (data, addr), c) => next (put_udp w u c) [AReturn (RetPacket data addr)]
      | Some (Failure e, c) => next (put_udp w u c) (fail e)
      end
  | _ => blocked
  end.

Definition add_sub (w : world) (backend : nat) (slot : Z) (gen : nat) : world :=
  with_subs w (w_subs w ++ [MkSubscription backend slot gen true]).

Definition drop_sub (s : subscription) : subscription := MkSubscription (su_backend s) (su_slot s) (su_gen s) false.

(** [Up], [Down], [Close], [Attach], [Detach], and the watching of slots. *)
Definition exec_life (x : oracle) (w : world) (a : action) : effect :=
  let r := w_router w in
  match a with
  | AUp =>
      match Up_locked (or_seed x) r with
      | None => next w (fail ErrClosed)
      | Some (r, t) => next (with_router w r) (closeTransition t ++ [AReturn RetOK])
      end
  | ADown =>
      match Down_locked (or_seed x) r with
      | None => next w [AReturn RetOK]
      | Some (r, t) => next (with_router w r) (closeTransition t ++ [AReturn RetOK])
      end
  | AClose =>
      let '(r, c) := closePrep (or_seed x) r in
      next (with_router w r)
        (map ACloseDone (option_list (cl_done c)) ++ map AUnsub (cl_slotSubs c) ++ closeAll (cl_closers c) ++
         downAll (cl_updowns c) ++ map ACloseSub (cl_closeSubs c) ++ [AReturn RetOK])
  | AAttach slot backend =>
      if negb (routerValidSlot slot) then next w (fail (routerSlotError slot))
      else next w [AReplace slot backend (match backend with Some _ => or_up x | None => false end)]
  | AReplace slot backend up =>
      let! s := replaceSlot (or_seed x) slot backend up r in
      match s with
      | None => next w (fail ErrClosed)
      | Some p =>
          next (with_router w (rp_router p))
            (unsubscribe (rp_unsub p) ++ closeTransition (rp_stopped p) ++ closeAll (rp_old p) ++
             match backend with
             | Some b => AWatch slot b :: flat_map (fun u => [AUdpDetach u slot; AUdpAttach u slot b]) (rp_udp p)
             | None => map (fun u => AUdpDetach u slot) (rp_udp p)
             end ++ [AReturn RetOK])
      end
  | AWatch slot backend => let! gen := watchSlot_gen slot r in next w [ASubscribe slot backend gen]
  | ASubscribe slot backend gen =>
      if or_sub x
      then next (add_sub w backend slot gen)
             ((if or_up x then [] else [ASetSlotUp slot gen false None]) ++ [AProbe slot backend gen (Some (length (w_subs w)))])
      else next w [AProbe slot backend gen None]
  | AProbe slot backend gen sub => next w [ASetSlotUp slot gen (or_up x) sub]
  | ASetSlotUp slot gen up sub =>
      let! s := setSlotUp (or_seed x) slot gen up sub r in
      match s with
      | None => next w (unsubscribe sub)
      | Some (r, t, old) => next (with_router w r) (closeTransition t ++ unsubscribe old)
      end
  | AUnsub s => next (with_subs w (alter drop_sub s (w_subs w))) []
  | ACloseDone ch => if bool_decide (ch ∈ w_chclosed w) then Panicked else next (with_chclosed w ({[ch]} ∪ w_chclosed w)) []
  | ANotify up u => next (with_told w (<[u := up]> (w_told w))) []
  | ACloseSub c => next (with_closedSubs w (w_closedSubs w ++ [c])) []
  | ASubscribeUpDown u =>
      let '(r, i, down) := SubscribeUpDown_locked u r in
      next (with_router w r) (downAll (if down then [u] else []) ++ [AReturn (RetId i)])
  | ASubscribeCloser c =>
      match subscribeCloser_user c r with
      | None => next w (ACloseSub c :: fail ErrClosed)
      | Some (r, i) => next (with_router w r) [AReturn (RetId i)]
      end
  | AUnregisterUpDown i => next (with_router w (unregisterUpDown i r)) []
  | AUnregisterCloseSub i => next (with_router w (unregisterCloseSub i r)) []
  | ASetCfg cfg => next (with_router w (SetCfg cfg r)) []
  | ASetResolver res => next (with_router w (SetResolver res r)) []
  | _ => blocked
  end.

(** [routerLookupSlice] and [routerLookupOne]. *)
Definition exec_lookup (x : oracle) (w : world) (a : action) : effect :=
  let r := w_router w in
  match a with
  | ALookup c =>
      match resolverSnapshot r with
      | Some res => next w [ALookupBegin c res]
      | None => next w [ALookupCfg c]
      end
  | ALookupBegin c res =>
      match begin r with
      | Failure e => next w (fail e)
      | Success (gen, done) => next w [ALookupWait done]
      end
  | ALookupCfg c =>
      match beginLookup_cfg r with
      | Failure e => next w (fail e)
      | Success cfg => next w [ALookupSlot c (lookup_slot (or_cfg x <$> cfg) (lookup_route c).1 (lookup_route c).2)]
      end
  | ALookupSlot c slot =>
      let! b := beginLookup_slot slot (lookup_reject c) r in
      match b with
      | Failure e => next w (fail e)
      | Success (backend, done) => next w [ALookupWait done]
      end
  | ALookupWait done =>
      match runDetachedOp w done (or_branch x) with
      | None => blocked
      | Some (Some e) => next w (fail e)
      | Some None => next w (if or_ok x then [AReturn (RetValue (or_value x))] else fail (or_err x))
      end
  | AReturn v => next (with_returned w (w_returned w ++ [v])) []
  | _ => blocked
  end.

Definition exec (x : oracle) (w : world) (a : action) : effect :=
  match a with
  | ABegin _ | AResolve _ _ _ _ | ASelect _ _ _ | ARoute _ _ _ _ | ACall _ _ _ _ _ | AWait _ _ _ _ _ | AReady _ _ _ _ _
  | ALate _ _ | AReserve _ _ _ _ | AWrap _ _ _ _ _ | AFinish _ _ _ _ => exec_op x w a
  | ACloseOwn _ | ABeforeClose _ | AUnregister _ _ | ACloseObj _ | AAccept _ _ | AAccepted _ _ _ | ASubscribeConn _ _ _
  | AWrapConn _ _ _ _ => exec_object x w a
  | AListenUDP _ _ | AUdpResolve _ _ _ _ | AUdpCall _ _ _ _ | AUdpWait _ _ _ _ | AUdpReady _ _ _ | AUdpLate _ _
  | AUdpReserve _ _ | AUdpTrack _ _ _ => exec_listen x w a
  | AUdpAttach _ _ _ | AUdpInstall _ _ _ | AUdpReader _ _ _ | AUdpRemove _ _ _ | AUdpDetach _ _ | AUdpClose _
  | AUdpCloseLocked _ => exec_socket x w a
  | AWriteTo _ _ | AWriteRoute _ _ | AWriteSlot _ _ _ | AWritePick _ _ _ _ | AWriteRetry _ _ _ | AWriteOn _ _ _
  | AReadFrom _ _ | AReadSelect _ _ _ => exec_packet x w a
  | ALookup _ | ALookupBegin _ _ | ALookupCfg _ | ALookupSlot _ _ | ALookupWait _ | AReturn _ => exec_lookup x w a
  | _ => exec_life x w a
  end.

(** ** The system *)

Record system : Type := MkSystem { sy_world : world; sy_threads : list thread }.

(** What users and backends may call at any time. *)
Inductive call : Type :=
| COpen (c : openCall)
| CLookup (c : lookupCall)
| CAttach (slot : Z) (backend : option nat)
| CUp
| CDown
| CClose
| CSubscribeUpDown (u : nat)
| CSubscribeCloser (c : nat)
| CUnsubscribeUpDown (i : nat)
| CUnsubscribeCloser (i : nat)
| CSetCfg (cfg : option nat)
| CSetResolver (res : option nat)
(* on what the Router returned *)
| CCloseObj (o : nat)
| CAccept (l : nat) (tcp : bool)
| CCloseUdp (u : nat)
| CWriteTo (u : nat) (addr : NetAddr)
| CReadFrom (u : nat) (size : Z)
(* by backends: a connection is closed, a subscriber is notified, a read fails *)
| CBackendCloses (o : nat)
| CNotify (s : nat) (up : bool)
| CReadError (i : nat).

(** [Dial], [Listen] and the other calls that open an object. *)
Definition open_thread (c : openCall) : thread :=
  match c with
  | Dial network address => [ABegin (if IsUDPNetwork network then RDialUDP network "" address else RDialTCP network "" address)]
  | Listen network address => [ABegin (RListenTCP network address)]
  | PacketDial network address => [ABegin (RDialUDP network "" address)]
  | ListenPacket network address => [AListenUDP network address]
  | DialTCP network laddr raddr => [ABegin (RDialTCP network laddr raddr)]
  | ListenTCP network laddr => [ABegin (RListenTCP network laddr)]
  | DialUDP network laddr raddr => [ABegin (RDialUDP network laddr raddr)]
  | ListenUDP network laddr => [AListenUDP network laddr]
  | ListenPacketConfig network address => [AListenUDP network address]
  | ListenUDPConfig network laddr => [AListenUDP network laddr]
  | ListenMulticastUDP network address => fail ErrUnsupported
  end.

(** The object was returned to the user. *)
Definition returned_obj (o : nat) (w : world) : bool :=
  existsb (fun x => match x with RetObj o' => Nat.eqb o o' | _ => false end) (w_returned w).

Definition returned_udp (u : nat) (w : world) : bool :=
  existsb (fun x => match x with RetUdp u' => Nat.eqb u u' | _ => false end) (w_returned w).

(** The thread of a call; absent when it cannot be made. *)
Definition start (w : world) (c : call) : option thread :=
  match c with
  | COpen c => Some (open_thread c)
  | CLookup c => Some [ALookup c]
  | CAttach slot backend => Some [AAttach slot backend]
  | CUp => Some [AUp]
  | CDown => Some [ADown]
  | CClose => Some [AClose]
  | CSubscribeUpDown u => Some [ASubscribeUpDown u]
  | CSubscribeCloser c => Some [ASubscribeCloser c]
  | CUnsubscribeUpDown i => Some [AUnregisterUpDown i]
  | CUnsubscribeCloser i => Some [AUnregisterCloseSub i]
  | CSetCfg cfg => Some [ASetCfg cfg]
  | CSetResolver res => Some [ASetResolver res]
  | CCloseObj o => if returned_obj o w then Some (close_wrapped o) else None
  | CAccept l tcp =>
      match w_objs w !! l with
      | Some ob => if ob_listener ob && returned_obj l w then Some [AAccept l tcp] else None
      | None => None
      end
  | CCloseUdp u => if returned_udp u w then Some [AUdpClose u] else None
  | CWriteTo u addr => if returned_udp u w then Some [AWriteTo u addr] else None
  | CReadFrom u size => if returned_udp u w then Some [AReadFrom u size] else None
  | CBackendCloses o => match w_objs w !! o with Some _ => Some [ACloseOwn o] | None => None end
  | CNotify s up =>
      match w_subs w !! s with
      | Some sub => if su_active sub then Some [ASetSlotUp (su_slot sub) (su_gen sub) up None] else None
      | None => None
      end
  | CReadError i => match w_readers w !! i with Some (u, slot, o) => Some [AUdpRemove u slot o] | None => None end
  end.

(** The setters of deadlines, which are one section. *)
Inductive deadline_setter : (routerUDPConn -> routerUDPConn) -> Prop :=
| set_both t : deadline_setter (SetDeadline t)
| set_read t : deadline_setter (SetReadDeadline t)
| set_write t : deadline_setter (SetWriteDeadline t).

Inductive step : system -> system -> Prop :=
| step_call w threads c t : start w c = Some t -> step (MkSystem w threads) (MkSystem w (threads ++ [t]))
| step_exec w pre a rest post x w' acts forked :
    exec x w a = Done (Some (w', acts, forked)) ->
    step (MkSystem w (pre ++ (a :: rest) :: post)) (MkSystem w' (pre ++ (acts ++ rest) :: post ++ forked))
| step_receive w threads i u slot o c capacity p c' :
    w_readers w !! i = Some (u, slot, o) -> w_udps w !! u = Some c -> receive capacity p c = Some c' ->
    step (MkSystem w threads) (MkSystem (put_udp w u c') threads)
| step_deadline w threads u c f :
    w_udps w !! u = Some c -> deadline_setter f -> step (MkSystem w threads) (MkSystem (put_udp w u (f c)) threads).

Definition reachable (s : system) : Prop := rtc step (MkSystem initial_world []) s.

(** All threads have returned. *)
Definition quiet (s : system) : Prop := Forall (fun t => t = []) (sy_threads s).
