(* ===== verification/RouterInv.v ===== *)
(** * The network router: the state between critical sections

    The invariant of the fields of the Router: the effective state follows the
    wishes of the user and the states of the slots, a Router that is down tracks
    nothing, and the three tables of tracked objects agree.  Every section of
    NetRouter keeps it. *)

From S2P Require Import Prelude GoStd NetIP Reject Callbacks NetRouter RouterUDP RouterSys.

(** ** Lists and orders *)

Lemma insert_at_perm {A} i (x : A) l : insert_at i x l ≡ₚ x :: l.
Proof. unfold insert_at. rewrite <- Permutation_middle. by rewrite take_drop. Qed.

Lemma shuffle_perm {A} (l : list A) : forall seed, shuffle seed l ≡ₚ l.
Proof.
  induction l as [|x l IH]; intros seed; [done|]. cbn [shuffle]. rewrite insert_at_perm. by rewrite IH.
Qed.

Lemma elem_of_shuffle {A} seed (x : A) l : x ∈ shuffle seed l <-> x ∈ l.
Proof. by rewrite shuffle_perm. Qed.

(** The values of a map, in any order. *)
Lemma elem_of_map_values {A} seed (m : gmap nat A) x :
  x ∈ shuffle seed (map snd (map_to_list m)) <-> exists i, m !! i = Some x.
Proof.
  rewrite elem_of_shuffle, list_elem_of_fmap. split.
  - intros ([i y] & -> & H%elem_of_map_to_list). by exists i.
  - intros [i H]. exists (i, x). by rewrite elem_of_map_to_list.
Qed.

Lemma valid_slot_range slot : routerValidSlot slot = true <-> 1 <= slot <= 16.
Proof. unfold routerValidSlot, RouterSlots. lia. Qed.

Lemma index_slot {A} (l : list A) slot : length l = slot_count -> routerValidSlot slot = true -> exists x, index l (slot - 1) = Some x.
Proof.
  intros Hl Hs%valid_slot_range. destruct (index_in_range l (slot - 1)) as [x Hx]; [|by exists x].
  unfold zlen. rewrite Hl. unfold slot_count, RouterSlots. lia.
Qed.

Lemma index_lookup {A} (l : list A) slot x : index l (slot - 1) = Some x -> l !! Z.to_nat (slot - 1) = Some x /\ 1 <= slot.
Proof. unfold index. destruct (Z.ltb_spec (slot - 1) 0); [done|]. intros H'. split; [done|lia]. Qed.

(** ** Tracked objects *)

Definition closer_ref (c : closer) : ref :=
  match c with Wrapped o | Plain o => RObj o | UDPListener u => RUdp u end.

Record tracked_ok (ids : gmap nat (ref * Z)) (tk : trackedTable) : Prop := {
  to_len : length (tk_bySlot tk) = slot_count;
  (** ids are not used again *)
  to_fresh : forall i f, ids !! i = Some f -> (i < tk_nextID tk)%nat;
  (** a tracked object is the one of its id *)
  to_closers : forall i c, tk_closers tk !! i = Some c -> exists s, ids !! i = Some (closer_ref c, s);
  to_bySlot : forall k m i c, tk_bySlot tk !! k = Some m -> m !! i = Some c ->
    tk_closers tk !! i = Some c /\ ids !! i = Some (closer_ref c, Z.of_nat k + 1);
  to_udp : forall i u, tk_udp tk !! i = Some u -> tk_closers tk !! i = Some (UDPListener u) /\ ids !! i = Some (RUdp u, 0);
  (** every tracked object is in the table of its slot or is a UDP listener *)
  to_cover : forall i c, tk_closers tk !! i = Some c ->
    (exists k m, tk_bySlot tk !! k = Some m /\ m !! i = Some c) \/ (exists u, c = UDPListener u /\ tk_udp tk !! i = Some u) }.

(** The table of a Router that tracks nothing. *)
Lemma tracked_ok_empty ids tk n bs : tracked_ok ids tk -> tk_nextID tk = n -> length bs = slot_count ->
  (forall k (m : gmap nat closer), bs !! k = Some m -> m = ∅) -> tracked_ok ids (MkTracked n ∅ bs ∅).
Proof.
  intros H Hn Hl Hb. split; cbn; [done| | | | |].
  - intros i f Hf. subst n. by eapply to_fresh.
  - intros i c Hc. by rewrite lookup_empty in Hc.
  - intros k m i c Hk Hi. apply Hb in Hk. subst m. by rewrite lookup_empty in Hi.
  - intros i u Hu. by rewrite lookup_empty in Hu.
  - intros i c Hc. by rewrite lookup_empty in Hc.
Qed.

Lemma map_const_empty (l : list (gmap nat closer)) k m : map (fun _ => ∅ : gmap nat closer) l !! k = Some m -> m = ∅.
Proof. rewrite list_lookup_fmap. by destruct (l !! k); intros [= <-]. Qed.

(** Nothing is in the table of a slot when nothing is tracked. *)
Lemma bySlot_empty ids tk k m : tracked_ok ids tk -> tk_closers tk = ∅ -> tk_bySlot tk !! k = Some m -> m = ∅.
Proof.
  intros H He Hk. apply map_eq. intros i. rewrite lookup_empty. destruct (m !! i) as [c|] eqn:E; [|done].
  destruct (to_bySlot _ _ H k m i c Hk E) as [Hc _]. by rewrite He, lookup_empty in Hc.
Qed.

(** A new id. *)
Lemma tracked_ok_reserve ids tk f : tracked_ok ids tk ->
  tracked_ok (<[tk_nextID tk := f]> ids) (MkTracked (S (tk_nextID tk)) (tk_closers tk) (tk_bySlot tk) (tk_udp tk)).
Proof.
  intros H.
  assert (Hne : forall i g, ids !! i = Some g -> (<[tk_nextID tk := f]> ids) !! i = Some g).
  { intros i g Hg. rewrite lookup_insert_ne; [done|]. apply (to_fresh _ _ H) in Hg. lia. }
  split; cbn.
  - apply (to_len _ _ H).
  - intros i g [[<- <-]|[Hi Hg]]%lookup_insert_Some; [lia|]. apply (to_fresh _ _ H) in Hg. lia.
  - intros i c Hc. destruct (to_closers _ _ H i c Hc) as [s Hs]. exists s. auto.
  - intros k m i c Hk Hi. destruct (to_bySlot _ _ H k m i c Hk Hi). auto.
  - intros i u Hu. destruct (to_udp _ _ H i u Hu). auto.
  - apply (to_cover _ _ H).
Qed.

(** An object is tracked under an id that was reserved for it and is not in
    use. *)
Lemma tracked_ok_track ids tk k m i c : tracked_ok ids tk -> ids !! i = Some (closer_ref c, Z.of_nat k + 1) ->
  tk_bySlot tk !! k = Some m ->
  tracked_ok ids (MkTracked (tk_nextID tk) (<[i := c]> (tk_closers tk)) (<[k := <[i := c]> m]> (tk_bySlot tk)) (tk_udp tk)).
Proof.
  intros H Hi Hk. pose proof (lookup_lt_Some _ _ _ Hk) as Hlt. split; cbn.
  - rewrite length_insert. apply (to_len _ _ H).
  - apply (to_fresh _ _ H).
  - intros j d [[<- <-]|[_ Hd]]%lookup_insert_Some; [eauto|]. by apply (to_closers _ _ H).
  - intros k' m' j d Hk' Hj. destruct (decide (k' = k)) as [->|Hne].
    + rewrite list_lookup_insert_eq in Hk' by done. simplify_eq.
      apply lookup_insert_Some in Hj as [[<- <-]|[Hij Hd]]; [by rewrite lookup_insert_eq|].
      rewrite lookup_insert_ne by done. by apply (to_bySlot _ _ H _ m).
    + rewrite list_lookup_insert_ne in Hk' by done. destruct (to_bySlot _ _ H k' m' j d Hk' Hj) as [H1 H2].
      split; [|done]. rewrite lookup_insert_ne; [done|]. intros ->. rewrite Hi in H2. simplify_eq. lia.
  - intros j u Hu. destruct (to_udp _ _ H j u Hu) as [H1 H2]. split; [|done].
    rewrite lookup_insert_ne; [done|]. intros ->. rewrite Hi in H2. simplify_eq. lia.
  - intros j d [[<- <-]|[Hij Hd]]%lookup_insert_Some.
    + left. exists k, (<[i := c]> m). rewrite list_lookup_insert_eq by done. by rewrite lookup_insert_eq.
    + destruct (to_cover _ _ H j d Hd) as [(k' & m' & Hk' & Hj)|?]; [|by right]. left.
      destruct (decide (k' = k)) as [->|Hne].
      * exists k, (<[i := c]> m). rewrite list_lookup_insert_eq by done. rewrite lookup_insert_ne by done.
        rewrite Hk in Hk'. by simplify_eq.
      * exists k', m'. by rewrite list_lookup_insert_ne.
Qed.

Lemma tracked_ok_udp ids tk i u : tracked_ok ids tk -> ids !! i = Some (RUdp u, 0) ->
  tracked_ok ids (MkTracked (tk_nextID tk) (<[i := UDPListener u]> (tk_closers tk)) (tk_bySlot tk) (<[i := u]> (tk_udp tk))).
Proof.
  intros H Hi. split; cbn.
  - apply (to_len _ _ H).
  - apply (to_fresh _ _ H).
  - intros j d [[<- <-]|[_ Hd]]%lookup_insert_Some; [by exists 0|]. by apply (to_closers _ _ H).
  - intros k m j d Hk Hj. destruct (to_bySlot _ _ H k m j d Hk Hj) as [H1 H2]. split; [|done].
    rewrite lookup_insert_ne; [done|]. intros ->. rewrite Hi in H2. simplify_eq. lia.
  - intros j v [[<- <-]|[Hij Hv]]%lookup_insert_Some; [by rewrite lookup_insert_eq|].
    rewrite lookup_insert_ne by done. by apply (to_udp _ _ H).
  - intros j d [[<- <-]|[Hij Hd]]%lookup_insert_Some.
    + right. exists u. by rewrite lookup_insert_eq.
    + destruct (to_cover _ _ H j d Hd) as [?|(v & -> & Hv)]; [by left|]. right. exists v. by rewrite lookup_insert_ne.
Qed.

Lemma tracked_ok_unregister ids tk i f slot bs : tracked_ok ids tk -> ids !! i = Some (f, slot) ->
  length bs = slot_count ->
  (forall k m, bs !! k = Some m -> exists m', tk_bySlot tk !! k = Some m' /\ (forall j, j <> i -> m !! j = m' !! j) /\
     (Z.of_nat k + 1 = slot -> m !! i = None) /\ (Z.of_nat k + 1 <> slot -> m !! i = m' !! i)) ->
  tracked_ok ids (MkTracked (tk_nextID tk) (delete i (tk_closers tk)) bs (delete i (tk_udp tk))).
Proof.
  intros H Hi Hl Hb. split; cbn.
  - done.
  - apply (to_fresh _ _ H).
  - intros j d [_ Hd]%lookup_delete_Some. by apply (to_closers _ _ H).
  - intros k m j d Hk Hj. destruct (Hb k m Hk) as (m' & Hk' & Hsame & Hgone & Hother).
    destruct (decide (j = i)) as [->|Hne].
    + destruct (decide (Z.of_nat k + 1 = slot)) as [E|E]; [by rewrite Hgone in Hj|].
      rewrite Hother in Hj by done. destruct (to_bySlot _ _ H k m' i d Hk' Hj) as [_ H2]. rewrite Hi in H2. by simplify_eq.
    + rewrite Hsame in Hj by done. rewrite lookup_delete_ne by done. by apply (to_bySlot _ _ H k m').
  - intros j u [Hne Hu]%lookup_delete_Some. rewrite lookup_delete_ne by done. by apply (to_udp _ _ H).
  - intros j d [Hne Hd]%lookup_delete_Some. destruct (to_cover _ _ H j d Hd) as [(k & m & Hk & Hj)|(u & -> & Hu)].
    + left. destruct (lookup_lt_is_Some_2 bs k) as [m2 Hm2].
      { rewrite Hl, <- (to_len _ _ H). by eapply lookup_lt_Some. }
      exists k, m2. split; [done|]. destruct (Hb k m2 Hm2) as (m' & Hk' & Hsame & _ & _).
      rewrite Hsame by done. rewrite Hk in Hk'. by simplify_eq.
    + right. exists u. by rewrite lookup_delete_ne.
Qed.

Lemma lookup_forget ids closers i : forget_ids ids closers !! i = (if decide (ids !! i = None) then closers !! i else None).
Proof.
  unfold forget_ids. destruct (closers !! i) as [c|] eqn:E.
  - case_decide as D; [by apply map_lookup_filter_Some|]. apply map_lookup_filter_None. right. intros d Hd. by simplify_eq.
  - case_decide; (apply map_lookup_filter_None; by left).
Qed.

(** What was opened through a slot is no longer tracked. *)
Lemma tracked_ok_forget ids tk k mine : tracked_ok ids tk -> tk_bySlot tk !! k = Some mine ->
  tracked_ok ids (MkTracked (tk_nextID tk) (forget_ids mine (tk_closers tk)) (<[k := ∅]> (tk_bySlot tk)) (tk_udp tk)).
Proof.
  intros H Hk. pose proof (lookup_lt_Some _ _ _ Hk) as Hlt.
  assert (Hmine : forall i c, mine !! i = Some c -> ids !! i = Some (closer_ref c, Z.of_nat k + 1)).
  { intros i c Hi. by apply (to_bySlot _ _ H k mine). }
  split; cbn.
  - rewrite length_insert. apply (to_len _ _ H).
  - apply (to_fresh _ _ H).
  - intros i c Hc. rewrite lookup_forget in Hc. case_decide; [|done]. by apply (to_closers _ _ H).
  - intros k' m i c Hk' Hi. destruct (decide (k' = k)) as [->|Hne].
    { rewrite list_lookup_insert_eq in Hk' by done. injection Hk' as <-. by rewrite lookup_empty in Hi. }
    rewrite list_lookup_insert_ne in Hk' by done. destruct (to_bySlot _ _ H k' m i c Hk' Hi) as [H1 H2].
    split; [|done]. rewrite lookup_forget. case_decide as D; [done|].
    destruct (mine !! i) as [d|] eqn:E; [|done]. apply Hmine in E. rewrite H2 in E. simplify_eq. lia.
  - intros i u Hu. destruct (to_udp _ _ H i u Hu) as [H1 H2]. split; [|done].
    rewrite lookup_forget. case_decide as D; [done|]. destruct (mine !! i) as [d|] eqn:E; [|done].
    apply Hmine in E. rewrite H2 in E. simplify_eq. lia.
  - intros i c Hc. rewrite lookup_forget in Hc. case_decide as D; [|done].
    destruct (to_cover _ _ H i c Hc) as [(k' & m & Hk' & Hi)|?]; [|by right]. left.
    assert (k' <> k) as Hne by (intros ->; simplify_eq).
    exists k', m. by rewrite list_lookup_insert_ne.
Qed.

(** ** The Router *)

Record table_ok (t : slotTable) : Prop := {
  tb_slots : length (st_slots t) = slot_count;
  tb_slotUp : length (st_slotUp t) = slot_count;
  tb_slotGen : length (st_slotGen t) = slot_count;
  tb_slotSub : length (st_slotSub t) = slot_count }.

(** Operational: wanted, with a backend that is up, and not closed. *)
Record router_ok (ids : gmap nat (ref * Z)) (r : Router) : Prop := {
  ro_table : table_ok (rt_table r);
  ro_tracked : tracked_ok ids (rt_tracked r);
  ro_up : rt_up r = lf_wantUp (rt_life r) && lf_autoUp (rt_life r) && negb (rt_closed r);
  ro_auto : lf_autoUp (rt_life r) = negb (rt_closed r) && any_slot_up (rt_slots r) (st_slotUp (rt_table r));
  ro_down : rt_up r = false -> rt_closers r = ∅ }.

(** How the lifecycle and the tracked objects change together. *)
Inductive transits (r r' : Router) (t : routerTransition) : Prop :=
| transit_none :
    rt_up r' = rt_up r -> rt_gen r' = rt_gen r -> rt_done r' = rt_done r -> lf_channels (rt_life r') = lf_channels (rt_life r) ->
    rt_tracked r' = rt_tracked r -> t = no_transition -> transits r r' t
| transit_up us :
    rt_up r = false -> rt_up r' = true -> rt_gen r' = S (rt_gen r) -> rt_done r' = lf_channels (rt_life r) ->
    lf_channels (rt_life r') = S (lf_channels (rt_life r)) ->
    rt_tracked r' = MkTracked (tk_nextID (rt_tracked r)) ∅ (rt_bySlot r) ∅ ->
    t = MkTransition None [] us true -> transits r r' t
| transit_down us cs :
    rt_up r = true -> rt_up r' = false -> rt_gen r' = S (rt_gen r) -> rt_done r' = rt_done r ->
    lf_channels (rt_life r') = lf_channels (rt_life r) ->
    rt_tracked r' = MkTracked (tk_nextID (rt_tracked r)) ∅ (map (fun _ => ∅) (rt_bySlot r)) ∅ ->
    (forall c, c ∈ cs <-> exists i, rt_closers r !! i = Some c) ->
    t = MkTransition (Some (rt_done r)) cs us false -> transits r r' t.

Lemma applyEffectiveState_transits seed r r' t : applyEffectiveStateLocked seed r = (r', t) -> transits r r' t.
Proof.
  unfold applyEffectiveStateLocked.
  set (up := lf_wantUp (rt_life r) && lf_autoUp (rt_life r) && negb (lf_closed (rt_life r))).
  destruct (Bool.eqb _ _) eqn:E; [intros [= <- <-]; by apply transit_none|].
  destruct up; destruct (lf_up (rt_life r)) eqn:Eu; try done; intros [= <- <-].
  - by eapply transit_up.
  - eapply transit_down; try done. intros c. apply elem_of_map_values.
Qed.

(** What [applyEffectiveStateLocked] leaves alone. *)
Lemma applyEffectiveState_frame seed r r' t : applyEffectiveStateLocked seed r = (r', t) ->
  rt_table r' = rt_table r /\ rt_cfg r' = rt_cfg r /\ rt_res r' = rt_res r /\ rt_subs r' = rt_subs r /\
  lf_wantUp (rt_life r') = lf_wantUp (rt_life r) /\ lf_autoUp (rt_life r') = lf_autoUp (rt_life r) /\
  rt_closed r' = rt_closed r /\
  rt_up r' = lf_wantUp (rt_life r) && lf_autoUp (rt_life r) && negb (rt_closed r).
Proof.
  unfold applyEffectiveStateLocked, rt_closed, rt_up.
  set (up := lf_wantUp (rt_life r) && lf_autoUp (rt_life r) && negb (lf_closed (rt_life r))) in *.
  destruct (Bool.eqb _ _) eqn:E.
  - apply eqb_prop in E. intros [= <- <-]. by split_and!.
  - destruct up eqn:Eup; intros [= <- <-]; by split_and!.
Qed.

(** A transition keeps the tables consistent and leaves nothing tracked when
    the Router is down. *)
Lemma transits_tracked ids r r' t : transits r r' t -> tracked_ok ids (rt_tracked r) -> (rt_up r = false -> rt_closers r = ∅) ->
  tracked_ok ids (rt_tracked r') /\ (rt_up r' = false -> rt_closers r' = ∅).
Proof.
  intros [Eu _ _ _ Etk _|us E1 E2 _ _ _ Etk _|us cs E1 E2 _ _ _ Etk _ _] Hok Hd.
  - rewrite Etk. split; [done|]. rewrite Eu. intros E. unfold rt_closers in *. rewrite Etk. auto.
  - rewrite Etk. split; [|by rewrite E2]. apply (tracked_ok_empty ids (rt_tracked r)); [done|done|apply (to_len _ _ Hok)|].
    intros k m. apply (bySlot_empty ids); [done|]. by apply Hd.
  - rewrite Etk. split; [|by unfold rt_closers; rewrite Etk]. apply (tracked_ok_empty ids (rt_tracked r)); [done|done| |apply map_const_empty].
    rewrite length_map. apply (to_len _ _ Hok).
Qed.

Lemma applyEffectiveState_ok ids seed r r' t :
  table_ok (rt_table r) -> tracked_ok ids (rt_tracked r) -> (rt_up r = false -> rt_closers r = ∅) ->
  lf_autoUp (rt_life r) = negb (rt_closed r) && any_slot_up (rt_slots r) (st_slotUp (rt_table r)) ->
  applyEffectiveStateLocked seed r = (r', t) -> router_ok ids r' /\ transits r r' t.
Proof.
  intros Ht Htk Hd Ha E. pose proof (applyEffectiveState_transits _ _ _ _ E) as Htr.
  destruct (applyEffectiveState_frame _ _ _ _ E) as (F1 & _ & _ & _ & F2 & F3 & F4 & F5).
  destruct (transits_tracked ids _ _ _ Htr Htk Hd) as [G1 G2]. split; [|done]. split.
  - by rewrite F1.
  - done.
  - by rewrite F5, F2, F3, F4.
  - unfold rt_slots. by rewrite F1, F3, F4.
  - done.
Qed.

Lemma applyAutoState_ok ids seed r r' t :
  table_ok (rt_table r) -> tracked_ok ids (rt_tracked r) -> (rt_up r = false -> rt_closers r = ∅) -> rt_closed r = false ->
  applyAutoStateLocked seed r = (r', t) -> router_ok ids r' /\ transits r r' t.
Proof.
  intros Ht Htk Hd Hc E. unfold applyAutoStateLocked in E.
  eapply applyEffectiveState_ok in E as [H1 H2]; [|done..|].
  - split; [done|]. destruct H2; [by apply transit_none|by eapply transit_up|by eapply transit_down].
  - unfold rt_closed in *. cbn. by rewrite Hc.
Qed.

(** ** The sections *)

Lemma NewRouter_ok : router_ok ∅ NewRouter.
Proof.
  split; [|split|done..].
  - by split.
  - done.
  - intros i f H. by rewrite lookup_empty in H.
  - intros i c H. cbn in H. by rewrite lookup_empty in H.
  - intros k m i c Hk Hi. apply lookup_replicate in Hk as [-> _]. by rewrite lookup_empty in Hi.
  - intros i u H. cbn in H. by rewrite lookup_empty in H.
  - intros i c H. cbn in H. by rewrite lookup_empty in H.
Qed.

Lemma want_transits r w r' t : transits (set_wantUp r w) r' t -> transits r r' t.
Proof. intros []; [by apply transit_none|by eapply transit_up|by eapply transit_down]. Qed.

Lemma set_want_ok ids seed r w r' t : router_ok ids r ->
  applyEffectiveStateLocked seed (set_wantUp r w) = (r', t) -> router_ok ids r' /\ transits r r' t.
Proof.
  intros [H1 H2 _ H3 H4] E. eapply applyEffectiveState_ok in E as [G1 G2]; [|done..].
  split; [done|]. by eapply want_transits.
Qed.

Lemma Up_locked_ok ids seed r r' t : router_ok ids r -> Up_locked seed r = Some (r', t) -> router_ok ids r' /\ transits r r' t.
Proof. unfold Up_locked. intros H. destruct (rt_closed r); [done|]. intros [= E]. by eapply set_want_ok. Qed.

Lemma Down_locked_ok ids seed r r' t : router_ok ids r -> Down_locked seed r = Some (r', t) -> router_ok ids r' /\ transits r r' t.
Proof. unfold Down_locked. intros H. destruct (rt_closed r); [done|]. intros [= E]. by eapply set_want_ok. Qed.

(** [setSlotUp] returns, and leads from state to state. *)
Lemma setSlotUp_ok ids seed slot gen up sub r : router_ok ids r -> routerValidSlot slot = true ->
  exists res, setSlotUp seed slot gen up sub r = Done res /\
    forall r' t old, res = Some (r', t, old) -> router_ok ids r' /\ transits r r' t.
Proof.
  intros [[L1 L2 L3 L4] H2 _ H3 H4] Hv. unfold setSlotUp.
  destruct (index_slot (st_slotGen (rt_table r)) slot L3 Hv) as [g Hg].
  destruct (index_slot (st_slotSub (rt_table r)) slot L4 Hv) as [s Hs].
  rewrite Hg, Hs. destruct (rt_closed r) eqn:Ec; cbn [must run_bind orb]; [by exists None|].
  destruct (g =? gen)%nat; cbn [negb]; [|by exists None].
  destruct sub as [s'|]; destruct (applyAutoStateLocked _ _) as [r1 t1] eqn:E; eexists; (split; [done|]); intros r' t old [= <- <- <-];
    (eapply (applyAutoState_ok ids) in E as [G1 G2]; [|split; cbn; rewrite ?length_insert; done|done|done|done]);
    (split; [done|destruct G2; [by apply transit_none|by eapply transit_up|by eapply transit_down]]).
Qed.

(** [replaceSlot] returns; what was tracked for the slot is returned, the rest
    goes through the transition. *)
Lemma replaceSlot_ok ids seed slot backend up r : router_ok ids r -> routerValidSlot slot = true ->
  exists res, replaceSlot seed slot backend up r = Done res /\
    forall p, res = Some p -> router_ok ids (rp_router p) /\
      exists r1 mine, rt_bySlot r !! Z.to_nat (slot - 1) = Some mine /\ rt_closers r1 = forget_ids mine (rt_closers r) /\
        rt_life r1 = rt_life r /\ tk_nextID (rt_tracked r1) = tk_nextID (rt_tracked r) /\
        (forall c, c ∈ rp_old p <-> exists i, mine !! i = Some c) /\
        (forall u, u ∈ rp_udp p <-> exists i, rt_udp r !! i = Some u) /\ transits r1 (rp_router p) (rp_stopped p).
Proof.
  intros [[L1 L2 L3 L4] H2 _ H3 H4] Hv. unfold replaceSlot.
  destruct (index_slot (st_slotSub (rt_table r)) slot L4 Hv) as [s Hs].
  destruct (index_slot (st_slotGen (rt_table r)) slot L3 Hv) as [g Hg].
  destruct (index_slot (tk_bySlot (rt_tracked r)) slot (to_len _ _ H2) Hv) as [mine Hm].
  rewrite Hs, Hg, Hm. destruct (rt_closed r) eqn:Ec; cbn [run_bind must]; [by exists None|].
  destruct (applyAutoStateLocked _ _) as [r1 t1] eqn:E. eexists. split; [done|]. intros p [= <-]. cbn [rp_router rp_old rp_udp rp_stopped].
  apply index_lookup in Hm as [Hm Hpos]. pose proof H2 as Htk.
  apply (tracked_ok_forget ids _ _ _ Htk) in Hm as Hf.
  eapply (applyAutoState_ok ids) in E as [G1 G2]; [| | | |done]; cbn.
  - split; [done|]. eexists _, mine. split; [done|]. split_and!; [..|exact G2]; try done; intros c; apply elem_of_map_values.
  - split; cbn; by rewrite length_insert.
  - done.
  - intros Hup. apply H4 in Hup. unfold rt_closers in *. cbn. apply map_eq. intros i. rewrite lookup_forget, Hup.
    by case_decide.
Qed.

(** [closePrep]: the Router is closed, everything tracked is returned. *)
Lemma closePrep_ok ids seed r r' c : router_ok ids r -> closePrep seed r = (r', c) ->
  router_ok ids r' /\ rt_closed r' = true /\ rt_up r' = false /\ rt_done r' = rt_done r /\
  lf_channels (rt_life r') = lf_channels (rt_life r) /\ (rt_gen r <= rt_gen r')%nat /\ (rt_up r = true -> rt_gen r' = S (rt_gen r)) /\
  rt_closers r' = ∅ /\
  cl_done c = (if rt_up r then Some (rt_done r) else None) /\ (forall d, d ∈ cl_closers c <-> exists i, rt_closers r !! i = Some d).
Proof.
  intros H. unfold closePrep. destruct (lf_closed (rt_life r)) eqn:Ec.
  - intros [= <- <-]. assert (Hup : rt_up r = false).
    { rewrite (ro_up _ _ H). unfold rt_closed. rewrite Ec. cbn. by rewrite andb_false_r. }
    split; [done|]. split; [done|]. rewrite Hup. split_and!; try done; [by apply (ro_down _ _ H)|].
    intros d. cbn. split; [by intros ?%not_elem_of_nil|]. rewrite (ro_down _ _ H Hup). intros [i Hi]. by rewrite lookup_empty in Hi.
  - intros [= <- <-]. destruct H as [[L1 L2 L3 L4] H2 _ H3 H4]. split.
    + split; cbn; try done.
      * split; cbn; rewrite ?length_map; done.
      * apply (tracked_ok_empty ids (rt_tracked r)); [done|done| |apply map_const_empty]. rewrite length_map. apply (to_len _ _ H2).
    + unfold rt_up, rt_gen, rt_done in *. cbn. split_and!; try done; try lia. intros d. apply elem_of_map_values.
Qed.

(** The sections that track an object return. *)
Lemma track_ok ids r slot i c : router_ok ids r -> rt_up r = true -> routerValidSlot slot = true -> ids !! i = Some (closer_ref c, slot) ->
  exists r', track slot i c r = Done r' /\ router_ok ids r' /\ rt_life r' = rt_life r /\
    rt_closers r' = <[i := c]> (rt_closers r) /\ tk_nextID (rt_tracked r') = tk_nextID (rt_tracked r) /\ rt_udp r' = rt_udp r.
Proof.
  intros [H1 H2 H3 H4 H5] Hup Hv Hi. pose proof Hv as Hv'. apply valid_slot_range in Hv'.
  destruct (index_slot (tk_bySlot (rt_tracked r)) slot (to_len _ _ H2) Hv) as [m Hm].
  unfold track. replace (0 <? slot) with true by lia. rewrite Hm. eexists. split; [done|].
  apply index_lookup in Hm as [Hm _]. split; [|done]. split; try done.
  - cbn. apply tracked_ok_track; [done| |done]. rewrite Hi. do 2 f_equal. lia.
  - cbn. intros E. unfold rt_up in *. cbn in E. congruence.
Qed.

Lemma unregister_ok ids r i f slot : router_ok ids r -> ids !! i = Some (f, slot) -> slot = 0 \/ routerValidSlot slot = true ->
  exists r', unregister i slot r = Done r' /\ router_ok ids r' /\ rt_life r' = rt_life r /\
    rt_closers r' = delete i (rt_closers r) /\ tk_nextID (rt_tracked r') = tk_nextID (rt_tracked r).
Proof.
  intros [H1 H2 H3 H4 H5] Hi Hs. pose proof (to_len _ _ H2) as Hl. unfold unregister.
  destruct Hs as [->|Hv].
  - eexists. split; [done|]. split; [|done]. split; try done; cbn.
    + eapply tracked_ok_unregister; [done..|]. intros k m Hk. exists m. split_and!; try done. lia.
    + intros E. change (delete i (rt_closers r) = ∅). rewrite (H5 E). apply delete_empty.
  - pose proof Hv as Hv'. apply valid_slot_range in Hv'. destruct (index_slot _ slot Hl Hv) as [m Hm].
    replace (0 <? slot) with true by lia. rewrite Hm. apply index_lookup in Hm as [Hm _].
    eexists. split; [done|]. split; [|done]. split; try done; cbn.
    + eapply tracked_ok_unregister; [done|done|by rewrite length_insert|]. intros k m' Hk.
      destruct (decide (k = Z.to_nat (slot - 1))) as [->|Hne].
      * rewrite list_lookup_insert_eq in Hk by (by eapply lookup_lt_Some). injection Hk as <-. exists m. split_and!; try done.
        -- intros j Hj. by rewrite lookup_delete_ne.
        -- intros _. by rewrite lookup_delete_eq.
        -- lia.
      * rewrite list_lookup_insert_ne in Hk by done. exists m'. split_and!; try done. lia.
    + intros E. change (delete i (rt_closers r) = ∅). rewrite (H5 E). apply delete_empty.
Qed.
