(* ===== verification/RouterThreads.v ===== *)
(** * The network router: what the threads may rely on

    Every statement that a thread has still to execute refers to objects,
    listeners and slots that exist, and to ids that were reserved for them; a
    thread that will run an object's callbacks closes the object afterwards.
    Executing a statement keeps this, keeps the invariant of the Router, and does
    not panic. *)

From S2P Require Import Prelude GoStd NetIP Reject Callbacks NetRouter RouterUDP RouterSys RouterInv.

(** ** What threads hold *)

(** The objects and listeners that a statement is about to close or to hand
    over. *)
Definition held (a : action) : list ref :=
  match a with
  | AReady _ _ _ _ o | AReserve _ _ _ o | AWrap _ _ _ o _ | AFinish _ _ o _ | ACloseOwn o | ACloseObj o | AAccepted _ _ o
  | ASubscribeConn o false _ | AUdpInstall _ _ o | AUdpRemove _ _ o => [RObj o]
  | AUdpReady _ _ u | AUdpReserve _ u | AUdpTrack _ u _ | AUdpClose u | AUdpCloseLocked u => [RUdp u]
  | _ => []
  end.

Definition held_all (t : thread) : list ref := flat_map held t.

Lemma held_all_app t t' : held_all (t ++ t') = held_all t ++ held_all t'.
Proof. apply flat_map_app. Qed.

(** ** Worlds *)

Definition kind (w : world) (o : nat) : option bool := ob_listener <$> w_objs w !! o.
Definition obj_exists (w : world) (o : nat) : Prop := (o < length (w_objs w))%nat.
Definition udp_exists (w : world) (u : nat) : Prop := (u < length (w_udps w))%nat.

(** A listener tracks the connections it accepts until it is closed. *)
Definition accepts (x : object) : Prop :=
  ob_listener x = true -> cs_stopped (ob_set x) = true \/ (cs_onAccept (ob_set x) <> [] /\ cs_onAcceptTCP (ob_set x) <> []).

Definition callbacks_ok (w : world) (o : nat) : Prop := exists x, w_objs w !! o = Some x /\ accepts x.

Record obj_ok (ids : gmap nat (ref * Z)) (o : nat) (x : object) : Prop := {
  oo_before : forall i slot, (i, slot) ∈ cs_beforeClose (ob_set x) -> ids !! i = Some (RObj o, slot) /\ routerValidSlot slot = true;
  oo_accept : forall slot, slot ∈ cs_onAccept (ob_set x) -> routerValidSlot slot = true;
  oo_acceptTCP : forall slot, slot ∈ cs_onAcceptTCP (ob_set x) -> routerValidSlot slot = true }.

Record udp_ok (ids : gmap nat (ref * Z)) (objs : nat) (u : nat) (c : routerUDPConn) : Prop := {
  uo_len : length (uc_backends c) = slot_count;
  uo_before : forall i, uc_beforeClose c = Some i -> ids !! i = Some (RUdp u, 0);
  uo_closed : uc_closed c = true -> uc_once c = true /\ forall k o, uc_backends c !! k = Some (Some o) -> False;
  uo_objs : forall k o, uc_backends c !! k = Some (Some o) -> (o < objs)%nat }.

Definition ref_exists (w : world) (f : ref) : Prop :=
  match f with RObj o => obj_exists w o | RUdp u => udp_exists w u end.

Record world_ok (w : world) : Prop := {
  wo_router : router_ok (w_ids w) (w_router w);
  wo_refs : forall i f s, w_ids w !! i = Some (f, s) -> ref_exists w f;
  wo_objs : forall o x, w_objs w !! o = Some x -> obj_ok (w_ids w) o x;
  wo_udps : forall u c, w_udps w !! u = Some c -> udp_ok (w_ids w) (length (w_objs w)) u c;
  wo_subs : forall s, s ∈ w_subs w -> routerValidSlot (su_slot s) = true;
  wo_readers : forall u slot o, (u, slot, o) ∈ w_readers w -> udp_exists w u /\ obj_exists w o;
  wo_retObj : forall o, RetObj o ∈ w_returned w -> callbacks_ok w o;
  wo_retUdp : forall u, RetUdp u ∈ w_returned w -> udp_exists w u }.

(** What holds of objects and ids from now on. *)
Record extends (w w' : world) : Prop := {
  ex_ids : w_ids w ⊆ w_ids w';
  ex_kind : forall o b, kind w o = Some b -> kind w' o = Some b;
  ex_callbacks : forall o, callbacks_ok w o -> callbacks_ok w' o;
  ex_udps : (length (w_udps w) <= length (w_udps w'))%nat }.

(** ** Statements that can be executed *)

(** [h]: what the thread holds after the statement. *)
Definition act_ok (w : world) (h : list ref) (a : action) : Prop :=
  match a with
  | ACall _ _ _ slot _ | AWait _ _ _ slot _ => routerValidSlot slot = true
  | AReady op _ _ slot o | AReserve op _ slot o => routerValidSlot slot = true /\ kind w o = Some (is_listen op)
  | AWrap op _ slot o i => routerValidSlot slot = true /\ kind w o = Some (is_listen op) /\ w_ids w !! i = Some (RObj o, slot)
  | AFinish _ slot o i => routerValidSlot slot = true /\ callbacks_ok w o /\ w_ids w !! i = Some (RObj o, slot)
  | ACloseOwn o | ACloseObj o => exists b, kind w o = Some b
  | ABeforeClose o => (exists b, kind w o = Some b) /\ RObj o ∈ h
  | AUnregister i slot => (slot = 0 \/ routerValidSlot slot = true) /\ exists f, w_ids w !! i = Some (f, slot) /\ f ∈ h
  | AAccept l _ => callbacks_ok w l /\ kind w l = Some true
  | AAccepted l _ o => callbacks_ok w l /\ kind w l = Some true /\ kind w o = Some false
  | ASubscribeConn o wrapped slots => kind w o = Some false /\ (forall slot, slot ∈ slots -> routerValidSlot slot = true) /\
      (wrapped = false -> slots <> [])
  | AWrapConn o i slot slots => kind w o = Some false /\ routerValidSlot slot = true /\
      (forall slot, slot ∈ slots -> routerValidSlot slot = true) /\ w_ids w !! i = Some (RObj o, slot)
  | AUdpReady _ _ u | AUdpReserve _ u | AUdpAttach u _ _ | AUdpDetach u _ | AUdpClose u | AUdpCloseLocked u
  | AWriteTo u _ | AWriteRoute u _ | AWriteSlot u _ _ | AReadFrom u _ | AReadSelect u _ _ => udp_exists w u
  | AUdpTrack _ u i => udp_exists w u /\ w_ids w !! i = Some (RUdp u, 0)
  | AUdpInstall u slot o => udp_exists w u /\ routerValidSlot slot = true /\ exists b, kind w o = Some b
  | AUdpReader u _ o | AUdpRemove u _ o | AWriteOn u _ o => udp_exists w u /\ exists b, kind w o = Some b
  | AWritePick u _ slot _ | AWriteRetry u _ slot => udp_exists w u /\ routerValidSlot slot = true
  | AReplace slot _ _ | AWatch slot _ | ASubscribe slot _ _ | AProbe slot _ _ _ | ASetSlotUp slot _ _ _ => routerValidSlot slot = true
  | AReturn (RetObj o) => callbacks_ok w o
  | AReturn (RetUdp u) => udp_exists w u
  | _ => True
  end.

Fixpoint thread_ok (w : world) (h : list ref) (t : thread) : Prop :=
  match t with
  | [] => True
  | a :: t' => act_ok w (held_all t' ++ h) a /\ thread_ok w h t'
  end.

Lemma thread_ok_app w h t t' : thread_ok w h (t ++ t') <-> thread_ok w (held_all t' ++ h) t /\ thread_ok w h t'.
Proof.
  induction t as [|a t IH]; cbn; [by intuition|]. rewrite IH. unfold held_all at 1. rewrite flat_map_app, <- app_assoc. tauto.
Qed.

Lemma act_ok_mono w w' h h' a : extends w w' -> h ⊆ h' -> act_ok w h a -> act_ok w' h' a.
Proof.
  intros [E1 E2 E3 E4] Hh. unfold act_ok, udp_exists.
  assert (Hid : forall i f, w_ids w !! i = Some f -> w_ids w' !! i = Some f) by (intros i f Hf; by apply (lookup_weaken _ _ _ _ Hf)).
  assert (Hin : forall f, f ∈ h -> f ∈ h') by (intros f; by apply Hh).
  destruct a; try done; try naive_solver lia. destruct x; naive_solver lia.
Qed.

Lemma thread_ok_mono w w' h h' t : extends w w' -> h ⊆ h' -> thread_ok w h t -> thread_ok w' h' t.
Proof.
  intros He Hh. induction t as [|a t IH]; cbn; [done|]. intros [H1 H2]. split; [|by apply IH].
  eapply act_ok_mono; [done| |done]. set_solver.
Qed.

(** ** Extensions *)

Lemma world_extends_refl w : extends w w.
Proof. by split. Qed.

(** Worlds with the same objects and listeners. *)
Lemma extends_same w w' : w_ids w ⊆ w_ids w' -> w_objs w' = w_objs w -> length (w_udps w) = length (w_udps w') -> extends w w'.
Proof.
  intros H1 H2 H3. split; unfold kind, callbacks_ok; rewrite ?H2; try done. lia.
Qed.

Lemma kind_exists w o b : kind w o = Some b -> obj_exists w o.
Proof. unfold kind, obj_exists. destruct (w_objs w !! o) eqn:E; [|done]. intros _. by eapply lookup_lt_Some. Qed.

Lemma exists_kind w o : obj_exists w o -> exists b, kind w o = Some b.
Proof. intros [x Hx]%lookup_lt_is_Some_2. unfold kind. rewrite Hx. by exists (ob_listener x). Qed.

Lemma kind_lookup w o b : kind w o = Some b -> exists x, w_objs w !! o = Some x /\ ob_listener x = b.
Proof. unfold kind. destruct (w_objs w !! o) as [x|]; [|done]. intros [= <-]. by exists x. Qed.

Lemma extends_new w x : extends w (with_objs w (w_objs w ++ [x])).
Proof.
  split; cbn; try done.
  - intros o b (y & Hy & <-)%kind_lookup. unfold kind. cbn. by rewrite (lookup_app_l_Some _ _ _ _ Hy).
  - intros o (y & Hy & Hc). exists y. cbn. split; [|done]. by apply lookup_app_l_Some.
Qed.

Lemma kind_new w x : kind (with_objs w (w_objs w ++ [x])) (length (w_objs w)) = Some (ob_listener x).
Proof. unfold kind. cbn. by rewrite lookup_app_r, Nat.sub_diag by lia. Qed.

(** An object changes, but not its kind. *)
Lemma extends_put w o x y : w_objs w !! o = Some x -> ob_listener y = ob_listener x -> (accepts x -> accepts y) ->
  extends w (put_obj w o y).
Proof.
  intros Hx Hk Ha. pose proof (lookup_lt_Some _ _ _ Hx) as Hlt. split; cbn; try done.
  - intros o' b (z & Hz & <-)%kind_lookup. unfold kind. cbn. destruct (decide (o' = o)) as [->|Hne].
    + rewrite list_lookup_insert_eq by done. cbn. simplify_eq. by rewrite Hk.
    + by rewrite list_lookup_insert_ne, Hz by done.
  - intros o' (z & Hz & Hc). unfold callbacks_ok. cbn. destruct (decide (o' = o)) as [->|Hne].
    + exists y. rewrite list_lookup_insert_eq by done. simplify_eq. auto.
    + exists z. by rewrite list_lookup_insert_ne.
Qed.

Lemma extends_put_udp w u c : extends w (put_udp w u c).
Proof. apply extends_same; cbn; [done|done|by rewrite length_insert]. Qed.

Lemma extends_ids w r f : router_ok (w_ids w) (w_router w) ->
  extends w (with_ids (with_router w r) (<[tk_nextID (rt_tracked (w_router w)) := f]> (w_ids w))).
Proof.
  intros H. apply extends_same; cbn; try done. apply insert_subseteq.
  destruct (w_ids w !! _) eqn:E; [|done]. apply (to_fresh _ _ (ro_tracked _ _ H)) in E. lia.
Qed.

(** ** Changes of the world *)

Lemma obj_ok_ids ids ids' o x : ids ⊆ ids' -> obj_ok ids o x -> obj_ok ids' o x.
Proof.
  intros He [H1 H2 H3]. split; [|done..]. intros i slot Hi. apply H1 in Hi as [Hi Hv]. split; [|done].
  by apply (lookup_weaken _ _ _ _ Hi).
Qed.

Lemma udp_ok_mono ids ids' n n' u c : ids ⊆ ids' -> (n <= n')%nat -> udp_ok ids n u c -> udp_ok ids' n' u c.
Proof.
  intros He Hn [H1 H2 H3 H4]. split; [done| |done|].
  - intros i Hi. by apply (lookup_weaken _ _ _ _ (H2 i Hi)).
  - intros k o Hk. apply H4 in Hk. lia.
Qed.

(** What follows for the rest of the world when objects and ids are extended. *)
Lemma world_ok_extend w w' : world_ok w -> extends w w' -> (length (w_objs w) <= length (w_objs w'))%nat ->
  router_ok (w_ids w') (w_router w') ->
  (forall i f s, w_ids w' !! i = Some (f, s) -> w_ids w !! i = Some (f, s) \/ ref_exists w' f) ->
  (forall o x, w_objs w' !! o = Some x -> obj_ok (w_ids w') o x) ->
  (forall u c, w_udps w' !! u = Some c -> udp_ok (w_ids w') (length (w_objs w')) u c) ->
  w_subs w' = w_subs w -> w_readers w' = w_readers w -> w_returned w' = w_returned w -> world_ok w'.
Proof.
  intros [H1 H0 H2 H3 H4 H5 H6 H7] [E1 E2 E3 E4] Hlen Hr Hf Ho Hu Es Ed Et. split; rewrite ?Es, ?Ed, ?Et; try done.
  - intros i f s [Hi|Hi]%Hf; [|done]. apply H0 in Hi. destruct f; unfold ref_exists, obj_exists, udp_exists in *; lia.
  - intros u slot o Hin. apply H5 in Hin as [G1 G2]. unfold udp_exists, obj_exists in *. lia.
  - intros o Hin. by apply E3, H6.
  - intros u Hin. apply H7 in Hin. unfold udp_exists in *. lia.
Qed.

Lemma world_ok_router w r : world_ok w -> router_ok (w_ids w) r -> world_ok (with_router w r).
Proof. intros Hw Hr. apply (world_ok_extend w); try apply Hw; try done. by left. Qed.

Lemma world_ok_new w x : world_ok w -> cs_beforeClose (ob_set x) = [] -> cs_onAccept (ob_set x) = [] -> cs_onAcceptTCP (ob_set x) = [] ->
  world_ok (with_objs w (w_objs w ++ [x])).
Proof.
  intros Hw E1 E2 E3. apply (world_ok_extend w); try done; try apply Hw; cbn; try (by left).
  - apply extends_new.
  - rewrite length_app. lia.
  - intros o y [Hy|[_ Hy]]%lookup_app_Some; [by apply Hw|]. apply list_lookup_singleton_Some in Hy as [_ <-].
    split; rewrite ?E1, ?E2, ?E3; intros; by apply not_elem_of_nil in H.
  - intros u c Hc. eapply udp_ok_mono; [done| |by apply Hw]. rewrite length_app. lia.
Qed.

Lemma world_ok_put w o x y : world_ok w -> w_objs w !! o = Some x -> ob_listener y = ob_listener x -> (accepts x -> accepts y) ->
  obj_ok (w_ids w) o y -> world_ok (put_obj w o y).
Proof.
  intros Hw Hx Hk Ha Ho. apply (world_ok_extend w); try done; try apply Hw; cbn; try (by left).
  - by eapply extends_put.
  - by rewrite length_insert.
  - intros o' z [(<- & <- & _)|[_ Hz]]%list_lookup_insert_Some; [done|by apply Hw].
  - rewrite length_insert. apply Hw.
Qed.

Lemma world_ok_put_udp w u c : world_ok w -> udp_ok (w_ids w) (length (w_objs w)) u c -> world_ok (put_udp w u c).
Proof.
  intros Hw Hc. apply (world_ok_extend w); try done; try apply Hw; cbn; try (by left).
  - apply extends_put_udp.
  - intros u' d [(<- & <- & _)|[_ Hd]]%list_lookup_insert_Some; [done|by apply Hw].
Qed.

Lemma newRouterUDPConn_ok ids n u network laddr : udp_ok ids n u (newRouterUDPConn network laddr).
Proof.
  split; [done|done|done|]. intros k o Hk. cbn in Hk. by apply lookup_replicate in Hk as [? _].
Qed.

Lemma world_ok_new_udp w network laddr : world_ok w -> world_ok (with_udps w (w_udps w ++ [newRouterUDPConn network laddr])).
Proof.
  intros Hw. apply (world_ok_extend w); try done; try apply Hw; cbn; try (by left).
  - split; cbn; try done. rewrite length_app. lia.
  - intros u c [Hc|[_ Hc]]%lookup_app_Some; [by apply Hw|]. apply list_lookup_singleton_Some in Hc as [_ <-].
    apply newRouterUDPConn_ok.
Qed.

(** A new id. *)
Lemma world_ok_reserve w r f : world_ok w -> ref_exists w f.1 ->
  router_ok (<[tk_nextID (rt_tracked (w_router w)) := f]> (w_ids w)) r ->
  world_ok (with_ids (with_router w r) (<[tk_nextID (rt_tracked (w_router w)) := f]> (w_ids w))).
Proof.
  intros Hw Hf Hr. pose proof (extends_ids w r f (wo_router _ Hw)) as He.
  apply (world_ok_extend w); try done; cbn.
  - intros i g s [[_ ->]|[_ Hg]]%lookup_insert_Some; [by right|by left].
  - intros o x Hx. eapply obj_ok_ids; [apply (ex_ids _ _ He)|by apply Hw].
  - intros u c Hc. eapply udp_ok_mono; [apply (ex_ids _ _ He)|done|by apply Hw].
Qed.

(** Changes of the logs, the channels and the subscriptions. *)
Lemma world_ok_other w w' : world_ok w ->
  w_router w' = w_router w -> w_objs w' = w_objs w -> w_udps w' = w_udps w -> w_ids w' = w_ids w ->
  (forall s, s ∈ w_subs w' -> routerValidSlot (su_slot s) = true) ->
  (forall u slot o, (u, slot, o) ∈ w_readers w' -> udp_exists w u /\ obj_exists w o) ->
  (forall o, RetObj o ∈ w_returned w' -> callbacks_ok w o) -> (forall u, RetUdp u ∈ w_returned w' -> udp_exists w u) ->
  world_ok w' /\ extends w w'.
Proof.
  intros Hw E1 E2 E3 E4 H1 H2 H3 H4. split.
  - split; unfold ref_exists, udp_exists, obj_exists, callbacks_ok; rewrite ?E1, ?E2, ?E3, ?E4; try done; apply Hw.
  - apply extends_same; rewrite ?E2, ?E3, ?E4; done.
Qed.

(** ** Effects that keep the invariant *)

Definition good (w : world) (h : list ref) (e : effect) : Prop :=
  exists res, e = Done res /\ forall w' acts forked, res = Some (w', acts, forked) ->
    world_ok w' /\ extends w w' /\ thread_ok w' h acts /\ Forall (thread_ok w' []) forked.

Lemma good_blocked w h : good w h blocked.
Proof. by exists None. Qed.

Lemma good_next w h w' acts : world_ok w' -> extends w w' -> thread_ok w' h acts -> good w h (next w' acts).
Proof. intros H1 H2 H3. eexists. split; [done|]. by intros ? ? ? [= <- <- <-]. Qed.

Lemma good_same w h acts : world_ok w -> thread_ok w h acts -> good w h (next w acts).
Proof. intros H1 H2. apply good_next; [done|apply world_extends_refl|done]. Qed.

Lemma good_fork w h acts t : world_ok w -> thread_ok w h acts -> thread_ok w [] t -> good w h (fork w acts t).
Proof.
  intros H1 H2 H3. eexists. split; [done|]. intros ? ? ? [= <- <- <-]. split; [done|]. split; [apply world_extends_refl|]. by repeat constructor.
Qed.

Lemma good_fail w h e : world_ok w -> good w h (next w (fail e)).
Proof. intros H. apply good_same; [done|]. by cbn. Qed.

Lemma get_obj_kind w o b : kind w o = Some b -> exists x, get_obj w o = Done x /\ w_objs w !! o = Some x /\ ob_listener x = b.
Proof. intros (x & Hx & Hb)%kind_lookup. exists x. unfold get_obj. by rewrite Hx. Qed.

Lemma get_udp_exists w u : udp_exists w u -> exists c, get_udp w u = Done c /\ w_udps w !! u = Some c.
Proof. intros [c Hc]%lookup_lt_is_Some_2. exists c. unfold get_udp. by rewrite Hc. Qed.
