(* ===== verification/RouterSafe.v ===== *)
(** * The network router: executing statements

    Every statement that satisfies [act_ok] keeps the invariants of
    RouterThreads and does not panic, with two exceptions that RouterChannels
    rules out: closing a channel twice, and closing a UDP listener twice. *)

From S2P Require Import Prelude GoStd NetIP Reject Callbacks NetRouter RouterUDP RouterSys RouterInv RouterThreads.

Lemma is_stopped_false r : is_stopped r = false <-> rt_up r = true /\ rt_closed r = false.
Proof. unfold is_stopped. destruct (rt_up r), (rt_closed r); naive_solver. Qed.

Lemma is_stale_false gen r : is_stale gen r = false <-> rt_up r = true /\ rt_closed r = false /\ rt_gen r = gen.
Proof.
  unfold is_stale. rewrite orb_false_iff, is_stopped_false, negb_false_iff, Nat.eqb_eq. tauto.
Qed.

Lemma slot_backend_safe ids slot r : router_ok ids r -> exists b, slot_backend slot r = Done b /\ (is_Some b -> routerValidSlot slot = true).
Proof.
  intros H. unfold slot_backend. destruct (routerValidSlot slot) eqn:E; [|exists None; split; [done|by intros []]].
  destruct (index_slot (rt_slots r) slot (tb_slots _ (ro_table _ _ H)) E) as [b Hb]. rewrite Hb. by exists b.
Qed.

Lemma reserveTracked_ok w gen i r f : world_ok w -> ref_exists w f.1 -> reserveTracked gen (w_router w) = Success (i, r) ->
  i = tk_nextID (rt_tracked (w_router w)) /\ rt_closers r = rt_closers (w_router w) /\ rt_life r = rt_life (w_router w) /\
  world_ok (with_ids (with_router w r) (<[i := f]> (w_ids w))) /\ extends w (with_ids (with_router w r) (<[i := f]> (w_ids w))) /\
  w_ids w !! i = None.
Proof.
  intros Hw Hf. unfold reserveTracked. destruct (is_stale _ _) eqn:Es; [done|]. intros [= <- <-].
  pose proof (wo_router _ Hw) as Hr. split_and!; try done.
  - apply world_ok_reserve; [done..|]. destruct Hr as [H1 H2 H3 H4 H5]. split; try done. by apply tracked_ok_reserve.
  - by apply extends_ids.
  - destruct (w_ids w !! _) eqn:E; [|done]. apply (to_fresh _ _ (ro_tracked _ _ Hr)) in E. lia.
Qed.

(** ** Callback wrappers *)

Lemma wrap_obj_ok ids o x cb : obj_ok ids o x ->
  (forall i slot, cb_BeforeClose cb = Some (i, slot) -> ids !! i = Some (RObj o, slot) /\ routerValidSlot slot = true) ->
  (forall slot, cb_OnAccept cb = Some slot \/ cb_OnAcceptTCP cb = Some slot -> routerValidSlot slot = true) ->
  obj_ok ids o (wrap_object cb x).
Proof.
  intros [H1 H2 H3] Hb Ha.
  assert (Hadd : forall s, (forall i slot, (i, slot) ∈ cs_beforeClose s -> ids !! i = Some (RObj o, slot) /\ routerValidSlot slot = true) ->
    (forall slot, slot ∈ cs_onAccept s -> routerValidSlot slot = true) ->
    (forall slot, slot ∈ cs_onAcceptTCP s -> routerValidSlot slot = true) -> obj_ok ids o (set_set (add s cb) x)).
  { intros s G1 G2 G3. unfold add. destruct (cs_stopped s); [by split|]. split; cbn.
    - intros i slot [Hin|Hin]%elem_of_app; [by apply G1|]. apply Hb. destruct (cb_BeforeClose cb); set_solver.
    - intros slot [Hin|Hin]%elem_of_app; [by apply G2|]. apply Ha. left. destruct (cb_OnAccept cb); set_solver.
    - intros slot [Hin|Hin]%elem_of_app; [by apply G3|]. apply Ha. right. destruct (cb_OnAcceptTCP cb); set_solver. }
  unfold wrap_object, with_callbacks. destruct (ob_own x); [by apply Hadd|]. apply Hadd; cbn; intros; set_solver.
Qed.

(** A listener that is wrapped tracks what it accepts. *)
Lemma wrap_accepts op i slot x : ob_listener x = is_listen op -> accepts (wrap_object (track_callbacks op i slot) x).
Proof.
  intros Hk. unfold accepts, wrap_object. cbn [ob_listener set_set]. rewrite Hk. destruct op; try done. intros _.
  unfold with_callbacks, add. cbn [ob_set set_set track_callbacks].
  destruct (ob_own x); [|right; by split]. unfold add. destruct (cs_stopped (ob_set x)) eqn:E; [by left|right].
  cbn. split; by intros [? [=]]%app_eq_nil.
Qed.

(** ** UDP listeners *)

Lemma put_backend_ok ids n u c slot b : udp_ok ids n u c -> (forall o, b = Some o -> (o < n)%nat /\ uc_closed c = false) ->
  udp_ok ids n u (put_backend slot b c).
Proof.
  intros [H1 H2 H3 H4] Hb. split; cbn.
  - by rewrite length_insert.
  - done.
  - intros Hc. destruct (H3 Hc) as [G1 G2]. split; [done|]. intros k o [(_ & -> & _)|[_ Hk]]%list_lookup_insert_Some; [|by apply (G2 k o)].
    destruct (Hb o eq_refl) as [_ ?]. congruence.
  - intros k o [(_ & -> & _)|[_ Hk]]%list_lookup_insert_Some; [by apply Hb|by apply (H4 k)].
Qed.

(** Reading changes the queue only. *)
Lemma set_readCh_ok ids n u c q : udp_ok ids n u c -> udp_ok ids n u (set_readCh c q).
Proof. by intros []. Qed.

Lemma ReadFrom_select_queue b size rd c res c' : ReadFrom_select b size rd c = Some (res, c') -> exists q, c' = set_readCh c q.
Proof.
  assert (Hsame : exists q, c = set_readCh c q) by (exists (uc_readCh c); by destruct c).
  unfold ReadFrom_select. destruct b.
  - destruct (uc_readCh c) as [|p q]; [done|]. intros [= _ <-]. by exists q.
  - destruct rd; [|done]. by intros [= _ <-].
  - destruct (uc_closed c); [|done]. by intros [= _ <-].
Qed.

Lemma backend_at_ok ids n u c slot : udp_ok ids n u c -> routerValidSlot slot = true ->
  exists b, backend_at slot c = Done b /\ uc_backends c !! Z.to_nat (slot - 1) = Some b /\ forall o, b = Some o -> (o < n)%nat.
Proof.
  intros H Hv. destruct (index_slot (uc_backends c) slot (uo_len _ _ _ _ H) Hv) as [b Hb]. exists b. unfold backend_at. rewrite Hb.
  apply index_lookup in Hb as [Hb _]. split_and!; [done|done|]. intros o ->. by eapply uo_objs.
Qed.

Lemma attachBackend_ok ids n u c slot o addr : udp_ok ids n u c -> routerValidSlot slot = true -> (o < n)%nat ->
  exists res, attachBackend slot o addr c = Done res /\ forall c' old, res = Some (c', old) ->
    udp_ok ids n u c' /\ uc_closed c = false /\ uc_closed c' = false /\ uc_once c' = uc_once c /\
    uc_backends c !! Z.to_nat (slot - 1) = Some old /\ uc_backends c' = <[Z.to_nat (slot - 1) := Some o]> (uc_backends c) /\
    (forall o', old = Some o' -> (o' < n)%nat).
Proof.
  intros H Hv Ho. unfold attachBackend. destruct (uc_closed c) eqn:Ec; [by exists None|].
  destruct (backend_at_ok _ _ _ _ _ H Hv) as (b & -> & Hb & Hn). cbn [run_bind]. eexists. split; [done|].
  intros c' old [= <- <-]. assert (Hp : udp_ok ids n u (put_backend slot (Some o) c)).
  { apply put_backend_ok; [done|]. by intros ? [= <-]. }
  destruct (routerAddrUsesPortZero _); (split; [destruct Hp; by split|]); by split_and!.
Qed.

Lemma detachBackend_ok ids n u c slot : udp_ok ids n u c ->
  exists c' bc, detachBackend slot c = Done (c', bc) /\ udp_ok ids n u c' /\ uc_closed c' = uc_closed c /\ uc_once c' = uc_once c /\
    (forall o, bc = Some o -> (o < n)%nat) /\
    (forall k o, uc_backends c !! k = Some (Some o) -> uc_backends c' !! k = Some (Some o) \/ bc = Some o).
Proof.
  intros H. unfold detachBackend. destruct (routerValidSlot slot) eqn:Hv; cbn [negb]; [|exists c, None; split_and!; auto; done].
  destruct (backend_at_ok _ _ _ _ _ H Hv) as (b & -> & Hb & Hn). cbn [run_bind]. eexists _, _. split; [done|].
  split; [by apply put_backend_ok|]. split_and!; try done. intros k o Hk. cbn.
  destruct (decide (k = Z.to_nat (slot - 1))) as [->|Hne]; [right; congruence|left; by rewrite list_lookup_insert_ne].
Qed.

Lemma closeBackend_ok ids n u c slot bc : udp_ok ids n u c ->
  exists c', closeBackend slot bc c = Done c' /\ udp_ok ids n u c' /\ uc_closed c' = uc_closed c /\ uc_once c' = uc_once c /\
    (forall k o, uc_backends c !! k = Some (Some o) -> uc_backends c' !! k = Some (Some o) \/ bc = o).
Proof.
  intros H. unfold closeBackend. destruct (routerValidSlot slot) eqn:Hv; [|exists c; split_and!; auto; done].
  destruct (backend_at_ok _ _ _ _ _ H Hv) as (b & -> & Hb & Hn). cbn [run_bind]. eexists. split; [done|].
  case_bool_decide as D; [|split_and!; auto; done]. split; [by apply put_backend_ok|]. split_and!; try done.
  intros k o Hk. cbn. destruct (decide (k = Z.to_nat (slot - 1))) as [->|Hne]; [right; congruence|left; by rewrite list_lookup_insert_ne].
Qed.

Lemma close_locked_ok ids n u c : udp_ok ids n u c -> uc_once c = true -> uc_closed c = false ->
  exists c' os, close_locked c = Done (c', os) /\ udp_ok ids n u c' /\ uc_closed c' = true /\ uc_once c' = true /\
    (forall o, o ∈ os <-> exists k, uc_backends c !! k = Some (Some o)) /\ (forall o, o ∈ os -> (o < n)%nat).
Proof.
  intros H Ho Hc. unfold close_locked. rewrite Hc. eexists _, _. split; [done|].
  assert (Hin : forall o, o ∈ omap id (uc_backends c) <-> exists k, uc_backends c !! k = Some (Some o)).
  { intros o. rewrite list_elem_of_omap. split.
    - intros (b & Hb & E). cbn in E. subst b. by apply list_elem_of_lookup in Hb.
    - intros [k Hk]. exists (Some o). split; [by eapply list_elem_of_lookup_2|done]. }
  split_and!; try done; [|intros o [k Hk]%Hin; by eapply uo_objs].
  destruct H as [H1 H2 H3 H4]. assert (Hnone : forall k o, map (fun _ : option nat => None : option nat) (uc_backends c) !! k = Some (Some o) -> False).
  { intros k o. rewrite list_lookup_fmap. by destruct (uc_backends c !! k). }
  split; cbn; [by rewrite length_map|done|done|]. intros k o Hk. by apply Hnone in Hk.
Qed.

Section Exec.
Context (x : oracle) (w : world) (Hw : world_ok w).

Local Lemma new_good h backend listener acts :
  (forall w', w' = with_objs w (w_objs w ++ [new_object backend listener x]) -> extends w w' ->
     kind w' (length (w_objs w)) = Some listener -> thread_ok w' h acts) ->
  good w h (next (with_objs w (w_objs w ++ [new_object backend listener x])) acts).
Proof.
  intros H. apply good_next; [by apply world_ok_new|apply extends_new|]. apply H; [done|apply extends_new|apply kind_new].
Qed.

Lemma exec_op_good h a : act_ok w h a -> good w h (exec_op x w a).
Proof.
  intros Ha. pose proof (wo_router _ Hw) as Hr. destruct a; try apply good_blocked; cbn [exec_op act_ok] in *.
  - destruct (begin _) as [[gen done]|e]; [by apply good_same|by apply good_fail].
  - destruct (if local then _ else _) as [address|]; [|by apply good_same].
    destruct (resolveNetAddr _ _ _); [|by apply good_fail]. apply good_same; [done|]. by destruct local.
  - destruct (routeStarted_cfg _ _); [by apply good_same|by apply good_fail].
  - unfold routeStarted_slot. destruct (is_stale _ _); [by apply good_fail|].
    destruct (slot_backend_safe _ slot _ Hr) as (b & -> & Hb). cbn. destruct b; [|by apply good_fail].
    apply good_same; [done|]. cbn. split; [by apply Hb|done].
  - apply good_same; [done|]. by destruct (or_ok x).
  - destruct (runDetachedOp _ _ _) as [[e|]|]; [by apply good_fork|..|apply good_blocked].
    destruct (or_ok x); [|by apply good_fail]. apply new_good. intros w' _ _ Hk. by cbn.
  - destruct (runDetachedOp _ _ _) as [[e|]|]; [|by apply good_same|apply good_blocked].
    apply good_fork; [done|by cbn|]. cbn. split; [|done]. destruct Ha as [_ Hk]. eauto.
  - destruct (or_ok x); [|by apply good_same]. apply new_good. intros w' _ _ Hk. cbn. eauto.
  - destruct (reserveTracked _ _) as [[i r]|e] eqn:E.
    + destruct Ha as [Hv Hk]. destruct (reserveTracked_ok w gen i r (RObj o, slot) Hw (kind_exists _ _ _ Hk) E) as (_ & _ & _ & Hw' & He & _).
      apply good_next; [done..|]. cbn. split; [|done]. split; [done|]. split; [by apply (ex_kind _ _ He)|]. by rewrite lookup_insert_eq.
    + apply good_same; [done|]. cbn. split; [|done]. destruct Ha as [_ Hk]. eauto.
  - destruct Ha as (Hv & Hk & Hi). destruct (get_obj_kind _ _ _ Hk) as (ob & -> & Ho & Hl). cbn [run_bind].
    assert (Hok : obj_ok (w_ids w) o (wrap_object (track_callbacks op i slot) ob)).
    { apply wrap_obj_ok; [by apply Hw|..]; destruct op; cbn; naive_solver. }
    pose proof (wrap_accepts op i slot ob Hl) as Hacc.
    apply good_next; [by eapply world_ok_put|by eapply extends_put|]. cbn. split; [|done]. split; [done|]. split; [|done].
    exists (wrap_object (track_callbacks op i slot) ob). split; [|done]. cbn.
    apply list_lookup_insert_eq. by eapply lookup_lt_Some.
  - destruct Ha as (Hv & Hc & Hi). unfold finishTracked. destruct (is_stale _ _) eqn:Es; cbn [run_bind].
    + apply good_same; [done|]. cbn. destruct Hc as (ob & Ho & _).
      assert (Hk : exists b, kind w o = Some b) by (unfold kind; rewrite Ho; by eexists).
      split_and!; try done. set_solver.
    + apply is_stale_false in Es as (Hup & _ & _).
      destruct (track_ok (w_ids w) (w_router w) slot i (Wrapped o) Hr Hup Hv Hi) as (r & -> & Hr' & _). cbn [run_bind].
      apply good_next; [by apply world_ok_router|by apply extends_same|]. by cbn.
Qed.

(** Unregistering the ids of a callback set that was run. *)
Local Lemma unregister_acts_ok w' h o (cbs : list (nat * Z)) : RObj o ∈ h ->
  (forall i slot, (i, slot) ∈ cbs -> w_ids w' !! i = Some (RObj o, slot) /\ routerValidSlot slot = true) ->
  thread_ok w' h (map (fun '(i, slot) => AUnregister i slot) cbs).
Proof.
  intros Ho. induction cbs as [|[i slot] cbs IH]; cbn; [done|]. intros H. split; [|apply IH; set_solver].
  destruct (H i slot) as [Hi Hv]; [set_solver|]. split; [by right|]. exists (RObj o). set_solver.
Qed.

Lemma exec_object_good h a : act_ok w h a -> good w h (exec_object x w a).
Proof.
  intros Ha. pose proof (wo_router _ Hw) as Hr. destruct a; try apply good_blocked; cbn [exec_object act_ok] in *.
  - destruct Ha as [b Hk]. destruct (get_obj_kind _ _ _ Hk) as (ob & -> & _). cbn [run_bind].
    apply good_same; [done|]. destruct (ob_own ob); cbn; split_and!; eauto. set_solver.
  - destruct Ha as [[b Hk] Hh]. destruct (get_obj_kind _ _ _ Hk) as (ob & -> & Ho & _). cbn [run_bind runBeforeClose].
    pose proof (wo_objs _ Hw o ob Ho) as Hok. pose proof (oo_before _ _ _ Hok) as Hb.
    assert (Hok' : obj_ok (w_ids w) o (set_set (MkSet true [] [] []) ob)).
    { split; cbn; intros; exfalso; by eapply not_elem_of_nil. }
    assert (Hacc : accepts ob -> accepts (set_set (MkSet true [] [] []) ob)) by (intros _ _; by left).
    apply good_next; [by eapply world_ok_put|by eapply extends_put|]. by eapply unregister_acts_ok.
  - destruct Ha as [Hv (f & Hi & _)]. destruct (unregister_ok _ _ _ _ _ Hr Hi Hv) as (r & -> & Hr' & _). cbn [run_bind].
    apply good_next; [by apply world_ok_router|by apply extends_same|done].
  - destruct Ha as [b Hk]. destruct (get_obj_kind _ _ _ Hk) as (ob & -> & Ho & _). cbn [run_bind].
    assert (Hok' : obj_ok (w_ids w) o (set_open false ob)) by (destruct (wo_objs _ Hw o ob Ho); by split).
    apply good_next; [by eapply world_ok_put|by eapply extends_put|done].
  - destruct Ha as [Hc Hk]. destruct (get_obj_kind _ _ _ Hk) as (ob & -> & Ho & _). cbn [run_bind].
    destruct (or_ok x); [|by apply good_fail]. apply new_good. intros w' _ He Hk'. cbn. split; [|done].
    split; [by apply (ex_callbacks _ _ He)|]. split; [by apply (ex_kind _ _ He)|done].
  - destruct Ha as ((ob & Ho & Hacc) & Hk & Hk'). unfold get_obj. rewrite Ho. cbn [must run_bind].
    destruct (kind_lookup _ _ _ Hk) as (ob' & Ho' & Hl). rewrite Ho in Ho'. injection Ho' as <-. specialize (Hacc Hl).
    destruct (wo_objs _ Hw l ob Ho) as [_ Hv1 Hv2].
    destruct tcp; unfold runOnAccept, runOnAcceptTCP; (destruct (cs_stopped (ob_set ob));
      [apply good_same; [done|]; cbn; split; [eauto|done]|]); (destruct Hacc as [?|[? ?]]; [done|]); apply good_same; by cbn.
  - destruct Ha as (Hk & Hs & Hne). destruct slots as [|slot slots].
    + apply good_same; [done|]. cbn. split; [|done]. destruct (kind_lookup _ _ _ Hk) as (ob & Ho & Hl).
      exists ob. split; [done|]. unfold accepts. by rewrite Hl.
    + assert (Hv : routerValidSlot slot = true) by (apply Hs; set_solver). unfold subscribeCloser_conn.
      assert (Hclose : good w h (next w (closer_acts (if wrapped then Wrapped o else Plain o) ++ fail ErrClosed))).
      { apply good_same; [done|]. destruct wrapped; cbn; split_and!; eauto. set_solver. }
      destruct (rt_closed (w_router w)) eqn:Ec; [done|]. replace (0 <? slot) with true by (apply valid_slot_range in Hv; lia).
      destruct (rt_up (w_router w)) eqn:Eu; [|done]. cbn [andb negb].
      set (i := tk_nextID (rt_tracked (w_router w))). set (c := if wrapped then Wrapped o else Plain o) in *.
      assert (Href : closer_ref c = RObj o) by (by destruct wrapped).
      assert (Hr' : router_ok (<[i := (RObj o, slot)]> (w_ids w)) (next_id (w_router w))).
      { destruct Hr as [H1 H2 H3 H4 H5]. split; try done. by apply tracked_ok_reserve. }
      destruct (track_ok _ _ slot i c Hr' Eu Hv) as (r & -> & Hr'' & _); [by rewrite lookup_insert_eq, Href|]. cbn [run_bind].
      apply good_next; [apply world_ok_reserve; [done|by eapply kind_exists|done]|by apply extends_ids|]. cbn. split; [|done]. split_and!; try done.
      * intros s Hin. apply Hs. set_solver.
      * by rewrite lookup_insert_eq.
  - destruct Ha as (Hk & Hv & Hs & Hi). destruct (get_obj_kind _ _ _ Hk) as (ob & -> & Ho & Hl). cbn [run_bind].
    set (cb := MkCallbacks (Some (i, slot)) None None).
    assert (Hok : obj_ok (w_ids w) o (wrap_object cb ob)). { apply wrap_obj_ok; [by apply Hw|..]; naive_solver. }
    assert (Hacc : accepts ob -> accepts (wrap_object cb ob)). { intros _. unfold accepts. cbn. by rewrite Hl. }
    apply good_next; [by eapply world_ok_put|by eapply extends_put|]. cbn. split; [|done]. split; [|done].
    by apply (ex_kind _ _ (extends_put w o ob (wrap_object cb ob) Ho eq_refl Hacc)).
Qed.

Local Lemma close_sockets_ok w' h os : (forall o, o ∈ os -> obj_exists w' o) -> thread_ok w' h (map ACloseOwn os).
Proof.
  induction os as [|o os IH]; cbn; [done|]. intros H. split; [|apply IH; set_solver]. apply exists_kind, H. set_solver.
Qed.

Local Lemma put_udp_good h u c acts : udp_ok (w_ids w) (length (w_objs w)) u c -> thread_ok (put_udp w u c) h acts ->
  good w h (next (put_udp w u c) acts).
Proof. intros H1 H2. apply good_next; [by apply world_ok_put_udp|apply extends_put_udp|done]. Qed.

(** The sockets that a listener opens when it is tracked. *)
Local Lemma attach_acts_ok w' h u slots (backends : list (option nat)) : udp_exists w' u ->
  thread_ok w' h (omap (fun '(slot, b) => AUdpAttach u slot <$> b) (zip slots backends)).
Proof.
  intros Hu. revert backends. induction slots as [|s slots IH]; intros [|b backends]; try done. cbn.
  destruct b; cbn; [split; [done|]|]; apply IH.
Qed.

(** What the listener can do when its mutex was free: [AUdpCloseLocked] needs it
    open. *)
Definition can_run (a : action) : Prop :=
  match a with
  | ACloseDone ch => ch ∉ w_chclosed w
  | AUdpCloseLocked u => exists c, w_udps w !! u = Some c /\ uc_once c = true /\ uc_closed c = false
  | _ => True
  end.

Local Lemma get_udp_ok u : udp_exists w u -> exists c, get_udp w u = Done c /\ udp_ok (w_ids w) (length (w_objs w)) u c.
Proof. intros (c & Hc1 & Hc2)%get_udp_exists. exists c. split; [done|]. by apply Hw. Qed.

Lemma exec_listen_good h a : act_ok w h a -> good w h (exec_listen x w a).
Proof.
  intros Ha. pose proof (wo_router _ Hw) as Hr. destruct a; try apply good_blocked; cbn [exec_listen act_ok] in *.
  - destruct (IsUDPNetwork _); [|by apply good_fail]. cbn [negb]. destruct (begin _) as [[gen done]|e]; [by apply good_same|by apply good_fail].
  - destruct (resolveNetAddr _ _ _) as [a|]; [|by apply good_fail]. destruct (SplitHostPort a); [by apply good_same|by apply good_fail].
  - apply good_same; [done|]. by destruct (or_ok x).
  - destruct (runDetachedOp _ _ _) as [[e|]|]; [by apply good_fork|..|apply good_blocked].
    apply good_next; [by apply world_ok_new_udp|split; cbn; rewrite ?length_app; try done; lia|].
    cbn. split; [|done]. unfold udp_exists. cbn. rewrite length_app. cbn. lia.
  - destruct (runDetachedOp _ _ _) as [[e|]|]; [by apply good_fork|by apply good_same|apply good_blocked].
  - apply good_next; [by apply world_ok_new_udp|split; cbn; rewrite ?length_app; try done; lia|].
    cbn. split; [|done]. unfold udp_exists. cbn. rewrite length_app. cbn. lia.
  - destruct (reserveTracked _ _) as [[i r]|e] eqn:E.
    + destruct (reserveTracked_ok w gen i r (RUdp u, 0) Hw Ha E) as (_ & _ & _ & Hw' & He & _). apply good_next; [done..|].
      cbn. split; [|done]. split; [done|]. by rewrite lookup_insert_eq.
    + by apply good_same.
  - destruct Ha as [Hu Hi]. destruct (get_udp_ok u Hu) as (c & -> & Hok). cbn [run_bind].
    assert (Hok' : udp_ok (w_ids w) (length (w_objs w)) u (set_beforeClose c i)).
    { destruct Hok as [H1 H2 H3 H4]. split; try done. cbn. by intros ? [= <-]. }
    assert (Hex : udp_exists (put_udp w u (set_beforeClose c i)) u) by (unfold udp_exists; cbn; by rewrite length_insert).
    unfold trackRouterUDPConn. destruct (is_stale _ _) eqn:Es; [by apply put_udp_good|].
    apply is_stale_false in Es as (Hup & _ & _). apply good_next.
    + apply world_ok_router; [by apply world_ok_put_udp|]. destruct Hr as [H1 H2 H3 H4 H5]. split; try done; [by apply tracked_ok_udp|].
      intros E. unfold rt_up in *. cbn in E. congruence.
    + apply extends_same; cbn; try done. by rewrite length_insert.
    + rewrite thread_ok_app. split; [by apply attach_acts_ok|]. by cbn.
Qed.

Lemma exec_socket_good h a : act_ok w h a -> can_run a -> good w h (exec_socket x w a).
Proof.
  intros Ha Hc. destruct a; try apply good_blocked; cbn [exec_socket act_ok can_run] in *.
  - destruct (routerValidSlot slot) eqn:Hv; cbn [negb]; [|by apply good_same]. destruct (or_ok x); [|by apply good_same].
    apply new_good. intros w' -> He Hk. cbn. split; [|done]. split_and!; eauto.
  - destruct Ha as (Hu & Hv & b & Hk). destruct (get_udp_ok u Hu) as (c & -> & Hok). cbn [run_bind].
    destruct (get_obj_kind _ _ _ Hk) as (ob & -> & _). cbn [run_bind].
    pose proof (kind_exists _ _ _ Hk) as Hlt.
    destruct (attachBackend_ok _ _ _ _ slot o (ob_addr ob) Hok Hv Hlt) as (res & -> & Hres). cbn [run_bind].
    destruct res as [[c' old]|]; [|apply good_same; [done|]; cbn; eauto].
    destruct (Hres c' old eq_refl) as (Hok' & _ & _ & _ & _ & _ & Hold).
    apply put_udp_good; [done|]. rewrite thread_ok_app. split.
    + apply close_sockets_ok. intros o' Hin. unfold obj_exists. cbn. destruct old as [p|]; set_solver.
    + cbn. split; [|done]. split; [unfold udp_exists; cbn; by rewrite length_insert|by exists b].
  - destruct (or_ok x); [|by apply good_same]. destruct Ha as [Hu [b Hk]].
    edestruct (world_ok_other w (with_readers w (w_readers w ++ [(u, slot, o)]))) as [G1 G2]; cbn; [done..|apply Hw| |apply Hw|apply Hw|by apply good_next].
    intros u' s' o' [Hin|Hin]%elem_of_app; [by apply (wo_readers _ Hw _ s')|].
    apply list_elem_of_singleton in Hin. simplify_eq. split; [done|by eapply kind_exists].
  - destruct Ha as [Hu [b Hk]]. destruct (get_udp_ok u Hu) as (c & -> & Hok). cbn [run_bind].
    destruct (closeBackend_ok _ _ _ _ slot o Hok) as (c' & -> & Hok' & _). cbn [run_bind].
    apply put_udp_good; [done|]. cbn. split; [|done]. by exists b.
  - destruct (get_udp_ok u Ha) as (c & -> & Hok). cbn [run_bind].
    destruct (detachBackend_ok _ _ _ _ slot Hok) as (c' & bc & -> & Hok' & _ & _ & Hbc & _). cbn [run_bind].
    apply put_udp_good; [done|]. apply close_sockets_ok. intros o Hin. unfold obj_exists. cbn. destruct bc as [p|]; set_solver.
  - destruct (get_udp_ok u Ha) as (c & -> & Hok). cbn [run_bind]. unfold close_enter. destruct (uc_once c) eqn:Eo; [by apply good_same|].
    destruct Hok as [H1 H2 H3 H4]. apply put_udp_good; [split; try done; cbn; intros Hcl; by destruct (H3 Hcl)|].
    rewrite thread_ok_app. split.
    + cbn. destruct (uc_beforeClose c) as [i|]; [|done]. cbn. split; [|done]. split; [by left|]. exists (RUdp u). split; [by apply H2|set_solver].
    + cbn. split; [|done]. unfold udp_exists. cbn. by rewrite length_insert.
  - destruct (get_udp_ok u Ha) as (c & Hg & Hok). rewrite Hg. cbn [run_bind]. destruct Hc as (c0 & Hc0 & Ho & Hcl).
    unfold get_udp in Hg. rewrite Hc0 in Hg. injection Hg as ->.
    destruct (close_locked_ok _ _ _ _ Hok Ho Hcl) as (c' & os & -> & Hok' & _ & _ & _ & Hos). cbn [run_bind].
    apply put_udp_good; [done|]. by apply close_sockets_ok.
Qed.

Lemma exec_packet_good h a : act_ok w h a -> good w h (exec_packet x w a).
Proof.
  intros Ha. pose proof (wo_router _ Hw) as Hr. destruct a; try apply good_blocked; cbn [exec_packet act_ok] in *.
  - destruct (get_udp_ok u Ha) as (c & -> & Hok). cbn [run_bind]. destruct (WriteTo_begin _ _); [by apply good_same|by apply good_fail].
  - destruct (get_udp_ok u Ha) as (c & -> & Hok). cbn [run_bind]. destruct (routeUDP_cfg _); [by apply good_same|by apply good_fail].
  - destruct (get_udp_ok u Ha) as (c & -> & Hok). cbn [run_bind]. unfold routeUDP_slot.
    destruct (routerValidSlot slot) eqn:Hv; cbn [negb run_bind]; [|by apply good_fail].
    destruct (is_stopped _); [by apply good_fail|]. destruct (index_slot (rt_slots (w_router w)) slot (tb_slots _ (ro_table _ _ Hr)) Hv) as [b ->].
    destruct b; [|by apply good_fail]. by apply good_same.
  - destruct Ha as [Hu Hv]. destruct (get_udp_ok u Hu) as (c & -> & Hok). cbn [run_bind].
    destruct (backend_at_ok _ _ _ _ _ Hok Hv) as (b & -> & _ & Hb). cbn [run_bind].
    destruct b as [o|]; (apply good_same; [done|]); cbn; split_and!; try done. by apply exists_kind, Hb.
  - destruct Ha as [Hu Hv]. destruct (get_udp_ok u Hu) as (c & -> & Hok). cbn [run_bind].
    destruct (backend_at_ok _ _ _ _ _ Hok Hv) as (b & -> & _ & Hb). cbn [run_bind].
    destruct b as [o|]; [|by apply good_fail]. apply good_same; [done|]. cbn. split_and!; try done. by apply exists_kind, Hb.
  - destruct (or_ok x); by apply good_same.
  - destruct (get_udp_ok u Ha) as (c & -> & Hok). cbn [run_bind]. destruct (ReadFrom_begin _); [by apply good_same|by apply good_fail].
  - destruct (get_udp_ok u Ha) as (c & -> & Hok). cbn [run_bind].
    destruct (ReadFrom_select _ _ _ _) as [[[[data addr]|e] c']|] eqn:E; [..|apply good_blocked];
      (apply put_udp_good; [|done]; apply ReadFrom_select_queue in E as [q ->]; by apply set_readCh_ok).
Qed.

(** Closing what was tracked. *)
Local Lemma closeAll_ok w' h cs : (forall c, c ∈ cs -> ref_exists w' (closer_ref c)) -> thread_ok w' h (closeAll cs).
Proof.
  induction cs as [|c cs IH]; cbn; [done|]. intros H. rewrite thread_ok_app. split; [|apply IH; set_solver].
  assert (Hc : ref_exists w' (closer_ref c)) by (apply H; set_solver).
  destruct c; cbn in *; [|split; [|done]; by apply exists_kind|by split].
  apply exists_kind in Hc. split_and!; try done. set_solver.
Qed.

(** Statements that refer to nothing. *)
Local Lemma plain_ok w' h acts : (forall h' a, a ∈ acts -> act_ok w' h' a) -> thread_ok w' h acts.
Proof. induction acts as [|a acts IH]; cbn; [done|]. intros H. split; [apply H; set_solver|apply IH; set_solver]. Qed.

Ltac plain := apply plain_ok; intros ? ? Hin; try (apply list_elem_of_fmap in Hin as (? & -> & _)); done.

Local Lemma closeTransition_ok w' h r r' t : transits r r' t ->
  (forall i c, rt_closers r !! i = Some c -> ref_exists w' (closer_ref c)) -> thread_ok w' h (closeTransition t).
Proof.
  intros Ht Hc. unfold closeTransition. rewrite thread_ok_app. split; [plain|].
  destruct Ht as [? ? ? ? ? ->|us ? ? ? ? ? ? ->|us cs ? ? ? ? ? ? Hcs ->]; cbn [tr_up tr_closers tr_updowns no_transition]; [done|plain|].
  rewrite thread_ok_app. split; [|plain]. apply closeAll_ok. intros c [i Hi]%Hcs. by eapply Hc.
Qed.

Local Lemma tracked_refs i c : rt_closers (w_router w) !! i = Some c -> ref_exists w (closer_ref c).
Proof. intros Hi. destruct (to_closers _ _ (ro_tracked _ _ (wo_router _ Hw)) i c Hi) as [s Hs]. by apply (wo_refs _ Hw i _ s). Qed.

Local Lemma router_good h r acts : router_ok (w_ids w) r -> thread_ok (with_router w r) h acts -> good w h (next (with_router w r) acts).
Proof. intros H1 H2. apply good_next; [by apply world_ok_router|by apply extends_same|done]. Qed.

Local Lemma replaced_ok h slot backend p : routerValidSlot slot = true ->
  (forall c, c ∈ rp_old p -> ref_exists w (closer_ref c)) -> (forall u, u ∈ rp_udp p -> udp_exists w u) ->
  (forall h', thread_ok (with_router w (rp_router p)) h' (closeTransition (rp_stopped p))) ->
  thread_ok (with_router w (rp_router p)) h
    (unsubscribe (rp_unsub p) ++ closeTransition (rp_stopped p) ++ closeAll (rp_old p) ++
     match backend with
     | Some b => AWatch slot b :: flat_map (fun u => [AUdpDetach u slot; AUdpAttach u slot b]) (rp_udp p)
     | None => map (fun u => AUdpDetach u slot) (rp_udp p)
     end ++ [AReturn RetOK]).
Proof.
  intros Hv Ho Hu Ht. rewrite !thread_ok_app. split_and!; [plain|done|by apply closeAll_ok| |done].
  destruct backend as [b|].
  - cbn. split; [done|]. apply plain_ok. intros h' a Hin. apply list_elem_of_In, in_flat_map in Hin as (u & Hin%list_elem_of_In & Ha).
    apply Hu in Hin. cbn in Ha. by destruct Ha as [<-|[<-|[]]].
  - apply plain_ok. intros h' a (u & -> & Hin)%list_elem_of_fmap. by apply Hu.
Qed.

Lemma exec_slot_good h slot backend up : routerValidSlot slot = true -> good w h (exec_life x w (AReplace slot backend up)).
Proof.
  intros Hv. pose proof (wo_router _ Hw) as Hr. cbn [exec_life].
  destruct (replaceSlot_ok _ (or_seed x) slot backend up _ Hr Hv) as (res & -> & Hres). cbn [run_bind].
  destruct res as [p|]; [|by apply good_fail].
  destruct (Hres p eq_refl) as (Hr' & r1 & mine & Hm & Hc1 & _ & _ & Hold & Hudp & Ht).
  apply router_good; [done|]. apply replaced_ok; [done|..].
  - intros c [i Hi]%Hold. apply (tracked_refs i). by apply (to_bySlot _ _ (ro_tracked _ _ Hr) _ mine i c Hm Hi).
  - intros u [i Hi]%Hudp. apply (to_udp _ _ (ro_tracked _ _ Hr)) in Hi as [_ Hi]. by apply (wo_refs _ Hw) in Hi.
  - intros h'. eapply closeTransition_ok; [done|]. rewrite Hc1. intros i c Hi. rewrite lookup_forget in Hi. case_decide; [|done].
    by apply (tracked_refs i).
Qed.

Local Lemma other_good h w' acts : w_router w' = w_router w -> w_objs w' = w_objs w -> w_udps w' = w_udps w -> w_ids w' = w_ids w ->
  (forall s, s ∈ w_subs w' -> routerValidSlot (su_slot s) = true) -> w_readers w' = w_readers w ->
  (forall o, RetObj o ∈ w_returned w' -> callbacks_ok w o) -> (forall u, RetUdp u ∈ w_returned w' -> udp_exists w u) ->
  thread_ok w' h acts -> good w h (next w' acts).
Proof.
  intros E1 E2 E3 E4 H1 H2 H3 H4 H5. edestruct (world_ok_other w w') as [G1 G2]; try done; [|by apply good_next].
  rewrite H2. apply Hw.
Qed.

Lemma exec_life_good h a : act_ok w h a -> can_run a -> good w h (exec_life x w a).
Proof.
  intros Ha Hc. pose proof (wo_router _ Hw) as Hr.
  assert (Hrefs : forall i c, rt_closers (w_router w) !! i = Some c -> forall r, ref_exists (with_router w r) (closer_ref c)).
  { intros i c Hi r. by apply (tracked_refs i). }
  destruct a; try apply good_blocked; cbn [act_ok can_run] in *; try (by apply exec_slot_good); cbn [exec_life].
  - destruct (Up_locked _ _) as [[r t]|] eqn:E; [|by apply good_fail]. eapply Up_locked_ok in E as [G1 G2]; [|done].
    apply router_good; [done|]. rewrite thread_ok_app. split; [|done]. eapply closeTransition_ok; [done|]. eauto.
  - destruct (Down_locked _ _) as [[r t]|] eqn:E; [|by apply good_same]. eapply Down_locked_ok in E as [G1 G2]; [|done].
    apply router_good; [done|]. rewrite thread_ok_app. split; [|done]. eapply closeTransition_ok; [done|]. eauto.
  - destruct (closePrep _ _) as [r c] eqn:E. eapply closePrep_ok in E as (G1 & _ & _ & _ & _ & _ & _ & _ & _ & G2); [|done].
    apply router_good; [done|]. rewrite !thread_ok_app. split_and!; try plain; [|done]. apply closeAll_ok. intros d [i Hi]%G2. eauto.
  - destruct (routerValidSlot slot) eqn:Hv; [|by apply good_fail]. by apply good_same.
  - unfold watchSlot_gen. destruct (index_slot (st_slotGen (rt_table (w_router w))) slot (tb_slotGen _ (ro_table _ _ Hr)) Ha) as [g ->].
    by apply good_same.
  - destruct (or_sub x); [|by apply good_same]. apply other_good; cbn; try apply Hw; try done.
    + intros s [Hin| ->%list_elem_of_singleton]%elem_of_app; [by apply Hw|done].
    + by destruct (or_up x).
  - by apply good_same.
  - destruct (setSlotUp_ok _ (or_seed x) slot gen up sub _ Hr Ha) as (res & -> & Hres). cbn [run_bind].
    destruct res as [[[r t] old]|]; [|apply good_same; [done|plain]].
    destruct (Hres r t old eq_refl) as [G1 G2]. apply router_good; [done|]. rewrite thread_ok_app. split; [|plain].
    eapply closeTransition_ok; [done|]. eauto.
  - apply other_good; cbn; try apply Hw; try done. intros s' (k & Hk)%list_elem_of_lookup.
    rewrite list_lookup_alter in Hk. case_decide; [|apply Hw; by eapply list_elem_of_lookup_2].
    apply fmap_Some in Hk as (s0 & E & ->). cbn. apply Hw. by eapply list_elem_of_lookup_2.
  - rewrite bool_decide_false by done. apply other_good; cbn; try apply Hw; done.
  - apply other_good; cbn; try apply Hw; done.
  - apply other_good; cbn; try apply Hw; done.
  - destruct (SubscribeUpDown_locked _ _) as [[r i] down] eqn:E. injection E as <- _ _.
    apply router_good; [by destruct Hr|]. rewrite thread_ok_app. split; [plain|done].
  - destruct (subscribeCloser_user _ _) as [[r i]|] eqn:E; [|by apply good_same]. unfold subscribeCloser_user in E.
    destruct (rt_closed _); [done|]. injection E as <- _. apply router_good; [by destruct Hr|done].
  - apply router_good; [by destruct Hr|done].
  - apply router_good; [by destruct Hr|done].
  - apply router_good; [by destruct Hr|done].
  - apply router_good; [by destruct Hr|done].
Qed.

Lemma exec_lookup_good h a : act_ok w h a -> good w h (exec_lookup x w a).
Proof.
  intros Ha. pose proof (wo_router _ Hw) as Hr. destruct a; try apply good_blocked; cbn [exec_lookup act_ok] in *.
  - destruct (resolverSnapshot _); by apply good_same.
  - destruct (begin _) as [[gen done]|e]; [by apply good_same|by apply good_fail].
  - destruct (beginLookup_cfg _); [by apply good_same|by apply good_fail].
  - unfold beginLookup_slot. destruct (is_stopped _); [by apply good_fail|].
    destruct (slot_backend_safe _ slot _ Hr) as (b & -> & Hb). cbn. destruct b; [by apply good_same|by apply good_fail].
  - destruct (runDetachedOp _ _ _) as [[e|]|]; [by apply good_fail|..|apply good_blocked]. apply good_same; [done|]. by destruct (or_ok x).
  - apply other_good; cbn; try apply Hw; try done.
    + intros o [Hin|<-%list_elem_of_singleton]%elem_of_app; [by apply Hw|done].
    + intros u [Hin|<-%list_elem_of_singleton]%elem_of_app; [by apply Hw|done].
Qed.

(** Executing a statement keeps the invariants and does not panic. *)
Lemma exec_good h a : act_ok w h a -> can_run a -> good w h (exec x w a).
Proof.
  intros Ha Hc. destruct a; first
    [by apply exec_op_good|by apply exec_object_good|by apply exec_listen_good|by apply exec_socket_good
    |by apply exec_packet_good|by apply exec_lookup_good|by apply exec_life_good].
Qed.
End Exec.
