(* ===== verification/RouterChannels.v ===== *)
(** * The network router: channels, waiting operations and closing listeners

    A generation of the Router has a channel that is closed when the Router goes
    down.  In every interleaving the channel of the current generation is open
    while the Router is up, no channel is closed twice, an operation waits on the
    channel of its generation, and when that generation is over its channel is
    closed or a thread is about to close it.  Likewise each UDP listener is
    closed by one thread. *)

From S2P Require Import Prelude GoStd NetIP Reject Callbacks NetRouter RouterUDP RouterSys RouterInv RouterThreads RouterSafe.

(** ** What statements wait for and close *)

(** The generation, when the statement checks it, and the channel that an
    operation in progress waits for. *)
Definition wait_of (a : action) : option (option nat * nat) :=
  match a with
  | AResolve _ _ gen done | ASelect _ gen done | ARoute _ gen done _ | ACall _ gen done _ _ | AWait _ gen done _ _
  | AReady _ gen done _ _ | AUdpResolve _ _ gen done | AUdpCall _ _ gen done | AUdpWait _ _ gen done | AUdpReady gen done _ =>
      Some (Some gen, done)
  | ALookupWait done => Some (None, done)
  | _ => None
  end.

Definition special (a : action) : bool := match a with ACloseDone _ | AUdpCloseLocked _ => true | _ => false end.

Definition quiet_act (a : action) : Prop := special a = false /\ wait_of a = None.

Definition closing_udp (a : action) : option nat := match a with AUdpCloseLocked u => Some u | _ => None end.
Definition closing_ch (a : action) : option nat := match a with ACloseDone ch => Some ch | _ => None end.

(** The listeners and the channels that threads are about to close. *)
Definition closing_udps (t : thread) : list nat := omap closing_udp t.
Definition closing_chs (t : thread) : list nat := omap closing_ch t.

Lemma quiet_closing acts : Forall (fun a => special a = false) acts -> closing_udps acts = [] /\ closing_chs acts = [].
Proof.
  induction 1 as [|a acts Ha _ [IH1 IH2]]; [done|]. unfold closing_udps, closing_chs in *. cbn. rewrite IH1, IH2.
  by destruct a.
Qed.

Lemma quiet_map {A} (f : A -> action) l : (forall y, quiet_act (f y)) -> Forall quiet_act (map f l).
Proof. intros H. apply Forall_fmap, Forall_true. intros y. apply H. Qed.

Lemma quiet_closeAll cs : Forall quiet_act (closeAll cs).
Proof.
  induction cs as [|c cs IH]; [by constructor|]. cbn. apply Forall_app. split; [|done]. destruct c; by repeat constructor.
Qed.

Lemma quiet_updown t : Forall quiet_act (if tr_up t then upAll (tr_updowns t) else closeAll (tr_closers t) ++ downAll (tr_updowns t)).
Proof.
  destruct (tr_up t); [by apply quiet_map|]. apply Forall_app. split; [apply quiet_closeAll|by apply quiet_map].
Qed.

(** ** Steps of the lifecycle *)

(** [closing]: the channel that the thread closes next. *)
Inductive life_step (r r' : Router) : option nat -> Prop :=
| life_same : rt_up r' = rt_up r -> rt_gen r' = rt_gen r -> rt_done r' = rt_done r ->
    lf_channels (rt_life r') = lf_channels (rt_life r) -> life_step r r' None
| life_up : rt_up r = false -> rt_up r' = true -> rt_gen r' = S (rt_gen r) -> rt_done r' = lf_channels (rt_life r) ->
    lf_channels (rt_life r') = S (lf_channels (rt_life r)) -> life_step r r' None
| life_down : rt_up r = true -> rt_up r' = false -> rt_gen r' = S (rt_gen r) -> rt_done r' = rt_done r ->
    lf_channels (rt_life r') = lf_channels (rt_life r) -> life_step r r' (Some (rt_done r))
| life_closed : rt_up r = false -> rt_up r' = false -> (rt_gen r <= rt_gen r')%nat -> rt_done r' = rt_done r ->
    lf_channels (rt_life r') = lf_channels (rt_life r) -> life_step r r' None.

Lemma transits_life r r' t : transits r r' t -> life_step r r' (tr_done t).
Proof. intros [? ? ? ? ? ->|us ? ? ? ? ? ? ->|us cs ? ? ? ? ? ? ? ->]; cbn; [by apply life_same|by apply life_up|by apply life_down]. Qed.

Lemma life_step_eq r0 r r' c : rt_life r0 = rt_life r -> life_step r0 r' c -> life_step r r' c.
Proof.
  intros El []; unfold rt_up, rt_gen, rt_done in *; rewrite El in *;
    [by apply life_same|by apply life_up|by apply life_down|by apply life_closed].
Qed.

(** A listener that a thread is closing. *)
Definition pending (w : world) (u : nat) : Prop := exists c, w_udps w !! u = Some c /\ uc_once c = true /\ uc_closed c = false.

(** Waits for the current generation, or for what the statement before waited
    for. *)
Definition follows (w : world) (a b : action) : Prop :=
  special b = false /\
  (wait_of b = None \/ wait_of b = wait_of a \/
   rt_up (w_router w) = true /\
   (wait_of b = Some (Some (rt_gen (w_router w)), rt_done (w_router w)) \/ wait_of b = Some (None, rt_done (w_router w)))).

Inductive shape (w : world) (a : action) (w' : world) (acts : list action) : Prop :=
| sh_plain : special a = false -> rt_life (w_router w') = rt_life (w_router w) -> w_chclosed w' = w_chclosed w ->
    (forall u, pending w' u <-> pending w u) -> Forall (follows w a) acts -> shape w a w' acts
| sh_life closing l1 l2 : special a = false -> w_chclosed w' = w_chclosed w -> w_udps w' = w_udps w ->
    acts = l1 ++ map ACloseDone (option_list closing) ++ l2 -> Forall quiet_act l1 -> Forall quiet_act l2 ->
    life_step (w_router w) (w_router w') closing -> shape w a w' acts
| sh_closeDone ch : a = ACloseDone ch -> ch ∉ w_chclosed w -> acts = [] -> w_chclosed w' = {[ch]} ∪ w_chclosed w ->
    w_router w' = w_router w -> w_udps w' = w_udps w -> shape w a w' acts
| sh_enter u l : a = AUdpClose u -> ~ pending w u -> (forall v, pending w' v <-> pending w v \/ v = u) ->
    rt_life (w_router w') = rt_life (w_router w) -> w_chclosed w' = w_chclosed w ->
    acts = l ++ [AUdpCloseLocked u] -> Forall quiet_act l -> shape w a w' acts
| sh_locked u : a = AUdpCloseLocked u -> (forall v, pending w' v <-> pending w v /\ v <> u) ->
    rt_life (w_router w') = rt_life (w_router w) -> w_chclosed w' = w_chclosed w -> Forall quiet_act acts -> shape w a w' acts.

(** ** Listeners that change *)

Lemma pending_put w u c c' : w_udps w !! u = Some c -> uc_once c' = uc_once c -> uc_closed c' = uc_closed c ->
  forall v, pending (put_udp w u c') v <-> pending w v.
Proof.
  intros Hc H1 H2 v. pose proof (lookup_lt_Some _ _ _ Hc) as Hlt. unfold pending. cbn.
  destruct (decide (v = u)) as [->|Hne]; [|by rewrite list_lookup_insert_ne].
  rewrite list_lookup_insert_eq by done. split; intros (d & Hd & G1 & G2); simplify_eq.
  - exists c. split_and!; congruence.
  - exists c'. split_and!; congruence.
Qed.

Lemma pending_new w network laddr u : pending (with_udps w (w_udps w ++ [newRouterUDPConn network laddr])) u <-> pending w u.
Proof.
  unfold pending. cbn. split; intros (c & Hc & H1 & H2).
  - apply lookup_app_Some in Hc as [Hc|[_ Hc]]; [by exists c|]. apply list_lookup_singleton_Some in Hc as [_ <-]. done.
  - exists c. split; [|done]. by apply lookup_app_l_Some.
Qed.

Lemma quiet_follows w a acts : Forall quiet_act acts -> Forall (follows w a) acts.
Proof. intros H. eapply Forall_impl; [exact H|]. intros b [H1 H2]. split; [done|by left]. Qed.

(** The usual case: the statement changes neither lifecycle nor listeners. *)
Lemma shape_same w a w' acts : special a = false -> rt_life (w_router w') = rt_life (w_router w) ->
  w_chclosed w' = w_chclosed w -> w_udps w' = w_udps w -> Forall (follows w a) acts -> shape w a w' acts.
Proof. intros H1 H2 H3 H4 H5. apply sh_plain; try done. intros u. unfold pending. by rewrite H4. Qed.

Lemma track_life slot i c r r' : track slot i c r = Done r' -> rt_life r' = rt_life r.
Proof. unfold track. destruct (0 <? slot); [destruct (index _ _); [|done]|]; by intros [= <-]. Qed.

Lemma unregister_life i slot r r' : unregister i slot r = Done r' -> rt_life r' = rt_life r.
Proof. unfold unregister. destruct (0 <? slot); [destruct (index _ _); [|done]|]; by intros [= <-]. Qed.

Lemma bind_Done {A B} (c : run A) (k : A -> run B) y : run_bind c k = Done y -> exists a, c = Done a /\ k a = Done y.
Proof. destruct c; [|done..]. eauto. Qed.

Lemma get_obj_Done w o ob : get_obj w o = Done ob -> w_objs w !! o = Some ob.
Proof. unfold get_obj. destruct (w_objs w !! o); [|done]. by intros [= ->]. Qed.

Lemma get_udp_Done w u c : get_udp w u = Done c -> w_udps w !! u = Some c.
Proof. unfold get_udp. destruct (w_udps w !! u); [|done]. by intros [= ->]. Qed.

(** A statement in progress: what its sections and calls returned. *)
Ltac sections :=
  repeat match goal with
  | H : run_bind _ _ = Done _ |- _ => let a := fresh "v" in let E := fresh "E" in apply bind_Done in H as (a & E & H)
  | H : next _ _ = Done _ |- _ => unfold next in H
  | H : fork _ _ _ = Done _ |- _ => unfold fork in H
  | H : blocked = Done _ |- _ => unfold blocked in H
  | H : Done _ = Done _ |- _ => injection H as H
  | H : None = Some _ |- _ => done
  | H : Panicked = Done _ |- _ => done
  | H : Some _ = Some _ |- _ => injection H as H
  | H : (_, _) = (_, _) |- _ => injection H as H
  | H : Success _ = Success _ |- _ => injection H as H
  | H : Failure _ = Failure _ |- _ => injection H as H
  | H : Success _ = Failure _ |- _ => done
  | H : Failure _ = Success _ |- _ => done
  | H : get_obj _ _ = Done _ |- _ => apply get_obj_Done in H
  | H : get_udp _ _ = Done _ |- _ => apply get_udp_Done in H
  | H : context [match ?e with _ => _ end] |- _ => lazymatch type of H with _ = _ => let E := fresh "E" in destruct e eqn:E end
  end; repeat match goal with H : _ = ?y |- _ => is_var y; subst y end; subst.

(** The statements that follow wait for nothing new, or for the generation that
    was just read. *)
Ltac follows_tac :=
  first [split; [done|by left] | split; [done|right; by left]
        |split; [done|right; right; split; [by apply is_stopped_false|by auto]]].

Ltac quiet_acts := cbn; repeat first [by apply Forall_nil|apply Forall_cons; split]; try follows_tac.

Lemma quiet_attach_all u backends : Forall quiet_act (attach_all u backends).
Proof.
  apply Forall_forall. intros a ([slot b] & _ & Ha)%list_elem_of_omap. by destruct b; [injection Ha as <-|].
Qed.

Section Shape.
Context (x : oracle) (w : world).

Lemma exec_op_shape a w' acts forked : exec_op x w a = Done (Some (w', acts, forked)) ->
  Forall quiet_act (concat forked) /\ shape w a w' acts.
Proof.
  destruct a; cbn [exec_op]; intros H; try done; unfold begin, reserveTracked, finishTracked in *; sections;
    (split; [by repeat constructor|apply shape_same; try done; quiet_acts]).
  by eapply track_life.
Qed.

Lemma exec_object_shape a w' acts forked : exec_object x w a = Done (Some (w', acts, forked)) ->
  Forall quiet_act (concat forked) /\ shape w a w' acts.
Proof.
  destruct a; cbn [exec_object]; intros H; try done; unfold subscribeCloser_conn in *; sections.
  all: (split; [by repeat constructor|apply shape_same; try done; quiet_acts]).
  - apply quiet_follows, quiet_map. by intros [].
  - by eapply unregister_life.
  - by eapply (track_life _ _ _ (next_id (w_router w))).
  - by eapply (track_life _ _ _ (next_id (w_router w))).
Qed.

Lemma exec_listen_shape a w' acts forked : exec_listen x w a = Done (Some (w', acts, forked)) ->
  Forall quiet_act (concat forked) /\ shape w a w' acts.
Proof.
  destruct a; cbn [exec_listen]; intros H; try done; unfold begin, reserveTracked, trackRouterUDPConn in *; sections.
  all: split; [by repeat constructor|].
  all: try (apply shape_same; try done; quiet_acts; fail).
  all: (apply sh_plain; try done; try (intros v'; by apply pending_new); try (by eapply pending_put); quiet_acts).
  apply Forall_app. split; [apply quiet_follows, quiet_attach_all|by quiet_acts].
Qed.

Lemma exec_packet_shape a w' acts forked : exec_packet x w a = Done (Some (w', acts, forked)) ->
  Forall quiet_act (concat forked) /\ shape w a w' acts.
Proof.
  destruct a; cbn [exec_packet]; intros H; try done; sections.
  all: split; [by repeat constructor|].
  all: try (apply shape_same; try done; quiet_acts; fail).
  all: match goal with E : ReadFrom_select _ _ _ _ = _ |- _ => apply ReadFrom_select_queue in E as [q ->] end.
  all: apply sh_plain; try done; [by eapply pending_put|quiet_acts].
Qed.

Lemma exec_lookup_shape a w' acts forked : exec_lookup x w a = Done (Some (w', acts, forked)) ->
  Forall quiet_act (concat forked) /\ shape w a w' acts.
Proof.
  destruct a; cbn [exec_lookup]; intros H; try done; unfold begin, beginLookup_slot in *; sections.
  all: split; [by repeat constructor|]; apply shape_same; try done; quiet_acts.
Qed.

(** ** Backend sockets *)

Lemma closeBackend_state slot bc c c' : closeBackend slot bc c = Done c' -> uc_once c' = uc_once c /\ uc_closed c' = uc_closed c.
Proof. unfold closeBackend. intros H. sections; done. Qed.

Lemma detachBackend_state slot c c' bc : detachBackend slot c = Done (c', bc) -> uc_once c' = uc_once c /\ uc_closed c' = uc_closed c.
Proof. unfold detachBackend. intros H. sections; done. Qed.

Lemma attachBackend_state slot bc addr c c' old : attachBackend slot bc addr c = Done (Some (c', old)) ->
  uc_once c' = uc_once c /\ uc_closed c' = uc_closed c.
Proof. unfold attachBackend. intros H. sections; done. Qed.

Local Lemma pending_insert u c v : (u < length (w_udps w))%nat ->
  pending (put_udp w u c) v <-> (v = u /\ uc_once c = true /\ uc_closed c = false) \/ (v <> u /\ pending w v).
Proof.
  intros Hlt. unfold pending. cbn. destruct (decide (v = u)) as [->|Hne].
  - rewrite list_lookup_insert_eq by done. naive_solver.
  - rewrite list_lookup_insert_ne by done. naive_solver.
Qed.

Local Lemma enter_shape u c c' : world_ok w -> w_udps w !! u = Some c -> close_enter c = Some c' ->
  shape w (AUdpClose u) (put_udp w u c') (map (fun i => AUnregister i 0) (option_list (uc_beforeClose c')) ++ [AUdpCloseLocked u]).
Proof.
  intros Hw Hc. pose proof (lookup_lt_Some _ _ _ Hc) as Hlt. pose proof (uo_closed _ _ _ _ (wo_udps _ Hw u c Hc)) as Hcl.
  unfold close_enter. destruct (uc_once c) eqn:Eo; [done|]. intros [= <-].
  assert (Hopen : uc_closed c = false). { destruct (uc_closed c); [|done]. by destruct Hcl. }
  assert (Hnp : ~ pending w u). { intros (d & Hd & Hd' & _). rewrite Hc in Hd. injection Hd as <-. congruence. }
  eapply sh_enter; try done; [|by apply quiet_map]. intros v. rewrite pending_insert by done. cbn.
  destruct (decide (v = u)) as [->|Hne]; naive_solver.
Qed.

Local Lemma locked_shape u c c' os : world_ok w -> w_udps w !! u = Some c -> close_locked c = Done (c', os) ->
  shape w (AUdpCloseLocked u) (put_udp w u c') (map ACloseOwn os).
Proof.
  intros Hw Hc. pose proof (lookup_lt_Some _ _ _ Hc) as Hlt. unfold close_locked. destruct (uc_closed c) eqn:E; [done|]. intros [= <- <-].
  eapply sh_locked; try done; [|by apply quiet_map]. intros v. rewrite pending_insert by done. cbn. naive_solver.
Qed.

Lemma exec_socket_shape a w' acts forked : world_ok w -> exec_socket x w a = Done (Some (w', acts, forked)) ->
  Forall quiet_act (concat forked) /\ shape w a w' acts.
Proof.
  intros Hw. destruct a; cbn [exec_socket]; intros H; try done; sections.
  all: split; [by repeat constructor|].
  all: try (apply shape_same; try done; quiet_acts; fail).
  - apply attachBackend_state in E1 as [? ?]. apply sh_plain; try done; [by eapply pending_put|].
    apply quiet_follows, Forall_app. split; [by apply quiet_map|by repeat constructor].
  - apply closeBackend_state in E0 as [? ?]. apply sh_plain; try done; [by eapply pending_put|quiet_acts].
  - apply detachBackend_state in E0 as [? ?]. apply sh_plain; try done; [by eapply pending_put|]. by apply quiet_follows, quiet_map.
  - by eapply enter_shape.
  - by eapply locked_shape.
Qed.

(** ** The lifecycle *)

Local Lemma fail_shape a e : special a = false -> Forall quiet_act (concat []) /\ shape w a w (fail e).
Proof. intros H. split; [by constructor|]. apply shape_same; try done. quiet_acts. Qed.

Local Lemma transition_shape a r0 r t l1 l2 : special a = false -> rt_life r0 = rt_life (w_router w) -> transits r0 r t ->
  Forall quiet_act l1 -> Forall quiet_act l2 ->
  Forall quiet_act (concat []) /\ shape w a (with_router w r) (l1 ++ closeTransition t ++ l2).
Proof.
  intros Ha El Ht H1 H2. split; [by constructor|]. apply (sh_life _ _ _ _ (tr_done t) l1
    ((if tr_up t then upAll (tr_updowns t) else closeAll (tr_closers t) ++ downAll (tr_updowns t)) ++ l2)); try done.
  - unfold closeTransition. by rewrite <- app_assoc.
  - apply Forall_app. split; [apply quiet_updown|done].
  - apply transits_life in Ht. by apply (life_step_eq r0).
Qed.

Local Lemma close_shape seed r c : world_ok w -> closePrep seed (w_router w) = (r, c) ->
  Forall quiet_act (concat []) /\ shape w AClose (with_router w r)
    (map ACloseDone (option_list (cl_done c)) ++ map AUnsub (cl_slotSubs c) ++ closeAll (cl_closers c) ++
     downAll (cl_updowns c) ++ map ACloseSub (cl_closeSubs c) ++ [AReturn RetOK]).
Proof.
  intros Hw E. eapply closePrep_ok in E as (_ & _ & G1 & G2 & G3 & G4 & G5 & _ & G6 & _); [|apply Hw].
  split; [by constructor|]. apply (sh_life _ _ _ _ (cl_done c) [] (map AUnsub (cl_slotSubs c) ++ closeAll (cl_closers c) ++
     downAll (cl_updowns c) ++ map ACloseSub (cl_closeSubs c) ++ [AReturn RetOK])); try done.
  - rewrite !Forall_app. split_and!; try (by apply quiet_map); [apply quiet_closeAll|by repeat constructor].
  - rewrite G6. cbn. destruct (rt_up (w_router w)) eqn:Eu; [apply life_down; auto|by apply life_closed].
Qed.

Lemma exec_life_shape a w' acts forked : world_ok w -> (forall slot b up, a = AReplace slot b up -> routerValidSlot slot = true) ->
  (forall slot gen up sub, a = ASetSlotUp slot gen up sub -> routerValidSlot slot = true) ->
  exec_life x w a = Done (Some (w', acts, forked)) -> Forall quiet_act (concat forked) /\ shape w a w' acts.
Proof.
  intros Hw Hv1 Hv2. pose proof (wo_router _ Hw) as Hr. destruct a; cbn [exec_life]; intros H; try done.
  - destruct (Up_locked _ _) as [[r t]|] eqn:E; sections; [|by apply fail_shape].
    eapply Up_locked_ok in E as [_ G]; [|done]. apply (transition_shape _ (w_router w) r t [] [AReturn RetOK]);
      [done|done|done|by constructor|by repeat constructor].
  - destruct (Down_locked _ _) as [[r t]|] eqn:E; sections; [|split; [by constructor|]; apply shape_same; try done; quiet_acts].
    eapply Down_locked_ok in E as [_ G]; [|done]. apply (transition_shape _ (w_router w) r t [] [AReturn RetOK]);
      [done|done|done|by constructor|by repeat constructor].
  - destruct (closePrep _ _) as [r c] eqn:E. sections. eapply close_shape; [done..|]. eassumption.
  - sections; (split; [by constructor|]); apply shape_same; try done; quiet_acts.
  - specialize (Hv1 _ _ _ eq_refl). destruct (replaceSlot_ok _ (or_seed x) slot backend up _ Hr Hv1) as (res & E & Hres). rewrite E in H.
    destruct res as [p|]; injection H as <- <- <-; [|by apply fail_shape].
    destruct (Hres p eq_refl) as (_ & r1 & mine & _ & _ & El & _ & _ & _ & Ht).
    eapply (transition_shape _ r1); [done|done|done|by apply quiet_map|]. apply Forall_app. split; [apply quiet_closeAll|].
    apply Forall_app. split; [|by repeat constructor]. destruct backend; [|by apply quiet_map]. constructor; [done|].
    apply Forall_forall. intros b (u & _ & Hin)%list_elem_of_In%in_flat_map. cbn in Hin. by destruct Hin as [<-|[<-|[]]].
  - sections. split; [by constructor|]. apply shape_same; try done; quiet_acts.
  - sections; (split; [by constructor|]); apply shape_same; try done; quiet_acts.
  - sections. split; [by constructor|]. apply shape_same; try done; quiet_acts.
  - specialize (Hv2 _ _ _ _ eq_refl). destruct (setSlotUp_ok _ (or_seed x) slot gen up sub _ Hr Hv2) as (res & E & Hres). rewrite E in H.
    destruct res as [[[r t] old]|]; injection H as <- <- <-; [|split; [by constructor|]; apply shape_same; try done; by apply quiet_follows, quiet_map].
    destruct (Hres _ _ _ eq_refl) as [_ Ht]. apply (transition_shape _ (w_router w) r t []); [done..|by constructor|by apply quiet_map].
  - sections. split; [by constructor|]. apply shape_same; try done; quiet_acts.
  - sections. apply bool_decide_eq_false in E. split; [by constructor|]. by eapply sh_closeDone.
  - sections. split; [by constructor|]. apply shape_same; try done; quiet_acts.
  - sections. split; [by constructor|]. apply shape_same; try done; quiet_acts.
  - unfold SubscribeUpDown_locked in H. injection H as <- <- <-. split; [by constructor|]. apply shape_same; try done.
    apply quiet_follows, Forall_app. split; [by apply quiet_map|by repeat constructor].
  - unfold subscribeCloser_user in H. sections; (split; [by constructor|]); apply shape_same; try done; quiet_acts.
  - sections. split; [by constructor|]. apply shape_same; try done; quiet_acts.
  - sections. split; [by constructor|]. apply shape_same; try done; quiet_acts.
  - sections. split; [by constructor|]. apply shape_same; try done; quiet_acts.
  - sections. split; [by constructor|]. apply shape_same; try done; quiet_acts.
Qed.
End Shape.

(** What a statement does to the lifecycle, the channels and the listeners. *)
Lemma exec_shape x w h a w' acts forked : world_ok w -> act_ok w h a -> exec x w a = Done (Some (w', acts, forked)) ->
  Forall quiet_act (concat forked) /\ shape w a w' acts.
Proof.
  intros Hw Ha. destruct a; cbn [exec]; intros H; first
    [by apply exec_op_shape in H|by apply exec_object_shape in H|by apply exec_listen_shape in H|by apply exec_socket_shape in H
    |by apply exec_packet_shape in H|by apply exec_lookup_shape in H
    |apply exec_life_shape in H; [done|done|by intros ? ? ? [= <- <- <-]|by intros ? ? ? ? [= <- <- <- <-]]].
Qed.

(** ** The invariant *)

(** [us]: the listeners that threads are about to close. *)
Record closing_ok (w : world) (us : list nat) : Prop := {
  co_udps : NoDup us;
  co_pending : forall u, u ∈ us <-> pending w u }.

(** [closed]: the closed channels; [cs]: those that threads are about to close. *)
Record channels_ok (r : Router) (closed : gset nat) (cs : list nat) : Prop := {
  co_chs : NoDup cs;
  co_done : (rt_done r < lf_channels (rt_life r))%nat;
  co_closing : forall ch, ch ∈ cs -> (ch < lf_channels (rt_life r))%nat /\ ch ∉ closed /\ (rt_up r = true -> ch <> rt_done r);
  co_closed : forall ch, ch ∈ closed -> (ch < lf_channels (rt_life r))%nat /\ (rt_up r = true -> ch <> rt_done r) }.

(** An operation that waits belongs to the generation of its channel; when the
    generation is over, the channel is closed or about to be. *)
Definition wait_ok (r : Router) (closed : gset nat) (cs : list nat) (g : option nat) (d : nat) : Prop :=
  (forall gen, g = Some gen -> (gen <= rt_gen r)%nat /\ (gen = rt_gen r -> rt_up r = true /\ d = rt_done r) /\
     (rt_up r = true -> d = rt_done r -> gen = rt_gen r)) /\
  (d < lf_channels (rt_life r))%nat /\
  (rt_up r = true /\ d = rt_done r \/ d ∈ closed \/ d ∈ cs).

(** [acts]: what all threads have still to execute. *)
Record conc_ok (w : world) (acts : list action) : Prop := {
  cc_udps : closing_ok w (closing_udps acts);
  cc_channels : channels_ok (w_router w) (w_chclosed w) (closing_chs acts);
  cc_waits : forall a g d, a ∈ acts -> wait_of a = Some (g, d) -> wait_ok (w_router w) (w_chclosed w) (closing_chs acts) g d }.

#[global] Instance closing_ok_proper w : Proper ((≡ₚ) ==> iff) (closing_ok w).
Proof.
  assert (Himp : forall l l', l ≡ₚ l' -> closing_ok w l -> closing_ok w l').
  { intros l l' E [H1 H2]. split; [by rewrite <- E|]. intros u. by rewrite <- E. }
  intros l l' E. split; by apply Himp.
Qed.

#[global] Instance channels_ok_proper r closed : Proper ((≡ₚ) ==> iff) (channels_ok r closed).
Proof.
  assert (Himp : forall l l', l ≡ₚ l' -> channels_ok r closed l -> channels_ok r closed l').
  { intros l l' E [H1 H2 H3 H4]. split; [by rewrite <- E|done| |done]. intros ch. rewrite <- E. apply H3. }
  intros l l' E. split; by apply Himp.
Qed.

#[global] Instance conc_ok_proper w : Proper ((≡ₚ) ==> iff) (conc_ok w).
Proof.
  assert (Himp : forall l l', l ≡ₚ l' -> conc_ok w l -> conc_ok w l').
  { intros l l' E [H1 H2 H3]. assert (E1 : closing_udps l ≡ₚ closing_udps l') by (unfold closing_udps; by rewrite E).
    assert (E2 : closing_chs l ≡ₚ closing_chs l') by (unfold closing_chs; by rewrite E).
    split; [by rewrite <- E1|by rewrite <- E2|]. intros a g d Ha Hd. rewrite <- E in Ha.
    destruct (H3 a g d Ha Hd) as (G1 & G2 & G3). split_and!; [done|done|]. by rewrite <- E2. }
  intros l l' E. split; by apply Himp.
Qed.

Lemma closing_udps_app t t' : closing_udps (t ++ t') = closing_udps t ++ closing_udps t'.
Proof. apply omap_app. Qed.

Lemma closing_chs_app t t' : closing_chs (t ++ t') = closing_chs t ++ closing_chs t'.
Proof. apply omap_app. Qed.

Lemma quiet_lists acts : Forall quiet_act acts -> closing_udps acts = [] /\ closing_chs acts = [].
Proof. intros H. apply quiet_closing. eapply Forall_impl; [exact H|]. by intros a []. Qed.

Lemma follows_lists w a acts : Forall (follows w a) acts -> closing_udps acts = [] /\ closing_chs acts = [].
Proof. intros H. apply quiet_closing. eapply Forall_impl; [exact H|]. by intros b []. Qed.

Lemma special_cons a t : special a = false -> closing_udps (a :: t) = closing_udps t /\ closing_chs (a :: t) = closing_chs t.
Proof. by destruct a. Qed.

(** ** Steps *)

(** The channel of a generation that ends is open, and is closed next. *)
Lemma channels_ok_life r r' closed cs cl : life_step r r' cl -> channels_ok r closed cs -> channels_ok r' closed (option_list cl ++ cs).
Proof.
  intros Hst [H1 H2 H3 H4].
  destruct Hst as [E1 _ E3 E4|E1 E2 _ E3 E4|E1 E2 _ E3 E4|E1 E2 _ E3 E4]; cbn [option_list app]; split; rewrite ?E1, ?E2, ?E3, ?E4; try done.
  - lia.
  - intros ch Hch. apply H3 in Hch as (G1 & G2 & _). split_and!; [lia|done|intros _; lia].
  - intros ch Hch. apply H4 in Hch as (G1 & _). split; [lia|intros _; lia].
  - constructor; [|done]. intros Hin. by apply H3 in Hin as (_ & _ & G); apply G.
  - intros ch [->|Hch]%elem_of_cons; [|apply H3 in Hch as (G1 & G2 & _); by split_and!]. split_and!; [done| |done].
    intros Hin. by apply H4 in Hin as [_ G]; apply G.
  - intros ch Hch. apply H4 in Hch as (G1 & _). by split.
  - intros ch Hch. apply H3 in Hch as (G1 & G2 & _). by split_and!.
  - intros ch Hch. apply H4 in Hch as (G1 & _). by split.
Qed.

Lemma wait_ok_life r r' closed cs cl g d : life_step r r' cl -> wait_ok r closed cs g d -> wait_ok r' closed (option_list cl ++ cs) g d.
Proof.
  intros Hst (H1 & H0 & H2).
  destruct Hst as [E1 E2 E3 E4|E1 E2 E3 E4 E5|E1 E2 E3 E4 E5|E1 E2 E3 E4 E5]; cbn [option_list app]; split_and!; rewrite ?E4, ?E5; try lia.
  - by rewrite E1, E2, E3.
  - by rewrite E1, E3.
  - intros gen Hg. destruct (H1 gen Hg) as [G1 _]. rewrite E3. split_and!; lia.
  - rewrite E1 in H2. destruct H2 as [[? _]|?]; [done|by right].
  - intros gen Hg. destruct (H1 gen Hg) as [G1 _]. rewrite E3, E2. split_and!; [lia|lia|done].
  - destruct H2 as [[_ ->]|[?|?]]; right; [right; set_solver|by left|right; set_solver].
  - intros gen Hg. destruct (H1 gen Hg) as (G1 & G2 & _). rewrite E2. split_and!; [lia| |done]. intros ->. destruct G2; [lia|congruence].
  - rewrite E1 in H2. destruct H2 as [[? _]|?]; [done|by right].
Qed.

Lemma channels_ok_close r closed cs ch : channels_ok r closed (ch :: cs) -> channels_ok r ({[ch]} ∪ closed) cs.
Proof.
  intros [H1 H2 H3 H4]. apply NoDup_cons in H1 as [Hn H1]. split; [done|done|..].
  - intros c Hc. destruct (H3 c) as (G1 & G2 & G3); [set_solver|]. split_and!; [done| |done]. set_solver.
  - intros c [->%elem_of_singleton|Hc]%elem_of_union; [|by apply H4]. destruct (H3 ch) as (G1 & _ & G3); [set_solver|]. done.
Qed.

(** The same channels and the same lifecycle. *)
Lemma wait_ok_same r r' closed cs g d : rt_life r' = rt_life r -> wait_ok r closed cs g d -> wait_ok r' closed cs g d.
Proof. unfold wait_ok, rt_up, rt_gen, rt_done. by intros ->. Qed.

Lemma channels_ok_same r r' closed cs : rt_life r' = rt_life r -> channels_ok r closed cs -> channels_ok r' closed cs.
Proof. intros E [H1 H2 H3 H4]. split; unfold rt_up, rt_done in *; rewrite ?E; done. Qed.

(** The invariant after a step, from its parts. *)
Lemma conc_ok_parts w' acts others forked : Forall quiet_act forked ->
  closing_ok w' (closing_udps acts ++ closing_udps others) ->
  channels_ok (w_router w') (w_chclosed w') (closing_chs acts ++ closing_chs others) ->
  (forall a g d, a ∈ acts ++ others -> wait_of a = Some (g, d) ->
     wait_ok (w_router w') (w_chclosed w') (closing_chs acts ++ closing_chs others) g d) ->
  conc_ok w' (acts ++ others ++ forked).
Proof.
  intros Hq H1 H2 H3. destruct (quiet_lists _ Hq) as [E1 E2].
  split; rewrite ?closing_udps_app, ?closing_chs_app, ?E1, ?E2, ?app_nil_r; try done.
  intros a g d. rewrite app_assoc. intros [Hin|Hin]%elem_of_app Hd; [by eapply H3|].
  rewrite Forall_forall in Hq. apply Hq in Hin as [_ ?]. congruence.
Qed.

Lemma quiet_waits acts a g d : Forall quiet_act acts -> a ∈ acts -> wait_of a = Some (g, d) -> False.
Proof. rewrite Forall_forall. intros Hq Hin%Hq Hd. destruct Hin. congruence. Qed.

Lemma closing_ok_same w w' us : (forall u, pending w' u <-> pending w u) -> closing_ok w us -> closing_ok w' us.
Proof. intros Hp [H1 H2]. split; [done|]. intros u. by rewrite Hp. Qed.

Lemma conc_ok_plain w a w' acts others forked : Forall quiet_act forked -> special a = false ->
  rt_life (w_router w') = rt_life (w_router w) -> w_chclosed w' = w_chclosed w -> (forall u, pending w' u <-> pending w u) ->
  Forall (follows w a) acts -> conc_ok w (a :: others) -> conc_ok w' (acts ++ others ++ forked).
Proof.
  intros Hq Ha Hl Hc Hp Hf [H1 H2 H3]. destruct (follows_lists _ _ _ Hf) as [F1 F2].
  destruct (special_cons a others Ha) as [G1 G2]. rewrite G1 in *. rewrite G2 in *.
  apply conc_ok_parts; [done|..]; rewrite ?F1, ?F2, ?Hc; [by eapply closing_ok_same|by eapply channels_ok_same|].
  intros b g d [Hin|Hin]%elem_of_app Hd; cbn [app]; (eapply wait_ok_same; [exact Hl|]).
  - rewrite Forall_forall in Hf. destruct (Hf b Hin) as [_ [E|[E|[Hup E]]]]; [congruence|by apply (H3 a); [set_solver|congruence]|].
    assert (d = rt_done (w_router w)) as -> by (destruct E; congruence).
    split_and!; [|apply H2|by left]. intros gen ->. destruct E as [E|E]; rewrite Hd in E; [|done]. injection E as ->. by split_and!.
  - apply (H3 b); [set_solver|done].
Qed.

Lemma conc_ok_step w a w' acts others forked : Forall quiet_act forked -> shape w a w' acts ->
  conc_ok w (a :: others) -> conc_ok w' (acts ++ others ++ forked).
Proof.
  intros Hq Hs Hok.
  destruct Hs as [Ha Hl Hc Hp Hf|cl l1 l2 Ha Hc Hu -> Hq1 Hq2 Hst|ch -> Hch -> Hc Hr Hu|u l -> Hnp Hp Hl Hc -> Hql|u -> Hp Hl Hc Hqa];
    [by eapply conc_ok_plain|..]; destruct Hok as [H1 H2 H3].
  - destruct (special_cons a others Ha) as [G1 G2]. rewrite G1 in *. rewrite G2 in *.
    destruct (quiet_lists _ Hq1) as [F1 F1']. destruct (quiet_lists _ Hq2) as [F2 F2'].
    assert (Eu : closing_udps (map ACloseDone (option_list cl)) = []) by (by destruct cl).
    assert (Ec : closing_chs (map ACloseDone (option_list cl)) = option_list cl) by (by destruct cl).
    apply conc_ok_parts; [done|..]; rewrite ?closing_udps_app, ?closing_chs_app, ?F1, ?F1', ?F2, ?F2', ?Eu, ?Ec, ?app_nil_r, ?Hc.
    + eapply closing_ok_same; [|done]. intros u. unfold pending. by rewrite Hu.
    + by eapply channels_ok_life.
    + intros b g d [[Hin|[Hin|Hin]%elem_of_app]%elem_of_app|Hin]%elem_of_app Hd; cbn [app].
      * exfalso. by eapply (quiet_waits l1).
      * by apply list_elem_of_fmap in Hin as (? & -> & _).
      * exfalso. by eapply (quiet_waits l2).
      * eapply wait_ok_life; [done|]. apply (H3 b); [set_solver|done].
  - apply conc_ok_parts; [done|..]; cbn [closing_udps closing_chs omap app]; rewrite ?Hc, ?Hr.
    + eapply closing_ok_same; [|exact H1]. intros u. unfold pending. by rewrite Hu.
    + by apply channels_ok_close.
    + intros b g d Hin Hd. destruct (H3 b g d) as (G1 & G0 & G2); [set_solver|done|]. split_and!; [done|done|]. cbn in G2. set_solver.
  - destruct (quiet_lists _ Hql) as [F1 F1'].
    apply conc_ok_parts; [done|..]; rewrite ?closing_udps_app, ?closing_chs_app, ?F1, ?F1', ?Hc; cbn [closing_udps closing_chs omap app].
    + destruct H1 as [N1 N2]. split; [constructor; [by rewrite N2|done]|]. intros v. cbn. rewrite elem_of_cons, Hp, <- N2. cbn. tauto.
    + by eapply channels_ok_same.
    + intros b g d [[Hin|Hin]%elem_of_app|Hin]%elem_of_app Hd.
      * exfalso. by eapply (quiet_waits l).
      * apply list_elem_of_singleton in Hin. by subst b.
      * eapply wait_ok_same; [exact Hl|]. apply (H3 b); [set_solver|done].
  - destruct (quiet_lists _ Hqa) as [F1 F1']. apply conc_ok_parts; [done|..]; rewrite ?F1, ?F1', ?Hc; cbn [app].
    + destruct H1 as [N1 N2]. cbn in N1, N2. apply NoDup_cons in N1 as [Hn N1]. split; [done|]. intros v. rewrite Hp, <- N2, elem_of_cons.
      split; [intros Hin; split; [by right|by intros ->]|]. by intros [[->|?] ?].
    + by eapply channels_ok_same.
    + intros b g d [Hin|Hin]%elem_of_app Hd; [exfalso; by eapply (quiet_waits acts)|].
      eapply wait_ok_same; [exact Hl|]. apply (H3 b); [set_solver|done].
Qed.
