(* ===== verification/RouterLeak.v ===== *)
(** * The network router: nothing is lost

    Everything that a backend opened for the Router is closed, or tracked by the
    Router, or a socket of an open UDP listener, or held by a thread that is
    going to close it or hand it over; the same holds of the listeners.  So when
    the threads have returned and the Router is down, everything is closed. *)

From S2P Require Import Prelude GoStd NetIP Reject Callbacks NetRouter RouterUDP RouterSys RouterInv RouterThreads RouterSafe RouterChannels.

(** ** Owners *)

Definition live (w : world) (f : ref) : Prop :=
  match f with
  | RObj o => exists x, w_objs w !! o = Some x /\ ob_open x = true
  | RUdp u => exists c, w_udps w !! u = Some c /\ uc_closed c = false
  end.

Definition tracked (w : world) (f : ref) : Prop := exists i c, rt_closers (w_router w) !! i = Some c /\ closer_ref c = f.

Definition socket (w : world) (f : ref) : Prop :=
  exists u c k o, f = RObj o /\ w_udps w !! u = Some c /\ uc_closed c = false /\ uc_backends c !! k = Some (Some o).

Definition owned (w : world) (acts : list action) (f : ref) : Prop := tracked w f \/ socket w f \/ f ∈ held_all acts.

Definition leak_free (w : world) (acts : list action) : Prop := forall f, live w f -> owned w acts f.

(** What a statement does with what it and the world held; [h]: what its thread
    holds after it. *)
Record hands_over (w : world) (h : list ref) (a : action) (w' : world) (acts : list action) (forked : list thread) : Prop := {
  ho_new : forall f, live w' f -> live w f \/ f ∈ held_all acts;
  ho_tracked : forall f, tracked w f -> live w' f -> tracked w' f \/ f ∈ held_all acts \/ f ∈ h;
  ho_socket : forall f, socket w f -> live w' f -> socket w' f \/ f ∈ held_all acts;
  ho_held : forall f, f ∈ held a -> live w' f ->
    owned w' (acts ++ concat forked) f \/ exists u, f = RUdp u /\ pending w' u }.

Lemma pending_held w acts u : closing_ok w (closing_udps acts) -> pending w u -> RUdp u ∈ held_all acts.
Proof.
  intros [_ H] Hp%H. unfold closing_udps in Hp. apply list_elem_of_omap in Hp as (a & Hin & Ha).
  unfold held_all. apply list_elem_of_In, in_flat_map. exists a. split; [by apply list_elem_of_In|]. destruct a; try done. injection Ha as ->. by left.
Qed.

Lemma held_all_mono t t' : t ⊆ t' -> held_all t ⊆ held_all t'.
Proof.
  intros H f. unfold held_all. rewrite !list_elem_of_In, !in_flat_map. intros (a & Ha & Hf). exists a. split; [|done].
  apply list_elem_of_In, H. by apply list_elem_of_In.
Qed.

Lemma leak_free_step w h a w' acts forked others : hands_over w h a w' acts forked -> h ⊆ held_all others ->
  closing_ok w' (closing_udps (acts ++ others ++ concat forked)) ->
  leak_free w (a :: others) -> leak_free w' (acts ++ others ++ concat forked).
Proof.
  intros [H1 H2 H3 H4] Hh Hc Hl f Hf. unfold owned. rewrite !held_all_app.
  destruct (H1 f Hf) as [Hf'|?]; [|right; right; set_solver].
  destruct (Hl f Hf') as [Ht|[Hs|Hin]].
  - destruct (H2 f Ht Hf) as [?|[?|?]]; [by left|right; right; set_solver|right; right; set_solver].
  - destruct (H3 f Hs Hf) as [?|?]; [by right; left|right; right; set_solver].
  - change (held_all (a :: others)) with (held a ++ held_all others) in Hin. apply elem_of_app in Hin as [Hin|Hin]; [|right; right; set_solver].
    destruct (H4 f Hin Hf) as [Ho|(u & -> & Hp)].
    + unfold owned in Ho. rewrite held_all_app in Ho. set_solver.
    + right; right. apply (pending_held _ _ _ Hc) in Hp. rewrite !held_all_app in Hp. set_solver.
Qed.

(** ** Changes of the world *)

(** Nothing that is open or tracked changes. *)
Lemma hands_same w h a w' acts forked : w_objs w' = w_objs w -> w_udps w' = w_udps w -> rt_closers (w_router w') = rt_closers (w_router w) ->
  held a ⊆ held_all (acts ++ concat forked) -> hands_over w h a w' acts forked.
Proof.
  intros E1 E2 E3 Hh. split; unfold live, tracked, socket; rewrite ?E1, ?E2, ?E3; auto.
  intros f Hf _. left. right. right. by apply Hh.
Qed.

(** A new object, which the thread holds. *)
Lemma hands_new w h a x acts : held a = [] -> RObj (length (w_objs w)) ∈ held_all acts ->
  hands_over w h a (with_objs w (w_objs w ++ [x])) acts [].
Proof.
  intros Ha Hn. split; [|by auto|by auto|by rewrite Ha; intros f Hf%not_elem_of_nil].
  intros [o|u]; cbn; [|by auto]. intros (y & [Hy|[Hge Hy]]%lookup_app_Some & Ho); [by left; exists y|right].
  apply list_lookup_singleton_Some in Hy as [Hlt _]. replace o with (length (w_objs w)) by lia. done.
Qed.

(** An object that changes, but is not opened. *)
Lemma hands_put w h a o x y acts : w_objs w !! o = Some x -> (ob_open y = true -> ob_open x = true) ->
  (forall f, f ∈ held a -> live (put_obj w o y) f -> f ∈ held_all acts) -> hands_over w h a (put_obj w o y) acts [].
Proof.
  intros Hx Hy Hh. split; [|by auto|by auto|].
  - intros [p|u]; cbn; [|by auto]. intros (z & [(-> & <- & _)|[_ Hz]]%list_lookup_insert_Some & Hz'); left; eauto.
  - intros f Hf Hl. left. right. right. rewrite held_all_app. apply elem_of_app. left. auto.
Qed.

(** The tracked objects change. *)
Lemma hands_router w h a r acts :
  (forall i c, rt_closers (w_router w) !! i = Some c ->
     (exists j d, rt_closers r !! j = Some d /\ closer_ref d = closer_ref c) \/ closer_ref c ∈ held_all acts \/ closer_ref c ∈ h) ->
  (forall f, f ∈ held a -> tracked (with_router w r) f \/ f ∈ held_all acts) -> hands_over w h a (with_router w r) acts [].
Proof.
  intros H1 H2. split; [by auto| |by auto|].
  - intros f (i & c & Hc & <-) _. destruct (H1 i c Hc) as [(j & d & ? & ?)|[?|?]]; [left; by exists j, d|auto|auto].
  - intros f Hf _. left. destruct (H2 f Hf) as [?|?]; [by left|right; right]. rewrite held_all_app. set_solver.
Qed.

(** A listener that changes, but is not opened: the sockets it forgets are
    held. *)
Lemma hands_put_udp w h a u c d acts : w_udps w !! u = Some c -> (uc_closed d = false -> uc_closed c = false) ->
  (forall k o, uc_closed c = false -> uc_backends c !! k = Some (Some o) ->
     (uc_closed d = false /\ uc_backends d !! k = Some (Some o)) \/ RObj o ∈ held_all acts) ->
  (forall f, f ∈ held a -> live (put_udp w u d) f -> owned (put_udp w u d) acts f \/ exists v, f = RUdp v /\ pending (put_udp w u d) v) ->
  hands_over w h a (put_udp w u d) acts [].
Proof.
  intros Hc Hd Hs Hh. pose proof (lookup_lt_Some _ _ _ Hc) as Hlt. split; [|by auto| |].
  - intros [o|v]; cbn; [by auto|]. intros (e & [(-> & <- & _)|[_ He]]%list_lookup_insert_Some & He'); left; eauto.
  - intros f (v & e & k & o & -> & He & Hopen & Hk) _. destruct (decide (v = u)) as [->|Hne].
    + rewrite Hc in He. injection He as <-. destruct (Hs k o Hopen Hk) as [[H1 H2]|H]; [|by right].
      left. exists u, d, k, o. cbn. by rewrite list_lookup_insert_eq.
    + left. exists v, e, k, o. cbn. by rewrite list_lookup_insert_ne.
  - intros f Hf Hl. cbn [concat]. rewrite app_nil_r. auto.
Qed.

(** Tracking under an id that was reserved for the same object. *)
Lemma insert_tracked ids r i c s j d : tracked_ok ids (rt_tracked r) -> ids !! i = Some (closer_ref c, s) ->
  rt_closers r !! j = Some d -> exists k e, (<[i := c]> (rt_closers r)) !! k = Some e /\ closer_ref e = closer_ref d.
Proof.
  intros Hok Hi Hd. destruct (decide (j = i)) as [->|Hne]; [|exists j, d; by rewrite lookup_insert_ne].
  exists i, c. rewrite lookup_insert_eq. split; [done|]. destruct (to_closers _ _ Hok i d Hd) as [s' Hs']. congruence.
Qed.

Lemma track_closers slot i c r r' : track slot i c r = Done r' -> rt_closers r' = <[i := c]> (rt_closers r).
Proof. unfold track. destruct (0 <? slot); [destruct (index _ _); [|done]|]; by intros [= <-]. Qed.

Lemma unregister_closers i slot r r' : unregister i slot r = Done r' -> rt_closers r' = delete i (rt_closers r).
Proof. unfold unregister. destruct (0 <? slot); [destruct (index _ _); [|done]|]; by intros [= <-]. Qed.

Lemma hands_ids w h a w' acts forked ids : hands_over w h a w' acts forked -> hands_over w h a (with_ids w' ids) acts forked.
Proof. by intros []. Qed.

Section Hands.
Context (x : oracle) (w : world) (Hw : world_ok w).

(** The statements that only pass on what they hold. *)
Ltac pass := apply hands_same; [done|done|done|cbn; set_solver].

Lemma exec_op_hands h a w' acts forked : act_ok w h a -> exec_op x w a = Done (Some (w', acts, forked)) -> hands_over w h a w' acts forked.
Proof.
  intros Ha. pose proof (wo_router _ Hw) as Hr.
  destruct a; cbn [exec_op act_ok] in *; intros H; try done; unfold reserveTracked, finishTracked in *; sections; try pass.
  - apply hands_new; [done|set_solver].
  - apply hands_new; [done|set_solver].
  - eapply hands_put; [done|done|]. set_solver.
  - destruct Ha as (_ & _ & Hi). match goal with E : track _ _ _ _ = _ |- _ => rename E into E0 end.
    apply track_closers in E0. apply hands_router; rewrite ?E0.
    + intros j d Hd. left. by eapply insert_tracked; [apply Hr|..].
    + intros f Hf. left. exists i, (Wrapped o). cbn. rewrite E0, lookup_insert_eq. set_solver.
Qed.

Local Lemma subscribed_hands h o wrapped slot slots c r ids acts :
  closer_ref c = RObj o -> track slot (tk_nextID (rt_tracked (w_router w))) c (next_id (w_router w)) = Done r ->
  hands_over w h (ASubscribeConn o wrapped (slot :: slots)) (with_ids (with_router w r) ids) acts [].
Proof.
  intros Hc E. pose proof (wo_router _ Hw) as Hr. apply track_closers in E. apply hands_ids, hands_router; rewrite ?E.
  - intros j d Hd. left. exists j, d. rewrite lookup_insert_ne; [done|]. intros <-.
    destruct (to_closers _ _ (ro_tracked _ _ Hr) _ _ Hd) as [s Hs]. apply (to_fresh _ _ (ro_tracked _ _ Hr)) in Hs. lia.
  - intros f Hf. left. eexists _, c. cbn. rewrite E, lookup_insert_eq. split; [done|]. rewrite Hc. destruct wrapped; cbn in Hf; set_solver.
Qed.

Lemma exec_object_hands h a w' acts forked : act_ok w h a -> exec_object x w a = Done (Some (w', acts, forked)) -> hands_over w h a w' acts forked.
Proof.
  intros Ha. pose proof (wo_router _ Hw) as Hr.
  destruct a; cbn [exec_object act_ok] in *; intros H; try done; unfold subscribeCloser_conn in *; sections; try pass.
  - eapply hands_put; [done|done|]. set_solver.
  - destruct Ha as [_ (f & Hi & Hf)]. apply unregister_closers in E. apply hands_router; rewrite ?E; [|set_solver].
    intros j d Hd. destruct (decide (j = i)) as [->|Hne]; [|left; exists j, d; by rewrite lookup_delete_ne].
    right. right. destruct (to_closers _ _ (ro_tracked _ _ Hr) i d Hd) as [s Hs]. congruence.
  - eapply hands_put; [done|done|]. intros f ->%list_elem_of_singleton (y & Hy & Ho). cbn in Hy.
    rewrite list_lookup_insert_eq in Hy by (by eapply lookup_lt_Some). by injection Hy as <-.
  - apply hands_new; [done|set_solver].
  - destruct wrapped; [pass|]. destruct Ha as (_ & _ & Ha). by destruct Ha.
  - eapply subscribed_hands; [|eassumption]; done.
  - eapply subscribed_hands; [|eassumption]; done.
  - eapply hands_put; [done|done|]. set_solver.
Qed.

Local Lemma new_udp_hands h a network laddr acts : held a = [] -> RUdp (length (w_udps w)) ∈ held_all acts ->
  hands_over w h a (with_udps w (w_udps w ++ [newRouterUDPConn network laddr])) acts [].
Proof.
  intros Ha Hn. split; [|by auto| |by rewrite Ha; intros f Hf%not_elem_of_nil].
  - intros [o|u]; cbn; [by auto|]. intros (y & [Hy|[Hge Hy]]%lookup_app_Some & Ho); [by left; exists y|right].
    apply list_lookup_singleton_Some in Hy as [Hlt _]. replace u with (length (w_udps w)) by lia. done.
  - intros f (u & c & k & o & -> & Hc & H1 & H2) _. left. exists u, c, k, o. cbn. by rewrite (lookup_app_l_Some _ _ _ _ Hc).
Qed.

(** The listener is tracked. *)
Local Lemma tracked_udp_hands h gen u c i r acts : w_udps w !! u = Some c -> w_ids w !! i = Some (RUdp u, 0) ->
  rt_closers r = <[i := UDPListener u]> (rt_closers (w_router w)) ->
  hands_over w h (AUdpTrack gen u i) (with_router (put_udp w u (set_beforeClose c i)) r) acts [].
Proof.
  intros Hc Hi Er. pose proof (lookup_lt_Some _ _ _ Hc) as Hlt. split.
  - intros [o|v]; cbn; [by auto|]. intros (e & [(-> & <- & _)|[_ He]]%list_lookup_insert_Some & He'); left; eauto.
  - intros f (j & d & Hd & <-) _. left. unfold tracked. cbn. rewrite Er.
    by eapply insert_tracked; [apply (wo_router _ Hw)|..].
  - intros f (v & e & k & o & -> & He & Hopen & Hk) _. left. destruct (decide (v = u)) as [->|Hne].
    + rewrite Hc in He. injection He as <-. exists u, (set_beforeClose c i), k, o. cbn. by rewrite list_lookup_insert_eq.
    + exists v, e, k, o. cbn. by rewrite list_lookup_insert_ne.
  - intros f ->%list_elem_of_singleton _. left. left. exists i, (UDPListener u). cbn. by rewrite Er, lookup_insert_eq.
Qed.

Lemma exec_listen_hands h a w' acts forked : act_ok w h a -> exec_listen x w a = Done (Some (w', acts, forked)) -> hands_over w h a w' acts forked.
Proof.
  intros Ha. destruct a; cbn [exec_listen act_ok] in *; intros H; try done; unfold reserveTracked, trackRouterUDPConn in *; sections; try pass.
  - apply new_udp_hands; [done|set_solver].
  - apply new_udp_hands; [done|set_solver].
  - destruct Ha as [_ Hi]. by apply tracked_udp_hands.
  - eapply hands_put_udp; [done|done|by auto|]. intros f Hf _. left. right. right. cbn in *. set_solver.
Qed.

Local Lemma held_closeOwn os o : RObj o ∈ held_all (map ACloseOwn os) <-> o ∈ os.
Proof. induction os as [|p os IH]; cbn; [set_solver|]. rewrite !elem_of_cons, IH. naive_solver. Qed.

Local Lemma install_hands h u slot o c c' old addr : w_udps w !! u = Some c -> routerValidSlot slot = true -> obj_exists w o ->
  attachBackend slot o addr c = Done (Some (c', old)) ->
  hands_over w h (AUdpInstall u slot o) (put_udp w u c') (map ACloseOwn (option_list old) ++ [AUdpReader u slot o]) [].
Proof.
  intros Hc Hv Ho E. pose proof (wo_udps _ Hw u c Hc) as Hok. pose proof (lookup_lt_Some _ _ _ Hc) as Hlt.
  destruct (attachBackend_ok _ _ _ _ slot o addr Hok Hv Ho) as (res & E' & Hres). rewrite E in E'. injection E' as <-.
  destruct (Hres c' old eq_refl) as (_ & G1 & G2 & _ & G3 & G4 & _). pose proof (lookup_lt_Some _ _ _ G3) as Hslot.
  eapply hands_put_udp; [done|done|..].
  - intros k p _ Hk. destruct (decide (k = Z.to_nat (slot - 1))) as [->|Hne].
    + right. rewrite held_all_app. apply elem_of_app. left. apply held_closeOwn. rewrite Hk in G3. injection G3 as <-. set_solver.
    + left. split; [done|]. by rewrite G4, list_lookup_insert_ne.
  - intros f ->%list_elem_of_singleton _. left. right. left. exists u, c', (Z.to_nat (slot - 1)), o. cbn.
    rewrite list_lookup_insert_eq by done. split_and!; try done. by rewrite G4, list_lookup_insert_eq.
Qed.

Local Lemma close_hands h u c c' os : w_udps w !! u = Some c -> close_locked c = Done (c', os) ->
  hands_over w h (AUdpCloseLocked u) (put_udp w u c') (map ACloseOwn os) [].
Proof.
  intros Hc E. pose proof (lookup_lt_Some _ _ _ Hc) as Hlt. unfold close_locked in E. destruct (uc_closed c) eqn:Ec; [done|]. injection E as <- <-.
  eapply hands_put_udp; [done|done|..].
  - intros k o _ Hk. right. apply held_closeOwn, list_elem_of_omap. exists (Some o). split; [by eapply list_elem_of_lookup_2|done].
  - intros f ->%list_elem_of_singleton (d & Hd & Hop). cbn in Hd. rewrite list_lookup_insert_eq in Hd by done. by injection Hd as <-.
Qed.

Lemma exec_socket_hands h a w' acts forked : act_ok w h a -> exec_socket x w a = Done (Some (w', acts, forked)) -> hands_over w h a w' acts forked.
Proof.
  intros Ha. destruct a; cbn [exec_socket act_ok] in *; intros H; try done; sections; try pass.
  - apply hands_new; [done|set_solver].
  - destruct Ha as (_ & Hv & b & Hk). eapply install_hands; [done|done|by eapply kind_exists|done].
  - destruct (closeBackend_ok _ _ _ _ slot o (wo_udps _ Hw _ _ E)) as (c' & E' & _ & G1 & _ & G2). rewrite E0 in E'. injection E' as <-.
    eapply hands_put_udp; [done|by rewrite G1|..].
    + intros k p Hop Hk. rewrite G1. destruct (G2 k p Hk) as [?|<-]; [by left|right; set_solver].
    + intros f Hf _. left. right. right. done.
  - destruct (detachBackend_ok _ _ _ _ slot (wo_udps _ Hw _ _ E)) as (c' & bc & E' & _ & G1 & _ & _ & G2). rewrite E0 in E'. injection E' as <- <-.
    eapply hands_put_udp; [done|by rewrite G1|..]; [|by intros f Hf%not_elem_of_nil].
    intros k p Hop Hk. rewrite G1. destruct (G2 k p Hk) as [?| ->]; [by left|right]. apply held_closeOwn. set_solver.
  - unfold close_enter in *. sections. eapply hands_put_udp; [done|done|by auto|].
    intros f Hf _. left. right. right. rewrite held_all_app. cbn in *. set_solver.
  - split; [by auto|by auto|by auto|]. intros f ->%list_elem_of_singleton (c & Hc & Hop). right. exists u. split; [done|].
    exists c. split_and!; try done. rewrite E in Hc. injection Hc as <-. unfold close_enter in *. by destruct (uc_once v).
  - by apply (close_hands h u v).
Qed.

Lemma exec_packet_hands h a w' acts forked : exec_packet x w a = Done (Some (w', acts, forked)) -> hands_over w h a w' acts forked.
Proof.
  destruct a; cbn [exec_packet]; intros H; try done; sections; try pass.
  all: match goal with E : ReadFrom_select _ _ _ _ = _ |- _ => apply ReadFrom_select_queue in E as [q ->] end.
  all: eapply hands_put_udp; [done|done|by auto|by intros f Hf%not_elem_of_nil].
Qed.

Lemma exec_lookup_hands h a w' acts forked : exec_lookup x w a = Done (Some (w', acts, forked)) -> hands_over w h a w' acts forked.
Proof. destruct a; cbn [exec_lookup]; intros H; try done; sections; pass. Qed.

Local Lemma held_closeAll cs c : c ∈ cs -> closer_ref c ∈ held_all (closeAll cs).
Proof.
  induction cs as [|d cs IH]; [by intros ?%not_elem_of_nil|]. cbn. rewrite held_all_app, elem_of_app. intros [->|Hin]%elem_of_cons; [left|right; auto].
  destruct d; cbn; set_solver.
Qed.

(** A transition closes what it no longer tracks. *)
Local Lemma transits_held r r' t i c : (rt_up r = false -> rt_closers r = ∅) -> transits r r' t -> rt_closers r !! i = Some c ->
  rt_closers r' !! i = Some c \/ closer_ref c ∈ held_all (closeTransition t).
Proof.
  intros Hd Ht Hc. destruct Ht as [? ? ? ? Etk _|us E1 _ _ _ _ _ _|us cs ? ? ? ? ? _ Hcs ->].
  - left. unfold rt_closers in *. by rewrite Etk.
  - rewrite (Hd E1) in Hc. by rewrite lookup_empty in Hc.
  - right. unfold closeTransition. cbn [tr_closers tr_up]. rewrite !held_all_app, !elem_of_app. right. left.
    apply held_closeAll, Hcs. by exists i.
Qed.

Local Lemma transition_hands h a r t l1 l2 : held a = [] -> transits (w_router w) r t ->
  hands_over w h a (with_router w r) (l1 ++ closeTransition t ++ l2) [].
Proof.
  intros Ha Ht. apply hands_router; [|rewrite Ha; by intros f Hf%not_elem_of_nil].
  intros i c Hc. destruct (transits_held _ _ _ i c (ro_down _ _ (wo_router _ Hw)) Ht Hc) as [?|?]; [left; by exists i, c|].
  right. left. rewrite !held_all_app, !elem_of_app. auto.
Qed.

Local Lemma replace_hands h slot backend up p : routerValidSlot slot = true ->
  replaceSlot (or_seed x) slot backend up (w_router w) = Done (Some p) -> forall l1 l2,
  hands_over w h (AReplace slot backend up) (with_router w (rp_router p)) (l1 ++ closeTransition (rp_stopped p) ++ closeAll (rp_old p) ++ l2) [].
Proof.
  intros Hv E l1 l2. pose proof (wo_router _ Hw) as Hr.
  destruct (replaceSlot_ok _ (or_seed x) slot backend up _ Hr Hv) as (res & E' & Hres). rewrite E in E'. injection E' as <-.
  destruct (Hres p eq_refl) as (_ & r1 & mine & Hm & Hc1 & El & _ & Hold & _ & Ht).
  apply hands_router; [|by intros f Hf%not_elem_of_nil]. intros i c Hc. rewrite !held_all_app.
  destruct (mine !! i) as [d|] eqn:Ed.
  - right. left. destruct (to_bySlot _ _ (ro_tracked _ _ Hr) _ mine i d Hm Ed) as [Hd _].
    assert (d = c) as -> by (unfold rt_closers in Hc; congruence).
    assert (closer_ref c ∈ held_all (closeAll (rp_old p))) by (apply held_closeAll, Hold; by exists i).
    rewrite !elem_of_app. auto.
  - assert (Hi : rt_closers r1 !! i = Some c) by (rewrite Hc1, lookup_forget; by case_decide).
    assert (Hd : rt_up r1 = false -> rt_closers r1 = ∅).
    { unfold rt_up. rewrite El. intros Hup. rewrite Hc1, (ro_down _ _ Hr Hup). apply map_eq. intros j. rewrite lookup_forget. by case_decide. }
    destruct (transits_held _ _ _ i c Hd Ht Hi) as [?|?]; [left; by exists i, c|]. right. left.
    rewrite !elem_of_app. auto.
Qed.

Lemma exec_life_hands h a w' acts forked : act_ok w h a -> exec_life x w a = Done (Some (w', acts, forked)) -> hands_over w h a w' acts forked.
Proof.
  intros Ha. pose proof (wo_router _ Hw) as Hr. destruct a; cbn [exec_life act_ok] in *; intros H; try done.
  - destruct (Up_locked _ _) as [[r t]|] eqn:E; injection H as <- <- <-; [|pass]. eapply Up_locked_ok in E as [_ G]; [|done].
    by apply (transition_hands h _ r t []).
  - destruct (Down_locked _ _) as [[r t]|] eqn:E; injection H as <- <- <-; [|pass]. eapply Down_locked_ok in E as [_ G]; [|done].
    by apply (transition_hands h _ r t []).
  - destruct (closePrep _ _) as [r c] eqn:E. injection H as <- <- <-. eapply closePrep_ok in E as (_ & _ & _ & _ & _ & _ & _ & _ & _ & G); [|done].
    apply hands_router; [|by intros f Hf%not_elem_of_nil]. intros i d Hd. right. left. rewrite !held_all_app.
    assert (closer_ref d ∈ held_all (closeAll (cl_closers c))) by (apply held_closeAll, G; by exists i).
    rewrite !elem_of_app. auto.
  - sections; pass.
  - destruct (replaceSlot _ _ _ _ _) as [[p|]| |] eqn:E; [|injection H as <- <- <-; pass|done..]. injection H as <- <- <-.
    by apply replace_hands.
  - sections; pass.
  - sections; pass.
  - sections; pass.
  - destruct (setSlotUp_ok _ (or_seed x) slot gen up sub _ Hr Ha) as (res & E & Hres). rewrite E in H.
    destruct res as [[[r t] old]|]; injection H as <- <- <-; [|pass]. destruct (Hres _ _ _ eq_refl) as [_ Ht].
    by apply (transition_hands h _ r t []).
  - sections; pass.
  - sections; pass.
  - sections; pass.
  - sections; pass.
  - injection H as <- <- <-. pass.
  - unfold subscribeCloser_user in H. sections; pass.
  - sections; pass.
  - sections; pass.
  - sections; pass.
  - sections; pass.
Qed.

Lemma exec_hands h a w' acts forked : act_ok w h a -> exec x w a = Done (Some (w', acts, forked)) -> hands_over w h a w' acts forked.
Proof.
  intros Ha. destruct a; cbn [exec]; intros H; first
    [by apply exec_op_hands|by apply exec_object_hands|by apply exec_listen_hands|by apply exec_socket_hands
    |by apply exec_packet_hands|by apply exec_lookup_hands|by apply exec_life_hands].
Qed.
End Hands.
