(* ===== verification/RouterSpec.v ===== *)
(** * The network router: every interleaving

    The invariants of RouterThreads, RouterChannels and RouterLeak hold in every
    reachable state of the system of RouterSys, and what follows from them. *)

From S2P Require Import Prelude GoStd NetIP Reject Callbacks NetRouter RouterUDP RouterSys RouterInv RouterThreads RouterSafe RouterChannels RouterLeak.

(** ** The invariant of the system *)

Record system_ok (s : system) : Prop := {
  so_world : world_ok (sy_world s);
  so_threads : Forall (thread_ok (sy_world s) []) (sy_threads s);
  so_conc : conc_ok (sy_world s) (concat (sy_threads s));
  so_leak : leak_free (sy_world s) (concat (sy_threads s)) }.

Lemma initial_ok : system_ok (MkSystem initial_world []).
Proof.
  split; cbn.
  - split; cbn; try (intros; set_solver). apply NewRouter_ok.
  - constructor.
  - split; cbn; [|split|].
    + split; [constructor|]. intros u. split; [by intros ?%not_elem_of_nil|by intros (c & Hc & _)].
    + constructor.
    + cbn. lia.
    + intros ch Hch. by apply not_elem_of_nil in Hch.
    + intros ch Hch. set_solver.
    + intros a g d Ha. by apply not_elem_of_nil in Ha.
  - by intros [o|u] (y & Hy & _).
Qed.

(** What was returned to users exists. *)
Lemma returned_obj_ok w o : world_ok w -> returned_obj o w = true -> callbacks_ok w o.
Proof.
  intros Hw Hr. apply existsb_exists in Hr as (v & Hin & Hv). destruct v; try done. apply Nat.eqb_eq in Hv as ->.
  apply Hw. by apply list_elem_of_In.
Qed.

Lemma returned_udp_ok w u : world_ok w -> returned_udp u w = true -> udp_exists w u.
Proof.
  intros Hw Hr. apply existsb_exists in Hr as (v & Hin & Hv). destruct v; try done. apply Nat.eqb_eq in Hv as ->.
  apply Hw. by apply list_elem_of_In.
Qed.

Lemma callbacks_kind w o : callbacks_ok w o -> exists b, kind w o = Some b.
Proof. intros (x & Hx & _). unfold kind. rewrite Hx. by eexists. Qed.

(** A call starts a thread that refers to what exists and waits for nothing. *)
Lemma start_ok w c t : world_ok w -> start w c = Some t -> thread_ok w [] t /\ Forall quiet_act t.
Proof.
  intros Hw. destruct c; cbn [start]; intros H; simplify_eq; try (split; [by cbn|by repeat constructor]).
  - destruct c; split; by repeat constructor.
  - destruct (returned_obj o w) eqn:E; [|done]. injection H as <-. split; [|by repeat constructor].
    apply returned_obj_ok, callbacks_kind in E; [|done]. cbn. split_and!; try done. set_solver.
  - destruct (w_objs w !! l) as [ob|] eqn:Eo; [|done]. destruct (ob_listener ob) eqn:El; [|done]. cbn in H.
    destruct (returned_obj l w) eqn:E; [|done]. injection H as <-. split; [|by repeat constructor].
    apply returned_obj_ok in E; [|done]. cbn. split_and!; try done. unfold kind. rewrite Eo. cbn. by rewrite El.
  - destruct (returned_udp u w) eqn:E; [|done]. injection H as <-. apply returned_udp_ok in E; [|done]. split; [by cbn|by repeat constructor].
  - destruct (returned_udp u w) eqn:E; [|done]. injection H as <-. apply returned_udp_ok in E; [|done]. split; [by cbn|by repeat constructor].
  - destruct (returned_udp u w) eqn:E; [|done]. injection H as <-. apply returned_udp_ok in E; [|done]. split; [by cbn|by repeat constructor].
  - destruct (w_objs w !! o) as [ob|] eqn:Eo; [|done]. injection H as <-. split; [|by repeat constructor].
    cbn. split; [|done]. unfold kind. rewrite Eo. by eexists.
  - destruct (w_subs w !! s) as [sub|] eqn:Es; [|done]. destruct (su_active sub); [|done]. injection H as <-. split; [|by repeat constructor].
    cbn. split; [|done]. apply (wo_subs _ Hw). by eapply list_elem_of_lookup_2.
  - destruct (w_readers w !! i) as [[[u slot] o]|] eqn:Er; [|done]. injection H as <-. split; [|by repeat constructor].
    destruct (wo_readers _ Hw u slot o) as [H1 H2]; [by eapply list_elem_of_lookup_2|]. cbn. split_and!; try done. by apply exists_kind.
Qed.

(** Threads that wait for nothing may be added. *)
Lemma conc_ok_add w acts t : Forall quiet_act t -> conc_ok w acts -> conc_ok w (acts ++ t).
Proof.
  intros Hq [H1 H2 H3]. apply (conc_ok_parts w [] acts t Hq); cbn; try done.
Qed.

Lemma leak_free_add w acts t : leak_free w acts -> leak_free w (acts ++ t).
Proof.
  intros H f Hf. destruct (H f Hf) as [?|[?|?]]; [by left|by right; left|right; right]. rewrite held_all_app. set_solver.
Qed.

(** The other threads of a step. *)
Lemma concat_perm {A} (pre post : list (list A)) a rest : concat (pre ++ (a :: rest) :: post) ≡ₚ a :: (rest ++ concat pre ++ concat post).
Proof.
  rewrite concat_app. cbn. rewrite <- Permutation_middle. apply Permutation_cons; [done|].
  rewrite !app_assoc. f_equiv. apply Permutation_app_comm.
Qed.

Lemma concat_perm' {A} (pre post forked : list (list A)) acts rest :
  concat (pre ++ (acts ++ rest) :: post ++ forked) ≡ₚ acts ++ (rest ++ concat pre ++ concat post) ++ concat forked.
Proof.
  rewrite concat_app. cbn. rewrite concat_app. rewrite (Permutation_app_comm (concat pre)), <- !app_assoc.
  do 2 f_equiv. rewrite !app_assoc. rewrite <- (app_assoc (concat post)), (Permutation_app_comm (concat forked)), app_assoc.
  f_equiv. apply Permutation_app_comm.
Qed.

#[global] Instance leak_free_proper w : Proper ((≡ₚ) ==> iff) (leak_free w).
Proof.
  assert (Himp : forall l l', l ≡ₚ l' -> leak_free w l -> leak_free w l').
  { intros l l' E H f Hf. destruct (H f Hf) as [?|[?|Hin]]; [by left|by right; left|right; right].
    eapply held_all_mono; [|done]. intros b Hb. by rewrite <- E. }
  intros l l' E. split; by apply Himp.
Qed.

(** What a statement can rely on when it is its turn. *)
Lemma next_can_run w a others : conc_ok w (a :: others) -> can_run w a.
Proof.
  intros [[_ H1] H2 _]. destruct a; try done; cbn.
  - apply H1. set_solver.
  - apply (co_closing _ _ _ H2). set_solver.
Qed.

(** ** Steps *)

Lemma exec_step_ok w pre a rest post x w' acts forked :
  system_ok (MkSystem w (pre ++ (a :: rest) :: post)) -> exec x w a = Done (Some (w', acts, forked)) ->
  system_ok (MkSystem w' (pre ++ (acts ++ rest) :: post ++ forked)).
Proof.
  intros [Hw Ht Hc Hl] E. cbn [sy_world sy_threads] in *. rewrite concat_perm in Hc, Hl.
  apply Forall_app in Ht as [Hpre Ht]. apply Forall_cons in Ht as [[Ha Hrest] Hpost].
  pose proof (next_can_run _ _ _ Hc) as Hrun.
  destruct (exec_good x w Hw _ a Ha Hrun) as (res & E' & Hres). rewrite E in E'. injection E' as <-.
  destruct (Hres _ _ _ eq_refl) as (Hw' & He & Hacts & Hforked).
  destruct (exec_shape _ _ _ _ _ _ _ Hw Ha E) as [Hq Hshape].
  pose proof (exec_hands x w Hw _ _ _ _ _ Ha E) as Hh.
  pose proof (conc_ok_step _ _ _ _ _ _ Hq Hshape Hc) as Hc'.
  split; cbn [sy_world sy_threads]; [done| |by rewrite concat_perm'|].
  - assert (Hmono : forall t, thread_ok w [] t -> thread_ok w' [] t) by (intros t; by apply thread_ok_mono).
    rewrite Forall_app, Forall_cons, Forall_app. split_and!; try done; try (eapply Forall_impl; [eassumption|done]).
    apply thread_ok_app. split; [done|]. by apply Hmono.
  - rewrite concat_perm'. eapply leak_free_step; [done| |apply Hc'|done]. rewrite !held_all_app. set_solver.
Qed.

Lemma call_step_ok w threads c t : system_ok (MkSystem w threads) -> start w c = Some t -> system_ok (MkSystem w (threads ++ [t])).
Proof.
  intros [Hw Ht Hc Hl] E. destruct (start_ok _ _ _ Hw E) as [H1 H2]. cbn in *.
  split; cbn; rewrite ?concat_app; cbn; rewrite ?app_nil_r; [done| |by apply conc_ok_add|by apply leak_free_add].
  apply Forall_app. split; [done|]. by constructor.
Qed.

(** A listener whose sockets and state stay the same. *)
Lemma listener_step_ok w threads u c d : system_ok (MkSystem w threads) -> w_udps w !! u = Some c ->
  uc_backends d = uc_backends c -> uc_closed d = uc_closed c -> uc_once d = uc_once c -> uc_beforeClose d = uc_beforeClose c ->
  system_ok (MkSystem (put_udp w u d) threads).
Proof.
  intros [Hw Ht Hc Hl] Hu E1 E2 E3 E4. cbn [sy_world sy_threads] in *.
  pose proof (extends_put_udp w u d) as He. split; cbn [sy_world sy_threads].
  - apply world_ok_put_udp; [done|]. destruct (wo_udps _ Hw u c Hu) as [H1 H2 H3 H4]. split; rewrite ?E1, ?E2, ?E3, ?E4; done.
  - eapply Forall_impl; [exact Ht|]. intros t. by apply thread_ok_mono.
  - rewrite <- (app_nil_r (concat threads)). apply (conc_ok_plain w (AReturn RetOK) _ [] (concat threads) []); try done.
    + by apply (pending_put w u c d).
    + destruct Hc as [G1 G2 G3]. split; [done|done|]. intros a g e [->|Hin]%elem_of_cons; [done|by apply G3].
  - intros f Hf. destruct (Hl f) as [?|[(v & e & k & o & -> & Hv & Hop & Hk)|?]]; [|by left| |by right; right].
    + destruct f as [o|v]; [done|]. destruct Hf as (e & He' & Hop). cbn in He'.
      apply list_lookup_insert_Some in He' as [(-> & <- & _)|[_ ?]]; [exists c; split; congruence|by exists e].
    + right; left. pose proof (lookup_lt_Some _ _ _ Hu) as Hlt. destruct (decide (v = u)) as [->|Hne].
      * rewrite Hu in Hv. injection Hv as <-. exists u, d, k, o. cbn. rewrite list_lookup_insert_eq by done. split_and!; congruence.
      * exists v, e, k, o. cbn. by rewrite list_lookup_insert_ne.
Qed.

Lemma router_step_ok s s' : system_ok s -> step s s' -> system_ok s'.
Proof.
  intros Hs Hst. destruct Hst as [w threads c t E|w pre a rest post x w' acts forked E|w threads i u slot o c cap p c' _ Hu E|w threads u c f Hu Hf].
  - by eapply call_step_ok.
  - by eapply exec_step_ok.
  - unfold receive in E. case_bool_decide; [|done]. injection E as <-. by eapply listener_step_ok.
  - destruct Hf; by eapply listener_step_ok.
Qed.

Lemma router_reachable_ok s : reachable s -> system_ok s.
Proof. intros H. eapply (rtc_ind_r (fun s => system_ok s)); [apply initial_ok| |exact H]. intros y z _ Hyz Hy. by eapply router_step_ok. Qed.

Lemma concat_quiet (ts : list thread) : Forall (fun t => t = []) ts -> concat ts = [].
Proof. induction 1 as [|t ts -> _ IH]; done. Qed.

(** ** What holds in every reachable state *)


(** C8. In every reachable state the Router is up exactly when it is wanted up,
    some attached backend is up and it is not closed; while it is not up it
    tracks no object, no object of any slot and no UDP listener; the table of a
    slot and the table of UDP listeners hold objects that are tracked, and every
    tracked object is in one of them. *)
Theorem router_state_consistent s : reachable s ->
  let r := w_router (sy_world s) in
  (rt_up r = true <-> lf_wantUp (rt_life r) = true /\ rt_closed r = false /\ any_slot_up (rt_slots r) (st_slotUp (rt_table r)) = true) /\
  (rt_up r = false -> rt_closers r = ∅ /\ (forall k m, rt_bySlot r !! k = Some m -> m = ∅) /\ rt_udp r = ∅) /\
  (forall k m i c, rt_bySlot r !! k = Some m -> m !! i = Some c -> rt_closers r !! i = Some c) /\
  (forall i u, rt_udp r !! i = Some u -> rt_closers r !! i = Some (UDPListener u)) /\
  (forall i c, rt_closers r !! i = Some c ->
     (exists k m, rt_bySlot r !! k = Some m /\ m !! i = Some c) \/ (exists u, c = UDPListener u /\ rt_udp r !! i = Some u)).
Proof.
  intros [Hw _ _ _]%router_reachable_ok r. pose proof (wo_router _ Hw) as [H1 H2 H3 H4 H5]. fold r in H1, H2, H3, H4, H5. split_and!.
  - rewrite H3, H4. destruct (lf_wantUp _), (rt_closed r), (any_slot_up _ _); naive_solver.
  - intros Hd. split; [by apply H5|]. split; [intros k m; apply (bySlot_empty _ _ _ _ H2 (H5 Hd))|].
    apply map_eq. intros i. rewrite lookup_empty. destruct (rt_udp r !! i) as [u|] eqn:E; [|done].
    apply (to_udp _ _ H2) in E as [E _]. change (rt_closers r !! i = Some (UDPListener u)) in E. by rewrite (H5 Hd), lookup_empty in E.
  - intros k m i c Hk Hi. by apply (to_bySlot _ _ H2 k m i c Hk Hi).
  - intros i u Hu. by apply (to_udp _ _ H2 i u Hu).
  - apply (to_cover _ _ H2).
Qed.

(** C7. Nothing leaks: when all threads have returned and the Router is down or
    closed, every connection, listener, accepted connection and UDP socket that a
    backend ever returned to the Router is closed, and so is every UDP listener of
    the Router. *)
Theorem router_leaks_nothing s : reachable s -> quiet s -> rt_up (w_router (sy_world s)) = false ->
  (forall o x, w_objs (sy_world s) !! o = Some x -> ob_open x = false) /\
  (forall u c, w_udps (sy_world s) !! u = Some c -> uc_closed c = true).
Proof.
  intros [Hw _ _ Hl]%router_reachable_ok Hq Hd. pose proof (ro_down _ _ (wo_router _ Hw) Hd) as He.
  rewrite (concat_quiet _ Hq) in Hl.
  assert (Hu : forall u c, w_udps (sy_world s) !! u = Some c -> uc_closed c = true).
  { intros u c Hc. destruct (uc_closed c) eqn:E; [done|]. destruct (Hl (RUdp u)) as [(i & d & Hi & _)|[(v & d & k & o & [=] & _)|Hin]].
    - by exists c.
    - rewrite He, lookup_empty in Hi. done.
    - by apply not_elem_of_nil in Hin. }
  split; [|done]. intros o x Hx. destruct (ob_open x) eqn:E; [|done].
  destruct (Hl (RObj o)) as [(i & d & Hi & _)|[(v & d & k & p & _ & Hv & Hop & _)|Hin]].
  - by exists x.
  - rewrite He, lookup_empty in Hi. done.
  - apply Hu in Hv. congruence.
  - by apply not_elem_of_nil in Hin.
Qed.

(** C9. Cancellation: an operation in progress waits on the channel of the
    generation in which it began.  As long as that generation lasts, the Router is
    up and the channel is open; when the Router went down or was closed since, the
    channel is closed or a thread is about to close it.  So once the other threads
    have returned, the operation can be abandoned with [net.ErrClosed]. *)
Theorem router_cancels_pending s t a gen d : reachable s -> t ∈ sy_threads s -> a ∈ t -> wait_of a = Some (Some gen, d) ->
  let r := w_router (sy_world s) in
  (gen = rt_gen r -> rt_up r = true /\ d = rt_done r /\ d ∉ w_chclosed (sy_world s)) /\
  (gen <> rt_gen r -> d ∈ w_chclosed (sy_world s) \/ exists t', t' ∈ sy_threads s /\ ACloseDone d ∈ t').
Proof.
  intros [_ _ [_ Hch Hw] _]%router_reachable_ok Ht Ha Hd r.
  assert (Hin : a ∈ concat (sy_threads s)). { apply list_elem_of_In, in_concat. exists t. by rewrite <- !list_elem_of_In. }
  destruct (Hw a _ _ Hin Hd) as (H1 & _ & H2). destruct (H1 gen eq_refl) as (_ & H3 & H4). split.
  - intros Hg. destruct (H3 Hg) as [Hup Hdone]. split_and!; try done. intros Hc. by apply (co_closed _ _ _ Hch) in Hc as [_ Hc]; apply Hc.
  - intros Hg. destruct H2 as [[Hup Hdone]|[?|Hc]]; [by destruct Hg; apply H4|by left|right].
    unfold closing_chs in Hc. apply list_elem_of_omap in Hc as (b & Hb & Eb). destruct b; try done. injection Eb as ->.
    apply list_elem_of_In, in_concat in Hb as (t' & Ht' & Hb). exists t'. by rewrite !list_elem_of_In.
Qed.
