(* ===== verification/RouterRaces.v ===== *)
(** * The network router: concrete interleavings

    A schedule is a list of calls and of statements executed by a thread with
    the answers of an oracle; playing it gives a reachable state.  Schedules show
    that the theorems of RouterSpec are about states that occur, and four
    interleavings in which a promise of the documentation is not kept. *)

From S2P Require Import Prelude GoStd NetIP Reject Callbacks NetRouter RouterUDP RouterSys RouterInv RouterThreads RouterSafe RouterChannels RouterLeak RouterSpec.

(** ** Schedules *)

Inductive event : Type :=
| Call (c : call)
| Exec (i : nat) (x : oracle).

Definition play1 (s : system) (e : event) : option system :=
  match e with
  | Call c => t ← start (sy_world s) c; Some (MkSystem (sy_world s) (sy_threads s ++ [t]))
  | Exec i x =>
      match sy_threads s !! i with
      | Some (a :: rest) =>
          match exec x (sy_world s) a with
          | Done (Some (w', acts, forked)) => Some (MkSystem w' (<[i := acts ++ rest]> (sy_threads s) ++ forked))
          | _ => None
          end
      | _ => None
      end
  end.

Fixpoint play (s : system) (es : list event) : option system :=
  match es with
  | [] => Some s
  | e :: es => s' ← play1 s e; play s' es
  end.

Lemma play1_step s e s' : play1 s e = Some s' -> step s s'.
Proof.
  destruct s as [w threads], e as [c|i x]; cbn.
  - destruct (start w c) as [t|] eqn:E; [|done]. intros [= <-]. by eapply step_call.
  - destruct (threads !! i) as [[|a rest]|] eqn:Ei; [done| |done].
    destruct (exec x w a) as [[[[w' acts] forked]|]| |] eqn:E; try done. intros [= <-].
    rewrite <- (take_drop_middle threads i (a :: rest) Ei) at 1.
    assert (Hlt : (i < length threads)%nat) by (by eapply lookup_lt_Some).
    rewrite insert_take_drop by done. rewrite <- app_assoc. cbn. by eapply step_exec.
Qed.

Lemma play_reachable es s s' : reachable s -> play s es = Some s' -> reachable s'.
Proof.
  revert s. induction es as [|e es IH]; intros s Hs; cbn; [by intros [= <-]|].
  destruct (play1 s e) as [s1|] eqn:E; [|done]. intros Hp. eapply IH; [|done]. eapply rtc_r; [done|by apply play1_step in E].
Qed.

(** The state after a schedule. *)
Definition after (es : list event) : option system := play (MkSystem initial_world []) es.

Lemma after_reachable es s : after es = Some s -> reachable s.
Proof. apply play_reachable. apply rtc_refl. Qed.

(** ** An obliging environment *)

(** Every call succeeds and every backend is up; the configuration always
    selects slot 1. *)
Definition calm : oracle :=
  MkOracle 0 true (External 0) true true false (MkNetAddr "udp" "192.0.2.1:4000") TakeResult Received
    (fun _ => MkCfg (fun _ _ _ => 1) (fun _ _ => 1) (fun _ _ _ => 1) (fun _ _ _ => 1) (fun _ _ => 1))
    (fun _ => MkResolver (fun _ _ => Failure (External 1)) (fun _ => Failure (External 1))) 0 0.

(** Thread [i] executes [n] statements. *)
Definition runs (i n : nat) : list event := replicate n (Exec i calm).

(** Backends 10 and 20 are attached to slots 1 and 2. *)
Definition attached : list event :=
  Call (CAttach 1 (Some 10%nat)) :: runs 0 7 ++ Call (CAttach 2 (Some 20%nat)) :: runs 1 7.

Definition slot_of (r : Router) (k : nat) : option nat := default None (rt_slots r !! k).

Definition dial : call := COpen (DialTCP "tcp" "" "198.51.100.7:443").

Lemma after_exists es (P : system -> Prop) : match after es with Some s => P s | None => False end -> exists s, reachable s /\ P s.
Proof. destruct (after es) as [s|] eqn:E; [|done]. intros HP. exists s. split; [by eapply after_reachable|done]. Qed.

(** ** Promises that are not kept *)

(** [Detach] misses connections in flight.  The documentation says that
    detaching a backend closes every connection that was opened through the slot.
    Here a dial through slot 1 has got its connection from backend 10 and has not
    yet registered it when slot 1 is detached; after [Detach] returned, the dial
    registers the connection under slot 1, which has no backend any more, and
    returns it, open.  The generation that the registration checks is the one of
    the Router, which stays up through slot 2, and not the one of the slot. *)
Theorem detach_misses_connection : exists s, reachable s /\ quiet s /\ rt_up (w_router (sy_world s)) = true /\
  slot_of (w_router (sy_world s)) 0 = None /\ w_returned (sy_world s) = [RetOK; RetOK; RetOK; RetObj 0] /\
  (exists x, w_objs (sy_world s) !! 0%nat = Some x /\ ob_backend x = 10%nat /\ ob_open x = true) /\
  (exists m, rt_bySlot (w_router (sy_world s)) !! 0%nat = Some m /\ m !! 0%nat = Some (Wrapped 0)).
Proof.
  apply (after_exists (attached ++ Call dial :: runs 2 7 ++ Call (CAttach 1 None) :: runs 3 4 ++ runs 2 5)).
  vm_compute. split_and!; [by repeat constructor|done|done|done|by eexists|]. eexists. split; [done|]. reflexivity.
Qed.

(** A subscriber can be left behind.  [SubscribeUpDown] promises that the
    subscriber follows the Router's state, but transitions notify subscribers
    after the mutex is released: here [Down] and [Up] overlap, [Up] notifies first,
    and the subscriber is told last that the Router is down while it is up. *)
Theorem subscriber_left_behind : exists s, reachable s /\ quiet s /\ rt_up (w_router (sy_world s)) = true /\
  sb_updowns (rt_subs (w_router (sy_world s))) !! 0%nat = Some 7%nat /\ w_told (sy_world s) !! 7%nat = Some false.
Proof.
  apply (after_exists (Call (CSubscribeUpDown 7) :: runs 0 3 ++ Call (CAttach 1 (Some 10%nat)) :: runs 1 8 ++
    Call CDown :: runs 2 1 ++ Call CUp :: runs 3 3 ++ runs 2 3)).
  vm_compute. split_and!; by repeat constructor.
Qed.

(** Two attachments of one slot that overlap can leave the slot with one backend
    and a subscription at the other: [watchSlot] reads the generation of the slot
    in a section of its own, after the other attachment. *)
Theorem slot_watches_other_backend : exists s, reachable s /\ quiet s /\ slot_of (w_router (sy_world s)) 0 = Some 20%nat /\
  exists i sub, st_slotSub (rt_table (w_router (sy_world s))) !! 0%nat = Some (Some i) /\ w_subs (sy_world s) !! i = Some sub /\
    su_backend sub = 10%nat /\ su_active sub = true.
Proof.
  apply (after_exists (Call (CAttach 1 (Some 10%nat)) :: runs 0 2 ++ Call (CAttach 1 (Some 20%nat)) :: runs 1 7 ++ runs 0 6)).
  vm_compute. split_and!; [by repeat constructor|done|]. by eexists _, _.
Qed.

(** A UDP listener that is being set up while a slot is detached keeps a socket of
    the detached backend: the backends are read in one section and opened after
    it. *)
Theorem listener_keeps_detached_socket : exists s, reachable s /\ quiet s /\ slot_of (w_router (sy_world s)) 0 = None /\
  exists c o x, w_udps (sy_world s) !! 0%nat = Some c /\ uc_closed c = false /\ uc_backends c !! 0%nat = Some (Some o) /\
    w_objs (sy_world s) !! o = Some x /\ ob_backend x = 10%nat /\ ob_open x = true.
Proof.
  apply (after_exists (attached ++ Call (COpen (ListenUDP "udp" "127.0.0.1:0")) :: runs 2 7 ++ Call (CAttach 1 None) :: runs 3 5 ++ runs 2 7)).
  vm_compute. split_and!; [by repeat constructor|done|]. by eexists _, _, _.
Qed.

(** ** The theorems at concrete states *)

(** A dial in progress when [Down] has stopped the generation but not yet closed
    its channel. *)
Definition stopping : list event := attached ++ Call dial :: runs 2 6 ++ Call CDown :: runs 3 1.


Lemma router_state_consistent_witness : exists s, reachable s /\ rt_up (w_router (sy_world s)) = false /\ rt_closers (w_router (sy_world s)) = ∅.
Proof.
  destruct (after_exists stopping (fun s => rt_up (w_router (sy_world s)) = false)) as (s & Hr & Hu); [by vm_compute|].
  exists s. split; [done|]. split; [done|]. by apply (router_state_consistent s Hr).
Defined.

Lemma router_leaks_nothing_witness : exists s x, reachable s /\ quiet s /\ w_objs (sy_world s) !! 0%nat = Some x /\ ob_open x = false.
Proof.
  destruct (after_exists (attached ++ Call dial :: runs 2 12 ++ Call CDown :: runs 3 6)
    (fun s => quiet s /\ rt_up (w_router (sy_world s)) = false /\ exists x, w_objs (sy_world s) !! 0%nat = Some x)) as (s & Hr & Hq & Hu & x & Hx).
  { vm_compute. split_and!; [by repeat constructor|done|by eexists]. }
  exists s, x. split_and!; try done. destruct (router_leaks_nothing s Hr Hq Hu) as [Hc _]. by apply (Hc 0%nat).
Defined.

Lemma router_cancels_pending_witness : exists s t', reachable s /\ t' ∈ sy_threads s /\ ACloseDone 1 ∈ t'.
Proof.
  destruct (after_exists stopping (fun s => (exists t a, sy_threads s !! 2%nat = Some t /\ a ∈ t /\ wait_of a = Some (Some 2%nat, 1%nat)) /\
    rt_gen (w_router (sy_world s)) = 3%nat /\ w_chclosed (sy_world s) = ∅)) as (s & Hr & (t & a & Ht & Ha & Hw) & Hg & Hc).
  { vm_compute. split_and!; [|done|done]. eexists _, _. split; [done|]. split; [by constructor|done]. }
  apply list_elem_of_lookup_2 in Ht. exists s.
  destruct (router_cancels_pending s t a 2 1 Hr Ht Ha Hw) as [_ [Hin|(t' & Ht' & Hin)]]; [by rewrite Hg|rewrite Hc in Hin; set_solver|].
  by exists t'.
Defined.
