(* ===== verification/RouterOps.v ===== *)
(** * The network router: one operation

    What an operation returns when no other thread intervenes: the abstract
    outcome of a routed call, as a function of the Router, its configuration and
    its resolver, and the errors of rejected calls, which are those of the
    rejecting network. *)

From S2P Require Import Prelude GoStd HostPort NetIP Reject Callbacks NetRouter RouterUDP RouterSys RouterInv RouterThreads RouterSafe RouterChannels RouterSpec RouterRaces.

(** ** Running a thread *)

(** The thread runs to its end with the answers of one oracle; absent when the
    fuel is too small, when it blocks or when it starts another thread. *)
Fixpoint alone (fuel : nat) (x : oracle) (w : world) (t : thread) : option world :=
  match t with
  | [] => Some w
  | a :: rest =>
      match fuel with
      | O => None
      | S fuel =>
          match exec x w a with
          | Done (Some (w', acts, [])) => alone fuel x w' (acts ++ rest)
          | _ => None
          end
      end
  end.

(** ** Rejected calls *)

(** The error of a call without a backend is the one of the rejecting network. *)
Lemma reject_routed_network op : reject_routed op = reject_open (backend_call op).
Proof. by destruct op. Qed.

Lemma lookup_reject_network c : lookup_reject c = reject_lookup c.
Proof. by destruct c. Qed.

(** ** The outcome of a routed call *)

(** Both addresses are resolved, the local one first. *)
Definition resolved (res : option Resolver) (op : routedOp) : result error routedOp :=
  try! laddr := resolveNetAddr res (op_network op) (op_laddr op) in
  let op := set_addr op true laddr in
  match op_raddr op with
  | None => Success op
  | Some raddr => try! raddr := resolveNetAddr res (op_network op) raddr in Success (set_addr op false raddr)
  end.

(** The attached backend of a slot. *)
Definition backend_of (r : Router) (slot : Z) : option nat :=
  if routerValidSlot slot then default None (index (rt_slots r) (slot - 1)) else None.

(** The backend that is called and its slot, or the error. *)
Definition routed_outcome (x : oracle) (r : Router) (op : routedOp) : result error (Z * nat) :=
  if is_stopped r then Failure ErrClosed
  else try! op := resolved (or_res x <$> rt_res r) op in
       let slot := select_slot (or_cfg x <$> rt_cfg r) op in
       match backend_of r slot with
       | None => Failure (reject_open (backend_call op))
       | Some b => if or_ok x then Success (slot, b) else Failure (or_err x)
       end.

(** The world after the call: it returned the error, or an open object of the
    backend which is tracked under the slot. *)
Definition routed_result (x : oracle) (w w' : world) (out : result error (Z * nat)) : Prop :=
  match out with
  | Failure e => w' = with_returned w (w_returned w ++ [RetErr e])
  | Success (slot, b) =>
      let o := length (w_objs w) in
      w_returned w' = w_returned w ++ [RetObj o] /\
      (exists ob, w_objs w' = w_objs w ++ [ob] /\ ob_backend ob = b /\ ob_open ob = true) /\
      rt_closers (w_router w') = <[tk_nextID (rt_tracked (w_router w)) := Wrapped o]> (rt_closers (w_router w)) /\
      (exists m, rt_bySlot (w_router w') !! Z.to_nat (slot - 1) = Some m /\ m !! tk_nextID (rt_tracked (w_router w)) = Some (Wrapped o)) /\
      rt_life (w_router w') = rt_life (w_router w) /\ rt_table (w_router w') = rt_table (w_router w)
  end.

(** One statement. *)
Lemma alone_S n x w a rest w' acts : exec x w a = Done (Some (w', acts, [])) -> alone (S n) x w (a :: rest) = alone n x w' (acts ++ rest).
Proof. intros E. cbn [alone]. by rewrite E. Qed.

Lemma alone_fail n x w e : alone (S n) x w (fail e) = Some (with_returned w (w_returned w ++ [RetErr e])).
Proof. by destruct n. Qed.

(** The thread executes its next statement, whose sections are known. *)
Ltac stmt tac := erewrite alone_S; [|cbn [exec exec_op exec_lookup]; tac; reflexivity]; cbn [app].

Lemma track_slot slot i c r r' : track slot i c r = Done r' -> routerValidSlot slot = true ->
  exists m, rt_bySlot r' !! Z.to_nat (slot - 1) = Some m /\ m !! i = Some c /\ rt_table r' = rt_table r.
Proof.
  intros E Hv%valid_slot_range. unfold track in E. replace (0 <? slot) with true in E by lia.
  destruct (index (tk_bySlot (rt_tracked r)) (slot - 1)) as [m|] eqn:Em; [|done]. injection E as <-.
  apply index_lookup in Em as [Em _]. exists (<[i := c]> m). cbn. split; [|by rewrite lookup_insert_eq].
  unfold rt_bySlot. cbn. apply list_lookup_insert_eq. by eapply lookup_lt_Some.
Qed.

Section Alone.
Context (x : oracle) (w : world) (Hw : world_ok w).

(** The call of the backend and the tracking of what it returns. *)
Lemma alone_call op slot b : or_branch x = TakeResult -> is_stopped (w_router w) = false -> routerValidSlot slot = true -> or_ok x = true ->
  exists w', alone 7 x w [ACall op (rt_gen (w_router w)) (rt_done (w_router w)) slot b] = Some w' /\ routed_result x w w' (Success (slot, b)).
Proof.
  intros Hx Hs Hv Hok. pose proof (wo_router _ Hw) as Hr. set (o := length (w_objs w)). set (i := tk_nextID (rt_tracked (w_router w))).
  assert (Hst : is_stale (rt_gen (w_router w)) (w_router w) = false) by (unfold is_stale; by rewrite Hs, Nat.eqb_refl).
  set (ob := wrap_object (track_callbacks op i slot) (new_object b (is_listen op) x)).
  assert (Hr' : router_ok (<[i := (RObj o, slot)]> (w_ids w)) (next_id (w_router w))).
  { destruct Hr as [H1 H2 H3 H4 H5]. split; try done. by apply tracked_ok_reserve. }
  apply is_stopped_false in Hs as [Hup Hcl].
  destruct (track_ok _ _ slot i (Wrapped o) Hr' Hup Hv) as (r & Et & Hr'' & El & Ec & _); [by rewrite lookup_insert_eq|].
  assert (Hget : forall w1, w_objs w1 = w_objs w ++ [new_object b (is_listen op) x] -> get_obj w1 o = Done (new_object b (is_listen op) x)).
  { intros w1 E. unfold get_obj. by rewrite E, lookup_app_r, Nat.sub_diag by done. }
  eexists. split.
  - stmt ltac:(rewrite Hok). stmt ltac:(unfold runDetachedOp; rewrite Hx, Hok). stmt ltac:(unfold runDetachedOp; rewrite Hx).
    stmt ltac:(unfold reserveTracked; cbn [w_router with_objs]; rewrite Hst). fold i. fold o.
    stmt ltac:(rewrite Hget by done; cbn [run_bind]). fold ob.
    stmt ltac:(unfold finishTracked; cbn [w_router with_objs with_ids with_router put_obj];
      change (is_stale (rt_gen (w_router w)) (next_id (w_router w))) with (is_stale (rt_gen (w_router w)) (w_router w));
      rewrite Hst, Et; cbn [run_bind]).
    stmt ltac:(idtac). reflexivity.
  - cbn. split; [done|]. split.
    + exists ob. split; [|by unfold ob]. unfold o. rewrite insert_app_r_alt, Nat.sub_diag by lia. done.
    + destruct (track_slot _ _ _ _ _ Et Hv) as (m & Hm & Hi & Htab). split; [done|]. split; [by exists m|done].
Qed.

Lemma backend_of_slot slot : slot_backend slot (w_router w) = Done (backend_of (w_router w) slot).
Proof.
  destruct (slot_backend_safe _ slot _ (wo_router _ Hw)) as (b & E & _). rewrite E. unfold slot_backend, backend_of in *.
  destruct (routerValidSlot slot); [|congruence]. destruct (index _ _); cbn in *; congruence.
Qed.

(** From the selection of the slot on. *)
Local Lemma alone_select op : or_branch x = TakeResult -> is_stopped (w_router w) = false ->
  exists w', alone 9 x w [ASelect op (rt_gen (w_router w)) (rt_done (w_router w))] = Some w' /\
    routed_result x w w' (let slot := select_slot (or_cfg x <$> rt_cfg (w_router w)) op in
      match backend_of (w_router w) slot with
      | None => Failure (reject_open (backend_call op))
      | Some b => if or_ok x then Success (slot, b) else Failure (or_err x)
      end).
Proof.
  intros Hx Hs. assert (Hst : is_stale (rt_gen (w_router w)) (w_router w) = false) by (unfold is_stale; by rewrite Hs, Nat.eqb_refl).
  stmt ltac:(unfold routeStarted_cfg; rewrite Hst). set (slot := select_slot _ op). cbn zeta.
  destruct (backend_of (w_router w) slot) as [b|] eqn:Eb.
  - stmt ltac:(unfold routeStarted_slot; rewrite Hst, backend_of_slot, Eb; cbn [run_bind]). destruct (or_ok x) eqn:Eok.
    + apply alone_call; try done. unfold backend_of in Eb. by destruct (routerValidSlot slot).
    + stmt ltac:(rewrite Eok). rewrite app_nil_r, alone_fail. by eexists.
  - stmt ltac:(unfold routeStarted_slot; rewrite Hst, backend_of_slot, Eb; cbn [run_bind]). rewrite app_nil_r, alone_fail.
    rewrite reject_routed_network. by eexists.
Qed.

(** C10. A dial or listen operation that no other thread interrupts computes its
    abstract outcome: [net.ErrClosed] when the Router is stopped; else the
    addresses are resolved with the Router's resolver, the configuration (slot 1
    without one) selects a slot, and the call goes to the backend of that slot;
    an invalid or empty slot gives the error of the rejecting network for the
    resolved call.  A successful call returns an open object of that backend,
    tracked under that slot, and changes nothing else of the Router's slots and
    lifecycle; a failed call changes nothing.  Twelve statements are enough. *)
Theorem routed_operation_outcome op : or_branch x = TakeResult ->
  exists w', alone 12 x w [ABegin op] = Some w' /\ routed_result x w w' (routed_outcome x (w_router w) op).
Proof.
  intros Hx. unfold routed_outcome. destruct (is_stopped (w_router w)) eqn:Hs.
  - stmt ltac:(unfold begin; rewrite Hs). rewrite app_nil_r, alone_fail. by eexists.
  - stmt ltac:(unfold begin; rewrite Hs).
    assert (Hres : resolver_now x w = or_res x <$> rt_res (w_router w)) by (unfold resolver_now, resolverSnapshot; by rewrite Hs).
    unfold resolved. destruct (resolveNetAddr _ _ (op_laddr op)) as [l|e] eqn:El; cbn [result_bind].
    + stmt ltac:(rewrite Hres, El). destruct op as [n l0 r0|n l0|n l0 r0]; cbn [op_raddr set_addr op_network] in *.
      * destruct (resolveNetAddr _ n r0) as [r|e] eqn:Er; cbn [result_bind].
        -- stmt ltac:(cbn [op_raddr op_network]; rewrite Hres, Er). by apply alone_select.
        -- stmt ltac:(cbn [op_raddr op_network]; rewrite Hres, Er). rewrite app_nil_r, alone_fail. by eexists.
      * stmt ltac:(cbn [op_raddr]). by apply alone_select.
      * destruct (resolveNetAddr _ n r0) as [r|e] eqn:Er; cbn [result_bind].
        -- stmt ltac:(cbn [op_raddr op_network]; rewrite Hres, Er). by apply alone_select.
        -- stmt ltac:(cbn [op_raddr op_network]; rewrite Hres, Er). rewrite app_nil_r, alone_fail. by eexists.
    + stmt ltac:(rewrite Hres, El). rewrite app_nil_r, alone_fail. by eexists.
Qed.

(** What a lookup returns: the resolver of the Router answers when there is one,
    else the backend of the selected slot. *)
Definition lookup_outcome (c : lookupCall) : ret :=
  let r := w_router w in
  if is_stopped r then RetErr ErrClosed
  else
    let answer := if or_ok x then RetValue (or_value x) else RetErr (or_err x) in
    match rt_res r with
    | Some _ => answer
    | None =>
        match backend_of r (lookup_slot (or_cfg x <$> rt_cfg r) (lookup_route c).1 (lookup_route c).2) with
        | None => RetErr (reject_lookup c)
        | Some _ => answer
        end
    end.

Theorem lookup_operation_outcome c : or_branch x = TakeResult ->
  alone 5 x w [ALookup c] = Some (with_returned w (w_returned w ++ [lookup_outcome c])).
Proof.
  intros Hx. unfold lookup_outcome. destruct (is_stopped (w_router w)) eqn:Hs.
  - stmt ltac:(unfold resolverSnapshot; rewrite Hs). stmt ltac:(unfold beginLookup_cfg; rewrite Hs). by rewrite app_nil_r, alone_fail.
  - destruct (rt_res (w_router w)) as [res|] eqn:Er.
    + stmt ltac:(unfold resolverSnapshot; rewrite Hs, Er). stmt ltac:(unfold begin; rewrite Hs).
      stmt ltac:(unfold runDetachedOp; rewrite Hx). by destruct (or_ok x).
    + stmt ltac:(unfold resolverSnapshot; rewrite Hs, Er). stmt ltac:(unfold beginLookup_cfg; rewrite Hs). cbn zeta.
      destruct (backend_of (w_router w) _) as [b|] eqn:Eb.
      * stmt ltac:(unfold beginLookup_slot; rewrite Hs, backend_of_slot, Eb; cbn [run_bind]).
        stmt ltac:(unfold runDetachedOp; rewrite Hx). by destruct (or_ok x).
      * stmt ltac:(unfold beginLookup_slot; rewrite Hs, backend_of_slot, Eb; cbn [run_bind]).
        by rewrite app_nil_r, alone_fail, lookup_reject_network.
Qed.
End Alone.

Lemma routed_operation_outcome_witness : exists s w' x, reachable s /\ alone 12 calm (sy_world s) [ABegin (RDialTCP "tcp" "" "198.51.100.7:443")] = Some w' /\
  w_objs w' = w_objs (sy_world s) ++ [x] /\ ob_backend x = 10%nat.
Proof.
  destruct (after_exists attached (fun s => routed_outcome calm (w_router (sy_world s)) (RDialTCP "tcp" "" "198.51.100.7:443") = Success (1, 10%nat)))
    as (s & Hr & Ho); [by vm_compute|]. exists s.
  destruct (routed_operation_outcome calm (sy_world s) (so_world _ (router_reachable_ok _ Hr)) (RDialTCP "tcp" "" "198.51.100.7:443") eq_refl) as (w' & Ha & Hres).
  rewrite Ho in Hres. destruct Hres as (_ & (x & Hx & Hb & _) & _). by exists w', x.
Defined.
