(* ===== verification/Classifier.v ===== *)
(** Protocol classifiers: the interface of src/sniffer/classifier.go.

    A classifier is an object that is fed the bytes of a stream chunk by chunk
    and answers after each chunk.  [Classifier] is the interface: the answer
    and the new object of one [Feed], the minimum size of a sniff buffer, and
    the metadata of a match.  [tracks] and [implements] are the contract of the
    interface: the object answers after every chunk with the verdict of one
    function on the bytes seen so far, whatever the chunks were; a verdict that
    is not [NeedMore] is final; and the verdict is final once the stream is as
    long as the minimum size of the sniff buffer.  The combinators and [Sniff]
    are proved against the contract, the protocols of the package discharge it.

    The three declared constants are the values of [State]; a classifier is a
    value, so an object that occurs twice below a combinator is two objects. *)

From S2P Require Import Prelude.

Inductive State : Type := NeedMore | Match | Mismatch.

#[global] Instance State_eq_dec : EqDecision State.
Proof. solve_decision. Defined.

(** [state != NeedMore] *)
Definition terminal (st : State) : bool :=
  match st with NeedMore => false | _ => true end.

Definition is_Match (st : State) : bool := match st with Match => true | _ => false end.
Definition is_Mismatch (st : State) : bool := match st with Mismatch => true | _ => false end.

(** What a classifier reports about a match: a value of its own, or the
    metadata of the children of a conjunction. *)
Inductive metadata (M : Type) : Type :=
| Value (m : M)
| CompositeMetadata (Children : list (option (metadata M))).

Arguments Value {M} m.
Arguments CompositeMetadata {M} Children.

Class Classifier (M C : Type) : Type := {
  Feed : C -> list byte -> run (C * State);
  MinSniffBufferSize : C -> Z;
  Metadata : C -> option (metadata M) }.

(** [checkedMinSniffBufferSize] *)
Definition checkedMinSniffBufferSize (size : Z) : run Z :=
  if size <? 0 then Panicked else Done size.

(** The loop of [MinSniffBufferSize] and of [MinFactorySniffBufferSize]: the
    largest of the sizes. *)
Fixpoint largest_size (minSize : Z) (sizes : list Z) : run Z :=
  match sizes with
  | [] => Done minSize
  | size :: rest =>
      let! size := checkedMinSniffBufferSize size in
      largest_size (if size >? minSize then size else minSize) rest
  end.

(** A factory: the size it reports and the classifier it makes. *)
Record Factory (C : Type) : Type := MkFactory {
  f_size : Z;
  NewClassifier : run C }.

Arguments MkFactory {C} f_size NewClassifier.
Arguments f_size {C} f.
Arguments NewClassifier {C} f.

Definition FactoryFunc {C} (f : run C) : Factory C := MkFactory 0 f.

Definition FactoryWithMinSniffBufferSize {C} (minSize : Z) (factory : Factory C) : run (Factory C) :=
  let! minSize := checkedMinSniffBufferSize minSize in
  Done (MkFactory minSize (NewClassifier factory)).

(** Go's [for _, b := range p]: the body continues with a new state or
    returns. *)
Fixpoint for_bytes {S R} (body : S -> byte -> run (ctl S R)) (s : S) (p : list byte) : run (ctl S R) :=
  match p with
  | [] => Done (Continue s)
  | b :: p' =>
      let! o := body s b in
      match o with
      | Continue s' => for_bytes body s' p'
      | Return r => Done (Return r)
      end
  end.

(** [binary.LittleEndian.Uint32(l[i:])] *)
Definition le32 (l : list byte) (i : Z) : option Z :=
  match le16 l i, le16 l (i + 2) with
  | Some a, Some b => Some (a + b * 65536)
  | _, _ => None
  end.

(** The bytes of a Go string literal. *)
Definition lit (s : string) : list byte := String.list_byte_of_string s.

Definition eq_bytes (a b : list byte) : bool := bool_decide (a = b).

(** [protocolHasBytes] of src/sniffer/protocols.go and [tlsHasBytes] of
    src/sniffer/tls.go. *)
Definition protocolHasBytes (data : list byte) (offset count : Z) : bool :=
  (count >=? 0) && (offset >=? 0) && (offset <=? zlen data) && (count <=? zlen data - offset).

(** The metadata of the classifiers of the package: [HTTPInfo] of
    src/sniffer/http.go and [TLSClientHelloInfo] of src/sniffer/tls.go.  A Go
    string is its bytes. *)
Record HTTPInfo : Type := MkHTTPInfo {
  hi_Method : list byte;
  hi_URL : list byte;
  hi_Version : list byte;
  hi_Hostname : list byte }.

Record TLSClientHelloInfo : Type := MkHelloInfo {
  ti_Versions : list Z;
  ti_SNIHostname : list byte;
  ti_SNIEncrypted : bool;
  ti_ALPNProtocols : list (list byte) }.

Inductive info : Type :=
| HTTPMeta (i : HTTPInfo)
| TLSMeta (i : TLSClientHelloInfo).

(** ** The contract *)

Definition verdict : Type := list byte -> State.

(** A verdict that is not [NeedMore] is final. *)
Definition stable (V : verdict) : Prop :=
  forall s p, terminal (V s) = true -> V (s ++ p) = V s.

(** Every stream of [n] bytes has a final verdict. *)
Definition decides (V : verdict) (n : Z) : Prop :=
  forall s, n <= zlen s -> terminal (V s) = true.

Section Contract.
Context {M C : Type} `{Classifier M C}.

(** The object [c] has been fed the bytes [s], in some chunks, and answers
    every further chunk with the verdict of [V] on all the bytes, as long as
    the bytes are [ok]. *)
Definition tracks (V : verdict) (ok : list byte -> Prop) (c : C) (s : list byte) : Prop :=
  exists R : C -> list byte -> Prop,
    R c s /\
    forall c s p, R c s -> ok (s ++ p) ->
      exists c', Feed c p = Done (c', V (s ++ p)) /\ R c' (s ++ p).

Record implements (V : verdict) (ok : list byte -> Prop) (c : C) : Prop := MkImplements {
  im_tracks : tracks V ok c [];
  im_stable : stable V;
  im_size : 0 <= MinSniffBufferSize c;
  im_decides : decides V (MinSniffBufferSize c) }.

Lemma tracks_feed V ok c s p :
  tracks V ok c s -> ok (s ++ p) ->
  exists c', Feed c p = Done (c', V (s ++ p)) /\ tracks V ok c' (s ++ p).
Proof.
  intros (R & Hc & HR) Hok. destruct (HR _ _ _ Hc Hok) as (c' & Hf & Hc').
  exists c'. split; [done|]. by exists R.
Qed.

End Contract.

(** Feeding chunk after chunk: the answers in order. *)
Fixpoint feed_all {M C} `{Classifier M C} (c : C) (ps : list (list byte)) : run (C * list State) :=
  match ps with
  | [] => Done (c, [])
  | p :: ps' =>
      let! r := Feed c p in
      let! r' := feed_all r.1 ps' in
      Done (r'.1, r.2 :: r'.2)
  end.

(** The verdicts after each chunk. *)
Fixpoint verdicts (V : verdict) (s : list byte) (ps : list (list byte)) : list State :=
  match ps with
  | [] => []
  | p :: ps' => V (s ++ p) :: verdicts V (s ++ p) ps'
  end.

Lemma tracks_feed_all {M C} `{Classifier M C} V (ok : list byte -> Prop) (c : C) s ps :
  tracks V ok c s -> (forall k, ok (s ++ concat (take k ps))) ->
  exists c', feed_all c ps = Done (c', verdicts V s ps).
Proof.
  revert c s. induction ps as [|p ps IH]; intros c s Hc Hok; [by eexists|].
  destruct (tracks_feed _ _ _ _ p Hc) as (c' & Hf & Hc').
  { specialize (Hok 1%nat). cbn [take concat] in Hok. by rewrite app_nil_r in Hok. }
  destruct (IH c' (s ++ p) Hc') as (c'' & Hf').
  { intros k. specialize (Hok (S k)). cbn [take concat] in Hok. by rewrite app_assoc in Hok. }
  exists c''. cbn [feed_all]. rewrite Hf. cbn [run_bind fst snd]. by rewrite Hf'.
Qed.

(** The same for two ways of cutting one stream into chunks: the last answer
    is the verdict on the stream. *)
Lemma verdicts_last V s ps : ps <> [] -> List.last (verdicts V s ps) NeedMore = V (s ++ concat ps).
Proof.
  revert s. induction ps as [|p ps IH]; intros s Hne; [done|]. cbn [verdicts concat].
  rewrite app_assoc. destruct ps as [|q ps]; [cbn [concat]; by rewrite app_nil_r|].
  rewrite <- IH by done. done.
Qed.

(** ** Lemmas for byte-by-byte classifiers *)

Lemma terminal_ne st : terminal st = true <-> st <> NeedMore.
Proof. destruct st; naive_solver. Qed.

Lemma stable_at V s p st : stable V -> V s = st -> terminal st = true -> V (s ++ p) = st.
Proof. intros HV <- Ht. by apply HV. Qed.

(** A byte loop whose state [Q] describes after the bytes [s], and which
    returns only with the final verdict. *)
Lemma for_bytes_spec {S R} (body : S -> byte -> run (ctl S R)) (Q : S -> list byte -> Prop) (F : R -> list byte -> Prop) :
  (forall c s b, Q c s -> exists o, body c b = Done o /\
     match o with Continue c' => Q c' (s ++ [b]) | Return r => F r (s ++ [b]) end) ->
  (forall r s p, F r s -> F r (s ++ p)) ->
  forall p c s, Q c s -> exists o, for_bytes body c p = Done o /\
     match o with Continue c' => Q c' (s ++ p) | Return r => F r (s ++ p) end.
Proof.
  intros Hb HF p. induction p as [|b p IH]; intros c s Hc.
  - exists (Continue c). by rewrite app_nil_r.
  - destruct (Hb c s b Hc) as (o & Ho & Hq). cbn [for_bytes]. rewrite Ho. cbn [run_bind].
    replace (s ++ b :: p) with ((s ++ [b]) ++ p) by by rewrite <- app_assoc.
    destruct o as [c'|r]; [by apply IH|]. exists (Return r). split; [done|]. by apply HF.
Qed.

Lemma checkedMinSniffBufferSize_ok n : 0 <= n -> checkedMinSniffBufferSize n = Done n.
Proof. intros Hn. unfold checkedMinSniffBufferSize. by destruct (Z.ltb_spec n 0); [lia|]. Qed.

Lemma largest_size_spec m sizes :
  Forall (fun n => 0 <= n) sizes ->
  exists r, largest_size m sizes = Done r /\ m <= r /\ Forall (fun n => n <= r) sizes.
Proof.
  intros Hs. revert m. induction Hs as [|n sizes Hn _ IH]; intros m; [by exists m; split_and!; [|lia|]|].
  cbn [largest_size]. rewrite checkedMinSniffBufferSize_ok by done. cbn [run_bind].
  destruct (IH (if n >? m then n else m)) as (r & Hr & Hm & Hf). exists r. split; [done|].
  destruct (Z.gtb_spec n m); split; [lia| |lia|]; constructor; solve [done|lia].
Qed.

Lemma has_bytes_spec data offset count :
  protocolHasBytes data offset count = true <-> 0 <= count /\ 0 <= offset /\ offset + count <= zlen data.
Proof. unfold protocolHasBytes. lia. Qed.

Lemma le32_in_range l i : 0 <= i -> i + 4 <= zlen l -> is_Some (le32 l i).
Proof.
  intros H1 H2. unfold le32. destruct (le16_in_range l i) as [a ->]; [lia|lia|].
  destruct (le16_in_range l (i + 2)) as [b ->]; [lia|lia|]. eauto.
Qed.

Lemma be32_available l i : 0 <= i -> i + 4 <= zlen l -> is_Some (be32 l i).
Proof.
  intros H1 H2. unfold be32. destruct (be16_in_range l i) as [a ->]; [lia|lia|].
  destruct (be16_in_range l (i + 2)) as [b ->]; [lia|lia|]. eauto.
Qed.
