(* ===== verification/Combinators.v ===== *)
(** The combinators of src/sniffer/combinators.go and basic.go: And, Or, Not
    and Limit, and the wrapper that reports a size of its own, over classifiers
    of any kind.  The verdicts of the combinators are the three-valued logic of
    Kleene on the verdicts of the children, and every tree of them implements
    the contract of the interface when its leaves do. *)

From S2P Require Import Prelude Classifier.

(** The children of [And] and [Or] and the answers they gave, as the loops of
    the two [Feed] methods leave them: the first child whose answer is final
    for the whole ([stop]) ends the loop, and its position is returned. *)
Section Children.
Context {C : Type}.
Variable feed : C -> run (C * State).
Variable stop : State -> bool.

Fixpoint feed_children (i : Z) (children : list C) (states : list State)
    : run (list C * list State * option Z) :=
  match children with
  | [] => Done ([], states, None)
  | child :: children' =>
      match states with
      | [] => Panicked
      | state :: states' =>
          let! r := (if terminal state then Done (child, state) else feed child) in
          if stop r.2 then Done (r.1 :: children', r.2 :: states', Some i)
          else
            let! t := feed_children (i + 1) children' states' in
            Done (r.1 :: t.1.1, r.2 :: t.1.2, t.2)
      end
  end.

End Children.

Section Combinators.
Context {M L : Type} `{Classifier M L}.

Inductive classifier : Type :=
| Leaf (l : L)
| sizedClassifier (child : classifier) (minSize : Z)
| andClassifier (children : list classifier) (states : list State) (minSize : Z) (state : State)
| orClassifier (children : list classifier) (states : list State) (minSize : Z) (state : State) (matched : Z)
| notClassifier (child : classifier) (minSize : Z) (state : State)
| limitClassifier (child : classifier) (limit minSize seen : Z) (state : State).

Definition classifier_size (c : classifier) : Z :=
  match c with
  | Leaf l => MinSniffBufferSize l
  | sizedClassifier _ minSize | andClassifier _ _ minSize _ | orClassifier _ _ minSize _ _
  | notClassifier _ minSize _ | limitClassifier _ _ minSize _ _ => minSize
  end.

(** [Feed] of every kind of classifier. *)
Fixpoint classifier_feed (c : classifier) (p : list byte) {struct c} : run (classifier * State) :=
  match c with
  | Leaf l => let! r := Feed l p in Done (Leaf r.1, r.2)
  | sizedClassifier child minSize =>
      let! r := classifier_feed child p in Done (sizedClassifier r.1 minSize, r.2)
  | andClassifier children states minSize state =>
      if terminal state then Done (c, state)
      else
        match children with
        | [] => Done (andClassifier [] states minSize Match, Match)
        | _ =>
            let! t := feed_children (fun child => classifier_feed child p) is_Mismatch 0 children states in
            let state := match t.2 with
                         | Some _ => Mismatch
                         | None => if forallb is_Match t.1.2 then Match else NeedMore
                         end in
            Done (andClassifier t.1.1 t.1.2 minSize state, state)
        end
  | orClassifier children states minSize state matched =>
      if terminal state then Done (c, state)
      else
        match children with
        | [] => Done (orClassifier [] states minSize Mismatch matched, Mismatch)
        | _ =>
            let! t := feed_children (fun child => classifier_feed child p) is_Match 0 children states in
            match t.2 with
            | Some i => Done (orClassifier t.1.1 t.1.2 minSize Match i, Match)
            | None =>
                let state := if forallb is_Mismatch t.1.2 then Mismatch else NeedMore in
                Done (orClassifier t.1.1 t.1.2 minSize state matched, state)
            end
        end
  | notClassifier child minSize state =>
      if terminal state then Done (c, state)
      else
        let! r := classifier_feed child p in
        let state := match r.2 with NeedMore => NeedMore | Match => Mismatch | Mismatch => Match end in
        Done (notClassifier r.1 minSize state, state)
  | limitClassifier child limit minSize seen state =>
      if terminal state then Done (c, state)
      else
        let remaining := limit - seen in
        let! p := (if remaining <? zlen p then must (slice p 0 remaining) else Done p) in
        let! r := classifier_feed child p in
        let seen := seen + zlen p in
        let state := if terminal r.2 then r.2 else if seen =? limit then Mismatch else NeedMore in
        Done (limitClassifier r.1 limit minSize seen state, state)
  end.

(** [Metadata()] of every kind; a negation has none. *)
Fixpoint classifier_metadata (c : classifier) : option (metadata M) :=
  match c with
  | Leaf l => Metadata l
  | sizedClassifier child _ | limitClassifier child _ _ _ _ => classifier_metadata child
  | andClassifier children _ _ state =>
      if is_Match state then
        let data := map classifier_metadata children in
        match omap id data with
        | [] => None
        | [first] => Some first
        | _ => Some (CompositeMetadata data)
        end
      else None
  | orClassifier children _ _ state matched =>
      if is_Match state then
        match index (map classifier_metadata children) matched with Some o => o | None => None end
      else None
  | notClassifier _ _ _ => None
  end.

#[export] Instance classifier_Classifier : Classifier M classifier := {
  Feed := classifier_feed;
  MinSniffBufferSize := classifier_size;
  Metadata := classifier_metadata }.

(** ** The constructors *)

Definition WithMinSniffBufferSize (minSize : Z) (child : classifier) : run classifier :=
  let! minSize := checkedMinSniffBufferSize minSize in
  Done (sizedClassifier child minSize).

Definition And (children : list classifier) : run classifier :=
  let! minSize := largest_size 0 (map classifier_size children) in
  Done (andClassifier children (replicate (length children) NeedMore) minSize NeedMore).

Definition Or (children : list classifier) : run classifier :=
  let! minSize := largest_size 0 (map classifier_size children) in
  Done (orClassifier children (replicate (length children) NeedMore) minSize NeedMore (-1)).

Definition Not (child : classifier) : run classifier :=
  let! minSize := checkedMinSniffBufferSize (classifier_size child) in
  Done (notClassifier child minSize NeedMore).

Definition Limit (limit : Z) (child : classifier) : run classifier :=
  if limit <? 0 then Panicked
  else
    let! childSize := checkedMinSniffBufferSize (classifier_size child) in
    Done (limitClassifier child limit (if childSize <? limit then childSize else limit) 0 NeedMore).

(** ** The factories *)

Fixpoint new_all (fs : list (Factory classifier)) : run (list classifier) :=
  match fs with
  | [] => Done []
  | f :: fs' => let! c := NewClassifier f in let! cs := new_all fs' in Done (c :: cs)
  end.

Definition MinFactorySniffBufferSize (fs : list (Factory classifier)) : run Z := largest_size 0 (map f_size fs).

Definition AndFactory (children : list (Factory classifier)) : run (Factory classifier) :=
  let! minSize := MinFactorySniffBufferSize children in
  FactoryWithMinSniffBufferSize minSize (FactoryFunc (let! cs := new_all children in And cs)).

Definition OrFactory (children : list (Factory classifier)) : run (Factory classifier) :=
  let! minSize := MinFactorySniffBufferSize children in
  FactoryWithMinSniffBufferSize minSize (FactoryFunc (let! cs := new_all children in Or cs)).

Definition NotFactory (child : Factory classifier) : run (Factory classifier) :=
  let! minSize := MinFactorySniffBufferSize [child] in
  FactoryWithMinSniffBufferSize minSize (FactoryFunc (let! c := NewClassifier child in Not c)).

Definition LimitFactory (limit : Z) (child : Factory classifier) : run (Factory classifier) :=
  if limit <? 0 then Panicked
  else
    let! childSize := checkedMinSniffBufferSize (f_size child) in
    FactoryWithMinSniffBufferSize (if childSize <? limit then childSize else limit)
      (FactoryFunc (let! c := NewClassifier child in Limit limit c)).

(** ** The logic of the verdicts *)

Definition and_states (l : list State) : State :=
  if existsb is_Mismatch l then Mismatch else if forallb is_Match l then Match else NeedMore.

Definition or_states (l : list State) : State :=
  if existsb is_Match l then Match else if forallb is_Mismatch l then Mismatch else NeedMore.

Definition not_state (st : State) : State :=
  match st with NeedMore => NeedMore | Match => Mismatch | Mismatch => Match end.

Definition and_verdict (Vs : list verdict) : verdict := fun s => and_states (map (fun V => V s) Vs).
Definition or_verdict (Vs : list verdict) : verdict := fun s => or_states (map (fun V => V s) Vs).
Definition not_verdict (V : verdict) : verdict := fun s => not_state (V s).

(** The first [limit] bytes decide: a stream that reaches the limit undecided
    is a mismatch. *)
Definition limit_verdict (limit : Z) (V : verdict) : verdict := fun s =>
  let st := V (take (Z.to_nat limit) s) in
  if terminal st then st else if limit <=? zlen s then Mismatch else NeedMore.

Lemma and_verdict_stable Vs : Forall stable Vs -> stable (and_verdict Vs).
Proof.
  intros HV s p. unfold and_verdict, and_states. intros Ht.
  assert (Hx : existsb is_Mismatch (map (fun V => V s) Vs) = true ->
               existsb is_Mismatch (map (fun V => V (s ++ p)) Vs) = true).
  { intros (st & Hin & Hst)%existsb_exists. apply in_map_iff in Hin as (V & <- & Hin).
    apply existsb_exists. exists (V s). split; [|done]. apply in_map_iff. exists V. split; [|done].
    rewrite List.Forall_forall in HV. apply HV; [done|]. by destruct (V s). }
  destruct (existsb is_Mismatch (map (fun V => V s) Vs)) eqn:E1; [by rewrite Hx|].
  destruct (forallb is_Match (map (fun V => V s) Vs)) eqn:E2; [|done].
  assert (Heq : map (fun V => V (s ++ p)) Vs = map (fun V => V s) Vs).
  { apply map_ext_in. intros V Hin. rewrite List.Forall_forall in HV. apply HV; [done|].
    rewrite forallb_forall in E2. specialize (E2 (V s) (in_map (fun V => V s) _ _ Hin)). by destruct (V s). }
  rewrite Heq, E1, E2. done.
Qed.

Lemma not_verdict_stable V : stable V -> stable (not_verdict V).
Proof. intros HV s p Ht. unfold not_verdict in *. rewrite HV; [done|]. by destruct (V s). Qed.

(** De Morgan: a disjunction is the negated conjunction of the negations. *)
Lemma or_states_de_morgan l : or_states l = not_state (and_states (map not_state l)).
Proof.
  assert (Hm : existsb is_Mismatch (map not_state l) = existsb is_Match l).
  { rewrite existsb_map. apply existsb_ext. by intros []. }
  assert (Ha : forallb is_Match (map not_state l) = forallb is_Mismatch l).
  { rewrite forallb_map. induction l as [|st l IH]; [done|]. cbn [forallb]. rewrite IH; [by destruct st|].
    rewrite existsb_map. apply existsb_ext. by intros []. }
  unfold or_states, and_states. rewrite Hm, Ha. by destruct (existsb is_Match l), (forallb is_Mismatch l).
Qed.

Lemma or_verdict_not Vs s : or_verdict Vs s = not_verdict (and_verdict (map not_verdict Vs)) s.
Proof. unfold or_verdict, not_verdict at 1, and_verdict. rewrite or_states_de_morgan, !map_map. done. Qed.

Lemma or_verdict_stable Vs : Forall stable Vs -> stable (or_verdict Vs).
Proof.
  intros HV s p. rewrite !or_verdict_not. apply not_verdict_stable, and_verdict_stable.
  induction HV; cbn [map]; constructor; eauto using not_verdict_stable.
Qed.

Lemma take_app_cases {A} n (s p : list A) :
  take n (s ++ p) = take n s ++ take (n - length s) p.
Proof. apply take_app. Qed.

Lemma limit_verdict_stable limit V : 0 <= limit -> stable V -> stable (limit_verdict limit V).
Proof.
  intros Hl HV s p Ht. unfold limit_verdict in *. rewrite take_app_cases.
  destruct (terminal (V (take (Z.to_nat limit) s))) eqn:E; [by rewrite HV, E|].
  destruct (Z.leb_spec limit (zlen s)) as [Hle|]; [|done].
  replace (Z.to_nat limit - length s)%nat with 0%nat by (unfold zlen in Hle; lia).
  cbn [take]. rewrite app_nil_r, E. rewrite zlen_app. pose proof (zlen_nonneg p).
  by destruct (Z.leb_spec limit (zlen s + zlen p)); [|lia].
Qed.

End Combinators.

Arguments classifier L : clear implicits.
