(* ===== verification/CombinatorsSpec.v ===== *)
(** Trees of combinators implement the contract of the classifier interface:
    the verdict of the tree is the three-valued logic of the verdicts of its
    leaves, whatever the chunks, and the size it reports is enough. *)

From S2P Require Import Prelude Classifier Combinators.

Section Spec.
Context {M L : Type} `{Classifier M L}.

Notation classifier := (classifier L).

(** What a child promises: its verdict and the streams the promise is for. *)
Definition promise : Type := verdict * (list byte -> Prop).

(** A child of [And] or [Or] after the bytes [s]: still fed, or settled with
    its final verdict. *)
Definition child_ok (s : list byte) (child : classifier) (st : State) (sp : promise) : Prop :=
  (st = NeedMore /\ tracks sp.1 sp.2 child s) \/ (terminal st = true /\ st = sp.1 s).

Definition all_ok (sps : list promise) (s : list byte) : Prop := Forall (fun sp : promise => sp.2 s) sps.

Definition answers (sps : list promise) (s : list byte) : list State := map (fun sp : promise => sp.1 s) sps.

Lemma child_fed s p child st sp :
  child_ok s child st sp -> stable sp.1 -> sp.2 (s ++ p) ->
  exists child', (if terminal st then Done (child, st) else classifier_feed child p) = Done (child', sp.1 (s ++ p)) /\
    child_ok (s ++ p) child' (sp.1 (s ++ p)) sp.
Proof.
  intros [[-> Ht]|[Ht ->]] HV Hok.
  - destruct (tracks_feed _ _ _ _ _ Ht Hok) as (c' & Hf & Hc'). exists c'. split; [done|].
    unfold child_ok. destruct (sp.1 (s ++ p)) eqn:E; [by left|by right|by right].
  - exists child. rewrite Ht, HV by done. split; [done|]. right. by rewrite HV.
Qed.

(** The loop of [And] and [Or]: all children are up to date, or one of them
    stops the loop. *)
Lemma feed_children_spec stop s p i children states sps :
  Forall3 (child_ok s) children states sps -> Forall (fun sp => stable sp.1) sps -> all_ok sps (s ++ p) ->
  exists children' states' o,
    feed_children (fun child => classifier_feed child p) stop i children states = Done (children', states', o) /\
    match o with
    | Some _ => existsb stop (answers sps (s ++ p)) = true
    | None => existsb stop (answers sps (s ++ p)) = false /\ states' = answers sps (s ++ p) /\
              Forall3 (child_ok (s ++ p)) children' states' sps
    end.
Proof.
  intros Hc. revert i. induction Hc as [|child st sp children states sps Hch _ IH]; intros i HV Hok.
  - exists [], [], None. repeat constructor.
  - apply Forall_cons in HV as [HV1 HV]. apply Forall_cons in Hok as [Hok1 Hok].
    destruct (child_fed _ _ _ _ _ Hch HV1 Hok1) as (child' & Hf & Hc').
    cbn [feed_children]. rewrite Hf. cbn [run_bind fst snd answers map existsb].
    destruct (stop (sp.1 (s ++ p))) eqn:Es; [by do 3 eexists|].
    destruct (IH (i + 1) HV Hok) as (cs' & sts' & o & -> & Ho). cbn [run_bind fst snd].
    do 3 eexists. split; [done|]. destruct o as [j|]; [done|]. destruct Ho as (H1 & -> & H3).
    split_and!; [done|done|by constructor].
Qed.

Lemma answers_spec sps s : answers sps s = map (fun V : verdict => V s) (map fst sps).
Proof. unfold answers. by rewrite map_map. Qed.

Lemma Forall3_nil_children s states sps : Forall3 (child_ok s) [] states sps -> states = [] /\ sps = [].
Proof. intros Hf. by inversion Hf. Qed.

(** [And] after the bytes [s]. *)
Definition and_ok (m : Z) (sps : list promise) (c : classifier) (s : list byte) : Prop :=
  exists children states state, c = andClassifier children states m state /\
    ((state = NeedMore /\ Forall3 (child_ok s) children states sps) \/
     (terminal state = true /\ state = and_verdict (map fst sps) s)).

Lemma and_feed m sps c s p :
  Forall (fun sp => stable sp.1) sps -> and_ok m sps c s -> all_ok sps (s ++ p) ->
  exists c', classifier_feed c p = Done (c', and_verdict (map fst sps) (s ++ p)) /\ and_ok m sps c' (s ++ p).
Proof.
  intros HV (children & states & state & -> & Hst) Hok. cbn [classifier_feed].
  assert (Hs : stable (and_verdict (map fst sps))) by (by apply and_verdict_stable, List.Forall_map).
  destruct Hst as [[-> Hch]|[Ht ->]]; cbn [terminal].
  2:{ rewrite Ht, Hs by done. eexists. split; [done|]. do 3 eexists. split; [done|]. right. by rewrite Hs. }
  destruct children as [|child children].
  { apply Forall3_nil_children in Hch as [-> ->]. eexists. split; [done|].
    do 3 eexists. split; [done|]. right. done. }
  destruct (feed_children_spec is_Mismatch s p 0 _ _ _ Hch HV Hok) as (cs' & sts' & o & Hf & Ho).
  rewrite Hf. cbn [run_bind fst snd]. clear Hf. unfold and_verdict, and_states. rewrite <- answers_spec.
  destruct o as [i|].
  - rewrite Ho. eexists. split; [done|]. do 3 eexists. split; [done|]. right.
    unfold and_verdict, and_states. by rewrite <- answers_spec, Ho.
  - destruct Ho as (He & -> & Hc'). rewrite He.
    destruct (forallb is_Match (answers sps (s ++ p))) eqn:Ea; eexists; (split; [done|]); do 3 eexists; (split; [done|]).
    + right. unfold and_verdict, and_states. by rewrite <- answers_spec, He, Ea.
    + by left.
Qed.

Definition or_ok (m : Z) (sps : list promise) (c : classifier) (s : list byte) : Prop :=
  exists children states state i, c = orClassifier children states m state i /\
    ((state = NeedMore /\ Forall3 (child_ok s) children states sps) \/
     (terminal state = true /\ state = or_verdict (map fst sps) s)).

Lemma or_feed m sps c s p :
  Forall (fun sp => stable sp.1) sps -> or_ok m sps c s -> all_ok sps (s ++ p) ->
  exists c', classifier_feed c p = Done (c', or_verdict (map fst sps) (s ++ p)) /\ or_ok m sps c' (s ++ p).
Proof.
  intros HV (children & states & state & i0 & -> & Hst) Hok. cbn [classifier_feed].
  assert (Hs : stable (or_verdict (map fst sps))) by (by apply or_verdict_stable, List.Forall_map).
  destruct Hst as [[-> Hch]|[Ht ->]]; cbn [terminal].
  2:{ rewrite Ht, Hs by done. eexists. split; [done|]. do 4 eexists. split; [done|]. right. by rewrite Hs. }
  destruct children as [|child children].
  { apply Forall3_nil_children in Hch as [-> ->]. eexists. split; [done|].
    do 4 eexists. split; [done|]. right. done. }
  destruct (feed_children_spec is_Match s p 0 _ _ _ Hch HV Hok) as (cs' & sts' & o & Hf & Ho).
  rewrite Hf. cbn [run_bind fst snd]. clear Hf. unfold or_verdict, or_states. rewrite <- answers_spec.
  destruct o as [i|].
  - rewrite Ho. eexists. split; [done|]. do 4 eexists. split; [done|]. right.
    unfold or_verdict, or_states. by rewrite <- answers_spec, Ho.
  - destruct Ho as (He & -> & Hc'). rewrite He.
    destruct (forallb is_Mismatch (answers sps (s ++ p))) eqn:Ea; eexists; (split; [done|]); do 4 eexists; (split; [done|]).
    + right. unfold or_verdict, or_states. by rewrite <- answers_spec, He, Ea.
    + by left.
Qed.

Definition not_ok (m : Z) (V : verdict) (ok : list byte -> Prop) (c : classifier) (s : list byte) : Prop :=
  exists child state, c = notClassifier child m state /\
    ((state = NeedMore /\ tracks V ok child s) \/ (terminal state = true /\ state = not_verdict V s)).

Lemma not_feed m V ok c s p :
  stable V -> not_ok m V ok c s -> ok (s ++ p) ->
  exists c', classifier_feed c p = Done (c', not_verdict V (s ++ p)) /\ not_ok m V ok c' (s ++ p).
Proof.
  intros HV (child & state & -> & Hst) Hok. cbn [classifier_feed].
  destruct Hst as [[-> Hch]|[Ht ->]]; cbn [terminal].
  2:{ rewrite Ht, (not_verdict_stable V HV) by done. eexists. split; [done|]. do 2 eexists. split; [done|].
      right. by rewrite (not_verdict_stable V HV). }
  destruct (tracks_feed _ _ _ _ _ Hch Hok) as (child' & Hf & Hc'). cbn [Feed classifier_Classifier] in Hf.
  rewrite Hf. cbn [run_bind fst snd]. eexists. split; [done|]. do 2 eexists. split; [done|].
  unfold not_verdict. destruct (V (s ++ p)); [by left|by right|by right].
Qed.

Definition limit_ok (limit m : Z) (V : verdict) (ok : list byte -> Prop) (c : classifier) (s : list byte) : Prop :=
  exists child seen state, c = limitClassifier child limit m seen state /\
    ((state = NeedMore /\ seen = zlen s /\ seen <= limit /\ tracks V ok child s) \/
     (terminal state = true /\ state = limit_verdict limit V s)).

Lemma limit_cut limit (s p : list byte) :
  zlen s <= limit -> s ++ (if limit - zlen s <? zlen p then take (Z.to_nat (limit - zlen s)) p else p)
                     = take (Z.to_nat limit) (s ++ p).
Proof.
  intros Hs. unfold zlen in *. rewrite take_app.
  rewrite (take_ge s) by lia. f_equal. destruct (Z.ltb_spec (limit - Z.of_nat (length s)) (Z.of_nat (length p))).
  - f_equal. lia.
  - by rewrite take_ge by lia.
Qed.

Lemma limit_feed limit m V ok c s p :
  0 <= limit -> stable V -> limit_ok limit m V ok c s -> ok (take (Z.to_nat limit) (s ++ p)) ->
  exists c', classifier_feed c p = Done (c', limit_verdict limit V (s ++ p)) /\ limit_ok limit m V ok c' (s ++ p).
Proof.
  intros Hl HV (child & seen & state & -> & Hst) Hok. cbn [classifier_feed].
  pose proof (limit_verdict_stable limit V Hl HV) as Hs.
  destruct Hst as [(-> & -> & Hle & Hch)|[Ht ->]]; cbn [terminal].
  2:{ rewrite Ht, Hs by done. eexists. split; [done|]. do 3 eexists. split; [done|]. right. by rewrite Hs. }
  set (q := if limit - zlen s <? zlen p then take (Z.to_nat (limit - zlen s)) p else p).
  assert (Hq : (if limit - zlen s <? zlen p then must (slice p 0 (limit - zlen s)) else Done p) = Done q).
  { unfold q. destruct (Z.ltb_spec (limit - zlen s) (zlen p)); [|done]. unfold slice.
    replace ((0 <=? 0) && (0 <=? limit - zlen s) && (limit - zlen s <=? zlen p)) with true by lia.
    cbn [must]. do 2 f_equal. lia. }
  rewrite Hq. cbn [run_bind]. pose proof (limit_cut limit s p Hle) as Hcut. fold q in Hcut.
  rewrite <- Hcut in Hok. destruct (tracks_feed _ _ _ _ _ Hch Hok) as (child' & Hf & Hc').
  cbn [Feed classifier_Classifier] in Hf. rewrite Hf. cbn [run_bind fst snd]. unfold limit_verdict at 1. rewrite <- Hcut.
  assert (Hlen : (zlen s + zlen q =? limit) = (limit <=? zlen (s ++ p))).
  { rewrite zlen_app. unfold q, zlen in *. pose proof (zlen_nonneg p). unfold zlen in *.
    destruct (Z.ltb_spec (limit - Z.of_nat (length s)) (Z.of_nat (length p))); [rewrite length_take|];
      apply Bool.eq_iff_eq_true; rewrite Z.eqb_eq, Z.leb_le; lia. }
  rewrite Hlen. eexists. split; [done|]. do 3 eexists. split; [done|].
  assert (Hv : limit_verdict limit V (s ++ p) =
    if terminal (V (s ++ q)) then V (s ++ q) else if limit <=? zlen (s ++ p) then Mismatch else NeedMore)
    by (unfold limit_verdict; by rewrite Hcut).
  rewrite <- Hv. destruct (terminal (limit_verdict limit V (s ++ p))) eqn:Et; [by right|left].
  split; [by destruct (limit_verdict limit V (s ++ p))|]. rewrite Hv in Et.
  destruct (terminal (V (s ++ q))) eqn:E1; [by rewrite E1 in Et|]. destruct (Z.leb_spec limit (zlen (s ++ p))); [done|].
  rewrite zlen_app in *. unfold q in *. destruct (Z.ltb_spec (limit - zlen s) (zlen p)); [lia|]. split_and!; [done|lia|done].
Qed.

(** ** Trees *)

Inductive expr : Type :=
| ELeaf (l : L)
| EAnd (es : list expr)
| EOr (es : list expr)
| ENot (e : expr)
| ELimit (limit : Z) (e : expr).

Fixpoint run_all {A} (l : list (run A)) : run (list A) :=
  match l with
  | [] => Done []
  | r :: l' => let! a := r in let! t := run_all l' in Done (a :: t)
  end.

(** The classifier a tree of constructor calls makes. *)
Fixpoint build (e : expr) : run classifier :=
  match e with
  | ELeaf l => Done (Leaf l)
  | EAnd es => let! cs := run_all (map build es) in And cs
  | EOr es => let! cs := run_all (map build es) in Or cs
  | ENot e => let! c := build e in Not c
  | ELimit limit e => let! c := build e in Limit limit c
  end.

Variable leaf_verdict : L -> verdict.
Variable leaf_ok : L -> list byte -> Prop.

Fixpoint meaning (e : expr) : verdict :=
  match e with
  | ELeaf l => leaf_verdict l
  | EAnd es => and_verdict (map meaning es)
  | EOr es => or_verdict (map meaning es)
  | ENot e => not_verdict (meaning e)
  | ELimit limit e => limit_verdict limit (meaning e)
  end.

(** The streams on which every leaf keeps its promise. *)
Fixpoint safe (e : expr) (s : list byte) : Prop :=
  match e with
  | ELeaf l => leaf_ok l s
  | EAnd es | EOr es => Forall (fun P : Prop => P) (map (fun e => safe e s) es)
  | ENot e => safe e s
  | ELimit limit e => safe e (take (Z.to_nat limit) s)
  end.

Fixpoint leaves (e : expr) : list L :=
  match e with
  | ELeaf l => [l]
  | EAnd es | EOr es => concat (map leaves es)
  | ENot e | ELimit _ e => leaves e
  end.

(** Limits are not negative. *)
Fixpoint limits_ok (e : expr) : bool :=
  match e with
  | ELeaf _ => true
  | EAnd es | EOr es => forallb limits_ok es
  | ENot e => limits_ok e
  | ELimit limit e => (0 <=? limit) && limits_ok e
  end.

Lemma expr_nested_ind (P : expr -> Prop) :
  (forall l, P (ELeaf l)) ->
  (forall es, Forall P es -> P (EAnd es)) ->
  (forall es, Forall P es -> P (EOr es)) ->
  (forall e, P e -> P (ENot e)) ->
  (forall limit e, P e -> P (ELimit limit e)) ->
  forall e, P e.
Proof.
  intros HL HA HO HN HM. fix IH 1. intros [l|es|es|e|limit e].
  - apply HL.
  - apply HA. induction es as [|e es IHes]; constructor; [apply IH|apply IHes].
  - apply HO. induction es as [|e es IHes]; constructor; [apply IH|apply IHes].
  - apply HN, IH.
  - apply HM, IH.
Qed.

Definition good (e : expr) : Prop :=
  exists c, build e = Done c /\ implements (meaning e) (safe e) c.

Definition promises (es : list expr) : list promise := map (fun e => (meaning e, safe e)) es.

Lemma run_all_good es :
  Forall good es ->
  exists cs, run_all (map build es) = Done cs /\ Forall2 (fun (c : classifier) e => implements (meaning e) (safe e) c) cs es.
Proof.
  induction 1 as [|e es (c & Hc & Hi) _ (cs & Hcs & Hf)]; [by exists []|].
  exists (c :: cs). cbn [map run_all]. rewrite Hc. cbn [run_bind]. rewrite Hcs. by split; [|constructor].
Qed.

(** The children before the first [Feed]. *)
Lemma fresh_children cs es :
  Forall2 (fun (c : classifier) e => implements (meaning e) (safe e) c) cs es ->
  Forall3 (child_ok []) cs (replicate (length cs) NeedMore) (promises es).
Proof. induction 1 as [|c e cs es Hi _ IH]; constructor; [|done]. left. split; [done|]. apply Hi. Qed.

Lemma children_sizes cs es :
  Forall2 (fun (c : classifier) e => implements (meaning e) (safe e) c) cs es -> Forall (fun n => 0 <= n) (map classifier_size cs).
Proof. induction 1 as [|c e cs es Hi _ IH]; constructor; [|done]. apply Hi. Qed.

Lemma children_stable cs es :
  Forall2 (fun (c : classifier) e => implements (meaning e) (safe e) c) cs es -> Forall (fun sp => stable sp.1) (promises es).
Proof. induction 1 as [|c e cs es Hi _ IH]; constructor; [|done]. apply Hi. Qed.

Lemma children_decide cs es n s :
  Forall2 (fun (c : classifier) e => implements (meaning e) (safe e) c) cs es ->
  Forall (fun k => k <= n) (map classifier_size cs) -> n <= zlen s ->
  Forall (fun st => terminal st = true) (map (fun V : verdict => V s) (map meaning es)).
Proof.
  intros Hf Hn Hs. induction Hf as [|c e cs es Hi _ IH]; [constructor|]. apply Forall_cons in Hn as [Hn1 Hn].
  constructor; [|by apply IH]. apply (im_decides _ _ _ Hi). cbn [MinSniffBufferSize classifier_Classifier]. lia.
Qed.

Lemma promises_fst es : map fst (promises es) = map meaning es.
Proof. unfold promises. by rewrite map_map. Qed.

Lemma safe_children es s : Forall (fun P : Prop => P) (map (fun e => safe e s) es) <-> all_ok (promises es) s.
Proof. unfold all_ok, promises. by rewrite !List.Forall_map. Qed.

Lemma settled_and l : Forall (fun st => terminal st = true) l -> terminal (and_states l) = true.
Proof.
  intros Hl. unfold and_states. destruct (existsb is_Mismatch l) eqn:E; [done|].
  replace (forallb is_Match l) with true; [done|]. symmetry. induction Hl as [|st l Hst _ IH]; [done|].
  destruct st; [done| |done]. by apply IH.
Qed.

Lemma settled_or l : Forall (fun st => terminal st = true) l -> terminal (or_states l) = true.
Proof.
  intros Hl. rewrite or_states_de_morgan. assert (Ha : terminal (and_states (map not_state l)) = true).
  { apply settled_and, List.Forall_map. induction Hl as [|st l Hst _ IH]; constructor; [by destruct st|done]. }
  by destruct (and_states (map not_state l)).
Qed.

Lemma good_and es : Forall good es -> good (EAnd es).
Proof.
  intros (cs & Hb & Hf)%run_all_good. unfold good. cbn [build]. rewrite Hb. cbn [run_bind]. unfold And.
  destruct (largest_size_spec 0 _ (children_sizes _ _ Hf)) as (m & -> & Hm & Hle). cbn [run_bind].
  eexists. split; [done|]. cbn [meaning]. rewrite <- promises_fst. split.
  - exists (and_ok m (promises es)). split.
    + do 3 eexists. split; [done|]. left. split; [done|]. by apply fresh_children.
    + intros c s p Hc Hok. apply and_feed; [exact (children_stable _ _ Hf)|done|by apply (proj1 (safe_children _ _))].
  - apply and_verdict_stable, List.Forall_map. exact (children_stable _ _ Hf).
  - done.
  - intros s Hs. rewrite promises_fst. apply settled_and. exact (children_decide _ _ _ _ Hf Hle Hs).
Qed.

Lemma good_or es : Forall good es -> good (EOr es).
Proof.
  intros (cs & Hb & Hf)%run_all_good. unfold good. cbn [build]. rewrite Hb. cbn [run_bind]. unfold Or.
  destruct (largest_size_spec 0 _ (children_sizes _ _ Hf)) as (m & -> & Hm & Hle). cbn [run_bind].
  eexists. split; [done|]. cbn [meaning]. rewrite <- promises_fst. split.
  - exists (or_ok m (promises es)). split.
    + do 4 eexists. split; [done|]. left. split; [done|]. by apply fresh_children.
    + intros c s p Hc Hok. apply or_feed; [exact (children_stable _ _ Hf)|done|by apply (proj1 (safe_children _ _))].
  - apply or_verdict_stable, List.Forall_map. exact (children_stable _ _ Hf).
  - done.
  - intros s Hs. rewrite promises_fst. apply settled_or. exact (children_decide _ _ _ _ Hf Hle Hs).
Qed.

Lemma good_not e : good e -> good (ENot e).
Proof.
  intros (c & Hb & [Ht HV Hsz Hd]). unfold good. cbn [build]. rewrite Hb. cbn [run_bind]. unfold Not.
  cbn [MinSniffBufferSize classifier_Classifier] in *. rewrite checkedMinSniffBufferSize_ok by done. cbn [run_bind].
  eexists. split; [done|]. split.
  - exists (not_ok (classifier_size c) (meaning e) (safe e)). split.
    + do 2 eexists. split; [done|]. by left.
    + intros ? s p Hc Hok. by apply not_feed.
  - by apply not_verdict_stable.
  - done.
  - intros s Hs. specialize (Hd s Hs). cbn [meaning]. unfold not_verdict. by destruct (meaning e s).
Qed.

Lemma good_limit limit e : 0 <= limit -> good e -> good (ELimit limit e).
Proof.
  intros Hl (c & Hb & [Ht HV Hsz Hd]). unfold good. cbn [build]. rewrite Hb. cbn [run_bind]. unfold Limit.
  cbn [MinSniffBufferSize classifier_Classifier] in *. destruct (Z.ltb_spec limit 0); [lia|].
  rewrite checkedMinSniffBufferSize_ok by done. cbn [run_bind]. set (m := if classifier_size c <? limit then classifier_size c else limit).
  eexists. split; [done|]. split.
  - exists (limit_ok limit m (meaning e) (safe e)). split.
    + do 3 eexists. split; [done|]. left. split_and!; done.
    + intros ? s p Hc Hok. by apply limit_feed.
  - by apply limit_verdict_stable.
  - unfold m. cbn [MinSniffBufferSize classifier_Classifier classifier_size]. destruct (Z.ltb_spec (classifier_size c) limit); lia.
  - intros s Hs. cbn [MinSniffBufferSize classifier_Classifier classifier_size] in Hs. cbn [meaning]. unfold limit_verdict.
    destruct (Z.leb_spec limit (zlen s)).
    { destruct (terminal (meaning e (take (Z.to_nat limit) s))) eqn:E; [by rewrite E|done]. }
    assert (Hd' : terminal (meaning e (take (Z.to_nat limit) s)) = true); [|by rewrite Hd'].
    rewrite take_ge by (unfold zlen in *; lia). apply Hd. unfold m in Hs. destruct (Z.ltb_spec (classifier_size c) limit); lia.
Qed.

(** Every tree over leaves that keep the contract keeps it. *)
Lemma tree_implements e :
  Forall (fun l => implements (leaf_verdict l) (leaf_ok l) l) (leaves e) -> limits_ok e = true ->
  exists c, build e = Done c /\ implements (meaning e) (safe e) c.
Proof.
  induction e as [l|es IH|es IH|e IH|limit e IH] using expr_nested_ind; intros Hl Hm.
  - apply Forall_cons in Hl as [Hi _]. exists (Leaf l). split; [done|]. destruct Hi as [(R & HR0 & HR) HV Hsz Hd].
    split; [|done|done|done]. exists (fun c s => exists l, c = Leaf l /\ R l s). split; [by eexists|].
    intros ? s p (l' & -> & Hr) Hok. destruct (HR l' s p Hr Hok) as (l'' & Hf & Hr').
    exists (Leaf l''). cbn [Feed classifier_Classifier classifier_feed]. rewrite Hf. split; [done|]. by eexists.
  - apply good_and. cbn [leaves limits_ok] in *. induction IH as [|e es He _ IHes]; constructor.
    + cbn [map concat forallb] in *. apply Forall_app in Hl as [Hl _]. apply andb_prop in Hm as [Hm _]. by apply He.
    + cbn [map concat forallb] in *. apply Forall_app in Hl as [_ Hl]. apply andb_prop in Hm as [_ Hm]. by apply IHes.
  - apply good_or. cbn [leaves limits_ok] in *. induction IH as [|e es He _ IHes]; constructor.
    + cbn [map concat forallb] in *. apply Forall_app in Hl as [Hl _]. apply andb_prop in Hm as [Hm _]. by apply He.
    + cbn [map concat forallb] in *. apply Forall_app in Hl as [_ Hl]. apply andb_prop in Hm as [_ Hm]. by apply IHes.
  - by apply good_not, IH.
  - cbn [limits_ok] in Hm. apply andb_prop in Hm as [Hm1 Hm]. apply good_limit; [lia|]. by apply IH.
Qed.

End Spec.

Arguments expr L : clear implicits.
