(* ===== verification/Protocols.v ===== *)
(** The classifiers of src/sniffer/basic.go and src/sniffer/protocols.go:
    byte prefixes, MQTT, PostgreSQL, MongoDB, Redis, the PROXY protocol, SOCKS
    and DNS over TCP. *)

From S2P Require Import Prelude Classifier Combinators.

(** ** Prefix *)

Record prefixClassifier : Type := MkPrefix {
  pr_want : list byte;
  pr_offset : Z;
  pr_state : State }.

Definition Prefix (prefix : list byte) : prefixClassifier := MkPrefix prefix 0 NeedMore.

Definition prefix_byte (c : prefixClassifier) (b : byte) : run (ctl prefixClassifier (prefixClassifier * State)) :=
  let! w := must (index (pr_want c) (pr_offset c)) in
  if negb (bool_decide (b = w)) then Done (Return (MkPrefix (pr_want c) (pr_offset c) Mismatch, Mismatch))
  else
    let offset := pr_offset c + 1 in
    if offset =? zlen (pr_want c) then Done (Return (MkPrefix (pr_want c) offset Match, Match))
    else Done (Continue (MkPrefix (pr_want c) offset (pr_state c))).

Definition prefix_Feed (c : prefixClassifier) (p : list byte) : run (prefixClassifier * State) :=
  if terminal (pr_state c) then Done (c, pr_state c)
  else if zlen (pr_want c) =? 0 then Done (MkPrefix (pr_want c) (pr_offset c) Match, Match)
  else
    let! o := for_bytes prefix_byte c p in
    match o with
    | Return r => Done r
    | Continue c => Done (c, NeedMore)
    end.

#[export] Instance prefix_Classifier : Classifier info prefixClassifier := {
  Feed := prefix_Feed;
  MinSniffBufferSize c := zlen (pr_want c);
  Metadata _ := None }.

Definition http2ClientPreface : list byte :=
  lit "PRI * HTTP/2.0" ++ [x0d; x0a; x0d; x0a] ++ lit "SM" ++ [x0d; x0a; x0d; x0a].

Definition amqp091Header : list byte := lit "AMQP" ++ [x00; x00; x09; x01].
Definition amqp10Header : list byte := lit "AMQP" ++ [x00; x01; x00; x00].
Definition amqp10SASLHeader : list byte := lit "AMQP" ++ [x03; x01; x00; x00].

Definition proxyProtocolV1Prefix : list byte := lit "PROXY ".
Definition proxyProtocolV2Signature : list byte := [x0d; x0a; x0d; x0a; x00; x0d; x0a] ++ lit "QUIT" ++ [x0a].

Definition SSH : prefixClassifier := Prefix (lit "SSH-").
Definition HTTP2 : prefixClassifier := Prefix http2ClientPreface.
Definition ProxyProtocolV1 : prefixClassifier := Prefix proxyProtocolV1Prefix.

(** ** Classifiers that collect a bounded prefix

    [protocolPrefixClassifier] of src/sniffer/wellknown.go, and the same loop in
    [mqttClassifier] and [redisRESPClassifier]: every byte is appended to the
    buffer and the matcher is asked about the whole buffer. *)

Definition matcher : Type := list byte -> run State.

Record protocolPrefixClassifier : Type := MkProtocolPrefix {
  pp_buf : list byte;
  pp_maxBytes : Z;
  pp_match : matcher;
  pp_state : State }.

Definition pp_set (c : protocolPrefixClassifier) (buf : list byte) (state : State) : protocolPrefixClassifier :=
  MkProtocolPrefix buf (pp_maxBytes c) (pp_match c) state.

Definition newProtocolPrefixClassifier (maxBytes : Z) (mtch : matcher) : run protocolPrefixClassifier :=
  if maxBytes <? 0 then Panicked else Done (MkProtocolPrefix [] maxBytes mtch NeedMore).

Definition prefix_loop (c : protocolPrefixClassifier) (b : byte)
    : run (ctl protocolPrefixClassifier (protocolPrefixClassifier * State)) :=
  if zlen (pp_buf c) =? pp_maxBytes c then Done (Return (pp_set c (pp_buf c) Mismatch, Mismatch))
  else
    let buf := pp_buf c ++ [b] in
    let! state := pp_match c buf in
    if terminal state then Done (Return (pp_set c buf state, state))
    else Done (Continue (pp_set c buf (pp_state c))).

Definition protocolPrefix_Feed (c : protocolPrefixClassifier) (p : list byte)
    : run (protocolPrefixClassifier * State) :=
  if terminal (pp_state c) then Done (c, pp_state c)
  else
    let! o := for_bytes prefix_loop c p in
    match o with
    | Return r => Done r
    | Continue c =>
        let state := if zlen (pp_buf c) =? pp_maxBytes c then Mismatch else pp_state c in
        Done (pp_set c (pp_buf c) state, state)
    end.

#[export] Instance protocolPrefix_Classifier : Classifier info protocolPrefixClassifier := {
  Feed := protocolPrefix_Feed;
  MinSniffBufferSize := pp_maxBytes;
  Metadata _ := None }.

(** ** MQTT *)

(** [parseMQTTRemainingLength]: the value and the number of length bytes, if
    the field is complete; [None] when it is malformed. *)
Fixpoint mqtt_length (fuel : nat) (data : list byte) (offset value multiplier : Z) : run (option (option (Z * Z))) :=
  match fuel with
  | O => OutOfFuel
  | S fuel' =>
      if offset <? zlen data then
        let! b := must (index data offset) in
        let encoded := bZ b in
        let value := value + Z.land encoded 127 * multiplier in
        if Z.land encoded 128 =? 0 then Done (Some (Some (value, offset)))
        else if offset =? 4 then Done None
        else mqtt_length fuel' data (offset + 1) value (multiplier * 128)
      else Done (Some None)
  end.

Definition parseMQTTRemainingLength (data : list byte) : run (option (option (Z * Z))) :=
  mqtt_length (S (length data)) data 1 0 1.

Definition validMQTTConnectFlags (flags : byte) : bool :=
  let f := bZ flags in
  if negb (Z.land f 1 =? 0) then false
  else if negb (Z.land f 64 =? 0) && (Z.land f 128 =? 0) then false
  else
    let willFlag := negb (Z.land f 4 =? 0) in
    let willQoS := Z.land (Z.shiftr f 3) 3 in
    let willRetain := negb (Z.land f 32 =? 0) in
    if negb willFlag && (negb (willQoS =? 0) || willRetain) then false
    else negb (willQoS =? 3).

Definition matchMQTTConnectPrefix : matcher := fun data =>
  if zlen data =? 0 then Done NeedMore
  else
    let! b0 := must (index data 0) in
    if negb (bZ b0 =? 16) then Done Mismatch
    else
      let! len := parseMQTTRemainingLength data in
      match len with
      | None => Done Mismatch
      | Some None => Done NeedMore
      | Some (Some (remainingLength, lengthBytes)) =>
          if remainingLength <? 10 then Done Mismatch
          else
            let variableHeaderOffset := 1 + lengthBytes in
            if negb (protocolHasBytes data variableHeaderOffset 2) then Done NeedMore
            else
              let! nameLen := must (be16 data variableHeaderOffset) in
              if negb (nameLen =? 4) && negb (nameLen =? 6) then Done Mismatch
              else
                let minVariableHeaderBytes := 2 + nameLen + 1 + 1 + 2 in
                if remainingLength <? minVariableHeaderBytes then Done Mismatch
                else
                  let headerBytes := variableHeaderOffset + minVariableHeaderBytes in
                  if negb (protocolHasBytes data 0 headerBytes) then Done NeedMore
                  else
                    let nameOffset := variableHeaderOffset + 2 in
                    let! name := must (slice data nameOffset (nameOffset + nameLen)) in
                    let! level := must (index data (nameOffset + nameLen)) in
                    let! flags := must (index data (nameOffset + nameLen + 1)) in
                    if negb (validMQTTConnectFlags flags) then Done Mismatch
                    else if eq_bytes name (lit "MQIsdp") then
                      Done (if (bZ level =? 3) && (remainingLength >=? minVariableHeaderBytes + 2) then Match else Mismatch)
                    else if eq_bytes name (lit "MQTT") then
                      let minRemainingLength := minVariableHeaderBytes + 2 + (if bZ level =? 5 then 1 else 0) in
                      Done (if ((bZ level =? 4) || (bZ level =? 5)) && (remainingLength >=? minRemainingLength)
                            then Match else Mismatch)
                    else Done Mismatch
      end.

Definition mqttConnectMaxPrefixBytes : Z := 17.

Definition MQTT : protocolPrefixClassifier :=
  MkProtocolPrefix [] mqttConnectMaxPrefixBytes matchMQTTConnectPrefix NeedMore.

(** ** Redis *)

Definition is_digit (b : byte) : bool := (48 <=? bZ b) && (bZ b <=? 57).

(** The outcome of a field parser: more bytes are needed, the field is
    malformed, or its value and the offset after it. *)
Inductive field : Type :=
| FieldMore
| FieldBad
| Field (value next : Z).

Fixpoint decimal_loop (fuel : nat) (data : list byte) (i maxDigits digits value : Z) : run field :=
  match fuel with
  | O => OutOfFuel
  | S fuel' =>
      if i <? zlen data then
        let! b := must (index data i) in
        if is_digit b then
          if digits =? maxDigits then Done FieldBad
          else decimal_loop fuel' data (i + 1) maxDigits (digits + 1) (value * 10 + (bZ b - 48))
        else if bZ b =? 13 then
          if digits =? 0 then Done FieldBad
          else if i + 1 =? zlen data then Done FieldMore
          else
            let! b' := must (index data (i + 1)) in
            if negb (bZ b' =? 10) || (value =? 0) then Done FieldBad
            else Done (Field value (i + 2))
        else Done FieldBad
      else Done FieldMore
  end.

Definition parsePositiveDecimalCRLF (data : list byte) (offset maxDigits : Z) : run field :=
  decimal_loop (S (length data)) data offset maxDigits 0 0.

(** Printable and not a space: [b <= ' ' || b == 0x7f] fails. *)
Definition graphic (b : byte) : bool := negb ((bZ b <=? 32) || (bZ b =? 127)).

Definition validRedisCommandName (command : list byte) : bool :=
  negb (zlen command =? 0) && forallb graphic command.

Definition redisRESPMaxDecimalDigits : Z := 10.
Definition redisRESPCommandMaxBytes : Z := 128.
Definition redisRESPRequestMaxPrefixBytes : Z :=
  1 + redisRESPMaxDecimalDigits + 2 + 1 + redisRESPMaxDecimalDigits + 2 + redisRESPCommandMaxBytes + 2.

Definition matchRedisRESPRequestPrefix : matcher := fun data =>
  if zlen data =? 0 then Done NeedMore
  else
    let! b0 := must (index data 0) in
    if negb (bZ b0 =? 42) then Done Mismatch
    else
      let! f := parsePositiveDecimalCRLF data 1 redisRESPMaxDecimalDigits in
      match f with
      | FieldMore => Done NeedMore
      | FieldBad => Done Mismatch
      | Field _ offset =>
          if negb (protocolHasBytes data offset 1) then Done NeedMore
          else
            let! b := must (index data offset) in
            if negb (bZ b =? 36) then Done Mismatch
            else
              let! f := parsePositiveDecimalCRLF data (offset + 1) redisRESPMaxDecimalDigits in
              match f with
              | FieldMore => Done NeedMore
              | FieldBad => Done Mismatch
              | Field bulkLen offset =>
                  if bulkLen >? redisRESPCommandMaxBytes then Done Mismatch
                  else if negb (protocolHasBytes data offset (bulkLen + 2)) then Done NeedMore
                  else
                    let! command := must (slice data offset (offset + bulkLen)) in
                    let! cr := must (index data (offset + bulkLen)) in
                    let! lf := must (index data (offset + bulkLen + 1)) in
                    if negb (validRedisCommandName command) || negb (bZ cr =? 13) || negb (bZ lf =? 10)
                    then Done Mismatch else Done Match
              end
      end.

Definition Redis : protocolPrefixClassifier :=
  MkProtocolPrefix [] redisRESPRequestMaxPrefixBytes matchRedisRESPRequestPrefix NeedMore.

(** ** Classifiers of a fixed header: PostgreSQL, MongoDB, PROXY v2, SOCKS4

    The four structures have a buffer and a state; [header_kind] says which
    one an object is.  [header_final] is the end of each loop body: the header
    is complete and its validity is the answer. *)

Inductive header_kind : Type := postgresqlClassifier | mongoDBClassifier | proxyProtocolV2Classifier | socks4Classifier.

Record headerClassifier : Type := MkHeader {
  h_kind : header_kind;
  h_buf : list byte;
  h_state : State }.

Definition h_set (c : headerClassifier) (buf : list byte) (state : State) : headerClassifier :=
  MkHeader (h_kind c) buf state.

Definition header_body : Type := headerClassifier -> byte -> run (ctl headerClassifier (headerClassifier * State)).

Definition header_mismatch (c : headerClassifier) (buf : list byte) : run (ctl headerClassifier (headerClassifier * State)) :=
  Done (Return (h_set c buf Mismatch, Mismatch)).

Definition header_final (size : Z) (valid : list byte -> run bool) (c : headerClassifier) (buf : list byte)
    : run (ctl headerClassifier (headerClassifier * State)) :=
  if zlen buf =? size then
    let! v := valid buf in
    let state := if (v : bool) then Match else Mismatch in
    Done (Return (h_set c buf state, state))
  else Done (Continue (h_set c buf (h_state c))).

Definition postgresqlHeaderBytes : Z := 8.
Definition postgresqlCancelRequestBytes : Z := 16.
Definition postgresqlProtocol3 : Z := 196608.
Definition postgresqlCancelRequest : Z := 80877102.
Definition postgresqlSSLRequest : Z := 80877103.
Definition postgresqlGSSENCRequest : Z := 80877104.

Definition postgresqlPacketLength (header : list byte) : run Z := must (be32 header 0).

Definition validPostgreSQLStartupHeader (header : list byte) : run bool :=
  if negb (zlen header =? postgresqlHeaderBytes) then Done false
  else
    let! length := postgresqlPacketLength header in
    let! code := must (be32 header 4) in
    Done (if code =? postgresqlProtocol3 then length >? postgresqlHeaderBytes
          else if (code =? postgresqlSSLRequest) || (code =? postgresqlGSSENCRequest) then length =? postgresqlHeaderBytes
          else if code =? postgresqlCancelRequest then length =? postgresqlCancelRequestBytes
          else false).

Definition postgresql_byte : header_body := fun c b =>
  if zlen (h_buf c) =? postgresqlHeaderBytes then Done (Return (c, NeedMore))
  else
    let buf := h_buf c ++ [b] in
    let! short := (if zlen buf =? 4 then let! n := postgresqlPacketLength buf in Done (n <? 8) else Done false) in
    if (short : bool) then header_mismatch c buf
    else header_final postgresqlHeaderBytes validPostgreSQLStartupHeader c buf.

Definition mongoDBHeaderBytes : Z := 16.

Definition mongoDBMessageLength (header : list byte) : run Z := must (le32 header 0).

Definition validMongoDBClientOpcode (opcode : Z) : bool :=
  existsb (Z.eqb opcode) [2001; 2002; 2004; 2005; 2006; 2007; 2012; 2013].

Definition validMongoDBHeader (header : list byte) : run bool :=
  if negb (zlen header =? mongoDBHeaderBytes) then Done false
  else
    let! n := mongoDBMessageLength header in
    if n <? mongoDBHeaderBytes then Done false
    else
      let! responseTo := must (le32 header 8) in
      let! opcode := must (le32 header 12) in
      Done ((responseTo =? 0) && validMongoDBClientOpcode opcode).

Definition mongoDB_byte : header_body := fun c b =>
  if zlen (h_buf c) =? mongoDBHeaderBytes then Done (Return (c, NeedMore))
  else
    let buf := h_buf c ++ [b] in
    let! short := (if zlen buf =? 4 then let! n := mongoDBMessageLength buf in Done (n <? mongoDBHeaderBytes)
                   else Done false) in
    if (short : bool) then header_mismatch c buf
    else header_final mongoDBHeaderBytes validMongoDBHeader c buf.

Definition proxyProtocolV2HeaderBytes : Z := 16.

Definition validProxyProtocolV2FamilyProtocol (family protocol : Z) : bool :=
  if family =? 0 then protocol =? 0
  else if (family =? 1) || (family =? 2) || (family =? 3) then (protocol =? 1) || (protocol =? 2)
  else false.

Definition proxyProtocolV2AddressBytes (family : Z) : Z :=
  if family =? 1 then 12 else if family =? 2 then 36 else if family =? 3 then 216 else 0.

Definition validProxyProtocolV2Header (header : list byte) : run bool :=
  if negb (zlen header =? proxyProtocolV2HeaderBytes) then Done false
  else
    let! signature := must (slice header 0 (zlen proxyProtocolV2Signature)) in
    if negb (eq_bytes signature proxyProtocolV2Signature) then Done false
    else
      let! versionCommand := must (index header 12) in
      if negb (Z.shiftr (bZ versionCommand) 4 =? 2) then Done false
      else
        let command := Z.land (bZ versionCommand) 15 in
        if negb (command =? 0) && negb (command =? 1) then Done false
        else
          let! familyProtocol := must (index header 13) in
          let family := Z.shiftr (bZ familyProtocol) 4 in
          let protocol := Z.land (bZ familyProtocol) 15 in
          if negb (validProxyProtocolV2FamilyProtocol family protocol) then Done false
          else if command =? 0 then Done true
          else
            let! payloadLen := must (be16 header 14) in
            Done (payloadLen >=? proxyProtocolV2AddressBytes family).

Definition proxyV2_byte : header_body := fun c b =>
  if zlen (h_buf c) =? proxyProtocolV2HeaderBytes then Done (Return (c, NeedMore))
  else
    let offset := zlen (h_buf c) in
    let buf := h_buf c ++ [b] in
    let! wrong := (if offset <? zlen proxyProtocolV2Signature
                   then let! w := must (index proxyProtocolV2Signature offset) in Done (negb (bool_decide (b = w)))
                   else Done false) in
    if (wrong : bool) then header_mismatch c buf
    else header_final proxyProtocolV2HeaderBytes validProxyProtocolV2Header c buf.

Definition socks4HeaderBytes : Z := 8.

Definition validSOCKS4Header (header : list byte) : run bool :=
  if negb (zlen header =? socks4HeaderBytes) then Done false
  else
    let! b0 := must (index header 0) in
    let! b1 := must (index header 1) in
    if negb (bZ b0 =? 4) || (negb (bZ b1 =? 1) && negb (bZ b1 =? 2)) then Done false
    else
      let! port := must (be16 header 2) in
      if port =? 0 then Done false
      else
        let! addr := must (slice header 4 8) in
        Done (existsb (fun b => negb (bZ b =? 0)) addr).

Definition socks4_byte : header_body := fun c b =>
  if zlen (h_buf c) =? socks4HeaderBytes then Done (Return (c, NeedMore))
  else
    let offset := zlen (h_buf c) in
    let buf := h_buf c ++ [b] in
    let wrong := if offset =? 0 then negb (bZ b =? 4)
                 else if offset =? 1 then negb (bZ b =? 1) && negb (bZ b =? 2)
                 else false in
    if wrong then header_mismatch c buf
    else header_final socks4HeaderBytes validSOCKS4Header c buf.

Definition header_byte (k : header_kind) : header_body :=
  match k with
  | postgresqlClassifier => postgresql_byte
  | mongoDBClassifier => mongoDB_byte
  | proxyProtocolV2Classifier => proxyV2_byte
  | socks4Classifier => socks4_byte
  end.

Definition header_size (k : header_kind) : Z :=
  match k with
  | postgresqlClassifier => postgresqlHeaderBytes
  | mongoDBClassifier => mongoDBHeaderBytes
  | proxyProtocolV2Classifier => proxyProtocolV2HeaderBytes
  | socks4Classifier => socks4HeaderBytes
  end.

Definition header_Feed (c : headerClassifier) (p : list byte) : run (headerClassifier * State) :=
  if terminal (h_state c) then Done (c, h_state c)
  else
    let! o := for_bytes (header_byte (h_kind c)) c p in
    match o with
    | Return r => Done r
    | Continue c => Done (c, NeedMore)
    end.

#[export] Instance header_Classifier : Classifier info headerClassifier := {
  Feed := header_Feed;
  MinSniffBufferSize c := header_size (h_kind c);
  Metadata _ := None }.

Definition PostgreSQL : headerClassifier := MkHeader postgresqlClassifier [] NeedMore.
Definition MongoDB : headerClassifier := MkHeader mongoDBClassifier [] NeedMore.
Definition ProxyProtocolV2 : headerClassifier := MkHeader proxyProtocolV2Classifier [] NeedMore.
Definition SOCKS4 : headerClassifier := MkHeader socks4Classifier [] NeedMore.

(** ** SOCKS5 *)

Definition socks5GreetingMinBytes : Z := 2.
Definition socks5GreetingMaxBytes : Z := socks5GreetingMinBytes + 255.

Record socks5Classifier : Type := MkSocks5 {
  s5_buf : list byte;
  s5_needBytes : Z;
  s5_state : State }.

Definition SOCKS5 : socks5Classifier := MkSocks5 [] socks5GreetingMinBytes NeedMore.

Definition socks5_byte (c : socks5Classifier) (b : byte) : run (ctl socks5Classifier (socks5Classifier * State)) :=
  if zlen (s5_buf c) =? s5_needBytes c then Done (Return (c, NeedMore))
  else
    let offset := zlen (s5_buf c) in
    let buf := s5_buf c ++ [b] in
    if ((offset =? 0) && negb (bZ b =? 5)) || ((offset =? 1) && (bZ b =? 0))
    then Done (Return (MkSocks5 buf (s5_needBytes c) Mismatch, Mismatch))
    else
      let needBytes := if offset =? 1 then socks5GreetingMinBytes + bZ b else s5_needBytes c in
      if zlen buf =? needBytes then Done (Return (MkSocks5 buf needBytes Match, Match))
      else Done (Continue (MkSocks5 buf needBytes (s5_state c))).

Definition socks5_Feed (c : socks5Classifier) (p : list byte) : run (socks5Classifier * State) :=
  if terminal (s5_state c) then Done (c, s5_state c)
  else
    let! o := for_bytes socks5_byte c p in
    match o with
    | Return r => Done r
    | Continue c => Done (c, NeedMore)
    end.

#[export] Instance socks5_Classifier : Classifier info socks5Classifier := {
  Feed := socks5_Feed;
  MinSniffBufferSize _ := socks5GreetingMaxBytes;
  Metadata _ := None }.

(** ** DNS over TCP *)

Definition dnsOverTCPLengthBytes : Z := 2.
Definition dnsHeaderBytes : Z := 12.
Definition dnsOverTCPMaxMessageBytes : Z := 65535.
Definition DefaultDNSOverTCPMessageMaxBytes : Z := 4096.

(** [normalizeDNSOverTCPConfig]: the limit on the message. *)
Definition normalizeDNSOverTCPConfig (MaxMessageBytes : Z) : run Z :=
  if MaxMessageBytes <? 0 then Panicked
  else if MaxMessageBytes >? dnsOverTCPMaxMessageBytes then Panicked
  else Done (if MaxMessageBytes =? 0 then DefaultDNSOverTCPMessageMaxBytes else MaxMessageBytes).

Record dnsOverTCPClassifier : Type := MkDnsTcp {
  dt_maxMessageBytes : Z;
  dt_buf : list byte;
  dt_needBytes : Z;
  dt_state : State }.

Definition dt_set (c : dnsOverTCPClassifier) (buf : list byte) (needBytes : Z) (state : State) : dnsOverTCPClassifier :=
  MkDnsTcp (dt_maxMessageBytes c) buf needBytes state.

Definition newDNSOverTCPClassifier (maxMessageBytes : Z) : dnsOverTCPClassifier :=
  MkDnsTcp maxMessageBytes [] dnsOverTCPLengthBytes NeedMore.

Definition DNSOverTCPWithConfig (MaxMessageBytes : Z) : run dnsOverTCPClassifier :=
  let! m := normalizeDNSOverTCPConfig MaxMessageBytes in
  Done (newDNSOverTCPClassifier m).

(** [skipDNSName]: the offset after a name, following compression pointers
    with the set of visited offsets. *)
Fixpoint skip_name (fuel : nat) (message : list byte) (offset nameBytes returnOffset : Z) (visited : gset Z)
    : run (option Z) :=
  match fuel with
  | O => OutOfFuel
  | S fuel' =>
      if negb (protocolHasBytes message offset 1) then Done None
      else if bool_decide (offset ∈ visited) then Done None
      else
        let visited := {[offset]} ∪ visited in
        let! b := must (index message offset) in
        let length := bZ b in
        if Z.land length 192 =? 0 then
          let offset := offset + 1 in
          let nameBytes := nameBytes + 1 in
          if nameBytes >? 255 then Done None
          else if length =? 0 then Done (Some (if negb (returnOffset =? 0) then returnOffset else offset))
          else if negb (protocolHasBytes message offset length) then Done None
          else
            let offset := offset + length in
            let nameBytes := nameBytes + length in
            if nameBytes >? 255 then Done None
            else skip_name fuel' message offset nameBytes returnOffset visited
        else if Z.land length 192 =? 192 then
          if negb (protocolHasBytes message offset 2) then Done None
          else
            let! w := must (be16 message offset) in
            let pointer := Z.land w 16383 in
            if pointer >=? zlen message then Done None
            else
              let returnOffset := if returnOffset =? 0 then offset + 2 else returnOffset in
              skip_name fuel' message pointer nameBytes returnOffset visited
        else Done None
  end.

(** Every turn of the loop visits a new offset of the message. *)
Definition skipDNSName (message : list byte) (offset : Z) : run (option Z) :=
  skip_name (S (length message)) message offset 0 0 ∅.

(** The questions of a query, from [offset]: the offset after them. *)
Fixpoint dns_questions (count : nat) (message : list byte) (offset : Z) : run (option Z) :=
  match count with
  | O => Done (Some offset)
  | S count' =>
      let! o := skipDNSName message offset in
      match o with
      | None => Done None
      | Some offset =>
          if negb (protocolHasBytes message offset 4) then Done None
          else
            let! qtype := must (be16 message offset) in
            let! qclass := must (be16 message (offset + 2)) in
            if (qtype =? 0) || (qclass =? 0) then Done None
            else dns_questions count' message (offset + 4)
      end
  end.

Definition validDNSOverTCPQuery (message : list byte) : run bool :=
  if zlen message <? dnsHeaderBytes then Done false
  else
    let! flags := must (be16 message 2) in
    if negb (Z.land flags 32768 =? 0) then Done false
    else if Z.land (Z.shiftr flags 11) 15 >? 5 then Done false
    else
      let! questionCount := must (be16 message 4) in
      if questionCount =? 0 then Done false
      else
        let! o := dns_questions (Z.to_nat questionCount) message dnsHeaderBytes in
        match o with
        | None => Done false
        | Some offset => Done (offset <=? zlen message)
        end.

Definition dnsOverTCP_Feed (c : dnsOverTCPClassifier) (p : list byte) : run (dnsOverTCPClassifier * State) :=
  if terminal (dt_state c) then Done (c, dt_state c)
  else
    let limit := dnsOverTCPLengthBytes + dt_maxMessageBytes c in
    let remaining := limit - zlen (dt_buf c) in
    if negb (zlen p =? 0) && (remaining <=? 0) then Done (dt_set c (dt_buf c) (dt_needBytes c) Mismatch, Mismatch)
    else
      let! part := (if negb (zlen p =? 0) && (zlen p >? remaining) then must (slice p 0 remaining) else Done p) in
      let buf := dt_buf c ++ part in
      if zlen buf <? dnsOverTCPLengthBytes then Done (dt_set c buf (dt_needBytes c) (dt_state c), NeedMore)
      else
        let! messageLen := must (be16 buf 0) in
        if (messageLen <? dnsHeaderBytes) || (messageLen >? dt_maxMessageBytes c)
        then Done (dt_set c buf (dt_needBytes c) Mismatch, Mismatch)
        else
          let needBytes := dnsOverTCPLengthBytes + messageLen in
          if zlen buf <? needBytes then Done (dt_set c buf needBytes (dt_state c), NeedMore)
          else
            let! message := must (slice buf dnsOverTCPLengthBytes needBytes) in
            let! v := validDNSOverTCPQuery message in
            let state := if (v : bool) then Match else Mismatch in
            Done (dt_set c buf needBytes state, state).

#[export] Instance dnsOverTCP_Classifier : Classifier info dnsOverTCPClassifier := {
  Feed := dnsOverTCP_Feed;
  MinSniffBufferSize c := dnsOverTCPLengthBytes + dt_maxMessageBytes c;
  Metadata _ := None }.
