(* ===== verification/WellKnown.v ===== *)
(** The classifiers of src/sniffer/wellknown.go: request lines (RTSP, SIP and
    memcached's text protocol) and fixed binary prefixes (STUN, RDP, SMB, LDAP,
    Cassandra and memcached's binary protocol). *)

From S2P Require Import Prelude Classifier Combinators Protocols.

(** ** Functions of package bytes *)

Fixpoint bytes_Count (c : byte) (s : list byte) : Z :=
  match s with [] => 0 | b :: s' => (if bool_decide (b = c) then 1 else 0) + bytes_Count c s' end.

Fixpoint bytes_IndexByte (s : list byte) (c : byte) : Z :=
  match s with
  | [] => -1
  | b :: s' => if bool_decide (b = c) then 0 else let i := bytes_IndexByte s' c in if i <? 0 then -1 else i + 1
  end.

Fixpoint bytes_LastIndexByte (s : list byte) (c : byte) : Z :=
  match s with
  | [] => -1
  | b :: s' =>
      let i := bytes_LastIndexByte s' c in
      if i <? 0 then if bool_decide (b = c) then 0 else -1 else i + 1
  end.

Fixpoint bytes_split_go (sep : byte) (s cur : list byte) : list (list byte) :=
  match s with
  | [] => [cur]
  | b :: s' => if bool_decide (b = sep) then cur :: bytes_split_go sep s' [] else bytes_split_go sep s' (cur ++ [b])
  end.

Definition bytes_Split (s : list byte) (sep : byte) : list (list byte) := bytes_split_go sep s [].

Definition bsp : byte := x20.
Definition bcr : byte := x0d.
Definition blf : byte := x0a.

(** ** Lines that end in CR LF *)

Record boundedCRLFLineClassifier : Type := MkLine {
  bl_line : list byte;
  bl_maxBytes : Z;
  bl_valid : list byte -> run bool;
  bl_state : State }.

Definition bl_set (c : boundedCRLFLineClassifier) (line : list byte) (state : State) : boundedCRLFLineClassifier :=
  MkLine line (bl_maxBytes c) (bl_valid c) state.

Definition newBoundedCRLFLineClassifier (maxBytes : Z) (valid : list byte -> run bool) : run boundedCRLFLineClassifier :=
  if maxBytes <? 0 then Panicked else Done (MkLine [] maxBytes valid NeedMore).

(** [len(line) != 0 && line[len(line)-1] == '\r'] *)
Definition ends_in_cr (line : list byte) : run bool :=
  if zlen line =? 0 then Done false
  else let! b := must (index line (zlen line - 1)) in Done (bool_decide (b = bcr)).

Definition line_byte (c : boundedCRLFLineClassifier) (b : byte)
    : run (ctl boundedCRLFLineClassifier (boundedCRLFLineClassifier * State)) :=
  let mismatch (line : list byte) := Done (Return (bl_set c line Mismatch, Mismatch)) in
  if zlen (bl_line c) =? bl_maxBytes c then mismatch (bl_line c)
  else
    let! cr := ends_in_cr (bl_line c) in
    if cr && negb (bool_decide (b = blf)) then mismatch (bl_line c)
    else if ((bZ b <? 32) && negb (bool_decide (b = bcr)) && negb (bool_decide (b = blf))) || (bZ b =? 127)
    then mismatch (bl_line c)
    else
      let line := bl_line c ++ [b] in
      if bool_decide (b = blf) then
        if zlen line <? 2 then mismatch line
        else
          let! before := must (index line (zlen line - 2)) in
          if negb (bool_decide (before = bcr)) then mismatch line
          else
            let! text := must (slice line 0 (zlen line - 2)) in
            let! v := bl_valid c text in
            let state := if (v : bool) then Match else Mismatch in
            Done (Return (bl_set c line state, state))
      else Done (Continue (bl_set c line (bl_state c))).

Definition line_Feed (c : boundedCRLFLineClassifier) (p : list byte) : run (boundedCRLFLineClassifier * State) :=
  if terminal (bl_state c) then Done (c, bl_state c)
  else
    let! o := for_bytes line_byte c p in
    match o with
    | Return r => Done r
    | Continue c =>
        let state := if zlen (bl_line c) =? bl_maxBytes c then Mismatch else bl_state c in
        Done (bl_set c (bl_line c) state, state)
    end.

#[export] Instance line_Classifier : Classifier info boundedCRLFLineClassifier := {
  Feed := line_Feed;
  MinSniffBufferSize := bl_maxBytes;
  Metadata _ := None }.

Definition validTextRequestTarget (target : list byte) : bool :=
  negb (zlen target =? 0) && forallb graphic target.

Definition validTextRequestLine (line : list byte) (methods : list (list byte)) (version : list byte) : run bool :=
  if negb (bytes_Count bsp line =? 2) then Done false
  else
    let firstSpace := bytes_IndexByte line bsp in
    let lastSpace := bytes_LastIndexByte line bsp in
    if (firstSpace <=? 0) || (lastSpace <=? firstSpace + 1) || (lastSpace =? zlen line - 1) then Done false
    else
      let! method := must (slice line 0 firstSpace) in
      let! target := must (slice line (firstSpace + 1) lastSpace) in
      let! gotVersion := must (slice line (lastSpace + 1) (zlen line)) in
      if negb (eq_bytes gotVersion version) || negb (validTextRequestTarget target) then Done false
      else Done (existsb (eq_bytes method) methods).

Definition newTextRequestLineClassifier (maxBytes : Z) (methods : list (list byte)) (version : list byte)
    : run boundedCRLFLineClassifier :=
  newBoundedCRLFLineClassifier maxBytes (fun line => validTextRequestLine line methods version).

Definition rtspRequestMethods : list (list byte) :=
  map lit ["ANNOUNCE"; "DESCRIBE"; "GET_PARAMETER"; "OPTIONS"; "PAUSE"; "PLAY"; "PLAY_NOTIFY"; "RECORD";
           "REDIRECT"; "SETUP"; "SET_PARAMETER"; "TEARDOWN"]%string.

Definition sipRequestMethods : list (list byte) :=
  map lit ["ACK"; "BYE"; "CANCEL"; "INFO"; "INVITE"; "MESSAGE"; "NOTIFY"; "OPTIONS"; "PRACK"; "PUBLISH";
           "REFER"; "REGISTER"; "SUBSCRIBE"; "UPDATE"]%string.

Definition rtspRequestLineMaxBytes : Z := 1024.
Definition sipRequestLineMaxBytes : Z := 1024.
Definition memcachedASCIIRequestMaxBytes : Z := 512.

Definition RTSP : run boundedCRLFLineClassifier :=
  newTextRequestLineClassifier rtspRequestLineMaxBytes rtspRequestMethods (lit "RTSP/1.0").

Definition SIP : run boundedCRLFLineClassifier :=
  newTextRequestLineClassifier sipRequestLineMaxBytes sipRequestMethods (lit "SIP/2.0").

(** ** memcached, text *)

Definition validMemcachedToken (token : list byte) : bool := negb (zlen token =? 0) && forallb graphic token.

Definition validMemcachedKey (key : list byte) : bool := (zlen key <=? 250) && validMemcachedToken key.

Definition validMemcachedDecimal (token : list byte) : bool :=
  negb ((zlen token =? 0) || (zlen token >? 20)) && forallb is_digit token.

Definition validMemcachedKeys (tokens : list (list byte)) : bool :=
  negb (zlen tokens =? 0) && forallb validMemcachedKey tokens.

Definition validMemcachedTokens (tokens : list (list byte)) : bool := forallb validMemcachedToken tokens.

Definition hasEmptyToken (tokens : list (list byte)) : bool := existsb (fun t => zlen t =? 0) tokens.

Definition validMemcachedNoReply (tokens : list (list byte)) (baseTokens : Z) : run bool :=
  if zlen tokens =? baseTokens + 1 then
    let! t := must (index tokens baseTokens) in Done (eq_bytes t (lit "noreply"))
  else Done false.

(** [len(tokens) == n || validMemcachedNoReply(tokens, n)] *)
Definition memcached_arity (tokens : list (list byte)) (n : Z) : run bool :=
  if zlen tokens =? n then Done true else validMemcachedNoReply tokens n.

Definition validMemcachedStorageCommand (tokens : list (list byte)) (baseTokens : Z) : run bool :=
  let! arity := memcached_arity tokens baseTokens in
  if negb arity then Done false
  else
    let! key := must (index tokens 1) in
    if negb (validMemcachedKey key) then Done false
    else
      let! numbers := must (slice tokens 2 baseTokens) in
      Done (forallb validMemcachedDecimal numbers).

Definition validMemcachedFlushAll (tokens : list (list byte)) : run bool :=
  if zlen tokens =? 1 then Done true
  else if zlen tokens =? 2 then
    let! t := must (index tokens 1) in
    Done (eq_bytes t (lit "noreply") || validMemcachedDecimal t)
  else if zlen tokens =? 3 then
    let! t := must (index tokens 1) in
    let! u := must (index tokens 2) in
    Done (validMemcachedDecimal t && eq_bytes u (lit "noreply"))
  else Done false.

(** A command with [n] tokens (and an optional noreply) whose tokens from 1
    satisfy the tests. *)
Fixpoint memcached_tokens (tokens : list (list byte)) (i : Z) (tests : list (list byte -> bool)) : run bool :=
  match tests with
  | [] => Done true
  | test :: tests' =>
      let! t := must (index tokens i) in
      if test t then memcached_tokens tokens (i + 1) tests' else Done false
  end.

Definition memcached_command (tokens : list (list byte)) (tests : list (list byte -> bool)) : run bool :=
  let! arity := memcached_arity tokens (zlen tests + 1) in
  if (arity : bool) then memcached_tokens tokens 1 tests else Done false.

Definition one_of (t : list byte) (names : list string) : bool := existsb (fun n => eq_bytes t (lit n)) names.

Definition validMemcachedASCIIRequestLine (line : list byte) : run bool :=
  let tokens := bytes_Split line bsp in
  if (zlen tokens =? 0) || hasEmptyToken tokens then Done false
  else
    let! t := must (index tokens 0) in
    let! args := must (slice tokens 1 (zlen tokens)) in
    if one_of t ["get"; "gets"]%string then Done ((zlen tokens >=? 2) && validMemcachedKeys args)
    else if one_of t ["set"; "add"; "replace"; "append"; "prepend"]%string then validMemcachedStorageCommand tokens 5
    else if one_of t ["cas"]%string then validMemcachedStorageCommand tokens 6
    else if one_of t ["delete"]%string then memcached_command tokens [validMemcachedKey]
    else if one_of t ["incr"; "decr"]%string then memcached_command tokens [validMemcachedKey; validMemcachedDecimal]
    else if one_of t ["touch"]%string then memcached_command tokens [validMemcachedKey; validMemcachedDecimal]
    else if one_of t ["flush_all"]%string then validMemcachedFlushAll tokens
    else if one_of t ["stats"]%string then Done (validMemcachedTokens args)
    else if one_of t ["version"; "quit"]%string then Done (zlen tokens =? 1)
    else if one_of t ["verbosity"]%string then memcached_command tokens [validMemcachedDecimal]
    else Done false.

Definition MemcachedASCII : run boundedCRLFLineClassifier :=
  newBoundedCRLFLineClassifier memcachedASCIIRequestMaxBytes validMemcachedASCIIRequestLine.

(** ** STUN *)

Definition stunHeaderBytes : Z := 20.
Definition stunMagicCookie : Z := 554869826.

Definition validSTUNMessageType (messageType : Z) : bool :=
  if negb (Z.land messageType 49152 =? 0) then false
  else
    let method := Z.lor (Z.lor (Z.land messageType 15) (Z.shiftr (Z.land messageType 224) 1))
                        (Z.shiftr (Z.land messageType 15872) 2) in
    existsb (Z.eqb method) [1; 2; 3; 4; 6; 7; 8; 9; 10; 11; 12].

(** [len(data) >= n && bad(field)] with the field read only when it is there. *)
Definition from_length {A} (data : list byte) (n : Z) (field : option A) (bad : A -> bool) : run bool :=
  if zlen data >=? n then let! v := must field in Done (bad v) else Done false.

Definition matchSTUNHeaderPrefix : matcher := fun data =>
  if zlen data =? 0 then Done NeedMore
  else
    let! b0 := must (index data 0) in
    if negb (Z.land (bZ b0) 192 =? 0) then Done Mismatch
    else
      let! bad := from_length data 2 (be16 data 0) (fun t => negb (validSTUNMessageType t)) in
      if (bad : bool) then Done Mismatch
      else
        let! bad := from_length data 4 (be16 data 2) (fun n => negb (n mod 4 =? 0)) in
        if (bad : bool) then Done Mismatch
        else
          let! bad := from_length data 8 (be32 data 4) (fun c => negb (c =? stunMagicCookie)) in
          if (bad : bool) then Done Mismatch
          else if zlen data <? stunHeaderBytes then Done NeedMore
          else Done Match.

(** ** RDP *)

Definition rdpConnectionRequestMinBytes : Z := 11.

Definition validRDPConnectionRequestHeader (header : list byte) : run bool :=
  if negb (zlen header =? rdpConnectionRequestMinBytes) then Done false
  else
    let! b0 := must (index header 0) in
    let! b1 := must (index header 1) in
    let! b5 := must (index header 5) in
    if negb (bZ b0 =? 3) || negb (bZ b1 =? 0) || negb (Z.land (bZ b5) 240 =? 224) then Done false
    else
      let! tpktLen := must (be16 header 2) in
      let! b4 := must (index header 4) in
      let cotpHeaderBytes := bZ b4 + 1 in
      if (tpktLen <? rdpConnectionRequestMinBytes) || (cotpHeaderBytes <? 7) || (cotpHeaderBytes >? tpktLen - 4)
      then Done false
      else
        let! dst := must (be16 header 6) in
        if negb (dst =? 0) then Done false
        else
          let! b10 := must (index header 10) in
          Done (Z.land (bZ b10) 240 =? 0).

(** The switch on the number of bytes: the test of the byte just read. *)
Definition rdp_bad (data : list byte) : run bool :=
  if zlen data =? 1 then let! b := must (index data 0) in Done (negb (bZ b =? 3))
  else if zlen data =? 2 then let! b := must (index data 1) in Done (negb (bZ b =? 0))
  else if zlen data =? 4 then let! n := must (be16 data 2) in Done (n <? rdpConnectionRequestMinBytes)
  else if zlen data =? 5 then let! b := must (index data 4) in Done (bZ b <? 6)
  else if zlen data =? 6 then let! b := must (index data 5) in Done (negb (Z.land (bZ b) 240 =? 224))
  else Done false.

Definition matchRDPConnectionRequestPrefix : matcher := fun data =>
  if zlen data =? 0 then Done NeedMore
  else
    let! bad := rdp_bad data in
    if (bad : bool) then Done Mismatch
    else if zlen data <? rdpConnectionRequestMinBytes then Done NeedMore
    else
      let! v := validRDPConnectionRequestHeader data in
      Done (if (v : bool) then Match else Mismatch).

(** ** SMB *)

Definition smbOverTCPRequestMinBytes : Z := 24.

Definition smb1_id : list byte := [xff] ++ lit "SMB".
Definition smb2_id : list byte := [xfe] ++ lit "SMB".

Definition validSMBOverTCPRequestHeader (header : list byte) : run bool :=
  if negb (zlen header =? smbOverTCPRequestMinBytes) then Done false
  else
    let! b1 := must (index header 1) in
    let! low := must (be16 header 2) in
    let payloadLen := Z.lor (Z.shiftl (Z.land (bZ b1) 1) 16) low in
    let! id := must (slice header 4 8) in
    if eq_bytes id smb1_id then
      let! b8 := must (index header 8) in
      let! b13 := must (index header 13) in
      Done ((payloadLen >=? 32) && (bZ b8 =? 114) && (Z.land (bZ b13) 128 =? 0))
    else if eq_bytes id smb2_id then
      let! size := must (le16 header 8) in
      let! command := must (le16 header 16) in
      let! flags := must (le32 header 20) in
      Done ((payloadLen >=? 64) && (size =? 64) && (command =? 0) && (Z.land flags 1 =? 0))
    else Done false.

Definition matchSMBOverTCPRequestPrefix : matcher := fun data =>
  if zlen data =? 0 then Done NeedMore
  else
    let! b0 := must (index data 0) in
    if negb (bZ b0 =? 0) then Done Mismatch
    else
      let! bad := from_length data 2 (index data 1) (fun b => negb (Z.land (bZ b) 254 =? 0)) in
      if (bad : bool) then Done Mismatch
      else
        let! bad := from_length data 8 (slice data 4 8) (fun id => negb (eq_bytes id smb1_id) && negb (eq_bytes id smb2_id)) in
        if (bad : bool) then Done Mismatch
        else if zlen data <? smbOverTCPRequestMinBytes then Done NeedMore
        else
          let! v := validSMBOverTCPRequestHeader data in
          Done (if (v : bool) then Match else Mismatch).

(** ** LDAP *)

Definition ldapMessagePrefixMaxBytes : Z := 16.

Definition parseBERDefiniteLength (data : list byte) (offset maxLengthOctets : Z) : run field :=
  if negb (protocolHasBytes data offset 1) then Done FieldMore
  else
    let! b := must (index data offset) in
    let first := bZ b in
    if first <? 128 then Done (Field first (offset + 1))
    else if (first =? 128) || (first =? 255) then Done FieldBad
    else
      let lengthOctets := Z.land first 127 in
      if (lengthOctets =? 0) || (lengthOctets >? maxLengthOctets) then Done FieldBad
      else if negb (protocolHasBytes data (offset + 1) lengthOctets) then Done FieldMore
      else
        let! lead := must (index data (offset + 1)) in
        if bZ lead =? 0 then Done FieldBad
        else
          let! octets := must (slice data (offset + 1) (offset + 1 + lengthOctets)) in
          Done (Field (fold_left (fun value b => Z.lor (Z.shiftl value 8) (bZ b)) octets 0) (offset + 1 + lengthOctets)).

Definition validLDAPMessageID (encoded : list byte) : run bool :=
  if zlen encoded =? 0 then Done false
  else
    let! b := must (index encoded 0) in
    if negb (Z.land (bZ b) 128 =? 0) then Done false
    else Done (existsb (fun b => negb (bZ b =? 0)) encoded).

Definition validLDAPClientProtocolOpTag (tag : byte) : bool :=
  existsb (Z.eqb (bZ tag)) [96; 66; 99; 102; 104; 74; 108; 110; 80; 119].

Definition matchLDAPMessagePrefix : matcher := fun data =>
  if zlen data =? 0 then Done NeedMore
  else
    let! b0 := must (index data 0) in
    if negb (bZ b0 =? 48) then Done Mismatch
    else
      let! f := parseBERDefiniteLength data 1 4 in
      match f with
      | FieldMore => Done NeedMore
      | FieldBad => Done Mismatch
      | Field messageLen offset =>
          if messageLen <? 5 then Done Mismatch
          else if negb (protocolHasBytes data offset 1) then Done NeedMore
          else
            let! b := must (index data offset) in
            if negb (bZ b =? 2) then Done Mismatch
            else
              let! f := parseBERDefiniteLength data (offset + 1) 1 in
              match f with
              | FieldMore => Done NeedMore
              | FieldBad => Done Mismatch
              | Field messageIDLen valueOffset =>
                  if (messageIDLen =? 0) || (messageIDLen >? 5) then Done Mismatch
                  else if valueOffset + messageIDLen >? offset + messageLen then Done Mismatch
                  else if negb (protocolHasBytes data valueOffset messageIDLen) then Done NeedMore
                  else
                    let! encoded := must (slice data valueOffset (valueOffset + messageIDLen)) in
                    let! v := validLDAPMessageID encoded in
                    if negb v then Done Mismatch
                    else
                      let opOffset := valueOffset + messageIDLen in
                      if opOffset >=? offset + messageLen then Done Mismatch
                      else if negb (protocolHasBytes data opOffset 1) then Done NeedMore
                      else
                        let! tag := must (index data opOffset) in
                        Done (if validLDAPClientProtocolOpTag tag then Match else Mismatch)
              end
      end.

(** ** Cassandra *)

Definition cassandraRequestHeaderBytes : Z := 9.

Definition validCassandraRequestVersion (version : byte) : bool :=
  (bZ version =? 3) || (bZ version =? 4) || (bZ version =? 5).

Definition validCassandraRequestHeader (header : list byte) : run bool :=
  if negb (zlen header =? cassandraRequestHeaderBytes) then Done false
  else
    let! b0 := must (index header 0) in
    let! b1 := must (index header 1) in
    if negb (validCassandraRequestVersion b0) || negb (Z.land (bZ b1) 240 =? 0) then Done false
    else
      let! bodyLen := must (be32 header 5) in
      if bodyLen >? 2147483647 then Done false
      else
        let! b4 := must (index header 4) in
        Done (if bZ b4 =? 1 then bodyLen >=? 2 else if bZ b4 =? 5 then bodyLen =? 0 else false).

Definition matchCassandraRequestHeaderPrefix : matcher := fun data =>
  if zlen data =? 0 then Done NeedMore
  else
    let! bad := from_length data 1 (index data 0) (fun b => negb (validCassandraRequestVersion b)) in
    if (bad : bool) then Done Mismatch
    else
      let! bad := from_length data 2 (index data 1) (fun b => negb (Z.land (bZ b) 240 =? 0)) in
      if (bad : bool) then Done Mismatch
      else
        let! bad := from_length data 5 (index data 4) (fun b => negb (bZ b =? 1) && negb (bZ b =? 5)) in
        if (bad : bool) then Done Mismatch
        else if zlen data <? cassandraRequestHeaderBytes then Done NeedMore
        else
          let! v := validCassandraRequestHeader data in
          Done (if (v : bool) then Match else Mismatch).

(** ** memcached, binary *)

Definition memcachedBinaryHeaderBytes : Z := 24.

Inductive memcachedBinaryKeyMode : Type :=
  memcachedBinaryKeyOptional | memcachedBinaryKeyRequired | memcachedBinaryKeyForbidden.

Definition memcachedBinaryRequestOpcodeRules (opcode : byte) : option (memcachedBinaryKeyMode * Z * Z) :=
  let op := bZ opcode in
  let is_in := existsb (Z.eqb op) in
  if is_in [0; 4; 9; 12; 13; 14; 15; 20; 25; 26; 33; 34] then Some (memcachedBinaryKeyRequired, 0, -1)
  else if is_in [1; 2; 3; 17; 18; 19] then Some (memcachedBinaryKeyRequired, 8, -1)
  else if is_in [5; 6; 21; 22] then Some (memcachedBinaryKeyRequired, 20, -1)
  else if is_in [28; 29; 30] then Some (memcachedBinaryKeyRequired, 4, -1)
  else if is_in [7; 10; 11; 23; 32] then Some (memcachedBinaryKeyForbidden, 0, -1)
  else if is_in [8; 24] then Some (memcachedBinaryKeyForbidden, 0, 4)
  else if is_in [27] then Some (memcachedBinaryKeyForbidden, 4, -1)
  else if is_in [16] then Some (memcachedBinaryKeyOptional, 0, -1)
  else None.

Definition knownMemcachedBinaryRequestOpcode (opcode : byte) : bool :=
  match memcachedBinaryRequestOpcodeRules opcode with Some _ => true | None => false end.

Definition memcachedBinaryExtrasLengthOK (got : byte) (wantA wantB : Z) : bool :=
  (bZ got =? wantA) || ((wantB >=? 0) && (bZ got =? wantB)).

Definition memcachedBinaryKeyLengthOK (keyMode : memcachedBinaryKeyMode) (keyLen : Z) : bool :=
  match keyMode with
  | memcachedBinaryKeyRequired => keyLen >? 0
  | memcachedBinaryKeyForbidden => keyLen =? 0
  | memcachedBinaryKeyOptional => true
  end.

Definition validMemcachedBinaryHeader (header : list byte) : run bool :=
  if negb (zlen header =? memcachedBinaryHeaderBytes) then Done false
  else
    let! b0 := must (index header 0) in
    let! b5 := must (index header 5) in
    if negb (bZ b0 =? 128) || negb (bZ b5 =? 0) then Done false
    else
      let! b1 := must (index header 1) in
      let! b4 := must (index header 4) in
      match memcachedBinaryRequestOpcodeRules b1 with
      | None => Done false
      | Some (keyMode, extrasA, extrasB) =>
          if negb (memcachedBinaryExtrasLengthOK b4 extrasA extrasB) then Done false
          else
            let! keyLen := must (be16 header 2) in
            let extrasLen := bZ b4 in
            let! bodyLen := must (be32 header 8) in
            if bodyLen <? u32 (keyLen + extrasLen) then Done false
            else Done (memcachedBinaryKeyLengthOK keyMode keyLen)
      end.

Definition matchMemcachedBinaryHeaderPrefix : matcher := fun data =>
  if zlen data =? 0 then Done NeedMore
  else
    let! b0 := must (index data 0) in
    if negb (bZ b0 =? 128) then Done Mismatch
    else
      let! bad := from_length data 2 (index data 1) (fun b => negb (knownMemcachedBinaryRequestOpcode b)) in
      if (bad : bool) then Done Mismatch
      else
        let! bad := from_length data 6 (index data 5) (fun b => negb (bZ b =? 0)) in
        if (bad : bool) then Done Mismatch
        else if zlen data <? memcachedBinaryHeaderBytes then Done NeedMore
        else
          let! v := validMemcachedBinaryHeader data in
          Done (if (v : bool) then Match else Mismatch).

(** ** The constructors *)

Definition STUN : run protocolPrefixClassifier := newProtocolPrefixClassifier stunHeaderBytes matchSTUNHeaderPrefix.
Definition RDP : run protocolPrefixClassifier :=
  newProtocolPrefixClassifier rdpConnectionRequestMinBytes matchRDPConnectionRequestPrefix.
Definition SMB : run protocolPrefixClassifier :=
  newProtocolPrefixClassifier smbOverTCPRequestMinBytes matchSMBOverTCPRequestPrefix.
Definition LDAP : run protocolPrefixClassifier := newProtocolPrefixClassifier ldapMessagePrefixMaxBytes matchLDAPMessagePrefix.
Definition Cassandra : run protocolPrefixClassifier :=
  newProtocolPrefixClassifier cassandraRequestHeaderBytes matchCassandraRequestHeaderPrefix.
Definition MemcachedBinary : run protocolPrefixClassifier :=
  newProtocolPrefixClassifier memcachedBinaryHeaderBytes matchMemcachedBinaryHeaderPrefix.
