(* ===== verification/HTTPSniff.v ===== *)
(** The HTTP classifier of src/sniffer/http.go: string matchers with glob
    patterns, the request line, and the search for a Host header.

    [strings.ToLower] and [url.Parse] are parameters ([TextLib]): a URL is its
    scheme, its host and whether it has user information. *)

From S2P Require Import Prelude Classifier Combinators Protocols WellKnown.

(** ** Glob patterns *)

Inductive httpGlobToken : Type := httpGlobLiteral (b : byte) | httpGlobAny | httpGlobStar.

Definition httpGlobPattern : Type := list httpGlobToken.

(** The loop of [compileHTTPGlob] with its flag for a pending escape. *)
Fixpoint compile_glob (pattern : list byte) (escaped : bool) : httpGlobPattern :=
  match pattern with
  | [] => if escaped then [httpGlobLiteral x5c] else []
  | b :: rest =>
      if escaped then httpGlobLiteral b :: compile_glob rest false
      else if bZ b =? 92 then compile_glob rest true
      else if bZ b =? 42 then httpGlobStar :: compile_glob rest false
      else if bZ b =? 63 then httpGlobAny :: compile_glob rest false
      else httpGlobLiteral b :: compile_glob rest false
  end.

Definition compileHTTPGlob (pattern : list byte) : httpGlobPattern := compile_glob pattern false.

Definition token_matches (t : httpGlobToken) (b : byte) : bool :=
  match t with
  | httpGlobAny => true
  | httpGlobLiteral c => bool_decide (c = b)
  | httpGlobStar => false
  end.

Definition is_star (t : httpGlobToken) : bool := match t with httpGlobStar => true | _ => false end.

(** The variables of the matching loop. *)
Record glob_state : Type := MkGlob {
  g_patternIndex : Z;
  g_valueIndex : Z;
  g_starIndex : Z;
  g_starValueIndex : Z }.

(** One turn of [for valueIndex < len(value)]. *)
Definition glob_step (p : httpGlobPattern) (value : list byte) (g : glob_state) : run (ctl glob_state bool) :=
  let! b := must (index value (g_valueIndex g)) in
  let tok := index p (g_patternIndex g) in
  if match tok with Some t => token_matches t b | None => false end then
    Done (Continue (MkGlob (g_patternIndex g + 1) (g_valueIndex g + 1) (g_starIndex g) (g_starValueIndex g)))
  else if match tok with Some t => is_star t | None => false end then
    Done (Continue (MkGlob (g_patternIndex g + 1) (g_valueIndex g) (g_patternIndex g) (g_valueIndex g)))
  else if negb (g_starIndex g =? -1) then
    Done (Continue (MkGlob (g_starIndex g + 1) (g_starValueIndex g + 1) (g_starIndex g) (g_starValueIndex g + 1)))
  else Done (Return false).

(** [for patternIndex < len(p) && p[patternIndex].kind == httpGlobStar], and
    the answer after it. *)
Fixpoint only_stars (p : httpGlobPattern) : bool :=
  match p with [] => true | t :: p' => is_star t && only_stars p' end.

Fixpoint glob_loop (fuel : nat) (p : httpGlobPattern) (value : list byte) (g : glob_state) : run bool :=
  match fuel with
  | O => OutOfFuel
  | S fuel' =>
      if g_valueIndex g <? zlen value then
        let! o := glob_step p value g in
        match o with
        | Continue g' => glob_loop fuel' p value g'
        | Return r => Done r
        end
      else Done (only_stars (drop (Z.to_nat (g_patternIndex g)) p))
  end.

(** Between two advances of [starValueIndex] the loop consumes at most the
    pattern and the value, and the index advances at most once per byte of
    the value. *)
Definition glob_fuel (p : httpGlobPattern) (value : list byte) : nat :=
  S ((length value + 2) * (length p + length value + 2)).

Definition glob_match (p : httpGlobPattern) (value : list byte) : run bool :=
  glob_loop (glob_fuel p value) p value (MkGlob 0 0 (-1) 0).

(** ** String matchers *)

Record httpStringMatcher : Type := MkMatcher {
  m_exact : list (list byte);
  m_patterns : list httpGlobPattern }.

(** [newHTTPStringMatcher]; the empty values are skipped. *)
Definition newHTTPStringMatcher (exact : list byte) (exacts patterns : list (list byte))
    (canonicalize : list byte -> list byte) : httpStringMatcher :=
  let used := filter (fun v : list byte => v <> []) in
  MkMatcher (map canonicalize (used (exact :: exacts)))
    (map (fun p => compileHTTPGlob (canonicalize p)) (used patterns)).

Definition configured (m : httpStringMatcher) : bool :=
  negb (zlen (m_exact m) =? 0) || negb (zlen (m_patterns m) =? 0).

Fixpoint match_patterns (ps : list httpGlobPattern) (value : list byte) : run bool :=
  match ps with
  | [] => Done false
  | p :: ps' =>
      let! r := glob_match p value in
      if (r : bool) then Done true else match_patterns ps' value
  end.

Definition matcher_match (m : httpStringMatcher) (value : list byte) : run bool :=
  if negb (configured m) then Done true
  else if existsb (eq_bytes value) (m_exact m) then Done true
  else match_patterns (m_patterns m) value.

Fixpoint match_any (m : httpStringMatcher) (values : list (list byte)) : run bool :=
  match values with
  | [] => Done false
  | value :: values' =>
      let! r := matcher_match m value in
      if (r : bool) then Done true else match_any m values'
  end.

(** [matchAny] of src/sniffer/tls.go *)
Definition matchAny (m : httpStringMatcher) (values : list (list byte)) : run bool :=
  if negb (configured m) then Done true else match_any m values.

(** ** The parts of a request *)

Record URL : Type := MkURL {
  u_Scheme : list byte;
  u_Host : list byte;
  u_User : bool }.

Class TextLib : Type := {
  to_lower : list byte -> list byte;
  url_Parse : list byte -> option URL }.

(** [URL.Hostname]: the host without a port and without brackets. *)
Definition validOptionalPort (port : list byte) : bool :=
  match port with
  | [] => true
  | b :: digits => (bZ b =? 58) && forallb is_digit digits
  end.

Definition Hostname (u : URL) : list byte :=
  let host := u_Host u in
  let colon := bytes_LastIndexByte host x3a in
  let host :=
    if negb (colon =? -1) && validOptionalPort (drop (Z.to_nat colon) host) then take (Z.to_nat colon) host else host in
  match host with
  | b :: rest =>
      if (bZ b =? 91) && match last rest with Some e => bZ e =? 93 | None => false end
      then take (length rest - 1) rest else host
  | [] => host
  end.

Definition isHTTPTokenByte (b : byte) : bool :=
  let v := bZ b in
  is_digit b || ((65 <=? v) && (v <=? 90)) || ((97 <=? v) && (v <=? 122)) ||
  existsb (Z.eqb v) [33; 35; 36; 37; 38; 39; 42; 43; 45; 46; 94; 95; 96; 124; 126].

Definition validHTTPMethod (method : list byte) : bool :=
  negb (zlen method =? 0) && forallb isHTTPTokenByte method.

Definition validHTTPHeaderFieldName (name : list byte) : bool := validHTTPMethod name.

Definition validHTTPRequestTarget (target : list byte) : bool :=
  negb (zlen target =? 0) && forallb graphic target.

Definition http_slash : list byte := lit "HTTP/".

Definition validHTTPVersion (version : list byte) : bool :=
  eq_bytes (take 5 version) http_slash && negb (zlen version =? 5) && forallb graphic (drop 5 version).

Definition isHTTPRequestLineControl (b : byte) : bool := (bZ b <? 32) || (bZ b =? 127).

(** [bytes.Cut(s, []byte{sep})] *)
Fixpoint bytes_Cut (s : list byte) (sep : byte) : list byte * list byte * bool :=
  match s with
  | [] => ([], [], false)
  | b :: s' =>
      if bool_decide (b = sep) then ([], s', true)
      else let '(before, after, found) := bytes_Cut s' sep in
           if found then (b :: before, after, true) else (s, [], false)
  end.

(** [bytes.TrimSuffix(s, []byte{b})] *)
Definition trim_byte (s : list byte) (b : byte) : list byte :=
  match last s with
  | Some e => if bool_decide (e = b) then take (length s - 1) s else s
  | None => s
  end.

(** The line without its CR LF or LF. *)
Definition line_text (line : list byte) : list byte := trim_byte (trim_byte line blf) bcr.

(** [bytes.Trim(value, " \t")] *)
Definition blank (b : byte) : bool := (bZ b =? 32) || (bZ b =? 9).

Fixpoint trim_left (s : list byte) : list byte :=
  match s with
  | [] => []
  | b :: s' => if blank b then trim_left s' else s
  end.

Definition trim_blanks (s : list byte) : list byte := rev (trim_left (rev (trim_left s))).

(** [bytes.EqualFold] with an ASCII name, on token bytes. *)
Definition lower_byte (b : byte) : byte :=
  if (65 <=? bZ b) && (bZ b <=? 90) then byte_of_Z (bZ b + 32) else b.

Definition equal_fold (a b : list byte) : bool := eq_bytes (map lower_byte a) (map lower_byte b).

Section HTTP.
Context `{TextLib}.

(** [strings.ContainsAny(host, " \t\r\n")] *)
Definition has_blank (host : list byte) : bool :=
  existsb (fun b => existsb (Z.eqb (bZ b)) [32; 9; 13; 10]) host.

Definition normalizeHTTPHostname (host : list byte) : option (list byte) :=
  if (zlen host =? 0) || has_blank host then None
  else
    match url_Parse (lit "//" ++ host) with
    | None => None
    | Some parsed =>
        if (zlen (u_Host parsed) =? 0) || u_User parsed then None
        else
          let hostname := Hostname parsed in
          if zlen hostname =? 0 then None else Some (to_lower hostname)
    end.

Definition hostnameFromAbsoluteRequestTarget (target : list byte) : option (list byte) :=
  match url_Parse target with
  | None => None
  | Some parsed =>
      if (zlen (u_Scheme parsed) =? 0) || (zlen (u_Host parsed) =? 0) then None
      else normalizeHTTPHostname (u_Host parsed)
  end.

Definition hostnameFromHostHeaderValue (value : list byte) : option (list byte) :=
  let value := trim_blanks value in
  if zlen value =? 0 then None else normalizeHTTPHostname value.

(** ** The classifier *)

Record HTTPConfig : Type := MkHTTPConfig {
  hc_MaxRequestLineBytes : Z;
  hc_MaxHeaderBytes : Z;
  hc_Method : list byte; hc_Methods : list (list byte);
  hc_URL : list byte; hc_URLs : list (list byte); hc_URLPatterns : list (list byte);
  hc_Version : list byte; hc_Versions : list (list byte);
  hc_Hostname : list byte; hc_Hostnames : list (list byte); hc_HostnamePatterns : list (list byte) }.

Record normalizedHTTPConfig : Type := MkNormalizedHTTP {
  nh_maxRequestLineBytes : Z;
  nh_maxHeaderBytes : Z;
  nh_method : httpStringMatcher;
  nh_url : httpStringMatcher;
  nh_version : httpStringMatcher;
  nh_hostname : httpStringMatcher }.

Definition DefaultHTTPRequestLineMaxBytes : Z := 4096.
Definition DefaultHTTPHeaderMaxBytes : Z := 8192.

Definition normalizeHTTPConfig (config : HTTPConfig) : run normalizedHTTPConfig :=
  if hc_MaxRequestLineBytes config <? 0 then Panicked
  else if hc_MaxHeaderBytes config <? 0 then Panicked
  else
    Done (MkNormalizedHTTP
      (if hc_MaxRequestLineBytes config =? 0 then DefaultHTTPRequestLineMaxBytes else hc_MaxRequestLineBytes config)
      (if hc_MaxHeaderBytes config =? 0 then DefaultHTTPHeaderMaxBytes else hc_MaxHeaderBytes config)
      (newHTTPStringMatcher (hc_Method config) (hc_Methods config) [] id)
      (newHTTPStringMatcher (hc_URL config) (hc_URLs config) (hc_URLPatterns config) id)
      (newHTTPStringMatcher (hc_Version config) (hc_Versions config) [] id)
      (newHTTPStringMatcher (hc_Hostname config) (hc_Hostnames config) (hc_HostnamePatterns config) to_lower)).

Definition http_minSniffBufferSize (c : normalizedHTTPConfig) : Z :=
  nh_maxRequestLineBytes c + (if configured (nh_hostname c) then nh_maxHeaderBytes c else 0).

Inductive httpParsePhase : Type := httpRequestLinePhase | httpHeaderPhase.

Record httpClassifier : Type := MkHTTP {
  ht_config : normalizedHTTPConfig;
  ht_phase : httpParsePhase;
  ht_line : list byte;
  ht_headerBytes : Z;
  ht_state : State;
  ht_info : HTTPInfo }.

Definition newHTTPClassifier (config : normalizedHTTPConfig) : httpClassifier :=
  MkHTTP config httpRequestLinePhase [] 0 NeedMore (MkHTTPInfo [] [] [] []).

Definition HTTPWithConfig (config : HTTPConfig) : run httpClassifier :=
  let! n := normalizeHTTPConfig config in Done (newHTTPClassifier n).

Definition ht_set (c : httpClassifier) (phase : httpParsePhase) (line : list byte) (headerBytes : Z) (i : HTTPInfo)
    : httpClassifier := MkHTTP (ht_config c) phase line headerBytes (ht_state c) i.

(** [matchRequestLine] on the classifier whose line is complete. *)
Definition matchRequestLine (c : httpClassifier) : run (httpClassifier * State) :=
  let line := line_text (ht_line c) in
  let cfg := ht_config c in
  let '(method, rest, ok) := bytes_Cut line bsp in
  if negb ok || negb (validHTTPMethod method) then Done (c, Mismatch)
  else
    let '(target, version, ok) := bytes_Cut rest bsp in
    if negb ok || negb (validHTTPRequestTarget target) || negb (validHTTPVersion version) then Done (c, Mismatch)
    else
      let! m1 := matcher_match (nh_method cfg) method in
      let! m2 := (if (m1 : bool) then matcher_match (nh_url cfg) target else Done false) in
      let! m3 := (if (m2 : bool) then matcher_match (nh_version cfg) version else Done false) in
      if negb m3 then Done (c, Mismatch)
      else
        let found := hostnameFromAbsoluteRequestTarget target in
        let with_host (h : list byte) := MkHTTPInfo method target version h in
        let matched (h : list byte) := (ht_set c (ht_phase c) (ht_line c) (ht_headerBytes c) (with_host h), Match) in
        if negb (configured (nh_hostname cfg)) then
          Done (matched (match found with Some hostname => hostname | None => [] end))
        else
          let! hit := match found with Some hostname => matcher_match (nh_hostname cfg) hostname | None => Done false end in
          if (hit : bool) then Done (matched (match found with Some hostname => hostname | None => [] end))
          else Done (ht_set c httpHeaderPhase [] (ht_headerBytes c) (with_host []), NeedMore).

Definition matchHeaderLine (c : httpClassifier) : run (httpClassifier * State) :=
  let line := line_text (ht_line c) in
  let c := ht_set c (ht_phase c) [] (ht_headerBytes c) (ht_info c) in
  if zlen line =? 0 then Done (c, Mismatch)
  else
    let '(name, value, ok) := bytes_Cut line x3a in
    if negb ok || negb (validHTTPHeaderFieldName name) then Done (c, Mismatch)
    else if negb (equal_fold name (lit "Host")) then Done (c, NeedMore)
    else
      match hostnameFromHostHeaderValue value with
      | None => Done (c, Mismatch)
      | Some hostname =>
          let! hit := matcher_match (nh_hostname (ht_config c)) hostname in
          if negb hit then Done (c, Mismatch)
          else
            let i := ht_info c in
            Done (ht_set c (ht_phase c) (ht_line c) (ht_headerBytes c)
                    (MkHTTPInfo (hi_Method i) (hi_URL i) (hi_Version i) hostname), Match)
      end.

Definition feedRequestLineByte (c : httpClassifier) (b : byte) : run (httpClassifier * State) :=
  if zlen (ht_line c) =? nh_maxRequestLineBytes (ht_config c) then Done (c, Mismatch)
  else
    let! cr := ends_in_cr (ht_line c) in
    if cr && negb (bool_decide (b = blf)) then Done (c, Mismatch)
    else if negb (bool_decide (b = bcr)) && negb (bool_decide (b = blf)) && isHTTPRequestLineControl b then Done (c, Mismatch)
    else
      let c := ht_set c (ht_phase c) (ht_line c ++ [b]) (ht_headerBytes c) (ht_info c) in
      if bool_decide (b = blf) then matchRequestLine c
      else if zlen (ht_line c) =? nh_maxRequestLineBytes (ht_config c) then Done (c, Mismatch)
      else Done (c, NeedMore).

Definition feedHeaderByte (c : httpClassifier) (b : byte) : run (httpClassifier * State) :=
  let max := nh_maxHeaderBytes (ht_config c) in
  if ht_headerBytes c =? max then Done (c, Mismatch)
  else
    let! cr := ends_in_cr (ht_line c) in
    if cr && negb (bool_decide (b = blf)) then Done (c, Mismatch)
    else if negb (bZ b =? 9) && negb (bool_decide (b = bcr)) && negb (bool_decide (b = blf)) && (bZ b <? 32) then Done (c, Mismatch)
    else if bZ b =? 127 then Done (c, Mismatch)
    else
      let c := ht_set c (ht_phase c) (ht_line c ++ [b]) (ht_headerBytes c + 1) (ht_info c) in
      if bool_decide (b = blf) then
        let! r := matchHeaderLine c in
        if terminal r.2 then Done r
        else if ht_headerBytes r.1 =? max then Done (r.1, Mismatch)
        else Done (r.1, NeedMore)
      else if ht_headerBytes c =? max then Done (c, Mismatch)
      else Done (c, NeedMore).

(** The body of the loop of [Feed]. *)
Definition http_byte (c : httpClassifier) (b : byte) : run (ctl httpClassifier (httpClassifier * State)) :=
  let! r := match ht_phase c with
            | httpRequestLinePhase => feedRequestLineByte c b
            | httpHeaderPhase => feedHeaderByte c b
            end in
  let '(c, state) := r in
  if terminal state
  then Done (Return (MkHTTP (ht_config c) (ht_phase c) (ht_line c) (ht_headerBytes c) state (ht_info c), state))
  else Done (Continue c).

Definition http_Feed (c : httpClassifier) (p : list byte) : run (httpClassifier * State) :=
  if terminal (ht_state c) then Done (c, ht_state c)
  else
    let! o := for_bytes http_byte c p in
    match o with
    | Return r => Done r
    | Continue c => Done (c, NeedMore)
    end.

#[export] Instance http_Classifier : Classifier info httpClassifier := {
  Feed := http_Feed;
  MinSniffBufferSize c := http_minSniffBufferSize (ht_config c);
  Metadata c := if is_Match (ht_state c) then Some (Value (HTTPMeta (ht_info c))) else None }.

End HTTP.
