(* ===== verification/TLSHello.v ===== *)
(** The TLS classifier of src/sniffer/tls.go: TLS records, the handshake they
    carry, the ClientHello and its extensions, and the filters on it. *)

From S2P Require Import Prelude Classifier Combinators Protocols WellKnown HTTPSniff.

Definition DefaultTLSClientHelloMaxBytes : Z := 65536.
Definition tlsContentTypeHandshake : Z := 22.
Definition tlsHandshakeTypeClientHello : Z := 1.
Definition tlsRecordHeaderBytes : Z := 5.
Definition tlsHandshakeHeaderBytes : Z := 4.
Definition tlsPlaintextMaxBytes : Z := 16384.
Definition tlsExtensionServerName : Z := 0.
Definition tlsExtensionApplicationProtocols : Z := 16.
Definition tlsExtensionSupportedVersions : Z := 43.
Definition tlsExtensionEncryptedClientHello : Z := 65037.
Definition tlsServerNameTypeHostName : Z := 0.

Inductive TLSFlag : Type := TLSFlagAny | TLSFlagRequired | TLSFlagForbidden.

Definition flag_match (f : TLSFlag) (value : bool) : bool :=
  match f with
  | TLSFlagAny => true
  | TLSFlagRequired => value
  | TLSFlagForbidden => negb value
  end.

(** ** Names and versions *)

Definition validTLSRecordVersion (version : Z) : bool :=
  (Z.shiftr version 8 mod 256 =? 3) && (version mod 256 <=? 4).

Definition validTLSClientHelloVersion (version : Z) : bool := validTLSRecordVersion version.

(** [tlsUint24(l[i:i+3])] *)
Definition tlsUint24 (l : list byte) (i : Z) : run Z :=
  let! a := must (index l i) in
  let! b := must (index l (i + 1)) in
  let! c := must (index l (i + 2)) in
  Done (Z.lor (Z.lor (Z.shiftl (bZ a) 16) (Z.shiftl (bZ b) 8)) (bZ c)).

(** The bytes a host name may not have: spaces and controls, slash, backslash,
    colon, brackets and the at sign. *)
Definition hostname_byte (b : byte) : bool :=
  graphic b && negb (existsb (Z.eqb (bZ b)) [47; 92; 58; 91; 93; 64]).

Definition ends_in_dot (s : list byte) : bool := match last s with Some b => bZ b =? 46 | None => false end.

Section TLS.
Context `{TextLib}.

Definition normalizeTLSHostname (hostname : list byte) : option (list byte) :=
  if (zlen hostname =? 0) || ends_in_dot hostname then None
  else if forallb hostname_byte hostname then Some (to_lower hostname) else None.

Definition normalizeTLSHostnamePattern (pattern : list byte) : list byte :=
  match normalizeTLSHostname pattern with Some n => n | None => to_lower pattern end.

(** ** Extensions *)

(** The loop of [parseTLSServerNameExtension] from [offset]. *)
Fixpoint server_names (fuel : nat) (data : list byte) (offset : Z) (hostname : list byte) : run (option (list byte)) :=
  match fuel with
  | O => OutOfFuel
  | S fuel' =>
      if offset <? zlen data then
        if negb (protocolHasBytes data offset 3) then Done None
        else
          let! nameType := must (index data offset) in
          let offset := offset + 1 in
          let! nameLen := must (be16 data offset) in
          let offset := offset + 2 in
          if (nameLen =? 0) || negb (protocolHasBytes data offset nameLen) then Done None
          else if bZ nameType =? tlsServerNameTypeHostName then
            if negb (zlen hostname =? 0) then Done None
            else
              let! name := must (slice data offset (offset + nameLen)) in
              match normalizeTLSHostname name with
              | None => Done None
              | Some normalized => server_names fuel' data (offset + nameLen) normalized
              end
          else server_names fuel' data (offset + nameLen) hostname
      else Done (Some hostname)
  end.

Definition parseTLSServerNameExtension (data : list byte) : run (option (list byte)) :=
  if negb (protocolHasBytes data 0 2) then Done None
  else
    let! listLen := must (be16 data 0) in
    if (listLen =? 0) || negb (listLen =? zlen data - 2) then Done None
    else server_names (S (length data)) data 2 [].

Fixpoint alpn_protocols (fuel : nat) (data : list byte) (offset : Z) (protocols : list (list byte))
    : run (option (list (list byte))) :=
  match fuel with
  | O => OutOfFuel
  | S fuel' =>
      if offset <? zlen data then
        let! b := must (index data offset) in
        let protocolLen := bZ b in
        let offset := offset + 1 in
        if (protocolLen =? 0) || negb (protocolHasBytes data offset protocolLen) then Done None
        else
          let! protocol := must (slice data offset (offset + protocolLen)) in
          alpn_protocols fuel' data (offset + protocolLen) (protocols ++ [protocol])
      else Done (Some protocols)
  end.

Definition parseTLSALPNExtension (data : list byte) : run (option (list (list byte))) :=
  if negb (protocolHasBytes data 0 2) then Done None
  else
    let! listLen := must (be16 data 0) in
    if (listLen =? 0) || negb (listLen =? zlen data - 2) then Done None
    else alpn_protocols (S (length data)) data 2 [].

Fixpoint supported_versions (fuel : nat) (data : list byte) (offset : Z) (versions : list Z) : run (option (list Z)) :=
  match fuel with
  | O => OutOfFuel
  | S fuel' =>
      if offset <? zlen data then
        let! v := must (be16 data offset) in
        supported_versions fuel' data (offset + 2) (versions ++ [v])
      else Done (Some versions)
  end.

Definition parseTLSSupportedVersionsExtension (data : list byte) : run (option (list Z)) :=
  if zlen data <? 3 then Done None
  else
    let! b := must (index data 0) in
    let listLen := bZ b in
    if (listLen <? 2) || negb (listLen mod 2 =? 0) || negb (listLen =? zlen data - 1) then Done None
    else supported_versions (S (length data)) data 1 [].

Definition set_SNIHostname (i : TLSClientHelloInfo) (v : list byte) : TLSClientHelloInfo :=
  MkHelloInfo (ti_Versions i) v (ti_SNIEncrypted i) (ti_ALPNProtocols i).
Definition set_ALPNProtocols (i : TLSClientHelloInfo) (v : list (list byte)) : TLSClientHelloInfo :=
  MkHelloInfo (ti_Versions i) (ti_SNIHostname i) (ti_SNIEncrypted i) v.
Definition set_Versions (i : TLSClientHelloInfo) (v : list Z) : TLSClientHelloInfo :=
  MkHelloInfo v (ti_SNIHostname i) (ti_SNIEncrypted i) (ti_ALPNProtocols i).
Definition set_SNIEncrypted (i : TLSClientHelloInfo) : TLSClientHelloInfo :=
  MkHelloInfo (ti_Versions i) (ti_SNIHostname i) true (ti_ALPNProtocols i).

(** The switch on the type of an extension. *)
Definition read_extension (extensionType : Z) (data : list byte) (i : TLSClientHelloInfo)
    : run (option TLSClientHelloInfo) :=
  if extensionType =? tlsExtensionServerName then
    let! r := parseTLSServerNameExtension data in Done (set_SNIHostname i <$> r)
  else if extensionType =? tlsExtensionApplicationProtocols then
    let! r := parseTLSALPNExtension data in Done (set_ALPNProtocols i <$> r)
  else if extensionType =? tlsExtensionSupportedVersions then
    let! r := parseTLSSupportedVersionsExtension data in Done (set_Versions i <$> r)
  else if extensionType =? tlsExtensionEncryptedClientHello then Done (Some (set_SNIEncrypted i))
  else Done (Some i).

Fixpoint hello_extensions (fuel : nat) (extensions : list byte) (offset : Z) (seen : gset Z) (i : TLSClientHelloInfo)
    : run (option TLSClientHelloInfo) :=
  match fuel with
  | O => OutOfFuel
  | S fuel' =>
      if offset <? zlen extensions then
        if negb (protocolHasBytes extensions offset 4) then Done None
        else
          let! extensionType := must (be16 extensions offset) in
          let offset := offset + 2 in
          let! extensionLen := must (be16 extensions offset) in
          let offset := offset + 2 in
          if bool_decide (extensionType ∈ seen) then Done None
          else
            let seen := {[extensionType]} ∪ seen in
            if negb (protocolHasBytes extensions offset extensionLen) then Done None
            else
              let! extensionData := must (slice extensions offset (offset + extensionLen)) in
              let! r := read_extension extensionType extensionData i in
              match r with
              | None => Done None
              | Some i => hello_extensions fuel' extensions (offset + extensionLen) seen i
              end
      else Done (Some i)
  end.

Definition parseTLSClientHelloExtensions (extensions : list byte) (i : TLSClientHelloInfo) : run (option TLSClientHelloInfo) :=
  hello_extensions (S (length extensions)) extensions 0 ∅ i.

(** ** The ClientHello *)

Definition parseTLSClientHelloBody (body : list byte) : run (option TLSClientHelloInfo) :=
  if zlen body <? 34 then Done None
  else
    let! legacyVersion := must (be16 body 0) in
    if negb (validTLSClientHelloVersion legacyVersion) then Done None
    else
      let i := MkHelloInfo [legacyVersion] [] false [] in
      let offset := 34 in
      let! b := must (index body offset) in
      let sessionIDLen := bZ b in
      let offset := offset + 1 in
      if (sessionIDLen >? 32) || negb (protocolHasBytes body offset sessionIDLen) then Done None
      else
        let offset := offset + sessionIDLen in
        if negb (protocolHasBytes body offset 2) then Done None
        else
          let! cipherSuitesLen := must (be16 body offset) in
          let offset := offset + 2 in
          if (cipherSuitesLen <? 2) || negb (cipherSuitesLen mod 2 =? 0) || negb (protocolHasBytes body offset cipherSuitesLen)
          then Done None
          else
            let offset := offset + cipherSuitesLen in
            if negb (protocolHasBytes body offset 1) then Done None
            else
              let! b := must (index body offset) in
              let compressionMethodsLen := bZ b in
              let offset := offset + 1 in
              if (compressionMethodsLen =? 0) || negb (protocolHasBytes body offset compressionMethodsLen) then Done None
              else
                let offset := offset + compressionMethodsLen in
                if offset =? zlen body then Done (Some i)
                else if negb (protocolHasBytes body offset 2) then Done None
                else
                  let! extensionsLen := must (be16 body offset) in
                  let offset := offset + 2 in
                  if (extensionsLen =? 0) || negb (protocolHasBytes body offset extensionsLen) then Done None
                  else if negb (offset + extensionsLen =? zlen body) then Done None
                  else
                    let! extensions := must (slice body offset (zlen body)) in
                    parseTLSClientHelloExtensions extensions i.

Definition checkTLSClientHelloHeader (handshake : list byte) : run State :=
  if zlen handshake =? 0 then Done NeedMore
  else
    let! b := must (index handshake 0) in
    if negb (bZ b =? tlsHandshakeTypeClientHello) then Done Mismatch
    else if zlen handshake <? tlsHandshakeHeaderBytes then Done NeedMore
    else
      let! helloLength := tlsUint24 handshake 1 in
      if helloLength =? 0 then Done Mismatch
      else if zlen handshake <? tlsHandshakeHeaderBytes + helloLength then Done NeedMore
      else Done Match.

Definition tlsClientHelloNeedBytes (handshake : list byte) (handshakeBeforeRecord fragmentStart fragmentEnd : Z) : run Z :=
  let! neededHandshakeBytes :=
    (if zlen handshake >=? tlsHandshakeHeaderBytes then
       let! n := tlsUint24 handshake 1 in Done (tlsHandshakeHeaderBytes + n)
     else Done (if zlen handshake >=? 1 then tlsHandshakeHeaderBytes else 1)) in
  let neededInRecord := neededHandshakeBytes - handshakeBeforeRecord in
  if (neededInRecord >? 0) && (fragmentStart + neededInRecord <=? fragmentEnd)
  then Done (fragmentStart + neededInRecord)
  else Done (fragmentEnd + tlsRecordHeaderBytes).

(** The result of [parseTLSClientHello]: more bytes are needed and how many,
    no ClientHello, or its metadata. *)
Inductive hello : Type :=
| HelloMore (needBytes : Z)
| HelloBad
| Hello (i : TLSClientHelloInfo).

(** The loop over the records, from the one at [recordOffset]. *)
Fixpoint parse_records (fuel : nat) (data : list byte) (recordOffset : Z) (handshake : list byte) : run hello :=
  match fuel with
  | O => OutOfFuel
  | S fuel' =>
      if zlen data <? recordOffset + tlsRecordHeaderBytes then Done (HelloMore (recordOffset + tlsRecordHeaderBytes))
      else
        let! contentType := must (index data recordOffset) in
        if negb (bZ contentType =? tlsContentTypeHandshake) then Done HelloBad
        else
          let! version := must (be16 data (recordOffset + 1)) in
          if negb (validTLSRecordVersion version) then Done HelloBad
          else
            let! recordLength := must (be16 data (recordOffset + 3)) in
            if (recordLength =? 0) || (recordLength >? tlsPlaintextMaxBytes) then Done HelloBad
            else
              let fragmentStart := recordOffset + tlsRecordHeaderBytes in
              let fragmentEnd := fragmentStart + recordLength in
              let availableEnd := if fragmentEnd >? zlen data then zlen data else fragmentEnd in
              let handshakeBeforeRecord := zlen handshake in
              let! part := must (slice data fragmentStart availableEnd) in
              let handshake := handshake ++ part in
              let! state := checkTLSClientHelloHeader handshake in
              match state with
              | Mismatch => Done HelloBad
              | Match =>
                  let! n := tlsUint24 handshake 1 in
                  let helloLength := tlsHandshakeHeaderBytes + n in
                  let! body := must (slice handshake tlsHandshakeHeaderBytes helloLength) in
                  let! parsed := parseTLSClientHelloBody body in
                  Done (match parsed with None => HelloBad | Some i => Hello i end)
              | NeedMore =>
                  if availableEnd <? fragmentEnd then
                    let! n := tlsClientHelloNeedBytes handshake handshakeBeforeRecord fragmentStart fragmentEnd in
                    Done (HelloMore n)
                  else parse_records fuel' data fragmentEnd handshake
              end
  end.

Definition parseTLSClientHello (data : list byte) : run hello := parse_records (S (length data)) data 0 [].

(** ** The classifier *)

Record TLSConfig : Type := MkTLSConfig {
  tc_MaxClientHelloBytes : Z;
  tc_Version : Z; tc_Versions : list Z;
  tc_SNIAvailable : TLSFlag; tc_SNIEncrypted : TLSFlag;
  tc_Hostname : list byte; tc_Hostnames : list (list byte); tc_HostnamePatterns : list (list byte);
  tc_ALPN : list byte; tc_ALPNs : list (list byte); tc_ALPNPatterns : list (list byte) }.

Record normalizedTLSConfig : Type := MkNormalizedTLS {
  nt_maxClientHelloBytes : Z;
  nt_version : list Z;
  nt_sniAvailable : TLSFlag;
  nt_sniEncrypted : TLSFlag;
  nt_hostname : httpStringMatcher;
  nt_alpn : httpStringMatcher }.

(** [newTLSVersionMatcher]: the versions that are not zero. *)
Definition newTLSVersionMatcher (version : Z) (versions : list Z) : list Z :=
  filter (fun v => v <> 0) (version :: versions).

Definition version_match (versions offered : list Z) : bool :=
  (zlen versions =? 0) || existsb (fun want => existsb (Z.eqb want) offered) versions.

Definition normalizeTLSConfig (config : TLSConfig) : run normalizedTLSConfig :=
  if tc_MaxClientHelloBytes config <? 0 then Panicked
  else
    Done (MkNormalizedTLS
      (if tc_MaxClientHelloBytes config =? 0 then DefaultTLSClientHelloMaxBytes else tc_MaxClientHelloBytes config)
      (newTLSVersionMatcher (tc_Version config) (tc_Versions config))
      (tc_SNIAvailable config) (tc_SNIEncrypted config)
      (newHTTPStringMatcher (tc_Hostname config) (tc_Hostnames config) (tc_HostnamePatterns config) normalizeTLSHostnamePattern)
      (newHTTPStringMatcher (tc_ALPN config) (tc_ALPNs config) (tc_ALPNPatterns config) id)).

Record tlsClassifier : Type := MkTLS {
  tl_config : normalizedTLSConfig;
  tl_buf : list byte;
  tl_needBytes : Z;
  tl_state : State;
  tl_info : TLSClientHelloInfo }.

Definition no_hello : TLSClientHelloInfo := MkHelloInfo [] [] false [].

Definition newTLSClassifier (config : normalizedTLSConfig) : tlsClassifier :=
  MkTLS config [] tlsRecordHeaderBytes NeedMore no_hello.

Definition TLSWithConfig (config : TLSConfig) : run tlsClassifier :=
  let! n := normalizeTLSConfig config in Done (newTLSClassifier n).

(** [TLSConfig{MaxClientHelloBytes: max}] *)
Definition tls_limit (max : Z) : TLSConfig := MkTLSConfig max 0 [] TLSFlagAny TLSFlagAny [] [] [] [] [] [].

Definition TLS : run tlsClassifier := TLSWithConfig (tls_limit 0).

Definition matchClientHello (cfg : normalizedTLSConfig) (i : TLSClientHelloInfo) : run bool :=
  if negb (version_match (nt_version cfg) (ti_Versions i)) then Done false
  else if negb (flag_match (nt_sniAvailable cfg) (negb (zlen (ti_SNIHostname i) =? 0))) then Done false
  else if negb (flag_match (nt_sniEncrypted cfg) (ti_SNIEncrypted i)) then Done false
  else
    let! h := matcher_match (nt_hostname cfg) (ti_SNIHostname i) in
    if negb h then Done false
    else matchAny (nt_alpn cfg) (ti_ALPNProtocols i).

Definition tl_set (c : tlsClassifier) (buf : list byte) (needBytes : Z) (state : State) (i : TLSClientHelloInfo)
    : tlsClassifier := MkTLS (tl_config c) buf needBytes state i.

Definition tls_Feed (c : tlsClassifier) (p : list byte) : run (tlsClassifier * State) :=
  if terminal (tl_state c) then Done (c, tl_state c)
  else
    let max := nt_maxClientHelloBytes (tl_config c) in
    let remaining := max - zlen (tl_buf c) in
    if negb (zlen p =? 0) && (remaining <=? 0)
    then Done (tl_set c (tl_buf c) (tl_needBytes c) Mismatch (tl_info c), Mismatch)
    else
      let! part := (if negb (zlen p =? 0) && (zlen p >? remaining) then must (slice p 0 remaining) else Done p) in
      let buf := tl_buf c ++ part in
      if zlen buf <? tl_needBytes c then
        let state := if zlen buf =? max then Mismatch else NeedMore in
        Done (tl_set c buf (tl_needBytes c) state (tl_info c), state)
      else
        let! h := parseTLSClientHello buf in
        match h with
        | HelloMore needBytes =>
            let state := if (needBytes >? max) || (zlen buf =? max) then Mismatch else NeedMore in
            Done (tl_set c buf needBytes state (tl_info c), state)
        | HelloBad => Done (tl_set c buf (tl_needBytes c) Mismatch (tl_info c), Mismatch)
        | Hello i =>
            let! m := matchClientHello (tl_config c) i in
            let state := if (m : bool) then Match else Mismatch in
            Done (tl_set c buf (tl_needBytes c) state i, state)
        end.

#[export] Instance tls_Classifier : Classifier info tlsClassifier := {
  Feed := tls_Feed;
  MinSniffBufferSize c := nt_maxClientHelloBytes (tl_config c);
  Metadata c := if is_Match (tl_state c) then Some (Value (TLSMeta (tl_info c))) else None }.

End TLS.
