(* ===== verification/PrefixSpec.v ===== *)
(** Classifiers that collect a bounded prefix keep the contract of the
    interface: the verdict is the first final answer of the matcher on a prefix
    of the stream, and a mismatch once the bound is reached without one.  The
    second part is for classifiers that read byte by byte. *)

From S2P Require Import Prelude Classifier Combinators Protocols.

(** The answer of a matcher that returns. *)
Definition answer (f : matcher) (data : list byte) : State :=
  match f data with Done st => st | _ => Mismatch end.

(** The matcher returns on every nonempty buffer up to the bound. *)
Definition total_upto (f : matcher) (n : Z) : Prop :=
  forall data, 0 < zlen data <= n -> exists st, f data = Done st.

Fixpoint first_decision (g : list byte -> State) (seen rest : list byte) : State :=
  match rest with
  | [] => NeedMore
  | b :: rest' =>
      let st := g (seen ++ [b]) in
      if terminal st then st else first_decision g (seen ++ [b]) rest'
  end.

Definition scan_verdict (n : Z) (g : list byte -> State) : verdict := fun s =>
  let st := first_decision g [] (take (Z.to_nat n) s) in
  if terminal st then st else if n <=? zlen s then Mismatch else NeedMore.

Lemma not_terminal st : terminal st = false -> st = NeedMore.
Proof. by destruct st. Qed.

Lemma first_decision_app g seen s p :
  first_decision g seen (s ++ p) =
  if terminal (first_decision g seen s) then first_decision g seen s else first_decision g (seen ++ s) p.
Proof.
  revert seen. induction s as [|b s IH]; intros seen; cbn [first_decision app terminal]; [by rewrite app_nil_r|].
  destruct (terminal (g (seen ++ [b]))) eqn:E; [by rewrite E|]. rewrite IH.
  by rewrite <- app_assoc.
Qed.

Lemma first_decision_snoc g s b :
  first_decision g [] s = NeedMore -> first_decision g [] (s ++ [b]) = g (s ++ [b]).
Proof.
  intros Hs. rewrite first_decision_app, Hs. cbn [terminal app first_decision].
  by destruct (g (s ++ [b])).
Qed.

Lemma first_decision_stable g : stable (first_decision g []).
Proof. intros s p Ht. by rewrite first_decision_app, Ht. Qed.

Lemma scan_is_limit n g s : scan_verdict n g s = limit_verdict n (first_decision g []) s.
Proof. done. Qed.

Lemma scan_stable n g : 0 <= n -> stable (scan_verdict n g).
Proof. intros Hn. apply (limit_verdict_stable n _ Hn), first_decision_stable. Qed.

Lemma scan_decides n g : decides (scan_verdict n g) n.
Proof.
  intros s Hs. unfold scan_verdict. destruct (terminal (first_decision g [] (take (Z.to_nat n) s))) eqn:E; [done|].
  by destruct (Z.leb_spec n (zlen s)); [|lia].
Qed.

Lemma scan_within n g s :
  zlen s <= n -> scan_verdict n g s =
  if terminal (first_decision g [] s) then first_decision g [] s else if n <=? zlen s then Mismatch else NeedMore.
Proof. intros Hs. unfold scan_verdict. by rewrite take_ge by (unfold zlen in Hs; lia). Qed.

Lemma scan_over n g s b :
  zlen s = n -> first_decision g [] s = NeedMore -> scan_verdict n g (s ++ [b]) = Mismatch.
Proof.
  intros Hs Hf. unfold scan_verdict. rewrite take_app_le by (unfold zlen in Hs; lia).
  rewrite take_ge by (unfold zlen in Hs; lia). rewrite Hf. cbn [terminal]. rewrite zlen_app.
  pose proof (zlen_nonneg [b]). by destruct (Z.leb_spec n (zlen s + zlen [b])); [|lia].
Qed.

Section PrefixClassifier.
Variables (n : Z) (f : matcher).
Hypothesis n_nonneg : 0 <= n.
Hypothesis f_total : total_upto f n.

Notation V := (scan_verdict n (answer f)).

Definition pp_shape (c : protocolPrefixClassifier) : Prop := pp_maxBytes c = n /\ pp_match c = f.

Definition pp_active (c : protocolPrefixClassifier) (s : list byte) : Prop :=
  pp_shape c /\ pp_state c = NeedMore /\ pp_buf c = s /\ zlen s <= n /\ first_decision (answer f) [] s = NeedMore.

Definition pp_final (r : protocolPrefixClassifier * State) (s : list byte) : Prop :=
  pp_shape r.1 /\ pp_state r.1 = r.2 /\ terminal r.2 = true /\ r.2 = V s.

Lemma pp_final_app r s p : pp_final r s -> pp_final r (s ++ p).
Proof.
  intros (H1 & H2 & H3 & H4). split_and!; [done|done|done|]. symmetry.
  by apply (stable_at _ s); [apply scan_stable|..].
Qed.

Lemma pp_byte c s b :
  pp_active c s -> exists o, prefix_loop c b = Done o /\
    match o with Continue c' => pp_active c' (s ++ [b]) | Return r => pp_final r (s ++ [b]) end.
Proof.
  intros ((Hn & Hf) & Hst & Hb & Hlen & Hfd). unfold prefix_loop. rewrite Hn, Hf, Hb.
  destruct (Z.eqb_spec (zlen s) n) as [He|Hne].
  - eexists. split; [done|]. split_and!; [done|done|done|]. cbn [snd]. by rewrite scan_over.
  - assert (Hl : zlen (s ++ [b]) = zlen s + 1) by (rewrite zlen_app; done).
    destruct (f_total (s ++ [b])) as [st Hst']; [rewrite Hl; pose proof (zlen_nonneg s); lia|].
    rewrite Hst'. cbn [run_bind]. assert (Ha : first_decision (answer f) [] (s ++ [b]) = st).
    { rewrite first_decision_snoc by done. unfold answer. by rewrite Hst'. }
    destruct (terminal st) eqn:Et.
    + eexists. split; [done|]. split_and!; [done|done|done|]. cbn [snd].
      rewrite scan_within by lia. by rewrite Ha, Et.
    + eexists. split; [done|]. apply not_terminal in Et as ->. split_and!; [done|done|done|lia|done].
Qed.

Lemma pp_implements : implements V (fun _ => True) (MkProtocolPrefix [] n f NeedMore).
Proof.
  split; [|by apply scan_stable|done|by apply scan_decides].
  exists (fun c s => pp_active c s \/ exists st, pp_final (c, st) s). split; [left; by split_and!|].
  intros c s p Hc _. cbn [Feed protocolPrefix_Classifier]. unfold protocolPrefix_Feed. destruct Hc as [Hc|(st & Hc)].
  - destruct Hc as (Hsh & Hst & Hrest). rewrite Hst. cbn [terminal].
    destruct (for_bytes_spec prefix_loop pp_active pp_final pp_byte pp_final_app p c s) as (o & -> & Ho); [exact (conj Hsh (conj Hst Hrest))|].
    cbn [run_bind]. destruct o as [c'|[c' st]].
    + destruct Ho as ((Hn & Hf) & Hst' & Hb & Hlen & Hfd). rewrite Hn, Hb, Hst'.
      assert (HV : V (s ++ p) = if zlen (s ++ p) =? n then Mismatch else NeedMore).
      { rewrite scan_within, Hfd by done. cbn [terminal].
        destruct (Z.eqb_spec (zlen (s ++ p)) n), (Z.leb_spec n (zlen (s ++ p))); try lia; done. }
      rewrite HV. eexists. split; [done|]. destruct (Z.eqb_spec (zlen (s ++ p)) n).
      * right. exists Mismatch. split_and!; [done|done|done|]. by rewrite HV.
      * left. by split_and!.
    + destruct Ho as (H1 & H2 & H3 & H4). cbn [fst snd] in *. exists c'. rewrite <- H4. split; [done|]. right. by exists st.
  - pose proof (pp_final_app _ _ p Hc) as Hc'. destruct Hc as (H1 & H2 & H3 & H4). cbn [fst snd] in *. rewrite H2, H3.
    exists c. split; [|right; by exists st]. destruct Hc' as (_ & _ & _ & H5). cbn [snd] in H5. by rewrite <- H5.
Qed.

End PrefixClassifier.

(** A matcher whose final answers stand has the answer of the matcher itself
    as its verdict. *)
Definition stands (g : list byte -> State) (n : Z) : Prop :=
  forall s b, zlen s < n -> terminal (g s) = true -> g (s ++ [b]) = g s.

Lemma stands_first g n s : g [] = NeedMore -> stands g n -> zlen s <= n -> first_decision g [] s = g s.
Proof.
  intros Hnil Hg. induction s as [|b s IH] using rev_ind; intros Hs; [done|].
  rewrite zlen_app in Hs. change (zlen [b]) with 1 in Hs. rewrite first_decision_app, IH by lia.
  destruct (terminal (g s)) eqn:E; [symmetry; apply Hg; [lia|done]|]. cbn [app first_decision]. by destruct (g (s ++ [b])).
Qed.

(** ** Totality of run computations *)

Lemma bool_decide_negb_false (b : bool) : negb b = false -> b = true.
Proof. by destruct b. Qed.

Ltac bounds :=
  repeat match goal with
  | H : negb _ = false |- _ => apply bool_decide_negb_false in H
  | H : protocolHasBytes _ _ _ = true |- _ => apply has_bytes_spec in H
  | H : andb _ _ = true |- _ => apply andb_prop in H as [? ?]
  | H : orb _ _ = false |- _ => apply orb_false_iff in H as [? ?]
  | H : be16 _ _ = Some _ |- _ => apply be16_range in H
  end; lia.

(** One step of a computation that must return. *)
Ltac run_step :=
  match goal with
  | |- exists r, Done _ = Done r => eexists; reflexivity
  | |- exists r, (if ?b then _ else _) = Done r => destruct b eqn:?
  | |- exists r, run_bind (if ?b then _ else _) _ = Done r => destruct b eqn:?
  | |- exists r, run_bind (Done _) _ = Done r => cbn [run_bind]
  | |- exists r, run_bind (run_bind _ _) _ = Done r => cbn [run_bind must]
  | |- exists r, run_bind (must (index ?l ?i)) _ = Done r =>
      let H := fresh "Hread" in let x := fresh "x" in
      assert (H : 0 <= i < zlen l) by bounds; apply index_in_range in H as [x H]; rewrite H; cbn [must run_bind]
  | |- exists r, run_bind (must (slice ?l ?i ?j)) _ = Done r =>
      let H := fresh "Hread" in let x := fresh "x" in
      assert (H : is_Some (slice l i j)) by (apply slice_in_range; bounds); destruct H as [x H]; rewrite H; cbn [must run_bind]
  | |- exists r, run_bind (must (be16 ?l ?i)) _ = Done r =>
      let H := fresh "Hread" in let x := fresh "x" in
      assert (H : is_Some (be16 l i)) by (apply be16_in_range; bounds); destruct H as [x H]; rewrite H; cbn [must run_bind]
  | |- exists r, run_bind (must (be32 ?l ?i)) _ = Done r =>
      let H := fresh "Hread" in let x := fresh "x" in
      assert (H : is_Some (be32 l i)) by (apply be32_available; bounds); destruct H as [x H]; rewrite H; cbn [must run_bind]
  | |- exists r, run_bind (must (le16 ?l ?i)) _ = Done r =>
      let H := fresh "Hread" in let x := fresh "x" in
      assert (H : is_Some (le16 l i)) by (apply le16_in_range; bounds); destruct H as [x H]; rewrite H; cbn [must run_bind]
  | |- exists r, run_bind (must (le32 ?l ?i)) _ = Done r =>
      let H := fresh "Hread" in let x := fresh "x" in
      assert (H : is_Some (le32 l i)) by (apply le32_in_range; bounds); destruct H as [x H]; rewrite H; cbn [must run_bind]
  end.

(** ** Machines

    A machine has a loop body, a state of its answer and, for classifiers with
    a bound, a test for the bound after the loop.  Its verdict on a stream is
    the answer to the stream fed as one chunk; an invariant [Q] of the object
    after the bytes read so far is all a protocol has to give. *)

Lemma for_bytes_app {S R} (body : S -> byte -> run (ctl S R)) c s p :
  for_bytes body c (s ++ p) =
  let! o := for_bytes body c s in
  match o with Continue c' => for_bytes body c' p | Return r => Done (Return r) end.
Proof.
  revert c. induction s as [|b s IH]; intros c; [done|]. cbn [for_bytes app].
  destruct (body c b) as [[c'|r]| |]; cbn [run_bind]; [apply IH|done|done|done].
Qed.

Section Machine.
Context {C : Type} `{Classifier info C}.
Variable body : C -> byte -> run (ctl C (C * State)).
Variable st : C -> State.
Variable full : C -> bool.
Variable close : C -> C.
Variable Q : C -> list byte -> Prop.
Variable n : Z.

Hypothesis feed_settled : forall c p, terminal (st c) = true -> Feed c p = Done (c, st c).
Hypothesis feed_return : forall c s p r,
  Q c s -> for_bytes body c p = Done (Return r) -> Feed c p = Done r.
Hypothesis feed_continue : forall c s p c',
  Q c s -> Q c' (s ++ p) -> for_bytes body c p = Done (Continue c') ->
  Feed c p = Done (if full c' then (close c', Mismatch) else (c', NeedMore)).
Hypothesis close_state : forall c, st (close c) = Mismatch.

Hypothesis Q_active : forall c s, Q c s -> st c = NeedMore.
Hypothesis Q_byte : forall c s b, Q c s -> exists o, body c b = Done o /\
  match o with Continue c' => Q c' (s ++ [b]) | Return r => terminal r.2 = true /\ st r.1 = r.2 end.
Hypothesis Q_full : forall c s, Q c s -> n <= zlen s -> full c = true.
Hypothesis full_stop : forall c s b, Q c s -> full c = true -> exists c', body c b = Done (Return (c', Mismatch)).

Variable c0 : C.
Hypothesis Q_start : Q c0 [].
Hypothesis n_size : MinSniffBufferSize c0 = n.
Hypothesis n_nonneg : 0 <= n.

Definition machine_verdict : verdict := fun s =>
  match for_bytes body c0 s with
  | Done (Return r) => r.2
  | Done (Continue c) => if full c then Mismatch else NeedMore
  | _ => Mismatch
  end.

Lemma machine_runs s :
  exists o, for_bytes body c0 s = Done o /\
    match o with Continue c => Q c s | Return r => terminal r.2 = true /\ st r.1 = r.2 end.
Proof.
  destruct (for_bytes_spec body Q (fun r _ => terminal r.2 = true /\ st r.1 = r.2) Q_byte ltac:(done) s c0 [] Q_start)
    as (o & Ho & Hq). by exists o.
Qed.

Lemma machine_stable : stable machine_verdict.
Proof.
  intros s p. destruct (machine_runs s) as (o & Ho & Hq). unfold machine_verdict. rewrite for_bytes_app, Ho.
  cbn [run_bind]. destruct o as [c|r]; [|done]. destruct (full c) eqn:Ef; [|done]. intros _.
  destruct p as [|b p]; [cbn [for_bytes]; by rewrite Ef|]. cbn [for_bytes].
  destruct (full_stop c s b Hq Ef) as [c' ->]. done.
Qed.

Lemma machine_decides : decides machine_verdict n.
Proof.
  intros s Hs. destruct (machine_runs s) as (o & Ho & Hq). unfold machine_verdict. rewrite Ho.
  destruct o as [c|r]; [|apply Hq]. by rewrite (Q_full _ _ Hq Hs).
Qed.

Definition machine_at (c : C) (s : list byte) : Prop :=
  for_bytes body c0 s = Done (Continue c) \/ (terminal (st c) = true /\ st c = machine_verdict s).

Lemma machine_tracks : tracks machine_verdict (fun _ => True) c0 [].
Proof.
  exists machine_at. split; [by left|]. intros c s p Hc _.
  destruct (terminal (st c)) eqn:Et.
  - assert (Hv : st c = machine_verdict s).
    { destruct Hc as [Hc|[_ Hv]]; [|done]. destruct (machine_runs s) as (o & Ho & Hq).
      rewrite Hc in Ho. injection Ho as <-. by rewrite (Q_active _ _ Hq) in Et. }
    exists c. rewrite feed_settled by done. assert (Hs : machine_verdict (s ++ p) = st c).
    { rewrite machine_stable; [done|]. by rewrite <- Hv. }
    rewrite Hs. split; [done|]. right. by rewrite Hs.
  - destruct Hc as [Hc|[Ht _]]; [|congruence].
    assert (Hcs : Q c s) by (destruct (machine_runs s) as (o & Ho & Hq); rewrite Hc in Ho; by injection Ho as <-).
    destruct (machine_runs (s ++ p)) as (o & Ho & Hq). pose proof Ho as Hsp. rewrite for_bytes_app, Hc in Hsp. cbn [run_bind] in Hsp.
    destruct o as [c'|r].
    + rewrite (feed_continue _ _ _ _ Hcs Hq Hsp). unfold machine_at, machine_verdict. rewrite Ho.
      destruct (full c') eqn:Ef; eexists; (split; [done|]); [right|by left]. by rewrite close_state.
    + rewrite (feed_return _ _ _ _ Hcs Hsp). unfold machine_at, machine_verdict. rewrite Ho. destruct r as [c' x].
      exists c'. split; [done|]. right. cbn [fst snd] in *. destruct Hq as [H1 H2]. by rewrite H2.
Qed.

Lemma machine_implements : implements machine_verdict (fun _ => True) c0.
Proof.
  split; [apply machine_tracks|apply machine_stable|by rewrite n_size|rewrite n_size; apply machine_decides].
Qed.

End Machine.
