(* ===== verification/ProtocolsSpec.v ===== *)
(** The classifiers of src/sniffer/basic.go, protocols.go and wellknown.go keep
    the contract of the interface: no read is out of range, the answers do not
    depend on the chunks, and the sizes they report are enough. *)

From S2P Require Import Prelude Classifier Combinators Protocols WellKnown PrefixSpec.

(** ** The matchers return *)

Lemma mqtt_length_total fuel data offset value mult :
  1 <= offset <= 4 -> Z.max 0 (zlen data - offset) < Z.of_nat fuel ->
  exists r, mqtt_length fuel data offset value mult = Done r /\
    match r with Some (Some (_, o)) => offset <= o <= 4 /\ o < zlen data | _ => True end.
Proof.
  revert offset value mult. induction fuel as [|fuel IH]; intros offset value mult Ho Hf; cbn [mqtt_length].
  { lia. }
  destruct (Z.ltb_spec offset (zlen data)) as [Hlt|]; [|by eexists].
  destruct (index_in_range data offset ltac:(lia)) as [b ->]. cbn [must run_bind].
  destruct (Z.land (bZ b) 128 =? 0); [eexists; split; [done|]; cbn; lia|].
  destruct (Z.eqb_spec offset 4); [by eexists|].
  destruct (IH (offset + 1) (value + Z.land (bZ b) 127 * mult) (mult * 128)) as (r & -> & Hr); [lia|lia|].
  exists r. split; [done|]. destruct r as [[[v o]|]|]; [lia|done|done].
Qed.

Lemma parse_mqtt_total data :
  exists r, parseMQTTRemainingLength data = Done r /\
    match r with Some (Some (_, o)) => 1 <= o <= 4 /\ o < zlen data | _ => True end.
Proof. apply mqtt_length_total; [lia|]. unfold zlen. lia. Qed.

Lemma matchMQTT_total n : total_upto matchMQTTConnectPrefix n.
Proof.
  intros data Hn. unfold matchMQTTConnectPrefix. repeat run_step.
  destruct (parse_mqtt_total data) as (r & -> & Hr). cbn [run_bind].
  destruct r as [[[v o]|]|]; [|by eexists|by eexists]. repeat run_step.
Qed.

Lemma decimal_total fuel data i maxDigits digits value :
  0 <= i -> Z.max 0 (zlen data - i) < Z.of_nat fuel ->
  exists r, decimal_loop fuel data i maxDigits digits value = Done r /\
    match r with Field _ next => i < next <= zlen data | _ => True end.
Proof.
  revert i digits value. induction fuel as [|fuel IH]; intros i digits value Hi Hf; cbn [decimal_loop].
  { lia. }
  destruct (Z.ltb_spec i (zlen data)) as [Hlt|]; [|by eexists].
  destruct (index_in_range data i ltac:(lia)) as [b ->]. cbn [must run_bind]. destruct (is_digit b).
  - destruct (digits =? maxDigits); [by eexists|].
    destruct (IH (i + 1) (digits + 1) (value * 10 + (bZ b - 48))) as (r & -> & Hr); [lia|lia|].
    exists r. split; [done|]. destruct r; [done|done|lia].
  - destruct (bZ b =? 13); [|by eexists]. destruct (digits =? 0); [by eexists|].
    destruct (Z.eqb_spec (i + 1) (zlen data)); [by eexists|].
    destruct (index_in_range data (i + 1) ltac:(lia)) as [b' ->]. cbn [must run_bind].
    destruct (negb (bZ b' =? 10) || (value =? 0)); [by eexists|]. eexists. split; [done|]. cbn. lia.
Qed.

Lemma parse_decimal_total data i maxDigits :
  0 <= i -> exists r, parsePositiveDecimalCRLF data i maxDigits = Done r /\
    match r with Field _ next => i < next <= zlen data | _ => True end.
Proof. intros Hi. apply decimal_total; [done|]. unfold zlen. lia. Qed.

(** The value of a number is at least its starting value. *)
Lemma decimal_value fuel data i maxDigits digits value v next :
  0 <= value -> decimal_loop fuel data i maxDigits digits value = Done (Field v next) -> 0 <= v.
Proof.
  revert i digits value. induction fuel as [|fuel IH]; intros i digits value Hv; cbn [decimal_loop]; [done|].
  destruct (i <? zlen data); [|done]. destruct (index data i) as [b|]; [|done]. cbn [must run_bind].
  destruct (is_digit b) eqn:Ed.
  - destruct (digits =? maxDigits); [done|]. apply IH. unfold is_digit in Ed. lia.
  - destruct (bZ b =? 13); [|done]. destruct (digits =? 0); [done|]. destruct (i + 1 =? zlen data); [done|].
    destruct (index data (i + 1)) as [b'|]; [|done]. cbn [must run_bind].
    destruct (negb (bZ b' =? 10) || (value =? 0)); [done|]. intros [= <- <-]. done.
Qed.

Lemma matchRedis_total n : total_upto matchRedisRESPRequestPrefix n.
Proof.
  intros data Hn. unfold matchRedisRESPRequestPrefix. repeat run_step.
  destruct (parse_decimal_total data 1 redisRESPMaxDecimalDigits ltac:(lia)) as (r & -> & Hr). cbn [run_bind].
  destruct r as [| |v o]; [by eexists|by eexists|]. repeat run_step.
  destruct (parse_decimal_total data (o + 1) redisRESPMaxDecimalDigits ltac:(lia)) as (r & Hp & Hr'). rewrite Hp.
  cbn [run_bind]. destruct r as [| |bulk o']; [by eexists|by eexists|].
  pose proof (decimal_value _ _ _ _ 0 0 bulk o' ltac:(lia) Hp). repeat run_step.
Qed.

Lemma from_length_total {A} data n (o : option A) bad :
  (n <= zlen data -> is_Some o) -> exists r, from_length data n o bad = Done r.
Proof.
  intros Ho. unfold from_length. destruct (Z.geb_spec (zlen data) n); [|by eexists].
  destruct Ho as [a ->]; [lia|]. by eexists.
Qed.

(** One field test of a matcher. *)
Ltac field_test :=
  match goal with
  | |- exists r, run_bind (from_length ?data ?n ?o ?bad) _ = Done r =>
      let H := fresh "Hfield" in let v := fresh "v" in
      assert (H : exists r, from_length data n o bad = Done r);
      [apply from_length_total; intros ?;
       first [apply index_in_range|apply be16_in_range|apply be32_available|apply slice_in_range]; lia
      |destruct H as [v H]; rewrite H; clear H; cbn [run_bind]]
  end.

(** A validity test of a whole header. *)
Ltac valid_test lem :=
  match goal with
  | |- exists r, run_bind (?valid ?data) _ = Done r =>
      let H := fresh "Hvalid" in let v := fresh "v" in
      destruct (lem data) as [v H]; rewrite H; cbn [run_bind]
  end.

Lemma matchSTUN_total n : total_upto matchSTUNHeaderPrefix n.
Proof. intros data Hn. unfold matchSTUNHeaderPrefix. repeat first [run_step|field_test]. Qed.

Lemma valid_rdp_total data : exists r, validRDPConnectionRequestHeader data = Done r.
Proof. unfold validRDPConnectionRequestHeader, rdpConnectionRequestMinBytes. repeat run_step. Qed.

Lemma rdp_bad_total data : exists r, rdp_bad data = Done r.
Proof. unfold rdp_bad. repeat run_step. Qed.

Lemma matchRDP_total n : total_upto matchRDPConnectionRequestPrefix n.
Proof.
  intros data Hn. unfold matchRDPConnectionRequestPrefix. run_step; [repeat run_step|]. valid_test rdp_bad_total.
  repeat run_step. valid_test valid_rdp_total. repeat run_step.
Qed.

Lemma valid_smb_total data : exists r, validSMBOverTCPRequestHeader data = Done r.
Proof. unfold validSMBOverTCPRequestHeader, smbOverTCPRequestMinBytes. repeat run_step. Qed.

Lemma matchSMB_total n : total_upto matchSMBOverTCPRequestPrefix n.
Proof.
  intros data Hn. unfold matchSMBOverTCPRequestPrefix. repeat first [run_step|field_test].
  valid_test valid_smb_total. repeat run_step.
Qed.

Lemma ber_value octets : 0 <= fold_left (fun value b => Z.lor (Z.shiftl value 8) (bZ b)) octets 0.
Proof.
  assert (Hg : forall acc, 0 <= acc -> 0 <= fold_left (fun value b => Z.lor (Z.shiftl value 8) (bZ b)) octets acc); [|by apply Hg].
  induction octets as [|b octets IH]; intros acc Ha; [done|]. cbn [fold_left]. apply IH.
  apply Z.lor_nonneg. split; [by apply Z.shiftl_nonneg|]. pose proof (bZ_range b). lia.
Qed.

Lemma parse_ber_total data offset k :
  0 <= offset -> exists r, parseBERDefiniteLength data offset k = Done r /\
    match r with Field v next => 0 <= v /\ offset < next <= zlen data | _ => True end.
Proof.
  intros Ho. unfold parseBERDefiniteLength.
  destruct (negb (protocolHasBytes data offset 1)) eqn:E1; [by eexists|].
  destruct (index_in_range data offset ltac:(bounds)) as [b ->]. cbn [must run_bind]. pose proof (bZ_range b).
  destruct (bZ b <? 128); [eexists; split; [done|]; cbn; bounds|].
  destruct ((bZ b =? 128) || (bZ b =? 255)); [by eexists|].
  destruct ((Z.land (bZ b) 127 =? 0) || (Z.land (bZ b) 127 >? k)) eqn:E2; [by eexists|].
  destruct (negb (protocolHasBytes data (offset + 1) (Z.land (bZ b) 127))) eqn:E3; [by eexists|].
  apply bool_decide_negb_false, has_bytes_spec in E3.
  destruct (index_in_range data (offset + 1) ltac:(lia)) as [lead ->]. cbn [must run_bind].
  destruct (bZ lead =? 0); [by eexists|].
  destruct (slice_in_range data (offset + 1) (offset + 1 + Z.land (bZ b) 127) ltac:(lia) ltac:(lia)) as [oct ->].
  cbn [must run_bind]. eexists. split; [done|]. split; [apply ber_value|lia].
Qed.

Lemma valid_ldap_id_total data : exists r, validLDAPMessageID data = Done r.
Proof. unfold validLDAPMessageID. pose proof (zlen_nonneg data). repeat run_step. Qed.

Lemma matchLDAP_total n : total_upto matchLDAPMessagePrefix n.
Proof.
  intros data Hn. unfold matchLDAPMessagePrefix. repeat run_step.
  destruct (parse_ber_total data 1 4 ltac:(lia)) as (r & -> & Hr). cbn [run_bind].
  destruct r as [| |v o]; [by eexists|by eexists|]. repeat run_step.
  destruct (parse_ber_total data (o + 1) 1 ltac:(lia)) as (r & -> & Hr'). cbn [run_bind].
  destruct r as [| |v' o']; [by eexists|by eexists|]. repeat run_step.
  valid_test valid_ldap_id_total. repeat run_step.
Qed.

Lemma valid_cassandra_total data : exists r, validCassandraRequestHeader data = Done r.
Proof. unfold validCassandraRequestHeader, cassandraRequestHeaderBytes. repeat run_step. Qed.

Lemma matchCassandra_total n : total_upto matchCassandraRequestHeaderPrefix n.
Proof.
  intros data Hn. unfold matchCassandraRequestHeaderPrefix. repeat first [run_step|field_test].
  valid_test valid_cassandra_total. repeat run_step.
Qed.

Lemma valid_memcached_binary_total data : exists r, validMemcachedBinaryHeader data = Done r.
Proof.
  unfold validMemcachedBinaryHeader, memcachedBinaryHeaderBytes. repeat run_step.
  destruct (memcachedBinaryRequestOpcodeRules _) as [[[k a] b]|]; [|by eexists]. repeat run_step.
Qed.

Lemma matchMemcachedBinary_total n : total_upto matchMemcachedBinaryHeaderPrefix n.
Proof.
  intros data Hn. unfold matchMemcachedBinaryHeaderPrefix. repeat first [run_step|field_test].
  valid_test valid_memcached_binary_total. repeat run_step.
Qed.

(** ** Prefixes *)

Fixpoint prefix_verdict (want : list byte) : verdict := fun s =>
  match want, s with
  | [], _ => Match
  | _, [] => NeedMore
  | w :: want', b :: s' => if bool_decide (b = w) then prefix_verdict want' s' else Mismatch
  end.

Lemma prefix_verdict_stable want : stable (prefix_verdict want).
Proof.
  intros s p. revert s. induction want as [|w want IH]; intros [|b s]; [done|done|done|].
  cbn [prefix_verdict app]. destruct (bool_decide (b = w)); [apply IH|done].
Qed.

Lemma prefix_verdict_decides want : decides (prefix_verdict want) (zlen want).
Proof.
  intros s. revert s. induction want as [|w want IH]; intros [|b s]; [done|done| |].
  - rewrite zlen_cons. pose proof (zlen_nonneg want). unfold zlen. cbn [length]. lia.
  - rewrite !zlen_cons. intros Hs. cbn [prefix_verdict]. destruct (bool_decide (b = w)); [apply IH; lia|done].
Qed.

Lemma prefix_verdict_common s want p : prefix_verdict (s ++ want) (s ++ p) = prefix_verdict want p.
Proof. induction s as [|b s IH]; [done|]. cbn [app prefix_verdict]. by rewrite bool_decide_eq_true_2. Qed.

(** A stream matches exactly when it begins with the prefix. *)
Lemma prefix_verdict_match want s : prefix_verdict want s = Match <-> exists rest, s = want ++ rest.
Proof.
  split.
  2:{ intros [rest ->]. pose proof (prefix_verdict_common want [] rest) as Hc. by rewrite app_nil_r in Hc. }
  revert s. induction want as [|w want IH]; intros [|b s]; [by exists []|by exists (b :: s)|done|].
  cbn [prefix_verdict]. case_bool_decide as Hb; [|done]. subst. intros (rest & ->)%IH. by exists rest.
Qed.

Definition prefix_active (want : list byte) (c : prefixClassifier) (s : list byte) : Prop :=
  pr_want c = want /\ pr_state c = NeedMore /\ pr_offset c = zlen s /\ exists w rest, want = s ++ w :: rest.

Definition prefix_final (want : list byte) (r : prefixClassifier * State) (s : list byte) : Prop :=
  pr_want r.1 = want /\ pr_state r.1 = r.2 /\ terminal r.2 = true /\ r.2 = prefix_verdict want s.

Lemma prefix_final_app want r s p : prefix_final want r s -> prefix_final want r (s ++ p).
Proof.
  intros (H1 & H2 & H3 & H4). split_and!; [done|done|done|]. symmetry.
  by apply (stable_at _ s); [apply prefix_verdict_stable|..].
Qed.

Lemma prefix_step want c s b :
  prefix_active want c s -> exists o, prefix_byte c b = Done o /\
    match o with Continue c' => prefix_active want c' (s ++ [b]) | Return r => prefix_final want r (s ++ [b]) end.
Proof.
  intros (Hw & Hst & Ho & w & rest & He). unfold prefix_byte. rewrite Hw, Ho, He.
  rewrite index_app_r by lia. rewrite Z.sub_diag. change (index (w :: rest) 0) with (Some w). cbn [must run_bind].
  case_bool_decide as Hb; cbn [negb].
  2:{ eexists. split; [done|]. split_and!; [done|done|done|]. cbn [snd]. rewrite prefix_verdict_common.
      cbn [prefix_verdict]. by rewrite bool_decide_eq_false_2. }
  subst w. rewrite zlen_app, zlen_cons. destruct (Z.eqb_spec (zlen s + 1) (zlen s + (zlen rest + 1))) as [Hl|Hl].
  - eexists. split; [done|]. destruct rest as [|x rest]; [|rewrite zlen_cons in Hl; pose proof (zlen_nonneg rest); lia].
    split_and!; [done|done|done|]. cbn [snd]. symmetry. apply prefix_verdict_match. exists []. by rewrite app_nil_r.
  - eexists. split; [done|]. destruct rest as [|x rest]; [unfold zlen in Hl; cbn [length] in Hl; lia|].
    split_and!; [done|done|by rewrite zlen_app|]. exists x, rest. by rewrite <- app_assoc.
Qed.

Lemma prefix_implements want : implements (prefix_verdict want) (fun _ => True) (Prefix want).
Proof.
  split; [|apply prefix_verdict_stable|apply zlen_nonneg|apply prefix_verdict_decides].
  exists (fun c s => prefix_active want c s \/ (want = [] /\ c = Prefix [] /\ s = []) \/ exists st, prefix_final want (c, st) s).
  split.
  { destruct want as [|w want]; [right; by left|]. left. split_and!; [done|done|done|]. by exists w, want. }
  intros c s p Hc _. cbn [Feed prefix_Classifier]. unfold prefix_Feed. destruct Hc as [Hc|[(-> & -> & ->)|(st & Hc)]].
  - pose proof Hc as (Hw & Hst & Ho & w & rest & He). rewrite Hst, Hw. cbn [terminal].
    destruct (Z.eqb_spec (zlen want) 0) as [Hz|_].
    { rewrite He, zlen_app, zlen_cons in Hz. pose proof (zlen_nonneg s). pose proof (zlen_nonneg rest). lia. }
    destruct (for_bytes_spec prefix_byte (prefix_active want) (prefix_final want) (prefix_step want)
      (prefix_final_app want) p c s Hc) as (o & -> & Hq). cbn [run_bind]. destruct o as [c'|[c' st]].
    + destruct Hq as (Hw' & Hst' & Ho' & w' & rest' & He'). exists c'. split; [|left; split_and!; [done|done|done|by exists w', rest']].
      do 2 f_equal. rewrite He'. rewrite <- (app_nil_r (s ++ p)) at 2. by rewrite prefix_verdict_common.
    + exists c'. pose proof Hq as (H1 & H2 & H3 & H4). cbn [snd] in H4. rewrite <- H4. split; [done|]. right; right. by exists st.
  - eexists. split; [done|]. right; right. exists Match. by split_and!.
  - pose proof (prefix_final_app _ _ _ p Hc) as Hc'. destruct Hc as (H1 & H2 & H3 & H4). cbn [fst snd] in *. rewrite H2, H3.
    exists c. pose proof Hc' as (_ & _ & _ & H5). cbn [snd] in H5. rewrite <- H5. split; [done|]. right; right. by exists st.
Qed.

(** ** Fixed headers *)

Lemma valid_postgresql_total data : exists r, validPostgreSQLStartupHeader data = Done r.
Proof. unfold validPostgreSQLStartupHeader, postgresqlPacketLength, postgresqlHeaderBytes. repeat run_step. Qed.

Lemma valid_mongodb_total data : exists r, validMongoDBHeader data = Done r.
Proof. unfold validMongoDBHeader, mongoDBMessageLength, mongoDBHeaderBytes. repeat run_step. Qed.

Lemma valid_proxy_total data : exists r, validProxyProtocolV2Header data = Done r.
Proof.
  unfold validProxyProtocolV2Header, proxyProtocolV2HeaderBytes. change (zlen proxyProtocolV2Signature) with 12.
  repeat run_step.
Qed.

Lemma valid_socks4_total data : exists r, validSOCKS4Header data = Done r.
Proof. unfold validSOCKS4Header, socks4HeaderBytes. repeat run_step. Qed.

Definition header_at (k : header_kind) (c : headerClassifier) (s : list byte) : Prop :=
  h_kind c = k /\ h_state c = NeedMore /\ h_buf c = s /\ zlen s < header_size k.

Definition header_next (k : header_kind) (s : list byte) (o : ctl headerClassifier (headerClassifier * State)) : Prop :=
  match o with Continue c => header_at k c s | Return r => terminal r.2 = true /\ h_state r.1 = r.2 end.

Lemma header_final_total k valid c s b :
  (forall data, exists r, valid data = Done r) -> header_at k c s ->
  exists o, header_final (header_size k) valid c (s ++ [b]) = Done o /\ header_next k (s ++ [b]) o.
Proof.
  intros Hv (Hk & Hst & Hb & Hl). unfold header_final. assert (Hz : zlen (s ++ [b]) = zlen s + 1) by by rewrite zlen_app.
  destruct (Z.eqb_spec (zlen (s ++ [b])) (header_size k)).
  - destruct (Hv (s ++ [b])) as [v ->]. cbn [run_bind]. eexists. split; [done|]. by destruct v.
  - eexists. split; [done|]. split_and!; [done|done|done|lia].
Qed.

Lemma header_mismatch_total k c buf s : exists o, header_mismatch c buf = Done o /\ header_next k s o.
Proof. eexists. by split. Qed.

Lemma header_total k c s b :
  header_at k c s -> exists o, header_byte k c b = Done o /\ header_next k (s ++ [b]) o.
Proof.
  intros Hc. pose proof Hc as (Hk & Hst & Hb & Hl). assert (Hz : zlen (s ++ [b]) = zlen s + 1) by by rewrite zlen_app.
  destruct k; cbn [header_byte header_size] in *.
  - unfold postgresql_byte. rewrite Hb. destruct (Z.eqb_spec (zlen s) postgresqlHeaderBytes); [lia|].
    unfold postgresqlPacketLength. destruct (Z.eqb_spec (zlen (s ++ [b])) 4).
    + destruct (be32_available (s ++ [b]) 0 ltac:(lia) ltac:(lia)) as [v ->]. cbn [must run_bind].
      destruct (v <? 8); [by apply header_mismatch_total|].
      apply (header_final_total postgresqlClassifier); [apply valid_postgresql_total|done].
    + cbn [run_bind]. apply (header_final_total postgresqlClassifier); [apply valid_postgresql_total|done].
  - unfold mongoDB_byte. rewrite Hb. destruct (Z.eqb_spec (zlen s) mongoDBHeaderBytes); [lia|].
    unfold mongoDBMessageLength. destruct (Z.eqb_spec (zlen (s ++ [b])) 4).
    + destruct (le32_in_range (s ++ [b]) 0 ltac:(lia) ltac:(lia)) as [v ->]. cbn [must run_bind].
      destruct (v <? mongoDBHeaderBytes); [by apply header_mismatch_total|].
      apply (header_final_total mongoDBClassifier); [apply valid_mongodb_total|done].
    + cbn [run_bind]. apply (header_final_total mongoDBClassifier); [apply valid_mongodb_total|done].
  - unfold proxyV2_byte. rewrite Hb. destruct (Z.eqb_spec (zlen s) proxyProtocolV2HeaderBytes); [lia|].
    destruct (Z.ltb_spec (zlen s) (zlen proxyProtocolV2Signature)).
    + destruct (index_in_range proxyProtocolV2Signature (zlen s)) as [w ->]; [pose proof (zlen_nonneg s); lia|].
      cbn [must run_bind]. destruct (negb (bool_decide (b = w))); [by apply header_mismatch_total|].
      apply (header_final_total proxyProtocolV2Classifier); [apply valid_proxy_total|done].
    + cbn [run_bind]. apply (header_final_total proxyProtocolV2Classifier); [apply valid_proxy_total|done].
  - unfold socks4_byte. rewrite Hb. destruct (Z.eqb_spec (zlen s) socks4HeaderBytes); [lia|].
    destruct (if zlen s =? 0 then _ else _); [by apply header_mismatch_total|].
    apply (header_final_total socks4Classifier); [apply valid_socks4_total|done].
Qed.

Definition fresh_header (k : header_kind) : headerClassifier := MkHeader k [] NeedMore.

Definition header_verdict (k : header_kind) : verdict := machine_verdict (header_byte k) (fun _ => false) (fresh_header k).

Lemma header_implements k : implements (header_verdict k) (fun _ => True) (fresh_header k).
Proof.
  apply (machine_implements (header_byte k) h_state (fun _ => false) (fun c => h_set c (h_buf c) Mismatch)
    (header_at k) (header_size k)).
  - intros c p Ht. cbn [Feed header_Classifier]. unfold header_Feed. by rewrite Ht.
  - intros c s p r (Hk & Hst & _) Hf. cbn [Feed header_Classifier]. unfold header_Feed. rewrite Hst, Hk. cbn [terminal].
    by rewrite Hf.
  - intros c s p c' (Hk & Hst & _) _ Hf. cbn [Feed header_Classifier]. unfold header_Feed. rewrite Hst, Hk. cbn [terminal].
    by rewrite Hf.
  - done.
  - by intros c s (_ & Hst & _).
  - intros c s b Hc. destruct (header_total k c s b Hc) as (o & Ho & Hn). by exists o.
  - intros c s (_ & _ & _ & Hl) Hs. lia.
  - done.
  - split_and!; [done|done|done|by destruct k].
  - done.
  - by destruct k.
Qed.

(** ** SOCKS5 *)

Definition socks5_at (c : socks5Classifier) (s : list byte) : Prop :=
  s5_state c = NeedMore /\ s5_buf c = s /\ zlen s < s5_needBytes c <= socks5GreetingMaxBytes /\
  (zlen s < 2 -> s5_needBytes c = 2).

Lemma socks5_total c s b :
  socks5_at c s -> exists o, socks5_byte c b = Done o /\
    match o with Continue c' => socks5_at c' (s ++ [b]) | Return r => terminal r.2 = true /\ s5_state r.1 = r.2 end.
Proof.
  intros (Hst & Hb & Hn & Hs). assert (Hz : zlen (s ++ [b]) = zlen s + 1) by by rewrite zlen_app.
  pose proof (zlen_nonneg s). pose proof (bZ_range b). unfold socks5_byte. rewrite Hb.
  unfold socks5GreetingMaxBytes, socks5GreetingMinBytes in *. destruct (Z.eqb_spec (zlen s) (s5_needBytes c)); [lia|].
  destruct (_ || _) eqn:Eb; [eexists; by split|]. destruct (Z.eqb_spec (zlen s) 1).
  - destruct (Z.eqb_spec (zlen (s ++ [b])) (2 + bZ b)); [eexists; by split|].
    eexists. split; [done|]. unfold socks5_at, socks5GreetingMaxBytes, socks5GreetingMinBytes. cbn. split_and!; [done|done|lia|lia|lia].
  - destruct (Z.eqb_spec (zlen (s ++ [b])) (s5_needBytes c)); [eexists; by split|].
    eexists. split; [done|]. unfold socks5_at, socks5GreetingMaxBytes, socks5GreetingMinBytes. cbn. split_and!; [done|done|lia|lia|lia].
Qed.

Definition socks5_verdict : verdict := machine_verdict socks5_byte (fun _ => false) SOCKS5.

Lemma socks5_implements : implements socks5_verdict (fun _ => True) SOCKS5.
Proof.
  apply (machine_implements socks5_byte s5_state (fun _ => false) (fun c => MkSocks5 (s5_buf c) (s5_needBytes c) Mismatch)
    socks5_at socks5GreetingMaxBytes).
  - intros c p Ht. cbn [Feed socks5_Classifier]. unfold socks5_Feed. by rewrite Ht.
  - intros c s p r (Hst & _) Hf. cbn [Feed socks5_Classifier]. unfold socks5_Feed. rewrite Hst. cbn [terminal]. by rewrite Hf.
  - intros c s p c' (Hst & _) _ Hf. cbn [Feed socks5_Classifier]. unfold socks5_Feed. rewrite Hst. cbn [terminal]. by rewrite Hf.
  - done.
  - by intros c s (Hst & _).
  - apply socks5_total.
  - intros c s (_ & _ & Hl & _) Hs. lia.
  - done.
  - by split_and!.
  - done.
  - done.
Qed.
