(* ===== verification/LinesSpec.v ===== *)
(** Line classifiers and DNS over TCP keep the contract of the interface. *)

From S2P Require Import Prelude Classifier Combinators Protocols WellKnown CombinatorsSpec PrefixSpec ProtocolsSpec.

(** ** Lines *)

Definition line_full (c : boundedCRLFLineClassifier) : bool := zlen (bl_line c) =? bl_maxBytes c.

Definition line_close (c : boundedCRLFLineClassifier) : boundedCRLFLineClassifier := bl_set c (bl_line c) Mismatch.

Definition total_test (valid : list byte -> run bool) : Prop := forall text, exists v, valid text = Done v.

Section Lines.
Variables (n : Z) (valid : list byte -> run bool).
Hypothesis n_nonneg : 0 <= n.
Hypothesis valid_total : total_test valid.

Definition line_at (c : boundedCRLFLineClassifier) (s : list byte) : Prop :=
  bl_maxBytes c = n /\ bl_valid c = valid /\ bl_state c = NeedMore /\ bl_line c = s /\ zlen s <= n.

Lemma ends_in_cr_total s : exists v, ends_in_cr s = Done v.
Proof. unfold ends_in_cr. pose proof (zlen_nonneg s). repeat run_step. Qed.

Lemma line_total c s b :
  line_at c s -> exists o, line_byte c b = Done o /\
    match o with Continue c' => line_at c' (s ++ [b]) | Return r => terminal r.2 = true /\ bl_state r.1 = r.2 end.
Proof.
  intros (Hm & Hv & Hst & Hl & Hn). assert (Hz : zlen (s ++ [b]) = zlen s + 1) by by rewrite zlen_app.
  pose proof (zlen_nonneg s). unfold line_byte. rewrite Hl, Hm, Hv.
  destruct (Z.eqb_spec (zlen s) n); [eexists; by split|]. destruct (ends_in_cr_total s) as [cr ->]. cbn [run_bind].
  destruct (cr && _); [eexists; by split|]. destruct (_ || (bZ b =? 127)); [eexists; by split|].
  destruct (bool_decide (b = blf)).
  - destruct (Z.ltb_spec (zlen (s ++ [b])) 2); [eexists; by split|].
    destruct (index_in_range (s ++ [b]) (zlen (s ++ [b]) - 2) ltac:(lia)) as [x ->]. cbn [must run_bind].
    destruct (negb (bool_decide (x = bcr))); [eexists; by split|].
    destruct (slice_in_range (s ++ [b]) 0 (zlen (s ++ [b]) - 2) ltac:(lia) ltac:(lia)) as [text ->]. cbn [must run_bind].
    destruct (valid_total text) as [v ->]. cbn [run_bind]. eexists. split; [done|]. by destruct v.
  - eexists. split; [done|]. split_and!; [done|done|done|done|lia].
Qed.

Lemma line_full_stop c s b :
  line_at c s -> line_full c = true -> exists c', line_byte c b = Done (Return (c', Mismatch)).
Proof.
  intros _ Hf. unfold line_full in Hf. unfold line_byte. rewrite Hf. by eexists.
Qed.

Definition line_verdict : verdict := machine_verdict line_byte line_full (MkLine [] n valid NeedMore).

Lemma line_implements : implements line_verdict (fun _ => True) (MkLine [] n valid NeedMore).
Proof.
  apply (machine_implements line_byte bl_state line_full line_close line_at n).
  - intros c p Ht. cbn [Feed line_Classifier]. unfold line_Feed. by rewrite Ht.
  - intros c s p r (_ & _ & Hst & _) Hf. cbn [Feed line_Classifier]. unfold line_Feed. rewrite Hst. cbn [terminal]. by rewrite Hf.
  - intros c s p c' (_ & _ & Hst & _) (_ & _ & Hst' & _) Hf. cbn [Feed line_Classifier]. unfold line_Feed. rewrite Hst.
    cbn [terminal]. rewrite Hf. cbn [run_bind]. unfold line_full. rewrite Hst'.
    destruct (zlen (bl_line c') =? bl_maxBytes c'); [done|]. unfold bl_set. destruct c'. cbn in *. by subst.
  - done.
  - by intros c s (_ & _ & Hst & _).
  - apply line_total.
  - intros c s (Hm & _ & _ & Hl & Hle) Hs. unfold line_full. rewrite Hl, Hm. lia.
  - apply line_full_stop.
  - by split_and!.
  - done.
  - done.
Qed.

End Lines.

Lemma index_byte_range s c : -1 <= bytes_IndexByte s c < zlen s.
Proof.
  induction s as [|b s IH]; [done|]. rewrite zlen_cons. cbn [bytes_IndexByte]. pose proof (zlen_nonneg s).
  destruct (bool_decide (b = c)); [lia|]. destruct (Z.ltb_spec (bytes_IndexByte s c) 0); lia.
Qed.

Lemma last_index_byte_range s c : -1 <= bytes_LastIndexByte s c < zlen s.
Proof.
  induction s as [|b s IH]; [done|]. rewrite zlen_cons. cbn [bytes_LastIndexByte]. pose proof (zlen_nonneg s).
  destruct (Z.ltb_spec (bytes_LastIndexByte s c) 0); [destruct (bool_decide (b = c)); lia|lia].
Qed.

Lemma request_line_total methods version : total_test (fun line => validTextRequestLine line methods version).
Proof.
  intros line. unfold validTextRequestLine. pose proof (index_byte_range line bsp). pose proof (last_index_byte_range line bsp).
  repeat run_step.
Qed.

Lemma noreply_total tokens k : 0 <= k -> exists v, validMemcachedNoReply tokens k = Done v /\ (v = true -> zlen tokens = k + 1).
Proof.
  intros Hk. unfold validMemcachedNoReply. destruct (Z.eqb_spec (zlen tokens) (k + 1)); [|by eexists].
  destruct (index_in_range tokens k ltac:(lia)) as [t ->]. cbn [must run_bind]. by eexists.
Qed.

Lemma arity_total tokens k : 0 <= k -> exists v, memcached_arity tokens k = Done v /\ (v = true -> k <= zlen tokens).
Proof.
  intros Hk. unfold memcached_arity. destruct (Z.eqb_spec (zlen tokens) k); [eexists; split; [done|lia]|].
  destruct (noreply_total tokens k Hk) as (v & -> & Hv). exists v. split; [done|]. intros ->. rewrite Hv by done. lia.
Qed.

Lemma storage_total tokens k : 2 <= k -> exists v, validMemcachedStorageCommand tokens k = Done v.
Proof.
  intros Hk. unfold validMemcachedStorageCommand. destruct (arity_total tokens k ltac:(lia)) as ([|] & -> & Hv); [|by eexists].
  cbn [run_bind negb]. specialize (Hv eq_refl). repeat run_step.
Qed.

Lemma tokens_total tokens i tests :
  0 <= i -> i + zlen tests <= zlen tokens -> exists v, memcached_tokens tokens i tests = Done v.
Proof.
  revert i. induction tests as [|test tests IH]; intros i Hi Hl; [by eexists|]. rewrite zlen_cons in Hl. cbn [memcached_tokens].
  pose proof (zlen_nonneg tests). destruct (index_in_range tokens i ltac:(lia)) as [t ->]. cbn [must run_bind].
  destruct (test t); [apply IH; lia|by eexists].
Qed.

Lemma command_total tokens tests : exists v, memcached_command tokens tests = Done v.
Proof.
  unfold memcached_command. pose proof (zlen_nonneg tests).
  destruct (arity_total tokens (zlen tests + 1) ltac:(lia)) as ([|] & -> & Hv); [|by eexists].
  cbn [run_bind]. apply tokens_total; [lia|]. specialize (Hv eq_refl). lia.
Qed.

Lemma flush_total tokens : exists v, validMemcachedFlushAll tokens = Done v.
Proof. unfold validMemcachedFlushAll. repeat run_step. Qed.

Lemma memcached_line_total : total_test validMemcachedASCIIRequestLine.
Proof.
  intros line. unfold validMemcachedASCIIRequestLine. set (tokens := bytes_Split line bsp). pose proof (zlen_nonneg tokens).
  repeat run_step; first [apply storage_total; lia|apply command_total|apply flush_total].
Qed.

(** ** DNS over TCP *)

Lemma name_set_size (message : list byte) (visited : gset Z) :
  (forall i, i ∈ visited -> 0 <= i < zlen message) -> Z.of_nat (size visited) <= zlen message.
Proof.
  intros Hv. assert (Hs : visited ⊆ list_to_set (map Z.of_nat (seq 0 (length message)))).
  { intros i Hi. apply elem_of_list_to_set, list_elem_of_fmap. specialize (Hv i Hi). unfold zlen in Hv.
    exists (Z.to_nat i). split; [lia|]. apply elem_of_seq. lia. }
  apply subseteq_size in Hs. rewrite size_list_to_set in Hs.
  - rewrite length_map, length_seq in Hs. unfold zlen. lia.
  - apply (NoDup_fmap_2 Z.of_nat), NoDup_seq.
Qed.

Lemma skip_name_total fuel message offset nameBytes ret visited :
  (forall i, i ∈ visited -> 0 <= i < zlen message) -> zlen message < Z.of_nat (size visited) + Z.of_nat fuel ->
  exists r, skip_name fuel message offset nameBytes ret visited = Done r.
Proof.
  revert offset nameBytes ret visited. induction fuel as [|fuel IH]; intros offset nameBytes ret visited Hv Hf.
  { pose proof (name_set_size message visited Hv). lia. }
  cbn [skip_name]. destruct (negb (protocolHasBytes message offset 1)) eqn:E1; [by eexists|].
  case_bool_decide as Hin; [by eexists|]. apply bool_decide_negb_false, has_bytes_spec in E1.
  destruct (index_in_range message offset ltac:(lia)) as [b ->]. cbn [must run_bind].
  assert (Hv' : forall i, i ∈ ({[offset]} ∪ visited : gset Z) -> 0 <= i < zlen message).
  { intros i Hi. apply elem_of_union in Hi as [->%elem_of_singleton|Hi]; [lia|by apply Hv]. }
  assert (Hsz : zlen message < Z.of_nat (size ({[offset]} ∪ visited : gset Z)) + Z.of_nat fuel).
  { rewrite size_union by set_solver. rewrite size_singleton. lia. }
  destruct (Z.land (bZ b) 192 =? 0); repeat run_step; by apply IH.
Qed.

Lemma skipDNSName_total message offset : exists r, skipDNSName message offset = Done r.
Proof. apply skip_name_total; [set_solver|]. rewrite size_empty. unfold zlen. lia. Qed.

Lemma dns_questions_total count message offset : exists r, dns_questions count message offset = Done r.
Proof.
  revert offset. induction count as [|count IH]; intros offset; [by eexists|]. cbn [dns_questions].
  destruct (skipDNSName_total message offset) as [[o|] ->]; cbn [run_bind]; [|by eexists]. repeat run_step. apply IH.
Qed.

Lemma valid_dns_total : total_test validDNSOverTCPQuery.
Proof.
  intros message. unfold validDNSOverTCPQuery, dnsHeaderBytes. repeat run_step.
  match goal with |- exists r, run_bind (dns_questions ?k ?m ?o) _ = Done r =>
    destruct (dns_questions_total k m o) as [[e|] ->] end; cbn [run_bind]; by eexists.
Qed.

(** The verdict: nothing before the length, then a mismatch when the length is
    out of bounds, then the validity of the complete message. *)
Definition dns_tcp_verdict (max : Z) : verdict := fun s =>
  match be16 s 0 with
  | None => NeedMore
  | Some len =>
      if (len <? dnsHeaderBytes) || (len >? max) then Mismatch
      else
        match slice s dnsOverTCPLengthBytes (dnsOverTCPLengthBytes + len) with
        | None => NeedMore
        | Some message =>
            match validDNSOverTCPQuery message with Done true => Match | _ => Mismatch end
        end
  end.

Lemma be16_prefix s p len : be16 s 0 = Some len -> be16 (s ++ p) 0 = Some len.
Proof.
  unfold be16. destruct (index s 0) as [a|] eqn:Ea; [|done]. destruct (index s (0 + 1)) as [b|] eqn:Eb; [|done].
  apply index_Some_range in Ea as Ha. apply index_Some_range in Eb as Hb. intros [= <-].
  by rewrite !index_app_l, Ea, Eb by lia.
Qed.

Lemma slice_prefix {A} (s p k : list A) i j : slice s i j = Some k -> slice (s ++ p) i j = Some k.
Proof.
  unfold slice. rewrite zlen_app. pose proof (zlen_nonneg p).
  destruct ((0 <=? i) && (i <=? j) && (j <=? zlen s)) eqn:E; [|done].
  replace ((0 <=? i) && (i <=? j) && (j <=? zlen s + zlen p)) with true by lia. intros [= <-].
  unfold zlen in E. rewrite drop_app_le by lia. rewrite take_app_le; [done|]. rewrite length_drop. lia.
Qed.

Lemma dns_tcp_stable max : stable (dns_tcp_verdict max).
Proof.
  intros s p. unfold dns_tcp_verdict. destruct (be16 s 0) as [len|] eqn:E; [|done]. rewrite (be16_prefix _ p _ E).
  destruct ((len <? dnsHeaderBytes) || (len >? max)); [done|].
  destruct (slice s _ _) as [message|] eqn:Es; [|done]. by rewrite (slice_prefix _ p _ _ _ Es).
Qed.

Lemma dns_tcp_decides max : 0 <= max -> decides (dns_tcp_verdict max) (dnsOverTCPLengthBytes + max).
Proof.
  intros Hm s Hs. unfold dns_tcp_verdict, dnsOverTCPLengthBytes, dnsHeaderBytes in *.
  destruct (be16_in_range s 0) as [len Hl]; [lia|lia|]. rewrite Hl.
  destruct ((len <? 12) || (len >? max)) eqn:E; [done|].
  destruct (slice_in_range s 2 (2 + len)) as [message ->]; [lia|lia|]. by destruct (validDNSOverTCPQuery message) as [[|]| |].
Qed.

(** Only the first [limit] bytes count. *)
Lemma dns_tcp_cut max s : 0 <= max -> dns_tcp_verdict max (take (Z.to_nat (dnsOverTCPLengthBytes + max)) s) = dns_tcp_verdict max s.
Proof.
  intros Hm. destruct (Z.le_gt_cases (dnsOverTCPLengthBytes + max) (zlen s)) as [Hl|Hl].
  - rewrite <- (take_drop (Z.to_nat (dnsOverTCPLengthBytes + max)) s) at 2. symmetry. apply dns_tcp_stable, dns_tcp_decides; [done|].
    unfold zlen in *. rewrite length_take. lia.
  - by rewrite take_ge by (unfold zlen in *; lia).
Qed.

Lemma dns_tcp_need s max : dns_tcp_verdict max s = NeedMore -> 0 <= max -> zlen s < dnsOverTCPLengthBytes + max.
Proof.
  intros HV Hm. destruct (Z.lt_ge_cases (zlen s) (dnsOverTCPLengthBytes + max)) as [|Hl]; [done|].
  pose proof (dns_tcp_decides max Hm s Hl) as Ht. by rewrite HV in Ht.
Qed.

(** The decision of [Feed] once the bytes are in the buffer. *)
Lemma dns_tcp_decision max buf c :
  dt_maxMessageBytes c = max -> dt_state c = NeedMore ->
  exists c', (if zlen buf <? dnsOverTCPLengthBytes then Done (dt_set c buf (dt_needBytes c) (dt_state c), NeedMore)
      else
        let! messageLen := must (be16 buf 0) in
        if (messageLen <? dnsHeaderBytes) || (messageLen >? dt_maxMessageBytes c)
        then Done (dt_set c buf (dt_needBytes c) Mismatch, Mismatch)
        else
          let needBytes := dnsOverTCPLengthBytes + messageLen in
          if zlen buf <? needBytes then Done (dt_set c buf needBytes (dt_state c), NeedMore)
          else
            let! message := must (slice buf dnsOverTCPLengthBytes needBytes) in
            let! v := validDNSOverTCPQuery message in
            let state := if (v : bool) then Match else Mismatch in
            Done (dt_set c buf needBytes state, state)) = Done (c', dns_tcp_verdict max buf) /\
    dt_maxMessageBytes c' = max /\ dt_state c' = dns_tcp_verdict max buf /\ dt_buf c' = buf.
Proof.
  intros Hm Hst. unfold dns_tcp_verdict, dnsOverTCPLengthBytes, dnsHeaderBytes in *. rewrite Hm, Hst.
  destruct (Z.ltb_spec (zlen buf) 2).
  { destruct (be16 buf 0) as [v|] eqn:E; [|eexists; by split_and!]. unfold be16 in E.
    destruct (index buf 0); [|done]. destruct (index buf (0 + 1)) eqn:E1; [|done]. apply index_Some_range in E1. lia. }
  destruct (be16_in_range buf 0) as [len Hl]; [lia|lia|]. rewrite Hl. cbn [must run_bind].
  destruct ((len <? 12) || (len >? max)) eqn:E; [eexists; by split_and!|].
  destruct (Z.ltb_spec (zlen buf) (2 + len)).
  - destruct (slice buf 2 (2 + len)) as [k|] eqn:Ek; [|eexists; by split_and!].
    unfold slice in Ek. replace ((0 <=? 2) && (2 <=? 2 + len) && (2 + len <=? zlen buf)) with false in Ek by lia. done.
  - destruct (slice_in_range buf 2 (2 + len)) as [message Hs]; [lia|lia|]. rewrite Hs. cbn [must run_bind].
    destruct (valid_dns_total message) as [v ->]. cbn [run_bind]. destruct v; eexists; by split_and!.
Qed.

Definition dns_tcp_at (max : Z) (c : dnsOverTCPClassifier) (s : list byte) : Prop :=
  dt_maxMessageBytes c = max /\ dt_state c = dns_tcp_verdict max s /\ (dt_state c = NeedMore -> dt_buf c = s).

Lemma dns_tcp_implements max : 0 <= max -> implements (dns_tcp_verdict max) (fun _ => True) (newDNSOverTCPClassifier max).
Proof.
  intros Hm. split; [|apply dns_tcp_stable|cbn; unfold dnsOverTCPLengthBytes; lia|by apply dns_tcp_decides].
  exists (dns_tcp_at max). split; [by split_and!|]. intros c s p (Hc & Hst & Hb) _.
  cbn [Feed dnsOverTCP_Classifier]. unfold dnsOverTCP_Feed. destruct (terminal (dt_state c)) eqn:Et.
  { exists c. rewrite Hst, dns_tcp_stable by by rewrite <- Hst. split; [done|].
    split_and!; [done|by rewrite dns_tcp_stable by by rewrite <- Hst|intros Hn; by rewrite Hn in Et]. }
  apply not_terminal in Et. rewrite Et in Hst. symmetry in Hst. specialize (Hb Et). rewrite Hc, Hb.
  pose proof (dns_tcp_need _ _ Hst Hm) as Hlen. destruct (Z.leb_spec (dnsOverTCPLengthBytes + max - zlen s) 0); [lia|].
  rewrite andb_false_r. set (limit := dnsOverTCPLengthBytes + max) in *.
  set (part := if limit - zlen s <? zlen p then take (Z.to_nat (limit - zlen s)) p else p).
  assert (Hpart : (if negb (zlen p =? 0) && (zlen p >? limit - zlen s) then must (slice p 0 (limit - zlen s)) else Done p) = Done part).
  { unfold part. pose proof (zlen_nonneg p). destruct (Z.ltb_spec (limit - zlen s) (zlen p)).
    - replace (negb (zlen p =? 0) && (zlen p >? limit - zlen s)) with true by lia. unfold slice.
      replace ((0 <=? 0) && (0 <=? limit - zlen s) && (limit - zlen s <=? zlen p)) with true by lia.
      cbn [must]. do 2 f_equal. lia.
    - by replace (negb (zlen p =? 0) && (zlen p >? limit - zlen s)) with false by lia. }
  rewrite Hpart. cbn [run_bind]. clear Hpart.
  assert (Hcut : s ++ part = take (Z.to_nat limit) (s ++ p)) by (apply limit_cut; lia).
  destruct (dns_tcp_decision max (s ++ part) c Hc Et) as (c' & Hd & H1 & H2 & H3). rewrite Hc in Hd.
  assert (HV : dns_tcp_verdict max (s ++ part) = dns_tcp_verdict max (s ++ p)) by (rewrite Hcut; by apply dns_tcp_cut).
  exists c'. split; [rewrite <- HV; exact Hd|]. rewrite HV in H2. split_and!; [done|done|]. intros Hn. rewrite H3.
  rewrite H2 in Hn. pose proof (dns_tcp_need _ _ Hn Hm) as Hl2. fold limit in Hl2. rewrite zlen_app in Hl2.
  unfold part. destruct (Z.ltb_spec (limit - zlen s) (zlen p)); [lia|done].
Qed.
