(* ===== verification/HTTPSpec.v ===== *)
(** The glob matcher decides the language of its pattern (a star stands for any
    byte sequence, a question mark for one byte), and the HTTP classifier keeps
    the contract of the interface. *)

From S2P Require Import Prelude Classifier Combinators Protocols WellKnown PrefixSpec HTTPSniff LinesSpec.

(** ** The glob matcher *)

(** The language of a pattern. *)
Inductive glob_matches : httpGlobPattern -> list byte -> Prop :=
| gm_nil : glob_matches [] []
| gm_token t b p v : token_matches t b = true -> glob_matches p v -> glob_matches (t :: p) (b :: v)
| gm_star p u v : glob_matches p v -> glob_matches (httpGlobStar :: p) (u ++ v).

Lemma gm_star_skip p u v : glob_matches (httpGlobStar :: p) v -> glob_matches (httpGlobStar :: p) (u ++ v).
Proof.
  intros Hm. inversion Hm as [|t b p' v' Ht|p' u' v' Hv]; subst; [done|].
  rewrite app_assoc. by constructor.
Qed.

Lemma gm_token_inv t p v :
  is_star t = false -> glob_matches (t :: p) v -> exists b v', v = b :: v' /\ token_matches t b = true /\ glob_matches p v'.
Proof. intros Hs Hm. inversion Hm; subst; [eauto|done]. Qed.

Lemma gm_star_inv p v :
  glob_matches (httpGlobStar :: p) v <-> exists k, (k <= length v)%nat /\ glob_matches p (drop k v).
Proof.
  split.
  - intros Hm. inversion Hm as [|t b p' v' Ht|p' u v' Hv]; subst; [done|].
    exists (length u). rewrite length_app. split; [lia|]. by rewrite drop_app_length.
  - intros (k & Hk & Hm). rewrite <- (take_drop k v). by constructor.
Qed.

Lemma only_stars_spec p : only_stars p = true <-> glob_matches p [].
Proof.
  induction p as [|t p IH]; [by split; [constructor|]|]. cbn [only_stars]. rewrite andb_true_iff, IH. split.
  - intros [Hs Hm]. destruct t; try done. apply (gm_star p [] []). done.
  - intros Hm. inversion Hm as [| |p' u v Hv Hp Hu]; subst. apply app_eq_nil in Hu as [-> ->]. done.
Qed.

(** A run of tokens that are not stars takes one byte each. *)
Lemma gm_segment seg p v :
  forallb (fun t => negb (is_star t)) seg = true -> glob_matches (seg ++ p) v ->
  (length seg <= length v)%nat /\ glob_matches p (drop (length seg) v).
Proof.
  revert v. induction seg as [|t seg IH]; intros v; [by split; [cbn; lia|]|]. cbn [forallb app].
  intros [Ht Hs]%andb_prop Hm. destruct (gm_token_inv t (seg ++ p) v) as (b & v' & -> & _ & Hm'); [by destruct (is_star t)|done|].
  destruct (IH v' Hs Hm'). cbn [length drop]. split; [lia|done].
Qed.

Section Loop.
Variables (p : httpGlobPattern) (value : list byte).

Notation P := (zlen p).
Notation N := (zlen value).

(** The rest of the pattern against the rest of the value. *)
Definition rest_matches (i j : Z) : Prop := glob_matches (drop (Z.to_nat i) p) (drop (Z.to_nat j) value).

(** Where the loop is: since the last star, a run of tokens that are not stars
    has been matched, one byte each. *)
Record glob_at (g : glob_state) : Prop := MkGlobAt {
  ga_pattern : 0 <= g_patternIndex g <= P;
  ga_value : 0 <= g_starValueIndex g <= g_valueIndex g;
  ga_end : g_valueIndex g <= N;
  ga_star : -1 <= g_starIndex g < P;
  ga_run : g_starIndex g <> -1 -> exists seg,
    drop (Z.to_nat (g_starIndex g + 1)) p = seg ++ drop (Z.to_nat (g_patternIndex g)) p /\
    forallb (fun t => negb (is_star t)) seg = true /\ zlen seg = g_valueIndex g - g_starValueIndex g }.

(** What is left to decide: the current position, or a later place for the
    last star. *)
Definition remains (g : glob_state) : Prop :=
  rest_matches (g_patternIndex g) (g_valueIndex g) \/
  (g_starIndex g <> -1 /\ exists k, g_starValueIndex g < k <= N /\ rest_matches (g_starIndex g + 1) k).

Lemma drop_index {A} (l : list A) i t : index l i = Some t -> drop (Z.to_nat i) l = t :: drop (Z.to_nat (i + 1)) l.
Proof.
  unfold index. destruct (Z.ltb_spec i 0); [done|]. intros Hl. rewrite (drop_S l t (Z.to_nat i) Hl). do 2 f_equal. lia.
Qed.

Lemma drop_none {A} (l : list A) i : 0 <= i -> index l i = None -> drop (Z.to_nat i) l = [].
Proof. intros Hi Hn. apply index_None in Hn. apply drop_ge. unfold zlen in Hn. lia. Qed.

Lemma rest_literal i j t b :
  index p i = Some t -> index value j = Some b -> is_star t = false ->
  (rest_matches i j <-> token_matches t b = true /\ rest_matches (i + 1) (j + 1)).
Proof.
  intros Ht Hb Hs. unfold rest_matches. rewrite (drop_index _ _ _ Ht), (drop_index _ _ _ Hb). split.
  - intros (b' & v' & [= <- <-] & Hm & Hr)%gm_token_inv; done.
  - intros [Hm Hr]. by constructor.
Qed.

Lemma rest_star i j :
  0 <= j <= N -> index p i = Some httpGlobStar ->
  (rest_matches i j <-> rest_matches (i + 1) j \/ exists k, j < k <= N /\ rest_matches (i + 1) k).
Proof.
  intros Hj Ht. unfold rest_matches. rewrite (drop_index _ _ _ Ht), gm_star_inv. unfold zlen in *. split.
  - intros (k & Hk & Hm). rewrite length_drop in Hk. rewrite drop_drop in Hm. destruct k as [|k].
    + left. by rewrite Nat.add_0_r in Hm.
    + right. exists (j + Z.of_nat (S k)). split; [lia|]. by replace (Z.to_nat (j + Z.of_nat (S k))) with (Z.to_nat j + S k)%nat by lia.
  - intros [Hm|(k & Hk & Hm)]; [exists 0%nat|exists (Z.to_nat (k - j))].
    + rewrite drop_drop, Nat.add_0_r. split; [lia|done].
    + rewrite length_drop, drop_drop. split; [lia|]. by replace (Z.to_nat j + Z.to_nat (k - j))%nat with (Z.to_nat k) by lia.
Qed.

(** A later place for the last star leaves the same tokens to the star that
    comes next, which reaches as far. *)
Lemma later_place g k :
  glob_at g -> g_starIndex g <> -1 -> g_starValueIndex g < k <= N -> rest_matches (g_starIndex g + 1) k ->
  index p (g_patternIndex g) = Some httpGlobStar -> rest_matches (g_patternIndex g) (g_valueIndex g).
Proof.
  intros [Hp Hv He Hs Hr] Hne Hk Hm Ht. destruct (Hr Hne) as (seg & Hseg & Hns & Hl). unfold rest_matches in *. rewrite Hseg in Hm.
  apply gm_segment in Hm as [Hlen Hm]; [|done]. rewrite drop_drop in Hm. rewrite (drop_index _ _ _ Ht) in *.
  rewrite length_drop in Hlen. unfold zlen in *.
  set (d := (Z.to_nat k + length seg - Z.to_nat (g_valueIndex g))%nat).
  rewrite <- (take_drop d (drop (Z.to_nat (g_valueIndex g)) value)). apply gm_star_skip. rewrite drop_drop.
  by replace (Z.to_nat (g_valueIndex g) + d)%nat with (Z.to_nat k + length seg)%nat by (unfold d; lia).
Qed.

(** At the end of the value no later place has enough bytes. *)
Lemma no_later_place g k :
  glob_at g -> g_starIndex g <> -1 -> g_starValueIndex g < k <= N -> g_valueIndex g = N ->
  ~ rest_matches (g_starIndex g + 1) k.
Proof.
  intros [Hp Hv He Hs Hr] Hne Hk Hend Hm. destruct (Hr Hne) as (seg & Hseg & Hns & Hl). unfold rest_matches in Hm. rewrite Hseg in Hm.
  apply gm_segment in Hm as [Hlen _]; [|done]. rewrite length_drop in Hlen. unfold zlen in *. lia.
Qed.

Definition glob_measure (g : glob_state) : Z :=
  (N + 1 - g_starValueIndex g) * (P + N + 1) + (P - g_patternIndex g) + (N - g_valueIndex g).

Lemma glob_match_step g :
  glob_at g -> g_valueIndex g < N ->
  exists o, glob_step p value g = Done o /\
    match o with
    | Continue g' => glob_at g' /\ (remains g <-> remains g') /\ glob_measure g' < glob_measure g
    | Return r => r = false /\ ~ remains g
    end.
Proof.
  intros Hg Hlt. pose proof Hg as [Hp Hv He Hs Hr]. destruct g as [pi vi si svi]; cbn in *. unfold glob_step. cbn.
  destruct (index_in_range value vi ltac:(lia)) as [b Hb]. rewrite Hb. cbn [must run_bind].
  assert (Hmiss : forall (t : option httpGlobToken), index p pi = t ->
    match t with Some t => token_matches t b | None => false end = false ->
    match t with Some t => is_star t | None => false end = false -> ~ rest_matches pi vi).
  { intros t Ht Hm1 Hm2 Hrest. destruct t as [t|]; [apply (rest_literal _ _ _ _ Ht Hb Hm2) in Hrest as [? _]; congruence|].
    unfold rest_matches in Hrest. rewrite (drop_none p pi) in Hrest by (done || lia). rewrite (drop_index _ _ _ Hb) in Hrest. inversion Hrest. }
  specialize (Hmiss _ eq_refl). destruct (match index p pi with Some t => token_matches t b | None => false end) eqn:E1.
  - destruct (index p pi) as [t|] eqn:Et; [|done]. pose proof (index_Some_range _ _ _ Et).
    assert (Hns : is_star t = false) by by destruct t. eexists. split; [done|]. cbn. split; [split; cbn; try lia|split].
    + intros Hne. destruct (Hr Hne) as (seg & Hseg & Hf & Hl). exists (seg ++ [t]). rewrite Hseg, (drop_index _ _ _ Et), <- app_assoc.
      split_and!; [done|by rewrite forallb_app, Hf; cbn; rewrite Hns|]. rewrite zlen_app. change (zlen [t]) with 1. lia.
    + unfold remains. cbn. rewrite (rest_literal _ _ _ _ Et Hb Hns). naive_solver.
    + unfold glob_measure. cbn. lia.
  - destruct (match index p pi with Some t => is_star t | None => false end) eqn:E2.
    + destruct (index p pi) as [t|] eqn:Et; [|done]. destruct t; try done. pose proof (index_Some_range _ _ _ Et).
      eexists. split; [done|]. cbn. split; [split; cbn; try lia|split].
      * intros _. exists []. cbn. split_and!; [done|done|change (zlen (@nil httpGlobToken)) with 0; lia].
      * unfold remains. cbn. rewrite (rest_star pi vi) by (done || lia). split; [|intros [?|[_ ?]]; left; [by left|by right]].
        intros [[Hm|Hm]|(Hne & k & Hk & Hm)]; [by left|right; split; [lia|done]|].
        pose proof (later_place (MkGlob pi vi si svi) k Hg Hne Hk Hm Et) as Hm'. cbn in Hm'.
        apply (rest_star pi vi) in Hm' as [?|?]; [by left|right; split; [lia|done]|lia|done].
      * unfold glob_measure. cbn. pose proof (zlen_nonneg p). nia.
    + destruct (Z.eqb_spec si (-1)) as [Hno|Hne]; cbn [negb].
      * eexists. split; [done|]. split; [done|]. unfold remains. cbn. intros [Hm|[? _]]; [by apply Hmiss|done].
      * eexists. split; [done|]. cbn. split; [split; cbn; try lia|split].
        { intros _. exists []. cbn. split_and!; [done|done|change (zlen (@nil httpGlobToken)) with 0; lia]. }
        { unfold remains. cbn. split.
          - intros [Hm|(_ & k & Hk & Hm)]; [by apply Hmiss in Hm|]. destruct (Z.eq_dec k (svi + 1)) as [->|]; [by left|].
            right. split; [done|]. exists k. split; [lia|done].
          - intros [Hm|(_ & k & Hk & Hm)]; right; (split; [done|]); [exists (svi + 1)|exists k]; (split; [lia|done]). }
        { unfold glob_measure. cbn. pose proof (zlen_nonneg p). nia. }
Qed.

Lemma glob_loop_spec fuel g :
  glob_at g -> 0 <= glob_measure g < Z.of_nat fuel ->
  exists r, glob_loop fuel p value g = Done r /\ (r = true <-> remains g).
Proof.
  revert g. induction fuel as [|fuel IH]; intros g Hg Hm; [lia|]. cbn [glob_loop].
  destruct (Z.ltb_spec (g_valueIndex g) N) as [Hlt|Hge].
  - destruct (glob_match_step g Hg Hlt) as (o & -> & Ho). cbn [run_bind]. destruct o as [g'|r].
    + destruct Ho as (Hg' & Hrem & Hlt'). destruct (IH g' Hg') as (r & Hr & Hiff).
      { split; [|lia]. destruct Hg'. unfold glob_measure. pose proof (zlen_nonneg p). nia. }
      exists r. split; [done|]. by rewrite Hiff, Hrem.
    + destruct Ho as [-> Hno]. exists false. split; [done|]. naive_solver.
  - eexists. split; [done|]. rewrite only_stars_spec. assert (Hend : g_valueIndex g = N) by (destruct Hg; lia).
    unfold remains, rest_matches at 1. rewrite Hend. rewrite (drop_ge value) by (unfold zlen; lia). split; [by left|].
    intros [?|(Hne & k & Hk & Hrest)]; [done|]. by apply (no_later_place g k) in Hrest.
Qed.

End Loop.

Lemma glob_match_spec p value :
  exists r, glob_match p value = Done r /\ (r = true <-> glob_matches p value).
Proof.
  unfold glob_match. pose proof (zlen_nonneg p). pose proof (zlen_nonneg value).
  destruct (glob_loop_spec p value (glob_fuel p value) (MkGlob 0 0 (-1) 0)) as (r & Hr & Hiff).
  - split; cbn; lia.
  - unfold glob_measure, glob_fuel. cbn. unfold zlen. nia.
  - exists r. split; [done|]. rewrite Hiff. unfold remains, rest_matches. cbn. rewrite !drop_0. naive_solver.
Qed.

(** C18. The glob matcher is correct and returns: on every pattern and every
    value the loop of [httpGlobPattern.match], which remembers only the last
    star, stops, and it answers true exactly when the value is in the language
    of the pattern. *)
Theorem glob_match_correct p value :
  exists r, glob_match p value = Done r /\ (r = true <-> glob_matches p value).
Proof. apply glob_match_spec. Qed.

(** ** The classifier *)

Lemma match_patterns_total ps value :
  exists r, match_patterns ps value = Done r /\ (r = true <-> Exists (fun p => glob_matches p value) ps).
Proof.
  induction ps as [|p ps (r & Hr & Hiff)].
  - exists false. split; [done|]. split; [done|]. intros H. by inversion H.
  - cbn [match_patterns]. destruct (glob_match_spec p value) as (m & -> & Hm). cbn [run_bind]. destruct m.
    + exists true. split; [done|]. split; [|done]. intros _. left. by apply Hm.
    + exists r. split; [done|]. rewrite Hiff. split; [by right|]. intros H. inversion H; subst; [|done]. by apply Hm in H1.
Qed.

(** A string matcher answers: nothing configured, an exact value, or a value in
    the language of a pattern. *)
Lemma matcher_match_spec m value :
  exists r, matcher_match m value = Done r /\
    (r = true <-> configured m = false \/ value ∈ m_exact m \/ Exists (fun p => glob_matches p value) (m_patterns m)).
Proof.
  unfold matcher_match. destruct (configured m) eqn:Ec; cbn [negb]; [|exists true; split; [done|]; naive_solver].
  destruct (existsb (eq_bytes value) (m_exact m)) eqn:Ee.
  - exists true. split; [done|]. split; [|done]. intros _. right; left. apply existsb_exists in Ee as (x & Hx & He).
    unfold eq_bytes in He. apply bool_decide_eq_true in He as ->. by apply list_elem_of_In.
  - destruct (match_patterns_total (m_patterns m) value) as (r & Hr & Hiff). exists r. split; [done|]. rewrite Hiff.
    split; [by right; right|]. intros [?|[Hin|?]]; [done| |done]. exfalso.
    assert (Ht : existsb (eq_bytes value) (m_exact m) = true); [|congruence].
    apply existsb_exists. exists value. split; [by apply list_elem_of_In|]. unfold eq_bytes. by apply bool_decide_eq_true.
Qed.

Section HTTP.
Context `{TextLib}.

(** The limits of a normalized configuration are positive. *)
Definition http_config_ok (cfg : normalizedHTTPConfig) : Prop :=
  0 < nh_maxRequestLineBytes cfg /\ 0 < nh_maxHeaderBytes cfg.

Lemma normalizeHTTPConfig_ok config cfg : normalizeHTTPConfig config = Done cfg -> http_config_ok cfg.
Proof.
  unfold normalizeHTTPConfig. destruct (Z.ltb_spec (hc_MaxRequestLineBytes config) 0); [done|].
  destruct (Z.ltb_spec (hc_MaxHeaderBytes config) 0); [done|]. intros [= <-]. unfold http_config_ok. cbn.
  unfold DefaultHTTPRequestLineMaxBytes, DefaultHTTPHeaderMaxBytes.
  destruct (Z.eqb_spec (hc_MaxRequestLineBytes config) 0), (Z.eqb_spec (hc_MaxHeaderBytes config) 0); lia.
Qed.

Definition http_at (cfg : normalizedHTTPConfig) (c : httpClassifier) (s : list byte) : Prop :=
  ht_config c = cfg /\ ht_state c = NeedMore /\
  match ht_phase c with
  | httpRequestLinePhase => ht_line c = s /\ zlen s < nh_maxRequestLineBytes cfg /\ ht_headerBytes c = 0
  | httpHeaderPhase => configured (nh_hostname cfg) = true /\ 0 <= ht_headerBytes c < nh_maxHeaderBytes cfg /\
                       zlen s <= nh_maxRequestLineBytes cfg + ht_headerBytes c
  end.

(** What a byte leaves behind. *)
Definition http_result (cfg : normalizedHTTPConfig) (s : list byte) (r : httpClassifier * State) : Prop :=
  ht_config r.1 = cfg /\ (r.2 = NeedMore -> http_at cfg r.1 s).

Lemma match_request_line_total cfg c s :
  http_config_ok cfg -> ht_config c = cfg -> ht_state c = NeedMore -> ht_headerBytes c = 0 ->
  zlen s <= nh_maxRequestLineBytes cfg -> exists r, matchRequestLine c = Done r /\ http_result cfg s r.
Proof.
  intros [Hc1 Hc2] Hc Hst Hh Hs. unfold matchRequestLine. rewrite Hc. destruct (bytes_Cut _ bsp) as [[method rest] ok].
  destruct (negb ok || _); [eexists; by split|]. destruct (bytes_Cut rest bsp) as [[target version] ok'].
  destruct (negb ok' || _ || _); [eexists; by split|].
  destruct (matcher_match_spec (nh_method cfg) method) as (m1 & -> & _). cbn [run_bind].
  assert (Hm2 : exists m2, (if m1 then matcher_match (nh_url cfg) target else Done false) = Done m2)
    by (destruct m1; [destruct (matcher_match_spec (nh_url cfg) target) as (m & -> & _)|]; by eexists).
  destruct Hm2 as [m2 ->]. cbn [run_bind].
  assert (Hm3 : exists m3, (if m2 then matcher_match (nh_version cfg) version else Done false) = Done m3)
    by (destruct m2; [destruct (matcher_match_spec (nh_version cfg) version) as (m & -> & _)|]; by eexists).
  destruct Hm3 as [m3 ->]. cbn [run_bind]. destruct (negb m3); [eexists; by split|].
  destruct (configured (nh_hostname cfg)) eqn:Ecf; cbn [negb]; [|eexists; by split].
  assert (Hhit : exists hit, match hostnameFromAbsoluteRequestTarget target with
    Some hostname => matcher_match (nh_hostname cfg) hostname | None => Done false end = Done hit)
    by (destruct (hostnameFromAbsoluteRequestTarget target); [destruct (matcher_match_spec (nh_hostname cfg) l) as (m & -> & _)|]; by eexists).
  destruct Hhit as [hit ->]. cbn [run_bind]. destruct hit; [eexists; by split|].
  eexists. split; [done|]. split; [done|]. intros _. split_and!; [done|done|]. cbn. split; [done|]. lia.
Qed.

Lemma match_header_line_total cfg c :
  ht_config c = cfg -> ht_state c = NeedMore ->
  exists r, matchHeaderLine c = Done r /\ ht_config r.1 = cfg /\ ht_state r.1 = NeedMore /\
    ht_phase r.1 = ht_phase c /\ ht_headerBytes r.1 = ht_headerBytes c.
Proof.
  intros Hc Hst. unfold matchHeaderLine. destruct (zlen _ =? 0); [eexists; by split_and!|].
  destruct (bytes_Cut _ x3a) as [[name value] ok]. destruct (negb ok || _); [eexists; by split_and!|].
  destruct (negb (equal_fold name _)); [eexists; by split_and!|].
  destruct (hostnameFromHostHeaderValue value) as [hostname|]; [|eexists; by split_and!]. cbn [ht_set ht_config]. rewrite Hc.
  destruct (matcher_match_spec (nh_hostname cfg) hostname) as (hit & -> & _). cbn [run_bind].
  destruct (negb hit); eexists; by split_and!.
Qed.

Lemma http_byte_total cfg c s b :
  http_config_ok cfg -> http_at cfg c s -> exists o, http_byte c b = Done o /\
    match o with Continue c' => http_at cfg c' (s ++ [b]) | Return r => terminal r.2 = true /\ ht_state r.1 = r.2 end.
Proof.
  intros Hok (Hc & Hst & Hph). pose proof Hok as [Hc1 Hc2]. assert (Hz : zlen (s ++ [b]) = zlen s + 1) by by rewrite zlen_app.
  assert (Hr : exists r, match ht_phase c with httpRequestLinePhase => feedRequestLineByte c b | httpHeaderPhase => feedHeaderByte c b end = Done r
                 /\ http_result cfg (s ++ [b]) r).
  { destruct (ht_phase c) eqn:Ep.
    - destruct Hph as (Hl & Hlt & Hh). unfold feedRequestLineByte. rewrite Hc, Hl.
      destruct (Z.eqb_spec (zlen s) (nh_maxRequestLineBytes cfg)); [lia|]. destruct (ends_in_cr_total s) as [cr ->]. cbn [run_bind].
      destruct (cr && _); [eexists; by split|]. destruct (_ && isHTTPRequestLineControl b); [eexists; by split|].
      case_bool_decide; [apply match_request_line_total; cbn; solve [done|lia]|]. cbn.
      destruct (Z.eqb_spec (zlen (s ++ [b])) (nh_maxRequestLineBytes cfg)); [rewrite Hc|rewrite Hc]; cycle 1.
      + replace (zlen (s ++ [b]) =? nh_maxRequestLineBytes cfg) with false by lia. eexists. split; [done|]. split; [done|]. intros _.
        split_and!; [done|done|]. cbn. rewrite Ep. split_and!; [done|lia|done].
      + replace (zlen (s ++ [b]) =? nh_maxRequestLineBytes cfg) with true by lia. eexists. by split.
    - destruct Hph as (Hcf & Hh & Hl). unfold feedHeaderByte. rewrite Hc. destruct (Z.eqb_spec (ht_headerBytes c) (nh_maxHeaderBytes cfg)); [lia|].
      destruct (ends_in_cr_total (ht_line c)) as [cr ->]. cbn [run_bind]. destruct (cr && _); [eexists; by split|].
      destruct (_ && (bZ b <? 32)); [eexists; by split|]. destruct (bZ b =? 127); [eexists; by split|].
      case_bool_decide.
      + destruct (match_header_line_total cfg (ht_set c (ht_phase c) (ht_line c ++ [b]) (ht_headerBytes c + 1) (ht_info c)))
          as ([c' st] & Hm & H1 & H2 & H3 & H4); [done|done|]. rewrite Hm. cbn [run_bind fst snd] in *.
        destruct (terminal st) eqn:Et; [eexists; split; [done|]; split; [done|]; cbn; intros Hn; by rewrite Hn in Et|].
        cbn in H3, H4. destruct (Z.eqb_spec (ht_headerBytes c') (nh_maxHeaderBytes cfg)); [eexists; by split|].
        eexists. split; [done|]. split; [done|]. intros _. split_and!; [done|done|]. cbn [fst]. rewrite H3, Ep. split_and!; [done|lia|lia|lia].
      + cbn. destruct (Z.eqb_spec (ht_headerBytes c + 1) (nh_maxHeaderBytes cfg)); [eexists; by split|].
        eexists. split; [done|]. split; [done|]. intros _. split_and!; [done|done|]. cbn. rewrite ?Ep. split_and!; [done|lia|lia|lia]. }
  destruct Hr as ([c' st] & Hr & Hcfg & Hat). unfold http_byte. rewrite Hr. cbn [run_bind fst snd] in *.
  destruct (terminal st) eqn:Et; [eexists; split; [done|]; by cbn|]. apply not_terminal in Et as ->.
  eexists. split; [done|]. by apply Hat.
Qed.

Definition http_verdict (cfg : normalizedHTTPConfig) : verdict :=
  machine_verdict http_byte (fun _ => false) (newHTTPClassifier cfg).

Lemma http_implements cfg :
  http_config_ok cfg -> implements (http_verdict cfg) (fun _ => True) (newHTTPClassifier cfg).
Proof.
  intros Hok. pose proof Hok as [Hc1 Hc2].
  apply (machine_implements http_byte ht_state (fun _ => false)
    (fun c => MkHTTP (ht_config c) (ht_phase c) (ht_line c) (ht_headerBytes c) Mismatch (ht_info c))
    (http_at cfg) (http_minSniffBufferSize cfg)).
  - intros c p Ht. cbn [Feed http_Classifier]. unfold http_Feed. by rewrite Ht.
  - intros c s p r (_ & Hst & _) Hf. cbn [Feed http_Classifier]. unfold http_Feed. rewrite Hst. cbn [terminal]. by rewrite Hf.
  - intros c s p c' (_ & Hst & _) _ Hf. cbn [Feed http_Classifier]. unfold http_Feed. rewrite Hst. cbn [terminal]. by rewrite Hf.
  - done.
  - by intros c s (_ & Hst & _).
  - intros c s b. by apply http_byte_total.
  - intros c s (_ & _ & Hph) Hs. exfalso. unfold http_minSniffBufferSize in Hs. destruct (ht_phase c).
    + destruct Hph as (_ & Hl & _). destruct (configured (nh_hostname cfg)); lia.
    + destruct Hph as (Hcf & Hh & Hl). rewrite Hcf in Hs. lia.
  - done.
  - split_and!; [done|done|]. cbn [ht_phase newHTTPClassifier]. split_and!; [done|exact Hc1|done].
  - done.
  - unfold http_minSniffBufferSize. destruct (configured (nh_hostname cfg)); lia.
Qed.

End HTTP.
