(* ===== verification/TLSSpec.v ===== *)
(** The TLS classifier keeps the contract of the interface on every stream
    without a ClientHello of exactly 34 bytes; on such a ClientHello the parser
    reads past its end and panics. *)

From S2P Require Import Prelude Classifier Combinators Protocols WellKnown CombinatorsSpec PrefixSpec HTTPSniff ProtocolsSpec LinesSpec HTTPSpec TLSHello.

Section TLS.
Context `{TextLib}.

(** ** The extensions are parsed without a panic *)

Lemma server_names_total fuel data offset hostname :
  0 <= offset -> Z.max 0 (zlen data - offset) < Z.of_nat fuel -> exists r, server_names fuel data offset hostname = Done r.
Proof.
  revert offset hostname. induction fuel as [|fuel IH]; intros offset hostname Ho Hf; [lia|]. cbn [server_names].
  repeat run_step.
  all: try (match goal with |- exists r, match ?x with _ => _ end = Done r => destruct x; [|by eexists] end).
  all: apply IH; bounds.
Qed.

Lemma parse_sni_total data : exists r, parseTLSServerNameExtension data = Done r.
Proof. unfold parseTLSServerNameExtension. repeat run_step. apply server_names_total; [lia|unfold zlen; lia]. Qed.

Lemma alpn_total fuel data offset protocols :
  0 <= offset -> Z.max 0 (zlen data - offset) < Z.of_nat fuel -> exists r, alpn_protocols fuel data offset protocols = Done r.
Proof.
  revert offset protocols. induction fuel as [|fuel IH]; intros offset protocols Ho Hf; [lia|]. cbn [alpn_protocols].
  destruct (Z.ltb_spec offset (zlen data)); [|by eexists]. run_step. pose proof (bZ_range x). repeat run_step. apply IH; bounds.
Qed.

Lemma parse_alpn_total data : exists r, parseTLSALPNExtension data = Done r.
Proof. unfold parseTLSALPNExtension. repeat run_step. apply alpn_total; [lia|unfold zlen; lia]. Qed.

Lemma versions_total fuel data offset versions :
  0 <= offset -> (zlen data - offset) mod 2 = 0 -> Z.max 0 (zlen data - offset) < Z.of_nat fuel ->
  exists r, supported_versions fuel data offset versions = Done r.
Proof.
  revert offset versions. induction fuel as [|fuel IH]; intros offset versions Ho Hm Hf; [lia|]. cbn [supported_versions].
  destruct (Z.ltb_spec offset (zlen data)); [|by eexists].
  assert (offset + 2 <= zlen data) by (Z.div_mod_to_equations; lia). run_step. apply IH; [lia| |lia].
  Z.div_mod_to_equations; lia.
Qed.

Lemma parse_versions_total data : exists r, parseTLSSupportedVersionsExtension data = Done r.
Proof.
  unfold parseTLSSupportedVersionsExtension. destruct (Z.ltb_spec (zlen data) 3); [by eexists|]. run_step.
  destruct (_ || _ || _) eqn:E; [by eexists|]. apply versions_total; [lia| |unfold zlen; lia].
  apply orb_false_iff in E as [E1 E3]. apply orb_false_iff in E1 as [_ E2]. Z.div_mod_to_equations; lia.
Qed.

Lemma read_extension_total t data i : exists r, read_extension t data i = Done r.
Proof.
  unfold read_extension. destruct (t =? _); [destruct (parse_sni_total data) as [r ->]; by eexists|].
  destruct (t =? _); [destruct (parse_alpn_total data) as [r ->]; by eexists|].
  destruct (t =? _); [destruct (parse_versions_total data) as [r ->]; by eexists|].
  destruct (t =? _); by eexists.
Qed.

Lemma hello_extensions_total fuel extensions offset seen i :
  0 <= offset -> Z.max 0 (zlen extensions - offset) < Z.of_nat fuel ->
  exists r, hello_extensions fuel extensions offset seen i = Done r.
Proof.
  revert offset seen i. induction fuel as [|fuel IH]; intros offset seen i Ho Hf; [lia|]. cbn [hello_extensions].
  repeat run_step.
  match goal with |- exists r, run_bind (read_extension ?t ?d ?j) _ = Done r => destruct (read_extension_total t d j) as [[i'|] ->] end;
    cbn [run_bind]; [|by eexists].
  apply IH; bounds.
Qed.

(** The body is parsed without a panic unless it ends right where the length
    of the session identifier should be. *)
Definition short_body (body : list byte) : Prop :=
  zlen body = 34 /\ exists v, be16 body 0 = Some v /\ validTLSClientHelloVersion v = true.

Lemma parse_body_total body :
  (short_body body /\ parseTLSClientHelloBody body = Panicked) \/
  (~ short_body body /\ exists r, parseTLSClientHelloBody body = Done r).
Proof.
  unfold parseTLSClientHelloBody, short_body. destruct (Z.ltb_spec (zlen body) 34); [right; split; [lia|by eexists]|].
  destruct (be16_in_range body 0) as [v Hv]; [lia|lia|]. rewrite Hv. cbn [must run_bind].
  destruct (validTLSClientHelloVersion v) eqn:Ev; cbn [negb]; [|right; split; [|by eexists]; intros (_ & v' & [= <-] & ?); congruence].
  destruct (Z.eq_dec (zlen body) 34) as [He|Hne].
  - left. split; [eauto|]. assert (Hn : index body 34 = None) by (apply index_None; lia). by rewrite Hn.
  - right. split; [lia|]. run_step. pose proof (bZ_range x). repeat run_step.
    all: apply hello_extensions_total; [lia|unfold zlen; lia].
Qed.

(** ** The handshake as it arrives *)

(** [tlsUint24] when the three bytes are there. *)
Lemma uint24_total l i : 0 <= i -> i + 3 <= zlen l -> exists n, tlsUint24 l i = Done n /\ 0 <= n.
Proof.
  intros H1 H2. unfold tlsUint24. destruct (index_in_range l i ltac:(lia)) as [a ->].
  destruct (index_in_range l (i + 1) ltac:(lia)) as [b ->]. destruct (index_in_range l (i + 2) ltac:(lia)) as [c ->].
  cbn [must run_bind]. eexists. split; [done|]. pose proof (bZ_range a). pose proof (bZ_range b). pose proof (bZ_range c).
  rewrite !Z.lor_nonneg, !Z.shiftl_nonneg. lia.
Qed.

Lemma uint24_app l k i : i + 3 <= zlen l -> tlsUint24 (l ++ k) i = tlsUint24 l i.
Proof. intros Hl. unfold tlsUint24. by rewrite !index_app_l by lia. Qed.

Lemma be16_app_l l k i : i + 2 <= zlen l -> be16 (l ++ k) i = be16 l i.
Proof. intros Hl. unfold be16. by rewrite !index_app_l by lia. Qed.

(** How many handshake bytes decide next. *)
Definition hello_needed (handshake : list byte) : run Z :=
  if zlen handshake >=? tlsHandshakeHeaderBytes then
    let! n := tlsUint24 handshake 1 in Done (tlsHandshakeHeaderBytes + n)
  else Done (if zlen handshake >=? 1 then tlsHandshakeHeaderBytes else 1).

Lemma check_cases hs :
  exists st, checkTLSClientHelloHeader hs = Done st /\
    match st with
    | NeedMore => exists k, hello_needed hs = Done k /\ zlen hs < k /\
        forall q, zlen (hs ++ q) < k -> checkTLSClientHelloHeader (hs ++ q) = Done NeedMore /\ hello_needed (hs ++ q) = Done k
    | Mismatch => forall q, checkTLSClientHelloHeader (hs ++ q) = Done Mismatch
    | Match => exists n, tlsUint24 hs 1 = Done n /\ 0 < n /\ 4 + n <= zlen hs /\
        forall q, checkTLSClientHelloHeader (hs ++ q) = Done Match
    end.
Proof.
  unfold checkTLSClientHelloHeader, hello_needed, tlsHandshakeHeaderBytes. pose proof (zlen_nonneg hs).
  destruct (Z.eqb_spec (zlen hs) 0) as [Hz|Hz].
  { exists NeedMore. split; [done|]. exists 1. replace (zlen hs >=? 4) with false by lia. replace (zlen hs >=? 1) with false by lia.
    split_and!; [done|lia|]. intros q Hq. rewrite zlen_app in *. pose proof (zlen_nonneg q).
    replace (zlen hs + zlen q =? 0) with true by lia. replace (zlen hs + zlen q >=? 4) with false by lia.
    by replace (zlen hs + zlen q >=? 1) with false by lia. }
  destruct (index_in_range hs 0 ltac:(lia)) as [b Hb]. rewrite Hb. cbn [must run_bind].
  assert (Hq0 : forall q, (zlen (hs ++ q) =? 0) = false /\ index (hs ++ q) 0 = Some b).
  { intros q. rewrite zlen_app. pose proof (zlen_nonneg q). split; [lia|]. by rewrite index_app_l by lia. }
  destruct (negb (bZ b =? tlsHandshakeTypeClientHello)) eqn:Et.
  { exists Mismatch. split; [done|]. intros q. destruct (Hq0 q) as [-> ->]. cbn [must run_bind]. by rewrite Et. }
  destruct (Z.ltb_spec (zlen hs) 4) as [Hl|Hl].
  { exists NeedMore. split; [done|]. exists 4. replace (zlen hs >=? 4) with false by lia. replace (zlen hs >=? 1) with true by lia.
    split_and!; [done|lia|]. intros q Hq. destruct (Hq0 q) as [-> ->]. cbn [must run_bind]. rewrite Et.
    rewrite zlen_app in *. pose proof (zlen_nonneg q). replace (zlen hs + zlen q <? 4) with true by lia.
    replace (zlen hs + zlen q >=? 4) with false by lia. by replace (zlen hs + zlen q >=? 1) with true by lia. }
  destruct (uint24_total hs 1 ltac:(lia) ltac:(lia)) as (n & Hn & Hpos). rewrite Hn. cbn [run_bind].
  assert (Hq4 : forall q, (zlen (hs ++ q) <? 4) = false /\ tlsUint24 (hs ++ q) 1 = Done n).
  { intros q. rewrite zlen_app. pose proof (zlen_nonneg q). split; [lia|]. by rewrite uint24_app by lia. }
  destruct (Z.eqb_spec n 0).
  { exists Mismatch. split; [done|]. intros q. destruct (Hq0 q) as [-> ->]. cbn [must run_bind]. rewrite Et.
    destruct (Hq4 q) as [-> ->]. cbn [run_bind]. by replace (n =? 0) with true by lia. }
  destruct (Z.ltb_spec (zlen hs) (4 + n)).
  - exists NeedMore. split; [done|]. exists (4 + n). replace (zlen hs >=? 4) with true by lia. split_and!; [done|done|].
    intros q Hq. destruct (Hq0 q) as [-> ->]. cbn [must run_bind]. rewrite Et. destruct (Hq4 q) as [-> ->]. cbn [run_bind].
    replace (n =? 0) with false by lia. replace (zlen (hs ++ q) <? 4 + n) with true by lia. split; [done|].
    rewrite zlen_app in *. pose proof (zlen_nonneg q). by replace (zlen hs + zlen q >=? 4) with true by lia.
  - exists Match. split; [done|]. exists n. split_and!; [done|lia|done|]. intros q. destruct (Hq0 q) as [-> ->]. cbn [must run_bind].
    rewrite Et. destruct (Hq4 q) as [-> ->]. cbn [run_bind]. replace (n =? 0) with false by lia.
    rewrite zlen_app. pose proof (zlen_nonneg q). by replace (zlen hs + zlen q <? 4 + n) with false by lia.
Qed.

Lemma needBytes_spec hs before start stop k :
  hello_needed hs = Done k ->
  tlsClientHelloNeedBytes hs before start stop =
  Done (if (k - before >? 0) && (start + (k - before) <=? stop) then start + (k - before) else stop + tlsRecordHeaderBytes).
Proof.
  unfold hello_needed, tlsClientHelloNeedBytes. intros ->. cbn [run_bind].
  by destruct ((k - before >? 0) && (start + (k - before) <=? stop)).
Qed.

(** What a result on [data] says about every extension of [data]. *)
Definition extends_to (data p : list byte) (r r' : run hello) : Prop :=
  match r with
  | Done (HelloMore n) => zlen data < n /\ 5 <= n /\ (zlen (data ++ p) < n -> r' = Done (HelloMore n))
  | Done HelloBad | Done (Hello _) | Panicked => r' = r
  | OutOfFuel => False
  end.

(** The fragment of a record in the data and in a longer stream. *)
Lemma fragment_app {A} (data p : list A) start stop part :
  0 <= start <= stop -> start <= zlen data -> slice data start (if stop >? zlen data then zlen data else stop) = Some part ->
  exists q, slice (data ++ p) start (if stop >? zlen (data ++ p) then zlen (data ++ p) else stop) = Some (part ++ q) /\
    zlen part = (if stop >? zlen data then zlen data else stop) - start /\
    zlen (part ++ q) = (if stop >? zlen (data ++ p) then zlen (data ++ p) else stop) - start /\ (stop <= zlen data -> q = []).
Proof.
  intros H1 H2 Hs. pose proof (zlen_slice _ _ _ _ Hs) as Hl. rewrite zlen_app in *. pose proof (zlen_nonneg p).
  destruct (Z.gtb_spec stop (zlen data)) as [Hgt|Hle].
  - set (stop' := if stop >? zlen data + zlen p then zlen data + zlen p else stop).
    assert (Hst : zlen data <= stop' <= zlen data + zlen p) by (unfold stop'; destruct (Z.gtb_spec stop (zlen data + zlen p)); lia).
    exists (take (Z.to_nat (stop' - zlen data)) p). assert (Hpart : part = drop (Z.to_nat start) data).
    { unfold slice in Hs. replace ((0 <=? start) && (start <=? zlen data) && (zlen data <=? zlen data)) with true in Hs by lia.
      injection Hs as <-. apply take_ge. rewrite length_drop. unfold zlen. lia. }
    assert (Hsl : slice (data ++ p) start stop' = Some (part ++ take (Z.to_nat (stop' - zlen data)) p)).
    { unfold slice. rewrite zlen_app. replace ((0 <=? start) && (start <=? stop') && (stop' <=? zlen data + zlen p)) with true by lia.
      f_equal. rewrite Hpart. unfold zlen in *. rewrite drop_app_le by lia. rewrite take_app, length_drop. f_equal.
      - apply take_ge. rewrite length_drop. lia.
      - f_equal. lia. }
    split_and!; [done|done|by rewrite (zlen_slice _ _ _ _ Hsl)|lia].
  - exists []. rewrite app_nil_r. replace (stop >? zlen data + zlen p) with false by lia.
    split_and!; [by apply slice_prefix|done|done|done].
Qed.

Lemma parse_records_extends f1 f2 data p off hs :
  0 <= off -> Z.max 0 (zlen data - off) < Z.of_nat f1 -> Z.max 0 (zlen (data ++ p) - off) < Z.of_nat f2 ->
  extends_to data p (parse_records f1 data off hs) (parse_records f2 (data ++ p) off hs).
Proof.
  revert f2 off hs. induction f1 as [|f1 IH]; intros [|f2] off hs Ho Hf1 Hf2; try lia. cbn [parse_records].
  unfold tlsRecordHeaderBytes. pose proof (zlen_nonneg p). rewrite zlen_app in Hf2.
  destruct (Z.ltb_spec (zlen data) (off + 5)) as [Hs|Hs].
  { split_and!; [done|lia|]. intros Hl. by replace (zlen (data ++ p) <? off + 5) with true by lia. }
  replace (zlen (data ++ p) <? off + 5) with false by (rewrite zlen_app; lia).
  rewrite (index_app_l data p off), !(be16_app_l data p) by lia.
  destruct (index_in_range data off ltac:(lia)) as [b ->]. cbn [must run_bind].
  destruct (negb (bZ b =? tlsContentTypeHandshake)); [done|].
  destruct (be16_in_range data (off + 1) ltac:(lia) ltac:(lia)) as [ver ->]. cbn [must run_bind].
  destruct (negb (validTLSRecordVersion ver)); [done|].
  destruct (be16_in_range data (off + 3) ltac:(lia) ltac:(lia)) as [len Hlen]. rewrite Hlen. cbn [must run_bind].
  apply be16_range in Hlen. destruct ((len =? 0) || (len >? tlsPlaintextMaxBytes)) eqn:El; [done|].
  set (start := off + 5) in *. set (stop := start + len).
  destruct (slice_in_range data start (if stop >? zlen data then zlen data else stop)) as [part Hpart];
    [unfold stop; destruct (Z.gtb_spec (start + len) (zlen data)); lia|unfold stop; destruct (Z.gtb_spec (start + len) (zlen data)); lia|].
  destruct (fragment_app data p start stop part) as (q & Hpart' & Hl1 & Hl2 & Hq); [unfold stop; lia|lia|done|].
  rewrite Hpart, Hpart'. cbn [must run_bind]. rewrite (app_assoc hs part q).
  destruct (check_cases (hs ++ part)) as (st & Hst & Hcase). rewrite Hst. cbn [run_bind].
  destruct st; cycle 1.
  - destruct Hcase as (n & Hn & Hpos & Hfit & Hext). rewrite Hext, Hn. cbn [run_bind].
    rewrite uint24_app by (unfold tlsHandshakeHeaderBytes in *; lia). rewrite Hn. cbn [run_bind]. unfold tlsHandshakeHeaderBytes.
    destruct (slice_in_range (hs ++ part) 4 (4 + n) ltac:(lia) ltac:(lia)) as [body Hbody].
    rewrite Hbody, (slice_prefix _ q _ _ _ Hbody). cbn [must run_bind].
    destruct (parse_body_total body) as [[_ ->]|[_ [[i|] ->]]]; done.
  - by rewrite Hcase.
  - destruct Hcase as (k & Hk & Hlt & Hext). rewrite (needBytes_spec _ _ _ _ _ Hk). cbn [run_bind].
    rewrite zlen_app in Hlt. unfold tlsRecordHeaderBytes. assert (Hkb : (k - zlen hs >? 0) = true) by (pose proof (zlen_nonneg part); lia).
    rewrite Hkb. cbn [andb]. rewrite !zlen_app in Hl2. rewrite ?zlen_app. destruct (Z.gtb_spec stop (zlen data)) as [Hgt|Hle].
    + replace (zlen data <? stop) with true by lia. cbn [extends_to].
      split_and!; [destruct (Z.leb_spec (start + (k - zlen hs)) stop); lia|destruct (Z.leb_spec (start + (k - zlen hs)) stop); lia|].
      rewrite zlen_app. intros Hless.
      assert (Hin : zlen ((hs ++ part) ++ q) < k).
      { rewrite !zlen_app. destruct (Z.leb_spec (start + (k - zlen hs)) stop), (Z.gtb_spec stop (zlen data + zlen p)); lia. }
      destruct (Hext q Hin) as [-> Hk']. cbn [run_bind]. destruct (Z.gtb_spec stop (zlen data + zlen p)) as [Hg|Hg].
      * replace (zlen data + zlen p <? stop) with true by lia.
        rewrite (needBytes_spec _ _ _ _ _ Hk'). cbn [run_bind]. by rewrite Hkb.
      * rewrite Z.ltb_irrefl. destruct (Z.leb_spec (start + (k - zlen hs)) stop); [lia|].
        destruct f2 as [|f2]; [lia|]. cbn [parse_records]. unfold tlsRecordHeaderBytes. rewrite zlen_app.
        by replace (zlen data + zlen p <? stop + 5) with true by lia.
    + rewrite (Hq Hle), app_nil_r, Hst. cbn [run_bind]. replace (stop >? zlen data + zlen p) with false by lia.
      rewrite Z.ltb_irrefl. apply IH; [lia|lia|rewrite zlen_app; lia].
Qed.

Lemma parse_extends data p : extends_to data p (parseTLSClientHello data) (parseTLSClientHello (data ++ p)).
Proof. apply parse_records_extends; unfold zlen; lia. Qed.

(** ** The classifier *)

Lemma match_any_total m values : exists r, match_any m values = Done r.
Proof.
  induction values as [|v values [r Hr]]; [by eexists|]. cbn [match_any].
  destruct (matcher_match_spec m v) as (x & -> & _). cbn [run_bind]. destruct x; by eexists.
Qed.

Lemma matchClientHello_total cfg i : exists r, matchClientHello cfg i = Done r.
Proof.
  unfold matchClientHello. do 3 (destruct (negb _); [by eexists|]).
  destruct (matcher_match_spec (nt_hostname cfg) (ti_SNIHostname i)) as (x & -> & _). cbn [run_bind].
  destruct (negb x); [by eexists|]. unfold matchAny. destruct (negb _); [by eexists|]. apply match_any_total.
Qed.

(** The verdict on a stream: the first [max] bytes are parsed. *)
Definition tls_verdict (cfg : normalizedTLSConfig) : verdict := fun s =>
  let max := nt_maxClientHelloBytes cfg in
  let data := take (Z.to_nat max) s in
  match parseTLSClientHello data with
  | Done (HelloMore n) =>
      if (max <=? zlen s) || ((n >? max) && (tlsRecordHeaderBytes <=? zlen data)) then Mismatch else NeedMore
  | Done (Hello i) => match matchClientHello cfg i with Done true => Match | _ => Mismatch end
  | _ => Mismatch
  end.

(** The streams on which the parser does not panic. *)
Definition tls_ok (cfg : normalizedTLSConfig) (s : list byte) : Prop :=
  parseTLSClientHello (take (Z.to_nat (nt_maxClientHelloBytes cfg)) s) <> Panicked.

Section Config.
Variable cfg : normalizedTLSConfig.
Notation max := (nt_maxClientHelloBytes cfg).
Hypothesis max_pos : 0 < max.

Lemma tls_stable : stable (tls_verdict cfg).
Proof.
  intros s p. unfold tls_verdict. rewrite take_app. set (d := take (Z.to_nat max) s). set (q := take _ p).
  pose proof (parse_extends d q) as He.
  destruct (parseTLSClientHello d) as [[n| |i]| |] eqn:E; cbn [extends_to] in He; [|by rewrite He|by rewrite He|by rewrite He|done].
  destruct He as (H1 & H2 & H3). destruct (Z.leb_spec max (zlen s)) as [Hfull|Hpart]; cbn [orb].
  - intros _. assert (Hq : q = []) by (unfold q; unfold zlen in Hfull; by replace (Z.to_nat max - length s)%nat with 0%nat by lia).
    rewrite Hq, app_nil_r, E. rewrite zlen_app. pose proof (zlen_nonneg p). by replace (max <=? zlen s + zlen p) with true by lia.
  - destruct ((n >? max) && (tlsRecordHeaderBytes <=? zlen d)) eqn:En; [|done]. intros _.
    assert (Hl : zlen (d ++ q) < n).
    { rewrite zlen_app. unfold d, q, zlen in *. rewrite !length_take. lia. }
    rewrite (H3 Hl). replace (_ || _) with true; [done|]. symmetry. apply orb_true_iff. right.
    rewrite zlen_app. pose proof (zlen_nonneg q). apply andb_prop in En as [En1 En2]. rewrite En1. cbn [andb]. lia.
Qed.

Lemma tls_decides : decides (tls_verdict cfg) max.
Proof.
  intros s Hs. unfold tls_verdict. replace (max <=? zlen s) with true by lia. cbn [orb].
  destruct (parseTLSClientHello _) as [[n| |i]| |]; [done|done| |done|done]. by destruct (matchClientHello cfg i) as [[|]| |].
Qed.

(** An undecided classifier: everything is in the buffer, and until
    [needBytes] bytes the parser would only ask for that many. *)
Definition tls_active (c : tlsClassifier) (s : list byte) : Prop :=
  tl_config c = cfg /\ tl_state c = NeedMore /\ tl_buf c = s /\ zlen s < max /\
  5 <= tl_needBytes c /\ (tl_needBytes c <= max \/ tl_needBytes c = 5) /\
  forall q, zlen (s ++ q) < tl_needBytes c -> parseTLSClientHello (s ++ q) = Done (HelloMore (tl_needBytes c)).

Definition tls_settled (c : tlsClassifier) (s : list byte) : Prop :=
  tl_config c = cfg /\ terminal (tl_state c) = true /\ tl_state c = tls_verdict cfg s.

Lemma tls_active_fresh : tls_active (newTLSClassifier cfg) [].
Proof.
  unfold tls_active. cbn [newTLSClassifier tl_config tl_state tl_buf tl_needBytes]. unfold tlsRecordHeaderBytes.
  split_and!; [done|done|done|done|done|by right|].
  intros q Hq. unfold parseTLSClientHello. cbn [parse_records app] in *. unfold tlsRecordHeaderBytes. by replace (zlen q <? 0 + 5) with true by lia.
Qed.

(** The parse of the buffer once a chunk is in it. *)
Lemma tls_decision c s t :
  tls_active c s -> (exists q, t = s ++ q) -> zlen t <= max -> parseTLSClientHello t <> Panicked ->
  exists c', (if zlen t <? tl_needBytes c then
        let state := if zlen t =? max then Mismatch else NeedMore in
        Done (tl_set c t (tl_needBytes c) state (tl_info c), state)
      else
        let! h := parseTLSClientHello t in
        match h with
        | HelloMore needBytes =>
            let state := if (needBytes >? max) || (zlen t =? max) then Mismatch else NeedMore in
            Done (tl_set c t needBytes state (tl_info c), state)
        | HelloBad => Done (tl_set c t (tl_needBytes c) Mismatch (tl_info c), Mismatch)
        | Hello i =>
            let! m := matchClientHello (tl_config c) i in
            let state := if (m : bool) then Match else Mismatch in
            Done (tl_set c t (tl_needBytes c) state i, state)
        end) = Done (c', tls_verdict cfg t) /\ (tls_active c' t \/ tls_settled c' t).
Proof.
  intros (Hc & Hst & Hb & Hlen & H5 & Hmax & Hpart) [q ->] Ht Hok. unfold tls_verdict, tls_settled, tlsRecordHeaderBytes.
  rewrite take_ge by (unfold zlen in Ht; lia). rewrite Hc. destruct (Z.ltb_spec (zlen (s ++ q)) (tl_needBytes c)) as [Hl|Hl].
  - rewrite (Hpart q Hl). destruct (Z.eqb_spec (zlen (s ++ q)) max) as [He|Hne].
    + replace (max <=? zlen (s ++ q)) with true by lia. cbn [orb]. eexists. split; [done|]. right.
      unfold tls_verdict. rewrite take_ge by (unfold zlen in Ht; lia). rewrite (Hpart q Hl).
      by replace (max <=? zlen (s ++ q)) with true by lia.
    + replace ((max <=? zlen (s ++ q)) || ((tl_needBytes c >? max) && (5 <=? zlen (s ++ q)))) with false by lia.
      eexists. split; [done|]. left. split_and!; [done|done|done|lia|done|done|].
      cbn. intros q'. rewrite <- app_assoc. apply Hpart.
  - pose proof (parse_extends (s ++ q)) as He. destruct (parseTLSClientHello (s ++ q)) as [[n| |i]| |] eqn:E; cbn [run_bind extends_to] in He |- *.
    + pose proof (He []) as (H1 & H2 & _). assert (Hcond : (max <=? zlen (s ++ q)) || ((n >? max) && (5 <=? zlen (s ++ q))) = (n >? max) || (zlen (s ++ q) =? max)).
      { apply Bool.eq_iff_eq_true. rewrite !orb_true_iff, andb_true_iff. lia. }
      rewrite Hcond. eexists. split; [done|]. destruct ((n >? max) || (zlen (s ++ q) =? max)) eqn:Eb.
      * right. unfold tls_verdict. rewrite take_ge by (unfold zlen in Ht; lia). unfold tlsRecordHeaderBytes. rewrite E, Hcond. by cbn.
      * left. apply orb_false_iff in Eb as [Eb1 Eb2]. split_and!; [done|done|done|lia|done|left; cbn; lia|].
        cbn. intros q'. by apply He.
    + eexists. split; [done|]. right. unfold tls_verdict. rewrite take_ge by (unfold zlen in Ht; lia). by rewrite E.
    + destruct (matchClientHello_total cfg i) as [m Hm]. rewrite Hm. cbn [run_bind]. destruct m; eexists; (split; [done|]); right;
        unfold tls_verdict; rewrite take_ge by (unfold zlen in Ht; lia); rewrite E, Hm; done.
    + done.
    + exfalso. apply (He []).
Qed.

Lemma tls_implements : implements (tls_verdict cfg) (tls_ok cfg) (newTLSClassifier cfg).
Proof.
  split; [|apply tls_stable|cbn; lia|apply tls_decides].
  exists (fun c s => tls_active c s \/ tls_settled c s). split; [left; apply tls_active_fresh|].
  intros c s p [Hc|(Hc & Ht & Hv)] Hok; cbn [Feed tls_Classifier]; unfold tls_Feed.
  2:{ rewrite Ht. assert (Hs : tls_verdict cfg (s ++ p) = tl_state c) by (rewrite tls_stable; [done|by rewrite <- Hv]).
      exists c. rewrite Hs. split; [done|]. right. by split_and!. }
  pose proof Hc as (Hcf & Hst & Hb & Hlen & _). rewrite Hst, Hcf, Hb. cbn [terminal].
  destruct (Z.leb_spec (max - zlen s) 0); [lia|]. rewrite andb_false_r.
  set (part := if max - zlen s <? zlen p then take (Z.to_nat (max - zlen s)) p else p).
  assert (Hpart : (if negb (zlen p =? 0) && (zlen p >? max - zlen s) then must (slice p 0 (max - zlen s)) else Done p) = Done part).
  { unfold part. pose proof (zlen_nonneg p). destruct (Z.ltb_spec (max - zlen s) (zlen p)).
    - replace (negb (zlen p =? 0) && (zlen p >? max - zlen s)) with true by lia. unfold slice.
      replace ((0 <=? 0) && (0 <=? max - zlen s) && (max - zlen s <=? zlen p)) with true by lia. cbn [must]. do 2 f_equal. lia.
    - by replace (negb (zlen p =? 0) && (zlen p >? max - zlen s)) with false by lia. }
  rewrite Hpart. cbn [run_bind]. clear Hpart.
  assert (Hcut : s ++ part = take (Z.to_nat max) (s ++ p)) by (apply limit_cut; lia).
  assert (Htl : zlen (s ++ part) <= max) by (rewrite Hcut; unfold zlen; rewrite length_take; lia).
  unfold tls_ok in Hok. rewrite <- Hcut in Hok.
  destruct (tls_decision c s (s ++ part) Hc ltac:(by eexists) Htl Hok) as (c' & Hd & Hc'). rewrite Hcf in Hd.
  assert (HV : tls_verdict cfg (s ++ part) = tls_verdict cfg (s ++ p)).
  { destruct (Z.ltb_spec (max - zlen s) (zlen p)) as [Hlt|Hge].
    - rewrite Hcut. rewrite <- (take_drop (Z.to_nat max) (s ++ p)) at 2. symmetry. apply tls_stable, tls_decides.
      rewrite <- Hcut. unfold part. replace (max - zlen s <? zlen p) with true by lia. rewrite zlen_app. unfold zlen in *. rewrite length_take. lia.
    - unfold part. by replace (max - zlen s <? zlen p) with false by lia. }
  exists c'. rewrite <- HV. split; [exact Hd|].
  destruct Hc' as [Hc'|(H1 & H2 & H3)]; [left|right; rewrite HV in H3; by split_and!].
  replace (s ++ p) with (s ++ part); [done|]. f_equal. unfold part.
  destruct (Z.ltb_spec (max - zlen s) (zlen p)) as [Hlt|]; [|done].
  destruct Hc' as (_ & _ & _ & Hl' & _). rewrite zlen_app in Hl'. unfold part, zlen in *.
  replace (max - Z.of_nat (length s) <? Z.of_nat (length p)) with true in Hl' by lia. rewrite length_take in Hl'. lia.
Qed.

End Config.

Lemma normalizeTLSConfig_ok config cfg : normalizeTLSConfig config = Done cfg -> 0 < nt_maxClientHelloBytes cfg.
Proof.
  unfold normalizeTLSConfig. destruct (Z.ltb_spec (tc_MaxClientHelloBytes config) 0); [done|]. intros [= <-]. cbn.
  unfold DefaultTLSClientHelloMaxBytes. destruct (Z.eqb_spec (tc_MaxClientHelloBytes config) 0); lia.
Qed.

End TLS.
