(* ===== verification/Putback.v ===== *)
(** The put-back connection of src/putback/conn.go: bytes prepended to the
    unread input of a connection, the deferred read error, closing in two
    steps, and the pooled buffers.

    The wrapped connection and the writer of WriteTo are parameters.  The
    buffer pool is the trace of its calls. *)

From S2P Require Import Prelude.

(** The wrapped connection: [Read] with a destination of [n] bytes, and its two
    closing steps; a connection without a second step has none. *)
Class NetConn (Err K : Type) : Type := {
  nc_Read : K -> Z -> K * list byte * option Err;
  nc_PreClose : K -> K * option Err;
  nc_PostClose : K -> option (K * option Err) }.

(** An [io.Writer]: the number of bytes it took and its error. *)
Class Writer (Err W : Type) : Type := { w_Write : W -> list byte -> W * Z * option Err }.

Inductive pool_call : Type := GetBuffer (size : Z) | PutBuffer (buf : list byte).

Section Putback.
Context {Err K : Type} `{NetConn Err K}.
Variable is_EOF : Err -> bool.
Variable ErrShortWrite : Err.
Variable Join : option Err -> option Err -> option Err.

Record conn : Type := MkConn {
  pb_conn : K;
  pb_extraBuf : option (list byte);
  pb_extra : list byte;
  pb_deferredErr : option Err;
  pb_preClose : option (option Err);
  pb_postClose : option (option Err);
  pb_pool : list pool_call }.

Definition New (nc : K) : conn := MkConn nc None [] None None None [].

Definition pb_set (c : conn) (extraBuf : option (list byte)) (extra : list byte) (pool : list pool_call) : conn :=
  MkConn (pb_conn c) extraBuf extra (pb_deferredErr c) (pb_preClose c) (pb_postClose c) pool.

Definition set_deferred (c : conn) (e : option Err) : conn :=
  MkConn (pb_conn c) (pb_extraBuf c) (pb_extra c) e (pb_preClose c) (pb_postClose c) (pb_pool c).

Definition set_conn (c : conn) (k : K) : conn :=
  MkConn k (pb_extraBuf c) (pb_extra c) (pb_deferredErr c) (pb_preClose c) (pb_postClose c) (pb_pool c).

Definition releaseExtra (c : conn) : conn :=
  match pb_extraBuf c with
  | None => pb_set c None [] (pb_pool c)
  | Some buf => pb_set c None [] (pb_pool c ++ [PutBuffer buf])
  end.

Definition setExtra (c : conn) (buf : list byte) : conn := pb_set c (Some buf) buf (pb_pool c).

(** A buffer from the pool with the given contents. *)
Definition get_buffer (c : conn) (n : Z) : conn := pb_set c (pb_extraBuf c) (pb_extra c) (pb_pool c ++ [GetBuffer n]).

Definition PutBack (c : conn) (p : list byte) : conn :=
  if zlen p =? 0 then c
  else if zlen (pb_extra c) =? 0 then setExtra (get_buffer c (zlen p)) p
  else
    let combinedLen := zlen p + zlen (pb_extra c) in
    let combined := p ++ pb_extra c in
    setExtra (releaseExtra (get_buffer c combinedLen)) combined.

Definition Buffered (c : conn) : Z := zlen (pb_extra c).

(** [Read] into a destination of [n] bytes. *)
Definition Read (c : conn) (n : Z) : conn * list byte * option Err :=
  if n =? 0 then (c, [], None)
  else if negb (zlen (pb_extra c) =? 0) then
    let out := take (Z.to_nat n) (pb_extra c) in
    let rest := drop (Z.to_nat n) (pb_extra c) in
    (if zlen out =? zlen (pb_extra c) then releaseExtra c else pb_set c (pb_extraBuf c) rest (pb_pool c), out, None)
  else
    match pb_deferredErr c with
    | Some e => (set_deferred c None, [], Some e)
    | None =>
        let '(k, out, err) := nc_Read (pb_conn c) n in
        let c := set_conn c k in
        match err with
        | Some e => if negb (zlen out =? 0) then (set_deferred c (Some e), out, None) else (c, out, Some e)
        | None => (c, out, None)
        end
    end.

(** [PreClose] and [PostClose] run once; later calls return the first result. *)
Definition PreClose (c : conn) : conn * option Err :=
  match pb_preClose c with
  | Some e => (c, e)
  | None =>
      let '(k, e) := nc_PreClose (pb_conn c) in
      (MkConn k (pb_extraBuf c) (pb_extra c) (pb_deferredErr c) (Some e) (pb_postClose c) (pb_pool c), e)
  end.

Definition PostClose (c : conn) : conn * option Err :=
  match pb_postClose c with
  | Some e => (c, e)
  | None =>
      let '(c, err) := PreClose c in
      let c := releaseExtra c in
      let '(c, err) := match nc_PostClose (pb_conn c) with
                       | None => (c, err)
                       | Some (k, e) => (set_conn c k, Join err e)
                       end in
      (MkConn (pb_conn c) (pb_extraBuf c) (pb_extra c) (pb_deferredErr c) (pb_preClose c) (Some err) (pb_pool c), err)
  end.

Definition Close (c : conn) : conn * option Err := PostClose c.

Section WriteTo.
Context {W : Type} `{Writer Err W}.
(** [WriteTo] of the wrapped TCP connection. *)
Variable tcp_WriteTo : K -> W -> K * W * Z * option Err.

(** [writeBufferedTo]: how much was written, and whether the call is over. *)
Fixpoint write_buffered (fuel : nat) (c : conn) (w : W) (written : Z) : run (conn * W * Z * bool * option Err) :=
  match fuel with
  | O => OutOfFuel
  | S fuel' =>
      if negb (zlen (pb_extra c) =? 0) then
        let '(w, n, err) := w_Write w (pb_extra c) in
        if (n <? 0) || (n >? zlen (pb_extra c)) then Done (c, w, written, true, Some ErrShortWrite)
        else
          let rest := drop (Z.to_nat n) (pb_extra c) in
          let c' := if n >? 0 then
                      let c := pb_set c (pb_extraBuf c) rest (pb_pool c) in
                      if zlen rest =? 0 then releaseExtra c else c
                    else c in
          let written := written + n in
          match err with
          | Some e => Done (c', w, written, true, Some e)
          | None => if n =? 0 then Done (c', w, written, true, Some ErrShortWrite) else write_buffered fuel' c' w written
          end
      else
        match pb_deferredErr c with
        | Some e => Done (set_deferred c None, w, written, true, if is_EOF e then None else Some e)
        | None => Done (c, w, written, false, None)
        end
  end.

Definition writeBufferedTo (c : conn) (w : W) : run (conn * W * Z * bool * option Err) :=
  write_buffered (S (length (pb_extra c))) c w 0.

Definition WriteTo (c : conn) (w : W) : run (conn * W * Z * option Err) :=
  let! r := writeBufferedTo c w in
  let '(c, w, n, done, err) := r in
  if done || match err with Some _ => true | None => false end then Done (c, w, n, err)
  else
    let '(k, w, m, err) := tcp_WriteTo (pb_conn c) w in
    Done (set_conn c k, w, n + m, err).

End WriteTo.

(** ** The buffers of the pool *)

(** The buffers taken and not yet returned. *)
Fixpoint outstanding (t : list pool_call) : Z :=
  match t with
  | [] => 0
  | GetBuffer _ :: t' => 1 + outstanding t'
  | PutBuffer _ :: t' => -1 + outstanding t'
  end.

(** The put-back bytes are the end of the one buffer the connection holds. *)
Record conn_ok (c : conn) : Prop := MkConnOK {
  co_extra : match pb_extraBuf c with
             | None => pb_extra c = []
             | Some buf => pb_extra c <> [] /\ pb_extra c `suffix_of` buf
             end;
  co_pool : outstanding (pb_pool c) = match pb_extraBuf c with None => 0 | Some _ => 1 end }.

Lemma outstanding_app t u : outstanding (t ++ u) = outstanding t + outstanding u.
Proof. induction t as [|[n|b] t IH]; cbn [outstanding app]; lia. Qed.

Lemma outstanding_get n : outstanding [GetBuffer n] = 1.
Proof. done. Qed.

Lemma outstanding_put b : outstanding [PutBuffer b] = -1.
Proof. done. Qed.

Lemma New_conn_ok k : conn_ok (New k).
Proof. by split. Qed.

Lemma release_ok c : conn_ok c -> conn_ok (releaseExtra c).
Proof.
  intros [H1 H2]. unfold releaseExtra. destruct (pb_extraBuf c) as [buf|] eqn:E; split; cbn; [done| |done|done].
  rewrite outstanding_app, H2, outstanding_put. lia.
Qed.

Lemma zlen_zero {A} (l : list A) : zlen l = 0 <-> l = [].
Proof. unfold zlen. destruct l; cbn [length]; split; intros; [done|done|lia|done]. Qed.

Lemma PutBack_extra c p : pb_extra (PutBack c p) = p ++ pb_extra c.
Proof.
  unfold PutBack. destruct (Z.eqb_spec (zlen p) 0) as [->%zlen_zero|]; [done|].
  destruct (Z.eqb_spec (zlen (pb_extra c)) 0) as [He%zlen_zero|]; cbn; [by rewrite He, app_nil_r|done].
Qed.

Lemma PutBack_ok c p : conn_ok c -> conn_ok (PutBack c p).
Proof.
  intros Hc. pose proof Hc as [H1 H2]. unfold PutBack. destruct (Z.eqb_spec (zlen p) 0) as [|Hp]; [done|].
  assert (Hne : p <> []) by (intros ->; done).
  destruct (Z.eqb_spec (zlen (pb_extra c)) 0) as [He%zlen_zero|He].
  - destruct (pb_extraBuf c) as [buf|] eqn:E; [by destruct H1|]. split; cbn; [done|].
    rewrite outstanding_app, H2, outstanding_get. lia.
  - destruct (pb_extraBuf c) as [buf|] eqn:E; [|by rewrite H1 in He]. unfold releaseExtra, get_buffer. cbn. rewrite E.
    split; cbn; [split; [by destruct p|done]|].
    rewrite !outstanding_app, H2, outstanding_get, outstanding_put. lia.
Qed.

Lemma Read_ok c n c' out e : conn_ok c -> 0 <= n -> Read c n = (c', out, e) -> conn_ok c'.
Proof.
  intros Hc Hn. pose proof Hc as [H1 H2]. unfold Read. destruct (Z.eqb_spec n 0); [by intros [= <- <- <-]|].
  destruct (Z.eqb_spec (zlen (pb_extra c)) 0) as [He%zlen_zero|He]; cbn [negb].
  - destruct (pb_deferredErr c); [intros [= <- <- <-]; by split|].
    destruct (nc_Read (pb_conn c) n) as [[k o] err]. destruct err; [destruct (negb _)|]; intros [= <- <- <-]; by split.
  - intros [= <- <- <-]. destruct (Z.eqb_spec (zlen (take (Z.to_nat n) (pb_extra c))) (zlen (pb_extra c))) as [|Hlt]; [by apply release_ok|].
    destruct (pb_extraBuf c) as [buf|] eqn:E; [|by rewrite H1 in He]. destruct H1 as [_ [pre Hpre]]. split; cbn; [|done].
    split.
    + intros Hd. apply Hlt. f_equal. rewrite <- (take_drop (Z.to_nat n) (pb_extra c)) at 2. by rewrite Hd, app_nil_r.
    + exists (pre ++ take (Z.to_nat n) (pb_extra c)). by rewrite <- app_assoc, take_drop.
Qed.

Lemma PostClose_ok c c' e :
  conn_ok c -> pb_postClose c = None -> PostClose c = (c', e) -> conn_ok c' /\ pb_extraBuf c' = None /\ pb_postClose c' = Some e.
Proof.
  intros [H1 H2] Hp. unfold PostClose. rewrite Hp. unfold PreClose.
  destruct (pb_preClose c) as [e0|]; [|destruct (nc_PreClose (pb_conn c)) as [k e0]].
  all: unfold releaseExtra; cbn; destruct (pb_extraBuf c) as [buf|] eqn:E; cbn;
    destruct (nc_PostClose _) as [[k' e']|]; intros [= <- <-]; split_and!; try done; split; cbn; try done;
    rewrite outstanding_app, H2, outstanding_put; lia.
Qed.

(** ** The unread input *)

(** Reading [s] from the connection, in one or more calls, each of which
    returned bytes. *)
Inductive consumes : conn -> list byte -> conn -> Prop :=
| consumes_none c : consumes c [] c
| consumes_read c n c1 out e s c2 :
    0 < n -> out <> [] -> Read c n = (c1, out, e) -> consumes c1 s c2 -> consumes c (out ++ s) c2.

Lemma consumes_ok c s c' : consumes c s c' -> conn_ok c -> conn_ok c'.
Proof.
  induction 1 as [|c n c1 out e s c2 Hn Hout Hr _ IH]; intros Hc; [done|]. apply IH. eapply Read_ok; [done| |done]. lia.
Qed.

Lemma consumes_snoc c s c1 n c2 out e :
  consumes c s c1 -> 0 < n -> out <> [] -> Read c1 n = (c2, out, e) -> consumes c (s ++ out) c2.
Proof.
  intros Hc Hn Hout Hr. induction Hc as [c|c m c1 out' e' s c' Hm Hout' Hr' _ IH].
  - cbn [app]. rewrite <- (app_nil_r out). by apply (consumes_read c n c2 out e [] c2); [| | |constructor].
  - rewrite <- app_assoc. apply (consumes_read c m c1 out' e'); [done|done|done|]. by apply IH.
Qed.

(** Bytes that were put back are read again, in order, before anything else. *)
Lemma reread c p n :
  0 < n -> p <> [] -> (length p <= Z.to_nat n)%nat -> pb_extra c = [] ->
  exists c', Read (PutBack c p) n = (c', p, None) /\ pb_extra c' = [] /\ pb_conn c' = pb_conn c /\
    pb_deferredErr c' = pb_deferredErr c.
Proof.
  intros Hn Hp Hl He. unfold Read. rewrite PutBack_extra, He, app_nil_r.
  destruct (Z.eqb_spec n 0); [lia|]. destruct (Z.eqb_spec (zlen p) 0) as [Hz%zlen_zero|]; [done|]. cbn [negb].
  rewrite take_ge by lia. rewrite Z.eqb_refl. unfold PutBack. rewrite He. change (zlen (@nil byte) =? 0) with true.
  destruct (Z.eqb_spec (zlen p) 0); [done|]. eexists. by split_and!.
Qed.

End Putback.

Arguments conn Err K : clear implicits.
