(* ===== verification/Sniff.v ===== *)
(** Sniffing a connection: src/sniffer/sniff.go.  The bytes are read in the
    chunks the connection gives, fed to the classifiers one at a time, and put
    back before the call returns. *)

From S2P Require Import Prelude Classifier Combinators PrefixSpec Putback.

Definition NoMatch : Z := -1.

Section Sniff.
Context {M C Err K : Type} `{Classifier M C} `{NetConn Err K}.

(** What a call returns: the index, the error of a read, the connection and
    the classifiers. *)
Definition sniffed : Type := Z * option Err * conn Err K * list C.

(** The first [Feed(nil)] of each classifier: the first that matches ends the
    call. *)
Fixpoint feed_initial (i : Z) (cs : list C) : run (option Z * list C * list State) :=
  match cs with
  | [] => Done (None, [], [])
  | c :: cs' =>
      let! r := Feed c [] in
      if is_Match r.2 then Done (Some i, r.1 :: cs', [r.2])
      else
        let! t := feed_initial (i + 1) cs' in
        Done (t.1.1, r.1 :: t.1.2, r.2 :: t.2)
  end.

Definition active_count (states : list State) : Z := zlen (filter (fun st => st = NeedMore) states).

(** One byte for every classifier that is not settled: the lowest index that
    matches on it. *)
Fixpoint feed_byte (i : Z) (b : byte) (cs : list C) (states : list State) : run (Z * list C * list State) :=
  match cs, states with
  | c :: cs', st :: states' =>
      if terminal st then
        let! t := feed_byte (i + 1) b cs' states' in
        Done (t.1.1, c :: t.1.2, st :: t.2)
      else
        let! r := Feed c [b] in
        let! t := feed_byte (i + 1) b cs' states' in
        Done (if is_Match r.2 then i else t.1.1, r.1 :: t.1.2, r.2 :: t.2)
  | _, _ => Done (NoMatch, [], [])
  end.

(** The bytes of one read: a match, no classifier left, or the states after
    them. *)
Definition chunk_body (s : list C * list State) (b : byte) : run (ctl (list C * list State) (Z * list C)) :=
  let! t := feed_byte 0 b s.1 s.2 in
  let '(idx, cs, states) := t in
  if negb (idx =? NoMatch) then Done (Return (idx, cs))
  else if active_count states =? 0 then Done (Return (NoMatch, cs))
  else Done (Continue (cs, states)).

(** [defer conn.PutBack(buffer[:used])] *)
Definition put_used (c : conn Err K) (used : list byte) : conn Err K :=
  if negb (zlen used =? 0) then PutBack c used else c.

(** The reading loop; [used] is the part of the buffer that has been filled. *)
Fixpoint sniff_loop (fuel : nat) (size : Z) (used : list byte) (c : conn Err K) (cs : list C) (states : list State)
    : run sniffed :=
  match fuel with
  | O => OutOfFuel
  | S fuel' =>
      if zlen used <? size then
        let '(c, out, readErr) := Read c (size - zlen used) in
        let used := used ++ out in
        let! o := for_bytes chunk_body (cs, states) out in
        match o with
        | Return (idx, cs) => Done (idx, None, put_used c used, cs)
        | Continue (cs, states) =>
            match readErr with
            | Some e => Done (NoMatch, Some e, put_used c used, cs)
            | None =>
                if zlen out =? 0 then Done (NoMatch, None, put_used c used, cs)
                else sniff_loop fuel' size used c cs states
            end
        end
      else Done (NoMatch, None, put_used c used, cs)
  end.

(** [Sniff] with a buffer of [size] bytes; every turn of the loop reads at
    least one byte. *)
Definition Sniff (size : Z) (c : conn Err K) (cs : list C) : run sniffed :=
  let! t := feed_initial 0 cs in
  let '(first, cs, states) := t in
  match first with
  | Some i => Done (i, None, c, cs)
  | None =>
      if (active_count states =? 0) || (size =? 0) then Done (NoMatch, None, c, cs)
      else sniff_loop (S (Z.to_nat size)) size [] c cs states
  end.

(** [SniffWithPool] *)
Definition SniffWithPool (bufferSize : Z) (c : conn Err K) (cs : list C) : run sniffed :=
  if bufferSize <? 0 then Panicked else Sniff bufferSize c cs.

Fixpoint make_all (fs : list (Factory C)) : run (list C) :=
  match fs with
  | [] => Done []
  | f :: fs' => let! c := NewClassifier f in let! cs := make_all fs' in Done (c :: cs)
  end.

Definition SniffFactories (size : Z) (c : conn Err K) (fs : list (Factory C)) : run sniffed :=
  let! cs := make_all fs in Sniff size c cs.

Definition SniffFactoriesWithPool (bufferSize : Z) (c : conn Err K) (fs : list (Factory C)) : run sniffed :=
  let! cs := make_all fs in SniffWithPool bufferSize c cs.

(** ** The specification *)

(** The lowest index of a verdict that is a match on [s]. *)
Fixpoint first_match (i : Z) (Vs : list verdict) (s : list byte) : Z :=
  match Vs with
  | [] => NoMatch
  | V :: Vs' => if is_Match (V s) then i else first_match (i + 1) Vs' s
  end.

(** The selection on a stream: the shortest prefix on which a verdict is a
    match, and the lowest index there. *)
Fixpoint select (Vs : list verdict) (seen rest : list byte) : Z :=
  let i := first_match 0 Vs seen in
  if negb (i =? NoMatch) then i
  else match rest with [] => NoMatch | b :: rest' => select Vs (seen ++ [b]) rest' end.

(** The classifiers after the bytes [s], with the states [Sniff] keeps. *)
Definition sniff_at (s : list byte) (c : C) (st : State) (sp : verdict * (list byte -> Prop)) : Prop :=
  (st = NeedMore /\ sp.1 s = NeedMore /\ tracks sp.1 sp.2 c s) \/ (st = Mismatch /\ sp.1 s = Mismatch).

Notation specs := (list (verdict * (list byte -> Prop))).

Lemma feed_initial_spec i cs (sps : specs) :
  0 <= i -> Forall2 (fun c sp => tracks sp.1 sp.2 c [] /\ sp.2 []) cs sps ->
  exists o cs' states, feed_initial i cs = Done (o, cs', states) /\
    match o with
    | Some j => j = first_match i (map fst sps) [] /\ i <= j
    | None => first_match i (map fst sps) [] = NoMatch /\ Forall3 (sniff_at []) cs' states sps
    end.
Proof.
  intros Hi Hf. revert i Hi. induction Hf as [|c sp cs sps [Ht Hok] _ IH]; intros i Hi.
  { exists None, [], []. repeat constructor. }
  cbn [feed_initial]. destruct (tracks_feed _ _ _ _ [] Ht) as (c' & -> & Ht'); [done|]. cbn [run_bind fst snd map first_match app] in *.
  destruct (is_Match (sp.1 [])) eqn:Em; [by exists (Some i); eauto 10 with lia|].
  destruct (IH (i + 1) ltac:(lia)) as (o & cs' & states & -> & Ho). cbn [run_bind fst snd]. do 3 eexists. split; [done|].
  destruct o as [j|]; [destruct Ho; split; [done|lia]|]. destruct Ho as [H1 H2]. split; [done|]. constructor; [|done].
  unfold sniff_at. destruct (sp.1 []); [by left|done|by right].
Qed.

Lemma feed_byte_spec i s b cs states (sps : specs) :
  0 <= i -> Forall (fun sp => stable sp.1) sps -> Forall (fun sp => sp.2 (s ++ [b])) sps -> Forall3 (sniff_at s) cs states sps ->
  exists cs' states', feed_byte i b cs states = Done (first_match i (map fst sps) (s ++ [b]), cs', states') /\
    (first_match i (map fst sps) (s ++ [b]) = NoMatch -> Forall3 (sniff_at (s ++ [b])) cs' states' sps).
Proof.
  intros Hi HV Hok Hf. revert i Hi. induction Hf as [|c st sp cs states sps Hc _ IH]; intros i Hi; [by exists [], []; repeat constructor|].
  apply Forall_cons in HV as [HV1 HV]. apply Forall_cons in Hok as [Hok1 Hok]. cbn [feed_byte map first_match].
  destruct (IH HV Hok (i + 1) ltac:(lia)) as (cs' & states' & Ht & Hrest). rewrite Ht. destruct Hc as [(-> & Hn & Hc)|[-> Hm]]; cbn [terminal].
  - destruct (tracks_feed _ _ _ _ [b] Hc Hok1) as (c' & -> & Hc'). cbn [run_bind fst snd]. do 2 eexists. split; [done|].
    destruct (is_Match (sp.1 (s ++ [b]))) eqn:Em; [unfold NoMatch; lia|]. intros Hno. constructor; [|by apply Hrest].
    unfold sniff_at. destruct (sp.1 (s ++ [b])) eqn:E; [by left|done|by right].
  - cbn [run_bind fst snd]. assert (Hm' : sp.1 (s ++ [b]) = Mismatch) by (rewrite HV1; [done|by rewrite Hm]).
    rewrite Hm'. cbn [is_Match]. do 2 eexists. split; [done|]. intros Hno. constructor; [by right|by apply Hrest].
Qed.

Lemma first_match_range i Vs s : 0 <= i -> first_match i Vs s = NoMatch \/ i <= first_match i Vs s.
Proof.
  revert i. induction Vs as [|V Vs IH]; intros i Hi; [by left|]. cbn [first_match].
  destruct (is_Match (V s)); [right; lia|]. destruct (IH (i + 1) ltac:(lia)); [by left|right; lia].
Qed.

Lemma no_active states : active_count states = 0 -> Forall (fun st => st <> NeedMore) states.
Proof.
  unfold active_count. intros Hz%zlen_zero. apply Forall_forall. intros st Hin ->.
  assert (Hx : NeedMore ∈ filter (fun st => st = NeedMore) states) by by apply list_elem_of_filter. rewrite Hz in Hx. by apply elem_of_nil in Hx.
Qed.

(** When every classifier has mismatched nothing later matches. *)
Lemma settled_select cs states (sps : specs) s p :
  Forall (fun sp => stable sp.1) sps -> Forall3 (sniff_at s) cs states sps -> Forall (fun st => st <> NeedMore) states ->
  first_match 0 (map fst sps) (s ++ p) = NoMatch.
Proof.
  intros HV Hf Hst. generalize 0. induction Hf as [|c st sp cs states sps Hc _ IH]; intros i; [done|].
  apply Forall_cons in HV as [HV1 HV]. apply Forall_cons in Hst as [Hst1 Hst]. cbn [map first_match].
  destruct Hc as [(-> & _)|[_ Hm]]; [done|]. rewrite HV1, Hm by by rewrite Hm. by apply IH.
Qed.

Lemma stream_select_app Vs seen s p : select Vs seen s = NoMatch -> select Vs seen (s ++ p) = select Vs (seen ++ s) p.
Proof.
  revert seen. induction s as [|b s IH]; intros seen; [by rewrite app_nil_r|]. cbn [select app].
  destruct (Z.eqb_spec (first_match 0 Vs seen) NoMatch) as [|Hne]; cbn [negb]; [|done].
  intros Hs. rewrite IH by done. by rewrite <- app_assoc.
Qed.

Lemma select_found Vs seen s p : select Vs seen s <> NoMatch -> select Vs seen (s ++ p) = select Vs seen s.
Proof.
  revert seen. induction s as [|b s IH]; intros seen.
  - cbn [app]. destruct p as [|b p]; [done|]. cbn [select].
    by destruct (Z.eqb_spec (first_match 0 Vs seen) NoMatch) as [|Hne]; cbn [negb].
  - cbn [select app]. destruct (Z.eqb_spec (first_match 0 Vs seen) NoMatch); cbn [negb]; [apply IH|done].
Qed.

Lemma stream_select_none Vs seen s : (forall k, first_match 0 Vs (seen ++ take k s) = NoMatch) -> select Vs seen s = NoMatch.
Proof.
  revert seen. induction s as [|b s IH]; intros seen Hk; cbn [select].
  - specialize (Hk 0%nat). rewrite app_nil_r in Hk. by rewrite Hk.
  - pose proof (Hk 0%nat) as Hz. cbn [take] in Hz. rewrite app_nil_r in Hz. rewrite Hz. cbn. apply IH.
    intros k. specialize (Hk (S k)). cbn [take] in Hk. by rewrite <- app_assoc.
Qed.

(** The bytes of one read, after the bytes [s]. *)
Lemma chunk_spec (sps : specs) s out cs states :
  Forall (fun sp => stable sp.1) sps -> (forall k, Forall (fun sp => sp.2 (s ++ take k out)) sps) ->
  Forall3 (sniff_at s) cs states sps -> first_match 0 (map fst sps) s = NoMatch ->
  exists o, for_bytes chunk_body (cs, states) out = Done o /\
    match o with
    | Continue (cs', states') => select (map fst sps) s out = NoMatch /\ first_match 0 (map fst sps) (s ++ out) = NoMatch /\
                                 Forall3 (sniff_at (s ++ out)) cs' states' sps
    | Return (idx, _) => idx = select (map fst sps) s out /\
                         (idx = NoMatch -> forall p, first_match 0 (map fst sps) (s ++ out ++ p) = NoMatch)
    end.
Proof.
  intros HV. revert s cs states. induction out as [|b out IH]; intros s cs states Hok Hf Hno.
  { exists (Continue (cs, states)). split; [done|]. cbn [select]. rewrite Hno, app_nil_r. by split_and!. }
  cbn [for_bytes select]. rewrite Hno. cbn [Z.eqb negb]. unfold chunk_body at 1. cbn [fst snd].
  destruct (feed_byte_spec 0 s b cs states sps) as (cs' & states' & Ht & Hrest); [lia|done| |done|].
  { specialize (Hok 1%nat). cbn [take] in Hok. destruct out; exact Hok. }
  rewrite Ht. cbn [run_bind]. destruct (Z.eqb_spec (first_match 0 (map fst sps) (s ++ [b])) NoMatch) as [Hn|Hne]; cbn [negb].
  2:{ eexists. split; [done|]. cbn. split; [|done].
      destruct out as [|x out]; cbn [select]; by destruct (Z.eqb_spec (first_match 0 (map fst sps) (s ++ [b])) NoMatch). }
  specialize (Hrest Hn). destruct (Z.eqb_spec (active_count states') 0) as [Ha%no_active|Ha].
  - eexists. split; [done|]. cbn.
    assert (Hall : forall p, first_match 0 (map fst sps) ((s ++ [b]) ++ p) = NoMatch) by (intros p; by eapply settled_select).
    split; [symmetry; apply stream_select_none; intros k; apply Hall|]. intros _ p. specialize (Hall (out ++ p)). by rewrite <- app_assoc in Hall.
  - destruct (IH (s ++ [b]) cs' states') as (o & Ho & Hspec); [|done|done|].
    { intros k. specialize (Hok (S k)). cbn [take] in Hok. by rewrite <- app_assoc. }
    exists o. split; [done|]. rewrite <- app_assoc in Hspec. cbn [app] in Hspec.
    destruct o as [[cs2 st2]|[idx cs2]]; [done|]. destruct Hspec as [H1 H2]. split; [done|]. intros Hi p. specialize (H2 Hi p).
    by rewrite <- app_assoc in H2.
Qed.

(** ** The loop *)

(** The documented bound of a read: at most the destination is filled. *)
Definition reads_bounded : Prop :=
  forall (k : K) n k' out (e : option Err), 0 <= n -> nc_Read k n = (k', out, e) -> zlen out <= n.

Lemma Read_bounded (c : conn Err K) n c' out e : reads_bounded -> 0 <= n -> Read c n = (c', out, e) -> zlen out <= n.
Proof.
  intros Hr Hn. unfold Read. destruct (Z.eqb_spec n 0) as [->|]; [intros [= <- <- <-]; done|].
  destruct (negb _); [intros [= <- <- <-]; unfold zlen; rewrite length_take; lia|].
  destruct (pb_deferredErr c); [intros [= <- <- <-]; unfold zlen; cbn; lia|].
  destruct (nc_Read (pb_conn c) n) as [[k o] err] eqn:E. apply Hr in E; [|done].
  destruct err; [destruct (negb _)|]; intros [= <- <- <-]; done.
Qed.

(** An error comes alone: one that came with bytes is kept for the next read. *)
Lemma Read_error_empty (c : conn Err K) n c' out e : Read c n = (c', out, Some e) -> out = [].
Proof.
  unfold Read. destruct (n =? 0); [done|]. destruct (negb _); [done|]. destruct (pb_deferredErr c); [by intros [= <- <- <-]|].
  destruct (nc_Read (pb_conn c) n) as [[k o] [err|]]; [|done]. destruct (Z.eqb_spec (zlen o) 0) as [Hz%zlen_zero|]; cbn [negb]; [|done].
  by intros [= <- <- <-].
Qed.

(** The connection after the bytes were read: the last read may have returned
    no byte. *)
Definition last_read (c1 c2 : conn Err K) (empty : bool) (err : option Err) : Prop :=
  if empty then exists n, 0 < n /\ Read c1 n = (c2, [], err) else c2 = c1.

(** What a call leaves and answers, for the verdicts [Vs]: the bytes [used]
    were read and are the first unread bytes again, and the index is the
    selection on them. *)
Record sniff_outcome (size : Z) (Vs : list verdict) (c : conn Err K) (idx : Z) (err : option Err) (c' : conn Err K)
    (used : list byte) : Prop := MkOutcome {
  so_read : exists c1 c2 empty, consumes c used c1 /\ last_read c1 c2 empty err /\ c' = put_used c2 used /\
              (err <> None -> idx = NoMatch /\ empty = true) /\
              (idx = NoMatch -> err = None ->
                 (forall p, select Vs [] (used ++ p) = NoMatch) \/ zlen used = size \/ empty = true);
  so_bound : zlen used <= size;
  so_index : idx = select Vs [] used }.

Lemma take_prefix_ok (sps : specs) (c c1 : conn Err K) used out :
  (forall u c2, consumes c u c2 -> forall k, Forall (fun sp => sp.2 (take k u)) sps) -> consumes c (used ++ out) c1 ->
  forall k, Forall (fun sp => sp.2 (used ++ take k out)) sps.
Proof.
  intros Hok Hc k. specialize (Hok _ _ Hc (length used + k)%nat). rewrite take_app in Hok.
  rewrite take_ge in Hok by lia. by replace (length used + k - length used)%nat with k in Hok by lia.
Qed.

Lemma sniff_loop_spec fuel size (sps : specs) c0 used c cs states :
  reads_bounded -> Forall (fun sp => stable sp.1) sps ->
  (forall u c1, consumes c0 u c1 -> forall k, Forall (fun sp => sp.2 (take k u)) sps) ->
  consumes c0 used c -> Forall3 (sniff_at used) cs states sps -> first_match 0 (map fst sps) used = NoMatch ->
  select (map fst sps) [] used = NoMatch -> zlen used <= size -> size - zlen used < Z.of_nat fuel ->
  exists idx err c' cs' used', sniff_loop fuel size used c cs states = Done (idx, err, c', cs') /\
    sniff_outcome size (map fst sps) c0 idx err c' used'.
Proof.
  intros Hrb HV Hok. revert used c cs states. induction fuel as [|fuel IH]; intros used c cs states Hc Hf Hno Hsel Hle Hfuel; [lia|].
  cbn [sniff_loop]. destruct (Z.ltb_spec (zlen used) size) as [Hlt|Hge].
  2:{ do 5 eexists. split; [done|]. split; [|done|done]. exists c, c, false. split_and!; [done|done|done|done|].
      intros _ _. right; left. lia. }
  destruct (Read c (size - zlen used)) as [[c1 out] e] eqn:Er. pose proof (Read_bounded c (size - zlen used) c1 out e Hrb ltac:(lia) Er) as Hb.
  destruct (decide (out = [])) as [->|Hne].
  - cbn [for_bytes run_bind app]. rewrite app_nil_r. change (zlen (@nil byte) =? 0) with true.
    destruct e as [e|]; do 5 eexists; (split; [done|]); (split; [|done|done]).
    + exists c, c1, true. split_and!; [done|exists (size - zlen used); split; [lia|done]|done|done|done].
    + exists c, c1, true. split_and!; [done|exists (size - zlen used); split; [lia|done]|done|done|]. intros _ _. by right; right.
  - pose proof (consumes_snoc c0 used c (size - zlen used) c1 out e Hc ltac:(lia) Hne Er) as Hc1.
    destruct (chunk_spec sps used out cs states HV) as (o & -> & Ho); [by eapply take_prefix_ok|done|done|]. cbn [run_bind].
    assert (Hz : zlen (used ++ out) <= size) by (rewrite zlen_app; lia).
    assert (Hz0 : (zlen out =? 0) = false) by (apply Z.eqb_neq; intros ?%zlen_zero; done).
    destruct o as [[cs' states']|[idx cs']].
    + destruct Ho as (Hs & Hn & Hf'). assert (Hsel' : select (map fst sps) [] (used ++ out) = NoMatch) by by rewrite stream_select_app.
      destruct e as [e|].
      * destruct Hne. by apply (Read_error_empty c (size - zlen used) c1 out e).
      * rewrite Hz0. apply IH; try done. pose proof (zlen_nonneg out). rewrite zlen_app. lia.
    + destruct Ho as [-> Hrest]. assert (Hsel' : select (map fst sps) [] (used ++ out) = select (map fst sps) used out) by by rewrite stream_select_app.
      do 5 eexists. split; [done|]. split; [|done|done]. exists c1, c1, false. split_and!; [done|done|done|done|].
      intros Hi _. left. intros p. rewrite <- app_assoc. rewrite stream_select_app by done. cbn [app].
      rewrite stream_select_app by done. cut (forall k, first_match 0 (map fst sps) ((used ++ out) ++ take k p) = NoMatch).
      { apply stream_select_none. }
      intros k. rewrite <- app_assoc. by apply Hrest.
Qed.

(** The bytes put back are the first bytes of the next read. *)
Lemma put_used_read (c : conn Err K) used :
  used <> [] -> forall n, zlen used <= n -> exists c' rest, Read (put_used c used) n = (c', used ++ rest, None).
Proof.
  intros Hne n Hn. assert (Hz : zlen used <> 0) by (intros ?%zlen_zero; done). pose proof (zlen_nonneg used).
  unfold put_used. destruct (Z.eqb_spec (zlen used) 0); [done|]. cbn [negb]. unfold Read. rewrite PutBack_extra.
  destruct (Z.eqb_spec n 0); [lia|]. rewrite zlen_app. pose proof (zlen_nonneg (pb_extra c)).
  replace (zlen used + zlen (pb_extra c) =? 0) with false by lia. cbn [negb]. rewrite take_app.
  rewrite (take_ge used) by (unfold zlen in *; lia). by do 2 eexists.
Qed.

(** ** The classifier that matched *)

Section Matched.
(** [J d s]: the classifier [d] is undecided after the bytes [s]; [Mt d s]: it
    matched on them. *)
Variables J Mt : C -> list byte -> Prop.
Hypothesis J_feed : forall d s p d' st, J d s -> Feed d p = Done (d', st) ->
  match st with NeedMore => J d' (s ++ p) | Match => Mt d' (s ++ p) | Mismatch => True end.

Definition undecided (s : list byte) (d : C) (st : State) : Prop := st = NeedMore -> J d s.

Definition matched_at (i : Z) (ds : list C) (s : list byte) : Prop :=
  0 <= i /\ exists d, index ds i = Some d /\ Mt d s.

Lemma matched_cons i d ds s : matched_at i ds s -> matched_at (i + 1) (d :: ds) s.
Proof.
  intros [Hi (x & Hx & HM)]. split; [lia|]. exists x. split; [|done]. change (d :: ds) with ([d] ++ ds).
  rewrite index_app_r by (change (zlen [d]) with 1; lia). change (zlen [d]) with 1. by replace (i + 1 - 1) with i by lia.
Qed.

Lemma matched_first d ds s : Mt d s -> matched_at 0 (d :: ds) s.
Proof. intros HM. split; [lia|]. by exists d. Qed.

Lemma feed_initial_matched i cs o cs' states :
  Forall (fun d => J d []) cs -> feed_initial i cs = Done (o, cs', states) ->
  match o with Some j => matched_at (j - i) cs' [] | None => Forall2 (undecided []) cs' states end.
Proof.
  intros HJ. revert i o cs' states. induction HJ as [|d cs Hd _ IH]; intros i o cs' states; cbn [feed_initial].
  { intros [= <- <- <-]. constructor. }
  destruct (Feed d []) as [[d' st]| |] eqn:Ef; [|done|done]. cbn [run_bind fst snd]. pose proof (J_feed _ _ _ _ _ Hd Ef) as Hst.
  destruct (is_Match st) eqn:Em; [destruct st; [done| |done]|].
  { intros [= <- <- <-]. rewrite Z.sub_diag. by apply matched_first. }
  destruct (feed_initial (i + 1) cs) as [[[o' cs''] sts]| |] eqn:Et; [|done|done]. cbn [run_bind fst snd]. intros [= <- <- <-].
  specialize (IH _ _ _ _ Et). destruct o' as [j|].
  - replace (j - i) with (j - (i + 1) + 1) by lia. by apply matched_cons.
  - constructor; [|done]. by intros ->.
Qed.

Lemma feed_byte_matched s b i cs states idx cs' states' :
  0 <= i -> Forall2 (undecided s) cs states -> feed_byte i b cs states = Done (idx, cs', states') ->
  Forall2 (undecided (s ++ [b])) cs' states' /\ (idx = NoMatch \/ i <= idx /\ matched_at (idx - i) cs' (s ++ [b])).
Proof.
  intros Hi HJ. revert i idx cs' states' Hi. induction HJ as [|d st cs states Hd _ IH]; intros i idx cs' states' Hi; cbn [feed_byte].
  { intros [= <- <- <-]. split; [constructor|by left]. }
  destruct (terminal st) eqn:Et.
  - destruct (feed_byte (i + 1) b cs states) as [[[o' cs''] sts]| |] eqn:Ef; [|done|done]. cbn [run_bind fst snd]. intros [= <- <- <-].
    destruct (IH (i + 1) _ _ _ ltac:(lia) Ef) as [H1 H2]. split; [constructor; [by intros ->|done]|].
    destruct H2 as [|[Hge Hm]]; [by left|right]. split; [lia|]. replace (o' - i) with (o' - (i + 1) + 1) by lia. by apply matched_cons.
  - assert (st = NeedMore) as -> by by destruct st. destruct (Feed d [b]) as [[d' st']| |] eqn:Ef; [|done|done].
    pose proof (J_feed _ _ _ _ _ (Hd eq_refl) Ef) as Hst. cbn [run_bind fst snd].
    destruct (feed_byte (i + 1) b cs states) as [[[o' cs''] sts]| |] eqn:Eb; [|done|done]. cbn [run_bind fst snd]. intros [= <- <- <-].
    destruct (IH (i + 1) _ _ _ ltac:(lia) Eb) as [H1 H2]. split; [constructor; [by intros ->|done]|].
    destruct (is_Match st') eqn:Em; [right; split; [lia|]; rewrite Z.sub_diag; destruct st'; [done| |done]; by apply matched_first|].
    destruct H2 as [|[Hge Hm]]; [by left|right]. split; [lia|]. replace (o' - i) with (o' - (i + 1) + 1) by lia. by apply matched_cons.
Qed.

Lemma chunk_matched s out cs states o :
  Forall2 (undecided s) cs states -> for_bytes chunk_body (cs, states) out = Done o ->
  match o with
  | Continue (cs', states') => Forall2 (undecided (s ++ out)) cs' states'
  | Return (idx, cs') => idx = NoMatch \/ exists k, matched_at idx cs' (s ++ take k out)
  end.
Proof.
  revert s cs states. induction out as [|b out IH]; intros s cs states HJ; cbn [for_bytes].
  { intros [= <-]. by rewrite app_nil_r. }
  unfold chunk_body at 1. cbn [fst snd]. destruct (feed_byte 0 b cs states) as [[[idx cs'] sts]| |] eqn:Ef; [|done|done]. cbn [run_bind].
  destruct (feed_byte_matched s b 0 cs states idx cs' sts ltac:(lia) HJ Ef) as [H1 H2].
  destruct (Z.eqb_spec idx NoMatch) as [Hi|Hi]; cbn [negb].
  - destruct (active_count sts =? 0); cbn [run_bind]; [intros [= <-]; by left|]. intros Ho. specialize (IH (s ++ [b]) cs' sts H1 Ho).
    destruct o as [[cs2 st2]|[idx2 cs2]]; [by rewrite <- app_assoc in IH|]. destruct IH as [|[k Hk]]; [by left|right].
    exists (S k). by rewrite <- app_assoc in Hk.
  - intros [= <-]. destruct H2 as [|[_ Hm]]; [by left|right]. exists 1%nat. rewrite Z.sub_0_r in Hm. cbn [take]. by rewrite take_0.
Qed.

(** The classifier at the index [idx] matched on a beginning of the bytes that
    can be read. *)
Definition matched_reading (c : conn Err K) (idx : Z) (cs : list C) : Prop :=
  exists u c1 k, consumes c u c1 /\ matched_at idx cs (take k u).

Lemma sniff_loop_matched fuel size c0 used c cs states idx err c' cs' :
  consumes c0 used c -> 0 <= size -> Forall2 (undecided used) cs states ->
  sniff_loop fuel size used c cs states = Done (idx, err, c', cs') -> idx = NoMatch \/ matched_reading c0 idx cs'.
Proof.
  intros Hc Hs. revert used c cs states Hc. induction fuel as [|fuel IH]; intros used c cs states Hc HJ; [done|]. cbn [sniff_loop].
  destruct (Z.ltb_spec (zlen used) size) as [Hlt|]; [|intros [= <- <- <- <-]; by left].
  destruct (Read c (size - zlen used)) as [[c1 out] e] eqn:Er. destruct (for_bytes chunk_body (cs, states) out) as [o| |] eqn:Eo; [|done|done].
  cbn [run_bind]. pose proof (chunk_matched used out cs states o HJ Eo) as Ho. destruct (decide (out = [])) as [->|Hne].
  { cbn [for_bytes] in Eo. injection Eo as <-. change (zlen (@nil byte) =? 0) with true. destruct e; intros [= <- <- <- <-]; by left. }
  pose proof (consumes_snoc c0 used c (size - zlen used) c1 out e Hc ltac:(lia) Hne Er) as Hc1.
  destruct o as [[cs2 st2]|[idx2 cs2]].
  - destruct e; [intros [= <- <- <- <-]; by left|]. destruct (zlen out =? 0); [intros [= <- <- <- <-]; by left|]. by apply IH.
  - intros [= <- <- <- <-]. destruct Ho as [|[k Hm]]; [by left|right]. exists (used ++ out), c1, (length used + k)%nat. split; [done|].
    rewrite take_app, take_ge by lia. by replace (length used + k - length used)%nat with k by lia.
Qed.

Lemma sniff_matched size c cs idx err c' cs' :
  0 <= size -> Forall (fun d => J d []) cs -> Sniff size c cs = Done (idx, err, c', cs') ->
  idx = NoMatch \/ matched_reading c idx cs'.
Proof.
  intros Hs HJ. unfold Sniff. destruct (feed_initial 0 cs) as [[[o cs1] states]| |] eqn:Ei; [|done|done]. cbn [run_bind].
  pose proof (feed_initial_matched 0 cs o cs1 states HJ Ei) as Ho. destruct o as [j|].
  - intros [= <- <- <- <-]. right. exists [], c, 0%nat. split; [constructor|]. by rewrite Z.sub_0_r in Ho.
  - destruct (_ || _); [intros [= <- <- <- <-]; by left|]. apply sniff_loop_matched; [constructor|done|done].
Qed.

End Matched.

Lemma sniff_implemented size (c : conn Err K) cs (sps : specs) :
  0 <= size -> reads_bounded -> conn_ok c ->
  Forall2 (fun d sp => implements sp.1 sp.2 d) cs sps ->
  (forall u c1, consumes c u c1 -> forall k, Forall (fun sp => sp.2 (take k u)) sps) ->
  exists idx err c' cs' used, Sniff size c cs = Done (idx, err, c', cs') /\
    sniff_outcome size (map fst sps) c idx err c' used /\ conn_ok c' /\
    (used <> [] -> forall n, zlen used <= n -> exists c3 rest, Read c' n = (c3, used ++ rest, None)).
Proof.
  intros Hs Hrb Hcok Hi Hok. assert (HV : Forall (fun sp => stable sp.1) sps).
  { clear Hok. induction Hi as [|d sp cs sps Hd _ IH]; constructor; [apply Hd|done]. }
  assert (H0ok : Forall (fun sp => sp.2 []) sps) by (apply (Hok [] c (consumes_none c) 0%nat)).
  assert (Hfresh : Forall2 (fun d sp => tracks sp.1 sp.2 d [] /\ sp.2 []) cs sps).
  { clear Hok HV. induction Hi as [|d sp cs sps Hd _ IH]; [constructor|]. apply Forall_cons in H0ok as [Ho1 Ho].
    constructor; [split; [apply Hd|done]|by apply IH]. }
  assert (Hput : forall idx err c' used, sniff_outcome size (map fst sps) c idx err c' used -> conn_ok c' /\
    (used <> [] -> forall n, zlen used <= n -> exists c3 rest, Read c' n = (c3, used ++ rest, None))).
  { intros idx err c' used [(c1 & c2 & empty & Hc1 & Hl & -> & _) _ _]. split; [|by apply put_used_read].
    assert (Hok2 : conn_ok c2); [|unfold put_used; destruct (negb _); [by apply PutBack_ok|done]].
    apply (consumes_ok _ _ _ Hc1) in Hcok. destruct empty; cbn in Hl; [|by subst].
    destruct Hl as (n & Hn & Hr). eapply Read_ok; [done| |done]. lia. }
  unfold Sniff. destruct (feed_initial_spec 0 cs sps ltac:(lia) Hfresh) as (o & cs1 & states & -> & Ho). cbn [run_bind].
  cut (exists idx err c' cs' used, match o with
       | Some i => Done (i, None, c, cs1)
       | None => if (active_count states =? 0) || (size =? 0) then Done (NoMatch, None, c, cs1)
                 else sniff_loop (S (Z.to_nat size)) size [] c cs1 states
       end = Done (idx, err, c', cs') /\ sniff_outcome size (map fst sps) c idx err c' used).
  { intros (idx & err & c' & cs' & used & He & Hout). exists idx, err, c', cs', used. split; [done|]. split; [done|]. by eapply Hput. }
  destruct o as [i|].
  - destruct Ho as [-> Hge]. do 5 eexists. split; [done|]. split with (used := []); [|unfold zlen; cbn; lia|].
    + exists c, c, false. split_and!; [constructor|done|done|done|]. intros Hn. unfold NoMatch in Hn. lia.
    + cbn [select]. by destruct (Z.eqb_spec (first_match 0 (map fst sps) []) NoMatch).
  - destruct Ho as [Hn Hf]. assert (Hsel : select (map fst sps) [] [] = NoMatch) by (cbn [select]; by rewrite Hn).
    destruct (Z.eqb_spec (active_count states) 0) as [Ha%no_active|Ha]; cbn [orb].
    + do 5 eexists. split; [done|]. split with (used := []); [|unfold zlen; cbn; lia|done].
      exists c, c, false. split_and!; [constructor|done|done|done|]. intros _ _. left. intros p.
      apply stream_select_none. intros k. cbn [app]. apply (settled_select cs1 states sps [] (take k p)); done.
    + destruct (Z.eqb_spec size 0) as [Hz|Hz].
      * do 5 eexists. split; [done|]. split with (used := []); [|unfold zlen; cbn; lia|done].
        exists c, c, false. split_and!; [constructor|done|done|done|]. intros _ _. right; left. by rewrite Hz.
      * apply sniff_loop_spec; try done; [constructor|change (zlen (@nil byte)) with 0; lia].
Qed.

(** C13. Sniffing is independent of how the connection delivers its bytes and
    loses none of them.  For classifiers that keep the contract of the
    interface, and a wrapped connection whose reads fill at most their
    destination, [Sniff] returns.  It reads a string of at most [size] bytes
    and puts exactly that string back, so the next read of the connection
    starts with it, and every buffer it took from the pool but the one it holds
    is returned;
    the index is the selection on that string: the lowest classifier that
    matches on the shortest prefix on which any matches.  Without a match and
    without a read error no continuation of the string is matched, or the
    buffer is full, or the last read returned nothing; an error is the one of
    the last read, which returned nothing. *)
Theorem sniff_selects size (c : conn Err K) cs (sps : specs) :
  0 <= size -> reads_bounded -> conn_ok c ->
  Forall2 (fun d sp => implements sp.1 sp.2 d) cs sps ->
  (forall u c1, consumes c u c1 -> forall k, Forall (fun sp => sp.2 (take k u)) sps) ->
  exists idx err c' cs' used, Sniff size c cs = Done (idx, err, c', cs') /\
    sniff_outcome size (map fst sps) c idx err c' used /\ conn_ok c' /\
    (used <> [] -> forall n, zlen used <= n -> exists c3 rest, Read c' n = (c3, used ++ rest, None)).
Proof. apply sniff_implemented. Qed.

End Sniff.
