(* ===== verification/TLSRoundtrip.v ===== *)
(** The wire format of a ClientHello as an encoder, and the parser of
    src/sniffer/tls.go as its inverse: extensions, handshake message, and the
    fragmentation of the message into records. *)

From S2P Require Import Prelude Classifier Combinators Protocols WellKnown CombinatorsSpec PrefixSpec HTTPSniff ProtocolsSpec LinesSpec HTTPSpec TLSHello TLSSpec.

(** ** Reading at a cursor *)

(** [rest] is what is left of [data] at [offset]. *)
Definition cursor (data : list byte) (offset : Z) (rest : list byte) : Prop :=
  exists pre, data = pre ++ rest /\ offset = zlen pre.

(** Numbers of two and three bytes, and vectors with their length in front. *)
Definition enc16 (n : Z) : list byte := [byte_of_Z (n / 256); byte_of_Z n].
Definition enc24 (n : Z) : list byte := [byte_of_Z (n / 65536); byte_of_Z (n / 256); byte_of_Z n].
Definition vec8 (l : list byte) : list byte := byte_of_Z (zlen l) :: l.
Definition vec16 (l : list byte) : list byte := enc16 (zlen l) ++ l.

Lemma cursor_start data : cursor data 0 data.
Proof. by exists []. Qed.

Lemma cursor_nonneg data offset rest : cursor data offset rest -> 0 <= offset.
Proof. intros (pre & _ & ->). apply zlen_nonneg. Qed.

Lemma cursor_length data offset rest : cursor data offset rest -> zlen data = offset + zlen rest.
Proof. intros (pre & -> & ->). apply zlen_app. Qed.

Lemma cursor_skip data offset part rest n :
  cursor data offset (part ++ rest) -> n = offset + zlen part -> cursor data n rest.
Proof. intros (pre & -> & ->) ->. exists (pre ++ part). by rewrite zlen_app, <- app_assoc. Qed.

Lemma cursor_next data offset b rest : cursor data offset (b :: rest) -> cursor data (offset + 1) rest.
Proof. intros Hc. by apply (cursor_skip data offset [b] rest). Qed.

Lemma cursor_index data offset b rest : cursor data offset (b :: rest) -> index data offset = Some b.
Proof. intros (pre & -> & ->). rewrite index_app_r by lia. by rewrite Z.sub_diag. Qed.

Lemma bZ_byte_mod z : bZ (byte_of_Z z) = z mod 256.
Proof.
  replace (byte_of_Z z) with (byte_of_Z (z mod 256)) by (unfold byte_of_Z; by rewrite Zmod_mod).
  apply bZ_byte_of_Z. by apply Z.mod_pos_bound.
Qed.

Lemma cursor_be16 data offset n rest :
  cursor data offset (enc16 n ++ rest) -> 0 <= n < 65536 -> be16 data offset = Some n.
Proof.
  intros Hc Hn. unfold be16. cbn [enc16 app] in Hc. rewrite (cursor_index _ _ _ _ Hc).
  apply cursor_next in Hc. rewrite (cursor_index _ _ _ _ Hc), !bZ_byte_mod. f_equal. Z.div_mod_to_equations. lia.
Qed.

Lemma cursor_has data offset part rest n :
  cursor data offset (part ++ rest) -> n = zlen part -> protocolHasBytes data offset n = true.
Proof.
  intros Hc ->. pose proof (cursor_nonneg _ _ _ Hc). apply cursor_length in Hc. rewrite zlen_app in Hc.
  pose proof (zlen_nonneg part). pose proof (zlen_nonneg rest). unfold protocolHasBytes. lia.
Qed.

Lemma cursor_slice data offset part rest n :
  cursor data offset (part ++ rest) -> n = offset + zlen part -> slice data offset n = Some part.
Proof.
  intros (pre & -> & ->) ->. unfold slice. pose proof (zlen_nonneg pre). pose proof (zlen_nonneg part). pose proof (zlen_nonneg rest).
  rewrite !zlen_app.
  replace ((0 <=? zlen pre) && (zlen pre <=? zlen pre + zlen part) && (zlen pre + zlen part <=? zlen pre + (zlen part + zlen rest))) with true by lia.
  f_equal. replace (Z.to_nat (zlen pre)) with (length pre) by (unfold zlen; lia). rewrite drop_app_length.
  replace (Z.to_nat (zlen pre + zlen part - zlen pre)) with (length part) by (unfold zlen; lia). apply take_app_length.
Qed.

Lemma zlen_enc16 n : zlen (enc16 n) = 2.
Proof. done. Qed.

Lemma zlen_vec8 l : zlen (vec8 l) = zlen l + 1.
Proof. apply zlen_cons. Qed.

Lemma zlen_vec16 l : zlen (vec16 l) = zlen l + 2.
Proof. unfold vec16. rewrite zlen_app, zlen_enc16. lia. Qed.

Lemma bZ_length (l : list byte) : zlen l < 256 -> bZ (byte_of_Z (zlen l)) = zlen l.
Proof. intros Hl. apply bZ_byte_of_Z. pose proof (zlen_nonneg l). lia. Qed.

(** ** Extensions *)

Inductive extension : Type :=
| ServerName (host : list byte)
| ProtocolNames (protocols : list (list byte))
| SupportedVersions (versions : list Z)
| EncryptedClientHello (payload : list byte)
| OtherExtension (type : Z) (payload : list byte).

Definition extension_type (e : extension) : Z :=
  match e with
  | ServerName _ => tlsExtensionServerName
  | ProtocolNames _ => tlsExtensionApplicationProtocols
  | SupportedVersions _ => tlsExtensionSupportedVersions
  | EncryptedClientHello _ => tlsExtensionEncryptedClientHello
  | OtherExtension t _ => t
  end.

Definition extension_data (e : extension) : list byte :=
  match e with
  | ServerName host => vec16 (x00 :: vec16 host)
  | ProtocolNames ps => vec16 (concat (map vec8 ps))
  | SupportedVersions vs => vec8 (concat (map enc16 vs))
  | EncryptedClientHello p | OtherExtension _ p => p
  end.

Definition extension_bytes (e : extension) : list byte := enc16 (extension_type e) ++ vec16 (extension_data e).

Section Roundtrip.
Context `{TextLib}.

(** What a valid extension is. *)
Definition extension_ok (e : extension) : bool :=
  (zlen (extension_data e) <? 65536) &&
  match e with
  | ServerName host => match normalizeTLSHostname host with Some _ => true | None => false end
  | ProtocolNames ps => negb (zlen ps =? 0) && forallb (fun p => (0 <? zlen p) && (zlen p <? 256)) ps
  | SupportedVersions vs => negb (zlen vs =? 0) && (zlen vs <? 128) && forallb (fun v => (0 <=? v) && (v <? 65536)) vs
  | EncryptedClientHello _ => true
  | OtherExtension t _ =>
      (0 <=? t) && (t <? 65536) &&
      negb (existsb (Z.eqb t) [tlsExtensionServerName; tlsExtensionApplicationProtocols; tlsExtensionSupportedVersions; tlsExtensionEncryptedClientHello])
  end.

(** What it says of the client. *)
Definition extension_effect (i : TLSClientHelloInfo) (e : extension) : TLSClientHelloInfo :=
  match e with
  | ServerName host => set_SNIHostname i (to_lower host)
  | ProtocolNames ps => set_ALPNProtocols i ps
  | SupportedVersions vs => set_Versions i vs
  | EncryptedClientHello _ => set_SNIEncrypted i
  | OtherExtension _ _ => i
  end.

Lemma read_server_name host n :
  normalizeTLSHostname host = Some n -> zlen (vec16 (x00 :: vec16 host)) < 65536 ->
  parseTLSServerNameExtension (vec16 (x00 :: vec16 host)) = Done (Some n).
Proof.
  intros Hn Hl. set (data := vec16 (x00 :: vec16 host)) in *. unfold parseTLSServerNameExtension.
  pose proof (cursor_start data) as Hc. unfold data at 2, vec16 at 1 in Hc. unfold data, vec16 at 1 in Hl. rewrite zlen_app, zlen_enc16, zlen_cons, zlen_vec16 in Hl.
  assert (Hpos : 0 < zlen host).
  { pose proof (zlen_nonneg host). destruct (Z.eq_dec (zlen host) 0) as [E|]; [|lia]. unfold normalizeTLSHostname in Hn. by rewrite E in Hn. }
  rewrite (cursor_has _ _ _ _ 2 Hc) by done. cbn [negb].
  rewrite (cursor_be16 _ _ _ _ Hc) by (rewrite zlen_cons, zlen_vec16; lia). cbn [must run_bind].
  assert (Hd : zlen data = zlen host + 5) by (unfold data; rewrite zlen_vec16, zlen_cons, zlen_vec16; lia).
  rewrite zlen_cons, zlen_vec16. replace ((zlen host + 2 + 1 =? 0) || negb (zlen host + 2 + 1 =? zlen data - 2)) with false by lia.
  apply (cursor_skip _ _ _ _ 2) in Hc; [|done]. cbn [server_names]. replace (2 <? zlen data) with true by lia.
  pose proof Hc as Hc3. change (x00 :: vec16 host) with ((x00 :: enc16 (zlen host)) ++ host) in Hc3.
  rewrite (cursor_has _ _ _ _ 3 Hc3) by done. cbn [negb]. rewrite (cursor_index _ _ _ _ Hc). cbn [must run_bind].
  apply cursor_next in Hc. unfold vec16 in Hc. rewrite (cursor_be16 _ _ _ _ Hc) by lia. cbn [must run_bind].
  apply (cursor_skip _ _ _ _ (2 + 1 + 2)) in Hc; [|done]. rewrite <- (app_nil_r host) in Hc.
  rewrite (cursor_has _ _ _ _ (zlen host) Hc) by done. replace ((zlen host =? 0) || negb true) with false by lia.
  change (bZ x00 =? tlsServerNameTypeHostName) with true. change (negb (zlen (@nil byte) =? 0)) with false. cbv iota.
  rewrite (cursor_slice _ _ _ _ (2 + 1 + 2 + zlen host) Hc) by done. cbn [must run_bind]. rewrite Hn.
  assert (Hlen : exists k, length data = S k) by (exists (length data - 1)%nat; unfold zlen in Hd; lia).
  destruct Hlen as [k ->]. cbn [server_names]. by replace (2 + 1 + 2 + zlen host <? zlen data) with false by lia.
Qed.

Lemma alpn_loop fuel data offset ps acc :
  Forall (fun p => 0 < zlen p < 256) ps -> cursor data offset (concat (map vec8 ps)) -> zlen data - offset < Z.of_nat fuel ->
  alpn_protocols fuel data offset acc = Done (Some (acc ++ ps)).
Proof.
  intros Hp. revert fuel offset acc. induction Hp as [|p ps Hp _ IH]; intros fuel offset acc Hc Hf.
  - pose proof (cursor_length _ _ _ Hc) as Hl. change (zlen (concat (map vec8 []))) with 0 in Hl.
    destruct fuel as [|fuel]; [lia|]. cbn [alpn_protocols]. replace (offset <? zlen data) with false by lia. by rewrite app_nil_r.
  - pose proof (cursor_length _ _ _ Hc) as Hl. cbn [map concat] in Hc, Hl. rewrite zlen_app, zlen_vec8 in Hl.
    pose proof (zlen_nonneg (concat (map vec8 ps))). destruct fuel as [|fuel]; [lia|]. cbn [alpn_protocols].
    replace (offset <? zlen data) with true by lia. unfold vec8 at 1 in Hc. cbn [app] in Hc. rewrite (cursor_index _ _ _ _ Hc). cbn [must run_bind].
    rewrite bZ_length by lia. apply cursor_next in Hc. rewrite (cursor_has _ _ _ _ (zlen p) Hc) by done.
    replace ((zlen p =? 0) || negb true) with false by lia. rewrite (cursor_slice _ _ _ _ (offset + 1 + zlen p) Hc) by done. cbn [must run_bind].
    rewrite IH; [by rewrite <- app_assoc|by eapply cursor_skip|lia].
Qed.

Lemma read_alpn ps :
  ps <> [] -> Forall (fun p => 0 < zlen p < 256) ps -> zlen (vec16 (concat (map vec8 ps))) < 65536 ->
  parseTLSALPNExtension (vec16 (concat (map vec8 ps))) = Done (Some ps).
Proof.
  intros Hne Hp Hl. set (list := concat (map vec8 ps)) in *. unfold parseTLSALPNExtension. pose proof (cursor_start (vec16 list)) as Hc.
  unfold vec16 at 2 in Hc. rewrite zlen_vec16 in Hl. rewrite (cursor_has _ _ _ _ 2 Hc) by done. cbn [negb].
  pose proof (zlen_nonneg list). rewrite (cursor_be16 _ _ _ _ Hc) by lia. cbn [must run_bind]. rewrite zlen_vec16.
  assert (Hz : zlen list <> 0).
  { unfold list. destruct ps as [|p ps]; [done|]. cbn [map concat]. rewrite zlen_app, zlen_vec8. pose proof (zlen_nonneg p).
    pose proof (zlen_nonneg (concat (map vec8 ps))). lia. }
  replace ((zlen list =? 0) || negb (zlen list =? zlen list + 2 - 2)) with false by lia.
  apply (cursor_skip _ _ _ _ 2) in Hc; [|done]. apply (alpn_loop _ _ _ ps []); [done|done|unfold zlen; lia].
Qed.

Lemma versions_loop fuel data offset vs acc :
  Forall (fun v => 0 <= v < 65536) vs -> cursor data offset (concat (map enc16 vs)) -> zlen data - offset < Z.of_nat fuel ->
  supported_versions fuel data offset acc = Done (Some (acc ++ vs)).
Proof.
  intros Hp. revert fuel offset acc. induction Hp as [|v vs Hv _ IH]; intros fuel offset acc Hc Hf.
  - pose proof (cursor_length _ _ _ Hc) as Hl. change (zlen (concat (map enc16 []))) with 0 in Hl.
    destruct fuel as [|fuel]; [lia|]. cbn [supported_versions]. replace (offset <? zlen data) with false by lia. by rewrite app_nil_r.
  - pose proof (cursor_length _ _ _ Hc) as Hl. cbn [map concat] in Hc, Hl. rewrite zlen_app, zlen_enc16 in Hl.
    pose proof (zlen_nonneg (concat (map enc16 vs))). destruct fuel as [|fuel]; [lia|]. cbn [supported_versions].
    replace (offset <? zlen data) with true by lia. rewrite (cursor_be16 _ _ _ _ Hc Hv). cbn [must run_bind].
    rewrite IH; [by rewrite <- app_assoc|by eapply cursor_skip|lia].
Qed.

Lemma zlen_versions vs : zlen (concat (map enc16 vs)) = 2 * zlen vs.
Proof. induction vs as [|v vs IH]; [done|]. cbn [map concat]. rewrite zlen_app, zlen_enc16, IH, zlen_cons. lia. Qed.

Lemma read_versions vs :
  vs <> [] -> zlen vs < 128 -> Forall (fun v => 0 <= v < 65536) vs ->
  parseTLSSupportedVersionsExtension (vec8 (concat (map enc16 vs))) = Done (Some vs).
Proof.
  intros Hne Hl Hv. set (list := concat (map enc16 vs)). assert (Hz : zlen list = 2 * zlen vs) by apply zlen_versions.
  assert (0 < zlen vs) by (destruct vs; [done|rewrite zlen_cons; pose proof (zlen_nonneg vs); lia]).
  unfold parseTLSSupportedVersionsExtension. rewrite zlen_vec8. replace (zlen list + 1 <? 3) with false by lia.
  pose proof (cursor_start (vec8 list)) as Hc. unfold vec8 at 2 in Hc. rewrite (cursor_index _ _ _ _ Hc). cbn [must run_bind].
  rewrite bZ_length by lia. rewrite Hz.
  replace ((2 * zlen vs <? 2) || negb ((2 * zlen vs) mod 2 =? 0) || negb (2 * zlen vs =? 2 * zlen vs + 1 - 1)) with false.
  2:{ symmetry. rewrite !orb_false_iff, !negb_false_iff, Z.eqb_eq. split; [split|]; [lia| |lia]. rewrite Z.mul_comm. apply Z_mod_mult. }
  apply cursor_next in Hc. apply (versions_loop _ _ _ vs []); [done|done|unfold zlen; lia].
Qed.

Lemma forallb_Forall {A} (f : A -> bool) (P : A -> Prop) l : (forall a, f a = true -> P a) -> forallb f l = true -> Forall P l.
Proof. intros HP Hf. apply Forall_forall. intros a Ha. apply HP. rewrite forallb_forall in Hf. apply Hf. by apply list_elem_of_In. Qed.

Lemma read_extension_bytes e i :
  extension_ok e = true -> read_extension (extension_type e) (extension_data e) i = Done (Some (extension_effect i e)).
Proof.
  unfold extension_ok. intros [Hl He]%andb_prop. apply Z.ltb_lt in Hl. unfold read_extension.
  destruct e as [host|ps|vs|p|t p]; cbn [extension_type extension_data extension_effect] in *.
  - destruct (normalizeTLSHostname host) as [n|] eqn:En; [|done]. rewrite Z.eqb_refl, (read_server_name host n) by done.
    unfold normalizeTLSHostname in En. destruct (_ || _); [done|]. destruct (forallb _ _); [|done]. injection En as <-. done.
  - apply andb_prop in He as [Hz Hp]. change (tlsExtensionApplicationProtocols =? tlsExtensionServerName) with false. rewrite Z.eqb_refl.
    rewrite read_alpn; [done|by intros ->| |done]. eapply forallb_Forall; [|exact Hp]. intros a Ha. cbn in Ha. lia.
  - apply andb_prop in He as [He Hv]. apply andb_prop in He as [Hz Hm].
    change (tlsExtensionSupportedVersions =? tlsExtensionServerName) with false.
    change (tlsExtensionSupportedVersions =? tlsExtensionApplicationProtocols) with false. rewrite Z.eqb_refl.
    rewrite read_versions; [done|by intros ->|lia|]. eapply forallb_Forall; [|exact Hv]. intros a Ha. cbn in Ha. lia.
  - done.
  - cbn [existsb] in He. destruct (t =? tlsExtensionServerName), (t =? tlsExtensionApplicationProtocols), (t =? tlsExtensionSupportedVersions),
      (t =? tlsExtensionEncryptedClientHello); cbn in He; rewrite ?andb_false_r in He; done.
Qed.

Lemma extension_type_range e : extension_ok e = true -> 0 <= extension_type e < 65536.
Proof.
  unfold extension_ok. intros [_ He]%andb_prop. destruct e as [| | | |t p]; cbn [extension_type]; try done.
  apply andb_prop in He as [He _]. lia.
Qed.

Lemma zlen_extension e : zlen (extension_bytes e) = zlen (extension_data e) + 4.
Proof. unfold extension_bytes. rewrite zlen_app, zlen_vec16, zlen_enc16. lia. Qed.

(** The loop over the extensions: each type at most once. *)
Lemma extensions_loop fuel data offset seen es i :
  forallb extension_ok es = true -> NoDup (map extension_type es) -> Forall (fun e => extension_type e ∉ seen) es ->
  cursor data offset (concat (map extension_bytes es)) -> zlen data - offset < Z.of_nat fuel ->
  hello_extensions fuel data offset seen i = Done (Some (fold_left extension_effect es i)).
Proof.
  revert fuel offset seen i. induction es as [|e es IH]; intros fuel offset seen i Hok Hnd Hs Hc Hf;
    pose proof (cursor_length _ _ _ Hc) as Hl;
    match type of Hc with cursor _ _ ?l => pose proof (zlen_nonneg l) end;
    (destruct fuel as [|fuel]; [lia|]); cbn [hello_extensions].
  { change (zlen (concat (map extension_bytes []))) with 0 in Hl. by replace (offset <? zlen data) with false by lia. }
  cbn [map concat forallb fold_left] in *. apply andb_prop in Hok as [He Hok]. apply NoDup_cons in Hnd as [Hn Hnd]. apply Forall_cons in Hs as [Hs1 Hs].
  rewrite zlen_app, zlen_extension in Hl. pose proof (zlen_nonneg (extension_data e)). pose proof (zlen_nonneg (concat (map extension_bytes es))).
  pose proof (extension_type_range e He). assert (Hdl : zlen (extension_data e) < 65536) by (unfold extension_ok in He; lia).
  replace (offset <? zlen data) with true by lia.
  replace (protocolHasBytes data offset 4) with true by (symmetry; pose proof (cursor_nonneg _ _ _ Hc); unfold protocolHasBytes; lia). cbn [negb].
  unfold extension_bytes at 1, vec16 in Hc. rewrite <- !app_assoc in Hc.
  rewrite (cursor_be16 _ _ _ _ Hc) by done. cbn [must run_bind]. apply (cursor_skip _ _ _ _ (offset + 2)) in Hc; [|done].
  rewrite (cursor_be16 _ _ _ _ Hc) by lia. cbn [must run_bind]. apply (cursor_skip _ _ _ _ (offset + 2 + 2)) in Hc; [|done].
  rewrite bool_decide_eq_false_2 by done. rewrite (cursor_has _ _ _ _ _ Hc) by done. cbn [negb].
  rewrite (cursor_slice _ _ _ _ _ Hc) by done. cbn [must run_bind]. rewrite read_extension_bytes by done. cbn [run_bind].
  apply IH; [done|done| |by eapply cursor_skip|lia].
  apply Forall_forall. intros e' He'. rewrite Forall_forall in Hs. apply not_elem_of_union. split; [|by apply Hs].
  intros Heq%elem_of_singleton. apply Hn. rewrite <- Heq. by apply list_elem_of_fmap_2.
Qed.

(** ** The handshake message *)

Record client_hello : Type := MkClientHello {
  ch_version : Z;
  ch_random : list byte;
  ch_session : list byte;
  ch_ciphers : list Z;
  ch_compression : list byte;
  ch_extensions : list extension }.

Definition ciphers_bytes (ch : client_hello) : list byte := concat (map enc16 (ch_ciphers ch)).
Definition extensions_bytes (ch : client_hello) : list byte := concat (map extension_bytes (ch_extensions ch)).

(** Without extensions the vector of extensions is left out. *)
Definition hello_tail (ch : client_hello) : list byte :=
  match ch_extensions ch with [] => [] | _ => vec16 (extensions_bytes ch) end.

Definition hello_body (ch : client_hello) : list byte :=
  enc16 (ch_version ch) ++ ch_random ch ++ vec8 (ch_session ch) ++ vec16 (ciphers_bytes ch) ++ vec8 (ch_compression ch) ++ hello_tail ch.

Definition hello_message (ch : client_hello) : list byte := x01 :: enc24 (zlen (hello_body ch)) ++ hello_body ch.

(** A ClientHello of TLS 1.0 to 1.3 that the format can carry. *)
Record hello_ok (ch : client_hello) : Prop := MkHelloOK {
  ho_version : 768 <= ch_version ch <= 772;
  ho_random : zlen (ch_random ch) = 32;
  ho_session : zlen (ch_session ch) <= 32;
  ho_ciphers : 0 < zlen (ch_ciphers ch) < 32768;
  ho_compression : 0 < zlen (ch_compression ch) < 256;
  ho_extensions : forallb extension_ok (ch_extensions ch) = true;
  ho_types : NoDup (map extension_type (ch_extensions ch));
  ho_size : zlen (extensions_bytes ch) < 65536 }.

(** The metadata it carries. *)
Definition hello_info (ch : client_hello) : TLSClientHelloInfo :=
  fold_left extension_effect (ch_extensions ch) (MkHelloInfo [ch_version ch] [] false []).

Lemma hello_version_valid v : 768 <= v <= 772 -> validTLSRecordVersion v = true.
Proof.
  intros Hv. assert (Hc : v = 768 \/ v = 769 \/ v = 770 \/ v = 771 \/ v = 772) by lia.
  destruct Hc as [->|[->|[->|[->| ->]]]]; reflexivity.
Qed.

Lemma zlen_tail ch : zlen (hello_tail ch) = 0 /\ ch_extensions ch = [] \/
  zlen (hello_tail ch) = zlen (extensions_bytes ch) + 2 /\ 0 < zlen (extensions_bytes ch) /\ hello_tail ch = vec16 (extensions_bytes ch).
Proof.
  unfold hello_tail. destruct (ch_extensions ch) as [|e es] eqn:E; [by left|right]. rewrite zlen_vec16. split_and!; [done| |done].
  unfold extensions_bytes. rewrite E. cbn [map concat]. rewrite zlen_app, zlen_extension.
  pose proof (zlen_nonneg (extension_data e)). pose proof (zlen_nonneg (concat (map extension_bytes es))). lia.
Qed.

Lemma zlen_body ch : hello_ok ch ->
  zlen (hello_body ch) = 38 + zlen (ch_session ch) + 2 * zlen (ch_ciphers ch) + zlen (ch_compression ch) + zlen (hello_tail ch).
Proof.
  intros Hok. unfold hello_body. rewrite !zlen_app, !zlen_vec8, zlen_vec16, zlen_enc16, (ho_random _ Hok). unfold ciphers_bytes.
  rewrite zlen_versions. lia.
Qed.

Lemma parse_hello_body ch : hello_ok ch -> parseTLSClientHelloBody (hello_body ch) = Done (Some (hello_info ch)).
Proof.
  intros Hok. pose proof (zlen_body ch Hok) as Hlen. pose proof Hok as [Hv Hr Hs Hci Hco Hes Hnd Hsz].
  pose proof (zlen_nonneg (ch_session ch)). pose proof (zlen_nonneg (hello_tail ch)).
  assert (Hcb : zlen (ciphers_bytes ch) = 2 * zlen (ch_ciphers ch)) by apply zlen_versions.
  set (body := hello_body ch) in *. unfold parseTLSClientHelloBody. replace (zlen body <? 34) with false by lia.
  pose proof (cursor_start body) as Hc. unfold body at 2, hello_body in Hc.
  rewrite (cursor_be16 _ _ _ _ Hc) by lia. cbn [must run_bind]. unfold validTLSClientHelloVersion. rewrite hello_version_valid by done. cbn [negb].
  apply (cursor_skip _ _ _ _ 2) in Hc; [|done]. apply (cursor_skip _ _ _ _ 34) in Hc; [|lia]. unfold vec8 at 1 in Hc. cbn [app] in Hc.
  rewrite (cursor_index _ _ _ _ Hc). cbn [must run_bind]. rewrite bZ_length by lia. apply cursor_next in Hc.
  rewrite (cursor_has _ _ _ _ _ Hc) by done. replace ((zlen (ch_session ch) >? 32) || negb true) with false by lia.
  apply (cursor_skip _ _ _ _ (34 + 1 + zlen (ch_session ch))) in Hc; [|done]. unfold vec16 in Hc. rewrite <- app_assoc in Hc.
  rewrite (cursor_has _ _ _ _ 2 Hc) by done. cbn [negb]. rewrite (cursor_be16 _ _ _ _ Hc) by lia. cbn [must run_bind].
  apply (cursor_skip _ _ _ _ (34 + 1 + zlen (ch_session ch) + 2)) in Hc; [|done]. rewrite (cursor_has _ _ _ _ _ Hc) by done.
  replace ((zlen (ciphers_bytes ch) <? 2) || negb (zlen (ciphers_bytes ch) mod 2 =? 0) || negb true) with false.
  2:{ symmetry. rewrite Hcb, !orb_false_iff, negb_false_iff, Z.eqb_eq. split_and!; [lia| |done]. rewrite Z.mul_comm. apply Z_mod_mult. }
  eapply cursor_skip in Hc; [|reflexivity]. unfold vec8 in Hc. cbn [app] in Hc.
  pose proof Hc as Hc1. change (byte_of_Z (zlen (ch_compression ch)) :: ?l) with ([byte_of_Z (zlen (ch_compression ch))] ++ l) in Hc1.
  rewrite (cursor_has _ _ _ _ 1 Hc1) by done. cbn [negb]. clear Hc1. rewrite (cursor_index _ _ _ _ Hc). cbn [must run_bind]. rewrite bZ_length by lia.
  apply cursor_next in Hc. rewrite (cursor_has _ _ _ _ _ Hc) by done.
  replace ((zlen (ch_compression ch) =? 0) || negb true) with false by lia. eapply cursor_skip in Hc; [|reflexivity].
  set (offset := 34 + 1 + zlen (ch_session ch) + 2 + zlen (ciphers_bytes ch) + 1 + zlen (ch_compression ch)) in *.
  unfold hello_info. destruct (zlen_tail ch) as [[Hz He]|(Hz & Hpos & Ht)].
  { rewrite He. by replace (offset =? zlen body) with true by lia. }
  replace (offset =? zlen body) with false by lia. rewrite Ht in Hc. unfold vec16 in Hc. rewrite (cursor_has _ _ _ _ 2 Hc) by done. cbn [negb].
  rewrite (cursor_be16 _ _ _ _ Hc) by lia. cbn [must run_bind]. eapply cursor_skip in Hc; [|reflexivity]. rewrite zlen_enc16 in Hc.
  pose proof Hc as Hc1. rewrite <- (app_nil_r (extensions_bytes ch)) in Hc1. rewrite (cursor_has _ _ _ _ _ Hc1) by done.
  replace ((zlen (extensions_bytes ch) =? 0) || negb true) with false by lia.
  replace (offset + 2 + zlen (extensions_bytes ch) =? zlen body) with true by lia. cbn [negb].
  rewrite (cursor_slice _ _ _ _ _ Hc1) by lia. cbn [must run_bind]. unfold parseTLSClientHelloExtensions.
  apply extensions_loop; [done|done| |apply cursor_start|unfold zlen; lia]. apply Forall_forall. intros e _. apply not_elem_of_empty.
Qed.

(** ** Records *)

(** One record: its version and its part of the handshake message. *)
Definition record_bytes (f : Z * list byte) : list byte := x16 :: enc16 f.1 ++ vec16 f.2.

Definition fragment_ok (f : Z * list byte) : Prop := 768 <= f.1 <= 772 /\ 0 < zlen f.2 <= tlsPlaintextMaxBytes.

Lemma zlen_record f : zlen (record_bytes f) = zlen f.2 + 5.
Proof. unfold record_bytes. rewrite zlen_cons, zlen_app, zlen_vec16, zlen_enc16. lia. Qed.

Lemma zlen_body_range ch : hello_ok ch -> 0 < zlen (hello_body ch) < 2 ^ 24.
Proof.
  intros Hok. rewrite zlen_body by done. destruct Hok as [_ _ Hs Hci Hco _ _ Hsz].
  pose proof (zlen_nonneg (ch_session ch)). change (2 ^ 24) with 16777216. destruct (zlen_tail ch) as [[-> _]|(-> & ? & _)]; lia.
Qed.

Lemma lor_disjoint a b k : 0 <= k -> 0 <= b < 2 ^ k -> Z.lor (Z.shiftl a k) b = a * 2 ^ k + b.
Proof.
  intros Hk Hb. rewrite <- Z.shiftl_mul_pow2 by done. assert (Hz : Z.land (Z.shiftl a k) b = 0).
  { apply Z.bits_inj'. intros n Hn. rewrite Z.land_spec, Z.bits_0, Z.shiftl_spec by done. destruct (Z.lt_ge_cases n k) as [Hlt|Hge].
    - by rewrite Z.testbit_neg_r by lia.
    - replace (Z.testbit b n) with false; [apply andb_false_r|]. symmetry. rewrite <- (Z.mod_small b (2 ^ k)) by done. by apply Z.mod_pow2_bits_high. }
  by rewrite <- Z.lxor_lor, <- Z.add_nocarry_lxor.
Qed.

Lemma uint24_message ch : hello_ok ch -> tlsUint24 (hello_message ch) 1 = Done (zlen (hello_body ch)).
Proof.
  intros Hok%zlen_body_range. unfold tlsUint24, hello_message. set (n := zlen (hello_body ch)) in *.
  cbn [enc24 app]. match goal with |- context [index ?l 1] => pose proof (cursor_start l) as Hc end.
  apply cursor_next in Hc. change (0 + 1) with 1 in Hc.
  rewrite (cursor_index _ _ _ _ Hc). apply cursor_next in Hc. rewrite (cursor_index _ _ _ _ Hc). apply cursor_next in Hc. change (1 + 1 + 1) with (1 + 2) in Hc.
  rewrite (cursor_index _ _ _ _ Hc). cbn [must run_bind]. rewrite !bZ_byte_mod. f_equal.
  rewrite (Z.mod_small (n / 65536)) by (Z.div_mod_to_equations; lia).
  assert (Hr : 0 <= n / 256 mod 256 < 256 /\ 0 <= n mod 256 < 256) by (split; by apply Z.mod_pos_bound).
  rewrite <- Z.lor_assoc. rewrite (lor_disjoint (n / 256 mod 256) (n mod 256) 8), lor_disjoint by lia.
  Z.div_mod_to_equations. lia.
Qed.

Lemma check_message ch : hello_ok ch -> checkTLSClientHelloHeader (hello_message ch) = Done Match.
Proof.
  intros Hok. pose proof (zlen_body_range ch Hok). unfold checkTLSClientHelloHeader.
  assert (Hl : zlen (hello_message ch) = 4 + zlen (hello_body ch)) by (unfold hello_message; rewrite zlen_cons, zlen_app; change (zlen (enc24 _)) with 3; lia).
  rewrite Hl, uint24_message by done. unfold tlsHandshakeHeaderBytes. replace (4 + zlen (hello_body ch) =? 0) with false by lia.
  change (index (hello_message ch) 0) with (Some x01). cbn [must run_bind]. change (negb (bZ x01 =? tlsHandshakeTypeClientHello)) with false.
  replace (4 + zlen (hello_body ch) <? 4) with false by lia. cbv iota. replace (zlen (hello_body ch) =? 0) with false by lia.
  by replace (4 + zlen (hello_body ch) <? 4 + zlen (hello_body ch)) with false by lia.
Qed.

Lemma check_part ch part q : hello_ok ch -> part ++ q = hello_message ch -> q <> [] -> checkTLSClientHelloHeader part = Done NeedMore.
Proof.
  intros Hok Hm Hq. pose proof (zlen_body_range ch Hok). unfold checkTLSClientHelloHeader, tlsHandshakeHeaderBytes.
  assert (Hl : zlen (hello_message ch) = 4 + zlen (hello_body ch)) by (unfold hello_message; rewrite zlen_cons, zlen_app; change (zlen (enc24 _)) with 3; lia).
  rewrite <- Hm, zlen_app in Hl. assert (0 < zlen q) by (destruct q; [done|rewrite zlen_cons; pose proof (zlen_nonneg q); lia]).
  destruct (Z.eqb_spec (zlen part) 0) as [|Hne]; [done|]. destruct part as [|b part]; [done|]. assert (b = x01) as -> by (unfold hello_message in Hm; by injection Hm).
  change (index (x01 :: part) 0) with (Some x01). cbn [must run_bind]. change (negb (bZ x01 =? tlsHandshakeTypeClientHello)) with false. cbv iota.
  destruct (Z.ltb_spec (zlen (x01 :: part)) 4) as [|Hge]; [done|].
  assert (Hu : tlsUint24 (x01 :: part) 1 = Done (zlen (hello_body ch))).
  { rewrite <- uint24_message by done. rewrite <- Hm. symmetry. apply uint24_app. lia. }
  rewrite Hu. cbn [run_bind]. replace (zlen (hello_body ch) =? 0) with false by lia.
  by replace (zlen (x01 :: part) <? 4 + zlen (hello_body ch)) with true by lia.
Qed.

Lemma records_loop ch fuel data offset frags handshake rest :
  hello_ok ch -> Forall fragment_ok frags -> frags <> [] -> handshake ++ concat (map snd frags) = hello_message ch ->
  cursor data offset (concat (map record_bytes frags) ++ rest) -> zlen frags < Z.of_nat fuel ->
  parse_records fuel data offset handshake = Done (Hello (hello_info ch)).
Proof.
  intros Hok Hf. revert fuel offset handshake. induction Hf as [|[v frag] frags [Hv Hfr] Hrest IH]; intros fuel offset handshake Hne Hm Hc Hfuel; [done|].
  destruct fuel as [|fuel]; [pose proof (zlen_nonneg ((v, frag) :: frags)); lia|]. cbn [parse_records]. cbn [fst snd] in *.
  pose proof (cursor_length _ _ _ Hc) as Hl. cbn [map concat] in Hc, Hl, Hm. rewrite !zlen_app, zlen_record in Hl. cbn [snd] in Hl, Hm.
  pose proof (zlen_nonneg rest). pose proof (zlen_nonneg (concat (map record_bytes frags))). unfold tlsRecordHeaderBytes.
  replace (zlen data <? offset + 5) with false by lia. unfold record_bytes at 1, vec16 in Hc. cbn [fst snd app] in Hc. rewrite <- !app_assoc in Hc.
  rewrite (cursor_index _ _ _ _ Hc). cbn [must run_bind]. change (negb (bZ x16 =? tlsContentTypeHandshake)) with false. cbv iota.
  apply cursor_next in Hc. rewrite (cursor_be16 _ _ _ _ Hc) by lia. cbn [must run_bind]. rewrite hello_version_valid by done. cbn [negb].
  apply (cursor_skip _ _ _ _ (offset + 3)) in Hc; [|rewrite zlen_enc16; lia]. unfold tlsPlaintextMaxBytes in *.
  rewrite (cursor_be16 _ _ _ _ Hc) by lia. cbn [must run_bind]. replace ((zlen frag =? 0) || (zlen frag >? 16384)) with false by lia.
  apply (cursor_skip _ _ _ _ (offset + 5)) in Hc; [|rewrite zlen_enc16; lia].
  replace (offset + 5 + zlen frag >? zlen data) with false by lia. rewrite (cursor_slice _ _ _ _ _ Hc) by done. cbn [must run_bind].
  destruct frags as [|f2 frags].
  - cbn [map concat] in Hm. rewrite app_nil_r in Hm. rewrite Hm, check_message by done. cbn [run_bind]. rewrite uint24_message by done. cbn [run_bind].
    unfold tlsHandshakeHeaderBytes. pose proof (cursor_start (hello_message ch)) as Hc2. unfold hello_message at 2 in Hc2.
    apply (cursor_skip _ _ (x01 :: enc24 (zlen (hello_body ch))) _ 4) in Hc2; [|done].
    rewrite (cursor_slice _ _ (hello_body ch) [] (4 + zlen (hello_body ch))); [|by rewrite app_nil_r|done]. cbn [must run_bind]. by rewrite parse_hello_body.
  - assert (Hq : concat (map snd (f2 :: frags)) <> []).
    { apply Forall_cons in Hrest as [[_ H2] _]. cbn [map concat]. intros [Hz _]%app_nil. rewrite Hz in H2. unfold zlen in H2. cbn in H2. lia. }
    rewrite (check_part ch _ (concat (map snd (f2 :: frags)))); [|done|by rewrite <- app_assoc|done].
    cbn [run_bind]. replace (offset + 5 + zlen frag <? offset + 5 + zlen frag) with false by lia.
    apply IH; [done|by rewrite <- app_assoc|by eapply cursor_skip|]. rewrite zlen_cons in Hfuel. lia.
Qed.

End Roundtrip.
