(* ===== verification/TLSSniff.v ===== *)
(** [SniffTLSClientHello] of src/sniffer/tls.go, and what it returns for a
    ClientHello that a connection delivers. *)

From S2P Require Import Prelude Classifier Combinators Protocols WellKnown CombinatorsSpec PrefixSpec HTTPSniff ProtocolsSpec LinesSpec HTTPSpec TLSHello TLSSpec TLSRoundtrip Putback Sniff.

Section TLSSniff.
Context `{TextLib} {Err K : Type} `{NetConn Err K}.

Definition SniffTLSClientHello (size : Z) (c : conn Err K) : run (TLSClientHelloInfo * bool * option Err * conn Err K) :=
  let! n := normalizeTLSConfig (tls_limit size) in
  let! r := Sniff size c [newTLSClassifier n] in
  let '(idx, err, c, cs) := r in
  if negb (idx =? 0) then Done (no_hello, false, err, c)
  else
    let! classifier := must (index cs 0) in
    Done (tl_info classifier, true, err, c).

(** ** The parse of a stream of records *)

Lemma zlen_records frags : zlen frags <= zlen (concat (map record_bytes frags)).
Proof.
  induction frags as [|f frags IH]; [done|]. cbn [map concat]. rewrite zlen_cons, zlen_app, zlen_record. pose proof (zlen_nonneg f.2). lia.
Qed.

Lemma parse_wire ch frags rest :
  hello_ok ch -> Forall fragment_ok frags -> concat (map snd frags) = hello_message ch ->
  parseTLSClientHello (concat (map record_bytes frags) ++ rest) = Done (Hello (hello_info ch)).
Proof.
  intros Hok Hf Hm. unfold parseTLSClientHello. eapply records_loop; [done|done| |exact Hm|apply cursor_start|].
  - by intros ->.
  - pose proof (zlen_records frags). pose proof (zlen_nonneg rest). rewrite length_app. unfold zlen in *. lia.
Qed.

(** A string and a continuation of it that both parse have the same result. *)
Lemma parse_same s t i j :
  s `prefix_of` t -> parseTLSClientHello s = Done (Hello i) -> parseTLSClientHello t = Done (Hello j) -> i = j.
Proof. intros [q ->] Hi Hj. pose proof (parse_extends s q) as He. rewrite Hi, Hj in He. cbn [extends_to] in He. congruence. Qed.

Lemma parse_not_panicked s t i : s `prefix_of` t -> parseTLSClientHello t = Done (Hello i) -> parseTLSClientHello s <> Panicked.
Proof. intros [q ->] Ht Hs. pose proof (parse_extends s q) as He. rewrite Hs in He. cbn [extends_to] in He. congruence. Qed.

(** ** The classifier of the call *)

(** Undecided, it holds the bytes fed; matched, it holds the parse of a
    beginning of them. *)
Definition tls_undecided (d : tlsClassifier) (s : list byte) : Prop := tl_state d = NeedMore /\ tl_buf d = s.
Definition tls_matched (d : tlsClassifier) (s : list byte) : Prop :=
  exists t, t `prefix_of` s /\ parseTLSClientHello t = Done (Hello (tl_info d)).

Lemma tls_cut (buf p part : list byte) (max : Z) :
  (if negb (zlen p =? 0) && (zlen p >? max - zlen buf) then must (slice p 0 (max - zlen buf)) else Done p) = Done part ->
  part = p \/ part `prefix_of` p /\ zlen (buf ++ part) = max.
Proof.
  destruct (negb (zlen p =? 0) && (zlen p >? max - zlen buf)) eqn:E; [|intros [= <-]; by left].
  destruct (slice p 0 (max - zlen buf)) as [q|] eqn:Es; [|done]. intros [= <-]. right. pose proof (zlen_slice _ _ _ _ Es). rewrite zlen_app.
  split; [|lia]. unfold slice in Es. destruct ((0 <=? 0) && _ && _); [|done]. injection Es as <-. rewrite drop_0. apply prefix_take.
Qed.

Lemma tls_tracks d s p d' st : tls_undecided d s -> Feed d p = Done (d', st) ->
  match st with NeedMore => tls_undecided d' (s ++ p) | Match => tls_matched d' (s ++ p) | Mismatch => True end.
Proof.
  intros [Hst Hb]. cbn [Feed tls_Classifier]. unfold tls_Feed. rewrite Hst, Hb. cbn [terminal].
  set (max := nt_maxClientHelloBytes (tl_config d)). destruct (negb (zlen p =? 0) && (max - zlen s <=? 0)); [by intros [= <- <-]|].
  destruct (if negb (zlen p =? 0) && (zlen p >? max - zlen s) then _ else _) as [part| |] eqn:Ep; [|done|done]. cbn [run_bind].
  pose proof (tls_cut s p part max Ep) as Hcut.
  assert (Hall : zlen (s ++ part) <> max -> part = p) by (destruct Hcut as [|[_ ?]]; [done|lia]).
  assert (Hpre : s ++ part `prefix_of` s ++ p) by (destruct Hcut as [->|[? _]]; [done|by apply prefix_app]).
  destruct (zlen (s ++ part) <? tl_needBytes d).
  - destruct (Z.eqb_spec (zlen (s ++ part)) max) as [|Hn]; intros [= <- <-]; [done|]. by rewrite (Hall Hn).
  - destruct (parseTLSClientHello (s ++ part)) as [[n| |i]| |] eqn:Eh; cbn [run_bind]; [| | |done|done].
    + destruct ((n >? max) || (zlen (s ++ part) =? max)) eqn:Eb; intros [= <- <-]; [done|]. apply orb_false_iff in Eb as [_ Eb].
      by rewrite (Hall ltac:(lia)).
    + by intros [= <- <-].
    + destruct (matchClientHello (tl_config d) i) as [[]| |]; cbn [run_bind]; [| |done|done]; intros [= <- <-]; [|done].
      by exists (s ++ part).
Qed.

(** ** The selection with one classifier *)

Lemma select_one V s : select [V] [] s = NoMatch \/ select [V] [] s = 0.
Proof.
  generalize (@nil byte). induction s as [|b s IH]; intros seen; cbn [select first_match];
    (destruct (is_Match (V seen)); [by right|]); [by left|apply IH].
Qed.

Lemma select_misses V seen s k : select [V] seen s = NoMatch -> is_Match (V (seen ++ take k s)) = false.
Proof.
  revert seen k. induction s as [|b s IH]; intros seen k; cbn [select first_match];
    (destruct (is_Match (V seen)) eqn:E; [done|]); cbn [Z.eqb negb].
  - by rewrite take_nil, app_nil_r.
  - intros Hs. destruct k as [|k]; [by rewrite app_nil_r|]. specialize (IH _ k Hs). by rewrite <- app_assoc in IH.
Qed.

(** A prefix of a stream reaches a beginning of the stream or is one of it. *)
Lemma prefix_cases (u w r : list byte) : u `prefix_of` w ++ r -> zlen w <= zlen u -> exists q, u = w ++ q.
Proof.
  intros Hu Hl. destruct (prefix_weak_total w u (w ++ r)) as [[q ->]|Hp]; [by exists r|done|by exists q|].
  apply prefix_length in Hp as Hlen. exists []. rewrite app_nil_r. destruct Hp as [q ->]. rewrite zlen_app in Hl.
  pose proof (zlen_nonneg q). assert (Hz : zlen q = 0) by lia. apply zlen_zero in Hz as ->. by rewrite app_nil_r.
Qed.

(** The connection delivers [stream]: what is read is a beginning of it, and
    before the first [n] bytes are read every read returns something. *)
Definition delivers (c : conn Err K) (stream : list byte) (n : Z) : Prop :=
  forall u c1, consumes c u c1 -> u `prefix_of` stream /\
    (zlen u < n -> forall m c2 out e, 0 < m -> Read c1 m = (c2, out, e) -> out <> []).

Lemma tls_default_match cfg max i : normalizeTLSConfig (tls_limit max) = Done cfg -> matchClientHello cfg i = Done true.
Proof. unfold normalizeTLSConfig. destruct (_ <? 0); [done|]. by intros [= <-]. Qed.

Lemma tls_limit_max cfg max : 0 < max -> normalizeTLSConfig (tls_limit max) = Done cfg -> nt_maxClientHelloBytes cfg = max.
Proof.
  intros Hm. unfold normalizeTLSConfig. cbn [tls_limit tc_MaxClientHelloBytes]. destruct (_ <? 0); [done|]. intros [= <-]. cbn.
  by destruct (Z.eqb_spec max 0); [lia|].
Qed.

Section Hello.
Variables (ch : client_hello) (frags : list (Z * list byte)) (rest : list byte) (size : Z) (cfg : normalizedTLSConfig).
Hypothesis Hok : hello_ok ch.
Hypothesis Hf : Forall fragment_ok frags.
Hypothesis Hm : concat (map snd frags) = hello_message ch.
Hypothesis Hcfg : normalizeTLSConfig (tls_limit size) = Done cfg.
Hypothesis Hmax : nt_maxClientHelloBytes cfg = size.
Notation wire := (concat (map record_bytes frags)).
Hypothesis Hsize : zlen wire <= size.

Lemma wire_matches q : tls_verdict cfg (wire ++ q) = Match.
Proof.
  unfold tls_verdict. rewrite Hmax, take_app, take_ge by (unfold zlen in Hsize; lia). rewrite (parse_wire ch) by done.
  by rewrite (tls_default_match cfg size).
Qed.

Lemma wire_safe u k : u `prefix_of` wire ++ rest -> tls_ok cfg (take k u).
Proof.
  intros Hu. unfold tls_ok. eapply parse_not_panicked; [|by apply (parse_wire ch frags rest)].
  etrans; [apply prefix_take|]. etrans; [apply prefix_take|]. done.
Qed.

(** A call that read [used] saw the ClientHello. *)
Lemma wire_selected (c : conn Err K) idx err c' used :
  delivers c (wire ++ rest) (zlen wire) -> sniff_outcome size [tls_verdict cfg] c idx err c' used -> idx = 0 /\ err = None.
Proof.
  intros Hd [(c1 & c2 & empty & Hc & Hl & _ & Herr & Hno) Hb Hi].
  assert (Hne : idx <> NoMatch).
  { intros Hn. destruct (Hd used c1 Hc) as [Hu Hread]. symmetry in Hi. rewrite Hn in Hi.
    assert (Hshort : ~ zlen wire <= zlen used).
    { intros Hge. destruct (prefix_cases used wire rest Hu Hge) as [q Hq]. pose proof (select_misses _ _ _ (length used) Hi) as Hmiss.
      rewrite take_ge in Hmiss by lia. cbn [app] in Hmiss. by rewrite Hq, wire_matches in Hmiss. }
    assert (He : empty = true -> False).
    { intros ->. cbn in Hl. destruct Hl as (n & Hpos & Hr). by apply (Hread ltac:(lia) n c2 [] err Hpos Hr). }
    destruct err as [e|]; [by apply He, Herr|]. destruct (Hno Hn eq_refl) as [Hall|[Hsz|]]; [|lia|by apply He].
    destruct Hu as [q Hq]. specialize (Hall q). rewrite <- Hq in Hall. pose proof (select_misses _ _ _ (length (wire ++ rest)) Hall) as Hmiss.
    rewrite take_ge in Hmiss by lia. cbn [app] in Hmiss. by rewrite wire_matches in Hmiss. }
  split; [destruct (select_one (tls_verdict cfg) used); congruence|]. destruct err as [e|]; [|done]. by destruct (Herr ltac:(done)).
Qed.

(** The classifier that matched while the stream was read has its metadata. *)
Lemma wire_info (c : conn Err K) d u c1 k :
  delivers c (wire ++ rest) (zlen wire) -> consumes c u c1 -> tls_matched d (take k u) -> tl_info d = hello_info ch.
Proof.
  intros Hd Hc (t & Ht & Hp). destruct (Hd u c1 Hc) as [Hu _]. eapply (parse_same t (wire ++ rest)); [|done|by apply parse_wire].
  etrans; [exact Ht|]. etrans; [apply prefix_take|done].
Qed.

End Hello.

(** C12. Sniffing TLS inverts the encoding of a ClientHello.  For every valid
    ClientHello, cut into records in any way (also inside its header), that
    a connection delivers in reads of any size with any bytes after it,
    [SniffTLSClientHello] with a buffer for the records returns exactly its
    metadata: the offered versions, the host name in lower case, the presence
    of ECH and the ALPN protocols in their order.  All bytes that were read are
    the first bytes of the next read. *)
Theorem sniff_tls_roundtrip ch frags rest size (c : conn Err K) :
  hello_ok ch -> Forall fragment_ok frags -> concat (map snd frags) = hello_message ch ->
  zlen (concat (map record_bytes frags)) <= size -> reads_bounded (Err := Err) (K := K) -> conn_ok c ->
  delivers c (concat (map record_bytes frags) ++ rest) (zlen (concat (map record_bytes frags))) ->
  exists c' used c1, SniffTLSClientHello size c = Done (hello_info ch, true, None, c') /\ conn_ok c' /\
    consumes c used c1 /\ (used <> [] -> forall n, zlen used <= n -> exists c3 more, Read c' n = (c3, used ++ more, None)).
Proof.
  intros Hok Hf Hm Hsize Hrb Hcok Hd. set (wire := concat (map record_bytes frags)) in *.
  assert (Hpos : 0 < size).
  { destruct frags as [|f frags]; [done|]. unfold wire in Hsize. cbn [map concat] in Hsize. rewrite zlen_app, zlen_record in Hsize.
    pose proof (zlen_nonneg f.2). pose proof (zlen_nonneg (concat (map record_bytes frags))). lia. }
  unfold SniffTLSClientHello. destruct (normalizeTLSConfig (tls_limit size)) as [cfg| |] eqn:Hcfg.
  2,3: unfold normalizeTLSConfig in Hcfg; cbn [tls_limit tc_MaxClientHelloBytes] in Hcfg; by replace (size <? 0) with false in Hcfg by lia.
  cbn [run_bind]. pose proof (tls_limit_max cfg size Hpos Hcfg) as Hmax.
  destruct (sniff_implemented size c [newTLSClassifier cfg] [(tls_verdict cfg, tls_ok cfg)]) as (idx & err & c' & cs' & used & Hs & Hout & Hok' & Hnext);
    [lia|done|done| | |].
  { constructor; [|constructor]. cbn. apply tls_implements. lia. }
  { intros u c1 Hc k. constructor; [|constructor]. cbn. by apply (wire_safe ch frags rest cfg Hok Hf Hm), (Hd u c1 Hc). }
  destruct (wire_selected ch frags rest size cfg Hok Hf Hm Hcfg Hmax Hsize c idx err c' used Hd Hout) as [-> ->].
  rewrite Hs. cbn [run_bind Z.eqb negb]. destruct Hout as [(c1 & c2 & empty & Hc1 & _) _ _].
  destruct (sniff_matched tls_undecided tls_matched tls_tracks size c [newTLSClassifier cfg] 0 None c' cs') as [|(u & c3 & k & Hc & _ & d & Hd0 & HM)];
    [lia|by constructor|done|done|].
  rewrite Hd0. cbn [must run_bind]. rewrite (wire_info ch frags rest Hok Hf Hm c d u c3 k Hd Hc HM). exists c', used, c1. by split_and!.
Qed.

End TLSSniff.
