(* ===== verification/Sniffers.v ===== *)
(** The classifiers of the package as leaves of the combinators, the contract
    for all of them, and the panic of the TLS parser. *)

From S2P Require Import Prelude Classifier Combinators Protocols WellKnown HTTPSniff TLSHello CombinatorsSpec PrefixSpec ProtocolsSpec LinesSpec HTTPSpec TLSSpec TLSRoundtrip Putback Sniff TLSSniff.

Section Package.
Context `{TextLib}.

(** The classifier types of the package. *)
Inductive protocol : Type :=
| PPrefix (c : prefixClassifier)
| PBounded (c : protocolPrefixClassifier)
| PHeader (c : headerClassifier)
| PSocks5 (c : socks5Classifier)
| PDns (c : dnsOverTCPClassifier)
| PLine (c : boundedCRLFLineClassifier)
| PHttp (c : httpClassifier)
| PTls (c : tlsClassifier).

Definition lift {A} (f : A -> protocol) (r : run (A * State)) : run (protocol * State) :=
  let! x := r in Done (f x.1, x.2).

#[export] Instance protocol_Classifier : Classifier info protocol := {
  Feed c p := match c with
    | PPrefix c => lift PPrefix (Feed c p) | PBounded c => lift PBounded (Feed c p)
    | PHeader c => lift PHeader (Feed c p) | PSocks5 c => lift PSocks5 (Feed c p)
    | PDns c => lift PDns (Feed c p) | PLine c => lift PLine (Feed c p)
    | PHttp c => lift PHttp (Feed c p) | PTls c => lift PTls (Feed c p)
    end;
  MinSniffBufferSize c := match c with
    | PPrefix c => MinSniffBufferSize c | PBounded c => MinSniffBufferSize c
    | PHeader c => MinSniffBufferSize c | PSocks5 c => MinSniffBufferSize c
    | PDns c => MinSniffBufferSize c | PLine c => MinSniffBufferSize c
    | PHttp c => MinSniffBufferSize c | PTls c => MinSniffBufferSize c
    end;
  Metadata c := match c with
    | PPrefix c => Metadata c | PBounded c => Metadata c
    | PHeader c => Metadata c | PSocks5 c => Metadata c
    | PDns c => Metadata c | PLine c => Metadata c
    | PHttp c => Metadata c | PTls c => Metadata c
    end }.

Lemma implements_lift {A} `{Classifier info A} (f : A -> protocol) V ok (c : A) :
  (forall c p, Feed (f c) p = lift f (Feed c p)) -> (forall c, MinSniffBufferSize (f c) = MinSniffBufferSize c) ->
  implements V ok c -> implements V ok (f c).
Proof.
  intros Hf Hs [(R & HR & Hstep) H2 H3 H4]. split; [|done|by rewrite Hs|by rewrite Hs].
  exists (fun x s => exists c, x = f c /\ R c s). split; [by eexists|].
  intros ? s p (d & -> & Hd) Hok. destruct (Hstep d s p Hd Hok) as (d' & Hfd & Hd'). rewrite Hf, Hfd.
  exists (f d'). split; [done|]. by eexists.
Qed.

(** The leaves the public constructors of the package make. *)
Inductive supplied : protocol -> Prop :=
| sup_prefix want : supplied (PPrefix (Prefix want))
| sup_mqtt : supplied (PBounded MQTT)
| sup_redis : supplied (PBounded Redis)
| sup_stun c : STUN = Done c -> supplied (PBounded c)
| sup_rdp c : RDP = Done c -> supplied (PBounded c)
| sup_smb c : SMB = Done c -> supplied (PBounded c)
| sup_ldap c : LDAP = Done c -> supplied (PBounded c)
| sup_cassandra c : Cassandra = Done c -> supplied (PBounded c)
| sup_memcached_binary c : MemcachedBinary = Done c -> supplied (PBounded c)
| sup_postgresql : supplied (PHeader PostgreSQL)
| sup_mongodb : supplied (PHeader MongoDB)
| sup_proxy2 : supplied (PHeader ProxyProtocolV2)
| sup_socks4 : supplied (PHeader SOCKS4)
| sup_socks5 : supplied (PSocks5 SOCKS5)
| sup_dns max c : DNSOverTCPWithConfig max = Done c -> supplied (PDns c)
| sup_rtsp c : RTSP = Done c -> supplied (PLine c)
| sup_sip c : SIP = Done c -> supplied (PLine c)
| sup_memcached c : MemcachedASCII = Done c -> supplied (PLine c)
| sup_http config c : HTTPWithConfig config = Done c -> supplied (PHttp c)
| sup_tls config c : TLSWithConfig config = Done c -> supplied (PTls c).

(** The verdict of a fresh classifier. *)
Definition protocol_verdict (l : protocol) : verdict :=
  match l with
  | PPrefix c => prefix_verdict (pr_want c)
  | PBounded c => scan_verdict (pp_maxBytes c) (answer (pp_match c))
  | PHeader c => header_verdict (h_kind c)
  | PSocks5 _ => socks5_verdict
  | PDns c => dns_tcp_verdict (dt_maxMessageBytes c)
  | PLine c => line_verdict (bl_maxBytes c) (bl_valid c)
  | PHttp c => http_verdict (ht_config c)
  | PTls c => tls_verdict (tl_config c)
  end.

(** The streams a classifier is safe on: all of them, but for TLS. *)
Definition protocol_ok (l : protocol) (s : list byte) : Prop :=
  match l with PTls c => tls_ok (tl_config c) s | _ => True end.

Lemma bounded_implements n f :
  0 <= n -> total_upto f n ->
  implements (protocol_verdict (PBounded (MkProtocolPrefix [] n f NeedMore)))
    (protocol_ok (PBounded (MkProtocolPrefix [] n f NeedMore))) (PBounded (MkProtocolPrefix [] n f NeedMore)).
Proof. intros Hn Hf. apply (implements_lift PBounded); [done|done|]. by apply pp_implements. Qed.

Lemma line_leaf_implements n valid :
  0 <= n -> total_test valid ->
  implements (protocol_verdict (PLine (MkLine [] n valid NeedMore)))
    (protocol_ok (PLine (MkLine [] n valid NeedMore))) (PLine (MkLine [] n valid NeedMore)).
Proof. intros Hn Hv. apply (implements_lift PLine); [done|done|]. by apply line_implements. Qed.

Lemma header_leaf_implements k :
  implements (protocol_verdict (PHeader (fresh_header k))) (protocol_ok (PHeader (fresh_header k))) (PHeader (fresh_header k)).
Proof. apply (implements_lift PHeader); [done|done|]. apply header_implements. Qed.

Lemma supplied_implements l : supplied l -> implements (protocol_verdict l) (protocol_ok l) l.
Proof.
  intros Hl. destruct Hl as [want| | |c [= <-]|c [= <-]|c [= <-]|c [= <-]|c [= <-]|c [= <-]| | | | | |max c Hc|c [= <-]|c [= <-]|c [= <-]|config c Hc|config c Hc].
  - apply (implements_lift PPrefix); [done|done|]. apply prefix_implements.
  - apply bounded_implements; [done|apply matchMQTT_total].
  - apply bounded_implements; [done|apply matchRedis_total].
  - apply bounded_implements; [done|apply matchSTUN_total].
  - apply bounded_implements; [done|apply matchRDP_total].
  - apply bounded_implements; [done|apply matchSMB_total].
  - apply bounded_implements; [done|apply matchLDAP_total].
  - apply bounded_implements; [done|apply matchCassandra_total].
  - apply bounded_implements; [done|apply matchMemcachedBinary_total].
  - apply (header_leaf_implements postgresqlClassifier).
  - apply (header_leaf_implements mongoDBClassifier).
  - apply (header_leaf_implements proxyProtocolV2Classifier).
  - apply (header_leaf_implements socks4Classifier).
  - apply (implements_lift PSocks5); [done|done|]. apply socks5_implements.
  - unfold DNSOverTCPWithConfig, normalizeDNSOverTCPConfig in Hc. destruct (Z.ltb_spec max 0); [done|].
    destruct (max >? dnsOverTCPMaxMessageBytes); [done|]. injection Hc as <-.
    apply (implements_lift PDns); [done|done|]. apply dns_tcp_implements.
    destruct (Z.eqb_spec max 0); [done|lia].
  - apply line_leaf_implements; [done|apply request_line_total].
  - apply line_leaf_implements; [done|apply request_line_total].
  - apply line_leaf_implements; [done|apply memcached_line_total].
  - unfold HTTPWithConfig in Hc. destruct (normalizeHTTPConfig config) as [cfg| |] eqn:E; [|done|done]. injection Hc as <-.
    apply (implements_lift PHttp); [done|done|]. apply http_implements. by eapply normalizeHTTPConfig_ok.
  - unfold TLSWithConfig in Hc. destruct (normalizeTLSConfig config) as [cfg| |] eqn:E; [|done|done]. injection Hc as <-.
    apply (implements_lift PTls); [done|done|]. apply normalizeTLSConfig_ok in E. exact (tls_implements cfg E).
Qed.


(** ** Constructors that combine leaves *)

Definition AMQP : expr protocol :=
  EOr [ELeaf (PPrefix (Prefix amqp091Header)); ELeaf (PPrefix (Prefix amqp10Header)); ELeaf (PPrefix (Prefix amqp10SASLHeader))].
Definition ProxyProtocol : expr protocol := EOr [ELeaf (PPrefix ProxyProtocolV1); ELeaf (PHeader ProxyProtocolV2)].
Definition SOCKS : expr protocol := EOr [ELeaf (PHeader SOCKS4); ELeaf (PSocks5 SOCKS5)].
Definition Memcached : run (expr protocol) :=
  let! a := MemcachedBinary in let! b := MemcachedASCII in
  Done (EOr [ELeaf (PBounded a); ELeaf (PLine b)]).

(** ** The short ClientHello *)

(** One record with a ClientHello of 34 bytes: a version and 32 random bytes. *)
Definition short_hello (random : list byte) : list byte :=
  [x16; x03; x01; x00; x26; x01; x00; x00; x22; x03; x03] ++ random.

(** C38. The TLS classifier crashes on a short ClientHello: for every
    configuration that inspects at least 43 bytes and every 32 random bytes,
    feeding the 43 bytes of a record whose ClientHello ends after its random
    field is a panic, an index out of range: the length check before the
    session identifier admits a body of 34 bytes and the code then reads
    body[34]. *)
Theorem tls_short_hello_panics cfg random rest :
  length random = 32%nat -> 43 <= nt_maxClientHelloBytes cfg ->
  Feed (newTLSClassifier cfg) (short_hello random ++ rest) = Panicked.
Proof.
  intros Hr Hmax. cbn [Feed tls_Classifier]. unfold tls_Feed. cbn [newTLSClassifier tl_state tl_buf tl_config terminal].
  set (max := nt_maxClientHelloBytes cfg) in *. change (zlen (@nil byte)) with 0. rewrite Z.sub_0_r.
  replace (negb (zlen (short_hello random ++ rest) =? 0) && (max <=? 0)) with false by lia.
  set (s := short_hello random ++ rest).
  assert (Hlen : zlen s = 43 + zlen rest).
  { unfold s. rewrite zlen_app. unfold short_hello. rewrite zlen_app. unfold zlen. rewrite Hr. cbn [length]. lia. }
  pose proof (zlen_nonneg rest).
  assert (Hpart : exists q, (if negb (zlen s =? 0) && (zlen s >? max) then must (slice s 0 max) else Done s) = Done (short_hello random ++ q)).
  { destruct (negb (zlen s =? 0) && (zlen s >? max)) eqn:E; [|by exists rest].
    unfold slice. replace ((0 <=? 0) && (0 <=? max) && (max <=? zlen s)) with true by lia. cbn [must].
    exists (take (Z.to_nat max - 43) rest). unfold s. rewrite Z.sub_0_r, drop_0, take_app. f_equal.
    assert (Hl : length (short_hello random) = 43%nat) by (unfold short_hello; rewrite length_app, Hr; done). rewrite Hl.
    by rewrite take_ge by lia. }
  destruct Hpart as [q ->]. cbn [run_bind app tl_needBytes newTLSClassifier]. unfold tlsRecordHeaderBytes.
  assert (Hlq : zlen (short_hello random ++ q) = 43 + zlen q).
  { rewrite zlen_app. unfold short_hello. rewrite zlen_app. unfold zlen. rewrite Hr. cbn [length]. lia. }
  pose proof (zlen_nonneg q). replace (zlen (short_hello random ++ q) <? 5) with false by lia.
  assert (Hp : parseTLSClientHello (short_hello random) = Panicked).
  { do 32 (destruct random as [|? random]; [done|]). destruct random; [|done]. vm_compute. reflexivity. }
  pose proof (parse_extends (short_hello random) q) as He. rewrite Hp in He. cbn [extends_to] in He. by rewrite He.
Qed.

End Package.

(** ** Concrete inputs *)

(** ASCII lower case, and no URL parses. *)
Definition ascii_lower (b : byte) : byte := if (65 <=? bZ b) && (bZ b <=? 90) then byte_of_Z (bZ b + 32) else b.
Definition ascii_TextLib : TextLib := {| to_lower := map ascii_lower; url_Parse := fun _ => None |}.

(** A connection that delivers the chunks it was given, then end of file. *)
Definition script_read (k : list (list byte)) (n : Z) : list (list byte) * list byte * option unit :=
  match k with
  | [] => ([], [], Some tt)
  | chunk :: k' =>
      let rest := drop (Z.to_nat n) chunk in
      (match rest with [] => k' | _ => rest :: k' end, take (Z.to_nat n) chunk, None)
  end.

Definition script_NetConn : NetConn unit (list (list byte)) :=
  {| nc_Read := script_read; nc_PreClose k := (k, None); nc_PostClose k := None |}.

(** The script connection delivers the concatenation of its chunks. *)
Section Script.
#[local] Existing Instance script_NetConn.

Definition script_at (c : conn unit (list (list byte))) (rest : list byte) : Prop :=
  pb_extra c = [] /\ pb_deferredErr c = None /\ concat (pb_conn c) = rest /\ Forall (fun chunk => chunk <> []) (pb_conn c).

Lemma script_Read c rest n c' out e :
  script_at c rest -> 0 < n -> Read c n = (c', out, e) ->
  (rest <> [] -> out <> []) /\ exists rest', rest = out ++ rest' /\ (out <> [] -> script_at c' rest').
Proof.
  intros (Hx & Hdf & Hr & Hne) Hn. unfold Read. rewrite Hx, Hdf. destruct (Z.eqb_spec n 0); [lia|]. cbn [zlen length negb Z.of_nat Z.eqb].
  cbn [nc_Read script_NetConn]. destruct (pb_conn c) as [|chunk k] eqn:Ek; cbn [script_read].
  - cbn in Hr |- *. intros [= <- <- <-]. subst rest. split; [done|]. by exists [].
  - apply Forall_cons in Hne as [Hc Hk]. intros [= <- <- <-]. subst rest. cbn [concat].
    assert (Hout : take (Z.to_nat n) chunk <> []) by (destruct chunk; [done|]; destruct (Z.to_nat n) eqn:E; [lia|done]).
    split; [done|]. exists (drop (Z.to_nat n) chunk ++ concat k). rewrite app_assoc, take_drop. split; [done|]. intros _. unfold script_at. cbn.
    destruct (drop (Z.to_nat n) chunk) as [|b l] eqn:Ed; cbn; split_and!; try done. by constructor.
Qed.

Lemma script_consumes c u c1 : consumes c u c1 -> forall rest, script_at c rest -> exists rest', rest = u ++ rest' /\ script_at c1 rest'.
Proof.
  induction 1 as [c|c n c1 out e u c2 Hn Hout Hr _ IH]; intros rest Hs; [by exists rest|].
  destruct (script_Read c rest n c1 out e Hs Hn Hr) as (_ & rest1 & -> & Hs1). destruct (IH rest1 (Hs1 Hout)) as (rest2 & -> & Hs2).
  exists rest2. by rewrite app_assoc.
Qed.

Lemma script_delivers chunks n :
  Forall (fun chunk => chunk <> []) chunks -> n <= zlen (concat chunks) -> delivers (New chunks) (concat chunks) n.
Proof.
  intros Hne Hn u c1 Hc. destruct (script_consumes _ _ _ Hc (concat chunks)) as (rest & Hrest & Hs); [by split_and!|].
  split; [by exists rest|]. intros Hu m c2 out e Hm Hr. apply (script_Read _ _ _ _ _ _ Hs Hm Hr). intros ->. rewrite app_nil_r in Hrest.
  rewrite <- Hrest in Hu. lia.
Qed.

Lemma script_bounded : reads_bounded (Err := unit) (K := list (list byte)).
Proof. intros [|chunk k] n k' out e Hn; cbn; intros [= <- <- <-]; unfold zlen; [cbn|rewrite length_take]; lia. Qed.

End Script.



Definition example_specs : list (verdict * (list byte -> Prop)) :=
  [(prefix_verdict (lit "SSH-"), fun _ => True); (socks5_verdict, fun _ => True)].

(** SSH and SOCKS5 on a banner that comes in two reads. *)
Lemma sniff_selects_witness :
  let T := ascii_TextLib in let N := script_NetConn in
  exists idx err c' cs' used,
    Sniff 32 (New [lit "SSH"; lit "-2.0"]) [PPrefix SSH; PSocks5 SOCKS5] = Done (idx, err, c', cs') /\
    sniff_outcome 32 (map fst example_specs) (New [lit "SSH"; lit "-2.0"]) idx err c' used /\ conn_ok c'.
Proof.
  intros T N.
  destruct (sniff_selects 32 (New [lit "SSH"; lit "-2.0"]) [PPrefix SSH; PSocks5 SOCKS5] example_specs)
    as (idx & err & c' & cs' & used & H1 & H2 & H3 & _).
  - lia.
  - apply script_bounded.
  - apply New_conn_ok.
  - constructor; [|constructor; [|constructor]]; [apply (supplied_implements (PPrefix SSH))|apply (supplied_implements (PSocks5 SOCKS5))]; constructor.
  - intros u c1 _ k. repeat constructor.
  - exists idx, err, c', cs', used. split; [exact H1|]. split; [exact H2|exact H3].
Defined.

Definition example_hello : list byte := short_hello (repeat x00 32).

Lemma tls_short_hello_panics_witness :
  let T := ascii_TextLib in
  exists c, TLS = Done c /\ Feed c (example_hello ++ []) = Panicked.
Proof.
  intros T. eexists. split; [reflexivity|].
  apply (tls_short_hello_panics _ (repeat x00 32) []); [reflexivity|vm_compute; discriminate].
Defined.

Definition example_client : client_hello :=
  MkClientHello 771 (repeat x2a 32) [] [4865; 49199] [x00]
    [ServerName (lit "Example.ORG"); OtherExtension 10 (lit "x"); ProtocolNames [lit "h2"; lit "http/1.1"]; SupportedVersions [772; 771]].

(** Its message in three records, the first of three bytes. *)
Definition example_frags : list (Z * list byte) :=
  let m := hello_message example_client in [(769, take 3 m); (769, take 40 (drop 3 m)); (771, drop 43 m)].

Definition example_wire : list byte := concat (map record_bytes example_frags).

Lemma sniff_tls_roundtrip_witness :
  let T := ascii_TextLib in let N := script_NetConn in
  hello_info example_client = MkHelloInfo [772; 771] (lit "example.org") false [lit "h2"; lit "http/1.1"] /\
  exists c', SniffTLSClientHello 512 (New [take 7 example_wire; drop 7 example_wire ++ lit "more"]) =
    Done (hello_info example_client, true, None, c').
Proof.
  intros T N. split; [vm_compute; reflexivity|].
  destruct (sniff_tls_roundtrip example_client example_frags (lit "more") 512 (New [take 7 example_wire; drop 7 example_wire ++ lit "more"]))
    as (c' & used & c1 & Hs & _).
  - split; apply (bool_decide_unpack _); vm_compute; exact I.
  - repeat (apply Forall_cons; split); [| | |constructor]; apply (bool_decide_unpack _); vm_compute; exact I.
  - apply (bool_decide_unpack _). vm_compute. exact I.
  - apply (bool_decide_unpack _). vm_compute. exact I.
  - apply script_bounded.
  - apply New_conn_ok.
  - apply (script_delivers [take 7 example_wire; drop 7 example_wire ++ lit "more"] (zlen (concat (map record_bytes example_frags)))).
    + apply (bool_decide_unpack _). vm_compute. exact I.
    + apply (bool_decide_unpack _). vm_compute. exact I.
  - exists c'. exact Hs.
Defined.
