(* ===== verification/Joiner.v ===== *)
(** * The joiner of tunnel devices

    Models src/tun/joiner_flow.go and src/tun/joiner.go: the parser of packets
    and the keys of flows and fragments; the table of dynamic routes, a doubly
    linked list of records in the order of their last use with a list of free
    records and two maps into it; the attached devices and the address routes;
    and the critical sections of the operations.

    Pointers are numbers: records of routes live in a store, and a nil pointer
    is [None], whose use is a panic.  A nil map is [None]: reading it finds
    nothing, storing into it is a panic.  Instants are integers, in
    nanoseconds.  The devices are parameters. *)

From S2P Require Import Prelude.

Definition joinerProtocolICMPv4 : Z := 1.
Definition joinerProtocolTCP : Z := 6.
Definition joinerProtocolUDP : Z := 17.
Definition joinerProtocolICMPv6 : Z := 58.

(** ** Keys *)

Record joinerFlowKey : Type := MkFlowKey {
  fk_source : list byte; fk_destination : list byte;
  fk_sourcePort : Z; fk_destPort : Z; fk_identifier : Z;
  fk_version : Z; fk_protocol : Z; fk_subtype : Z }.

#[global] Instance joinerFlowKey_eq_dec : EqDecision joinerFlowKey.
Proof. solve_decision. Defined.

#[global] Instance joinerFlowKey_countable : Countable joinerFlowKey.
Proof.
  refine (inj_countable' (fun k => (fk_source k, fk_destination k, fk_sourcePort k, fk_destPort k, fk_identifier k, fk_version k, fk_protocol k, fk_subtype k))
    (fun p => let '(s, d, sp, dp, i, v, q, t) := p in MkFlowKey s d sp dp i v q t) _). by intros [].
Defined.

Record joinerFragmentKey : Type := MkFragmentKey {
  gk_source : list byte; gk_destination : list byte; gk_id : Z; gk_version : Z; gk_protocol : Z }.

#[global] Instance joinerFragmentKey_eq_dec : EqDecision joinerFragmentKey.
Proof. solve_decision. Defined.

#[global] Instance joinerFragmentKey_countable : Countable joinerFragmentKey.
Proof.
  refine (inj_countable' (fun k => (gk_source k, gk_destination k, gk_id k, gk_version k, gk_protocol k))
    (fun p => let '(s, d, i, v, q) := p in MkFragmentKey s d i v q) _). by intros [].
Defined.

Record joinerPacket : Type := MkPacket {
  jp_data : list byte;
  jp_source : list byte;
  jp_destination : list byte;
  jp_fragmentID : Z;
  jp_transportOffset : Z;
  jp_version : Z;
  jp_protocol : Z;
  jp_fragmentProtocol : Z;
  jp_fragmentOffset : Z;
  jp_moreFragments : bool;
  jp_fragmented : bool }.

(** [joinerPacket{}] *)
Definition zero_address : list byte := repeat x00 16.
Definition zero_packet : joinerPacket := MkPacket [] zero_address zero_address 0 0 0 0 0 0 false false.

(** ** The parser *)

Definition parseJoinerIPv4Packet (data : list byte) : run (option joinerPacket) :=
  if zlen data <? 20 then Done None
  else
    let! b0 := must (index data 0) in
    let headerLength := Z.land (bZ b0) 15 * 4 in
    if (headerLength <? 20) || (headerLength >? zlen data) then Done None
    else
      let! totalLength := must (be16 data 2) in
      if negb (totalLength =? 0) && (totalLength <? headerLength) then Done None
      else
        let! data := (if (totalLength >=? headerLength) && (totalLength <? zlen data)
                      then must (slice data 0 totalLength) else Done data) in
        let! id := must (be16 data 4) in
        let! protocol := must (index data 9) in
        let! source := must (slice data 12 16) in
        let! destination := must (slice data 16 20) in
        let! fragment := must (be16 data 6) in
        let fragmentOffset := Z.land fragment 8191 in
        let moreFragments := negb (Z.land fragment 8192 =? 0) in
        Done (Some (MkPacket data (source ++ repeat x00 12) (destination ++ repeat x00 12) id headerLength 4
          (bZ protocol) (bZ protocol) fragmentOffset moreFragments (negb (fragmentOffset =? 0) || moreFragments))).

(** The loop over the extension headers, at most 16 of them. *)
Fixpoint ipv6_extensions (fuel : nat) (data : list byte) (packet : joinerPacket) (nextHeader : Z) : run (option joinerPacket) :=
  let skip (packet : joinerPacket) (headerLength : Z) (f : joinerPacket -> Z -> run (option joinerPacket)) :=
    let offset := jp_transportOffset packet in
    if offset + headerLength >? zlen data then Done None
    else
      let! next := must (index data offset) in
      f (MkPacket (jp_data packet) (jp_source packet) (jp_destination packet) (jp_fragmentID packet) (offset + headerLength)
           (jp_version packet) (jp_protocol packet) (jp_fragmentProtocol packet) (jp_fragmentOffset packet)
           (jp_moreFragments packet) (jp_fragmented packet)) (bZ next) in
  match fuel with
  | O => Done None
  | S fuel' =>
      let offset := jp_transportOffset packet in
      if (nextHeader =? 0) || (nextHeader =? 43) || (nextHeader =? 60) then
        if offset + 2 >? zlen data then Done None
        else
          let! n := must (index data (offset + 1)) in
          skip packet ((bZ n + 1) * 8) (ipv6_extensions fuel' data)
      else if nextHeader =? 44 then
        if offset + 8 >? zlen data then Done None
        else
          let! fragmentNext := must (index data offset) in
          let! fragment := must (be16 data (offset + 2)) in
          let! id := must (be32 data (offset + 4)) in
          let fragmentOffset := Z.shiftr (Z.land fragment 65528) 3 in
          let packet' protocol := MkPacket (jp_data packet) (jp_source packet) (jp_destination packet) id (offset + 8)
            (jp_version packet) protocol (bZ fragmentNext) fragmentOffset (negb (Z.land fragment 1 =? 0)) true in
          if negb (fragmentOffset =? 0) then Done (Some (packet' (bZ fragmentNext)))
          else ipv6_extensions fuel' data (packet' (jp_protocol packet)) (bZ fragmentNext)
      else if nextHeader =? 51 then
        if offset + 2 >? zlen data then Done None
        else
          let! n := must (index data (offset + 1)) in
          skip packet ((bZ n + 2) * 4) (ipv6_extensions fuel' data)
      else
        Done (Some (MkPacket (jp_data packet) (jp_source packet) (jp_destination packet) (jp_fragmentID packet) offset
          (jp_version packet) nextHeader (if jp_fragmented packet then jp_fragmentProtocol packet else nextHeader)
          (jp_fragmentOffset packet) (jp_moreFragments packet) (jp_fragmented packet)))
  end.

Definition parseJoinerIPv6Packet (data : list byte) : run (option joinerPacket) :=
  if zlen data <? 40 then Done None
  else
    let! payloadLength := must (be16 data 4) in
    let! data := (if negb (payloadLength =? 0) && (40 + payloadLength <? zlen data)
                  then must (slice data 0 (40 + payloadLength)) else Done data) in
    let! source := must (slice data 8 24) in
    let! destination := must (slice data 24 40) in
    let! nextHeader := must (index data 6) in
    ipv6_extensions 16 data (MkPacket data source destination 0 40 6 0 0 0 false false) (bZ nextHeader).

Definition parseJoinerPacket (buf : list byte) (offset : Z) : run (option joinerPacket) :=
  if (offset <? 0) || (offset >=? zlen buf) then Done None
  else
    let! data := must (slice buf offset (zlen buf)) in
    let! b0 := must (index data 0) in
    let version := Z.shiftr (bZ b0) 4 in
    if version =? 4 then parseJoinerIPv4Packet data
    else if version =? 6 then parseJoinerIPv6Packet data
    else Done None.

(** ** The keys of a packet *)

Definition fragmentKey (packet : joinerPacket) : joinerFragmentKey :=
  MkFragmentKey (jp_source packet) (jp_destination packet) (jp_fragmentID packet) (jp_version packet) (jp_fragmentProtocol packet).

Definition joinerICMPEchoPeerType (protocol typeValue : Z) : option Z :=
  if (protocol =? joinerProtocolICMPv4) && (typeValue =? 8) then Some 0
  else if (protocol =? joinerProtocolICMPv4) && (typeValue =? 0) then Some 8
  else if (protocol =? joinerProtocolICMPv6) && (typeValue =? 128) then Some 129
  else if (protocol =? joinerProtocolICMPv6) && (typeValue =? 129) then Some 128
  else None.

Definition joinerICMPErrorType (protocol typeValue : Z) : bool :=
  if protocol =? joinerProtocolICMPv6 then typeValue <? 128
  else if negb (protocol =? joinerProtocolICMPv4) then false
  else existsb (Z.eqb typeValue) [3; 4; 5; 11; 12].

Definition joinerDirectFlowKey (packet : joinerPacket) : run (option joinerFlowKey) :=
  let offset := jp_transportOffset packet in
  let protocol := jp_protocol packet in
  let data := jp_data packet in
  if negb (jp_fragmentOffset packet =? 0) || (offset <? 0) then Done None
  else if (protocol =? joinerProtocolTCP) || (protocol =? joinerProtocolUDP) then
    if offset + 4 >? zlen data then Done None
    else
      let! sourcePort := must (be16 data offset) in
      let! destPort := must (be16 data (offset + 2)) in
      Done (Some (MkFlowKey (jp_source packet) (jp_destination packet) sourcePort destPort 0 (jp_version packet) protocol 0))
  else if (protocol =? joinerProtocolICMPv4) || (protocol =? joinerProtocolICMPv6) then
    if offset + 8 >? zlen data then Done None
    else
      let! typeValue := must (index data offset) in
      match joinerICMPEchoPeerType protocol (bZ typeValue) with
      | None => Done None
      | Some _ =>
          let! identifier := must (be16 data (offset + 4)) in
          Done (Some (MkFlowKey (jp_source packet) (jp_destination packet) 0 0 identifier (jp_version packet) protocol (bZ typeValue)))
      end
  else Done None.

(** The key with the ends exchanged and the type of the answer. *)
Definition reverse_key (key : joinerFlowKey) : joinerFlowKey :=
  MkFlowKey (fk_destination key) (fk_source key) (fk_destPort key) (fk_sourcePort key) (fk_identifier key) (fk_version key)
    (fk_protocol key)
    (match joinerICMPEchoPeerType (fk_protocol key) (fk_subtype key) with Some peerType => peerType | None => fk_subtype key end).

Definition joinerReverseFlowKey (packet : joinerPacket) : run (option joinerFlowKey) :=
  let! key := joinerDirectFlowKey packet in
  Done (reverse_key <$> key).

Definition joinerInboundFlowKey (packet : joinerPacket) : run (option joinerFlowKey) :=
  let! direct := joinerDirectFlowKey packet in
  match direct with
  | Some key => Done (Some key)
  | None =>
      let offset := jp_transportOffset packet in
      let data := jp_data packet in
      if negb (jp_protocol packet =? joinerProtocolICMPv4) && negb (jp_protocol packet =? joinerProtocolICMPv6) then Done None
      else if (offset <? 0) || (offset + 8 >? zlen data) then Done None
      else
        let! typeValue := must (index data offset) in
        if negb (joinerICMPErrorType (jp_protocol packet) (bZ typeValue)) then Done None
        else
          let! rest := must (slice data (offset + 8) (zlen data)) in
          let! quoted := parseJoinerPacket rest 0 in
          match quoted with
          | None => Done None
          | Some quoted => joinerReverseFlowKey quoted
          end
  end.

(** ** Dynamic routes *)

Definition DefaultJoinerFlowTimeout : Z := 120000000000.
Definition DefaultJoinerMaxFlowEntries : Z := 65536.

Inductive joinerDynamicRouteKind : Type := joinerDynamicFlow | joinerDynamicFragment.

(** A pointer to a route, and one to a nested device. *)
Notation ptr := nat (only parsing).
Notation nested := nat (only parsing).

Record joinerDynamicRoute : Type := MkRoute {
  dr_owner : option nested;
  dr_expires : Z;
  dr_kind : joinerDynamicRouteKind;
  dr_flowKey : joinerFlowKey;
  dr_fragmentKey : joinerFragmentKey;
  dr_previous : option ptr;
  dr_next : option ptr }.

Definition zero_flowKey : joinerFlowKey := MkFlowKey zero_address zero_address 0 0 0 0 0 0.
Definition zero_fragmentKey : joinerFragmentKey := MkFragmentKey zero_address zero_address 0 0 0.

Notation store := (gmap nat joinerDynamicRoute) (only parsing).

(** The fields of [Joiner] for dynamic routes, with two counters of
    [JoinerRoutingStats]. *)
Record dynamicRoutes : Type := MkDynamic {
  dy_timeout : Z;
  dy_limit : Z;
  dy_store : store;
  dy_flows : option (gmap joinerFlowKey nat);
  dy_fragments : option (gmap joinerFragmentKey nat);
  dy_head : option ptr;
  dy_tail : option ptr;
  dy_free : option ptr;
  dy_size : Z;
  dy_expired : Z;
  dy_evicted : Z }.

(** Assignments to fields. *)
Definition set_links (d : dynamicRoutes) (h : store) (head tail : option ptr) : dynamicRoutes :=
  MkDynamic (dy_timeout d) (dy_limit d) h (dy_flows d) (dy_fragments d) head tail (dy_free d) (dy_size d) (dy_expired d) (dy_evicted d).
Definition set_flows (d : dynamicRoutes) m : dynamicRoutes :=
  MkDynamic (dy_timeout d) (dy_limit d) (dy_store d) m (dy_fragments d) (dy_head d) (dy_tail d) (dy_free d) (dy_size d) (dy_expired d) (dy_evicted d).
Definition set_fragments (d : dynamicRoutes) m : dynamicRoutes :=
  MkDynamic (dy_timeout d) (dy_limit d) (dy_store d) (dy_flows d) m (dy_head d) (dy_tail d) (dy_free d) (dy_size d) (dy_expired d) (dy_evicted d).
Definition set_free (d : dynamicRoutes) (h : store) (free : option ptr) (size : Z) : dynamicRoutes :=
  MkDynamic (dy_timeout d) (dy_limit d) h (dy_flows d) (dy_fragments d) (dy_head d) (dy_tail d) free size (dy_expired d) (dy_evicted d).
Definition count_expired (d : dynamicRoutes) : dynamicRoutes :=
  MkDynamic (dy_timeout d) (dy_limit d) (dy_store d) (dy_flows d) (dy_fragments d) (dy_head d) (dy_tail d) (dy_free d) (dy_size d)
    (dy_expired d + 1) (dy_evicted d).
Definition count_evicted (d : dynamicRoutes) : dynamicRoutes :=
  MkDynamic (dy_timeout d) (dy_limit d) (dy_store d) (dy_flows d) (dy_fragments d) (dy_head d) (dy_tail d) (dy_free d) (dy_size d)
    (dy_expired d) (dy_evicted d + 1).

Definition with_next (r : joinerDynamicRoute) (v : option ptr) : joinerDynamicRoute :=
  MkRoute (dr_owner r) (dr_expires r) (dr_kind r) (dr_flowKey r) (dr_fragmentKey r) (dr_previous r) v.
Definition with_previous (r : joinerDynamicRoute) (v : option ptr) : joinerDynamicRoute :=
  MkRoute (dr_owner r) (dr_expires r) (dr_kind r) (dr_flowKey r) (dr_fragmentKey r) v (dr_next r).
Definition with_expires (r : joinerDynamicRoute) (v : Z) : joinerDynamicRoute :=
  MkRoute (dr_owner r) v (dr_kind r) (dr_flowKey r) (dr_fragmentKey r) (dr_previous r) (dr_next r).
Definition with_owner (r : joinerDynamicRoute) (v : option nested) : joinerDynamicRoute :=
  MkRoute v (dr_expires r) (dr_kind r) (dr_flowKey r) (dr_fragmentKey r) (dr_previous r) (dr_next r).

(** [*p], and [p.field = v] through a function of the record. *)
Definition deref (h : store) (p : option ptr) : run joinerDynamicRoute :=
  match p with None => Panicked | Some p => must (h !! p) end.
Definition assign (h : store) (p : option ptr) (f : joinerDynamicRoute -> joinerDynamicRoute) : run store :=
  match p with None => Panicked | Some q => let! r := must (h !! q) in Done (<[q := f r]> h) end.

(** [if p == nil { head = v } else { p.next = v }], for a head and a tail. *)
Definition link_next (h : store) (p : option ptr) (v head : option ptr) : run (store * option ptr) :=
  match p with
  | None => Done (h, v)
  | Some _ => let! h := assign h p (fun r => with_next r v) in Done (h, head)
  end.
Definition link_previous (h : store) (p : option ptr) (v tail : option ptr) : run (store * option ptr) :=
  match p with
  | None => Done (h, v)
  | Some _ => let! h := assign h p (fun r => with_previous r v) in Done (h, tail)
  end.

Definition touchDynamicRouteLocked (d : dynamicRoutes) (route : ptr) (now : Z) : run dynamicRoutes :=
  let! h := assign (dy_store d) (Some route) (fun r => with_expires r (now + dy_timeout d)) in
  if bool_decide (Some route = dy_tail d) then Done (set_links d h (dy_head d) (dy_tail d))
  else
    let! r := deref h (Some route) in
    let! hh := link_next h (dr_previous r) (dr_next r) (dy_head d) in
    let! ht := link_previous hh.1 (dr_next r) (dr_previous r) (dy_tail d) in
    let! h := assign ht.1 (Some route) (fun r => with_next (with_previous r (dy_tail d)) None) in
    let! h := assign h (dy_tail d) (fun r => with_next r (Some route)) in
    Done (set_links d h hh.2 (Some route)).

(** [delete(m, key)] *)
Definition delete_key {K} `{Countable K} (m : option (gmap K nat)) (key : K) : option (gmap K nat) :=
  match m with None => None | Some m => Some (delete key m) end.
(** [m[key] = p] and [m[key]] *)
Definition store_key {K A} `{Countable K} (m : option (gmap K A)) (key : K) (a : A) : run (option (gmap K A)) :=
  match m with None => Panicked | Some m => Done (Some (<[key := a]> m)) end.
Definition find_key {K A} `{Countable K} (m : option (gmap K A)) (key : K) : option A :=
  match m with None => None | Some m => m !! key end.

Definition removeDynamicRouteLocked (d : dynamicRoutes) (route : ptr) : run dynamicRoutes :=
  let! r := deref (dy_store d) (Some route) in
  let d := match dr_kind r with
           | joinerDynamicFlow => set_flows d (delete_key (dy_flows d) (dr_flowKey r))
           | joinerDynamicFragment => set_fragments d (delete_key (dy_fragments d) (dr_fragmentKey r))
           end in
  let! hh := link_next (dy_store d) (dr_previous r) (dr_next r) (dy_head d) in
  let! ht := link_previous hh.1 (dr_next r) (dr_previous r) (dy_tail d) in
  let d := set_links d ht.1 hh.2 ht.2 in
  let! h := assign (dy_store d) (Some route)
              (fun _ => MkRoute None 0 joinerDynamicFlow zero_flowKey zero_fragmentKey None (dy_free d)) in
  Done (set_free d h (Some route) (dy_size d - 1)).

(** The loop that makes room; every round removes a route. *)
Fixpoint evict (fuel : nat) (d : dynamicRoutes) : run dynamicRoutes :=
  match fuel with
  | O => OutOfFuel
  | S fuel' =>
      match dy_head d with
      | Some head =>
          if dy_size d >=? dy_limit d then
            let! d := removeDynamicRouteLocked d head in evict fuel' (count_evicted d)
          else Done d
      | None => Done d
      end
  end.

(** A fresh record, or one of the free list. *)
Definition newDynamicRouteLocked (d : dynamicRoutes) : run (dynamicRoutes * ptr) :=
  let! d := evict (S (size (dy_store d))) d in
  match dy_free d with
  | None => let p := fresh (dom (dy_store d)) in
      Done (set_free d (<[p := MkRoute None 0 joinerDynamicFlow zero_flowKey zero_fragmentKey None None]> (dy_store d)) None (dy_size d), p)
  | Some p => let! r := deref (dy_store d) (Some p) in Done (set_free d (dy_store d) (dr_next r) (dy_size d), p)
  end.

Definition addDynamicRouteLocked (d : dynamicRoutes) (route : ptr) : run dynamicRoutes :=
  match dy_tail d with
  | None => Done (set_free (set_links d (dy_store d) (Some route) (Some route)) (dy_store d) (dy_free d) (dy_size d + 1))
  | Some _ =>
      let! h := assign (dy_store d) (dy_tail d) (fun r => with_next r (Some route)) in
      let! h := assign h (Some route) (fun r => with_previous r (dy_tail d)) in
      Done (set_free (set_links d h (dy_head d) (Some route)) h (dy_free d) (dy_size d + 1))
  end.

(** [*route = joinerDynamicRoute{...}], then into the list. *)
Definition add_route (d : dynamicRoutes) (content : joinerDynamicRoute) : run (dynamicRoutes * ptr) :=
  let! dp := newDynamicRouteLocked d in
  let! h := assign (dy_store dp.1) (Some dp.2) (fun _ => content) in
  let! d := addDynamicRouteLocked (set_links dp.1 h (dy_head dp.1) (dy_tail dp.1)) dp.2 in
  Done (d, dp.2).

Fixpoint expire (fuel : nat) (d : dynamicRoutes) (now : Z) : run dynamicRoutes :=
  match fuel with
  | O => OutOfFuel
  | S fuel' =>
      match dy_head d with
      | None => Done d
      | Some route =>
          let! r := deref (dy_store d) (Some route) in
          if now <? dr_expires r then Done d
          else let! d := removeDynamicRouteLocked d route in expire fuel' (count_expired d) now
      end
  end.

Definition expireDynamicRoutesLocked (d : dynamicRoutes) (now : Z) : run dynamicRoutes :=
  expire (S (size (dy_store d))) d now.

Fixpoint remove_owner (fuel : nat) (d : dynamicRoutes) (route : option ptr) (owner : nested) : run dynamicRoutes :=
  match fuel with
  | O => OutOfFuel
  | S fuel' =>
      match route with
      | None => Done d
      | Some p =>
          let! r := deref (dy_store d) (Some p) in
          let! d := (if bool_decide (dr_owner r = Some owner) then removeDynamicRouteLocked d p else Done d) in
          remove_owner fuel' d (dr_next r) owner
      end
  end.

Definition removeDynamicRoutesForOwnerLocked (d : dynamicRoutes) (owner : nested) : run dynamicRoutes :=
  remove_owner (S (size (dy_store d))) d (dy_head d) owner.

(** [clearDynamicRoutesLocked]; the records are left to the collector. *)
Definition clearDynamicRoutesLocked (d : dynamicRoutes) : dynamicRoutes :=
  MkDynamic (dy_timeout d) (dy_limit d) (dy_store d) None None None None None 0 (dy_expired d) (dy_evicted d).

(** [rememberFlowLocked]: the table, and whether the key belongs to another
    device. *)
Definition rememberFlowLocked (d : dynamicRoutes) (key : joinerFlowKey) (owner : nested) (now : Z) : run (dynamicRoutes * bool) :=
  match find_key (dy_flows d) key with
  | Some route =>
      let! r := deref (dy_store d) (Some route) in
      if negb (bool_decide (dr_owner r = Some owner)) then Done (d, true)
      else let! d := touchDynamicRouteLocked d route now in Done (d, false)
  | None =>
      let! dp := add_route d (MkRoute (Some owner) (now + dy_timeout d) joinerDynamicFlow key zero_fragmentKey None None) in
      let! flows := store_key (dy_flows dp.1) key dp.2 in
      Done (set_flows dp.1 flows, false)
  end.

Definition rememberInboundFragmentLocked (d : dynamicRoutes) (packet : joinerPacket) (owner : option nested) (now : Z) : run dynamicRoutes :=
  if bool_decide (owner = None) || negb (jp_fragmented packet) || negb (jp_fragmentOffset packet =? 0) || negb (jp_moreFragments packet)
  then Done d
  else
    let key := fragmentKey packet in
    match find_key (dy_fragments d) key with
    | Some route =>
        let! h := assign (dy_store d) (Some route) (fun r => with_owner r owner) in
        touchDynamicRouteLocked (set_links d h (dy_head d) (dy_tail d)) route now
    | None =>
        let! dp := add_route d (MkRoute owner (now + dy_timeout d) joinerDynamicFragment zero_flowKey key None None) in
        let! fragments := store_key (dy_fragments dp.1) key dp.2 in
        Done (set_fragments dp.1 fragments)
    end.

(** ** The joiner *)

Definition joinerOffset : Z := 256.
Definition joinerDefaultMTU : Z := 1500.
Definition joinerDefaultBatch : Z := 256.

Inductive joinerError : Type :=
| ErrJoinerClosed | ErrJoinerSmallOffset | ErrJoinerDuplicateTun | ErrJoinerNilTun | ErrShortBuffer | ErrInvalidOffset
| ErrNoProgress | ErrTunDown | ErrTunTerminated | ErrTunOther.

Inductive Event : Type := EventMTUUpdate | EventUp | EventDown.

(** A device is a number; a nil interface is [None]. *)
Notation tun := nat (only parsing).

Record joinerNested : Type := MkNested { jn_t : tun; jn_up : bool; jn_closed : bool }.

Record joinerPending : Type := MkPending { pe_packet : list byte; pe_owner : option nested }.

(** The counters of routing; [ActiveFlows] and [ActiveFragments] are computed
    by [RoutingStats], and two counters belong to the table.  Counters are not
    wrapped at 64 bits. *)
Record JoinerRoutingStats : Type := MkStats {
  st_FlowRoutes : Z; st_FragmentRoutes : Z; st_AddressFallbacks : Z; st_DefaultFallbacks : Z; st_DroppedFallbacks : Z; st_FlowCollisions : Z }.

(** The attached devices and the address routes. *)
Record attachments : Type := MkAttached {
  at_default : option nested;
  at_secondaries : option (gmap tun nested);
  at_nested : option (gmap tun nested);
  at_routes4 : option (gmap Z nested);
  at_routes6 : option (gmap (list byte) nested) }.

(** [j_objects] holds the [joinerNested] records that were allocated, also the
    detached ones; [j_events] is what the channel buffers. *)
Record Joiner : Type := MkJoiner {
  j_closed : bool;
  j_done : bool;
  j_events : list Event;
  j_eventClosed : bool;
  j_pending : list joinerPending;
  j_pendingHead : Z;
  j_attached : attachments;
  j_flowRouting : bool;
  j_dynamic : dynamicRoutes;
  j_stats : JoinerRoutingStats;
  j_mtu : Z;
  j_batch : Z;
  j_objects : gmap nat joinerNested }.

Definition set_dynamic (j : Joiner) (d : dynamicRoutes) : Joiner :=
  MkJoiner (j_closed j) (j_done j) (j_events j) (j_eventClosed j) (j_pending j) (j_pendingHead j) (j_attached j) (j_flowRouting j) d
    (j_stats j) (j_mtu j) (j_batch j) (j_objects j).
Definition set_stats (j : Joiner) (s : JoinerRoutingStats) : Joiner :=
  MkJoiner (j_closed j) (j_done j) (j_events j) (j_eventClosed j) (j_pending j) (j_pendingHead j) (j_attached j) (j_flowRouting j) (j_dynamic j)
    s (j_mtu j) (j_batch j) (j_objects j).
Definition set_attached (j : Joiner) (a : attachments) : Joiner :=
  MkJoiner (j_closed j) (j_done j) (j_events j) (j_eventClosed j) (j_pending j) (j_pendingHead j) a (j_flowRouting j) (j_dynamic j)
    (j_stats j) (j_mtu j) (j_batch j) (j_objects j).
Definition set_pending (j : Joiner) (p : list joinerPending) (head : Z) : Joiner :=
  MkJoiner (j_closed j) (j_done j) (j_events j) (j_eventClosed j) p head (j_attached j) (j_flowRouting j) (j_dynamic j)
    (j_stats j) (j_mtu j) (j_batch j) (j_objects j).
Definition set_objects (j : Joiner) (o : gmap nat joinerNested) : Joiner :=
  MkJoiner (j_closed j) (j_done j) (j_events j) (j_eventClosed j) (j_pending j) (j_pendingHead j) (j_attached j) (j_flowRouting j) (j_dynamic j)
    (j_stats j) (j_mtu j) (j_batch j) o.
Definition set_metadata (j : Joiner) (mtu batch : Z) (events : list Event) : Joiner :=
  MkJoiner (j_closed j) (j_done j) events (j_eventClosed j) (j_pending j) (j_pendingHead j) (j_attached j) (j_flowRouting j) (j_dynamic j)
    (j_stats j) mtu batch (j_objects j).
Definition set_closed (j : Joiner) : Joiner :=
  MkJoiner true (j_done j) (j_events j) (j_eventClosed j) (j_pending j) (j_pendingHead j) (j_attached j) (j_flowRouting j) (j_dynamic j)
    (j_stats j) (j_mtu j) (j_batch j) (j_objects j).

Definition normalizeJoinerOptions (FlowTimeout MaxFlowEntries : Z) : Z * Z :=
  (if FlowTimeout <=? 0 then DefaultJoinerFlowTimeout else FlowTimeout,
   if MaxFlowEntries <=? 0 then DefaultJoinerMaxFlowEntries else MaxFlowEntries).

(** [closeEvents] and [close(j.done)]: closing a closed channel is a panic. *)
Definition closeEvents (j : Joiner) : Joiner :=
  MkJoiner (j_closed j) (j_done j) (j_events j) true (j_pending j) (j_pendingHead j) (j_attached j) (j_flowRouting j) (j_dynamic j)
    (j_stats j) (j_mtu j) (j_batch j) (j_objects j).
Definition close_done (j : Joiner) : run Joiner :=
  if j_done j then Panicked
  else Done (MkJoiner (j_closed j) true (j_events j) (j_eventClosed j) (j_pending j) (j_pendingHead j) (j_attached j) (j_flowRouting j)
    (j_dynamic j) (j_stats j) (j_mtu j) (j_batch j) (j_objects j)).

(** [NewJoinerWithOptions]; [spawned] tells whether the pump was started. *)
Definition NewJoinerWithOptions (spawned SharedAddressRouting : bool) (FlowTimeout MaxFlowEntries : Z) : run Joiner :=
  let '(flowTimeout, flowLimit) := normalizeJoinerOptions FlowTimeout MaxFlowEntries in
  let j := MkJoiner false false [] false [] 0 (MkAttached None (Some ∅) (Some ∅) (Some ∅) (Some ∅)) SharedAddressRouting
             (MkDynamic flowTimeout flowLimit ∅ (Some ∅) (Some ∅) None None None 0 0 0) (MkStats 0 0 0 0 0 0)
             joinerDefaultMTU joinerDefaultBatch ∅ in
  if spawned then Done j
  else let! j := close_done (set_closed j) in Done (closeEvents j).

(** The channel of events buffers eight. *)
Definition sendEvent (j : Joiner) (event : Event) : Joiner :=
  if j_eventClosed j then j
  else if zlen (j_events j) <? 8 then set_metadata j (j_mtu j) (j_batch j) (j_events j ++ [event])
  else j.

(** ** Routing *)

Definition parsedDestinationRouteLocked (j : Joiner) (packet : joinerPacket) : run (option nested) :=
  if jp_version packet =? 4 then
    let! address := must (be32 (jp_destination packet) 0) in Done (find_key (at_routes4 (j_attached j)) address)
  else if jp_version packet =? 6 then Done (find_key (at_routes6 (j_attached j)) (jp_destination packet))
  else Done None.

(** The version nibble of a packet at an offset, with the packet. *)
Definition packet_at (buf : list byte) (offset : Z) : run (option (Z * list byte)) :=
  if (offset <? 0) || (offset >=? zlen buf) then Done None
  else
    let! packet := must (slice buf offset (zlen buf)) in
    let! b0 := must (index packet 0) in
    Done (Some (Z.shiftr (bZ b0) 4, packet)).

Definition packetDestinationRouteLocked (j : Joiner) (buf : list byte) (offset : Z) : run (option nested) :=
  let! p := packet_at buf offset in
  match p with
  | None => Done None
  | Some (version, packet) =>
      if (version =? 4) && (zlen packet >=? 20) then
        let! address := must (be32 packet 16) in Done (find_key (at_routes4 (j_attached j)) address)
      else if (version =? 6) && (zlen packet >=? 40) then
        let! address := must (slice packet 24 40) in Done (find_key (at_routes6 (j_attached j)) address)
      else Done None
  end.

Definition set_route4 (j : Joiner) (address : Z) (owner : nested) : run Joiner :=
  let a := j_attached j in
  let! m := store_key (at_routes4 a) address owner in
  Done (set_attached j (MkAttached (at_default a) (at_secondaries a) (at_nested a) m (at_routes6 a))).
Definition set_route6 (j : Joiner) (address : list byte) (owner : nested) : run Joiner :=
  let a := j_attached j in
  let! m := store_key (at_routes6 a) address owner in
  Done (set_attached j (MkAttached (at_default a) (at_secondaries a) (at_nested a) (at_routes4 a) m)).

Definition rememberParsedSourceRouteLocked (j : Joiner) (packet : joinerPacket) (owner : nested) : run Joiner :=
  if jp_version packet =? 4 then let! address := must (be32 (jp_source packet) 0) in set_route4 j address owner
  else if jp_version packet =? 6 then set_route6 j (jp_source packet) owner
  else Done j.

Definition rememberPacketSourceRouteLocked (j : Joiner) (buf : list byte) (offset : Z) (owner : nested) : run Joiner :=
  let! p := packet_at buf offset in
  match p with
  | None => Done j
  | Some (version, packet) =>
      if (version =? 4) && (zlen packet >=? 20) then
        let! address := must (be32 packet 12) in set_route4 j address owner
      else if (version =? 6) && (zlen packet >=? 40) then
        let! address := must (slice packet 8 24) in set_route6 j address owner
      else Done j
  end.

(** [j.routeStats.X++] *)
Inductive counter : Type := FlowRoutes | FragmentRoutes | AddressFallbacks | DefaultFallbacks | DroppedFallbacks | FlowCollisions.
Definition count (j : Joiner) (c : counter) : Joiner :=
  let s := j_stats j in
  let one x := match c, x with
    | FlowRoutes, FlowRoutes | FragmentRoutes, FragmentRoutes | AddressFallbacks, AddressFallbacks
    | DefaultFallbacks, DefaultFallbacks | DroppedFallbacks, DroppedFallbacks | FlowCollisions, FlowCollisions => 1
    | _, _ => 0
    end in
  set_stats j (MkStats (st_FlowRoutes s + one FlowRoutes) (st_FragmentRoutes s + one FragmentRoutes)
    (st_AddressFallbacks s + one AddressFallbacks) (st_DefaultFallbacks s + one DefaultFallbacks)
    (st_DroppedFallbacks s + one DroppedFallbacks) (st_FlowCollisions s + one FlowCollisions)).

(** The fallbacks of [routeSharedAddressLocked]. *)
Definition route_fallback (j : Joiner) (buf : list byte) (offset now : Z) (parsed : option joinerPacket) : run (Joiner * option nested) :=
  let packet := match parsed with Some p => p | None => zero_packet end in
  let! addressOwner := match parsed with
                       | Some p => parsedDestinationRouteLocked j p
                       | None => packetDestinationRouteLocked j buf offset
                       end in
  let remember (j : Joiner) (owner : option nested) :=
    let! d := rememberInboundFragmentLocked (j_dynamic j) packet owner now in Done (set_dynamic j d, owner) in
  match addressOwner with
  | Some _ => remember (count j AddressFallbacks) addressOwner
  | None =>
      match at_default (j_attached j) with
      | Some _ => remember (count j DefaultFallbacks) (at_default (j_attached j))
      | None => Done (count j DroppedFallbacks, None)
      end
  end.

Definition routeSharedAddressLocked (j : Joiner) (buf : list byte) (offset now : Z) : run (Joiner * option nested) :=
  let! parsed := parseJoinerPacket buf offset in
  let fragmentRoute := match parsed with
    | Some packet => if jp_fragmented packet && negb (jp_fragmentOffset packet =? 0)
                     then find_key (dy_fragments (j_dynamic j)) (fragmentKey packet) else None
    | None => None
    end in
  match fragmentRoute with
  | Some route =>
      let! d := touchDynamicRouteLocked (j_dynamic j) route now in
      let! r := deref (dy_store d) (Some route) in
      Done (count (set_dynamic j d) FragmentRoutes, dr_owner r)
  | None =>
      let! key := match parsed with Some packet => joinerInboundFlowKey packet | None => Done None end in
      match parsed, match key with Some key => find_key (dy_flows (j_dynamic j)) key | None => None end with
      | Some packet, Some route =>
          let! d := touchDynamicRouteLocked (j_dynamic j) route now in
          let! r := deref (dy_store d) (Some route) in
          let! d := rememberInboundFragmentLocked d packet (dr_owner r) now in
          let! r := deref (dy_store d) (Some route) in
          Done (count (set_dynamic j d) FlowRoutes, dr_owner r)
      | _, _ => route_fallback j buf offset now parsed
      end
  end.

Definition routeLocked (j : Joiner) (buf : list byte) (offset now : Z) : run (Joiner * option nested) :=
  if j_flowRouting j then routeSharedAddressLocked j buf offset now
  else
    let! n := packetDestinationRouteLocked j buf offset in
    Done (j, match n with Some _ => n | None => at_default (j_attached j) end).

Definition expire_routes (j : Joiner) (now : Z) : run Joiner :=
  if j_flowRouting j then let! d := expireDynamicRoutesLocked (j_dynamic j) now in Done (set_dynamic j d) else Done j.

Definition rememberRouteLocked (j : Joiner) (packet : list byte) (n : nested) (now : Z) : run Joiner :=
  let! parsed := (if j_flowRouting j then parseJoinerPacket packet 0 else Done None) in
  match parsed with
  | Some p =>
      let! j := rememberParsedSourceRouteLocked j p n in
      let! key := joinerReverseFlowKey p in
      match key with
      | Some key => let! dc := rememberFlowLocked (j_dynamic j) key n now in
                    Done (if dc.2 : bool then count (set_dynamic j dc.1) FlowCollisions else set_dynamic j dc.1)
      | None => Done j
      end
  | None => rememberPacketSourceRouteLocked j packet 0 n
  end.

(** A loop over packets that threads the joiner. *)
Fixpoint each {A} (f : Joiner -> A -> run Joiner) (j : Joiner) (l : list A) : run Joiner :=
  match l with [] => Done j | a :: l' => let! j := f j a in each f j l' end.

Definition rememberRoutes (j : Joiner) (packets : list (list byte)) (n : nested) (now : Z) : run Joiner :=
  let! o := must (j_objects j !! n) in
  if negb (bool_decide (find_key (at_nested (j_attached j)) (jn_t o) = Some n)) then Done j
  else
    let! j := expire_routes j now in
    each (fun j packet => rememberRouteLocked j packet n now) j packets.

(** [RoutingStats]: the sizes of the two maps after the expired routes are
    gone, and the counters, [ExpiredRoutes] and [EvictedRoutes] last. *)
Definition RoutingStats (j : Joiner) (now : Z) : run (Joiner * (Z * Z * JoinerRoutingStats * Z * Z)) :=
  let! j := (if j_flowRouting j && negb (j_closed j) then expire_routes j now else Done j) in
  let len {K} `{Countable K} (m : option (gmap K nat)) := match m with None => 0 | Some m => Z.of_nat (size m) end in
  Done (j, (len (dy_flows (j_dynamic j)), len (dy_fragments (j_dynamic j)), j_stats j, dy_expired (j_dynamic j), dy_evicted (j_dynamic j))).

(** ** Devices *)

(** What the devices answer, and the order in which a map is walked. *)
Record devices : Type := MkDevices {
  dv_MTU : tun -> option Z;
  dv_BatchSize : tun -> Z;
  dv_MWO : tun -> Z;
  dv_order : gmap tun nested -> list nested }.

Definition device_of (j : Joiner) (n : nested) : run tun := let! o := must (j_objects j !! n) in Done (jn_t o).

(** The loop of [recalculateLocked] over the attached devices. *)
Fixpoint metadata_loop (v : devices) (j : Joiner) (l : list nested) (first : bool) (mtu batch : Z) : run (bool * Z * Z) :=
  match l with
  | [] => Done (first, mtu, batch)
  | n :: l' =>
      let! t := device_of j n in
      let mtu' := match dv_MTU v t with Some m => if first || (m <? mtu) then m else mtu | None => mtu end in
      let b := dv_BatchSize v t in
      let batch' := if b >? 0 then if first || (b >? batch) then b else batch else batch in
      metadata_loop v j l' false mtu' batch'
  end.

Definition recalculateLocked (v : devices) (j : Joiner) : run Joiner :=
  let oldMTU := j_mtu j in
  let m := match at_nested (j_attached j) with Some m => m | None => ∅ end in
  let! r := (if bool_decide (m = ∅) then Done (false, joinerDefaultMTU, joinerDefaultBatch)
             else metadata_loop v j (dv_order v m) true joinerDefaultMTU joinerDefaultBatch) in
  let '(first, mtu, batch) := r in
  let '(mtu, batch) := if first : bool then (joinerDefaultMTU, joinerDefaultBatch) else (mtu, batch) in
  let j := set_metadata j mtu batch (j_events j) in
  Done (if negb (oldMTU =? mtu) then sendEvent j EventMTUUpdate else j).

Definition newJoinerNested (j : Joiner) (t : tun) : Joiner * nested :=
  let n := fresh (dom (j_objects j)) in (set_objects j (<[n := MkNested t true false]> (j_objects j)), n).

Definition closeNestedLocked (j : Joiner) (n : nested) : run Joiner :=
  let! o := must (j_objects j !! n) in
  Done (set_objects j (<[n := MkNested (jn_t o) false true]> (j_objects j))).

Definition setUp (j : Joiner) (n : nested) (up : bool) : run Joiner :=
  let! o := must (j_objects j !! n) in
  Done (set_objects j (<[n := MkNested (jn_t o) up (jn_closed o)]> (j_objects j))).

(** [for key, owner := range m { if owner == n { delete(m, key) } }] *)
Definition drop_owner {K} `{Countable K} (m : option (gmap K nat)) (n : nested) : option (gmap K nat) :=
  match m with None => None | Some m => Some (filter (fun x => x.2 <> n) m) end.

(** [delete(m, t)] *)
Definition delete_tun (m : option (gmap tun nested)) (t : tun) : option (gmap tun nested) :=
  match m with None => None | Some m => Some (delete t m) end.

Definition removeNestedLocked (j : Joiner) (n : nested) : run Joiner :=
  let! t := device_of j n in
  let a := j_attached j in
  let j := set_attached j (MkAttached (if bool_decide (at_default a = Some n) then None else at_default a)
             (delete_tun (at_secondaries a) t) (delete_tun (at_nested a) t) (drop_owner (at_routes4 a) n) (drop_owner (at_routes6 a) n)) in
  let! d := removeDynamicRoutesForOwnerLocked (j_dynamic j) n in
  let j := set_dynamic j d in
  let! rest := must (slice (j_pending j) (j_pendingHead j) (zlen (j_pending j))) in
  let j := set_pending j (filter (fun p => pe_owner p <> Some n) rest) 0 in
  closeNestedLocked j n.

(** The first section of an attach or detach: the joiner, the error, the
    device to close and the one to start. *)
Definition attach_result : Type := Joiner * option joinerError * option tun * option nested.

Definition set_default (a : attachments) (n : option nested) : attachments :=
  MkAttached n (at_secondaries a) (at_nested a) (at_routes4 a) (at_routes6 a).

Definition AttachDefault (v : devices) (j : Joiner) (t : option tun) : run attach_result :=
  match t with
  | None => Done (j, Some ErrJoinerNilTun, None, None)
  | Some t =>
      if j_closed j then Done (j, Some ErrJoinerClosed, None, None)
      else if bool_decide (is_Some (find_key (at_secondaries (j_attached j)) t)) then Done (j, Some ErrJoinerDuplicateTun, None, None)
      else
        let old := at_default (j_attached j) in
        let! oldTun := match old with None => Done None | Some n => let! o := device_of j n in Done (Some o) end in
        if bool_decide (oldTun = Some t) then Done (j, None, None, None)
        else
          let! j := match old with None => Done j | Some n => removeNestedLocked j n end in
          let '(j, n) := newJoinerNested j t in
          let a := set_default (j_attached j) (Some n) in
          let! m := store_key (at_nested a) t n in
          let! j := recalculateLocked v (set_attached j (MkAttached (at_default a) (at_secondaries a) m (at_routes4 a) (at_routes6 a))) in
          Done (j, None, oldTun, Some n)
  end.

Definition AttachSecondary (v : devices) (j : Joiner) (t : option tun) : run attach_result :=
  match t with
  | None => Done (j, Some ErrJoinerNilTun, None, None)
  | Some t =>
      if j_closed j then Done (j, Some ErrJoinerClosed, None, None)
      else
        let! defaultTun := match at_default (j_attached j) with None => Done None | Some n => let! o := device_of j n in Done (Some o) end in
        if bool_decide (defaultTun = Some t) then Done (j, Some ErrJoinerDuplicateTun, None, None)
        else if bool_decide (is_Some (find_key (at_secondaries (j_attached j)) t)) then Done (j, None, None, None)
        else
          let '(j, n) := newJoinerNested j t in
          let a := j_attached j in
          let! s := store_key (at_secondaries a) t n in
          let! m := store_key (at_nested a) t n in
          let! j := recalculateLocked v (set_attached j (MkAttached (at_default a) s m (at_routes4 a) (at_routes6 a))) in
          Done (j, None, None, Some n)
  end.

(** [Detach], [DetachDefault] and [detachNested] remove one device. *)
Definition detach_one (v : devices) (j : Joiner) (n : option nested) : run attach_result :=
  match n with
  | None => Done (j, None, None, None)
  | Some n =>
      let! t := device_of j n in
      let! j := removeNestedLocked j n in
      let! j := recalculateLocked v j in
      Done (j, None, Some t, None)
  end.

Definition Detach (v : devices) (j : Joiner) (t : tun) : run attach_result :=
  if j_closed j then Done (j, Some ErrJoinerClosed, None, None) else detach_one v j (find_key (at_nested (j_attached j)) t).

Definition DetachDefault (v : devices) (j : Joiner) : run attach_result :=
  if j_closed j then Done (j, Some ErrJoinerClosed, None, None) else detach_one v j (at_default (j_attached j)).

(** [detachNested], which the goroutines of a device call. *)
Definition detachNested (v : devices) (j : Joiner) (n : nested) : run Joiner :=
  let! t := device_of j n in
  if negb (bool_decide (find_key (at_nested (j_attached j)) t = Some n)) then Done j
  else let! r := detach_one v j (Some n) in Done r.1.1.1.

(** The section of [Close], inside [once]. *)
Definition Close_locked (v : devices) (j : Joiner) : run (Joiner * list tun) :=
  let j := set_closed j in
  let nested := match at_nested (j_attached j) with Some m => dv_order v m | None => [] end in
  let! j := each closeNestedLocked j nested in
  let closes := omap (fun n => jn_t <$> j_objects j !! n) nested in
  let j := set_attached j (MkAttached None None None None None) in
  let j := set_dynamic j (clearDynamicRoutesLocked (j_dynamic j)) in
  let! _ := must (slice (j_pending j) (j_pendingHead j) (zlen (j_pending j))) in
  let! j := recalculateLocked v (set_pending j [] 0) in
  let! j := close_done j in
  Done (closeEvents j, closes).

(** ** Packets *)

(** The section of [Read] that takes a batch of a device from the channel. *)
Definition receive (j : Joiner) (packets : list (list byte)) (owner : option nested) : run Joiner :=
  let! keep := match owner with
               | None => Done true
               | Some n => let! t := device_of j n in Done (bool_decide (find_key (at_nested (j_attached j)) t = Some n))
               end in
  Done (if keep : bool then set_pending j (j_pending j ++ map (fun p => MkPending p owner) packets) (j_pendingHead j) else j).

(** [readPending] into buffers of the given sizes: the packets delivered, in
    order, or the position of a buffer that is too small. *)
Definition readPending (j : Joiner) (bufs : list Z) (sizes offset : Z) : run (Joiner * list (list byte) * Z * option joinerError) :=
  if j_closed j then Done (j, [], 0, Some ErrJoinerClosed)
  else if j_pendingHead j =? zlen (j_pending j) then Done (j, [], 0, None)
  else
    let! pending := must (slice (j_pending j) (j_pendingHead j) (zlen (j_pending j))) in
    let n := Z.min (Z.min (zlen bufs) sizes) (zlen pending) in
    let pairs := take (Z.to_nat n) (zip bufs pending) in
    match list_find (fun x : Z * joinerPending => (x.1 <? offset) || (x.1 - offset <? zlen (pe_packet x.2)) = true) pairs with
    | Some (i, _) => Done (j, [], Z.of_nat i, Some ErrShortBuffer)
    | None =>
        let! taken := must (slice pending 0 n) in
        let head := j_pendingHead j + n in
        Done (if head =? zlen (j_pending j) then set_pending j [] 0 else set_pending j (j_pending j) head,
              map pe_packet taken, n, None)
    end.

(** The routes of the packets of [Write], under the mutex. *)
Fixpoint route_all (j : Joiner) (bufs : list (list byte)) (offset now : Z) : run (Joiner * list (option nested)) :=
  match bufs with
  | [] => Done (j, [])
  | buf :: bufs' =>
      let! r := routeLocked j buf offset now in
      let! t := route_all r.1 bufs' offset now in
      Done (t.1, r.2 :: t.2)
  end.

Definition Write_locked (j : Joiner) (bufs : list (list byte)) (offset now : Z) : run (Joiner * result joinerError (list (option nested))) :=
  if offset <? joinerOffset then Done (j, Failure ErrJoinerSmallOffset)
  else if offset <? 0 then Done (j, Failure ErrInvalidOffset)
  else if existsb (fun buf : list byte => offset >? zlen buf) bufs then Done (j, Failure ErrShortBuffer)
  else if j_closed j then Done (j, Failure ErrJoinerClosed)
  else
    match bufs with
    | [] => Done (j, Success [])
    | _ =>
        let! j := expire_routes j now in
        let! r := route_all j bufs offset now in
        Done (r.1, Success r.2)
    end.

(** The script of a device: the count and error of each write, in order. *)
Notation script := (list (Z * option joinerError)).
(** A write that a device was asked for. *)
Notation device_call := (nat * list (list byte) * Z)%type.

Definition batchSizeOf (v : devices) (t : tun) : Z := if dv_BatchSize v t >? 0 then dv_BatchSize v t else 1.

(** [alignWriteOffset]: with a larger offset the packets are copied into
    buffers of the pool, whose first bytes [dirty] are unspecified. *)
Definition alignWriteOffset (dirty : Z -> list byte) (bufs : list (list byte)) (offset nestedOffset : Z) : list (list byte) * Z :=
  if nestedOffset <=? offset then (bufs, offset)
  else (map (fun buf => dirty nestedOffset ++ drop (Z.to_nat offset) buf) bufs, nestedOffset).

Fixpoint write_loop (v : devices) (j : Joiner) (n : nested) (t : tun) (bufs : list (list byte)) (offset : Z) (s : script)
    : run (Joiner * option joinerError * list device_call) :=
  match bufs with
  | [] => Done (j, None, [])
  | _ =>
      match s with
      | [] => OutOfFuel
      | (count, err) :: s' =>
          let batch := take (Z.to_nat (batchSizeOf v t)) bufs in
          let call := (t, batch, offset) in
          match err with
          | Some ErrTunDown => let! j := setUp j n false in Done (j, None, [call])
          | Some ErrTunTerminated => let! j := detachNested v j n in Done (j, err, [call])
          | Some _ => Done (j, err, [call])
          | None =>
              if count <=? 0 then Done (j, Some ErrNoProgress, [call])
              else
                let! r := write_loop v j n t (drop (Z.to_nat count) bufs) offset s' in
                Done (r.1.1, r.1.2, call :: r.2)
          end
      end
  end.

Definition writeToNested (v : devices) (dirty : Z -> list byte) (j : Joiner) (n : option nested) (bufs : list (list byte)) (offset : Z) (s : script)
    : run (Joiner * option joinerError * list device_call) :=
  match n with
  | None => Done (j, None, [])
  | Some n =>
      let! o := must (j_objects j !! n) in
      if negb (jn_up o && negb (jn_closed o)) then Done (j, None, [])
      else
        let '(writeBufs, writeOffset) := alignWriteOffset dirty bufs offset (dv_MWO v (jn_t o)) in
        write_loop v j n (jn_t o) writeBufs writeOffset s
  end.

(** The writes of [Write] after the routes are known: one for all packets when
    they have one target, else one per packet until the first error. *)
Fixpoint write_each (v : devices) (dirty : Z -> list byte) (j : Joiner) (i : Z) (l : list (option nested * list byte)) (offset : Z) (ss : list script)
    : run (Joiner * Z * option joinerError * list device_call) :=
  match l, ss with
  | [], _ => Done (j, i, None, [])
  | (n, buf) :: l', s :: ss' =>
      let! r := writeToNested v dirty j n [buf] offset s in
      match r.1.2 with
      | Some e => Done (r.1.1, i, Some e, r.2)
      | None =>
          let! t := write_each v dirty r.1.1 (i + 1) l' offset ss' in
          Done (t.1, r.2 ++ t.2)
      end
  | _, [] => OutOfFuel
  end.

Definition Write_targets (v : devices) (dirty : Z -> list byte) (j : Joiner) (targets : list (option nested)) (bufs : list (list byte)) (offset : Z) (ss : list script)
    : run (Joiner * Z * option joinerError * list device_call) :=
  match targets, ss with
  | [], _ => Done (j, 0, None, [])
  | first :: rest, s :: _ =>
      if forallb (fun t => bool_decide (t = first)) rest then
        let! r := writeToNested v dirty j first bufs offset s in Done (r.1.1, zlen bufs, r.1.2, r.2)
      else write_each v dirty j 0 (zip targets bufs) offset ss
  | _, [] => OutOfFuel
  end.
