(* ===== verification/JoinerTable.v ===== *)
(** * The table of dynamic routes

    The doubly linked list, the free list and the two maps of
    src/tun/joiner_flow.go represent one list of entries in the order of their
    last use; each operation on the pointers is an operation on that list. *)

From S2P Require Import Prelude Joiner.

(** ** Entries *)

Inductive routeKey : Type := KFlow (k : joinerFlowKey) | KFragment (k : joinerFragmentKey).

#[global] Instance routeKey_eq_dec : EqDecision routeKey.
Proof. solve_decision. Defined.

Record entry : Type := MkEntry { e_key : routeKey; e_owner : option nat; e_expires : Z }.

Definition entry_of (r : joinerDynamicRoute) : entry :=
  MkEntry (match dr_kind r with joinerDynamicFlow => KFlow (dr_flowKey r) | joinerDynamicFragment => KFragment (dr_fragmentKey r) end)
    (dr_owner r) (dr_expires r).

(** ** Segments *)

(** The records [l] are linked from [p], behind [pp], to [q], in front of [qn]. *)
Fixpoint dseg (h : store) (pp p q qn : option nat) (l : list nat) : Prop :=
  match l with
  | [] => p = qn /\ pp = q
  | x :: l' => p = Some x /\ exists r, h !! x = Some r /\ dr_previous r = pp /\ dseg h (Some x) (dr_next r) q qn l'
  end.

(** The free list. *)
Fixpoint fseg (h : store) (p : option nat) (l : list nat) : Prop :=
  match l with
  | [] => p = None
  | x :: l' => p = Some x /\ exists r, h !! x = Some r /\ fseg h (dr_next r) l'
  end.

(** The stores agree on the links of [l], or on the entries of every record. *)
Definition same_links (h h' : store) (l : list nat) : Prop :=
  forall x, x ∈ l -> (fun r => (dr_previous r, dr_next r)) <$> h !! x = (fun r => (dr_previous r, dr_next r)) <$> h' !! x.
Definition same_entries (h h' : store) : Prop := forall x, entry_of <$> h !! x = entry_of <$> h' !! x.

Lemma dseg_ext h h' pp p q qn l : same_links h h' l -> dseg h pp p q qn l -> dseg h' pp p q qn l.
Proof.
  revert pp p. induction l as [|x l IH]; intros pp p Hs; [done|]. intros (-> & r & Hx & Hp & Hr). split; [done|].
  pose proof (Hs x ltac:(left)) as He. rewrite Hx in He. destruct (h' !! x) as [r'|]; [|done]. injection He as H1 H2.
  exists r'. rewrite <- H1, <- H2. split_and!; [done|done|]. apply IH; [|done]. intros y Hy. apply Hs. by right.
Qed.

Lemma fseg_ext h h' p l : (forall x, x ∈ l -> dr_next <$> h !! x = dr_next <$> h' !! x) -> fseg h p l -> fseg h' p l.
Proof.
  revert p. induction l as [|x l IH]; intros p Hs; [done|]. intros (-> & r & Hx & Hr). split; [done|].
  pose proof (Hs x ltac:(left)) as He. rewrite Hx in He. destruct (h' !! x) as [r'|]; [|done]. injection He as H1.
  exists r'. rewrite <- H1. split; [done|]. apply IH; [|done]. intros y Hy. apply Hs. by right.
Qed.

Lemma dseg_frame h x r pp p q qn l : x ∉ l -> dseg h pp p q qn l -> dseg (<[x := r]> h) pp p q qn l.
Proof. intros Hx. apply dseg_ext. intros y Hy. by rewrite lookup_insert_ne by (intros ->; done). Qed.

Lemma fseg_frame h x r p l : x ∉ l -> fseg h p l -> fseg (<[x := r]> h) p l.
Proof. intros Hx. apply fseg_ext. intros y Hy. by rewrite lookup_insert_ne by (intros ->; done). Qed.

Lemma dseg_app h pp p q qn l1 l2 :
  dseg h pp p q qn (l1 ++ l2) <-> exists m mn, dseg h pp p m mn l1 /\ dseg h m mn q qn l2.
Proof.
  revert pp p. induction l1 as [|x l1 IH]; intros pp p; cbn [app dseg].
  - split; [intros Hd; by exists pp, p|]. by intros (m & mn & [-> ->] & Hd).
  - setoid_rewrite IH. split; [|naive_solver]. intros (-> & r & Hx & Hp & m & mn & H1 & H2). exists m, mn. naive_solver.
Qed.

Lemma dseg_single h pp p q qn x :
  dseg h pp p q qn [x] <-> p = Some x /\ q = Some x /\ exists r, h !! x = Some r /\ dr_previous r = pp /\ dr_next r = qn.
Proof. cbn [dseg]. naive_solver. Qed.

(** The last record of a segment points behind it, the first in front of it. *)
Lemma dseg_last h pp p q qn l : dseg h pp p q qn l -> l <> [] -> exists l' y, l = l' ++ [y] /\ q = Some y.
Proof.
  intros Hd Hl. destruct (exists_last Hl) as (l' & y & ->). apply dseg_app in Hd as (m & mn & _ & H2).
  apply dseg_single in H2 as (_ & -> & _). by exists l', y.
Qed.

Lemma dseg_set_next h pp p y qn l v :
  y ∉ l -> dseg h pp p (Some y) qn (l ++ [y]) ->
  exists r, h !! y = Some r /\ dseg (<[y := with_next r v]> h) pp p (Some y) v (l ++ [y]).
Proof.
  intros Hy (m & mn & H1 & H2)%dseg_app. apply dseg_single in H2 as (Hm & _ & r & Hr & Hp & Hn). exists r. split; [done|].
  apply dseg_app. exists m, mn. split; [by apply dseg_frame|]. apply dseg_single. split_and!; [done|done|].
  exists (with_next r v). by rewrite lookup_insert_eq.
Qed.

Lemma dseg_set_previous h pp x q qn l v :
  x ∉ l -> dseg h pp (Some x) q qn (x :: l) ->
  exists r, h !! x = Some r /\ dseg (<[x := with_previous r v]> h) v (Some x) q qn (x :: l).
Proof.
  intros Hx (_ & r & Hr & _ & Hd). exists r. split; [done|]. cbn [dseg]. split; [done|]. exists (with_previous r v).
  rewrite lookup_insert_eq. split_and!; [done|done|]. by apply dseg_frame.
Qed.

Lemma same_entries_refl h : same_entries h h.
Proof. done. Qed.

Lemma same_entries_trans h1 h2 h3 : same_entries h1 h2 -> same_entries h2 h3 -> same_entries h1 h3.
Proof. intros H1 H2 x. by rewrite H1. Qed.

Lemma same_entries_insert h x r r' : h !! x = Some r -> entry_of r' = entry_of r -> same_entries h (<[x := r']> h).
Proof. intros Hx He y. destruct (decide (x = y)) as [<-|]; [by rewrite lookup_insert_eq, Hx; cbn; rewrite He|by rewrite lookup_insert_ne]. Qed.

(** ** Unlinking and appending *)

(** A record is taken out of the list: its neighbours point at each other, and
    nothing else changes. *)
Lemma unlink h head tail l1 x l2 :
  NoDup (l1 ++ x :: l2) -> dseg h None head tail None (l1 ++ x :: l2) ->
  exists r h1 head' h2 tail', h !! x = Some r /\
    link_next h (dr_previous r) (dr_next r) head = Done (h1, head') /\
    link_previous h1 (dr_next r) (dr_previous r) tail = Done (h2, tail') /\
    dseg h2 None head' tail' None (l1 ++ l2) /\ same_entries h h2 /\
    (forall y, y ∉ l1 ++ l2 -> h2 !! y = h !! y) /\ (dr_next r <> None -> tail' = tail) /\ (l2 <> [] -> dr_next r <> None).
Proof.
  intros Hnd (m & mn & H1 & -> & r & Hx & Hp & H2)%dseg_app. apply NoDup_app in Hnd as (N1 & N12 & N2).
  apply NoDup_cons in N2 as [Nx N2]. assert (Nx1 : x ∉ l1) by (intros Hi; by apply (N12 x Hi); left).
  exists r.
  assert (Hstep1 : exists h1 head', link_next h (dr_previous r) (dr_next r) head = Done (h1, head') /\
    dseg h1 None head' m (dr_next r) l1 /\ dseg h1 (Some x) (dr_next r) tail None l2 /\ same_entries h h1 /\ (forall y, y ∉ l1 -> h1 !! y = h !! y)).
  { rewrite Hp. destruct m as [y|]; cbn [link_next].
    - destruct l1 as [|z l1']; [by destruct H1|]. destruct (dseg_last _ _ _ _ _ _ H1 ltac:(done)) as (l & y' & Hl & [= <-]). rewrite Hl in *.
      apply NoDup_app in N1 as (_ & Ny & _). assert (Hy : y ∉ l) by (intros Hi; by apply (Ny y Hi); left).
      destruct (dseg_set_next _ _ _ _ _ _ (dr_next r) Hy H1) as (ry & Hry & Hd). cbn [assign]. rewrite Hry. cbn [must run_bind].
      do 2 eexists. split; [done|]. split_and!; [done| |by eapply same_entries_insert|].
      + apply dseg_frame; [|done]. intros Hi. apply (N12 y); [set_solver|by right].
      + intros z' Hz. rewrite lookup_insert_ne; [done|]. intros ->. apply Hz. set_solver.
    - assert (l1 = []) as ->.
      { destruct l1 as [|z l1]; [done|]. destruct (dseg_last _ _ _ _ _ _ H1 ltac:(done)) as (? & ? & _ & [=]). }
      do 2 eexists. split; [done|]. by split_and!. }
  destruct Hstep1 as (h1 & head' & -> & D1 & D2 & Hs1 & Ho1). exists h1, head'.
  assert (Hstep2 : exists h2 tail', link_previous h1 (dr_next r) (dr_previous r) tail = Done (h2, tail') /\
    dseg h2 None head' m (dr_next r) l1 /\ dseg h2 m (dr_next r) tail' None l2 /\ same_entries h1 h2 /\ (forall y, y ∉ l2 -> h2 !! y = h1 !! y) /\
    (dr_next r <> None -> tail' = tail) /\ (l2 <> [] -> dr_next r <> None)).
  { rewrite Hp. destruct l2 as [|y l2].
    - cbn [dseg] in D2. destruct D2 as [Hn <-]. rewrite Hn in *. cbn [link_previous]. exists h1, m. by split_and!.
    - pose proof D2 as [Hn _]. rewrite Hn in *. apply NoDup_cons in N2 as [Ny N2].
      destruct (dseg_set_previous _ _ _ _ _ _ m Ny D2) as (ry & Hry & Hd). cbn [link_previous assign]. rewrite Hry. cbn [must run_bind].
      do 2 eexists. split; [done|]. split_and!; [|done|by eapply same_entries_insert| |done|done].
      + apply dseg_frame; [|done]. intros Hi. apply (N12 y Hi). right. left.
      + intros z' Hz. rewrite lookup_insert_ne; [done|]. intros ->. apply Hz. left. }
  destruct Hstep2 as (h2 & tail' & -> & E1 & E2 & Hs2 & Ho2 & Ht & Hne). exists h2, tail'. split_and!; try done.
  - apply dseg_app. by exists m, (dr_next r).
  - by eapply same_entries_trans.
  - intros y Hy. apply not_elem_of_app in Hy as [Hy1 Hy2]. by rewrite Ho2, Ho1.
Qed.

(** A record behind the last one. *)
Lemma append h head t l x r :
  t ∈ l -> NoDup l -> x ∉ l -> dseg h None head (Some t) None l -> h !! x = Some r -> dr_previous r = Some t -> dr_next r = None ->
  exists rt, h !! t = Some rt /\ dseg (<[t := with_next rt (Some x)]> h) None head (Some x) None (l ++ [x]).
Proof.
  intros Ht Hnd Hx Hd Hr Hp Hn. destruct (dseg_last _ _ _ _ _ _ Hd) as (l' & y & -> & [= <-]); [by intros ->; apply elem_of_nil in Ht|].
  apply NoDup_app in Hnd as (_ & Ny & _). assert (Hy : t ∉ l') by (intros Hi; by apply (Ny t Hi); left).
  destruct (dseg_set_next _ _ _ _ _ _ (Some x) Hy Hd) as (rt & Hrt & Hd'). exists rt. split; [done|]. apply dseg_app. exists (Some t), (Some x).
  split; [done|]. apply dseg_single. split_and!; [done|done|]. exists r. rewrite lookup_insert_ne; [done|]. intros ->. apply Hx. set_solver.
Qed.

(** ** Representation *)

(** The records of the list with their entries. *)
Notation cells := (list (nat * entry)).
Definition keyed (ps : cells) : list (nat * routeKey) := map (fun x => (x.1, e_key x.2)) ps.

(** A map of the table finds exactly the records with keys of its kind. *)
Definition index_ok {K} `{Countable K} (inj : K -> routeKey) (m : option (gmap K nat)) (kl : list (nat * routeKey)) : Prop :=
  exists g, m = Some g /\ forall k p, g !! k = Some p <-> (p, inj k) ∈ kl.

Record linked (d : dynamicRoutes) (ps : cells) (free : list nat) : Prop := MkLinked {
  lk_list : dseg (dy_store d) None (dy_head d) (dy_tail d) None ps.*1;
  lk_cells : Forall (fun x => entry_of <$> dy_store d !! x.1 = Some x.2) ps;
  lk_free : fseg (dy_store d) (dy_free d) free;
  lk_nodup : NoDup (ps.*1 ++ free);
  lk_size : dy_size d = zlen ps }.

Record indexed (d : dynamicRoutes) (ps : cells) : Prop := MkIndexed {
  ix_flows : index_ok KFlow (dy_flows d) (keyed ps);
  ix_fragments : index_ok KFragment (dy_fragments d) (keyed ps) }.

(** The parameters and counters that an operation leaves alone. *)
Definition same_settings (d d' : dynamicRoutes) : Prop :=
  dy_timeout d' = dy_timeout d /\ dy_limit d' = dy_limit d /\ dy_expired d' = dy_expired d /\ dy_evicted d' = dy_evicted d.

Section Index.
Context {K : Type} `{Countable K} (inj : K -> routeKey).
Hypothesis inj_inj : forall a b, inj a = inj b -> a = b.

Lemma index_perm m kl kl' : (forall x, x ∈ kl <-> x ∈ kl') -> index_ok inj m kl -> index_ok inj m kl'.
Proof. intros Hp (g & -> & Hg). exists g. split; [done|]. intros k p. by rewrite Hg, Hp. Qed.

Lemma index_find m kl k p : index_ok inj m kl -> find_key m k = Some p <-> (p, inj k) ∈ kl.
Proof. intros (g & -> & Hg). apply Hg. Qed.

(** Without the record [x], whose key is of the kind of the map or not. *)
Lemma index_delete m kl1 x k kl2 :
  NoDup (kl1 ++ (x, inj k) :: kl2).*1 -> index_ok inj m (kl1 ++ (x, inj k) :: kl2) -> index_ok inj (delete_key m k) (kl1 ++ kl2).
Proof.
  intros Hnd (g & -> & Hg). exists (delete k g). split; [done|]. intros k' p.
  rewrite fmap_app, fmap_cons in Hnd. apply NoDup_app in Hnd as (_ & N12 & N2). apply NoDup_cons in N2 as [Nx _]. cbn [fst] in *.
  assert (Hx : forall q, (x, q) ∉ kl1 ++ kl2).
  { intros q [Hq|Hq]%elem_of_app; apply (list_elem_of_fmap_2 fst) in Hq; [apply (N12 _ Hq); left|done]. }
  destruct (decide (k = k')) as [<-|Hne].
  - rewrite lookup_delete_eq. split; [done|]. intros Hin. assert (Hp : g !! k = Some p) by (apply Hg; set_solver).
    assert (Hx' : g !! k = Some x) by (apply Hg; set_solver). rewrite Hp in Hx'. injection Hx' as ->. by destruct (Hx (inj k)).
  - rewrite lookup_delete_ne by done. rewrite Hg, !elem_of_app, elem_of_cons. split; [|naive_solver].
    intros [|[[= -> E%inj_inj]|]]; [by left| |by right]. congruence.
Qed.

Lemma index_drop_other m kl1 x q kl2 :
  (forall k, q <> inj k) -> index_ok inj m (kl1 ++ (x, q) :: kl2) -> index_ok inj m (kl1 ++ kl2).
Proof.
  intros Hq (g & -> & Hg). exists g. split; [done|]. intros k p. rewrite Hg, !elem_of_app, elem_of_cons. split; [|naive_solver].
  intros [|[[= -> E]|]]; [by left| |by right]. by destruct (Hq k).
Qed.

(** With a new record. *)
Lemma index_add m kl x k :
  find_key m k = None -> index_ok inj m kl -> exists m', store_key m k x = Done m' /\ index_ok inj m' (kl ++ [(x, inj k)]).
Proof.
  intros Hk (g & -> & Hg). eexists. split; [done|]. eexists. split; [done|]. intros k' p. rewrite elem_of_app, list_elem_of_singleton.
  destruct (decide (k = k')) as [<-|Hne].
  - rewrite lookup_insert_eq. split; [intros [= ->]; by right|]. intros [Hin|[= ->]]; [|done]. apply Hg in Hin. cbn in Hk. congruence.
  - rewrite lookup_insert_ne by done. rewrite Hg. split; [by left|]. intros [|[= -> E%inj_inj]]; [done|congruence].
Qed.

Lemma index_add_other m kl x q : (forall k, q <> inj k) -> index_ok inj m kl -> index_ok inj m (kl ++ [(x, q)]).
Proof.
  intros Hq (g & -> & Hg). exists g. split; [done|]. intros k p. rewrite Hg, elem_of_app, list_elem_of_singleton. split; [by left|].
  intros [|[= -> E]]; [done|]. by destruct (Hq k).
Qed.

End Index.

Lemma KFlow_inj a b : KFlow a = KFlow b -> a = b.
Proof. congruence. Qed.

Lemma KFragment_inj a b : KFragment a = KFragment b -> a = b.
Proof. congruence. Qed.

Lemma keyed_app ps qs : keyed (ps ++ qs) = keyed ps ++ keyed qs.
Proof. apply map_app. Qed.

Lemma keyed_fst ps : (keyed ps).*1 = ps.*1.
Proof. unfold keyed. rewrite <- list_fmap_compose. done. Qed.

(** The entries of a store that agrees on them. *)
Lemma cells_ext (h h' : store) (ps : cells) :
  (forall x, x ∈ ps.*1 -> entry_of <$> h' !! x = entry_of <$> h !! x) ->
  Forall (fun x => entry_of <$> h !! x.1 = Some x.2) ps -> Forall (fun x => entry_of <$> h' !! x.1 = Some x.2) ps.
Proof.
  intros Hs Hf. rewrite Forall_forall in Hf |- *. intros x Hx. rewrite Hs; [by apply Hf|by apply list_elem_of_fmap_2].
Qed.

Lemma cell_record (h : store) (ps : cells) x e : Forall (fun x => entry_of <$> h !! x.1 = Some x.2) ps -> (x, e) ∈ ps -> exists r, h !! x = Some r /\ entry_of r = e.
Proof.
  intros Hf Hx. rewrite Forall_forall in Hf. specialize (Hf _ Hx). cbn in Hf. destruct (h !! x) as [r|]; [|done]. injection Hf as Hf. by exists r.
Qed.

(** The list is no longer than the store, so the loops have enough fuel. *)
Lemma linked_bound d ps free : linked d ps free -> (length ps <= size (dy_store d))%nat.
Proof.
  intros [_ Hc _ Hnd _]. apply NoDup_app in Hnd as (Hnd & _). rewrite <- (length_fmap fst), <- size_dom.
  rewrite <- (size_list_to_set (C := gset nat)) by done. apply subseteq_size. intros x Hx. apply elem_of_list_to_set, list_elem_of_fmap in Hx as ([y e] & -> & Hy).
  destruct (cell_record _ _ _ _ Hc Hy) as (r & Hr & _). apply elem_of_dom. by eexists.
Qed.


(** ** Removing a route *)

Lemma nodup_move (l1 l2 free : list nat) x : NoDup ((l1 ++ x :: l2) ++ free) <-> NoDup ((l1 ++ l2) ++ x :: free).
Proof. by rewrite <- !Permutation_middle. Qed.

Lemma remove_spec d ps1 x e ps2 free :
  linked d (ps1 ++ (x, e) :: ps2) free -> indexed d (ps1 ++ (x, e) :: ps2) ->
  exists d', removeDynamicRouteLocked d x = Done d' /\ linked d' (ps1 ++ ps2) (x :: free) /\ indexed d' (ps1 ++ ps2) /\
    same_settings d d'.
Proof.
  intros [Hl Hc Hfr Hnd Hsz] [Hfl Hfg]. rewrite fmap_app, fmap_cons in Hl, Hnd. cbn [fst] in Hl, Hnd.
  pose proof Hnd as (Nl & Nlf & _)%NoDup_app.
  destruct (unlink _ _ _ _ _ _ Nl Hl) as (r & h1 & head' & h2 & tail' & Hx & E1 & E2 & Hd & Hs & Ho & _).
  assert (Hxl : x ∉ ps1.*1 ++ ps2.*1) by (clear -Nl; rewrite <- Permutation_middle in Nl; by apply NoDup_cons in Nl as [? _]).
  assert (Hxf : x ∉ free) by (intros Hi; by apply (Nlf x); [set_solver|]).
  assert (He : entry_of r = e).
  { destruct (cell_record _ _ x e Hc ltac:(set_solver)) as (r' & Hr' & He). congruence. }
  unfold removeDynamicRouteLocked. cbn [deref]. rewrite Hx. cbn [must run_bind].
  set (d1 := match dr_kind r with joinerDynamicFlow => _ | joinerDynamicFragment => _ end).
  assert (Hd1 : dy_store d1 = dy_store d /\ dy_head d1 = dy_head d /\ dy_tail d1 = dy_tail d /\ dy_free d1 = dy_free d /\ dy_size d1 = dy_size d /\ same_settings d d1)
    by (unfold d1; destruct (dr_kind r); by split_and!).
  destruct Hd1 as (S1 & S2 & S3 & S4 & S5 & S6). rewrite S1, S2, E1. cbn [run_bind fst snd]. rewrite S3, E2. cbn [run_bind fst snd].
  cbn [set_links dy_store assign]. rewrite Ho, Hx by done. cbn [must run_bind]. eexists. split; [done|].
  set (z := MkRoute _ _ _ _ _ _ _). split_and!; [split| |exact S6].
  - cbn. rewrite fmap_app. by apply dseg_frame.
  - cbn. eapply cells_ext; [|by eapply Forall_app; split; [apply Forall_app in Hc as [? _]|apply Forall_app in Hc as [_ [_ ?]%Forall_cons]]].
    intros y Hy. rewrite lookup_insert_ne by (intros ->; rewrite fmap_app in Hy; done). by rewrite <- (Hs y).
  - cbn [dy_store set_free dy_free fseg]. split; [done|]. exists z. rewrite lookup_insert_eq. split; [done|]. cbn. rewrite S4.
    apply fseg_frame; [done|]. eapply fseg_ext; [|exact Hfr]. intros y Hy. rewrite Ho; [done|]. intros Hi. apply (Nlf y); [set_solver|done].
  - cbn. rewrite fmap_app. by rewrite <- nodup_move.
  - cbn. rewrite S5, Hsz, !zlen_app, zlen_cons. lia.
  - rewrite keyed_app in Hfl, Hfg. cbn [keyed map fst snd] in Hfl, Hfg. fold (keyed ps2) in Hfl, Hfg.
    assert (Hk : NoDup (keyed ps1 ++ (x, e_key e) :: keyed ps2).*1) by (rewrite fmap_app, fmap_cons, !keyed_fst; done).
    unfold d1, entry_of in *. destruct (dr_kind r); cbn in *; subst e; cbn [e_key] in *; split; cbn; rewrite keyed_app.
    + by eapply (index_delete KFlow KFlow_inj).
    + eapply index_drop_other; [|done]. done.
    + eapply index_drop_other; [|done]. done.
    + by eapply (index_delete KFragment KFragment_inj).
Qed.

(** ** Using a route *)

(** The list after the record [x] with the entry [e] was used at [now]. *)
Definition used (e : entry) (expires : Z) : entry := MkEntry (e_key e) (e_owner e) expires.

(** Changing an entry in place, its key kept. *)
Lemma update_spec d ps1 x e ps2 free f :
  linked d (ps1 ++ (x, e) :: ps2) free -> (forall r, dr_previous (f r) = dr_previous r /\ dr_next (f r) = dr_next r) ->
  exists h r, assign (dy_store d) (Some x) f = Done h /\ dy_store d !! x = Some r /\ h !! x = Some (f r) /\ entry_of r = e /\
    linked (set_links d h (dy_head d) (dy_tail d)) (ps1 ++ (x, entry_of (f r)) :: ps2) free.
Proof.
  intros [Hl Hc Hfr Hnd Hsz] Hf. destruct (cell_record _ _ x e Hc ltac:(set_solver)) as (r & Hr & He).
  cbn [assign]. rewrite Hr. cbn [must run_bind]. do 2 eexists. split; [done|]. split; [done|]. rewrite lookup_insert_eq. split; [done|]. split; [done|].
  assert (Hxl : forall q, x ∈ (ps1 ++ (x, q) :: ps2).*1) by (intros q; rewrite fmap_app; set_solver).
  assert (Hfst : (ps1 ++ (x, entry_of (f r)) :: ps2).*1 = (ps1 ++ (x, e) :: ps2).*1) by (by rewrite !fmap_app).
  split; cbn [set_links dy_store dy_head dy_tail dy_free dy_size].
  - rewrite Hfst. eapply dseg_ext; [|exact Hl]. intros y Hy. destruct (decide (x = y)) as [<-|]; [|by rewrite lookup_insert_ne].
    rewrite lookup_insert_eq, Hr. cbn. by destruct (Hf r) as [-> ->].
  - apply Forall_app in Hc as [Hc1 [_ Hc2]%Forall_cons]. rewrite fmap_app, fmap_cons in Hnd.
    apply NoDup_app in Hnd as ((_ & N12 & [Nx _]%NoDup_cons)%NoDup_app & _). cbn [fst] in *.
    apply Forall_app. split; [|apply Forall_cons; split; [by cbn; rewrite lookup_insert_eq|]]; eapply cells_ext; [|exact Hc1| |exact Hc2];
      intros y Hy; rewrite lookup_insert_ne; [done| |done|]; intros ->; [apply (N12 y Hy); left|done].
  - apply fseg_frame; [|done]. apply NoDup_app in Hnd as (_ & Nlf & _). by apply Nlf.
  - by rewrite Hfst.
  - rewrite Hsz, !zlen_app. by rewrite !zlen_cons.
Qed.

(** Moving a record from the middle to the end. *)
Lemma move_last d ps1 x e ps2 free :
  linked d (ps1 ++ (x, e) :: ps2) free -> ps2 <> [] ->
  exists r h1 head h2 tail h3 h4, dy_store d !! x = Some r /\
    link_next (dy_store d) (dr_previous r) (dr_next r) (dy_head d) = Done (h1, head) /\
    link_previous h1 (dr_next r) (dr_previous r) (dy_tail d) = Done (h2, tail) /\
    assign h2 (Some x) (fun r => with_next (with_previous r (dy_tail d)) None) = Done h3 /\
    assign h3 (dy_tail d) (fun r => with_next r (Some x)) = Done h4 /\
    linked (set_links d h4 head (Some x)) (ps1 ++ ps2 ++ [(x, e)]) free.
Proof.
  intros [Hl Hc Hfr Hnd Hsz] Hne. rewrite fmap_app, fmap_cons in Hl, Hnd. cbn [fst] in Hl, Hnd. pose proof Hnd as (Nl & Nlf & _)%NoDup_app.
  destruct (unlink _ _ _ _ _ _ Nl Hl) as (r & h1 & head & h2 & tail & Hx & E1 & E2 & Hd & Hs & Ho & Ht & Hn).
  assert (Hxl : x ∉ ps1.*1 ++ ps2.*1) by (clear -Nl; rewrite <- Permutation_middle in Nl; by apply NoDup_cons in Nl as [? _]).
  assert (Nl' : NoDup (ps1.*1 ++ ps2.*1)) by (clear -Nl; rewrite <- Permutation_middle in Nl; by apply NoDup_cons in Nl as [_ ?]).
  assert (Hne' : ps2.*1 <> []) by (by destruct ps2). rewrite (Ht (Hn Hne')) in *.
  destruct (dseg_last _ _ _ _ _ _ Hl) as (l' & t & Hlt & Htl); [by destruct ps1|].
  assert (Htin : t ∈ ps1.*1 ++ ps2.*1).
  { destruct (exists_last Hne') as (l2 & y & Hy). rewrite Hy, app_comm_cons, app_assoc in Hlt. apply app_inj_tail in Hlt as [_ ->].
    rewrite Hy. set_solver. }
  exists r, h1, head, h2, (dy_tail d). rewrite Htl in *. set (r3 := with_next (with_previous r (Some t)) None).
  assert (Hr3 : <[x := r3]> h2 !! x = Some r3) by apply lookup_insert_eq.
  assert (Hd3 : dseg (<[x := r3]> h2) None head (Some t) None (ps1.*1 ++ ps2.*1)) by by apply dseg_frame.
  destruct (append (<[x := r3]> h2) head t (ps1.*1 ++ ps2.*1) x r3 Htin Nl' Hxl Hd3 Hr3 ltac:(done) ltac:(done)) as (rt & Hrt & Hd4).
  exists (<[x := r3]> h2), (<[t := with_next rt (Some x)]> (<[x := r3]> h2)).
  split_and!; [done|done|done| | |]; [cbn [assign]; by rewrite Ho, Hx by done|cbn [assign]; by rewrite Hrt|].
  assert (Hent : same_entries (dy_store d) (<[t := with_next rt (Some x)]> (<[x := r3]> h2))).
  { eapply same_entries_trans; [exact Hs|]. eapply same_entries_trans; [|by eapply same_entries_insert].
    eapply same_entries_insert; [by rewrite Ho|done]. }
  split; cbn [set_links dy_store dy_head dy_tail dy_free dy_size].
  - rewrite !fmap_app. cbn. by rewrite app_assoc.
  - assert (Hp : ps1 ++ ps2 ++ [(x, e)] ≡ₚ ps1 ++ (x, e) :: ps2) by (by rewrite <- Permutation_cons_append). rewrite Hp.
    eapply cells_ext; [|exact Hc]. intros y _. by rewrite (Hent y).
  - assert (Hfree : forall y, y ∈ free -> y ∉ ps1.*1 ++ x :: ps2.*1) by (intros y Hy Hi; by apply (Nlf y)).
    eapply fseg_ext; [|exact Hfr]. intros y Hy. specialize (Hfree y Hy).
    rewrite !lookup_insert_ne by (intros ->; clear -Hfree Htin; set_solver). rewrite Ho; [done|]. clear -Hfree. set_solver.
  - rewrite !fmap_app. cbn. rewrite <- Permutation_cons_append. done.
  - rewrite Hsz, !zlen_app, zlen_cons. change (zlen [(x, e)]) with 1. lia.
Qed.

Lemma touch_spec d ps1 x e ps2 free now :
  linked d (ps1 ++ (x, e) :: ps2) free ->
  exists d', touchDynamicRouteLocked d x now = Done d' /\ linked d' (ps1 ++ ps2 ++ [(x, used e (now + dy_timeout d))]) free /\
    same_settings d d' /\ dy_flows d' = dy_flows d /\ dy_fragments d' = dy_fragments d.
Proof.
  intros Hl. destruct (update_spec d ps1 x e ps2 free (fun r => with_expires r (now + dy_timeout d)) Hl) as (h & r & Ha & Hr & Hhx & He & Hl');
    [done|].
  assert (Hu : entry_of (with_expires r (now + dy_timeout d)) = used e (now + dy_timeout d)) by (by subst e). rewrite Hu in Hl'.
  unfold touchDynamicRouteLocked. rewrite Ha. cbn [run_bind]. destruct (decide (ps2 = [])) as [->|Hne].
  - pose proof (lk_list _ _ _ Hl') as Hd. rewrite fmap_app in Hd. apply dseg_app in Hd as (m & mn & _ & Hd). apply dseg_single in Hd as (_ & Ht & _).
    cbn [set_links dy_tail] in Ht. rewrite Ht. rewrite bool_decide_eq_true_2 by done. eexists. split; [done|]. split; [by rewrite <- Ht|]. by split_and!.
  - destruct (move_last _ _ _ _ _ _ Hl' Hne) as (r' & h1 & head & h2 & tail & h3 & h4 & Hx & E1 & E2 & E3 & E4 & Hlast).
    cbn [set_links dy_store dy_head dy_tail] in *. rewrite bool_decide_eq_false_2.
    + cbn [deref]. rewrite Hx. cbn [must run_bind]. rewrite E1. cbn [run_bind fst snd]. rewrite E2. cbn [run_bind fst snd]. rewrite E3. cbn [run_bind].
      rewrite E4. cbn [run_bind]. eexists. split; [done|]. split; [exact Hlast|]. by split_and!.
    + intros Ht. pose proof (lk_list _ _ _ Hl) as Hd. pose proof (lk_nodup _ _ _ Hl) as (Hnd & _)%NoDup_app. rewrite fmap_app, fmap_cons in Hd, Hnd.
      destruct (exists_last Hne) as (ps3 & y & ->). rewrite fmap_app, app_comm_cons, app_assoc in Hd. apply dseg_app in Hd as (m & mn & _ & Hd).
      apply dseg_single in Hd as (_ & Hy & _). rewrite <- Ht in Hy. injection Hy as Hy. apply NoDup_app in Hnd as (_ & _ & [Hn _]%NoDup_cons).
      apply Hn. rewrite fmap_app. cbn [fst]. rewrite Hy. set_solver.
Qed.

(** ** Eviction, expiry, and the routes of a device *)

Lemma dseg_head h pp p q l : dseg h pp p q None l -> p = head l.
Proof. destruct l; [by intros [-> _]|by intros [-> _]]. Qed.

Lemma dseg_next h pp p q l1 x l2 r : dseg h pp p q None (l1 ++ x :: l2) -> h !! x = Some r -> dr_next r = head l2.
Proof. intros (m & mn & _ & _ & r' & Hr & _ & Hd)%dseg_app Hx. assert (r' = r) as -> by congruence. by apply dseg_head in Hd. Qed.

(** How many routes make room for one more. *)
Definition overflow {A} (limit : Z) (l : list A) : nat := Z.to_nat (zlen l + 1 - limit).

Lemma evict_spec fuel d ps free :
  linked d ps free -> indexed d ps -> 1 <= dy_limit d -> (length ps < fuel)%nat ->
  exists d' free', evict fuel d = Done d' /\ linked d' (drop (overflow (dy_limit d) ps) ps) free' /\
    indexed d' (drop (overflow (dy_limit d) ps) ps) /\ free' = reverse (take (overflow (dy_limit d) ps) ps.*1) ++ free /\
    dy_timeout d' = dy_timeout d /\ dy_limit d' = dy_limit d /\ dy_expired d' = dy_expired d /\ dy_evicted d' = dy_evicted d + Z.of_nat (overflow (dy_limit d) ps).
Proof.
  revert d ps free. induction fuel as [|fuel IH]; intros d ps free Hl Hi Hlim Hf; [lia|]. cbn [evict].
  pose proof (dseg_head _ _ _ _ _ (lk_list _ _ _ Hl)) as ->. destruct ps as [|[x e] ps]; cbn [fmap list_fmap head fst].
  { exists d, free. unfold overflow. change (zlen (@nil (nat * entry))) with 0. replace (Z.to_nat (0 + 1 - dy_limit d)) with 0%nat by lia.
    split_and!; try done. cbn. lia. }
  rewrite (lk_size _ _ _ Hl), Z.geb_leb. destruct (Z.leb_spec (dy_limit d) (zlen ((x, e) :: ps))) as [Hge|Hlt].
  - destruct (remove_spec d [] x e ps free Hl Hi) as (d1 & -> & Hl1 & Hi1 & S1 & S2 & S3 & S4). cbn [run_bind app] in *.
    destruct (IH (count_evicted d1) ps (x :: free)) as (d' & free' & -> & Hl' & Hi' & T0 & T1 & T2 & T3 & T4).
    { by destruct Hl1. } { by destruct Hi1. } { cbn. lia. } { cbn [length] in Hf. lia. }
    cbn [count_evicted dy_limit dy_timeout dy_expired dy_evicted] in *. exists d', free'. rewrite S2 in *. rewrite zlen_cons in Hge.
    assert (Ho : overflow (dy_limit d) ((x, e) :: ps) = S (overflow (dy_limit d) ps)) by (unfold overflow; rewrite zlen_cons; lia).
    rewrite Ho. cbn [drop take fmap list_fmap fst]. split_and!; try done; try lia. by rewrite T0, reverse_cons, <- app_assoc.
  - exists d, free. assert (Ho : overflow (dy_limit d) ((x, e) :: ps) = 0%nat) by (unfold overflow; lia). rewrite Ho. split_and!; try done. lia.
Qed.

(** The routes that have expired when the list is in the order of expiry. *)
Fixpoint unexpired (now : Z) (ps : cells) : cells :=
  match ps with
  | [] => []
  | x :: ps' => if now <? e_expires x.2 then ps else unexpired now ps'
  end.

Lemma expire_loop fuel d ps free now :
  linked d ps free -> indexed d ps -> (length ps < fuel)%nat ->
  exists d' free', expire fuel d now = Done d' /\ linked d' (unexpired now ps) free' /\ indexed d' (unexpired now ps) /\
    dy_timeout d' = dy_timeout d /\ dy_limit d' = dy_limit d /\ dy_evicted d' = dy_evicted d.
Proof.
  revert d ps free. induction fuel as [|fuel IH]; intros d ps free Hl Hi Hf; [lia|]. cbn [expire].
  pose proof (dseg_head _ _ _ _ _ (lk_list _ _ _ Hl)) as ->. destruct ps as [|[x e] ps]; cbn [fmap list_fmap head fst]; [by exists d, free|].
  destruct (cell_record _ _ x e (lk_cells _ _ _ Hl) ltac:(left)) as (r & Hr & He). cbn [deref]. rewrite Hr. cbn [must run_bind unexpired snd].
  assert (Hex : dr_expires r = e_expires e) by (by subst e). rewrite Hex. destruct (now <? e_expires e); [by exists d, free|].
  destruct (remove_spec d [] x e ps free Hl Hi) as (d1 & -> & Hl1 & Hi1 & S1 & S2 & S3 & S4). cbn [run_bind app] in *.
  destruct (IH (count_expired d1) ps (x :: free)) as (d' & free' & -> & Hl' & Hi' & T1 & T2 & T3).
  { by destruct Hl1. } { by destruct Hi1. } { cbn [length] in Hf. lia. }
  cbn [count_expired dy_limit dy_timeout dy_evicted] in *. exists d', free'. split_and!; try done; congruence.
Qed.

Lemma expire_spec d ps free now :
  linked d ps free -> indexed d ps ->
  exists d' free', expireDynamicRoutesLocked d now = Done d' /\ linked d' (unexpired now ps) free' /\ indexed d' (unexpired now ps) /\
    dy_timeout d' = dy_timeout d /\ dy_limit d' = dy_limit d /\ dy_evicted d' = dy_evicted d.
Proof. intros Hl Hi. apply (expire_loop _ _ _ free); [done|done|]. pose proof (linked_bound _ _ _ Hl). lia. Qed.

(** The routes of other devices. *)
Definition others (owner : nat) (ps : cells) : cells := filter (fun x => e_owner x.2 <> Some owner) ps.

Lemma remove_owner_loop fuel d ps1 ps2 free owner :
  linked d (ps1 ++ ps2) free -> indexed d (ps1 ++ ps2) -> (length ps2 < fuel)%nat ->
  exists d' free', remove_owner fuel d (head ps2.*1) owner = Done d' /\ linked d' (ps1 ++ others owner ps2) free' /\
    indexed d' (ps1 ++ others owner ps2) /\ same_settings d d'.
Proof.
  revert d ps1 ps2 free. induction fuel as [|fuel IH]; intros d ps1 ps2 free Hl Hi Hf; [lia|]. cbn [remove_owner].
  destruct ps2 as [|[x e] ps2]; cbn [fmap list_fmap head fst]; [by exists d, free; split_and!|].
  destruct (cell_record _ _ x e (lk_cells _ _ _ Hl) ltac:(set_solver)) as (r & Hr & He). cbn [deref]. rewrite Hr. cbn [must run_bind].
  assert (Hn : dr_next r = head ps2.*1).
  { pose proof (lk_list _ _ _ Hl) as Hd. rewrite fmap_app, fmap_cons in Hd. by eapply dseg_next. }
  rewrite Hn. assert (Hown : dr_owner r = e_owner e) by (by subst e). rewrite Hown. unfold others. rewrite filter_cons. cbn [snd].
  cbn [length] in Hf. destruct (decide (e_owner e = Some owner)) as [Heq|Hne].
  - rewrite bool_decide_eq_true_2 by done. destruct (remove_spec d ps1 x e ps2 free Hl Hi) as (d1 & -> & Hl1 & Hi1 & S1 & S2 & S3 & S4). cbn [run_bind].
    rewrite decide_False by naive_solver. destruct (IH d1 ps1 ps2 _ Hl1 Hi1 ltac:(lia)) as (d' & free' & Hd' & Hl' & Hi' & T1 & T2 & T3 & T4).
    exists d', free'. split_and!; try done. split_and!; congruence.
  - rewrite bool_decide_eq_false_2 by done. cbn [run_bind]. rewrite decide_True by done.
    destruct (IH d (ps1 ++ [(x, e)]) ps2 free) as (d' & free' & Hd' & Hl' & Hi' & HS); [by rewrite <- app_assoc|by rewrite <- app_assoc|lia|].
    rewrite <- app_assoc in Hl', Hi'. exists d', free'. by split_and!.
Qed.

Lemma remove_owner_spec d ps free owner :
  linked d ps free -> indexed d ps ->
  exists d' free', removeDynamicRoutesForOwnerLocked d owner = Done d' /\ linked d' (others owner ps) free' /\ indexed d' (others owner ps) /\
    same_settings d d'.
Proof.
  intros Hl Hi. unfold removeDynamicRoutesForOwnerLocked. rewrite (dseg_head _ _ _ _ _ (lk_list _ _ _ Hl)).
  apply (remove_owner_loop _ _ [] ps free); [done|done|]. pose proof (linked_bound _ _ _ Hl). lia.
Qed.

(** ** New routes *)

Lemma new_spec d ps free :
  linked d ps free -> indexed d ps -> 1 <= dy_limit d ->
  let kept := drop (overflow (dy_limit d) ps) ps in
  exists d' p free', newDynamicRouteLocked d = Done (d', p) /\ linked d' kept free' /\ indexed d' kept /\ p ∉ kept.*1 ++ free' /\
    is_Some (dy_store d' !! p) /\ (forall q l, reverse (take (overflow (dy_limit d) ps) ps.*1) ++ free = q :: l -> p = q) /\
    dy_timeout d' = dy_timeout d /\ dy_limit d' = dy_limit d /\ dy_expired d' = dy_expired d /\
    dy_evicted d' = dy_evicted d + Z.of_nat (overflow (dy_limit d) ps).
Proof.
  intros Hl Hi Hlim kept. unfold newDynamicRouteLocked.
  destruct (evict_spec (S (size (dy_store d))) d ps free Hl Hi Hlim) as (d1 & free1 & -> & Hl1 & Hi1 & <- & HS);
    [pose proof (linked_bound _ _ _ Hl); lia|]. fold kept in Hl1, Hi1. cbn [run_bind]. destruct Hl1 as [H1 H2 H3 H4 H5].
  destruct free1 as [|p free1]; cbn [fseg] in H3.
  - rewrite H3. set (p := fresh (dom (dy_store d1))). assert (Hp : p ∉ dom (dy_store d1)) by apply is_fresh.
    assert (Hpk : p ∉ kept.*1).
    { intros ([q e] & -> & Hq)%list_elem_of_fmap. destruct (cell_record _ _ _ _ H2 Hq) as (r & Hr & _). apply Hp, elem_of_dom. by eexists. }
    do 3 eexists. split; [done|]. split_and!; [split| | | | |apply HS..].
    + by apply dseg_frame.
    + cbn. eapply cells_ext; [|exact H2]. intros y Hy. rewrite lookup_insert_ne; [done|]. by intros <-.
    + by instantiate (1 := []).
    + cbn. done.
    + done.
    + by destruct Hi1.
    + by rewrite app_nil_r.
    + cbn. rewrite lookup_insert_eq. by eexists.
    + done.
  - destruct H3 as (-> & r & Hr & H3). cbn [deref]. rewrite Hr. cbn [must run_bind].
    rewrite <- Permutation_middle in H4. apply NoDup_cons in H4 as [Hp Hnd].
    exists (set_free d1 (dy_store d1) (dr_next r) (dy_size d1)), p, free1. split; [done|]. split_and!; [by split|by destruct Hi1|done|by eexists| |apply HS..].
    by intros q l [= <- <-].
Qed.

Lemma add_route_spec d ps free c :
  linked d ps free -> indexed d ps -> 1 <= dy_limit d -> dr_previous c = None -> dr_next c = None ->
  let kept := drop (overflow (dy_limit d) ps) ps in
  exists d' p free', add_route d c = Done (d', p) /\ linked d' (kept ++ [(p, entry_of c)]) free' /\ indexed d' kept /\
    (forall q l, reverse (take (overflow (dy_limit d) ps) ps.*1) ++ free = q :: l -> p = q) /\ dy_timeout d' = dy_timeout d /\ dy_limit d' = dy_limit d /\ dy_expired d' = dy_expired d /\
    dy_evicted d' = dy_evicted d + Z.of_nat (overflow (dy_limit d) ps).
Proof.
  intros Hl Hi Hlim Hcp Hcn kept. unfold add_route.
  destruct (new_spec d ps free Hl Hi Hlim) as (d1 & p & free' & -> & [H1 H2 H3 H4 H5] & Hi1 & Hp & [r Hr] & HS). fold kept in H1, H2, H4, H5, Hi1, Hp.
  cbn [run_bind fst snd assign]. rewrite Hr. cbn [must run_bind]. apply not_elem_of_app in Hp as [Hpk Hpf]. pose proof H4 as (Nk & Nkf & _)%NoDup_app.
  unfold addDynamicRouteLocked. cbn [set_links dy_tail dy_store dy_head dy_free dy_size]. destruct (dy_tail d1) as [t|] eqn:Et.
  - assert (Hne : kept <> []) by (intros ->; cbn in H1; by destruct H1).
    destruct (dseg_last _ _ _ _ _ _ H1) as (l' & y & Hly & [= <-]); [by destruct kept|]. assert (Ht : t ∈ kept.*1) by (rewrite Hly; set_solver).
    assert (Htp : t <> p) by (by intros ->). set (c' := with_previous c (Some t)).
    assert (Hd : dseg (<[p := c']> (dy_store d1)) None (dy_head d1) (Some t) None kept.*1) by by apply dseg_frame.
    destruct (append (<[p := c']> (dy_store d1)) (dy_head d1) t kept.*1 p c' Ht Nk Hpk Hd ltac:(apply lookup_insert_eq) ltac:(done) ltac:(done)) as (rt & Hrt & Hd').
    rewrite lookup_insert_ne in Hrt by done. cbn [assign]. rewrite lookup_insert_ne by done. rewrite Hrt. cbn [must run_bind].
    rewrite lookup_insert_ne, lookup_insert_eq by done. cbn [must run_bind]. do 3 eexists. split; [done|].
    assert (Hst : <[p := with_previous c (Some t)]> (<[t := with_next rt (Some p)]> (<[p := c]> (dy_store d1))) =
                  <[t := with_next rt (Some p)]> (<[p := c']> (dy_store d1))).
    { rewrite insert_insert_ne by done. by rewrite insert_insert_eq. }
    split_and!; [split| |apply HS..]; cbn [set_free set_links dy_store dy_head dy_tail dy_free dy_size]; rewrite ?Hst.
    + rewrite fmap_app. exact Hd'.
    + apply Forall_app. split.
      * eapply cells_ext; [|exact H2]. intros y Hy. destruct (decide (t = y)) as [<-|]; [by rewrite lookup_insert_eq, Hrt|].
        rewrite !lookup_insert_ne; [done| |done]. by intros ->.
      * constructor; [|constructor]. cbn. rewrite lookup_insert_ne, lookup_insert_eq by done. done.
    + apply fseg_frame; [by apply Nkf|]. by apply fseg_frame.
    + rewrite fmap_app, <- app_assoc. cbn. by rewrite <- Permutation_middle, NoDup_cons, not_elem_of_app.
    + rewrite H5, zlen_app. done.
    + by destruct Hi1.
  - assert (Hk : kept = []).
    { destruct kept as [|x kept]; [done|]. by destruct (dseg_last _ _ _ _ _ _ H1 ltac:(done)) as (? & ? & _ & [=]). }
    rewrite Hk in *. clear Hk. do 3 eexists. split; [done|].
    split_and!; [split| |apply HS..]; cbn [set_free set_links dy_store dy_head dy_tail dy_free dy_size app].
    + apply dseg_single. split_and!; [done|done|]. exists c. by rewrite lookup_insert_eq.
    + constructor; [|constructor]. cbn. by rewrite lookup_insert_eq.
    + by apply fseg_frame.
    + cbn. by apply NoDup_cons.
    + rewrite H5. done.
    + by destruct Hi1.
Qed.

(** ** The reference

    A table is the list of its entries, the one that was used longest ago
    first. *)

Definition t_find (k : routeKey) (t : list entry) : option entry := head (filter (fun e => e_key e = k) t).
Definition t_without (k : routeKey) (t : list entry) : list entry := filter (fun e => e_key e <> k) t.

(** The entry of [k] is used: it becomes the last one. *)
Definition t_use (k : routeKey) (f : entry -> entry) (t : list entry) : list entry :=
  match t_find k t with Some e => t_without k t ++ [f e] | None => t end.

(** A new entry, in place of the ones used longest ago if the table is full. *)
Definition t_add (limit : Z) (e : entry) (t : list entry) : list entry := drop (overflow limit t) t ++ [e].

Fixpoint t_expire (now : Z) (t : list entry) : list entry :=
  match t with [] => [] | e :: t' => if now <? e_expires e then t else t_expire now t' end.

Definition t_others (owner : nat) (t : list entry) : list entry := filter (fun e => e_owner e <> Some owner) t.

Definition represents (d : dynamicRoutes) (t : list entry) : Prop :=
  exists ps free, linked d ps free /\ indexed d ps /\ ps.*2 = t.

Definition same_limits (d d' : dynamicRoutes) : Prop := dy_timeout d' = dy_timeout d /\ dy_limit d' = dy_limit d.

Lemma same_limits_trans a b c : same_limits a b -> same_limits b c -> same_limits a c.
Proof. unfold same_limits. intros [-> ->] [-> ->]. done. Qed.

(** No key twice. *)
Lemma keys_unique {A B} (l : list (A * B)) : NoDup l.*1 -> (forall p q k, (p, k) ∈ l -> (q, k) ∈ l -> p = q) -> NoDup l.*2.
Proof.
  induction l as [|[a b] l IH]; [constructor|]. cbn [fmap list_fmap fst snd]. intros [Ha Hnd]%NoDup_cons Hi. apply NoDup_cons. split.
  - intros ([a' b'] & -> & Hin)%list_elem_of_fmap. cbn in *. assert (a = a') as -> by (eapply Hi; [left|right; exact Hin]).
    apply Ha. by apply (list_elem_of_fmap_2 fst) in Hin.
  - apply IH; [done|]. intros p q k Hp Hq. eapply Hi; right; eassumption.
Qed.

Lemma keyed_keys ps : (keyed ps).*2 = map e_key ps.*2.
Proof. unfold keyed. induction ps as [|[p e] ps IH]; [done|]. cbn. by rewrite <- IH. Qed.

Lemma represents_keys d t : represents d t -> NoDup (map e_key t).
Proof.
  intros (ps & free & Hl & [(g & _ & Hg) (g' & _ & Hg')] & <-). rewrite <- keyed_keys. apply keys_unique.
  - rewrite keyed_fst. by pose proof (lk_nodup _ _ _ Hl) as (? & _)%NoDup_app.
  - intros p q [k|k] Hp Hq; [apply Hg in Hp, Hq|apply Hg' in Hp, Hq]; congruence.
Qed.

Lemma filter_key_none (t : list entry) k : k ∉ map e_key t -> filter (fun e => e_key e = k) t = [] /\ filter (fun e => e_key e <> k) t = t.
Proof.
  induction t as [|e t IH]; [done|]. cbn [map]. intros [Hk Hn]%not_elem_of_cons. destruct (IH Hn) as [H1 H2].
  rewrite !filter_cons, H1, H2. by rewrite decide_False, decide_True by done.
Qed.

Lemma t_split t1 e t2 : NoDup (map e_key (t1 ++ e :: t2)) ->
  t_find (e_key e) (t1 ++ e :: t2) = Some e /\ t_without (e_key e) (t1 ++ e :: t2) = t1 ++ t2.
Proof.
  rewrite map_app. cbn [map]. intros Hnd. rewrite <- Permutation_middle in Hnd. apply NoDup_cons in Hnd as [[H1 H2]%not_elem_of_app _].
  unfold t_find, t_without. rewrite !filter_app, !filter_cons. destruct (filter_key_none _ _ H1) as [-> ->], (filter_key_none _ _ H2) as [-> ->].
  by rewrite decide_True, decide_False by naive_solver.
Qed.

Lemma t_find_in k t e : t_find k t = Some e -> e ∈ t /\ e_key e = k.
Proof. unfold t_find. intros Hh%head_Some_elem_of. by apply list_elem_of_filter in Hh as []. Qed.

Lemma t_find_none k t : t_find k t = None <-> k ∉ map e_key t.
Proof.
  split.
  - intros Hf (e & -> & He)%list_elem_of_fmap. unfold t_find in Hf. destruct (filter _ t) eqn:E; [|done].
    assert (Hin : e ∈ filter (fun x => e_key x = e_key e) t) by by apply list_elem_of_filter. rewrite E in Hin. by apply elem_of_nil in Hin.
  - intros Hk. unfold t_find. by destruct (filter_key_none _ _ Hk) as [-> _].
Qed.

(** ** Operations *)

(** What a lookup finds, for the keys of one map. *)
Section Lookup.
Context {K : Type} `{Countable K} (inj : K -> routeKey).

Lemma lookup_found (m : option (gmap K nat)) d t k e :
  index_ok inj m (keyed (d : cells)) -> NoDup (map e_key t) -> d.*2 = t -> t_find (inj k) t = Some e ->
  exists p d1 d2, find_key m k = Some p /\ d = d1 ++ (p, e) :: d2 /\ e_key e = inj k.
Proof.
  intros Hi Hnd <- Hf. apply t_find_in in Hf as [He Hk]. apply list_elem_of_fmap in He as ([p e'] & He' & Hin). cbn in He'. subst e'.
  apply list_elem_of_split in Hin as (d1 & d2 & ->). exists p, d1, d2. split; [|done]. apply (index_find inj _ _ _ _ Hi).
  rewrite keyed_app. rewrite <- Hk. apply elem_of_app. right. left.
Qed.

Lemma lookup_missing (m : option (gmap K nat)) d t k :
  index_ok inj m (keyed (d : cells)) -> d.*2 = t -> t_find (inj k) t = None -> find_key m k = None.
Proof.
  intros Hi <- Hf. destruct (find_key m k) as [p|] eqn:E; [|done]. apply (index_find inj _ _ _ _ Hi), (list_elem_of_fmap_2 snd) in E.
  rewrite keyed_keys in E. by apply t_find_none in Hf.
Qed.

End Lookup.

Lemma unexpired_entries now ps : (unexpired now ps).*2 = t_expire now ps.*2.
Proof. induction ps as [|[p e] ps IH]; [done|]. cbn. by destruct (now <? e_expires e). Qed.

Lemma others_entries owner ps : (others owner ps).*2 = t_others owner ps.*2.
Proof.
  unfold others, t_others. induction ps as [|[p e] ps IH]; [done|]. cbn [fmap list_fmap snd]. rewrite !filter_cons. cbn [snd].
  destruct (decide (e_owner e <> Some owner)); cbn; by rewrite <- IH.
Qed.

Lemma expire_refines d t now : represents d t ->
  exists d', expireDynamicRoutesLocked d now = Done d' /\ represents d' (t_expire now t) /\ same_limits d d'.
Proof.
  intros (ps & free & Hl & Hi & <-). destruct (expire_spec d ps free now Hl Hi) as (d' & free' & Hd & Hl' & Hi' & H1 & H2 & _).
  exists d'. split; [done|]. split; [|done]. exists (unexpired now ps), free'. split_and!; [done|done|apply unexpired_entries].
Qed.

Lemma others_refines d t owner : represents d t ->
  exists d', removeDynamicRoutesForOwnerLocked d owner = Done d' /\ represents d' (t_others owner t) /\ same_limits d d'.
Proof.
  intros (ps & free & Hl & Hi & <-). destruct (remove_owner_spec d ps free owner Hl Hi) as (d' & free' & Hd & Hl' & Hi' & H1 & H2 & _).
  exists d'. split; [done|]. split; [|done]. exists (others owner ps), free'. split_and!; [done|done|apply others_entries].
Qed.

Lemma entries_middle (ps1 ps2 : cells) p e : (ps1 ++ (p, e) :: ps2).*2 = ps1.*2 ++ e :: ps2.*2.
Proof. by rewrite fmap_app. Qed.

(** A record that a map found is used. *)
Lemma touch_refines d ps1 p e ps2 free now :
  linked d (ps1 ++ (p, e) :: ps2) free -> indexed d (ps1 ++ (p, e) :: ps2) ->
  exists d', touchDynamicRouteLocked d p now = Done d' /\
    represents d' (t_use (e_key e) (fun e => used e (now + dy_timeout d)) (ps1 ++ (p, e) :: ps2).*2) /\ same_limits d d'.
Proof.
  intros Hl Hi. destruct (touch_spec d ps1 p e ps2 free now Hl) as (d' & Hd & Hl' & (H1 & H2 & _) & H3 & H4). exists d'. split; [done|].
  split; [|done]. exists (ps1 ++ ps2 ++ [(p, used e (now + dy_timeout d))]), free. split; [done|]. split.
  - assert (Hp : forall x, x ∈ keyed (ps1 ++ (p, e) :: ps2) <-> x ∈ keyed (ps1 ++ ps2 ++ [(p, used e (now + dy_timeout d))])).
    { intros x. rewrite !keyed_app. cbn [keyed map]. rewrite !elem_of_app, elem_of_cons, list_elem_of_singleton. cbn. naive_solver. }
    destruct Hi as [I1 I2]. split; [rewrite H3|rewrite H4]; (eapply index_perm; [exact Hp|done]).
  - assert (Hnd : NoDup (map e_key (ps1 ++ (p, e) :: ps2).*2)) by (eapply represents_keys; exists (ps1 ++ (p, e) :: ps2), free; by split_and!).
    rewrite entries_middle in Hnd |- *. destruct (t_split _ _ _ Hnd) as [Hf Hw]. unfold t_use. rewrite Hf, Hw. by rewrite !fmap_app, <- app_assoc.
Qed.

(** A new route and its key in a map. *)
Lemma add_refines d t c :
  represents d t -> 1 <= dy_limit d -> dr_previous c = None -> dr_next c = None ->
  exists d' p ps, add_route d c = Done (d', p) /\ same_limits d d' /\ ps.*2 = drop (overflow (dy_limit d) t) t /\
    indexed d' ps /\ exists free, linked d' (ps ++ [(p, entry_of c)]) free.
Proof.
  intros (ps & free & Hl & Hi & <-) Hlim Hp Hn. destruct (add_route_spec d ps free c Hl Hi Hlim Hp Hn) as (d' & p & free' & Hd & Hl' & Hi' & _ & H1 & H2 & _).
  exists d', p, (drop (overflow (dy_limit d) ps) ps). split; [done|]. split; [done|]. split; [|split; [done|by exists free']].
  rewrite fmap_drop. do 2 f_equal. unfold overflow, zlen. by rewrite length_fmap.
Qed.

Lemma drop_missing {A} (f : entry -> A) t n k : k ∉ map f t -> k ∉ map f (drop n t).
Proof. intros Hk (e & -> & He)%list_elem_of_fmap. apply Hk. apply list_elem_of_fmap. exists e. split; [done|]. eapply elem_of_subseteq; [|exact He]. apply subseteq_drop. Qed.

(** [rememberFlowLocked] on the reference. *)
Definition t_remember_flow (timeout limit : Z) (key : joinerFlowKey) (owner : nat) (now : Z) (t : list entry) : list entry * bool :=
  match t_find (KFlow key) t with
  | Some e =>
      if bool_decide (e_owner e = Some owner) then (t_use (KFlow key) (fun e => used e (now + timeout)) t, false) else (t, true)
  | None => (t_add limit (MkEntry (KFlow key) (Some owner) (now + timeout)) t, false)
  end.

Lemma remember_flow_refines d t key owner now : represents d t -> 1 <= dy_limit d ->
  exists d' c, rememberFlowLocked d key owner now = Done (d', c) /\ same_limits d d' /\
    represents d' (t_remember_flow (dy_timeout d) (dy_limit d) key owner now t).1 /\
    c = (t_remember_flow (dy_timeout d) (dy_limit d) key owner now t).2.
Proof.
  intros Hr Hlim. pose proof (represents_keys _ _ Hr) as Hnd. unfold rememberFlowLocked, t_remember_flow.
  destruct (t_find (KFlow key) t) as [e|] eqn:Ef.
  - pose proof Hr as (ps & free & Hl & Hi & Hps). destruct (lookup_found KFlow _ ps t key e (ix_flows _ _ Hi) Hnd Hps Ef) as (p & ps1 & ps2 & -> & -> & Hk).
    destruct (cell_record _ _ p e (lk_cells _ _ _ Hl) ltac:(set_solver)) as (r & Hrr & He). cbn [deref]. rewrite Hrr. cbn [must run_bind].
    assert (Hown : dr_owner r = e_owner e) by by subst e. rewrite Hown. destruct (bool_decide (e_owner e = Some owner)); cbn [negb].
    + destruct (touch_refines d ps1 p e ps2 free now Hl Hi) as (d' & -> & Hr' & HS). cbn [run_bind]. rewrite Hps, Hk in Hr'. by do 2 eexists.
    + by do 2 eexists.
  - pose proof Hr as (ps0 & free0 & Hl0 & Hi0 & Hps0). rewrite (lookup_missing KFlow _ ps0 t key (ix_flows _ _ Hi0) Hps0 Ef).
    set (c := MkRoute _ _ _ _ _ _ _). destruct (add_refines d t c Hr Hlim ltac:(done) ltac:(done)) as (d' & p & ps & -> & HS & Hps & [I1 I2] & free & Hl). cbn [run_bind fst snd].
    assert (Hm : find_key (dy_flows d') key = None).
    { eapply (lookup_missing KFlow _ ps); [done|exact Hps|]. apply t_find_none, drop_missing. by apply t_find_none. }
    destruct (index_add KFlow KFlow_inj _ _ p key Hm I1) as (m' & -> & I1'). cbn [run_bind]. do 2 eexists. split; [done|]. split; [done|]. split; [|done].
    exists (ps ++ [(p, entry_of c)]), free. split; [by destruct Hl|]. rewrite fmap_app, Hps. split; [|done].
    split; cbn; rewrite keyed_app; [done|]. by apply index_add_other.
Qed.

(** [rememberInboundFragmentLocked] on the reference. *)
Definition t_remember_fragment (timeout limit : Z) (packet : joinerPacket) (owner : option nat) (now : Z) (t : list entry) : list entry :=
  if bool_decide (owner = None) || negb (jp_fragmented packet) || negb (jp_fragmentOffset packet =? 0) || negb (jp_moreFragments packet) then t
  else
    let key := KFragment (fragmentKey packet) in
    match t_find key t with
    | Some _ => t_use key (fun _ => MkEntry key owner (now + timeout)) t
    | None => t_add limit (MkEntry key owner (now + timeout)) t
    end.

Lemma remember_fragment_refines d t packet owner now : represents d t -> 1 <= dy_limit d ->
  exists d', rememberInboundFragmentLocked d packet owner now = Done d' /\ same_limits d d' /\
    represents d' (t_remember_fragment (dy_timeout d) (dy_limit d) packet owner now t).
Proof.
  intros Hr Hlim. pose proof (represents_keys _ _ Hr) as Hnd. unfold rememberInboundFragmentLocked, t_remember_fragment.
  destruct (_ || _ || _ || _); [by exists d|]. set (key := fragmentKey packet).
  destruct (t_find (KFragment key) t) as [e|] eqn:Ef.
  - pose proof Hr as (ps & free & Hl & Hi & Hps). destruct (lookup_found KFragment _ ps t key e (ix_fragments _ _ Hi) Hnd Hps Ef) as (p & ps1 & ps2 & -> & -> & Hk).
    destruct (update_spec d ps1 p e ps2 free (fun r => with_owner r owner) Hl) as (h & r & -> & Hrr & Hhx & He & Hl'); [done|]. cbn [run_bind].
    set (d1 := set_links d h (dy_head d) (dy_tail d)) in *. set (e1 := entry_of (with_owner r owner)) in *.
    assert (He1 : e1 = MkEntry (e_key e) owner (e_expires e)) by (unfold e1; by subst e).
    assert (Hi1 : indexed d1 (ps1 ++ (p, e1) :: ps2)).
    { destruct Hi as [I1 I2]. rewrite keyed_app in I1, I2. split; rewrite keyed_app; cbn [keyed map fst snd]; rewrite He1; done. }
    destruct (touch_refines d1 ps1 p e1 ps2 free now Hl' Hi1) as (d' & -> & Hr' & HS). exists d'. split; [done|]. split; [done|].
    assert (Hnd1 : NoDup (map e_key (ps1 ++ (p, e1) :: ps2).*2)) by (eapply represents_keys; exists (ps1 ++ (p, e1) :: ps2), free; by split_and!).
    rewrite <- Hps in Ef, Hnd |- *. rewrite entries_middle in Hr', Hnd, Hnd1, Ef |- *.
    unfold t_use in Hr' |- *. destruct (t_split _ _ _ Hnd1) as [F1 W1]. destruct (t_split _ _ _ Hnd) as [F2 W2]. rewrite Hk in F2, W2. rewrite F1, W1 in Hr'. rewrite F2, W2.
    rewrite He1 in Hr'. unfold used in Hr'. cbn [e_key e_owner] in Hr'. by rewrite Hk in Hr'.
  - pose proof Hr as (ps0 & free0 & Hl0 & Hi0 & Hps0). rewrite (lookup_missing KFragment _ ps0 t key (ix_fragments _ _ Hi0) Hps0 Ef).
    set (c := MkRoute _ _ _ _ _ _ _). destruct (add_refines d t c Hr Hlim ltac:(done) ltac:(done)) as (d' & p & ps & -> & HS & Hps & [I1 I2] & free & Hl). cbn [run_bind fst snd].
    assert (Hm : find_key (dy_fragments d') key = None).
    { eapply (lookup_missing KFragment _ ps); [done|exact Hps|]. apply t_find_none, drop_missing. by apply t_find_none. }
    destruct (index_add KFragment KFragment_inj _ _ p key Hm I2) as (m' & -> & I2'). cbn [run_bind]. eexists. split; [done|]. split; [done|].
    exists (ps ++ [(p, entry_of c)]), free. split; [by destruct Hl|]. rewrite fmap_app, Hps. split; [|done].
    split; cbn; rewrite keyed_app; [|done]. by apply index_add_other.
Qed.

(** A flow route that was just used keeps its owner when a fragment is
    remembered for that owner, also when the limit of one entry makes the
    fragment take its record. *)
Lemma remember_keeps_owner d ps p e free k packet now d' :
  linked d (ps ++ [(p, e)]) free -> indexed d (ps ++ [(p, e)]) -> 1 <= dy_limit d -> e_key e = KFlow k ->
  rememberInboundFragmentLocked d packet (e_owner e) now = Done d' -> exists r, dy_store d' !! p = Some r /\ dr_owner r = e_owner e.
Proof.
  intros Hl Hi Hlim Hk. assert (Hrec : forall d ps' free, linked d ps' free -> (p, e) ∈ ps' -> exists r, dy_store d !! p = Some r /\ dr_owner r = e_owner e).
  { intros d0 ps' free0 Hl0 Hin. destruct (cell_record _ _ p e (lk_cells _ _ _ Hl0) Hin) as (r & Hr & He). exists r. split; [done|]. by subst e. }
  unfold rememberInboundFragmentLocked. destruct (_ || _ || _ || _); [intros [= <-]; eapply Hrec; [done|set_solver]|].
  set (key := fragmentKey packet). destruct (find_key (dy_fragments d) key) as [q|] eqn:Ef.
  - apply (index_find KFragment _ _ _ _ (ix_fragments _ _ Hi)) in Ef. apply list_elem_of_fmap in Ef as ([q' e'] & [= -> He'] & Hin).
    apply list_elem_of_split in Hin as (ps1 & ps2 & Hps).
    assert (Hin : (p, e) ∈ ps1 ++ ps2).
    { assert (Hin : (p, e) ∈ ps1 ++ (q', e') :: ps2) by (rewrite <- Hps; set_solver). rewrite elem_of_app, elem_of_cons in Hin.
      rewrite elem_of_app. destruct Hin as [|[[= -> ->]|]]; [by left| |by right]. congruence. }
    rewrite Hps in Hl. destruct (update_spec d ps1 q' e' ps2 free (fun r => with_owner r (e_owner e)) Hl) as (h & r & -> & _ & _ & _ & Hl'); [done|].
    cbn [run_bind]. destruct (touch_spec _ ps1 q' _ ps2 free now Hl') as (d2 & -> & Hl2 & _). intros [= <-].
    eapply Hrec; [exact Hl2|]. rewrite app_assoc. apply elem_of_app. by left.
  - set (c := MkRoute _ _ _ _ _ _ _). destruct (add_route_spec d _ free c Hl Hi Hlim ltac:(done) ltac:(done)) as (d2 & p2 & free2 & -> & Hl2 & _ & Hp2 & _).
    cbn [run_bind fst snd]. destruct (store_key _ _ _) as [m| |]; [|done|done]. cbn [run_bind]. intros [= <-]. cbn [set_fragments dy_store].
    destruct (decide (overflow (dy_limit d) (ps ++ [(p, e)]) <= length ps)%nat) as [Hle|Hgt].
    + eapply Hrec; [exact Hl2|]. rewrite drop_app_le by done. set_solver.
    + assert (p2 = p) as ->.
      { apply (Hp2 p (reverse ps.*1 ++ free)). rewrite take_ge by (rewrite length_fmap, length_app; cbn; lia). by rewrite fmap_app, reverse_app. }
      destruct (cell_record _ _ p (entry_of c) (lk_cells _ _ _ Hl2) ltac:(set_solver)) as (r & Hr & He). exists r. split; [done|].
      by apply (f_equal e_owner) in He.
Qed.

(** ** Sequences of operations *)

(** What the joiner does to its table. *)
Inductive tableOp : Type :=
| TableFlow (key : joinerFlowKey) (owner : nat) (now : Z)
| TableFragment (packet : joinerPacket) (owner : option nat) (now : Z)
| TableUse (key : joinerFlowKey) (now : Z)
| TableExpire (now : Z)
| TableDetach (owner : nat).

Definition table_exec (d : dynamicRoutes) (op : tableOp) : run dynamicRoutes :=
  match op with
  | TableFlow key owner now => let! r := rememberFlowLocked d key owner now in Done r.1
  | TableFragment packet owner now => rememberInboundFragmentLocked d packet owner now
  | TableUse key now => match find_key (dy_flows d) key with Some p => touchDynamicRouteLocked d p now | None => Done d end
  | TableExpire now => expireDynamicRoutesLocked d now
  | TableDetach owner => removeDynamicRoutesForOwnerLocked d owner
  end.

Definition t_exec (timeout limit : Z) (op : tableOp) (t : list entry) : list entry :=
  match op with
  | TableFlow key owner now => (t_remember_flow timeout limit key owner now t).1
  | TableFragment packet owner now => t_remember_fragment timeout limit packet owner now t
  | TableUse key now => t_use (KFlow key) (fun e => used e (now + timeout)) t
  | TableExpire now => t_expire now t
  | TableDetach owner => t_others owner t
  end.

Lemma table_exec_refines d t op : represents d t -> 1 <= dy_limit d ->
  exists d', table_exec d op = Done d' /\ represents d' (t_exec (dy_timeout d) (dy_limit d) op t) /\ same_limits d d'.
Proof.
  intros Hr Hl. destruct op; cbn [table_exec t_exec].
  - destruct (remember_flow_refines d t key owner now Hr Hl) as (d' & c & -> & HS & Hr' & _). by exists d'.
  - destruct (remember_fragment_refines d t packet owner now Hr Hl) as (d' & -> & HS & Hr'). by exists d'.
  - pose proof (represents_keys _ _ Hr) as Hnd. pose proof Hr as (ps & free & Hlk & Hi & Hps). destruct (t_find (KFlow key) t) as [e|] eqn:Hf.
    + destruct (lookup_found KFlow _ ps t key e (ix_flows _ _ Hi) Hnd Hps Hf) as (p & ps1 & ps2 & -> & -> & Hk).
      destruct (touch_refines d ps1 p e ps2 free now Hlk Hi) as (d' & Hd & Hr' & HS). rewrite Hps, Hk in Hr'. by exists d'.
    + rewrite (lookup_missing KFlow _ ps t key (ix_flows _ _ Hi) Hps Hf). unfold t_use. rewrite Hf. by exists d.
  - by apply expire_refines.
  - by apply others_refines.
Qed.

Fixpoint table_run (d : dynamicRoutes) (ops : list tableOp) : run dynamicRoutes :=
  match ops with [] => Done d | op :: ops' => let! d := table_exec d op in table_run d ops' end.

Definition fresh_table (timeout limit : Z) : dynamicRoutes := MkDynamic timeout limit ∅ (Some ∅) (Some ∅) None None None 0 0 0.

Lemma fresh_represents timeout limit : represents (fresh_table timeout limit) [].
Proof.
  exists [], []. split_and!; [split; cbn; try done; constructor| |done].
  split; exists ∅; (split; [done|]); intros k p; rewrite lookup_empty, elem_of_nil; naive_solver.
Qed.

Lemma table_run_refines ops d t : represents d t -> 1 <= dy_limit d ->
  exists d', table_run d ops = Done d' /\ represents d' (foldl (fun t op => t_exec (dy_timeout d) (dy_limit d) op t) t ops).
Proof.
  revert d t. induction ops as [|op ops IH]; intros d t Hr Hl; [by exists d|]. cbn [table_run foldl].
  destruct (table_exec_refines d t op Hr Hl) as (d1 & -> & Hr1 & HT & HL). cbn [run_bind].
  destruct (IH d1 _ Hr1 ltac:(lia)) as (d2 & Hd2 & Hr2). exists d2. split; [done|]. by rewrite HT, HL in Hr2.
Qed.

(** The size counter is the number of entries. *)
Lemma represents_size d t : represents d t -> dy_size d = zlen t.
Proof. intros (ps & free & Hl & _ & <-). rewrite (lk_size _ _ _ Hl). unfold zlen. by rewrite length_fmap. Qed.

Lemma t_use_size k f t : zlen (t_use k f t) <= zlen t.
Proof.
  unfold t_use. destruct (t_find k t) as [e|] eqn:E; [|done]. apply t_find_in in E as [Hin Hk]. apply list_elem_of_split in Hin as (t1 & t2 & ->).
  unfold t_without. rewrite filter_app, filter_cons, decide_False by naive_solver. rewrite !zlen_app, zlen_cons. unfold zlen.
  pose proof (length_filter (fun e => e_key e <> k) t1). pose proof (length_filter (fun e => e_key e <> k) t2). cbn. lia.
Qed.

Lemma t_add_size limit e t : 1 <= limit -> zlen t <= limit -> zlen (t_add limit e t) <= limit.
Proof. intros Hl Ht. unfold t_add, overflow. rewrite zlen_app. unfold zlen in *. rewrite length_drop. cbn. lia. Qed.

Lemma t_expire_size now t : zlen (t_expire now t) <= zlen t.
Proof. induction t as [|e t IH]; [done|]. cbn. destruct (now <? e_expires e); rewrite ?zlen_cons; lia. Qed.

Lemma t_fragment_size timeout limit packet owner now t :
  1 <= limit -> zlen t <= limit -> zlen (t_remember_fragment timeout limit packet owner now t) <= limit.
Proof.
  intros Hl Ht. unfold t_remember_fragment. destruct (_ || _ || _ || _); [done|]. destruct (t_find _ t); [|by apply t_add_size].
  etrans; [apply t_use_size|done].
Qed.

Lemma t_flow_size timeout limit key owner now t :
  1 <= limit -> zlen t <= limit -> zlen (t_remember_flow timeout limit key owner now t).1 <= limit.
Proof.
  intros Hl Ht. unfold t_remember_flow. destruct (t_find _ t) as [e|]; [|by apply t_add_size].
  destruct (bool_decide _); [|done]. etrans; [apply t_use_size|done].
Qed.

Lemma t_exec_size timeout limit op t : 1 <= limit -> zlen t <= limit -> zlen (t_exec timeout limit op t) <= limit.
Proof.
  intros Hl Ht. destruct op; cbn [t_exec].
  - by apply t_flow_size.
  - by apply t_fragment_size.
  - etrans; [apply t_use_size|done].
  - etrans; [apply t_expire_size|done].
  - etrans; [|exact Ht]. unfold t_others, zlen. pose proof (length_filter (fun e => e_owner e <> Some owner) t). lia.
Qed.

(** The device of a flow. *)
Definition flow_owner (d : dynamicRoutes) (k : joinerFlowKey) : option nat :=
  p ← find_key (dy_flows d) k; r ← dy_store d !! p; dr_owner r.

Lemma flow_owner_table d t k : represents d t -> flow_owner d k = t_find (KFlow k) t ≫= e_owner.
Proof.
  intros Hr. pose proof (represents_keys _ _ Hr) as Hnd. destruct Hr as (ps & free & Hl & Hi & Hps). unfold flow_owner.
  destruct (t_find (KFlow k) t) as [e|] eqn:Hf.
  - destruct (lookup_found KFlow _ ps t k e (ix_flows _ _ Hi) Hnd Hps Hf) as (p & ps1 & ps2 & -> & -> & _). cbn.
    destruct (cell_record _ _ p e (lk_cells _ _ _ Hl) ltac:(set_solver)) as (r & -> & <-). done.
  - by rewrite (lookup_missing KFlow _ ps t k (ix_flows _ _ Hi) Hps Hf).
Qed.

Definition t_run (timeout limit : Z) (ops : list tableOp) : list entry := foldl (fun t op => t_exec timeout limit op t) [] ops.

Lemma t_run_size timeout limit ops : 1 <= limit -> zlen (t_run timeout limit ops) <= limit.
Proof.
  intros Hl. unfold t_run. assert (H0 : zlen (@nil entry) <= limit) by (unfold zlen; cbn; lia). revert H0. generalize (@nil entry).
  induction ops as [|op ops IH]; intros t Ht; [done|]. cbn [foldl]. by apply IH, t_exec_size.
Qed.

(** C16. The pointers refine a list: after any sequence of operations on a fresh
    table of dynamic routes, the doubly linked list, the list of free records
    and the two maps represent what a list of entries in the order of their
    last use holds after the same operations; no operation dereferences nil or
    loops; the counter is the number of entries, never above the limit; and a
    flow leads to the device its entry names. *)
Theorem joiner_table_refines timeout limit ops : 1 <= limit ->
  exists d, table_run (fresh_table timeout limit) ops = Done d /\ represents d (t_run timeout limit ops) /\
    dy_size d = zlen (t_run timeout limit ops) /\ dy_size d <= limit /\
    forall k, flow_owner d k = t_find (KFlow k) (t_run timeout limit ops) ≫= e_owner.
Proof.
  intros Hl. destruct (table_run_refines ops (fresh_table timeout limit) [] (fresh_represents timeout limit) Hl) as (d & Hd & Hr).
  exists d. pose proof (represents_size _ _ Hr) as Hs. split_and!; [done|exact Hr|exact Hs| |].
  - rewrite Hs. by apply t_run_size.
  - intros k. by apply flow_owner_table.
Qed.

Lemma joiner_table_refines_witness :
  let ops := [TableFlow zero_flowKey 3 0; TableUse zero_flowKey 5; TableExpire 8] in
  exists d, table_run (fresh_table 10 1) ops = Done d /\ represents d (t_run 10 1 ops) /\
    dy_size d = zlen (t_run 10 1 ops) /\ dy_size d <= 1 /\
    forall k, flow_owner d k = t_find (KFlow k) (t_run 10 1 ops) ≫= e_owner.
Proof. apply (joiner_table_refines 10 1). lia. Defined.
