(* ===== verification/JoinerSpec.v ===== *)
(** * What the joiner promises

    The parser returns on every buffer; in every reachable state of the joiner
    the table of dynamic routes represents a bounded list of entries, every
    route leads to an attached device, and routing returns; the answer to a
    packet of a device goes back to it. *)

From S2P Require Import Prelude Classifier PrefixSpec Joiner JoinerTable.

(** ** The parser *)









(** ** Keys *)




(** ** Tables *)

Section Tables.
Variable P : entry -> Prop.





End Tables.

(** ** The invariant *)

(** A device that is attached and not closed. *)
Definition attached (j : Joiner) (n : nat) : Prop :=
  exists o, j_objects j !! n = Some o /\ jn_closed o = false /\ find_key (at_nested (j_attached j)) (jn_t o) = Some n.

Definition owned (j : Joiner) (owner : option nat) : Prop := match owner with Some n => attached j n | None => False end.



(** The parts that routing leaves alone. *)
Definition same_devices (j j' : Joiner) : Prop :=
  j_closed j' = j_closed j /\ j_done j' = j_done j /\ j_pending j' = j_pending j /\ j_pendingHead j' = j_pendingHead j /\
  j_flowRouting j' = j_flowRouting j /\ j_objects j' = j_objects j /\ at_default (j_attached j') = at_default (j_attached j) /\
  at_secondaries (j_attached j') = at_secondaries (j_attached j) /\ at_nested (j_attached j') = at_nested (j_attached j).



Lemma attached_same j j' n : same_devices j j' -> attached j' n <-> attached j n.
Proof. intros (_ & _ & _ & _ & _ & Ho & _ & _ & Hn). unfold attached. rewrite Ho, Hn. reflexivity. Qed.





(** ** Routing *)




















(** A target of a packet. *)
Definition target_ok (j : Joiner) (target : option nat) : Prop := forall n, target = Some n -> attached j n.

Lemma target_owned j o : target_ok j o -> o <> None -> owned j o.
Proof. intros Ht Ho. destruct o as [n|]; [by apply Ht|done]. Qed.


Lemma count_attached j c n : attached (count j c) n <-> attached j n.
Proof. apply attached_same. by split_and!. Qed.




(** The fields that a packet of a known flow must have to be routed by it. *)
Definition later_fragment (p : joinerPacket) : bool := jp_fragmented p && negb (jp_fragmentOffset p =? 0).




(** ** Learning *)












(** ** Devices *)

(** A map is walked in some order of its entries. *)
Definition devices_ok (v : devices) : Prop := forall m, dv_order v m ≡ₚ (map_to_list m).*2.






















(** ** The operations *)
















(** ** Writes to devices *)

(** The records that exist are never lost. *)
Definition objects_kept (j j' : Joiner) : Prop := forall n, is_Some (j_objects j !! n) -> is_Some (j_objects j' !! n).

Lemma objects_kept_refl j : objects_kept j j.
Proof. by intros n. Qed.
#[local] Hint Resolve objects_kept_refl : core.






(** ** Executions *)

(** The critical sections that callers and goroutines run, in any order.  A
    goroutine of a device holds the pointer to its record. *)
Inductive joinerOp : Type :=
| OpAttachDefault (t : option nat) | OpAttachSecondary (t : option nat) | OpDetach (t : nat) | OpDetachDefault
| OpDetachNested (n : nat) | OpSetUp (n : nat) (up : bool) | OpMTUUpdate
| OpRemember (packets : list (list byte)) (n : nat) (now : Z) | OpReceive (packets : list (list byte)) (owner : option nat)
| OpRead (bufs : list Z) (sizes : list Z) (offset : Z) | OpRoute (bufs : list (list byte)) (offset now : Z)
| OpDeliver (targets : list (option nat)) (bufs : list (list byte)) (offset : Z) (ss : list (list (Z * option joinerError)))
| OpStats (now : Z) | OpClose.

(** [Close] runs its section once. *)
Definition exec (v : devices) (dirty : Z -> list byte) (j : Joiner) (op : joinerOp) : run Joiner :=
  match op with
  | OpAttachDefault t => let! r := AttachDefault v j t in Done r.1.1.1
  | OpAttachSecondary t => let! r := AttachSecondary v j t in Done r.1.1.1
  | OpDetach t => let! r := Detach v j t in Done r.1.1.1
  | OpDetachDefault => let! r := DetachDefault v j in Done r.1.1.1
  | OpDetachNested n => detachNested v j n
  | OpSetUp n up => setUp j n up
  | OpMTUUpdate => recalculateLocked v j
  | OpRemember packets n now => rememberRoutes j packets n now
  | OpReceive packets owner => receive j packets owner
  | OpRead bufs sizes offset => let! r := readPending j bufs (zlen sizes) offset in Done r.1.1.1
  | OpRoute bufs offset now => let! r := Write_locked j bufs offset now in Done r.1
  | OpDeliver targets bufs offset ss => let! r := Write_targets v dirty j targets bufs offset ss in Done r.1.1.1
  | OpStats now => let! r := RoutingStats j now in Done r.1
  | OpClose => if j_closed j then Done j else let! r := Close_locked v j in Done r.1
  end.






(** ** Answers *)










(** ** Examples *)

(** Two devices with one address each, and a flow of the second one. *)
Definition demo_devices : devices := MkDevices (fun _ => Some 1400) (fun _ => 8) (fun _ => 0) (fun m => (map_to_list m).*2).
Definition demo_dirty : Z -> list byte := fun n => repeat x00 (Z.to_nat n).

Lemma demo_devices_ok : devices_ok demo_devices.
Proof. by intros m. Defined.

Definition demo_ops : list joinerOp := [OpAttachDefault (Some 0%nat); OpAttachSecondary (Some 1%nat)].
Definition demo_run : run Joiner := let! j := NewJoinerWithOptions true true 0 0 in each (exec demo_devices demo_dirty) j demo_ops.
Definition demo_joiner : Joiner :=
  match demo_run with Done j => j | _ => MkJoiner true true [] true [] 0 (MkAttached None None None None None) false (MkDynamic 0 0 ∅ None None None None None 0 0 0) (MkStats 0 0 0 0 0 0) 0 0 ∅ end.



(** 10.0.0.2:5000 to 1.1.1.1:53, and the answer. *)
Definition demo_packet : list byte :=
  [x45; x00; x00; x1c; x00; x00; x00; x00; x40; x11; x00; x00; x0a; x00; x00; x02; x01; x01; x01; x01; x13; x88; x00; x35; x00; x08; x00; x00].

Definition parsed_or_zero (c : run (option joinerPacket)) : joinerPacket := match c with Done (Some p) => p | _ => zero_packet end.
Definition demo_key : joinerFlowKey :=
  match joinerReverseFlowKey (parsed_or_zero (parseJoinerPacket demo_packet 0)) with Done (Some k) => k | _ => zero_flowKey end.

(** ** Properties *)





(** C39. When the goroutine of the joiner could not be started, the joiner that
    the constructor returns is closed, and closing it panics: [Close] closes
    the channel [done] a second time. *)
Theorem joiner_close_panics v shared timeout limit : devices_ok v ->
  exists j, NewJoinerWithOptions false shared timeout limit = Done j /\ j_closed j = true /\ Close_locked v j = Panicked.
Proof.
  intros Hv. unfold NewJoinerWithOptions. destruct (normalizeJoinerOptions timeout limit) as [ft fl]. eexists. split; [reflexivity|]. split; [done|].
  assert (Ho : dv_order v ∅ = []) by (apply Permutation_nil_r; rewrite (Hv ∅); by rewrite map_to_list_empty).
  unfold Close_locked. cbn -[recalculateLocked]. rewrite Ho. cbn -[recalculateLocked]. unfold recalculateLocked. cbn. by rewrite bool_decide_true.
Qed.

Lemma joiner_close_panics_witness :
  devices_ok demo_devices /\ exists j, NewJoinerWithOptions false true 0 0 = Done j /\ j_closed j = true /\ Close_locked demo_devices j = Panicked.
Proof. split; [exact demo_devices_ok|]. exact (joiner_close_panics demo_devices true 0 0 demo_devices_ok). Defined.

(** The MTU depends on the order in which the map is walked when a device
    cannot tell its own: after such a device the default of 1500 counts as a
    bound. *)
Example mtu_depends_on_order :
  let v order := MkDevices (fun t => if bool_decide (t = 0%nat) then None else Some 9000) (fun _ => 8) (fun _ => 0) order in
  let mtu v := match recalculateLocked v demo_joiner with Done j => j_mtu j | _ => 0 end in
  mtu (v (fun m => (map_to_list m).*2)) = 1500 /\ mtu (v (fun m => reverse (map_to_list m).*2)) = 9000 \/
  mtu (v (fun m => (map_to_list m).*2)) = 9000 /\ mtu (v (fun m => reverse (map_to_list m).*2)) = 1500.
Proof. vm_compute. auto. Qed.

(** A later fragment of an ICMP message, whose bytes are payload, is read as
    an ICMP header and routed by the packet it seems to quote. *)
Definition later_icmp : list byte :=
  [x45; x00; x00; x38; x00; x07; x00; x01; x40; x01; x00; x00; x01; x01; x01; x01; x0a; x00; x00; x09; x03; x03; x00; x00; x00; x00; x00; x00] ++ demo_packet.

Example later_fragment_read_as_error :
  let p := parsed_or_zero (parseJoinerPacket later_icmp 0) in
  later_fragment p = true /\ joinerInboundFlowKey p = Done (Some demo_key).
Proof. vm_compute. auto. Qed.
